(* ===== verification/_CoqProject ===== *)
-Q . S2P
Prelude.v
PyText.v
PyDict.v
Gsm7.v
Salvage.v
Codec.v
Encode.v
Roundtrip.v
Frames.v
Concat.v
Schedule.v
Json.v
Store.v
NextRun.v
Scheduler.v
Commands.v
Link.v
Ingest.v
Operations.v
Delivery.v
App.v
TaskSync.v
AtErrors.v
AtClient.v
AtText.v
Driver.v
Worker.v
Modem.v
Inbox.v
Calls.v
Notify.v
Outbox.v
Alerts.v
Fleet.v
PduClass.v
Handlers.v
System.v
Mailbox.v
Registry.v
Events.v
Heard.v
Device.v
Base64.v
History.v
Channels.v
Senders.v
Auth.v
Reminders.v
Retention.v
Restoring.v
Discovery.v
Targets.v
Migrate.v
Notifier.v
