(* ===== verification/Prelude.v ===== *)
(** * air780e-hub: a verification development

    air780e-hub runs Air780E modems on a small host and shows them on a server.
    The agent (src/agent/src/air780e_agent) drives the modules over AT commands,
    decodes and reassembles SMS, keeps a durable queue of events and obeys
    commands; the server (src/server/src/hub_server) keeps one WebSocket session
    per agent, applies each event once, follows the commands it sent, pages when
    a module stays away and pushes messages to notification channels.  This
    library models both programs, shallowly: pure code is a Gallina function, an
    exception is [Err] of a [res] (below), state is passed explicitly, and what an
    event loop interleaves is a step relation whose steps are the stretches
    between two awaits.  Definitions keep the names of the source and evaluate, so
    the witnesses run them.

    ** Files and the code they model

    Shared: [Prelude] (results, strings as lists of code points, tactics),
    [PyText] (Unicode spaces and digits, [strip], [int], UTF-16, order of texts),
    [PyDict] (insertion-ordered dictionaries), [Json] (what [json.loads] gives),
    [Base64] (UTF-8 and base 64, as the cursors use them).

    SMS (agent, pdu/): [Gsm7] (gsm7.py), [Salvage] (salvage.py), [Codec] and
    [Encode] (codec.py, reading and building), [Roundtrip] and [Frames] (what is
    built is read back), [Concat] (concat.py).

    The module (agent, at/ and modem.py): [AtErrors], [AtClient] (one command from
    request to final code, unsolicited lines), [AtText] (fields of answers),
    [Driver] (the driver's state, its programs and their proof rule), [Modem]
    (registration, radio, packet data, operators), [Inbox] (the message store and
    sending), [Calls].  A method of [Air780E] is a program over AT commands; [run]
    executes it against a script of answers and [wp] speaks of all scripts.

    The worker (agent, worker.py): [Worker] (recovery with its rate limit, the
    packet-data policy, the status filter), [Events] (what is queued for the
    server, the local history of store.py), [Heard] (what the driver's programs
    answer and hand on is made of the lines they heard), [Device] (connection,
    polls, callbacks and commands as tasks that interleave).

    The rest of the agent: [Schedule] and [NextRun] (schedule.py), [Scheduler]
    (scheduler.py), [Store] (store.py), [Commands] (commands.py), [App] (app.py),
    [Link] (link.py), [Discovery] (discovery.py, the devices of config.py, and the
    adoption of unknown modules in app.py and worker.py).

    The server: [Ingest] (idempotent application of events), [Handlers] (what each
    kind of event does to the tables), [Registry] (sessions, the single database
    worker, waiting commands), [Operations] (submitted commands), [Delivery]
    (delivery reports), [TaskSync] (task snapshots and receipts), [Fleet] (agents,
    modules, cards), [Alerts] (incidents, offline alerts), [Notify] and [Outbox]
    (rules, texts, queue and deliveries of notifications), [PduClass] (data or
    text), [History] (reads of the messages table, cursors, threads).  Around
    them: [Channels] (the API of channels and rules, secrets of a channel),
    [Senders] (the eight senders of notify.py and one attempt), [Auth] (auth.py,
    sign-in and the agents' token), [Reminders] (cards and their reminders),
    [Retention] (the purge of old rows), [Restoring] (restore.py), [Migrate] (the
    schema and the migrations of db.py), [Targets] (the API's commands and tasks
    addressed to a module, the gateway's [call] and [dispatch]), [Notifier] (the
    class Notifier at work: limits on sends, texts of tasks, calls and alerts,
    outcomes and their incidents, the worker's loop).

    Both programs: [System] puts [Store], [Link] and [Ingest] together, for any
    function that applies an event and, in its examples, for that of [Handlers];
    [Mailbox] says what the whole promises; [TaskSync] pairs the server's push
    with the agent's handler; the last part of [Events] and [Device] pair what the
    agent queues with what [Handlers] accepts, and [Targets] the frames the API sends with
    what [App] reads in them.

    ** What is shown

    - Delivery: every event is applied once and in order, none is lost while it
      is queued, the queue drains when the connection holds and the server accepts
      what it is owed, and the path from
      queue to tables refines a first-in first-out mailbox ([System], [Mailbox]).
    - Acceptance: whatever a worker's tasks queue, in any interleaving and from
      whatever lines the module says, as long as they are text and its
      measurements have at most eighteen digits, the server's handlers store and
      acknowledge ([Heard], [Device]); a task result whose task
      was deleted is what does block a stream ([Handlers]).
    - Commands: a durable command starts once and is reported once, a replay
      executes nothing ([Store], [App]); on the server a session is exclusive,
      operations belong to the session that claimed them and every waiting
      command is answered ([Registry]), and operations only advance
      ([Operations]).
    - The module: a response is what arrived between request and final code
      ([AtClient]); a flight mode is respected, data that is off is verified off,
      a selection ends ([Modem]); draining hands on what it frees, and loses it
      when a later slot fails ([Inbox]); a call that was set up is hung up
      ([Calls]); recovery actions are limited in any 24 hours, and apart by the
      cool-down up to a day, and user data fails
      closed ([Worker]).
    - SMS: what the builders build is read back, reassembly does not depend on
      the order of arrival ([Frames], [Concat], [Gsm7]).
    - Tasks: a tick starts exactly the due tasks ([Scheduler]); a snapshot that is
      acknowledged is the one stored, and synchronisation converges ([TaskSync]).
    - Notifications: a push is owed with the row it is about, once per target, and
      leased to one worker at a time ([Handlers], [Outbox], [Notify]); an offline
      page is earned ([Alerts]); reports never take a delivery back and their
      order does not matter ([Delivery]); a delivery counts as made only when the
      provider took it ([Senders]); the preview of a rule is what happens, and no
      credential of a channel leaves through the API ([Channels]); a channel's
      incident is open exactly after a failure, the worker goes on whatever a
      pass raises, and its limits do let one channel starve the others
      ([Notifier]).
    - Access: a session is earned by the password in force ([Auth]); a command
      reaches the module it was addressed to and the agent reads in it what the
      API wrote, tasks stay on their module ([Targets]); among the workers that
      search for their port each has its own, and a module is adopted once
      ([Discovery]).
    - The database over time: a start that is interrupted and repeated ends in
      the same file, with a way back at every moment ([Migrate]); a purge ends and
      keeps what is recent ([Retention]); a restore is alone and ends in one of its
      stated outcomes ([Restoring]); reminders follow the cards ([Reminders]).
    - Reading: a transcript is paged without gaps or repeats while messages
      arrive, marking read stops at what was seen, threads partition the messages
      ([History]); the tables keep their types ([Fleet]).

    Files under src/ that these theorems found wrong are listed with the theorem
    or example that shows it, next to the definitions (the Examples at the end of
    [Handlers], [History], [Calls], [Modem], [Outbox], [Scheduler], [Senders],
    [Auth], [Restoring], [Discovery], [Targets], [Notifier], [Device],
    [Worker], [Channels]).

    ** Bounds and fuel

    Recursion is structural except in a few places.  Searches of the calendar
    ([Schedule]) have fuel for the days the source itself bounds the search to;
    [Modem.await_loop] and [Calls.watch_loop] have one unit per poll of their
    deadline, and running out is a result of its own ([Spin]) that their theorems
    exclude; [Device.run] and [Device.serve] have the number of connections and
    polls as a parameter over which their theorem is quantified, since the source
    never stops; [Base64.utf8_loop] uses a byte a round and starts with the length.
    [Retention.purge_async] has a unit per statement, row and table, which its
    theorem shows is enough; [Discovery.remove_all] has the length of its list and
    [Migrate.classify_loop] one unit per row of a batch's table.
    Sequence numbers stay within 2^62, row numbers and bound integers within 64
    bits, as SQLite has them.

    ** What is an argument

    Hardware and the network (what a module, a provider or the operating system
    answers), clocks and random choices, third-party and hashing code (SHA-256,
    BLAKE2s), and the parts of the interpreter that format or parse values of no
    interest here ([str] of a float, [Decimal], [datetime.fromisoformat]).  Also
    scrypt and HMAC, the replies of HTTP and SMTP providers, the rows SQLite takes
    for a LIMIT without an order, and its PRAGMAs.  Hypotheses on
    them are their documented behaviour, gathered in the Sections that use them.

    ** What is not modelled

    The serial transport, the numbers of the configuration files, command lines,
    the simulator and the diagnostics of the agent, the deployment check (input
    and output); statistics, which are read-only SQL, the copy of a backup,
    metrics and CSV export on the server; pydantic's and FastAPI's checks of a
    body; the frontend.  Of the API the routes left out are reads and hand their
    arguments to the operations above.  Log lines and columns that nothing reads
    back are left out throughout. *)

From stdpp Require Export base option list list_numbers gmap strings sorting.
From Stdlib Require Export ZArith Lia ZifyNat ZifyBool.

(** ** Notation scope of the development *)

Declare Scope hub_scope.
Delimit Scope hub_scope with hub.
#[global] Open Scope hub_scope.
#[global] Open Scope Z_scope.

(** ** Results: Python exceptions as values

    A call that may raise returns [Ok v] or [Err e]; [e] is the exception. *)

Inductive res (E A : Type) : Type :=
| Ok (a : A)
| Err (e : E).
Arguments Ok {E A} _.
Arguments Err {E A} _.

#[export] Instance res_ret {E} : MRet (res E) := fun A a => Ok a.
#[export] Instance res_bind {E} : MBind (res E) :=
  fun A B f m => match m with Ok a => f a | Err e => Err e end.
#[export] Instance res_fmap {E} : FMap (res E) :=
  fun A B f m => match m with Ok a => Ok (f a) | Err e => Err e end.

#[export] Instance res_eq_dec {E A} `{EqDecision E, EqDecision A} : EqDecision (res E A).
Proof. solve_decision. Defined.

(** [guard_err b e]: raise [e] unless [b]. *)
Definition guard_err {E} (b : bool) (e : E) : res E unit :=
  if b then Ok tt else Err e.

(** The value of an option, or the exception the code raises instead. *)
Definition of_option {E A} (e : E) (o : option A) : res E A :=
  match o with Some a => Ok a | None => Err e end.

Definition res_opt {E A} (m : res E A) : option A :=
  match m with Ok a => Some a | Err _ => None end.

Lemma bind_ok {E A B} (m : res E A) (f : A -> res E B) (b : B) :
  m ≫= f = Ok b <-> exists a, m = Ok a /\ f a = Ok b.
Proof. destruct m as [a|e]; simpl; naive_solver. Qed.

Lemma bind_err {E A B} (m : res E A) (f : A -> res E B) (e : E) :
  m ≫= f = Err e <-> m = Err e \/ exists a, m = Ok a /\ f a = Err e.
Proof. destruct m as [a|e']; simpl; naive_solver. Qed.

(** Split a successful chain of calls into its steps. *)
Ltac inv_ok :=
  repeat match goal with
  | H : mbind _ _ = Ok _ |- _ =>
      let a := fresh "a" in let Ha := fresh "Ha" in
      apply bind_ok in H as (a & Ha & H)
  | H : Ok _ = Ok _ |- _ => injection H as H; subst
  | H : of_option _ _ = Ok _ |- _ => unfold of_option in H; case_match
  | H : guard_err _ _ = Ok _ |- _ => unfold guard_err in H; case_match
  | H : Err _ = Ok _ |- _ => discriminate H
  | H : Ok _ = Err _ |- _ => discriminate H
  end.

(** ** Python strings

    A Python [str] is its list of Unicode code points; a [bytes] value is a
    list of integers.  [str "..."] is an ASCII literal of the source. *)

Abbreviation pystr := (list Z) (only parsing).
Abbreviation pybytes := (list Z) (only parsing).

Definition str (s : string) : pystr :=
  (fun a => Z.of_nat (Ascii.nat_of_ascii a)) <$> String.list_ascii_of_string s.

Lemma str_inj s t : str s = str t -> s = t.
Proof.
  intros E. unfold str in E. apply list_fmap_eq_inj in E.
  - by rewrite <- (String.string_of_list_ascii_of_string s), E, String.string_of_list_ascii_of_string.
  - intros a b Hab. by rewrite <- (Ascii.ascii_nat_embedding a), <- (Ascii.ascii_nat_embedding b), (Nat2Z.inj _ _ Hab).
Qed.

Definition is_byte (b : Z) : Prop := 0 <= b < 256.

#[export] Instance is_byte_dec b : Decision (is_byte b).
Proof. unfold is_byte. apply _. Defined.

Definition is_bytes (bs : pybytes) : Prop := Forall is_byte bs.

(** [bytes([...])] raises ValueError on a value outside [range(256)]. *)
Definition byte_ok (b : Z) : bool := (0 <=? b) && (b <? 256).

Lemma byte_ok_spec b : byte_ok b = true <-> is_byte b.
Proof. unfold byte_ok, is_byte. rewrite andb_true_iff, Z.leb_le, Z.ltb_lt. done. Qed.

(** [xs[i]] for a list known to be long enough; 0 stands for IndexError, which
    the definitions that use it exclude by their own bounds checks. *)
Definition at_ (xs : list Z) (i : nat) : Z := nth i xs 0.

Lemma at_lookup xs i b : xs !! i = Some b -> at_ xs i = b.
Proof. intros H. unfold at_. by rewrite (nth_lookup_Some _ _ _ b). Qed.

Lemma at_ge xs i : (length xs <= i)%nat -> at_ xs i = 0.
Proof. intros H. unfold at_. by rewrite nth_overflow. Qed.

Lemma at_byte xs i : is_bytes xs -> is_byte (at_ xs i).
Proof.
  intros H. unfold at_. destruct (decide (i < length xs)%nat) as [Hi|Hi].
  - rewrite nth_lookup. destruct (lookup_lt_is_Some_2 _ _ Hi) as [b Hb].
    rewrite Hb. simpl. by eapply Forall_lookup_1 in H.
  - rewrite nth_overflow by lia. unfold is_byte. lia.
Qed.

(** [sep.join(xs)] *)
Fixpoint py_join (sep : pystr) (xs : list pystr) : pystr :=
  match xs with
  | [] => []
  | [x] => x
  | x :: xs => x ++ sep ++ py_join sep xs
  end.

(** [next(iter(xs), None)] *)
Definition head_of {A} (xs : list A) : option A :=
  match xs with [] => None | x :: _ => Some x end.

Definition option_list {A} (o : option A) : list A :=
  match o with Some a => [a] | None => [] end.

(** ** Slices: [xs[a:b]] with natural bounds *)

Definition slice {A} (a b : nat) (xs : list A) : list A := take (b - a) (drop a xs).

Lemma slice_length {A} a b (xs : list A) :
  length (slice a b xs) = ((b - a) `min` (length xs - a))%nat.
Proof. unfold slice. rewrite length_take, length_drop. lia. Qed.

Lemma slice_app_drop {A} a b (xs : list A) :
  (a <= b)%nat -> slice a b xs ++ drop b xs = drop a xs.
Proof.
  intros H. unfold slice. rewrite <- (take_drop (b - a) (drop a xs)) at 2.
  f_equal. rewrite drop_drop. f_equal. lia.
Qed.

Lemma mjoin_cons {A} (x : list A) xs : mjoin (x :: xs) = x ++ mjoin xs.
Proof. reflexivity. Qed.

Lemma Forall_mjoin {A} (P : A -> Prop) xss : Forall P (mjoin xss) <-> Forall (Forall P) xss.
Proof.
  induction xss as [|xs xss IH]; [by split; intros _; apply Forall_nil|].
  by rewrite mjoin_cons, Forall_app, IH, Forall_cons.
Qed.

Lemma filter_all {A} (f : A -> bool) l : (forall x, x ∈ l -> f x = true) -> List.filter f l = l.
Proof.
  induction l as [|x l IH]; intros H; simpl; [done|].
  rewrite (H x) by set_solver. f_equal. apply IH. set_solver.
Qed.

(** ** Bits *)

Create Rewrite HintDb bits.
#[export] Hint Rewrite Z.lor_spec Z.land_spec Z.lxor_spec Z.testbit_0_l : bits.
#[export] Hint Rewrite Z.shiftl_spec Z.shiftr_spec using lia : bits.

(** Equality of integers bit by bit, after the operations are pushed out. *)
Ltac bitwise i Hi :=
  apply Z.bits_inj'; intros i Hi; autorewrite with bits.

(** Linear arithmetic with division and remainder by constants. *)
Ltac dlia := zify; Z.to_euclidean_division_equations; lia.

Lemma testbit_high n p i : 0 <= n < 2 ^ p -> 0 <= p <= i -> Z.testbit n i = false.
Proof.
  intros Hn Hp. rewrite <- (Z.mod_small n (2 ^ p)) by done.
  apply Z.mod_pow2_bits_high. lia.
Qed.

Lemma byte_testbit_high b i : is_byte b -> 8 <= i -> Z.testbit b i = false.
Proof. intros Hb Hi. apply (testbit_high b 8); [exact Hb | lia]. Qed.

Lemma ones_testbit p i : 0 <= p -> 0 <= i -> Z.testbit (Z.ones p) i = (i <? p).
Proof.
  intros. destruct (Z.ltb_spec i p).
  - apply Z.ones_spec_low; lia.
  - apply Z.ones_spec_high; lia.
Qed.

Lemma land_ff_testbit v i : 0 <= i -> Z.testbit (Z.land v 255) i = Z.testbit v i && (i <? 8).
Proof. intros. rewrite Z.land_spec. f_equal. apply (ones_testbit 8); lia. Qed.

Lemma land_7f_testbit v i : 0 <= i -> Z.testbit (Z.land v 127) i = Z.testbit v i && (i <? 7).
Proof. intros. rewrite Z.land_spec. f_equal. apply (ones_testbit 7); lia. Qed.

Lemma land_7f_id s : 0 <= s < 128 -> Z.land s 127 = s.
Proof. intros. change 127 with (Z.ones 7). rewrite Z.land_ones by lia. by apply Z.mod_small. Qed.

Lemma land_7f_bound v : 0 <= Z.land v 127 < 128.
Proof. change 127 with (Z.ones 7). rewrite Z.land_ones by lia. apply Z.mod_pos_bound. lia. Qed.

Lemma land_ff_bound v : 0 <= Z.land v 255 < 256.
Proof. change 255 with (Z.ones 8). rewrite Z.land_ones by lia. apply Z.mod_pos_bound. lia. Qed.

Lemma land_ff_id s : 0 <= s < 256 -> Z.land s 255 = s.
Proof. intros. change 255 with (Z.ones 8). rewrite Z.land_ones by lia. by apply Z.mod_small. Qed.

Lemma lor_byte a b : is_byte a -> is_byte b -> is_byte (Z.lor a b).
Proof.
  unfold is_byte. intros Ha Hb. split; [by apply Z.lor_nonneg; lia|].
  destruct (Z.eq_dec (Z.lor a b) 0) as [->|Hne]; [lia|].
  apply (Z.log2_lt_cancel _ 256). rewrite Z.log2_lor by lia.
  change (Z.log2 256) with 8.
  apply Z.max_lub_lt.
  - destruct (Z.eq_dec a 0) as [->|]; [done|]. apply Z.log2_lt_pow2; lia.
  - destruct (Z.eq_dec b 0) as [->|]; [done|]. apply Z.log2_lt_pow2; lia.
Qed.

(** Disjoint nibbles: [(h << 4) | l] is [16 h + l]. *)
Lemma lor_shiftl_add a b k :
  0 <= k -> 0 <= b < 2 ^ k -> Z.lor (Z.shiftl a k) b = a * 2 ^ k + b.
Proof.
  intros Hk Hb. rewrite Z.shiftl_mul_pow2 by lia.
  rewrite <- Z.lxor_lor, Z.add_nocarry_lxor; try done;
    bitwise i Hi;
    (destruct (Z.lt_ge_cases i k);
     [rewrite Z.mul_pow2_bits_low by lia; done
     | rewrite (testbit_high b k i) by lia; by rewrite andb_false_r]).
Qed.

(** Decide a closed decidable proposition by evaluation. *)
Ltac decide_closed := apply (bool_decide_unpack _); vm_compute; exact I.

(** ** Filtered and sorted lists *)

Lemma StronglySorted_filter {A} (R : A -> A -> Prop) (P : A -> Prop) `{forall x, Decision (P x)} (l : list A) :
  StronglySorted R l -> StronglySorted R (filter P l).
Proof.
  induction 1 as [|x l Hl IH Hx]; [constructor|]. rewrite filter_cons. case_decide; [|done].
  constructor; [done|]. rewrite Forall_forall in Hx |- *. intros y [_ Hy]%list_elem_of_filter. by apply Hx.
Qed.

Lemma Forall_filter {A} (Q P : A -> Prop) `{forall x, Decision (P x)} (l : list A) : Forall Q l -> Forall Q (filter P l).
Proof. rewrite !Forall_forall. intros Hl x [_ Hx]%list_elem_of_filter. by apply Hl. Qed.

Lemma filter_ext_in {A} (P Q : A -> Prop) `{forall x, Decision (P x), forall x, Decision (Q x)} (l : list A) :
  (forall x, x ∈ l -> P x <-> Q x) -> filter P l = filter Q l.
Proof.
  induction l as [|x l IH]; intros Hl; [done|]. rewrite !filter_cons.
  assert (Hx := Hl x ltac:(left)). rewrite IH by (intros; apply Hl; by right).
  repeat case_decide; naive_solver.
Qed.

Lemma fmap_filter_sublist {A B} (f : A -> B) (P : A -> Prop) `{forall x, Decision (P x)} (l : list A) :
  f <$> filter P l `sublist_of` f <$> l.
Proof.
  induction l as [|x l IH]; [done|]. rewrite filter_cons. case_decide; simpl; by constructor.
Qed.

Lemma filter_id {A} (P : A -> Prop) `{forall x, Decision (P x)} (l : list A) : Forall P l -> filter P l = l.
Proof. induction 1; [done|]. rewrite filter_cons_True by done. by f_equal. Qed.

Lemma filter_none {A} (P : A -> Prop) `{forall x, Decision (P x)} (l : list A) :
  (forall x, x ∈ l -> ~ P x) -> filter P l = [].
Proof.
  induction l as [|x l IH]; intros Hl; [done|]. rewrite filter_cons_False by (apply Hl; left).
  apply IH. intros y Hy. apply Hl. by right.
Qed.

Lemma elem_take {A} (x : A) n l : x ∈ take n l -> x ∈ l.
Proof. intros H. rewrite <- (take_drop n l). apply elem_of_app. by left. Qed.

(** Two rows of a table with the same key are one row. *)
Lemma NoDup_fmap_eq {A B} (f : A -> B) (l : list A) x y : NoDup (f <$> l) -> x ∈ l -> y ∈ l -> f x = f y -> x = y.
Proof.
  intros Hn (i & Hi)%list_elem_of_lookup (j & Hj)%list_elem_of_lookup E.
  assert (i = j) as ->; [|congruence]. eapply (NoDup_lookup _ i j (f x) Hn); rewrite list_lookup_fmap.
  - by rewrite Hi.
  - rewrite Hj. cbn. by rewrite E.
Qed.

Lemma Forall_sublist {A} (P : A -> Prop) l k : k `sublist_of` l -> Forall P l -> Forall P k.
Proof. induction 1; [done|..]; intros [? ?]%Forall_cons; [constructor|]; auto. Qed.
