(* ===== verification/PyText.v ===== *)
(** * Python text and bytes used by the PDU code

    The parts of the Python language and standard library the source relies on:
    Unicode whitespace and decimal digits ([str.strip], the regular-expression
    classes \s and \d, [int(ch, 16)]), [bytes.hex] and [bytes.fromhex], and the UTF-16
    codec with its "replace" error handler.  Unicode tables are those of
    Unicode 14 (Python 3.11). *)

From stdpp Require Import pretty.
From S2P Require Import Prelude.
#[local] Open Scope Z_scope.

(** ** Character classes *)

Definition SPACES : list Z :=
  [ 9; 10; 11; 12; 13; 28; 29; 30; 31; 32; 133; 160; 5760; 8192; 8193; 8194; 8195; 8196;
    8197; 8198; 8199; 8200; 8201; 8202; 8232; 8233; 8239; 8287; 12288 ].

Definition is_space (c : Z) : bool := bool_decide (c ∈ SPACES).

(** The zero of every decimal digit block (category Nd). *)
Definition ND_ZEROS : list Z :=
  [ 48; 1632; 1776; 1984; 2406; 2534; 2662; 2790; 2918; 3046; 3174; 3302;
    3430; 3558; 3664; 3792; 3872; 4160; 4240; 6112; 6160; 6470; 6608; 6784;
    6800; 6992; 7088; 7232; 7248; 42528; 43216; 43264; 43472; 43504; 43600; 44016;
    65296; 66720; 68912; 69734; 69872; 69942; 70096; 70384; 70736; 70864; 71248; 71360;
    71472; 71904; 72016; 72784; 73040; 73120; 92768; 92864; 93008; 120782; 120792; 120802;
    120812; 120822; 123200; 123632; 125264; 130032 ].

(** The decimal value of a character, the class \d of [re] and [int]. *)
Definition decimal_value (c : Z) : option Z :=
  (fun z => c - z) <$> List.find (fun z => (z <=? c) && (c <? z + 10)) ND_ZEROS.

Definition is_decimal (c : Z) : bool := bool_decide (is_Some (decimal_value c)).

Lemma decimal_value_range c d : decimal_value c = Some d -> 0 <= d < 10.
Proof.
  unfold decimal_value. destruct (List.find _ _) eqn:H; [|done].
  apply List.find_some in H as [_ H]. intros [= <-]. lia.
Qed.

Lemma decimal_value_ascii d : 0 <= d < 10 -> decimal_value (48 + d) = Some d.
Proof.
  intros H. unfold decimal_value, ND_ZEROS. cbn [List.find].
  replace ((48 <=? 48 + d) && (48 + d <? 48 + 10)) with true by lia.
  cbn. f_equal. lia.
Qed.

(** ** Stripping *)

Fixpoint lstrip_by (p : Z -> bool) (s : pystr) : pystr :=
  match s with
  | [] => []
  | c :: rest => if p c then lstrip_by p rest else s
  end.

Definition rstrip_by (p : Z -> bool) (s : pystr) : pystr := rev (lstrip_by p (rev s)).

Definition strip (s : pystr) : pystr := rstrip_by is_space (lstrip_by is_space s).

(** [str.startswith] *)
Definition starts_with (p s : pystr) : bool := bool_decide (take (length p) s = p).

Definition upper_ascii (c : Z) : Z := if (97 <=? c) && (c <=? 122) then c - 32 else c.

(** ** Hexadecimal *)

(** One uppercase hexadecimal digit, as the format code X prints it. *)
Definition hex_char (n : Z) : Z := if n <? 10 then 48 + n else 55 + n.

(** [bs.hex().upper()] *)
Definition hexlify (bs : pybytes) : pystr :=
  mjoin ((fun b => [hex_char (Z.shiftr b 4); hex_char (Z.land b 15)]) <$> bs).

Definition hex_value (c : Z) : option Z :=
  if (48 <=? c) && (c <=? 57) then Some (c - 48)
  else if (65 <=? c) && (c <=? 70) then Some (c - 55)
  else if (97 <=? c) && (c <=? 102) then Some (c - 87)
  else None.

Definition ascii_space (c : Z) : bool := ((9 <=? c) && (c <=? 13)) || (c =? 32).

(** [bytes.fromhex]: two adjacent digits per byte, ASCII whitespace between
    bytes is skipped; [None] is its ValueError. *)
Fixpoint fromhex (s : pystr) : option pybytes :=
  match s with
  | [] => Some []
  | c :: rest =>
      if ascii_space c then fromhex rest
      else match rest with
           | [] => None
           | d :: rest' =>
               hi ← hex_value c; lo ← hex_value d; tl ← fromhex rest';
               Some (hi * 16 + lo :: tl)
           end
  end.

(** [int(ch, 16)] of a one-character string. *)
Definition int16 (c : Z) : option Z :=
  match decimal_value c with Some d => Some d | None => hex_value c end.

Lemma hex_char_value n : 0 <= n < 16 -> hex_value (hex_char n) = Some n /\ ascii_space (hex_char n) = false.
Proof.
  intros H. unfold hex_char, hex_value, ascii_space.
  destruct (Z.ltb_spec n 10).
  - replace ((48 <=? 48 + n) && (48 + n <=? 57)) with true by lia. split; [f_equal; lia|lia].
  - replace ((48 <=? 55 + n) && (55 + n <=? 57)) with false by lia.
    replace ((65 <=? 55 + n) && (55 + n <=? 70)) with true by lia. split; [f_equal; lia|lia].
Qed.

Lemma shiftr4_nibble b : is_byte b -> 0 <= Z.shiftr b 4 < 16.
Proof. unfold is_byte. intros. rewrite Z.shiftr_div_pow2 by lia. dlia. Qed.

Lemma land_0f_mod b : Z.land b 15 = b mod 16.
Proof. change 15 with (Z.ones 4). by rewrite Z.land_ones by lia. Qed.

Lemma nibbles b : Z.shiftr b 4 * 16 + Z.land b 15 = b.
Proof. rewrite land_0f_mod, Z.shiftr_div_pow2 by lia. dlia. Qed.

Lemma fromhex_hexlify bs : is_bytes bs -> fromhex (hexlify bs) = Some bs.
Proof.
  induction 1 as [|b bs Hb _ IH]; [done|].
  change (hexlify (b :: bs)) with (hex_char (Z.shiftr b 4) :: hex_char (Z.land b 15) :: hexlify bs).
  destruct (hex_char_value (Z.shiftr b 4)) as [H1 H2]; [by apply shiftr4_nibble|].
  destruct (hex_char_value (Z.land b 15)) as [H3 H4]; [rewrite land_0f_mod; dlia|].
  cbn [fromhex]. rewrite H2, H1, H3, IH. simpl. by rewrite nibbles.
Qed.

(** Hexadecimal text has nothing for re.sub(\s) to remove. *)
Lemma hexlify_no_space bs c : c ∈ hexlify bs -> is_bytes bs -> is_space c = false.
Proof.
  intros Hc Hb.
  assert (Hn : forall n, 0 <= n < 16 -> is_space (hex_char n) = false).
  { intros n Hn. assert (n ∈ seqZ 0 16) as Hin by (apply elem_of_seqZ; lia).
    revert n Hin Hn. apply (Forall_forall (fun n => 0 <= n < 16 -> is_space (hex_char n) = false)).
    apply (bool_decide_unpack _). by vm_compute. }
  unfold hexlify in Hc. apply list_elem_of_join in Hc as (l & Hcl & Hl).
  apply list_elem_of_fmap in Hl as (b & -> & Hbin).
  unfold is_bytes in Hb. rewrite Forall_forall in Hb. specialize (Hb _ Hbin).
  set_unfold in Hcl. destruct Hcl as [->|[->|[]]]; apply Hn.
  - by apply shiftr4_nibble.
  - rewrite land_0f_mod. dlia.
Qed.

(** ** UTF-16 *)

Definition is_high_surrogate (u : Z) : bool := (0xD800 <=? u) && (u <=? 0xDBFF).
Definition is_low_surrogate (u : Z) : bool := (0xDC00 <=? u) && (u <=? 0xDFFF).
Definition is_surrogate (u : Z) : bool := (0xD800 <=? u) && (u <=? 0xDFFF).

Definition unit_be (u : Z) : pybytes := [Z.shiftr u 8; Z.land u 255].

(** [ch.encode("utf-16-be")]: [None] is UnicodeEncodeError on a lone surrogate. *)
Definition utf16be_char (c : Z) : option pybytes :=
  if is_surrogate c then None
  else if c <? 0x10000 then Some (unit_be c)
  else let v := c - 0x10000 in
       Some (unit_be (0xD800 + Z.shiftr v 10) ++ unit_be (0xDC00 + Z.land v 0x3FF)).

Fixpoint utf16be_encode (s : pystr) : option pybytes :=
  match s with
  | [] => Some []
  | c :: rest => b ← utf16be_char c; bs ← utf16be_encode rest; Some (b ++ bs)
  end.

Inductive endian := BE | LE.

Definition unit_of (e : endian) (a b : Z) : Z :=
  match e with BE => a * 256 + b | LE => b * 256 + a end.

(** [bs.decode("utf-16-be"/"utf-16-le", errors="replace")] *)
Fixpoint utf16_decode (e : endian) (bs : pybytes) : pystr :=
  match bs with
  | [] => []
  | [_] => [0xFFFD]
  | a :: b :: rest =>
      let u := unit_of e a b in
      if negb (is_surrogate u) then u :: utf16_decode e rest
      else if is_low_surrogate u then 0xFFFD :: utf16_decode e rest
      else match rest with
           | c :: d :: rest' =>
               let v := unit_of e c d in
               if is_low_surrogate v
               then 0x10000 + (u - 0xD800) * 0x400 + (v - 0xDC00) :: utf16_decode e rest'
               else 0xFFFD :: utf16_decode e rest
           | _ => [0xFFFD]
           end
  end.

(** A Unicode scalar value: what an encodable text is made of. *)
Definition is_scalar (c : Z) : Prop := 0 <= c < 0x110000 /\ is_surrogate c = false.

#[export] Instance is_scalar_dec c : Decision (is_scalar c).
Proof. unfold is_scalar. apply _. Defined.

Lemma unit_be_of u : unit_of BE (Z.shiftr u 8) (Z.land u 255) = u.
Proof.
  simpl. change 255 with (Z.ones 8). rewrite Z.land_ones, Z.shiftr_div_pow2 by lia. dlia.
Qed.

Lemma land_3ff v : Z.land v 0x3FF = v mod 1024.
Proof. change 0x3FF with (Z.ones 10). by rewrite Z.land_ones by lia. Qed.

Lemma utf16_char_roundtrip c b rest :
  is_scalar c -> utf16be_char c = Some b -> utf16_decode BE (b ++ rest) = c :: utf16_decode BE rest.
Proof.
  intros [Hr Hs] H. unfold utf16be_char in H. rewrite Hs in H.
  destruct (Z.ltb_spec c 0x10000) as [Hlt|Hge]; injection H as <-.
  - cbn [app unit_be utf16_decode]. by rewrite unit_be_of, Hs.
  - set (v := c - 0x10000). rewrite land_3ff.
    replace (Z.shiftr v 10) with (v / 1024) by (by rewrite Z.shiftr_div_pow2 by lia).
    assert (Hv : 0 <= v / 1024 < 1024 /\ 0 <= v mod 1024 < 1024 /\ v = 1024 * (v / 1024) + v mod 1024)
      by (subst v; dlia).
    set (h := v / 1024) in *. set (l := v mod 1024) in *. clearbody h l.
    cbn [app unit_be utf16_decode]. rewrite !unit_be_of. unfold is_surrogate, is_low_surrogate.
    replace ((55296 <=? 55296 + h) && (55296 + h <=? 57343)) with true by lia.
    replace ((56320 <=? 55296 + h) && (55296 + h <=? 57343)) with false by lia.
    replace ((56320 <=? 56320 + l) && (56320 + l <=? 57343)) with true by lia.
    cbn [negb]. f_equal. subst v. lia.
Qed.

Lemma utf16_roundtrip text : forall bs,
  Forall is_scalar text -> utf16be_encode text = Some bs -> utf16_decode BE bs = text.
Proof.
  induction text as [|c text IH]; intros bs Ht H; simpl in H; [by injection H as <-|].
  apply Forall_cons in Ht as [Hc Ht].
  apply bind_Some in H as (b & Hb & H). apply bind_Some in H as (bs' & Hbs & [= <-]).
  rewrite (utf16_char_roundtrip _ _ _ Hc Hb). f_equal. by apply IH.
Qed.

Lemma utf16be_char_len c b : utf16be_char c = Some b -> length b = 2%nat \/ length b = 4%nat.
Proof. unfold utf16be_char. repeat case_match; intros [= <-]; auto. Qed.

Lemma utf16be_char_bytes c b : 0 <= c < 0x110000 -> utf16be_char c = Some b -> is_bytes b.
Proof.
  assert (Hu : forall u, 0 <= u < 65536 -> is_bytes (unit_be u)).
  { intros u Hu. repeat (apply Forall_cons; split); [| |by apply Forall_nil].
    - unfold is_byte. rewrite Z.shiftr_div_pow2 by lia. dlia.
    - apply land_ff_bound. }
  intros Hc. unfold utf16be_char. repeat case_match; intros [= <-]; [by apply Hu; lia|].
  apply (Forall_app _ (unit_be _) (unit_be _)).
  split; apply Hu; rewrite ?land_3ff, ?Z.shiftr_div_pow2 by lia; dlia.
Qed.

Lemma utf16be_encode_app s t :
  utf16be_encode (s ++ t) =
  (a ← utf16be_encode s; b ← utf16be_encode t; Some (a ++ b)).
Proof.
  induction s as [|c s IH]; simpl; [by destruct (utf16be_encode t)|].
  destruct (utf16be_char c) as [b|]; [|done]. simpl. rewrite IH.
  destruct (utf16be_encode s); [|done]. simpl. destruct (utf16be_encode t); [|done].
  simpl. by rewrite app_assoc.
Qed.

Lemma utf16be_encode_bytes s : forall bs,
  Forall is_scalar s -> utf16be_encode s = Some bs -> is_bytes bs.
Proof.
  induction s as [|c s IH]; intros bs Hs H; simpl in H; [injection H as <-; constructor|].
  apply Forall_cons in Hs as [[Hc _] Hs].
  apply bind_Some in H as (b & Hb & H). apply bind_Some in H as (bs' & Hbs & [= <-]).
  apply Forall_app. split; [by eapply utf16be_char_bytes|by apply IH].
Qed.

(** ** Splitting and parsing *)

(** [s.split(sep)] for a one-character separator. *)
Fixpoint split_on (sep : Z) (s : pystr) : list pystr :=
  match s with
  | [] => [[]]
  | c :: rest =>
      if c =? sep then [] :: split_on sep rest
      else match split_on sep rest with
           | [] => [[c]]
           | w :: ws => (c :: w) :: ws
           end
  end.

(** [s.split()]: maximal runs of non-space characters. *)
Definition split_ws (s : pystr) : list pystr :=
  filter (fun w => w <> []) (split_on 32 ((fun c => if is_space c then 32 else c) <$> s)).

(** [s.partition(sep)] without the separator: what precedes its first
    occurrence and what follows it. *)
Fixpoint partition_on (sep : Z) (s : pystr) : pystr * pystr :=
  match s with
  | [] => ([], [])
  | c :: rest => if c =? sep then ([], rest)
                 else let '(a, b) := partition_on sep rest in (c :: a, b)
  end.

Definition contains_char (c : Z) (s : pystr) : bool := bool_decide (c ∈ s).

(** The digits of an integer literal, underscores allowed between digits;
    [fresh_] is false when the previous character was a digit. *)
Fixpoint int_digits (acc : Z) (fresh_ : bool) (s : pystr) : option Z :=
  match s with
  | [] => if fresh_ then None else Some acc
  | c :: rest =>
      if (c =? 95) && negb fresh_ then int_digits acc true rest
      else match decimal_value c with
           | Some d => int_digits (acc * 10 + d) false rest
           | None => None
           end
  end.

(** [int(s)]; [None] is its ValueError. *)
Definition py_int (s : pystr) : option Z :=
  match strip s with
  | 43 :: rest => int_digits 0 true rest
  | 45 :: rest => Z.opp <$> int_digits 0 true rest
  | rest => int_digits 0 true rest
  end.

(** ** Order *)

(** [a <= b] on strings: lexicographic in the code points. *)
Fixpoint text_le (a b : pystr) : bool :=
  match a, b with
  | [], _ => true
  | _ :: _, [] => false
  | x :: a, y :: b => (x <? y) || ((x =? y) && text_le a b)
  end.

Lemma text_le_refl a : text_le a a = true.
Proof. induction a as [|x a IH]; simpl; [done|]. rewrite IH. lia. Qed.

Lemma text_le_trans a b c : text_le a b = true -> text_le b c = true -> text_le a c = true.
Proof.
  revert b c. induction a as [|x a IH]; intros [|y b] [|z c]; simpl; try done.
  rewrite !orb_true_iff, !andb_true_iff. intros [H1|[H1 H1']] [H2|[H2 H2']]; try (left; lia).
  right. split; [lia|eauto].
Qed.

Lemma text_le_total a b : text_le a b = true \/ text_le b a = true.
Proof.
  revert b. induction a as [|x a IH]; intros [|y b]; simpl; auto.
  destruct (IH b) as [E|E]; rewrite E; destruct (Z.ltb_spec x y), (Z.ltb_spec y x), (Z.eqb_spec x y), (Z.eqb_spec y x); simpl; lia.
Qed.

(** ** Printing *)

(** [str(n)] *)
Definition decimal (n : Z) : pystr := str (pretty n).

Lemma decimal_inj m n : decimal m = decimal n -> m = n.
Proof. intros E. unfold decimal in E. apply str_inj in E. by apply (inj pretty) in E. Qed.

Definition decimal_char (c : Z) : Prop := c = 45 \/ 48 <= c <= 57.

Lemma pretty_go_chars x : forall s, Forall decimal_char (str s) -> Forall decimal_char (str (pretty_N_go x s)).
Proof.
  induction (N.lt_wf_0 x) as [x _ IH]; intros s Hs. destruct (decide (x = 0)%N) as [->|Hx]; [by rewrite pretty_N_go_0|].
  rewrite pretty_N_go_step by lia. apply IH; [apply N.div_lt; lia|]. unfold str. cbn [String.list_ascii_of_string fmap list_fmap].
  constructor; [|exact Hs]. right. unfold pretty_N_char. repeat case_match; split; by vm_compute.
Qed.

Lemma decimal_chars n : Forall decimal_char (decimal n).
Proof.
  assert (Hp : forall p, Forall decimal_char (str (pretty (Npos p)))) by (intros p; apply pretty_go_chars; constructor).
  unfold decimal. destruct n as [|p|p]; [constructor; [right; split; by vm_compute|constructor]|exact (Hp p)|].
  change (pretty (Zneg p)) with (String.String (Ascii.ascii_of_nat 45) (pretty (Npos p))). unfold str. cbn [String.list_ascii_of_string fmap list_fmap].
  constructor; [by left|exact (Hp p)].
Qed.

Lemma pretty_go_length k : forall x s, (x < 10 ^ N.of_nat k)%N -> (length (str (pretty_N_go x s)) <= k + length (str s))%nat.
Proof.
  induction k as [|k IH]; intros x s Hx.
  { assert (x = 0%N) as -> by (cbn in Hx; lia). done. }
  destruct (decide (x = 0%N)) as [->|Hne]; [rewrite pretty_N_go_0; lia|].
  rewrite pretty_N_go_step by lia. etrans; [apply IH|].
  - apply N.Div0.div_lt_upper_bound. replace (10 * 10 ^ N.of_nat k)%N with (10 ^ N.of_nat (S k))%N by (rewrite Nat2N.inj_succ, N.pow_succ_r'; lia). done.
  - replace (length (str (String.String (pretty_N_char (x `mod` 10)) s))) with (S (length (str s))) by done. lia.
Qed.

Lemma decimal_length n : Z.abs n < 2 ^ 63 -> (length (decimal n) <= 21)%nat.
Proof.
  intros Hn. assert (Hp : forall p, Zpos p < 2 ^ 63 -> (length (str (pretty (Npos p))) <= 20)%nat).
  { intros p Hp. etrans; [apply (pretty_go_length 20)|cbn; lia]. change (10 ^ N.of_nat 20)%N with 100000000000000000000%N. lia. }
  unfold decimal. destruct n as [|p|p]; [cbn; lia|specialize (Hp p Hn); etrans; [exact Hp|lia]|].
  specialize (Hp p Hn). change (str (pretty (Zneg p))) with (45 :: str (pretty (Npos p))). cbn. lia.
Qed.

Lemma lstrip_none p s : Forall (fun c => p c = false) s -> lstrip_by p s = s.
Proof. destruct 1 as [|c s Hc _]; [done|]. cbn. by rewrite Hc. Qed.

Lemma strip_by_none p s : Forall (fun c => p c = false) s -> rstrip_by p (lstrip_by p s) = s.
Proof.
  intros H. rewrite (lstrip_none p s H). unfold rstrip_by. rewrite lstrip_none; [apply rev_involutive|].
  by apply Forall_rev.
Qed.

Lemma lstrip_suffix p s : exists a, s = a ++ lstrip_by p s.
Proof. induction s as [|c s [a IH]]; [by exists []|]. cbn. destruct (p c); [exists (c :: a); cbn; by f_equal|by exists []]. Qed.

Lemma strip_infix s : exists a b, s = a ++ strip s ++ b.
Proof.
  destruct (lstrip_suffix is_space s) as [a Ea]. exists a. unfold strip, rstrip_by.
  destruct (lstrip_suffix is_space (rev (lstrip_by is_space s))) as [b Eb]. exists (rev b).
  rewrite <- rev_app_distr, <- Eb, rev_involutive. exact Ea.
Qed.

Lemma strip_length s : (length (strip s) <= length s)%nat.
Proof. destruct (strip_infix s) as (a & b & E). rewrite E at 2. rewrite !length_app. lia. Qed.

Lemma lstrip_idem p s : lstrip_by p (lstrip_by p s) = lstrip_by p s.
Proof. induction s as [|c s IH]; [done|]. cbn. destruct (p c) eqn:E; [done|]. cbn. by rewrite E. Qed.

Lemma lstrip_prefix p s a b : lstrip_by p s = a ++ b -> lstrip_by p a = a.
Proof.
  destruct a as [|c a]; [done|]. induction s as [|d s IH]; [done|]. cbn. destruct (p d) eqn:E; [done|].
  intros [= -> _]. by rewrite E.
Qed.

Lemma strip_idem s : strip (strip s) = strip s.
Proof.
  unfold strip. assert (H : lstrip_by is_space (rstrip_by is_space (lstrip_by is_space s)) = rstrip_by is_space (lstrip_by is_space s)).
  { destruct (lstrip_suffix is_space (rev (lstrip_by is_space s))) as [b Eb]. apply (lstrip_prefix is_space s _ (rev b)).
    unfold rstrip_by. rewrite <- rev_app_distr, <- Eb. by rewrite rev_involutive. }
  rewrite H. unfold rstrip_by. by rewrite rev_involutive, lstrip_idem.
Qed.

Lemma decimal_char_space c : decimal_char c -> is_space c = false.
Proof. intros H. apply bool_decide_eq_false. unfold SPACES. intros Hc. rewrite !elem_of_cons, elem_of_nil in Hc. destruct H; lia. Qed.

Lemma pretty_char_digit d : (d < 10)%N -> exists c, str (String.String (pretty_N_char d) "") = [c] /\ c <> 95 /\ decimal_value c = Some (Z.of_N d).
Proof.
  intros H. exists (48 + Z.of_N d). split; [|split; [lia|apply decimal_value_ascii; lia]].
  assert (Hd : d ∈ [0; 1; 2; 3; 4; 5; 6; 7; 8; 9]%N) by (rewrite !elem_of_cons; lia).
  assert (HF : Forall (fun d => str (String.String (pretty_N_char d) "") = [48 + Z.of_N d]) [0; 1; 2; 3; 4; 5; 6; 7; 8; 9]%N) by repeat constructor.
  exact (proj1 (Forall_forall _ _) HF d Hd).
Qed.

Lemma int_digits_go x : forall s, exists k, forall acc fresh_,
  int_digits acc fresh_ (str (pretty_N_go x s)) = int_digits (acc * 10 ^ k + Z.of_N x) (fresh_ && (x =? 0)%N) (str s) /\ 0 <= k.
Proof.
  induction (N.lt_wf_0 x) as [x _ IH]; intros s. destruct (decide (x = 0)%N) as [->|Hx].
  { exists 0. intros acc fresh_. rewrite pretty_N_go_0, andb_true_r. split; [f_equal; lia|lia]. }
  rewrite pretty_N_go_step by lia. destruct (pretty_char_digit (x mod 10)) as (c & Ec & H95 & Hv); [by apply N.mod_lt|].
  set (s' := String.String _ s). destruct (IH (x `div` 10)%N ltac:(apply N.div_lt; lia) s') as [k Hk].
  exists (k + 1). intros acc fresh_. destruct (Hk acc fresh_) as [-> Hk0]. split; [|lia]. subst s'.
  unfold str in Ec |- *. cbn [String.list_ascii_of_string fmap list_fmap] in Ec |- *. injection Ec as ->.
  cbn [int_digits]. destruct (Z.eqb_spec c 95); [done|]. cbn [andb]. rewrite Hv. f_equal.
  - rewrite Z.pow_add_r, (N.div_mod x 10) at 1 by lia. lia.
  - symmetry. apply andb_false_iff. right. by apply N.eqb_neq.
Qed.

(** [int(str(n))] *)
Lemma py_int_decimal n : py_int (decimal n) = Some n.
Proof.
  assert (Hp : forall p, int_digits 0 true (str (pretty (Npos p))) = Some (Zpos p)).
  { intros p. destruct (int_digits_go (Npos p) "") as [k Hk]. by destruct (Hk 0 true) as [E _]. }
  unfold py_int. unfold strip. rewrite strip_by_none.
  2: { eapply Forall_impl; [apply decimal_chars|]. apply decimal_char_space. }
  unfold decimal. destruct n as [|p|p]; [done| |].
  - change (pretty (Zpos p)) with (pretty (Npos p)). pose proof (Hp p) as E.
    destruct (str (pretty (N.pos p))) as [|c rest]; [done|]. destruct (decide (c = 43)) as [->|]; [done|]. destruct (decide (c = 45)) as [->|]; [done|].
    rewrite <- E. repeat (case_match; try lia); done.
  - change (pretty (Zneg p)) with (String.String (Ascii.ascii_of_nat 45) (pretty (Npos p))).
    change (str (String.String (Ascii.ascii_of_nat 45) (pretty (Npos p)))) with (45 :: str (pretty (Npos p))).
    cbv beta iota. by rewrite (Hp p).
Qed.

(** The last separator splits a text in one way. *)
Lemma split_last_inj {A} (c : A) a b a' b' : c ∉ b -> c ∉ b' -> a ++ c :: b = a' ++ c :: b' -> a = a' /\ b = b'.
Proof.
  intros Hb Hb'. revert a'. induction a as [|x a IH]; intros [|y a'] E; cbn in E.
  - by injection E.
  - injection E as <- E. subst b. destruct Hb. apply elem_of_app. right. left.
  - injection E as -> E. subst b'. destruct Hb'. apply elem_of_app. right. left.
  - injection E as -> E. by destruct (IH a' E) as [-> ->].
Qed.
