(* ===== verification/PyDict.v ===== *)
(** * Python dictionaries

    A [dict] keeps its keys in insertion order, and the code relies on that
    order when it iterates.  The model is an association list: assigning to a
    key that is present replaces the value in place, assigning to a new key
    appends. *)

From S2P Require Import Prelude.

Abbreviation pydict K V := (list (K * V)) (only parsing).

Section dict.
Context {K V : Type} `{EqDecision K}.
Implicit Types (d : pydict K V) (k : K) (v : V).

(** [d.get(k)] *)
Fixpoint dict_get k d : option V :=
  match d with
  | [] => None
  | (k', v) :: d => if decide (k = k') then Some v else dict_get k d
  end.

(** [d[k] = v] *)
Fixpoint dict_set k v d : pydict K V :=
  match d with
  | [] => [(k, v)]
  | (k', v') :: d => if decide (k = k') then (k', v) :: d else (k', v') :: dict_set k v d
  end.

(** [d.pop(k, None)], [del d[k]] *)
Fixpoint dict_del k d : pydict K V :=
  match d with
  | [] => []
  | (k', v') :: d => if decide (k = k') then d else (k', v') :: dict_del k d
  end.

Definition dict_keys d : list K := d.*1.
Definition dict_values d : list V := d.*2.
Definition dict_wf d : Prop := NoDup (dict_keys d).

(** ** Lookup *)

Lemma dict_get_set k v d : dict_get k (dict_set k v d) = Some v.
Proof. induction d as [|[k' v'] d IH]; simpl; repeat (case_decide; simpl); congruence. Qed.

Lemma dict_get_set_ne k k' v d : k <> k' -> dict_get k (dict_set k' v d) = dict_get k d.
Proof. intros ?. induction d as [|[k'' v''] d IH]; simpl; repeat (case_decide; simpl); congruence. Qed.

Lemma dict_get_del_ne k k' d : k <> k' -> dict_get k (dict_del k' d) = dict_get k d.
Proof. intros ?. induction d as [|[k'' v''] d IH]; simpl; repeat (case_decide; simpl); congruence. Qed.

Lemma dict_get_Some_in k v d : dict_get k d = Some v -> (k, v) ∈ d.
Proof.
  induction d as [|[k' v'] d IH]; simpl; [done|]. case_decide; intros H'.
  - injection H' as ->. subst. left.
  - right. auto.
Qed.

Lemma dict_get_None k d : dict_get k d = None <-> k ∉ dict_keys d.
Proof.
  induction d as [|[k' v'] d IH]; simpl; [split; [intros _; apply not_elem_of_nil|done]|].
  rewrite elem_of_cons. case_decide.
  - subst. split; [done|]. intros H. destruct H. by left.
  - rewrite IH. naive_solver.
Qed.

Lemma dict_get_in k v d : dict_wf d -> (k, v) ∈ d -> dict_get k d = Some v.
Proof.
  unfold dict_wf. induction d as [|[k' v'] d IH]; simpl; [by rewrite elem_of_nil|].
  rewrite NoDup_cons, elem_of_cons. intros [Hn Hd] [[= -> ->]|Hin]; case_decide; try done.
  - subst. destruct Hn. by apply (list_elem_of_fmap_2 fst) in Hin.
  - auto.
Qed.

(** ** Shape *)

Lemma dict_set_new k v d : dict_get k d = None -> dict_set k v d = d ++ [(k, v)].
Proof.
  induction d as [|[k' v'] d IH]; simpl; [done|]. case_decide; [done|]. intros Hk.
  by rewrite IH.
Qed.

Lemma dict_set_keys k v d :
  dict_keys (dict_set k v d) = if decide (k ∈ dict_keys d) then dict_keys d else dict_keys d ++ [k].
Proof.
  induction d as [|[k' v'] d IH]; simpl; [done|].
  destruct (decide (k = k')) as [->|Hk]; simpl.
  - rewrite decide_True; [done|]. by left.
  - rewrite IH. destruct (decide (k ∈ dict_keys d)) as [Hin|Hin].
    + rewrite decide_True; [done|]. by right.
    + rewrite decide_False; [done|]. rewrite elem_of_cons. naive_solver.
Qed.

Lemma dict_set_wf k v d : dict_wf d -> dict_wf (dict_set k v d).
Proof.
  unfold dict_wf. rewrite dict_set_keys. case_decide; [done|]. intros ?.
  apply NoDup_app. split_and!; [done| |apply NoDup_singleton]. set_solver.
Qed.

Lemma dict_del_sublist k d : dict_del k d `sublist_of` d.
Proof. induction d as [|[k0 v0] d IH]; simpl; [done|]. case_decide; by constructor. Qed.

Lemma dict_del_keys_sublist k d : dict_keys (dict_del k d) `sublist_of` dict_keys d.
Proof. induction d as [|[k0 v0] d IH]; simpl; [done|]. case_decide; by constructor. Qed.

Lemma dict_del_wf k d : dict_wf d -> dict_wf (dict_del k d).
Proof.
  unfold dict_wf. intros Hd. eapply sublist_NoDup; [exact Hd|apply dict_del_keys_sublist].
Qed.

Lemma dict_get_del k d : dict_wf d -> dict_get k (dict_del k d) = None.
Proof.
  unfold dict_wf. induction d as [|[k' v'] d IH]; simpl; [done|].
  rewrite NoDup_cons. intros [Hn Hd]. case_decide; simpl.
  - subst. by apply dict_get_None.
  - rewrite decide_False by done. auto.
Qed.

Lemma dict_set_length k v d :
  length (dict_set k v d) = if decide (k ∈ dict_keys d) then length d else S (length d).
Proof.
  rewrite <- (length_fmap fst (dict_set k v d)). change (dict_set k v d).*1 with (dict_keys (dict_set k v d)).
  rewrite dict_set_keys. case_decide; unfold dict_keys; rewrite ?length_app, length_fmap; simpl; lia.
Qed.

Lemma dict_set_lookup_in k v k' v' d :
  dict_wf d -> (k', v') ∈ dict_set k v d -> (k' = k /\ v' = v) \/ (k' <> k /\ (k', v') ∈ d).
Proof.
  intros Hd Hin. apply (dict_get_in _ _ _ (dict_set_wf k v _ Hd)) in Hin.
  destruct (decide (k' = k)) as [->|Hk].
  - rewrite dict_get_set in Hin. left. naive_solver.
  - rewrite dict_get_set_ne in Hin by done. right. split; [done|]. by apply dict_get_Some_in.
Qed.

Lemma dict_del_in k k' v' d :
  dict_wf d -> (k', v') ∈ dict_del k d -> k' <> k /\ (k', v') ∈ d.
Proof.
  intros Hd Hin. split.
  - intros ->. apply (dict_get_in _ _ _ (dict_del_wf k _ Hd)) in Hin.
    by rewrite dict_get_del in Hin.
  - eapply sublist_subseteq; [apply dict_del_sublist|done].
Qed.

Lemma dict_get_app k d1 d2 : k ∉ dict_keys d1 -> dict_get k (d1 ++ d2) = dict_get k d2.
Proof.
  induction d1 as [|[k1 v1] d1 IH]; simpl; [done|]. rewrite not_elem_of_cons. intros [? ?].
  rewrite decide_False by done. auto.
Qed.

Lemma dict_del_app k d1 d2 : k ∉ dict_keys d1 -> dict_del k (d1 ++ d2) = d1 ++ dict_del k d2.
Proof.
  induction d1 as [|[k1 v1] d1 IH]; simpl; [done|]. rewrite not_elem_of_cons. intros [? ?].
  rewrite decide_False by done. f_equal. auto.
Qed.

Lemma dict_wf_middle k v d1 d2 :
  dict_wf (d1 ++ (k, v) :: d2) -> k ∉ dict_keys d1 /\ dict_wf (d1 ++ d2).
Proof.
  unfold dict_wf, dict_keys. rewrite !fmap_app, fmap_cons. simpl. intros H1.
  rewrite Permutation_middle in H1 || rewrite <- Permutation_middle in H1.
  apply NoDup_cons in H1 as [H1 H2]. rewrite elem_of_app in H1. naive_solver.
Qed.

(** ** Up to reordering *)

Lemma dict_perm_get k v d : dict_get k d = Some v -> d ≡ₚ (k, v) :: dict_del k d.
Proof.
  induction d as [|[k1 v1] d IH]; simpl; [done|]. case_decide; intros Hg.
  - by simplify_eq.
  - rewrite IH at 1 by done. apply Permutation_swap.
Qed.

Lemma dict_set_perm k v d : dict_set k v d ≡ₚ (k, v) :: dict_del k d.
Proof.
  induction d as [|[k1 v1] d IH]; simpl; [done|]. case_decide; [by subst|].
  rewrite IH. apply Permutation_swap.
Qed.

Lemma dict_del_set k v d : dict_del k (dict_set k v d) = dict_del k d.
Proof.
  induction d as [|[k1 v1] d IH]; simpl; [by rewrite decide_True by done|]. case_decide; simpl.
  - by rewrite decide_True.
  - rewrite decide_False by done. by f_equal.
Qed.

Lemma dict_del_absent k d : dict_get k d = None -> dict_del k d = d.
Proof. induction d as [|[k1 v1] d IH]; simpl; [done|]. case_decide; [done|]. intros ?. f_equal. auto. Qed.
End dict.
