(* ===== verification/Gsm7.v ===== *)
(** * GSM 7-bit default alphabet (agent/src/air780e_agent/pdu/gsm7.py)

    The two character tables, text <-> septets, and the LSB-first packing of
    septets into octets.  The packing is specified bit by bit: bit [j] of the
    octet stream is [stream_bit septets fill_bits j]. *)

From S2P Require Import Prelude.

(** ** Tables *)

Definition ESC : Z := 0x1B.

(** 8 rows of 16 characters; the index is the septet value. *)
Definition BASIC_TABLE : pystr :=
  [ 64; 163; 36; 165; 232; 233; 249; 236; 242; 199; 10; 216; 248; 13; 197; 229;
    916; 95; 934; 915; 923; 937; 928; 936; 931; 920; 926; 27; 198; 230; 223; 201;
    32; 33; 34; 35; 164; 37; 38; 39; 40; 41; 42; 43; 44; 45; 46; 47;
    48; 49; 50; 51; 52; 53; 54; 55; 56; 57; 58; 59; 60; 61; 62; 63;
    161; 65; 66; 67; 68; 69; 70; 71; 72; 73; 74; 75; 76; 77; 78; 79;
    80; 81; 82; 83; 84; 85; 86; 87; 88; 89; 90; 196; 214; 209; 220; 167;
    191; 97; 98; 99; 100; 101; 102; 103; 104; 105; 106; 107; 108; 109; 110; 111;
    112; 113; 114; 115; 116; 117; 118; 119; 120; 121; 122; 228; 246; 241; 252; 224 ].

(** Reached as ESC + value. *)
Definition EXT_TABLE : gmap Z Z :=
  list_to_map [ (0x0A, 12); (0x14, 94); (0x28, 123); (0x29, 125); (0x2F, 92);
                (0x3C, 91); (0x3D, 126); (0x3E, 93); (0x40, 124); (0x65, 8364) ].

Definition rev_map (l : list (Z * Z)) : gmap Z Z :=
  foldl (fun m '(v, c) => <[c := v]> m) ∅ l.

(** The inverse tables; ESC itself is not a writable character. *)
Definition BASIC_REVERSE : gmap Z Z :=
  delete 0x1b (rev_map (imap (fun i c => (Z.of_nat i, c)) BASIC_TABLE)).
Definition EXT_REVERSE : gmap Z Z := rev_map (map_to_list EXT_TABLE).

(** [BASIC_TABLE[s]] for a septet value. *)
Definition basic_at (s : Z) : Z := at_ BASIC_TABLE (Z.to_nat s).

(** ** Text and septets *)

Definition can_encode_char (c : Z) : bool :=
  bool_decide (is_Some (BASIC_REVERSE !! c)) || bool_decide (is_Some (EXT_REVERSE !! c)).

Definition can_encode (text : pystr) : bool := forallb can_encode_char text.

(** Septets of one character; [Err c] is the ValueError naming [c]. *)
Definition encode_char (c : Z) : res Z (list Z) :=
  match BASIC_REVERSE !! c with
  | Some v => Ok [v]
  | None => match EXT_REVERSE !! c with
            | Some v => Ok [ESC; v]
            | None => Err c
            end
  end.

Fixpoint encode (text : pystr) : res Z (list Z) :=
  match text with
  | [] => Ok []
  | c :: rest => s ← encode_char c; ss ← encode rest; Ok (s ++ ss)
  end.

(** What an escaped septet reads as. *)
Definition escaped (s : Z) : Z :=
  default (if s <? 128 then basic_at s else 32) (EXT_TABLE !! s).

Fixpoint decode_from (pending_escape : bool) (septets : list Z) : pystr :=
  match septets with
  | [] => if pending_escape then [32] else []
  | s :: rest =>
      if pending_escape then escaped s :: decode_from false rest
      else if s =? ESC then decode_from true rest
      else if s <? 128 then basic_at s :: decode_from false rest
      else decode_from false rest
  end.

Definition decode (septets : list Z) : pystr := decode_from false septets.

(** ** Packing *)

Definition pack_step (nbytes : nat) (st : list Z * nat) (s : Z) : list Z * nat :=
  let '(buf, bitpos) := st in
  let s := Z.land s 0x7F in
  let index := (bitpos / 8)%nat in
  let shift := (bitpos mod 8)%nat in
  let buf := <[index := Z.lor (at_ buf index) (Z.land (Z.shiftl s (Z.of_nat shift)) 0xFF)]> buf in
  let buf :=
    if (1 <? shift)%nat && (index + 1 <? nbytes)%nat
    then <[(index + 1)%nat := Z.lor (at_ buf (index + 1)) (Z.shiftr s (8 - Z.of_nat shift))]> buf
    else buf in
  (buf, (bitpos + 7)%nat).

Definition pack (septets : list Z) (fill_bits : nat) : pybytes :=
  let total_bits := (fill_bits + 7 * length septets)%nat in
  let nbytes := ((total_bits + 7) / 8)%nat in
  (foldl (pack_step nbytes) (replicate nbytes 0, fill_bits) septets).1.

(** The septet read at bit [bitpos]. *)
Definition septet_at (octets : pybytes) (bitpos : nat) : Z :=
  let index := (bitpos / 8)%nat in
  let shift := (bitpos mod 8)%nat in
  let value := Z.shiftr (at_ octets index) (Z.of_nat shift) in
  let value :=
    if (1 <? shift)%nat && (index + 1 <? length octets)%nat
    then Z.lor value (Z.shiftl (at_ octets (index + 1)) (8 - Z.of_nat shift))
    else value in
  Z.land value 0x7F.

(** The loop stops ([break]) at the first septet that starts past the octets. *)
Fixpoint unpack (octets : pybytes) (septet_count : nat) (fill_bits : nat) : list Z :=
  match septet_count with
  | O => []
  | S n =>
      if (length octets <=? fill_bits / 8)%nat then []
      else septet_at octets fill_bits :: unpack octets n (fill_bits + 7)
  end.

(** * Lemmas *)

(** ** Bits of an octet stream *)

(** Bit [j] of an octet stream, least significant bit of each octet first. *)
Definition bit (buf : pybytes) (j : nat) : bool :=
  Z.testbit (at_ buf (j / 8)) (Z.of_nat (j mod 8)).

(** Bit [j] of the stream the septets stand for: [fill_bits] zero bits, then
    the low seven bits of each septet. *)
Definition stream_bit (septets : list Z) (fill_bits j : nat) : bool :=
  (fill_bits <=? j)%nat &&
  Z.testbit (Z.land (at_ septets ((j - fill_bits) / 7)) 127) (Z.of_nat ((j - fill_bits) mod 7)).

Lemma at_insert xs i k v :
  (i < length xs)%nat -> at_ (<[i := v]> xs) k = if decide (k = i) then v else at_ xs k.
Proof.
  intros Hi. unfold at_. rewrite !nth_lookup. case_decide as H.
  - subst. by rewrite list_lookup_insert_eq.
  - by rewrite list_lookup_insert_ne.
Qed.

Lemma is_bytes_insert xs i v : is_bytes xs -> is_byte v -> is_bytes (<[i := v]> xs).
Proof. intros. by apply Forall_insert. Qed.

Lemma shiftr_7f_byte s k : 0 <= k -> is_byte (Z.shiftr (Z.land s 127) k).
Proof.
  intros Hk. pose proof (land_7f_bound s) as Hs. rewrite Z.shiftr_div_pow2 by lia.
  unfold is_byte. pose proof (Z.pow_pos_nonneg 2 k). split.
  - apply Z.div_pos; lia.
  - apply Z.div_lt_upper_bound; nia.
Qed.

#[local] Opaque Nat.div Nat.modulo.
#[local] Arguments Nat.mul : simpl never.

Section PackStep.
Context (nbytes bitpos : nat) (buf : pybytes) (s : Z).
Context (Hlen : length buf = nbytes) (Hfit : (bitpos + 7 <= 8 * nbytes)%nat).

Lemma pack_step_length : length (pack_step nbytes (buf, bitpos) s).1 = nbytes.
Proof. unfold pack_step; simpl. case_match; simpl; rewrite ?length_insert; done. Qed.

Lemma pack_step_bytes : is_bytes buf -> is_bytes (pack_step nbytes (buf, bitpos) s).1.
Proof.
  intros Hb. unfold pack_step; simpl.
  assert (Hb1 : is_bytes (<[(bitpos / 8)%nat := Z.lor (at_ buf (bitpos / 8))
     (Z.land (Z.shiftl (Z.land s 127) (Z.of_nat (bitpos mod 8))) 255)]> buf)).
  { apply is_bytes_insert; [done|]. apply lor_byte; [by apply at_byte|apply land_ff_bound]. }
  case_match; simpl; [|done].
  apply is_bytes_insert; [done|]. apply lor_byte; [by apply at_byte|].
  apply shiftr_7f_byte. dlia.
Qed.

(** The octets after the step. *)
Lemma pack_step_at k :
  at_ (pack_step nbytes (buf, bitpos) s).1 k =
  if decide (k = bitpos / 8)%nat
  then Z.lor (at_ buf k) (Z.land (Z.shiftl (Z.land s 127) (Z.of_nat (bitpos mod 8))) 255)
  else if decide (k = bitpos / 8 + 1 /\ 1 < bitpos mod 8 /\ k < nbytes)%nat
  then Z.lor (at_ buf k) (Z.shiftr (Z.land s 127) (8 - Z.of_nat (bitpos mod 8)))
  else at_ buf k.
Proof.
  assert (Hi : (bitpos / 8 < length buf)%nat) by (rewrite Hlen; dlia).
  unfold pack_step; simpl. case_match eqn:Hc; simpl.
  - rewrite !at_insert by (rewrite ?length_insert; lia).
    repeat case_decide; subst; try lia; reflexivity.
  - rewrite !at_insert by lia. repeat case_decide; subst; try lia; reflexivity.
Qed.

(** One septet sets exactly its seven bits. *)
Lemma pack_step_bit j :
  bit (pack_step nbytes (buf, bitpos) s).1 j =
  bit buf j || ((bitpos <=? j)%nat && (j <? bitpos + 7)%nat &&
                Z.testbit (Z.land s 127) (Z.of_nat (j - bitpos))).
Proof.
  unfold bit. rewrite pack_step_at. pose proof (land_7f_bound s) as Hs.
  set (s' := Z.land s 127) in *. clearbody s'.
  assert (Hhigh : forall k, 7 <= k -> Z.testbit s' k = false)
    by (intros; apply (testbit_high s' 7); lia).
  repeat case_decide; rewrite ?Z.lor_spec, ?land_ff_testbit, ?Z.shiftl_spec, ?Z.shiftr_spec by lia;
    (destruct (bitpos <=? j)%nat eqn:H1; destruct (j <? bitpos + 7)%nat eqn:H2);
    simpl; rewrite ?orb_false_r, ?andb_false_r; try done; try (exfalso; dlia).
  - rewrite (proj2 (Z.ltb_lt _ 8)) by dlia. rewrite andb_true_r. f_equal. f_equal. dlia.
  - rewrite Hhigh by dlia. by rewrite andb_false_l, orb_false_r.
  - rewrite (Z.testbit_neg_r s') by dlia. by rewrite orb_false_r.
  - f_equal. f_equal. dlia.
  - rewrite Hhigh by dlia. by rewrite orb_false_r.
Qed.
End PackStep.

(** ** The packing loop *)

Lemma bit_zeros n j : bit (replicate n 0) j = false.
Proof.
  unfold bit, at_. rewrite nth_lookup.
  destruct (replicate n 0 !! _) eqn:H; simpl; [|apply Z.testbit_0_l].
  apply lookup_replicate in H as [-> _]. apply Z.testbit_0_l.
Qed.

Lemma is_bytes_zeros n : is_bytes (replicate n 0).
Proof. apply Forall_replicate. unfold is_byte. lia. Qed.

Lemma pack_loop_spec nbytes : forall septets buf bitpos,
  length buf = nbytes -> (bitpos + 7 * length septets <= 8 * nbytes)%nat ->
  let buf' := (foldl (pack_step nbytes) (buf, bitpos) septets).1 in
  length buf' = nbytes /\ (is_bytes buf -> is_bytes buf') /\
  forall j, bit buf' j = bit buf j ||
    ((j <? bitpos + 7 * length septets)%nat && stream_bit septets bitpos j).
Proof.
  induction septets as [|s rest IH]; intros buf bitpos Hlen Hfit; cbn [foldl length] in *.
  - cbn [fst]. split_and!; [done..|]. intros j. unfold stream_bit. destruct (j <? _)%nat eqn:E; simpl.
    + replace (bitpos <=? j)%nat with false by lia. by rewrite orb_false_r.
    + by rewrite orb_false_r.
  - destruct (pack_step nbytes (buf, bitpos) s) as [buf1 bp1] eqn:Hstep.
    assert (Hbuf1 : buf1 = (pack_step nbytes (buf, bitpos) s).1) by by rewrite Hstep.
    assert (Hbp1 : bp1 = (bitpos + 7)%nat) by (unfold pack_step in Hstep; congruence).
    subst bp1.
    destruct (IH buf1 (bitpos + 7)%nat) as (Hl & Hb & Hbit).
    { rewrite Hbuf1. apply pack_step_length; lia. }
    { lia. }
    split_and!; [done| |].
    { intros. apply Hb. rewrite Hbuf1. apply pack_step_bytes; auto; lia. }
    intros j. rewrite Hbit, Hbuf1, pack_step_bit by lia.
    rewrite <- orb_assoc. f_equal. unfold stream_bit.
    destruct (bitpos <=? j)%nat eqn:H1; simpl.
    2:{ replace (bitpos + 7 <=? j)%nat with false by lia. by rewrite !andb_false_r. }
    destruct (j <? bitpos + 7)%nat eqn:H2; simpl.
    + replace (bitpos + 7 <=? j)%nat with false by lia. rewrite !andb_false_r, orb_false_r.
      replace (j <? _)%nat with true by lia. simpl.
      replace ((j - bitpos) / 7)%nat with O by dlia.
      by replace ((j - bitpos) mod 7)%nat with (j - bitpos)%nat by dlia.
    + replace (bitpos + 7 <=? j)%nat with true by lia. simpl.
      replace ((j - bitpos) / 7)%nat with (S ((j - (bitpos + 7)) / 7)) by dlia.
      replace ((j - bitpos) mod 7)%nat with ((j - (bitpos + 7)) mod 7)%nat by dlia.
      f_equal. dlia.
Qed.

Lemma pack_length septets fill : length (pack septets fill) = ((fill + 7 * length septets + 7) / 8)%nat.
Proof.
  unfold pack. apply pack_loop_spec; [apply length_replicate | dlia].
Qed.

Lemma pack_bytes septets fill : is_bytes (pack septets fill).
Proof.
  unfold pack. apply pack_loop_spec; [apply length_replicate | dlia | apply is_bytes_zeros].
Qed.

Lemma pack_bit septets fill j :
  bit (pack septets fill) j =
  (j <? fill + 7 * length septets)%nat && stream_bit septets fill j.
Proof.
  unfold pack.
  match goal with |- context [foldl (pack_step ?n) _ _] => set (nb := n) end.
  destruct (pack_loop_spec nb septets (replicate nb 0) fill) as (_ & _ & Hbit).
  - apply length_replicate.
  - subst nb. dlia.
  - by rewrite Hbit, bit_zeros.
Qed.

(** ** Reading septets back *)

Lemma septet_at_bit octets bitpos k :
  is_bytes octets -> 0 <= k ->
  Z.testbit (septet_at octets bitpos) k = bit octets (bitpos + Z.to_nat k) && (k <? 7).
Proof.
  intros Hb Hk. unfold septet_at. rewrite land_7f_testbit by done.
  destruct (Z.ltb_spec k 7) as [Hk7|]; [|by rewrite !andb_false_r]. rewrite !andb_true_r.
  unfold bit. set (idx := (bitpos / 8)%nat). set (sh := (bitpos mod 8)%nat).
  assert (Hpos : bitpos = (8 * idx + sh)%nat /\ (sh < 8)%nat) by (subst idx sh; dlia).
  assert (Hhigh : forall i m, 8 <= m -> Z.testbit (at_ octets i) m = false)
    by (intros; apply byte_testbit_high; [by apply at_byte | lia]).
  clearbody idx sh. destruct Hpos as [-> Hsh].
  destruct (Z.ltb_spec (Z.of_nat sh + k) 8) as [Hlo|Hhi].
  - replace ((8 * idx + sh + Z.to_nat k) / 8)%nat with idx by dlia.
    replace (Z.of_nat ((8 * idx + sh + Z.to_nat k) mod 8)) with (k + Z.of_nat sh) by dlia.
    case_match; rewrite ?Z.lor_spec, ?Z.shiftr_spec by lia; [|done].
    rewrite Z.shiftl_spec, (Z.testbit_neg_r _ (k - _)) by lia. apply orb_false_r.
  - replace ((8 * idx + sh + Z.to_nat k) / 8)%nat with (idx + 1)%nat by dlia.
    replace (Z.of_nat ((8 * idx + sh + Z.to_nat k) mod 8)) with (k - (8 - Z.of_nat sh)) by dlia.
    case_match eqn:Hc; rewrite ?Z.lor_spec, Z.shiftr_spec, (Hhigh _ (k + _)) by lia; simpl.
    + by rewrite Z.shiftl_spec by lia.
    + rewrite at_ge by lia. by rewrite Z.testbit_0_l.
Qed.

Lemma unpack_length octets : forall n pos, (length (unpack octets n pos) <= n)%nat.
Proof. induction n as [|n IH]; intros pos; simpl; [lia|]. case_match; simpl; [lia|]. specialize (IH (pos + 7)%nat). lia. Qed.

(** Reading [n] septets that all start inside the octets. *)
Lemma unpack_lookup octets : forall n pos,
  (n = 0 \/ (pos + 7 * (n - 1)) / 8 < length octets)%nat ->
  unpack octets n pos = (fun i => septet_at octets (pos + 7 * i)) <$> seq 0 n.
Proof.
  induction n as [|n IH]; intros pos Hpos; [done|]. simpl.
  destruct (Nat.leb_spec (length octets) (pos / 8)) as [Hle|Hlt].
  { exfalso. destruct Hpos as [|Hpos]; [lia|]. dlia. }
  f_equal; [f_equal; lia|].
  rewrite IH by (destruct n; [lia|right; dlia]).
  rewrite <- fmap_S_seq, <- list_fmap_compose.
  apply list_fmap_ext. intros i x Hx. simpl. f_equal. lia.
Qed.

(** Packing then unpacking gives the low seven bits of every septet back. *)
Lemma unpack_pack_land septets fill :
  unpack (pack septets fill) (length septets) fill = (fun s => Z.land s 127) <$> septets.
Proof.
  rewrite unpack_lookup.
  2:{ rewrite pack_length. destruct (length septets); [by left|right; dlia]. }
  apply list_eq. intros i. rewrite !list_lookup_fmap.
  destruct (decide (i < length septets)%nat) as [Hi|Hi].
  2:{ rewrite lookup_ge_None_2 by (rewrite length_seq; lia).
      by rewrite lookup_ge_None_2 by lia. }
  rewrite lookup_seq_lt by done. simpl.
  destruct (lookup_lt_is_Some_2 _ _ Hi) as [s Hs]. rewrite Hs. simpl. f_equal.
  apply Z.bits_inj'; intros k Hk. rewrite septet_at_bit by (auto using pack_bytes).
  rewrite land_7f_testbit, pack_bit by done. unfold stream_bit.
  destruct (Z.ltb_spec k 7) as [Hk7|]; [|by rewrite !andb_false_r]. rewrite !andb_true_r.
  replace (fill + 7 * i + Z.to_nat k <? fill + 7 * length septets)%nat with true by lia.
  replace (fill <=? fill + 7 * i + Z.to_nat k)%nat with true by lia. simpl.
  replace ((fill + 7 * i + Z.to_nat k - fill) / 7)%nat with i by dlia.
  replace (Z.of_nat ((fill + 7 * i + Z.to_nat k - fill) mod 7)) with k by dlia.
  rewrite (at_lookup _ _ s Hs), land_7f_testbit by done.
  replace (k <? 7) with true by lia. apply andb_true_r.
Qed.

Definition is_septets (l : list Z) : Prop := Forall (fun s => 0 <= s < 128) l.

Lemma unpack_pack septets fill :
  is_septets septets -> unpack (pack septets fill) (length septets) fill = septets.
Proof.
  intros H. rewrite unpack_pack_land. rewrite <- (list_fmap_id septets) at 2.
  apply list_fmap_ext. intros i s Hs. apply land_7f_id. by apply (Forall_lookup_1 _ _ _ _ H Hs).
Qed.

(** ** Tables are inverse to each other *)

Lemma basic_reverse_spec c v :
  BASIC_REVERSE !! c = Some v -> 0 <= v < 128 /\ v <> ESC /\ basic_at v = c.
Proof.
  revert c v. change (map_Forall (fun c v => 0 <= v < 128 /\ v <> ESC /\ basic_at v = c) BASIC_REVERSE).
  apply (bool_decide_unpack _). by vm_compute.
Qed.

Lemma ext_reverse_spec c v :
  EXT_REVERSE !! c = Some v -> 0 <= v < 128 /\ escaped v = c.
Proof.
  revert c v. change (map_Forall (fun c v => 0 <= v < 128 /\ escaped v = c) EXT_REVERSE).
  apply (bool_decide_unpack _). by vm_compute.
Qed.

Lemma ext_reverse_ne c v : EXT_REVERSE !! c = Some v -> v <> ESC.
Proof.
  revert c v. change (map_Forall (fun _ v => v <> ESC) EXT_REVERSE).
  apply (bool_decide_unpack _). by vm_compute.
Qed.

(** ** Encoding and decoding text *)

#[global] Opaque BASIC_REVERSE EXT_REVERSE EXT_TABLE.

Lemma encode_char_ok c ss :
  encode_char c = Ok ss ->
  is_septets ss /\ forall rest, decode_from false (ss ++ rest) = c :: decode_from false rest.
Proof.
  unfold encode_char. intros H. case_match eqn:Hb; [|case_match eqn:He; [|done]];
    injection H as <-.
  - apply basic_reverse_spec in Hb as (Hr & Hne & Hc). split; [by apply Forall_singleton|].
    intros rest. simpl. rewrite (proj2 (Z.eqb_neq _ _) Hne).
    rewrite (proj2 (Z.ltb_lt _ _)) by lia. by rewrite Hc.
  - apply ext_reverse_spec in He as (Hr & Hc). split; [apply Forall_cons; split; [unfold ESC; lia|by apply Forall_singleton]|].
    intros rest. simpl. by rewrite Hc.
Qed.

Lemma encode_char_total c : can_encode_char c = true <-> exists ss, encode_char c = Ok ss.
Proof.
  unfold can_encode_char, encode_char. rewrite orb_true_iff, !bool_decide_eq_true.
  split.
  - intros [[v Hv]|[v Hv]]; rewrite Hv; [by eexists|]. case_match; by eexists.
  - intros [ss H]. repeat case_match; try discriminate; [left|right]; by eexists.
Qed.

Lemma encode_app_decode text : forall ss, encode text = Ok ss ->
  is_septets ss /\ forall rest, decode_from false (ss ++ rest) = text ++ decode_from false rest.
Proof.
  induction text as [|c text IH]; intros ss H; simpl in H.
  - injection H as <-. split; [constructor|done].
  - inv_ok. apply encode_char_ok in Ha as [Hs1 Hd1]. destruct (IH _ Ha0) as [Hs2 Hd2].
    split; [by apply Forall_app|]. intros rest. by rewrite <- app_assoc, Hd1, Hd2.
Qed.

Lemma encode_septets text ss : encode text = Ok ss -> is_septets ss.
Proof. apply encode_app_decode. Qed.

Lemma decode_encode text ss : encode text = Ok ss -> decode ss = text.
Proof.
  intros H. apply encode_app_decode in H as [_ H]. specialize (H []).
  by rewrite !app_nil_r in H.
Qed.

Lemma can_encode_encode text : can_encode text = true <-> exists ss, encode text = Ok ss.
Proof.
  induction text as [|c text IH]; simpl; [naive_solver|].
  rewrite andb_true_iff, IH, encode_char_total. split.
  - intros [[s Hs] [ss Hss]]. rewrite Hs. simpl. rewrite Hss. eauto.
  - intros [ss H]. inv_ok. eauto.
Qed.

(** Whether a decode that has read [septets] is waiting for an escaped one. *)
Fixpoint escape_open (pending : bool) (septets : list Z) : bool :=
  match septets with
  | [] => pending
  | s :: rest => escape_open (negb pending && (s =? ESC)) rest
  end.

(** Cutting a septet stream anywhere but inside an escape pair cuts the text. *)
Lemma decode_from_app p a b :
  escape_open p a = false -> decode_from p (a ++ b) = decode_from p a ++ decode_from false b.
Proof.
  revert p. induction a as [|s a IH]; intros p H; simpl in *; [by subst p|].
  destruct p; simpl in *; [by rewrite IH|].
  destruct (s =? ESC); simpl in *; [by apply IH|]. destruct (s <? 128); [by rewrite IH|by apply IH].
Qed.

(** * Properties *)

(** A text the GSM alphabet can carry survives the whole
    encoding chain -- characters to septets, septets packed behind any number
    of fill bits, unpacked and decoded again -- character for character. *)
Theorem gsm7_roundtrip text ss fill_bits :
  encode text = Ok ss -> decode (unpack (pack ss fill_bits) (length ss) fill_bits) = text.
Proof.
  intros H. rewrite unpack_pack by (by eapply encode_septets). by apply decode_encode.
Qed.

Lemma gsm7_roundtrip_witness :
  encode (str "Hi {x}") = Ok [72; 105; 32; 27; 40; 120; 27; 41] /\
  decode (unpack (pack [72; 105; 32; 27; 40; 120; 27; 41] 1) 8 1) = str "Hi {x}".
Proof.
  assert (H : encode (str "Hi {x}") = Ok [72; 105; 32; 27; 40; 120; 27; 41]) by by vm_compute.
  split; [exact H|]. exact (gsm7_roundtrip (str "Hi {x}") _ 1 H).
Defined.

(** [pack] lays the septets out exactly as TS 23.038 says --
    bit [j] of the result is bit [(j - fill_bits) mod 7] of septet
    [(j - fill_bits) / 7], the fill bits and the final padding are zero, and
    the result is [ceil ((fill_bits + 7 n) / 8)] octets, each in range. *)
Theorem pack_layout septets fill_bits :
  length (pack septets fill_bits) = ((fill_bits + 7 * length septets + 7) / 8)%nat /\
  is_bytes (pack septets fill_bits) /\
  forall j, bit (pack septets fill_bits) j =
    (j <? fill_bits + 7 * length septets)%nat && stream_bit septets fill_bits j.
Proof. auto using pack_length, pack_bytes, pack_bit. Qed.

(** [encode] raises ValueError exactly on the texts [can_encode]
    refuses, so the callers that test [can_encode] first never see it raise. *)
Theorem encode_raises_iff text :
  can_encode text = false <-> exists c, encode text = Err c.
Proof.
  rewrite <- not_true_iff_false, can_encode_encode.
  destruct (encode text) as [ss|c]; naive_solver.
Qed.

(** An escaped septet that is not in the extension table reads
    as the basic-table character of the same value (TS 23.038's fallback), not
    as a space: only a trailing escape, with nothing behind it, does. *)
Theorem decode_unknown_escape s rest :
  0 <= s < 128 -> EXT_TABLE !! s = None ->
  decode (ESC :: s :: rest) = basic_at s :: decode rest /\ decode [ESC] = [32].
Proof.
  intros Hs Hn. split; [|done]. unfold decode. simpl. unfold escaped. rewrite Hn. simpl.
  by rewrite (proj2 (Z.ltb_lt _ _)) by lia.
Qed.

Lemma decode_unknown_escape_witness :
  EXT_TABLE !! 65 = None /\ decode [ESC; 65; 66] = str "AB" /\ decode [ESC] = [32].
Proof.
  assert (H : EXT_TABLE !! 65 = None) by by vm_compute.
  split; [exact H|]. exact (decode_unknown_escape 65 [66] ltac:(lia) H).
Defined.
