(* ===== verification/Salvage.v ===== *)
(** * Damaged frames (agent/src/air780e_agent/pdu/salvage.py)

    Re-phasing a frame whose header octets were lost: every alignment of the
    7-bit stream is decoded and scored, and the best is kept when its score and
    length clear the thresholds.  Scores are IEEE doubles, computed with the
    Standard Library's [SpecFloat] operations, so comparisons are the code's. *)

From S2P Require Import Prelude PyText Gsm7.
From Stdlib Require Import SpecFloat.

(** ** Doubles *)

Definition fl_of_Z (n : Z) : spec_float := binary_normalize 53 1024 n 0 false.
Definition fl_add := SFadd 53 1024.
Definition fl_mul := SFmul 53 1024.
Definition fl_div := SFdiv 53 1024.

Definition fl_zero : spec_float := S754_zero false.
Definition fl_one : spec_float := fl_of_Z 1.
Definition fl_half : spec_float := fl_div fl_one (fl_of_Z 2).

(** Python's [min(a, b)] keeps [a] unless [b < a]. *)
Definition fl_min (a b : spec_float) : spec_float := if SFltb b a then b else a.

(** ** Constants *)

Definition PHASES : list nat := seq 0 7.
(** 0.75 *)
Definition MIN_SCORE : spec_float := fl_div (fl_of_Z 3) (fl_of_Z 4).
Definition MIN_CHARS : nat := 20.

Definition is_letter (c : Z) : bool :=
  ((65 <=? c) && (c <=? 90)) || ((97 <=? c) && (c <=? 122)).

Definition PLAIN_PUNCT : pystr := str " .,:;!?'()/+-" ++ [34; 10].

Definition is_plain (c : Z) : bool :=
  is_letter c || ((48 <=? c) && (c <=? 57)) || bool_decide (c ∈ PLAIN_PUNCT).

Definition is_vowel (c : Z) : bool := bool_decide (c ∈ str "aeiouAEIOU").

(** ** Regular expressions

    The four patterns are runs of a character class and a keyword search. *)

(** Maximal runs of [p] with their start positions ([i] is the position of the
    head of [text], [cur] the reversed run in progress). *)
Fixpoint runs_from (p : Z -> bool) (i : nat) (cur : pystr) (text : pystr) : list (nat * pystr) :=
  let flush := match cur with [] => [] | _ => [((i - length cur)%nat, rev cur)] end in
  match text with
  | [] => flush
  | c :: rest =>
      if p c then runs_from p (S i) (c :: cur) rest
      else flush ++ runs_from p (S i) [] rest
  end.

Definition runs (p : Z -> bool) (text : pystr) : list (nat * pystr) := runs_from p 0 [] text.

(** One letter of a pattern under re.I: dotless and dotted i, and long s, are
    case variants of i and s. *)
Definition ci_eq (pat c : Z) : bool :=
  (c =? pat) || (c =? pat - 32) ||
  ((pat =? 105) && ((c =? 0x130) || (c =? 0x131))) || ((pat =? 115) && (c =? 0x17f)).

Fixpoint ci_prefix (pat text : pystr) : bool :=
  match pat, text with
  | [], _ => true
  | p :: pat, c :: text => ci_eq p c && ci_prefix pat text
  | _, [] => false
  end.

Definition CODE_WORDS : list pystr :=
  [str "code"; str "pin"; str "otp"; str "password"; str "passcode"; str "verification"].

(** Start of every non-overlapping match of the alternation of [CODE_WORDS]. *)
Fixpoint contexts_from (skip i : nat) (text : pystr) : list nat :=
  match text with
  | [] => []
  | _ :: rest =>
      match skip with
      | S skip => contexts_from skip (S i) rest
      | O => match List.find (fun w => ci_prefix w text) CODE_WORDS with
             | Some w => i :: contexts_from (length w - 1) (S i) rest
             | None => contexts_from 0 (S i) rest
             end
      end
  end.

(** ** Scoring *)

Definition sum_len (l : list (nat * pystr)) : nat := sum_list ((fun m => length m.2) <$> l).

Definition readability (text : pystr) : spec_float :=
  match text with
  | [] => fl_zero
  | _ =>
      let n := fl_of_Z (Z.of_nat (length text)) in
      let plain := fl_div (fl_of_Z (Z.of_nat (length (List.filter is_plain text)))) n in
      let words := sum_len (List.filter (fun m =>
        (2 <=? length m.2)%nat && (length m.2 <=? 15)%nat && existsb is_vowel m.2)
        (runs is_letter text)) in
      let digits := sum_len (List.filter (fun m => (2 <=? length m.2)%nat) (runs is_decimal text)) in
      fl_add (fl_mul fl_half plain)
             (fl_mul fl_half (fl_min fl_one (fl_div (fl_of_Z (Z.of_nat (words + digits))) n)))
  end.

(** ** The code in a text *)

Definition nat_dist (a b : nat) : nat := (a - b) + (b - a).

(** [min(xs, key=...)]: the first minimal element. *)
Fixpoint min_by {A} (key : A -> nat) (best : A) (xs : list A) : A :=
  match xs with
  | [] => best
  | x :: rest => min_by key (if (key x <? key best)%nat then x else best) rest
  end.

Definition nearest (contexts : list nat) (i : nat) : nat :=
  match contexts with
  | [] => O
  | c :: rest => min_by id (nat_dist i c) (nat_dist i <$> rest)
  end.

Definition extract_code (text : pystr) : pystr :=
  let candidates := List.filter (fun m => (4 <=? length m.2)%nat && (length m.2 <=? 8)%nat)
                                (runs is_decimal text) in
  let contexts := contexts_from 0 0 text in
  match candidates, contexts with
  | c :: rest, _ :: _ => (min_by (fun m => nearest contexts m.1) c rest).2
  | _, _ => []
  end.

(** ** Recovery *)

Record Salvage := mkSalvage {
  sv_text : pystr;
  sv_code : pystr;
  sv_fill_bits : nat;
  sv_score : spec_float }.

Definition no_salvage : Salvage := mkSalvage [] [] 0 fl_zero.

(** What alignment [fill_bits] of the frame reads as; [None] for [continue]. *)
Definition phase_text (body : pybytes) (fill_bits : nat) : option pystr :=
  let septets := ((length body * 8 - fill_bits) / 7)%nat in
  if (septets =? 0)%nat then None
  else Some (rstrip_by (Z.eqb 64) (decode (unpack body septets fill_bits))).

Definition recover_step (body : pybytes) (best : Salvage) (fill_bits : nat) : Salvage :=
  match phase_text body fill_bits with
  | None => best
  | Some text =>
      let score := readability text in
      if SFltb (sv_score best) score then mkSalvage text [] fill_bits score else best
  end.

Definition recover (body : pybytes) : Salvage :=
  let best := foldl (recover_step body) no_salvage PHASES in
  if SFltb (sv_score best) MIN_SCORE || (length (sv_text best) <? MIN_CHARS)%nat
  then mkSalvage [] [] (sv_fill_bits best) (sv_score best)
  else mkSalvage (sv_text best) (extract_code (sv_text best)) (sv_fill_bits best) (sv_score best).

(** * Lemmas *)

(** The best alignment so far is either none or one of the phases. *)
Definition from_phase (body : pybytes) (s : Salvage) : Prop :=
  s = no_salvage \/
  exists fill text, fill ∈ PHASES /\ phase_text body fill = Some text /\
                    s = mkSalvage text [] fill (readability text).

Lemma recover_scan body phases best :
  (forall f, f ∈ phases -> f ∈ PHASES) -> from_phase body best ->
  from_phase body (foldl (recover_step body) best phases).
Proof.
  revert best. induction phases as [|f phases IH]; intros best Hsub Hb; simpl; [done|].
  apply IH; [set_solver|]. unfold recover_step. case_match eqn:Hp; [|done].
  case_match; [|done]. right. exists f. eexists. split_and!; [set_solver|exact Hp|done].
Qed.

Lemma min_by_elem {A} (key : A -> nat) xs best : min_by key best xs ∈ best :: xs.
Proof.
  revert best. induction xs as [|x xs IH]; intros best; simpl; [set_solver|].
  specialize (IH (if (key x <? key best)%nat then x else best)). case_match; set_solver.
Qed.

Lemma min_by_le {A} (key : A -> nat) xs best y :
  y ∈ best :: xs -> (key (min_by key best xs) <= key y)%nat.
Proof.
  revert best y. induction xs as [|x xs IH]; intros best y Hy; simpl.
  - apply list_elem_of_singleton in Hy as ->. lia.
  - destruct (Nat.ltb_spec (key x) (key best));
      apply elem_of_cons in Hy as [->|[->|Hy]%elem_of_cons]; try (apply IH; set_solver).
    + specialize (IH x x ltac:(set_solver)). lia.
    + specialize (IH best best ltac:(set_solver)). lia.
Qed.

Definition flush_run (i : nat) (cur : pystr) : list (nat * pystr) :=
  match cur with [] => [] | _ => [((i - length cur)%nat, rev cur)] end.

(** What a run is: where it starts, and that it is maximal. *)
Record is_run (p : Z -> bool) (text : pystr) (m : nat * pystr) : Prop := {
  run_ne : m.2 <> [];
  run_at : take (length m.2) (drop m.1 text) = m.2;
  run_all : forallb p m.2 = true;
  run_left : forall j c, m.1 = S j -> text !! j = Some c -> p c = false;
  run_right : forall c, text !! (m.1 + length m.2)%nat = Some c -> p c = false }.

Lemma forallb_rev {A} (p : A -> bool) l : forallb p (rev l) = forallb p l.
Proof.
  induction l as [|x l IH]; simpl; [done|]. rewrite forallb_app, IH. simpl.
  rewrite andb_true_r. apply andb_comm.
Qed.

Lemma runs_from_sound p full : forall text i cur m,
  (exists pre, full = pre ++ rev cur ++ text /\ i = (length pre + length cur)%nat /\
               (forall j c, length pre = S j -> full !! j = Some c -> p c = false)) ->
  forallb p cur = true ->
  m ∈ runs_from p i cur text -> is_run p full m.
Proof.
  assert (Hflush : forall pre cur text (m : nat * pystr),
    full = pre ++ rev cur ++ text -> forallb p cur = true ->
    (forall j c, length pre = S j -> full !! j = Some c -> p c = false) ->
    (forall c t, text = c :: t -> p c = false) ->
    m ∈ flush_run (length pre + length cur) cur -> is_run p full m).
  { intros pre cur text m Hfull Hcur Hleft Hright Hm.
    unfold flush_run in Hm. destruct cur as [|x cur]; [set_solver|].
    apply list_elem_of_singleton in Hm as ->.
    replace (length pre + length (x :: cur) - length (x :: cur))%nat with (length pre) by lia.
    assert (Hl : length (rev (x :: cur)) = length (x :: cur)) by apply length_rev.
    split; cbn [fst snd].
    - intros H. apply (f_equal length) in H. rewrite Hl in H. done.
    - by rewrite Hfull, drop_app_length, take_app_length.
    - by rewrite forallb_rev.
    - exact Hleft.
    - intros c Hc. rewrite Hfull, lookup_app_r, lookup_app_r in Hc by lia.
      destruct text as [|d t]; [by rewrite lookup_nil in Hc|].
      replace (_ - _)%nat with O in Hc by lia. injection Hc as <-. by eapply Hright. }
  induction text as [|c text IH]; intros i cur m (pre & Hfull & -> & Hleft) Hcur Hm; cbn [runs_from] in Hm;
    change (match cur with [] => [] | _ => _ end) with (flush_run (length pre + length cur) cur) in Hm.
  - eapply Hflush; eauto. intros ?? [=].
  - destruct (p c) eqn:Hc.
    + eapply (IH _ (c :: cur)); [|simpl; by rewrite Hc|exact Hm].
      exists pre. split_and!; [|simpl; lia|done]. simpl. by rewrite <- app_assoc.
    + apply elem_of_app in Hm as [Hm|Hm].
      * eapply (Hflush pre cur (c :: text)); eauto. intros ?? [= <- _]. done.
      * eapply (IH _ []); [|done|exact Hm].
        exists (pre ++ rev cur ++ [c]). split_and!.
        -- simpl. rewrite Hfull, <- !app_assoc. done.
        -- simpl. rewrite !length_app, length_rev. simpl. lia.
        -- intros j d Hj Hd. rewrite !length_app, length_rev in Hj. simpl in Hj.
           rewrite Hfull, lookup_app_r, lookup_app_r in Hd by (rewrite ?length_rev; lia).
           rewrite length_rev in Hd. replace (_ - _)%nat with O in Hd by lia.
           by injection Hd as <-.
Qed.

Lemma runs_sound p text m : m ∈ runs p text -> is_run p text m.
Proof.
  intros H. eapply (runs_from_sound p text text 0 []); [|done|exact H]. exists [].
  by split_and!.
Qed.

(** * Properties *)

(** A recovered fragment is never presented unless it earned it --
    when [recover] returns text, that text is what one of the seven alignments
    of the frame decodes to (trailing "@" dropped), it is at least 20
    characters long and scores at least 0.75, and the code reported with it is
    the one extracted from that text; otherwise both text and code are empty. *)
Theorem recover_sound body :
  let s := recover body in
  (sv_text s = [] /\ sv_code s = []) \/
  (sv_fill_bits s ∈ PHASES /\ phase_text body (sv_fill_bits s) = Some (sv_text s) /\
   sv_score s = readability (sv_text s) /\ SFltb (sv_score s) MIN_SCORE = false /\
   (20 <= length (sv_text s))%nat /\ sv_code s = extract_code (sv_text s)).
Proof.
  cbn zeta. unfold recover.
  assert (Hp : from_phase body (foldl (recover_step body) no_salvage PHASES))
    by (apply recover_scan; [done|by left]).
  destruct (SFltb _ _ || _) eqn:Hc; [by left|]. right.
  apply orb_false_iff in Hc as [Hs Hl]. unfold MIN_CHARS in Hl.
  destruct Hp as [Hp|(fill & text & Hin & Ht & Hp)]; rewrite Hp in *; cbn in *; [done|].
  split_and!; try done. lia.
Qed.

(** A reported code is a maximal run of 4 to 8 digits of the
    text -- digits that stand alone there, not part of a longer number -- and
    the text names a code somewhere; among the candidates the reported one is
    nearest to such a word. *)
Theorem extract_code_sound text :
  extract_code text = [] \/
  exists m ctx, m.2 = extract_code text /\ is_run is_decimal text m /\
    (4 <= length m.2 <= 8)%nat /\ contexts_from 0 0 text = ctx /\ ctx <> [] /\
    forall m', m' ∈ runs is_decimal text -> (4 <= length m'.2 <= 8)%nat ->
               (nearest ctx m.1 <= nearest ctx m'.1)%nat.
Proof.
  unfold extract_code. set (f := fun m : nat * pystr => (4 <=? length m.2)%nat && (length m.2 <=? 8)%nat).
  assert (Hf : forall m, m ∈ List.filter f (runs is_decimal text) <->
                         m ∈ runs is_decimal text /\ (4 <= length m.2 <= 8)%nat).
  { intros m. rewrite !list_elem_of_In, List.filter_In. subst f. cbv beta.
    by rewrite andb_true_iff, !Nat.leb_le. }
  destruct (List.filter f _) as [|c rest]; [by left|].
  destruct (contexts_from 0 0 text) as [|x ctx] eqn:Hctx; [by left|]. right.
  set (key := fun m : nat * pystr => nearest (x :: ctx) m.1).
  exists (min_by key c rest), (x :: ctx).
  destruct (proj1 (Hf _) (min_by_elem key rest c)) as [Hin Hlen].
  split_and!; try done; try lia; [by apply runs_sound|].
  intros m' Hm' Hl. apply (min_by_le key). by apply Hf.
Qed.
