(* ===== verification/Codec.v ===== *)
(** * SMS PDU codec (agent/src/air780e_agent/pdu/codec.py)

    Decoding of SMS-DELIVER, SMS-SUBMIT and SMS-STATUS-REPORT frames and the
    building of SUBMIT, DELIVER and STATUS-REPORT frames.  Decoders run over an
    explicit [Reader] in the error monad; the random reference number and the
    current time are arguments. *)

From S2P Require Import Prelude PyText Gsm7 Salvage.

(** ** Constants *)

Definition MAX_GSM7_SINGLE : nat := 160.
Definition MAX_GSM7_CONCAT : nat := 153.
Definition MAX_UCS2_SINGLE_BYTES : nat := 140.
Definition MAX_UCS2_CONCAT_BYTES : nat := 134.

Definition MTI_DELIVER : Z := 0.
Definition MTI_SUBMIT : Z := 1.
Definition MTI_STATUS_REPORT : Z := 2.

Definition TOA_INTERNATIONAL : Z := 0x91.
Definition TOA_NATIONAL : Z := 0x81.

(** ** Exceptions *)

(** The conditions a PduError reports, with the values its message names. *)
Inductive fault :=
| Truncated (wanted offset left : nat)
| NotHex
| UdhiEmpty
| UnsupportedMti (mti first : Z)
| NotStatusReport (mti first : Z)
| NoDigits (number : pystr).

Inductive pdu_exn :=
| PduError (f : fault)
| ValueError
| UnicodeEncodeError.

Notation R A := (res pdu_exn A).

(** ** Data *)

Record Concat := mkConcat { c_ref : Z; c_total : Z; c_seq : Z }.

Inductive alphabet := gsm7 | eight_bit | ucs2.
Inductive kind := deliver | submit.

(** An aware datetime; [dt_offset] is its UTC offset in seconds. *)
Record datetime := mkDatetime {
  dt_year : Z; dt_month : Z; dt_day : Z;
  dt_hour : Z; dt_minute : Z; dt_second : Z;
  dt_offset : Z }.

Record DecodedSms := mkDecodedSms {
  d_kind : kind;
  d_address : pystr;
  d_text : pystr;
  d_smsc : option pystr;
  d_timestamp : option datetime;
  d_dcs : Z;
  d_alphabet : alphabet;
  d_concat : option Concat;
  d_raw : pystr;
  d_ports : option (Z * Z);
  d_udh_malformed : bool;
  d_status_report_requested : bool;
  d_pid : Z;
  d_truncated : bool;
  d_recovered_text : pystr;
  d_code : pystr }.

Record EncodedPdu := mkEncodedPdu {
  e_pdu_hex : pystr; e_tpdu_len : nat; e_seq : Z; e_total : Z }.

Record StatusReport := mkStatusReport {
  sr_message_reference : Z;
  sr_recipient : pystr;
  sr_service_center_timestamp : option datetime;
  sr_discharge_time : option datetime;
  sr_status : Z;
  sr_smsc : option pystr;
  sr_raw : pystr }.

#[export] Instance Concat_eq_dec : EqDecision Concat.
Proof. solve_decision. Defined.
#[export] Instance alphabet_eq_dec : EqDecision alphabet.
Proof. solve_decision. Defined.
#[export] Instance kind_eq_dec : EqDecision kind.
Proof. solve_decision. Defined.
#[export] Instance datetime_eq_dec : EqDecision datetime.
Proof. solve_decision. Defined.
#[export] Instance DecodedSms_eq_dec : EqDecision DecodedSms.
Proof. solve_decision. Defined.

Definition is_multipart (s : DecodedSms) : bool :=
  match d_concat s with Some c => 1 <? c_total c | None => false end.

Definition is_binary (s : DecodedSms) : bool :=
  bool_decide (d_alphabet s = eight_bit)
  || bool_decide (is_Some (d_ports s))
  || d_udh_malformed s
  || d_truncated s
  || (bool_decide (d_text s = []) && (0xC0 <=? d_pid s)).

Inductive delivery_state := delivered | pending | failed.

#[export] Instance delivery_state_eq_dec : EqDecision delivery_state.
Proof. solve_decision. Defined.

(** [StatusReport.state] of a TP-ST octet. *)
Definition tp_st_state (status : Z) : delivery_state :=
  if (0x00 <=? status) && (status <=? 0x1F) then delivered
  else if (0x20 <=? status) && (status <=? 0x3F) then pending
  else if (0x40 <=? status) && (status <=? 0x7F) then failed
  else pending.

Definition sr_state (r : StatusReport) : delivery_state := tp_st_state (sr_status r).

(** ** The reader *)

Record Reader := mkReader { rd_data : pybytes; rd_pos : nat }.

Definition take_ (n : nat) (r : Reader) : R (pybytes * Reader) :=
  if (length (rd_data r) <? rd_pos r + n)%nat
  then Err (PduError (Truncated n (rd_pos r) (length (rd_data r) - rd_pos r)))
  else Ok (slice (rd_pos r) (rd_pos r + n) (rd_data r), mkReader (rd_data r) (rd_pos r + n)).

Definition byte (r : Reader) : R (Z * Reader) :=
  '(chunk, r) ← take_ 1 r; Ok (at_ chunk 0, r).

Definition tell (r : Reader) : nat := rd_pos r.

Definition rest_ (r : Reader) : pybytes * Reader :=
  (drop (rd_pos r) (rd_data r), mkReader (rd_data r) (length (rd_data r))).

(** ** Low-level helpers *)

Definition swap_decimal (octet : Z) : Z := Z.land octet 0x0F * 10 + Z.shiftr octet 4.

Definition decode_digits (data : pybytes) (digit_count : nat) : pystr :=
  let out := mjoin ((fun o => [hex_char (Z.land o 0x0F); hex_char (Z.shiftr o 4)]) <$> data) in
  List.filter (fun c => negb (c =? 70)) (take digit_count out).

(** [int(digits[i], 16)] raises ValueError on anything else. *)
Definition digit_value (c : Z) : R Z := of_option ValueError (int16 c).

Fixpoint encode_digit_pairs (digits : pystr) : R pybytes :=
  match digits with
  | lo :: hi :: rest =>
      lo ← digit_value lo; hi ← digit_value hi; tl ← encode_digit_pairs rest;
      Ok (Z.lor (Z.shiftl hi 4) lo :: tl)
  | _ => Ok []
  end.

Definition encode_digits (digits : pystr) : R pybytes :=
  let digits := if Nat.odd (length digits) then digits ++ [70] else digits in
  encode_digit_pairs digits.

Definition alphabet_from_dcs (dcs : Z) : alphabet :=
  let coding :=
    if Z.land dcs 0xC0 =? 0x00 then Z.land (Z.shiftr dcs 2) 0x03
    else if Z.land dcs 0xF0 =? 0xF0 then (if Z.land dcs 0x04 =? 0 then 0 else 1)
    else (if Z.land dcs 0xF0 =? 0xE0 then 2 else 0) in
  if coding =? 1 then eight_bit else if coding =? 2 then ucs2 else gsm7.

Definition is_alphanumeric (toa : Z) : bool := Z.land toa 0x70 =? 0x50.

Definition with_plus (toa : Z) (digits : pystr) : pystr :=
  if Z.land toa 0x70 =? 0x10 then 43 :: digits else digits.

Definition decode_address (r : Reader) : R ((pystr * Z) * Reader) :=
  '(len, r) ← byte r;
  if len =? 0 then Ok (([], 0), r) else
  '(toa, r) ← byte r;
  '(octets, r) ← take_ (Z.to_nat ((len + 1) / 2)) r;
  if is_alphanumeric toa then
    let septet_count := Z.to_nat (len * 4 / 7) in
    Ok ((decode (unpack octets septet_count 0), toa), r)
  else
    let digits := decode_digits octets (Z.to_nat len) in
    Ok ((with_plus toa digits, toa), r).

(** [bytes([...])] *)
Definition to_bytes (l : list Z) : R pybytes :=
  if forallb byte_ok l then Ok l else Err ValueError.

(** [re.sub(r"\D", "", s)] *)
Definition only_digits (s : pystr) : pystr := List.filter is_decimal s.

Definition encode_address (number : pystr) : R pybytes :=
  let international := starts_with [43] (strip number) in
  let digits := only_digits number in
  if bool_decide (digits = []) then Err (PduError (NoDigits number)) else
  let toa := if international then TOA_INTERNATIONAL else TOA_NATIONAL in
  head ← to_bytes [Z.of_nat (length digits); toa];
  tl ← encode_digits digits;
  Ok (head ++ tl).

Definition decode_smsc (r : Reader) : R (option pystr * Reader) :=
  '(sca_len, r) ← byte r;
  if sca_len =? 0 then Ok (None, r) else
  '(sca, r) ← take_ (Z.to_nat sca_len) r;
  let toa := at_ sca 0 in
  let digits := decode_digits (drop 1 sca) (Z.to_nat ((sca_len - 1) * 2)) in
  Ok (Some (with_plus toa digits), r).

(** ** Timestamps *)

Definition is_leap (y : Z) : bool :=
  (y mod 4 =? 0) && (negb (y mod 100 =? 0) || (y mod 400 =? 0)).

Definition days_in_month (y m : Z) : Z :=
  if m =? 2 then (if is_leap y then 29 else 28)
  else if bool_decide (m ∈ [4; 6; 9; 11]) then 30 else 31.

(** What the datetime constructor accepts. *)
Definition valid_datetime (d : datetime) : bool :=
  (1 <=? dt_year d) && (dt_year d <=? 9999) && (1 <=? dt_month d) && (dt_month d <=? 12) &&
  (1 <=? dt_day d) && (dt_day d <=? days_in_month (dt_year d) (dt_month d)) &&
  (0 <=? dt_hour d) && (dt_hour d <=? 23) && (0 <=? dt_minute d) && (dt_minute d <=? 59) &&
  (0 <=? dt_second d) && (dt_second d <=? 59) &&
  (-86400 <? dt_offset d) && (dt_offset d <? 86400).

(** The 7-octet service-centre timestamp; [None] when it is not a real date. *)
Definition decode_scts (data : pybytes) : option datetime :=
  if (length data <? 7)%nat then None else
  let f i := swap_decimal (at_ data i) in
  let tz_raw := at_ data 6 in
  let low := Z.land tz_raw 0x0F in
  let negative := negb (Z.land low 0x08 =? 0) in
  let quarters := Z.land low 0x07 * 10 + Z.shiftr tz_raw 4 in
  let offset := 15 * 60 * quarters in
  let offset := if negative then - offset else offset in
  let d := mkDatetime (2000 + f 0%nat) (f 1%nat) (f 2%nat) (f 3%nat) (f 4%nat) (f 5%nat) offset in
  if valid_datetime d then Some d else None.

Definition swap (value : Z) : Z := Z.lor (Z.shiftl (value mod 10) 4) (value / 10).

Definition encode_scts (when : datetime) : R pybytes :=
  let quarters := dt_offset when / 900 in
  let negative := quarters <? 0 in
  let quarters := Z.abs quarters in
  let tz_octet := Z.lor (Z.shiftl (quarters mod 10) 4) (quarters / 10) in
  let tz_octet := if negative then Z.lor tz_octet 0x08 else tz_octet in
  to_bytes [swap (dt_year when mod 100); swap (dt_month when); swap (dt_day when);
            swap (dt_hour when); swap (dt_minute when); swap (dt_second when); tz_octet].

(** ** User data *)

(** The loop of _parse_udh; each round consumes at least two octets, so
    [fuel = length udh] is enough. *)
Fixpoint parse_udh_loop (fuel : nat) (udh : pybytes) (pos : nat)
    (concat : option Concat) (ports : option (Z * Z)) : option Concat * option (Z * Z) * bool :=
  if (length udh <=? pos)%nat then (concat, ports, false) else
  match fuel with
  | O => (concat, ports, false)
  | S fuel =>
      if (length udh <? pos + 2)%nat then (concat, ports, true) else
      let iei := at_ udh pos in
      let ie_len := Z.to_nat (at_ udh (pos + 1)) in
      let e := (pos + 2 + ie_len)%nat in
      if (length udh <? e)%nat then (concat, ports, true) else
      let payload := slice (pos + 2) e udh in
      let p := at_ payload in
      let long n := (n <=? length payload)%nat in
      let '(concat, ports) :=
        if (iei =? 0x00) && long 3%nat then
          (Some (default (mkConcat (p 0%nat) (p 1%nat) (p 2%nat)) concat), ports)
        else if (iei =? 0x08) && long 4%nat then
          (Some (default (mkConcat (Z.lor (Z.shiftl (p 0%nat) 8) (p 1%nat)) (p 2%nat) (p 3%nat)) concat), ports)
        else if (iei =? 0x04) && long 2%nat then
          (concat, Some (default (p 0%nat, p 1%nat) ports))
        else if (iei =? 0x05) && long 4%nat then
          (concat, Some (default (Z.lor (Z.shiftl (p 0%nat) 8) (p 1%nat),
                                  Z.lor (Z.shiftl (p 2%nat) 8) (p 3%nat)) ports))
        else (concat, ports) in
      parse_udh_loop fuel udh e concat ports
  end.

Definition parse_udh (udh : pybytes) : option Concat * option (Z * Z) * bool :=
  parse_udh_loop (length udh) udh 0 None None.

Definition decode_ucs2 (payload : pybytes) : pystr :=
  if bool_decide (take 2 payload = [0xfe; 0xff]) then utf16_decode BE (drop 2 payload)
  else if bool_decide (take 2 payload = [0xff; 0xfe]) then utf16_decode LE (drop 2 payload)
  else utf16_decode BE payload.

Definition fill_bits_of (udh_octets : nat) : nat := ((7 - (udh_octets * 8) mod 7) mod 7)%nat.
Definition header_septets_of (udh_octets : nat) : nat := ((udh_octets * 8 + fill_bits_of udh_octets) / 7)%nat.

Record UserData := mkUserData {
  ud_text : pystr; ud_concat : option Concat; ud_alphabet : alphabet;
  ud_ports : option (Z * Z); ud_malformed : bool }.

(** The header part: octets it takes, what it carries, and whether it is
    malformed. *)
Definition user_data_header (body : pybytes) (has_udh : bool)
    : R (nat * option Concat * option (Z * Z) * bool) :=
  if has_udh then
    match body with
    | [] => Err (PduError UdhiEmpty)
    | udhl :: _ =>
        let udh_octets := (Z.to_nat udhl + 1)%nat in
        let over := (length body <? udh_octets)%nat in
        let '(concat, ports, invalid) := parse_udh (slice 1 udh_octets body) in
        Ok (udh_octets, concat, ports, over || invalid)
    end
  else Ok (O, None, None, false).

Definition decode_user_data (body : pybytes) (udl dcs : Z) (has_udh : bool) : R UserData :=
  let alphabet := alphabet_from_dcs dcs in
  let udl := Z.to_nat udl in
  '(udh_octets, concat, ports, malformed) ← user_data_header body has_udh;
  let payload :=
    if (udl <=? length body)%nat then slice udh_octets udl body else drop udh_octets body in
  let text :=
    match alphabet with
    | gsm7 =>
        decode (unpack (drop udh_octets body) (udl - header_septets_of udh_octets)
                       (fill_bits_of udh_octets))
    | ucs2 => decode_ucs2 payload
    | eight_bit => payload
    end in
  Ok (mkUserData text concat alphabet ports malformed).

(** ** Decoding *)

(** [re.sub(r"\s", "", pdu_hex)] *)
Definition clean_hex (s : pystr) : pystr := List.filter (fun c => negb (is_space c)) s.

Definition decode_pdu (pdu_hex : pystr) : R DecodedSms :=
  let cleaned := clean_hex pdu_hex in
  data ← of_option (PduError NotHex) (fromhex cleaned);
  let r := mkReader data 0 in
  '(smsc, r) ← decode_smsc r;
  '(first, r) ← byte r;
  let mti := Z.land first 0x03 in
  let has_udh := negb (Z.land first 0x40 =? 0) in
  '(kind, srr, address, toa, body_start, pid, dcs, timestamp, r) ←
    (if mti =? MTI_DELIVER then
       '((address, toa), r) ← decode_address r;
       let body_start := tell r in
       '(pid, r) ← byte r;
       '(dcs, r) ← byte r;
       '(ts, r) ← take_ 7 r;
       Ok (deliver, false, address, toa, body_start, pid, dcs, decode_scts ts, r)
     else if mti =? MTI_SUBMIT then
       let srr := negb (Z.land first 0x20 =? 0) in
       '(_, r) ← byte r;
       '((address, toa), r) ← decode_address r;
       '(pid, r) ← byte r;
       '(dcs, r) ← byte r;
       let vpf := Z.land (Z.shiftr first 3) 0x03 in
       r ← (if vpf =? 0x02 then '(_, r) ← byte r; Ok r
            else if (vpf =? 0x01) || (vpf =? 0x03) then '(_, r) ← take_ 7 r; Ok r
            else Ok r);
       Ok (submit, srr, address, toa, O, pid, dcs, None, r)
     else Err (PduError (UnsupportedMti mti first)));
  '(udl, r) ← byte r;
  ud ← decode_user_data (rest_ r).1 udl dcs has_udh;
  let truncated := bool_decide (kind = deliver) && is_alphanumeric toa && bool_decide (timestamp = None) in
  let recovered := if truncated then recover (drop body_start data) else no_salvage in
  Ok (mkDecodedSms kind address (ud_text ud) smsc timestamp dcs (ud_alphabet ud) (ud_concat ud)
        (upper_ascii <$> cleaned) (ud_ports ud) (ud_malformed ud) srr pid
        truncated (sv_text recovered) (sv_code recovered)).

Definition decode_status_report (pdu_hex : pystr) : R StatusReport :=
  let cleaned := clean_hex pdu_hex in
  data ← of_option (PduError NotHex) (fromhex cleaned);
  let r := mkReader data 0 in
  '(smsc, r) ← decode_smsc r;
  '(first, r) ← byte r;
  if negb (Z.land first 0x03 =? MTI_STATUS_REPORT)
  then Err (PduError (NotStatusReport (Z.land first 0x03) first)) else
  '(mr, r) ← byte r;
  '((recipient, _), r) ← decode_address r;
  '(sc, r) ← take_ 7 r;
  '(dt, r) ← take_ 7 r;
  '(status, r) ← byte r;
  Ok (mkStatusReport mr recipient (decode_scts sc) (decode_scts dt) status smsc
        (upper_ascii <$> cleaned)).

(** * Properties *)

(** The salvage path is unreachable for a healthy frame.  A decoded
    message is flagged truncated exactly when it is a DELIVER with an
    alphanumeric sender and no valid timestamp; unflagged messages carry no
    recovered text and no code, and a flagged one carries what [recover] found
    and is never presented as text. *)
Theorem truncation_signature pdu_hex m :
  decode_pdu pdu_hex = Ok m ->
  (d_truncated m = true -> d_kind m = deliver /\ d_timestamp m = None /\ is_binary m = true /\
     exists body, d_recovered_text m = sv_text (recover body) /\ d_code m = sv_code (recover body)) /\
  (d_truncated m = false -> d_recovered_text m = [] /\ d_code m = []) /\
  (d_kind m = submit -> d_truncated m = false).
Proof.
  intros H. unfold decode_pdu in H.
  apply bind_ok in H as (data & _ & H). apply bind_ok in H as ([smsc r] & _ & H).
  apply bind_ok in H as ([first r1] & _ & H).
  apply bind_ok in H as ([[[[[[[[k srr] addr] toa] bs] pid] dcs] ts] r2] & _ & H).
  apply bind_ok in H as ([udl r3] & _ & H). apply bind_ok in H as (ud & _ & [= <-]). cbn.
  set (t := _ && _ && _).
  assert (Hk : t = true -> k = deliver /\ ts = None).
  { subst t. rewrite !andb_true_iff, !bool_decide_eq_true. naive_solver. }
  destruct t; split_and!; try done.
  - intros _. destruct (Hk eq_refl) as [-> ->]. split_and!; [done|done| |by eexists].
    unfold is_binary. cbn. by rewrite orb_true_r.
  - by destruct (Hk eq_refl) as [-> _].
Qed.

Lemma truncation_signature_witness :
  exists m, decode_pdu (str "00040BD0E7F4F41C0E0300000000000000000005E8329BFD06") = Ok m /\
    d_truncated m = true /\ d_kind m = deliver.
Proof.
  eexists. split; [by vm_compute|]. split; [done|].
  apply (truncation_signature (str "00040BD0E7F4F41C0E0300000000000000000005E8329BFD06") _ ltac:(by vm_compute)).
  done.
Defined.
