(* ===== verification/Roundtrip.v ===== *)
(** * Codec laws: what the builders produce, the decoders read back

    Lemmas on the reader, digits, addresses, timestamps, segmentation and user
    data, and the round-trip theorems of SUBMIT, DELIVER and STATUS-REPORT. *)

From S2P Require Import Prelude PyText Gsm7 Salvage Codec Encode.

#[local] Opaque Nat.div Nat.modulo decimal_value.
#[local] Arguments Nat.mul : simpl never.

(** ** The reader *)

(** [r] reads [data] and [suf] is what is left. *)
Record reads (data : pybytes) (r : Reader) (suf : pybytes) : Prop := {
  reads_data : rd_data r = data;
  reads_suf : drop (rd_pos r) data = suf;
  reads_pos : (rd_pos r <= length data)%nat }.

Lemma reads_start data l : data = l -> reads data (mkReader data 0) l.
Proof. intros <-. split; simpl; [done|done|lia]. Qed.

Lemma take_reads n data r chunk suf :
  reads data r (chunk ++ suf) -> length chunk = n ->
  exists r', take_ n r = Ok (chunk, r') /\ reads data r' suf /\ rd_pos r' = (rd_pos r + n)%nat.
Proof.
  intros [<- Hs Hp] <-. unfold take_.
  assert (Hl : (length (drop (rd_pos r) (rd_data r)) = length chunk + length suf)%nat)
    by by rewrite Hs, length_app.
  rewrite length_drop in Hl.
  destruct (Nat.ltb_spec (length (rd_data r)) (rd_pos r + length chunk)); [lia|].
  exists (mkReader (rd_data r) (rd_pos r + length chunk)). split_and!; [| |done].
  - unfold slice. rewrite Hs. replace (_ + _ - _)%nat with (length chunk) by lia.
    by rewrite take_app_length.
  - split; simpl; [done| |lia]. by rewrite <- drop_drop, Hs, drop_app_length.
Qed.

Lemma byte_reads data r b suf :
  reads data r (b :: suf) -> exists r', byte r = Ok (b, r') /\ reads data r' suf.
Proof.
  intros H. destruct (take_reads 1 data r [b] suf H eq_refl) as (r' & Ht & Hr & _).
  exists r'. unfold byte. by rewrite Ht.
Qed.

Lemma rest_reads data r suf : reads data r suf -> (rest_ r).1 = suf.
Proof. by intros [<- <- _]. Qed.

(** Start reading a frame whose octets are known. *)
Ltac start_reading l H :=
  let data := fresh "data" in let E := fresh "E" in
  remember l as data eqn:E; pose proof (reads_start data _ E) as H; clear E; cbn [app] in H.

(** Read the next octets of a frame whose bytes are known. *)
Ltac read_byte H :=
  let r := fresh "r" in let E := fresh "E" in let H' := fresh "H" in
  destruct (byte_reads _ _ _ _ H) as (r & E & H'); rewrite E; clear E; clear H; rename H' into H;
  cbn [mbind res_bind].

Ltac read_take H n chunk suf :=
  let r := fresh "r" in let E := fresh "E" in let H' := fresh "H" in let P := fresh "P" in
  destruct (take_reads n _ _ chunk suf H) as (r & E & H' & P);
  [ | rewrite E; clear E; clear H; rename H' into H; cbn [mbind res_bind] ].

Lemma to_bytes_ok l bs : to_bytes l = Ok bs <-> bs = l /\ is_bytes l.
Proof.
  unfold to_bytes, is_bytes. assert (Hf : forallb byte_ok l = true <-> Forall is_byte l).
  { rewrite List.forallb_forall, Forall_forall. setoid_rewrite list_elem_of_In.
    setoid_rewrite <- byte_ok_spec. done. }
  destruct (forallb byte_ok l) eqn:E; rewrite <- Hf; naive_solver.
Qed.

(** ** Digits *)

(** The ASCII form of a decimal digit of any script. *)
Definition ascii_digit (c : Z) : Z := 48 + default 0 (decimal_value c).

Definition all_decimal (ds : pystr) : Prop := Forall (fun c => is_decimal c = true) ds.

Lemma is_decimal_value c : is_decimal c = true -> exists v, decimal_value c = Some v /\ 0 <= v < 10.
Proof.
  unfold is_decimal. rewrite bool_decide_eq_true. intros [v Hv]. exists v.
  eauto using decimal_value_range.
Qed.

Lemma digit_value_ok c v : decimal_value c = Some v -> digit_value c = Ok v.
Proof. intros H. unfold digit_value, int16. by rewrite H. Qed.

(** An octet of two semi-octets. *)
Lemma semi_octets lo hi :
  0 <= lo < 16 -> 0 <= hi < 16 ->
  let o := Z.lor (Z.shiftl hi 4) lo in
  Z.land o 0x0F = lo /\ Z.shiftr o 4 = hi /\ is_byte o.
Proof.
  intros Hl Hh. cbn zeta. rewrite lor_shiftl_add by lia. change (2 ^ 4) with 16.
  rewrite land_0f_mod, Z.shiftr_div_pow2 by lia. change (2 ^ 4) with 16.
  unfold is_byte. split_and!; dlia.
Qed.

(** The characters of an octet string, least significant semi-octet first. *)
Definition semi_chars (data : pybytes) : pystr :=
  mjoin ((fun o => [hex_char (Z.land o 0x0F); hex_char (Z.shiftr o 4)]) <$> data).

Lemma semi_chars_cons lo hi data :
  0 <= lo < 16 -> 0 <= hi < 16 ->
  semi_chars (Z.lor (Z.shiftl hi 4) lo :: data) = hex_char lo :: hex_char hi :: semi_chars data.
Proof.
  intros Hl Hh. unfold semi_chars. cbn [fmap list_fmap mjoin list_join app].
  destruct (semi_octets lo hi Hl Hh) as (-> & -> & _). done.
Qed.

Lemma hex_char_digit v : 0 <= v < 10 -> hex_char v = 48 + v.
Proof. intros. unfold hex_char. by rewrite (proj2 (Z.ltb_lt v 10)) by lia. Qed.

(** The octets of a digit string hold its digits, padded with F to a pair. *)
Lemma encode_digits_chars : forall ds, all_decimal ds ->
  exists bs, encode_digits ds = Ok bs /\ is_bytes bs /\
    length bs = ((length ds + 1) / 2)%nat /\
    semi_chars bs = (ascii_digit <$> ds) ++ (if Nat.odd (length ds) then [70] else []).
Proof.
  fix IH 1. intros [|c [|d ds]] Hd.
  - exists []. split_and!; [done|by apply Forall_nil|simpl; dlia|done].
  - unfold all_decimal in Hd. rewrite Forall_singleton in Hd. destruct (is_decimal_value c Hd) as (v & Hv & Hr).
    exists [Z.lor (Z.shiftl 15 4) v]. unfold encode_digits. cbn [length Nat.odd app].
    cbn -[digit_value Z.lor Z.shiftl semi_chars]. rewrite (digit_value_ok c v Hv).
    cbn -[Z.lor Z.shiftl semi_chars]. split_and!; [done| |dlia|].
    + unfold is_bytes. rewrite Forall_singleton. apply (semi_octets v 15); lia.
    + rewrite semi_chars_cons by lia. unfold ascii_digit. rewrite Hv. cbn.
      by rewrite hex_char_digit by lia.
  - apply Forall_cons in Hd as [Hc Hd]. apply Forall_cons in Hd as [Hdd Hd].
    destruct (is_decimal_value c Hc) as (v & Hv & Hr).
    destruct (is_decimal_value d Hdd) as (w & Hw & Hs).
    destruct (IH ds Hd) as (bs & He & Hb & Hl & Hchars). clear IH.
    exists (Z.lor (Z.shiftl w 4) v :: bs).
    assert (Hodd : Nat.odd (length (c :: d :: ds)) = Nat.odd (length ds)) by done.
    split_and!.
    + unfold encode_digits in He |- *. rewrite Hodd.
      destruct (Nat.odd (length ds)); cbn [app encode_digit_pairs];
        rewrite (digit_value_ok c v Hv); cbn [mbind res_bind];
        rewrite (digit_value_ok d w Hw); cbn [mbind res_bind]; by rewrite He.
    + apply Forall_cons. split; [|done]. apply (semi_octets v w); lia.
    + cbn [length]. rewrite Hl. dlia.
    + rewrite semi_chars_cons by lia. rewrite Hchars, Hodd. unfold ascii_digit. cbn.
      rewrite Hv, Hw. cbn. by rewrite !hex_char_digit by lia.
Qed.

Lemma ascii_digit_range c : is_decimal c = true -> 48 <= ascii_digit c < 58.
Proof. intros H. destruct (is_decimal_value c H) as (v & Hv & Hr). unfold ascii_digit. rewrite Hv. simpl. lia. Qed.

Lemma filter_not_F ds :
  all_decimal ds -> List.filter (fun c => negb (c =? 70)) (ascii_digit <$> ds) = ascii_digit <$> ds.
Proof.
  induction 1 as [|c ds Hc _ IH]; [done|]. cbn. pose proof (ascii_digit_range c Hc).
  replace (ascii_digit c =? 70) with false by lia. cbn. by f_equal.
Qed.

(** Reading the digits back, by their count or up to the padding. *)
Lemma decode_encode_digits ds bs k :
  all_decimal ds -> encode_digits ds = Ok bs -> k = length ds \/ k = (2 * length bs)%nat ->
  decode_digits bs k = ascii_digit <$> ds.
Proof.
  intros Hd He Hk. destruct (encode_digits_chars ds Hd) as (bs' & He' & _ & Hl & Hc).
  rewrite He in He'. injection He' as <-. unfold decode_digits. fold (semi_chars bs). rewrite Hc.
  assert (Hlen : length (ascii_digit <$> ds) = length ds) by apply length_fmap.
  destruct Hk as [->| ->].
  - rewrite <- Hlen at 1. rewrite take_app_length. by apply filter_not_F.
  - rewrite take_ge.
    2:{ rewrite length_app, Hlen, Hl. destruct (Nat.odd (length ds)) eqn:E; simpl; [|dlia].
        apply Nat.odd_spec in E as [m Hm]. dlia. }
    rewrite List.filter_app, filter_not_F by done. by case_match; rewrite app_nil_r.
Qed.

Lemma only_digits_decimal s : all_decimal (only_digits s).
Proof.
  unfold all_decimal, only_digits. apply Forall_forall. intros c Hc.
  apply list_elem_of_In, List.filter_In in Hc. tauto.
Qed.

Lemma encode_digits_bytes ds bs : all_decimal ds -> encode_digits ds = Ok bs -> is_bytes bs.
Proof.
  intros Hd He. destruct (encode_digits_chars ds Hd) as (bs' & He' & Hb & _). congruence.
Qed.

Lemma encode_digits_length ds bs :
  all_decimal ds -> encode_digits ds = Ok bs -> length bs = ((length ds + 1) / 2)%nat.
Proof.
  intros Hd He. destruct (encode_digits_chars ds Hd) as (bs' & He' & _ & Hl & _). congruence.
Qed.

(** ** Addresses *)

(** The number a peer reads: its digits in ASCII, behind "+" when the caller
    wrote an international one. *)
Definition canonical_number (number : pystr) : pystr :=
  let digits := ascii_digit <$> only_digits number in
  if starts_with [43] (strip number) then 43 :: digits else digits.

Lemma encode_address_bytes number bs : encode_address number = Ok bs -> is_bytes bs.
Proof.
  unfold encode_address. case_bool_decide; [done|]. intros H'. inv_ok.
  apply to_bytes_ok in Ha as [-> Hb]. apply Forall_app. split; [done|].
  by eapply encode_digits_bytes; [apply only_digits_decimal|].
Qed.

Lemma decode_encode_address data r number bs suf :
  encode_address number = Ok bs -> reads data r (bs ++ suf) ->
  exists toa r', decode_address r = Ok ((canonical_number number, toa), r') /\
    reads data r' suf /\ is_alphanumeric toa = false.
Proof.
  unfold encode_address. case_bool_decide as Hne; [done|]. intros H' H. inv_ok.
  apply to_bytes_ok in Ha as [-> Hb]. set (ds := only_digits number) in *.
  assert (Hd : all_decimal ds) by apply only_digits_decimal.
  assert (Hlen := encode_digits_length _ _ Hd Ha0).
  apply Forall_cons in Hb as [Hl _]. unfold is_byte in Hl.
  rewrite <- app_assoc in H. cbn [app] in H. unfold decode_address.
  read_byte H. assert (Hnz : length ds <> O) by (intros ?%nil_length_inv; done).
  replace (Z.of_nat (length ds) =? 0) with false by lia.
  read_byte H.
  replace (Z.to_nat ((Z.of_nat (length ds) + 1) / 2)) with (length a0) by dlia.
  read_take H (length a0) a0 suf; [done|].
  rewrite Nat2Z.id, (decode_encode_digits ds a0 (length ds)) by auto.
  set (toa := if starts_with _ _ then TOA_INTERNATIONAL else TOA_NATIONAL).
  assert (Hal : is_alphanumeric toa = false) by (subst toa; by case_match).
  exists toa, r2. rewrite Hal. split_and!; [|done|done].
  repeat f_equal. unfold canonical_number, with_plus. subst toa. by case_match.
Qed.

(** ** Timestamps *)

Lemma swap_decimal_swap v : 0 <= v < 100 -> swap_decimal (swap v) = v /\ is_byte (swap v).
Proof.
  intros Hv. unfold swap_decimal, swap.
  destruct (semi_octets (v / 10) (v mod 10)) as (H1 & H2 & H3); [dlia|dlia|].
  rewrite H1, H2. split; [dlia|done].
Qed.

(** What the seven octets can carry: a year of 2000-2099 and a whole number of
    quarter hours within the 20 hours the two digits hold beside the sign. *)
Definition scts_representable (d : datetime) : Prop :=
  valid_datetime d = true /\ 2000 <= dt_year d <= 2099 /\
  dt_offset d mod 900 = 0 /\ -72000 < dt_offset d < 72000.

Lemma tz_octet_spec q :
  -80 < q < 80 ->
  let o := Z.lor (Z.shiftl (Z.abs q mod 10) 4) (Z.abs q / 10) in
  let o := if q <? 0 then Z.lor o 8 else o in
  let low := Z.land o 15 in
  Z.land low 7 * 10 + Z.shiftr o 4 = Z.abs q /\ negb (Z.land low 8 =? 0) = (q <? 0) /\ is_byte o.
Proof.
  intros Hq. cbn zeta.
  assert (Hin : q ∈ seqZ (-79) 159) by (apply elem_of_seqZ; lia). clear Hq. revert q Hin.
  apply (Forall_forall (fun q => _)). apply (bool_decide_unpack _). by vm_compute.
Qed.

Lemma decode_encode_scts d bs :
  encode_scts d = Ok bs -> scts_representable d ->
  decode_scts bs = Some d /\ length bs = 7%nat /\ is_bytes bs.
Proof.
  intros H (Hv & Hy & Hm & Ho). unfold encode_scts in H. apply to_bytes_ok in H as [-> Hb].
  split_and!; [|done|done]. unfold decode_scts.
  cbn [length Nat.ltb Nat.leb at_ nth].
  assert (Hq : -80 < dt_offset d / 900 < 80) by dlia.
  destruct (tz_octet_spec (dt_offset d / 900) Hq) as (H1 & H2 & _). cbn zeta in H1, H2.
  rewrite H1, H2. clear H1 H2 Hb.
  assert (Hv' := Hv). unfold valid_datetime in Hv'. rewrite !andb_true_iff, !Z.leb_le, !Z.ltb_lt in Hv'.
  assert (Hdim : days_in_month (dt_year d) (dt_month d) <= 31)
    by (unfold days_in_month; repeat case_match; lia).
  assert (Hsw : forall v, 0 <= v < 100 -> swap_decimal (swap v) = v) by apply swap_decimal_swap.
  rewrite !Hsw by (destruct_and?; dlia).
  set (d' := mkDatetime _ _ _ _ _ _ _).
  assert (d' = d) as ->; [|by rewrite Hv].
  subst d'. destruct d. cbn in *. f_equal; [dlia|]. case_match; dlia.
Qed.

Lemma scts_encodable d : scts_representable d -> exists bs, encode_scts d = Ok bs.
Proof.
  intros (Hv & Hy & Hm & Ho). unfold encode_scts. eexists. apply to_bytes_ok. split; [done|].
  unfold valid_datetime in Hv. rewrite !andb_true_iff, !Z.leb_le, !Z.ltb_lt in Hv.
  assert (Hdim : days_in_month (dt_year d) (dt_month d) <= 31)
    by (unfold days_in_month; repeat case_match; lia).
  repeat (apply Forall_cons; split); try by apply Forall_nil.
  all: try (apply swap_decimal_swap; destruct_and?; dlia).
  apply tz_octet_spec. dlia.
Qed.

(** ** GSM 7-bit segmentation *)

(** Septets as [encode] produces them: an escape is always followed by a
    septet that is not one, and never comes last. *)
Definition well_escaped (l : list Z) : Prop :=
  (forall i, l !! i = Some ESC -> l !! S i <> Some ESC) /\ last l <> Some ESC.

Lemma escape_open_snoc p l s :
  escape_open p (l ++ [s]) = negb (escape_open p l) && (s =? ESC).
Proof. revert p. induction l as [|x l IH]; intros p; simpl; [done|apply IH]. Qed.

(** Without adjacent escapes, a cut is inside an escape pair exactly when it is
    right after an escape. *)
Lemma escape_open_last l :
  (forall i, l !! i = Some ESC -> l !! S i <> Some ESC) ->
  escape_open false l = bool_decide (last l = Some ESC).
Proof.
  induction l as [|s l IH] using rev_ind; intros Hadj; [done|].
  rewrite escape_open_snoc, last_snoc.
  rewrite IH.
  2:{ intros i Hi Hi'. apply (Hadj i); by apply lookup_app_l_Some. }
  destruct (Z.eqb_spec s ESC) as [->|Hs].
  - rewrite (bool_decide_eq_true_2 (Some ESC = Some ESC)) by done.
    rewrite (bool_decide_eq_false_2 (last l = _)); [done|].
    intros Hl. rewrite last_lookup in Hl. destruct (length l) as [|n] eqn:Hn.
    { by apply nil_length_inv in Hn as ->. }
    simpl in Hl. apply (Hadj n); [by apply lookup_app_l_Some|].
    by rewrite lookup_app_r, Hn, Nat.sub_diag by lia.
  - rewrite andb_false_r, (bool_decide_eq_false_2 (Some s = _)) by congruence. done.
Qed.

Lemma encode_char_escaped c ss :
  encode_char c = Ok ss -> exists v, v <> ESC /\ (ss = [v] \/ ss = [ESC; v]).
Proof.
  unfold encode_char. intros H. case_match eqn:Hb; [|case_match eqn:He; [|done]]; injection H as <-.
  - apply basic_reverse_spec in Hb as (_ & Hne & _). eauto.
  - apply ext_reverse_ne in He. eauto.
Qed.

Lemma encode_well_escaped text : forall ss, encode text = Ok ss -> well_escaped ss.
Proof.
  induction text as [|c text IH]; intros ss H; cbn [encode] in H.
  { injection H as <-. split; [|done]. intros i. by rewrite lookup_nil. }
  apply bind_ok in H as (a & Ha & H). apply bind_ok in H as (b & Hb & [= <-]).
  apply encode_char_escaped in Ha as (v & Hv & Hab). destruct (IH _ Hb) as [Hadj Hlast].
  assert (Hstep : well_escaped (v :: b)).
  { split.
    - intros [|i] Hi; simpl in *; [congruence|by apply Hadj].
    - destruct b; simpl in *; congruence. }
  destruct Hab as [->| ->]; [done|]. destruct Hstep as [Ha' Hl']. split.
  - intros [|i] Hi; simpl in *; [congruence|by apply Ha'].
  - done.
Qed.

Lemma escape_open_slice l a b :
  (forall i, l !! i = Some ESC -> l !! S i <> Some ESC) ->
  (a < b <= length l)%nat -> at_ l (b - 1) <> ESC -> escape_open false (slice a b l) = false.
Proof.
  intros Hadj Hab Hat. unfold slice. rewrite escape_open_last.
  - apply bool_decide_eq_false_2. rewrite last_lookup, length_take, length_drop.
    rewrite lookup_take_lt, lookup_drop by lia. intros Hl. apply Hat.
    apply at_lookup. rewrite <- Hl. f_equal. lia.
  - intros i Hi. apply lookup_take_Some in Hi as [Hi Hlt]. rewrite lookup_drop in Hi.
    intros Hi'. apply lookup_take_Some in Hi' as [Hi' _]. rewrite lookup_drop in Hi'.
    apply (Hadj _ Hi). by rewrite <- Hi'; f_equal; lia.
Qed.

(** Every round of the loop advances, the pieces join to the input, none is
    longer than [limit] and none ends inside an escape pair. *)
Lemma split_gsm7_loop_spec septets limit :
  well_escaped septets -> (2 <= limit)%nat ->
  forall fuel pos, (length septets - pos <= fuel)%nat ->
  let chunks := split_gsm7_loop fuel septets limit pos in
  mjoin chunks = drop pos septets /\
  Forall (fun c => (1 <= length c <= limit)%nat /\ escape_open false c = false) chunks.
Proof.
  intros [Hadj Hlast] Hlim. induction fuel as [|fuel IH]; intros pos Hf; cbn [split_gsm7_loop].
  - destruct (Nat.leb_spec (length septets) pos); [|lia].
    split; [by rewrite drop_ge by lia|by apply Forall_nil].
  - destruct (Nat.leb_spec (length septets) pos) as [Hge|Hlt].
    { split; [by rewrite drop_ge by lia|by apply Forall_nil]. }
    cbn zeta. set (e := ((pos + limit) `min` length septets)%nat).
    set (cut := if _ && _ then _ else e).
    assert (Hcut : (pos < cut <= pos + limit)%nat /\ (cut <= length septets)%nat /\
                   at_ septets (cut - 1) <> ESC).
    { destruct ((e <? length septets)%nat && (at_ septets (e - 1) =? ESC)) eqn:Hc; subst cut.
      - apply andb_true_iff in Hc as [H1%Nat.ltb_lt H2%Z.eqb_eq]. split_and!; try (subst e; lia).
        destruct (lookup_lt_is_Some_2 septets (e - 1)) as [x Hx]; [lia|].
        rewrite (at_lookup _ _ _ Hx) in H2. subst x.
        destruct (lookup_lt_is_Some_2 septets (e - 1 - 1)) as [y Hy]; [subst e; lia|].
        rewrite (at_lookup _ _ _ Hy). intros ->. apply (Hadj _ Hy). rewrite <- Hx. f_equal.
        subst e; lia.
      - split_and!; try (subst e; lia).
        apply andb_false_iff in Hc as [H1%Nat.ltb_ge|H2%Z.eqb_neq]; [|done].
        replace e with (length septets) by (subst e; lia). intros Hat. apply Hlast.
        rewrite last_lookup. destruct (lookup_lt_is_Some_2 septets (length septets - 1)) as [x Hx]; [lia|].
        rewrite (at_lookup _ _ _ Hx) in Hat. subst x. rewrite <- Hx. f_equal. lia. }
    clearbody cut. destruct Hcut as (Hpos & Hle & Hat).
    destruct (IH cut) as [Hjoin Hall]; [lia|]. split.
    + rewrite mjoin_cons, Hjoin. apply slice_app_drop. lia.
    + apply Forall_cons. split; [|done]. split; [rewrite slice_length; lia|].
      apply escape_open_slice; [done|lia|done].
Qed.

Lemma split_gsm7_spec septets limit :
  well_escaped septets -> (2 <= limit)%nat ->
  mjoin (split_gsm7 septets limit) = septets /\
  Forall (fun c => (1 <= length c <= limit)%nat /\ escape_open false c = false) (split_gsm7 septets limit).
Proof. intros. by apply (split_gsm7_loop_spec septets limit) with (pos := 0%nat); [| |lia]. Qed.

Lemma decode_join chunks :
  Forall (fun c => escape_open false c = false) chunks ->
  mjoin (decode <$> chunks) = decode (mjoin chunks).
Proof.
  induction 1 as [|c cs Hc _ IH]; [done|].
  rewrite fmap_cons, !mjoin_cons, IH. unfold decode. by rewrite decode_from_app.
Qed.

(** ** UCS-2 segmentation *)

Lemma split_ucs2_loop_spec limit text : forall current used,
  Forall is_scalar (current ++ text) -> (4 <= limit)%nat -> (used <= limit)%nat ->
  (exists bs, utf16be_encode current = Some bs /\ length bs = used) ->
  exists chunks, split_ucs2_loop text limit current used = Ok chunks /\
    mjoin chunks = current ++ text /\
    Forall (fun c => exists bs, utf16be_encode c = Some bs /\ (length bs <= limit)%nat) chunks.
Proof.
  induction text as [|ch text IH]; intros current used Hs Hlim Hu (bs & Hbs & Hlen); cbn [split_ucs2_loop].
  - exists (match current with [] => [] | _ => [current] end).
    split_and!; [done|by destruct current; simpl; rewrite ?app_nil_r|].
    destruct current; [by apply Forall_nil|]. apply Forall_singleton. exists bs. split; [done|lia].
  - assert (Hch : is_scalar ch) by (apply Forall_app in Hs as [_ Hs]; by apply Forall_cons in Hs as [? _]).
    destruct (utf16be_char ch) as [b|] eqn:Hb.
    2:{ destruct Hch as [_ Hch]. unfold utf16be_char in Hb. rewrite Hch in Hb. by case_match. }
    cbn [of_option mbind res_bind]. pose proof (utf16be_char_len _ _ Hb) as Hl.
    assert (Hone : utf16be_encode [ch] = Some b) by (simpl; rewrite Hb; simpl; by rewrite app_nil_r).
    destruct (Nat.ltb_spec limit (used + length b)).
    + apply Forall_app in Hs as [_ Hs].
      destruct (IH [ch] (length b)) as (tl & Htl & Hj & Hall); [done|done|lia|eauto|].
      rewrite Htl. cbn [mbind res_bind]. exists (current :: tl). split_and!; [done| |].
      * by rewrite mjoin_cons, Hj.
      * apply Forall_cons. split; [|done]. exists bs. split; [done|lia].
    + destruct (IH (current ++ [ch]) (used + length b)%nat) as (tl & Htl & Hj & Hall).
      * by rewrite <- app_assoc.
      * done.
      * lia.
      * exists (bs ++ b). rewrite utf16be_encode_app, Hbs, Hone. simpl. split; [done|].
        rewrite length_app. lia.
      * exists tl. split_and!; [done| |done]. by rewrite Hj, <- app_assoc.
Qed.

Lemma split_ucs2_spec text limit :
  Forall is_scalar text -> (4 <= limit)%nat ->
  exists chunks, split_ucs2 text limit = Ok chunks /\ mjoin chunks = text /\
    Forall (fun c => exists bs, utf16be_encode c = Some bs /\ (length bs <= limit)%nat) chunks.
Proof.
  intros. apply split_ucs2_loop_spec; [done|done|lia|]. by exists [].
Qed.

(** ** User data *)

Definition is_bom (c : Z) : bool := (c =? 0xFEFF) || (c =? 0xFFFE).
(** Text without U+FEFF and U+FFFE, which _decode_ucs2 reads as byte-order marks
    when they lead a segment. *)
Definition no_bom (text : pystr) : Prop := Forall (fun c => is_bom c = false) text.

Definition seg_text (s : segment) : pystr :=
  match s with SegSeptets l => decode l | SegText t => t end.

(** A segment the builders produce under [use_gsm7]. *)
Definition seg_ok (use_gsm7 : bool) (s : segment) : Prop :=
  match s with
  | SegSeptets l => use_gsm7 = true /\ is_septets l
  | SegText t => use_gsm7 = false /\ Forall is_scalar t /\ no_bom t
  end.

Definition dcs_of (use_gsm7 : bool) : Z := if use_gsm7 then 0x00 else 0x08.
Definition alphabet_of (use_gsm7 : bool) : alphabet := if use_gsm7 then gsm7 else ucs2.
Definition concat_of (ref total index : Z) : option Concat :=
  if 1 <? total then Some (mkConcat (Z.land ref 0xFF) total index) else None.

Lemma utf16_unit_head c b : is_scalar c -> is_bom c = false -> utf16be_char c = Some b ->
  exists x y t, b = x :: y :: t /\ [x; y] <> [0xfe; 0xff] /\ [x; y] <> [0xff; 0xfe].
Proof.
  intros [Hr Hs] Hb H. unfold utf16be_char in H. rewrite Hs in H.
  assert (Hu : forall u, [Z.shiftr u 8; Z.land u 255] = [0xfe; 0xff] \/
                         [Z.shiftr u 8; Z.land u 255] = [0xff; 0xfe] -> u = 0xFEFF \/ u = 0xFFFE).
  { intros u. rewrite <- (unit_be_of u) at 5 6. cbn [unit_of].
    intros [[= -> ->]|[= -> ->]]; cbn; auto. }
  unfold is_bom in Hb. case_match; injection H as <-; cbn [unit_be app].
  - eexists _, _, []. split; [done|]. split; intros E; destruct (Hu c); auto; lia.
  - assert (Hv : 0 <= Z.shiftr (c - 65536) 10 < 1024) by (rewrite Z.shiftr_div_pow2 by lia; dlia).
    eexists _, _, _. split; [done|].
    split; intros E; destruct (Hu (55296 + Z.shiftr (c - 65536) 10)); auto; lia.
Qed.

Lemma decode_ucs2_encode t bs :
  Forall is_scalar t -> no_bom t -> utf16be_encode t = Some bs -> decode_ucs2 bs = t.
Proof.
  intros Hs Hb He. assert (Hd := utf16_roundtrip t bs Hs He). unfold decode_ucs2.
  destruct t as [|c t]; [by injection He as <-|].
  apply Forall_cons in Hs as [Hc _]. apply Forall_cons in Hb as [Hbc _]. simpl in He.
  apply bind_Some in He as (b & Hcb & He). apply bind_Some in He as (bs' & _ & [= <-]).
  destruct (utf16_unit_head c b Hc Hbc Hcb) as (x & y & tl & -> & H1 & H2).
  change (take 2 ((x :: y :: tl) ++ bs')) with [x; y].
  by rewrite !bool_decide_eq_false_2.
Qed.

Lemma udh_for_cases ref total index udh :
  udh_for ref total index = Ok udh ->
  (1 <? total = false /\ udh = []) \/
  (1 <? total = true /\ udh = [5; 0; 3; Z.land ref 255; total; index] /\ is_bytes udh).
Proof.
  unfold udh_for. case_match; intros H'; [right|left; by injection H' as <-].
  unfold build_udh in H'. by apply to_bytes_ok in H' as [-> Hb].
Qed.

Lemma segment_body_bytes g s udh body udl :
  is_bytes udh -> seg_ok g s -> segment_body udh s = Ok (body, udl) -> is_bytes body.
Proof.
  intros Hu Hs H. destruct s as [l|t]; cbn [segment_body] in H; inv_ok.
  - apply Forall_app. split; [done|apply pack_bytes].
  - apply Forall_app. split; [done|]. destruct Hs as (_ & Hsc & _).
    by eapply utf16be_encode_bytes.
Qed.

(** The user data of a built segment decodes to the segment's text and its
    concatenation header. *)
Lemma decode_user_data_segment g s ref total index udh body udl :
  udh_for ref total index = Ok udh -> segment_body udh s = Ok (body, udl) -> seg_ok g s ->
  decode_user_data body udl (dcs_of g) (negb (bool_decide (udh = []))) =
  Ok (mkUserData (seg_text s) (concat_of ref total index) (alphabet_of g) None false).
Proof.
  intros Hu Hb Hs.
  assert (Hhdr : user_data_header body (negb (bool_decide (udh = []))) =
                 Ok (length udh, concat_of ref total index, None, false)).
  { unfold concat_of.
    destruct (udh_for_cases _ _ _ _ Hu) as [[-> ->]|(-> & -> & _)]; [done|].
    assert (exists p, body = [5; 0; 3; Z.land ref 255; total; index] ++ p) as [p ->].
    { destruct s; cbn [segment_body] in Hb; inv_ok; eauto. }
    reflexivity. }
  unfold decode_user_data. rewrite Hhdr. cbn [mbind res_bind]. f_equal.
  replace (alphabet_from_dcs (dcs_of g)) with (alphabet_of g) by by destruct g.
  f_equal. destruct s as [l|t]; cbn [segment_body] in Hb; inv_ok.
  - destruct Hs as [-> Hl]. cbn [alphabet_of seg_text].
    rewrite drop_app_length, Nat2Z.id.
    replace (_ + length l - _)%nat with (length l) by lia. by rewrite unpack_pack.
  - destruct Hs as (-> & Hsc & Hnb). cbn [alphabet_of seg_text].
    rewrite Nat2Z.id, Nat.leb_refl. unfold slice. rewrite drop_app_length, length_app.
    rewrite take_ge by lia. by apply decode_ucs2_encode.
Qed.

(** ** Segments of a text *)

Lemma make_segments_ok g text :
  (g = true -> can_encode text = true) -> Forall is_scalar text -> no_bom text ->
  exists segs, make_segments g text = Ok segs /\ mjoin (seg_text <$> segs) = text /\
               Forall (seg_ok g) segs /\ segs <> [].
Proof.
  intros Hg Hs Hb. unfold make_segments, cut_segments. destruct g.
  - apply (proj1 (can_encode_encode text)) in Hg as [ss Hss]; [|done]. rewrite Hss.
    cbn [mbind res_bind].
    assert (Hlim : exists limit, (2 <= limit)%nat /\
      (if (MAX_GSM7_SINGLE <? length ss)%nat then MAX_GSM7_CONCAT else MAX_GSM7_SINGLE) = limit)
      by (eexists; split; [|done]; case_match; unfold MAX_GSM7_CONCAT, MAX_GSM7_SINGLE; lia).
    destruct Hlim as (limit & Hlim & ->).
    destruct (split_gsm7_spec ss limit (encode_well_escaped _ _ Hss) Hlim) as [Hj Hall].
    assert (Hd := decode_encode _ _ Hss). assert (Hsep := encode_septets _ _ Hss).
    set (chunks := split_gsm7 ss limit) in *. clearbody chunks.
    assert (Hjt : mjoin (seg_text <$> (SegSeptets <$> chunks)) = text).
    { rewrite <- list_fmap_compose. change (seg_text ∘ SegSeptets) with decode.
      rewrite decode_join; [by rewrite Hj|]. eapply Forall_impl; [exact Hall|]. by intros ? []. }
    eexists. split; [done|].
    destruct chunks as [|c cs]; cbn [map].
    + cbn in Hjt. subst text. split_and!; [done| |done]. apply Forall_singleton.
      split; [done|by apply Forall_nil].
    + split_and!; [exact Hjt| |done].
      change (SegSeptets c :: map SegSeptets cs) with (SegSeptets <$> (c :: cs)).
      apply Forall_fmap. rewrite <- Hj in Hsep. apply Forall_mjoin in Hsep.
      eapply Forall_impl; [exact Hsep|]. intros l Hl. by split.
  - destruct (split_ucs2_spec text 4 Hs ltac:(lia)) as (cs0 & _).
    assert (exists bs, utf16be_encode text = Some bs) as [bs Hbs].
    { clear -Hs. induction Hs as [|c text [Hr Hc] _ [bs IH]]; [by eexists|].
      simpl. unfold utf16be_char. rewrite Hc, IH. case_match; by eexists. }
    rewrite Hbs. cbn [of_option mbind res_bind].
    assert (Hlim : exists limit, (4 <= limit)%nat /\
      (if (MAX_UCS2_SINGLE_BYTES <? length bs)%nat then MAX_UCS2_CONCAT_BYTES
       else MAX_UCS2_SINGLE_BYTES) = limit)
      by (eexists; split; [|done]; case_match; unfold MAX_UCS2_CONCAT_BYTES, MAX_UCS2_SINGLE_BYTES; lia).
    destruct Hlim as (limit & Hlim & ->).
    destruct (split_ucs2_spec text limit Hs Hlim) as (chunks & -> & Hj & _).
    cbn [mbind res_bind]. eexists. split; [done|].
    assert (Hjt : mjoin (seg_text <$> (SegText <$> chunks)) = text).
    { rewrite <- list_fmap_compose. change (seg_text ∘ SegText) with (@id pystr).
      by rewrite list_fmap_id. }
    destruct chunks as [|c cs]; cbn [map].
    + cbn in Hjt. subst text. split_and!; [done| |done]. by apply Forall_singleton.
    + split_and!; [exact Hjt| |done].
      change (SegText c :: map SegText cs) with (SegText <$> (c :: cs)).
      apply Forall_fmap. unfold no_bom in Hb. rewrite <- Hj in Hs, Hb.
      apply Forall_mjoin in Hs. apply Forall_mjoin in Hb.
      eapply Forall_impl; [apply Forall_and; split; [exact Hs|exact Hb]|]. intros l [H1 H2]. done.
Qed.
