(* ===== verification/Frames.v ===== *)
(** * Frame-level theorems of the PDU codec

    Whole frames: everything [encode_submit], [encode_deliver] and
    [encode_status_report] build is read back by the decoders, every frame fits
    the 140 octets of user data, and the builders are total on valid input. *)

From S2P Require Import Prelude PyText Gsm7 Salvage Codec Encode Roundtrip.

#[local] Opaque Nat.div Nat.modulo decimal_value pack unpack recover.
#[local] Arguments Nat.mul : simpl never.

(** ** Hexadecimal frames *)

Lemma clean_hexlify bs : is_bytes bs -> clean_hex (hexlify bs) = hexlify bs.
Proof.
  intros Hb. unfold clean_hex. apply filter_all. intros c Hc.
  by rewrite (hexlify_no_space bs).
Qed.

Lemma upper_hexlify bs : is_bytes bs -> upper_ascii <$> hexlify bs = hexlify bs.
Proof.
  assert (Hn : forall n, 0 <= n < 16 -> upper_ascii (hex_char n) = hex_char n).
  { intros n Hn. unfold upper_ascii, hex_char. case_match eqn:E1; case_match eqn:E2; lia. }
  induction 1 as [|b bs Hb _ IH]; [done|].
  change (hexlify (b :: bs)) with (hex_char (Z.shiftr b 4) :: hex_char (Z.land b 15) :: hexlify bs).
  rewrite !fmap_cons, IH, !Hn; [done|rewrite land_0f_mod; dlia|by apply shiftr4_nibble].
Qed.

(** ** SUBMIT *)

(** The message a SUBMIT segment stands for. *)
Definition submit_image (number : pystr) (g srr : bool) (ref total index : Z) (s : segment)
    (raw : pystr) : DecodedSms :=
  mkDecodedSms submit (canonical_number number) (seg_text s) None None (dcs_of g) (alphabet_of g)
    (concat_of ref total index) raw None false srr 0 false [] [].

Lemma submit_first_octet (u srr : bool) :
  let fo := or_if u 0x40 (or_if srr 0x20 (Z.lor 0x01 0x10)) in
  Z.land fo 0x03 = 1 /\ negb (Z.land fo 0x40 =? 0) = u /\ negb (Z.land fo 0x20 =? 0) = srr /\
  Z.land (Z.shiftr fo 3) 0x03 = 2.
Proof. by destruct u, srr. Qed.

Lemma submit_tpdu_bytes addr number g srr vp ref total index s tpdu :
  encode_address number = Ok addr -> seg_ok g s ->
  submit_tpdu addr g srr vp ref total index s = Ok tpdu -> is_bytes tpdu.
Proof.
  intros Ha Hs H. unfold submit_tpdu in H. inv_ok. destruct a0 as [body udl]. inv_ok.
  apply to_bytes_ok in Ha2 as [-> Hb1]. apply to_bytes_ok in Ha3 as [-> Hb2].
  apply Forall_app. split; [done|]. apply Forall_app. split; [by eapply encode_address_bytes|].
  apply Forall_app. split; [done|]. eapply segment_body_bytes; [|exact Hs|exact Ha1].
  destruct (udh_for_cases _ _ _ _ Ha0) as [[_ ->]|(_ & _ & Hu)]; [by apply Forall_nil|done].
Qed.

(** One SUBMIT frame decodes to its image. *)
Lemma decode_submit_tpdu number addr g srr vp ref total index s tpdu :
  encode_address number = Ok addr -> seg_ok g s ->
  submit_tpdu addr g srr vp ref total index s = Ok tpdu ->
  decode_pdu (hexlify (0 :: tpdu)) =
    Ok (submit_image number g srr ref total index s (hexlify (0 :: tpdu))).
Proof.
  intros Haddr Hs H. assert (Hb := submit_tpdu_bytes _ _ _ _ _ _ _ _ _ _ Haddr Hs H).
  assert (Hbytes : is_bytes (0 :: tpdu)) by (apply Forall_cons; split; [unfold is_byte; lia|done]).
  unfold decode_pdu. rewrite clean_hexlify, fromhex_hexlify, upper_hexlify by done.
  cbn [of_option mbind res_bind].
  unfold submit_tpdu in H. inv_ok. destruct a0 as [body udl]. inv_ok.
  apply to_bytes_ok in Ha1 as [-> _]. apply to_bytes_ok in Ha2 as [-> Hmid].
  set (fo := or_if _ _ _) in *.
  destruct (submit_first_octet (negb (bool_decide (a = []))) srr) as (F1 & F2 & F3 & F4).
  fold fo in F1, F2, F3, F4.
  clear Hbytes Hb.
  start_reading (0 :: [fo; 0] ++ addr ++ [0; if g then 0 else 8; vp; udl] ++ body) H.
  unfold decode_smsc. read_byte H. cbn [Z.eqb mbind res_bind]. read_byte H.
  rewrite F1, F2, F3, F4. cbn [Z.eqb MTI_DELIVER MTI_SUBMIT Pos.eqb mbind res_bind].
  read_byte H.
  destruct (decode_encode_address _ _ _ _ _ Haddr H) as (toa & r2' & -> & H2 & Hal). clear H.
  rename H2 into H. cbn [mbind res_bind].
  do 2 read_byte H. read_byte H. read_byte H.
  rewrite (rest_reads _ _ _ H). change (if g then 0 else 8) with (dcs_of g).
  rewrite (decode_user_data_segment g s ref total index a body udl) by done.
  cbn [mbind res_bind]. reflexivity.
Qed.

(** Segments with the 1-based sequence number they are sent under. *)
Fixpoint number_from (index : Z) (segs : list segment) : list (Z * segment) :=
  match segs with [] => [] | s :: rest => (index, s) :: number_from (index + 1) rest end.

Lemma length_hexlify bs : length (hexlify bs) = (2 * length bs)%nat.
Proof.
  induction bs as [|b bs IH]; [done|].
  change (hexlify (b :: bs)) with (hex_char (Z.shiftr b 4) :: hex_char (Z.land b 15) :: hexlify bs).
  cbn [length]. rewrite IH. lia.
Qed.

Lemma submit_loop_spec number addr g srr vp ref total segs :
  encode_address number = Ok addr -> Forall (seg_ok g) segs ->
  forall index pdus, submit_loop addr g srr vp ref total index segs = Ok pdus ->
  Forall2 (fun p '(i, s) =>
      decode_pdu (e_pdu_hex p) = Ok (submit_image number g srr ref total i s (e_pdu_hex p)) /\
      e_seq p = i /\ e_total p = total /\ length (e_pdu_hex p) = (2 * (e_tpdu_len p + 1))%nat)
    pdus (number_from index segs).
Proof.
  intros Haddr. induction 1 as [|s segs Hs _ IH]; intros index pdus H; cbn [submit_loop] in H.
  { injection H as <-. apply Forall2_nil. done. }
  inv_ok. cbn [number_from]. apply Forall2_cons. split; [|by apply IH].
  cbn [e_pdu_hex e_seq e_total e_tpdu_len]. split_and!; [by eapply decode_submit_tpdu|done|done|].
  rewrite length_hexlify. simpl. lia.
Qed.

(** ** Service centres, DELIVER and STATUS-REPORT *)

Definition canonical_smsc (smsc : pystr) : pystr := 43 :: (ascii_digit <$> only_digits smsc).

Lemma sca_field_bytes smsc sca : sca_field_of smsc = Ok sca -> is_bytes sca.
Proof.
  intros H. unfold sca_field_of in H. inv_ok. apply to_bytes_ok in Ha0 as [-> Hb].
  apply Forall_app. split; [done|]. apply Forall_cons. split; [unfold is_byte; lia|].
  by eapply encode_digits_bytes; [apply only_digits_decimal|].
Qed.

Lemma decode_sca_field data r smsc sca suf :
  sca_field_of smsc = Ok sca -> reads data r (sca ++ suf) ->
  exists r', decode_smsc r = Ok (Some (canonical_smsc smsc), r') /\ reads data r' suf.
Proof.
  intros Hs H. unfold sca_field_of in Hs. inv_ok. apply to_bytes_ok in Ha0 as [-> _].
  rewrite <- app_assoc in H. cbn [app] in H. unfold decode_smsc. read_byte H.
  cbn [length]. replace (Z.of_nat (S (length a)) =? 0) with false by lia.
  change (0x91 :: a ++ suf) with ((0x91 :: a) ++ suf) in H.
  read_take H (Z.to_nat (Z.of_nat (S (length a)))) (0x91 :: a) suf; [simpl; lia|].
  replace (Z.to_nat ((Z.of_nat (S (length a)) - 1) * 2)) with (2 * length a)%nat by lia.
  cbn [drop]. rewrite (decode_encode_digits (only_digits smsc) a) by auto using only_digits_decimal.
  by exists r1.
Qed.

Definition deliver_image (sender smsc : pystr) (g : bool) (when : datetime) (ref total index : Z)
    (s : segment) (raw : pystr) : DecodedSms :=
  mkDecodedSms deliver (canonical_number sender) (seg_text s) (Some (canonical_smsc smsc)) (Some when)
    (dcs_of g) (alphabet_of g) (concat_of ref total index) raw None false false 0 false [] [].

Lemma deliver_first_octet (u : bool) :
  let fo := Z.lor 0x04 (if u then 0x00 else 0x40) in
  Z.land fo 0x03 = 0 /\ negb (Z.land fo 0x40 =? 0) = negb u /\ is_byte fo.
Proof. by destruct u. Qed.

Lemma deliver_tpdu_bytes oa scts g ref total index s tpdu :
  is_bytes oa -> is_bytes scts -> seg_ok g s ->
  deliver_tpdu oa scts g ref total index s = Ok tpdu -> is_bytes tpdu.
Proof.
  intros Ho Hsc Hs H. unfold deliver_tpdu in H. inv_ok. destruct a0 as [body udl]. inv_ok.
  apply to_bytes_ok in Ha1 as [-> Hb].
  apply Forall_cons. split; [apply (deliver_first_octet (bool_decide (a = [])))|].
  apply Forall_app. split; [done|].
  repeat (apply Forall_cons; split); [unfold is_byte; lia|destruct g; unfold is_byte; lia|].
  apply Forall_app. split; [done|]. apply (Forall_app _ [udl]). split; [done|].
  eapply segment_body_bytes; [|exact Hs|exact Ha0].
  destruct (udh_for_cases _ _ _ _ Ha) as [[_ ->]|(_ & _ & Hu)]; [by apply Forall_nil|done].
Qed.

Lemma decode_deliver_tpdu sender smsc when sca oa scts g ref total index s tpdu :
  sca_field_of smsc = Ok sca -> encode_address sender = Ok oa ->
  encode_scts when = Ok scts -> scts_representable when -> seg_ok g s ->
  deliver_tpdu oa scts g ref total index s = Ok tpdu ->
  decode_pdu (hexlify (sca ++ tpdu)) =
    Ok (deliver_image sender smsc g when ref total index s (hexlify (sca ++ tpdu))).
Proof.
  intros Hsca Haddr Hscts Hrep Hs H.
  destruct (decode_encode_scts _ _ Hscts Hrep) as (Hd & Hl & Hsb).
  assert (Hbytes : is_bytes (sca ++ tpdu)).
  { apply Forall_app. split; [by eapply sca_field_bytes|].
    eapply deliver_tpdu_bytes; [by eapply encode_address_bytes| |exact Hs|exact H]. done. }
  unfold decode_pdu. rewrite clean_hexlify, fromhex_hexlify, upper_hexlify by done.
  cbn [of_option mbind res_bind]. clear Hbytes.
  unfold deliver_tpdu in H. inv_ok. destruct a0 as [body udl]. inv_ok.
  apply to_bytes_ok in Ha1 as [-> _].
  destruct (deliver_first_octet (bool_decide (a = []))) as (F1 & F2 & _).
  set (fo := Z.lor 4 _) in *.
  start_reading (sca ++ fo :: oa ++ 0 :: (if g then 0 else 8) :: scts ++ [udl] ++ body) H.
  destruct (decode_sca_field _ _ _ _ _ Hsca H) as (r0 & -> & H0). clear H. rename H0 into H.
  cbn [mbind res_bind]. read_byte H. rewrite F1, F2.
  cbn [Z.eqb MTI_DELIVER Pos.eqb mbind res_bind].
  destruct (decode_encode_address _ _ _ _ _ Haddr H) as (toa & r2 & -> & H2 & Hal). clear H.
  rename H2 into H. cbn [mbind res_bind]. do 2 read_byte H.
  read_take H 7%nat scts (udl :: body); [done|]. read_byte H.
  rewrite (rest_reads _ _ _ H), Hal, Hd. change (if g then 0 else 8) with (dcs_of g).
  rewrite (decode_user_data_segment g s ref total index a body udl) by done.
  cbn [mbind res_bind]. rewrite andb_false_r. reflexivity.
Qed.

Lemma deliver_loop_spec sender smsc when sca oa scts g ref total segs :
  sca_field_of smsc = Ok sca -> encode_address sender = Ok oa ->
  encode_scts when = Ok scts -> scts_representable when -> Forall (seg_ok g) segs ->
  forall index pdus, deliver_loop sca oa scts g ref total index segs = Ok pdus ->
  Forall2 (fun p '(i, s) =>
      decode_pdu p = Ok (deliver_image sender smsc g when ref total i s p))
    pdus (number_from index segs).
Proof.
  intros Hsca Ho Hsc Hrep. induction 1 as [|s segs Hs _ IH]; intros index pdus H; cbn [deliver_loop] in H.
  { injection H as <-. apply Forall2_nil. done. }
  inv_ok. cbn [number_from]. apply Forall2_cons. split; [|by apply IH].
  by eapply decode_deliver_tpdu.
Qed.

(** ** Sizes *)

(** The segment fits the 140 octets of user data behind a header of [h]. *)
Definition seg_fits (h : nat) (s : segment) : Prop :=
  match s with
  | SegSeptets l => (h + (fill_bits_of h + 7 * length l + 7) / 8 <= 140)%nat
  | SegText t => exists b, utf16be_encode t = Some b /\ (h + length b <= 140)%nat
  end.

Definition header_len (segs : list segment) : nat := if (1 <? length segs)%nat then 6%nat else 0%nat.

Lemma split_gsm7_single septets limit :
  (length septets <= limit)%nat -> (length (split_gsm7 septets limit) <= 1)%nat.
Proof.
  intros Hl. unfold split_gsm7. destruct septets as [|s l]; [simpl; lia|].
  set (n := length (s :: l)) in *. change (length (s :: l)) with n.
  assert (Hn : exists f, n = S f) by (subst n; simpl; eauto). destruct Hn as [f Hf].
  rewrite Hf at 1. cbn [split_gsm7_loop].
  destruct (Nat.leb_spec (length (s :: l)) 0); [simpl; lia|].
  replace ((0 + limit) `min` length (s :: l))%nat with n by (subst n; lia).
  replace (n <? length (s :: l))%nat with false by (subst n; lia). cbn [andb length].
  destruct f; cbn [split_gsm7_loop]; replace (length (s :: l) <=? n)%nat with true by (subst n; lia);
    simpl; lia.
Qed.

(** A text UTF-16 cannot encode is never cut. *)
Lemma split_ucs2_fails limit text : forall cur u ch,
  utf16be_encode text = None -> split_ucs2_loop text limit cur u <> Ok ch.
Proof.
  induction text as [|c text IH]; intros cur u ch Ht; [done|]. cbn [split_ucs2_loop].
  destruct (utf16be_char c) as [b|] eqn:Hc; [|done]. simpl in Ht. rewrite Hc in Ht. simpl in Ht.
  destruct (utf16be_encode text) as [bs|] eqn:Ht'; [done|].
  cbn [of_option mbind res_bind]. case_match; [|by apply IH].
  intros H'. inv_ok. by eapply IH.
Qed.

Lemma split_ucs2_single limit text : forall current used chunks,
  split_ucs2_loop text limit current used = Ok chunks ->
  (forall b, utf16be_encode text = Some b -> (used + length b <= limit)%nat) ->
  (length chunks <= 1)%nat.
Proof.
  induction text as [|c text IH]; intros current used chunks H Hb; cbn [split_ucs2_loop] in H.
  { injection H as <-. destruct current; simpl; lia. }
  destruct (utf16be_char c) as [b|] eqn:Hc; cbn [of_option mbind res_bind] in H; [|done].
  destruct (utf16be_encode text) as [bs|] eqn:Ht.
  - assert (Hall : utf16be_encode (c :: text) = Some (b ++ bs)) by (simpl; by rewrite Hc, Ht).
    specialize (Hb _ Hall). rewrite length_app in Hb.
    destruct (Nat.ltb_spec limit (used + length b)); [lia|].
    eapply IH; [exact H|]. intros b' [= <-]. lia.
  - exfalso. case_match; [inv_ok; by eapply split_ucs2_fails|by eapply split_ucs2_fails].
Qed.

Lemma seg_sizes g text segs :
  Forall is_scalar text -> make_segments g text = Ok segs ->
  Forall (seg_fits (header_len segs)) segs /\ segs <> [].
Proof.
  intros Hs H. unfold make_segments, cut_segments in H. unfold header_len. destruct g.
  - destruct (encode text) as [ss|] eqn:Hss; [|inv_ok]. inv_ok.
    assert (Hw := encode_well_escaped _ _ Hss). unfold MAX_GSM7_SINGLE, MAX_GSM7_CONCAT.
    destruct (Nat.ltb_spec 160 (length ss)) as [Hlong|Hshort].
    + destruct (split_gsm7_spec ss 153 Hw ltac:(lia)) as [Hj Hall].
      set (chunks := split_gsm7 ss 153) in *. clearbody chunks.
      destruct chunks as [|c cs]; [cbn in Hj; subst ss; simpl in Hlong; lia|].
      cbn [map]. change (SegSeptets c :: map SegSeptets cs) with (SegSeptets <$> (c :: cs)).
      split; [|done]. apply Forall_fmap. eapply Forall_impl; [exact Hall|]. intros l [Hl _].
      unfold compose. cbn [seg_fits]. unfold fill_bits_of. case_match; dlia.
    + assert (H1 := split_gsm7_single ss 160 Hshort).
      destruct (split_gsm7_spec ss 160 Hw ltac:(lia)) as [_ Hall].
      set (chunks := split_gsm7 ss 160) in *. clearbody chunks.
      destruct chunks as [|c [|d cs]]; cbn [map length] in *; try lia; (split; [|done]);
        apply Forall_singleton; cbn [Nat.ltb Nat.leb seg_fits]; unfold fill_bits_of.
      * simpl. dlia.
      * apply Forall_cons in Hall as [[Hl _] _]. dlia.
  - destruct (utf16be_encode text) as [a0|] eqn:Ha0; cbn [of_option mbind res_bind] in H; [|done].
    apply bind_ok in H as (a2 & H & [= <-]). apply bind_ok in H as (a1 & Hsp & [= <-]).
    unfold MAX_UCS2_SINGLE_BYTES, MAX_UCS2_CONCAT_BYTES in Hsp.
    destruct (Nat.ltb_spec 140 (length a0)) as [Hlong|Hshort].
    + destruct (split_ucs2_spec text 134 Hs ltac:(lia)) as (chunks & Hc & Hj & Hall).
      rewrite Hc in Hsp. injection Hsp as ->.
      destruct a1 as [|c cs]; [cbn in Hj; subst text; cbn in Ha0; injection Ha0 as <-; simpl in Hlong; lia|].
      cbn [map]. change (SegText c :: map SegText cs) with (SegText <$> (c :: cs)).
      split; [|done]. apply Forall_fmap. eapply Forall_impl; [exact Hall|]. intros t (b & Hb & Hl).
      unfold compose. cbn [seg_fits]. exists b. split; [done|]. case_match; lia.
    + destruct (split_ucs2_spec text 140 Hs ltac:(lia)) as (chunks & Hc & Hj & Hall).
      rewrite Hc in Hsp. injection Hsp as ->.
      assert (H1 : (length a1 <= 1)%nat).
      { eapply split_ucs2_single; [exact Hc|]. intros b Hb. rewrite Hb in Ha0.
        injection Ha0 as <-. lia. }
      destruct a1 as [|c [|d cs]]; cbn [map length] in *; try lia; (split; [|done]);
        apply Forall_singleton; cbn [Nat.ltb Nat.leb seg_fits].
      * exists []. split; [done|simpl; lia].
      * apply Forall_cons in Hall as [(b & Hb & Hl) _]. exists b. split; [done|lia].
Qed.

(** A fitting segment builds, and its body is what fits. *)
Lemma segment_body_fits g udh s :
  is_bytes udh -> seg_fits (length udh) s ->
  (length udh = 0 \/ length udh = 6)%nat ->
  exists body udl, segment_body udh s = Ok (body, udl) /\ (length body <= 140)%nat /\ is_byte udl /\
    (g = true -> is_byte (dcs_of g)).
Proof.
  intros Hu Hf Hh. destruct s as [l|t]; cbn [seg_fits segment_body] in *.
  - eexists _, _. split; [done|]. rewrite length_app, pack_length. split_and!; [lia| |].
    + unfold is_byte, header_septets_of. unfold fill_bits_of in Hf |- *.
      destruct Hh as [E|E]; rewrite E in Hf |- *; dlia.
    + intros ->. unfold is_byte. simpl. lia.
  - destruct Hf as (b & -> & Hl). cbn [of_option mbind res_bind]. eexists _, _. split; [done|].
    rewrite length_app. split_and!; [lia|unfold is_byte; lia|]. intros ->. unfold is_byte. simpl. lia.
Qed.

Lemma submit_loop_total addr g srr vp ref total segs :
  is_byte vp -> 1 <= total < 256 ->
  Forall (seg_fits (if 1 <? total then 6%nat else 0%nat)) segs ->
  forall index, 1 <= index -> index + Z.of_nat (length segs) <= 256 ->
  exists pdus, submit_loop addr g srr vp ref total index segs = Ok pdus /\
    length pdus = length segs /\
    Forall (fun p => (e_tpdu_len p <= 6 + length addr + 140)%nat) pdus.
Proof.
  intros Hvp Ht. induction 1 as [|s segs Hs _ IH]; intros index Hi Hlen; cbn [submit_loop length] in *.
  { exists []. split_and!; [done|done|by apply Forall_nil]. }
  assert (Hudh : exists udh, udh_for ref total index = Ok udh /\ is_bytes udh /\
                 length udh = if 1 <? total then 6%nat else 0%nat).
  { unfold udh_for. case_match; [|exists []; split_and!; [done|by apply Forall_nil|done]]. eexists. split.
    - unfold build_udh. apply to_bytes_ok. split; [done|].
      repeat (apply Forall_cons; split); try by apply Forall_nil.
      all: try apply land_ff_bound. all: unfold is_byte; lia.
    - split; [|done]. repeat (apply Forall_cons; split); try by apply Forall_nil.
      all: try apply land_ff_bound. all: unfold is_byte; lia. }
  destruct Hudh as (udh & Hudh & Hub & Hul). rewrite <- Hul in Hs.
  destruct (segment_body_fits g udh s Hub Hs) as (body & udl & Hbody & Hbl & Hudl & _).
  { rewrite Hul. case_match; auto. }
  assert (Htp : exists tpdu, submit_tpdu addr g srr vp ref total index s = Ok tpdu /\
                (length tpdu <= 6 + length addr + 140)%nat).
  { unfold submit_tpdu. rewrite Hudh. cbn [mbind res_bind]. rewrite Hbody. cbn [mbind res_bind].
    match goal with |- context [to_bytes [?a; 0]] => assert (H1 : to_bytes [a; 0] = Ok [a; 0]) end.
    { apply to_bytes_ok. split; [done|]. apply Forall_cons. split; [unfold is_byte, or_if; destruct (bool_decide _), srr; by vm_compute|].
      apply Forall_singleton. unfold is_byte. lia. }
    rewrite H1. cbn [mbind res_bind].
    match goal with |- context [to_bytes ?l] => assert (H2 : to_bytes l = Ok l) end.
    { apply to_bytes_ok. split; [done|]. repeat (apply Forall_cons; split); try by apply Forall_nil.
      all: first [done | unfold is_byte; lia | destruct g; unfold is_byte; lia]. }
    rewrite H2. cbn [mbind res_bind]. eexists. split; [done|].
    rewrite !length_app. cbn [length]. lia. }
  destruct Htp as (tpdu & -> & Htl). cbn [mbind res_bind].
  destruct (IH (index + 1) ltac:(lia) ltac:(lia)) as (pdus & -> & Hl & Hall). cbn [mbind res_bind].
  eexists. split; [done|]. split; [simpl; by rewrite Hl|]. by apply Forall_cons.
Qed.

(** ** Reading back a list of frames *)

Lemma number_from_text index segs :
  (fun p => seg_text p.2) <$> number_from index segs = seg_text <$> segs.
Proof. revert index. induction segs as [|s segs IH]; intros index; simpl; [done|]. by rewrite IH. Qed.

Lemma number_from_lookup index segs i q :
  number_from index segs !! i = Some q -> q.1 = index + Z.of_nat i.
Proof.
  revert index i. induction segs as [|s segs IH]; intros index [|i] H; simpl in *; try done.
  - injection H as <-. simpl. lia.
  - apply IH in H. lia.
Qed.

Lemma length_number_from index segs : length (number_from index segs) = length segs.
Proof. revert index. induction segs as [|s segs IH]; intros index; simpl; [done|]. by rewrite IH. Qed.

(** From per-frame images to the messages of the whole list. *)
Lemma images_decode {A} (dec : A -> R DecodedSms) (Q : A -> Prop) image frames index segs :
  Forall2 (fun p '(i, s) => dec p = Ok (image i s p) /\ Q p) frames (number_from index segs) ->
  exists smss, Forall2 (fun p m => dec p = Ok m) frames smss /\
    length smss = length segs /\ Forall Q frames /\
    forall i m, smss !! i = Some m -> exists s p, segs !! i = Some s /\
      frames !! i = Some p /\ m = image (index + Z.of_nat i) s p.
Proof.
  revert index frames. induction segs as [|s segs IH]; intros index frames H; simpl in H.
  - apply Forall2_nil_inv_r in H as ->. exists []. split_and!; [by apply Forall2_nil|done|by apply Forall_nil|].
    intros i m. by rewrite lookup_nil.
  - apply Forall2_cons_inv_r in H as (p & frames' & [Hp HQ] & H & ->).
    destruct (IH _ _ H) as (smss & Hd & Hl & HQs & Hi). exists (image index s p :: smss).
    split_and!; [by apply Forall2_cons|simpl; by rewrite Hl|by apply Forall_cons|].
    intros [|i] m Hm; simpl in Hm.
    + injection Hm as <-. exists s, p. split_and!; [done|done|]. f_equal. lia.
    + destruct (Hi _ _ Hm) as (s' & p' & H1 & H2 & ->). exists s', p'. split_and!; [done|done|].
      f_equal. lia.
Qed.

(** Segment texts read back one by one are the segments' texts. *)
Lemma texts_of_images smss segs :
  length smss = length segs ->
  (forall i m, smss !! i = Some m -> exists s, segs !! i = Some s /\ d_text m = seg_text s) ->
  d_text <$> smss = seg_text <$> segs.
Proof.
  intros Hl H. apply list_eq_same_length with (length segs); rewrite ?length_fmap; [done|done|].
  intros i x y _ Hx Hy. rewrite list_lookup_fmap in Hx. rewrite list_lookup_fmap in Hy.
  destruct (smss !! i) as [m|] eqn:Em; [|done]. destruct (H _ _ Em) as (s & Es & E).
  rewrite Es in Hy. simpl in Hx, Hy. congruence.
Qed.

(** A DELIVER built for the mock network decodes to the same
    sender, service centre, timestamp and text, segment by segment, and is
    never mistaken for a damaged frame. *)
Lemma deliver_decodes sender text when now smsc ref draw force pdus :
  Forall is_scalar text -> no_bom text -> scts_representable (default now when) ->
  encode_deliver sender text when now smsc ref draw force = Ok pdus ->
  exists smss,
    Forall2 (fun p m => decode_pdu p = Ok m) pdus smss /\
    mjoin (d_text <$> smss) = text /\
    length smss = length pdus /\
    forall i m, smss !! i = Some m ->
      d_kind m = deliver /\ d_address m = canonical_number sender /\
      d_smsc m = Some (canonical_smsc smsc) /\ d_timestamp m = Some (default now when) /\
      d_concat m = concat_of (default draw ref) (Z.of_nat (length pdus)) (1 + Z.of_nat i) /\
      d_truncated m = false /\ d_ports m = None.
Proof.
  intros Hs Hb Hrep H. unfold encode_deliver in H. set (g := negb force && can_encode text) in *.
  apply bind_ok in H as (sca & Hsca & H). apply bind_ok in H as (oa & Hoa & H).
  apply bind_ok in H as (scts & Hscts & H). apply bind_ok in H as (segs & Hsegs & H).
  destruct (make_segments_ok g text) as (segs' & Hsegs' & Hj & Hok & Hne); [|done|done|].
  { subst g. intros E. by apply andb_true_iff in E as [_ E]. }
  rewrite Hsegs in Hsegs'. injection Hsegs' as <-.
  assert (Hspec := deliver_loop_spec _ _ _ _ _ _ _ _ _ _ Hsca Hoa Hscts Hrep Hok _ _ H).
  assert (Hlen := Forall2_length _ _ _ Hspec). rewrite length_number_from in Hlen.
  destruct (images_decode decode_pdu (fun _ => True)
              (fun i s p => deliver_image sender smsc g (default now when) (default draw ref)
                              (Z.of_nat (length segs)) i s p) pdus 1 segs)
    as (smss & Hd & Hl & _ & Himg).
  { eapply Forall2_impl; [exact Hspec|]. intros p [i s] ?. done. }
  exists smss. split_and!; [done| |by rewrite Hl, Hlen|].
  - rewrite <- Hj. f_equal. apply texts_of_images; [done|]. intros i m Hm.
    destruct (Himg _ _ Hm) as (s & p & Es & _ & ->). by exists s.
  - intros i m Hm. destruct (Himg _ _ Hm) as (s & p & _ & _ & ->). cbn. by rewrite Hlen.
Qed.


(** [reads_as frames messages]: the receiving side decodes the PDU strings
    [frames], one by one and without error, to [messages]. *)
Definition reads_as (frames : list pystr) (messages : list DecodedSms) : Prop :=
  Forall2 (fun p m => decode_pdu p = Ok m) frames messages.

(** * Properties *)

(** What [encode_submit] sends is what the decoder reads.
    Every PDU of a message decodes without error to a SUBMIT for the same
    recipient, whose concatenation header names this segment of this message
    and whose TP-SRR is the one asked for; the texts of the segments, joined in
    order, are the message; and [AT+CMGS]'s length is the TPDU without the
    (empty) service-centre octet. *)
Theorem submit_roundtrip number text ref draw vp force srr pdus :
  Forall is_scalar text -> no_bom text ->
  encode_submit number text ref draw vp force srr = Ok pdus ->
  exists smss,
    reads_as (e_pdu_hex <$> pdus) smss /\
    mjoin (d_text <$> smss) = text /\
    Forall (fun p => length (e_pdu_hex p) = 2 * (e_tpdu_len p + 1))%nat pdus /\
    forall i m, smss !! i = Some m ->
      d_kind m = submit /\ d_address m = canonical_number number /\
      d_concat m = concat_of (default draw ref) (Z.of_nat (length pdus)) (1 + Z.of_nat i) /\
      d_status_report_requested m = srr /\ d_udh_malformed m = false /\ d_truncated m = false.
Proof.
  intros Hs Hb H. unfold encode_submit in H. set (g := negb force && can_encode text) in *.
  apply bind_ok in H as (addr & Haddr & H). apply bind_ok in H as (segs & Hsegs & H).
  destruct (make_segments_ok g text) as (segs' & Hsegs' & Hj & Hok & Hne); [|done|done|].
  { subst g. intros E. by apply andb_true_iff in E as [_ E]. }
  rewrite Hsegs in Hsegs'. injection Hsegs' as <-.
  assert (Hspec := submit_loop_spec _ _ _ _ _ _ _ _ Haddr Hok _ _ H).
  assert (Hlen := Forall2_length _ _ _ Hspec). rewrite length_number_from in Hlen.
  destruct (images_decode (fun p => decode_pdu (e_pdu_hex p))
              (fun p => length (e_pdu_hex p) = 2 * (e_tpdu_len p + 1))%nat
              (fun i s p => submit_image number g srr (default draw ref)
                              (Z.of_nat (length segs)) i s (e_pdu_hex p)) pdus 1 segs)
    as (smss & Hd & Hl & HQ & Himg).
  { eapply Forall2_impl; [exact Hspec|]. intros p [i s] (? & _ & _ & ?). done. }
  exists smss. split_and!; [by apply Forall2_fmap_l| |done|].
  - rewrite <- Hj. f_equal. apply texts_of_images; [done|]. intros i m Hm.
    destruct (Himg _ _ Hm) as (s & p & Es & _ & ->). by exists s.
  - intros i m Hm. destruct (Himg _ _ Hm) as (s & p & _ & _ & ->). cbn. by rewrite Hlen.
Qed.

Lemma submit_roundtrip_witness :
  exists pdus, encode_submit (str "+8613800138000") (str "Balance? {1}") (Some 300) 0 0xAA false true = Ok pdus /\
  exists smss, reads_as (e_pdu_hex <$> pdus) smss /\
               mjoin (d_text <$> smss) = str "Balance? {1}".
Proof.
  eexists. split; [by vm_compute|].
  assert (Hs : Forall is_scalar (str "Balance? {1}")) by decide_closed.
  assert (Hb : no_bom (str "Balance? {1}")) by (unfold no_bom; decide_closed).
  destruct (submit_roundtrip (str "+8613800138000") (str "Balance? {1}") (Some 300) 0 0xAA false true _ Hs Hb
              ltac:(by vm_compute)) as (smss & H1 & H2 & _).
  exists smss. exact (conj H1 H2).
Defined.

(** Header, address and user data of the longest SUBMIT to [number]. *)
Definition max_tpdu_octets (number : pystr) : nat :=
  6 + (2 + (length (only_digits number) + 1) / 2) + 140.

(** [encode_submit] succeeds for every recipient of 1 to
    255 digits and every encodable text of at most 255 segments, and no TPDU it
    builds exceeds its 6 + address octets of header and 140 octets of user
    data ([max_tpdu_octets]). *)
Theorem submit_total number text ref draw vp force srr segs :
  Forall is_scalar text -> is_byte vp ->
  (1 <= length (only_digits number) <= 255)%nat ->
  make_segments (negb force && can_encode text) text = Ok segs -> (length segs <= 255)%nat ->
  exists pdus, encode_submit number text ref draw vp force srr = Ok pdus /\
    length pdus = length segs /\
    Forall (fun p => (e_tpdu_len p <= max_tpdu_octets number)%nat) pdus.
Proof.
  intros Hs Hvp Hn Hsegs Hl. unfold encode_submit. cbn zeta. rewrite Hsegs.
  set (ds := only_digits number) in *.
  destruct (encode_digits_chars ds (only_digits_decimal number)) as (bs & Hbs & _ & Hbl & _).
  assert (Haddr : exists t, encode_address number = Ok ([Z.of_nat (length ds); t] ++ bs)).
  { unfold encode_address. fold ds. rewrite bool_decide_eq_false_2 by (intros E; rewrite E in Hn; simpl in Hn; lia).
    set (t := if starts_with _ _ then _ else _).
    exists t. replace (to_bytes _) with (Ok [Z.of_nat (length ds); t] : R pybytes).
    - cbn [mbind res_bind]. by rewrite Hbs.
    - symmetry. apply to_bytes_ok. split; [done|].
      apply Forall_cons. split; [unfold is_byte; lia|]. apply Forall_singleton.
      subst t. unfold is_byte, TOA_INTERNATIONAL, TOA_NATIONAL. case_match; lia. }
  destruct Haddr as [t ->]. cbn [mbind res_bind].
  destruct (seg_sizes _ _ _ Hs Hsegs) as [Hf Hne].
  assert (Hpos : (1 <= length segs)%nat) by (destruct segs; [done|simpl; lia]).
  destruct (submit_loop_total ([Z.of_nat (length ds); t] ++ bs) (negb force && can_encode text) srr vp
              (default draw ref) (Z.of_nat (length segs)) segs Hvp ltac:(lia)) with (index := 1)
    as (pdus & Hp & Hlen & Hall).
  { replace (1 <? Z.of_nat (length segs)) with (1 <? length segs)%nat by lia. exact Hf. }
  { lia. } { lia. }
  exists pdus. split_and!; [exact Hp|done|]. eapply Forall_impl; [exact Hall|].
  intros p Hp'. rewrite length_app, Hbl in Hp'. simpl in Hp'. unfold max_tpdu_octets. fold ds. lia.
Qed.

Lemma submit_total_witness :
  exists segs, make_segments true (str "hello") = Ok segs /\
  exists pdus, encode_submit (str "10086") (str "hello") None 7 0xAA false true = Ok pdus /\
    length pdus = length segs.
Proof.
  exists [SegSeptets [104; 101; 108; 108; 111]]. split; [by vm_compute|].
  assert (Hs : Forall is_scalar (str "hello")) by decide_closed.
  destruct (submit_total (str "10086") (str "hello") None 7 0xAA false true
              [SegSeptets [104; 101; 108; 108; 111]] Hs ltac:(unfold is_byte; lia)
              ltac:(vm_compute; lia) ltac:(by vm_compute) ltac:(simpl; lia)) as (pdus & H1 & H2 & _).
  exists pdus. exact (conj H1 H2).
Defined.

(** A delivery report decodes to the reference, recipient,
    status and both timestamps it was built from. *)
Theorem status_report_roundtrip mr recipient status sub dis now smsc pdu :
  scts_representable (default now sub) -> scts_representable (default now dis) ->
  encode_status_report mr recipient status sub dis now smsc = Ok pdu ->
  decode_status_report pdu =
    Ok (mkStatusReport (Z.land mr 0xFF) (canonical_number recipient) (Some (default now sub))
          (Some (default now dis)) (Z.land status 0xFF) (Some (canonical_smsc smsc)) pdu).
Proof.
  intros Hr1 Hr2 H. unfold encode_status_report in H. inv_ok.
  apply to_bytes_ok in Ha0 as [-> Hh]. apply to_bytes_ok in Ha4 as [-> Hl].
  destruct (decode_encode_scts _ _ Ha2 Hr1) as (Hd1 & Hl1 & Hb1).
  destruct (decode_encode_scts _ _ Ha3 Hr2) as (Hd2 & Hl2 & Hb2).
  assert (Hbytes : is_bytes (a ++ [2; Z.land mr 255] ++ a1 ++ a2 ++ a3 ++ [Z.land status 255])).
  { unfold is_bytes. rewrite !Forall_app. split_and!; try done; [by eapply sca_field_bytes|by eapply encode_address_bytes]. }
  unfold decode_status_report, MTI_STATUS_REPORT.
  rewrite clean_hexlify, fromhex_hexlify, upper_hexlify by done.
  cbn [of_option mbind res_bind]. clear Hbytes.
  start_reading (a ++ [2; Z.land mr 255] ++ a1 ++ a2 ++ a3 ++ [Z.land status 255]) H.
  destruct (decode_sca_field _ _ _ _ _ Ha H) as (r0 & -> & H0). clear H. rename H0 into H.
  cbn [mbind res_bind]. read_byte H. change (Z.land 2 3 =? 2) with true. cbn [negb mbind res_bind].
  read_byte H.
  destruct (decode_encode_address _ _ _ _ _ Ha1 H) as (toa & r2 & -> & H2 & Hal). clear H.
  rename H2 into H. cbn [mbind res_bind].
  read_take H 7%nat a2 (a3 ++ [Z.land status 255]); [done|].
  read_take H 7%nat a3 [Z.land status 255]; [done|]. read_byte H.
  by rewrite Hd1, Hd2.
Qed.

Lemma status_report_roundtrip_witness :
  let now := mkDatetime 2026 9 6 8 30 0 28800 in
  exists pdu, encode_status_report 300 (str "+10086") 0 None None now (str "+8613800210500") = Ok pdu /\
  exists r, decode_status_report pdu = Ok r /\ sr_message_reference r = 44.
Proof.
  cbn zeta. eexists. split; [by vm_compute|]. eexists. split.
  - apply (status_report_roundtrip 300 (str "+10086") 0 None None (mkDatetime 2026 9 6 8 30 0 28800)
             (str "+8613800210500")); try by vm_compute.
  - by vm_compute.
Defined.
