(* ===== verification/Concat.v ===== *)
(** * Reassembly of long messages (agent/src/air780e_agent/pdu/concat.py)

    [Reassembler._pending] is a Python dict, so its order matters to
    [flush_expired]; a [_Partial]'s [parts] is a dict too, read in sorted key
    order.  [time.monotonic()] is an argument, in the unit of the timeout. *)

From S2P Require Import Prelude PyText PyDict Codec Encode Roundtrip Frames.

Module Reassembly.

(** ** Data *)

Record Partial := mkPartial {
  p_total : Z;
  p_address : pystr;
  p_parts : pydict Z DecodedSms;
  p_first_seen : Z }.

Abbreviation key := (list Z * Z)%type (only parsing).

Record Reassembler := mkReassembler {
  timeout : Z;
  pending_ : pydict key Partial }.

(** [ordered[0]] of an empty partial. *)
Inductive exn := IndexError.

Definition DEFAULT_TIMEOUT : Z := 30.

Definition new_reassembler (timeout : Z) : Reassembler := mkReassembler timeout [].

(** ** Merging *)

Definition complete (p : Partial) : bool := Z.of_nat (length (p_parts p)) =? p_total p.

(** [[self.parts[i] for i in sorted(self.parts)]] *)
Definition ordered (parts : pydict Z DecodedSms) : list DecodedSms :=
  omap (fun i => dict_get i parts) (merge_sort Z.le (dict_keys parts)).

Definition merge_ordered (ordered : list DecodedSms) : res exn DecodedSms :=
  match ordered with
  | [] => Err IndexError
  | head :: _ =>
      Ok {| d_kind := d_kind head;
            d_address := d_address head;
            d_text := mjoin (d_text <$> ordered);
            d_smsc := d_smsc head;
            d_timestamp := d_timestamp head;
            d_dcs := d_dcs head;
            d_alphabet := d_alphabet head;
            d_concat := d_concat head;
            d_raw := py_join [32] (d_raw <$> ordered);
            d_ports := head_of (omap d_ports ordered);
            d_udh_malformed := existsb d_udh_malformed ordered;
            d_status_report_requested := false;
            d_pid := d_pid head;
            d_truncated := existsb d_truncated ordered;
            d_recovered_text := mjoin (d_recovered_text <$> ordered);
            d_code := default [] (head_of (filter (fun c => c <> []) (d_code <$> ordered))) |}
  end.

Definition merge (p : Partial) : res exn DecodedSms := merge_ordered (ordered (p_parts p)).

(** ** Operations *)

(** The partial a segment is filed under, [None] for a message that passes
    straight through. *)
Definition key_of (sms : DecodedSms) : option (key * Concat) :=
  match d_concat sms with
  | Some c => if c_total c <=? 1 then None else Some ((d_address sms, c_ref c), c)
  | None => None
  end.

Definition push (now : Z) (sms : DecodedSms) (r : Reassembler) :
    res exn (option DecodedSms * Reassembler) :=
  match key_of sms with
  | None => Ok (Some sms, r)
  | Some (k, c) =>
      let fresh_ := mkPartial (c_total c) (d_address sms) [] now in
      let partial := match dict_get k (pending_ r) with
                     | Some p => if p_total p =? c_total c then p else fresh_
                     | None => fresh_
                     end in
      let partial := mkPartial (p_total partial) (p_address partial)
                       (dict_set (c_seq c) sms (p_parts partial)) (p_first_seen partial) in
      if complete partial then
        m ← merge partial;
        Ok (Some m, mkReassembler (timeout r) (dict_del k (pending_ r)))
      else Ok (None, mkReassembler (timeout r) (dict_set k partial (pending_ r)))
  end.

Definition is_expired (now timeout : Z) (p : Partial) : bool := timeout <=? now - p_first_seen p.

Definition stale (now timeout : Z) (kp : key * Partial) : Prop := is_expired now timeout kp.2 = true.

#[export] Instance stale_dec now timeout kp : Decision (stale now timeout kp).
Proof. unfold stale. apply _. Defined.

(** The loop over [expired]: pop each key and merge what was popped. *)
Fixpoint pop_merge (keys : list key) (d : pydict key Partial) :
    res exn (list DecodedSms * pydict key Partial) :=
  match keys with
  | [] => Ok ([], d)
  | k :: keys =>
      match dict_get k d with
      | None => Err IndexError
      | Some p => m ← merge p; '(out, d) ← pop_merge keys (dict_del k d); Ok (m :: out, d)
      end
  end.

Definition flush_expired (now : Z) (r : Reassembler) : res exn (list DecodedSms * Reassembler) :=
  let expired := (filter (stale now (timeout r)) (pending_ r)).*1 in
  '(out, d) ← pop_merge expired (pending_ r); Ok (out, mkReassembler (timeout r) d).

Definition pending_count (r : Reassembler) : nat := length (pending_ r).

(** A run of pushes, with the outcome of each. *)
Fixpoint push_all (l : list (Z * DecodedSms)) (r : Reassembler) :
    res exn (list (option DecodedSms) * Reassembler) :=
  match l with
  | [] => Ok ([], r)
  | (now, sms) :: l => '(o, r) ← push now sms r; '(os, r) ← push_all l r; Ok (o :: os, r)
  end.

(** What a driver does with a reassembler: segments that arrive, and flushes
    in between; each leaves the messages it returned. *)
Inductive activity := Arrives (ts : Z * DecodedSms) | Flushes (now : Z).

Definition act (a : activity) (r : Reassembler) : res exn (list DecodedSms * Reassembler) :=
  match a with
  | Arrives (now, sms) => '(o, r) ← push now sms r; Ok (option_list o, r)
  | Flushes now => flush_expired now r
  end.

Fixpoint act_all (l : list activity) (r : Reassembler) : res exn (list (list DecodedSms) * Reassembler) :=
  match l with
  | [] => Ok ([], r)
  | a :: l => '(o, r) ← act a r; '(os, r) ← act_all l r; Ok (o :: os, r)
  end.

Definition arrivals (l : list activity) : list (Z * DecodedSms) :=
  omap (fun a => match a with Arrives ts => Some ts | Flushes _ => None end) l.

(** ** Lemmas on merging *)

Lemma omap_get_keys (parts : pydict Z DecodedSms) :
  dict_wf parts -> omap (fun i => dict_get i parts) (dict_keys parts) = dict_values parts.
Proof.
  intros Hwf.
  assert (H : forall l, (forall i s, (i, s) ∈ l -> dict_get i parts = Some s) ->
    omap (fun i => dict_get i parts) (dict_keys l) = dict_values l).
  { induction l as [|[i s] l IH]; intros Hl; simpl; [done|].
    rewrite (Hl i s) by left. unfold dict_values. simpl. f_equal. apply IH. intros. apply Hl. by right. }
  apply H. intros i s Hin. by apply dict_get_in.
Qed.

Lemma ordered_perm parts : dict_wf parts -> ordered parts ≡ₚ dict_values parts.
Proof.
  intros Hwf. unfold ordered. rewrite <- (omap_get_keys _ Hwf).
  apply omap_Permutation, merge_sort_Permutation.
Qed.

Lemma merge_ordered_total l : l <> [] -> exists m, merge_ordered l = Ok m /\ d_text m = mjoin (d_text <$> l).
Proof. intros H. destruct l as [|s l]; [done|]. by eexists. Qed.

Lemma merge_total p :
  dict_wf (p_parts p) -> p_parts p <> [] ->
  exists m, merge p = Ok m /\ d_text m = mjoin (d_text <$> ordered (p_parts p)).
Proof.
  intros Hwf Hne. apply merge_ordered_total. intros E. assert (Hp := ordered_perm _ Hwf).
  rewrite E in Hp. apply Permutation_nil_l in Hp. by destruct (p_parts p) as [|[]].
Qed.

(** Keys that are exactly 1 .. n come out in that order, whatever the order
    they went in. *)
Lemma merge_sort_from start l segs :
  l ≡ₚ (fun i => start + Z.of_nat i) <$> seq 0 (length (segs : list DecodedSms)) ->
  merge_sort Z.le l = (fun i => start + Z.of_nat i) <$> seq 0 (length segs).
Proof.
  intros H. apply (Sorted_unique Z.le).
  - apply Sorted_merge_sort, _.
  - clear H. generalize (length segs) as n, 0%nat as k. induction n as [|n IH]; intros k; simpl; [constructor|].
    constructor; [apply IH|]. destruct n; simpl; constructor. lia.
  - rewrite <- H. apply merge_sort_Permutation.
Qed.

(** [numbered start segs]: the segments carry consecutive sequence numbers. *)
Definition numbered (start : Z) (segs : list DecodedSms) : pydict Z DecodedSms :=
  imap (fun i s => (start + Z.of_nat i, s)) segs.

Lemma numbered_keys start segs :
  dict_keys (numbered start segs) = (fun i => start + Z.of_nat i) <$> seq 0 (length segs).
Proof.
  unfold numbered, dict_keys. rewrite fmap_imap. apply list_eq. intros i.
  rewrite list_lookup_imap, list_lookup_fmap.
  destruct (segs !! i) as [s|] eqn:E; simpl.
  - apply lookup_lt_Some in E. by rewrite lookup_seq_lt.
  - apply lookup_ge_None in E. by rewrite lookup_seq_ge.
Qed.

Lemma numbered_values start segs : dict_values (numbered start segs) = segs.
Proof.
  unfold numbered, dict_values. rewrite fmap_imap. apply list_eq. intros i.
  rewrite list_lookup_imap. by destruct (segs !! i).
Qed.

Lemma numbered_wf start segs : dict_wf (numbered start segs).
Proof.
  unfold dict_wf. rewrite numbered_keys. apply NoDup_fmap_2; [|apply NoDup_seq]. intros ???. lia.
Qed.

Lemma dict_get_perm (parts parts' : pydict Z DecodedSms) i :
  dict_wf parts -> dict_wf parts' -> parts ≡ₚ parts' -> dict_get i parts = dict_get i parts'.
Proof.
  intros H1 H2 Hp. destruct (dict_get i parts') as [s|] eqn:E.
  - apply dict_get_in; [done|]. rewrite Hp. by apply dict_get_Some_in.
  - apply dict_get_None. rewrite dict_get_None in E. unfold dict_keys in *. by rewrite Hp.
Qed.

Lemma ordered_numbered parts start segs :
  parts ≡ₚ numbered start segs -> ordered parts = segs.
Proof.
  intros Hp. assert (Hwf := numbered_wf start segs).
  assert (Hwf' : dict_wf parts) by (unfold dict_wf, dict_keys in *; by rewrite Hp).
  unfold ordered. rewrite (merge_sort_from start _ segs).
  - rewrite <- numbered_keys. rewrite <- (numbered_values start segs) at 2.
    rewrite <- (omap_get_keys _ Hwf). apply list_omap_ext, Forall2_same_length_lookup.
    split; [done|]. intros ???. intros ? ?. assert (x = y) as -> by congruence. by apply dict_get_perm.
  - rewrite <- numbered_keys. unfold dict_keys. by rewrite Hp.
Qed.

(** ** The invariant of the pending table *)

Definition partial_ok (k : key) (p : Partial) : Prop :=
  dict_wf (p_parts p) /\ p_parts p <> [] /\
  Z.of_nat (length (p_parts p)) < p_total p /\
  forall i s, (i, s) ∈ p_parts p -> exists c, key_of s = Some (k, c) /\ c_seq c = i /\ c_total c = p_total p.

Definition inv (r : Reassembler) : Prop :=
  dict_wf (pending_ r) /\ forall k p, (k, p) ∈ pending_ r -> partial_ok k p.

Lemma inv_get r k p : inv r -> dict_get k (pending_ r) = Some p -> partial_ok k p.
Proof. intros [_ H] Hg. apply H. by apply dict_get_Some_in. Qed.

Lemma pending_del r k : inv r -> inv (mkReassembler (timeout r) (dict_del k (pending_ r))).
Proof.
  intros [Hwf H]. split; simpl; [by apply dict_del_wf|]. intros k' p Hin.
  apply dict_del_in in Hin as [_ Hin]; [by apply H|done].
Qed.

Lemma pending_set r k p :
  inv r -> partial_ok k p -> inv (mkReassembler (timeout r) (dict_set k p (pending_ r))).
Proof.
  intros [Hwf H] Hp. split; simpl; [by apply dict_set_wf|]. intros k' p' Hin.
  apply dict_set_lookup_in in Hin as [[-> ->]|[_ Hin]]; [done|by apply H|done].
Qed.

Lemma inv_new t : inv (new_reassembler t).
Proof. split; [apply NoDup_nil_2|]. intros k p Hin. by apply not_elem_of_nil in Hin. Qed.

Lemma key_of_total sms k c : key_of sms = Some (k, c) -> 2 <= c_total c.
Proof. unfold key_of. intros H. repeat case_match; simplify_eq. lia. Qed.

(** The partial [push] files a segment into: the pending one of the same total,
    or an empty one. *)
Definition target (now : Z) (sms : DecodedSms) (k : key) (c : Concat) (r : Reassembler) : Partial :=
  let fresh_ := mkPartial (c_total c) (d_address sms) [] now in
  match dict_get k (pending_ r) with
  | Some p => if p_total p =? c_total c then p else fresh_
  | None => fresh_
  end.

Definition filed (now : Z) (sms : DecodedSms) (k : key) (c : Concat) (r : Reassembler) : Partial :=
  let p := target now sms k c r in
  mkPartial (p_total p) (p_address p) (dict_set (c_seq c) sms (p_parts p)) (p_first_seen p).

Lemma filed_spec now sms k c r :
  inv r -> key_of sms = Some (k, c) ->
  let p := filed now sms k c r in
  p_total p = c_total c /\ dict_wf (p_parts p) /\ p_parts p <> [] /\
  Z.of_nat (length (p_parts p)) <= p_total p /\
  forall i s, (i, s) ∈ p_parts p -> exists c', key_of s = Some (k, c') /\ c_seq c' = i /\ c_total c' = p_total p.
Proof.
  intros Hi Hk. assert (H2 := key_of_total _ _ _ Hk). cbn zeta. unfold filed. cbn.
  assert (Ht : p_total (target now sms k c r) = c_total c /\ dict_wf (p_parts (target now sms k c r)) /\
    Z.of_nat (length (p_parts (target now sms k c r))) < c_total c /\
    forall i s, (i, s) ∈ p_parts (target now sms k c r) ->
      exists c', key_of s = Some (k, c') /\ c_seq c' = i /\ c_total c' = c_total c).
  { assert (Hf : let p := mkPartial (c_total c) (d_address sms) [] now in
      p_total p = c_total c /\ dict_wf (p_parts p) /\ Z.of_nat (length (p_parts p)) < c_total c /\
      forall i s, (i, s) ∈ p_parts p ->
        exists c', key_of s = Some (k, c') /\ c_seq c' = i /\ c_total c' = c_total c).
    { cbn. split_and!; [done|apply NoDup_nil_2|lia|]. intros i s Hin. by apply not_elem_of_nil in Hin. }
    unfold target. destruct (dict_get k (pending_ r)) as [p|] eqn:Ep; [|exact Hf].
    destruct (Z.eqb_spec (p_total p) (c_total c)) as [E|E]; [|exact Hf].
    destruct (inv_get _ _ _ Hi Ep) as (Hw & _ & Hl & Hin). rewrite <- E. done. }
  destruct Ht as (-> & Hw & Hl & Hin). split_and!; [done|by apply dict_set_wf| | |].
  - intros E. apply (f_equal length) in E. rewrite dict_set_length in E. simpl in E. case_decide as Hd; [|done].
    destruct (p_parts (target now sms k c r)); [by apply not_elem_of_nil in Hd|done].
  - rewrite dict_set_length. case_decide; lia.
  - intros i s Hs. apply dict_set_lookup_in in Hs as [[-> ->]|[_ Hs]]; [by exists c|by apply Hin|done].
Qed.

(** One push in terms of the partial it files into. *)
Lemma push_eq now sms k c r :
  inv r -> key_of sms = Some (k, c) ->
  (exists m, complete (filed now sms k c r) = true /\
     merge (filed now sms k c r) = Ok m /\
     push now sms r = Ok (Some m, mkReassembler (timeout r) (dict_del k (pending_ r)))) \/
  (complete (filed now sms k c r) = false /\ partial_ok k (filed now sms k c r) /\
     push now sms r = Ok (None, mkReassembler (timeout r) (dict_set k (filed now sms k c r) (pending_ r)))).
Proof.
  intros Hi Hk. destruct (filed_spec now sms k c r Hi Hk) as (Ht & Hw & Hne & Hl & Hin).
  unfold push. rewrite Hk. fold (target now sms k c r). fold (filed now sms k c r).
  destruct (complete (filed now sms k c r)) eqn:Hc.
  - left. destruct (merge_total _ Hw Hne) as (m & Hm & _). exists m. rewrite Hm. done.
  - right. unfold complete in Hc. split_and!; [done| |done].
    unfold partial_ok. split_and!; [done|done|lia|done].
Qed.

Lemma push_inv now sms r :
  inv r -> exists o r', push now sms r = Ok (o, r') /\ inv r' /\ timeout r' = timeout r.
Proof.
  intros Hi. destruct (key_of sms) as [[k c]|] eqn:Hk.
  - destruct (push_eq now sms k c r Hi Hk) as [(m & _ & _ & ->)|(_ & Hp & ->)].
    + eexists _, _. split_and!; [done|by apply pending_del|done].
    + eexists _, _. split_and!; [done|by apply pending_set|done].
  - unfold push. rewrite Hk. by eexists _, _.
Qed.

(** A push leaves the other senders' and references' partials alone. *)
Lemma push_other now sms r o r' k :
  inv r -> push now sms r = Ok (o, r') -> fst <$> key_of sms <> Some k ->
  dict_get k (pending_ r') = dict_get k (pending_ r).
Proof.
  intros Hi H Hne. destruct (key_of sms) as [[k' c]|] eqn:Hk; simpl in Hne.
  - assert (k <> k') by congruence.
    destruct (push_eq now sms k' c r Hi Hk) as [(m & _ & _ & E)|(_ & _ & E)]; rewrite E in H;
      injection H as <- <-; simpl; [by apply dict_get_del_ne|by apply dict_get_set_ne].
  - unfold push in H. rewrite Hk in H. by injection H as <- <-.
Qed.

(** ** Expiry *)

Lemma pop_merge_filter (P : key * Partial -> Prop) `{forall x, Decision (P x)} pre d :
  dict_wf (pre ++ d) -> (forall k p, (k, p) ∈ d -> partial_ok k p) ->
  exists out, pop_merge ((filter P d).*1) (pre ++ d) = Ok (out, pre ++ filter (fun x => ~ P x) d) /\
    Forall2 (fun kp m => merge kp.2 = Ok m) (filter P d) out.
Proof.
  revert pre. induction d as [|[k p] d IH]; intros pre Hwf Hok.
  - exists []. rewrite !filter_nil, !app_nil_r. split; [done|by apply Forall2_nil].
  - destruct (dict_wf_middle _ _ _ _ Hwf) as [Hk Hwf'].
    assert (Hok' : forall k p, (k, p) ∈ d -> partial_ok k p) by (intros; apply Hok; by right).
    destruct (decide (P (k, p))) as [HP|HP].
    + rewrite !filter_cons_True, filter_cons_False by (try done; naive_solver).
      destruct (Hok k p ltac:(by left)) as (Hw & Hne & _). destruct (merge_total _ Hw Hne) as (m & Hm & _).
      destruct (IH pre Hwf' Hok') as (out & Hp & Hf). exists (m :: out). split.
      * rewrite fmap_cons. cbn [pop_merge fst]. rewrite dict_get_app, dict_del_app by done.
        cbn [dict_get dict_del]. rewrite !decide_True by done.
        rewrite Hm. cbn [mbind res_bind]. by rewrite Hp.
      * by apply Forall2_cons.
    + rewrite !(filter_cons_False P), filter_cons_True by done.
      destruct (IH (pre ++ [(k, p)])) as (out & Hp & Hf); [by rewrite <- app_assoc|done|].
      rewrite <- !app_assoc in Hp. cbn [app] in Hp. exists out. split; [|done].
      exact Hp.
Qed.

Lemma flush_expired_pending now r :
  inv r ->
  exists out r', flush_expired now r = Ok (out, r') /\ inv r' /\ timeout r' = timeout r /\
    Forall2 (fun kp m => merge kp.2 = Ok m) (filter (stale now (timeout r)) (pending_ r)) out /\
    forall k p, (k, p) ∈ pending_ r' <-> (k, p) ∈ pending_ r /\ now - p_first_seen p < timeout r.
Proof.
  intros Hi. destruct (pop_merge_filter (stale now (timeout r)) [] (pending_ r))
    as (out & Hp & Hf); [apply Hi|apply Hi|].
  assert (Hin : forall k p, (k, p) ∈ filter (fun x => ~ stale now (timeout r) x) (pending_ r) <->
    (k, p) ∈ pending_ r /\ now - p_first_seen p < timeout r).
  { intros k p. rewrite list_elem_of_filter. unfold stale, is_expired. simpl. split; intros [? ?]; split; try done; lia. }
  unfold flush_expired. cbn [app] in Hp. rewrite Hp. cbn [mbind res_bind].
  eexists _, _. split_and!; [done| |done|exact Hf|exact Hin].
  split; simpl.
  - unfold dict_wf, dict_keys. eapply sublist_NoDup; [apply Hi|]. apply fmap_filter_sublist.
  - intros k p Hk. apply Hi. by apply Hin in Hk as [? _].
Qed.

(** A flush keeps a partial that is younger than the timeout, and adds none. *)
Lemma flush_keeps now r out r' k :
  inv r -> flush_expired now r = Ok (out, r') ->
  match dict_get k (pending_ r) with
  | Some p => now - p_first_seen p < timeout r -> dict_get k (pending_ r') = Some p
  | None => dict_get k (pending_ r') = None
  end.
Proof.
  intros Hi E. destruct (flush_expired_pending now r Hi) as (out0 & r0 & E0 & [Hw _] & _ & _ & Hin).
  rewrite E in E0. injection E0 as <- <-. destruct (dict_get k (pending_ r)) as [p|] eqn:Ek.
  - intros Ht. apply dict_get_in; [done|]. apply Hin. split; [by apply dict_get_Some_in|done].
  - destruct (dict_get k (pending_ r')) as [p|] eqn:Ek'; [|done]. apply dict_get_Some_in, Hin in Ek' as [Hk _].
    apply dict_get_in in Hk; [congruence|apply Hi].
Qed.

(** ** Collecting one message out of interleaved traffic *)

Definition for_key (k : key) (ts : Z * DecodedSms) : Prop := fst <$> key_of ts.2 = Some k.

#[export] Instance for_key_dec k ts : Decision (for_key k ts).
Proof. unfold for_key. apply _. Defined.

(** What the arrivals filed under [k] returned. *)
Definition returned (k : key) (l : list activity) (outs : list (list DecodedSms)) : list DecodedSms :=
  mjoin ((fun ao : activity * list DecodedSms =>
    match ao.1 with Arrives ts => if decide (for_key k ts) then ao.2 else [] | Flushes _ => [] end) <$> zip l outs).

(** While segments of [k] are still to come, no flush comes [limit] or more
    after one that arrived. *)
Definition timely (limit : Z) (k : key) (l : list activity) : Prop :=
  forall pre t post ts, l = pre ++ Flushes t :: post -> ts ∈ arrivals pre -> for_key k ts ->
    Exists (for_key k) (arrivals post) -> t - ts.1 < limit.

Lemma returned_in k ts o l outs :
  for_key k ts -> returned k (Arrives ts :: l) (o :: outs) = o ++ returned k l outs.
Proof. intros H. unfold returned. cbn [zip zip_with]. rewrite fmap_cons, mjoin_cons. cbn [fst snd]. by rewrite decide_True. Qed.

Lemma returned_out k ts o l outs : ~ for_key k ts -> returned k (Arrives ts :: l) (o :: outs) = returned k l outs.
Proof. intros H. unfold returned. cbn [zip zip_with]. rewrite fmap_cons, mjoin_cons. cbn [fst snd]. by rewrite decide_False. Qed.

Lemma returned_flush k t o l outs : returned k (Flushes t :: l) (o :: outs) = returned k l outs.
Proof. unfold returned. cbn [zip zip_with]. by rewrite fmap_cons, mjoin_cons. Qed.

Lemma activity_inv a r : inv r -> exists out r', act a r = Ok (out, r') /\ inv r' /\ timeout r' = timeout r.
Proof.
  intros Hi. destruct a as [[now sms]|now]; cbn [act].
  - destruct (push_inv now sms r Hi) as (o & r' & -> & Hi' & Ht). cbn [mbind res_bind]. by eexists _, _.
  - destruct (flush_expired_pending now r Hi) as (out & r' & -> & Hi' & Ht & _). by eexists _, _.
Qed.

Lemma act_all_idle k l r :
  inv r -> filter (for_key k) (arrivals l) = [] -> dict_get k (pending_ r) = None ->
  exists outs r', act_all l r = Ok (outs, r') /\ inv r' /\ returned k l outs = [] /\
    dict_get k (pending_ r') = None.
Proof.
  revert r. induction l as [|a l IH]; intros r Hi Hf Hn; simpl.
  - by eexists _, _.
  - destruct (activity_inv a r Hi) as (out & r1 & Ha & Hi1 & _).
    assert (Hx : filter (for_key k) (arrivals l) = [] /\ dict_get k (pending_ r1) = None
      /\ match a with Arrives ts => ~ for_key k ts | Flushes _ => True end).
    { destruct a as [[now sms]|now]; cbn [arrivals omap list_omap] in Hf; fold (arrivals l) in Hf; cbn [act] in Ha.
      - destruct (decide (for_key k (now, sms))) as [Hk|Hk];
          [by rewrite filter_cons_True in Hf|rewrite filter_cons_False in Hf by done]. split_and!; [done| |done].
        destruct (push_inv now sms r Hi) as (o & r2 & Hp & _). rewrite Hp in Ha. injection Ha as <- <-.
        rewrite <- Hn. by eapply push_other.
      - split_and!; [done| |done]. pose proof (flush_keeps now r out r1 k Hi Ha) as Hk. by rewrite Hn in Hk. }
    destruct Hx as (Hf' & Hn1 & Hk). rewrite Ha. cbn [mbind res_bind].
    destruct (IH r1 Hi1 Hf' Hn1) as (outs & r' & -> & Hi' & Hr & Hg). cbn [mbind res_bind].
    eexists _, _. split_and!; [done|done| |done]. unfold returned in *. cbn [zip zip_with]. rewrite fmap_cons, mjoin_cons, Hr, app_nil_r.
    cbn [fst snd]. destruct a; [by rewrite decide_False|done].
Qed.

Section collect.
Context (segs : list DecodedSms) (addr : pystr) (ref : Z).
Context (Hlen : (2 <= length segs)%nat).
Context (Hsegs : forall i s, segs !! i = Some s ->
  d_address s = addr /\ d_concat s = Some (mkConcat ref (Z.of_nat (length segs)) (1 + Z.of_nat i))).

Definition seq_of (s : DecodedSms) : Z := match d_concat s with Some c => c_seq c | None => 0 end.

Definition keyed (l : list DecodedSms) : pydict Z DecodedSms := (fun s => (seq_of s, s)) <$> l.

Lemma keyed_segs : keyed segs = numbered 1 segs.
Proof.
  unfold keyed, numbered. apply list_eq. intros i. rewrite list_lookup_fmap, list_lookup_imap.
  destruct (segs !! i) as [s|] eqn:E; [|done]. simpl. f_equal. f_equal.
  destruct (Hsegs _ _ E) as [_ Hc]. unfold seq_of. by rewrite Hc.
Qed.

Lemma segs_key s : s ∈ segs ->
  key_of s = Some ((addr, ref), mkConcat ref (Z.of_nat (length segs)) (seq_of s)).
Proof.
  intros Hin. apply list_elem_of_lookup_1 in Hin as [i Hi]. destruct (Hsegs _ _ Hi) as [Ha Hc].
  unfold key_of, seq_of. rewrite Hc. simpl. replace (_ <=? 1) with false by lia. by rewrite Ha.
Qed.

Lemma keyed_wf done_ rest : done_ ++ rest ≡ₚ segs -> dict_wf (keyed (done_ ++ rest)).
Proof.
  intros Hp. assert (Hw := numbered_wf 1 segs). rewrite <- keyed_segs in Hw.
  unfold dict_wf, dict_keys, keyed in *. by rewrite Hp.
Qed.

(** The table after the segments [done_] have been pushed, the first of them
    at [first]. *)
Definition holding (done_ : list DecodedSms) (first : Z) (r : Reassembler) : Prop :=
  match done_ with
  | [] => dict_get (addr, ref) (pending_ r) = None
  | _ => exists p, dict_get (addr, ref) (pending_ r) = Some p /\
           p_total p = Z.of_nat (length segs) /\ p_parts p = keyed done_ /\ p_first_seen p = first
  end.

Definition first_at (done_ : list DecodedSms) (first now : Z) : Z := match done_ with [] => now | _ => first end.

Lemma filed_parts done_ first now s rest r :
  holding done_ first r -> done_ ++ s :: rest ≡ₚ segs ->
  let p := filed now s (addr, ref) (mkConcat ref (Z.of_nat (length segs)) (seq_of s)) r in
  p_parts p = keyed (done_ ++ [s]) /\ p_total p = Z.of_nat (length segs) /\ p_first_seen p = first_at done_ first now.
Proof.
  intros Hh Hp. cbn zeta.
  assert (Ht : let p := target now s (addr, ref) (mkConcat ref (Z.of_nat (length segs)) (seq_of s)) r in
    p_parts p = keyed done_ /\ p_total p = Z.of_nat (length segs) /\ p_first_seen p = first_at done_ first now).
  { unfold target. destruct done_ as [|d ds]; simpl in Hh.
    - by rewrite Hh.
    - destruct Hh as (p & -> & Ht & Hk & Hfs). rewrite Ht. cbn [c_total]. by rewrite Z.eqb_refl. }
  destruct Ht as (Hparts & Htot & Hfs). unfold filed. cbn [p_parts p_total p_first_seen]. rewrite Hparts, Htot, Hfs. split_and!; [|done|done].
  cbn [c_seq]. rewrite dict_set_new.
  - unfold keyed. by rewrite fmap_app.
  - apply dict_get_None. assert (Hw := keyed_wf _ _ Hp).
    unfold keyed in Hw. rewrite fmap_app, fmap_cons in Hw. by apply dict_wf_middle in Hw as [? _].
Qed.

(** No flush is late for a partial started at [first]. *)
Definition waits (limit first : Z) (l : list activity) : Prop :=
  forall pre t post, l = pre ++ Flushes t :: post -> Exists (for_key (addr, ref)) (arrivals post) -> t - first < limit.

Lemma timely_cons limit a l : timely limit (addr, ref) (a :: l) -> timely limit (addr, ref) l.
Proof.
  intros H pre t post ts -> Hts Hk Hx. apply (H (a :: pre) t post ts); [done| |done|done].
  destruct a; cbn [arrivals omap list_omap]; [by right|done].
Qed.

Lemma timely_waits limit ts l : timely limit (addr, ref) (Arrives ts :: l) -> for_key (addr, ref) ts -> waits limit ts.1 l.
Proof. intros H Hk pre t post -> Hx. apply (H (Arrives ts :: pre) t post ts); [done|left|done|done]. Qed.

Lemma waits_cons limit first a l : waits limit first (a :: l) -> waits limit first l.
Proof. intros H pre t post -> Hx. by apply (H (a :: pre) t post). Qed.

(** The last segment: what is left concerns other messages. *)
Lemma collect_last l done_ now s r m :
  inv r -> for_key (addr, ref) (now, s) -> done_ ++ s :: (filter (for_key (addr, ref)) (arrivals l)).*2 ≡ₚ segs ->
  p_parts (filed now s (addr, ref) (mkConcat ref (Z.of_nat (length segs)) (seq_of s)) r) = keyed (done_ ++ [s]) ->
  p_total (filed now s (addr, ref) (mkConcat ref (Z.of_nat (length segs)) (seq_of s)) r) = Z.of_nat (length segs) ->
  complete (filed now s (addr, ref) (mkConcat ref (Z.of_nat (length segs)) (seq_of s)) r) = true ->
  merge (filed now s (addr, ref) (mkConcat ref (Z.of_nat (length segs)) (seq_of s)) r) = Ok m ->
  push now s r = Ok (Some m, mkReassembler (timeout r) (dict_del (addr, ref) (pending_ r))) ->
  exists outs r' m', act_all (Arrives (now, s) :: l) r = Ok (outs, r') /\ inv r' /\
    dict_get (addr, ref) (pending_ r') = None /\ returned (addr, ref) (Arrives (now, s) :: l) outs = [m'] /\
    merge_ordered segs = Ok m'.
Proof using Hlen Hsegs.
  intros Hi Hk Hp Hparts Htot Hc Hm Hpush. assert (Hnil : filter (for_key (addr, ref)) (arrivals l) = []).
  { unfold complete in Hc. rewrite Hparts, Htot in Hc. unfold keyed in Hc.
    rewrite length_fmap, length_app in Hc. apply Permutation_length in Hp.
    rewrite length_app in Hp. simpl in Hp, Hc.
    destruct (filter _ (arrivals l)); [done|]. simpl in Hp. lia. }
  destruct (act_all_idle (addr, ref) l _ (pending_del _ (addr, ref) Hi) Hnil) as (outs & r' & Ha & Hi' & Hr & Hg).
  { simpl. apply dict_get_del, Hi. }
  exists ([m] :: outs), r', m. split_and!; [|done|done| |].
  - cbn [act_all act]. rewrite Hpush. cbn [mbind res_bind option_list]. by rewrite Ha.
  - by rewrite returned_in, Hr.
  - unfold merge in Hm. rewrite <- Hm, Hparts. f_equal. symmetry. apply (ordered_numbered _ 1).
    rewrite <- keyed_segs. unfold keyed. rewrite Hnil in Hp. by rewrite <- Hp.
Qed.

Lemma collect l : forall done_ first r,
  inv r -> holding done_ first r -> done_ ++ (filter (for_key (addr, ref)) (arrivals l)).*2 ≡ₚ segs ->
  filter (for_key (addr, ref)) (arrivals l) <> [] ->
  timely (timeout r) (addr, ref) l -> (done_ <> [] -> waits (timeout r) first l) ->
  exists outs r' m, act_all l r = Ok (outs, r') /\ inv r' /\
    dict_get (addr, ref) (pending_ r') = None /\ returned (addr, ref) l outs = [m] /\
    merge_ordered segs = Ok m.
Proof using Hlen Hsegs.
  induction l as [|a l IH]; intros done_ first r Hi Hh Hp Hne Htime Hwait; [done|].
  destruct a as [[now s]|now]; cbn [arrivals omap list_omap] in Hp, Hne; fold (arrivals l) in Hp, Hne.
  - destruct (decide (for_key (addr, ref) (now, s))) as [Hk|Hk].
    + rewrite filter_cons_True in Hp by done. rewrite fmap_cons in Hp. cbn [snd] in Hp.
      assert (Hin : s ∈ segs) by (rewrite <- Hp; apply elem_of_app; right; left).
      assert (Hks := segs_key _ Hin).
      destruct (filed_parts _ _ now _ _ _ Hh Hp) as (Hparts & Htot & Hfirst).
      destruct (push_eq now s _ _ r Hi Hks) as [(m & Hc & Hm & Hpush)|(Hc & Hok & Hpush)].
      * by apply (collect_last l done_ now s r m).
      * destruct (IH (done_ ++ [s]) (first_at done_ first now) _ (pending_set _ _ _ Hi Hok)) as (outs & r' & m & Ha & Hi' & Hg & Hr & Hm).
        -- destruct done_; simpl; (eexists; split_and!; [apply dict_get_set|done|done|done]).
        -- by rewrite <- app_assoc.
        -- intros E. rewrite E in Hp. unfold complete in Hc. rewrite Hparts, Htot in Hc.
           unfold keyed in Hc. rewrite length_fmap, length_app in Hc. apply Permutation_length in Hp.
           rewrite length_app in Hp. simpl in Hp, Hc. lia.
        -- by eapply timely_cons.
        -- intros _. destruct done_; cbn [first_at timeout]; [by apply (timely_waits _ (now, s))|]. by eapply waits_cons, Hwait.
        -- exists ([] :: outs), r', m. split_and!; [|done|done| |done].
           ++ cbn [act_all act]. rewrite Hpush. cbn [mbind res_bind option_list]. by rewrite Ha.
           ++ by rewrite returned_in.
    + rewrite filter_cons_False in Hp, Hne by done.
      destruct (push_inv now s r Hi) as (o & r1 & Hpush & Hi1 & Hto).
      destruct (IH done_ first r1 Hi1) as (outs & r' & m & Ha & Hi' & Hg & Hr & Hm); [|done|done|rewrite Hto; by eapply timely_cons| |].
      * assert (Hg := push_other _ _ _ _ _ _ Hi Hpush Hk). unfold holding in *. by rewrite Hg.
      * intros Hd. rewrite Hto. by eapply waits_cons, Hwait.
      * exists (option_list o :: outs), r', m. split_and!; [|done|done| |done].
        -- cbn [act_all act]. rewrite Hpush. cbn [mbind res_bind]. by rewrite Ha.
        -- by rewrite returned_out.
  - destruct (flush_expired_pending now r Hi) as (out & r1 & Hfl & Hi1 & Hto & _).
    assert (Hx : Exists (for_key (addr, ref)) (arrivals l)).
    { destruct (filter _ _) as [|x rest] eqn:Ef; [done|]. apply Exists_exists. exists x.
      assert (Hxin : x ∈ filter (for_key (addr, ref)) (arrivals l)) by (rewrite Ef; left). by apply list_elem_of_filter in Hxin as [? ?]. }
    destruct (IH done_ first r1 Hi1) as (outs & r' & m & Ha & Hi' & Hg & Hr & Hm); [|done|done|rewrite Hto; by eapply timely_cons| |].
    + pose proof (flush_keeps now r out r1 (addr, ref) Hi Hfl) as Hk. unfold holding in *. destruct done_ as [|d ds].
      * by rewrite Hh in Hk.
      * destruct Hh as (p & Ep & H1 & H2 & H3). rewrite Ep in Hk. exists p. split_and!; [|done..]. apply Hk. rewrite H3. by apply (Hwait ltac:(done) [] now l).
    + intros Hd. rewrite Hto. by eapply waits_cons, Hwait.
    + exists (out :: outs), r', m. split_and!; [|done|done| |done].
      * cbn [act_all act]. rewrite Hfl. cbn [mbind res_bind]. by rewrite Ha.
      * by rewrite returned_flush.
Qed.
End collect.

(** What decodes out of a permuted list of frames. *)
Lemma Forall2_omap {A B E} (f : A -> res E B) l ys :
  Forall2 (fun a b => f a = Ok b) l ys -> ys = omap (fun a => res_opt (f a)) l.
Proof. induction 1 as [|a b l ys Hab _ IH]; simpl; [done|]. rewrite Hab. simpl. by f_equal. Qed.

Lemma Forall2_of_map {A B E} (f : A -> res E B) l ys :
  map f l = map Ok ys -> Forall2 (fun a b => f a = Ok b) l ys.
Proof. revert ys. induction l as [|a l IH]; intros [|b ys] [=]; constructor; auto. Qed.

Lemma Forall2_fun_perm {A B E} (f : A -> res E B) l l' xs ys :
  l' ≡ₚ l -> Forall2 (fun a b => f a = Ok b) l' xs -> Forall2 (fun a b => f a = Ok b) l ys -> xs ≡ₚ ys.
Proof. intros Hp ->%Forall2_omap ->%Forall2_omap. by rewrite Hp. Qed.

Lemma existsb_false {A} (f : A -> bool) l : (forall x, x ∈ l -> f x = false) -> existsb f l = false.
Proof. induction l as [|x l IH]; intros H; simpl; [done|]. rewrite H by left. apply IH. intros. apply H. by right. Qed.

(** ** Properties *)

(** A long message is delivered exactly once and whole,
    whatever the order in which its segments arrive and whatever other messages
    arrive between them: the pushes filed under its sender and reference return
    one message, the segments merged in sequence order, and leave nothing
    pending for it. *)
Theorem reassembly_any_order segs addr ref l r :
  (2 <= length segs)%nat ->
  (forall i s, segs !! i = Some s ->
    d_address s = addr /\ d_concat s = Some (mkConcat ref (Z.of_nat (length segs)) (1 + Z.of_nat i))) ->
  inv r -> dict_get (addr, ref) (pending_ r) = None ->
  (filter (for_key (addr, ref)) (arrivals l)).*2 ≡ₚ segs -> timely (timeout r) (addr, ref) l ->
  exists outs r' m, act_all l r = Ok (outs, r') /\
    returned (addr, ref) l outs = [m] /\ merge_ordered segs = Ok m /\
    d_text m = mjoin (d_text <$> segs) /\
    dict_get (addr, ref) (pending_ r') = None /\ inv r'.
Proof.
  intros Hlen Hsegs Hi Hg Hp Ht.
  destruct (collect segs addr ref Hlen Hsegs l [] 0 r Hi Hg Hp) as (outs & r' & m & Ha & Hi' & Hn & Hr & Hm); [|done|done|].
  { intros E. rewrite E in Hp. apply Permutation_nil_l in Hp. by rewrite <- Hp in Hlen; simpl in Hlen; lia. }
  exists outs, r', m. split_and!; try done.
  destruct (merge_ordered_total segs) as (m' & Hm' & Ht'); [by intros ->; simpl in Hlen; lia|].
  rewrite Hm in Hm'. by injection Hm' as ->.
Qed.

(** Two segments of one message, and a message of its own. *)
Definition sample_segment (i : Z) (text : pystr) : DecodedSms :=
  mkDecodedSms deliver (str "10086") text None None 0 gsm7 (Some (mkConcat 7 2 i)) [] None false false 0 false [] [].
Definition sample_single : DecodedSms :=
  mkDecodedSms deliver (str "10010") (str "ok") None None 0 gsm7 None [] None false false 0 false [] [].

(** The first segment comes 29 seconds before a flush, and the second after it. *)
Definition sample_activity : list activity :=
  [Arrives (0, sample_segment 2 (str "lo")); Arrives (1, sample_single); Flushes 29; Arrives (40, sample_segment 1 (str "hel")); Flushes 80].

(** Every flush, with what came before it and after it. *)
Fixpoint flushes (before l : list activity) : list (list activity * Z * list activity) :=
  match l with
  | [] => []
  | Flushes t :: l => (before, t, l) :: flushes (before ++ [Flushes t]) l
  | a :: l => flushes (before ++ [a]) l
  end.

Lemma in_flushes l : forall before pre t post, l = pre ++ Flushes t :: post -> (before ++ pre, t, post) ∈ flushes before l.
Proof.
  induction l as [|a l IH]; intros before pre t post E; [by destruct pre|]. destruct pre as [|b pre].
  - injection E as -> ->. rewrite app_nil_r. left.
  - injection E as -> E. pose proof (IH (before ++ [b]) pre t post E) as H. rewrite <- app_assoc in H. destruct b; cbn [flushes]; [done|by right].
Qed.

Definition on_time (limit : Z) (k : key) (x : list activity * Z * list activity) : Prop :=
  Forall (fun ts => for_key k ts -> Exists (for_key k) (arrivals x.2) -> x.1.2 - ts.1 < limit) (arrivals x.1.1).

Lemma timely_check limit k l : Forall (on_time limit k) (flushes [] l) -> timely limit k l.
Proof.
  intros H pre t post ts E Hts. rewrite Forall_forall in H. specialize (H _ (in_flushes l [] pre t post E)).
  unfold on_time in H. rewrite Forall_forall in H. by apply H.
Qed.

Lemma reassembly_any_order_witness :
  exists outs r' m,
    act_all sample_activity (new_reassembler 30) = Ok (outs, r') /\
    returned (str "10086", 7) sample_activity outs = [m] /\ d_text m = str "hello".
Proof.
  destruct (reassembly_any_order [sample_segment 1 (str "hel"); sample_segment 2 (str "lo")] (str "10086") 7
    sample_activity (new_reassembler 30)) as (outs & r' & m & H1 & H2 & _ & H3 & _).
  - simpl; lia.
  - intros [|[|i]] s [= <-]; split; reflexivity.
  - apply inv_new.
  - reflexivity.
  - vm_compute. apply Permutation_swap.
  - apply timely_check. unfold on_time, for_key. decide_closed.
  - exists outs, r', m. exact (conj H1 (conj H2 H3)).
Defined.

(** C34 (round trip): the mock network's long DELIVER, split into PDUs, decoded
    and reassembled from any interleaving with other messages and with flushes,
    is the one message that was sent: same text and not marked damaged, the
    sender and the service centre in the form the PDU can spell (canonical), and
    the timestamp of the sending.  The text has no byte-order mark, U+FEFF or
    U+FFFE, which the decoder drops or obeys where one begins a segment (see
    [mark_dropped]); the timestamp is one a PDU can hold (years 2000 to 2099, an
    offset in quarters of an hour below twenty hours); and while segments are
    missing no flush comes the reassembler's timeout or more after one that
    arrived, since that surfaces the parts. *)
Theorem deliver_reassembled sender text when now smsc ref draw force pdus arrived l r :
  Forall is_scalar text -> no_bom text -> scts_representable (default now when) ->
  encode_deliver sender text when now smsc ref draw force = Ok pdus -> (2 <= length pdus)%nat ->
  let k := (canonical_number sender, Z.land (default draw ref) 0xFF) in
  inv r -> dict_get k (pending_ r) = None -> timely (timeout r) k l ->
  arrived ≡ₚ pdus -> Forall2 (fun p m => decode_pdu p = Ok m) arrived (filter (for_key k) (arrivals l)).*2 ->
  exists outs r' m, act_all l r = Ok (outs, r') /\ returned k l outs = [m] /\ dict_get k (pending_ r') = None /\
    d_text m = text /\ d_address m = canonical_number sender /\ d_kind m = deliver /\
    d_smsc m = Some (canonical_smsc smsc) /\ d_timestamp m = Some (default now when) /\
    d_truncated m = false.
Proof.
  cbn zeta. intros Hs Hb Hr He Hlen Hi Hg Ht Hp Hl.
  destruct (deliver_decodes _ _ _ _ _ _ _ _ _ Hs Hb Hr He) as (smss & Hd & <- & Hn & Hall).
  assert (Hperm : (filter (for_key (canonical_number sender, Z.land (default draw ref) 0xFF)) (arrivals l)).*2 ≡ₚ smss)
    by eauto using Forall2_fun_perm.
  destruct (collect smss (canonical_number sender) (Z.land (default draw ref) 0xFF) ltac:(lia)) with (l := l) (done_ := @nil DecodedSms) (first := 0) (r := r)
    as (outs & r' & m & Ha & _ & Hnone & Hres & Hm); [|done|done|done| |done|done|].
  { intros i s Hi'. destruct (Hall _ _ Hi') as (_ & -> & _ & _ & -> & _). split; [done|].
    unfold concat_of. replace (1 <? _) with true by lia. by rewrite Hn. }
  { intros E. rewrite E in Hperm. apply Permutation_nil_l in Hperm. rewrite <- Hperm in Hn. simpl in Hn. lia. }
  exists outs, r', m. do 3 (split; [done|]).
  destruct smss as [|s0 smss]; [done|]. destruct (Hall 0%nat s0 eq_refl) as (? & ? & ? & ? & _).
  injection Hm as <-. cbn [d_text d_address d_kind d_smsc d_timestamp d_truncated].
  split_and!; try done. apply (existsb_false d_truncated (s0 :: smss)). intros s Hin.
  apply list_elem_of_lookup_1 in Hin as [i Hin]. by destruct (Hall i s Hin) as (_ & _ & _ & _ & _ & ? & _).
Qed.

Definition sample_text : pystr := repeat 0x4E2D 71.
Definition sample_frames : list pystr :=
  default [] (res_opt (encode_deliver (str "10086") sample_text None (mkDatetime 2026 2 28 23 59 1 28800)
                         (str "+8613800210500") None 9 true)).
Definition sample_messages : list DecodedSms := omap (fun p => res_opt (decode_pdu p)) (rev sample_frames).

Definition sample_run : list activity :=
  (fun x => if (x.1 =? 1) then Flushes 20 else Arrives x) <$>
    match sample_messages with [a; b] => [(0, a); (1, a); (2, b)] | _ => [] end.

Lemma deliver_reassembled_witness :
  exists outs r' m,
    act_all sample_run (new_reassembler 30) = Ok (outs, r') /\
    returned (str "10086", 9) sample_run outs = [m] /\
    d_text m = sample_text.
Proof.
  destruct (deliver_reassembled (str "10086") sample_text None (mkDatetime 2026 2 28 23 59 1 28800)
    (str "+8613800210500") None 9 true sample_frames (rev sample_frames) sample_run (new_reassembler 30))
    as (outs & r' & m & H1 & H2 & _ & H3 & _).
  - decide_closed.
  - unfold no_bom. decide_closed.
  - split_and!; by vm_compute.
  - by vm_compute.
  - vm_compute. lia.
  - apply inv_new.
  - reflexivity.
  - apply timely_check. unfold on_time, for_key. decide_closed.
  - symmetry. apply Permutation_rev.
  - apply Forall2_of_map. by vm_compute.
  - exists outs, r', m. exact (conj H1 (conj H2 H3)).
Defined.

(** A mark at the start of the text does not come back. *)
Example mark_dropped :
  (fun frames => (fun p => d_text <$> res_opt (decode_pdu p)) <$> frames)
    (default [] (res_opt (encode_deliver (str "10086") [0xFEFF; 0x4E2D] None (mkDatetime 2026 2 28 23 59 1 28800) (str "+8613800210500") None 9 true)))
  = [Some [0x4E2D]].
Proof. by vm_compute. Qed.

(** Pushing never raises, whatever the segments say: the
    pending partials stay non-empty, incomplete and correctly filed, so
    [merge] always has a head, and a push never drops another message. *)
Theorem push_safe now sms r :
  inv r ->
  exists o r', push now sms r = Ok (o, r') /\ inv r' /\
    (forall k, fst <$> key_of sms <> Some k -> dict_get k (pending_ r') = dict_get k (pending_ r)) /\
    (key_of sms = None -> o = Some sms /\ r' = r) /\
    (forall k c, key_of sms = Some (k, c) -> o = None ->
       exists p, dict_get k (pending_ r') = Some p /\ dict_get (c_seq c) (p_parts p) = Some sms).
Proof.
  intros Hi. destruct (push_inv now sms r Hi) as (o & r' & Hp & Hi' & _).
  exists o, r'. split_and!; try done.
  - intros k Hk. by eapply push_other.
  - intros Hk. unfold push in Hp. rewrite Hk in Hp. by injection Hp as <- <-.
  - intros k c Hk ->. destruct (push_eq now sms k c r Hi Hk) as [(m & _ & _ & E)|(_ & _ & E)];
      rewrite E in Hp; [done|]. injection Hp as <-. exists (filed now sms k c r). simpl.
    by rewrite !dict_get_set.
Qed.

Lemma push_safe_witness :
  exists o r', push 5 (sample_segment 2 (str "lo")) (new_reassembler 30) = Ok (o, r') /\ inv r'.
Proof.
  destruct (push_safe 5 (sample_segment 2 (str "lo")) (new_reassembler 30) (inv_new 30)) as (o & r' & H1 & H2 & _).
  exists o, r'. exact (conj H1 H2).
Defined.

(** [flush_expired] surfaces every partial at least [timeout]
    old, once, in the order they were started and with its gaps closed, keeps
    exactly the younger ones, and never raises. *)
Theorem flush_expired_spec now r :
  inv r ->
  exists out r', flush_expired now r = Ok (out, r') /\ inv r' /\
    Forall2 (fun kp m => merge kp.2 = Ok m /\ d_text m = mjoin (d_text <$> ordered (p_parts kp.2)))
      (filter (stale now (timeout r)) (pending_ r)) out /\
    forall k p, (k, p) ∈ pending_ r' <-> (k, p) ∈ pending_ r /\ now - p_first_seen p < timeout r.
Proof.
  intros Hi. destruct (flush_expired_pending now r Hi) as (out & r' & E & Hi' & _ & Hf & Hin).
  exists out, r'. split_and!; [done|done| |exact Hin].
  apply Forall2_same_length_lookup. rewrite Forall2_same_length_lookup in Hf. destruct Hf as [Hl Hf].
  split; [done|]. intros i [k p] m Hk Hm. assert (Hm' := Hf _ _ _ Hk Hm). split; [done|]. simpl in *.
  apply list_elem_of_lookup_2, list_elem_of_filter in Hk as [_ Hk].
  apply Hi in Hk as (Hw & Hne & _). destruct (merge_total _ Hw Hne) as (m' & Em & Ht). congruence.
Qed.

Lemma flush_expired_spec_witness :
  exists out r', flush_expired 35 (mkReassembler 30 [((str "10086", 7),
      mkPartial 2 (str "10086") [(2, sample_segment 2 (str "lo"))] 5)]) = Ok (out, r') /\
    d_text <$> out = [str "lo"].
Proof.
  set (r := mkReassembler 30 [((str "10086", 7), mkPartial 2 (str "10086") [(2, sample_segment 2 (str "lo"))] 5)]).
  assert (Hi : inv r).
  { split; [apply NoDup_singleton|]. intros k p [= -> ->]%list_elem_of_singleton. split_and!.
    - apply NoDup_singleton.
    - done.
    - by vm_compute.
    - intros i s [= -> ->]%list_elem_of_singleton. by eexists. }
  destruct (flush_expired_spec 35 r Hi) as (out & r' & H1 & _ & H2 & _).
  exists out, r'. split; [exact H1|].
  revert H1. vm_compute. by intros [= <- _].
Defined.

End Reassembly.
