(* ===== verification/Schedule.v ===== *)
(** * When a keep-alive task runs next (agent/src/air780e_agent/schedule.py)

    Cron parsing, day matching and the search for the next firing, over naive
    wall-clock moments: both operands of every comparison carry the same
    [tzinfo], so Python compares the wall clocks.  Years past 9999 (where Python
    raises OverflowError) are not modelled. *)

From S2P Require Import Prelude PyText Codec.

(** ** The calendar of the standard library *)

Record date := mkDate { year : Z; month : Z; day : Z }.

#[export] Instance date_eq_dec : EqDecision date.
Proof. solve_decision. Defined.

Definition valid_date (d : date) : Prop :=
  1 <= year d /\ 1 <= month d <= 12 /\ 1 <= day d <= days_in_month (year d) (month d).

(** Days before the first of each month. *)
Definition days_before_month (y m : Z) : Z :=
  let cum := nth (Z.to_nat (m - 1)) [0; 31; 59; 90; 120; 151; 181; 212; 243; 273; 304; 334] 0 in
  if (2 <? m) && is_leap y then cum + 1 else cum.

Definition days_before_year (y : Z) : Z :=
  let y := y - 1 in y * 365 + y / 4 - y / 100 + y / 400.

(** [date.toordinal] *)
Definition ordinal (d : date) : Z :=
  days_before_year (year d) + days_before_month (year d) (month d) + day d.

(** [date.weekday], Monday is 0. *)
Definition weekday (d : date) : Z := (ordinal d + 6) mod 7.

(** [day + timedelta(days=1)] *)
Definition next_day (d : date) : date :=
  if day d <? days_in_month (year d) (month d) then mkDate (year d) (month d) (day d + 1)
  else if month d <? 12 then mkDate (year d) (month d + 1) 1
  else mkDate (year d + 1) 1 1.

(** A naive datetime, to the minute, with its seconds and microseconds. *)
Record moment := mkMoment { m_date : date; m_hour : Z; m_minute : Z; m_second : Z; m_micro : Z }.

Definition valid_moment (t : moment) : Prop :=
  valid_date (m_date t) /\ 0 <= m_hour t < 24 /\ 0 <= m_minute t < 60 /\
  0 <= m_second t < 60 /\ 0 <= m_micro t < 1000000.

(** Microseconds on the proleptic calendar: the order of naive datetimes. *)
Definition stamp (t : moment) : Z :=
  (((ordinal (m_date t) * 24 + m_hour t) * 60 + m_minute t) * 60 + m_second t) * 1000000 + m_micro t.

(** [(after + timedelta(minutes=1)).replace(second=0, microsecond=0)] *)
Definition next_minute (t : moment) : moment :=
  if m_minute t <? 59 then mkMoment (m_date t) (m_hour t) (m_minute t + 1) 0 0
  else if m_hour t <? 23 then mkMoment (m_date t) (m_hour t + 1) 0 0 0
  else mkMoment (next_day (m_date t)) 0 0 0 0.

(** ** Cron *)

Definition SEARCH_LIMIT_DAYS : nat := 400.

Record Cron := mkCron {
  minutes : gset Z; hours : gset Z; doms : gset Z; months : gset Z; dows : gset Z;
  dom_any : bool; dow_any : bool }.

Inductive ScheduleError :=
| EmptyField | BadStep | StepNotPositive | ReversedRange | OutsideRange | MatchesNothing
| NotANumber | FieldCount (got : nat) | NoRun | UnknownType | BadInterval | IntervalNotPositive.

#[export] Instance ScheduleError_eq_dec : EqDecision ScheduleError.
Proof. solve_decision. Defined.

Definition in_set (x : Z) (s : gset Z) : bool := bool_decide (x ∈ s).

Definition day_matches (c : Cron) (d : date) : bool :=
  if negb (in_set (month d) (months c)) then false
  else
    let dow_ok := in_set ((weekday d + 1) mod 7) (dows c) in
    let dom_ok := in_set (day d) (doms c) in
    if dom_any c && dow_any c then true
    else if dom_any c then dow_ok
    else if dow_any c then dom_ok
    else dom_ok || dow_ok.

(** [range(start, end + 1, step)] for [start <= end], [step >= 1]. *)
Definition py_range (start stop step : Z) : list Z :=
  (fun i => start + Z.of_nat i * step) <$> seq 0 (Z.to_nat ((stop - start) / step + 1)).

Definition int_ (raw : pystr) : res ScheduleError Z := of_option NotANumber (py_int raw).

(** One comma-separated part of a field: the values it adds. *)
Definition parse_part (low high : Z) (part : pystr) : res ScheduleError (list Z) :=
  '(step, body) ←
    (if contains_char 47 part then
       let '(body, step_raw) := partition_on 47 part in
       step ← of_option BadStep (py_int step_raw);
       _ ← guard_err (negb (step <? 1)) StepNotPositive;
       Ok (step, body)
     else Ok (1, part));
  '(start, stop) ←
    (if bool_decide (body = [42] \/ body = []) then Ok (low, high)
     else if contains_char 45 body then
       let '(start_raw, end_raw) := partition_on 45 body in
       start ← int_ start_raw; stop ← int_ end_raw; Ok (start, stop)
     else
       start ← int_ body; Ok (start, if 1 <? step then high else start));
  _ ← guard_err (negb (stop <? start)) ReversedRange;
  _ ← guard_err (negb ((start <? low) || (high <? stop))) OutsideRange;
  Ok (py_range start stop step).

Fixpoint parse_parts (low high : Z) (parts : list pystr) (values : gset Z) : res ScheduleError (gset Z) :=
  match parts with
  | [] => Ok values
  | part :: parts =>
      vs ← parse_part low high part;
      parse_parts low high parts (values ∪ list_to_set vs)
  end.

Definition parse_field (raw : pystr) (low high : Z) : res ScheduleError (gset Z * bool) :=
  let raw := strip raw in
  if bool_decide (raw = []) then Err EmptyField
  else if bool_decide (raw = [42]) then Ok (list_to_set (py_range low high 1), true)
  else
    values ← parse_parts low high (split_on 44 raw) ∅;
    if bool_decide (values = ∅) then Err MatchesNothing else Ok (values, false).

Definition parse_cron (expression : pystr) : res ScheduleError Cron :=
  match split_ws expression with
  | [f0; f1; f2; f3; f4] =>
      '(minutes, _) ← parse_field f0 0 59;
      '(hours, _) ← parse_field f1 0 23;
      '(doms, dom_any) ← parse_field f2 1 31;
      '(months, _) ← parse_field f3 1 12;
      '(dows, dow_any) ← parse_field f4 0 7;
      Ok (mkCron minutes hours doms months
            (set_map (D := gset Z) (fun v => if v =? 7 then 0 else v) dows) dom_any dow_any)
  | fields => Err (FieldCount (length fields))
  end.

Definition sorted (s : gset Z) : list Z := merge_sort Z.le (elements s).

(** The hour and minute loops of one day; [floor] only binds on the first. *)
Definition day_scan (d : date) (floor : option moment) (hours minutes : list Z) : option moment :=
  List.find (fun t => match floor with None => true | Some f => stamp f <=? stamp t end)
    ((fun hm => mkMoment d hm.1 hm.2 0 0) <$> list_prod hours minutes).

(** The day loop: [n] days left to look at. *)
Fixpoint day_loop (c : Cron) (hours minutes : list Z) (d : date) (floor : option moment) (n : nat) :
    option moment :=
  match n with
  | O => None
  | S n =>
      match (if day_matches c d then day_scan d floor hours minutes else None) with
      | Some t => Some t
      | None => day_loop c hours minutes (next_day d) None n
      end
  end.

Definition next_cron (expression : pystr) (after : moment) : res ScheduleError moment :=
  c ← parse_cron expression;
  let start := next_minute after in
  of_option NoRun
    (day_loop c (sorted (hours c)) (sorted (minutes c)) (m_date start) (Some start) SEARCH_LIMIT_DAYS).

(** ** Calendar lemmas *)

Ltac month_cases m :=
  let H := fresh in
  assert (H : m = 1 \/ m = 2 \/ m = 3 \/ m = 4 \/ m = 5 \/ m = 6 \/ m = 7 \/ m = 8 \/ m = 9 \/
              m = 10 \/ m = 11 \/ m = 12) by lia;
  repeat destruct H as [->|H]; [..|subst m].

(** Month arithmetic on concrete months. *)
Ltac eval_months y :=
  unfold days_before_month, days_in_month; destruct (is_leap y);
  first [lia | by vm_compute | split; by vm_compute].

Definition leap_day (y : Z) : Z := if is_leap y then 1 else 0.

Lemma days_in_month_range y m : 28 <= days_in_month y m <= 31.
Proof. unfold days_in_month. repeat case_match; lia. Qed.

Lemma days_before_month_step y m :
  1 <= m < 12 -> days_before_month y (m + 1) = days_before_month y m + days_in_month y m.
Proof. intros Hm. month_cases m; eval_months y. Qed.

Lemma days_before_month_end y :
  days_before_month y 1 = 0 /\ days_before_month y 12 + days_in_month y 12 = 365 + leap_day y.
Proof. unfold leap_day. eval_months y. Qed.

Lemma days_before_year_step y : days_before_year (y + 1) = days_before_year y + 365 + leap_day y.
Proof.
  unfold days_before_year, leap_day, is_leap. replace (y + 1 - 1) with y by lia.
  destruct (Z.eqb_spec (y mod 4) 0), (Z.eqb_spec (y mod 100) 0), (Z.eqb_spec (y mod 400) 0); cbn; dlia.
Qed.

Lemma next_day_spec d :
  valid_date d -> valid_date (next_day d) /\ ordinal (next_day d) = ordinal d + 1.
Proof.
  intros (Hy & Hm & Hd). unfold next_day, valid_date, ordinal.
  destruct (Z.ltb_spec (day d) (days_in_month (year d) (month d))); [cbn [year month day]; lia|].
  destruct (Z.ltb_spec (month d) 12); cbn [year month day].
  - pose proof (days_before_month_step (year d) (month d)). pose proof (days_in_month_range (year d) (month d + 1)). lia.
  - assert (month d = 12) as E by lia. rewrite E in *.
    pose proof (days_before_month_end (year d)). pose proof (days_before_month_end (year d + 1)).
    pose proof (days_before_year_step (year d)). pose proof (days_in_month_range (year d + 1) 1). lia.
Qed.

Lemma days_before_month_mono y m1 m2 :
  1 <= m1 < m2 -> m2 <= 12 -> days_before_month y m1 + days_in_month y m1 <= days_before_month y m2.
Proof.
  intros H1 H2. month_cases m2; try lia; month_cases m1; try lia;
    eval_months y.
Qed.

Lemma day_of_year_range d : valid_date d ->
  1 <= days_before_month (year d) (month d) + day d <= 365 + leap_day (year d).
Proof.
  intros (Hy & Hm & Hd). destruct (days_before_month_end (year d)) as [H1 H12].
  destruct (decide (month d = 1)) as [E|E], (decide (month d = 12)) as [E'|E']; [lia|..].
  - rewrite E in *. pose proof (days_before_month_mono (year d) 1 12). pose proof (days_in_month_range (year d) 12). lia.
  - rewrite E' in *. pose proof (days_before_month_mono (year d) 1 12). pose proof (days_in_month_range (year d) 1). lia.
  - pose proof (days_before_month_mono (year d) (month d) 12). pose proof (days_before_month_mono (year d) 1 (month d)).
    pose proof (days_in_month_range (year d) 12). pose proof (days_in_month_range (year d) 1). lia.
Qed.

Lemma days_before_year_mono y1 y2 : y1 < y2 -> days_before_year y1 + 365 + leap_day y1 <= days_before_year y2.
Proof. intros H. rewrite <- days_before_year_step. unfold days_before_year. dlia. Qed.

Lemma ordinal_inj d1 d2 : valid_date d1 -> valid_date d2 -> ordinal d1 = ordinal d2 -> d1 = d2.
Proof.
  intros H1 H2 E. unfold ordinal in E.
  pose proof (day_of_year_range _ H1) as R1. pose proof (day_of_year_range _ H2) as R2.
  assert (Ey : year d1 = year d2).
  { pose proof (days_before_year_mono (year d1) (year d2)). pose proof (days_before_year_mono (year d2) (year d1)). lia. }
  destruct H1 as (_ & M1 & D1), H2 as (_ & M2 & D2). rewrite Ey in *.
  assert (Em : month d1 = month d2).
  { pose proof (days_before_month_mono (year d2) (month d1) (month d2)).
    pose proof (days_before_month_mono (year d2) (month d2) (month d1)). lia. }
  destruct d1, d2; cbn in *. subst. f_equal. lia.
Qed.

(** ** Fields *)

Lemma py_range_elem start stop step x :
  1 <= step -> start <= stop ->
  x ∈ py_range start stop step <-> exists i, 0 <= i /\ x = start + i * step /\ x <= stop.
Proof.
  intros Hs Hle. unfold py_range. rewrite list_elem_of_fmap. setoid_rewrite elem_of_seq.
  pose proof (Z.div_pos (stop - start) step).
  split.
  - intros (i & -> & Hi). exists (Z.of_nat i). split_and!; [lia|lia|].
    assert (Z.of_nat i <= (stop - start) / step) by lia.
    pose proof (Z.mul_div_le (stop - start) step). nia.
  - intros (i & Hi & -> & Hx). exists (Z.to_nat i). split; [lia|].
    assert (i <= (stop - start) / step) by (apply Z.div_le_lower_bound; lia). lia.
Qed.

Definition within (low high : Z) (s : gset Z) : Prop := forall x, x ∈ s -> low <= x <= high.

Lemma parse_part_within low high part vs :
  low <= high -> parse_part low high part = Ok vs -> forall x, x ∈ vs -> low <= x <= high.
Proof.
  intros Hlh H. unfold parse_part in H.
  apply bind_ok in H as ([step body] & Hs & H).
  apply bind_ok in H as ([start stop] & _ & H). inv_ok.
  assert (1 <= step).
  { destruct (contains_char 47 part); [|by injection Hs as <- _; lia].
    destruct (partition_on 47 part) as [b sr]. inv_ok. lia. }
  intros x Hx. apply py_range_elem in Hx as (i & Hi & -> & Hx); [|lia|lia].
  split; [|lia]. nia.
Qed.

Lemma parse_parts_within low high parts acc s :
  low <= high -> within low high acc -> parse_parts low high parts acc = Ok s -> within low high s.
Proof.
  intros Hlh. revert acc. induction parts as [|part parts IH]; intros acc Hacc H; simpl in H; inv_ok; [done|].
  eapply IH; [|exact H]. intros x [Hx|Hx]%elem_of_union; [by apply Hacc|].
  apply elem_of_list_to_set in Hx. by eapply parse_part_within.
Qed.

Lemma parse_field_within raw low high s any :
  low <= high -> parse_field raw low high = Ok (s, any) -> within low high s /\ s <> ∅.
Proof.
  intros Hlh H. unfold parse_field in H. case_match; [done|]. case_match.
  - injection H as <- <-. split.
    + intros x Hx. apply elem_of_list_to_set, py_range_elem in Hx as (i & ? & -> & ?); lia.
    + intros E. assert (low ∈ (∅ : gset Z)); [|set_solver]. rewrite <- E. apply elem_of_list_to_set.
      apply py_range_elem; [lia..|]. exists 0. lia.
  - inv_ok. case_match eqn:E; [done|]. injection H as <- <-. apply bool_decide_eq_false in E.
    split; [|done]. eapply parse_parts_within; [done| |done]. intros x Hx. set_solver.
Qed.

(** What a parsed expression guarantees of its fields. *)
Definition cron_ok (c : Cron) : Prop :=
  within 0 59 (minutes c) /\ within 0 23 (hours c) /\ within 1 31 (doms c) /\
  within 1 12 (months c) /\ within 0 6 (dows c) /\
  minutes c <> ∅ /\ hours c <> ∅ /\ doms c <> ∅ /\ months c <> ∅ /\ dows c <> ∅.

Lemma parse_cron_ok e c : parse_cron e = Ok c -> cron_ok c.
Proof.
  intros H. unfold parse_cron in H. repeat case_match; try done.
  repeat (apply bind_ok in H as ([? ?] & ?Hf & H)). injection H as <-.
  repeat match goal with Hf : parse_field _ _ _ = Ok _ |- _ => apply parse_field_within in Hf as [? ?]; [|lia] end.
  unfold cron_ok. cbn. split_and!; try done.
  - intros x Hx. apply elem_of_map in Hx as (v & -> & Hv). case_match; [lia|].
    match goal with Hw : within 0 7 _ |- _ => specialize (Hw _ Hv) end. lia.
  - match goal with Hw : within 0 7 ?s, Hn : ?s <> ∅ |- _ => destruct (set_choose_L _ Hn) as [v Hv] end.
    intros E. apply (not_elem_of_empty (C := gset Z) (if v =? 7 then 0 else v)). rewrite <- E.
    apply elem_of_map. by exists v.
Qed.

(** ** The search *)

Definition whole (t : moment) : Prop := m_second t = 0 /\ m_micro t = 0.

Definition fires (c : Cron) (t : moment) : Prop :=
  day_matches c (m_date t) = true /\ m_hour t ∈ hours c /\ m_minute t ∈ minutes c.

Definition above (floor : option moment) (t : moment) : Prop :=
  match floor with None => True | Some f => stamp f <= stamp t end.

Lemma stamp_day t t' :
  valid_moment t -> valid_moment t' -> ordinal (m_date t) < ordinal (m_date t') -> stamp t < stamp t'.
Proof. unfold valid_moment, stamp. lia. Qed.

Lemma next_minute_spec t :
  valid_moment t ->
  valid_moment (next_minute t) /\ whole (next_minute t) /\
  forall t', valid_moment t' -> whole t' -> (stamp t < stamp t' <-> stamp (next_minute t) <= stamp t').
Proof.
  intros (Hd & Hh & Hm & Hs & Hu). destruct (next_day_spec _ Hd) as [Hd' Ho].
  assert (Hv : valid_moment (next_minute t) /\ whole (next_minute t) /\
    stamp (next_minute t) = (((ordinal (m_date t) * 24 + m_hour t) * 60 + m_minute t + 1) * 60) * 1000000).
  { unfold next_minute. repeat case_match; unfold valid_moment, whole, stamp; cbn [m_date m_hour m_minute m_second m_micro];
      (split_and!; try done; lia). }
  destruct Hv as (Hv & Hw & E). split_and!; [done|done|]. intros t' (Hd1 & Hh1 & Hm1 & _) [Es Eu].
  rewrite E. unfold stamp. rewrite Es, Eu. lia.
Qed.

Lemma sorted_spec (s : gset Z) : StronglySorted Z.le (sorted s) /\ forall x, x ∈ sorted s <-> x ∈ s.
Proof.
  unfold sorted. split.
  - apply StronglySorted_merge_sort; apply _.
  - intros x. rewrite merge_sort_Permutation. apply elem_of_elements.
Qed.

(** Hours and minutes enumerated in order are moments in order. *)
Lemma grid_sorted d hs ms :
  StronglySorted Z.le hs -> StronglySorted Z.le ms -> (forall m, m ∈ ms -> 0 <= m <= 59) -> NoDup hs ->
  StronglySorted (fun a b => stamp a <= stamp b) ((fun hm => mkMoment d hm.1 hm.2 0 0) <$> list_prod hs ms).
Proof.
  intros Hh Hm Hr Hn. induction hs as [|h hs IH]; simpl; [constructor|].
  apply NoDup_cons in Hn as [Hn1 Hn2]. apply StronglySorted_inv in Hh as [Hh1 Hh2].
  rewrite fmap_app. apply StronglySorted_app_2; [| |by apply IH].
  - intros t1 t2 Ht1 Ht2. apply list_elem_of_fmap in Ht1 as ([h1 m1] & -> & H1).
    apply list_elem_of_fmap in Ht2 as ([h2 m2] & -> & H2).
    apply list_elem_of_In, in_map_iff in H1 as (m & [= <- <-] & Hi1).
    apply list_elem_of_In, in_prod_iff in H2 as [Hi2 Hi3].
    rewrite Forall_forall in Hh2. apply list_elem_of_In in Hi1, Hi2, Hi3.
    assert (h <> h2) by (intros ->; done). specialize (Hh2 _ Hi2). pose proof (Hr _ Hi1). pose proof (Hr _ Hi3).
    unfold stamp. cbn [m_date m_hour m_minute m_second m_micro fst snd]. lia.
  - clear -Hm. induction Hm as [|m ms Hm IH Hall]; simpl; constructor; [done|].
    apply Forall_fmap. rewrite Forall_forall in Hall. apply Forall_forall. intros [h' m'] Hin.
    apply list_elem_of_In, in_map_iff in Hin as (m'' & [= <- <-] & Hi). apply list_elem_of_In in Hi.
    specialize (Hall _ Hi). unfold stamp. cbn [m_date m_hour m_minute m_second m_micro fst snd compose]. lia.
Qed.

Lemma find_sorted {A} (R : A -> A -> Prop) (f : A -> bool) l :
  (forall x, R x x) -> StronglySorted R l ->
  match List.find f l with
  | Some x => x ∈ l /\ f x = true /\ forall y, y ∈ l -> f y = true -> R x y
  | None => forall y, y ∈ l -> f y = false
  end.
Proof.
  intros Hr. induction 1 as [|x l Hl IH Hx]; simpl; [by intros y ?%not_elem_of_nil|].
  destruct (f x) eqn:E.
  - split_and!; [left|done|]. intros y [->|Hy]%elem_of_cons _; [done|]. rewrite Forall_forall in Hx. by apply Hx.
  - destruct (List.find f l).
    + destruct IH as (? & ? & IH). split_and!; [by right|done|].
      intros y [->|Hy]%elem_of_cons Hf; [congruence|by apply IH].
    + intros y [->|Hy]%elem_of_cons; [done|by apply IH].
Qed.

Section search.
Context (c : Cron) (Hc : cron_ok c).

(** Candidate instants: whole minutes at which the expression fires. *)
Definition candidate (t : moment) : Prop := valid_moment t /\ whole t /\ fires c t.

Lemma day_scan_spec d floor :
  valid_date d -> day_matches c d = true ->
  match day_scan d floor (sorted (hours c)) (sorted (minutes c)) with
  | Some t => candidate t /\ m_date t = d /\ above floor t /\
              forall t', candidate t' -> m_date t' = d -> above floor t' -> stamp t <= stamp t'
  | None => forall t', candidate t' -> m_date t' = d -> ~ above floor t'
  end.
Proof using Hc.
  intros Hd Hm. destruct Hc as (Hmin & Hhr & _).
  destruct (sorted_spec (hours c)) as [Hhs Hhe], (sorted_spec (minutes c)) as [Hms Hme].
  set (f := fun t => match floor with None => true | Some fl => stamp fl <=? stamp t end).
  assert (Hf : forall t, f t = true <-> above floor t) by (intros t; unfold f, above; destruct floor; [lia|done]).
  assert (Hin : forall t, t ∈ (fun hm : Z * Z => mkMoment d hm.1 hm.2 0 0) <$>
      list_prod (sorted (hours c)) (sorted (minutes c)) <-> candidate t /\ m_date t = d).
  { intros t. rewrite list_elem_of_fmap. split.
    - intros ([h m] & -> & Hi). apply list_elem_of_In, in_prod_iff in Hi as [Hi1 Hi2].
      apply list_elem_of_In in Hi1, Hi2. rewrite Hhe in Hi1. rewrite Hme in Hi2.
      pose proof (Hmin _ Hi2). pose proof (Hhr _ Hi1).
      unfold candidate, valid_moment, whole, fires. cbn. split_and!; try done; lia.
    - intros ((Hv & [Hs Hu] & _ & Hh & Hmi) & <-). exists (m_hour t, m_minute t). split.
      + destruct t; cbn in *. by subst.
      + apply list_elem_of_In, in_prod_iff. split; apply list_elem_of_In; [by apply Hhe|by apply Hme]. }
  assert (Hs := grid_sorted d _ _ Hhs Hms (fun m H => Hmin m (proj1 (Hme m) H))).
  specialize (Hs ltac:(unfold sorted; rewrite merge_sort_Permutation; apply NoDup_elements)).
  pose proof (find_sorted _ f _ (fun x => Z.le_refl _) Hs) as Hfind.
  unfold day_scan. fold f. destruct (List.find f _) as [t|].
  - destruct Hfind as (H1 & H2 & H3). apply Hin in H1 as [H1 H1d]. apply Hf in H2.
    split_and!; try done. intros t' Ht' Hd' Ha. apply H3; [by apply Hin|by apply Hf].
  - intros t' Ht' Hd' Ha. apply Hf in Ha. rewrite Hfind in Ha; [done|]. by apply Hin.
Qed.

Lemma day_loop_spec n : forall d floor,
  valid_date d ->
  match day_loop c (sorted (hours c)) (sorted (minutes c)) d floor n with
  | Some t => candidate t /\ ordinal d <= ordinal (m_date t) /\ (m_date t = d -> above floor t) /\
              forall t', candidate t' -> ordinal d <= ordinal (m_date t') -> (m_date t' = d -> above floor t') ->
                         stamp t <= stamp t'
  | None => forall t', candidate t' -> ordinal d <= ordinal (m_date t') -> (m_date t' = d -> above floor t') ->
                       ordinal d + Z.of_nat n <= ordinal (m_date t')
  end.
Proof using Hc.
  induction n as [|n IH]; intros d floor Hd; simpl; [intros; lia|].
  destruct (next_day_spec d Hd) as [Hd' Ho]. specialize (IH (next_day d) None Hd').
  assert (Hlater : forall t', candidate t' -> ordinal d <= ordinal (m_date t') -> m_date t' <> d ->
    ordinal (next_day d) <= ordinal (m_date t')).
  { intros t' ((Hv & _) & _) Hle Hne. destruct (decide (ordinal d = ordinal (m_date t'))) as [E|E]; [|lia].
    destruct Hne. symmetry. by apply ordinal_inj. }
  destruct (if day_matches c d then _ else _) as [t|] eqn:Escan.
  - destruct (day_matches c d) eqn:Em; [|done]. assert (Hscan := day_scan_spec d floor Hd Em). rewrite Escan in Hscan.
    destruct Hscan as (Ht & Hdt & Ha & Hmin). split_and!; [done|rewrite Hdt; lia|done|].
    intros t' Ht' Hle Hab. destruct (decide (m_date t' = d)) as [E|E]; [by apply Hmin; auto|].
    specialize (Hlater t' Ht' Hle E).
    pose proof (stamp_day t t' (proj1 Ht) (proj1 Ht') ltac:(rewrite Hdt; lia)). lia.
  - assert (Hno : forall t', candidate t' -> m_date t' = d -> ~ above floor t').
    { intros t' Ht' E. destruct (day_matches c d) eqn:Em.
      - assert (Hscan := day_scan_spec d floor Hd Em). rewrite Escan in Hscan. by apply Hscan.
      - destruct Ht' as (_ & _ & Hf & _). congruence. }
    assert (Hnext : forall t', candidate t' -> ordinal d <= ordinal (m_date t') ->
      (m_date t' = d -> above floor t') -> ordinal (next_day d) <= ordinal (m_date t')).
    { intros t' Ht' Hle Hab. apply Hlater; [done|done|]. intros E. by apply (Hno t'); auto. }
    destruct (day_loop _ _ _ _ _ _) as [t|].
    + destruct IH as (Ht & Hle & _ & Hmin). split_and!; [done|lia|intros E; rewrite E in Hle; lia|].
      intros t' Ht' Hle' Hab. by apply Hmin; auto.
    + intros t' Ht' Hle Hab. specialize (IH t' Ht' (Hnext t' Ht' Hle Hab) (fun _ => I)). lia.
Qed.

End search.

Lemma next_cron_bad e err after : parse_cron e = Err err -> next_cron e after = Err err.
Proof. intros H. unfold next_cron. by rewrite H. Qed.

Lemma next_cron_ok e c after :
  valid_moment after -> parse_cron e = Ok c ->
  match next_cron e after with
  | Ok t => candidate c t /\ stamp after < stamp t /\
            forall t', candidate c t' -> stamp after < stamp t' -> stamp t <= stamp t'
  | Err err => err = NoRun /\
            forall t', candidate c t' -> stamp after < stamp t' ->
              ordinal (m_date (next_minute after)) + Z.of_nat SEARCH_LIMIT_DAYS <= ordinal (m_date t')
  end.
Proof.
  intros Ha Hp. unfold next_cron. rewrite Hp. cbn [mbind res_bind].
  destruct (next_minute_spec _ Ha) as (Hv & Hw & Hnext). set (start := next_minute after) in *.
  assert (Hge : forall t', candidate c t' -> stamp after < stamp t' ->
    ordinal (m_date start) <= ordinal (m_date t') /\ above (Some start) t').
  { intros t' Ht' Hlt. apply Hnext in Hlt; [|apply Ht'..]. split; [|done].
    destruct (Z.le_gt_cases (ordinal (m_date start)) (ordinal (m_date t'))) as [|Hgt]; [done|].
    pose proof (stamp_day t' start (proj1 Ht') Hv ltac:(lia)). lia. }
  pose proof (day_loop_spec c (parse_cron_ok _ _ Hp) SEARCH_LIMIT_DAYS (m_date start) (Some start) (proj1 Hv)) as Hloop.
  destruct (day_loop _ _ _ _ _ _) as [t|]; cbn [of_option].
  - destruct Hloop as (Ht & Hle & Hab & Hmin). split_and!; [done| |].
    + apply Hnext; [apply Ht..|]. destruct (decide (m_date t = m_date start)) as [E|E]; [by apply Hab|].
      destruct (decide (ordinal (m_date start) = ordinal (m_date t))) as [E'|E'].
      * destruct E. symmetry. apply ordinal_inj; [apply Hv|apply Ht|done].
      * pose proof (stamp_day start t Hv (proj1 Ht) ltac:(lia)). lia.
    + intros t' Ht' Hlt. destruct (Hge t' Ht' Hlt). by apply Hmin.
  - split; [done|]. intros t' Ht' Hlt. destruct (Hge t' Ht' Hlt). by apply Hloop.
Qed.

(** ** Properties *)

(** [next_cron] returns the first instant strictly after
    [after] at which the expression fires -- a whole minute whose hour, minute
    and day match, with no earlier one -- and raises only when no such instant
    lies within [SEARCH_LIMIT_DAYS] days. *)
Theorem next_cron_spec e c after :
  valid_moment after -> parse_cron e = Ok c ->
  match next_cron e after with
  | Ok t => candidate c t /\ stamp after < stamp t /\
            forall t', candidate c t' -> stamp after < stamp t' -> stamp t <= stamp t'
  | Err err => err = NoRun /\
            forall t', candidate c t' -> stamp after < stamp t' ->
              ordinal (m_date (next_minute after)) + Z.of_nat SEARCH_LIMIT_DAYS <= ordinal (m_date t')
  end.
Proof. apply next_cron_ok. Qed.

Lemma next_cron_spec_witness :
  exists c t, parse_cron (str "*/15 8-9 1 * 1") = Ok c /\
    next_cron (str "*/15 8-9 1 * 1") (mkMoment (mkDate 2026 2 28) 23 59 30 5) = Ok t /\ candidate c t.
Proof.
  destruct (parse_cron (str "*/15 8-9 1 * 1")) as [c|] eqn:Hc; [|by vm_compute in Hc].
  pose proof (next_cron_spec (str "*/15 8-9 1 * 1") c (mkMoment (mkDate 2026 2 28) 23 59 30 5)) as H.
  specialize (H ltac:(unfold valid_moment, valid_date; vm_compute; intuition congruence) Hc).
  destruct (next_cron _ _) as [t|] eqn:Ht; [|by vm_compute in Ht].
  exists c, t. exact (conj eq_refl (conj eq_refl (proj1 H))).
Defined.

(** Every field of a parsed expression is a non-empty set inside
    its range, with Sunday normalised to 0; so the hours and minutes handed to
    [datetime.time] are always legal. *)
Theorem parse_cron_bounds e c : parse_cron e = Ok c -> cron_ok c.
Proof. exact (parse_cron_ok e c). Qed.

Lemma parse_cron_bounds_witness :
  exists c, parse_cron (str "0,30 */6 1-15 1-12/3 5-7") = Ok c /\ cron_ok c.
Proof.
  destruct (parse_cron (str "0,30 */6 1-15 1-12/3 5-7")) as [c|] eqn:Hc; [|by vm_compute in Hc].
  exists c. split; [done|]. exact (parse_cron_bounds _ _ Hc).
Defined.
