(* ===== verification/Json.v ===== *)
(** * JSON frames

    The values [json.loads] produces, and the dynamic checks the code makes on
    them.  A frame is a dict with string keys. *)

From S2P Require Import Prelude PyDict.
From Stdlib Require Import Floats.SpecFloat.

Inductive json :=
| JNull
| JBool (b : bool)
| JInt (n : Z)
| JFloat (f : spec_float)
| JStr (s : pystr)
| JArr (l : list json)
| JObj (d : list (list Z * json)).

Abbreviation frame := (list (list Z * json)) (only parsing).

(** [frame.get(k)] *)
Definition jget (k : string) (f : frame) : json := default JNull (dict_get (str k) f).

(** [k in frame] *)
Definition jhas (k : string) (f : frame) : bool := bool_decide (is_Some (dict_get (str k) f)).

(** [isinstance(v, int)]: [bool] is a subclass of [int]. *)
Definition as_int (v : json) : option Z :=
  match v with
  | JInt n => Some n
  | JBool b => Some (if b then 1 else 0)
  | _ => None
  end.

Definition is_jbool (v : json) : bool := match v with JBool _ => true | _ => false end.
Definition is_null (v : json) : bool := match v with JNull => true | _ => false end.

Definition as_str (v : json) : option pystr := match v with JStr s => Some s | _ => None end.

(** [bool(v)] *)
Definition truthy (v : json) : bool :=
  match v with
  | JNull => false
  | JBool b => b
  | JInt n => negb (n =? 0)
  | JFloat f => match f with S754_zero _ => false | _ => true end
  | JStr s => negb (bool_decide (s = []))
  | JArr l => match l with [] => false | _ => true end
  | JObj d => match d with [] => false | _ => true end
  end.

(** [v is True], [v is False] *)
Definition is_true (v : json) : bool := match v with JBool b => b | _ => false end.
Definition is_false (v : json) : bool := match v with JBool b => negb b | _ => false end.

(** The object a frame's field holds. *)
Definition opt_json (o : option json) : json := default JNull o.
Definition jopt_str (o : option pystr) : json := match o with Some s => JStr s | None => JNull end.

(** [a == b] on a float and an integer: exact. *)
Definition float_eq_int (f : spec_float) (n : Z) : bool :=
  match f with
  | S754_zero _ => n =? 0
  | S754_finite s m e =>
      let m := if s then Zneg m else Zpos m in
      if 0 <=? e then m * 2 ^ e =? n else m =? n * 2 ^ (- e)
  | _ => false
  end.

(** [a == b] on JSON values: booleans are integers, dicts are unordered. *)
Fixpoint py_eq (a b : json) {struct a} : bool :=
  match a, b with
  | JNull, JNull => true
  | JStr s, JStr t => bool_decide (s = t)
  | JArr l, JArr r =>
      (fix all2 (l r : list json) : bool :=
         match l, r with
         | [], [] => true
         | x :: l, y :: r => py_eq x y && all2 l r
         | _, _ => false
         end) l r
  | JObj d, JObj e =>
      (length d =? length e)%nat &&
      (fix sub (d : list (list Z * json)) : bool :=
         match d with
         | [] => true
         | (k, x) :: d => match dict_get k e with Some y => py_eq x y | None => false end && sub d
         end) d
  | JFloat f, JFloat g => SFeqb f g
  | JFloat f, _ => match as_int b with Some n => float_eq_int f n | None => false end
  | _, JFloat g => match as_int a with Some n => float_eq_int g n | None => false end
  | _, _ => match as_int a, as_int b with Some m, Some n => m =? n | _, _ => false end
  end.

(** [frame.get(k, d)] *)
Definition jget_or (k : string) (d : json) (f : frame) : json := default d (dict_get (str k) f).

(** [v == "..."] and [v in ("...", ...)] against a string. *)
Definition jis (s : string) (v : json) : bool := match v with JStr t => bool_decide (t = str s) | _ => false end.
