(* ===== verification/Store.v ===== *)
(** * The agent's durable store (agent/src/air780e_agent/store.py)

    The SQLite tables as lists of rows in key order: the outbound event queue
    with its AUTOINCREMENT generator, the command journal, the keep-alive tasks
    and the key/value table.  [json.loads (json.dumps v)] is [v]; timestamps
    that nothing reads back (created_at, updated_at) are left out.  The request
    hash, SHA-256 of the canonical JSON, and the random stream label are
    arguments. *)

From S2P Require Import Prelude PyText PyDict Json.

Module Store.

(** ** Rows *)

Record Event := mkEvent { seq : Z; kind : pystr; payload : frame }.

Record event_row := mkEventRow { ev : Event; acked : bool }.

Record command_run := mkRun {
  r_hash : pystr; r_frame : frame; r_status : pystr; r_result : option frame }.

(** The columns of a keep-alive task the server's payload sets. *)
Record TaskSpec := mkTaskSpec {
  t_device : pystr; t_name : pystr; t_enabled : bool; t_action : pystr;
  t_target_number : pystr; t_content : pystr;
  t_schedule_type : pystr; t_schedule_expr : pystr; t_jitter_seconds : Z;
  t_random_suffix : bool; t_retry_max : Z; t_notify_on_result : bool }.

Record task_row := mkTask { t_spec : TaskSpec; last_run_at : option pystr; next_run_at : option pystr }.

Record LocalStore := mkStore {
  events : list event_row;          (* by seq *)
  events_seq : Z;                   (* sqlite_sequence for events *)
  command_runs : pydict (list Z) command_run;
  tasks : gmap Z task_row;
  kv : gmap (list Z) (list Z) }.

Definition set_events (es : list event_row) (s : LocalStore) : LocalStore :=
  mkStore es (events_seq s) (command_runs s) (tasks s) (kv s).
Definition set_runs (rs : pydict (list Z) command_run) (s : LocalStore) : LocalStore :=
  mkStore (events s) (events_seq s) rs (tasks s) (kv s).
Definition set_tasks (ts : gmap Z task_row) (s : LocalStore) : LocalStore :=
  mkStore (events s) (events_seq s) (command_runs s) ts (kv s).

Definition STREAM_ID_KEY : pystr := str "stream_id".
Definition TASK_REVISION_KEY : pystr := str "tasks_revision".

(** [Event.to_frame]: later keys of the payload override the first two. *)
Definition to_frame (e : Event) : frame :=
  foldl (fun f kv => dict_set kv.1 kv.2 f)
    [(str "type", JStr (kind e)); (str "seq", JInt (seq e))] (payload e).

(** ** Key/value *)

Definition get (key : pystr) (s : LocalStore) : option pystr := kv s !! key.
Definition set (key value : pystr) (s : LocalStore) : LocalStore :=
  mkStore (events s) (events_seq s) (command_runs s) (tasks s) (<[key := value]> (kv s)).

(** ** Outbound queue *)

Definition row_seq (r : event_row) : Z := seq (ev r).
Definition is_unacked (r : event_row) : Prop := acked r = false.
#[export] Instance is_unacked_dec r : Decision (is_unacked r).
Proof. unfold is_unacked. apply _. Defined.

Definition append_event (k : pystr) (p : frame) (s : LocalStore) : Event * LocalStore :=
  let e := mkEvent (events_seq s + 1) k p in
  (e, mkStore (events s ++ [mkEventRow e false]) (events_seq s + 1) (command_runs s) (tasks s) (kv s)).

Definition unacked_events (limit : nat) (s : LocalStore) : list Event :=
  take limit (ev <$> filter is_unacked (events s)).

Definition events_from (from : Z) (limit : nat) (s : LocalStore) : list Event :=
  take limit (ev <$> filter (fun r => from <= row_seq r) (events s)).

Definition ack_through (n : Z) (s : LocalStore) : Z * LocalStore :=
  let hit r := negb (acked r) && (row_seq r <=? n) in
  let marked := (fun r => mkEventRow (ev r) (acked r || hit r)) <$> events s in
  (Z.of_nat (length (filter (fun r => hit r = true) (events s))),
   set_events (filter (fun r => ~ (acked r = true /\ row_seq r <= n)) marked) s).

Definition unacked_count (s : LocalStore) : Z := Z.of_nat (length (filter is_unacked (events s))).

Definition last_seq (s : LocalStore) : Z :=
  match last (events s) with Some r => row_seq r | None => events_seq s end.

Definition stream_id (s : LocalStore) : pystr := default [] (get STREAM_ID_KEY s).

Definition ensure_stream_id (token : pystr) (s : LocalStore) : LocalStore :=
  match get STREAM_ID_KEY s with
  | Some _ => s
  | None => set STREAM_ID_KEY (if last_seq s =? 0 then token else []) s
  end.

Definition is_status (r : event_row) : bool := bool_decide (kind (ev r) = str "status").

(** The seqs of the [excess] oldest unacked status events. *)
Definition trim_victims (excess : nat) (s : LocalStore) : list Z :=
  row_seq <$> take excess (filter (fun r => acked r = false /\ is_status r = true) (events s)).

Definition trim_events (keep : Z) (s : LocalStore) : Z * LocalStore :=
  let excess := unacked_count s - keep in
  if excess <=? 0 then (0, s)
  else
    let victims := trim_victims (Z.to_nat excess) s in
    (Z.of_nat (length victims), set_events (filter (fun r => row_seq r ∉ victims) (events s)) s).

(** [App.emit]: append, then trim to the configured bound. *)
Definition emit (max_queued : Z) (k : pystr) (p : frame) (s : LocalStore) : LocalStore :=
  (trim_events max_queued (append_event k p s).2).2.

(** ** Command journal *)

Inductive claim := conflict | replayed | running | new_.

#[export] Instance claim_eq_dec : EqDecision claim.
Proof. solve_decision. Defined.

Section journal.
Context (request_hash : frame -> pystr).

Definition cmd_id_of (f : frame) : pystr := default [] (as_str (jget "cmd_id" f)).

Definition begin_command (f : frame) (s : LocalStore) : claim * LocalStore :=
  match dict_get (cmd_id_of f) (command_runs s) with
  | Some run =>
      if negb (bool_decide (r_hash run = request_hash f)) then (conflict, s)
      else match r_result run with
           | Some result => (replayed, (append_event (str "cmd_result") result s).2)
           | None => (running, s)
           end
  | None =>
      (new_, set_runs (dict_set (cmd_id_of f) (mkRun (request_hash f) f (str "running") None)
                         (command_runs s)) s)
  end.

Definition result_payload (f : frame) (status : pystr) (data : json) (error : option pystr) : frame :=
  [ (str "cmd_id", jget "cmd_id" f); (str "device", jget "device" f);
    (str "result_token", jget "result_token" f); (str "run_id", jget "run_id" f);
    (str "imei", default (JStr []) (dict_get (str "expected_imei") f));
    (str "iccid", default (JStr []) (dict_get (str "expected_iccid") f));
    (str "status", JStr status); (str "ok", JBool (bool_decide (status = str "succeeded")));
    (str "data", data); (str "error", jopt_str error) ].

(** One transaction: the status update and its result event. *)
Definition finish_command (f : frame) (status : pystr) (data : json) (error : option pystr)
    (s : LocalStore) : LocalStore :=
  let p := result_payload f status data error in
  match dict_get (cmd_id_of f) (command_runs s) with
  | Some run =>
      if bool_decide (r_status run = str "running") then
        (append_event (str "cmd_result") p
           (set_runs (dict_set (cmd_id_of f) (mkRun (r_hash run) (r_frame run) status (Some p))
                        (command_runs s)) s)).2
      else s
  | None => s
  end.

Definition restart_error : pystr :=
  str "agent restarted after command started; execution result is unknown".

(** On opening the store, every command left running is finished as unknown. *)
Definition recover_commands (s : LocalStore) : LocalStore :=
  foldl (fun s f => finish_command f (str "unknown") JNull (Some restart_error) s) s
    (r_frame <$> filter (fun r => r_status r = str "running") (dict_values (command_runs s))).

(** [LocalStore.__init__] on an existing database file. *)
Definition open_store (token : pystr) (s : LocalStore) : LocalStore :=
  recover_commands (ensure_stream_id token s).

End journal.

(** A database file that has never been used. *)
Definition fresh_db : LocalStore := mkStore [] 0 [] ∅ ∅.

(** ** Tasks *)

Record IncomingTask := mkIncoming { in_id : json; in_spec : TaskSpec }.

Inductive store_exn := ValueError.

(** [type(task_id) is int]: a [bool] is refused here. *)
Definition strict_int (v : json) : option Z := match v with JInt n => Some n | _ => None end.

Fixpoint check_ids (keep : list Z) (incoming : list IncomingTask) : res store_exn (list (Z * TaskSpec)) :=
  match incoming with
  | [] => Ok []
  | t :: rest =>
      match strict_int (in_id t) with
      | Some n =>
          if (n <=? 0) || bool_decide (n ∈ keep) then Err ValueError
          else l ← check_ids (n :: keep) rest; Ok ((n, in_spec t) :: l)
      | None => Err ValueError
      end
  end.

Definition schedule_changed (ts : gmap Z task_row) (id : Z) (v : TaskSpec) : bool :=
  match ts !! id with
  | None => false
  | Some row =>
      negb (bool_decide (t_schedule_type (t_spec row) = t_schedule_type v))
      || negb (bool_decide (t_schedule_expr (t_spec row) = t_schedule_expr v))
      || negb (t_jitter_seconds (t_spec row) =? t_jitter_seconds v)
  end.

(** INSERT ... ON CONFLICT(id) DO UPDATE. *)
Definition upsert_task (ts : gmap Z task_row) (id : Z) (v : TaskSpec) : gmap Z task_row :=
  <[id := match ts !! id with
          | None => mkTask v None None
          | Some row => mkTask v (last_run_at row) (if schedule_changed ts id v then None else next_run_at row)
          end]> ts.

Definition replace_tasks (incoming : list IncomingTask) (revision sync_id : pystr) (s : LocalStore) :
    res store_exn (Z * LocalStore) :=
  rows ← check_ids [] incoming;
  let kept := filter (fun kv : Z * task_row => kv.1 ∈ rows.*1) (tasks s) in
  let ts := foldl (fun ts row => upsert_task ts row.1 row.2) kept rows in
  let s := set TASK_REVISION_KEY revision (set_tasks ts s) in
  let count := Z.of_nat (length incoming) in
  let s := if bool_decide (sync_id = []) then s
           else (append_event (str "tasks_applied")
                   [ (str "sync_id", JStr sync_id); (str "revision", JStr revision);
                     (str "ok", JBool true); (str "count", JInt count) ] s).2 in
  Ok (count, s).

Definition task (id : Z) (s : LocalStore) : option task_row := tasks s !! id.

Definition mark_task_run (id : Z) (last_run next_run : option pystr) (s : LocalStore) : LocalStore :=
  set_tasks (alter (fun r => mkTask (t_spec r) last_run next_run) id (tasks s)) s.

Definition set_task_next_run (id : Z) (next_run : option pystr) (s : LocalStore) : LocalStore :=
  set_tasks (alter (fun r => mkTask (t_spec r) (last_run_at r) next_run) id (tasks s)) s.

(** ** The queue invariant *)

Definition row_lt (a b : event_row) : Prop := row_seq a < row_seq b.

Definition queue_ok (s : LocalStore) : Prop :=
  StronglySorted row_lt (events s) /\
  Forall (fun r => 1 <= row_seq r <= events_seq s /\ acked r = false) (events s) /\ 0 <= events_seq s.

Lemma queue_ok_filter (P : event_row -> Prop) `{forall x, Decision (P x)} s :
  queue_ok s -> queue_ok (set_events (filter P (events s)) s).
Proof.
  intros (Hs & Hf & Hn). split_and!; simpl; [by apply StronglySorted_filter|by apply Forall_filter|done].
Qed.

Lemma queue_ok_fresh : queue_ok fresh_db.
Proof. split_and!; simpl; [constructor|constructor|lia]. Qed.

Lemma queue_ok_append k p s : queue_ok s -> queue_ok (append_event k p s).2.
Proof.
  intros (Hs & Hf & Hn). split_and!; simpl; [|..|lia].
  - apply StronglySorted_app_2; [|done|repeat constructor]. intros a b Ha ->%list_elem_of_singleton.
    rewrite Forall_forall in Hf. apply Hf in Ha. unfold row_lt, row_seq in *. simpl. lia.
  - apply Forall_app. split; [|by apply Forall_singleton; unfold row_seq; simpl; lia].
    eapply Forall_impl; [exact Hf|]. simpl. intros; lia.
Qed.

Lemma ack_through_rows n s :
  queue_ok s -> (ack_through n s).2 = set_events (filter (fun r => n < row_seq r) (events s)) s /\
  (ack_through n s).1 = Z.of_nat (length (filter (fun r => row_seq r <= n) (events s))).
Proof.
  intros (_ & Hf & _). unfold ack_through. cbn [fst snd]. split.
  - f_equal. induction Hf as [|r l [Hr Ha] Hl IH]; [done|]. rewrite fmap_cons, !filter_cons.
    unfold row_seq in *. cbn [acked ev]. rewrite Ha. cbn [orb negb andb].
    destruct (decide (n < seq (ev r))) as [Hlt|Hge].
    + rewrite decide_True by (intros [? ?]; lia). replace (seq (ev r) <=? n) with false by lia.
      rewrite IH. f_equal. destruct r. simpl in *. by subst.
    + rewrite decide_False; [done|]. intros H. apply H. lia.
  - do 2 f_equal. apply filter_ext_in. intros r Hr.
    rewrite Forall_forall in Hf. destruct (Hf _ Hr) as [_ ->]. simpl. lia.
Qed.

(** ** Task replacement *)

(** The row an upsert leaves, from the row that was there. *)
Definition upserted (old : option task_row) (v : TaskSpec) : task_row :=
  match old with
  | None => mkTask v None None
  | Some row =>
      mkTask v (last_run_at row)
        (if bool_decide (t_schedule_type (t_spec row) = t_schedule_type v /\
                         t_schedule_expr (t_spec row) = t_schedule_expr v /\
                         t_jitter_seconds (t_spec row) = t_jitter_seconds v)
         then next_run_at row else None)
  end.

Lemma upsert_task_lookup ts id v id' :
  upsert_task ts id v !! id' = if decide (id = id') then Some (upserted (ts !! id) v) else ts !! id'.
Proof.
  unfold upsert_task, upserted, schedule_changed. case_decide as E; [subst|by rewrite lookup_insert_ne].
  rewrite lookup_insert_eq. destruct (ts !! id') as [row|] eqn:Er; [|done]. do 2 f_equal.
  repeat case_bool_decide; destruct (Z.eqb_spec (t_jitter_seconds (t_spec row)) (t_jitter_seconds v));
    simpl; naive_solver.
Qed.

Lemma upsert_all ts rows id :
  NoDup rows.*1 ->
  foldl (fun ts row => upsert_task ts row.1 row.2) ts rows !! id =
  match dict_get id rows with Some v => Some (upserted (ts !! id) v) | None => ts !! id end.
Proof.
  revert ts. induction rows as [|[id' v'] rows IH]; intros ts Hn; simpl; [done|].
  rewrite fmap_cons in Hn. apply NoDup_cons in Hn as [Hni Hn]. rewrite IH by done. rewrite !upsert_task_lookup.
  destruct (decide (id = id')) as [->|Hne].
  - rewrite decide_True by done. destruct (dict_get id' rows) as [v|] eqn:E; [|done].
    destruct Hni. apply (list_elem_of_fmap_2 fst rows (id', v)). by apply dict_get_Some_in.
  - by rewrite decide_False by done.
Qed.

Lemma check_ids_spec keep incoming :
  match check_ids keep incoming with
  | Ok rows => in_id <$> incoming = JInt <$> rows.*1 /\ in_spec <$> incoming = rows.*2 /\
               NoDup rows.*1 /\ forall id, id ∈ rows.*1 -> 0 < id /\ id ∉ keep
  | Err _ => ~ exists ids, in_id <$> incoming = JInt <$> ids /\ NoDup ids /\
                           forall id, id ∈ ids -> 0 < id /\ id ∉ keep
  end.
Proof.
  revert keep. induction incoming as [|t rest IH]; intros keep; cbn [check_ids]; rewrite ?fmap_cons.
  { split_and!; [done|done|apply NoDup_nil_2|]. by intros id ?%not_elem_of_nil. }
  assert (Hbad : (forall n, in_id t = JInt n -> n <= 0 \/ n ∈ keep) ->
    ~ exists ids, in_id t :: (in_id <$> rest) = JInt <$> ids /\ NoDup ids /\
                  forall id, id ∈ ids -> 0 < id /\ id ∉ keep).
  { intros Hb ([|n ids] & [=] & _ & Hi). destruct (Hb n) as [?|?]; [done|..];
      destruct (Hi n ltac:(left)); [lia|done]. }
  destruct (in_id t) as [| |n| | | |] eqn:En; cbn [strict_int]; try (apply Hbad; intros ? [=]).
  destruct (Z.leb_spec n 0); cbn [orb]; [apply Hbad; intros ? [= ->]; by left|].
  case_bool_decide as Hk; [apply Hbad; intros ? [= ->]; by right|].
  specialize (IH (n :: keep)). destruct (check_ids (n :: keep) rest) as [rows|]; cbn [mbind res_bind].
  - destruct IH as (H1 & H2 & H3 & H4). rewrite !fmap_cons. cbn [fst snd]. split_and!.
    + by rewrite H1.
    + by rewrite H2.
    + constructor; [|done]. intros Hin. apply H4 in Hin as [_ Hin]. apply Hin. by left.
    + intros id [->|Hin]%elem_of_cons; [done|]. apply H4 in Hin. set_solver.
  - intros ([|n' ids] & [= <- E] & Hn & Hi). apply NoDup_cons in Hn as [Hn1 Hn2]. apply IH.
    exists ids. split_and!; [done|done|]. intros id Hin. destruct (Hi id ltac:(by right)).
    split; [done|]. set_solver.
Qed.

(** ** Properties of the queue and the tasks *)

(** A cumulative acknowledgement removes exactly the queued
    events up to [n], reports how many, and frees no sequence number: the next
    event's number is still above every number ever handed out. *)
Theorem ack_through_spec n k p s :
  queue_ok s ->
  let '(count, s') := ack_through n s in
  queue_ok s' /\
  (forall r, r ∈ events s' <-> r ∈ events s /\ n < row_seq r) /\
  count = Z.of_nat (length (events s)) - Z.of_nat (length (events s')) /\
  seq (append_event k p s').1 = seq (append_event k p s).1 /\
  Forall (fun r => row_seq r < seq (append_event k p s').1) (events s).
Proof.
  intros Hq. destruct (ack_through_rows n s Hq) as [E1 E2]. destruct (ack_through n s) as [count s']. simpl in E1, E2.
  subst s' count. split_and!; [by apply queue_ok_filter| | |done|].
  - intros r. simpl. rewrite list_elem_of_filter. naive_solver.
  - simpl. clear. induction (events s) as [|r l IH]; [done|]. rewrite !filter_cons.
    repeat case_decide; simpl; lia.
  - destruct Hq as (_ & Hf & _). eapply Forall_impl; [exact Hf|]. simpl. intros r [? _]. lia.
Qed.

Lemma ack_through_spec_witness :
  let s := (append_event (str "sms_in") [] (append_event (str "status") [] fresh_db).2).2 in
  queue_ok s /\ (forall r, r ∈ events (ack_through 1 s).2 <-> r ∈ events s /\ 1 < row_seq r).
Proof.
  cbn zeta. set (s := (append_event (str "sms_in") [] (append_event (str "status") [] fresh_db).2).2).
  assert (Hq : queue_ok s) by (apply queue_ok_append, queue_ok_append, queue_ok_fresh).
  split; [exact Hq|]. exact (proj1 (proj2 (ack_through_spec 1 [] [] s Hq))).
Defined.

Lemma row_seq_inj s r r' : queue_ok s -> r ∈ events s -> r' ∈ events s -> row_seq r = row_seq r' -> r = r'.
Proof.
  intros (Hs & _) Hr Hr' E. induction Hs as [|x l Hs IH Hx]; [by apply not_elem_of_nil in Hr|].
  rewrite Forall_forall in Hx.
  apply elem_of_cons in Hr as [->|Hr], Hr' as [->|Hr']; [done| | |by apply IH];
    [apply Hx in Hr'|apply Hx in Hr]; unfold row_lt in *; lia.
Qed.

Lemma queue_nodup s : queue_ok s -> NoDup (row_seq <$> events s).
Proof.
  intros (Hs & _). induction Hs as [|x l Hs IH Hx]; [apply NoDup_nil_2|]. rewrite fmap_cons.
  constructor; [|done]. intros (r & E & Hr)%list_elem_of_fmap. rewrite Forall_forall in Hx.
  apply Hx in Hr. unfold row_lt in *. lia.
Qed.

(** What trimming may remove, row by row. *)
Lemma trim_rows keep s :
  queue_ok s ->
  let s' := (trim_events keep s).2 in
  queue_ok s' /\ events_seq s' = events_seq s /\ kv s' = kv s /\
  (forall r, r ∈ events s' -> r ∈ events s) /\
  (forall r, r ∈ events s -> r ∈ events s' \/ is_status r = true).
Proof.
  intros Hq. unfold trim_events. destruct (Z.leb_spec (unacked_count s - keep) 0); cbn [snd fst].
  { split_and!; try done. by left. }
  set (vs := trim_victims _ s). split_and!; [by apply queue_ok_filter|done|done| |].
  - intros r [_ Hr]%list_elem_of_filter. done.
  - intros r Hr. destruct (decide (row_seq r ∈ vs)) as [Hv|Hv]; [right|left; by apply list_elem_of_filter].
    unfold vs, trim_victims in Hv. apply list_elem_of_fmap in Hv as (r' & E & Hr').
    apply elem_of_take in Hr' as (i & Hi & _). apply list_elem_of_lookup_2, list_elem_of_filter in Hi as [[_ Hs] Hr'].
    by rewrite (row_seq_inj s r r').
Qed.

Lemma trim_filter keep s (Q : event_row -> Prop) `{forall r, Decision (Q r)} :
  queue_ok s -> (forall r, Q r -> is_status r = false) ->
  filter Q (events (trim_events keep s).2) = filter Q (events s).
Proof.
  intros Hq HQ. unfold trim_events. destruct (Z.leb_spec (unacked_count s - keep) 0); cbn [snd]; [done|].
  cbn [set_events events]. set (vs := trim_victims _ s). rewrite list_filter_filter.
  apply filter_ext_in. intros r Hr. split; [by intros [? _]|]. intros HQr. split; [done|].
  intros Hv. unfold vs, trim_victims in Hv. apply list_elem_of_fmap in Hv as (r' & E & Hr').
  apply elem_of_take in Hr' as (i & Hi & _). apply list_elem_of_lookup_2, list_elem_of_filter in Hi as [[_ Hs] Hr'].
  rewrite <- (row_seq_inj s r r') in Hs by done. apply HQ in HQr. congruence.
Qed.

Lemma filter_not_length {A} (f : A -> Z) l vs :
  NoDup (f <$> l) -> NoDup vs -> (forall v, v ∈ vs -> v ∈ f <$> l) ->
  (length (filter (fun x => f x ∉ vs) l) + length vs = length l)%nat.
Proof.
  intros Hl Hv Hsub.
  assert (Hp : f <$> filter (fun x => f x ∈ vs) l ≡ₚ vs).
  { apply NoDup_Permutation; [|done|].
    - eapply sublist_NoDup; [exact Hl|]. apply fmap_filter_sublist.
    - intros v. rewrite list_elem_of_fmap. setoid_rewrite list_elem_of_filter. split; [naive_solver|].
      intros Hin. destruct (proj1 (list_elem_of_fmap _ _ _) (Hsub v Hin)) as (x & -> & Hx). by exists x. }
  rewrite <- (Permutation_length Hp), length_fmap. clear.
  induction l as [|x l IH]; [done|]. rewrite !filter_cons. repeat case_decide; simpl; try lia; done.
Qed.

Lemma StronglySorted_take_drop {A} (R : A -> A -> Prop) n l x y :
  StronglySorted R l -> x ∈ take n l -> y ∈ drop n l -> R x y.
Proof. intros Hs. rewrite <- (take_drop n l) in Hs. by apply StronglySorted_app_1_elem_of. Qed.

(** Trimming a queue that has run away drops only status events,
    the oldest first, no more than the excess; every other event stays. *)
Theorem trim_keeps_messages keep s :
  queue_ok s ->
  let '(dropped, s') := trim_events keep s in
  queue_ok s' /\ events_seq s' = events_seq s /\
  (forall r, r ∈ events s -> is_status r = false -> r ∈ events s') /\
  (forall r, r ∈ events s' -> r ∈ events s) /\
  dropped = unacked_count s - unacked_count s' /\
  (keep <= unacked_count s' \/ dropped = 0) /\
  (forall r r', r ∈ events s -> r ∉ events s' -> r' ∈ events s' -> is_status r' = true -> row_seq r < row_seq r').
Proof.
  intros Hq. unfold trim_events. set (ex := unacked_count s - keep).
  destruct (Z.leb_spec ex 0).
  { split_and!; try done; [lia|by right]. }
  assert (Hst : filter (fun r => acked r = false /\ is_status r = true) (events s) =
                filter (fun r => is_status r = true) (events s)).
  { apply filter_ext_in. intros r Hr. destruct Hq as (_ & Hf & _). rewrite Forall_forall in Hf.
    destruct (Hf _ Hr) as [_ ?]. naive_solver. }
  set (st := filter (fun r => is_status r = true) (events s)) in *.
  unfold trim_victims. rewrite Hst. set (vs := row_seq <$> take (Z.to_nat ex) st).
  assert (Hvs : forall r, r ∈ events s -> row_seq r ∈ vs <-> r ∈ take (Z.to_nat ex) st).
  { intros r Hr. unfold vs. rewrite list_elem_of_fmap. split; [|by exists r].
    intros (r' & E & Hr'). assert (r = r') as ->; [|done].
    apply (row_seq_inj s); [done|done| |done]. apply elem_of_take in Hr' as (i & Hi & _).
    apply list_elem_of_lookup_2, list_elem_of_filter in Hi. naive_solver. }
  assert (Hvin : forall r, r ∈ take (Z.to_nat ex) st -> r ∈ events s /\ is_status r = true).
  { intros r (i & Hi & _)%elem_of_take. apply list_elem_of_lookup_2, list_elem_of_filter in Hi. naive_solver. }
  assert (Hall : forall s0, queue_ok s0 -> unacked_count s0 = Z.of_nat (length (events s0))).
  { intros s0 (_ & Hf & _). unfold unacked_count. rewrite (filter_id is_unacked); [done|].
    eapply Forall_impl; [exact Hf|]. naive_solver. }
  assert (Hlen : (length (filter (fun r => row_seq r ∉ vs) (events s)) + length vs = length (events s))%nat).
  { apply filter_not_length; [by apply queue_nodup| |].
    - eapply sublist_NoDup; [apply (queue_nodup s Hq)|]. unfold vs.
      transitivity (row_seq <$> st); [rewrite fmap_take; apply sublist_take|apply fmap_filter_sublist].
    - intros v (r & -> & Hr)%list_elem_of_fmap. apply list_elem_of_fmap_2. by apply Hvin. }
  assert (Hex : (length vs <= Z.to_nat ex)%nat) by (unfold vs; rewrite length_fmap, length_take; lia).
  split_and!; [by apply queue_ok_filter|done| | | | |].
  - intros r Hr Hns. apply list_elem_of_filter. split; [|done]. rewrite Hvs by done. intros Hin.
    apply Hvin in Hin as [_ ?]. congruence.
  - intros r [_ Hr]%list_elem_of_filter. done.
  - rewrite !Hall by (try done; by apply queue_ok_filter). simpl. lia.
  - left. pose proof (Hall s Hq). rewrite Hall by (by apply queue_ok_filter). simpl. lia.
  - intros r r' Hr Hn Hr' Hs'. apply list_elem_of_filter in Hr' as [Hr'v Hr'].
    assert (Hrv : r ∈ take (Z.to_nat ex) st).
    { apply Hvs; [done|]. apply dec_stable. intros Hn'. apply Hn, list_elem_of_filter. done. }
    assert (Hr'd : r' ∈ drop (Z.to_nat ex) st).
    { assert (Hin : r' ∈ st) by (by apply list_elem_of_filter). rewrite <- (take_drop (Z.to_nat ex) st) in Hin.
      apply elem_of_app in Hin as [Hin|Hin]; [|done]. by apply Hvs in Hin. }
    eapply (StronglySorted_take_drop row_lt); [|done|done]. apply StronglySorted_filter, Hq.
Qed.

Lemma trim_keeps_messages_witness :
  let s := (append_event (str "sms_in") [] (append_event (str "status") [] fresh_db).2).2 in
  queue_ok s /\ (forall r, r ∈ events s -> is_status r = false -> r ∈ events (trim_events 0 s).2).
Proof.
  cbn zeta. set (s := (append_event (str "sms_in") [] (append_event (str "status") [] fresh_db).2).2).
  assert (Hq : queue_ok s) by (apply queue_ok_append, queue_ok_append, queue_ok_fresh).
  split; [exact Hq|]. exact (proj1 (proj2 (proj2 (trim_keeps_messages 0 s Hq)))).
Defined.

Lemma replace_tasks_ok incoming revision sync_id s :
  match replace_tasks incoming revision sync_id s with
  | Ok (count, s') =>
      exists ids, in_id <$> incoming = JInt <$> ids /\ NoDup ids /\ (forall id, id ∈ ids -> 0 < id) /\
        count = Z.of_nat (length incoming) /\
        (forall id, is_Some (tasks s' !! id) <-> id ∈ ids) /\
        (forall i id t, ids !! i = Some id -> incoming !! i = Some t ->
           tasks s' !! id = Some (upserted (tasks s !! id) (in_spec t))) /\
        get TASK_REVISION_KEY s' = Some revision /\
        length (events s') = (length (events s) + if decide (sync_id = []) then 0 else 1)%nat
  | Err _ => ~ exists ids, in_id <$> incoming = JInt <$> ids /\ NoDup ids /\ forall id, id ∈ ids -> 0 < id
  end.
Proof.
  unfold replace_tasks. pose proof (check_ids_spec [] incoming) as Hc.
  destruct (check_ids [] incoming) as [rows|]; cbn [mbind res_bind].
  2: { intros (ids & H1 & H2 & H3). apply Hc. exists ids. split_and!; [done|done|].
       intros id Hid. split; [by apply H3|apply not_elem_of_nil]. }
  destruct Hc as (H1 & H2 & H3 & H4). exists rows.*1.
  set (s1 := set _ _ _). set (s2 := if bool_decide (sync_id = []) then s1 else _).
  assert (Ht : tasks s2 = foldl (fun ts row => upsert_task ts row.1 row.2)
      (filter (fun kv : Z * task_row => kv.1 ∈ rows.*1) (tasks s)) rows)
    by (unfold s2; by case_bool_decide).
  assert (Hlk : forall id, tasks s2 !! id =
      (fun v => upserted (tasks s !! id) v) <$> dict_get id rows).
  { intros id. rewrite Ht, upsert_all by done. destruct (dict_get id rows) as [v|] eqn:E; simpl.
    - do 2 f_equal. destruct (tasks s !! id) as [row|] eqn:Er.
      + apply map_lookup_filter_Some. split; [done|]. simpl.
        apply (list_elem_of_fmap_2 fst rows (id, v)). by apply dict_get_Some_in.
      + apply map_lookup_filter_None. by left.
    - apply map_lookup_filter_None. right. intros x _. simpl. by apply dict_get_None. }
  split_and!; try done.
  - intros id Hid. by apply H4.
  - intros id. rewrite Hlk, fmap_is_Some. split.
    + intros [v Hv]. apply (list_elem_of_fmap_2 fst rows (id, v)). by apply dict_get_Some_in.
    + intros Hid. apply not_eq_None_Some. rewrite dict_get_None. naive_solver.
  - intros i id t Hi Hti. rewrite Hlk. rewrite list_lookup_fmap in Hi.
    destruct (rows !! i) as [[id' v]|] eqn:Er; [|done]. injection Hi as ->.
    assert (Hv : rows.*2 !! i = Some v) by (by rewrite list_lookup_fmap, Er).
    rewrite <- H2, list_lookup_fmap, Hti in Hv. injection Hv as <-.
    rewrite (dict_get_in id (in_spec t) rows); [done|done|]. by apply list_elem_of_lookup_2 in Er.
  - unfold s2, s1, get, set. case_bool_decide; simpl; by rewrite lookup_insert_eq.
  - unfold s2, s1. repeat case_decide; case_bool_decide; try done; simpl; rewrite ?length_app; simpl; lia.
Qed.

(** [replace_tasks] is all or nothing.  It refuses exactly the
    payloads whose ids are not distinct positive integers (a JSON [true] is not
    one); otherwise the table is the payload, a surviving task keeps its last
    run, and its planned run too unless its schedule, expression or jitter
    changed. *)
Theorem replace_tasks_spec incoming revision sync_id s :
  match replace_tasks incoming revision sync_id s with
  | Ok (count, s') =>
      exists ids, in_id <$> incoming = JInt <$> ids /\ NoDup ids /\ (forall id, id ∈ ids -> 0 < id) /\
        count = Z.of_nat (length incoming) /\
        (forall id, is_Some (tasks s' !! id) <-> id ∈ ids) /\
        (forall i id t, ids !! i = Some id -> incoming !! i = Some t ->
           tasks s' !! id = Some (upserted (tasks s !! id) (in_spec t))) /\
        get TASK_REVISION_KEY s' = Some revision /\
        length (events s') = (length (events s) + if decide (sync_id = []) then 0 else 1)%nat
  | Err _ => ~ exists ids, in_id <$> incoming = JInt <$> ids /\ NoDup ids /\ forall id, id ∈ ids -> 0 < id
  end.
Proof. apply replace_tasks_ok. Qed.

(** ** The command journal *)

Section at_most_once.
Context (request_hash : frame -> pystr).

(** What the agent does to its store over time, restarts included. *)
Inductive op :=
| OBegin (f : frame)
| OFinish (f : frame) (status : pystr) (data : json) (error : option pystr)
| OReopen (token : pystr)
| OEmit (max_queued : Z) (k : pystr) (p : frame)
| OAck (n : Z).

Definition run_op (o : op) (s : LocalStore) : option (pystr * claim) * LocalStore :=
  match o with
  | OBegin f => let '(c, s) := begin_command request_hash f s in (Some (cmd_id_of f, c), s)
  | OFinish f status data error => (None, finish_command f status data error s)
  | OReopen token => (None, open_store token s)
  | OEmit m k p => (None, emit m k p s)
  | OAck n => (None, (ack_through n s).2)
  end.

(** The claims a history makes, and the store it ends in. *)
Fixpoint run_ops (os : list op) (s : LocalStore) : list (pystr * claim) * LocalStore :=
  match os with
  | [] => ([], s)
  | o :: os => let '(c, s) := run_op o s in let '(cs, s) := run_ops os s in (option_list c ++ cs, s)
  end.

(** A run's status is "running" exactly until it has a result. *)
Definition run_ok (r : command_run) : Prop := r_status r = str "running" <-> r_result r = None.

Definition journal_ok (s : LocalStore) : Prop :=
  dict_wf (command_runs s) /\ forall id r, (id, r) ∈ command_runs s -> run_ok r /\ cmd_id_of (r_frame r) = id.

(** Later states remember earlier commands and never change a result. *)
Definition remembers (s s' : LocalStore) : Prop :=
  forall id r, dict_get id (command_runs s) = Some r ->
    exists r', dict_get id (command_runs s') = Some r' /\ r_hash r' = r_hash r /\
               (forall p, r_result r = Some p -> r' = r).

Lemma remembers_refl s : remembers s s.
Proof. intros id r H. by exists r. Qed.

Lemma remembers_trans s1 s2 s3 : remembers s1 s2 -> remembers s2 s3 -> remembers s1 s3.
Proof.
  intros H1 H2 id r Hr. destruct (H1 _ _ Hr) as (r2 & Hr2 & E2 & P2).
  destruct (H2 _ _ Hr2) as (r3 & Hr3 & E3 & P3). exists r3. split_and!; [done|congruence|].
  intros p Hp. assert (r2 = r) as -> by eauto. eauto.
Qed.

Lemma runs_unchanged s s' : command_runs s' = command_runs s ->
  (journal_ok s -> journal_ok s') /\ remembers s s'.
Proof.
  intros E. split; [unfold journal_ok; by rewrite E|]. intros id r H. exists r. by rewrite E.
Qed.

Lemma journal_set id r s es n t k :
  journal_ok s -> run_ok r -> cmd_id_of (r_frame r) = id ->
  journal_ok (mkStore es n (dict_set id r (command_runs s)) t k).
Proof.
  intros [Hw Hr] Hok Hid. split; simpl; [by apply dict_set_wf|]. intros id' r' Hin.
  apply dict_set_lookup_in in Hin as [[-> ->]|[_ Hin]]; [done|by apply Hr|done].
Qed.

Lemma begin_command_step f s c s' :
  journal_ok s -> begin_command request_hash f s = (c, s') ->
  journal_ok s' /\ remembers s s' /\ is_Some (dict_get (cmd_id_of f) (command_runs s')) /\
  (c = new_ <-> dict_get (cmd_id_of f) (command_runs s) = None).
Proof.
  intros Hj H. unfold begin_command in H. destruct (dict_get (cmd_id_of f) (command_runs s)) as [run|] eqn:E.
  - assert (Hsame : command_runs s' = command_runs s) by (repeat case_match; by injection H as <- <-).
    destruct (runs_unchanged _ _ Hsame) as [Hj' Hrem]. split_and!; [by apply Hj'|done|by rewrite Hsame, E|].
    split; [|done]. intros ->. repeat case_match; discriminate.
  - injection H as <- <-. split_and!; [by apply journal_set| | |done].
    + intros id r Hr. exists r. split_and!; [|done..]. simpl. rewrite dict_get_set_ne; [done|congruence].
    + simpl. rewrite dict_get_set. by eexists.
Qed.

Lemma finish_command_step f status data error s :
  journal_ok s -> status <> str "running" ->
  journal_ok (finish_command f status data error s) /\ remembers s (finish_command f status data error s) /\
  (forall run, dict_get (cmd_id_of f) (command_runs s) = Some run -> r_status run = str "running" ->
     dict_get (cmd_id_of f) (command_runs (finish_command f status data error s)) =
       Some (mkRun (r_hash run) (r_frame run) status (Some (result_payload f status data error))) /\
     events (finish_command f status data error s) = events s ++
       [mkEventRow (mkEvent (events_seq s + 1) (str "cmd_result") (result_payload f status data error)) false]).
Proof.
  intros Hj Hs. unfold finish_command. destruct (dict_get (cmd_id_of f) (command_runs s)) as [run|] eqn:E.
  2: { split_and!; [done|apply remembers_refl|done]. }
  case_bool_decide as Hrun.
  2: { split_and!; [done|apply remembers_refl|]. intros run' [= <-]. done. }
  assert (Hin := dict_get_Some_in _ _ _ E). apply Hj in Hin as [Hok Hid]. split_and!.
  - apply journal_set; [done| |done]. unfold run_ok. cbn. done.
  - intros id r Hr. simpl. destruct (decide (id = cmd_id_of f)) as [->|Hne].
    + rewrite dict_get_set. assert (r = run) as -> by congruence. eexists. split_and!; [done|done|].
      intros p Hp. apply Hok in Hrun. congruence.
    + rewrite dict_get_set_ne by done. by exists r.
  - intros run' [= <-] _. simpl. by rewrite dict_get_set.
Qed.

Lemma finish_running f status data error s id r :
  status <> str "running" -> dict_get id (command_runs (finish_command f status data error s)) = Some r ->
  r_status r = str "running" -> id <> cmd_id_of f /\ dict_get id (command_runs s) = Some r.
Proof.
  intros Hs H Hr. unfold finish_command in H.
  destruct (dict_get (cmd_id_of f) (command_runs s)) as [run|] eqn:E.
  - case_bool_decide as Hrun; simpl in H.
    + destruct (decide (id = cmd_id_of f)) as [->|Hne].
      * rewrite dict_get_set in H. by injection H as <-.
      * by rewrite dict_get_set_ne in H.
    + split; [|done]. intros ->. congruence.
  - split; [|done]. intros ->. congruence.
Qed.

Lemma finish_all_step fs s :
  journal_ok s ->
  let s' := foldl (fun s f => finish_command f (str "unknown") JNull (Some restart_error) s) s fs in
  journal_ok s' /\ remembers s s' /\
  forall id r, dict_get id (command_runs s') = Some r -> r_status r = str "running" ->
    id ∉ cmd_id_of <$> fs /\ dict_get id (command_runs s) = Some r.
Proof.
  cbn zeta. revert s. induction fs as [|f fs IH]; intros s Hj; simpl.
  { split_and!; [done|apply remembers_refl|]. intros id r H _. split; [apply not_elem_of_nil|done]. }
  destruct (finish_command_step f (str "unknown") JNull (Some restart_error) s Hj) as (Hj1 & Hr1 & _); [done|].
  destruct (IH _ Hj1) as (Hj2 & Hr2 & Hrun). split_and!; [done|by eapply remembers_trans|].
  intros id r H Hst. destruct (Hrun id r H Hst) as [Hni Hg].
  destruct (finish_running f (str "unknown") JNull (Some restart_error) s id r) as [Hne Hg']; [done..|].
  split; [|done]. by apply not_elem_of_cons.
Qed.

Lemma recover_step s :
  journal_ok s ->
  journal_ok (recover_commands s) /\ remembers s (recover_commands s) /\
  forall id r, dict_get id (command_runs (recover_commands s)) = Some r -> r_status r <> str "running".
Proof.
  intros Hj. unfold recover_commands. set (fs := r_frame <$> _).
  destruct (finish_all_step fs s Hj) as (Hj' & Hr & Hrun). split_and!; [done|done|].
  intros id r Hg Hst. destruct (Hrun id r Hg Hst) as [Hni Hg0]. apply Hni.
  assert (Hin := dict_get_Some_in _ _ _ Hg0). destruct (proj2 Hj _ _ Hin) as [_ Hid].
  apply list_elem_of_fmap. exists (r_frame r). split; [done|]. apply list_elem_of_fmap. exists r. split; [done|].
  apply list_elem_of_filter. split; [done|]. by apply (list_elem_of_fmap_2 snd _ (id, r)).
Qed.

Lemma ensure_stream_id_runs token s : command_runs (ensure_stream_id token s) = command_runs s.
Proof. unfold ensure_stream_id. by case_match. Qed.

Lemma emit_runs m k p s : command_runs (emit m k p s) = command_runs s.
Proof. unfold emit, trim_events. by case_match. Qed.

(** Histories only finish commands with a terminal status. *)
Definition op_ok (o : op) : Prop :=
  match o with OFinish _ status _ _ => status <> str "running" | _ => True end.

Lemma run_op_step o s c s' :
  journal_ok s -> op_ok o -> run_op o s = (c, s') ->
  journal_ok s' /\ remembers s s' /\
  forall id, c = Some (id, new_) -> dict_get id (command_runs s) = None /\ is_Some (dict_get id (command_runs s')).
Proof.
  intros Hj Ho H. destruct o as [f|f status data error|token|m k p|n]; simpl in H.
  - destruct (begin_command request_hash f s) as [c0 s0] eqn:Hb. injection H as <- <-.
    destruct (begin_command_step _ _ _ _ Hj Hb) as (H1 & H2 & H3 & H4). split_and!; [done|done|].
    intros id [= <- ->]. split; [by apply H4|done].
  - injection H as <- <-. destruct (finish_command_step f status data error s Hj Ho) as (H1 & H2 & _). done.
  - injection H as <- <-. destruct (runs_unchanged s (ensure_stream_id token s)) as [H1 H2];
      [apply ensure_stream_id_runs|].
    destruct (recover_step _ (H1 Hj)) as (H3 & H4 & _). split_and!; [done|by eapply remembers_trans|done].
  - injection H as <- <-. destruct (runs_unchanged s (emit m k p s) (emit_runs _ _ _ _)) as [H1 H2].
    split_and!; [by apply H1|done|done].
  - injection H as <- <-. destruct (runs_unchanged s (ack_through n s).2 eq_refl) as [H1 H2].
    split_and!; [by apply H1|done|done].
Qed.

(** How often a history lets command [id] start. *)
Definition starts (id : pystr) (cs : list (pystr * claim)) : nat :=
  length (filter (fun c => c = (id, new_)) cs).

(** C4 (safety): a durable command starts at most once, whatever is replayed to
    the agent and however often it restarts: over any history of claims,
    completions, events, acknowledgements and reopenings, [begin_command]
    answers "new" at most once per command id -- never for an id the journal
    already knows -- and a recorded result never changes. *)
Theorem command_starts_once os s :
  journal_ok s -> Forall op_ok os ->
  let '(cs, s') := run_ops os s in
  journal_ok s' /\ remembers s s' /\
  forall id, (starts id cs <= 1)%nat /\ (is_Some (dict_get id (command_runs s)) -> starts id cs = 0%nat).
Proof.
  revert s. induction os as [|o os IH]; intros s Hj Ho; simpl.
  { split_and!; [done|apply remembers_refl|]. intros id. unfold starts. simpl. split; [lia|done]. }
  apply Forall_cons in Ho as [Ho Hos]. destruct (run_op o s) as [c s1] eqn:E.
  destruct (run_op_step o s c s1 Hj Ho E) as (Hj1 & Hr1 & Hc). specialize (IH s1 Hj1 Hos).
  destruct (run_ops os s1) as [cs s2]. destruct IH as (Hj2 & Hr2 & Hst).
  split_and!; [done|by eapply remembers_trans|]. intros id. destruct (Hst id) as [Hle Hzero].
  assert (Hmono : is_Some (dict_get id (command_runs s)) -> is_Some (dict_get id (command_runs s1)))
    by (intros [r Hr]; apply Hr1 in Hr as (? & ? & _); eauto).
  unfold starts in *. destruct c as [c|]; cbn [option_list app]; [|naive_solver].
  rewrite filter_cons. case_decide as Hd; [subst c|naive_solver].
  destruct (Hc id eq_refl) as [Hnone Hsome]. cbn [length]. rewrite Hzero by done. split; [lia|].
  rewrite Hnone. by intros [? ?].
Qed.

(** Reopening the store leaves no command running: each one the
    crash interrupted is reported as "unknown" and keeps its journal entry. *)
Theorem reopen_finishes_all token s :
  journal_ok s ->
  remembers s (open_store token s) /\
  forall id r, dict_get id (command_runs (open_store token s)) = Some r ->
    r_status r <> str "running" /\ is_Some (r_result r).
Proof.
  intros Hj. destruct (runs_unchanged s (ensure_stream_id token s) (ensure_stream_id_runs token s)) as [H1 H2].
  destruct (recover_step _ (H1 Hj)) as (Hj' & Hr & Hrun). split; [by eapply remembers_trans|].
  intros id r Hg. assert (Hst := Hrun id r Hg). split; [done|].
  destruct (proj2 Hj' _ _ (dict_get_Some_in _ _ _ Hg)) as [Hok _].
  apply not_eq_None_Some. intros E. by apply Hst, Hok.
Qed.

End at_most_once.

Lemma journal_ok_fresh : journal_ok fresh_db.
Proof. split; [apply NoDup_nil_2|]. by intros id r ?%not_elem_of_nil. Qed.

(** One command, replayed before and after a restart. *)
Definition sample_command : frame := [(str "cmd_id", JStr (str "a1")); (str "device", JStr (str "m1"))].
Definition sample_history : list op :=
  [OBegin sample_command; OBegin sample_command; OReopen []; OBegin sample_command].

Lemma command_starts_once_witness :
  (run_ops (fun _ => []) sample_history fresh_db).1 = [(str "a1", new_); (str "a1", running); (str "a1", replayed)] /\
  (starts (str "a1") (run_ops (fun _ => []) sample_history fresh_db).1 <= 1)%nat.
Proof.
  split; [by vm_compute|].
  pose proof (command_starts_once (fun _ => []) sample_history fresh_db journal_ok_fresh) as H.
  specialize (H ltac:(repeat constructor)). destruct (run_ops _ _ _) as [cs s'].
  exact (proj1 (proj2 (proj2 H) (str "a1"))).
Defined.

Lemma reopen_finishes_all_witness :
  let s := (begin_command (fun _ => []) sample_command fresh_db).2 in
  exists r, dict_get (str "a1") (command_runs (open_store [] s)) = Some r /\ r_status r <> str "running".
Proof.
  cbn zeta. set (s := (begin_command (fun _ => []) sample_command fresh_db).2).
  assert (Hj : journal_ok s).
  { apply (begin_command_step (fun _ => []) sample_command fresh_db new_ s journal_ok_fresh). reflexivity. }
  destruct (dict_get (str "a1") (command_runs (open_store [] s))) as [r|] eqn:E; [|by vm_compute in E].
  exists r. split; [done|]. exact (proj1 (proj2 (reopen_finishes_all [] s Hj) _ _ E)).
Defined.

End Store.
