(* ===== verification/NextRun.v ===== *)
(** * When a task runs next (agent/src/air780e_agent/schedule.py)

    [next_interval] and [next_run], over aware datetimes: an instant in
    microseconds and the offset its wall clock is shown with.  The calendar is
    the standard library's ([date.fromordinal]); [float] of an interval's text
    and the [timedelta] it makes are an argument, and so is the random jitter.
    A datetime outside the years 1 to 9999 raises OverflowError. *)

From S2P Require Import Prelude PyText Codec Schedule Store.
Import Store.

Module NextRun.

(** ** The calendar, backwards *)

Definition DAY : Z := 86400000000.
Definition SECOND : Z := 1000000.

(** [date.fromordinal] *)
Definition days_before_start (m : Z) : Z :=
  nth (Z.to_nat (m - 1)) [0; 31; 59; 90; 120; 151; 181; 212; 243; 273; 304; 334] 0.

Definition month_day (leap : bool) (n : Z) : Z * Z :=
  let m := (n + 50) / 32 in
  let before m := days_before_start m + (if (2 <? m) && leap then 1 else 0) in
  let m := if n <? before m then m - 1 else m in
  (m, n - before m + 1).

Definition date_of_ordinal (ordinal : Z) : date :=
  let n := ordinal - 1 in
  let '(n400, n) := (n / 146097, n mod 146097) in
  let '(n100, n) := (n / 36524, n mod 36524) in
  let '(n4, n) := (n / 1461, n mod 1461) in
  let '(n1, n) := (n / 365, n mod 365) in
  let y := n400 * 400 + 1 + n100 * 100 + n4 * 4 + n1 in
  if (n1 =? 4) || (n100 =? 4) then mkDate (y - 1) 12 31
  else
    let leap := (n1 =? 3) && (negb (n4 =? 24) || (n100 =? 3)) in
    let '(m, d) := month_day leap n in mkDate y m d.

Definition moment_of_stamp (s : Z) : moment :=
  let us := s mod DAY in
  mkMoment (date_of_ordinal (s / DAY)) (us / 3600000000) (us / 60000000 mod 60) (us / SECOND mod 60) (us mod SECOND).

Lemma month_day_spec leap n : 0 <= n < 365 ->
  let '(m, d) := month_day leap n in
  1 <= m <= 12 /\ 1 <= d <= (if m =? 2 then if leap then 29 else 28 else if bool_decide (m ∈ [4; 6; 9; 11]) then 30 else 31)
  /\ nth (Z.to_nat (m - 1)) [0; 31; 59; 90; 120; 151; 181; 212; 243; 273; 304; 334] 0 + (if (2 <? m) && leap then 1 else 0) + d = n + 1.
Proof.
  intros Hn.
  set (ok := fun n => let '(m, d) := month_day leap n in
    (1 <=? m) && (m <=? 12) && (1 <=? d) && (d <=? (if m =? 2 then if leap then 29 else 28 else if bool_decide (m ∈ [4; 6; 9; 11]) then 30 else 31))
    && (nth (Z.to_nat (m - 1)) [0; 31; 59; 90; 120; 151; 181; 212; 243; 273; 304; 334] 0 + (if (2 <? m) && leap then 1 else 0) + d =? n + 1)).
  assert (Hall : forallb ok (seqZ 0 365) = true) by (unfold ok; destruct leap; vm_compute; reflexivity).
  rewrite forallb_forall in Hall. assert (H : ok n = true) by (apply Hall, list_elem_of_In, elem_of_seqZ; lia).
  unfold ok in H. destruct (month_day leap n) as [m d]. rewrite !andb_true_iff in H. lia.
Qed.

(** A year by its place in the 400-year cycle. *)
Lemma year_parts a b c d : 0 <= b <= 3 -> 0 <= c <= 24 -> 0 <= d <= 3 ->
  let y := 400 * a + 100 * b + 4 * c + d + 1 in
  days_before_year y = 146097 * a + 36524 * b + 1461 * c + 365 * d
  /\ is_leap y = (d =? 3) && (negb (c =? 24) || (b =? 3)).
Proof.
  intros Hb Hc Hd y.
  assert (E4 : (y - 1) / 4 = 100 * a + 25 * b + c) by (symmetry; apply Z.div_unique with d; unfold y; lia).
  assert (E100 : (y - 1) / 100 = 4 * a + b) by (symmetry; apply Z.div_unique with (4 * c + d); unfold y; lia).
  assert (E400 : (y - 1) / 400 = a) by (symmetry; apply Z.div_unique with (100 * b + 4 * c + d); unfold y; lia).
  split.
  - unfold days_before_year. cbv zeta. rewrite E4, E100, E400. unfold y. lia.
  - clear E4 E100 E400.
    assert (M4 : y mod 4 = 0 <-> d = 3).
    { replace y with (d + 1 + (100 * a + 25 * b + c) * 4) by (unfold y; lia). rewrite Z_mod_plus_full. dlia. }
    assert (M100 : y mod 100 = 0 <-> c = 24 /\ d = 3).
    { replace y with (4 * c + d + 1 + (4 * a + b) * 100) by (unfold y; lia). rewrite Z_mod_plus_full. dlia. }
    assert (M400 : y mod 400 = 0 <-> b = 3 /\ c = 24 /\ d = 3).
    { replace y with (100 * b + 4 * c + d + 1 + a * 400) by (unfold y; lia). rewrite Z_mod_plus_full. dlia. }
    clearbody y. unfold is_leap.
    destruct (Z.eqb_spec (y mod 4) 0), (Z.eqb_spec (y mod 100) 0), (Z.eqb_spec (y mod 400) 0),
      (Z.eqb_spec d 3), (Z.eqb_spec c 24), (Z.eqb_spec b 3); try reflexivity; exfalso; tauto.
Qed.

Lemma last_day y : is_leap y = true -> 1 <= y ->
  valid_date (mkDate y 12 31) /\ ordinal (mkDate y 12 31) = days_before_year y + 366.
Proof.
  intros Hl Hy. split; [split_and!; cbn; try lia; by vm_compute|]. unfold ordinal, days_before_month. cbn [year month day]. rewrite Hl.
  change (2 <? 12) with true. replace (nth _ _ _) with 334 by reflexivity. cbn [andb]. lia.
Qed.

Lemma in_year y n : 1 <= y -> 0 <= n < 365 ->
  let '(m, d) := month_day (is_leap y) n in
  valid_date (mkDate y m d) /\ ordinal (mkDate y m d) = days_before_year y + n + 1.
Proof.
  intros Hy Hn. pose proof (month_day_spec (is_leap y) n Hn) as H. destruct (month_day (is_leap y) n) as [m d].
  destruct H as (Hm & Hd & E). split.
  - split_and!; cbn [year month day]; try lia. unfold days_in_month. exact (proj2 Hd).
  - unfold ordinal, days_before_month. cbn [year month day]. destruct ((2 <? m) && is_leap y); lia.
Qed.

Lemma date_of_ordinal_spec n : 1 <= n -> valid_date (date_of_ordinal n) /\ ordinal (date_of_ordinal n) = n.
Proof.
  intros Hn. unfold date_of_ordinal.
  set (a := (n - 1) / 146097). set (r := (n - 1) mod 146097).
  set (b := r / 36524). set (r1 := r mod 36524). set (c := r1 / 1461). set (r2 := r1 mod 1461).
  set (d := r2 / 365). set (r3 := r2 mod 365).
  assert (H : 0 <= a /\ 0 <= b <= 4 /\ 0 <= c <= 24 /\ 0 <= d <= 4 /\ 0 <= r3 < 365
    /\ n - 1 = 146097 * a + 36524 * b + 1461 * c + 365 * d + r3
    /\ (b = 4 -> c = 0 /\ d = 0 /\ r3 = 0) /\ (d = 4 -> r3 = 0 /\ c <= 23)) by (unfold r3, d, r2, c, r1, b, r, a; dlia).
  clearbody r3 d r2 c r1 b r a. destruct H as (Ha & Hb & Hc & Hd & Hr & E & H4 & H4').
  destruct (Z.eqb_spec d 4) as [Ed|Ed]; [|destruct (Z.eqb_spec b 4) as [Eb|Eb]]; cbn [orb].
  - destruct (H4' Ed) as [Er Ec]. assert (Hb3 : b <= 3) by (destruct (Z.eq_dec b 4); lia).
    destruct (year_parts a b c 3) as [Ey El]; [lia..|].
    replace (a * 400 + 1 + b * 100 + c * 4 + d - 1) with (400 * a + 100 * b + 4 * c + 3 + 1) by lia.
    destruct (last_day (400 * a + 100 * b + 4 * c + 3 + 1)) as [Hv Ho]; [rewrite El; lia|lia|]. split; [exact Hv|]. rewrite Ho, Ey. lia.
  - destruct (H4 Eb) as (Ec & Ed0 & Er). destruct (year_parts a 3 24 3) as [Ey El]; [lia..|].
    replace (a * 400 + 1 + b * 100 + c * 4 + d - 1) with (400 * a + 100 * 3 + 4 * 24 + 3 + 1) by lia.
    destruct (last_day (400 * a + 100 * 3 + 4 * 24 + 3 + 1)) as [Hv Ho]; [rewrite El; reflexivity|lia|]. split; [exact Hv|]. rewrite Ho, Ey. lia.
  - destruct (year_parts a b c d) as [Ey El]; [lia..|].
    replace (a * 400 + 1 + b * 100 + c * 4 + d) with (400 * a + 100 * b + 4 * c + d + 1) by lia.
    pose proof (in_year (400 * a + 100 * b + 4 * c + d + 1) r3 ltac:(lia) Hr) as H. rewrite El in H.
    destruct (month_day _ r3) as [m day]. destruct H as [Hv Ho]. split; [exact Hv|]. rewrite Ho, Ey. lia.
Qed.

Lemma moment_of_stamp_spec s : DAY <= s -> valid_moment (moment_of_stamp s) /\ stamp (moment_of_stamp s) = s.
Proof.
  intros Hs. unfold moment_of_stamp. assert (Hd : 1 <= s / DAY) by (unfold DAY in *; dlia).
  destruct (date_of_ordinal_spec (s / DAY) Hd) as [Hv Ho]. split.
  - split_and!; cbn [m_date m_hour m_minute m_second m_micro]; try exact Hv; unfold DAY, SECOND; dlia.
  - unfold stamp. cbn [m_date m_hour m_minute m_second m_micro]. rewrite Ho. unfold DAY, SECOND. clear. dlia.
Qed.

Lemma stamp_inj t t' : valid_moment t -> valid_moment t' -> stamp t = stamp t' -> t = t'.
Proof.
  intros (Hd & H1 & H2 & H3 & H4) (Hd' & H1' & H2' & H3' & H4') E. destruct t as [d h mi se us], t' as [d' h' mi' se' us'].
  unfold stamp in E. cbn [m_date m_hour m_minute m_second m_micro] in *.
  assert (Hdig : forall b q r q' r', 0 <= r < b -> 0 <= r' < b -> q * b + r = q' * b + r' -> q = q' /\ r = r').
  { intros b q r q' r' Hr Hr' Eq. apply (Z.div_mod_unique b); lia. }
  apply Hdig in E as [E ->]; [|done..]. apply Hdig in E as [E ->]; [|done..]. apply Hdig in E as [E ->]; [|done..].
  apply Hdig in E as [Ed ->]; [|done..].
  f_equal. by apply ordinal_inj.
Qed.

(** ** Aware datetimes *)

Record aware := mkAware { a_utc : Z; a_off : Z }.

Definition wall (a : aware) : Z := a_utc a + a_off a.

(** Wall clocks from 0001-01-01 to 9999-12-31. *)
Definition MAX_STAMP : Z := 3652060 * DAY.
Definition representable (a : aware) : bool := (DAY <=? wall a) && (wall a <? MAX_STAMP).

(** ScheduleError, or an exception [except ScheduleError] lets through. *)
Inductive fault := Bad (e : ScheduleError) | ValueErr | OverflowErr.

(** [a + timedelta(microseconds=us)] *)
Definition add_us (a : aware) (us : Z) : res fault aware :=
  let b := mkAware (a_utc a + us) (a_off a) in
  if representable b then Ok b else Err OverflowErr.

(** What [float(expression)] and [timedelta(days=...)] give: not above zero,
    not a number ([timedelta] refuses it), a span, or more than a [timedelta]
    holds (an infinity, say). *)
Inductive interval := NotPositive | IsNan | Span (us : Z) | TooLong.

Definition DEFAULT_INTERVAL_DAYS : pystr := str "25.0".

Section Run.
Context (days_of : pystr -> option interval).

Definition next_interval (expression : pystr) (after : aware) : res fault aware :=
  match days_of expression with
  | None => Err (Bad BadInterval)
  | Some NotPositive => Err (Bad IntervalNotPositive)
  | Some IsNan => Err ValueErr
  | Some TooLong => Err OverflowErr
  | Some (Span us) => add_us after us
  end.

(** [next_cron] keeps the [tzinfo] of [after]. *)
Definition next_cron_aware (expression : pystr) (after : aware) : res fault aware :=
  match next_cron expression (moment_of_stamp (wall after)) with
  | Ok m => let b := mkAware (stamp m - a_off after) (a_off after) in
            if representable b then Ok b else Err OverflowErr
  | Err e => Err (Bad e)
  end.

(** [jitter] is [generator.uniform(-j, j)] in microseconds. *)
Definition next_run (v : TaskSpec) (after floor : aware) (jitter : Z) : res fault aware :=
  let kind := match t_schedule_type v with [] => str "interval" | k => k end in
  let expression := strip (t_schedule_expr v) in
  moment ←
    (if bool_decide (kind = str "cron") then next_cron_aware expression after
     else if bool_decide (kind = str "interval") then
       next_interval (match expression with [] => DEFAULT_INTERVAL_DAYS | _ => expression end) after
     else Err (Bad UnknownType));
  moment ← (if t_jitter_seconds v =? 0 then Ok moment else add_us moment jitter);
  Ok (if a_utc moment <? a_utc floor then floor else moment).

(** The instant the schedule names, before jitter and floor. *)
Definition named (v : TaskSpec) (after m : aware) : Prop :=
  let expression := strip (t_schedule_expr v) in
  if bool_decide (t_schedule_type v = str "cron") then
    exists c, parse_cron expression = Ok c /\ candidate c (moment_of_stamp (wall m)) /\ wall after < wall m
    /\ a_off m = a_off after
    /\ forall t, candidate c t -> wall after < stamp t -> wall m <= stamp t
  else
    exists us, days_of (match expression with [] => DEFAULT_INTERVAL_DAYS | _ => expression end) = Some (Span us)
    /\ a_utc m = a_utc after + us.

Lemma wall_at t off : wall (mkAware (t - off) off) = t.
Proof. unfold wall. cbn [a_utc a_off]. lia. Qed.

Lemma stamp_back t : DAY <= stamp t -> valid_moment t -> moment_of_stamp (stamp t) = t.
Proof. intros Hs Hv. destruct (moment_of_stamp_spec (stamp t) Hs). by apply stamp_inj. Qed.

Lemma representable_low a : representable a = true -> DAY <= wall a.
Proof. unfold representable. lia. Qed.

Lemma next_cron_aware_inv e after m : DAY <= wall after -> next_cron_aware e after = Ok m ->
  a_off m = a_off after /\ exists t, next_cron e (moment_of_stamp (wall after)) = Ok t /\ wall m = stamp t /\ DAY <= stamp t.
Proof.
  intros Ha H. unfold next_cron_aware in H. destruct (next_cron e (moment_of_stamp (wall after))) as [t|err]; [|done].
  destruct (representable _) eqn:Er; [|done]. apply representable_low in Er. rewrite wall_at in Er. injection H as <-.
  split; [done|]. exists t. by rewrite wall_at.
Qed.

Lemma next_cron_aware_named v after m :
  DAY <= wall after -> t_schedule_type v = str "cron" ->
  next_cron_aware (strip (t_schedule_expr v)) after = Ok m -> named v after m.
Proof.
  intros Ha Ht (Ho & t & En & Ew & Hlow)%next_cron_aware_inv; [|done]. unfold named. rewrite bool_decide_eq_true_2 by done.
  destruct (moment_of_stamp_spec (wall after) Ha) as [Hv Hs].
  destruct (parse_cron (strip (t_schedule_expr v))) as [c|e] eqn:Ec; [|by rewrite (next_cron_bad _ e _ Ec) in En].
  pose proof (next_cron_ok (strip (t_schedule_expr v)) c _ Hv Ec) as Hn. rewrite En, Hs in Hn. destruct Hn as (Hc & Hlt & Hmin).
  exists c. rewrite Ew. split; [done|]. split; [rewrite (stamp_back t Hlow (proj1 Hc)); exact Hc|]. split; [exact Hlt|]. split; [exact Ho|exact Hmin].
Qed.

(** When a next run is found, it is the instant the schedule
    names -- for a cron expression the first matching minute after [after], for
    an interval [after] plus the interval -- moved by the jitter, and never
    earlier than [floor]. *)
Theorem next_run_spec (v : TaskSpec) (after floor m : aware) (jitter : Z) :
  DAY <= wall after -> next_run v after floor jitter = Ok m ->
  exists m0, named v after m0
  /\ a_utc m = Z.max (a_utc floor) (a_utc m0 + if t_jitter_seconds v =? 0 then 0 else jitter).
Proof.
  intros Ha H. unfold next_run in H. apply bind_ok in H as (m0 & H0 & H). apply bind_ok in H as (m1 & H1 & H).
  exists m0. split.
  - destruct (bool_decide (_ = str "cron")) eqn:Ek.
    + apply bool_decide_eq_true in Ek. apply next_cron_aware_named; [done| |done]. by destruct (t_schedule_type v).
    + destruct (bool_decide (_ = str "interval")); [|done]. unfold named.
      rewrite bool_decide_eq_false_2; [|intros E; rewrite E in Ek; by vm_compute in Ek].
      unfold next_interval in H0. destruct (days_of _) as [[| |us|]|]; try done. exists us. split; [done|].
      unfold add_us in H0. destruct (representable _); [|done]. by injection H0 as <-.
  - assert (E1 : a_utc m1 = a_utc m0 + (if t_jitter_seconds v =? 0 then 0 else jitter)).
    { destruct (t_jitter_seconds v =? 0); [injection H1 as <-; lia|]. unfold add_us in H1.
      destruct (representable _); [|done]. by injection H1 as <-. }
    injection H as <-. destruct (Z.ltb_spec (a_utc m1) (a_utc floor)); lia.
Qed.
End Run.

(** ** Witness *)

Definition whole_days (s : pystr) : option interval := n ← py_int s; Some (if n <=? 0 then NotPositive else Span (n * DAY)).
Definition monday_task : TaskSpec :=
  mkTaskSpec [] [] true [] [] [] (str "cron") (str "30 8 * * 1") 60 false 0 false.

(** 2026-02-28 12:00 at +8: the next Monday, half past eight, a minute late. *)
Lemma next_run_spec_witness :
  let after := mkAware (ordinal (mkDate 2026 2 28) * DAY + 4 * 3600000000) (8 * 3600000000) in
  exists m m0, next_run whole_days monday_task after after 60000000 = Ok m /\ named whole_days monday_task after m0
  /\ moment_of_stamp (wall m) = mkMoment (mkDate 2026 3 2) 8 31 0 0.
Proof.
  intros after. destruct (next_run whole_days monday_task after after 60000000) as [m|e] eqn:E; [|by vm_compute in E].
  destruct (next_run_spec whole_days monday_task after after m 60000000) as (m0 & Hm0 & _); [by vm_compute|exact E|].
  exists m, m0. split; [reflexivity|]. split; [exact Hm0|]. vm_compute in E. injection E as <-. vm_compute. reflexivity.
Defined.
End NextRun.
