(* ===== verification/Scheduler.v ===== *)
(** * The keep-alive scheduler (agent/src/air780e_agent/scheduler.py)

    [KeepAliveScheduler]: planning, the tick, one execution with its retries,
    manual runs and receipts, over the task table of the durable store.  What
    asyncio interleaves is split where the code awaits: a tick starts runs, a
    run ends some time later.  Clock readings, the random jitter and suffix and
    what the workers answer are arguments; so are the text forms of datetimes
    ([_iso], [_parse]: [datetime.isoformat] and its inverse) and of schedule
    errors. *)

From S2P Require Import Prelude PyText PyDict Json Codec Schedule Store NextRun.
Import Store NextRun.

Module Scheduler.

Definition SUFFIX_ALPHABET : pystr := str "abcdefghijkmnpqrstuvwxyz23456789".
Definition SUFFIX_LENGTH : nat := 4.
Definition DEFAULT_PING_HOST : pystr := str "www.baidu.com".
Definition DETAIL_LIMIT : nat := 200.

Record scheduler := mkScheduler { sc_store : LocalStore; sc_running : list Z }.

(** ** What a task does *)

(** What [_perform] reads of a worker; [None] is Python's. *)
Record worker_view := mkWorkerView { w_radio : option bool; w_data : option bool }.

Inductive call := CallSms (number body : pystr) | CallPing (host : pystr) | CallVoice (number : pystr) | CallAt (command : pystr).

Definition PING_SKIPPED : pystr :=
  [0x79FB; 0x52A8; 0x6570; 0x636E; 0x5DF2; 0x5173; 0x95ED; 0xFF0C; 0x5DF2; 0x8DF3; 0x8FC7; 32] ++ str "ping".

(** The body of [_body]; [picks] are [rng.choice]'s indices. *)
Definition body (v : TaskSpec) (picks : list nat) : pystr :=
  if negb (t_random_suffix v) then t_content v
  else strip (t_content v ++ [32] ++ ((fun i => nth i SUFFIX_ALPHABET 0) <$> take SUFFIX_LENGTH picks)).

(** [_perform] up to the call it makes, or why the task is skipped. *)
Definition perform_call (quote : pystr -> pystr) (workers : pydict (list Z) worker_view) (picks : list nat) (v : TaskSpec) :
    pystr + call :=
  match dict_get (t_device v) workers with
  | None => inl (str "no device named " ++ quote (t_device v) ++ str " on this agent")
  | Some w =>
      if bool_decide (w_radio w = Some false) then inl (str "device " ++ quote (t_device v) ++ str " radio is disabled")
      else
        let action := match t_action v with [] => str "send_sms" | a => a end in
        if bool_decide (action = str "send_sms") then
          match strip (t_target_number v) with
          | [] => inl (str "task has no target number")
          | number => inr (CallSms number (body v picks))
          end
        else if bool_decide (action = str "ping") then
          if negb (bool_decide (w_data w = Some true)) then inl PING_SKIPPED
          else inr (CallPing (match strip (t_content v) with [] => DEFAULT_PING_HOST | h => h end))
        else if bool_decide (action = str "voice_call") then
          match strip (t_target_number v) with
          | [] => inl (str "task has no target number")
          | number => inr (CallVoice number)
          end
        else if bool_decide (action = str "raw_at") then
          match strip (t_content v) with
          | [] => inl (str "task has no AT command")
          | command => inr (CallAt command)
          end
        else inl (str "unknown action " ++ quote action)
  end.

(** What the worker's method answered. *)
Inductive answer :=
| SmsSent (segments : nat)
| PingReply (ok : bool)
| CallResult (reached_network : bool) (detail : pystr)
| AtLines (lines : list pystr)
| Raised (text : pystr)          (* str(exc) or the exception's name *)
| Cancelled.

Inductive outcome := Done (detail : pystr) | Skip (why : pystr) | Fail (error : pystr) | Cancel.

Definition join_with (sep : pystr) (ls : list pystr) : pystr :=
  match ls with [] => [] | l :: ls => l ++ mjoin ((fun x => sep ++ x) <$> ls) end.

(** [None]: an answer to another call. *)
Definition call_outcome (c : call) (a : answer) : option outcome :=
  match c, a with
  | _, Raised text => Some (Fail text)
  | _, Cancelled => Some Cancel
  | CallSms number b, SmsSent n =>
      Some (Done (str "sent to " ++ number ++ str ": " ++ [34] ++ b ++ [34] ++ str " (" ++ decimal (Z.of_nat n) ++ str " segment(s))"))
  | CallPing host, PingReply ok =>
      Some (if ok then Done (str "ping " ++ host ++ str " ok") else Fail (str "ping " ++ host ++ str " got no reply"))
  | CallVoice number, CallResult reached detail =>
      Some (if reached then Done (str "called " ++ number ++ str ": " ++ detail)
            else Fail (str "call to " ++ number ++ str " did not reach the network: " ++ detail))
  | CallAt command, AtLines lines => Some (Done (take DETAIL_LIMIT (command ++ str " -> " ++ join_with (str "; ") lines)))
  | _, _ => None
  end.

Definition perform (quote : pystr -> pystr) (workers : pydict (list Z) worker_view) (picks : list nat) (v : TaskSpec) (a : answer) :
    option outcome :=
  match perform_call quote workers picks v with
  | inl why => Some (Skip why)
  | inr c => call_outcome c a
  end.

(** ** Retries *)

Record verdict := mkVerdict { v_status : pystr; v_attempts : nat; v_detail : pystr; v_error : option pystr; v_slept : Z }.

(** The loop of [_execute], [more] = [retry_max + 1 - attempts]; [o n] is the
    outcome of attempt [n].  [None]: the task was cancelled. *)
Fixpoint attempt_loop (retry_delay : Z) (o : nat -> outcome) (retry_max attempts more : nat) (error : option pystr) (slept : Z) :
    option verdict :=
  match more with
  | O => Some (mkVerdict (str "failed") attempts [] error slept)
  | S more =>
      let attempts := S attempts in
      match o attempts with
      | Cancel => None
      | Skip why => Some (mkVerdict (str "skipped") attempts [] (Some why) slept)
      | Done detail => Some (mkVerdict (str "ok") attempts detail None slept)
      | Fail e =>
          if (attempts <=? retry_max)%nat
          then attempt_loop retry_delay o retry_max attempts more (Some e) (slept + retry_delay * Z.of_nat attempts)
          else Some (mkVerdict (str "failed") attempts [] (Some e) slept)
      end
  end.

Definition execute (retry_delay : Z) (o : nat -> outcome) (v : TaskSpec) : option verdict :=
  let retry_max := Z.to_nat (Z.max 0 (t_retry_max v)) in
  attempt_loop retry_delay o retry_max 0 (retry_max + 1) None 0.

(** ** Planning and receipts *)

Section Agent.
Context (days_of : pystr -> option interval) (iso : aware -> pystr) (parse : pystr -> option aware)
  (error_text : ScheduleError -> pystr) (max_queued : Z).

(** [_parse] of a column. *)
Definition parse_column (v : option pystr) : option aware :=
  match v with None | Some [] => None | Some s => parse s end.

Definition report (run_id : json) (id : Z) (v : TaskSpec) (status : pystr) (attempts : nat) (detail : pystr)
    (error : option pystr) (moment : aware) (next_at : option pystr) (s : LocalStore) : LocalStore :=
  emit max_queued (str "task_result")
    [ (str "run_id", run_id); (str "task_id", JInt id); (str "device", JStr (t_device v));
      (str "ts", JStr (iso moment)); (str "status", JStr status); (str "attempts", JInt (Z.of_nat attempts));
      (str "detail", JStr (take DETAIL_LIMIT detail)); (str "error", jopt_str error);
      (str "next_run_at", jopt_str next_at); (str "notify", JBool (t_notify_on_result v)) ] s.

(** [_plan]: when to run first, stored; or a receipt that the schedule is bad. *)
Definition plan (id : Z) (row : task_row) (now : aware) (jitter : Z) (s : LocalStore) :
    res fault (option aware) * LocalStore :=
  let v := t_spec row in
  let anchor := if bool_decide (t_schedule_type v = str "cron") then now
                else default now (parse_column (last_run_at row)) in
  match next_run days_of v anchor now jitter with
  | Ok m => (Ok (Some m), set_task_next_run id (Some (iso m)) s)
  | Err (Bad e) => (Ok None, report JNull id v (str "skipped") 0 [] (Some (str "bad schedule: " ++ error_text e)) now None s)
  | Err e => (Err e, s)
  end.

(** [_reschedule] *)
Definition reschedule (id : Z) (row : task_row) (finished : aware) (ran : bool) (jitter : Z) (s : LocalStore) :
    res fault (option pystr) * LocalStore :=
  let last := if ran then Some (iso finished) else last_run_at row in
  match next_run days_of (t_spec row) finished finished jitter with
  | Ok m => (Ok (Some (iso m)), mark_task_run id last (Some (iso m)) s)
  | Err (Bad _) => (Ok None, mark_task_run id last None s)
  | Err e => (Err e, s)
  end.

(** ** The tick *)

(** SELECT * FROM tasks ORDER BY id *)
Definition task_le (a b : Z * task_row) : Prop := a.1 <= b.1.
#[export] Instance task_le_dec a b : Decision (task_le a b).
Proof. unfold task_le. apply _. Defined.
Definition all_tasks (s : LocalStore) : list (Z * task_row) := merge_sort task_le (map_to_list (tasks s)).

Fixpoint tick_loop (now : aware) (jitter : Z -> Z) (rows : list (Z * task_row)) (started : list (Z * task_row)) (y : scheduler) :
    res fault (list (Z * task_row)) * scheduler :=
  match rows with
  | [] => (Ok started, y)
  | (id, row) :: rows =>
      if negb (t_enabled (t_spec row)) || bool_decide (id ∈ sc_running y) then tick_loop now jitter rows started y
      else
        let '(due, s) := match parse_column (next_run_at row) with
                         | Some due => (Ok (Some due), sc_store y)
                         | None => plan id row now (jitter id) (sc_store y)
                         end in
        match due with
        | Err e => (Err e, mkScheduler s (sc_running y))
        | Ok None => tick_loop now jitter rows started (mkScheduler s (sc_running y))
        | Ok (Some due) =>
            if a_utc now <? a_utc due then tick_loop now jitter rows started (mkScheduler s (sc_running y))
            else tick_loop now jitter rows (started ++ [(id, row)]) (mkScheduler s (sc_running y ++ [id]))
        end
  end.

Definition tick_once (now : aware) (jitter : Z -> Z) (y : scheduler) : res fault (list (Z * task_row)) * scheduler :=
  tick_loop now jitter (all_tasks (sc_store y)) [] y.

(** ** The end of a run *)

Definition release (id : Z) (y : scheduler) : scheduler := mkScheduler (sc_store y) (filter (fun x => x <> id) (sc_running y)).

(** A run that was started from [row] ends: cancelled, or after its retries. *)
Definition finish (retry_delay : Z) (o : nat -> outcome) (id : Z) (row : task_row) (finished : aware) (jitter : Z) (y : scheduler) :
    scheduler :=
  release id
    match execute retry_delay o (t_spec row) with
    | None => y
    | Some w =>
        let ran := negb (bool_decide (v_status w = str "skipped")) in
        match reschedule id row finished ran jitter (sc_store y) with
        | (Ok planned, s) =>
            mkScheduler (report JNull id (t_spec row) (v_status w) (v_attempts w) (v_detail w) (v_error w) finished planned s)
              (sc_running y)
        | (Err _, s) => mkScheduler s (sc_running y)
        end
    end.

(** ** Runs on request *)

Inductive refusal := NoSuchTask | AlreadyRunning.

Definition run_now (id : Z) (y : scheduler) : refusal + (task_row * scheduler) :=
  match task id (sc_store y) with
  | None => inl NoSuchTask
  | Some row =>
      if bool_decide (id ∈ sc_running y) then inl AlreadyRunning
      else inr (row, mkScheduler (sc_store y) (sc_running y ++ [id]))
  end.

(** [run_manual] up to the hardware: the schedule is advanced first. *)
Definition manual_begin (id : Z) (now : aware) (jitter : Z) (y : scheduler) :
    refusal + (task_row * res fault (option pystr) * scheduler) :=
  match task id (sc_store y) with
  | None => inl NoSuchTask
  | Some row =>
      if bool_decide (id ∈ sc_running y) then inl AlreadyRunning
      else
        match reschedule id row now true jitter (sc_store y) with
        | (Ok planned, s) => inr (row, Ok planned, mkScheduler s (sc_running y ++ [id]))
        | (Err e, s) => inr (row, Err e, mkScheduler s (sc_running y))
        end
  end.

(** ... and after it: one attempt, no retries. *)
Definition manual_end (run_id : json) (id : Z) (row : task_row) (o : outcome) (planned : option pystr) (now : aware) (y : scheduler) :
    scheduler :=
  let receipt status n detail error :=
    mkScheduler (report run_id id (t_spec row) (str status) n detail error now planned (sc_store y)) (sc_running y) in
  release id
    match o with
    | Done detail => receipt "ok"%string 1%nat detail None
    | Skip why => receipt "skipped"%string 0%nat [] (Some why)
    | Fail e => receipt "unknown"%string 1%nat [] (Some e)
    | Cancel => receipt "unknown"%string 1%nat [] (Some (str "execution interrupted"))
    end.

(** ** The tick's choice *)

(** When a task is due at a tick: its stored time, or the plan made for it. *)
Definition due_at (now : aware) (jitter : Z -> Z) (id : Z) (row : task_row) : res fault (option aware) :=
  match parse_column (next_run_at row) with
  | Some due => Ok (Some due)
  | None =>
      let anchor := if bool_decide (t_schedule_type (t_spec row) = str "cron") then now
                    else default now (parse_column (last_run_at row)) in
      match next_run days_of (t_spec row) anchor now (jitter id) with
      | Ok m => Ok (Some m)
      | Err (Bad _) => Ok None
      | Err e => Err e
      end
  end.

Lemma plan_due now jitter id row s :
  parse_column (next_run_at row) = None -> (plan id row now (jitter id) s).1 = due_at now jitter id row.
Proof. intros E. unfold plan, due_at. rewrite E. destruct (next_run _ _ _ _ _) as [m|[e| |]]; done. Qed.

Lemma emit_tasks k p s : tasks (emit max_queued k p s) = tasks s.
Proof. unfold emit, trim_events. by case_match. Qed.

Lemma plan_tasks now jitter id row s :
  parse_column (next_run_at row) = None ->
  forall i, i <> id \/ (forall d, due_at now jitter id row <> Ok (Some d)) -> tasks (plan id row now (jitter id) s).2 !! i = tasks s !! i.
Proof.
  intros E i Hi. rewrite <- (plan_due now jitter id row s E) in Hi. unfold plan in *. destruct (next_run _ _ _ _ _) as [m|[e| |]]; cbn [fst snd] in *; try done.
  - destruct Hi as [Hi|Hi]; [|by destruct (Hi m)]. cbn. by rewrite lookup_alter_ne.
  - unfold report. by rewrite emit_tasks.
Qed.

Definition wants (now : aware) (jitter : Z -> Z) (running : list Z) (id : Z) (row : task_row) : Prop :=
  t_enabled (t_spec row) = true /\ id ∉ running
  /\ exists d, due_at now jitter id row = Ok (Some d) /\ a_utc d <= a_utc now.

(** One row of the loop. *)
Lemma tick_loop_cons now jitter id row rows started y :
  exists s, (forall i, i <> id \/ (forall d, due_at now jitter id row <> Ok (Some d)) -> tasks s !! i = tasks (sc_store y) !! i)
  /\ tick_loop now jitter ((id, row) :: rows) started y =
    if negb (t_enabled (t_spec row)) || bool_decide (id ∈ sc_running y) then tick_loop now jitter rows started y
    else match due_at now jitter id row with
         | Err e => (Err e, mkScheduler s (sc_running y))
         | Ok None => tick_loop now jitter rows started (mkScheduler s (sc_running y))
         | Ok (Some due) =>
             if a_utc now <? a_utc due then tick_loop now jitter rows started (mkScheduler s (sc_running y))
             else tick_loop now jitter rows (started ++ [(id, row)]) (mkScheduler s (sc_running y ++ [id]))
         end.
Proof.
  cbn [tick_loop]. destruct (negb _ || _); [by exists (sc_store y)|].
  destruct (parse_column (next_run_at row)) as [d|] eqn:E.
  - exists (sc_store y). unfold due_at. by rewrite E.
  - pose proof (plan_tasks now jitter id row (sc_store y) E) as Ht.
    rewrite <- (plan_due now jitter id row (sc_store y) E) in *. destruct (plan id row now (jitter id) (sc_store y)) as [due s].
    exists s. split; [exact Ht|]. by destruct due as [[d|]|e].
Qed.

Lemma skip_row now jitter (running : list Z) id row :
  negb (t_enabled (t_spec row)) || bool_decide (id ∈ running) = true -> ~ wants now jitter running id row.
Proof. intros [H|H%bool_decide_eq_true]%orb_prop (He & Hn & _); [by rewrite He in H|done]. Qed.

Lemma tick_loop_ok now jitter rows : forall started y st y', NoDup rows.*1 ->
  tick_loop now jitter rows started y = (Ok st, y') ->
  exists new, st = started ++ new /\ sc_running y' = sc_running y ++ new.*1 /\ new.*1 `sublist_of` rows.*1
  /\ forall id row, (id, row) ∈ new <-> (id, row) ∈ rows /\ wants now jitter (sc_running y) id row.
Proof.
  induction rows as [|[id row] rows IH]; intros started y st y' Hn H.
  { cbn in H. injection H as <- <-. exists []. rewrite !app_nil_r. split_and!; [done..|].
    intros i r. split; [by intros ?%not_elem_of_nil|by intros [?%not_elem_of_nil _]]. }
  rewrite fmap_cons in Hn. apply NoDup_cons in Hn as [Hid Hn].
  assert (Hne : forall i r, (i, r) ∈ rows -> i <> id) by (intros i r Hr ->; by apply Hid, (list_elem_of_fmap_2 fst _ _ Hr)).
  destruct (tick_loop_cons now jitter id row rows started y) as (s & _ & Es). rewrite Es in H. clear Es.
  destruct (negb _ || _) eqn:Ek.
  { destruct (IH started y st y' Hn H) as (new & -> & Er & Hsub & Hnew). exists new. split_and!; [done..|by apply sublist_cons|]. intros i r. rewrite Hnew, elem_of_cons.
    apply (skip_row now jitter) in Ek. naive_solver. }
  assert (Hw : t_enabled (t_spec row) = true /\ id ∉ sc_running y).
  { apply orb_false_iff in Ek as [H1 H2]. split; [by destruct (t_enabled _)|by apply bool_decide_eq_false in H2]. }
  destruct (due_at now jitter id row) as [[d|]|e] eqn:Ed; [destruct (Z.ltb_spec (a_utc now) (a_utc d)) as [Hl|Hl]| |done].
  - destruct (IH _ _ _ _ Hn H) as (new & -> & Er & Hsub & Hnew). exists new. split_and!; [done..|by apply sublist_cons|]. intros i r. rewrite Hnew, elem_of_cons.
    cbn [sc_running]. split; [naive_solver|]. intros [[[= -> ->]|Hr] Hwant]; [|done]. exfalso.
    destruct Hwant as (_ & _ & d' & E' & Hle). rewrite Ed in E'. injection E' as <-. lia.
  - destruct (IH _ _ _ _ Hn H) as (new & -> & Er & Hsub & Hnew). cbn [sc_running] in *. exists ((id, row) :: new).
    rewrite <- !app_assoc. split_and!; [done|by rewrite Er, <- app_assoc|by apply sublist_skip|]. intros i r. rewrite !elem_of_cons, Hnew.
    unfold wants. setoid_rewrite not_elem_of_app. setoid_rewrite list_elem_of_singleton. split.
    + intros [[= -> ->]|(Hr & H1 & [H2 H3] & H4)]; [|by split_and!; [right|..]]. split; [by left|]. split_and!; [apply Hw..|]. by exists d.
    + intros [[[= -> ->]|Hr] (H1 & H2 & H3)]; [by left|right]. split_and!; try done. by eapply Hne.
  - destruct (IH _ _ _ _ Hn H) as (new & -> & Er & Hsub & Hnew). exists new. split_and!; [done..|by apply sublist_cons|]. intros i r. rewrite Hnew, elem_of_cons.
    cbn [sc_running]. split; [naive_solver|]. intros [[[= -> ->]|Hr] Hwant]; [|done]. exfalso.
    destruct Hwant as (_ & _ & d' & E' & _). by rewrite Ed in E'.
Qed.

(** The loop ends at the first row that raises. *)
Lemma tick_loop_err now jitter pre id row post e : forall started y, NoDup (pre ++ (id, row) :: post).*1 ->
  t_enabled (t_spec row) = true -> id ∉ sc_running y -> due_at now jitter id row = Err e ->
  exists e' y' new, tick_loop now jitter (pre ++ (id, row) :: post) started y = (Err e', y')
  /\ sc_running y' = sc_running y ++ new /\ new ⊆ pre.*1
  /\ tasks (sc_store y') !! id = tasks (sc_store y) !! id.
Proof.
  induction pre as [|[i r] pre IH]; intros started y Hn He Hr Ed; cbn [app].
  - destruct (tick_loop_cons now jitter id row post started y) as (s & Hs & ->). rewrite He, bool_decide_eq_false_2, Ed by done. cbn.
    exists e, (mkScheduler s (sc_running y)), []. rewrite app_nil_r. split_and!; [done..|]. apply Hs. right. by rewrite Ed.
  - cbn [app] in Hn. rewrite fmap_cons in Hn. apply NoDup_cons in Hn as [Hi Hn].
    assert (Hne : id <> i) by (intros ->; apply Hi; rewrite fmap_app; apply elem_of_app; right; left).
    destruct (tick_loop_cons now jitter i r (pre ++ (id, row) :: post) started y) as (s & Ht & ->).
    destruct (negb _ || _); [|destruct (due_at now jitter i r) as [[d|]|e0]; [destruct (a_utc now <? a_utc d)| |]].
    + destruct (IH started y) as (e' & y' & new & -> & Er & Hs & Et); [done..|]. exists e', y', new. split_and!; [done|done|set_solver|]; rewrite ?Et; first [done|apply Ht; by left].
    + destruct (IH started (mkScheduler s (sc_running y))) as (e' & y' & new & -> & Er & Hs & Et); [done..|]. exists e', y', new. split_and!; [done|done|set_solver|]; rewrite ?Et; first [done|apply Ht; by left].
    + destruct (IH (started ++ [(i, r)]) (mkScheduler s (sc_running y ++ [i]))) as (e' & y' & new & -> & Er & Hs & Et); [done|done| |done|].
      { cbn. rewrite not_elem_of_app, list_elem_of_singleton. by split. }
      exists e', y', (i :: new). cbn in Er. rewrite Er, <- app_assoc. split_and!; [done|done|set_solver|]; rewrite ?Et; first [done|apply Ht; by left].
    + destruct (IH started (mkScheduler s (sc_running y))) as (e' & y' & new & -> & Er & Hs & Et); [done..|]. exists e', y', new. split_and!; [done|done|set_solver|]; rewrite ?Et; first [done|apply Ht; by left].
    + exists e0, (mkScheduler s (sc_running y)), []. rewrite app_nil_r. split_and!; [done|done|set_solver|]; rewrite ?Et; first [done|apply Ht; by left].
Qed.

#[export] Instance task_le_trans : Transitive task_le.
Proof. intros a b c. unfold task_le. lia. Qed.
#[export] Instance task_le_total : Total task_le.
Proof. intros a b. unfold task_le. lia. Qed.

Lemma all_tasks_elem s id row : (id, row) ∈ all_tasks s <-> tasks s !! id = Some row.
Proof. unfold all_tasks. rewrite merge_sort_Permutation. apply elem_of_map_to_list. Qed.

Lemma all_tasks_keys s : NoDup (all_tasks s).*1.
Proof.
  unfold all_tasks. rewrite (merge_sort_Permutation task_le). apply NoDup_fst_map_to_list.
Qed.

Lemma all_tasks_sorted s : StronglySorted task_le (all_tasks s).
Proof. apply StronglySorted_merge_sort; apply _. Qed.

(** The tasks before one of them have smaller ids. *)
Lemma all_tasks_split s id row : tasks s !! id = Some row ->
  exists pre post, all_tasks s = pre ++ (id, row) :: post /\ Forall (fun i => i < id) pre.*1.
Proof.
  intros H. apply all_tasks_elem in H. apply list_elem_of_split in H as (pre & post & E). exists pre, post. split; [done|].
  apply List.Forall_forall. intros i (r & <- & Hr)%in_map_iff.
  pose proof (all_tasks_sorted s) as Hs. pose proof (all_tasks_keys s) as Hn. rewrite E in Hs, Hn.
  assert (Hle : task_le r (id, row)).
  { eapply (StronglySorted_app_1_elem_of task_le pre); [exact Hs|by apply list_elem_of_In|left]. }
  rewrite fmap_app, fmap_cons in Hn. apply NoDup_app in Hn as (_ & Hn & _).
  assert (Hne : r.1 <> id). { intros E'. apply (Hn r.1); [apply list_elem_of_fmap; exists r; split; [done|by apply list_elem_of_In]|rewrite E'; left]. }
  unfold task_le in Hle. cbn in Hle. lia.
Qed.

(** ** Properties *)

(** C32 (safety): a tick that completes starts exactly the enabled tasks that are
    due and not running already -- a task with no stored time is planned first
    and started only if its plan is due -- and never a task twice: if no task
    ran twice before, none does after. *)
Theorem tick_starts_exactly_due (now : aware) (jitter : Z -> Z) (y y' : scheduler) started :
  tick_once now jitter y = (Ok started, y') ->
  sc_running y' = sc_running y ++ started.*1
  /\ (NoDup (sc_running y) -> NoDup (sc_running y'))
  /\ forall id row, (id, row) ∈ started <-> tasks (sc_store y) !! id = Some row /\ wants now jitter (sc_running y) id row.
Proof.
  intros H. destruct (tick_loop_ok now jitter _ [] y started y' (all_tasks_keys (sc_store y)) H) as (new & -> & Er & Hsub & Hnew).
  cbn [app]. split; [done|]. split.
  - intros Hn. rewrite Er. apply NoDup_app. split; [done|].
    split; [|eapply sublist_NoDup; [apply all_tasks_keys|exact Hsub]].
    intros i Hi ([i' r] & -> & Hi')%list_elem_of_fmap. apply Hnew in Hi' as (_ & _ & Hi' & _). done.
  - intros id row. by rewrite Hnew, all_tasks_elem.
Qed.

(** What the receipt says when attempt [k] of at most [n + 1] was the last. *)
Definition receipt_of (retry_delay : Z) (n k : nat) (last : outcome) (w : option verdict) : Prop :=
  match last with
  | Cancel => w = None
  | r => exists w', w = Some w' /\ v_attempts w' = k /\ 2 * v_slept w' = retry_delay * (Z.of_nat k - 1) * Z.of_nat k
         /\ match r with
            | Done d => v_status w' = str "ok" /\ v_detail w' = d /\ v_error w' = None
            | Skip e => v_status w' = str "skipped" /\ v_error w' = Some e
            | Fail e => v_status w' = str "failed" /\ v_error w' = Some e /\ k = (n + 1)%nat
            | Cancel => False
            end
  end.

Lemma attempt_loop_ends retry_delay o n : forall more attempts error slept,
  (more + attempts = n + 1)%nat -> (0 < more)%nat ->
  2 * slept = retry_delay * Z.of_nat attempts * (Z.of_nat attempts + 1) ->
  (forall j, (1 <= j <= attempts)%nat -> exists e, o j = Fail e) ->
  exists k, (1 <= k <= n + 1)%nat /\ (forall j, (1 <= j < k)%nat -> exists e, o j = Fail e)
  /\ receipt_of retry_delay n k (o k) (attempt_loop retry_delay o n attempts more error slept).
Proof.
  induction more as [|more IH]; intros attempts error slept Hm Hpos Hs Hf; [lia|]. cbn [attempt_loop].
  destruct (o (S attempts)) as [d|e|e|] eqn:Eo.
  1,2,4: exists (S attempts); rewrite Eo; split; [lia|]; split; [intros j Hj; apply Hf; lia|]; try done;
    (eexists; split; [reflexivity|]; split_and!; try done; cbn [v_slept]; rewrite Nat2Z.inj_succ; lia).
  destruct (Nat.leb_spec (S attempts) n) as [Hle|Hgt].
  - apply IH; [lia|lia| |].
    + rewrite Nat2Z.inj_succ. nia.
    + intros j Hj. destruct (decide (j = S attempts)) as [->|]; [by exists e|]. apply Hf. lia.
  - exists (S attempts). rewrite Eo. split; [lia|]. split; [intros j Hj; apply Hf; lia|].
    eexists. split; [reflexivity|]. split_and!; try done; [cbn [v_slept]; rewrite Nat2Z.inj_succ; lia|lia].
Qed.

(** The retries of one execution end.  There are at most
    [retry_max] of them; every attempt but the last failed, the waits grow
    linearly, and the receipt says how the last attempt went; only a
    cancellation leaves no receipt. *)
Theorem execute_ends (retry_delay : Z) (o : nat -> outcome) (v : TaskSpec) :
  let n := Z.to_nat (Z.max 0 (t_retry_max v)) in
  exists k, (1 <= k <= n + 1)%nat /\ (forall j, (1 <= j < k)%nat -> exists e, o j = Fail e)
  /\ receipt_of retry_delay n k (o k) (execute retry_delay o v).
Proof. intros n. apply attempt_loop_ends; [lia|lia|lia|intros; lia]. Qed.

(** ** Schedules that cannot be honoured *)

Fixpoint ticks (l : list (aware * (Z -> Z))) (y : scheduler) : scheduler :=
  match l with
  | [] => y
  | (now, jitter) :: l => ticks l (tick_once now jitter y).2
  end.

(** A tick with a task whose plan raises. *)
Lemma tick_raises now jitter y id row e :
  tasks (sc_store y) !! id = Some row -> t_enabled (t_spec row) = true -> id ∉ sc_running y ->
  due_at now jitter id row = Err e ->
  exists e' y', tick_once now jitter y = (Err e', y')
  /\ tasks (sc_store y') !! id = Some row /\ id ∉ sc_running y'
  /\ forall i, i ∈ sc_running y' -> i ∈ sc_running y \/ i < id.
Proof.
  intros Ht He Hr Hd. destruct (all_tasks_split _ _ _ Ht) as (pre & post & E & Hpre).
  pose proof (all_tasks_keys (sc_store y)) as Hn. rewrite E in Hn.
  destruct (tick_loop_err now jitter pre id row post e [] y Hn He Hr Hd) as (e' & y' & new & El & Er & Hs & Et).
  exists e', y'. unfold tick_once. rewrite E. split; [exact El|]. split; [by rewrite Et|].
  assert (Hlt : forall i, i ∈ new -> i < id).
  { intros i Hi%Hs. rewrite List.Forall_forall in Hpre. by apply Hpre, list_elem_of_In. }
  rewrite Er. split; [intros [H|H]%elem_of_app; [done|apply Hlt in H; lia]|].
  intros i [H|H]%elem_of_app; [by left|right; by apply Hlt].
Qed.

(** An enabled, unplanned interval task whose interval is not a number
    or longer than a [timedelta] holds ("nan", "inf", "1e12": neither end checks
    it) raises something other than ScheduleError in [_plan], which ends the
    tick.  However often the clock ticks, no tick completes and no task with a
    larger id is ever started, whatever is due. *)
Theorem unplannable_task_halts_ticks (l : list (aware * (Z -> Z))) (y : scheduler) (id : Z) (row : task_row) :
  tasks (sc_store y) !! id = Some row -> t_enabled (t_spec row) = true -> id ∉ sc_running y ->
  parse_column (next_run_at row) = None -> t_schedule_type (t_spec row) = str "interval" ->
  strip (t_schedule_expr (t_spec row)) <> [] ->
  (days_of (strip (t_schedule_expr (t_spec row))) = Some IsNan \/ days_of (strip (t_schedule_expr (t_spec row))) = Some TooLong) ->
  (forall i, i ∈ sc_running (ticks l y) -> i ∈ sc_running y \/ i < id)
  /\ forall now jitter, exists e y', tick_once now jitter (ticks l y) = (Err e, y').
Proof.
  intros Ht He Hr Hp Hk Hne Hd.
  assert (Hdue : forall now jitter, exists e, due_at now jitter id row = Err e).
  { intros now jitter. unfold due_at. rewrite Hp. unfold next_run. rewrite Hk.
    change (bool_decide (str "interval" = str "cron")) with false.
    change (match str "interval" with [] => str "interval" | _ => str "interval" end) with (str "interval").
    rewrite (bool_decide_eq_true_2 (str "interval" = str "interval")) by done.
    change (bool_decide (str "interval" = str "cron")) with false. cbn iota.
    unfold next_interval. destruct (strip (t_schedule_expr (t_spec row))) as [|c s] eqn:Es; [done|].
    destruct Hd as [-> | ->]; by eexists. }
  revert y Ht Hr. induction l as [|[now jitter] l IH]; intros y Ht Hr; cbn [ticks].
  - split; [by left|]. intros now jitter. destruct (Hdue now jitter) as [e Ed].
    destruct (tick_raises now jitter y id row e Ht He Hr Ed) as (e' & y' & -> & _). by exists e', y'.
  - destruct (Hdue now jitter) as [e Ed].
    destruct (tick_raises now jitter y id row e Ht He Hr Ed) as (e' & y' & -> & Ht' & Hr' & Hi). cbn [snd].
    destruct (IH y' Ht' Hr') as [H1 H2]. split; [|exact H2]. intros i [H|H]%H1; [by apply Hi|by right].
Qed.

Lemma emit_seq k p s : events_seq (emit max_queued k p s) = events_seq s + 1.
Proof. unfold emit, trim_events. by case_match. Qed.

(** A task whose schedule is refused with ScheduleError never starts
    and keeps no planned time, as intended -- and every single tick queues
    another receipt for it. *)
Theorem bad_schedule_reported_every_tick (l : list (aware * (Z -> Z))) (y : scheduler) (id : Z) (row : task_row) (e : ScheduleError) :
  tasks (sc_store y) = {[ id := row ]} -> t_enabled (t_spec row) = true -> id ∉ sc_running y ->
  parse_column (next_run_at row) = None -> t_schedule_type (t_spec row) = str "cron" ->
  parse_cron (strip (t_schedule_expr (t_spec row))) = Err e ->
  tasks (sc_store (ticks l y)) = {[ id := row ]} /\ sc_running (ticks l y) = sc_running y
  /\ events_seq (sc_store (ticks l y)) = events_seq (sc_store y) + Z.of_nat (length l).
Proof.
  intros Ht He Hr Hp Hk Hc. revert y Ht Hr. induction l as [|[now jitter] l IH]; intros y Ht Hr; cbn [ticks].
  { split_and!; [done..|cbn; lia]. }
  assert (E : exists s, tick_once now jitter y = (Ok [], mkScheduler s (sc_running y))
                        /\ tasks s = {[ id := row ]} /\ events_seq s = events_seq (sc_store y) + 1).
  { assert (Ea : all_tasks (sc_store y) = [(id, row)]) by (unfold all_tasks; rewrite Ht, map_to_list_singleton; reflexivity).
    unfold tick_once. rewrite Ea. cbn [tick_loop].
    rewrite He, bool_decide_eq_false_2 by done. cbn [negb orb]. rewrite Hp. unfold plan, next_run. rewrite Hk.
    rewrite (bool_decide_eq_true_2 (str "cron" = str "cron")) by done.
    change (match str "cron" with [] => str "interval" | _ => str "cron" end) with (str "cron").
    rewrite (bool_decide_eq_true_2 (str "cron" = str "cron")) by done.
    unfold next_cron_aware. rewrite (next_cron_bad _ e _ Hc). cbn [mbind res_bind].
    eexists. split; [reflexivity|]. unfold report. by rewrite emit_tasks, emit_seq, Ht. }
  destruct E as (s & -> & Hs & Hq). cbn [snd]. destruct (IH (mkScheduler s (sc_running y)) Hs Hr) as (H1 & H2 & H3).
  split_and!; [done|done|]. rewrite H3. cbn [sc_store]. rewrite Hq. cbn [length]. lia.
Qed.
End Agent.

(** ** Witnesses *)

Definition sample_iso (a : aware) : pystr := decimal (a_utc a / SECOND).
Definition sample_parse (s : pystr) : option aware := (fun n => mkAware (n * SECOND) 0) <$> py_int s.
Definition sample_days (s : pystr) : option interval :=
  if bool_decide (s = str "nan") then Some IsNan else if bool_decide (s = str "inf") then Some TooLong
  else n ← py_int s; Some (if n <=? 0 then NotPositive else Span (n * DAY)).
Definition sample_error (e : ScheduleError) : pystr := str "bad".

Definition keepalive (kind expr : string) : TaskSpec :=
  mkTaskSpec (str "sim1") (str "alive") true (str "send_sms") (str "10086") (str "1") (str kind) (str expr) 0 false 3 true.
Definition with_tasks (ts : list (Z * task_row)) : scheduler := mkScheduler (set_tasks (list_to_map ts) fresh_db) [].
Definition noon : aware := mkAware (740000 * DAY) 0.

Definition sample_y : scheduler :=
  with_tasks [(1, mkTask (keepalive "interval" "25") None (Some (decimal (740000 * 86400))));
              (2, mkTask (keepalive "interval" "25") None None)].

Lemma tick_starts_exactly_due_witness :
  exists started y', tick_once sample_days sample_iso sample_parse sample_error 100 noon (fun _ => 0) sample_y = (Ok started, y')
  /\ sc_running y' = [1] /\ sc_running y' = sc_running sample_y ++ started.*1.
Proof.
  destruct (tick_once sample_days sample_iso sample_parse sample_error 100 noon (fun _ => 0) sample_y) as [[started|e] y'] eqn:E;
    [|by vm_compute in E].
  exists started, y'. split; [reflexivity|]. split; [by vm_compute in E; injection E as _ <-|].
  exact (proj1 (tick_starts_exactly_due sample_days sample_iso sample_parse sample_error 100 noon (fun _ => 0) sample_y y' started E)).
Defined.

Definition poisoned : scheduler :=
  with_tasks [(1, mkTask (keepalive "interval" "nan") None None);
              (2, mkTask (keepalive "interval" "25") None (Some (str "1")))].

Lemma unplannable_task_halts_ticks_witness :
  sc_running (ticks sample_days sample_iso sample_parse sample_error 100 [(noon, fun _ => 0); (noon, fun _ => 0)] poisoned) = []
  /\ forall i, i ∈ sc_running (ticks sample_days sample_iso sample_parse sample_error 100 [(noon, fun _ => 0); (noon, fun _ => 0)] poisoned) ->
      i ∈ sc_running poisoned \/ i < 1.
Proof.
  split; [vm_compute; reflexivity|].
  apply (unplannable_task_halts_ticks sample_days sample_iso sample_parse sample_error 100 _ poisoned 1 (mkTask (keepalive "interval" "nan") None None));
    [vm_compute; reflexivity|reflexivity|by intros ?%not_elem_of_nil|reflexivity|reflexivity|by vm_compute|left; vm_compute; reflexivity].
Defined.

Definition weekly : scheduler := with_tasks [(1, mkTask (keepalive "cron" "weekly") None None)].

Lemma bad_schedule_reported_every_tick_witness :
  events_seq (sc_store (ticks sample_days sample_iso sample_parse sample_error 100
                          [(noon, fun _ => 0); (noon, fun _ => 0); (noon, fun _ => 0)] weekly)) = 3.
Proof.
  destruct (bad_schedule_reported_every_tick sample_days sample_iso sample_parse sample_error 100
              [(noon, fun _ => 0); (noon, fun _ => 0); (noon, fun _ => 0)] weekly 1
              (mkTask (keepalive "cron" "weekly") None None) (FieldCount 1)) as (_ & _ & E);
    [vm_compute; reflexivity|reflexivity|by intros ?%not_elem_of_nil|reflexivity|reflexivity|vm_compute; reflexivity|].
  exact E.
Defined.
End Scheduler.
