(* ===== verification/Commands.v ===== *)
(** * Bounded command execution (agent/src/air780e_agent/commands.py)

    [CommandDispatcher] as a state machine.  The event loop interleaves
    [submit], [discard_queued], [stop] and the steps of each queue's worker
    task; what happens between two awaits of [_worker] is one step.  The
    handler's behaviour is its outcome, and the calls to [reject] are outputs. *)

From S2P Require Import Prelude PyDict Json.

Module Dispatcher.

Abbreviation qkey := (option (list Z)) (only parsing).

Record queue := mkQueue { frames : list frame; running : bool }.

Record CommandDispatcher := mkDispatcher {
  max_pending : Z; max_per_device : Z; max_workers : Z;
  queues : pydict qkey queue; pending : Z; stopped : bool }.

Definition MAX_PENDING_COMMANDS : Z := 200.
Definition MAX_DEVICE_COMMANDS : Z := 16.
Definition MAX_COMMAND_WORKERS : Z := 32.

Definition new_dispatcher : CommandDispatcher :=
  mkDispatcher MAX_PENDING_COMMANDS MAX_DEVICE_COMMANDS MAX_COMMAND_WORKERS [] 0 false.

Definition with_queues (qs : pydict qkey queue) (p : Z) (d : CommandDispatcher) : CommandDispatcher :=
  mkDispatcher (max_pending d) (max_per_device d) (max_workers d) qs p (stopped d).

(** Why a command did not run to completion. *)
Inductive reason := Stopping | QueueFull | Disconnected | StoppedRunning | HandlerFailed.

(** What a step does to the outside world.  [Refused] and [Rejected] are both
    calls to [reject]: of a command that was never queued, and of one that was. *)
Inductive effect :=
| Accepted (k : qkey) (f : frame)
| Started (k : qkey) (f : frame)
| Finished (k : qkey) (f : frame)
| Refused (f : frame) (why : reason)
| Rejected (f : frame) (why : reason).

(** ** Submission *)

Definition key_of_frame (f : frame) : qkey :=
  let device := match jget "device" f with
                | JStr s => if bool_decide (s = []) then None else Some s
                | _ => None
                end in
  match jget "type" f with
  | JStr t => if bool_decide (t = str "sync_tasks" \/ t = str "run_task") then None else device
  | _ => device
  end.

Definition qlen (q : queue) : Z := Z.of_nat (length (frames q)).

Definition submit (f : frame) (d : CommandDispatcher) : bool * list effect * CommandDispatcher :=
  if stopped d then (false, [Refused f Stopping], d)
  else
    let k := key_of_frame f in
    let q := dict_get k (queues d) in
    if (max_pending d <=? pending d)
       || match q with
          | Some q => max_per_device d <=? qlen q
          | None => max_workers d <=? Z.of_nat (length (queues d))
          end
    then (false, [Refused f QueueFull], d)
    else
      let q := default (mkQueue [] false) q in
      (true, [Accepted k f],
       with_queues (dict_set k (mkQueue (frames q ++ [f]) (running q)) (queues d)) (pending d + 1) d).

(** ** Worker steps *)

(** The loop test and the start of [await self.execute(frame)]; an empty queue
    ends the task, which removes its entry. *)
Definition worker_begin (k : qkey) (d : CommandDispatcher) : option (list effect * CommandDispatcher) :=
  match dict_get k (queues d) with
  | Some q =>
      if running q then None
      else match frames q with
           | f :: _ => Some ([Started k f], with_queues (dict_set k (mkQueue (frames q) true) (queues d)) (pending d) d)
           | [] => Some ([], with_queues (dict_del k (queues d)) (pending d) d)
           end
  | None => None
  end.

Inductive outcome := Returned | Raised | Cancelled.

(** The end of [await self.execute(frame)], through the inner [finally]; a
    cancelled worker leaves through the outer one, any other one tests its
    loop again. *)
Definition worker_end (k : qkey) (o : outcome) (d : CommandDispatcher) : option (list effect * CommandDispatcher) :=
  match dict_get k (queues d) with
  | Some (mkQueue (f :: rest) true) =>
      let effects := match o with
                     | Returned => [Finished k f]
                     | Raised => [Rejected f HandlerFailed]
                     | Cancelled => [Rejected f StoppedRunning]
                     end in
      let qs := dict_set k (mkQueue rest false) (queues d) in
      let qs := match o, rest with
                | Cancelled, _ => dict_del k qs
                | _, [] => dict_del k qs
                | _, _ => qs
                end in
      Some (effects, with_queues qs (pending d - 1) d)
  | _ => None
  end.

(** ** Discarding and stopping *)

Definition keep_running (q : queue) : queue :=
  mkQueue (take (if running q then 1 else 0) (frames q)) (running q).

(** Popped from the right, so the newest is reported first. *)
Definition discarded (q : queue) : list frame := rev (drop (if running q then 1 else 0) (frames q)).

Definition discard_queued (why : reason) (d : CommandDispatcher) : list effect * CommandDispatcher :=
  let gone := mjoin (discarded <$> dict_values (queues d)) in
  ((fun f => Rejected f why) <$> gone,
   with_queues ((fun kq => (kq.1, keep_running kq.2)) <$> queues d)
     (pending d - Z.of_nat (length gone)) d).

(** The first part of [stop], up to the cancellation of the tasks. *)
Definition stop_begin (d : CommandDispatcher) : list effect * CommandDispatcher :=
  if stopped d then ([], d)
  else discard_queued Stopping
         (mkDispatcher (max_pending d) (max_per_device d) (max_workers d) (queues d) (pending d) true).

(** Once every task has ended. *)
Definition stop_end (d : CommandDispatcher) : CommandDispatcher := with_queues [] 0 d.

(** ** The step relation

    Only [stop] cancels the worker tasks. *)

Inductive step : CommandDispatcher -> list effect -> CommandDispatcher -> Prop :=
| step_submit f d b es d' : submit f d = (b, es, d') -> step d es d'
| step_begin k d es d' : worker_begin k d = Some (es, d') -> step d es d'
| step_end k o d es d' :
    (o = Cancelled -> stopped d = true) -> worker_end k o d = Some (es, d') -> step d es d'
| step_disconnect d es d' : discard_queued Disconnected d = (es, d') -> step d es d'
| step_stop d es d' : stop_begin d = (es, d') -> step d es d'
| step_stopped d : stopped d = true -> Forall (fun kq => frames kq.2 = []) (queues d) ->
    step d [] (stop_end d).

(** A history and its effects, oldest first. *)
Inductive steps : CommandDispatcher -> list effect -> CommandDispatcher -> Prop :=
| steps_nil d : steps d [] d
| steps_snoc d1 es d2 es' d3 : steps d1 es d2 -> step d2 es' d3 -> steps d1 (es ++ es') d3.

(** ** The invariant *)

Definition backlog (d : CommandDispatcher) : list frame := mjoin (frames <$> dict_values (queues d)).

Definition queue_ok (d : CommandDispatcher) (q : queue) : Prop :=
  qlen q <= max_per_device d /\ (running q = true -> frames q <> []) /\
  (stopped d = true -> (length (frames q) <= if running q then 1 else 0)%nat).

Definition inv (d : CommandDispatcher) : Prop :=
  dict_wf (queues d) /\ pending d = Z.of_nat (length (backlog d)) /\ 1 <= max_per_device d /\
  pending d <= Z.max 0 (max_pending d) /\ Z.of_nat (length (queues d)) <= Z.max 0 (max_workers d) /\
  forall k q, (k, q) ∈ queues d -> queue_ok d q.

Lemma backlog_perm (qs qs' : pydict qkey queue) :
  qs ≡ₚ qs' -> mjoin (frames <$> dict_values qs) ≡ₚ mjoin (frames <$> dict_values qs').
Proof. intros H. unfold dict_values. by rewrite H. Qed.

Lemma backlog_get k q (qs : pydict qkey queue) :
  dict_get k qs = Some q ->
  mjoin (frames <$> dict_values qs) ≡ₚ frames q ++ mjoin (frames <$> dict_values (dict_del k qs)).
Proof. intros H. by rewrite (backlog_perm _ _ (dict_perm_get k q qs H)). Qed.

Lemma backlog_set k q (qs : pydict qkey queue) :
  mjoin (frames <$> dict_values (dict_set k q qs)) ≡ₚ
  frames q ++ mjoin (frames <$> dict_values (dict_del k qs)).
Proof. by rewrite (backlog_perm _ _ (dict_set_perm k q qs)). Qed.

Lemma discard_backlog (qs : pydict qkey queue) :
  mjoin (frames <$> dict_values qs) ≡ₚ
  mjoin (discarded <$> dict_values qs) ++
  mjoin (frames <$> dict_values ((fun kq => (kq.1, keep_running kq.2)) <$> qs)).
Proof.
  unfold dict_values. induction qs as [|[k q] qs IH]; [done|]. rewrite !fmap_cons, !mjoin_cons. cbn [fst snd].
  rewrite IH. unfold discarded, keep_running. cbn [frames].
  rewrite <- (take_drop (if running q then 1 else 0) (frames q)) at 1.
  generalize (take (if running q then 1 else 0) (frames q)) as a, (drop (if running q then 1 else 0) (frames q)) as b.
  intros a b. rewrite <- (Permutation_rev b), (Permutation_app_comm a b), <- !app_assoc. f_equiv.
  rewrite !app_assoc. f_equiv. apply Permutation_app_comm.
Qed.

(** Per-step accounting: frames accepted, frames settled, frames queued. *)
Definition accepted_frames (es : list effect) : list frame :=
  omap (fun e => match e with Accepted _ f => Some f | _ => None end) es.
Definition settled_frames (es : list effect) : list frame :=
  omap (fun e => match e with Finished _ f => Some f | Rejected f _ => Some f | _ => None end) es.
Definition accepted_for (k : qkey) (es : list effect) : list frame :=
  omap (fun e => match e with Accepted k' f => if decide (k = k') then Some f else None | _ => None end) es.
Definition started_for (k : qkey) (es : list effect) : list frame :=
  omap (fun e => match e with Started k' f => if decide (k = k') then Some f else None | _ => None end) es.

(** The frames of queue [k] that have not started. *)
Definition waiting_of (q : queue) : list frame := drop (if running q then 1 else 0) (frames q).
Definition waiting (k : qkey) (d : CommandDispatcher) : list frame :=
  match dict_get k (queues d) with Some q => waiting_of q | None => [] end.

(** What one step owes: the invariant again, the books of accepted frames, and
    each queue's order. *)
Definition step_ok (d : CommandDispatcher) (es : list effect) (d' : CommandDispatcher) : Prop :=
  inv d' /\
  accepted_frames es ++ backlog d ≡ₚ settled_frames es ++ backlog d' /\
  forall k, started_for k es ++ waiting k d' `sublist_of` waiting k d ++ accepted_for k es.

Lemma waiting_set_ne k k' q qs p d :
  k <> k' -> waiting k (with_queues (dict_set k' q qs) p d) = waiting k (with_queues qs p d).
Proof. intros H. unfold waiting, with_queues. simpl. by rewrite dict_get_set_ne. Qed.

Lemma waiting_set k q qs p d : waiting k (with_queues (dict_set k q qs) p d) = waiting_of q.
Proof. unfold waiting, with_queues. simpl. by rewrite dict_get_set. Qed.

Lemma waiting_del_ne k k' qs p d :
  k <> k' -> waiting k (with_queues (dict_del k' qs) p d) = waiting k (with_queues qs p d).
Proof. intros H. unfold waiting, with_queues. simpl. by rewrite dict_get_del_ne. Qed.

Lemma waiting_same k p d : waiting k (with_queues (queues d) p d) = waiting k d.
Proof. done. Qed.

Lemma inv_set k q p d :
  inv d -> queue_ok d q -> Z.of_nat (length (dict_set k q (queues d))) <= Z.max 0 (max_workers d) ->
  p = Z.of_nat (length (mjoin (frames <$> dict_values (dict_set k q (queues d))))) ->
  p <= Z.max 0 (max_pending d) ->
  inv (with_queues (dict_set k q (queues d)) p d).
Proof.
  intros (Hw & Hp & H1 & H2 & H3 & Hq) Hok Hl Ep Hpp. split_and!; try done; [by apply dict_set_wf|].
  intros k' q' Hin. apply dict_set_lookup_in in Hin as [[-> ->]|[_ Hin]]; [done|by eapply Hq|done].
Qed.

Lemma inv_del k p d :
  inv d -> p = Z.of_nat (length (mjoin (frames <$> dict_values (dict_del k (queues d))))) ->
  inv (with_queues (dict_del k (queues d)) p d).
Proof.
  intros (Hw & Hp & H1 & H2 & H3 & Hq) Ep.
  assert (Hlen : (length (dict_del k (queues d)) <= length (queues d))%nat)
    by (apply sublist_length, dict_del_sublist).
  split_and!; try done; simpl; [by apply dict_del_wf| |lia|].
  - subst p. unfold backlog in Hp. destruct (dict_get k (queues d)) as [q|] eqn:E.
    + rewrite (Permutation_length (backlog_get k q _ E)), length_app in Hp. lia.
    + rewrite dict_del_absent in * by done. lia.
  - intros k' q' Hin. apply dict_del_in in Hin as [_ Hin]; [|done]. by eapply Hq.
Qed.

Lemma submit_ok f d b es d' : inv d -> submit f d = (b, es, d') -> step_ok d es d'.
Proof.
  intros Hi H. unfold submit in H. destruct (stopped d) eqn:Hs.
  { injection H as <- <- <-. split_and!; [done|done|]. intros k. simpl. by rewrite app_nil_r. }
  set (k := key_of_frame f) in *.
  destruct (_ || _) eqn:Hfull; injection H as <- <- <-.
  { split_and!; [done|done|]. intros k'. simpl. by rewrite app_nil_r. }
  apply orb_false_iff in Hfull as [Hp Hq].
  set (q := default (mkQueue [] false) (dict_get k (queues d))).
  assert (Hinv := Hi). destruct Hinv as (Hw & Hpe & H1 & H2 & H3 & Hqs).
  assert (Hback : mjoin (frames <$> dict_values (dict_set k (mkQueue (frames q ++ [f]) (running q)) (queues d)))
                  ≡ₚ f :: backlog d).
  { rewrite backlog_set. cbn [frames]. unfold backlog, q. destruct (dict_get k (queues d)) as [q0|] eqn:E; simpl.
    - rewrite (backlog_get k q0 _ E), <- app_assoc. simpl. by rewrite <- Permutation_middle.
    - by rewrite dict_del_absent. }
  split_and!.
  - apply inv_set; [done| | | |].
    + unfold queue_ok, q, qlen in *. cbn [frames running]. rewrite length_app, Hs. cbn [length].
      destruct (dict_get k (queues d)) as [q0|] eqn:E; simpl in *.
      * split_and!; [unfold qlen in Hq; lia| |done]. intros _. by destruct (frames q0).
      * split_and!; [lia|done|done].
    + rewrite dict_set_length. destruct (dict_get k (queues d)) as [q0|] eqn:E.
      * rewrite decide_True; [done|]. apply dict_get_Some_in in E. by apply (list_elem_of_fmap_2 fst _ (k, q0)).
      * case_decide; lia.
    + rewrite (Permutation_length Hback). simpl. lia.
    + lia.
  - simpl. rewrite <- Hback. done.
  - intros k'. cbn [started_for accepted_for omap list_omap app]. destruct (decide (k' = k)) as [->|Hne].
    + rewrite waiting_set. unfold waiting, waiting_of, q. cbn [frames running].
      destruct (dict_get k (queues d)) as [q0|] eqn:E; simpl; [|done].
      destruct (running q0) eqn:Er; [|by rewrite !drop_0].
      destruct (frames q0) as [|f0 fs] eqn:Ef; [|done].
      exfalso. apply dict_get_Some_in in E. apply Hqs in E as (_ & Hr & _). by apply Hr.
    + rewrite waiting_set_ne by done. rewrite app_nil_r. done.
Qed.

Lemma dict_set_length_get k q (qs : pydict qkey queue) :
  is_Some (dict_get k qs) -> length (dict_set k q qs) = length qs.
Proof.
  intros [q0 E]. rewrite dict_set_length, decide_True; [done|].
  apply dict_get_Some_in in E. by apply (list_elem_of_fmap_2 fst _ (k, q0)).
Qed.

Lemma begin_ok k d es d' : inv d -> worker_begin k d = Some (es, d') -> step_ok d es d'.
Proof.
  intros Hi H. unfold worker_begin in H. destruct (dict_get k (queues d)) as [q|] eqn:E; [|done].
  assert (Hinv := Hi). destruct Hinv as (Hw & Hpe & H1 & H2 & H3 & Hqs).
  assert (Hq := Hqs _ _ (dict_get_Some_in _ _ _ E)). destruct (running q) eqn:Er; [done|].
  destruct (frames q) as [|f fs] eqn:Ef; injection H as <- <-.
  - assert (Hb : mjoin (frames <$> dict_values (dict_del k (queues d))) ≡ₚ backlog d)
      by (unfold backlog; by rewrite (backlog_get k q _ E), Ef).
    split_and!.
    + apply inv_del; [done|]. by rewrite (Permutation_length Hb).
    + simpl. by rewrite <- Hb.
    + intros k'. cbn [started_for accepted_for omap list_omap app]. rewrite app_nil_r.
      destruct (decide (k' = k)) as [->|Hne]; [|by rewrite waiting_del_ne].
      unfold waiting at 1, with_queues. simpl. rewrite dict_get_del by done. apply sublist_nil_l.
  - rewrite <- Ef in *.
    assert (Hb : mjoin (frames <$> dict_values (dict_set k (mkQueue (frames q) true) (queues d))) ≡ₚ backlog d).
    { rewrite backlog_set. unfold backlog. by rewrite (backlog_get k q _ E). }
    destruct Hq as (Hq1 & Hq2 & Hq3). rewrite Er in Hq3.
    split_and!.
    + apply inv_set; [done| | | |done].
      * split_and!; [done|intros _; cbn; by rewrite Ef|]. intros Hs. specialize (Hq3 Hs). cbn. lia.
      * by rewrite dict_set_length_get.
      * by rewrite (Permutation_length Hb).
    + simpl. by rewrite <- Hb.
    + intros k'. cbn [started_for accepted_for omap list_omap app]. rewrite app_nil_r.
      destruct (decide (k' = k)) as [->|Hne]; [|by rewrite waiting_set_ne].
      rewrite waiting_set. unfold waiting, waiting_of. rewrite E, Er, Ef. done.
Qed.

Lemma end_ok k o d es d' :
  (o = Cancelled -> stopped d = true) -> inv d -> worker_end k o d = Some (es, d') -> step_ok d es d'.
Proof.
  intros Hc Hi H. unfold worker_end in H.
  destruct (dict_get k (queues d)) as [[[|f rest] [|]]|] eqn:E; try done. injection H as <- <-.
  assert (Hinv := Hi). destruct Hinv as (Hw & Hpe & H1 & H2 & H3 & Hqs).
  destruct (Hqs _ _ (dict_get_Some_in _ _ _ E)) as (Hq1 & Hq2 & Hq3). unfold qlen in Hq1. cbn in Hq1, Hq3.
  assert (Hcr : o = Cancelled -> rest = []).
  { intros ->. specialize (Hq3 (Hc eq_refl)). destruct rest; [done|simpl in Hq3; lia]. }
  set (es := match o with Returned => _ | Raised => _ | Cancelled => _ end).
  assert (Hes : accepted_frames es = [] /\ settled_frames es = [f] /\
    forall k', started_for k' es = [] /\ accepted_for k' es = []) by (by subst es; destruct o).
  destruct Hes as (He1 & He2 & He3). clearbody es.
  set (qs := match o, rest with Cancelled, _ => _ | _, [] => _ | _, _ => _ end).
  assert (Hqs' : qs = dict_set k (mkQueue rest false) (queues d) \/
                 (rest = [] /\ qs = dict_del k (queues d))).
  { subst qs. destruct o, rest; rewrite ?dict_del_set; try (by left); try (by right). by specialize (Hcr eq_refl). }
  clearbody qs.
  assert (Hb : backlog d ≡ₚ f :: mjoin (frames <$> dict_values qs)).
  { unfold backlog. rewrite (backlog_get k _ _ E). cbn [frames].
    destruct Hqs' as [->|[-> ->]]; [|done]. by rewrite backlog_set. }
  assert (Hpl := Permutation_length Hb). simpl in Hpl.
  split_and!.
  - destruct Hqs' as [->|[-> ->]].
    + apply inv_set; [done| | |lia|lia].
      * unfold queue_ok, qlen. cbn. split_and!; [lia|done|]. intros Hs. specialize (Hq3 Hs). lia.
      * rewrite dict_set_length_get by (by rewrite E). done.
    + apply inv_del; [done|lia].
  - rewrite He1, He2. simpl. by rewrite Hb.
  - intros k'. destruct (He3 k') as [-> ->]. rewrite app_nil_r. simpl.
    destruct (decide (k' = k)) as [->|Hne].
    + unfold waiting at 2. rewrite E. cbn [waiting_of running frames drop].
      destruct Hqs' as [->|[-> ->]]; [rewrite waiting_set; unfold waiting_of; simpl; by rewrite drop_0|].
      unfold waiting, with_queues. simpl. rewrite dict_get_del by done. apply sublist_nil_l.
    + destruct Hqs' as [->|[-> ->]]; [by rewrite waiting_set_ne|by rewrite waiting_del_ne].
Qed.

Lemma keep_running_get k (qs : pydict qkey queue) :
  dict_get k ((fun kq => (kq.1, keep_running kq.2)) <$> qs) = keep_running <$> dict_get k qs.
Proof. induction qs as [|[k1 q1] qs IH]; [done|]. rewrite fmap_cons. simpl. by case_decide. Qed.

Lemma rejections_only why gone :
  accepted_frames ((fun f => Rejected f why) <$> gone) = [] /\
  settled_frames ((fun f => Rejected f why) <$> gone) = gone /\
  forall k, started_for k ((fun f => Rejected f why) <$> gone) = [] /\
            accepted_for k ((fun f => Rejected f why) <$> gone) = [].
Proof.
  induction gone as [|f gone (IH1 & IH2 & IH3)]; [done|]. rewrite fmap_cons. split_and!; [done|simpl; by f_equal|].
  intros k. exact (IH3 k).
Qed.

Lemma discard_ok why d es d' :
  inv d -> (forall k q, (k, q) ∈ queues d -> queue_ok d (keep_running q)) ->
  discard_queued why d = (es, d') -> step_ok d es d'.
Proof.
  intros (Hw & Hpe & H1 & H2 & H3 & Hqs) Hkeep H. unfold discard_queued in H. injection H as <- <-.
  set (gone := mjoin (discarded <$> dict_values (queues d))).
  destruct (rejections_only why gone) as (He1 & He2 & He3).
  assert (Hb := discard_backlog (queues d)). fold gone in Hb. fold (backlog d) in Hb.
  set (qs := (fun kq => (kq.1, keep_running kq.2)) <$> queues d) in *.
  assert (Hl := Permutation_length Hb). rewrite length_app in Hl.
  split_and!.
  - split_and!; try done; simpl.
    + unfold dict_wf, dict_keys, qs. rewrite <- list_fmap_compose. exact Hw.
    + unfold backlog. simpl. lia.
    + lia.
    + unfold qs. by rewrite length_fmap.
    + intros k q Hin. apply list_elem_of_fmap in Hin as ([k0 q0] & [= -> ->] & Hin). by eapply Hkeep.
  - rewrite He1, He2. exact Hb.
  - intros k. destruct (He3 k) as [-> ->]. rewrite app_nil_r. simpl. unfold waiting, with_queues. simpl.
    unfold qs. rewrite keep_running_get. destruct (dict_get k (queues d)) as [q|]; [|done]. simpl.
    unfold waiting_of, keep_running. cbn [running frames]. rewrite skipn_all2 by (rewrite length_take; lia).
    apply sublist_nil_l.
Qed.

Lemma keep_running_ok d q : queue_ok d q -> queue_ok d (keep_running q).
Proof.
  intros (H1 & H2 & H3). unfold queue_ok, keep_running, qlen in *. cbn [frames running]. split_and!.
  - rewrite length_take. lia.
  - intros Hr. specialize (H2 Hr). rewrite Hr. by destruct (frames q).
  - intros _. rewrite length_take. lia.
Qed.

Lemma step_preserves d es d' : inv d -> step d es d' -> step_ok d es d'.
Proof.
  intros Hi H. destruct H as [f d b es d' H|k d es d' H|k o d es d' Hc H|d es d' H|d es d' H|d Hs Hf].
  - by eapply submit_ok.
  - by eapply begin_ok.
  - by eapply end_ok.
  - eapply discard_ok; [done| |done]. intros k q Hin. apply keep_running_ok. by apply Hi in Hin.
  - unfold stop_begin in H. destruct (stopped d) eqn:Hs.
    { injection H as <- <-. split_and!; [done|done|]. intros k. simpl. by rewrite app_nil_r. }
    unfold discard_queued in H. cbn [queues pending] in H.
    pose proof (discard_ok Stopping d) as Hd.
    destruct Hi as (Hw & Hpe & H1 & H2 & H3 & Hqs).
    destruct (Hd _ _ ltac:(done) (fun k q Hin => keep_running_ok d q (Hqs k q Hin)) eq_refl) as (Hi' & Hb & Hk).
    injection H as <- <-. split_and!; [|exact Hb|exact Hk].
    destruct Hi' as (Hw' & Hpe' & _ & H2' & H3' & Hq'). split_and!; try done.
    intros k q Hin. destruct (Hq' k q Hin) as (Hq1 & Hq2 & _). split_and!; [done|done|]. intros _.
    apply list_elem_of_fmap in Hin as ([k0 q0] & [= -> ->] & _). unfold keep_running. cbn. rewrite length_take. lia.
  - destruct Hi as (Hw & Hpe & H1 & H2 & H3 & Hqs).
    assert (Hb : backlog d = []).
    { unfold backlog, dict_values. clear -Hf. induction Hf as [|[k q] qs Hq Hf IH]; [done|].
      rewrite !fmap_cons, mjoin_cons. cbn in *. by rewrite Hq, IH. }
    split_and!; [|by rewrite Hb|].
    + unfold stop_end. split_and!; simpl; try done; [apply NoDup_nil_2|lia|lia|].
      by intros k q ?%not_elem_of_nil.
    + intros k. apply sublist_nil_l.
Qed.

Lemma dispatcher_inv d es d' : inv d -> steps d es d' -> inv d'.
Proof. intros Hi. induction 1 as [|d1 es d2 es' d3 _ IH Hs]; [done|]. by eapply step_preserves; [apply IH|]. Qed.

Lemma new_dispatcher_inv : inv new_dispatcher.
Proof.
  split_and!; try done; [apply NoDup_nil_2|]. by intros k q ?%not_elem_of_nil.
Qed.

Lemma omap_app_list {A B} (f : A -> option B) l1 l2 : omap f (l1 ++ l2) = omap f l1 ++ omap f l2.
Proof. apply omap_app. Qed.

Lemma step_limits d es d' : step d es d' ->
  max_pending d' = max_pending d /\ max_per_device d' = max_per_device d /\ max_workers d' = max_workers d.
Proof.
  destruct 1 as [f d b es d' H|k d es d' H|k o d es d' _ H|d es d' H|d es d' H|d _ _]; [| | | | |done].
  - unfold submit in H. repeat case_match; by injection H as <- <- <-.
  - unfold worker_begin in H. repeat case_match; try done; by injection H as <- <-.
  - unfold worker_end in H. destruct (dict_get k (queues d)) as [[[|f r] [|]]|]; try done. by injection H as <- <-.
  - unfold discard_queued in H. by injection H as <- <-.
  - unfold stop_begin, discard_queued in H. case_match; by injection H as <- <-.
Qed.

Lemma steps_limits d es d' : steps d es d' ->
  max_pending d' = max_pending d /\ max_per_device d' = max_per_device d /\ max_workers d' = max_workers d.
Proof.
  induction 1 as [|d1 es d2 es' d3 _ IH Hs]; [done|]. apply step_limits in Hs. destruct IH, Hs. intuition congruence.
Qed.

(** ** Properties *)

(** In every reachable state the pending counter is the number of
    queued commands, and the limits hold: 200 commands in all, 16 per queue
    (the running one included), 32 queues. *)
Theorem dispatcher_bounded es d :
  steps new_dispatcher es d ->
  pending d = Z.of_nat (length (backlog d)) /\ pending d <= 200 /\
  (length (queues d) <= 32)%nat /\ Forall (fun kq => (length (frames kq.2) <= 16)%nat) (queues d).
Proof.
  intros H. destruct (steps_limits _ _ _ H) as (E1 & E2 & E3).
  change (max_pending d = 200) in E1. change (max_per_device d = 16) in E2. change (max_workers d = 32) in E3.
  destruct (dispatcher_inv _ _ _ new_dispatcher_inv H) as (_ & Hp & _ & H2 & H3 & Hq).
  split_and!; [done|lia|lia|]. apply Forall_forall. intros [k q] Hin. destruct (Hq k q Hin) as (Hl & _).
  unfold qlen in Hl. simpl. lia.
Qed.

(** No command is lost or settled twice.  Whatever the
    interleaving of submissions, workers, disconnections and shutdown, the
    accepted commands are exactly those that finished, those that were rejected
    afterwards, and those still queued. *)
Theorem dispatcher_conserves es d :
  steps new_dispatcher es d ->
  accepted_frames es ≡ₚ settled_frames es ++ backlog d.
Proof.
  assert (H0 : backlog new_dispatcher = []) by done.
  pose proof new_dispatcher_inv as Hi. revert H0 Hi. generalize new_dispatcher as d0. intros d0 H0 Hi.
  intros H. induction H as [d0|d1 es d2 es' d3 H IH Hs]; [by rewrite H0|].
  destruct (step_preserves d2 es' d3 (dispatcher_inv _ _ _ Hi H) Hs) as (_ & Hb & _).
  specialize (IH H0 Hi). unfold accepted_frames, settled_frames in *. rewrite !omap_app_list, <- app_assoc, <- Hb.
  rewrite IH, <- !app_assoc. f_equiv. apply Permutation_app_comm.
Qed.

(** Each queue is first in, first out, so a manual task run cannot
    overtake the sync_tasks that defines it: the commands of one queue start in
    the order they were accepted, and the ones still waiting follow. *)
Theorem dispatcher_fifo k es d :
  steps new_dispatcher es d ->
  started_for k es ++ waiting k d `sublist_of` accepted_for k es.
Proof.
  assert (H0 : waiting k new_dispatcher = []) by done.
  pose proof new_dispatcher_inv as Hi. revert H0 Hi. generalize new_dispatcher as d0. intros d0 H0 Hi.
  intros H. induction H as [d0|d1 es d2 es' d3 H IH Hs]; [by rewrite H0|].
  destruct (step_preserves d2 es' d3 (dispatcher_inv _ _ _ Hi H) Hs) as (_ & _ & Hk).
  specialize (IH H0 Hi). unfold started_for, accepted_for in *. rewrite !omap_app_list, <- app_assoc.
  etrans; [apply sublist_app; [reflexivity|exact (Hk k)]|]. rewrite app_assoc. by apply sublist_app.
Qed.

(** A run of the dispatcher: two commands for one module, one finishing, then a
    disconnection. *)
Definition sample_frame (t : string) : frame := [(str "type", JStr (str t)); (str "device", JStr (str "m1"))].

Definition sample_1 : CommandDispatcher := (submit (sample_frame "send_sms") new_dispatcher).2.
Definition sample_2 : CommandDispatcher := (submit (sample_frame "query") sample_1).2.
Definition sample_3 : CommandDispatcher := default sample_2 (snd <$> worker_begin (Some (str "m1")) sample_2).

Lemma dispatcher_run : exists es d, steps new_dispatcher es d /\ length es = 4%nat.
Proof.
  assert (H1 := steps_snoc _ _ _ _ _ (steps_nil new_dispatcher) (step_submit (sample_frame "send_sms") new_dispatcher _ _ _ eq_refl)).
  assert (H2 := steps_snoc _ _ _ _ _ H1 (step_submit (sample_frame "query") sample_1 _ _ _ eq_refl)).
  assert (H3 := steps_snoc _ _ _ _ _ H2 (step_begin (Some (str "m1")) sample_2 _ _ eq_refl)).
  assert (H4 := steps_snoc _ _ _ _ _ H3 (step_disconnect sample_3 _ _ eq_refl)).
  eexists _, _. split; [exact H4|reflexivity].
Defined.

Lemma dispatcher_bounded_witness :
  exists es d, steps new_dispatcher es d /\ pending d = Z.of_nat (length (backlog d)).
Proof.
  destruct dispatcher_run as (es & d & H & _). exists es, d. exact (conj H (proj1 (dispatcher_bounded es d H))).
Defined.

Lemma dispatcher_conserves_witness :
  exists es d, length es = 4%nat /\ accepted_frames es ≡ₚ settled_frames es ++ backlog d.
Proof.
  destruct dispatcher_run as (es & d & H & Hl). exists es, d. exact (conj Hl (dispatcher_conserves es d H)).
Defined.

Lemma dispatcher_fifo_witness :
  exists es d, length es = 4%nat /\
    started_for (Some (str "m1")) es ++ waiting (Some (str "m1")) d `sublist_of` accepted_for (Some (str "m1")) es.
Proof.
  destruct dispatcher_run as (es & d & H & Hl). exists es, d. exact (conj Hl (dispatcher_fifo (Some (str "m1")) es d H)).
Defined.

End Dispatcher.
