(* ===== verification/Link.v ===== *)
(** * The agent's link to the server (agent/src/air780e_agent/link.py)

    One session of [ServerLink]: the sender task, which takes batches of the
    durable queue and sends them one by one with an await after each, and the
    receiver's handling of the server's frames.  The socket is the caller's. *)

From S2P Require Import Prelude PyDict Json Store Commands.
Import Store Dispatcher.

Module Link.

Definition BATCH : nat := 200.
Definition PROTOCOL_VERSION : Z := 1.

(** The sender's position: [_sent_through], and what is left of the list the
    [for] loop runs over. *)
Record session := mkSession { sent_through : Z; batch : list Event }.

Definition new_session : session := mkSession 0 [].

Definition hello (agent_id version : pystr) (devices : json) (s : LocalStore) : frame :=
  [ (str "type", JStr (str "hello")); (str "agent_id", JStr agent_id); (str "version", JStr version);
    (str "protocol_version", JInt PROTOCOL_VERSION); (str "durable_commands", JInt 1);
    (str "last_seq", JInt (last_seq s)); (str "stream_id", JStr (stream_id s)); (str "devices", devices) ].

(** The top of the sender's loop: with nothing left to send, read the queue. *)
Definition sender_fetch (s : LocalStore) (ses : session) : session :=
  match batch ses with
  | [] => mkSession (sent_through ses)
            (filter (fun e => sent_through ses < seq e) (unacked_events BATCH s))
  | _ => ses
  end.

(** One iteration of the inner loop: the frame sent, and the new position. *)
Definition sender_send (ses : session) : option (Event * session) :=
  match batch ses with
  | e :: rest => Some (e, mkSession (seq e) rest)
  | [] => None
  end.

Definition handle_ack (f : frame) (s : LocalStore) : LocalStore :=
  match as_int (jget "seq" f) with
  | Some n => (ack_through n s).2
  | None => s
  end.

Definition handle_resend (f : frame) (ses : session) : session :=
  match as_int (jget "seq" f) with
  | Some n => mkSession (Z.max 0 (n - 1)) (batch ses)
  | None => ses
  end.

(** What [_receiver] does with one frame. *)
Inductive received :=
| AckHandled (s : LocalStore)
| ResendHandled (ses : session)
| CommandQueued (es : list effect) (d : CommandDispatcher)
| LinkClosed (es : list effect) (d : CommandDispatcher)   (* code 1013, queue full *)
| FrameIgnored.

Definition receive (v : json) (s : LocalStore) (ses : session) (d : CommandDispatcher) : received :=
  match v with
  | JObj f =>
      if negb (jhas "type" f) then FrameIgnored
      else
        let t := jget "type" f in
        if match t with JStr t => bool_decide (t = str "ack") | _ => false end then AckHandled (handle_ack f s)
        else if match t with JStr t => bool_decide (t = str "resend_from") | _ => false end
        then ResendHandled (handle_resend f ses)
        else
          let '(accepted, es, d) := submit f d in
          if negb accepted && is_null (jget "cmd_id" f) then LinkClosed es d else CommandQueued es d
  | _ => FrameIgnored
  end.

End Link.
