(* ===== verification/Ingest.v ===== *)
(** * Server-side ingest (server/src/hub_server/gateway.py, db.py)

    Frame validation, the idempotency claim of [Database.apply_event] and the
    acknowledgement of [Gateway._ingest].  What an event does to the business
    tables is the callback [apply], any function that may raise; the whole
    transaction rolls back when it does. *)

From S2P Require Import Prelude PyDict Json.

Module Ingest.

(** 2**62 *)
Definition MAX_SEQ : Z := 4611686018427387904.

(** A [bool] is an [int] in Python but not a sequence number. *)
Definition valid_seq (v : json) : bool :=
  match as_int v with
  | Some n => negb (is_jbool v) && (1 <=? n) && (n <=? MAX_SEQ)
  | None => false
  end.

Section db.
Context {B X E : Type}.

(** The tables [apply_event] touches, and the rest of the database. *)
Record database := mkDatabase {
  ingested : gset (list Z * list Z * Z);
  last_seqs : gmap (list Z) Z;          (* agents.last_seq *)
  business : B }.

(** UPDATE agents SET last_seq = MAX(last_seq, seq) WHERE id = agent_id *)
Definition bump_last_seq (agent : pystr) (seq : Z) (m : gmap (list Z) Z) : gmap (list Z) Z :=
  alter (Z.max seq) agent m.

(** [(fresh, result)] and the committed database, or the exception of a rolled
    back transaction. *)
Definition apply_event (agent : pystr) (seq : Z) (apply : B -> res E (X * B)) (stream : pystr)
    (db : database) : res E (bool * option X * database) :=
  if bool_decide ((agent, stream, seq) ∈ ingested db)
  then Ok (false, None, mkDatabase (ingested db) (bump_last_seq agent seq (last_seqs db)) (business db))
  else
    '(x, b) ← apply (business db);
    Ok (true, Some x,
        mkDatabase ({[ (agent, stream, seq) ]} ∪ ingested db) (bump_last_seq agent seq (last_seqs db)) b).

(** What one sequenced frame leads to: nothing, an acknowledgement (with what a
    fresh event's hooks get), a commit whose acknowledgement is not sent because
    the connection is no longer ready, or an exception, which closes the
    connection. *)
Inductive ingest_result :=
| Ignored
| Acked (seq : Z) (fresh : option X) (db : database)
| CommittedSilently (db : database)
| Raised (e : E).

Definition ingest (ready ready_after : bool) (agent stream : pystr)
    (apply : frame -> B -> res E (X * B)) (f : frame) (db : database) : ingest_result :=
  if negb ready then Ignored
  else if negb (valid_seq (jget "seq" f)) then Ignored
  else
    let seq := default 0 (as_int (jget "seq" f)) in
    match apply_event agent seq (apply f) stream db with
    | Err e => Raised e
    | Ok (_, x, db) => if ready_after then Acked seq x db else CommittedSilently db
    end.

End db.
Arguments database : clear implicits.
Arguments ingest_result : clear implicits.

(** ** Properties *)

(** Applying an event is idempotent.  A second application of
    the same (agent, stream, sequence) changes nothing but the agent's
    high-water mark, whatever its callback would have done, and an event whose
    callback raised leaves no trace and can be replayed. *)
Theorem apply_event_idempotent {B X E} agent seq stream (apply apply' : B -> res E (X * B)) db :
  match apply_event agent seq apply stream db with
  | Ok (fresh, x, db') =>
      fresh = negb (bool_decide ((agent, stream, seq) ∈ ingested db)) /\
      (fresh = false -> business db' = business db /\ ingested db' = ingested db) /\
      (agent, stream, seq) ∈ ingested db' /\
      apply_event agent seq apply' stream db' = Ok (false, None, db')
  | Err e => (agent, stream, seq) ∉ ingested db /\ apply (business db) = Err e
  end.
Proof.
  assert (Hbump : forall m : gmap (list Z) Z, bump_last_seq agent seq (bump_last_seq agent seq m) = bump_last_seq agent seq m).
  { intros m. unfold bump_last_seq. apply map_eq. intros i. destruct (decide (i = agent)) as [->|Hne].
    - rewrite !lookup_alter_eq. destruct (m !! agent); simpl; [|done]. f_equal. lia.
    - by rewrite !lookup_alter_ne. }
  unfold apply_event. case_bool_decide as Hin.
  - split_and!; try done. cbn [ingested business last_seqs]. rewrite bool_decide_eq_true_2 by done. by rewrite Hbump.
  - destruct (apply (business db)) as [[x b]|e]; cbn [mbind res_bind]; [|done].
    split_and!; try done; [set_solver|]. cbn [ingested business last_seqs].
    rewrite bool_decide_eq_true_2 by set_solver. by rewrite Hbump.
Qed.

(** A frame claims a row of the idempotency table only under a
    sequence number the agent can generate: a JSON integer from 1 to 2^62, never
    a boolean; everything else is neither applied nor acknowledged. *)
Theorem ingest_claims_valid_seq {B X E} ready ready_after agent stream
    (apply : frame -> B -> res E (X * B)) f db :
  match ingest ready ready_after agent stream apply f db with
  | Ignored => ready = false \/ ~ exists n, jget "seq" f = JInt n /\ 1 <= n <= 2 ^ 62
  | Acked n _ db' => jget "seq" f = JInt n /\ 1 <= n <= 2 ^ 62 /\ (agent, stream, n) ∈ ingested db'
  | CommittedSilently db' => exists n, jget "seq" f = JInt n /\ 1 <= n <= 2 ^ 62 /\ (agent, stream, n) ∈ ingested db'
  | Raised e => exists n, jget "seq" f = JInt n /\ (agent, stream, n) ∉ ingested db
  end.
Proof.
  unfold ingest. destruct ready; [|by left]. cbn [negb].
  assert (Hv : valid_seq (jget "seq" f) = true <-> exists n, jget "seq" f = JInt n /\ 1 <= n <= 2 ^ 62).
  { unfold valid_seq, MAX_SEQ. destruct (jget "seq" f) as [|[|]|n| | | |]; simpl; split; try done;
      try (by intros (? & [=] & _)).
    - intros ?. exists n. split; [done|lia].
    - intros (? & [= <-] & ?). lia. }
  destruct (valid_seq (jget "seq" f)); cbn [negb]; [|right; rewrite <- Hv; done].
  destruct (proj1 Hv eq_refl) as (n & Hn & Hb). rewrite Hn. cbn [as_int default].
  unfold apply_event. case_bool_decide as Hin.
  - destruct ready_after; [done|by exists n].
  - destruct (apply f (business db)) as [[x b]|e]; cbn [mbind res_bind]; [|by exists n].
    destruct ready_after; [|exists n]; split_and!; try done; try lia; simpl; set_solver.
Qed.

End Ingest.
