(* ===== verification/Operations.v ===== *)
(** * Persistent command operations (server/src/hub_server/db.py, gateway.py)

    The [command_operations] table: one row per command a user submitted, from
    queued to a final state.  Rows are in rowid order; timestamps are compared
    as the text they are stored as; [updated_at] is write-only and left out.
    The request hash and the random ids are arguments. *)

From S2P Require Import Prelude PyText Json.

Module Operations.

(** ** Data *)

Inductive status := Queued | Running | Succeeded | Failed | Unknown | Cancelled.

#[export] Instance status_eq_dec : EqDecision status.
Proof. solve_decision. Defined.

Record operation := mkOperation {
  o_id : pystr; o_actor : pystr; o_device_id : Z; o_agent_id : pystr; o_device : pystr;
  o_request_hash : pystr; o_idempotency_key : pystr; o_frame : frame;
  o_status : status; o_deadline : pystr; o_stream_id : pystr; o_connection_id : pystr;
  o_result_token : pystr; o_expected_imei : pystr; o_expected_iccid : pystr;
  o_result : json; o_error : json; o_created_at : pystr }.

Abbreviation table := (list operation) (only parsing).

Definition with_state (st : status) (result error : json) (o : operation) : operation :=
  mkOperation (o_id o) (o_actor o) (o_device_id o) (o_agent_id o) (o_device o) (o_request_hash o)
    (o_idempotency_key o) (o_frame o) st (o_deadline o) (o_stream_id o) (o_connection_id o)
    (o_result_token o) (o_expected_imei o) (o_expected_iccid o) result error (o_created_at o).

(** UPDATE ... SET status, error WHERE: the result column stays. *)
Definition set_status (st : status) (error : pystr) (o : operation) : operation :=
  with_state st (o_result o) (JStr error) o.

Definition rebound (connection stream : pystr) (o : operation) : operation :=
  mkOperation (o_id o) (o_actor o) (o_device_id o) (o_agent_id o) (o_device o) (o_request_hash o)
    (o_idempotency_key o) (o_frame o) (o_status o) (o_deadline o) stream connection
    (o_result_token o) (o_expected_imei o) (o_expected_iccid o) (o_result o) (o_error o) (o_created_at o).

(** UPDATE the rows [p] selects. *)
Definition update (p : operation -> bool) (f : operation -> operation) (t : table) : table :=
  (fun o => if p o then f o else o) <$> t.

Definition has (st : status) (o : operation) : bool := bool_decide (o_status o = st).
Definition active (o : operation) : bool := has Queued o || has Running o.

Definition find_id (id : pystr) (t : table) : option operation :=
  List.find (fun o => bool_decide (o_id o = id)) t.

(** ** Creation *)

Record target := mkTarget {
  tg_id : Z; tg_agent_id : pystr; tg_name : pystr; tg_imei : pystr; tg_iccid : pystr }.

Inductive op_exn := OperationConflict | OperationQueueFull | IntegrityError.

Definition same_request (actor : pystr) (device_id : Z) (key : pystr) (o : operation) : bool :=
  bool_decide (o_actor o = actor /\ o_device_id o = device_id /\ o_idempotency_key o = key).

Definition count_where (p : operation -> bool) (t : table) : Z :=
  Z.of_nat (length (filter (fun o => p o = true) t)).

Definition create_operation (actor : pystr) (tg : target) (f : frame) (request_hash key deadline
    stream_id connection_id new_id token now : pystr) (t : table) : res op_exn (option operation * table) :=
  match List.find (same_request actor (tg_id tg) key) t with
  | Some existing =>
      if bool_decide (o_request_hash existing = request_hash)
      then Ok (find_id (o_id existing) t, t)
      else Err OperationConflict
  | None =>
      if (200 <=? count_where active t)
         || (16 <=? count_where (fun o => active o && (o_device_id o =? tg_id tg)) t)
      then Err OperationQueueFull
      else
        match find_id new_id t with
        | Some _ => Err IntegrityError
        | None =>
            let t := t ++ [mkOperation new_id actor (tg_id tg) (tg_agent_id tg) (tg_name tg) request_hash key f
                             Queued deadline stream_id connection_id token (tg_imei tg) (tg_iccid tg)
                             JNull JNull now] in
            Ok (find_id new_id t, t)
        end
  end.

(** ** Transitions *)

Definition recover_operations (t : table) : table :=
  update (has Running) (set_status Unknown (str "server restarted before result was confirmed")) t.

Definition disconnect_operations (connection : pystr) (t : table) : table :=
  update (fun o => bool_decide (o_connection_id o = connection) && has Running o)
    (set_status Unknown (str "agent disconnected before result was confirmed")) t.

Definition rebind_operations (agent stream connection : pystr) (t : table) : table :=
  update (fun o => bool_decide (o_agent_id o = agent) && has Queued o && bool_decide (o_stream_id o = stream))
    (rebound connection stream) t.

Definition expire_operations (now : pystr) (t : table) : table :=
  update (fun o => text_le (o_deadline o) now && active o)
    (fun o => set_status (if has Queued o then Cancelled else Unknown) (str "command deadline elapsed") o) t.

(** The row count of the UPDATE as a truth value, and the table. *)
Definition claim_operation (id now : pystr) (t : table) : bool * table :=
  let p o := bool_decide (o_id o = id) && has Queued o && negb (text_le (o_deadline o) now) in
  (existsb p t, update p (fun o => with_state Running (o_result o) (o_error o) o) t).

Definition cancel_operation (id : pystr) (t : table) : bool * table :=
  let p o := bool_decide (o_id o = id) && has Queued o in
  (existsb p t, update p (set_status Cancelled (str "cancelled before dispatch")) t).

Definition result_status (v : json) : option status :=
  match v with
  | JStr s => if bool_decide (s = str "succeeded") then Some Succeeded
              else if bool_decide (s = str "failed") then Some Failed
              else if bool_decide (s = str "unknown") then Some Unknown
              else if bool_decide (s = str "cancelled") then Some Cancelled
              else None
  | _ => None
  end.

Definition is_jobj (v : json) : bool := match v with JObj _ => true | _ => false end.

Section identity.
(** The module's identity as the devices and sims tables now have it. *)
Context (device_imei device_iccid : Z -> option pystr).

Definition identity_ok (o : operation) : bool :=
  (bool_decide (o_expected_imei o = []) || bool_decide (Some (o_expected_imei o) = device_imei (o_device_id o)))
  && (bool_decide (o_expected_iccid o = []) || bool_decide (Some (o_expected_iccid o) = device_iccid (o_device_id o))).

Definition apply_operation_result (agent stream : pystr) (f : frame) (t : table) : table :=
  match result_status (jget "status" f) with
  | None => t
  | Some st =>
      if negb (Bool.eqb (bool_decide (st = Succeeded)) (is_true (jget "ok" f))) then t
      else
        match as_str (jget "cmd_id" f), as_str (jget "device" f), as_str (jget "result_token" f) with
        | Some cmd_id, Some device, Some token =>
            if negb (is_null (jget "error" f)) && negb (bool_decide (is_Some (as_str (jget "error" f)))) then t
            else if negb (is_null (jget "data" f)) && negb (is_jobj (jget "data" f)) then t
            else
              update (fun o => bool_decide (o_id o = cmd_id) && bool_decide (o_agent_id o = agent)
                               && bool_decide (o_stream_id o = stream) && bool_decide (o_device o = device)
                               && bool_decide (o_result_token o = token) && (has Running o || has Unknown o)
                               && identity_ok o)
                (with_state st (jget "data" f) (jget "error" f)) t
        | _, _, _ => t
        end
  end.

(** ** Dispatch

    One pass: expire, pick the queued rows of idle modules in order of
    creation, claim and send one per module.  [ready agent] is the id of the
    agent's ready connection; [sent id] is whether the socket send completed. *)

Definition created_le (a b : operation) : Prop := text_le (o_created_at a) (o_created_at b) = true.
#[export] Instance created_le_dec a b : Decision (created_le a b).
Proof. unfold created_le. apply _. Defined.

Definition dispatchable (t : table) : list operation :=
  take 32 (merge_sort created_le
    (filter (fun q => has Queued q = true /\
                      existsb (fun r => (o_device_id r =? o_device_id q) && has Running r) t = false) t)).

Fixpoint dispatch_loop (ready : pystr -> option pystr) (sent : pystr -> bool) (now : pystr)
    (rows : list pystr) (seen : list Z) (t : table) : table :=
  match rows with
  | [] => t
  | id :: rows =>
      match find_id id t with
      | None => dispatch_loop ready sent now rows seen t
      | Some o =>
          if bool_decide (o_device_id o ∈ seen) then dispatch_loop ready sent now rows seen t
          else
            let seen := o_device_id o :: seen in
            if negb (bool_decide (ready (o_agent_id o) = Some (o_connection_id o)))
            then dispatch_loop ready sent now rows seen t
            else
              let '(claimed, t) := claim_operation id now t in
              let t := if claimed && negb (sent id)
                       then update (fun o => bool_decide (o_id o = id) && has Running o)
                              (set_status Unknown (str "socket send did not complete")) t
                       else t in
              dispatch_loop ready sent now rows seen t
      end
  end.

Definition dispatch_operations_once (ready : pystr -> option pystr) (sent : pystr -> bool) (now : pystr)
    (t : table) : table :=
  let t := expire_operations now t in
  dispatch_loop ready sent now (o_id <$> dispatchable t) [] t.

End identity.

(** [reset_restored_runtime] on this table. *)
Definition reset_operations (t : table) : table :=
  update active (fun o => set_status (if has Queued o then Cancelled else Unknown) (str "database restored") o) t.

(** ** Evolution of a row *)

(** How far along an operation is; final states are as far as it goes. *)
Definition rank (st : status) : Z :=
  match st with Queued => 0 | Running => 1 | Unknown => 2 | Succeeded | Failed | Cancelled => 3 end.

Definition final (o : operation) : Prop := rank (o_status o) = 3.

(** What never changes about an operation. *)
Definition request_of (o : operation) :=
  (o_id o, o_actor o, o_device_id o, o_agent_id o, o_device o, o_request_hash o, o_idempotency_key o,
   o_frame o, o_deadline o, o_result_token o, (o_expected_imei o, o_expected_iccid o), o_created_at o).

Definition evolves (o o' : operation) : Prop :=
  request_of o' = request_of o /\ rank (o_status o) <= rank (o_status o') /\ (final o -> o' = o).

#[export] Instance evolves_preorder : PreOrder evolves.
Proof.
  split; [intros o; by repeat split|]. intros o1 o2 o3 (E1 & R1 & F1) (E2 & R2 & F2).
  split_and!; [congruence|lia|]. intros Hf. rewrite <- (F1 Hf). apply F2. by rewrite (F1 Hf).
Qed.

(** An evolution that does not start anything. *)
Definition quiet (o o' : operation) : Prop := evolves o o' /\ (o_status o' = Running -> o' = o).

#[export] Instance quiet_preorder : PreOrder quiet.
Proof.
  split; [intros o; by split|]. intros o1 o2 o3 [E1 Q1] [E2 Q2]. split; [by etrans|].
  intros H. rewrite (Q2 H). apply Q1. by rewrite <- (Q2 H).
Qed.

(** Every row is still there, further along, and new rows come after. *)
Definition table_evolves (t t' : table) : Prop := exists t1 extra, t' = t1 ++ extra /\ Forall2 evolves t t1.

Lemma Forall2_evolves_table t t' : Forall2 evolves t t' -> table_evolves t t'.
Proof. intros H. exists t', []. by rewrite app_nil_r. Qed.

Lemma table_evolves_refl t : table_evolves t t.
Proof. by apply Forall2_evolves_table. Qed.

Lemma update_rel (R : relation operation) `{!Reflexive R} p f t :
  (forall o, p o = true -> R o (f o)) -> Forall2 R t (update p f t).
Proof.
  intros H. unfold update. apply Forall2_fmap_r. apply Forall_Forall2_diag, Forall_forall. intros o _.
  change (R o (if p o then f o else o)). destruct (p o) eqn:E; [by apply H|reflexivity].
Qed.

Lemma has_true st o : has st o = true <-> o_status o = st.
Proof. unfold has. apply bool_decide_eq_true. Qed.

Lemma active_spec o : active o = true <-> o_status o = Queued \/ o_status o = Running.
Proof. unfold active. rewrite orb_true_iff, !has_true. done. Qed.

Lemma set_state_evolves st result error o :
  rank (o_status o) <= rank st -> rank (o_status o) < 3 -> evolves o (with_state st result error o).
Proof. intros H1 H2. split_and!; [done|done|]. unfold final. lia. Qed.

Lemma set_state_quiet st result error o :
  rank (o_status o) <= rank st -> rank (o_status o) < 3 -> rank st <> 1 ->
  quiet o (with_state st result error o).
Proof. intros H1 H2 H3. split; [by apply set_state_evolves|]. intros E. simpl in E. by subst st. Qed.

Lemma quiet_evolves t t' : Forall2 quiet t t' -> Forall2 evolves t t'.
Proof. intros H. eapply Forall2_impl; [exact H|]. by intros ? ? []. Qed.

Lemma drop_active_quiet err o :
  active o = true -> quiet o (set_status (if has Queued o then Cancelled else Unknown) err o).
Proof.
  intros Ha. apply active_spec in Ha. unfold set_status.
  destruct (has Queued o) eqn:E; (apply set_state_quiet; destruct Ha as [Ha|Ha]; rewrite ?Ha; simpl; lia).
Qed.

Lemma recover_quiet t : Forall2 quiet t (recover_operations t).
Proof. apply (update_rel quiet). intros o ?%has_true. apply set_state_quiet; rewrite ?H; simpl; lia. Qed.

Lemma disconnect_quiet c t : Forall2 quiet t (disconnect_operations c t).
Proof.
  apply (update_rel quiet). intros o [_ H%has_true]%andb_true_iff. apply set_state_quiet; rewrite ?H; simpl; lia.
Qed.

Lemma rebind_quiet a st c t : Forall2 quiet t (rebind_operations a st c t).
Proof.
  apply (update_rel quiet). intros o H. rewrite !andb_true_iff in H. destruct H as [[_ H%has_true] _].
  split; [|simpl; by rewrite H]. split_and!; [done|done|]. unfold final. by rewrite H.
Qed.

Lemma expire_quiet now t : Forall2 quiet t (expire_operations now t).
Proof. apply (update_rel quiet). intros o [_ H]%andb_true_iff. by apply drop_active_quiet. Qed.

Lemma reset_quiet t : Forall2 quiet t (reset_operations t).
Proof. apply (update_rel quiet). intros o H. by apply drop_active_quiet. Qed.

Lemma claim_evolves id now t : Forall2 evolves t (claim_operation id now t).2.
Proof.
  apply (update_rel evolves). intros o H. rewrite !andb_true_iff in H. destruct H as [[_ H%has_true] _].
  apply set_state_evolves; rewrite H; simpl; lia.
Qed.

Lemma cancel_quiet id t : Forall2 quiet t (cancel_operation id t).2.
Proof.
  apply (update_rel quiet). intros o [_ H%has_true]%andb_true_iff. apply set_state_quiet; rewrite ?H; simpl; lia.
Qed.

Lemma result_status_rank v st : result_status v = Some st -> 2 <= rank st.
Proof. unfold result_status. intros H. repeat case_match; simplify_eq; simpl; lia. Qed.

Lemma result_quiet di dc a st f t : Forall2 quiet t (apply_operation_result di dc a st f t).
Proof.
  unfold apply_operation_result. destruct (result_status _) as [s|] eqn:Es; [|done].
  apply result_status_rank in Es. repeat (case_match; try done). apply (update_rel quiet). intros o Ho.
  rewrite !andb_true_iff, orb_true_iff, !has_true in Ho. destruct Ho as [[_ Ho] _].
  apply set_state_quiet; destruct Ho as [Ho|Ho]; rewrite ?Ho; simpl; lia.
Qed.

Lemma dispatch_loop_evolves ready sent now rows : forall seen t,
  Forall2 evolves t (dispatch_loop ready sent now rows seen t).
Proof.
  induction rows as [|id rows IH]; intros seen t; cbn [dispatch_loop]; [done|]. destruct (find_id id t) as [o|]; [|done].
  case_bool_decide; [done|]. case_match; [done|].
  pose proof (claim_evolves id now t) as Hc. destruct (claim_operation id now t) as [claimed t1]. cbn [snd] in Hc.
  transitivity t1; [done|].
  match goal with |- Forall2 _ _ (dispatch_loop _ _ _ _ _ ?t2) => transitivity t2; [|apply IH] end.
  destruct (claimed && negb (sent id)); [|reflexivity]. apply (update_rel evolves). intros o' [_ Ho%has_true]%andb_true_iff.
  apply set_state_evolves; rewrite Ho; simpl; lia.
Qed.

Lemma dispatch_evolves ready sent now t : Forall2 evolves t (dispatch_operations_once ready sent now t).
Proof. unfold dispatch_operations_once. etrans; [apply quiet_evolves, expire_quiet|apply dispatch_loop_evolves]. Qed.

(** ** Steps *)

Section steps.
Context (device_imei device_iccid : Z -> option pystr).

Inductive step : table -> table -> Prop :=
| step_create actor tg f hash key deadline stream conn id token now r t t' :
    create_operation actor tg f hash key deadline stream conn id token now t = Ok (r, t') -> step t t'
| step_recover t : step t (recover_operations t)
| step_disconnect c t : step t (disconnect_operations c t)
| step_rebind a st c t : step t (rebind_operations a st c t)
| step_expire now t : step t (expire_operations now t)
| step_cancel id t : step t (cancel_operation id t).2
| step_result a st f t : step t (apply_operation_result device_imei device_iccid a st f t)
| step_dispatch ready sent now t : step t (dispatch_operations_once ready sent now t)
| step_reset t : step t (reset_operations t).

Lemma create_cases actor tg f hash key deadline stream conn id token now r t t' :
  create_operation actor tg f hash key deadline stream conn id token now t = Ok (r, t') ->
  t' = t \/
  (count_where active t < 200 /\ count_where (fun o => active o && (o_device_id o =? tg_id tg)) t < 16 /\
   find_id id t = None /\
   exists o, t' = t ++ [o] /\ o_id o = id /\ o_status o = Queued /\ o_device_id o = tg_id tg).
Proof.
  unfold create_operation. intros H. destruct (List.find _ t) as [e|].
  - case_bool_decide; [|done]. left. by injection H.
  - destruct (_ || _) eqn:E; [done|]. apply orb_false_iff in E as [E1 E2].
    destruct (find_id id t) eqn:Ef; [done|]. injection H as _ <-. right. split_and!; [lia|lia|done|].
    eexists. split_and!; done.
Qed.

Lemma step_evolves t t' : step t t' -> table_evolves t t'.
Proof.
  intros H. destruct H as [actor tg f hash key deadline stream conn id token now r t t' H| | | | | | | | ].
  { apply create_cases in H as [->|(_ & _ & _ & o & -> & _)]; [apply table_evolves_refl|]. by exists t, [o]. }
  all: apply Forall2_evolves_table; eauto using quiet_evolves, recover_quiet, disconnect_quiet, rebind_quiet,
    expire_quiet, cancel_quiet, result_quiet, dispatch_evolves, reset_quiet.
Qed.

Lemma steps_evolve t t' : rtc step t t' -> table_evolves t t'.
Proof.
  induction 1 as [|t1 t2 t3 Hs _ (t3a & ex3 & -> & Hf3)]; [apply table_evolves_refl|].
  apply step_evolves in Hs as (t2a & ex2 & -> & Hf2).
  apply Forall2_app_inv_l in Hf3 as (l1 & l2 & Hl1 & _ & ->).
  exists l1, (l2 ++ ex3). split; [by rewrite app_assoc|]. by etrans.
Qed.


(** ** The table invariant *)

Definition active_on (dev : Z) (o : operation) : bool := active o && (o_device_id o =? dev).

Definition exclusive (t : table) : Prop :=
  forall o o', o ∈ t -> o' ∈ t -> o_status o = Running -> o_status o' = Running ->
    o_device_id o = o_device_id o' -> o = o'.

Record table_ok (t : table) : Prop := {
  t_ids : NoDup (o_id <$> t);
  t_total : count_where active t <= 200;
  t_device : forall dev, count_where (active_on dev) t <= 16;
  t_exclusive : exclusive t }.

Lemma evolves_ids t t' : Forall2 evolves t t' -> o_id <$> t' = o_id <$> t.
Proof.
  induction 1 as [|o o' t t' (E & _) _ IH]; [done|]. rewrite !fmap_cons, IH. f_equal. unfold request_of in E. congruence.
Qed.

Lemma evolves_device o o' : evolves o o' -> o_device_id o' = o_device_id o.
Proof. intros (E & _). unfold request_of in E. congruence. Qed.

Lemma evolves_active o o' : evolves o o' -> active o' = true -> active o = true.
Proof.
  intros (_ & R & _). rewrite !active_spec. intros [H|H]; rewrite H in R;
    destruct (o_status o); simpl in R; try lia; first [by left|by right].
Qed.

Lemma evolves_count p t t' :
  (forall o o', evolves o o' -> p o' = true -> p o = true) -> Forall2 evolves t t' ->
  count_where p t' <= count_where p t.
Proof.
  intros Hp. unfold count_where. induction 1 as [|o o' t t' Ho _ IH]; [done|]. rewrite !filter_cons.
  specialize (Hp o o' Ho).
  destruct (decide (p o' = true)), (decide (p o = true)); cbn [length]; try lia.
Qed.

Lemma evolves_counts t t' : Forall2 evolves t t' ->
  count_where active t' <= count_where active t /\
  forall dev, count_where (active_on dev) t' <= count_where (active_on dev) t.
Proof.
  intros H. split; [|intros dev]; (eapply evolves_count; [|exact H]); [exact evolves_active|].
  intros o o' Ho. unfold active_on. rewrite !andb_true_iff, (evolves_device _ _ Ho). intros [? ?].
  split; [by eapply evolves_active|done].
Qed.

Lemma quiet_running t t' o' :
  Forall2 quiet t t' -> o' ∈ t' -> o_status o' = Running -> o' ∈ t.
Proof.
  intros H Hin Hr. apply list_elem_of_lookup in Hin as [i Hi].
  destruct (Forall2_lookup_r _ _ _ _ _ H Hi) as (o & Ho & _ & Hq). rewrite (Hq Hr). by apply list_elem_of_lookup_2 in Ho.
Qed.

Lemma quiet_exclusive t t' : Forall2 quiet t t' -> exclusive t -> exclusive t'.
Proof. intros H He o o' Ho Ho' Hr Hr'. apply He; [by eapply quiet_running..|done|done]. Qed.

Lemma quiet_ok t t' : Forall2 quiet t t' -> table_ok t -> table_ok t'.
Proof.
  intros H []. assert (He := quiet_evolves _ _ H). destruct (evolves_counts _ _ He) as [H1 H2].
  split; [by rewrite (evolves_ids _ _ He)|lia|intros dev; specialize (H2 dev); specialize (t_device0 dev); lia|].
  by eapply quiet_exclusive.
Qed.

Lemma find_id_Some id t o : find_id id t = Some o -> o ∈ t /\ o_id o = id.
Proof.
  unfold find_id. intros H. apply List.find_some in H as [H1 H2]. apply list_elem_of_In in H1.
  by apply bool_decide_eq_true in H2.
Qed.

Lemma find_id_None id t : find_id id t = None -> id ∉ o_id <$> t.
Proof.
  unfold find_id. intros H (o & -> & Ho)%list_elem_of_fmap. apply list_elem_of_In in Ho.
  apply (List.find_none _ _ H) in Ho. by apply bool_decide_eq_false in Ho.
Qed.

Lemma ids_inj t o o' : NoDup (o_id <$> t) -> o ∈ t -> o' ∈ t -> o_id o = o_id o' -> o = o'.
Proof.
  intros Hn Ho Ho' E. apply list_elem_of_lookup in Ho as [i Hi], Ho' as [j Hj].
  assert (i = j) as ->; [|congruence]. eapply (NoDup_lookup _ i j (o_id o) Hn); rewrite list_lookup_fmap;
    [by rewrite Hi|rewrite Hj; simpl; by rewrite E].
Qed.

(** No operation of [dev] is running. *)
Definition idle (dev : Z) (t : table) : Prop := forall o, o ∈ t -> o_status o = Running -> o_device_id o <> dev.

(** Running rows after a claim: those before, and possibly the one claimed. *)
Lemma claim_running id now t o' :
  o' ∈ (claim_operation id now t).2 -> o_status o' = Running ->
  (o' ∈ t) \/ (o_id o' = id /\ exists o, o ∈ t /\ o_id o = id /\ o_device_id o' = o_device_id o /\
               o' = with_state Running (o_result o) (o_error o) o).
Proof.
  unfold claim_operation, update. cbn [snd]. intros (o & -> & Ho)%list_elem_of_fmap Hr.
  destruct (_ && _) eqn:E; [|by left]. rewrite !andb_true_iff, bool_decide_eq_true in E. destruct E as [[E _] _].
  right. split; [done|]. by exists o.
Qed.

Lemma dispatch_loop_exclusive ready sent now rows : forall seen t,
  NoDup (o_id <$> t) -> exclusive t ->
  (forall id o, id ∈ rows -> o ∈ t -> o_id o = id -> o_device_id o ∈ seen \/ idle (o_device_id o) t) ->
  exclusive (dispatch_loop ready sent now rows seen t).
Proof.
  induction rows as [|id rows IH]; intros seen t Hn He Hrows; cbn [dispatch_loop]; [done|].
  assert (Hrest : forall id' o, id' ∈ rows -> o ∈ t -> o_id o = id' -> o_device_id o ∈ seen \/ idle (o_device_id o) t)
    by (intros id' o Hid; apply Hrows; by right).
  destruct (find_id id t) as [o|] eqn:Ef; [|by apply IH].
  apply find_id_Some in Ef as [Ho Hid]. case_bool_decide as Hseen; [by apply IH|].
  destruct (Hrows id o ltac:(left) Ho Hid) as [?|Hidle]; [done|].
  case_match; [apply IH; [done|done|]; intros id' o' Hid' Ho' E; destruct (Hrest id' o' Hid' Ho' E); [left; by right|by right]|].
  pose proof (claim_evolves id now t) as Hev. pose proof (claim_running id now t) as Hrun.
  destruct (claim_operation id now t) as [claimed t1]. cbn [snd] in Hev, Hrun.
  assert (Hn1 : NoDup (o_id <$> t1)) by (by rewrite (evolves_ids _ _ Hev)).
  assert (Hdev : forall r, r ∈ t1 -> o_status r = Running -> r ∈ t \/ o_device_id r = o_device_id o).
  { intros r Hr Hs. destruct (Hrun r Hr Hs) as [?|(_ & o0 & Ho0 & Hid0 & E & _)]; [by left|right].
    rewrite E. f_equal. apply (ids_inj t); congruence. }
  assert (He1 : exclusive t1).
  { intros r r' Hr Hr' Hs Hs' E. apply (ids_inj t1); [done..|].
    destruct (Hrun r Hr Hs) as [Ht|(Hi & _)], (Hrun r' Hr' Hs') as [Ht'|(Hi' & _)]; [by rewrite (He r r')| | |congruence].
    - destruct (Hdev r' Hr' Hs') as [Ht'|E']; [by rewrite (He r r')|]. destruct (Hidle r Ht Hs). congruence.
    - destruct (Hdev r Hr Hs) as [Ht|E']; [by rewrite (He r r')|]. destruct (Hidle r' Ht' Hs'). congruence. }
  assert (Hrows1 : forall id' o', id' ∈ rows -> o' ∈ t1 -> o_id o' = id' ->
    o_device_id o' ∈ o_device_id o :: seen \/ idle (o_device_id o') t1).
  { intros id' o' Hid' Ho' E. apply list_elem_of_lookup in Ho' as [i Hi].
    destruct (Forall2_lookup_r _ _ _ _ _ Hev Hi) as (o0 & Hi0 & Hev0). apply list_elem_of_lookup_2 in Hi0.
    rewrite (evolves_device _ _ Hev0).
    assert (E0 : o_id o0 = id') by (destruct Hev0 as (Er & _); unfold request_of in Er; congruence).
    destruct (decide (o_device_id o0 = o_device_id o)) as [Ed|Ed]; [left; rewrite Ed; left|].
    destruct (Hrest id' o0 Hid' Hi0 E0) as [?|Hid0]; [left; by right|right].
    intros r Hr Hs. destruct (Hdev r Hr Hs) as [Ht|Er]; [by apply Hid0|congruence]. }
  destruct (claimed && negb (sent id)); [|by apply IH].
  assert (Hq : Forall2 quiet t1 (update (fun o => bool_decide (o_id o = id) && has Running o)
      (set_status Unknown (str "socket send did not complete")) t1)).
  { apply (update_rel quiet). intros o' [_ Ho'%has_true]%andb_true_iff. apply set_state_quiet; rewrite ?Ho'; simpl; lia. }
  apply IH; [by rewrite (evolves_ids _ _ (quiet_evolves _ _ Hq))|by eapply quiet_exclusive|].
  intros id' o' Hid' Ho' E. apply list_elem_of_lookup in Ho' as [i Hi].
  destruct (Forall2_lookup_r _ _ _ _ _ Hq Hi) as (o0 & Hi0 & Hev0 & _). apply list_elem_of_lookup_2 in Hi0.
  rewrite (evolves_device _ _ Hev0).
  destruct (Hrows1 id' o0 Hid' Hi0) as [?|Hid0]; [destruct Hev0 as (Er & _); unfold request_of in Er; congruence|by left|].
  right. intros r Hr Hs. apply Hid0; [by eapply quiet_running|done].
Qed.

Lemma dispatch_ok ready sent now t : table_ok t -> table_ok (dispatch_operations_once ready sent now t).
Proof.
  intros Hok. assert (Hev := dispatch_evolves ready sent now t). destruct (evolves_counts _ _ Hev) as [H1 H2].
  assert (Hok1 := quiet_ok _ _ (expire_quiet now t) Hok). destruct Hok. split.
  - by rewrite (evolves_ids _ _ Hev).
  - lia.
  - intros dev. specialize (H2 dev). specialize (t_device0 dev). lia.
  - unfold dispatch_operations_once. destruct Hok1. apply dispatch_loop_exclusive; [done|done|].
    intros id o Hid Ho E. right. apply list_elem_of_fmap in Hid as (q & -> & Hq).
    unfold dispatchable in Hq. apply elem_of_take in Hq as (i & Hi & _). apply list_elem_of_lookup_2 in Hi.
    rewrite merge_sort_Permutation in Hi. apply list_elem_of_filter in Hi as [[_ Hex] Hq].
    assert (o = q) as -> by (by apply (ids_inj (expire_operations now t))).
    intros r Hr Hs Hd. assert (Hb : existsb (fun r => (o_device_id r =? o_device_id q) && has Running r)
      (expire_operations now t) = true); [|congruence].
    apply existsb_exists. exists r. split; [by apply list_elem_of_In|]. apply andb_true_iff. split; [lia|by apply has_true].
Qed.

Lemma count_where_app p t o : count_where p (t ++ [o]) = count_where p t + if p o then 1 else 0.
Proof.
  unfold count_where. rewrite filter_app, length_app. rewrite filter_cons, filter_nil.
  destruct (p o); case_decide; simpl; try done; lia.
Qed.

Lemma step_ok t t' : step t t' -> table_ok t -> table_ok t'.
Proof.
  intros H Hok. destruct H as [actor tg f hash key deadline stream conn id token now r t t' H| | | | | | | | ];
    eauto using quiet_ok, recover_quiet, disconnect_quiet, rebind_quiet, expire_quiet, cancel_quiet, result_quiet,
      reset_quiet, dispatch_ok.
  apply create_cases in H as [->|(Ht & Hd & Hid & o & -> & Ei & Es & Ed)]; [done|]. destruct Hok. split.
  - rewrite fmap_app. apply NoDup_app. split_and!; [done| |apply NoDup_singleton].
    intros x Hx Hxo. apply list_elem_of_singleton in Hxo as ->. rewrite Ei in Hx. by apply find_id_None in Hid.
  - rewrite count_where_app. case_match; lia.
  - intros dev. rewrite count_where_app. specialize (t_device0 dev).
    destruct (active_on dev o) eqn:E; [|lia]. unfold active_on in *. apply andb_true_iff in E as [_ E].
    assert (dev = tg_id tg) as -> by lia. lia.
  - intros o1 o2 H1 H2 Hr1 Hr2. apply elem_of_app in H1 as [H1| ->%list_elem_of_singleton]; [|congruence].
    apply elem_of_app in H2 as [H2| ->%list_elem_of_singleton]; [|congruence]. by apply t_exclusive0.
Qed.

Lemma steps_ok t : rtc step [] t -> table_ok t.
Proof.
  assert (H0 : table_ok []).
  { split; [apply NoDup_nil_2|done|done|]. by intros o o' ?%not_elem_of_nil. }
  intros H. revert H0. induction H as [|t1 t2 t3 Hs _ IH]; [done|]. intros H0. apply IH. by eapply step_ok.
Qed.

(** ** Properties *)

(** An operation only moves forward -- queued, running, unknown,
    then final -- and a final state is never touched again: every later table
    starts with the same operations in the same order, each with the same
    request and at least as far along, and the finished ones unchanged.  So an
    operation that left the queue can never be dispatched a second time. *)
Theorem operations_only_advance t t' i o :
  rtc step t t' -> t !! i = Some o ->
  exists o', t' !! i = Some o' /\ request_of o' = request_of o /\
    rank (o_status o) <= rank (o_status o') /\ (final o -> o' = o) /\
    (o_status o <> Queued -> o_status o' <> Queued).
Proof.
  intros H Hi. apply steps_evolve in H as (t1 & extra & -> & Hf).
  destruct (Forall2_lookup_l _ _ _ _ _ Hf Hi) as (o' & Hi' & Hr & Hk & Hfin). exists o'.
  split_and!; try done; [by apply lookup_app_l_Some|]. intros Hq E. apply Hq.
  rewrite E in Hk. destruct (o_status o); simpl in Hk; try lia. done.
Qed.

(** In every reachable table operation ids are unique, at most
    one operation per module is running, at most 16 per module and 200 in all
    are queued or running. *)
Theorem operations_bounded t :
  rtc step [] t ->
  NoDup (o_id <$> t) /\ exclusive t /\ count_where active t <= 200 /\
  forall dev, count_where (active_on dev) t <= 16.
Proof. intros H. by destruct (steps_ok t H). Qed.

(** A replayed request is answered with the operation it first
    created and changes nothing; the same key with another request is refused;
    nothing is created once the queue is full. *)
Theorem create_operation_spec actor tg f hash key deadline stream conn id token now t :
  match create_operation actor tg f hash key deadline stream conn id token now t,
        List.find (same_request actor (tg_id tg) key) t with
  | Ok (r, t'), Some existing => t' = t /\ o_request_hash existing = hash /\ r = find_id (o_id existing) t
  | Err e, Some existing => e = OperationConflict /\ o_request_hash existing <> hash
  | Ok (r, t'), None => exists o, t' = t ++ [o] /\ r = Some o /\ o_status o = Queued /\
                          o_frame o = f /\ o_request_hash o = hash /\ same_request actor (tg_id tg) key o = true
  | Err e, None => (e = OperationQueueFull /\
                     (200 <= count_where active t \/ 16 <= count_where (active_on (tg_id tg)) t)) \/
                   (e = IntegrityError /\ is_Some (find_id id t))
  end.
Proof.
  unfold create_operation. destruct (List.find (same_request actor (tg_id tg) key) t) as [e|] eqn:E.
  - case_bool_decide; done.
  - change (fun o => active o && (o_device_id o =? tg_id tg)) with (active_on (tg_id tg)).
    destruct (_ || _) eqn:El; [left; split; [done|lia]|].
    destruct (find_id id t) as [o|] eqn:Ef; [right; by split|].
    eexists. split_and!; [done| |done|done|done|].
    + unfold find_id in *. clear -Ef. induction t as [|o t IH]; simpl in *; [by rewrite bool_decide_eq_true_2|].
      case_bool_decide; [done|]. by apply IH.
    + unfold same_request. by rewrite bool_decide_eq_true_2.
Qed.

End steps.

(** One operation: created, dispatched, reported. *)
Definition sample_target : target := mkTarget 3 (str "home") (str "m1") [] [].
Definition sample_created : table :=
  match create_operation (str "admin") sample_target [(str "type", JStr (str "send_sms"))] (str "h") (str "k")
          (str "2026-01-01T00:01:00") (str "s1") (str "c1") (str "op-1") (str "tok") (str "2026-01-01T00:00:00") [] with
  | Ok (_, t) => t
  | Err _ => []
  end.
Definition sample_running : table :=
  dispatch_operations_once (fun _ => Some (str "c1")) (fun _ => true) (str "2026-01-01T00:00:01") sample_created.
Definition sample_result : frame :=
  [(str "status", JStr (str "succeeded")); (str "ok", JBool true); (str "cmd_id", JStr (str "op-1"));
   (str "device", JStr (str "m1")); (str "result_token", JStr (str "tok"))].
Definition no_identity (_ : Z) : option pystr := None.
Definition sample_done : table :=
  apply_operation_result no_identity no_identity (str "home") (str "s1") sample_result sample_running.

Lemma sample_steps : rtc (step no_identity no_identity) [] sample_created /\
  rtc (step no_identity no_identity) sample_created sample_done.
Proof.
  split.
  - apply rtc_once. by eapply (step_create no_identity no_identity (str "admin") sample_target
      [(str "type", JStr (str "send_sms"))] (str "h") (str "k") (str "2026-01-01T00:01:00") (str "s1") (str "c1")
      (str "op-1") (str "tok") (str "2026-01-01T00:00:00")).
  - eapply rtc_l; [apply step_dispatch|]. apply rtc_once. apply step_result.
Defined.

Lemma operations_only_advance_witness :
  exists o o', sample_created !! 0%nat = Some o /\ sample_done !! 0%nat = Some o' /\
    o_status o = Queued /\ o_status o' = Succeeded /\ request_of o' = request_of o.
Proof.
  destruct (sample_created !! 0%nat) as [o|] eqn:E; [|by vm_compute in E].
  destruct (operations_only_advance no_identity no_identity sample_created sample_done 0 o (proj2 sample_steps) E)
    as (o' & H1 & H2 & _).
  exists o, o'. split_and!; [done|exact H1| | |exact H2].
  - vm_compute in E. by injection E as <-.
  - vm_compute in H1. by injection H1 as <-.
Defined.

Lemma operations_bounded_witness :
  length sample_created = 1%nat /\ count_where active sample_created <= 200.
Proof.
  split; [by vm_compute|]. exact (proj1 (proj2 (proj2 (operations_bounded no_identity no_identity _ (proj1 sample_steps))))).
Defined.

End Operations.
