(* ===== verification/Delivery.v ===== *)
(** * SMS delivery reports (server/src/hub_server/db.py)

    The [sms_delivery_segments] table and the aggregate state of an outbound
    message.  Rows are in id order; timestamps are instants in seconds (every
    stored one went through [to_utc_iso]), [None] where the column is NULL;
    the columns that are only displayed are left out. *)

From S2P Require Import Prelude PyText Codec.

Module Delivery.

(** ** Recipients *)

(** Characters with Numeric_Type=Digit that are not decimal digits. *)
Definition DIGIT_RANGES : list (Z * Z) :=
  [(178, 179); (185, 185); (4969, 4977); (6618, 6618); (8304, 8304); (8308, 8313); (8320, 8329);
   (9312, 9320); (9332, 9340); (9352, 9360); (9450, 9450); (9461, 9469); (9471, 9471);
   (10102, 10110); (10112, 10120); (10122, 10130); (68160, 68163); (69216, 69224);
   (69714, 69722); (127232, 127242)].

(** [str.isdigit] of one character. *)
Definition is_digit (c : Z) : bool :=
  is_decimal c || existsb (fun r => (r.1 <=? c) && (c <=? r.2)) DIGIT_RANGES.

Definition recipient_key (recipient : pystr) : pystr := filter (fun c => is_digit c = true) recipient.

Definition ends_with (suffix s : pystr) : bool := starts_with (rev suffix) (rev s).

Definition same_recipient (left right : pystr) : bool :=
  let a := recipient_key left in
  let b := recipient_key right in
  if bool_decide (a = []) || bool_decide (b = []) then bool_decide (a = []) && bool_decide (b = [])
  else if bool_decide (a = b) then true
  else (7 <=? Nat.min (length a) (length b))%nat && (ends_with b a || ends_with a b).

(** ** States *)

Definition state_of_name (s : pystr) : option delivery_state :=
  if bool_decide (s = str "pending") then Some pending
  else if bool_decide (s = str "delivered") then Some delivered
  else if bool_decide (s = str "failed") then Some failed
  else None.

Definition name_of_state (st : delivery_state) : pystr :=
  match st with pending => str "pending" | delivered => str "delivered" | failed => str "failed" end.

(** [_delivery_state]: TP-ST decides where it can, the agent's claim otherwise. *)
Definition delivery_state_of (status_code : option Z) (claimed : option pystr) : delivery_state :=
  let fallback := default pending (c ← claimed; state_of_name c) in
  match status_code with
  | Some c =>
      if (0x00 <=? c) && (c <=? 0x1F) then delivered
      else if (0x20 <=? c) && (c <=? 0x3F) then pending
      else if (0x40 <=? c) && (c <=? 0x7F) then failed
      else fallback
  | None => fallback
  end.

Definition terminal_delivery_state (current incoming : delivery_state) : delivery_state :=
  match incoming, current with
  | pending, (delivered | failed) => current
  | failed, delivered => current
  | _, _ => incoming
  end.

(** ** Rows *)

Record segment_row := mkSegment {
  sg_message : option Z; sg_agent : pystr; sg_device : pystr; sg_index : option Z;
  sg_reference : Z; sg_recipient : pystr; sg_submitted : option Z;
  sg_status : delivery_state; sg_status_code : option Z; sg_service : option Z; sg_created : Z }.

Inductive aggregate := ADelivered | APartial | AFailed | APending | AOther (s : pystr).

(** The error column: which text, and the codes it lists. *)
Inductive error_text := NoError | SomeSegmentsFailed | DeliveryFailed (codes : list Z).

Record message := mkMessage { m_segments : Z; m_status : aggregate; m_error : error_text }.

Record tables := mkTables { segments : list segment_row; messages : gmap Z message }.

Definition has_state (st : delivery_state) (r : segment_row) : bool := bool_decide (sg_status r = st).

(** ORDER BY segment_index. *)
Definition index_le (a b : segment_row) : Prop :=
  match sg_index a, sg_index b with
  | Some x, Some y => x <= y
  | Some _, None => False
  | None, _ => True
  end.

#[export] Instance index_le_dec a b : Decision (index_le a b).
Proof. unfold index_le. destruct (sg_index a), (sg_index b); apply _. Defined.

Definition of_message (id : Z) (t : tables) : list segment_row :=
  merge_sort index_le (filter (fun r => sg_message r = Some id) (segments t)).

(** What [rows] say of a message of [n] segments. *)
Definition aggregate_of (n : Z) (rows : list segment_row) : aggregate * error_text :=
  let expected := Z.max (if n =? 0 then 1 else n) (Z.of_nat (length rows)) in
  let n_delivered := Z.of_nat (length (filter (fun r => has_state delivered r = true) rows)) in
  let failed_rows := filter (fun r => has_state failed r = true) rows in
  if expected <=? n_delivered then (ADelivered, NoError)
  else if negb (n_delivered =? 0) then
    (APartial, match failed_rows with [] => NoError | _ => SomeSegmentsFailed end)
  else match failed_rows with
       | [] => (APending, NoError)
       | _ => (AFailed, DeliveryFailed (omap sg_status_code failed_rows))
       end.

Definition update_message_delivery_status (id : Z) (t : tables) : tables :=
  match messages t !! id with
  | None => t
  | Some m =>
      match of_message id t with
      | [] => t
      | rows =>
          let '(agg, err) := aggregate_of (m_segments m) rows in
          mkTables (segments t) (<[id := mkMessage (m_segments m) agg err]> (messages t))
      end
  end.

(** ** Matching *)

(** The clock ([now]) is read in microseconds and stored in whole seconds. *)
Definition MICROS : Z := 1000000.

Definition update_at (i : nat) (f : segment_row -> segment_row) (rows : list segment_row) : list segment_row :=
  alter f i rows.

(** The last row (highest id) a test accepts, with its position. *)
Definition newest (p : segment_row -> bool) (rows : list segment_row) : option (nat * segment_row) :=
  last (filter (fun ir => p ir.2 = true) (imap (fun i r => (i, r)) rows)).

Definition same_module (agent device : pystr) (reference : Z) (r : segment_row) : bool :=
  bool_decide (sg_agent r = agent) && bool_decide (sg_device r = device) && (sg_reference r =? reference).

Definition unmatched (agent device : pystr) (reference : Z) (recipient : pystr) (cutoff : Z) (r : segment_row) : bool :=
  bool_decide (sg_message r = None) && same_module agent device reference r && (cutoff <=? sg_created r * MICROS)
  && same_recipient (sg_recipient r) recipient.

(** The unique index on (message_id, segment_index). *)
Definition taken (id index : Z) (rows : list segment_row) : bool :=
  existsb (fun r => bool_decide (sg_message r = Some id) && bool_decide (sg_index r = Some index)) rows.

(** One reference of an outbound message: adopt an early report or add a row;
    [None] when the unique index refuses it. *)
Definition attach_one (id : Z) (agent device recipient : pystr) (submitted now index reference : Z)
    (rows : list segment_row) : option (list segment_row) :=
  if taken id index rows then None
  else Some (
    match newest (unmatched agent device reference recipient (now - 600 * MICROS)) rows with
    | Some (i, _) =>
        update_at i (fun r => mkSegment (Some id) (sg_agent r) (sg_device r) (Some index) (sg_reference r)
                                recipient (Some submitted) (sg_status r) (sg_status_code r) (sg_service r) (sg_created r)) rows
    | None =>
        rows ++ [mkSegment (Some id) agent device (Some index) reference recipient (Some submitted) pending None None
                   (now / MICROS)]
    end).

Fixpoint attach_loop (id : Z) (agent device recipient : pystr) (submitted now index : Z) (references : list Z)
    (rows : list segment_row) : option (list segment_row) :=
  match references with
  | [] => Some rows
  | ref :: references =>
      rows ← attach_one id agent device recipient submitted now index ref rows;
      attach_loop id agent device recipient submitted now (index + 1) references rows
  end.

(** [None] is sqlite3.IntegrityError, which rolls the event back. *)
Definition attach_sms_segments (id : Z) (agent device recipient : pystr) (references : list Z)
    (submitted now : Z) (t : tables) : option tables :=
  rows ← attach_loop id agent device recipient submitted now 1 references (segments t);
  Some (update_message_delivery_status id (mkTables rows (messages t))).

(** [_timestamp_distance], [None] for infinity. *)
Definition timestamp_distance (left right : option Z) : option Z :=
  match left, right with Some a, Some b => Some (Z.abs (a - b)) | _, _ => None end.

Definition dist_lt (a b : option Z) : bool :=
  match a, b with
  | Some x, Some y => x <? y
  | Some _, None => true
  | None, _ => false
  end.

(** NULLs sort last under DESC. *)
Definition submitted_before (a b : option Z) : bool :=
  match a, b with
  | Some x, Some y => x <? y
  | None, Some _ => true
  | _, None => false
  end.

(** ORDER BY submitted_at DESC, id DESC: insertion into the ordered rows, ids
    coming in increasing. *)
Fixpoint insert_desc (x : nat * segment_row) (l : list (nat * segment_row)) : list (nat * segment_row) :=
  match l with
  | [] => [x]
  | y :: l => if submitted_before (sg_submitted x.2) (sg_submitted y.2) then y :: insert_desc x l else x :: y :: l
  end.

(** [min(candidates, key=...)]: the first of the smallest. *)
Definition closest (service : option Z) (l : list (nat * segment_row)) : option (nat * segment_row) :=
  match l with
  | [] => None
  | x :: l =>
      Some (foldl (fun best y =>
        if dist_lt (timestamp_distance (sg_submitted y.2) service) (timestamp_distance (sg_submitted best.2) service)
        then y else best) x l)
  end.

Definition candidates (agent device : pystr) (reference : Z) (recipient : pystr) (rows : list segment_row) :
    list (nat * segment_row) :=
  foldl (fun acc x => insert_desc x acc) []
    (filter (fun ir => (bool_decide (is_Some (sg_message ir.2)) && same_module agent device reference ir.2
                        && same_recipient (sg_recipient ir.2) recipient) = true)
       (imap (fun i r => (i, r)) rows)).

(** The segment a report is about: the closest submission, or the newest one
    when the report carries no service-centre time. *)
Definition match_report (agent device : pystr) (reference : Z) (recipient : pystr) (service : option Z)
    (rows : list segment_row) : option (nat * segment_row) :=
  let cs := candidates agent device reference recipient rows in
  match service with
  | Some _ => closest service cs
  | None => head_of cs
  end.

Definition report_row (recipient : option pystr) (st : delivery_state) (code service : option Z)
    (r : segment_row) : segment_row :=
  mkSegment (sg_message r) (sg_agent r) (sg_device r) (sg_index r) (sg_reference r)
    (default (sg_recipient r) recipient) (sg_submitted r) st code service (sg_created r).

Definition record_sms_delivery (agent device : pystr) (reference : Z) (recipient : pystr)
    (code : option Z) (claimed : option pystr) (service : option Z) (now : Z) (t : tables) :
    option Z * tables :=
  let report := delivery_state_of code claimed in
  match match_report agent device reference recipient service (segments t) with
  | Some (i, row) =>
      let effective := terminal_delivery_state (sg_status row) report in
      let rows := if bool_decide (effective = report)
                  then update_at i (report_row None effective code service) (segments t)
                  else segments t in
      let id := default 0 (sg_message row) in
      (Some id, update_message_delivery_status id (mkTables rows (messages t)))
  | None =>
      match newest (unmatched agent device reference recipient (now - 14 * 86400 * MICROS)) (segments t) with
      | Some (i, row) =>
          let effective := terminal_delivery_state (sg_status row) report in
          (None, if bool_decide (effective = report)
                 then mkTables (update_at i (report_row (Some recipient) effective code service) (segments t)) (messages t)
                 else t)
      | None =>
          (None, mkTables (segments t ++ [mkSegment None agent device None reference recipient None report code service (now / MICROS)])
                   (messages t))
      end
  end.

(** ** Matching finds existing rows *)

Lemma imap_pairs (rows : list segment_row) i r :
  (i, r) ∈ imap (fun i r => (i, r)) rows <-> rows !! i = Some r.
Proof.
  rewrite list_elem_of_lookup. setoid_rewrite list_lookup_imap. split.
  - intros [j Hj]. destruct (rows !! j) as [r'|] eqn:E; simpl in Hj; [|done]. by injection Hj as -> ->.
  - intros H. exists i. by rewrite H.
Qed.

Lemma newest_spec p rows i r : newest p rows = Some (i, r) -> rows !! i = Some r /\ p r = true.
Proof.
  unfold newest. intros H. apply last_Some_elem_of, list_elem_of_filter in H as [Hp Hi].
  by apply imap_pairs in Hi.
Qed.

Lemma insert_desc_perm x l : insert_desc x l ≡ₚ x :: l.
Proof. induction l as [|y l IH]; simpl; [done|]. case_match; [|done]. rewrite IH. apply Permutation_swap. Qed.

Lemma insert_all_perm l acc : foldl (fun acc x => insert_desc x acc) acc l ≡ₚ l ++ acc.
Proof.
  revert acc. induction l as [|x l IH]; intros acc; simpl; [done|]. rewrite IH, insert_desc_perm.
  by rewrite <- Permutation_middle.
Qed.

Lemma candidates_spec agent device ref recipient rows i r :
  (i, r) ∈ candidates agent device ref recipient rows ->
  rows !! i = Some r /\ is_Some (sg_message r) /\ same_module agent device ref r = true.
Proof.
  unfold candidates. rewrite insert_all_perm, app_nil_r, list_elem_of_filter, imap_pairs. cbn [snd].
  rewrite !andb_true_iff, bool_decide_eq_true. naive_solver.
Qed.

Lemma closest_in service l x : closest service l = Some x -> x ∈ l.
Proof.
  destruct l as [|y l]; [done|]. cbn [closest]. intros [= <-]. revert y. induction l as [|z l IH]; intros y; simpl; [left|].
  case_match; [right; apply IH|]. specialize (IH y). apply elem_of_cons in IH as [->|?]; [left|by do 2 right].
Qed.

Lemma match_report_spec agent device ref recipient service rows i r :
  match_report agent device ref recipient service rows = Some (i, r) ->
  rows !! i = Some r /\ is_Some (sg_message r) /\ same_module agent device ref r = true.
Proof.
  unfold match_report. intros H. apply (candidates_spec agent device ref recipient).
  destruct service; [by eapply closest_in|]. destruct (candidates _ _ _ _ _) as [|x l]; [done|].
  injection H as ->. left.
Qed.

(** ** Segments only advance *)

Definition rank (st : delivery_state) : Z := match st with pending => 0 | failed => 1 | delivered => 2 end.

Lemma terminal_rank c i : rank (terminal_delivery_state c i) = Z.max (rank c) (rank i).
Proof. by destruct c, i. Qed.

Definition advances (r r' : segment_row) : Prop :=
  rank (sg_status r) <= rank (sg_status r') /\ sg_agent r' = sg_agent r /\ sg_device r' = sg_device r /\
  sg_reference r' = sg_reference r /\ (is_Some (sg_message r) -> sg_message r' = sg_message r).

#[export] Instance advances_preorder : PreOrder advances.
Proof.
  split; [intros r; by repeat split|]. intros r1 r2 r3 (A1 & A2 & A3 & A4 & A5) (B1 & B2 & B3 & B4 & B5).
  split_and!; try congruence; [lia|]. intros H. rewrite B5, A5; [done|done|by rewrite A5].
Qed.

(** Rows stay where they are, advance, and new ones come after. *)
Definition rows_advance (rows rows' : list segment_row) : Prop :=
  exists l extra, rows' = l ++ extra /\ Forall2 advances rows l.

Lemma rows_advance_refl rows : rows_advance rows rows.
Proof. exists rows, []. by rewrite app_nil_r. Qed.

Lemma rows_advance_app rows extra : rows_advance rows (rows ++ extra).
Proof. by exists rows, extra. Qed.

Lemma rows_advance_trans r1 r2 r3 : rows_advance r1 r2 -> rows_advance r2 r3 -> rows_advance r1 r3.
Proof.
  intros (l2 & e2 & -> & H2) (l3 & e3 & -> & H3). apply Forall2_app_inv_l in H3 as (a & b & Ha & _ & ->).
  exists a, (b ++ e3). split; [by rewrite app_assoc|by etrans].
Qed.

Lemma update_at_advance i f rows r :
  rows !! i = Some r -> advances r (f r) -> rows_advance rows (update_at i f rows).
Proof.
  intros Hi Ha. exists (update_at i f rows), []. rewrite app_nil_r. split; [done|]. unfold update_at.
  apply Forall2_same_length_lookup. split; [by rewrite length_alter|]. intros j x y Hx Hy.
  destruct (decide (i = j)) as [->|Hne].
  - rewrite list_lookup_alter_eq, Hx in Hy. simpl in Hy. injection Hy as <-. by assert (x = r) as -> by congruence.
  - rewrite list_lookup_alter_ne in Hy by done. by assert (x = y) as -> by congruence.
Qed.

Lemma attach_one_advance id agent device recipient sub now index ref rows rows' :
  attach_one id agent device recipient sub now index ref rows = Some rows' -> rows_advance rows rows'.
Proof.
  unfold attach_one. case_match; [done|]. intros [= <-].
  destruct (newest _ rows) as [[i r]|] eqn:E; [|apply rows_advance_app].
  apply newest_spec in E as [Hi Hp]. eapply update_at_advance; [exact Hi|].
  unfold unmatched in Hp. rewrite !andb_true_iff, bool_decide_eq_true in Hp. destruct Hp as [[[Hm _] _] _].
  split_and!; try done. rewrite Hm. by intros [? ?].
Qed.

Lemma attach_loop_advance id agent device recipient sub now refs : forall index rows rows',
  attach_loop id agent device recipient sub now index refs rows = Some rows' -> rows_advance rows rows'.
Proof.
  induction refs as [|ref refs IH]; intros index rows rows'; cbn [attach_loop].
  - intros [= <-]. apply rows_advance_refl.
  - intros (r1 & E1 & E2)%bind_Some. eapply rows_advance_trans; [by eapply attach_one_advance|by eapply IH].
Qed.

Lemma update_message_segments id t : segments (update_message_delivery_status id t) = segments t.
Proof. unfold update_message_delivery_status. by repeat case_match. Qed.

Lemma record_advance agent device ref recipient code claimed service now t :
  rows_advance (segments t) (segments (record_sms_delivery agent device ref recipient code claimed service now t).2).
Proof.
  unfold record_sms_delivery. destruct (match_report _ _ _ _ _ _) as [[i r]|] eqn:Em.
  - apply match_report_spec in Em as (Hi & Hm & _). cbn [snd]. rewrite update_message_segments. cbn [segments].
    case_bool_decide as He; [|apply rows_advance_refl]. eapply update_at_advance; [exact Hi|].
    split_and!; try done. cbn [report_row sg_status]. rewrite terminal_rank. lia.
  - destruct (newest _ _) as [[i r]|] eqn:En; cbn [snd]; [|apply rows_advance_app].
    apply newest_spec in En as [Hi _]. case_bool_decide; [|apply rows_advance_refl].
    eapply update_at_advance; [exact Hi|]. split_and!; try done. cbn [report_row sg_status]. rewrite terminal_rank. lia.
Qed.

(** ** The agreement of messages and segments *)

Definition message_ok (t : tables) (id : Z) : Prop :=
  forall m, messages t !! id = Some m -> of_message id t <> [] ->
    (m_status m, m_error m) = aggregate_of (m_segments m) (of_message id t).

Lemma update_message_ok id id' t :
  (id' <> id -> message_ok t id') -> message_ok (update_message_delivery_status id t) id'.
Proof.
  intros H. unfold update_message_delivery_status. destruct (messages t !! id) as [m|] eqn:Em.
  2: { destruct (decide (id' = id)) as [->|]; [|by apply H]. intros m' Hm'. congruence. }
  destruct (of_message id t) as [|r rows] eqn:Er.
  { destruct (decide (id' = id)) as [->|]; [|by apply H]. intros m' _. by rewrite Er. }
  rewrite <- Er. destruct (aggregate_of (m_segments m) (of_message id t)) as [agg err] eqn:Ea.
  intros m' Hm' Hne. cbn [messages] in Hm'. change (of_message id' (mkTables _ _)) with (of_message id' t) in *.
  destruct (decide (id' = id)) as [->|Hd].
  - rewrite lookup_insert_eq in Hm'. injection Hm' as <-. cbn. by rewrite Ea.
  - rewrite lookup_insert_ne in Hm' by done. by apply (H Hd).
Qed.

(** Changes that touch only the rows of [id], or of no message. *)
Definition same_rows_but (id : Z) (t t' : tables) : Prop :=
  messages t' = messages t /\ forall id', id' <> id -> of_message id' t' = of_message id' t.

Lemma same_rows_ok id t t' id' :
  same_rows_but id t t' -> message_ok t id' -> id' <> id -> message_ok t' id'.
Proof. intros [Em Er] H Hne m Hm Hn. rewrite Em in Hm. rewrite Er in * by done. by apply H. Qed.

Lemma filter_update_at id i (f : segment_row -> segment_row) rows r :
  rows !! i = Some r -> sg_message r <> Some id -> sg_message (f r) <> Some id ->
  filter (fun r => sg_message r = Some id) (update_at i f rows) = filter (fun r => sg_message r = Some id) rows.
Proof.
  unfold update_at. revert i. induction rows as [|x rows IH]; intros [|i] Hi H1 H2; try done.
  - injection Hi as ->. change (alter f 0%nat (r :: rows)) with (f r :: rows). by rewrite !filter_cons_False.
  - change (alter f (S i) (x :: rows)) with (x :: alter f i rows). rewrite !filter_cons. by rewrite (IH i).
Qed.

Lemma attach_one_other id id' agent device recipient sub now index ref rows rows' :
  id' <> id -> attach_one id agent device recipient sub now index ref rows = Some rows' ->
  filter (fun r => sg_message r = Some id') rows' = filter (fun r => sg_message r = Some id') rows.
Proof.
  intros Hne. unfold attach_one. case_match; [done|]. intros [= <-]. destruct (newest _ rows) as [[i r]|] eqn:E.
  - apply newest_spec in E as [Hi Hp]. unfold unmatched in Hp.
    rewrite !andb_true_iff, bool_decide_eq_true in Hp. destruct Hp as [[[Hm _] _] _].
    eapply filter_update_at; [done|congruence|cbn; congruence].
  - rewrite filter_app, filter_cons_False, filter_nil, app_nil_r by (cbn; congruence). done.
Qed.

Lemma attach_loop_other id id' agent device recipient sub now refs : id' <> id -> forall index rows rows',
  attach_loop id agent device recipient sub now index refs rows = Some rows' ->
  filter (fun r => sg_message r = Some id') rows' = filter (fun r => sg_message r = Some id') rows.
Proof.
  intros Hne. induction refs as [|ref refs IH]; intros index rows rows'; cbn [attach_loop]; [by intros [= <-]|].
  intros (r1 & E1 & E2)%bind_Some. rewrite (IH _ _ _ E2). by eapply attach_one_other.
Qed.

(** ** Steps *)

Inductive step : tables -> tables -> Prop :=
| step_message id m t : messages t !! id = None -> of_message id t = [] ->
    step t (mkTables (segments t) (<[id := m]> (messages t)))
| step_attach id agent device recipient refs sub now t t' :
    attach_sms_segments id agent device recipient refs sub now t = Some t' -> step t t'
| step_report agent device ref recipient code claimed service now t :
    step t (record_sms_delivery agent device ref recipient code claimed service now t).2.

Lemma attach_ok id agent device recipient refs sub now t t' :
  attach_sms_segments id agent device recipient refs sub now t = Some t' ->
  (forall id', message_ok t id') -> forall id', message_ok t' id'.
Proof.
  unfold attach_sms_segments. intros (rows & E & [= <-])%bind_Some H id'.
  apply update_message_ok. intros Hne. eapply same_rows_ok; [|by apply H|done].
  split; [done|]. intros id2 Hne2. unfold of_message. cbn [segments]. by erewrite attach_loop_other.
Qed.

Lemma record_ok agent device ref recipient code claimed service now t :
  (forall id', message_ok t id') ->
  forall id', message_ok (record_sms_delivery agent device ref recipient code claimed service now t).2 id'.
Proof.
  intros H id'. unfold record_sms_delivery. destruct (match_report _ _ _ _ _ _) as [[i r]|] eqn:Em; cbn [snd].
  - apply match_report_spec in Em as (Hi & [id Hm] & _). rewrite Hm. cbn [default].
    apply update_message_ok. intros Hne. eapply same_rows_ok; [|by apply H|exact Hne]. split; [done|].
    intros id2 Hne2. unfold of_message. cbn [segments]. case_bool_decide; [|done]. f_equal.
    apply (filter_update_at id2 i _ _ r); [done|rewrite Hm; by intros [= ->]|cbn; rewrite Hm; by intros [= ->]].
  - assert (Hsame : forall rows, filter (fun r => sg_message r = Some id') rows =
        filter (fun r => sg_message r = Some id') (segments t) ->
      message_ok (mkTables rows (messages t)) id').
    { intros rows E m Hm Hn. unfold of_message in *. cbn [segments messages] in *. rewrite E in *. by apply H. }
    destruct (newest _ _) as [[i r]|] eqn:En; cbn [snd].
    + apply newest_spec in En as [Hi Hp]. unfold unmatched in Hp.
      rewrite !andb_true_iff, bool_decide_eq_true in Hp. destruct Hp as [[[Hm _] _] _].
      case_bool_decide; [|by apply H]. apply Hsame. eapply filter_update_at; [done|congruence|cbn; congruence].
    + apply Hsame. rewrite filter_app, filter_cons_False, filter_nil, app_nil_r by done. done.
Qed.

Lemma delivery_step_ok t t' : step t t' -> (forall id, message_ok t id) -> forall id, message_ok t' id.
Proof.
  intros H. destruct H as [id m t Hn Hr|id agent device recipient refs sub now t t' Ha|agent device ref recipient code claimed service now t].
  - intros Hok id' m' Hm' Hne. cbn [messages] in Hm'. change (of_message id' (mkTables _ _)) with (of_message id' t) in *.
    destruct (decide (id' = id)) as [->|Hd]; [done|]. rewrite lookup_insert_ne in Hm' by done. by apply Hok.
  - by eapply attach_ok.
  - by apply record_ok.
Qed.

Lemma step_advance t t' : step t t' -> rows_advance (segments t) (segments t').
Proof.
  intros H. destruct H; [apply rows_advance_refl| |apply record_advance].
  unfold attach_sms_segments in *. match goal with H : _ ≫= _ = Some _ |- _ => apply bind_Some in H as (rows & E & [= <-]) end.
  rewrite update_message_segments. by eapply attach_loop_advance.
Qed.

(** ** What the aggregate means *)

Lemma count_all (p : segment_row -> bool) rows :
  length (filter (fun r => p r = true) rows) = length rows <-> Forall (fun r => p r = true) rows.
Proof.
  split.
  - induction rows as [|r rows IH]; [by constructor|]. rewrite filter_cons.
    pose proof (length_filter (fun r => p r = true) rows). case_decide; simpl; intros; [|lia]. constructor; [done|]. apply IH. lia.
  - intros H. by rewrite filter_id.
Qed.

Lemma aggregate_delivered n rows :
  0 <= n -> rows <> [] ->
  (aggregate_of n rows).1 = ADelivered <->
  n <= Z.of_nat (length rows) /\ Forall (fun r => sg_status r = delivered) rows.
Proof.
  intros Hn Hne. assert (Hl : (1 <= length rows)%nat) by (destruct rows; [done|simpl; lia]).
  assert (Hall : Forall (fun r => sg_status r = delivered) rows <-> Forall (fun r => has_state delivered r = true) rows).
  { apply Forall_iff. intros r. unfold has_state. by rewrite bool_decide_eq_true. }
  rewrite Hall, <- count_all. unfold aggregate_of.
  set (d := filter (fun r => has_state delivered r = true) rows).
  assert (Hd : (length d <= length rows)%nat) by apply length_filter.
  destruct (Z.leb_spec (Z.max (if n =? 0 then 1 else n) (Z.of_nat (length rows))) (Z.of_nat (length d))) as [H|H]; cbn [fst].
  - split; [|done]. intros _. destruct (Z.eqb_spec n 0); lia.
  - split; [intros E; repeat case_match; done|]. intros [H1 H2]. destruct (Z.eqb_spec n 0); lia.
Qed.

(** ** A reference nothing else uses *)

Ltac imap_one :=
  match goal with |- context [imap ?f [?r]] => change (imap f [r]) with [f 0%nat r]; cbv beta end.

Section fresh_reference.
Context (agent device : pystr) (ref : Z) (rows : list segment_row).
Context (Hnone : Forall (fun r => same_module agent device ref r = false) rows).

Lemma newest_unmatched_none recipient cutoff : newest (unmatched agent device ref recipient cutoff) rows = None.
Proof using Hnone.
  unfold newest. rewrite filter_none; [done|]. intros [i r] Hin%imap_pairs%list_elem_of_lookup_2.
  rewrite Forall_forall in Hnone. apply Hnone in Hin. cbn [snd]. unfold unmatched. rewrite Hin.
  by rewrite andb_false_r.
Qed.

Lemma candidates_filter recipient extra :
  filter (fun ir : nat * segment_row => (bool_decide (is_Some (sg_message ir.2)) && same_module agent device ref ir.2
            && same_recipient (sg_recipient ir.2) recipient) = true) (imap (fun i r => (i, r)) (rows ++ extra)) =
  filter (fun ir : nat * segment_row => (bool_decide (is_Some (sg_message ir.2)) && same_module agent device ref ir.2
            && same_recipient (sg_recipient ir.2) recipient) = true)
    (imap (fun i r => ((length rows + i)%nat, r)) extra).
Proof using Hnone.
  rewrite imap_app, filter_app, filter_none; [done|]. intros [i r] Hin%imap_pairs%list_elem_of_lookup_2.
  rewrite Forall_forall in Hnone. apply Hnone in Hin. cbn [snd]. rewrite Hin. by rewrite andb_false_r.
Qed.

Lemma match_none recipient service : match_report agent device ref recipient service rows = None.
Proof using Hnone.
  unfold match_report, candidates. rewrite <- (app_nil_r rows), candidates_filter. by destruct service.
Qed.

Lemma match_last recipient service r :
  bool_decide (is_Some (sg_message r)) && same_module agent device ref r && same_recipient (sg_recipient r) recipient = true ->
  match_report agent device ref recipient service (rows ++ [r]) = Some (length rows, r).
Proof using Hnone.
  intros H. unfold match_report, candidates. rewrite candidates_filter.
  imap_one. rewrite filter_cons_True, filter_nil by done. rewrite Nat.add_0_r. by destruct service.
Qed.
End fresh_reference.

(** Under a reference nothing else uses, an early report and a submission each
    add one row. *)
Lemma record_fresh agent device recipient ref code claimed service now t :
  Forall (fun r => same_module agent device ref r = false) (segments t) ->
  record_sms_delivery agent device ref recipient code claimed service now t =
    (None, mkTables (segments t ++ [mkSegment None agent device None ref recipient None
                       (delivery_state_of code claimed) code service (now / MICROS)]) (messages t)).
Proof.
  intros Hnone. unfold record_sms_delivery. rewrite (match_none _ _ _ _ Hnone).
  by rewrite (newest_unmatched_none _ _ _ _ Hnone).
Qed.

Lemma attach_fresh id agent device recipient ref sub now t :
  Forall (fun r => same_module agent device ref r = false) (segments t) ->
  attach_sms_segments id agent device recipient [ref] sub now t =
    if taken id 1 (segments t) then None
    else Some (update_message_delivery_status id
      (mkTables (segments t ++ [mkSegment (Some id) agent device (Some 1) ref recipient (Some sub) pending None None
                   (now / MICROS)])
         (messages t))).
Proof.
  intros Hnone. unfold attach_sms_segments. cbn [attach_loop]. unfold attach_one.
  rewrite (newest_unmatched_none _ _ _ _ Hnone). by destruct (taken _ _ _).
Qed.

Lemma taken_other id index rows r :
  sg_message r <> Some id -> taken id index (rows ++ [r]) = taken id index rows.
Proof.
  intros H. unfold taken. rewrite existsb_app. cbn [existsb]. rewrite (bool_decide_eq_false_2 _ H). by rewrite !orb_false_r.
Qed.

Lemma sort_nil rows : merge_sort index_le rows <> [] <-> rows <> [].
Proof.
  assert (Hp := merge_sort_Permutation index_le rows).
  split; intros Hn E; apply Hn.
  - by rewrite E.
  - rewrite E in Hp. by apply Permutation_nil in Hp.
Qed.

Lemma newest_last p rows r : p r = true -> newest p (rows ++ [r]) = Some (length rows, r).
Proof.
  intros H. unfold newest. rewrite imap_app, filter_app.
  imap_one. rewrite filter_cons_True, filter_nil by done. rewrite Nat.add_0_r. apply last_snoc.
Qed.

Lemma update_last f rows r : update_at (length rows) f (rows ++ [r]) = rows ++ [f r].
Proof. unfold update_at. rewrite <- (Nat.add_0_r (length rows)). by rewrite alter_app_r. Qed.

Lemma unmatched_new agent device ref recipient recipient' st code service now k :
  same_recipient recipient' recipient = true -> 1 <= k ->
  unmatched agent device ref recipient (now - k * MICROS)
    (mkSegment None agent device None ref recipient' None st code service (now / MICROS)) = true.
Proof.
  intros H Hk. unfold unmatched, same_module. cbn [sg_message sg_agent sg_device sg_reference sg_created sg_recipient].
  rewrite !bool_decide_eq_true_2 by done. rewrite H, Z.eqb_refl. cbn [andb]. rewrite andb_true_r. unfold MICROS. lia.
Qed.

Lemma attached_matches agent device ref recipient recipient' id sub now :
  same_recipient recipient recipient' = true ->
  (let r := mkSegment (Some id) agent device (Some 1) ref recipient (Some sub) pending None None now in
   bool_decide (is_Some (sg_message r)) && same_module agent device ref r && same_recipient (sg_recipient r) recipient') = true.
Proof.
  intros H. unfold same_module. cbn. rewrite !bool_decide_eq_true_2 by done. rewrite H. lia.
Qed.

(** An intermediate aggregate is overwritten by the next one. *)
Lemma update_message_twice id rows rows' ms :
  of_message id (mkTables rows' ms) <> [] ->
  update_message_delivery_status id
    (mkTables rows' (messages (update_message_delivery_status id (mkTables rows ms)))) =
  update_message_delivery_status id (mkTables rows' ms).
Proof.
  intros Hne. unfold update_message_delivery_status at 2. cbn [messages].
  destruct (ms !! id) as [m|] eqn:Em; [|done]. destruct (of_message id (mkTables rows ms)) as [|r rs]; [done|].
  destruct (aggregate_of (m_segments m) (r :: rs)) as [agg err]. unfold update_message_delivery_status. cbn [messages segments].
  rewrite lookup_insert_eq, Em. change (of_message id (mkTables rows' _)) with (of_message id (mkTables rows' ms)).
  destruct (of_message id (mkTables rows' ms)) as [|r' rs'] eqn:Er; [done|]. cbn [m_segments].
  destruct (aggregate_of (m_segments m) (r' :: rs')) as [agg' err']. by rewrite insert_insert_eq.
Qed.

(** ** Properties *)

(** C38 (safety): delivery reports never take an outcome back.  Over any history
    of submissions and reports -- early, late, repeated, stale -- every segment
    row stays, keeps its module, reference and message once it has one, and its
    state only advances from pending to failed to delivered. *)
Theorem reports_never_regress t t' i r :
  rtc step t t' -> segments t !! i = Some r ->
  exists r', segments t' !! i = Some r' /\ advances r r'.
Proof.
  intros H Hi. assert (Ha : rows_advance (segments t) (segments t')).
  { clear Hi. induction H as [t|t1 t2 t3 Hs _ IH]; [apply rows_advance_refl|].
    eapply rows_advance_trans; [by apply step_advance|done]. }
  destruct Ha as (l & extra & -> & Hf). destruct (Forall2_lookup_l _ _ _ _ _ Hf Hi) as (r' & Hi' & Ha).
  exists r'. split; [by apply lookup_app_l_Some|done].
Qed.

(** A submission, its report as failed, the late report of success and the
    repeated failure. *)
Definition sample_0 : tables := mkTables [] {[1 := mkMessage 1 APending NoError]}.
Definition sample_1 : tables :=
  default sample_0 (attach_sms_segments 1 (str "home") (str "m1") (str "+8610086") [7] 100 101000000 sample_0).
Definition sample_2 : tables :=
  (record_sms_delivery (str "home") (str "m1") 7 (str "8610086") (Some 0x41) None (Some 99) 105000000 sample_1).2.
Definition sample_3 : tables :=
  (record_sms_delivery (str "home") (str "m1") 7 (str "8610086") (Some 0) None (Some 99) 109000000 sample_2).2.

Lemma delivery_sample_steps : rtc step (mkTables [] ∅) sample_1 /\ rtc step sample_1 sample_3.
Proof.
  split.
  - eapply rtc_l; [apply (step_message 1 (mkMessage 1 APending NoError)); reflexivity|].
    apply rtc_once. by eapply (step_attach 1 (str "home") (str "m1") (str "+8610086") [7] 100 101000000).
  - eapply rtc_l; [eapply step_report|eapply rtc_once, step_report].
Qed.

Lemma reports_never_regress_witness :
  exists r r', segments sample_1 !! 0%nat = Some r /\ sg_status r = pending /\
    segments sample_3 !! 0%nat = Some r' /\ sg_status r' = delivered /\ advances r r'.
Proof.
  destruct (segments sample_1 !! 0%nat) as [r|] eqn:E; [|exfalso; vm_compute in E; discriminate].
  destruct (reports_never_regress sample_1 sample_3 0 r (proj2 delivery_sample_steps) E) as (r' & E' & Ha).
  exists r, r'. assert (F := E). assert (F' := E'). vm_compute in F, F'. injection F as <-. injection F' as <-.
  repeat split; try reflexivity; try apply Ha.
Defined.

(** A message's stored outcome is always the aggregate of its
    segments; it reads "delivered" exactly when every segment was delivered and
    all the segments it was sent in are accounted for. *)
Theorem message_status_is_aggregate t id m :
  rtc step (mkTables [] ∅) t -> messages t !! id = Some m -> of_message id t <> [] -> 0 <= m_segments m ->
  (m_status m, m_error m) = aggregate_of (m_segments m) (of_message id t) /\
  (m_status m = ADelivered <->
     m_segments m <= Z.of_nat (length (of_message id t)) /\
     Forall (fun r => sg_status r = delivered) (of_message id t)).
Proof.
  intros H Hm Hne Hn. assert (H0 : forall id', message_ok (mkTables [] ∅) id') by (intros id' m' Hm'; cbn [messages] in Hm'; by rewrite lookup_empty in Hm').
  assert (Hok : forall id', message_ok t id').
  { clear Hm Hne. revert H0. induction H as [t|t1 t2 t3 Hs _ IH]; [done|]. intros H0. apply IH. by eapply delivery_step_ok. }
  assert (E := Hok id m Hm Hne). split; [done|]. rewrite <- aggregate_delivered by done. by rewrite <- E.
Qed.

Lemma message_status_is_aggregate_witness :
  exists m, messages sample_3 !! 1 = Some m /\ m_status m = ADelivered /\ m_error m = NoError /\
    Forall (fun r => sg_status r = delivered) (of_message 1 sample_3).
Proof.
  destruct (messages sample_3 !! 1) as [m|] eqn:E; [|exfalso; vm_compute in E; discriminate].
  assert (F := E). vm_compute in F. injection F as <-.
  assert (Hs : rtc step (mkTables [] ∅) sample_3) by (transitivity sample_1; apply delivery_sample_steps).
  destruct (message_status_is_aggregate sample_3 1 _ Hs E ltac:(by vm_compute) ltac:(by vm_compute)) as [_ [Hd _]].
  eexists. split; [done|]. split; [done|]. split; [done|]. by apply Hd.
Defined.

(** It does not matter whether a report or the submission it
    is about reaches the server first: both orders leave the same tables (or the
    submission is refused in both). *)
Theorem report_order_irrelevant id agent device recipient recipient' ref code claimed service sub now t :
  Forall (fun r => same_module agent device ref r = false) (segments t) ->
  same_recipient recipient' recipient = true -> same_recipient recipient recipient' = true ->
  attach_sms_segments id agent device recipient [ref] sub now
    (record_sms_delivery agent device ref recipient' code claimed service now t).2 =
  (fun t => (record_sms_delivery agent device ref recipient' code claimed service now t).2) <$>
    attach_sms_segments id agent device recipient [ref] sub now t.
Proof.
  intros Hnone H1 H2. rewrite record_fresh, (attach_fresh _ _ _ _ _ _ _ t) by done. cbn [snd].
  unfold attach_sms_segments. cbn [attach_loop segments messages]. unfold attach_one.
  rewrite taken_other by done. destruct (taken id 1 (segments t)); [done|].
  rewrite newest_last by (by apply unmatched_new). rewrite update_last.
  cbn [mbind option_bind fmap option_fmap option_map]. f_equal.
  unfold record_sms_delivery. rewrite update_message_segments. cbn [segments].
  rewrite (match_last _ _ _ _ Hnone) by (by apply attached_matches). cbn [sg_status snd default sg_message].
  assert (Et : terminal_delivery_state pending (delivery_state_of code claimed) = delivery_state_of code claimed)
    by (by destruct (delivery_state_of code claimed)).
  rewrite Et, bool_decide_eq_true_2, update_last by done. rewrite update_message_twice; [done|].
  unfold of_message. cbn [segments]. rewrite sort_nil, filter_app, filter_cons_True by done. by destruct (filter _ _).
Qed.

Lemma report_order_irrelevant_witness :
  exists t, attach_sms_segments 1 (str "home") (str "m1") (str "10086") [7] 100 101000000
    (record_sms_delivery (str "home") (str "m1") 7 (str "10086") (Some 0) None (Some 99) 101000000 sample_0).2 = Some t /\
    attach_sms_segments 1 (str "home") (str "m1") (str "10086") [7] 100 101000000 sample_0 <> None /\
    m_status <$> messages t !! 1 = Some ADelivered.
Proof.
  rewrite report_order_irrelevant by (constructor || by vm_compute).
  eexists. split; [reflexivity|]. split; by vm_compute.
Defined.

(** The server reads a TP-ST octet as the agent does, and
    falls back to the agent's reading on reserved values. *)
Theorem delivery_state_agrees code :
  0 <= code < 256 ->
  delivery_state_of (Some code) (Some (name_of_state (tp_st_state code))) = tp_st_state code.
Proof.
  intros H. unfold delivery_state_of, tp_st_state.
  destruct ((0 <=? code) && (code <=? 31)); [done|]. destruct ((32 <=? code) && (code <=? 63)); [done|].
  destruct ((64 <=? code) && (code <=? 127)); by vm_compute.
Qed.

Lemma delivery_state_agrees_witness :
  delivery_state_of (Some 0x46) (Some (name_of_state (tp_st_state 0x46))) = failed.
Proof. by rewrite delivery_state_agrees. Defined.

End Delivery.
