(* ===== verification/App.v ===== *)
(** * Commands on the agent (agent/src/air780e_agent/app.py)

    [AgentApp.handle_command] around the store's command journal: the claim,
    the checks before anything is started, the handler's own checks with the
    call they lead to, and how each way the call can end is reported.  Also
    [reject_command] and the names of adopted modules.  The worker's hardware
    calls end as an [outcome]; [repr] on floats and containers, the format
    parser behind [datetime.fromisoformat] and the column values of a task
    payload are arguments. *)

From S2P Require Import Prelude PyText PyDict Json Store.
Import Store.

Module App.

(** A worker as the handlers see it: the identity its module last reported. *)
Record worker := mkWorker { w_imei : pystr; w_iccid : pystr }.

(** What an exception out of a handler is turned into. *)
Inductive failure :=
| DeviceOffline (msg : pystr)
| BadValue (msg : pystr)          (* ValueError *)
| OtherError (msg : pystr).       (* any other Exception *)

(** The call a handler awaits. *)
Inductive action :=
| Done (data : json)
| SendSms (dev number body : pystr)
| RunManual (task_id : Z) (run_id : json)
| RunNow (task_id : Z)
| Refresh (dev : pystr) (storage_only : bool)
| RawAt (dev command : pystr)
| SetRadio (dev : pystr) (enabled : bool)
| SetData (dev : pystr) (enabled : bool)
| SetRoamingData (dev : pystr) (allowed : bool)
| ScanOperators (dev : pystr)
| SelectOperator (dev : pystr) (numeric : option pystr)
| NetworkDiagnostics (dev : pystr)
| Ussd (dev code : pystr).

Inductive outcome := Returned (data : json) | Raised (e : failure) | Cancelled.

(** [datetime.fromisoformat]: an aware value is an instant. *)
Inductive iso := Aware (t : Z) | Naive.

(** ** Names of adopted modules *)

Definition name_key (imei iccid : pystr) : pystr :=
  if bool_decide (strip imei = []) then str "autodetect:iccid:" ++ iccid else str "autodetect:imei:" ++ imei.

Definition base_name (imei iccid : pystr) : pystr :=
  let identity := if bool_decide (strip imei = []) then strip iccid else strip imei in
  str "auto-" ++ (if (6 <? length identity)%nat then drop (length identity - 6) identity else identity).

(** The [while name in self.workers] loop; [taken] are the workers' names. *)
Fixpoint first_free (fuel : nat) (taken : list pystr) (base name : pystr) (suffix : Z) : pystr :=
  match fuel with
  | O => name
  | S fuel =>
      if bool_decide (name ∈ taken)
      then first_free fuel taken base (base ++ str "-" ++ decimal suffix) (suffix + 1)
      else name
  end.

Definition name_for (imei iccid : pystr) (taken : list pystr) (s : LocalStore) : pystr * LocalStore :=
  let key := name_key imei iccid in
  let fresh_name :=
    let base := base_name imei iccid in
    let name := first_free (S (length taken)) taken base base 2 in
    (name, set key name s) in
  match get key s with
  | Some remembered =>
      if negb (bool_decide (remembered = [])) && negb (bool_decide (remembered ∈ taken))
      then (remembered, s) else fresh_name
  | None => fresh_name
  end.

(** ** Handlers *)

Section app.
Context (repr : json -> pystr) (fromisoformat : pystr -> option iso).
Context (request_hash : frame -> pystr) (task_revision : json -> pystr) (columns : frame -> TaskSpec).
Context (max_queued : Z) (workers : pydict (list Z) worker).

Definition py_str (v : json) : pystr := match v with JStr s => s | _ => repr v end.

(** A non-hashable dict key raises TypeError. *)
Definition hashable (v : json) : bool := match v with JArr _ | JObj _ => false | _ => true end.

Definition or_empty (v : json) : json := if truthy v then v else JStr [].

(** [self._worker(frame)] *)
Definition worker_of (f : frame) : res failure (pystr * worker) :=
  let name := jget "device" f in
  let key := or_empty name in
  if negb (hashable key) then Err (OtherError (str "unhashable type"))
  else
    match (k ← as_str key; w ← dict_get k workers; Some (k, w)) with
    | Some kw => Ok kw
    | None => Err (DeviceOffline (str "no such device: " ++ repr name))
    end.

Definition dialable (c : Z) : bool := bool_decide (c ∈ str "+0123456789*#").

Definition cmd_send_sms (f : frame) : res failure action :=
  '(dev, _) ← worker_of f;
  let number := strip (py_str (jget_or "number" (JStr []) f)) in
  let body := py_str (jget_or "body" (JStr []) f) in
  if bool_decide (number = []) || (32 <? Z.of_nat (length number)) || negb (forallb dialable number)
  then Err (BadValue (str "send_sms needs a valid number"))
  else if bool_decide (body = []) || (2000 <? Z.of_nat (length body))
  then Err (BadValue (str "send_sms needs a body of at most 2000 characters"))
  else Ok (SendSms dev number body).

Definition is_hex_digit (c : Z) : bool := bool_decide (c ∈ str "0123456789abcdef").

(** The revision and sync id of a versioned payload. *)
Definition sync_labels (revision sync_id : json) : option (pystr * pystr) :=
  r ← as_str revision; s ← as_str sync_id;
  if (length r =? 64)%nat && (length s =? 32)%nat && forallb is_hex_digit (r ++ s) then Some (r, s) else None.

Definition incoming_of (v : json) : IncomingTask :=
  match v with
  | JObj d => mkIncoming (jget "id" d) (columns d)
  | _ => mkIncoming JNull (columns [])
  end.

(** A failed versioned sync reports itself before its exception goes on. *)
Definition sync_failed (versioned : bool) (revision sync_id : pystr) (error : string) (e : failure)
    (s : LocalStore) : res failure action * LocalStore :=
  (Err e,
   if versioned
   then emit max_queued (str "tasks_applied")
          [ (str "sync_id", JStr sync_id); (str "revision", JStr revision); (str "ok", JBool false);
            (str "error", JStr (str error)) ] s
   else s).

Definition cmd_sync_tasks (f : frame) (s : LocalStore) : res failure action * LocalStore :=
  let versioned := jhas "revision" f || jhas "sync_id" f in
  let labels := sync_labels (jget_or "revision" (JStr []) f) (jget_or "sync_id" (JStr []) f) in
  if versioned && negb (bool_decide (is_Some labels))
  then (Err (BadValue (str "sync_tasks needs a valid revision and sync_id")), s)
  else
    let '(revision, sync_id) := default ([], []) labels in
    match jget "tasks" f with
    | JArr tasks =>
        if versioned && negb (bool_decide (task_revision (JArr tasks) = revision))
        then sync_failed versioned revision sync_id "revision_mismatch"
               (BadValue (str "task revision does not match the payload")) s
        else
          match replace_tasks (incoming_of <$> tasks) revision sync_id s with
          | Ok (count, s) => (Ok (Done (JObj [(str "count", JInt count)])), s)
          | Err _ => sync_failed versioned revision sync_id "apply_failed"
                       (BadValue (str "tasks need distinct positive integer ids")) s
          end
    | _ => sync_failed versioned revision sync_id "invalid_tasks"
             (BadValue (str "sync_tasks needs a list of tasks")) s
    end.

(** SQLite integers are 64 bits wide; the driver refuses a wider parameter. *)
Definition sqlite_int (n : Z) : bool := (- 2 ^ 63 <=? n) && (n <? 2 ^ 63).

Definition cmd_run_task (f : frame) (s : LocalStore) : res failure action :=
  match jget "task_id" f with
  | JInt id =>
      if jhas "revision" f && negb (py_eq (jget "revision" f) (jopt_str (get TASK_REVISION_KEY s)))
      then Err (BadValue (str "task configuration has not been applied"))
      else if truthy (jget "result_token" f) then
        if negb (py_eq (jget "run_id" f) (jget "cmd_id" f))
        then Err (BadValue (str "manual task run_id must equal cmd_id"))
        else if negb (sqlite_int id) then Err (OtherError (str "Python int too large to convert to SQLite INTEGER"))
        else
          match task id s with
          | Some row =>
              if negb (py_eq (JStr (t_device (t_spec row))) (jget "device" f))
              then Err (BadValue (str "task device does not match command target"))
              else match dict_get (str "run_id") f with
                   | Some run_id => Ok (RunManual id run_id)
                   | None => Err (OtherError (str "'run_id'"))
                   end
          | None => Err (BadValue (str "task device does not match command target"))
          end
      else Ok (RunNow id)
  | _ => Err (BadValue (str "run_task needs an integer task_id"))
  end.

Definition cmd_query (f : frame) : res failure action :=
  '(dev, _) ← worker_of f;
  let what := jget_or "what" (JStr (str "status")) f in
  if jis "status" what || jis "info" what then Ok (Refresh dev false)
  else if jis "storage" what then Ok (Refresh dev true)
  else Err (BadValue (str "unknown query " ++ repr what)).

Definition cmd_text (field : string) (error : string) (call : pystr -> pystr -> action) (f : frame) :
    res failure action :=
  '(dev, _) ← worker_of f;
  let v := strip (py_str (jget_or field (JStr []) f)) in
  if bool_decide (v = []) then Err (BadValue (str error)) else Ok (call dev v).

Definition cmd_flag (field : string) (error : string) (call : pystr -> bool -> action) (f : frame) :
    res failure action :=
  '(dev, _) ← worker_of f;
  match jget field f with
  | JBool b => Ok (call dev b)
  | _ => Err (BadValue (str error))
  end.

Definition ascii_digit (c : Z) : bool := (48 <=? c) && (c <=? 57).

Definition cmd_select_operator (f : frame) : res failure action :=
  let check := match jget "numeric" f with
               | JNull => Some None
               | JStr s =>
                   if forallb ascii_digit s && ((length s =? 5)%nat || (length s =? 6)%nat) then Some (Some s) else None
               | _ => None
               end in
  match check with
  | None => Err (BadValue (str "select_operator needs a 5 or 6 digit numeric operator"))
  | Some numeric => '(dev, _) ← worker_of f; Ok (SelectOperator dev numeric)
  end.

Definition cmd_device (call : pystr -> action) (f : frame) : res failure action :=
  '(dev, _) ← worker_of f; Ok (call dev).

(** ** The handler table *)

Definition handler (k : pystr) : option (frame -> LocalStore -> res failure action * LocalStore) :=
  let stateless h := Some (fun f s => (h f, s) : res failure action * LocalStore) in
  let named n := bool_decide (k = str n) in
  if named "send_sms" then stateless cmd_send_sms
  else if named "sync_tasks" then Some cmd_sync_tasks
  else if named "run_task" then Some (fun f s => (cmd_run_task f s, s))
  else if named "query" then stateless cmd_query
  else if named "set_radio" then stateless (cmd_flag "enabled" "set_radio needs a boolean enabled value" SetRadio)
  else if named "set_data" then stateless (cmd_flag "enabled" "set_data needs a boolean enabled value" SetData)
  else if named "set_roaming_data"
  then stateless (cmd_flag "allowed" "set_roaming_data needs a boolean allowed value" SetRoamingData)
  else if named "scan_operators" then stateless (cmd_device ScanOperators)
  else if named "select_operator" then stateless cmd_select_operator
  else if named "network_diagnostics" then stateless (cmd_device NetworkDiagnostics)
  else if named "ussd" then stateless (cmd_text "code" "ussd needs a code" Ussd)
  else if named "raw_at" then stateless (cmd_text "command" "raw_at needs a command" RawAt)
  else None.

(** ** Reporting *)

Definition durable (f : frame) : bool :=
  truthy (jget "result_token" f) && bool_decide (is_Some (as_str (jget "cmd_id" f))).

Definition cmd_result (f : frame) (ok : bool) (data : json) (error : option pystr) (s : LocalStore) : LocalStore :=
  match jget "cmd_id" f with
  | JNull => s
  | id => emit max_queued (str "cmd_result")
            [ (str "cmd_id", id); (str "ok", JBool ok); (str "data", data); (str "error", jopt_str error) ] s
  end.

(** The [except] and [else] branches of [handle_command]. *)
Definition settle (f : frame) (o : outcome) (s : LocalStore) : LocalStore :=
  let finish status data error :=
    if durable f then finish_command f (str status) data error s
    else cmd_result f (bool_decide (status = "succeeded"%string)) data error s in
  match o with
  | Returned data => finish "succeeded"%string data None
  | Raised (DeviceOffline e) | Raised (BadValue e) => finish "failed"%string JNull (Some e)
  | Raised (OtherError e) => finish "unknown"%string JNull (Some e)
  | Cancelled =>
      if durable f
      then finish_command f (str "unknown") JNull (Some (str "agent stopped during execution")) s
      else s
  end.

(** Where [handle_command] is after the part before its [await]. *)
Inductive progress :=
| Settled (s : LocalStore)                  (* it has returned *)
| Crashed (s : LocalStore)                  (* TypeError out of [handlers.get] *)
| Awaiting (a : action) (s : LocalStore).   (* the hardware call is running *)

(** The checks a durable command passes before its handler runs: [Ok None] to
    go on, [Ok (Some (status, error))] to settle it there. *)
Definition precheck (now : Z) (f : frame) : res failure (option (string * string)) :=
  if negb (durable f) then Ok None
  else
    match dict_get (str "deadline") f with
    | None => Err (OtherError (str "'deadline'"))
    | Some (JStr d) =>
        match fromisoformat d with
        | None => Err (BadValue (str "Invalid isoformat string: " ++ repr (JStr d)))
        | Some Naive => Err (OtherError (str "can't compare offset-naive and offset-aware datetimes"))
        | Some (Aware t) =>
            if t <=? now then Ok (Some ("cancelled", "expired before execution")%string)
            else
              '(_, w) ← worker_of f;
              let imei := py_str (or_empty (jget "expected_imei" f)) in
              let iccid := py_str (or_empty (jget "expected_iccid" f)) in
              let changed expected actual :=
                negb (bool_decide (expected = [])) && negb (bool_decide (actual = []))
                && negb (bool_decide (expected = actual)) in
              if changed imei (w_imei w) || changed iccid (w_iccid w)
              then Ok (Some ("failed", "device identity changed")%string)
              else Ok None
        end
    | Some _ => Err (OtherError (str "fromisoformat: argument must be str"))
    end.

Definition execute (now : Z) (f : frame) (s : LocalStore) : progress :=
  let kind := or_empty (jget "type" f) in
  if negb (hashable kind) then Crashed s
  else
    match (k ← as_str kind; handler k) with
    | None =>
        let e := str "unknown command " ++ repr (jget "type" f) in
        Settled (if durable f then finish_command f (str "failed") JNull (Some e) s
                 else cmd_result f false JNull (Some e) s)
    | Some h =>
        match precheck now f with
        | Err e => Settled (settle f (Raised e) s)
        | Ok (Some (status, e)) => Settled (finish_command f (str status) JNull (Some (str e)) s)
        | Ok None =>
            match h f s with
            | (Err e, s) => Settled (settle f (Raised e) s)
            | (Ok (Done data), s) => Settled (settle f (Returned data) s)
            | (Ok a, s) => Awaiting a s
            end
        end
    end.

Definition handle_command (now : Z) (f : frame) (s : LocalStore) : progress :=
  if durable f then
    let '(c, s) := begin_command request_hash f s in
    if bool_decide (c = new_) then execute now f s else Settled s
  else execute now f s.

Definition reject_command (f : frame) (error : pystr) (s : LocalStore) : LocalStore :=
  if durable f then
    let '(c, s) := begin_command request_hash f s in
    if bool_decide (c = new_) then finish_command f (str "cancelled") JNull (Some error) s else s
  else cmd_result f false JNull (Some error) s.

(** ** What a command leaves in the store *)

Definition run_of (id : pystr) (s : LocalStore) : option command_run := dict_get id (command_runs s).

Definition is_result_for (id : pystr) (e : Event) : Prop :=
  kind e = str "cmd_result" /\ as_str (jget "cmd_id" (payload e)) = Some id.

(** The results queued for one command id. *)
Definition results_for (id : pystr) (s : LocalStore) : list frame :=
  (fun r => payload (ev r)) <$> filter (fun r => is_result_for id (ev r)) (events s).

Lemma results_snoc id r s s' :
  events s' = events s ++ [r] -> kind (ev r) <> str "cmd_result" -> results_for id s' = results_for id s.
Proof.
  intros E Hk. unfold results_for. rewrite E, filter_app, filter_cons_False, filter_nil, app_nil_r; [done|].
  by intros [? _].
Qed.

Lemma results_append id k p s :
  k <> str "cmd_result" -> results_for id (append_event k p s).2 = results_for id s.
Proof. intros Hk. by eapply results_snoc. Qed.

Lemma results_emit id m k p s :
  queue_ok s -> k <> str "cmd_result" -> results_for id (emit m k p s) = results_for id s.
Proof.
  intros Hq Hk. rewrite <- (results_append id k p s Hk). unfold results_for, emit.
  rewrite trim_filter; [done|by apply queue_ok_append|]. intros r [E _]. unfold is_status.
  rewrite E. by vm_compute.
Qed.

Lemma finish_reports f status data error s run :
  durable f = true -> run_of (cmd_id_of f) s = Some run -> r_status run = str "running" ->
  let s' := finish_command f status data error s in
  let p := result_payload f status data error in
  run_of (cmd_id_of f) s' = Some (mkRun (r_hash run) (r_frame run) status (Some p)) /\
  results_for (cmd_id_of f) s' = results_for (cmd_id_of f) s ++ [p].
Proof.
  intros Hd Hr Hs. cbn zeta. unfold finish_command, run_of in *. rewrite Hr, bool_decide_eq_true_2 by done.
  split; [cbn [append_event snd command_runs set_runs]; apply dict_get_set|].
  unfold results_for. cbn [append_event snd events set_runs]. rewrite filter_app, filter_cons_True, filter_nil, fmap_app; [done|].
  split; [done|]. cbn [ev payload]. unfold durable in Hd. apply andb_true_iff in Hd as [_ Hd].
  apply bool_decide_eq_true in Hd as [id Hid]. unfold cmd_id_of. rewrite Hid. cbn [default].
  by change (jget "cmd_id" (result_payload f status data error)) with (jget "cmd_id" f).
Qed.

(** What handlers may do to the store before anything is awaited. *)
Definition keeps_commands (s s' : LocalStore) : Prop :=
  command_runs s' = command_runs s /\ forall id, results_for id s' = results_for id s.

Lemma replace_keeps tasks revision sync_id s n s' :
  replace_tasks tasks revision sync_id s = Ok (n, s') -> keeps_commands s s'.
Proof.
  unfold replace_tasks. intros H. apply bind_ok in H as (rows & _ & [= <- <-]).
  split; [by case_bool_decide|]. intros id. case_bool_decide; [done|]. by eapply results_snoc.
Qed.

Lemma sync_keeps f s : queue_ok s -> keeps_commands s (cmd_sync_tasks f s).2.
Proof.
  intros Hq. assert (Hf : forall v r i e x, keeps_commands s (sync_failed v r i e x s).2).
  { intros v r i e x. unfold sync_failed. cbn [snd]. destruct v; [|done].
    split; [apply emit_runs|]. intros id. by apply results_emit. }
  unfold cmd_sync_tasks. destruct (_ && negb _); [done|]. destruct (default ([], []) _) as [revision sync_id].
  destruct (jget "tasks" f); try apply Hf. destruct (_ && _); [apply Hf|].
  destruct (replace_tasks _ _ _ _) as [[n s']|e] eqn:E; [|apply Hf]. by eapply replace_keeps.
Qed.

Lemma handler_keeps k h f s : handler k = Some h -> queue_ok s -> keeps_commands s (h f s).2.
Proof.
  intros Hh Hq. unfold handler in Hh.
  repeat (case_bool_decide; [injection Hh as <-; first [done | by apply sync_keeps]|]). done.
Qed.

(** ** The calls that may be awaited *)

Definition names_worker (dev : pystr) : Prop := is_Some (dict_get dev workers).

Definition action_ok (a : action) : Prop :=
  match a with
  | Done _ => True
  | SendSms dev number body =>
      names_worker dev /\ (1 <= length number <= 32)%nat /\ Forall (fun c => c ∈ str "+0123456789*#") number /\
      (1 <= length body <= 2000)%nat
  | RunManual id run_id => -2 ^ 63 <= id < 2 ^ 63
  | RunNow _ => True
  | Refresh dev _ | SetRadio dev _ | SetData dev _ | SetRoamingData dev _ | ScanOperators dev
  | NetworkDiagnostics dev => names_worker dev
  | RawAt dev v | Ussd dev v => names_worker dev /\ v <> []
  | SelectOperator dev None => names_worker dev
  | SelectOperator dev (Some n) =>
      names_worker dev /\ (length n = 5 \/ length n = 6)%nat /\ Forall (fun c => 48 <= c <= 57) n
  end.

Lemma worker_of_names f dev w : worker_of f = Ok (dev, w) -> names_worker dev.
Proof.
  unfold worker_of. case_match; [done|]. destruct (_ ≫= _) as [kw|] eqn:E; [|done]. intros [= ->].
  apply bind_Some in E as (k & _ & E). apply bind_Some in E as (w' & E & [= <- <-]). by eexists.
Qed.

Ltac worker_first :=
  match goal with H : mbind _ (worker_of _) = Ok _ |- _ =>
    let dev := fresh "dev" in let w := fresh "w" in let E := fresh "Ew" in
    apply bind_ok in H as ([dev w] & E & H); apply worker_of_names in E end.

Lemma cmd_send_sms_ok f a : cmd_send_sms f = Ok a -> action_ok a.
Proof.
  unfold cmd_send_sms. intros H. worker_first. revert H. set (number := strip _). set (body := py_str _).
  destruct (_ || negb _) eqn:E1; [done|]. destruct (bool_decide (body = []) || _) eqn:E2; [done|].
  intros E. injection E as <-.
  rewrite !orb_false_iff, bool_decide_eq_false, negb_false_iff, forallb_forall in E1.
  rewrite orb_false_iff, bool_decide_eq_false in E2. destruct E1 as [[E1 E3] E4], E2 as [E2 E5].
  assert (length number <> 0)%nat by (by rewrite length_zero_iff_nil).
  assert (length body <> 0)%nat by (by rewrite length_zero_iff_nil).
  repeat split; try done; try lia. rewrite Forall_forall. intros c Hc%list_elem_of_In.
  by apply E4, bool_decide_eq_true in Hc.
Qed.

Lemma cmd_select_ok f a : cmd_select_operator f = Ok a -> action_ok a.
Proof.
  unfold cmd_select_operator. destruct (jget "numeric" f) as [| | | |s| |]; try done.
  - intros H. worker_first. by injection H as <-.
  - destruct (forallb ascii_digit s && _) eqn:E; [|done]. intros H. worker_first. injection H as <-.
    rewrite andb_true_iff, orb_true_iff, !Nat.eqb_eq, forallb_forall in E. destruct E as [E1 E2].
    split_and!; [done|done|]. rewrite Forall_forall. intros c Hc%list_elem_of_In.
    apply E1 in Hc. unfold ascii_digit in Hc. lia.
Qed.

Lemma cmd_run_ok f s a : cmd_run_task f s = Ok a -> action_ok a.
Proof.
  unfold cmd_run_task, sqlite_int. intros H. repeat (case_match; try done).
  all: injection H as <-; simpl; try done.
  rewrite negb_false_iff, andb_true_iff in *. lia.
Qed.

Lemma sync_action f s a : (cmd_sync_tasks f s).1 = Ok a -> action_ok a.
Proof.
  unfold cmd_sync_tasks, sync_failed. intros H. repeat case_match; cbn [fst] in *; by simplify_eq.
Qed.

Lemma cmd_query_ok f a : cmd_query f = Ok a -> action_ok a.
Proof. unfold cmd_query. intros H. worker_first. repeat case_match; by simplify_eq. Qed.

Lemma handler_ok k h f s a : handler k = Some h -> (h f s).1 = Ok a -> action_ok a.
Proof.
  intros Hh Ha. unfold handler in Hh.
  repeat (case_bool_decide; [injection Hh as <-; cbn [fst] in Ha|]); [..|done].
  1: by apply cmd_send_sms_ok in Ha.
  1: by apply sync_action in Ha.
  1: by apply cmd_run_ok in Ha.
  1: by apply cmd_query_ok in Ha.
  1-3: unfold cmd_flag in Ha; worker_first; case_match; by simplify_eq.
  1,3: unfold cmd_device in Ha; worker_first; by simplify_eq.
  1: by apply cmd_select_ok in Ha.
  all: unfold cmd_text in Ha; worker_first; case_bool_decide; [done|]; by simplify_eq.
Qed.

(** ** The whole handler *)

Definition outcome_status (o : outcome) : string :=
  match o with
  | Returned _ => "succeeded"
  | Raised (DeviceOffline _) | Raised (BadValue _) => "failed"
  | Raised (OtherError _) | Cancelled => "unknown"
  end%string.

Definition reports (f : frame) (status : string) (s s' : LocalStore) : Prop :=
  exists data error,
    let p := result_payload f (str status) data error in
    run_of (cmd_id_of f) s' = Some (mkRun (request_hash f) f (str status) (Some p)) /\
    results_for (cmd_id_of f) s' = results_for (cmd_id_of f) s ++ [p].

Definition waiting_run (f : frame) (s : LocalStore) : Prop :=
  run_of (cmd_id_of f) s = Some (mkRun (request_hash f) f (str "running") None).

Lemma finish_reports_at f status data error s0 s :
  durable f = true -> waiting_run f s -> results_for (cmd_id_of f) s = results_for (cmd_id_of f) s0 ->
  reports f status s0 (finish_command f (str status) data error s).
Proof.
  intros Hd Hw Hr. exists data, error. cbn zeta. destruct (finish_reports f (str status) data error s _ Hd Hw eq_refl) as [H1 H2].
  by rewrite H1, H2, Hr.
Qed.

Lemma settle_reports f o s0 s :
  durable f = true -> waiting_run f s -> results_for (cmd_id_of f) s = results_for (cmd_id_of f) s0 ->
  reports f (outcome_status o) s0 (settle f o s).
Proof.
  intros Hd Hw Hr. unfold settle. rewrite Hd. destruct o as [data|[e|e|e]|]; by apply finish_reports_at.
Qed.

(** What has been checked of a durable command whose call is awaited. *)
Definition cleared (now : Z) (f : frame) : Prop :=
  (exists d t, dict_get (str "deadline") f = Some (JStr d) /\ fromisoformat d = Some (Aware t) /\ now < t) /\
  exists dev w, worker_of f = Ok (dev, w) /\
    (py_str (or_empty (jget "expected_imei" f)) = [] \/ w_imei w = [] \/
     py_str (or_empty (jget "expected_imei" f)) = w_imei w) /\
    (py_str (or_empty (jget "expected_iccid" f)) = [] \/ w_iccid w = [] \/
     py_str (or_empty (jget "expected_iccid" f)) = w_iccid w).

Lemma precheck_cleared now f : durable f = true -> precheck now f = Ok None -> cleared now f.
Proof.
  intros Hd. unfold precheck. rewrite Hd. cbn [negb].
  destruct (dict_get (str "deadline") f) as [[| | | |d| |]|] eqn:Ed; try done.
  destruct (fromisoformat d) as [[t|]|] eqn:Et; try done. destruct (Z.leb_spec t now) as [|Hlt]; [done|].
  intros H. apply bind_ok in H as ([dev w] & Ew & H). destruct (_ || _) eqn:E; [done|].
  split; [by exists d, t|]. exists dev, w. split; [done|].
  rewrite orb_false_iff, !andb_false_iff, !negb_false_iff, !bool_decide_eq_true in E. naive_solver.
Qed.

Lemma precheck_settles now f status e : precheck now f = Ok (Some (status, e)) ->
  status = "cancelled"%string \/ status = "failed"%string.
Proof.
  unfold precheck. intros H. repeat (case_match; try done).
  - injection H as <- <-. by left.
  - apply bind_ok in H as ([dev w] & Ew & H). case_match; [|done]. injection H as <- <-. by right.
Qed.

Lemma execute_settles now f s :
  durable f = true -> queue_ok s -> waiting_run f s ->
  match execute now f s with
  | Crashed _ => hashable (or_empty (jget "type" f)) = false
  | Settled s' => exists status, reports f status s s'
  | Awaiting a s' =>
      waiting_run f s' /\ results_for (cmd_id_of f) s' = results_for (cmd_id_of f) s /\ cleared now f /\ action_ok a
  end.
Proof.
  intros Hd Hq Hw. unfold execute. destruct (hashable (or_empty (jget "type" f))); cbn [negb]; [|done].
  destruct (_ ≫= handler) as [h|] eqn:Eh.
  2: { rewrite Hd. eexists. by apply finish_reports_at. }
  destruct (precheck now f) as [[[status e]|]|e] eqn:Ep.
  - eexists. by apply finish_reports_at.
  - apply bind_Some in Eh as (k & _ & Eh). destruct (handler_keeps k h f s Eh Hq) as [Hruns Hres].
    assert (Ha := fun a => handler_ok k h f s a Eh). destruct (h f s) as [r s'] eqn:E. cbn [fst snd] in *.
    assert (Hw' : waiting_run f s') by (unfold waiting_run, run_of in *; by rewrite Hruns).
    destruct r as [a|e]; [|eexists; by apply settle_reports].
    assert (Ha' := Ha a eq_refl). assert (Hc := precheck_cleared now f Hd Ep).
    destruct a; try done. eexists. by apply settle_reports.
  - eexists. by apply settle_reports.
Qed.

(** ** Durable commands: properties *)

(** C10 (safety): a durable command the agent has not seen before is reported
    exactly once.  Either it is settled on the spot, with one result in the
    queue and in the journal; or its hardware call is awaited -- only before its
    deadline, on a known device of the expected identity, with checked
    arguments -- and whenever and however the call then ends, that end adds the
    one result, "unknown" for anything that does not prove what happened. *)
Theorem durable_command_reported_once now f s :
  durable f = true -> queue_ok s -> run_of (cmd_id_of f) s = None ->
  match handle_command now f s with
  | Crashed _ => hashable (or_empty (jget "type" f)) = false
  | Settled s' => exists status, reports f status s s'
  | Awaiting a s' =>
      cleared now f /\ action_ok a /\ waiting_run f s' /\
      results_for (cmd_id_of f) s' = results_for (cmd_id_of f) s /\
      forall o s2, run_of (cmd_id_of f) s2 = run_of (cmd_id_of f) s' ->
        reports f (outcome_status o) s2 (settle f o s2)
  end.
Proof.
  intros Hd Hq Hn. unfold handle_command, begin_command. rewrite Hd. unfold run_of in Hn. rewrite Hn.
  cbn [bool_decide]. rewrite bool_decide_eq_true_2 by done.
  set (s1 := set_runs _ s).
  assert (Hw : waiting_run f s1) by apply dict_get_set.
  assert (H := execute_settles now f s1 Hd Hq Hw). destruct (execute now f s1) as [s'|s'|a s']; [done|done|].
  destruct H as (Hw' & Hr & Hc & Ha). split_and!; try done. intros o s2 E.
  apply settle_reports; [done| |done]. unfold waiting_run in *. by rewrite E.
Qed.

(** A durable command the journal already knows is never executed
    again.  Its recorded result is queued once more if the payload is the same
    one; a run still under way, or an id reused with another payload, changes
    nothing. *)
Theorem replayed_command_not_executed now f s run :
  durable f = true -> run_of (cmd_id_of f) s = Some run ->
  exists s', handle_command now f s = Settled s' /\ command_runs s' = command_runs s /\
    events s' = events s ++
      (if bool_decide (r_hash run = request_hash f)
       then match r_result run with
            | Some p => [mkEventRow (mkEvent (events_seq s + 1) (str "cmd_result") p) false]
            | None => []
            end
       else []).
Proof.
  intros Hd Hr. unfold handle_command, begin_command. rewrite Hd. unfold run_of in Hr. rewrite Hr.
  case_bool_decide as Hh; cbn [negb]; [|exists s; by rewrite app_nil_r].
  destruct (r_result run) as [p|]; [|exists s; by rewrite app_nil_r].
  eexists. split; [done|]. split; done.
Qed.

(** No call reaches a module with unchecked arguments, durable or
    not: it goes to a known device; an SMS has 1 to 2000 characters and a number
    of 1 to 32 characters that can be dialled; a manually selected operator is 5
    or 6 ASCII digits; a USSD code or AT command is not blank. *)
Theorem awaited_calls_checked now f s a s' :
  handle_command now f s = Awaiting a s' -> action_ok a.
Proof.
  intros H. assert (He : exists s0, execute now f s0 = Awaiting a s').
  { unfold handle_command in H. destruct (durable f); [|by eexists].
    destruct (begin_command _ f s) as [c s1]. case_bool_decide; [by eexists|done]. }
  clear H. destruct He as [s0 H]. unfold execute in H.
  destruct (hashable _); [|done]. cbn [negb] in H. destruct (_ ≫= handler) as [h|] eqn:Eh; [|done].
  apply bind_Some in Eh as (k & _ & Eh). destruct (precheck now f) as [[[status e]|]|e]; try done.
  assert (Ha := fun b => handler_ok k h f s0 b Eh). destruct (h f s0) as [[b|e] s1]; [|done]. cbn [fst] in Ha.
  assert (Hb := Ha b eq_refl). destruct b; by simplify_eq.
Qed.

End app.

(** ** The naming loop *)

Definition candidate (base : pystr) (k : nat) : pystr :=
  match k with O => base | S _ => base ++ str "-" ++ decimal (Z.of_nat k + 1) end.

Lemma candidate_inj base : Inj eq eq (candidate base).
Proof.
  assert (Hs : forall k, base <> base ++ str "-" ++ decimal k).
  { intros k E. apply (f_equal length) in E. rewrite !length_app in E. simpl in E. lia. }
  intros [|m] [|n] E; cbn [candidate] in E; [done|by apply Hs in E|by symmetry in E; apply Hs in E|].
  apply app_inv_head, app_inv_head, decimal_inj in E. lia.
Qed.

Lemma some_candidate_free base (taken : list (list Z)) :
  exists k, (k <= length taken)%nat /\ candidate base k ∉ taken.
Proof.
  destruct (decide (Forall (fun k => candidate base k ∈ taken) (List.seq 0 (S (length taken))))) as [Hall|Hn].
  - exfalso. assert (Hsub : candidate base <$> List.seq 0 (S (length taken)) ⊆+ taken).
    { apply NoDup_submseteq; [apply NoDup_fmap_2; [apply candidate_inj|apply NoDup_seq]|].
      intros x (k & -> & Hk)%list_elem_of_fmap. rewrite Forall_forall in Hall. by apply Hall. }
    apply submseteq_length in Hsub. rewrite length_fmap, length_seq in Hsub. lia.
  - apply not_Forall_Exists in Hn; [|apply _]. apply Exists_exists in Hn as (k & Hk & Hf).
    apply elem_of_seq in Hk. exists k. split; [lia|done].
Qed.

Lemma first_free_spec taken base k : candidate base k ∉ taken -> forall fuel i,
  (i <= k < i + fuel)%nat -> first_free fuel taken base (candidate base i) (Z.of_nat i + 2) ∉ taken.
Proof.
  intros Hk fuel. induction fuel as [|fuel IH]; intros i Hi; [lia|]. cbn [first_free].
  case_bool_decide as Hin; [|done]. assert (i <> k) by congruence.
  specialize (IH (S i) ltac:(lia)). cbn [candidate] in IH.
  replace (Z.of_nat (S i) + 1) with (Z.of_nat i + 2) in IH by lia.
  by replace (Z.of_nat (S i) + 2) with (Z.of_nat i + 2 + 1) in IH by lia.
Qed.

Lemma first_free_fresh taken base : first_free (S (length taken)) taken base base 2 ∉ taken.
Proof.
  destruct (some_candidate_free base taken) as (k & Hk & Hf).
  apply (first_free_spec taken base k Hf (S (length taken)) 0). lia.
Qed.

Lemma first_free_nonempty taken base : base <> [] -> forall fuel name n,
  name <> [] -> first_free fuel taken base name n <> [].
Proof.
  intros Hb fuel. induction fuel as [|fuel IH]; intros name n Hn; cbn [first_free]; [done|].
  case_bool_decide; [|done]. apply IH. by destruct base.
Qed.

(** An adopted module gets a name no worker has, the loop that
    looks for it ending within one try per worker, and keeps that name: asked
    again, after any restart, the same module gets the same name back as long as
    no other worker has taken it. *)
Theorem adopted_name_stable imei iccid taken s :
  let '(name, s') := name_for imei iccid taken s in
  name ∉ taken /\ name <> [] /\ get (name_key imei iccid) s' = Some name /\
  forall taken', name ∉ taken' -> name_for imei iccid taken' s' = (name, s').
Proof.
  assert (Hfresh : forall s', get (name_key imei iccid) s' =
      Some (first_free (S (length taken)) taken (base_name imei iccid) (base_name imei iccid) 2) -> forall taken',
      first_free (S (length taken)) taken (base_name imei iccid) (base_name imei iccid) 2 ∉ taken' ->
      name_for imei iccid taken' s' =
        (first_free (S (length taken)) taken (base_name imei iccid) (base_name imei iccid) 2, s')).
  { intros s' E taken' Hn. unfold name_for. rewrite E, !bool_decide_eq_false_2; [done|done|by apply first_free_nonempty]. }
  unfold name_for at 1. destruct (get (name_key imei iccid) s) as [r|] eqn:E.
  - case_bool_decide as H1; cbn [negb andb]; [|case_bool_decide as H2; cbn [negb]].
    3: { split_and!; try done. intros taken' Hn. unfold name_for. by rewrite E, !bool_decide_eq_false_2. }
    all: split_and!; [apply first_free_fresh|by apply first_free_nonempty|apply lookup_insert_eq|].
    all: apply Hfresh, lookup_insert_eq.
  - split_and!; [apply first_free_fresh|by apply first_free_nonempty|apply lookup_insert_eq|].
    apply Hfresh, lookup_insert_eq.
Qed.

Example name_for_second :
  (name_for (str "860000000123456") [] [str "auto-123456"] fresh_db).1 = str "auto-123456-2".
Proof. by vm_compute. Qed.

(** ** Concrete runs *)

Definition sample_repr (v : json) : pystr := [].
Definition sample_iso (d : pystr) : option iso := if bool_decide (d = str "2026-01-01T00:00:00+00:00") then Some (Aware 100) else None.
Definition sample_hash (f : frame) : pystr := [Z.of_nat (length f)].
Definition sample_revision (v : json) : pystr := [].
Definition sample_columns (f : frame) : TaskSpec :=
  mkTaskSpec [] [] true [] [] [] [] [] 0 true 0 true.
Definition sample_workers : pydict (list Z) worker := [(str "m1", mkWorker (str "860001") (str "8986"))].

Definition sample_send : frame :=
  [ (str "type", JStr (str "send_sms")); (str "cmd_id", JStr (str "op-1")); (str "device", JStr (str "m1"));
    (str "result_token", JStr (str "t")); (str "deadline", JStr (str "2026-01-01T00:00:00+00:00"));
    (str "expected_imei", JStr (str "860001")); (str "number", JStr (str " 10086 ")); (str "body", JStr (str "hi")) ].

Abbreviation sample_handle now f s :=
  (handle_command sample_repr sample_iso sample_hash sample_revision sample_columns 1000 sample_workers now f s).

Definition sample_progress (p : progress) : LocalStore := match p with Settled s | Crashed s | Awaiting _ s => s end.
Definition sample_awaiting : LocalStore := sample_progress (sample_handle 50 sample_send fresh_db).

(** In time, the call is awaited and its end reported; late, it is settled. *)
Lemma durable_command_reported_once_witness :
  sample_handle 50 sample_send fresh_db = Awaiting (SendSms (str "m1") (str "10086") (str "hi")) sample_awaiting /\
  reports sample_hash sample_send "unknown" sample_awaiting
    (settle 1000 sample_send (Raised (OtherError (str "+CMS ERROR 500"))) sample_awaiting) /\
  exists s', sample_handle 100 sample_send fresh_db = Settled s' /\ exists status, reports sample_hash sample_send status fresh_db s'.
Proof.
  assert (H1 := durable_command_reported_once sample_repr sample_iso sample_hash sample_revision sample_columns 1000
    sample_workers 50 sample_send fresh_db eq_refl queue_ok_fresh eq_refl).
  assert (H2 := durable_command_reported_once sample_repr sample_iso sample_hash sample_revision sample_columns 1000
    sample_workers 100 sample_send fresh_db eq_refl queue_ok_fresh eq_refl).
  assert (E1 : sample_handle 50 sample_send fresh_db =
    Awaiting (SendSms (str "m1") (str "10086") (str "hi")) sample_awaiting) by (by vm_compute).
  assert (E2 : exists s', sample_handle 100 sample_send fresh_db = Settled s') by (eexists; by vm_compute).
  destruct E2 as [s' E2]. rewrite E1 in H1. rewrite E2 in H2. split; [done|]. split; [|by exists s'].
  by apply (proj2 (proj2 (proj2 (proj2 H1))) (Raised (OtherError (str "+CMS ERROR 500"))) sample_awaiting).
Defined.

Lemma replayed_command_not_executed_witness :
  exists s', sample_handle 50 sample_send sample_awaiting = Settled s' /\ events s' = events sample_awaiting.
Proof.
  assert (E : exists run, run_of (cmd_id_of sample_send) sample_awaiting = Some run /\ r_result run = None /\
    r_hash run = sample_hash sample_send) by (eexists; by vm_compute).
  destruct E as (run & E1 & E2 & E3).
  destruct (replayed_command_not_executed sample_repr sample_iso sample_hash sample_revision sample_columns 1000
    sample_workers 50 sample_send sample_awaiting run eq_refl E1) as (s' & H1 & _ & H2).
  exists s'. split; [done|]. by rewrite H2, bool_decide_eq_true_2, E2, app_nil_r.
Defined.

Lemma awaited_calls_checked_witness : action_ok sample_workers (SendSms (str "m1") (str "10086") (str "hi")).
Proof.
  apply (awaited_calls_checked sample_repr sample_iso sample_hash sample_revision sample_columns 1000
    sample_workers 50 sample_send fresh_db _ sample_awaiting). by vm_compute.
Defined.

End App.
