(* ===== verification/TaskSync.v ===== *)
(** * Task configuration, from the server to the agent

    Who owns a task ([Gateway.tasks_for], [agent_for_device]), the versioned
    snapshot the server sends ([push_tasks], [_prepare_task_sync]), the agent's
    handler (App.v) and the receipt that comes back
    ([_apply_tasks_applied], [Database.begin_task_sync], [finish_task_sync]) --
    for one agent.  SHA-256, fresh identifiers and SQLite's column conversions
    are arguments. *)

From S2P Require Import Prelude PyText PyDict Json Store App.
Import Store App.

Module TaskSync.

(** ** Ownership *)

Record server_task := mkServerTask { st_id : Z; st_agent : pystr; st_device_id : option Z; st_spec : TaskSpec }.
Record device_row := mkDevice { dv_id : Z; dv_agent : pystr; dv_name : pystr }.

Definition agent_for_device (name : pystr) (devices : list device_row) : option pystr :=
  match filter (fun d => dv_name d = name) devices with
  | [d] => Some (dv_agent d)
  | _ => None
  end.

(** The agent that runs a task; the empty text is nobody. *)
Definition owner (devices : list device_row) (t : server_task) : pystr :=
  let by_id := match st_agent t with
               | [] => match st_device_id t with
                       | Some id => if id =? 0 then []
                                    else match List.find (fun d => dv_id d =? id) devices with Some d => dv_agent d | None => [] end
                       | None => []
                       end
               | a => a
               end in
  match by_id with [] => default [] (agent_for_device (t_device (st_spec t)) devices) | a => a end.

Definition task_dict (t : server_task) : frame :=
  let v := st_spec t in
  [ (str "id", JInt (st_id t)); (str "device", JStr (t_device v)); (str "name", JStr (t_name v));
    (str "enabled", JBool (t_enabled v)); (str "action", JStr (t_action v));
    (str "target_number", JStr (t_target_number v)); (str "content", JStr (t_content v));
    (str "schedule_type", JStr (t_schedule_type v)); (str "schedule_expr", JStr (t_schedule_expr v));
    (str "jitter_seconds", JInt (t_jitter_seconds v)); (str "random_suffix", JBool (t_random_suffix v));
    (str "retry_max", JInt (t_retry_max v)); (str "notify_on_result", JBool (t_notify_on_result v)) ].

Definition owned (agent : pystr) (tasks : list server_task) (devices : list device_row) : list server_task :=
  filter (fun t => owner devices t = agent) tasks.

Definition tasks_for (agent : pystr) (tasks : list server_task) (devices : list device_row) : list json :=
  (fun t => JObj (task_dict t)) <$> owned agent tasks devices.

(** ** The agent's row *)

Inductive sync_status := SyncPending | SyncApplied | SyncFailed.
#[export] Instance sync_status_eq_dec : EqDecision sync_status.
Proof. solve_decision. Defined.

Record agent_row := mkAgentRow {
  ar_revision : pystr; ar_applied : pystr; ar_sync : pystr; ar_status : sync_status; ar_error : pystr;
  ar_sent_at : option Z; ar_synced_at : option Z }.

Definition new_agent_row : agent_row := mkAgentRow [] [] [] SyncPending [] None None.

Definition begin_task_sync (revision sync_id : pystr) (sent_at : option Z) (r : agent_row) : agent_row :=
  mkAgentRow revision (ar_applied r) sync_id SyncPending [] sent_at (ar_synced_at r).

Definition finish_task_sync (revision sync_id : pystr) (ok : bool) (error : pystr) (now : Z) (r : agent_row) : agent_row :=
  if bool_decide (ar_revision r = revision) && bool_decide (ar_sync r = sync_id) && negb (bool_decide (ar_status r = SyncApplied))
  then mkAgentRow (ar_revision r) (if ok then revision else ar_applied r) (ar_sync r)
         (if ok then SyncApplied else SyncFailed) (if ok then [] else error) (ar_sent_at r)
         (if ok then Some now else ar_synced_at r)
  else r.

Definition sync_error (code : json) : pystr :=
  if jis "invalid_tasks" code then [0x4EFB; 0x52A1; 0x914D; 0x7F6E; 0x683C; 0x5F0F; 0x65E0; 0x6548]
  else if jis "revision_mismatch" code then [0x4EFB; 0x52A1; 0x914D; 0x7F6E; 0x7248; 0x672C; 0x6821; 0x9A8C; 0x5931; 0x8D25]
  else if jis "apply_failed" code then str "Agent " ++ [0x672A; 0x80FD; 0x4FDD; 0x5B58; 0x4EFB; 0x52A1; 0x914D; 0x7F6E]
  else str "Agent " ++ [0x672A; 0x80FD; 0x5E94; 0x7528; 0x4EFB; 0x52A1; 0x914D; 0x7F6E].
Definition SEND_FAILED : pystr := [0x4EFB; 0x52A1; 0x914D; 0x7F6E; 0x4E0B; 0x53D1; 0x5931; 0x8D25].

Definition apply_tasks_applied (f : frame) (now : Z) (r : agent_row) : agent_row :=
  match jget "revision" f, jget "sync_id" f, jget "ok" f with
  | JStr ((_ :: _) as revision), JStr ((_ :: _) as sync_id), JBool ok =>
      finish_task_sync revision sync_id ok (sync_error (jget "error" f)) now r
  | _, _, _ => r
  end.

(** ** Pushing *)

Section Sync.
Context (agent : pystr) (task_revision : json -> pystr).

(** [sync_id] is the connection's, [None] without one; [fresh] is
    [secrets.token_hex(16)].  The snapshot, its labels, whether to send it, and
    the row. *)
Definition prepare_task_sync (tasks : list json) (sync_id : option pystr) (fresh : pystr) (now : Z) (r : agent_row) :
    pystr * pystr * bool * agent_row :=
  let revision := task_revision (JArr tasks) in
  match sync_id with
  | None =>
      (revision, [], false,
       if negb (bool_decide (revision = ar_revision r)) then begin_task_sync revision fresh None r else r)
  | Some sync_id =>
      if negb (bool_decide (revision = ar_revision r)) || bool_decide (sync_id = []) || negb (bool_decide (sync_id = ar_sync r))
      then (revision, fresh, true, begin_task_sync revision fresh (Some now) r)
      else if bool_decide (ar_status r = SyncApplied) then (revision, sync_id, false, r)
      else (revision, sync_id, true,
            mkAgentRow (ar_revision r) (ar_applied r) (ar_sync r) (ar_status r) (ar_error r) (Some now) (ar_synced_at r))
  end.

Definition sync_frame (tasks : list json) (revision sync_id : pystr) : frame :=
  [ (str "type", JStr (str "sync_tasks")); (str "tasks", JArr tasks); (str "revision", JStr revision);
    (str "sync_id", JStr sync_id) ].

(** ** The two ends together *)

Context (columns : frame -> TaskSpec) (max_queued : Z).

Abbreviation handle := (cmd_sync_tasks task_revision columns max_queued) (only parsing).

(** The receipts a handler's run has queued. *)
Definition new_receipts (s s' : LocalStore) : list frame :=
  (fun r => payload (ev r)) <$>
    filter (fun r => events_seq s < row_seq r /\ kind (ev r) = str "tasks_applied") (events s').

Record sync_system := mkSync {
  y_tasks : list json;               (* [tasks_for] of the agent, now *)
  y_row : agent_row;
  y_conn : option pystr;             (* the connection's [tasks_sync_id] *)
  y_wire : list frame;               (* sent, not yet handled *)
  y_store : LocalStore;
  y_receipts : list frame;           (* queued receipts, oldest first *)
  y_used : gset (list Z);            (* sync ids handed out *)
  y_done : list (pystr * pystr);     (* history: (sync id, revision) applied *)
  y_last : option pystr }.           (* the sync id the present store holds *)

(** The agent's task rows, run times aside. *)
Definition specs (s : LocalStore) : gmap Z TaskSpec := t_spec <$> tasks s.

Definition push (sent : bool) (now : Z) (c fresh : pystr) (y : sync_system) (wire : list frame) : sync_system :=
  let '(revision, sync_id, should_send, row) := prepare_task_sync (y_tasks y) (Some c) fresh now (y_row y) in
  mkSync (y_tasks y)
    (if should_send && negb sent then finish_task_sync revision sync_id false SEND_FAILED now row else row)
    (Some sync_id)
    (y_wire y ++ (if should_send then wire else []))
    (y_store y) (y_receipts y) ({[ fresh ]} ∪ y_used y) (y_done y) (y_last y).

(** What the agent's handler did with a frame. *)
Definition agent_handles (f : frame) (y : sync_system) (rest : list frame) : sync_system :=
  let '(r, s) := handle f (y_store y) in
  let applied := match r with Ok _ => true | Err _ => false end in
  let sync_id := default [] (as_str (jget "sync_id" f)) in
  let revision := default [] (as_str (jget "revision" f)) in
  mkSync (y_tasks y) (y_row y) (y_conn y) rest s (y_receipts y ++ new_receipts (y_store y) s) (y_used y)
    (if applied then y_done y ++ [(sync_id, revision)] else y_done y)
    (if applied then Some sync_id else y_last y).

Inductive step : sync_system -> sync_system -> Prop :=
| step_edit ts y :
    step y (mkSync ts (y_row y) (y_conn y) (y_wire y) (y_store y) (y_receipts y) (y_used y) (y_done y) (y_last y))
| step_connect y :
    step y (mkSync (y_tasks y) (y_row y) (Some []) (y_wire y) (y_store y) (y_receipts y) (y_used y) (y_done y) (y_last y))
| step_disconnect y :
    step y (mkSync (y_tasks y) (y_row y) None (y_wire y) (y_store y) (y_receipts y) (y_used y) (y_done y) (y_last y))
| step_lose w y : w `sublist_of` y_wire y ->
    step y (mkSync (y_tasks y) (y_row y) (y_conn y) w (y_store y) (y_receipts y) (y_used y) (y_done y) (y_last y))
| step_push sent now c fresh y wire :
    y_conn y = Some c -> fresh <> [] -> fresh ∉ y_used y ->
    (* a send that failed may still have gone out *)
    (let '(revision, sync_id, _, _) := prepare_task_sync (y_tasks y) (Some c) fresh now (y_row y) in
     wire = [sync_frame (y_tasks y) revision sync_id] \/ (sent = false /\ wire = [])) ->
    step y (push sent now c fresh y wire)
| step_prepare now fresh y :
    y_conn y = None -> fresh <> [] -> fresh ∉ y_used y ->
    step y (mkSync (y_tasks y) (prepare_task_sync (y_tasks y) None fresh now (y_row y)).2 None (y_wire y) (y_store y)
              (y_receipts y) ({[ fresh ]} ∪ y_used y) (y_done y) (y_last y))
| step_handle f rest y : y_wire y = f :: rest -> step y (agent_handles f y rest)
| step_receive now f rest y : y_receipts y = f :: rest ->
    step y (mkSync (y_tasks y) (apply_tasks_applied f now (y_row y)) (y_conn y) (y_wire y) (y_store y) rest
              (y_used y) (y_done y) (y_last y))
| step_agent s y : specs s = specs (y_store y) -> get TASK_REVISION_KEY s = get TASK_REVISION_KEY (y_store y) ->
    (* everything else the agent does with its store; its queue only grows or is trimmed *)
    queue_ok s -> events_seq (y_store y) <= events_seq s ->
    step y (mkSync (y_tasks y) (y_row y) (y_conn y) (y_wire y) s (y_receipts y) (y_used y) (y_done y) (y_last y))
| step_rebuild token rs y : rs `sublist_of` y_receipts y ->
    step y (mkSync (y_tasks y) (y_row y) (y_conn y) (y_wire y) (open_store token fresh_db) rs (y_used y) (y_done y) None).

Definition initial (token : pystr) : sync_system :=
  mkSync [] new_agent_row None [] (open_store token fresh_db) [] ∅ [] None.

(** ** What the agent's handler does *)

Definition specs_of (ts : list json) : gmap Z TaskSpec :=
  list_to_map ((fun t => (default 0 (strict_int (in_id t)), in_spec t)) <$> (incoming_of columns <$> ts)).

Lemma upserted_spec old v : t_spec (upserted old v) = v.
Proof. by destruct old. Qed.

Lemma replace_specs incoming revision sync_id s n s' :
  replace_tasks incoming revision sync_id s = Ok (n, s') ->
  specs s' = list_to_map ((fun t => (default 0 (strict_int (in_id t)), in_spec t)) <$> incoming).
Proof.
  intros E. pose proof (replace_tasks_ok incoming revision sync_id s) as H. rewrite E in H.
  destruct H as (ids & Hids & Hn & _ & _ & Hdom & Hval & _).
  assert (Hk : ((fun t => (default 0 (strict_int (in_id t)), in_spec t)) <$> incoming).*1 = ids).
  { rewrite <- list_fmap_compose. apply list_eq. intros i. rewrite list_lookup_fmap.
    apply (f_equal (.!! i)) in Hids. rewrite !list_lookup_fmap in Hids.
    destruct (incoming !! i), (ids !! i); try done. cbn in *. injection Hids as ->. done. }
  apply map_eq. intros id. destruct (list_to_map _ !! id) as [v|] eqn:El.
  - apply elem_of_list_to_map in El; [|by rewrite Hk]. apply list_elem_of_fmap in El as (t & [= -> ->] & Ht).
    apply list_elem_of_lookup in Ht as [i Hi].
    assert (Ei : ids !! i = Some (default 0 (strict_int (in_id t)))).
    { rewrite <- Hk, !list_lookup_fmap, Hi. done. }
    unfold specs. rewrite lookup_fmap, (Hval i _ t Ei Hi). cbn. by rewrite upserted_spec.
  - apply not_elem_of_list_to_map in El. rewrite Hk in El. unfold specs. rewrite lookup_fmap.
    destruct (tasks s' !! id) eqn:Et; [|done]. exfalso. apply El, Hdom. by eexists.
Qed.

Lemma get_emit k key p s : get k (emit max_queued key p s) = get k s.
Proof. unfold emit, trim_events. by case_match. Qed.

Lemma specs_emit k p s : specs (emit max_queued k p s) = specs s.
Proof. unfold specs, emit, trim_events. by case_match. Qed.

Lemma emit_ok k p s : queue_ok s -> queue_ok (emit max_queued k p s).
Proof. intros Hq. unfold emit. by apply (trim_rows max_queued _ (queue_ok_append k p s Hq)). Qed.

Lemma emit_receipts k p s f : queue_ok s -> f ∈ new_receipts s (emit max_queued k p s) -> f = p.
Proof.
  intros Hq (r & -> & ([Hlt _] & Hr)%list_elem_of_filter)%list_elem_of_fmap. unfold emit in Hr.
  destruct (trim_rows max_queued _ (queue_ok_append k p s Hq)) as (_ & _ & _ & Hsub & _). apply Hsub in Hr.
  cbn [append_event snd events] in Hr. apply elem_of_app in Hr as [Hr|Hr]; [|by apply list_elem_of_singleton in Hr as ->].
  destruct Hq as (_ & Hf & _). rewrite Forall_forall in Hf. apply Hf in Hr. lia.
Qed.

Lemma none_receipts s s' : queue_ok s -> events s' = events s -> new_receipts s s' = [].
Proof.
  intros (_ & Hf & _) E. unfold new_receipts. rewrite E, filter_none; [done|]. intros r Hr [H _].
  rewrite Forall_forall in Hf. apply Hf in Hr. lia.
Qed.

Definition good_receipt (revision sync_id : pystr) (count : Z) : frame :=
  [ (str "sync_id", JStr sync_id); (str "revision", JStr revision); (str "ok", JBool true); (str "count", JInt count) ].

Lemma handle_spec ts revision sync_id s : queue_ok s -> sync_id <> [] ->
  let '(r, s') := handle (sync_frame ts revision sync_id) s in
  queue_ok s' /\ events_seq s <= events_seq s' /\
  match r with
  | Ok _ => task_revision (JArr ts) = revision /\ get TASK_REVISION_KEY s' = Some revision /\ specs s' = specs_of ts
            /\ exists n, new_receipts s s' = [good_receipt revision sync_id n]
  | Err _ => specs s' = specs s /\ get TASK_REVISION_KEY s' = get TASK_REVISION_KEY s
            /\ forall f, f ∈ new_receipts s s' -> jget "ok" f = JBool false
  end.
Proof.
  intros Hq Hne. unfold cmd_sync_tasks.
  change (jhas "revision" (sync_frame ts revision sync_id)) with true. cbn [orb andb negb].
  change (jget_or "revision" (JStr []) (sync_frame ts revision sync_id)) with (JStr revision).
  change (jget_or "sync_id" (JStr []) (sync_frame ts revision sync_id)) with (JStr sync_id).
  change (jget "tasks" (sync_frame ts revision sync_id)) with (JArr ts).
  assert (Hl : sync_labels (JStr revision) (JStr sync_id) = None \/ sync_labels (JStr revision) (JStr sync_id) = Some (revision, sync_id)).
  { unfold sync_labels. cbn. destruct (_ && _); [by right|by left]. }
  assert (Hfail : forall e x, let s' := (sync_failed max_queued true revision sync_id e x s).2 in
    queue_ok s' /\ events_seq s <= events_seq s' /\ specs s' = specs s /\ get TASK_REVISION_KEY s' = get TASK_REVISION_KEY s
    /\ forall f, f ∈ new_receipts s s' -> jget "ok" f = JBool false).
  { intros e x. unfold sync_failed. cbn [snd]. split_and!; [by apply emit_ok| |by apply specs_emit|by apply get_emit|].
    - unfold emit, trim_events. case_match; cbn; lia.
    - intros f Hf. by apply emit_receipts in Hf as ->. }
  destruct Hl as [-> | ->].
  { cbn. split_and!; try done. intros f. by rewrite none_receipts, elem_of_nil. }
  rewrite (bool_decide_eq_true_2 (is_Some _)) by by eexists.
  change (default ([], []) (Some (revision, sync_id))) with (revision, sync_id). cbn [negb].
  destruct (bool_decide (task_revision (JArr ts) = revision)) eqn:Er; cbn [negb];
    [|exact (Hfail "revision_mismatch"%string (BadValue (str "task revision does not match the payload")))].
  apply bool_decide_eq_true in Er. destruct (replace_tasks _ _ _ _) as [[n s']|x] eqn:E;
    [|exact (Hfail "apply_failed"%string (BadValue (str "tasks need distinct positive integer ids")))].
  assert (Hspec := replace_specs _ _ _ _ _ _ E). unfold replace_tasks in E. destruct (check_ids [] _) as [rows|]; [|done].
  cbn [mbind res_bind] in E. rewrite bool_decide_eq_false_2 in E by done. injection E as <- <-.
  assert (Hq' : queue_ok (set TASK_REVISION_KEY revision (set_tasks
     (foldl (fun ts row => upsert_task ts row.1 row.2) (filter (fun kv : Z * task_row => kv.1 ∈ rows.*1) (tasks s)) rows) s))) by exact Hq.
  split; [by apply queue_ok_append|]. split; [cbn; lia|]. split; [done|]. split.
  { unfold get. cbn. by rewrite lookup_insert_eq. }
  split; [exact Hspec|]. eexists. unfold new_receipts. cbn [append_event snd events].
  rewrite filter_app, filter_none, filter_cons_True; [reflexivity|split; [cbn; lia|done]|].
  intros r Hr [H _]. destruct Hq as (_ & Hf & _). rewrite Forall_forall in Hf. apply Hf in Hr. lia.
Qed.

(** ** The invariant *)

Definition is_frame (y : sync_system) (f : frame) : Prop :=
  exists ts revision id, f = sync_frame ts revision id /\ id <> [] /\ id ∈ y_used y.

Definition frame_labels (f : frame) : pystr * pystr :=
  (default [] (as_str (jget "sync_id" f)), default [] (as_str (jget "revision" f))).

Lemma sync_frame_labels ts revision id : frame_labels (sync_frame ts revision id) = (id, revision).
Proof. reflexivity. Qed.

Abbreviation cur y := (ar_sync (y_row y)) (only parsing).

(** Frames of older snapshots are ahead of the current snapshot's, and gone
    once that one has been applied. *)
Definition wire_ok (y : sync_system) : Prop :=
  exists olds curs, y_wire y = olds ++ curs /\ Forall (fun f => (frame_labels f).1 <> cur y) olds
  /\ Forall (fun f => frame_labels f = (cur y, ar_revision (y_row y))) curs
  /\ (cur y ∈ (y_done y).*1 -> olds = []).

Record inv (y : sync_system) : Prop := {
  i_queue : queue_ok (y_store y);
  i_used : cur y = [] \/ cur y ∈ y_used y;
  i_conn : forall c, y_conn y = Some c -> c = [] \/ c ∈ y_used y;
  i_frames : Forall (is_frame y) (y_wire y);
  i_wire : wire_ok y;
  i_done_used : forall p, p ∈ y_done y -> p.1 ∈ y_used y /\ p.1 <> [];
  i_done_cur : forall p, p ∈ y_done y -> p.1 = cur y -> p.2 = ar_revision (y_row y);
  i_receipts : forall f, f ∈ y_receipts y -> jget "ok" f = JBool true ->
    exists id revision n, f = good_receipt revision id n /\ (id, revision) ∈ y_done y;
  i_applied : ar_status (y_row y) = SyncApplied ->
    (cur y, ar_revision (y_row y)) ∈ y_done y /\ ar_applied (y_row y) = ar_revision (y_row y);
  i_last_cur : cur y ∈ (y_done y).*1 -> y_last y = None \/ y_last y = Some (cur y);
  i_last : forall id, y_last y = Some id -> exists revision ts, (id, revision) ∈ y_done y
    /\ get TASK_REVISION_KEY (y_store y) = Some revision /\ task_revision (JArr ts) = revision
    /\ specs (y_store y) = specs_of ts }.

Lemma sync_inv_initial token : inv (initial token).
Proof.
  split; cbn [initial y_store y_row y_conn y_wire y_done y_receipts y_last y_used]; try done.
  - apply queue_ok_fresh.
  - by left.
  - exists [], []. by split_and!; try constructor.
  - by intros p ?%not_elem_of_nil.
  - by intros p ?%not_elem_of_nil.
  - by intros f ?%not_elem_of_nil.
  - by intros ?%not_elem_of_nil.
Qed.

(** Changes of the row that keep its labels. *)
Lemma wire_same y row wire used rs conn ts s last :
  ar_sync row = cur y -> ar_revision row = ar_revision (y_row y) -> wire_ok y ->
  (exists extra, wire = y_wire y ++ extra /\ Forall (fun f => frame_labels f = (cur y, ar_revision (y_row y))) extra) ->
  wire_ok (mkSync ts row conn wire s rs used (y_done y) last).
Proof.
  intros E1 E2 (olds & curs & Ew & Ho & Hc & Hn) (extra & -> & He). exists olds, (curs ++ extra). cbn [y_row y_wire y_done].
  rewrite E1, E2, Ew, app_assoc. split_and!; try done. by apply Forall_app.
Qed.

(** A new snapshot makes everything on the wire old. *)
Lemma wire_fresh y row wire used rs conn ts s last fresh revision :
  inv y -> ar_sync row = fresh -> ar_revision row = revision -> fresh ∉ y_used y ->
  (exists extra, wire = y_wire y ++ extra /\ Forall (fun f => frame_labels f = (fresh, revision)) extra) ->
  wire_ok (mkSync ts row conn wire s rs used (y_done y) last).
Proof.
  intros Hi <- <- Hf (extra & -> & He). exists (y_wire y), extra. cbn [y_row y_wire y_done]. split_and!; try done.
  - eapply Forall_impl; [apply Hi|]. intros f (t & r & id & -> & _ & Hu) E. rewrite sync_frame_labels in E. cbn in E. by subst.
  - intros (p & E & Hp)%list_elem_of_fmap. apply Hi in Hp as [Hp _]. by rewrite <- E in Hp.
Qed.

Lemma finish_labels revision id ok e now r : let r' := finish_task_sync revision id ok e now r in
  ar_sync r' = ar_sync r /\ ar_revision r' = ar_revision r.
Proof. unfold finish_task_sync. by case_match. Qed.

Lemma finish_failed_status revision id e now r :
  ar_status (finish_task_sync revision id false e now r) = SyncApplied ->
  ar_status r = SyncApplied /\ finish_task_sync revision id false e now r = r.
Proof. unfold finish_task_sync. by case_match. Qed.

Lemma frames_grow (y : sync_system) (used : gset (list Z)) wire extra :
  inv y -> y_used y ⊆ used -> wire = y_wire y ++ extra ->
  Forall (fun f => exists ts revision id, f = sync_frame ts revision id /\ id <> [] /\ id ∈ used) extra ->
  Forall (fun f => exists ts revision id, f = sync_frame ts revision id /\ id <> [] /\ id ∈ used) wire.
Proof.
  intros Hi Hu -> He. apply Forall_app. split; [|done]. eapply Forall_impl; [apply Hi|].
  intros f (t & r & id & E & Hne & Hid). exists t, r, id. split_and!; [done..|]. by apply Hu.
Qed.

(** The server goes on with the same snapshot. *)
Lemma inv_keep (y : sync_system) ts row conn wire used extra :
  inv y -> ar_sync row = cur y -> ar_revision row = ar_revision (y_row y) ->
  (ar_status row = SyncApplied -> ar_status (y_row y) = SyncApplied /\ ar_applied row = ar_applied (y_row y)) ->
  y_used y ⊆ used -> (forall c, conn = Some c -> c = [] \/ c ∈ used) ->
  wire = y_wire y ++ extra -> Forall (fun f => frame_labels f = (cur y, ar_revision (y_row y))) extra ->
  Forall (fun f => exists ts revision id, f = sync_frame ts revision id /\ id <> [] /\ id ∈ used) extra ->
  inv (mkSync ts row conn wire (y_store y) (y_receipts y) used (y_done y) (y_last y)).
Proof.
  intros Hi E1 E2 Es Hu Hc Ew Hx Hf. assert (Hw := wire_same y row wire used (y_receipts y) conn ts (y_store y) (y_last y) E1 E2 (i_wire _ Hi) (ex_intro _ extra (conj Ew Hx))).
  assert (Hfr := frames_grow y used wire extra Hi Hu Ew Hf). destruct Hi.
  split; cbn [y_store y_row y_conn y_wire y_done y_receipts y_last y_used]; rewrite ?E1, ?E2; try done.
  - destruct i_used0 as [|H]; [by left|right; by apply Hu].
  - intros p Hp. destruct (i_done_used0 p Hp). split; [by apply Hu|done].
  - intros [H1 H2]%Es. rewrite H2. by apply i_applied0.
Qed.

(** The server begins a new snapshot. *)
Lemma inv_begin (y : sync_system) ts row conn wire extra fresh revision :
  inv y -> fresh <> [] -> fresh ∉ y_used y -> ar_sync row = fresh -> ar_revision row = revision -> ar_status row <> SyncApplied ->
  (forall c, conn = Some c -> c = [] \/ c ∈ {[ fresh ]} ∪ y_used y) ->
  wire = y_wire y ++ extra -> Forall (fun f => exists ts, f = sync_frame ts revision fresh) extra ->
  inv (mkSync ts row conn wire (y_store y) (y_receipts y) ({[ fresh ]} ∪ y_used y) (y_done y) (y_last y)).
Proof.
  intros Hi Hne Hf E1 E2 Es Hc Ew Hx.
  assert (Hw : wire_ok (mkSync ts row conn wire (y_store y) (y_receipts y) ({[ fresh ]} ∪ y_used y) (y_done y) (y_last y))).
  { apply (wire_fresh y row wire _ _ _ _ _ _ fresh revision Hi E1 E2 Hf). exists extra. split; [done|].
    eapply Forall_impl; [exact Hx|]. intros f [t ->]. reflexivity. }
  assert (Hfr : Forall (fun f => exists ts revision id, f = sync_frame ts revision id /\ id <> [] /\ id ∈ ({[ fresh ]} ∪ y_used y : gset _)) wire).
  { apply (frames_grow y _ wire extra Hi); [set_solver|done|]. eapply Forall_impl; [exact Hx|]. intros f [t ->].
    exists t, revision, fresh. split_and!; [done..|set_solver]. }
  assert (Hnd : forall p, p ∈ y_done y -> p.1 <> fresh) by (intros p Hp E; apply Hf; rewrite <- E; by apply (i_done_used _ Hi)).
  destruct Hi. split; cbn [y_store y_row y_conn y_wire y_done y_receipts y_last y_used]; rewrite ?E1, ?E2; try done.
  - right. set_solver.
  - intros p Hp. destruct (i_done_used0 p Hp). split; [set_solver|done].
  - intros p Hp E. by destruct (Hnd p Hp).
  - intros (p & E & Hp)%list_elem_of_fmap. by destruct (Hnd p Hp).
Qed.

Lemma inv_push sent now c fresh (y : sync_system) wire :
  inv y -> y_conn y = Some c -> fresh <> [] -> fresh ∉ y_used y ->
  (let '(revision, sync_id, _, _) := prepare_task_sync (y_tasks y) (Some c) fresh now (y_row y) in
   wire = [sync_frame (y_tasks y) revision sync_id] \/ (sent = false /\ wire = [])) ->
  inv (push sent now c fresh y wire).
Proof.
  intros Hi Hc Hne Hf Hw. unfold push, prepare_task_sync in *. set (revision := task_revision _) in *.
  destruct (negb (bool_decide (revision = _)) || _ || _) eqn:Ek.
  - apply (inv_begin y _ _ _ _ wire fresh revision Hi Hne Hf).
    + destruct (true && _); [|done]. by rewrite (proj1 (finish_labels _ _ _ _ _ _)).
    + destruct (true && _); [|done]. by rewrite (proj2 (finish_labels _ _ _ _ _ _)).
    + destruct (true && _); [|done]. intros [H _]%finish_failed_status. done.
    + intros x [= <-]. right. set_solver.
    + done.
    + destruct Hw as [->|[_ ->]]; [|constructor]. apply Forall_singleton. by eexists.
  - apply orb_false_iff in Ek as [[E1 E2]%orb_false_iff E3].
    assert (Ec : c = cur y) by (apply negb_false_iff, bool_decide_eq_true in E3; done).
    assert (Er : revision = ar_revision (y_row y)) by (apply negb_false_iff, bool_decide_eq_true in E1; done).
    assert (Hcn : c <> []) by (by apply bool_decide_eq_false in E2).
    assert (Hcu : c ∈ y_used y) by (destruct (i_conn _ Hi c Hc); done).
    destruct (bool_decide (ar_status (y_row y) = SyncApplied)) eqn:Ea.
    + apply (inv_keep y _ _ _ _ _ [] Hi); try done; [set_solver|intros x [= <-]; right; set_solver].
    + apply bool_decide_eq_false in Ea. apply (inv_keep y _ _ _ _ _ wire Hi).
      * destruct (true && _); [|done]. by rewrite (proj1 (finish_labels _ _ _ _ _ _)).
      * destruct (true && _); [|done]. by rewrite (proj2 (finish_labels _ _ _ _ _ _)).
      * destruct (true && _); [|done]. intros [H _]%finish_failed_status. done.
      * set_solver.
      * intros x [= <-]. right. set_solver.
      * done.
      * destruct Hw as [->|[_ ->]]; [|constructor]. apply Forall_singleton. by rewrite sync_frame_labels, Ec, Er.
      * destruct Hw as [->|[_ ->]]; [|constructor]. apply Forall_singleton. exists (y_tasks y), revision, c. split_and!; [done..|set_solver].
Qed.

Lemma inv_prepare now fresh (y : sync_system) :
  inv y -> y_conn y = None -> fresh <> [] -> fresh ∉ y_used y ->
  inv (mkSync (y_tasks y) (prepare_task_sync (y_tasks y) None fresh now (y_row y)).2 None (y_wire y) (y_store y)
         (y_receipts y) ({[ fresh ]} ∪ y_used y) (y_done y) (y_last y)).
Proof.
  intros Hi Hc Hne Hf. unfold prepare_task_sync. cbn [snd]. destruct (negb _).
  - eapply (inv_begin y _ _ _ _ [] fresh); try done. by rewrite app_nil_r.
  - apply (inv_keep y _ _ _ _ _ [] Hi); try done; [set_solver|by rewrite app_nil_r].
Qed.

Lemma inv_lose (y : sync_system) w : inv y -> w `sublist_of` y_wire y ->
  inv (mkSync (y_tasks y) (y_row y) (y_conn y) w (y_store y) (y_receipts y) (y_used y) (y_done y) (y_last y)).
Proof.
  intros Hi Hs. destruct Hi. split; try done; cbn [y_wire].
  - by eapply Forall_sublist.
  - destruct i_wire0 as (olds & curs & E & Ho & Hc & Hn). rewrite E in Hs.
    apply sublist_app_r in Hs as (w1 & w2 & -> & H1 & H2). exists w1, w2. cbn [y_wire y_row y_done]. split_and!; [done| | |].
    + by eapply Forall_sublist.
    + by eapply Forall_sublist.
    + intros H%Hn. subst. by apply sublist_nil_r in H1.
Qed.

Lemma inv_handle f rest (y : sync_system) : inv y -> y_wire y = f :: rest -> inv (agent_handles f y rest).
Proof.
  intros Hi Hw. assert (Hf := i_frames _ Hi). rewrite Hw in Hf. apply Forall_cons in Hf as [(ts & revision & id & -> & Hne & Hu) Hrest].
  pose proof (handle_spec ts revision id (y_store y) (i_queue _ Hi) Hne) as Hh. unfold agent_handles.
  destruct (handle (sync_frame ts revision id) (y_store y)) as [r s]. destruct Hh as (Hq & _ & Hr).
  change (default [] (as_str (jget "sync_id" (sync_frame ts revision id)))) with id.
  change (default [] (as_str (jget "revision" (sync_frame ts revision id)))) with revision.
  destruct (i_wire _ Hi) as (olds & curs & E & Ho & Hc & Hn). rewrite Hw in E.
  (* the head is the current snapshot's, or an older one's that is still allowed *)
  assert (Hhead : (id = cur y /\ revision = ar_revision (y_row y) /\ olds = []) \/ (id <> cur y /\ cur y ∉ (y_done y).*1)).
  { destruct olds as [|o olds].
    - destruct curs as [|g curs]; [done|]. injection E as <- _. apply Forall_cons in Hc as [Hg _]. injection Hg as -> ->. by left.
    - injection E as <- _. apply Forall_cons in Ho as [Ho _]. right. split; [exact Ho|]. by intros H%Hn. }
  assert (Hwire : forall done last, (forall p, p ∈ done -> p ∈ y_done y \/ p.1 = id) ->
    wire_ok (mkSync (y_tasks y) (y_row y) (y_conn y) rest s (y_receipts y ++ new_receipts (y_store y) s) (y_used y) done last)).
  { intros done last Hd. destruct olds as [|o olds].
    - destruct curs as [|g curs]; [done|]. injection E as _ ->. apply Forall_cons in Hc as [_ Hc].
      exists [], curs. by split_and!.
    - injection E as <- ->. apply Forall_cons in Ho as [Ho0 Ho]. exists olds, curs. cbn [y_wire y_row y_done]. split_and!; try done.
      intros (p & Ep & [Hp|Hp]%Hd)%list_elem_of_fmap; [|by rewrite Hp in Ep].
      specialize (Hn ltac:(rewrite Ep; by apply list_elem_of_fmap_2)). done. }
  destruct Hi. destruct r as [a|e].
  - destruct Hr as (Erev & Hkey & Hspec & n & Hrec).
    split; cbn [y_store y_row y_conn y_wire y_done y_receipts y_last y_used]; try done.
    + apply Hwire. intros p [Hp| ->%list_elem_of_singleton]%elem_of_app; [by left|by right].
    + intros p [Hp| ->%list_elem_of_singleton]%elem_of_app; [by apply i_done_used0|done].
    + intros p [Hp| ->%list_elem_of_singleton]%elem_of_app; [by apply i_done_cur0|]. cbn. destruct Hhead as [(_ & -> & _)|[Hx _]]; done.
    + rewrite Hrec. intros f [Hf| ->%list_elem_of_singleton]%elem_of_app Hok.
      * destruct (i_receipts0 f Hf Hok) as (i & r & m & -> & Hin). exists i, r, m. split; [done|]. apply elem_of_app. by left.
      * exists id, revision, n. split; [done|]. apply elem_of_app. right. by apply list_elem_of_singleton.
    + intros Ha. destruct (i_applied0 Ha) as [H1 H2]. split; [|done]. apply elem_of_app. by left.
    + intros Hcur. right. destruct Hhead as [(-> & _)|[Hx Hnd]]; [done|]. rewrite fmap_app in Hcur.
      apply elem_of_app in Hcur as [H|H]; [done|]. apply list_elem_of_singleton in H. cbn in H. congruence.
    + intros i [= <-]. exists revision, ts. split_and!; [|done..]. apply elem_of_app. right. by apply list_elem_of_singleton.
  - destruct Hr as (Hspec & Hkey & Hrec).
    split; cbn [y_store y_row y_conn y_wire y_done y_receipts y_last y_used]; try done.
    + apply Hwire. by left.
    + intros f [Hf|Hf]%elem_of_app Hok; [by apply i_receipts0|]. apply Hrec in Hf. congruence.
    + intros i Hl. destruct (i_last0 i Hl) as (r & t & H1 & H2 & H3 & H4). exists r, t. by rewrite Hkey, Hspec.
Qed.

Lemma inv_receive now f rest (y : sync_system) : inv y -> y_receipts y = f :: rest ->
  inv (mkSync (y_tasks y) (apply_tasks_applied f now (y_row y)) (y_conn y) (y_wire y) (y_store y) rest
         (y_used y) (y_done y) (y_last y)).
Proof.
  intros Hi Hr. assert (Hlab : ar_sync (apply_tasks_applied f now (y_row y)) = cur y
      /\ ar_revision (apply_tasks_applied f now (y_row y)) = ar_revision (y_row y)).
  { unfold apply_tasks_applied. repeat case_match; try done; apply finish_labels. }
  destruct Hlab as [E1 E2].
  assert (Hst : ar_status (apply_tasks_applied f now (y_row y)) = SyncApplied ->
     (cur y, ar_revision (y_row y)) ∈ y_done y /\ ar_applied (apply_tasks_applied f now (y_row y)) = ar_revision (y_row y)).
  { intros Hs. assert (Hcase : jget "ok" f = JBool true \/ jget "ok" f <> JBool true)
      by (destruct (jget "ok" f) as [|[]|n|x|t|l|d]; (by left) || (by right)).
    destruct Hcase as [Hok|Hok].
    - destruct (i_receipts _ Hi f) as (id & revision & n & -> & Hin); [rewrite Hr; left|done|].
      unfold apply_tasks_applied in *. change (jget "revision" (good_receipt revision id n)) with (JStr revision) in *.
      change (jget "sync_id" (good_receipt revision id n)) with (JStr id) in *.
      change (jget "ok" (good_receipt revision id n)) with (JBool true) in *.
      destruct revision as [|c r]; [by apply (i_applied _ Hi)|]. destruct id as [|c' i]; [by apply (i_applied _ Hi)|].
      unfold finish_task_sync in *. destruct (_ && _ && _) eqn:Ek; [|by apply (i_applied _ Hi)].
      apply andb_true_iff in Ek as [[K1%bool_decide_eq_true K2%bool_decide_eq_true]%andb_true_iff _].
      rewrite K1, K2. by split.
    - assert (Hfail : ar_status (apply_tasks_applied f now (y_row y)) = SyncApplied ->
        ar_status (y_row y) = SyncApplied /\ apply_tasks_applied f now (y_row y) = y_row y).
      { unfold apply_tasks_applied. destruct (jget "revision" f) as [| | | |[|c rv]| |]; try done.
        destruct (jget "sync_id" f) as [| | | |[|c' i]| |]; try done. destruct (jget "ok" f) as [|[]| | | | |]; try done.
        intros H. by apply finish_failed_status in H. }
      destruct (Hfail Hs) as [Hs' ->]. by apply (i_applied _ Hi). }
  assert (Hw := wire_same y (apply_tasks_applied f now (y_row y)) (y_wire y) (y_used y) rest (y_conn y) (y_tasks y) (y_store y) (y_last y)
    E1 E2 (i_wire _ Hi)).
  destruct Hi. split; cbn [y_store y_row y_conn y_wire y_done y_receipts y_last y_used]; rewrite ?E1, ?E2; try done.
  - apply Hw. exists []. by rewrite app_nil_r.
  - intros g Hg. apply i_receipts0. rewrite Hr. by right.
Qed.

Lemma inv_agent s (y : sync_system) : inv y -> specs s = specs (y_store y) ->
  get TASK_REVISION_KEY s = get TASK_REVISION_KEY (y_store y) -> queue_ok s ->
  inv (mkSync (y_tasks y) (y_row y) (y_conn y) (y_wire y) s (y_receipts y) (y_used y) (y_done y) (y_last y)).
Proof.
  intros [] E1 E2 Hq. split; try done. cbn [y_last y_store y_done]. intros id Hl.
  destruct (i_last0 id Hl) as (r & t & H1 & H2 & H3 & H4). exists r, t. by rewrite E1, E2.
Qed.

Lemma sync_inv_rebuild token rs (y : sync_system) : inv y -> rs `sublist_of` y_receipts y ->
  inv (mkSync (y_tasks y) (y_row y) (y_conn y) (y_wire y) (open_store token fresh_db) rs (y_used y) (y_done y) None).
Proof.
  intros [] Hs. split; try done; cbn [y_store y_receipts y_last].
  - apply queue_ok_fresh.
  - intros f Hf. apply i_receipts0. by eapply elem_of_sublist.
  - by left.
Qed.

Lemma sync_step_inv y y' : inv y -> step y y' -> inv y'.
Proof.
  intros Hi H. destruct H.
  - apply (inv_keep _ _ _ _ _ _ [] Hi); try done; [by apply Hi|by rewrite app_nil_r].
  - apply (inv_keep _ _ _ _ _ _ [] Hi); try done; [intros c [= <-]; by left|by rewrite app_nil_r].
  - apply (inv_keep _ _ _ _ _ _ [] Hi); try done. by rewrite app_nil_r.
  - by apply inv_lose.
  - by apply inv_push.
  - by apply inv_prepare.
  - by apply inv_handle.
  - by apply inv_receive.
  - by apply inv_agent.
  - by apply sync_inv_rebuild.
Qed.

Lemma sync_steps_inv y y' : inv y -> rtc step y y' -> inv y'.
Proof. intros Hi H. induction H as [|y1 y2 y3 Hs _ IH]; [done|]. apply IH. by eapply sync_step_inv. Qed.

(** C15 (safety): the server shows "applied" only for what the agent holds.
    Whatever is edited, lost, sent twice, delayed or reordered with
    reconnections, when the agent's row says applied, the agent has committed
    exactly that snapshot -- the row's revision under the row's sync id -- and
    its task table still is that snapshot's, unless the agent's store was
    rebuilt since. *)
Theorem applied_means_stored (token : pystr) (y : sync_system) :
  rtc step (initial token) y -> ar_status (y_row y) = SyncApplied ->
  (ar_sync (y_row y), ar_revision (y_row y)) ∈ y_done y /\ ar_applied (y_row y) = ar_revision (y_row y)
  /\ (y_last y = None \/
      exists ts, task_revision (JArr ts) = ar_revision (y_row y)
      /\ get TASK_REVISION_KEY (y_store y) = Some (ar_revision (y_row y)) /\ specs (y_store y) = specs_of ts).
Proof.
  intros H Ha. assert (Hi := sync_steps_inv _ _ (sync_inv_initial token) H). destruct (i_applied _ Hi Ha) as [Hd Hr].
  split; [done|]. split; [done|]. destruct (i_last_cur _ Hi) as [Hl|Hl]; [by apply (list_elem_of_fmap_2 fst _ _ Hd)|by left|right].
  destruct (i_last _ Hi _ Hl) as (r & ts & H1 & H2 & H3 & H4). assert (r = ar_revision (y_row y)) as ->.
  { exact (i_done_cur _ Hi _ H1 eq_refl). }
  by exists ts.
Qed.

(** ** Convergence *)

(** Stale receipts leave the row as they find it, but for its status. *)
Lemma drain_receipts rs : forall y, y_receipts y = rs -> exists y', rtc step y y'
  /\ y_receipts y' = [] /\ y_tasks y' = y_tasks y /\ y_conn y' = y_conn y /\ y_wire y' = y_wire y
  /\ y_store y' = y_store y /\ y_used y' = y_used y.
Proof.
  induction rs as [|f rs IH]; intros y E; [exists y; by split_and!|].
  destruct (IH _ (eq_refl : y_receipts (mkSync (y_tasks y) (apply_tasks_applied f 0 (y_row y)) (y_conn y) (y_wire y)
    (y_store y) rs (y_used y) (y_done y) (y_last y)) = rs)) as (y' & H & H1 & H2 & H3 & H4 & H5 & H6).
  exists y'. split; [|by split_and!]. eapply rtc_l; [by apply (step_receive 0 f rs)|exact H].
Qed.

(** What [token_hex] and SHA-256 give, and a table the agent accepts. *)
Definition good_labels (revision id : pystr) : Prop := sync_labels (JStr revision) (JStr id) = Some (revision, id).

Lemma handle_accepts ts revision id s :
  good_labels revision id -> task_revision (JArr ts) = revision ->
  (exists n s', replace_tasks (incoming_of columns <$> ts) revision id s = Ok (n, s')) ->
  exists a s', handle (sync_frame ts revision id) s = (Ok a, s').
Proof.
  intros Hg Hr (n & s' & E). unfold cmd_sync_tasks.
  change (jhas "revision" (sync_frame ts revision id)) with true. cbn [orb andb negb].
  change (jget_or "revision" (JStr []) (sync_frame ts revision id)) with (JStr revision).
  change (jget_or "sync_id" (JStr []) (sync_frame ts revision id)) with (JStr id).
  change (jget "tasks" (sync_frame ts revision id)) with (JArr ts).
  rewrite Hg. rewrite (bool_decide_eq_true_2 (is_Some _)) by by eexists.
  change (default ([], []) (Some (revision, id))) with (revision, id). cbn [negb].
  rewrite bool_decide_eq_true_2 by done. cbn [negb]. rewrite E. by eexists _, _.
Qed.

Lemma good_receipt_finishes revision id n now r : revision <> [] -> id <> [] ->
  apply_tasks_applied (good_receipt revision id n) now r = finish_task_sync revision id true (sync_error JNull) now r.
Proof.
  intros Hr Hi. unfold apply_tasks_applied.
  change (jget "revision" (good_receipt revision id n)) with (JStr revision).
  change (jget "sync_id" (good_receipt revision id n)) with (JStr id).
  change (jget "ok" (good_receipt revision id n)) with (JBool true).
  change (jget "error" (good_receipt revision id n)) with JNull. by destruct revision, id.
Qed.

Lemma good_labels_nonempty revision id : good_labels revision id -> revision <> [] /\ id <> [].
Proof.
  unfold good_labels, sync_labels. intros H. split; intros ->; cbn in H; [done|by rewrite andb_false_r in H].
Qed.

(** C36 (liveness): task synchronisation converges.  From every reachable state
    with a connection, whatever is in flight, there is a way for the row to
    become "applied" for the tasks as they are now, with the agent holding
    them, without touching the configuration: one fresh push is enough. *)
Theorem task_sync_converges (token : pystr) (y : sync_system) (fresh : pystr) :
  rtc step (initial token) y -> is_Some (y_conn y) -> fresh ∉ y_used y ->
  good_labels (task_revision (JArr (y_tasks y))) fresh ->
  (forall s, exists n s', replace_tasks (incoming_of columns <$> y_tasks y) (task_revision (JArr (y_tasks y))) fresh s = Ok (n, s')) ->
  exists y', rtc step y y' /\ y_tasks y' = y_tasks y /\ ar_status (y_row y') = SyncApplied
  /\ ar_revision (y_row y') = task_revision (JArr (y_tasks y)) /\ specs (y_store y') = specs_of (y_tasks y).
Proof.
  intros H [c Hc] Hf Hg Hok. assert (Hi := sync_steps_inv _ _ (sync_inv_initial token) H).
  set (revision := task_revision (JArr (y_tasks y))) in *. destruct (good_labels_nonempty _ _ Hg) as [Hrne Hne].
  (* reconnect with an empty wire, and let the old receipts through *)
  set (y1 := mkSync (y_tasks y) (y_row y) (y_conn y) [] (y_store y) (y_receipts y) (y_used y) (y_done y) (y_last y)).
  set (y2 := mkSync (y_tasks y) (y_row y) (Some []) [] (y_store y) (y_receipts y) (y_used y) (y_done y) (y_last y)).
  assert (H12 : rtc step y y2).
  { eapply rtc_l; [apply (step_lose [] y); apply sublist_nil_l|]. apply rtc_once. apply (step_connect y1). }
  destruct (drain_receipts (y_receipts y2) y2 eq_refl) as (y3 & H23 & R3 & T3 & C3 & W3 & S3 & U3).
  assert (Hi3 := sync_steps_inv _ _ (sync_steps_inv _ _ Hi H12) H23).
  set (f := sync_frame (y_tasks y3) revision fresh).
  assert (Ht3 : y_tasks y3 = y_tasks y) by exact T3.
  assert (Hp : prepare_task_sync (y_tasks y3) (Some []) fresh 0 (y_row y3)
               = (revision, fresh, true, begin_task_sync revision fresh (Some 0) (y_row y3))).
  { unfold prepare_task_sync. rewrite Ht3. fold revision. by rewrite orb_true_r. }
  assert (H34 : step y3 (push true 0 [] fresh y3 [f])).
  { apply step_push; [by rewrite C3|done|by rewrite U3|]. rewrite Hp. by left. }
  set (y4 := push true 0 [] fresh y3 [f]) in *.
  assert (E4 : y4 = mkSync (y_tasks y3) (begin_task_sync revision fresh (Some 0) (y_row y3)) (Some fresh) [f]
                 (y_store y3) (y_receipts y3) ({[ fresh ]} ∪ y_used y3) (y_done y3) (y_last y3)).
  { unfold y4, push. rewrite Hp. cbn. by rewrite W3. }
  assert (Hi4 := sync_step_inv _ _ Hi3 H34).
  (* the agent applies it *)
  pose proof (handle_spec (y_tasks y3) revision fresh (y_store y4) (i_queue _ Hi4) Hne) as Hh.
  assert (Happ : exists a s, handle f (y_store y4) = (Ok a, s)) by (apply handle_accepts; rewrite ?Ht3; by try apply Hok).
  destruct Happ as (a & s & Es). fold f in Hh. rewrite Es in Hh. destruct Hh as (_ & _ & _ & _ & Hspec & n & Hrec).
  assert (H45 : step y4 (agent_handles f y4 [])) by (apply step_handle; by rewrite E4).
  set (y5 := agent_handles f y4 []) in *.
  assert (E5 : y_receipts y5 = [good_receipt revision fresh n] /\ y_row y5 = y_row y4 /\ y_store y5 = s /\ y_tasks y5 = y_tasks y).
  { unfold y5, agent_handles. rewrite Es. cbn [y_receipts y_row y_store y_tasks]. rewrite Hrec, E4. cbn [y_receipts y_tasks]. by rewrite R3. }
  destruct E5 as (R5 & Row5 & S5 & T5).
  set (y6 := mkSync (y_tasks y5) (apply_tasks_applied (good_receipt revision fresh n) 0 (y_row y5)) (y_conn y5) (y_wire y5) (y_store y5) []
               (y_used y5) (y_done y5) (y_last y5)).
  assert (H56 : step y5 y6) by (by apply step_receive).
  exists y6. split.
  { etrans; [exact H12|]. etrans; [exact H23|]. eapply rtc_l; [exact H34|]. eapply rtc_l; [exact H45|]. by apply rtc_once. }
  cbn [y6 y_row y_tasks y_store]. rewrite good_receipt_finishes, Row5, E4, T5, S5, Hspec, Ht3 by done.
  cbn [y_row]. unfold finish_task_sync, begin_task_sync. cbn [ar_revision ar_sync ar_status].
  rewrite !bool_decide_eq_true_2 by done. by split_and!.
Qed.

(** A task runs on one agent at most, and on none when its device name is
    ambiguous and it says nothing else. *)
Lemma one_owner a b tasks devices t : t ∈ owned a tasks devices -> t ∈ owned b tasks devices -> a = b.
Proof. intros [Ha _]%list_elem_of_filter [Hb _]%list_elem_of_filter. congruence. Qed.
End Sync.

(** ** Witnesses *)

Definition sample_columns (f : frame) : TaskSpec :=
  let text k := default [] (as_str (jget k f)) in
  mkTaskSpec (text "device"%string) (text "name"%string) (truthy (jget "enabled" f)) (text "action"%string)
    (text "target_number"%string) (text "content"%string) (text "schedule_type"%string) (text "schedule_expr"%string)
    (default 0 (as_int (jget "jitter_seconds" f))) (truthy (jget "random_suffix" f))
    (default 0 (as_int (jget "retry_max" f))) (truthy (jget "notify_on_result" f)).
(** Not a hash: 64 digits that depend on the number of tasks. *)
Definition sample_revision (v : json) : pystr :=
  match v with JArr l => (48 + Z.of_nat (length l)) :: repeat 97 63 | _ => repeat 97 64 end.
Definition sample_task : server_task :=
  mkServerTask 1 (str "home") None
    (mkTaskSpec (str "sim1") (str "alive") true (str "send_sms") (str "10086") (str "1") (str "interval") (str "25") 0 true 3 true).
Definition sample_tasks : list json := tasks_for (str "home") [sample_task] [].
Definition sample_id : pystr := repeat 98 32.

Definition configured : sync_system :=
  mkSync sample_tasks new_agent_row (Some []) [] (open_store (str "s1") fresh_db) [] ∅ [] None.

Lemma configured_reachable : rtc (step sample_revision sample_columns 100) (initial (str "s1")) configured.
Proof.
  eapply rtc_l; [apply (step_edit sample_revision sample_columns 100 sample_tasks)|].
  apply rtc_once. apply step_connect.
Defined.

Lemma task_sync_converges_witness :
  exists y', rtc (step sample_revision sample_columns 100) configured y' /\ ar_status (y_row y') = SyncApplied
  /\ specs (y_store y') = specs_of sample_columns sample_tasks /\ specs (y_store y') = {[ 1 := st_spec sample_task ]}.
Proof.
  destruct (task_sync_converges sample_revision sample_columns 100 (str "s1") configured sample_id configured_reachable)
    as (y' & H & _ & Ha & _ & Hs).
  - by eexists.
  - by apply not_elem_of_empty.
  - vm_compute. reflexivity.
  - intros s. eexists _, _. reflexivity.
  - exists y'. split; [exact H|]. split; [exact Ha|]. split; [exact Hs|]. rewrite Hs. vm_compute. reflexivity.
Defined.

(** Pushed, applied and acknowledged. *)
Definition pushed : sync_system :=
  push sample_revision true 5 [] sample_id configured [sync_frame sample_tasks (sample_revision (JArr sample_tasks)) sample_id].
Definition handled : sync_system :=
  agent_handles sample_revision sample_columns 100 (sync_frame sample_tasks (sample_revision (JArr sample_tasks)) sample_id) pushed [].
Definition acknowledged : sync_system :=
  mkSync (y_tasks handled) (apply_tasks_applied (good_receipt (sample_revision (JArr sample_tasks)) sample_id 1) 6 (y_row handled))
    (y_conn handled) (y_wire handled) (y_store handled) [] (y_used handled) (y_done handled) (y_last handled).

Lemma applied_means_stored_witness :
  ar_status (y_row acknowledged) = SyncApplied /\ y_last acknowledged = Some sample_id
  /\ exists ts, specs (y_store acknowledged) = specs_of sample_columns ts.
Proof.
  assert (H : rtc (step sample_revision sample_columns 100) (initial (str "s1")) acknowledged).
  { etrans; [exact configured_reachable|]. eapply rtc_l; [apply (step_push sample_revision sample_columns 100 true 5 [] sample_id configured
      [sync_frame sample_tasks (sample_revision (JArr sample_tasks)) sample_id]); [reflexivity|done|by apply not_elem_of_empty|by left]|].
    eapply rtc_l; [apply (step_handle sample_revision sample_columns 100 (sync_frame sample_tasks (sample_revision (JArr sample_tasks)) sample_id) [] pushed); vm_compute; reflexivity|].
    apply rtc_once. apply (step_receive sample_revision sample_columns 100 6 (good_receipt (sample_revision (JArr sample_tasks)) sample_id 1) [] handled).
    vm_compute. reflexivity. }
  split; [vm_compute; reflexivity|]. split; [vm_compute; reflexivity|].
  destruct (applied_means_stored sample_revision sample_columns 100 (str "s1") acknowledged H) as (_ & _ & [Hl|(ts & _ & _ & Hs)]);
    [vm_compute; reflexivity|vm_compute in Hl; discriminate Hl|by exists ts].
Defined.
End TaskSync.
