(* ===== verification/AtErrors.v ===== *)
(** * AT failures (agent/src/air780e_agent/at/errors.py)

    The named +CME and +CMS codes and the recovery of a code from a text-mode
    answer. *)

From S2P Require Import Prelude PyText.

(** ** Case

    Only ASCII text is compared, so of the other characters just those whose
    upper or folded form has ASCII letters in it matter; the rest keep a form
    outside ASCII and stand for themselves. *)

Definition UPPER_SPECIAL : list (Z * pystr) :=
  [(0xDF, str "SS"); (0x131, str "I"); (0x149, 0x2BC :: str "N"); (0x17F, str "S"); (0x1F0, str "J" ++ [0x30C]);
   (0x1E96, str "H" ++ [0x331]); (0x1E97, str "T" ++ [0x308]); (0x1E98, str "W" ++ [0x30A]);
   (0x1E99, str "Y" ++ [0x30A]); (0x1E9A, str "A" ++ [0x2BE]);
   (0xFB00, str "FF"); (0xFB01, str "FI"); (0xFB02, str "FL"); (0xFB03, str "FFI"); (0xFB04, str "FFL");
   (0xFB05, str "ST"); (0xFB06, str "ST")].

Definition FOLD_SPECIAL : list (Z * pystr) :=
  [(0xDF, str "ss"); (0x130, str "i" ++ [0x307]); (0x149, 0x2BC :: str "n"); (0x17F, str "s"); (0x1F0, str "j" ++ [0x30C]);
   (0x1E96, str "h" ++ [0x331]); (0x1E97, str "t" ++ [0x308]); (0x1E98, str "w" ++ [0x30A]);
   (0x1E99, str "y" ++ [0x30A]); (0x1E9A, str "a" ++ [0x2BE]); (0x1E9E, str "ss"); (0x212A, str "k");
   (0xFB00, str "ff"); (0xFB01, str "fi"); (0xFB02, str "fl"); (0xFB03, str "ffi"); (0xFB04, str "ffl");
   (0xFB05, str "st"); (0xFB06, str "st")].

Definition in_table (c : Z) (t : list (Z * pystr)) : option pystr :=
  snd <$> List.find (fun e => e.1 =? c) t.

(** [s.upper()] *)
Definition py_upper (s : pystr) : pystr :=
  mjoin ((fun c => if c <? 128 then [upper_ascii c] else default [c] (in_table c UPPER_SPECIAL)) <$> s).

Definition lower_ascii (c : Z) : Z := if (65 <=? c) && (c <=? 90) then c + 32 else c.

(** [s.casefold()] *)
Definition py_casefold (s : pystr) : pystr :=
  mjoin ((fun c => if c <? 128 then [lower_ascii c] else default [c] (in_table c FOLD_SPECIAL)) <$> s).

(** ** Codes *)

Definition CME_ERRORS : list (Z * string) :=
  [(3, "operation not allowed"); (4, "operation not supported"); (10, "SIM not inserted");
   (11, "SIM PIN required"); (12, "SIM PUK required"); (13, "SIM failure");
   (14, "SIM busy"); (15, "SIM wrong"); (16, "incorrect password");
   (20, "memory full"); (21, "invalid index"); (22, "not found");
   (23, "memory failure"); (30, "no network service"); (31, "network timeout");
   (50, "incorrect parameters"); (100, "unknown")].

Definition CMS_ERRORS : list (Z * string) :=
  [(28, "unidentified subscriber"); (30, "unknown subscriber"); (38, "network out of order");
   (41, "temporary failure"); (42, "congestion"); (47, "resources unavailable");
   (50, "requested facility not subscribed"); (69, "requested facility not implemented"); (81, "invalid short message transfer reference value");
   (95, "invalid message, unspecified"); (96, "invalid mandatory information"); (128, "telephony interworking not supported");
   (129, "short message type 0 not supported"); (159, "unspecified TP-PID error"); (172, "SIM SMS storage full");
   (177, "memory capacity exceeded"); (255, "unspecified error"); (300, "ME failure");
   (302, "operation not allowed"); (304, "invalid PDU mode parameter"); (305, "invalid text mode parameter");
   (310, "SIM not inserted"); (311, "SIM PIN required"); (313, "SIM failure");
   (321, "invalid memory index"); (322, "SIM memory full"); (330, "SMSC address unknown");
   (331, "no network service"); (332, "network timeout"); (500, "unknown error")].

Definition normalize (text : pystr) : pystr :=
  py_casefold (rstrip_by (fun c => c =? 46) (py_join [32] (split_ws text))).

(** [{_normalize(name): code for code, name in ...}.get(key)]: the last of equal
    names wins. *)
Definition code_named (key : pystr) (t : list (Z * string)) : option Z :=
  fst <$> last (filter (fun e => normalize (str e.2) = key) t).

Definition code_for_error_text (cms : bool) (text : pystr) : option Z :=
  code_named (normalize text) (if cms then CMS_ERRORS else CME_ERRORS).

Inductive at_error :=
| CmeError (code : Z)
| CmsError (code : Z)
| ATCommandError (message : pystr)
| ATTimeout (message : pystr)
| TransportClosed (message : pystr)
| PortLost (reason : pystr).      (* whatever the transport reported *)

(** [ATCommandError.final] *)
Definition final_of (message : pystr) : pystr := py_upper (strip message).

(** [CME_ERRORS.get(code, "unknown")] *)
Definition code_name (code : Z) (t : list (Z * string)) : pystr :=
  str (match List.find (fun e => e.1 =? code) t with Some e => e.2 | None => "unknown" end).

(** What [str] makes of the exception; [command] is the one it was raised with. *)
Definition error_message (e : at_error) : pystr :=
  match e with
  | CmeError n => str "+CME ERROR " ++ decimal n ++ str " (" ++ code_name n CME_ERRORS ++ str ")"
  | CmsError n => str "+CMS ERROR " ++ decimal n ++ str " (" ++ code_name n CMS_ERRORS ++ str ")"
  | ATCommandError m | ATTimeout m | TransportClosed m | PortLost m => m
  end.

Definition error_text (command : option pystr) (e : at_error) : pystr :=
  match command with
  | Some ((_ :: _) as c) => c ++ str ": " ++ error_message e
  | _ => error_message e
  end.
