(* ===== verification/AtClient.v ===== *)
(** * The AT command client (agent/src/air780e_agent/at/client.py)

    What the reader callback makes of the bytes of the port, and one command
    from its request to its final result code.  The registered handlers are
    known by their registration; calling one is an effect the step returns.
    The lock admits one [execute] at a time, so a command starts when none is
    pending; waiting is the interleaving of the steps. *)

From S2P Require Import Prelude PyText AtErrors.

Module ATClient.

(** ** UTF-8 with errors="replace" *)

Definition REPLACEMENT : Z := 0xFFFD.

(** What a start byte leaves: a character, or the bits so far and the ranges of
    the bytes to come. *)
Definition cont : Z * Z := (0x80, 0xBF).
Definition utf8_start (b : Z) : Z + (Z * list (Z * Z)) :=
  if b <=? 0x7F then inl b
  else if (0xC2 <=? b) && (b <=? 0xDF) then inr (Z.land b 0x1F, [cont])
  else if b =? 0xE0 then inr (Z.land b 0x0F, [(0xA0, 0xBF); cont])
  else if b =? 0xED then inr (Z.land b 0x0F, [(0x80, 0x9F); cont])
  else if (0xE1 <=? b) && (b <=? 0xEF) then inr (Z.land b 0x0F, [cont; cont])
  else if b =? 0xF0 then inr (Z.land b 0x07, [(0x90, 0xBF); cont; cont])
  else if (0xF1 <=? b) && (b <=? 0xF3) then inr (Z.land b 0x07, [cont; cont; cont])
  else if b =? 0xF4 then inr (Z.land b 0x07, [(0x80, 0x8F); cont; cont])
  else inl REPLACEMENT.

Fixpoint utf8_from (st : option (Z * list (Z * Z))) (bs : pybytes) : pystr :=
  match bs with
  | [] => match st with Some _ => [REPLACEMENT] | None => [] end
  | b :: bs =>
      let start := match utf8_start b with
                   | inl c => c :: utf8_from None bs
                   | inr st => utf8_from (Some st) bs
                   end in
      match st with
      | Some (acc, (lo, hi) :: rest) =>
          if (lo <=? b) && (b <=? hi)
          then let acc := Z.lor (Z.shiftl acc 6) (Z.land b 0x3F) in
               match rest with
               | [] => acc :: utf8_from None bs
               | _ => utf8_from (Some (acc, rest)) bs
               end
          else REPLACEMENT :: start
      | _ => start
      end
  end.

(** [raw.decode("utf-8", errors="replace")] *)
Definition utf8_decode (bs : pybytes) : pystr := utf8_from None bs.

(** ** Data *)

Record ATResponse := mkResponse { command : pystr; lines : list pystr; final : pystr }.

Definition has_prefix (prefix line : pystr) : bool := starts_with (py_upper prefix) (py_upper line).

Definition all_values (prefix : pystr) (r : ATResponse) : list pystr :=
  (fun l => strip (drop (length prefix) l)) <$> filter (fun l => has_prefix prefix l = true) (lines r).

Definition first_value (prefix : pystr) (r : ATResponse) : option pystr := head_of (all_values prefix r).

Record ATUrc := mkUrc { u_name : pystr; u_params : pystr; u_payload : list pystr }.

Record Registration := mkReg { prefix : pystr; payload_lines : Z }.

Record Pending := mkPending {
  p_command : pystr; p_result : option (res at_error ATResponse);   (* the future *)
  p_lines : list pystr; p_prompt : bool; p_expected : option pystr }.

Record ATClient := mkClient {
  pending : option Pending; registrations : list Registration; buffer : pybytes;
  urc_capture : option (Registration * ATUrc); closed : bool; lost_reason : option at_error }.

Inductive effect := Dispatch (r : Registration) (u : ATUrc) | Write (data : pystr).

Definition new_client : ATClient := mkClient None [] [] None false None.

Definition set_pending (p : option Pending) (c : ATClient) : ATClient :=
  mkClient p (registrations c) (buffer c) (urc_capture c) (closed c) (lost_reason c).
Definition set_buffer (b : pybytes) (c : ATClient) : ATClient :=
  mkClient (pending c) (registrations c) b (urc_capture c) (closed c) (lost_reason c).
Definition set_capture (k : option (Registration * ATUrc)) (c : ATClient) : ATClient :=
  mkClient (pending c) (registrations c) (buffer c) k (closed c) (lost_reason c).

(** [if not future.done(): future.set_...] *)
Definition complete_with (r : res at_error ATResponse) (p : Pending) : Pending :=
  mkPending (p_command p) (Some (default r (p_result p))) (p_lines p) (p_prompt p) (p_expected p).

Definition add_line (l : pystr) (p : Pending) : Pending :=
  mkPending (p_command p) (p_result p) (p_lines p ++ [l]) (p_prompt p) (p_expected p).

(** ** Recognising lines *)

(** [[A-Z0-9]] under re.I: four non-ASCII letters fold into the range. *)
Definition name_char (c : Z) : bool :=
  ((65 <=? c) && (c <=? 90)) || ((97 <=? c) && (c <=? 122)) || ((48 <=? c) && (c <=? 57))
  || bool_decide (c ∈ [0x130; 0x131; 0x17F; 0x212A]).

Fixpoint take_while (p : Z -> bool) (s : pystr) : pystr :=
  match s with c :: s => if p c then c :: take_while p s else [] | [] => [] end.

(** [^AT(\+[A-Z0-9]+)] *)
Definition expected_response_prefix (command : pystr) : option pystr :=
  match strip command with
  | a :: t :: 43 :: rest =>
      if (upper_ascii a =? 65) && (upper_ascii t =? 84) then
        match take_while name_char rest with
        | [] => None
        | name => Some (py_upper (43 :: name))
        end
      else None
  | _ => None
  end.

(** A literal under re.I: the long s matches S. *)
Definition ci_char (p c : Z) : bool := (upper_ascii c =? p) || ((p =? 83) && (c =? 0x17F)).

Fixpoint ci_prefix (p s : pystr) : option pystr :=
  match p, s with
  | [], _ => Some s
  | x :: p, c :: s => if ci_char x c then ci_prefix p s else None
  | _ :: _, [] => None
  end.

(** [^\+CME ERROR:\s*] and [^\+CMS ERROR:\s*]: what follows the colon. *)
Definition after_error (cms : bool) (line : pystr) : option pystr :=
  ci_prefix (if cms then str "+CMS ERROR:" else str "+CME ERROR:") line.

(** [\s*(\d+)] *)
Definition error_number (s : pystr) : option Z :=
  match take_while is_decimal (lstrip_by is_space s) with
  | [] => None
  | ds => py_int ds
  end.

(** [\s*(.+)$]: the blanks give one back when nothing else is left. *)
Definition error_text (s : pystr) : option pystr :=
  match lstrip_by is_space s, last s with
  | [], None => None
  | [], Some c => Some [c]
  | t, _ => Some t
  end.

Definition FINAL_PLAIN_ERRORS : list pystr :=
  [str "ERROR"; str "NO CARRIER"; str "NO DIALTONE"; str "NO ANSWER"; str "BUSY"; str "ABORTED";
   str "COMMAND NOT SUPPORT"].

Definition text_error (cms : bool) (line s : pystr) : option at_error :=
  t ← error_text s;
  Some (match code_for_error_text cms t with
        | None => ATCommandError line
        | Some code => if cms then CmsError code else CmeError code
        end).

(** The result a line ends a command with: [None] if it is not final. *)
Definition final_result (line : pystr) (p : Pending) : option (res at_error ATResponse) :=
  let cme := after_error false line in
  let cms := after_error true line in
  if bool_decide (py_upper line = str "OK") then Some (Ok (mkResponse (p_command p) (p_lines p) line))
  else
    match (s ← cme; error_number s), (s ← cms; error_number s),
          (s ← cme; text_error false line s), (s ← cms; text_error true line s) with
    | Some n, _, _, _ => Some (Err (CmeError n))
    | None, Some n, _, _ => Some (Err (CmsError n))
    | None, None, Some e, _ => Some (Err e)
    | None, None, None, Some e => Some (Err e)
    | None, None, None, None =>
        if bool_decide (py_upper line ∈ FINAL_PLAIN_ERRORS) then Some (Err (ATCommandError line)) else None
    end.

Definition is_boundary (c : Z) : bool := (c =? 58) || (c =? 32) || (c =? 44).

Definition urc_matches (line : pystr) (r : Registration) : bool :=
  starts_with (prefix r) (py_upper line) &&
  match drop (length (prefix r)) (py_upper line) with
  | [] => true
  | c :: _ => is_boundary c
  end.

Definition match_urc (line : pystr) (c : ATClient) : option Registration :=
  List.find (urc_matches line) (registrations c).

Definition register_urc (p : pystr) (n : Z) (c : ATClient) : ATClient :=
  mkClient (pending c) (registrations c ++ [mkReg (py_upper p) n]) (buffer c) (urc_capture c) (closed c) (lost_reason c).

(** ** Reading *)

Definition parse_urc (line : pystr) : ATUrc :=
  let '(name, params) := partition_on 58 line in mkUrc (strip name) (strip params) [].

Definition owns (line : pystr) (p : Pending) : bool :=
  match p_expected p with Some e => starts_with (e ++ [58]) (py_upper line) | None => false end.

Definition handle_line (line : pystr) (c : ATClient) : list effect * ATClient :=
  match urc_capture c with
  | Some (reg, urc) =>
      let urc := mkUrc (u_name urc) (u_params urc) (u_payload urc ++ [line]) in
      if payload_lines reg <=? Z.of_nat (length (u_payload urc))
      then ([Dispatch reg urc], set_capture None c)
      else ([], set_capture (Some (reg, urc)) c)
  | None =>
      match pending c with
      | Some p =>
          if owns line p then ([], set_pending (Some (add_line line p)) c)
          else
            match match_urc line c with
            | Some reg =>
                if 0 <? payload_lines reg then ([], set_capture (Some (reg, parse_urc line)) c)
                else ([Dispatch reg (parse_urc line)], c)
            | None =>
                if bool_decide (line = p_command p) then ([], c)
                else match final_result line p with
                     | Some r => ([], set_pending (Some (complete_with r p)) c)
                     | None => ([], set_pending (Some (add_line line p)) c)
                     end
            end
      | None =>
          match match_urc line c with
          | Some reg =>
              if 0 <? payload_lines reg then ([], set_capture (Some (reg, parse_urc line)) c)
              else ([Dispatch reg (parse_urc line)], c)
          | None => ([], c)
          end
      end
  end.

(** The complete lines of the buffer, and what follows the last newline. *)
Fixpoint cut_lines (bs : pybytes) : list pybytes * pybytes :=
  match bs with
  | [] => ([], [])
  | b :: bs =>
      let '(ls, rest) := cut_lines bs in
      if b =? 10 then ([b] :: ls, rest)
      else match ls with
           | [] => ([], b :: rest)
           | l :: ls => ((b :: l) :: ls, rest)
           end
  end.

Definition is_crlf (c : Z) : bool := (c =? 13) || (c =? 10).

(** [.decode(...).strip("\r\n")] *)
Definition line_of (raw : pybytes) : pystr := rstrip_by is_crlf (lstrip_by is_crlf (utf8_decode raw)).

(** Empty lines are skipped. *)
Definition handle_raw (raw : pybytes) (c : ATClient) : list effect * ATClient :=
  match line_of raw with [] => ([], c) | line => handle_line line c end.

Fixpoint handle_lines (raws : list pybytes) (c : ATClient) : list effect * ATClient :=
  match raws with
  | [] => ([], c)
  | raw :: raws =>
      let '(es1, c) := handle_raw raw c in
      let '(es2, c) := handle_lines raws c in
      (es1 ++ es2, c)
  end.

(** [tail.rstrip(b" ").endswith(b">") or tail.endswith(b"> ")] *)
Definition is_prompt (tail : pybytes) : bool :=
  bool_decide (last (rstrip_by (fun b => b =? 32) tail) = Some 62)
  || starts_with [32; 62] (rev tail).

(** The "> " prompt has no line terminator. *)
Definition check_prompt (c : ATClient) : ATClient :=
  match pending c with
  | Some p =>
      if negb (p_prompt p) && is_prompt (buffer c)
      then set_pending (Some (mkPending (p_command p) (p_result p) (p_lines p) true (p_expected p))) (set_buffer [] c)
      else c
  | None => c
  end.

Definition feed (data : pybytes) (c : ATClient) : list effect * ATClient :=
  match data with
  | [] => ([], c)
  | _ =>
      let '(raws, rest) := cut_lines (buffer c ++ data) in
      let '(es, c) := handle_lines raws (set_buffer rest c) in
      (es, check_prompt c)
  end.

(** ** Losing the port *)

Definition fail_pending (e : at_error) (c : ATClient) : ATClient :=
  set_pending (complete_with (Err e) <$> pending c) c.

Definition close (c : ATClient) : ATClient :=
  fail_pending (TransportClosed (str "closed"))
    (mkClient (pending c) (registrations c) (buffer c) (urc_capture c) true (lost_reason c)).

Definition on_transport_closed (exc : option at_error) (c : ATClient) : ATClient :=
  match lost_reason c with
  | Some _ => c
  | None =>
      let reason := default (TransportClosed (str "closed")) exc in
      fail_pending reason
        (mkClient (pending c) (registrations c) (buffer c) (urc_capture c) true (Some reason))
  end.

Definition open (c : ATClient) : ATClient :=
  mkClient (pending c) (registrations c) (buffer c) (urc_capture c) false None.

(** ** One command *)

(** [execute] up to its first wait, under the lock. *)
Definition execute_begin (command : pystr) (c : ATClient) : res at_error (list effect * ATClient) :=
  if closed c then Err (TransportClosed (str "is closed"))
  else Ok ([Write (command ++ [13])],
           set_pending (Some (mkPending command None [] false (expected_response_prefix command))) c).

(** The prompt has come: the body is written. *)
Definition send_payload (payload : option pystr) (c : ATClient) : option (list effect) :=
  p ← pending c;
  if p_prompt p then Some (match payload with Some d => [Write d] | None => [] end) else None.

(** The end of the wait: what [execute] returns or raises, and its [finally].
    [timed_out] is the timeout's verdict, which an already done future beats. *)
Definition execute_end (timed_out : option at_error) (c : ATClient) : option (res at_error ATResponse * ATClient) :=
  p ← pending c;
  r ← (match p_result p with Some r => Some r | None => Err <$> timed_out end);
  Some (r, set_capture None (set_pending None c)).

(** ** Cutting lines *)

Lemma cut_lines_app a b :
  cut_lines (a ++ b) =
    ((cut_lines a).1 ++ (cut_lines ((cut_lines a).2 ++ b)).1, (cut_lines ((cut_lines a).2 ++ b)).2).
Proof.
  induction a as [|x a IH]; simpl; [by destruct (cut_lines b)|]. rewrite IH.
  destruct (cut_lines a) as [[|l ls] r]; cbn [fst snd app]; destruct (Z.eqb_spec x 10) as [->|Hx]; cbn [fst snd app].
  - done.
  - cbn [cut_lines]. destruct (cut_lines (r ++ b)) as [ls2 r2]; cbn [fst snd].
    destruct (Z.eqb_spec x 10); [done|]. by destruct ls2.
  - done.
  - done.
Qed.

Lemma cut_lines_rest a : cut_lines (cut_lines a).2 = ([], (cut_lines a).2).
Proof.
  assert (E := cut_lines_app a []). rewrite !app_nil_r in E.
  destruct (cut_lines a) as [l1 r1]. cbn [fst snd] in *. injection E as E1 E2.
  destruct (cut_lines r1) as [l2 r2]. cbn [fst snd] in *.
  rewrite <- (app_nil_r l1) in E1 at 1. apply app_inv_head in E1. by rewrite <- E1, E2.
Qed.

Lemma cut_line_crlf l : Forall (fun b => b <> 10) l -> cut_lines (l ++ [13; 10]) = ([l ++ [13; 10]], []).
Proof.
  induction 1 as [|b l Hb _ IH]; [done|]. cbn [app cut_lines]. rewrite IH. by destruct (Z.eqb_spec b 10).
Qed.

Lemma handle_lines_app a b c :
  handle_lines (a ++ b) c =
    let '(es1, c1) := handle_lines a c in let '(es2, c2) := handle_lines b c1 in (es1 ++ es2, c2).
Proof.
  revert c. induction a as [|l a IH]; intros c; cbn [app handle_lines]; [by destruct (handle_lines b c)|].
  destruct (handle_raw l c) as [es1 c1]. rewrite IH.
  destruct (handle_lines a c1) as [es2 c2]. destruct (handle_lines b c2) as [es3 c3]. by rewrite app_assoc.
Qed.

(** Lines are handled without a look at the buffer. *)
Definition with_buffer (b : pybytes) (r : list effect * ATClient) : list effect * ATClient := (r.1, set_buffer b r.2).

Lemma set_buffer_twice b b' c : set_buffer b (set_buffer b' c) = set_buffer b c.
Proof. done. Qed.

Lemma handle_line_buffer l b c : handle_line l (set_buffer b c) = with_buffer b (handle_line l c).
Proof.
  unfold handle_line, with_buffer. cbn [urc_capture pending set_buffer].
  destruct (urc_capture c) as [[reg urc]|]; [by case_match|].
  change (match_urc l (set_buffer b c)) with (match_urc l c).
  destruct (pending c) as [p|]; [destruct (owns l p); [done|]|]; destruct (match_urc l c) as [reg|]; try (by case_match); try done.
  case_bool_decide; [done|]. by destruct (final_result l p).
Qed.

Lemma handle_lines_buffer ls b : forall c, handle_lines ls (set_buffer b c) = with_buffer b (handle_lines ls c).
Proof.
  induction ls as [|l ls IH]; intros c; cbn [handle_lines]; [done|].
  assert (E : handle_raw l (set_buffer b c) = with_buffer b (handle_raw l c)).
  { unfold handle_raw. destruct (line_of l); [done|]. apply handle_line_buffer. }
  rewrite E. destruct (handle_raw l c) as [es c']. unfold with_buffer at 1. cbn [fst snd].
  rewrite IH. by destruct (handle_lines ls c').
Qed.

(** ** The prompt *)

(** No command is waiting for a prompt. *)
Definition unprompted (c : ATClient) : Prop := forall p, pending c = Some p -> p_prompt p = true.

Lemma handle_line_unprompted l c : unprompted c -> unprompted (handle_line l c).2.
Proof.
  unfold handle_line. intros H p. destruct (urc_capture c) as [[reg urc]|]; [case_match; apply H|].
  destruct (pending c) as [q|] eqn:E.
  - assert (Hq : p_prompt q = true) by by apply H.
    destruct (owns l q); [by intros [= <-]|]. destruct (match_urc l c) as [reg|]; [by case_match; apply H|].
    case_bool_decide; [apply H|]. by destruct (final_result l q); intros [= <-].
  - destruct (match_urc l c); [case_match|]; cbn [snd pending set_capture]; congruence.
Qed.

Lemma handle_lines_unprompted ls : forall c, unprompted c -> unprompted (handle_lines ls c).2.
Proof.
  induction ls as [|l ls IH]; intros c H; cbn [handle_lines]; [done|].
  assert (H' : unprompted (handle_raw l c).2).
  { unfold handle_raw. destruct (line_of l); [done|]. by apply handle_line_unprompted. }
  destruct (handle_raw l c) as [es c']. specialize (IH c' H'). by destruct (handle_lines ls c').
Qed.

Lemma check_prompt_none c : unprompted c -> check_prompt c = c.
Proof. intros H. unfold check_prompt. destruct (pending c) as [p|] eqn:E; [|done]. by rewrite (H p E). Qed.

(** What [feed] does when no prompt is awaited. *)
Lemma feed_unprompted data c : unprompted c ->
  feed data c =
    with_buffer (cut_lines (buffer c ++ data)).2 (handle_lines (cut_lines (buffer c ++ data)).1 c) \/ data = [].
Proof.
  intros H. destruct data as [|d data]; [by right|left]. unfold feed.
  destruct (cut_lines (buffer c ++ d :: data)) as [raws rest]. cbn [fst snd]. rewrite handle_lines_buffer.
  assert (Hu := handle_lines_unprompted raws c H). destruct (handle_lines raws c) as [es c']. unfold with_buffer. cbn [fst snd] in *.
  f_equal. by apply check_prompt_none.
Qed.
(** ** A response on the wire *)

(** A line of text, as the modem sends it. *)
Definition text_line (l : pystr) : Prop := l <> [] /\ Forall (fun c => 32 <= c < 127) l.
Definition wire (l : pystr) : pybytes := l ++ [13; 10].

Lemma utf8_ascii l : Forall (fun c => c < 128) l -> utf8_decode l = l.
Proof.
  unfold utf8_decode. induction 1 as [|b l Hb _ IH]; [done|]. cbn [utf8_from]. unfold utf8_start.
  destruct (Z.leb_spec b 0x7F); [by rewrite IH|lia].
Qed.

Lemma crlf_text c : 32 <= c < 127 -> is_crlf c = false.
Proof. unfold is_crlf. lia. Qed.

Lemma line_of_wire l : text_line l -> line_of (wire l) = l.
Proof.
  intros [Hne Hf]. unfold line_of, wire. rewrite utf8_ascii.
  2: { apply Forall_app. split; [eapply Forall_impl; [exact Hf|simpl; lia]|by repeat constructor]. }
  assert (E : lstrip_by is_crlf (l ++ [13; 10]) = l ++ [13; 10]).
  { destruct Hf as [|c l Hc Hf]; [done|]. cbn [app lstrip_by]. by rewrite crlf_text. }
  rewrite E. unfold rstrip_by. rewrite rev_app_distr. cbn [rev app lstrip_by].
  change (is_crlf 10) with true. change (is_crlf 13) with true. cbn iota.
  assert (E2 : lstrip_by is_crlf (rev l) = rev l).
  { assert (Hr : Forall (fun c => 32 <= c < 127) (rev l)) by (by apply Forall_rev).
    destruct Hr as [|c r Hc Hr]; [done|]. cbn [lstrip_by]. by rewrite crlf_text. }
  by rewrite E2, rev_involutive.
Qed.

Lemma handle_wire l c : text_line l -> handle_raw (wire l) c = handle_line l c.
Proof. intros Hl. unfold handle_raw. rewrite line_of_wire by done. by destruct Hl, l. Qed.

Lemma cut_wires ls : Forall text_line ls -> cut_lines (mjoin (wire <$> ls)) = (wire <$> ls, []).
Proof.
  induction 1 as [|l ls [_ Hl] _ IH]; [done|]. rewrite fmap_cons, mjoin_cons, cut_lines_app.
  assert (E : cut_lines (wire l) = ([wire l], [])).
  { apply cut_line_crlf. eapply Forall_impl; [exact Hl|simpl; lia]. }
  rewrite E. cbn [fst snd app]. by rewrite IH.
Qed.

(** What the modem may send while a command is under way: a line of its
    response, or an unsolicited one with the lines that belong to it. *)
Inductive item := Info (l : pystr) | Urc (reg : Registration) (l : pystr) (payload : list pystr).

Definition item_lines (i : item) : list pystr := match i with Info l => [l] | Urc _ l pl => l :: pl end.
Definition infos (is_ : list item) : list pystr := omap (fun i => match i with Info l => Some l | Urc _ _ _ => None end) is_.
Definition urcs (is_ : list item) : list effect :=
  omap (fun i => match i with
                 | Urc reg l pl => Some (Dispatch reg (mkUrc (u_name (parse_urc l)) (u_params (parse_urc l)) pl))
                 | Info _ => None
                 end) is_.

Section response.
Context (c : ATClient) (p : Pending).
Context (Hp : pending c = Some p) (Hc : urc_capture c = None).

(** A response line carries the command's own prefix, or is neither registered
    nor the echo nor final; an unsolicited one is registered and not the
    command's own. *)
Definition item_ok (i : item) : Prop :=
  match i with
  | Info l =>
      text_line l /\ (owns l p = true \/ match_urc l c = None /\ l <> p_command p /\ final_result l p = None)
  | Urc reg l pl =>
      text_line l /\ Forall text_line pl /\ owns l p = false /\ match_urc l c = Some reg /\
      Z.of_nat (length pl) = Z.max 0 (payload_lines reg)
  end.

(** The client after the lines [ls] of the response so far. *)
Definition after (ls : list pystr) : ATClient :=
  set_pending (Some (mkPending (p_command p) (p_result p) (p_lines p ++ ls) (p_prompt p) (p_expected p))) c.

Lemma final_result_none l ls :
  final_result l p = None ->
  final_result l (mkPending (p_command p) (p_result p) (p_lines p ++ ls) (p_prompt p) (p_expected p)) = None.
Proof. unfold final_result. by case_bool_decide. Qed.

Lemma info_step l ls : item_ok (Info l) -> handle_line l (after ls) = ([], after (ls ++ [l])).
Proof using Hp Hc.
  intros [_ H]. unfold handle_line. cbn [after set_pending urc_capture pending]. rewrite Hc.
  assert (E : set_pending (Some (add_line l (mkPending (p_command p) (p_result p) (p_lines p ++ ls) (p_prompt p) (p_expected p))))
    (after ls) = after (ls ++ [l])) by (unfold after, add_line; cbn; by rewrite app_assoc).
  change (owns l (mkPending _ _ _ _ _)) with (owns l p).
  destruct (owns l p); [by rewrite E|]. destruct H as [H|(H1 & H2 & H3)]; [done|].
  change (match_urc l (after ls)) with (match_urc l c). rewrite H1. cbn [p_command].
  rewrite bool_decide_eq_false_2 by done. rewrite final_result_none by done. by rewrite E.
Qed.

Lemma capture_steps reg name params d k pl : Forall text_line pl -> pl <> [] -> urc_capture d = None -> forall done_,
  Z.of_nat (length done_ + length pl) = payload_lines reg -> k = mkUrc name params done_ ->
  handle_lines (wire <$> pl) (set_capture (Some (reg, k)) d) = ([Dispatch reg (mkUrc name params (done_ ++ pl))], d).
Proof.
  intros Hpl Hne Hd. revert k. induction Hpl as [|l pl Hl Hpl IH]; intros k done_ Hlen ->; [done|].
  rewrite fmap_cons. cbn [handle_lines]. rewrite handle_wire by done. unfold handle_line. cbn [urc_capture set_capture].
  cbn [u_name u_params u_payload]. rewrite length_app. cbn [length] in *.
  destruct pl as [|l2 pl].
  - destruct (Z.leb_spec (payload_lines reg) (Z.of_nat (length done_ + 1))); [|simpl in *; lia].
    unfold set_capture. destruct d; simpl in *; by subst.
  - destruct (Z.leb_spec (payload_lines reg) (Z.of_nat (length done_ + 1))); [simpl in *; lia|].
    change (set_capture ?x (set_capture _ d)) with (set_capture x d).
    rewrite (IH ltac:(done) (mkUrc name params (done_ ++ [l])) (done_ ++ [l])).
    + by rewrite <- app_assoc.
    + rewrite length_app. simpl in *. lia.
    + done.
Qed.

Lemma urc_step reg l pl ls :
  item_ok (Urc reg l pl) ->
  handle_lines (wire <$> l :: pl) (after ls) = (urcs [Urc reg l pl], after ls).
Proof using Hp Hc.
  intros (Hl & Hpl & Ho & Hm & Hlen). rewrite fmap_cons. cbn [handle_lines]. rewrite handle_wire by done.
  unfold handle_line. cbn [after set_pending urc_capture pending]. rewrite Hc.
  change (owns l (mkPending _ _ _ _ _)) with (owns l p). rewrite Ho.
  change (match_urc l (after ls)) with (match_urc l c). rewrite Hm.
  assert (Hpay : u_payload (parse_urc l) = []) by (unfold parse_urc; by destruct (partition_on 58 l)).
  assert (Eu : parse_urc l = mkUrc (u_name (parse_urc l)) (u_params (parse_urc l)) []) by (rewrite <- Hpay; by destruct (parse_urc l)).
  destruct (Z.ltb_spec 0 (payload_lines reg)).
  - rewrite (capture_steps reg (u_name (parse_urc l)) (u_params (parse_urc l)) _ _ pl Hpl) with (done_ := []).
    + done.
    + intros ->. simpl in *. lia.
    + done.
    + simpl. lia.
    + done.
  - destruct pl; [|simpl in *; lia]. cbn [fmap list_fmap handle_lines app]. by rewrite Eu at 1.
Qed.

Lemma items_steps is_ : Forall item_ok is_ -> forall ls,
  handle_lines (wire <$> mjoin (item_lines <$> is_)) (after ls) = (urcs is_, after (ls ++ infos is_)).
Proof using Hp Hc.
  induction 1 as [|i is_ Hi _ IH]; intros ls; [cbn; by rewrite app_nil_r|].
  rewrite fmap_cons, mjoin_cons, fmap_app, handle_lines_app. destruct i as [l|reg l pl].
  - cbn [item_lines fmap list_fmap handle_lines]. rewrite handle_wire by apply Hi. rewrite info_step by done.
    cbn [app]. rewrite IH. cbn. by rewrite <- app_assoc.
  - cbn [item_lines]. rewrite (urc_step reg l pl) by done. by rewrite IH.
Qed.

Lemma items_text is_ : Forall item_ok is_ -> Forall text_line (mjoin (item_lines <$> is_)).
Proof.
  induction 1 as [|i is_ Hi _ IH]; [by apply Forall_nil|]. rewrite fmap_cons, mjoin_cons. apply Forall_app. split; [|done].
  destruct i; simpl; [constructor; [apply Hi|by apply Forall_nil]|constructor; apply Hi].
Qed.
End response.
(** ** Results are final *)

Definition settled (r : res at_error ATResponse) (c : ATClient) : Prop :=
  exists p, pending c = Some p /\ p_result p = Some r.

Lemma complete_settled r r' p : p_result p = Some r -> p_result (complete_with r' p) = Some r.
Proof. unfold complete_with. cbn. by intros ->. Qed.

Lemma handle_line_settled r l c : settled r c -> settled r (handle_line l c).2.
Proof.
  intros (p & Hp & Hr). unfold handle_line. destruct (urc_capture c) as [[reg urc]|]; [by case_match; exists p|].
  rewrite Hp. destruct (owns l p); [by eexists|]. destruct (match_urc l c) as [reg|]; [by case_match; exists p|].
  case_bool_decide; [by exists p|]. destruct (final_result l p); [|by eexists].
  eexists. split; [done|by apply complete_settled].
Qed.

Lemma handle_lines_settled r ls : forall c, settled r c -> settled r (handle_lines ls c).2.
Proof.
  induction ls as [|l ls IH]; intros c H; cbn [handle_lines]; [done|].
  assert (H' : settled r (handle_raw l c).2).
  { unfold handle_raw. destruct (line_of l); [done|]. by apply handle_line_settled. }
  destruct (handle_raw l c) as [es c']. specialize (IH c' H'). by destruct (handle_lines ls c').
Qed.

Lemma feed_settled r data c : settled r c -> settled r (feed data c).2.
Proof.
  intros H. unfold feed. destruct data as [|d data]; [done|]. destruct (cut_lines _) as [raws rest].
  assert (H' := handle_lines_settled r raws (set_buffer rest c) H). destruct (handle_lines raws _) as [es c'].
  cbn [snd] in *. destruct H' as (p & Hp & Hr). unfold check_prompt. rewrite Hp. case_match; [by eexists|by exists p].
Qed.

Lemma fail_pending_settled r e c : settled r c -> settled r (fail_pending e c).
Proof. intros (p & Hp & Hr). unfold fail_pending. rewrite Hp. eexists. split; [done|by apply complete_settled]. Qed.

Lemma after_error_literal cms s :
  after_error cms (str (if cms then "+CMS ERROR: " else "+CME ERROR: ") ++ s) = Some (32 :: s).
Proof. by destruct cms. Qed.

(** ** Properties *)

(** *** Reads *)

(** The reads the port makes of what arrives, one after the other. *)
Fixpoint feed_all (reads : list pybytes) (c : ATClient) : list effect * ATClient :=
  match reads with
  | [] => ([], c)
  | d :: reads => let '(es, c1) := feed d c in let '(es', c2) := feed_all reads c1 in (es ++ es', c2)
  end.

Lemma cut_lines_sub l : forall x, x ∈ (cut_lines l).2 -> x ∈ l.
Proof.
  induction l as [|y l IH]; [done|]. cbn [cut_lines]. destruct (cut_lines l) as [ls r]. cbn [snd] in *. intros x Hx.
  destruct (y =? 10); [right; by apply IH|]. destruct ls; cbn [snd] in Hx; [|right; by apply IH].
  apply elem_of_cons in Hx as [->|Hx]; [left|right; by apply IH].
Qed.

Lemma no_prompt l : 62 ∉ l -> is_prompt l = false.
Proof.
  intros H. unfold is_prompt. apply orb_false_iff. split.
  - apply bool_decide_eq_false. intros E. apply H. apply last_Some in E as [k E]. unfold rstrip_by in E.
    destruct (lstrip_suffix (fun b => b =? 32) (rev l)) as [u Eu]. apply (f_equal (@rev Z)) in Eu.
    rewrite rev_involutive, rev_app_distr, E in Eu. rewrite Eu. set_solver.
  - unfold starts_with. apply bool_decide_eq_false. intros E. apply H, list_elem_of_In, in_rev, list_elem_of_In.
    rewrite <- (take_drop 2 (rev l)). change (length [32; 62]) with 2%nat in E. rewrite E. set_solver.
Qed.

(** A read without a ">" is only cut into lines. *)
Lemma feed_plain data c : data <> [] -> 62 ∉ buffer c ++ data ->
  feed data c = with_buffer (cut_lines (buffer c ++ data)).2 (handle_lines (cut_lines (buffer c ++ data)).1 c).
Proof.
  intros Hne Hd. unfold feed. destruct data as [|d data]; [done|]. pose proof (cut_lines_sub (buffer c ++ d :: data)) as Hsub.
  destruct (cut_lines (buffer c ++ d :: data)) as [raws rest]. cbn [fst snd] in *. rewrite handle_lines_buffer.
  destruct (handle_lines raws c) as [es c']. unfold with_buffer. cbn [fst snd]. f_equal.
  unfold check_prompt. cbn [set_buffer pending buffer]. destruct (pending c') as [p|]; [|done].
  rewrite no_prompt, andb_false_r; [done|]. intros H. by apply Hd, Hsub.
Qed.

(** The reads of a text without a ">" do what one read of it does. *)
Lemma feed_all_joined reads : forall c, cut_lines (buffer c) = ([], buffer c) -> 62 ∉ buffer c ++ mjoin reads ->
  feed_all reads c = feed (mjoin reads) c.
Proof.
  induction reads as [|d reads IH]; intros c Hb Hd; [done|]. cbn [feed_all]. rewrite mjoin_cons in *.
  destruct d as [|x d].
  { cbn [feed app] in *. rewrite (IH c Hb Hd). by destruct (feed (mjoin reads) c). }
  rewrite (feed_plain (x :: d) c) by set_solver. rewrite (feed_plain ((x :: d) ++ mjoin reads) c) by set_solver.
  rewrite app_assoc, (cut_lines_app (buffer c ++ x :: d)). cbn [fst snd].
  pose proof (cut_lines_rest (buffer c ++ x :: d)) as Hrest. pose proof (cut_lines_sub (buffer c ++ x :: d)) as Hsub.
  destruct (cut_lines (buffer c ++ x :: d)) as [l1 r1]. cbn [fst snd] in *. rewrite handle_lines_app. unfold with_buffer at 1.
  destruct (handle_lines l1 c) as [es1 c1]. cbn [fst snd]. rewrite (IH (set_buffer r1 c1)); [|done|cbn; set_solver].
  destruct (mjoin reads) as [|y rest] eqn:Ej.
  - cbn [feed]. rewrite (app_nil_r r1), Hrest. cbn [fst snd handle_lines]. unfold with_buffer. cbn. by rewrite !app_nil_r.
  - rewrite (feed_plain (y :: rest) (set_buffer r1 c1)) by (cbn; set_solver). cbn [set_buffer buffer].
    destruct (cut_lines (r1 ++ y :: rest)) as [l2 r2]. cbn [fst snd]. change (set_buffer r1 c1) with (set_buffer r1 c1).
    rewrite handle_lines_buffer. unfold with_buffer. cbn [fst snd]. by destruct (handle_lines l2 c1).
Qed.

(** C14 (functional): what a command's caller gets, and what the handlers get.
    On an idle open port the modem answers a command with lines of printable
    ASCII -- lines of the response, registered unsolicited codes with the lines
    these bring along -- in any order, and ends it with any final result,
    success or error, in as many reads as may be (where no line holds a ">",
    which at the end of a read is taken for a prompt; any line may in one
    read).  Then [execute] ends with exactly that result, and with the lines in
    order that carry the command's own prefix or are not registered; every
    other registered code is handed to its handler exactly once, with its
    payload.  A code that shares the command's own prefix cannot be told from
    the response and is part of it. *)
Theorem execute_collects_response command c is_ fin r reads :
  closed c = false -> pending c = None -> urc_capture c = None -> buffer c = [] ->
  let p := mkPending command None [] false (expected_response_prefix command) in
  Forall (item_ok (set_pending (Some p) c) p) is_ ->
  text_line fin -> owns fin p = false -> match_urc fin c = None -> command <> fin ->
  final_result fin (mkPending command None (infos is_) false (expected_response_prefix command)) = Some r ->
  mjoin reads = mjoin (wire <$> mjoin (item_lines <$> is_)) ++ wire fin ->
  length reads = 1%nat \/ 62 ∉ mjoin reads ->
  execute_begin command c = Ok ([Write (command ++ [13])], set_pending (Some p) c) /\
  exists c1 c2,
    feed_all reads (set_pending (Some p) c) = (urcs is_, c1) /\
    execute_end None c1 = Some (r, c2) /\
    pending c2 = None /\ urc_capture c2 = None /\ buffer c2 = [] /\ registrations c2 = registrations c.
Proof.
  intros Ho Hn Hcap Hb p Hi Hok Hown Hm Hc Hr Hj Hs. unfold execute_begin. rewrite Ho. split; [done|].
  set (c0 := set_pending (Some p) c) in *.
  assert (Hall : feed_all reads c0 = feed (mjoin reads) c0).
  { destruct Hs as [Hs|Hs]; [|apply feed_all_joined; [by rewrite (Hb : buffer c0 = [])|by rewrite (Hb : buffer c0 = [])]].
    destruct reads as [|d [|? ?]]; try done. cbn [feed_all]. rewrite mjoin_cons. cbn [mjoin list_join]. rewrite app_nil_r.
    destruct (feed d c0) as [es c1]. by rewrite app_nil_r. }
  rewrite Hall, Hj. clear Hall Hs Hj.
  assert (Hcut : cut_lines (mjoin (wire <$> mjoin (item_lines <$> is_)) ++ wire fin) =
    ((wire <$> mjoin (item_lines <$> is_)) ++ [wire fin], [])).
  { rewrite cut_lines_app, cut_wires by (by eapply items_text). cbn [fst snd app].
    pose proof (cut_wires [fin] (proj2 (Forall_singleton _ _) Hok)) as E. cbn in E. rewrite app_nil_r in E. by rewrite E. }
  assert (Ha : after c0 p [] = c0) by done.
  assert (Hls : handle_lines ((wire <$> mjoin (item_lines <$> is_)) ++ [wire fin]) c0 =
    (urcs is_, set_pending (Some (complete_with r (mkPending command None (infos is_) false (expected_response_prefix command)))) c0)).
  { rewrite handle_lines_app, <- Ha. rewrite (items_steps c0 p eq_refl Hcap is_ Hi). cbn [handle_lines].
    rewrite handle_wire by done. unfold handle_line. cbn [after set_pending urc_capture pending c0]. rewrite Hcap.
    change (owns fin (mkPending _ _ _ _ _)) with (owns fin p). rewrite Hown.
    change (match_urc fin (after c0 p ([] ++ infos is_))) with (match_urc fin c). rewrite Hm.
    cbn [p_command]. rewrite bool_decide_eq_false_2 by (cbn [p p_command]; congruence).
    change (mkPending (p_command p) (p_result p) (p_lines p ++ [] ++ infos is_) (p_prompt p) (p_expected p))
      with (mkPending command None (infos is_) false (expected_response_prefix command)). rewrite Hr. by rewrite app_nil_r. }
  unfold feed. destruct (mjoin (wire <$> mjoin (item_lines <$> is_)) ++ wire fin) as [|d data] eqn:Ed.
  { apply app_nil in Ed as [_ Ed]. unfold wire in Ed. by apply app_nil in Ed as [_ ?]. }
  rewrite <- Ed in *. change (buffer c0) with (buffer c). rewrite Hb. cbn [app]. rewrite Hcut.
  rewrite handle_lines_buffer, Hls. unfold with_buffer. cbn [fst snd].
  do 2 eexists. split; [done|]. unfold check_prompt, execute_end. cbn. by split_and!.
Qed.

(** How the port splits the bytes into reads does not matter
    unless a prompt is being waited for: two reads do what one read of their
    concatenation does. *)
Theorem reads_can_be_split a b c :
  unprompted c ->
  feed (a ++ b) c = let '(es1, c1) := feed a c in let '(es2, c2) := feed b c1 in (es1 ++ es2, c2).
Proof.
  intros Hu. destruct a as [|x a]; [cbn [feed app]; by destruct (feed b c)|].
  destruct (feed_unprompted (x :: a) c Hu) as [E1|]; [|done]. rewrite E1.
  destruct (feed_unprompted ((x :: a) ++ b) c Hu) as [E2|]; [|done]. rewrite E2. clear E1 E2.
  rewrite app_assoc, cut_lines_app. cbn [fst snd].
  assert (Hrest := cut_lines_rest (buffer c ++ x :: a)).
  destruct (cut_lines (buffer c ++ x :: a)) as [l1 r1]. cbn [fst snd] in *.
  assert (Hu1 := handle_lines_unprompted l1 c Hu). unfold with_buffer at 2.
  rewrite handle_lines_app. destruct (handle_lines l1 c) as [es1 c1]. cbn [fst snd] in *.
  destruct b as [|y b].
  - cbn [feed]. rewrite !app_nil_r, Hrest. cbn [fst snd handle_lines]. by rewrite app_nil_r.
  - destruct (feed_unprompted (y :: b) (set_buffer r1 c1)) as [E|]; [exact Hu1| |done]. rewrite E.
    cbn [set_buffer buffer]. destruct (cut_lines (r1 ++ y :: b)) as [l2 r2]. cbn [fst snd].
    rewrite handle_lines_buffer. by destruct (handle_lines l2 c1).
Qed.

(** A command ends once.  Its first final result code stands
    whatever arrives later, and losing the port ends a command still waiting at
    once, with the reason, while every later one is refused before anything is
    written. *)
Theorem result_stands_and_loss_ends c exc command :
  (forall r, settled r c -> forall data exc e,
     settled r (feed data c).2 /\ settled r (on_transport_closed exc c) /\ settled r (close c) /\
     fst <$> execute_end (Some e) c = Some r) /\
  (lost_reason c = None ->
     (forall p, pending c = Some p -> p_result p = None ->
        fst <$> execute_end None (on_transport_closed (Some exc) c) = Some (Err exc)) /\
     exists e, execute_begin command (on_transport_closed (Some exc) c) = Err e).
Proof.
  split.
  - intros r H data exc' e. split_and!; [by apply feed_settled| |by apply fail_pending_settled|].
    + unfold on_transport_closed. destruct (lost_reason c); [done|by apply fail_pending_settled].
    + destruct H as (p & Hp & Hr). unfold execute_end. by rewrite Hp; cbn; rewrite Hr.
  - intros Hl. unfold on_transport_closed. rewrite Hl. split.
    + intros p Hp Hr. unfold execute_end, fail_pending, complete_with. cbn. rewrite Hp. cbn. by rewrite Hr.
    + by eexists.
Qed.

(** Every named +CME and +CMS code is recovered from the text
    the firmware answers with in its place, so that a text-mode answer and a
    numeric one end a command with the same error. *)
Theorem error_text_recovers_code p :
  Forall (fun e => final_result (str "+CME ERROR: " ++ str e.2) p = Some (Err (CmeError e.1))) CME_ERRORS /\
  Forall (fun e => final_result (str "+CMS ERROR: " ++ str e.2) p = Some (Err (CmsError e.1))) CMS_ERRORS.
Proof. split; repeat (constructor; [by vm_compute|]); constructor. Qed.

(** A read that ends in ">" is taken for a prompt, and dropped, even when the
    command expects none: the rest of the line then starts in its middle. *)
Theorem partial_line_taken_for_prompt p data c :
  pending c = Some p -> p_prompt p = false -> urc_capture c = None -> buffer c = [] ->
  Forall (fun b => b <> 10) data ->
  feed (data ++ [62]) c =
    ([], set_pending (Some (mkPending (p_command p) (p_result p) (p_lines p) true (p_expected p))) (set_buffer [] c)).
Proof.
  intros Hp Hr Hc Hb Hd. unfold feed. rewrite Hb. cbn [app].
  assert (E : cut_lines (data ++ [62]) = ([], data ++ [62])).
  { induction Hd as [|b l Hb' _ IH]; [done|]. cbn [app cut_lines]. rewrite IH. by destruct (Z.eqb_spec b 10). }
  rewrite E. destruct (data ++ [62]) as [|d l] eqn:Ed; [by apply app_nil in Ed as [_ Ed]|]. rewrite <- Ed.
  cbn [handle_lines]. unfold check_prompt. cbn [set_buffer pending buffer]. rewrite Hp, Hr.
  unfold is_prompt, rstrip_by. rewrite rev_app_distr. cbn [rev app lstrip_by]. cbn.
  rewrite last_snoc. by rewrite bool_decide_eq_true_2.
Qed.

(** ** Concrete runs *)

Definition sample_client : ATClient := register_urc (str "+CMTI") 0 (register_urc (str "+CMT") 1 new_client).
Definition sample_items : list item :=
  [Info (str "+CSQ: 20,0"); Urc (mkReg (str "+CMT") 1) (str "+CMT: ,23") [str "0791"];
   Urc (mkReg (str "+CMTI") 0) (str "+CMTI: SM,3") []; Info (str "EXTRA")].

Ltac text_line := split; [done|decide_closed].

Definition sample_reads : list pybytes := [str "+CSQ: 2"; str "0,0" ++ [13; 10] ++ str "+CMT: ,23" ++ [13; 10] ++ str "07"; str "91" ++ [13; 10] ++
  str "+CMTI: SM,3" ++ [13; 10] ++ str "EXTRA" ++ [13; 10] ++ str "+CME ERROR: 10"; [13; 10]].

(** An answer in four reads that ends in an error. *)
Lemma execute_collects_response_witness :
  infos sample_items = [str "+CSQ: 20,0"; str "EXTRA"] /\
  exists c1 c2, feed_all sample_reads
      (set_pending (Some (mkPending (str "AT+CSQ") None [] false (expected_response_prefix (str "AT+CSQ")))) sample_client)
      = (urcs sample_items, c1) /\
    execute_end None c1 = Some (Err (CmeError 10), c2).
Proof.
  split; [done|].
  destruct (execute_collects_response (str "AT+CSQ") sample_client sample_items (str "+CME ERROR: 10") (Err (CmeError 10)) sample_reads)
    as (_ & c1 & c2 & H1 & H2 & _); try done.
  - repeat (apply Forall_cons; split); [| | | |by apply Forall_nil].
    + split; [text_line|by left].
    + split_and!; [text_line|apply Forall_singleton; text_line|done..].
    + split_and!; [text_line|by apply Forall_nil|done..].
    + split; [text_line|right; by vm_compute].
  - text_line.
  - right. decide_closed.
  - by exists c1, c2.
Defined.

(** The command's own code, unsolicited, is taken for its response. *)
Example own_code_is_a_response :
  owns (str "+CEREG: 5") (mkPending (str "AT+CEREG?") None [] false (expected_response_prefix (str "AT+CEREG?"))) = true.
Proof. by vm_compute. Qed.

Lemma reads_can_be_split_witness :
  (feed (wire (str "+CMT: ,23") ++ wire (str "0791")) sample_client).1 =
  [Dispatch (mkReg (str "+CMT") 1) (mkUrc (str "+CMT") (str ",23") [str "0791"])].
Proof. rewrite reads_can_be_split; [by vm_compute|done]. Defined.

Definition sample_busy : ATClient :=
  set_pending (Some (mkPending (str "AT+COPS=?") None [] false (Some (str "+COPS")))) sample_client.

Lemma result_stands_and_loss_ends_witness :
  fst <$> execute_end None (on_transport_closed (Some (PortLost (str "unplugged"))) sample_busy) =
    Some (Err (PortLost (str "unplugged"))) /\
  fst <$> execute_end (Some (ATTimeout (str "late"))) (feed (wire (str "+CME ERROR: 30")) sample_busy).2 =
    Some (Err (CmeError 30)).
Proof.
  split.
  - by eapply (proj1 (proj2 (result_stands_and_loss_ends sample_busy (PortLost (str "unplugged")) []) eq_refl)).
  - apply (proj1 (result_stands_and_loss_ends _ (PortLost (str "unplugged")) []) (Err (CmeError 30)));
      [|exact []|exact None]. eexists. by vm_compute.
Defined.

End ATClient.
