(* ===== verification/AtText.v ===== *)
(** * Reading the module's answers (agent/src/air780e_agent/modem.py)

    What the driver takes from the text of an answer: comma-separated fields
    ([_csv_fields], which is [csv.reader] on one line), leading numbers, and the
    operator lists of AT+COPS.  The regular expressions are written out as
    scans over the characters. *)

From S2P Require Import Prelude PyText PyDict AtErrors AtClient.

Module AtText.
Import ATClient.

(** ** Numbers *)

(** The characters [str.isdigit] accepts that are not decimal digits. *)
Definition DIGIT_RANGES : list (Z * Z) :=
  [(0xB2, 0xB3); (0xB9, 0xB9); (0x1369, 0x1371); (0x19DA, 0x19DA); (0x2070, 0x2070); (0x2074, 0x2079); (0x2080, 0x2089);
   (0x2460, 0x2468); (0x2474, 0x247C); (0x2488, 0x2490); (0x24EA, 0x24EA); (0x24F5, 0x24FD); (0x24FF, 0x24FF);
   (0x2776, 0x277E); (0x2780, 0x2788); (0x278A, 0x2792); (0x10A40, 0x10A43); (0x10E60, 0x10E68); (0x11052, 0x1105A);
   (0x1F100, 0x1F10A)].

(** [s.isdigit()] *)
Definition is_digit (s : pystr) : bool :=
  negb (bool_decide (s = []))
  && forallb (fun c => is_decimal c || existsb (fun r => (r.1 <=? c) && (c <=? r.2)) DIGIT_RANGES) s.

(** [re.match] of [\s*(\d+)]: the group. *)
Definition leading_digits (s : pystr) : option pystr :=
  match take_while is_decimal (lstrip_by is_space s) with [] => None | d => Some d end.

(** [re.findall] of [\d+] *)
Fixpoint digit_runs (cur : pystr) (s : pystr) : list pystr :=
  match s with
  | [] => match cur with [] => [] | _ => [cur] end
  | c :: s =>
      if is_decimal c then digit_runs (cur ++ [c]) s
      else match cur with [] => digit_runs [] s | _ => cur :: digit_runs [] s end
  end.

(** [int(d)] of a run of decimal digits. *)
Definition int_of_digits (d : pystr) : Z := default 0 (int_digits 0 true d).

Definition numbers (s : pystr) : list Z := int_of_digits <$> digit_runs [] s.

(** [re.match] of [\s*\d+\s*,\s*(\d+)]: the group. *)
Definition second_number (s : pystr) : option pystr :=
  match leading_digits s with
  | None => None
  | Some d =>
      match lstrip_by is_space (drop (length d) (lstrip_by is_space s)) with
      | 44 :: rest => leading_digits rest
      | _ => None
      end
  end.

(** The first text between two double quotes that is not empty. *)
Fixpoint quoted (s : pystr) : option pystr :=
  match s with
  | [] => None
  | c :: rest =>
      if c =? 34 then
        let name := take_while (fun c => negb (c =? 34)) rest in
        match name, drop (length name) rest with
        | _ :: _, 34 :: _ => Some name
        | _, _ => quoted rest
        end
      else quoted rest
  end.

(** [str.replace] of [pat] with nothing: a text that is not empty, cut out
    wherever it stands. *)
Fixpoint cut_out (pat : pystr) (skip : nat) (s : pystr) : pystr :=
  match s with
  | [] => []
  | c :: rest =>
      match skip with
      | S k => cut_out pat k rest
      | O => if starts_with pat s then cut_out pat (length pat - 1) rest else c :: cut_out pat O rest
      end
  end.

(** ** Comma-separated fields

    The reader's states, with the field read so far.  A line break inside the
    line is an error unless nothing follows it. *)

Inductive csv_state := StartRecord | StartField | InField | InQuotedField | QuoteInQuotedField | EatCrnl.

Definition is_newline (c : Z) : bool := (c =? 10) || (c =? 13).

Fixpoint csv_run (st : csv_state) (cur s : pystr) : option (list pystr) :=
  match s with
  | [] => match st with StartRecord | EatCrnl => Some [] | _ => Some [cur] end
  | c :: s =>
      match st with
      | StartRecord | StartField =>
          if is_newline c
          then match st with StartRecord => csv_run EatCrnl [] s | _ => cons [] <$> csv_run EatCrnl [] s end
          else if c =? 34 then csv_run InQuotedField [] s
          else if c =? 32 then csv_run StartField [] s
          else if c =? 44 then cons [] <$> csv_run StartField [] s
          else csv_run InField [c] s
      | InField =>
          if is_newline c then cons cur <$> csv_run EatCrnl [] s
          else if c =? 44 then cons cur <$> csv_run StartField [] s
          else csv_run InField (cur ++ [c]) s
      | InQuotedField =>
          if c =? 34 then csv_run QuoteInQuotedField cur s else csv_run InQuotedField (cur ++ [c]) s
      | QuoteInQuotedField =>
          if c =? 34 then csv_run InQuotedField (cur ++ [c]) s
          else if c =? 44 then cons cur <$> csv_run StartField [] s
          else if is_newline c then cons cur <$> csv_run EatCrnl [] s
          else csv_run InField (cur ++ [c]) s
      | EatCrnl => if is_newline c then csv_run EatCrnl [] s else None
      end
  end.

(** [csv.field_size_limit()] *)
Definition FIELD_SIZE_LIMIT : Z := 131072.

Definition csv_fields (value : pystr) : list pystr :=
  match csv_run StartRecord [] value with
  | Some fields => if existsb (fun f => FIELD_SIZE_LIMIT <? Z.of_nat (length f)) fields then [] else strip <$> fields
  | None => []
  end.

Example csv_quoted : csv_fields (str "1, " ++ [34] ++ str "ab,c" ++ [34; 34] ++ str "d" ++ [34] ++ str "e , 7 ,")
  = [str "1"; str "ab,c" ++ [34] ++ str "de"; str "7"; []].
Proof. by vm_compute. Qed.
End AtText.

(** * Operators *)

Module Operators.
Import AtText.

Record current_operator := mkCurrent {
  co_mode : option Z; co_format : option Z; co_operator : pystr; co_numeric : pystr; co_act : option Z }.

Definition no_operator : current_operator := mkCurrent None None [] [] None.

(** [re.fullmatch] of [[0-9]{5,6}] *)
Definition is_plmn (s : pystr) : bool :=
  forallb (fun c => (48 <=? c) && (c <=? 57)) s && ((length s =? 5)%nat || (length s =? 6)%nat).

Definition QUOTE : Z := 34.

Definition parse_current_operator (value : pystr) : current_operator :=
  let value := if starts_with (str "+COPS:") (py_upper (lstrip_by is_space value)) then (partition_on 58 value).2 else value in
  match csv_fields value with
  | [] => no_operator
  | f0 :: fs =>
      match py_int f0, fs with
      | None, _ => no_operator
      | Some mode, [] => mkCurrent (Some mode) None [] [] None
      | Some mode, f1 :: fs =>
          match py_int f1, fs with
          | None, _ => mkCurrent (Some mode) None [] [] None
          | Some format, [] => mkCurrent (Some mode) (Some format) [] [] None
          | Some format, f2 :: fs =>
              let numeric := if (format =? 2) && is_plmn f2 then f2 else [] in
              mkCurrent (Some mode) (Some format) f2 numeric (match fs with f3 :: _ => py_int f3 | [] => None end)
          end
      end
  end.

(** The scan over the characters: the depth of parentheses, whether inside
    quotes, whether the previous character was a backslash there, and the text
    since the last opening parenthesis. *)
Fixpoint groups_from (depth : nat) (quoted escaped : bool) (cur s : pystr) : list pystr :=
  match s with
  | [] => []
  | c :: s =>
      let keep := cur ++ [c] in
      if escaped then groups_from depth quoted false keep s
      else if (c =? 92) && quoted then groups_from depth quoted true keep s
      else if c =? QUOTE then groups_from depth (negb quoted) false keep s
      else if quoted then groups_from depth true false keep s
      else if c =? 40 then groups_from (S depth) false false (match depth with O => [] | _ => keep end) s
      else if c =? 41 then
        match depth with
        | O => groups_from O false false keep s
        | S O => cur :: groups_from O false false [] s
        | S d => groups_from d false false keep s
        end
      else groups_from depth false false keep s
  end.

Definition operator_groups (value : pystr) : list pystr := groups_from 0 false false [] value.

Record visible_operator := mkVisible {
  vo_status : option Z; vo_long : pystr; vo_short : pystr; vo_numeric : pystr; vo_act : option Z }.

(** [str.strip] of double quotes *)
Definition strip_quotes (s : pystr) : pystr := rstrip_by (fun c => c =? QUOTE) (lstrip_by (fun c => c =? QUOTE) s).

(** One entry of the list; [None] for one that does not name an operator. *)
Definition parse_group (group : pystr) : option visible_operator :=
  match csv_fields group with
  | f0 :: f1 :: f2 :: f3 :: fs =>
      if is_plmn f3
      then Some (mkVisible (py_int f0) (strip_quotes f1) (strip_quotes f2) f3 (match fs with f4 :: _ => py_int f4 | [] => None end))
      else None
  | _ => None
  end.

Fixpoint scan_groups (seen : list pystr) (groups : list pystr) : list visible_operator :=
  match groups with
  | [] => []
  | g :: groups =>
      match parse_group g with
      | None => scan_groups seen groups
      | Some o =>
          if bool_decide (vo_numeric o ∈ seen) then scan_groups seen groups
          else o :: scan_groups (vo_numeric o :: seen) groups
      end
  end.

Definition parse_operator_scan (value : pystr) : list visible_operator := scan_groups [] (operator_groups value).

(** ** What a scan reads back *)

(** An entry as the module prints it. *)
Definition quote (s : pystr) : pystr := QUOTE :: s ++ [QUOTE].
Definition entry (o : visible_operator) : pystr :=
  match vo_status o with Some n => decimal n | None => [] end ++ 44 :: quote (vo_long o) ++ 44 :: quote (vo_short o)
  ++ 44 :: quote (vo_numeric o) ++ match vo_act o with Some n => 44 :: decimal n | None => [] end.
Definition listing (l : list visible_operator) : pystr := py_join [44] ((fun o => 40 :: entry o ++ [41]) <$> l).
(** The lists of supported modes and formats that end the answer. *)
Definition SUPPORTED : pystr := str ",,(0,1,2,3,4),(0,1,2)".

(** A name as a module prints it. *)
Record name_ok (s : pystr) : Prop := {
  plain_name : Forall (fun c => c <> 34 /\ c <> 92) s;
  trimmed : strip s = s;
  short_enough : Z.of_nat (length s) <= FIELD_SIZE_LIMIT }.

Definition small (o : option Z) : Prop := forall n, o = Some n -> 0 <= n < 100.

Record operator_ok (o : visible_operator) : Prop := {
  ok_status : small (vo_status o);
  ok_long : name_ok (vo_long o);
  ok_short : name_ok (vo_short o);
  ok_numeric : is_plmn (vo_numeric o) = true;
  ok_act : small (vo_act o) }.

(** *** Fields *)

Definition starts (st : csv_state) : Prop := st = StartRecord \/ st = StartField.

Lemma csv_in_field d : forall cur s, Forall decimal_char d ->
  csv_run InField cur (d ++ s) = csv_run InField (cur ++ d) s.
Proof.
  induction d as [|c d IH]; intros cur s Hd; [by rewrite app_nil_r|]. apply Forall_cons in Hd as [Hc Hd].
  cbn [app csv_run]. unfold is_newline. destruct (Z.eqb_spec c 10), (Z.eqb_spec c 13), (Z.eqb_spec c 44); cbn [orb]; try (destruct Hc; lia).
  rewrite (IH _ _ Hd). by rewrite <- app_assoc.
Qed.

Lemma csv_number st d s : starts st -> Forall decimal_char d -> d <> [] ->
  csv_run st [] (d ++ s) = csv_run InField d s.
Proof.
  intros Hst Hd Hne. destruct d as [|c d]; [done|]. apply Forall_cons in Hd as [Hc Hd]. pose proof (csv_in_field d [c] s Hd) as E. cbn [app] in E |- *. rewrite <- E.
  cbn [csv_run]. unfold is_newline. destruct (Z.eqb_spec c 10), (Z.eqb_spec c 13), (Z.eqb_spec c 34), (Z.eqb_spec c 32), (Z.eqb_spec c 44);
    cbn [orb]; try (destruct Hc; lia). by destruct Hst as [-> | ->].
Qed.

Lemma csv_in_quotes n : forall cur s, Forall (fun c => c <> 34 /\ c <> 92) n ->
  csv_run InQuotedField cur (n ++ 34 :: s) = csv_run QuoteInQuotedField (cur ++ n) s.
Proof.
  induction n as [|c n IH]; intros cur s Hn; [by rewrite app_nil_r|]. apply Forall_cons in Hn as [[Hc _] Hn].
  cbn [app csv_run]. destruct (Z.eqb_spec c 34); [done|]. rewrite (IH _ _ Hn). by rewrite <- app_assoc.
Qed.

Lemma csv_name n s : Forall (fun c => c <> 34 /\ c <> 92) n ->
  csv_run StartField [] (quote n ++ s) = csv_run QuoteInQuotedField n s.
Proof. intros Hn. unfold quote, QUOTE. cbn [app csv_run is_newline orb]. rewrite <- app_assoc. by apply csv_in_quotes. Qed.

Lemma decimal_nonempty n : decimal n <> [].
Proof. intros E. pose proof (py_int_decimal n) as H. by rewrite E in H. Qed.

Lemma plmn_plain s : is_plmn s = true -> Forall (fun c => c <> 34 /\ c <> 92) s.
Proof.
  unfold is_plmn. rewrite andb_true_iff, forallb_forall. intros [H _]. apply Forall_forall. intros c Hc%list_elem_of_In%H. lia.
Qed.

(** The fields of an entry. *)
Definition status_text (o : visible_operator) : pystr := match vo_status o with Some n => decimal n | None => [] end.
Definition act_fields (o : visible_operator) : list pystr := match vo_act o with Some n => [decimal n] | None => [] end.

Lemma entry_csv o : operator_ok o ->
  csv_run StartRecord [] (entry o) = Some (status_text o :: vo_long o :: vo_short o :: vo_numeric o :: act_fields o).
Proof.
  intros [_ [Hl _ _] [Hs _ _] Hn _]. apply plmn_plain in Hn. unfold entry. fold (status_text o).
  assert (E : forall s, csv_run StartRecord [] (status_text o ++ 44 :: s) = cons (status_text o) <$> csv_run StartField [] s).
  { intros s. unfold status_text. destruct (vo_status o) as [n|]; [|done].
    rewrite csv_number by (try apply decimal_chars; try apply decimal_nonempty; by left). done. }
  rewrite E, (csv_name _ _ Hl). cbn [csv_run Z.eqb]. rewrite (csv_name _ _ Hs). cbn [csv_run]. rewrite (csv_name _ _ Hn).
  unfold act_fields. destruct (vo_act o) as [n|]; [|done].
  pose proof (csv_number StartField (decimal n) [] (or_intror eq_refl) (decimal_chars n) (decimal_nonempty n)) as E'.
  rewrite app_nil_r in E'. cbn [csv_run Z.eqb Pos.eqb]. by rewrite E'.
Qed.

Lemma small_decimal n : 0 <= n < 100 -> Z.of_nat (length (decimal n)) <= FIELD_SIZE_LIMIT.
Proof.
  intros H. assert (HF : Forall (fun n => Z.of_nat (length (decimal n)) <= 2) (seqZ 0 100)) by decide_closed.
  pose proof (proj1 (Forall_forall _ _) HF n ltac:(apply elem_of_seqZ; lia)) as Hn. cbv beta in Hn. unfold FIELD_SIZE_LIMIT. lia.
Qed.

Lemma strip_decimal n : strip (decimal n) = decimal n.
Proof. apply strip_by_none. eapply Forall_impl; [apply decimal_chars|]. apply decimal_char_space. Qed.

Lemma plmn_digits s : is_plmn s = true -> Forall decimal_char s /\ Z.of_nat (length s) <= FIELD_SIZE_LIMIT.
Proof.
  unfold is_plmn. rewrite andb_true_iff, forallb_forall. intros [H Hl]. split.
  - apply Forall_forall. intros c Hc%list_elem_of_In%H. right. lia.
  - unfold FIELD_SIZE_LIMIT. lia.
Qed.

Lemma entry_fields o : operator_ok o ->
  csv_fields (entry o) = status_text o :: vo_long o :: vo_short o :: vo_numeric o :: act_fields o.
Proof.
  intros Ho. unfold csv_fields. rewrite (entry_csv o Ho). destruct Ho as [H1 [_ Hl Hl'] [_ Hs Hs'] [Hn Hn']%plmn_digits H5].
  assert (Hf : Forall (fun f => strip f = f /\ Z.of_nat (length f) <= FIELD_SIZE_LIMIT)
                 (status_text o :: vo_long o :: vo_short o :: vo_numeric o :: act_fields o)).
  { repeat apply Forall_cons_2; try done.
    - unfold status_text. destruct (vo_status o) as [n|]; [|done]. split; [apply strip_decimal|by apply small_decimal, H1].
    - split; [|done]. apply strip_by_none. eapply Forall_impl; [exact Hn|]. apply decimal_char_space.
    - unfold act_fields. destruct (vo_act o) as [n|]; [|done]. repeat constructor; [apply strip_decimal|by apply small_decimal, H5]. }
  set (fs := _ :: _) in *. assert (existsb (fun f => FIELD_SIZE_LIMIT <? Z.of_nat (length f)) fs = false) as ->.
  { apply not_true_iff_false. rewrite existsb_exists. intros (f & Hin%list_elem_of_In & Hlt).
    destruct (proj1 (Forall_forall _ _) Hf f Hin). lia. }
  clearbody fs. induction Hf as [|f fs [Hf _] _ IH]; [done|]. cbn. by rewrite Hf, IH.
Qed.

Lemma parse_entry o : operator_ok o -> parse_group (entry o) = Some o.
Proof.
  intros Ho. unfold parse_group. rewrite (entry_fields o Ho). destruct Ho as [_ [Hl _ _] [Hs _ _] -> _].
  assert (Hq : forall n, Forall (fun c => c <> 34 /\ c <> 92) n -> strip_quotes n = n).
  { intros n Hn. apply strip_by_none. eapply Forall_impl; [exact Hn|]. intros c [Hc _]. by apply Z.eqb_neq. }
  rewrite (Hq _ Hl), (Hq _ Hs). unfold status_text, act_fields. f_equal.
  destruct o as [[?|] ? ? ? [?|]]; cbn; by rewrite ?py_int_decimal.
Qed.

(** *** Groups *)

Lemma groups_number d : forall cur s, Forall decimal_char d ->
  groups_from 1 false false cur (d ++ s) = groups_from 1 false false (cur ++ d) s.
Proof.
  induction d as [|c d IH]; intros cur s Hd; [by rewrite app_nil_r|]. apply Forall_cons in Hd as [Hc Hd].
  cbn [app groups_from]. unfold QUOTE. rewrite andb_false_r.
  destruct (Z.eqb_spec c 34), (Z.eqb_spec c 40), (Z.eqb_spec c 41); try (destruct Hc; lia).
  rewrite (IH _ _ Hd). by rewrite <- app_assoc.
Qed.

Lemma groups_comma cur s : groups_from 1 false false cur (44 :: s) = groups_from 1 false false (cur ++ [44]) s.
Proof. done. Qed.

Lemma groups_quote n cur s : Forall (fun c => c <> 34 /\ c <> 92) n ->
  groups_from 1 false false cur (quote n ++ s) = groups_from 1 false false (cur ++ quote n) s.
Proof.
  intros Hn. change (quote n ++ s) with (34 :: (n ++ [34]) ++ s). rewrite <- app_assoc. cbn [app].
  assert (forall t, groups_from 1 false false cur (34 :: t) = groups_from 1 true false (cur ++ [34]) t) as -> by done.
  unfold quote, QUOTE. replace (cur ++ 34 :: n ++ [34]) with ((cur ++ [34]) ++ n ++ [34]) by by rewrite <- app_assoc.
  generalize (cur ++ [34]). clear cur. induction Hn as [|c n [H1 H2] _ IH]; intros cur; [done|].
  cbn [app groups_from]. unfold QUOTE. destruct (Z.eqb_spec c 92), (Z.eqb_spec c 34); try done. cbn [andb].
  rewrite IH. by rewrite <- app_assoc.
Qed.

Lemma groups_entry o cur s : operator_ok o ->
  groups_from 0 false false cur (40 :: entry o ++ 41 :: s) = entry o :: groups_from 0 false false [] s.
Proof.
  intros [_ [Hl _ _] [Hs _ _] Hn%plmn_plain _]. cbn [groups_from Z.eqb Pos.eqb andb QUOTE].
  assert (E : forall s, groups_from 1 false false [] (entry o ++ s) = groups_from 1 false false (entry o) s).
  { clear s. intros s. unfold entry. fold (status_text o). rewrite <- app_assoc. rewrite (groups_number (status_text o)).
    2: { unfold status_text. destruct (vo_status o); [apply decimal_chars|constructor]. }
    cbn [app]. rewrite groups_comma, <- !app_assoc, (groups_quote _ _ _ Hl). cbn [app].
    rewrite groups_comma, <- !app_assoc, (groups_quote _ _ _ Hs). cbn [app].
    rewrite groups_comma, <- !app_assoc, (groups_quote _ _ _ Hn).
    destruct (vo_act o) as [n|]; cbn [app]; [rewrite groups_comma, groups_number by apply decimal_chars|];
      f_equal; repeat (rewrite <- app_assoc; cbn [app]); by rewrite ?app_nil_r. }
  rewrite E. done.
Qed.

Lemma groups_listing l : Forall operator_ok l -> forall cur,
  groups_from 0 false false cur (listing l ++ SUPPORTED) = (entry <$> l) ++ [str "0,1,2,3,4"; str "0,1,2"].
Proof.
  unfold listing. induction 1 as [|o l Ho Hl IH]; intros cur; [done|]. cbn [fmap list_fmap app]. destruct l as [|o' l].
  - cbn [fmap list_fmap py_join]. change ((40 :: entry o ++ [41]) ++ SUPPORTED) with (40 :: (entry o ++ [41]) ++ SUPPORTED).
    rewrite <- app_assoc. cbn [app]. by rewrite (groups_entry o cur _ Ho).
  - change (py_join [44] ((40 :: entry o ++ [41]) :: ((fun o => 40 :: entry o ++ [41]) <$> o' :: l)))
      with ((40 :: entry o ++ [41]) ++ 44 :: py_join [44] ((fun o => 40 :: entry o ++ [41]) <$> o' :: l)).
    rewrite <- app_assoc. cbn [app]. rewrite <- app_assoc. cbn [app]. rewrite (groups_entry o cur _ Ho). f_equal. exact (IH [44]).
Qed.

Lemma scan_entries l gs : Forall operator_ok l -> forall seen, NoDup (vo_numeric <$> l) -> Forall (fun o => vo_numeric o ∉ seen) l ->
  Forall (fun g => parse_group g = None) gs -> scan_groups seen ((entry <$> l) ++ gs) = l.
Proof.
  induction 1 as [|o l Ho Hl IH]; intros seen Hnd Hs Hg; cbn [fmap list_fmap app].
  - induction Hg as [|g gs Hg _ IHg]; [done|]. cbn. by rewrite Hg.
  - apply Forall_cons in Hs as [Hn Hs]. apply NoDup_cons in Hnd as [Hno Hnd]. cbn [scan_groups]. rewrite (parse_entry o Ho).
    rewrite bool_decide_eq_false_2 by done. f_equal. apply IH; try done.
    apply Forall_forall. intros o' Ho' [E|Hin]%elem_of_cons; [|by apply (proj1 (Forall_forall _ _) Hs o')].
    apply Hno. rewrite <- E. by apply list_elem_of_fmap_2.
Qed.

(** The operators a module lists are the ones the page shows.
    For every list of operators with distinct MCC/MNC -- names with commas,
    parentheses or spaces in them, a missing status or access technology
    included -- printed the way AT+COPS=? prints it, with the supported modes
    and formats behind it, [parse_operator_scan] reads back the list itself. *)
Theorem scan_roundtrip (l : list visible_operator) :
  Forall operator_ok l -> NoDup (vo_numeric <$> l) -> parse_operator_scan (listing l ++ SUPPORTED) = l.
Proof.
  intros Hl Hnd. unfold parse_operator_scan, operator_groups. rewrite (groups_listing l Hl). apply scan_entries; try done.
  - apply Forall_forall. intros o _. apply not_elem_of_nil.
  - by repeat constructor.
Qed.

Definition sample_operators : list visible_operator :=
  [ mkVisible (Some 2) (str "CHN-UNICOM (4G), test") (str "UNICOM") (str "46001") (Some 7);
    mkVisible (Some 1) (str "CHINA MOBILE") (str "CMCC") (str "46000") None ].

Lemma scan_roundtrip_witness : parse_operator_scan (listing sample_operators ++ SUPPORTED) = sample_operators.
Proof.
  apply scan_roundtrip.
  - assert (Hn : Forall (fun s => Forall (fun c => c <> 34 /\ c <> 92) s /\ strip s = s /\ Z.of_nat (length s) <= FIELD_SIZE_LIMIT)
      [str "CHN-UNICOM (4G), test"; str "UNICOM"; str "CHINA MOBILE"; str "CMCC"]) by decide_closed.
    rewrite !Forall_cons in Hn. destruct Hn as ((?&?&?)&(?&?&?)&(?&?&?)&(?&?&?)&_).
    repeat apply Forall_cons_2; [..|by apply Forall_nil_2]; split; cbn [vo_status vo_long vo_short vo_numeric vo_act];
      try done; intros ? [= <-]; lia.
  - decide_closed.
Defined.
End Operators.
