(* ===== verification/Driver.v ===== *)
(** * The module driver: its state and its programs (agent/src/air780e_agent/modem.py)

    A method of [Air780E] is a program: it sends AT commands, sleeps, reads the
    monotonic clock, reads and writes the driver's state and hands results
    upward ([on_sms], [on_delivery], [on_call]).  Each of the first, the second
    and the last is an [await]: other tasks run meanwhile, so the driver's state
    may be another one behind it, and the task may be cancelled there.  [run]
    executes a program against a script of what the module and the other tasks
    do; [wp] is the proof rule for all scripts at once.  Times are microseconds. *)

From S2P Require Import Prelude PyText AtErrors AtClient AtText Codec Concat.

Module Driver.
Import ATClient AtText.

(** ** State *)

Record ModemInfo := mkInfo {
  model : pystr; manufacturer : pystr; hardware_model : pystr; firmware : pystr; imei : pystr; iccid : pystr;
  smsc : pystr; operator : pystr; registered : bool;
  eps_registered : option bool; cs_registered : option bool; ims_registered : option bool; radio_enabled : option bool;
  data_attached : option bool; pdp_active : option bool; roaming : option bool }.

Definition no_info : ModemInfo :=
  mkInfo [] [] [] [] [] [] [] [] false None None None None None None None.

Record IncomingCall := mkCall { call_number : pystr; call_ts : pystr }.

(** [ring_tasks] counts the [_report_call] tasks started. *)
Record driver := mkDriver {
  info : ModemInfo; selection_mode : option Z;
  reassembler : Reassembly.Reassembler; indexes : list Z;
  ring_call : option IncomingCall; ring_seen : Z; ring_tasks : nat }.

Definition set_info (i : ModemInfo) (d : driver) : driver :=
  mkDriver i (selection_mode d) (reassembler d) (indexes d) (ring_call d) (ring_seen d) (ring_tasks d).
Definition set_mode (m : option Z) (d : driver) : driver :=
  mkDriver (info d) m (reassembler d) (indexes d) (ring_call d) (ring_seen d) (ring_tasks d).
Definition set_reassembler (r : Reassembly.Reassembler) (d : driver) : driver :=
  mkDriver (info d) (selection_mode d) r (indexes d) (ring_call d) (ring_seen d) (ring_tasks d).
Definition set_indexes (l : list Z) (d : driver) : driver :=
  mkDriver (info d) (selection_mode d) (reassembler d) l (ring_call d) (ring_seen d) (ring_tasks d).
Definition set_ring (c : option IncomingCall) (seen : Z) (n : nat) (d : driver) : driver :=
  mkDriver (info d) (selection_mode d) (reassembler d) (indexes d) c seen n.

Definition RING_REPEAT_GAP : Z := 12000000.
Definition CLIP_GRACE : Z := 1000000.

(** [__init__] *)
Definition new_driver (reassembly_timeout : Z) : driver :=
  mkDriver no_info None (Reassembly.new_reassembler reassembly_timeout) [] None (- RING_REPEAT_GAP) 0.

(** ** Unsolicited lines

    The handlers that run at once; those of +CMT and +CDS are tasks. *)

Definition REGISTERED_STATES : list pystr := [str "1"; str "5"].
Definition is_registered (state : pystr) : bool := bool_decide (state ∈ REGISTERED_STATES).

Definition known_true (o : option bool) : bool := bool_decide (o = Some true).

Definition set_domains (eps cs : option bool) (i : ModemInfo) : ModemInfo :=
  mkInfo (model i) (manufacturer i) (hardware_model i) (firmware i) (imei i) (iccid i) (smsc i) (operator i)
    (known_true eps || known_true cs) eps cs (ims_registered i) (radio_enabled i) (data_attached i) (pdp_active i) (roaming i).
Definition set_ims (v : option bool) (i : ModemInfo) : ModemInfo :=
  mkInfo (model i) (manufacturer i) (hardware_model i) (firmware i) (imei i) (iccid i) (smsc i) (operator i)
    (registered i) (eps_registered i) (cs_registered i) v (radio_enabled i) (data_attached i) (pdp_active i) (roaming i).

Definition on_registration (u : ATUrc) (d : driver) : driver :=
  let state := match leading_digits (u_params u) with Some s => s | None => strip (u_params u) end in
  let reg := Some (is_registered state) in
  let i := info d in
  if bool_decide (py_upper (u_name u) = str "+CIREG") then set_info (set_ims reg i) d
  else if bool_decide (py_upper (u_name u) = str "+CEREG") then set_info (set_domains reg (cs_registered i) i) d
  else set_info (set_domains (eps_registered i) reg i) d.

(** [re.search] of [,\s*(\d+)]: the group of the first comma it holds for. *)
Fixpoint after_comma (s : pystr) : option pystr :=
  match s with
  | [] => None
  | c :: s => if c =? 44 then match leading_digits s with Some d => Some d | None => after_comma s end else after_comma s
  end.

Definition on_cmti (u : ATUrc) (d : driver) : driver :=
  match after_comma (u_params u) with
  | Some n => set_indexes (indexes d ++ [int_of_digits n]) d
  | None => d
  end.

Definition on_ring (now : Z) (stamp : pystr) (d : driver) : driver :=
  if now - ring_seen d <? RING_REPEAT_GAP then set_ring (ring_call d) now (ring_tasks d) d
  else set_ring (Some (mkCall [] stamp)) now (S (ring_tasks d)) d.

Definition number_char (c : Z) : bool := (c =? 43) || ((48 <=? c) && (c <=? 57)) || (c =? 42) || (c =? 35).

(** [re.match] of a number that a double quote may stand before: the group. *)
Definition clip_number (params : pystr) : pystr :=
  let s := lstrip_by is_space params in
  take_while number_char (match s with c :: rest => if c =? 34 then rest else s | [] => s end).

Definition on_clip (now : Z) (stamp : pystr) (u : ATUrc) (d : driver) : driver :=
  let number := clip_number (u_params u) in
  match ring_call d with
  | Some c => set_ring (Some (match number with [] => c | _ => mkCall number (call_ts c) end)) (ring_seen d) (ring_tasks d) d
  | None =>
      if now - ring_seen d <? RING_REPEAT_GAP then d
      else set_ring (Some (mkCall number stamp)) now (S (ring_tasks d)) d
  end.

(** The handlers [__init__] registers, by the prefix they are registered for. *)
Definition dispatch (now : Z) (stamp prefix : pystr) (u : ATUrc) (d : driver) : driver :=
  if bool_decide (prefix = str "+CMTI") then on_cmti u d
  else if bool_decide (prefix ∈ [str "+CREG"; str "+CEREG"; str "+CIREG"]) then on_registration u d
  else if bool_decide (prefix = str "RING") then on_ring now stamp d
  else if bool_decide (prefix = str "+CLIP") then on_clip now stamp u d
  else d.

(** ** Programs *)

(** [Unconfirmed] is the ATError [set_data_enabled] raises itself. *)
Inductive exn := AtError (e : at_error) | Cancelled | ValueError | IndexError | CallbackError | Unconfirmed.

Inductive upward := UpSms (s : DecodedSms) | UpDelivery (r : StatusReport) | UpCall (c : IncomingCall).

Inductive prog (A : Type) : Type :=
| Ret (a : A)
| Throw (e : exn)
| At (cmd : pystr) (payload : option pystr) (k : res exn ATResponse -> prog A)
| Sleep (t : Z) (k : res exn unit -> prog A)
| Now (k : Z -> prog A)
| Use (f : driver -> driver) (k : driver -> prog A)   (* [k] sees the state [f] left *)
| Hand (u : upward) (k : res exn unit -> prog A)
| Spin.                                               (* the fuel of a loop ran out *)
Arguments Ret {A} a.
Arguments Throw {A} e.
Arguments At {A} cmd payload k.
Arguments Sleep {A} t k.
Arguments Now {A} k.
Arguments Use {A} f k.
Arguments Hand {A} u k.
Arguments Spin {A}.

Fixpoint bind {A B} (p : prog A) (f : A -> prog B) : prog B :=
  match p with
  | Ret a => f a
  | Throw e => Throw e
  | At c pl k => At c pl (fun r => bind (k r) f)
  | Sleep t k => Sleep t (fun r => bind (k r) f)
  | Now k => Now (fun z => bind (k z) f)
  | Use g k => Use g (fun d => bind (k d) f)
  | Hand u k => Hand u (fun r => bind (k r) f)
  | Spin => Spin
  end.

(** [try: p except ...] *)
Fixpoint catch {A} (p : prog A) (h : exn -> prog A) : prog A :=
  match p with
  | Ret a => Ret a
  | Throw e => h e
  | At c pl k => At c pl (fun r => catch (k r) h)
  | Sleep t k => Sleep t (fun r => catch (k r) h)
  | Now k => Now (fun z => catch (k z) h)
  | Use g k => Use g (fun d => catch (k d) h)
  | Hand u k => Hand u (fun r => catch (k r) h)
  | Spin => Spin
  end.

Definition of_res {A} (r : res exn A) : prog A := match r with Ok a => Ret a | Err e => Throw e end.
Definition execute (cmd : pystr) : prog ATResponse := At cmd None of_res.
Definition execute_payload (cmd payload : pystr) : prog ATResponse := At cmd (Some payload) of_res.
Definition sleep (t : Z) : prog unit := Sleep t of_res.
Definition monotonic : prog Z := Now Ret.
Definition get {A} (f : driver -> A) : prog A := Use id (fun d => Ret (f d)).
Definition put (f : driver -> driver) : prog unit := Use f (fun _ => Ret tt).
Definition hand (u : upward) : prog unit := Hand u of_res.

(** [except ATError] *)
Definition except_at {A} (p : prog A) (h : at_error -> prog A) : prog A :=
  catch p (fun e => match e with AtError e => h e | e => Throw e end).
(** [try: p finally: q] *)
Definition finally {A} (p : prog A) (q : prog unit) : prog A :=
  bind (catch p (fun e => bind q (fun _ => Throw e))) (fun a => bind q (fun _ => Ret a)).

(** ** Running a program

    One step of the script answers one [await]: how it ends, the lines dispatched
    and what the other tasks did meanwhile, and the time it took beyond what was
    asked for. *)

Record tick := mkTick {
  k_answer : res exn ATResponse;
  k_urcs : list (pystr * pystr * ATUrc);      (* time stamp, registered prefix, line *)
  k_others : driver -> driver;
  k_elapsed : Z }.

Inductive event := Sent (cmd : pystr) (payload : option pystr) (r : res exn ATResponse) | Slept (t : Z) | Handed (u : upward) (r : res exn unit).

(** How a program stands when the script is used up. *)
Inductive outcome (A : Type) := Done (r : res exn A) | Waiting | OutOfFuel.
Arguments Done {A} r.
Arguments Waiting {A}.
Arguments OutOfFuel {A}.

(** What an [await] can end with: an AT command fails with an AT error or is
    cancelled, a sleep is cancelled, a callback is cancelled or raises an exception
    of its own. *)
Definition as_at (r : res exn ATResponse) : res exn ATResponse :=
  match r with Ok _ | Err (AtError _) => r | Err _ => Err Cancelled end.
Definition as_sleep (r : res exn ATResponse) : res exn unit := match r with Ok _ => Ok tt | Err _ => Err Cancelled end.
Definition as_unit (r : res exn ATResponse) : res exn unit := match r with Ok _ => Ok tt | Err Cancelled => Err Cancelled | Err _ => Err CallbackError end.

Definition later (c : Z) (tk : tick) : Z := c + Z.max 0 (k_elapsed tk).
Definition meanwhile (c : Z) (tk : tick) (d : driver) : driver :=
  k_others tk (foldl (fun d u => dispatch c u.1.1 u.1.2 u.2 d) d (k_urcs tk)).

Fixpoint run {A} (p : prog A) (script : list tick) (t : list event) (d : driver) (c : Z) : list event * driver * Z * outcome A :=
  match p with
  | Ret a => (t, d, c, Done (Ok a))
  | Throw e => (t, d, c, Done (Err e))
  | Spin => (t, d, c, OutOfFuel)
  | Now k => run (k c) script t d c
  | Use f k => run (k (f d)) script t (f d) c
  | At cmd pl k =>
      match script with
      | [] => (t, d, c, Waiting)
      | tk :: script => let r := as_at (k_answer tk) in run (k r) script (t ++ [Sent cmd pl r]) (meanwhile c tk d) (later c tk)
      end
  | Sleep s k =>
      match script with
      | [] => (t, d, c, Waiting)
      | tk :: script =>
          let r := as_sleep (k_answer tk) in
          run (k r) script (t ++ [Slept s]) (meanwhile c tk d) (later (c + match r with Ok _ => Z.max 0 s | Err _ => 0 end) tk)
      end
  | Hand u k =>
      match script with
      | [] => (t, d, c, Waiting)
      | tk :: script => let r := as_unit (k_answer tk) in run (k r) script (t ++ [Handed u r]) (meanwhile c tk d) (later c tk)
      end
  end.

(** ** Proving a program right for every script

    [R] is what other tasks may do to the driver's state during an [await]; [I]
    says which command may be sent after which events; [spun] is what a loop out
    of fuel must establish. *)

Section Logic.
Context (R : driver -> driver -> Prop) (I : list event -> pystr -> Prop) (spun : Prop).

Definition at_result (r : res exn ATResponse) : Prop := as_at r = r.
Definition sleep_result (r : res exn unit) : Prop := r = Ok tt \/ r = Err Cancelled.
Definition hand_result (r : res exn unit) : Prop := r = Ok tt \/ r = Err Cancelled \/ r = Err CallbackError.

Fixpoint wp {A} (p : prog A) (Q : res exn A -> list event -> driver -> Z -> Prop) (t : list event) (d : driver) (c : Z) : Prop :=
  match p with
  | Ret a => Q (Ok a) t d c
  | Throw e => Q (Err e) t d c
  | Spin => spun
  | Now k => wp (k c) Q t d c
  | Use f k => wp (k (f d)) Q t (f d) c
  | At cmd pl k => I t cmd /\ forall r d' c', at_result r -> R d d' -> c <= c' -> wp (k r) Q (t ++ [Sent cmd pl r]) d' c'
  | Sleep s k => forall r d' c', sleep_result r -> R d d' -> c + match r with Ok _ => Z.max 0 s | Err _ => 0 end <= c' ->
                   wp (k r) Q (t ++ [Slept s]) d' c'
  | Hand u k => forall r d' c', hand_result r -> R d d' -> c <= c' -> wp (k r) Q (t ++ [Handed u r]) d' c'
  end.

Lemma wp_mono {A} (p : prog A) (Q Q' : res exn A -> list event -> driver -> Z -> Prop) :
  (forall r t d c, Q r t d c -> Q' r t d c) -> forall t d c, wp p Q t d c -> wp p Q' t d c.
Proof.
  intros HQ. induction p as [a|e|cmd pl k IH|s k IH|k IH|f k IH|u k IH|]; cbn; intros t d c H; auto.
  - destruct H as [Hi H]. split; [done|]. intros r d' c' Hr HR Hc. by apply IH, H.
Qed.

Lemma wp_bind {A B} (p : prog A) (f : A -> prog B) Q : forall t d c,
  wp p (fun r t d c => match r with Ok a => wp (f a) Q t d c | Err e => Q (Err e) t d c end) t d c -> wp (bind p f) Q t d c.
Proof.
  induction p as [a|e|cmd pl k IH|s k IH|k IH|g k IH|u k IH|]; cbn; intros t d c H; auto.
  destruct H as [Hi H]. split; [done|]. intros r d' c' Hr HR Hc. by apply IH, H.
Qed.

Lemma wp_catch {A} (p : prog A) (h : exn -> prog A) Q : forall t d c,
  wp p (fun r t d c => match r with Ok a => Q (Ok a) t d c | Err e => wp (h e) Q t d c end) t d c -> wp (catch p h) Q t d c.
Proof.
  induction p as [a|e|cmd pl k IH|s k IH|k IH|g k IH|u k IH|]; cbn; intros t d c H; auto.
  destruct H as [Hi H]. split; [done|]. intros r d' c' Hr HR Hc. by apply IH, H.
Qed.

Lemma wp_except_at {A} (p : prog A) (h : at_error -> prog A) Q t d c :
  wp p (fun r t d c => match r with Err (AtError e) => wp (h e) Q t d c | r => Q r t d c end) t d c -> wp (except_at p h) Q t d c.
Proof. intros H. apply wp_catch. eapply wp_mono; [|exact H]. by intros [a|[]] t' d' c' H'. Qed.

Lemma wp_execute cmd Q t d c :
  I t cmd -> (forall r d' c', at_result r -> R d d' -> c <= c' -> Q r (t ++ [Sent cmd None r]) d' c') -> wp (execute cmd) Q t d c.
Proof. intros Hi H. cbn. split; [done|]. intros [a|e] d' c' Hr HR Hc; cbn; by apply H. Qed.

Lemma wp_execute_payload cmd pl Q t d c :
  I t cmd -> (forall r d' c', at_result r -> R d d' -> c <= c' -> Q r (t ++ [Sent cmd (Some pl) r]) d' c') ->
  wp (execute_payload cmd pl) Q t d c.
Proof. intros Hi H. cbn. split; [done|]. intros [a|e] d' c' Hr HR Hc; cbn; by apply H. Qed.

Lemma wp_sleep s Q t d c :
  (forall r d' c', sleep_result r -> R d d' -> c + match r with Ok _ => Z.max 0 s | Err _ => 0 end <= c' -> Q r (t ++ [Slept s]) d' c') ->
  wp (sleep s) Q t d c.
Proof. intros H. cbn. intros [a|e] d' c' Hr HR Hc; cbn; by apply H. Qed.

Lemma wp_hand u Q t d c :
  (forall r d' c', hand_result r -> R d d' -> c <= c' -> Q r (t ++ [Handed u r]) d' c') -> wp (hand u) Q t d c.
Proof. intros H. cbn. intros [a|e] d' c' Hr HR Hc; cbn; by apply H. Qed.

(** A query that falls back on a value when the module refuses it. *)
Lemma wp_query {A} cmd (f : ATResponse -> A) (z : at_error -> A) Q t d c :
  I t cmd ->
  (forall r d' c', at_result r -> R d d' -> c <= c' ->
     Q (match r with Ok x => Ok (f x) | Err (AtError e) => Ok (z e) | Err e => Err e end) (t ++ [Sent cmd None r]) d' c') ->
  wp (except_at (bind (execute cmd) (fun r => Ret (f r))) (fun e => Ret (z e))) Q t d c.
Proof.
  intros Hi H. apply wp_except_at, wp_bind, wp_execute; [done|]. intros r d' c' Hr HR Hc. specialize (H r d' c' Hr HR Hc).
  by destruct r as [x|[]].
Qed.

Lemma wp_finally {A} (p : prog A) (q : prog unit) Q t d c :
  wp p (fun r t d c => wp q (fun r' t d c => match r' with Ok _ => Q r t d c | Err e => Q (Err e) t d c end) t d c) t d c ->
  wp (finally p q) Q t d c.
Proof.
  intros H. unfold finally. apply wp_bind, wp_catch. eapply wp_mono; [|exact H].
  intros [a|e] t' d' c' H'; apply wp_bind; eapply wp_mono; try exact H'; by intros [[]|?] ? ? ? ?.
Qed.

(** Commands as they were sent, each with what came before it. *)
Definition allowed (t : list event) : Prop :=
  forall t1 cmd pl r t2, t = t1 ++ Sent cmd pl r :: t2 -> I t1 cmd.

Lemma allowed_nil : allowed [].
Proof. intros [|? ?] ? ? ? ? [=]. Qed.

Lemma allowed_snoc t x : allowed t -> (forall cmd pl r, x = Sent cmd pl r -> I t cmd) -> allowed (t ++ [x]).
Proof.
  intros Ht Hx t1 cmd pl r t2 E. destruct t2 as [|y t2] using rev_ind.
  - apply app_inj_tail in E as [-> ->]. by eapply Hx.
  - rewrite app_comm_cons, app_assoc in E. apply app_inj_tail in E as [E _]. by eapply Ht.
Qed.

Lemma as_at_result r : at_result (as_at r).
Proof. by destruct r as [|[]]. Qed.

(** [wp] holds of every run. *)
Lemma run_wp {A} (p : prog A) (Q : res exn A -> list event -> driver -> Z -> Prop) : forall script t d c,
  Forall (fun tk => forall d c, R d (meanwhile c tk d)) script -> wp p Q t d c -> allowed t ->
  let y := run p script t d c in
  allowed y.1.1.1 /\ match y.2 with Done r => Q r y.1.1.1 y.1.1.2 y.1.2 | Waiting => True | OutOfFuel => spun end.
Proof.
  induction p as [a|e|cmd pl k IH|s k IH|k IH|f k IH|u k IH|]; intros script t d c Hs H Ht; cbn in *; try done.
  - destruct script as [|tk script]; [done|]. apply Forall_cons in Hs as [Htk Hs]. destruct H as [Hi H]. apply IH; [done| |].
    + apply H; [apply as_at_result|done|unfold later; lia].
    + apply allowed_snoc; [done|]. by intros ? ? ? [= <- _ _].
  - destruct script as [|tk script]; [done|]. apply Forall_cons in Hs as [Htk Hs]. apply IH; [done| |by apply allowed_snoc].
    apply H; [|done|unfold later; destruct (as_sleep _); lia].
    unfold as_sleep. destruct (k_answer tk); [by left|by right].
  - by apply IH.
  - by apply IH.
  - destruct script as [|tk script]; [done|]. apply Forall_cons in Hs as [Htk Hs]. apply IH; [done| |by apply allowed_snoc].
    apply H; [|done|unfold later; lia]. unfold as_unit. destruct (k_answer tk) as [|[]]; [by left|..]; right; auto.
Qed.
End Logic.

Definition any_state (d d' : driver) : Prop := True.
Definition any_command (t : list event) (cmd : pystr) : Prop := True.

(** What a program can end with, whatever the module and the other tasks do. *)
Definition ends {A} (p : prog A) (d : driver) (c : Z) (Q : res exn A -> list event -> driver -> Z -> Prop) : Prop :=
  forall script, match (run p script [] d c).2 with Done r => Q r (run p script [] d c).1.1.1 (run p script [] d c).1.1.2 (run p script [] d c).1.2 | _ => True end.

Lemma wp_ends {A} (p : prog A) (Q : res exn A -> list event -> driver -> Z -> Prop) d c :
  wp any_state any_command True p Q [] d c -> ends p d c Q.
Proof.
  intros H script. destruct (run_wp any_state any_command True p Q script [] d c) as [_ Hr]; [|done|apply allowed_nil|].
  - by apply Forall_forall.
  - by destruct (run p script [] d c) as [[[t d'] c'] []].
Qed.
(** ** What the lines in between leave as it was *)

Lemma meanwhile_keeps {B} (f : driver -> B) c tk d :
  (forall now stamp p u d, f (dispatch now stamp p u d) = f d) -> (forall d, f (k_others tk d) = f d) -> f (meanwhile c tk d) = f d.
Proof.
  intros Hd Ho. unfold meanwhile. rewrite Ho. revert d. induction (k_urcs tk) as [|u us IH]; intros d; [done|]. cbn. by rewrite IH, Hd.
Qed.

Lemma dispatch_radio now stamp p u d : radio_enabled (info (dispatch now stamp p u d)) = radio_enabled (info d).
Proof. unfold dispatch, on_cmti, on_registration, on_ring, on_clip. repeat (case_match; try done). Qed.

Lemma dispatch_reassembler now stamp p u d : reassembler (dispatch now stamp p u d) = reassembler d.
Proof. unfold dispatch, on_cmti, on_registration, on_ring, on_clip. repeat (case_match; try done). Qed.

End Driver.

Declare Scope driver_scope.
Notation "x <-- p ;; k" := (Driver.bind p (fun x => k)) (at level 62, p at next level, right associativity) : driver_scope.
Notation "' x <-- p ;; k" := (Driver.bind p (fun x => k)) (at level 62, x pattern, p at next level, right associativity) : driver_scope.
Notation "p ;;- k" := (Driver.bind p (fun _ => k)) (at level 62, right associativity) : driver_scope.
