(* ===== verification/Worker.v ===== *)
(** * The module worker (agent/src/air780e_agent/worker.py)

    Three of the worker's policies, each as the state it keeps and the steps of
    its methods: automatic recovery of a lost registration with its persisted
    rate limit, the packet-data policy, and the filter on status events.  The
    modem is hardware: what its calls answer is an argument of the step after
    the [await].  Clock readings are integers in one unit, [SECOND] of them to
    the second; the persisted JSON object is the record it encodes. *)

From S2P Require Import Prelude PyText PyDict Json.

Definition SECOND : Z := 1000000.

(** ** Recovery *)

Module Recovery.

Definition RECOVERY_WINDOW : Z := 24 * 60 * 60 * SECOND.

Inductive action := OperatorReselect | RadioCycle | ModuleReset | SerialReconnect | RegistrationRecovery | RegistrationWatch.

#[export] Instance action_eq_dec : EqDecision action.
Proof. solve_decision. Defined.

Definition REGISTRATION_RECOVERY_ACTIONS : list action := [OperatorReselect; RadioCycle; ModuleReset].

(** [attempts] is the deque of action times, the oldest first; the empty
    [_last_recovery_action] is [None]. *)
Record saved := mkSaved {
  attempts : list Z; stage : Z; sequence : Z; inflight : option (action * Z); issue_open : bool;
  last_action : option action; last_attempt : Z; limit_reported : bool }.

(** The worker's fields: the persisted ones, and those a restart forgets.
    [store] is the key/value entry. *)
Record recovery := mkRecovery {
  now_ : saved; unregistered_since : option Z; health_failures : Z; store : option saved }.

Record config := mkConfig {
  recovery_max_attempts_24h : Z; registration_recovery_delay : Z; recovery_cooldown : Z;
  health_failure_threshold : Z }.

Inductive outcome := Started | Succeeded | Cancelled | Failed | Exhausted.

(** The [device_recovery] log events. *)
Record event := mkEvent { e_action : action; e_outcome : outcome; e_attempt : Z }.

Definition no_saved : saved := mkSaved [] 0 0 None false None 0 false.

Definition in_window (now t : Z) : bool := (0 <=? now - t) && (now - t <? RECOVERY_WINDOW).

(** [_load_recovery_state] in [__init__]. *)
Definition load (now : Z) (st : option saved) : recovery :=
  mkRecovery
    (match st with
     | None => no_saved
     | Some s =>
         mkSaved (merge_sort Z.le (filter (fun t => in_window now t = true) (attempts s)))
           (if (0 <=? stage s) && (stage s <? 3) then stage s else 0)
           (Z.max 0 (sequence s))
           (match inflight s with Some (a, n) => if 0 <? n then Some (a, n) else None | None => None end)
           (issue_open s) (last_action s) (Z.max 0 (last_attempt s)) (limit_reported s)
     end) None 0 st.

Definition set_now (s : saved) (r : recovery) : recovery :=
  mkRecovery s (unregistered_since r) (health_failures r) (store r).
Definition set_unregistered (u : option Z) (r : recovery) : recovery :=
  mkRecovery (now_ r) u (health_failures r) (store r).

Definition persist (r : recovery) : recovery :=
  mkRecovery (now_ r) (unregistered_since r) (health_failures r) (Some (now_ r)).

Definition with_attempts (ts : list Z) (s : saved) : saved :=
  mkSaved ts (stage s) (sequence s) (inflight s) (issue_open s) (last_action s) (last_attempt s) (limit_reported s).
Definition with_stage (n : Z) (s : saved) : saved :=
  mkSaved (attempts s) n (sequence s) (inflight s) (issue_open s) (last_action s) (last_attempt s) (limit_reported s).
Definition with_limit (b : bool) (s : saved) : saved :=
  mkSaved (attempts s) (stage s) (sequence s) (inflight s) (issue_open s) (last_action s) (last_attempt s) b.

Definition start_recovery (a : action) (r : recovery) : list event * recovery :=
  let s := now_ r in
  let n := sequence s + 1 in
  ([mkEvent a Started n],
   persist (set_now (mkSaved (attempts s) (stage s) n (Some (a, n)) true (Some a) n (limit_reported s)) r)).

Definition closes (o : outcome) : bool := match o with Succeeded | Cancelled => true | _ => false end.

Definition finish_recovery (a : action) (n : Z) (o : outcome) (r : recovery) : list event * recovery :=
  let s := now_ r in
  ([mkEvent a o n],
   persist (set_now (mkSaved (attempts s) (stage s) (sequence s) None
                       (if closes o then false else issue_open s) (last_action s) (last_attempt s) (limit_reported s)) r)).

(** [_registration_restored] and [_cancel_registration_recovery]. *)
Definition end_watch (o : outcome) (r : recovery) : list event * recovery :=
  let changed := bool_decide (is_Some (unregistered_since r)) || negb (stage (now_ r) =? 0) || limit_reported (now_ r) in
  let r := set_unregistered None (set_now (with_limit false (with_stage 0 (now_ r))) r) in
  if issue_open (now_ r)
  then finish_recovery (default RegistrationWatch (last_action (now_ r))) (last_attempt (now_ r)) o r
  else ([], if changed then persist r else r).

Definition registration_restored : recovery -> list event * recovery := end_watch Succeeded.
Definition cancel_registration_recovery : recovery -> list event * recovery := end_watch Cancelled.

(** The [while] loop over the left end of the deque. *)
Fixpoint drop_expired (now : Z) (ts : list Z) : list Z :=
  match ts with
  | t :: rest => if in_window now t then ts else drop_expired now rest
  | [] => []
  end.

Section worker.
Context (cfg : config).

Definition prune_recovery_attempts (now : Z) (r : recovery) : recovery :=
  let s := now_ r in
  let ts := drop_expired now (attempts s) in
  let lifted := limit_reported s && (Z.of_nat (length ts) <? recovery_max_attempts_24h cfg) in
  let r' := set_now (with_limit (limit_reported s && negb lifted) (with_attempts ts s)) r in
  if negb (bool_decide (ts = attempts s)) || lifted then persist r' else r'.

Definition report_recovery_limit (r : recovery) : list event * recovery :=
  let s := now_ r in
  if limit_reported s then ([], r)
  else
    ([mkEvent RegistrationRecovery Exhausted (last_attempt s)],
     persist (set_now (mkSaved (attempts s) (stage s) (sequence s) (inflight s) true (Some RegistrationRecovery)
                         (last_attempt s) true) r)).

(** [_maybe_recover_registration] up to the call to the modem, if it makes one. *)
Definition recover_begin (now : Z) (radio_enabled : option bool) (manual registered : bool) (r : recovery) :
    list event * recovery * option (action * Z) :=
  if bool_decide (radio_enabled = Some false) then (cancel_registration_recovery r, None)
  else if manual then (cancel_registration_recovery r, None)
  else if registered then (registration_restored r, None)
  else if recovery_max_attempts_24h cfg =? 0 then (cancel_registration_recovery r, None)
  else
    let since := default now (unregistered_since r) in
    let r := set_unregistered (Some since) r in
    if now - since <? registration_recovery_delay cfg then ([], r, None)
    else
      let r := prune_recovery_attempts now r in
      let ts := attempts (now_ r) in
      if recovery_max_attempts_24h cfg <=? Z.of_nat (length ts) then (report_recovery_limit r, None)
      else if match last ts with Some t => now - t <? recovery_cooldown cfg | None => false end then ([], r, None)
      else
        let a := nth (Z.to_nat (stage (now_ r))) REGISTRATION_RECOVERY_ACTIONS OperatorReselect in
        let '(es, r) := start_recovery a (set_now (with_attempts (ts ++ [now]) (now_ r)) r) in
        (es, r, Some (a, sequence (now_ r))).

(** How the call ends: for a reselection or a radio cycle, whether the module
    is registered again, or the [ATError] it raised; a reset is never awaited
    further, whether it was acknowledged or not. *)
Inductive answer := Recovered (b : bool) | Raised.

(** The rest of it; [false] when the method raises and the port is reopened. *)
Definition recover_end (now : Z) (a : action) (attempt : Z) (ans : answer) (r : recovery) :
    list event * recovery * bool :=
  match a, ans with
  | ModuleReset, _ =>
      ([], persist (set_unregistered (Some now) (set_now (with_stage 0 (now_ r)) r)), false)
  | _, Raised => ([], r, false)
  | _, Recovered true =>
      (finish_recovery a attempt Succeeded
         (set_unregistered None (set_now (with_limit false (with_stage 0 (now_ r))) r)), true)
  | _, Recovered false =>
      (finish_recovery a attempt Failed
         (set_now (with_stage ((stage (now_ r) + 1) mod 3) (now_ r)) r), true)
  end.

(** [_check_health]: [Some true] healthy, [Some false] not yet alarming, [None]
    when it raises and the port is reopened. *)
Definition check_health (ok : bool) (r : recovery) : list event * recovery * option bool :=
  if ok then ([], mkRecovery (now_ r) (unregistered_since r) 0 (store r), Some true)
  else
    let n := health_failures r + 1 in
    let r := mkRecovery (now_ r) (unregistered_since r) n (store r) in
    if n <? health_failure_threshold cfg then ([], r, Some false)
    else (start_recovery SerialReconnect r, None).

(** The recovery a reopened port was part of. *)
Definition settle_inflight (off registered : bool) (r : recovery) : list event * recovery :=
  match inflight (now_ r) with
  | Some (a, n) =>
      finish_recovery a n
        (if bool_decide (a = SerialReconnect) then Succeeded
         else if off then Cancelled
         else if registered then Succeeded else Failed) r
  | None => ([], r)
  end.

(** [_settle_recovery_after_connect], after [_connect] has cleared the health
    counter. *)
Definition settle_after_connect (now : Z) (radio_enabled : option bool) (registered : bool) (r : recovery) :
    list event * recovery :=
  let r := mkRecovery (now_ r) (unregistered_since r) 0 (store r) in
  let off := bool_decide (radio_enabled = Some false) in
  let '(es1, r) := settle_inflight off registered r in
  let '(es2, r) := if registered then registration_restored r
                   else if off then cancel_registration_recovery r
                   else ([], set_unregistered (Some now) r) in
  (es1 ++ es2, r).

(** ** Histories *)

(** What can happen to a worker: the clock moves, a status sample runs the
    methods above, the operator's commands call the two ends of a watch, the
    agent restarts.  The list holds the times of the recovery actions the modem
    was asked for. *)
Inductive step : Z * recovery * list Z -> Z * recovery * list Z -> Prop :=
| step_clock now now' r acts : now <= now' -> step (now, r, acts) (now', r, acts)
| step_begin now radio manual registered r acts :
    step (now, r, acts)
      (now, (recover_begin now radio manual registered r).1.2,
       acts ++ match (recover_begin now radio manual registered r).2 with Some _ => [now] | None => [] end)
| step_end now now0 a n ans r acts : step (now, r, acts) (now, (recover_end now0 a n ans r).1.2, acts)
| step_health now ok r acts : step (now, r, acts) (now, (check_health ok r).1.2, acts)
| step_connect now radio registered r acts :
    step (now, r, acts) (now, (settle_after_connect now radio registered r).2, acts)
| step_watch now o r acts : step (now, r, acts) (now, (end_watch o r).2, acts)
| step_unregistered now u r acts : step (now, r, acts) (now, set_unregistered u r, acts)
| step_restart now r acts : step (now, r, acts) (now, load now (store r), acts).

(** [ts] has every action of the last 24 hours. *)
Definition covers (now : Z) (acts ts : list Z) : Prop :=
  exists old, acts = old ++ ts /\ Forall (fun t => RECOVERY_WINDOW <= now - t) old.

Definition stored (r : recovery) : list Z := match store r with Some s => attempts s | None => [] end.

Record inv (now : Z) (r : recovery) (acts : list Z) : Prop := {
  inv_sorted : StronglySorted Z.le acts;
  inv_past : Forall (fun t => t <= now) acts;
  inv_now : covers now acts (attempts (now_ r));
  inv_store : covers now acts (stored r);
  inv_limit : forall pre u post, acts = pre ++ u :: post ->
    Z.of_nat (length (filter (fun t => u - t < RECOVERY_WINDOW) (pre ++ [u]))) <= recovery_max_attempts_24h cfg;
  inv_cooldown : forall pre t u post, acts = pre ++ t :: u :: post ->
    Z.min (recovery_cooldown cfg) RECOVERY_WINDOW <= u - t }.

Lemma covers_later now now' acts ts : now <= now' -> covers now acts ts -> covers now' acts ts.
Proof. intros Hle (old & -> & Ho). exists old. split; [done|]. eapply Forall_impl; [exact Ho|]. simpl. intros; lia. Qed.

Lemma sorted_suffix (a b : list Z) : StronglySorted Z.le (a ++ b) -> StronglySorted Z.le b.
Proof. induction a as [|x a IH]; simpl; [done|]. intros Hs. apply IH. by inversion Hs. Qed.

Lemma drop_expired_suffix now ts : exists old, ts = old ++ drop_expired now ts /\
  Forall (fun t => in_window now t = false) old.
Proof.
  induction ts as [|t ts (old & E & Ho)]; simpl; [by exists []|]. destruct (in_window now t) eqn:Et; [by exists []|].
  exists (t :: old). rewrite E at 1. split; [done|by constructor].
Qed.

Lemma expired_old now t : t <= now -> in_window now t = false -> RECOVERY_WINDOW <= now - t.
Proof. unfold in_window. lia. Qed.

(** Expired times may be dropped from the left. *)
Lemma covers_drop now acts old ts :
  Forall (fun t => t <= now) acts -> Forall (fun t => in_window now t = false) old ->
  covers now acts (old ++ ts) -> covers now acts ts.
Proof.
  intros Hp Ho (old' & -> & Ho'). exists (old' ++ old). split; [by rewrite app_assoc|]. apply Forall_app. split; [done|].
  rewrite !Forall_app in Hp. destruct Hp as (_ & Hp & _). rewrite Forall_forall in *. intros t Ht.
  apply expired_old; auto.
Qed.

(** The in-window times of a covering list are all of it, once sorted. *)
Lemma filter_window_suffix now ts : StronglySorted Z.le ts -> Forall (fun t => t <= now) ts ->
  exists old, ts = old ++ filter (fun t => in_window now t = true) ts /\ Forall (fun t => in_window now t = false) old.
Proof.
  induction 1 as [|t ts Hs IH Ht]; intros Hp; [by exists []|]. apply Forall_cons in Hp as [Hp Hps].
  destruct (IH Hps) as (old & E & Ho). rewrite filter_cons. case_decide as Hw.
  - exists []. split; [|constructor]. simpl. f_equal. symmetry. apply filter_id. rewrite Forall_forall in *.
    intros x Hx. specialize (Ht x Hx). specialize (Hps x Hx). unfold in_window in *. lia.
  - exists (t :: old). rewrite E at 1. split; [done|]. constructor; [by destruct (in_window now t)|done].
Qed.

Lemma merge_sort_sorted (ts : list Z) : StronglySorted Z.le ts -> merge_sort Z.le ts = ts.
Proof.
  intros Hs. apply (StronglySorted_unique Z.le); [apply StronglySorted_merge_sort; apply _|done|apply merge_sort_Permutation].
Qed.

Lemma covers_sorted now acts ts : StronglySorted Z.le acts -> covers now acts ts -> StronglySorted Z.le ts.
Proof. intros Hs (old & -> & _). by eapply sorted_suffix. Qed.

Lemma covers_past now acts ts : Forall (fun t => t <= now) acts -> covers now acts ts -> Forall (fun t => t <= now) ts.
Proof. intros Hs (old & -> & _). by apply Forall_app in Hs as [_ ?]. Qed.

(** Steps that keep the action times. *)
Definition keeps_attempts (r r' : recovery) : Prop :=
  attempts (now_ r') = attempts (now_ r) /\ (store r' = store r \/ store r' = Some (now_ r')).

Lemma keeps_inv now r r' acts : keeps_attempts r r' -> inv now r acts -> inv now r' acts.
Proof.
  intros [E1 E2] [H1 H2 H3 H4 H5 H6]. split; [done|done|by rewrite E1| |done|done]. unfold stored.
  destruct E2 as [-> | ->]; [done|by rewrite E1].
Qed.

Lemma finish_keeps a n o r : keeps_attempts r (finish_recovery a n o r).2.
Proof. split; [done|by right]. Qed.

Lemma start_keeps a r : keeps_attempts r (start_recovery a r).2.
Proof. split; [done|by right]. Qed.

Lemma end_watch_keeps o r : keeps_attempts r (end_watch o r).2.
Proof.
  unfold end_watch. cbn [issue_open now_ set_unregistered set_now with_limit with_stage].
  destruct (issue_open (now_ r)); [split; [done|by right]|]. case_match; [split; [done|by right]|split; [done|by left]].
Qed.

Lemma check_health_keeps ok r : keeps_attempts r (check_health ok r).1.2.
Proof.
  unfold check_health. destruct ok; [split; [done|by left]|]. case_match; [split; [done|by left]|split; [done|by right]].
Qed.

Lemma recover_end_keeps now a n ans r : keeps_attempts r (recover_end now a n ans r).1.2.
Proof.
  unfold recover_end. destruct a, ans as [[]|]; (split; [done|first [by right|by left]]).
Qed.

Lemma clock_inv now now' r acts : now <= now' -> inv now r acts -> inv now' r acts.
Proof.
  intros Hle [H1 H2 H3 H4 H5 H6]. split; try done; [|by eapply covers_later..].
  eapply Forall_impl; [exact H2|]. simpl. intros; lia.
Qed.

Lemma connect_inv now radio registered r acts :
  inv now r acts -> inv now (settle_after_connect now radio registered r).2 acts.
Proof.
  intros Hi. unfold settle_after_connect.
  set (r0 := mkRecovery (now_ r) (unregistered_since r) 0 (store r)).
  assert (Hi0 : inv now r0 acts) by (eapply keeps_inv; [|exact Hi]; split; [done|by left]).
  set (off := bool_decide (radio = Some false)).
  assert (Hi1 : inv now (settle_inflight off registered r0).2 acts).
  { unfold settle_inflight. destruct (inflight (now_ r0)) as [[a n]|]; [|exact Hi0].
    eapply keeps_inv; [apply finish_keeps|exact Hi0]. }
  destruct (settle_inflight off registered r0) as [es r1]. cbn [snd] in Hi1. destruct registered; [|destruct off].
  - assert (H := keeps_inv _ _ _ _ (end_watch_keeps Succeeded r1) Hi1). unfold registration_restored.
    by destruct (end_watch Succeeded r1).
  - assert (H' := keeps_inv _ _ _ _ (end_watch_keeps Cancelled r1) Hi1). unfold cancel_registration_recovery.
    by destruct (end_watch Cancelled r1).
  - cbn [snd]. eapply keeps_inv; [|exact Hi1]. split; [done|by left].
Qed.

Lemma restart_inv now r acts : inv now r acts -> inv now (load now (store r)) acts.
Proof.
  intros [H1 H2 H3 H4 H5 H6]. unfold stored in H4. split; try done.
  unfold load. destruct (store r) as [s|]; [|exact H4]. cbn [now_ attempts].
  assert (Hs := covers_sorted _ _ _ H1 H4). assert (Hp := covers_past _ _ _ H2 H4).
  rewrite merge_sort_sorted by by apply StronglySorted_filter.
  destruct (filter_window_suffix now (attempts s) Hs Hp) as (old & E & Ho).
  eapply covers_drop; [exact H2|exact Ho|by rewrite <- E].
Qed.

(** After pruning, the deque still covers the window. *)
Lemma prune_inv now r acts :
  inv now r acts -> inv now (prune_recovery_attempts now r) acts /\
    attempts (now_ (prune_recovery_attempts now r)) = drop_expired now (attempts (now_ r)).
Proof.
  intros [H1 H2 H3 H4 H5 H6]. destruct (drop_expired_suffix now (attempts (now_ r))) as (old & E & Ho).
  assert (Hc : covers now acts (drop_expired now (attempts (now_ r)))).
  { eapply covers_drop; [exact H2|exact Ho|by rewrite <- E]. }
  unfold prune_recovery_attempts. cbn zeta. case_match; (split; [|done]); by split.
Qed.

Lemma last_snoc_eq {A} (l : list A) x y : last (l ++ [x]) = Some y -> x = y.
Proof. rewrite last_snoc. congruence. Qed.

(** A new action within the limits. *)
Lemma act_inv now r acts ts :
  inv now r acts -> covers now acts ts -> Z.of_nat (length ts) < recovery_max_attempts_24h cfg ->
  (forall t, last ts = Some t -> recovery_cooldown cfg <= now - t) ->
  forall r', attempts (now_ r') = ts ++ [now] -> store r' = Some (now_ r') -> inv now r' (acts ++ [now]).
Proof.
  intros [H1 H2 H3 H4 H5 H6] (old & E & Ho) Hlen Hcool r' Er Es.
  assert (Hc : covers now (acts ++ [now]) (attempts (now_ r'))).
  { exists old. split; [|done]. by rewrite Er, E, app_assoc. }
  split.
  - apply StronglySorted_app_2; [|done|repeat constructor]. intros a b Ha ->%list_elem_of_singleton.
    rewrite Forall_forall in H2. by apply H2.
  - apply Forall_app. split; [done|]. by apply Forall_singleton.
  - done.
  - unfold stored. by rewrite Es.
  - intros pre u post Epost. destruct post as [|p post _] using rev_ind.
    + apply app_inj_tail in Epost as [<- <-]. rewrite filter_app, length_app, E, filter_app, length_app.
      rewrite (filter_none _ old) by (intros t Ht; rewrite Forall_forall in Ho; specialize (Ho t Ht); lia).
      pose proof (length_filter (fun t => now - t < RECOVERY_WINDOW) ts).
      pose proof (length_filter (fun t => now - t < RECOVERY_WINDOW) [now]). simpl in *. lia.
    + rewrite app_comm_cons, app_assoc in Epost. apply app_inj_tail in Epost as [-> _]. by eapply H5.
  - intros pre t u post Epost. destruct post as [|p post _] using rev_ind.
    + change (pre ++ [t; u]) with (pre ++ [t] ++ [u]) in Epost. rewrite app_assoc in Epost.
      apply app_inj_tail in Epost as [Ea <-]. destruct ts as [|x ts _] using rev_ind.
      * rewrite app_nil_r in E. assert (Ht : t ∈ old) by (rewrite <- E, Ea; set_solver).
        rewrite Forall_forall in Ho. specialize (Ho t Ht). lia.
      * rewrite E, app_assoc in Ea. apply app_inj_tail in Ea as [_ ->]. specialize (Hcool t (last_snoc _ _)). lia.
    + rewrite 2!app_comm_cons, app_assoc in Epost. apply app_inj_tail in Epost as [-> _]. by eapply H6.
Qed.

Lemma begin_inv now radio manual registered r acts :
  inv now r acts ->
  inv now (recover_begin now radio manual registered r).1.2
    (acts ++ match (recover_begin now radio manual registered r).2 with Some _ => [now] | None => [] end).
Proof.
  intros Hi. assert (Hw : forall o, inv now (end_watch o r).2 acts) by (intros o; eapply keeps_inv; [apply end_watch_keeps|done]).
  unfold recover_begin. case_bool_decide; [rewrite app_nil_r; apply Hw|]. destruct manual; [rewrite app_nil_r; apply Hw|].
  destruct registered; [rewrite app_nil_r; apply Hw|]. destruct (recovery_max_attempts_24h cfg =? 0); [rewrite app_nil_r; apply Hw|].
  set (r1 := set_unregistered _ r).
  assert (Hi1 : inv now r1 acts) by (eapply keeps_inv; [|exact Hi]; split; [done|by left]).
  case_match; [by rewrite app_nil_r|]. destruct (prune_inv now r1 acts Hi1) as [Hi2 _].
  set (r2 := prune_recovery_attempts now r1) in *.
  destruct (Z.leb_spec (recovery_max_attempts_24h cfg) (Z.of_nat (length (attempts (now_ r2))))) as [|Hlt].
  { cbn [fst snd]. rewrite app_nil_r. eapply keeps_inv; [|exact Hi2]. unfold report_recovery_limit.
    destruct (limit_reported (now_ r2)); [split; [done|by left]|split; [done|by right]]. }
  destruct (match last (attempts (now_ r2)) with Some t => _ | None => false end) eqn:Ec; [by rewrite app_nil_r|].
  unfold start_recovery. cbn [fst snd now_ set_now persist sequence].
  eapply act_inv; [exact Hi2|apply Hi2|exact Hlt| |done|done].
  intros t Ht. rewrite Ht in Ec. lia.
Qed.

Lemma recovery_step_inv now r acts now' r' acts' : step (now, r, acts) (now', r', acts') -> inv now r acts -> inv now' r' acts'.
Proof.
  intros H Hi. inversion H; subst.
  - by eapply clock_inv.
  - by apply begin_inv.
  - eapply keeps_inv; [apply recover_end_keeps|done].
  - eapply keeps_inv; [apply check_health_keeps|done].
  - by apply connect_inv.
  - eapply keeps_inv; [apply end_watch_keeps|done].
  - eapply keeps_inv; [|exact Hi]. split; [done|by left].
  - by apply restart_inv.
Qed.

Lemma first_inv now : inv now (load now None) [].
Proof.
  split; try (by constructor); try (by exists []); intros pre; intros; destruct pre; discriminate.
Qed.

(** C33 (bounds): automatic recovery of the registration cannot hammer a module.
    However long the worker runs, whatever its samples say, and however often
    the agent restarts (short of turning the clock back), any 24 hours hold at
    most the configured number of its actions (reselecting the operator, cycling
    the radio, resetting the module), and two of them in a row are at least the
    configured cool-down apart, or 24 hours when the cool-down is longer than
    that: the code forgets an action after 24 hours, so a longer cool-down is
    not kept (see [long_cooldown_forgotten]).  Reopening the port after failed
    health checks is not counted among the actions, by the code nor here. *)
Theorem recovery_rate_limited now0 now r acts :
  rtc step (now0, load now0 None, []) (now, r, acts) ->
  (forall pre u post, acts = pre ++ u :: post ->
     Z.of_nat (length (filter (fun t => u - t < RECOVERY_WINDOW) (pre ++ [u]))) <= recovery_max_attempts_24h cfg) /\
  (forall pre t u post, acts = pre ++ t :: u :: post ->
     Z.min (recovery_cooldown cfg) RECOVERY_WINDOW <= u - t).
Proof.
  intros H. enough (Hi : inv now r acts) by (split; apply Hi).
  remember (now0, load now0 None, []) as x eqn:Ex. remember (now, r, acts) as y eqn:Ey.
  assert (Hx : inv x.1.1 x.1.2 x.2) by (subst; apply first_inv). clear Ex.
  revert now r acts Ey. induction H as [x|[[n1 r1] a1] [[n2 r2] a2] z Hs _ IH]; intros now r acts ->; [done|].
  apply IH; [|done]. by eapply recovery_step_inv.
Qed.

End worker.

(** Three samples of an unregistered module under a limit of one action: the
    first starts the watch, the second acts, the third, an hour later and after
    a restart, reports the limit. *)
Definition sample_config : config := mkConfig 1 (300 * SECOND) (300 * SECOND) 3.
Definition sample_1 : recovery := (recover_begin sample_config 0 (Some true) false false (load 0 None)).1.2.
Definition sample_2 : recovery := (recover_begin sample_config (300 * SECOND) (Some true) false false sample_1).1.2.
Definition sample_3 : recovery :=
  (recover_begin sample_config (4000 * SECOND) (Some true) false false
    (set_unregistered (Some 0) (load (4000 * SECOND) (store sample_2)))).1.2.

Lemma recovery_sample_steps :
  rtc (step sample_config) (0, load 0 None, []) (4000 * SECOND, sample_3, [300 * SECOND]).
Proof.
  eapply rtc_l; [apply (step_begin _ 0 (Some true) false false)|].
  eapply rtc_l; [apply (step_clock _ 0 (300 * SECOND)); unfold SECOND; lia|].
  eapply rtc_l; [apply (step_begin _ (300 * SECOND) (Some true) false false)|].
  eapply rtc_l; [apply (step_clock _ _ (4000 * SECOND)); unfold SECOND; lia|].
  eapply rtc_l; [apply step_restart|]. eapply rtc_l; [apply (step_unregistered _ _ (Some 0))|].
  eapply rtc_l; [apply (step_begin _ (4000 * SECOND) (Some true) false false)|].
  match goal with |- rtc _ ?x ?y => assert (E : x = y) by (vm_compute; reflexivity); rewrite E end. apply rtc_refl.
Qed.

Lemma recovery_rate_limited_witness :
  limit_reported (now_ sample_3) = true /\
  Z.of_nat (length (filter (fun t => 300 * SECOND - t < RECOVERY_WINDOW) ([] ++ [300 * SECOND]))) <= 1.
Proof.
  split; [by vm_compute|].
  by apply (proj1 (recovery_rate_limited sample_config 0 _ _ _ recovery_sample_steps) [] (300 * SECOND) []).
Defined.

(** With a cool-down of two days the second action comes after one. *)
Definition patient_config : config := mkConfig 6 (300 * SECOND) (48 * 60 * 60 * SECOND) 3.
Definition patient_1 : recovery := (recover_begin patient_config 0 (Some true) false false (load 0 None)).1.2.
Definition patient_2 := recover_begin patient_config (300 * SECOND) (Some true) false false patient_1.
Definition patient_3 := recover_begin patient_config (300 * SECOND + RECOVERY_WINDOW) (Some true) false false patient_2.1.2.

Example long_cooldown_forgotten :
  fst <$> patient_2.2 = Some OperatorReselect /\ fst <$> patient_3.2 = Some OperatorReselect
  /\ rtc (step patient_config) (0, load 0 None, [])
       (300 * SECOND + RECOVERY_WINDOW, patient_3.1.2, [300 * SECOND; 300 * SECOND + RECOVERY_WINDOW]).
Proof.
  split; [by vm_compute|]. split; [by vm_compute|].
  eapply rtc_l; [apply (step_begin _ 0 (Some true) false false)|].
  eapply rtc_l; [apply (step_clock _ 0 (300 * SECOND)); unfold SECOND; lia|].
  eapply rtc_l; [apply (step_begin _ (300 * SECOND) (Some true) false false)|].
  eapply rtc_l; [apply (step_clock _ _ (300 * SECOND + RECOVERY_WINDOW)); unfold RECOVERY_WINDOW, SECOND; lia|].
  eapply rtc_l; [apply (step_begin _ (300 * SECOND + RECOVERY_WINDOW) (Some true) false false)|].
  match goal with |- rtc _ ?x ?y => assert (E : x = y) by (vm_compute; reflexivity); rewrite E end. apply rtc_refl.
Qed.

End Recovery.

(** ** Packet data *)

Module DataPolicy.

(** The fields of [DeviceState] the policy reads and writes; [None] is unknown. *)
Record data_state := mkData {
  data_enabled : bool; data_attached : option bool; pdp_active : option bool; roaming : option bool;
  roaming_data_allowed : bool; data_blocked_by_roaming : bool; registered : bool; online : bool }.

(** The stored policies, "1" or anything else. *)
Record policies := mkPolicies { data_policy : option pystr; roaming_policy : option pystr }.

Definition desired_data_enabled (ps : policies) : bool := bool_decide (default (str "0") (data_policy ps) = str "1").
Definition desired_roaming_data_allowed (ps : policies) : bool :=
  bool_decide (default (str "0") (roaming_policy ps) = str "1").

Definition policy_text (b : bool) : pystr := if b then str "1" else str "0".

(** The modem: what it reports (attached, active), and what it reports after
    being told to turn data off or to attach. *)
Record modem := mkModem { reports : option bool * option bool; turned_off : option bool * option bool; turned_on : option bool * option bool }.

Inductive command := SetDataEnabled (b : bool).

#[export] Instance command_eq_dec : EqDecision command.
Proof. solve_decision. Defined.

Definition with_status (x : option bool * option bool) (s : data_state) : data_state :=
  mkData (data_enabled s) x.1 x.2 (roaming s) (roaming_data_allowed s) (data_blocked_by_roaming s)
    (registered s) (online s).

(** [_enforce_data_policy] against a modem that can report its data state. *)
Definition enforce_data_policy (ps : policies) (m : modem) (force : bool) (s : data_state) :
    option command * data_state :=
  let allowed := desired_roaming_data_allowed ps in
  let s := with_status (reports m) s in
  let desired := desired_data_enabled ps in
  let blocked := desired && negb (bool_decide (roaming s = Some false)) && negb allowed in
  let effective := desired && negb blocked in
  let s := mkData effective (data_attached s) (pdp_active s) (roaming s) allowed blocked (registered s) (online s) in
  let data_is_on := bool_decide (pdp_active s = Some true) in
  let needs_attach := registered s && bool_decide (data_attached s = Some false) in
  if negb effective && (data_is_on || needs_attach || (force && bool_decide (pdp_active s = None)))
  then (Some (SetDataEnabled false), with_status (turned_off m) s)
  else if desired && negb blocked && needs_attach
  then
    let s := with_status (turned_on m) s in
    (Some (SetDataEnabled true),
     mkData true (data_attached s) (pdp_active s) (roaming s) allowed blocked (registered s) (online s))
  else (None, s).

(** What [_connect] knows before its first enforcement. *)
Definition connected (ps : policies) (info_roaming info_attached info_active : option bool) (info_registered : bool) :
    data_state :=
  mkData (desired_data_enabled ps) info_attached info_active info_roaming (desired_roaming_data_allowed ps) false
    info_registered true.

Definition go_offline (s : data_state) : data_state :=
  mkData false None None (roaming s) (roaming_data_allowed s) false (registered s) false.

(** [set_data_enabled] and [set_roaming_data_allowed]: persist, look at the
    registration again unless the radio is off, enforce. *)
Definition reread (radio_off : bool) (reg : bool) (roam : option bool) (s : data_state) : data_state :=
  if radio_off then s
  else mkData (data_enabled s) (data_attached s) (pdp_active s) roam (roaming_data_allowed s)
         (data_blocked_by_roaming s) reg (online s).

Definition set_data_enabled (b radio_off reg : bool) (roam : option bool) (m : modem) (ps : policies) (s : data_state) :
    policies * (option command * data_state) :=
  let ps := mkPolicies (Some (policy_text b)) (roaming_policy ps) in
  (ps, enforce_data_policy ps m true (reread radio_off reg roam s)).

Definition set_roaming_data_allowed (b radio_off reg : bool) (roam : option bool) (m : modem) (ps : policies)
    (s : data_state) : policies * (option command * data_state) :=
  let ps := mkPolicies (data_policy ps) (Some (policy_text b)) in
  (ps, enforce_data_policy ps m (negb b) (reread radio_off reg roam s)).

(** Operations that may use data: [None] when [ping] raises DeviceOffline
    without a word to the modem. *)
Definition ping (s : data_state) : option unit := if data_enabled s && online s then Some tt else None.

(** User data fails closed.  After the policy has been enforced,
    data may be used only if the operator turned it on and the module is known
    to be at home, or roaming data was allowed explicitly; an unknown roaming
    state counts as roaming.  If data may not be used, the modem is told to turn
    it off whenever a data session is up (and, on request, when that is
    unknown), and is never told to turn it on. *)
Theorem data_policy_fails_closed ps m force s :
  let '(c, s') := enforce_data_policy ps m force s in
  (data_enabled s' = true <->
     data_policy ps = Some (str "1") /\ (roaming s = Some false \/ roaming_policy ps = Some (str "1"))) /\
  (data_enabled s' = false ->
     c <> Some (SetDataEnabled true) /\
     (c = Some (SetDataEnabled false) <->
        (reports m).2 = Some true \/ (registered s = true /\ (reports m).1 = Some false) \/
        (force = true /\ (reports m).2 = None))) /\
  (data_blocked_by_roaming s' = true <->
     data_policy ps = Some (str "1") /\ data_enabled s' = false).
Proof.
  assert (H1 : forall o : option (list Z), bool_decide (default (str "0") o = str "1") = bool_decide (o = Some (str "1"))).
  { intros [o|]; [|done]. unfold default, id. cbn. apply bool_decide_ext. split; congruence. }
  unfold enforce_data_policy, desired_data_enabled, desired_roaming_data_allowed. rewrite !H1.
  set (one := Some (str "1")). clearbody one.
  destruct m as [[att act] off on]. unfold with_status. cbn [reports fst snd roaming pdp_active data_attached registered].
  destruct (decide (data_policy ps = one)) as [Hd|Hd], (decide (roaming_policy ps = one)) as [Hr|Hr],
    (decide (roaming s = Some false)) as [Hs|Hs];
    rewrite ?(bool_decide_eq_true_2 _ Hd), ?(bool_decide_eq_false_2 _ Hd), ?(bool_decide_eq_true_2 _ Hr),
      ?(bool_decide_eq_false_2 _ Hr), ?(bool_decide_eq_true_2 _ Hs), ?(bool_decide_eq_false_2 _ Hs);
    cbn [andb orb negb]; (destruct att as [[]|], act as [[]|], (registered s), force; cbn; clear -Hd Hr Hs;
     (split; [|(split; [decide_closed|])]); cbn; intuition congruence).
Qed.

(** Turning data off, or forbidding it while roaming, takes
    effect at once and survives a reconnection: afterwards no ping is sent until
    the operator changes the policy again. *)
Theorem data_off_is_off b radio_off reg roam m ps s :
  let '(ps', (_, s')) := set_data_enabled false radio_off reg roam m ps s in
  ping s' = None /\ ping (go_offline s') = None /\
  (forall r a c g, ping (connected ps' r a c g) = None) /\
  (forall force m' s2, ping (enforce_data_policy ps' m' force s2).2 = None) /\
  let '(ps2, (_, s2)) := set_roaming_data_allowed b radio_off reg roam m ps' s' in ping s2 = None.
Proof.
  assert (Hoff : forall ps', data_policy ps' = Some (str "0") -> forall m' force s2,
    data_enabled (enforce_data_policy ps' m' force s2).2 = false).
  { intros ps' E m' force s2. unfold enforce_data_policy, desired_data_enabled. rewrite E. cbn. by case_match. }
  unfold set_data_enabled, set_roaming_data_allowed. set (ps' := mkPolicies _ _).
  assert (H := Hoff ps' eq_refl m true (reread radio_off reg roam s)).
  destruct (enforce_data_policy ps' m true _) as [c s']. cbn [snd] in H. unfold ping at 1. rewrite H.
  split_and!; try done.
  - intros force m' s2. unfold ping. by rewrite Hoff.
  - set (ps2 := mkPolicies _ _). assert (H2 := Hoff ps2 eq_refl m (negb b) (reread radio_off reg roam s')).
    destruct (enforce_data_policy ps2 m _ _) as [c2 s2]. cbn [snd] in H2. unfold ping. by rewrite H2.
Qed.

(** Between opening the port and the first enforcement the flag follows the
    stored policy alone. *)
Example connected_ignores_roaming :
  ping (connected (mkPolicies (Some (str "1")) None) (Some true) None None true) = Some tt /\
  ping (enforce_data_policy (mkPolicies (Some (str "1")) None) (mkModem (None, None) (None, None) (None, None)) true
          (connected (mkPolicies (Some (str "1")) None) (Some true) None None true)).2 = None.
Proof. split; by vm_compute. Qed.

End DataPolicy.

(** ** Status events *)

Module StatusFilter.

Definition RSSI_NOISE_FLOOR : Z := 2.
Definition VOLTAGE_NOISE_MV : Z := 50.
Definition VOLTAGE_LOW_MV : Z := 3500.
Definition STATUS_HEARTBEAT : Z := 900 * SECOND.

Record Signal := mkSignal { rssi : option Z; ber : option Z; rsrp : option Z; rsrq : option Z }.

Definition dbm (s : Signal) : option Z :=
  r ← rssi s; if 99 <=? r then None else Some (-113 + 2 * r).

Definition bars (s : Signal) : Z :=
  match dbm s with
  | None => 0
  | Some d => if -75 <=? d then 5 else if -85 <=? d then 4 else if -95 <=? d then 3 else if -105 <=? d then 2 else 1
  end.

Record DeviceState := mkState {
  online : bool; registered : bool; radio_enabled : option bool; operator : pystr; iccid : pystr; imei : pystr;
  model : pystr; hardware_model : pystr; firmware : pystr; smsc : pystr; eps_registered : option bool;
  cs_registered : option bool; ims_registered : option bool; data_enabled : bool; data_attached : option bool;
  pdp_active : option bool; roaming : option bool; roaming_data_allowed : bool; data_blocked_by_roaming : bool;
  signal : Signal; storage_used : Z; storage_capacity : Z; voltage_mv : option Z }.

Definition jopt_bool (b : option bool) : json := match b with Some b => JBool b | None => JNull end.
Definition jopt_int (n : option Z) : json := match n with Some n => JInt n | None => JNull end.

Definition describe (s : DeviceState) : frame :=
  [ (str "online", JBool (online s)); (str "registered", JBool (registered s));
    (str "radio_enabled", jopt_bool (radio_enabled s)); (str "operator", JStr (operator s));
    (str "iccid", JStr (iccid s)); (str "imei", JStr (imei s)); (str "model", JStr (model s));
    (str "hardware_model", JStr (hardware_model s)); (str "firmware", JStr (firmware s)); (str "smsc", JStr (smsc s));
    (str "eps_registered", jopt_bool (eps_registered s)); (str "cs_registered", jopt_bool (cs_registered s));
    (str "ims_registered", jopt_bool (ims_registered s)); (str "data_enabled", JBool (data_enabled s));
    (str "data_attached", jopt_bool (data_attached s)); (str "pdp_active", jopt_bool (pdp_active s));
    (str "roaming", jopt_bool (roaming s)); (str "roaming_data_allowed", JBool (roaming_data_allowed s));
    (str "data_blocked_by_roaming", JBool (data_blocked_by_roaming s));
    (str "rssi", jopt_int (rssi (signal s))); (str "dbm", jopt_int (dbm (signal s)));
    (str "bars", JInt (bars (signal s))); (str "rsrp", jopt_int (rsrp (signal s)));
    (str "rsrq", jopt_int (rsrq (signal s))); (str "storage_used", JInt (storage_used s));
    (str "storage_capacity", JInt (storage_capacity s)); (str "voltage_mv", jopt_int (voltage_mv s)) ].

(** [_low_voltage_threshold]; 0 in the configuration is the default. *)
Definition low_voltage_threshold (configured : Z) : Z := if configured =? 0 then VOLTAGE_LOW_MV else configured.

(** The payload [_emit_status] builds. *)
Definition status_payload (name ts port : pystr) (threshold : Z) (s : DeviceState) : frame :=
  [ (str "device", JStr name); (str "ts", JStr ts); (str "port", JStr port); (str "low_voltage_mv", JInt threshold) ]
  ++ describe s.

Definition COMPARED_KEYS : list string :=
  ["online"; "registered"; "radio_enabled"; "eps_registered"; "cs_registered"; "ims_registered"; "data_enabled";
   "data_attached"; "pdp_active"; "roaming"; "roaming_data_allowed"; "data_blocked_by_roaming"; "operator";
   "storage_used"; "port"]%string.

Definition metric_changed (previous payload : frame) (key : string) (floor : Z) : bool :=
  match as_int (jget key previous), as_int (jget key payload) with
  | None, None => false
  | Some a, Some b => floor <=? Z.abs (a - b)
  | _, _ => true
  end.

Definition crossed_voltage_threshold (threshold : Z) (previous payload : frame) : bool :=
  match as_int (jget "voltage_mv" previous), as_int (jget "voltage_mv" payload) with
  | Some a, Some b => negb (Bool.eqb (a <? threshold) (b <? threshold))
  | _, _ => false
  end.

(** [_last_status_payload], [_last_status_sent] *)
Record filter_state := mkFilter { last_payload : option frame; last_sent : Z }.

Definition status_worth_sending (threshold now : Z) (payload : frame) (f : filter_state) : bool :=
  match last_payload f with
  | None => true
  | Some previous =>
      (STATUS_HEARTBEAT <=? now - last_sent f)
      || existsb (fun k => negb (py_eq (jget k previous) (jget k payload))) COMPARED_KEYS
      || metric_changed previous payload "rssi" RSSI_NOISE_FLOOR
      || crossed_voltage_threshold threshold previous payload
      || metric_changed previous payload "voltage_mv" VOLTAGE_NOISE_MV
  end.

(** [Some payload] when a status event is queued. *)
Definition emit_status (force : bool) (threshold now : Z) (payload : frame) (f : filter_state) :
    option frame * filter_state :=
  if negb force && negb (status_worth_sending threshold now payload f) then (None, f)
  else (Some payload, mkFilter (Some payload) now).

(** ** What the server can rely on *)

Definition near (floor : Z) (a b : option Z) : Prop :=
  match a, b with
  | Some a, Some b => Z.abs (a - b) < floor
  | None, None => True
  | _, _ => False
  end.

Lemma py_eq_text s v : py_eq (JStr s) v = true -> v = JStr s.
Proof. destruct v; simpl; try done. by intros ->%bool_decide_eq_true. Qed.

Lemma metric_near previous payload key floor :
  metric_changed previous payload key floor = false ->
  near floor (as_int (jget key previous)) (as_int (jget key payload)).
Proof. unfold metric_changed, near. repeat case_match; simpl; try done; lia. Qed.

(** Equality of two values a status reports. *)
Definition plain_value (v : json) : Prop := match v with JNull | JBool _ | JInt _ | JStr _ => True | _ => False end.
Definition same_kind (v w : json) : Prop :=
  match v, w with
  | JNull, _ | _, JNull | JBool _, JBool _ | JInt _, JInt _ | JStr _, JStr _ => True
  | _, _ => False
  end.

Lemma py_eq_plain v w : plain_value v -> plain_value w -> same_kind v w -> py_eq v w = true -> v = w.
Proof.
  destruct v as [|[]|n| |s| |], w as [|[]|m| |s'| |]; simpl; try done; intros _ _ _ H.
  - by apply Z.eqb_eq in H as ->.
  - by apply bool_decide_eq_true in H as ->.
Qed.

Lemma compared_kinds k name ts port thr s name' ts' port' thr' s' :
  k ∈ COMPARED_KEYS ->
  let v := jget k (status_payload name ts port thr s) in
  let w := jget k (status_payload name' ts' port' thr' s') in
  plain_value v /\ plain_value w /\ same_kind v w.
Proof.
  intros Hk. unfold COMPARED_KEYS in Hk. cbn zeta.
  repeat (apply elem_of_cons in Hk as [->|Hk]); [..|by apply not_elem_of_nil in Hk].
  all: vm_compute; destruct s, s'; repeat case_match; done.
Qed.

(** The server's picture of a module stays current.  After every
    poll, whether or not it led to a status event, the last event sent shows
    what the poll found: the same state and port, the signal within its noise,
    the supply voltage within its noise and on the same side of the alarm
    threshold, and it is younger than the heartbeat. *)
Theorem status_view_current force configured now name ts port s f name0 ts0 port0 s0 :
  (forall p, last_payload f = Some p -> p = status_payload name0 ts0 port0 (low_voltage_threshold configured) s0) ->
  last_sent f <= now ->
  let payload := status_payload name ts port (low_voltage_threshold configured) s in
  exists p, last_payload (emit_status force (low_voltage_threshold configured) now payload f).2 = Some p /\
    Forall (fun k => jget k p = jget k payload) COMPARED_KEYS /\
    near RSSI_NOISE_FLOOR (as_int (jget "rssi" p)) (as_int (jget "rssi" payload)) /\
    near VOLTAGE_NOISE_MV (as_int (jget "voltage_mv" p)) (as_int (jget "voltage_mv" payload)) /\
    (forall a b, as_int (jget "voltage_mv" p) = Some a -> as_int (jget "voltage_mv" payload) = Some b ->
       (a < low_voltage_threshold configured <-> b < low_voltage_threshold configured)) /\
    0 <= now - last_sent (emit_status force (low_voltage_threshold configured) now payload f).2 < STATUS_HEARTBEAT.
Proof.
  intros Hp Hn payload. set (thr := low_voltage_threshold configured) in *.
  assert (Hself : forall floor key, 0 < floor -> near floor (as_int (jget key payload)) (as_int (jget key payload))).
  { intros floor key Hf. unfold near. case_match; [lia|done]. }
  unfold emit_status. destruct (negb force && negb (status_worth_sending thr now payload f)) eqn:E; cbn [snd].
  2: { exists payload. cbn [last_payload last_sent]. split_and!; try done; try (by apply Hself); try (unfold STATUS_HEARTBEAT, SECOND; lia).
       - by apply Forall_forall.
       - intros a b Ha Hb. assert (a = b) as -> by congruence. done. }
  apply andb_true_iff in E as [_ E]. apply negb_true_iff in E. unfold status_worth_sending in E.
  destruct (last_payload f) as [p|] eqn:Ep; [|done]. rewrite !orb_false_iff in E. destruct E as [[[[E1 E2] E3] E4] E5].
  exists p. split_and!; try done; try (by apply metric_near); try lia.
  - apply Forall_forall. intros k Hk. rewrite (Hp p eq_refl) in *.
    destruct (compared_kinds k name0 ts0 port0 thr s0 name ts port thr s Hk) as (H1 & H2 & H3).
    apply (py_eq_plain _ _ H1 H2 H3). destruct (py_eq _ _) eqn:Eq; [exact eq_refl|]. exfalso.
    apply not_true_iff_false in E2. apply E2, existsb_exists. exists k. split; [by apply list_elem_of_In|]. apply negb_true_iff. exact Eq.
  - intros a b Ha Hb. unfold crossed_voltage_threshold in E4. rewrite Ha, Hb in E4. lia.
Qed.

(** A quiet poll a minute after a status event. *)
Definition sample_state (r v : Z) : DeviceState :=
  mkState true true (Some true) (str "46000") (str "8986") (str "8600") [] [] [] [] (Some true) None None false
    (Some true) (Some false) (Some false) false false (mkSignal (Some r) None None None) 1 50 (Some v).
Definition sample_payload (r v : Z) : frame := status_payload (str "m1") (str "t") (str "/dev/ttyACM0") 3500 (sample_state r v).

Lemma status_view_current_witness :
  let f := mkFilter (Some (sample_payload 20 3990)) 0 in
  (emit_status false 3500 (60 * SECOND) (sample_payload 21 4010) f).1 = None /\
  near VOLTAGE_NOISE_MV (Some 3990) (Some 4010) /\
  0 <= 60 * SECOND - last_sent (emit_status false 3500 (60 * SECOND) (sample_payload 21 4010) f).2 < STATUS_HEARTBEAT.
Proof.
  cbn zeta.
  destruct (status_view_current false 0 (60 * SECOND) (str "m1") (str "t") (str "/dev/ttyACM0") (sample_state 21 4010)
    (mkFilter (Some (sample_payload 20 3990)) 0) (str "m1") (str "t") (str "/dev/ttyACM0") (sample_state 20 3990))
    as (p & Hp & _ & _ & Hv & _ & Ha).
  - intros p [= <-]. reflexivity.
  - unfold SECOND. cbn. lia.
  - split; [by vm_compute|]. split; [|exact Ha].
    assert (p = sample_payload 20 3990) as -> by (vm_compute in Hp; injection Hp as <-; by vm_compute). exact Hv.
Defined.

End StatusFilter.
