(* ===== verification/Modem.v ===== *)
(** * Registration, radio and packet data of the module (agent/src/air780e_agent/modem.py)

    The queries and switches of [Air780E] as programs (Driver.v).  An answer that
    cannot be read stays unknown ([None]) wherever the source keeps it so. *)

From S2P Require Import Prelude PyText AtErrors AtClient AtText Driver Worker.
#[local] Open Scope driver_scope.

Module Modem.
Import ATClient AtText Operators Driver.

(** ** The fields of [self.info] *)

Definition set_radio (v : option bool) (i : ModemInfo) : ModemInfo :=
  mkInfo (model i) (manufacturer i) (hardware_model i) (firmware i) (imei i) (iccid i) (smsc i) (operator i)
    (registered i) (eps_registered i) (cs_registered i) (ims_registered i) v (data_attached i) (pdp_active i) (roaming i).
Definition set_data (attached active : option bool) (i : ModemInfo) : ModemInfo :=
  mkInfo (model i) (manufacturer i) (hardware_model i) (firmware i) (imei i) (iccid i) (smsc i) (operator i)
    (registered i) (eps_registered i) (cs_registered i) (ims_registered i) (radio_enabled i) attached active (roaming i).
Definition set_roaming (v : option bool) (i : ModemInfo) : ModemInfo :=
  mkInfo (model i) (manufacturer i) (hardware_model i) (firmware i) (imei i) (iccid i) (smsc i) (operator i)
    (registered i) (eps_registered i) (cs_registered i) (ims_registered i) (radio_enabled i) (data_attached i) (pdp_active i) v.
Definition set_registered (b : bool) (i : ModemInfo) : ModemInfo :=
  mkInfo (model i) (manufacturer i) (hardware_model i) (firmware i) (imei i) (iccid i) (smsc i) (operator i)
    b (eps_registered i) (cs_registered i) (ims_registered i) (radio_enabled i) (data_attached i) (pdp_active i) (roaming i).

Definition update (f : ModemInfo -> ModemInfo) : prog unit := put (fun d => set_info (f (info d)) d).

(** ** Queries *)

(** What AT+CFUN? says of the radio. *)
Definition radio_of (r : ATResponse) : option bool :=
  (fun n => bool_decide (n = str "1")) <$> leading_digits (default [] (first_value (str "+CFUN:") r)).

Definition read_radio_enabled : prog (option bool) :=
  except_at (r <-- execute (str "AT+CFUN?") ;; Ret (radio_of r)) (fun _ => Ret None).

(** [(registered, roaming)] as the first prefix that can be read says it. *)
Fixpoint domain_of (prefixes : list string) (r : ATResponse) : option bool * option bool :=
  match prefixes with
  | [] => (None, None)
  | p :: prefixes =>
      match first_value (43 :: str p ++ [58]) r ≫= second_number with
      | Some state => (Some (is_registered state), Some (bool_decide (state = str "5")))
      | None => domain_of prefixes r
      end
  end.

Definition read_registration_domain_state (command : string) (prefixes : list string) : prog (option bool * option bool) :=
  except_at (r <-- execute (str command) ;; Ret (domain_of prefixes r)) (fun _ => Ret (None, None)).

Definition read_registration_domain (command : string) (prefixes : list string) : prog (option bool) :=
  s <-- read_registration_domain_state command prefixes ;; Ret s.1.

(** Roaming in either domain; unknown when neither says. *)
Definition roaming_of (eps cs : option bool) : option bool :=
  match eps, cs with
  | None, None => None
  | _, _ => Some (known_true eps || known_true cs)
  end.

Definition read_registration_details : prog (option bool * option bool * option bool) :=
  eps <-- read_registration_domain_state "AT+CEREG?" ["CEREG"; "CGREG"]%string ;;
  cs <-- read_registration_domain_state "AT+CREG?" ["CREG"]%string ;;
  Ret (eps.1, cs.1, roaming_of eps.2 cs.2).

Definition read_registration_domains : prog (option bool * option bool) :=
  r <-- read_registration_details ;; Ret r.1.

Definition read_registration : prog bool :=
  r <-- read_registration_details ;;
  update (fun i => set_roaming r.2 (set_domains r.1.1 r.1.2 i)) ;;-
  get (fun d => registered (info d)).

Definition read_ims_registration : prog (option bool) := read_registration_domain "AT+CIREG?" ["CIREG"]%string.

(** ** Packet data *)

Record PdpContextState := mkPdp { cid : Z; active : bool; apn : option pystr }.

(** [(self.apn or "").strip().lower() == "ims"]: no other character lowers to
    one of these. *)
Definition is_ims (a : option pystr) : bool := bool_decide (lower_ascii <$> strip (default [] a) = str "ims").

(** The CID and APN of each definition of AT+CGDCONT?. *)
Definition definition_of (value : pystr) : option (Z * pystr) :=
  match csv_fields value with
  | f0 :: _ :: f2 :: _ => (fun n => (n, strip_quotes f2)) <$> py_int f0
  | _ => None
  end.
Definition definitions_of (r : ATResponse) : gmap Z pystr :=
  foldl (fun m d => <[d.1 := d.2]> m) ∅ (omap definition_of (all_values (str "+CGDCONT:") r)).

(** The CID and state of each context of AT+CGACT?. *)
Definition activation_of (value : pystr) : option (Z * Z) :=
  match csv_fields value with
  | f0 :: f1 :: _ => n ← py_int f0; s ← py_int f1; Some (n, s)
  | _ => None
  end.
Definition states_of (definitions : option (gmap Z pystr)) (r : ATResponse) : list PdpContextState :=
  (fun c => mkPdp c.1 (c.2 =? 1) (definitions ≫= lookup c.1)) <$> omap activation_of (all_values (str "+CGACT:") r).

Definition read_pdp_context_states : prog (option (list PdpContextState)) :=
  definitions <-- except_at (r <-- execute (str "AT+CGDCONT?") ;; Ret (Some (definitions_of r))) (fun _ => Ret None) ;;
  except_at (r <-- execute (str "AT+CGACT?") ;; Ret (Some (states_of definitions r))) (fun _ => Ret None).

(** The active contexts that carry user data; unknown when an active one has no
    readable APN. *)
Definition user_data_contexts (contexts : option (list PdpContextState)) : option (list PdpContextState) :=
  contexts ← contexts;
  if existsb (fun c => active c && bool_decide (apn c = None)) contexts then None
  else Some (List.filter (fun c => active c && negb (is_ims (apn c))) contexts).

Definition attached_of (r : ATResponse) : option bool :=
  (fun n => bool_decide (n = str "1")) <$> leading_digits (default [] (first_value (str "+CGATT:") r)).

Definition read_data_snapshot : prog (option bool * option (list PdpContextState)) :=
  attached <-- except_at (r <-- execute (str "AT+CGATT?") ;; Ret (attached_of r)) (fun _ => Ret None) ;;
  contexts <-- read_pdp_context_states ;;
  Ret (attached, contexts).

Definition some_contexts (l : list PdpContextState) : bool := match l with [] => false | _ => true end.

Definition read_data_status : prog (option bool * option bool) :=
  s <-- read_data_snapshot ;;
  let active := some_contexts <$> user_data_contexts s.2 in
  update (set_data s.1 active) ;;-
  Ret (s.1, active).

Definition deactivate (n : Z) : pystr := str "AT+CGACT=0," ++ decimal n.

Fixpoint deactivate_user_data_contexts (contexts : list PdpContextState) : prog (list at_error) :=
  match contexts with
  | [] => Ret []
  | c :: contexts =>
      e <-- except_at (execute (deactivate (cid c)) ;;- Ret None) (fun e => Ret (Some e)) ;;
      match e with
      | Some e => es <-- deactivate_user_data_contexts contexts ;; Ret (e :: es)
      | None => sleep 1000000 ;;- deactivate_user_data_contexts contexts
      end
  end.

(** [if active_contexts: errors.extend(...)]; [None] and [[]] are both false. *)
Definition deactivate_active (contexts : option (list PdpContextState)) : prog (list at_error) :=
  match user_data_contexts contexts with
  | Some ((_ :: _) as l) => deactivate_user_data_contexts l
  | _ => Ret []
  end.

(** The errors collected are only logged. *)
Definition set_data_enabled (enabled : bool) : prog (option bool * option bool) :=
  (if enabled then execute (str "AT+CGATT=1") ;;- Ret tt
   else
     s <-- read_data_snapshot ;;
     deactivate_active s.2 ;;-
     if known_true s.1 then Ret tt
     else
       e <-- except_at (execute (str "AT+CGATT=1") ;;- Ret None) (fun e => Ret (Some e)) ;;
       match e with
       | Some _ => Ret tt
       | None => s <-- read_data_snapshot ;; deactivate_active s.2 ;;- Ret tt
       end) ;;-
  state <-- read_data_status ;;
  if negb enabled && negb (bool_decide (state.2 = Some false)) then Throw Unconfirmed else Ret state.

(** ** Radio *)

(** What turning RF off leaves of [self.info]. *)
Definition radio_off (i : ModemInfo) : ModemInfo :=
  let i := set_data (Some false) (Some false) (set_roaming (Some false) (set_registered false (set_domains (Some false) (Some false) i))) in
  match ims_registered i with Some _ => set_ims (Some false) i | None => i end.

Definition set_radio_enabled (enabled : bool) : prog (bool * bool) :=
  execute (str (if enabled then "AT+CFUN=1" else "AT+CFUN=0")) ;;-
  update (set_radio (Some enabled)) ;;-
  (if enabled then
     b <-- read_registration ;;
     update (set_registered b) ;;-
     ims <-- read_ims_registration ;;
     update (set_ims ims)
   else update radio_off) ;;-
  b <-- get (fun d => registered (info d)) ;;
  Ret (enabled, b).

Definition automatic_recovery_allowed : prog bool :=
  radio <-- read_radio_enabled ;;
  radio <-- match radio with Some b => Ret (Some b) | None => get (fun d => radio_enabled (info d)) end ;;
  if negb (bool_decide (radio = Some false)) then Ret true
  else
    update (fun i =>
      let i := set_registered false (set_domains (Some false) (Some false) (set_radio (Some false) i)) in
      match ims_registered i with Some _ => set_ims (Some false) i | None => i end) ;;-
    Ret false.

Definition read_and_keep : prog bool :=
  b <-- read_registration ;; update (set_registered b) ;;- Ret b.

Definition reselect_operator : prog bool :=
  ok <-- automatic_recovery_allowed ;;
  if negb ok then Ret false
  else except_at (execute (str "AT+COPS=0") ;;- Ret tt) (fun _ => Ret tt) ;;- read_and_keep.

Definition cycle_radio : prog bool :=
  ok <-- automatic_recovery_allowed ;;
  if negb ok then Ret false
  else
    cycled <-- except_at
      (execute (str "AT+CFUN=0") ;;- sleep 1000000 ;;- execute (str "AT+CFUN=1") ;;- Ret true) (fun _ => Ret false) ;;
    (if cycled : bool then sleep 3000000 else Ret tt) ;;-
    read_and_keep.

Definition recover_registration : prog bool :=
  b <-- reselect_operator ;; if b : bool then Ret true else cycle_radio.

Definition reset : prog unit := execute (str "AT+RESET") ;;- Ret tt.

(** ** Operators *)

Definition OPERATOR_SETTLE_TIMEOUT : Z := 27000000.
Definition OPERATOR_SETTLE_INTERVAL : Z := 3000000.

Definition read_current_operator : prog current_operator :=
  r <-- execute (str "AT+COPS?") ;;
  let current := parse_current_operator (default [] (first_value (str "+COPS:") r)) in
  put (set_mode (co_mode current)) ;;-
  Ret current.

Definition scan_operators : prog (list visible_operator) :=
  r <-- execute (str "AT+COPS=?") ;;
  Ret (parse_operator_scan (py_join [44] (all_values (str "+COPS:") r))).

Fixpoint await_loop (fuel : nat) (deadline interval : Z) : prog bool :=
  match fuel with
  | O => Spin
  | S fuel =>
      b <-- read_registration ;;
      if b : bool then Ret true
      else
        now <-- monotonic ;;
        let remaining := deadline - now in
        if remaining <=? 0 then Ret false
        else sleep (Z.min interval remaining) ;;- await_loop fuel deadline interval
  end.

(** One poll per interval and one after the deadline. *)
Definition await_registration (timeout interval : Z) : prog bool :=
  now <-- monotonic ;; await_loop (Z.to_nat (timeout / interval) + 2) (now + timeout) interval.

Definition select_command (numeric : option pystr) : pystr :=
  match numeric with
  | None => str "AT+COPS=0"
  | Some n => str "AT+COPS=1,2," ++ quote n
  end.

Definition select_operator (numeric : option pystr) : prog (current_operator * bool) :=
  if match numeric with Some n => negb (is_plmn n) | None => false end then Throw ValueError
  else
    execute (select_command numeric) ;;-
    settled <-- await_registration OPERATOR_SETTLE_TIMEOUT OPERATOR_SETTLE_INTERVAL ;;
    current <-- read_current_operator ;;
    put (set_mode (Some (match numeric with None => 0 | Some _ => 1 end))) ;;-
    Ret (current, settled).

(** ** Measurements *)

Definition VOLTAGE_PLAUSIBLE_MV : Z * Z := (2000, 6000).

Definition voltage_of (r : ATResponse) : option Z :=
  value ← first_value (str "+CBC:") r;
  millivolts ← match numbers value with [n] => Some n | _ :: _ :: n :: _ => Some n | _ => None end;
  if (VOLTAGE_PLAUSIBLE_MV.1 <=? millivolts) && (millivolts <=? VOLTAGE_PLAUSIBLE_MV.2) then Some millivolts else None.

Definition read_voltage : prog (option Z) :=
  except_at (r <-- execute (str "AT+CBC") ;; Ret (voltage_of r)) (fun _ => Ret None).

(** [int(p) if p.isdigit()]; [int] refuses the digits that are not decimal. *)
Definition digit_field (p : pystr) : res exn (option Z) :=
  if is_digit p then match py_int p with Some n => Ok (Some n) | None => Err ValueError end else Ok None.

Definition parts_of (value : pystr) : list pystr := strip <$> split_on 44 value.

(** [signal.rssi] and [signal.ber] of AT+CSQ. *)
Definition csq_of (r : ATResponse) : res exn (option Z * option Z) :=
  match first_value (str "+CSQ:") r with
  | None | Some [] => Ok (None, None)
  | Some value =>
      let parts := parts_of value in
      rssi ← digit_field (default [] (parts !! 0%nat));
      ber ← match parts !! 1%nat with Some p => digit_field p | None => Ok None end;
      Ok (rssi, ber)
  end.

(** [signal.rsrp] and [signal.rsrq] of AT+CESQ. *)
Definition cesq_of (r : ATResponse) : res exn (option Z * option Z) :=
  match first_value (str "+CESQ:") r with
  | None | Some [] => Ok (None, None)
  | Some value =>
      let parts := parts_of value in
      if (length parts <? 6)%nat then Ok (None, None)
      else
        let known n := match n with Some 255 => None | n => n end in
        rsrq ← digit_field (default [] (parts !! 4%nat));
        rsrp ← digit_field (default [] (parts !! 5%nat));
        Ok (known rsrp, known rsrq)
  end.

(** [None] for a command that failed. *)
Definition answer (cmd : string) : prog (option ATResponse) :=
  except_at (r <-- execute (str cmd) ;; Ret (Some r)) (fun _ => Ret None).

Definition read_signal : prog StatusFilter.Signal :=
  r <-- answer "AT+CSQ" ;;
  match r with
  | None => Ret (StatusFilter.mkSignal None None None None)
  | Some r =>
      csq <-- of_res (csq_of r) ;;
      r <-- answer "AT+CESQ" ;;
      match r with
      | None => Ret (StatusFilter.mkSignal csq.1 csq.2 None None)
      | Some r => cesq <-- of_res (cesq_of r) ;; Ret (StatusFilter.mkSignal csq.1 csq.2 cesq.1 cesq.2)
      end
  end.

(** The sections of the engineering diagnostics: the lines, or the error. *)
Definition DIAGNOSTICS : list (string * string) :=
  [("cced", "AT+CCED=0,1"); ("cced_neighbors", "AT+CCED=0,2"); ("eemginfo", "AT+EEMGINFO"); ("bandind", "AT*BANDIND?");
   ("sysinfo", "AT^SYSINFO")]%string.

Fixpoint read_sections (l : list (string * string)) : prog (list (string * res at_error (list pystr))) :=
  match l with
  | [] => Ret []
  | (key, command) :: l =>
      x <-- except_at (r <-- execute (str command) ;; Ret (Ok (lines r))) (fun e => Ret (Err e)) ;;
      xs <-- read_sections l ;;
      Ret ((key, x) :: xs)
  end.
Definition read_network_diagnostics : prog (list (string * res at_error (list pystr))) := read_sections DIAGNOSTICS.

(** ** Setup *)

(** [quiet]: the first line, if there is one. *)
Definition quiet (cmd : string) : prog (option pystr) :=
  except_at (r <-- execute (str cmd) ;; Ret (head_of (lines r))) (fun _ => Ret None).

Definition iccid_of (line : option pystr) : pystr :=
  match line with Some ((_ :: _) as v) => strip (cut_out (str "+ICCID:") 0 v) | _ => [] end.

Definition no_network : option bool * option bool * option bool * (option bool * option bool) :=
  (Some false, Some false, Some false, (Some false, Some false)).

Definition read_info : prog ModemInfo :=
  model <-- quiet "ATI" ;; manufacturer <-- quiet "AT+CGMI" ;; hardware <-- quiet "AT+CGMM" ;;
  firmware <-- quiet "AT+CGMR" ;; imei <-- quiet "AT+CGSN" ;;
  iccid <-- quiet "AT+ICCID" ;;
  smsc <-- quiet "AT+CSCA?" ;;
  cops <-- quiet "AT+COPS?" ;;
  operator <-- match cops with
               | Some ((_ :: _) as v) =>
                   let current := parse_current_operator v in put (set_mode (co_mode current)) ;;- Ret (co_operator current)
               | _ => Ret []
               end ;;
  radio <-- read_radio_enabled ;;
  net <-- (if bool_decide (radio = Some false) then Ret no_network
           else net <-- read_registration_details ;; data <-- read_data_status ;; Ret (net, data)) ;;
  ims <-- read_ims_registration ;;
  let '(eps, cs, roaming, (attached, pdp)) := net in
  Ret (mkInfo (default [] model) (default [] manufacturer) (default [] hardware) (default [] firmware) (default [] imei)
         (iccid_of iccid) (default [] (smsc ≫= quoted)) operator (known_true eps || known_true cs) eps cs ims radio attached pdp roaming).

(** A command a module may refuse. *)
Definition optional (cmd : pystr) : prog unit := except_at (execute cmd ;;- Ret tt) (fun _ => Ret tt).

(** [initialize]; the background tasks it starts are [_flush_loop] and
    [_index_loop] (Inbox.v). *)
Definition initialize (storage : pystr) : prog ModemInfo :=
  execute (str "ATE0") ;;- execute (str "AT+CMEE=1") ;;- execute (str "AT+CMGF=0") ;;-
  execute (str "AT+CSCS=" ++ quote (str "GSM")) ;;-
  optional (str "AT+CPMS=" ++ py_join [44] [quote storage; quote storage; quote storage]) ;;-
  execute (str "AT+CNMI=2,1,0,1,0") ;;-
  optional (str "AT+CREG=1") ;;- optional (str "AT+CEREG=1") ;;- optional (str "AT+CIREG=1") ;;- optional (str "AT+CLIP=1") ;;-
  i <-- read_info ;;
  put (set_info i) ;;-
  Ret i.

(** ** Flight mode is not undone *)

(** The module has said that RF is on. *)
Definition said_on (t : list event) : Prop :=
  exists pl r, Sent (str "AT+CFUN?") pl (Ok r) ∈ t /\ radio_of r = Some true.

Definition keeps_radio (d d' : driver) : Prop := radio_enabled (info d') = radio_enabled (info d).
Definition only_asks (t : list event) (cmd : pystr) : Prop := cmd = str "AT+CFUN?" \/ said_on t.

Lemma said_on_app t t' : said_on t -> said_on (t ++ t').
Proof. intros (pl & r & Hin & H). exists pl, r. split; [|done]. apply elem_of_app. by left. Qed.

(** Nothing is forbidden once the module has said so. *)
Lemma wp_said {A} (p : prog A) : forall t d c, said_on t -> wp keeps_radio only_asks True p (fun _ t _ _ => said_on t) t d c.
Proof.
  induction p as [a|e|cmd pl k IH|s k IH|k IH|f k IH|u k IH|]; cbn; intros t d c Ht; auto.
  - split; [by right|]. intros r d' c' _ _ _. by apply IH, said_on_app.
  - intros r d' c' _ _ _. by apply IH, said_on_app.
  - intros r d' c' _ _ _. by apply IH, said_on_app.
Qed.

Definition still_off {A} (good : A -> Prop) (r : res exn A) (t : list event) (d : driver) (c : Z) : Prop :=
  said_on t \/ (radio_enabled (info d) = Some false /\ forall a, r = Ok a -> good a).

Lemma wp_bind_off {A B} (p : prog A) (f : A -> prog B) (good : A -> Prop) (good' : B -> Prop) t d c :
  wp keeps_radio only_asks True p (still_off good) t d c ->
  (forall a t d c, good a -> radio_enabled (info d) = Some false -> wp keeps_radio only_asks True (f a) (still_off good') t d c) ->
  wp keeps_radio only_asks True (bind p f) (still_off good') t d c.
Proof.
  intros Hp Hf. apply wp_bind. eapply wp_mono; [|exact Hp]. intros [a|e] t' d' c' [Hs|[Hd Hg]].
  - eapply wp_mono; [|by apply wp_said]. intros. by left.
  - apply Hf; [by apply Hg|done].
  - by left.
  - by right.
Qed.

Lemma wp_allowed t d c : radio_enabled (info d) = Some false ->
  wp keeps_radio only_asks True automatic_recovery_allowed (still_off (fun b => b = false)) t d c.
Proof.
  intros Hd. apply wp_bind, wp_query; [by left|]. intros r d' c' _ HR _. red in HR. rewrite Hd in HR.
  assert (Hoff : forall t c, wp keeps_radio only_asks True
    (update (fun i => let i := set_registered false (set_domains (Some false) (Some false) (set_radio (Some false) i)) in
       match ims_registered i with Some _ => set_ims (Some false) i | None => i end) ;;- Ret false) (still_off (fun b => b = false)) t d' c).
  { intros t' c0. cbn. right. split; [by destruct (ims_registered (info d'))|]. by intros a [= <-]. }
  assert (Hun : forall t c, wp keeps_radio only_asks True
    (radio <-- get (fun d => radio_enabled (info d)) ;; if negb (bool_decide (radio = Some false)) then Ret true else
       update (fun i => let i := set_registered false (set_domains (Some false) (Some false) (set_radio (Some false) i)) in
         match ims_registered i with Some _ => set_ims (Some false) i | None => i end) ;;- Ret false)
    (still_off (fun b => b = false)) t d' c).
  { intros t' c0. cbn [get bind wp]. unfold id. rewrite HR. apply Hoff. }
  destruct r as [x|[e| | | | |]]; cbn [bind]; try (by right).
  - destruct (radio_of x) as [[]|] eqn:Ex; cbn [bind bool_decide].
    + cbn. left. exists None, x. split; [|done]. apply elem_of_app. right. left.
    + apply Hoff.
    + apply Hun.
  - apply Hun.
Qed.

Lemma wp_reselect t d c : radio_enabled (info d) = Some false ->
  wp keeps_radio only_asks True reselect_operator (still_off (fun b => b = false)) t d c.
Proof. intros Hd. eapply wp_bind_off; [by apply wp_allowed|]. intros a t' d' c' -> Hd'. right. by split; [|intros a [= <-]]. Qed.

Lemma wp_cycle t d c : radio_enabled (info d) = Some false ->
  wp keeps_radio only_asks True cycle_radio (still_off (fun b => b = false)) t d c.
Proof. intros Hd. eapply wp_bind_off; [by apply wp_allowed|]. intros a t' d' c' -> Hd'. right. by split; [|intros a [= <-]]. Qed.

(** Automatic recovery does not undo flight mode.  The driver knows
    RF as switched off; then, whatever the module answers, whatever lines it
    sends and however long the commands take, [recover_registration] sends only
    the question AT+CFUN? and reports no registration, unless the module itself
    has answered that RF is on. *)
Theorem flight_mode_respected (script : list tick) (d : driver) (c : Z) :
  Forall (fun tk => forall d, keeps_radio d (k_others tk d)) script ->
  radio_enabled (info d) = Some false ->
  let y := run recover_registration script [] d c in
  (forall t1 cmd pl r t2, y.1.1.1 = t1 ++ Sent cmd pl r :: t2 -> cmd = str "AT+CFUN?" \/ said_on t1)
  /\ (forall b, y.2 = Done (Ok b) -> b = false \/ said_on y.1.1.1).
Proof.
  intros Hs Hd y. destruct (run_wp keeps_radio only_asks True recover_registration
    (still_off (fun b => b = false)) script [] d c) as [H1 H2].
  - eapply Forall_impl; [exact Hs|]. intros tk Htk d0 c0. apply (meanwhile_keeps (fun d => radio_enabled (info d))); [apply dispatch_radio|exact Htk].
  - eapply wp_bind_off; [by apply wp_reselect|]. intros a t d' c' -> Hd'. by apply wp_cycle.
  - apply allowed_nil.
  - fold y in H1, H2. split; [exact H1|]. intros b E. rewrite E in H2. destruct H2 as [H2|[_ H2]]; [by right|left; by apply H2].
Qed.

(** The module as it answers when RF is off. *)
Definition cfun_off : tick := mkTick (Ok (mkResponse (str "AT+CFUN?") [str "+CFUN: 0"] (str "OK"))) [] id 0.
Definition off_driver : driver := set_info (set_radio (Some false) no_info) (new_driver 30000000).

Lemma flight_mode_respected_witness :
  let y := run recover_registration [cfun_off; cfun_off] [] off_driver 0 in
  y.2 = Done (Ok false) /\ (false = false \/ said_on y.1.1.1).
Proof.
  split; [by vm_compute|]. apply (flight_mode_respected [cfun_off; cfun_off] off_driver 0); [repeat constructor|reflexivity|by vm_compute].
Defined.

(** A radio cycle that fails between its two commands leaves RF off, and every
    later recovery takes that for the administrator's choice. *)
Definition answered (lines : list string) : tick := mkTick (Ok (mkResponse [] (str <$> lines) (str "OK"))) [] id 0.
Definition refused : tick := mkTick (Err (AtError (ATTimeout []))) [] id 0.
Definition sent (t : list event) : list pystr := omap (fun x => match x with Sent cmd _ _ => Some cmd | _ => None end) t.

Example interrupted_cycle_strands :
  let y := run cycle_radio [answered ["+CFUN: 1"%string]; answered []; answered []; refused; refused; refused] [] (new_driver 30000000) 0 in
  sent y.1.1.1 = str <$> ["AT+CFUN?"; "AT+CFUN=0"; "AT+CFUN=1"; "AT+CEREG?"; "AT+CREG?"]%string
  /\ let y := run recover_registration [cfun_off; cfun_off] [] y.1.1.2 0 in
     y.2 = Done (Ok false) /\ sent y.1.1.1 = str <$> ["AT+CFUN?"; "AT+CFUN?"]%string /\ radio_enabled (info y.1.1.2) = Some false.
Proof. by vm_compute. Qed.

(** ** Data off *)

(** A context may be deactivated only when the module has named it with an APN
    that is not the IMS bearer's; packet service is never detached. *)
Definition named (t : list event) (n : Z) : Prop :=
  exists r a, Sent (str "AT+CGDCONT?") None (Ok r) ∈ t /\ definitions_of r !! n = Some a /\ is_ims (Some a) = false.
Definition ims_safe (t : list event) (cmd : pystr) : Prop :=
  cmd <> str "AT+CGATT=0" /\ forall n, cmd = deactivate n -> named t n.

Lemma named_app t t' n : named t n -> named (t ++ t') n.
Proof. intros (r & a & Hin & H). exists r, a. split; [|done]. apply elem_of_app. by left. Qed.

Lemma deactivate_prefix n : take 11 (deactivate n) = str "AT+CGACT=0,".
Proof. done. Qed.

Lemma ims_safe_plain t cmd : take 11 cmd <> str "AT+CGACT=0," -> cmd <> str "AT+CGATT=0" -> ims_safe t cmd.
Proof. intros H H'. split; [done|]. intros n ->. by rewrite deactivate_prefix in H. Qed.

Lemma ims_safe_deactivate t n : named t n -> ims_safe t (deactivate n).
Proof.
  intros H. split; [intros E; apply (f_equal (take 11)) in E; rewrite deactivate_prefix in E; discriminate|].
  intros m E. apply app_inv_head in E. by apply decimal_inj in E as <-.
Qed.

(** Every context with an APN is one the module has named. *)
Definition sourced (t : list event) (contexts : option (list PdpContextState)) : Prop :=
  forall l p a, contexts = Some l -> p ∈ l -> apn p = Some a ->
    exists r, Sent (str "AT+CGDCONT?") None (Ok r) ∈ t /\ definitions_of r !! cid p = Some a.

Lemma user_data_named t contexts l : sourced t contexts -> user_data_contexts contexts = Some l -> Forall (fun p => named t (cid p)) l.
Proof.
  intros Hs E. unfold user_data_contexts in E. destruct contexts as [ps|]; [|done]. cbn in E.
  destruct (existsb _ ps) eqn:Ex; [done|]. injection E as <-. apply Forall_forall. intros p [Hp Ha]%list_elem_of_In%filter_In.
  apply andb_true_iff in Ha as [Hact Hims]. destruct (apn p) as [a|] eqn:Ea.
  - destruct (Hs ps p a eq_refl) as (r & Hr & Hd); [by apply list_elem_of_In|done|]. exists r, a. split_and!; try done.
    by apply negb_true_iff.
  - exfalso. apply not_true_iff_false in Ex. apply Ex, existsb_exists. exists p. rewrite Hact, Ea. split; [done|].
    by rewrite bool_decide_eq_true_2.
Qed.

Lemma states_elem defs r p : p ∈ states_of defs r -> apn p = defs ≫= lookup (cid p).
Proof. unfold states_of. intros ([n s] & -> & _)%list_elem_of_fmap. done. Qed.

(** The contexts as two answers name and list them. *)
Definition contexts_of (rd rc : res exn ATResponse) : option (list PdpContextState) :=
  match rc with
  | Ok r => Some (states_of (match rd with Ok x => Some (definitions_of x) | Err _ => None end) r)
  | Err _ => None
  end.

Definition snapshot (ra rd rc : res exn ATResponse) : list event :=
  [Sent (str "AT+CGATT?") None ra; Sent (str "AT+CGDCONT?") None rd; Sent (str "AT+CGACT?") None rc].

Lemma wp_snapshot t d c :
  wp any_state ims_safe True read_data_snapshot
    (fun r t' _ _ => match r with
                     | Ok s => exists ra rd rc, t' = t ++ snapshot ra rd rc /\ s.2 = contexts_of rd rc
                     | Err _ => True end) t d c.
Proof.
  unfold read_data_snapshot, read_pdp_context_states, snapshot.
  apply wp_bind, wp_query; [by apply ims_safe_plain|]. intros ra d1 c1 _ _ _.
  assert (Hn : forall att d1 c1, wp any_state ims_safe True
    (contexts <-- read_pdp_context_states ;; Ret (att : option bool, contexts))
    (fun r t' _ _ => match r with
       | Ok s => exists ra rd rc, t' = t ++ snapshot ra rd rc /\ s.2 = contexts_of rd rc | Err _ => True end)
    (t ++ [Sent (str "AT+CGATT?") None ra]) d1 c1).
  { clear d1 c1. intros att d1 c1. unfold read_pdp_context_states. apply wp_bind, wp_bind, wp_query; [by apply ims_safe_plain|].
    intros rd d2 c2 _ _ _. set (t2 := _ ++ [_]).
    assert (Hc : forall defs, defs = match rd with Ok x => Some (definitions_of x) | Err _ => None end -> forall d2 c2,
      wp any_state ims_safe True (except_at (r <-- execute (str "AT+CGACT?") ;; Ret (Some (states_of defs r))) (fun _ => Ret None))
        (fun r t' _ _ => match r with
           | Ok ctx => exists ra rd rc, t' = t ++ snapshot ra rd rc /\ ctx = contexts_of rd rc | Err _ => True end) t2 d2 c2).
    { intros defs -> d3 c3. apply wp_query; [by apply ims_safe_plain|]. intros rc d4 c4 _ _ _. subst t2. rewrite <- !app_assoc.
      destruct rc as [x|[]]; try done; exists ra, rd; [exists (Ok x)|exists (Err (AtError e))]; by split. }
    destruct rd as [x|[]]; try done; (eapply wp_mono; [|by apply Hc]); intros [ctx|e'] ? ? ?; try done; intros (ra' & rd' & rc' & -> & ->);
      by exists ra', rd', rc'. }
  destruct ra as [x|[]]; try done; apply Hn.
Qed.

Lemma sourced_snapshot t ra rd rc : sourced (t ++ snapshot ra rd rc) (contexts_of rd rc).
Proof.
  intros l p a E Hp Ha. destruct rc as [r|]; [|done]. injection E as <-. rewrite (states_elem _ _ _ Hp) in Ha.
  destruct rd as [x|]; [|done]. cbn in Ha. exists x. split; [|done]. apply elem_of_app. right. right. left.
Qed.

Lemma wp_deactivate l : forall t d c, Forall (fun p => named t (cid p)) l ->
  wp any_state ims_safe True (deactivate_user_data_contexts l) (fun _ _ _ _ => True) t d c.
Proof.
  induction l as [|p l IH]; intros t d c Hl; [done|]. apply Forall_cons in Hl as [Hp Hl].
  assert (Hl' : forall t', Forall (fun p => named (t ++ t') (cid p)) l).
  { intros t'. eapply Forall_impl; [exact Hl|]. intros q. apply named_app. }
  cbn [deactivate_user_data_contexts]. apply wp_bind, wp_query; [by apply ims_safe_deactivate|].
  intros r d' c' _ _ _. destruct r as [x|[]]; try done.
  - apply wp_bind, wp_sleep. intros [[]|e] d2 c2 _ _ _; [|done]. rewrite <- app_assoc. by apply IH.
  - apply wp_bind. eapply wp_mono; [|by apply IH]. by intros [].
Qed.

Lemma wp_deactivate_active t d c contexts : sourced t contexts ->
  wp any_state ims_safe True (deactivate_active contexts) (fun _ _ _ _ => True) t d c.
Proof.
  intros Hs. unfold deactivate_active. destruct (user_data_contexts contexts) as [[|p l]|] eqn:E; [done| |done].
  apply wp_deactivate. by eapply user_data_named.
Qed.

(** The last thing asked is the state of the contexts, and every one the module
    lists as active it has named with the IMS bearer's APN. *)
Definition verified (t : list event) : Prop :=
  exists t0 ra rd r, t = t0 ++ snapshot ra rd (Ok r)
  /\ forall n, (n, 1) ∈ omap activation_of (all_values (str "+CGACT:") r) ->
       exists x a, rd = Ok x /\ definitions_of x !! n = Some a /\ is_ims (Some a) = true.

Lemma verified_snapshot t ra rd rc :
  some_contexts <$> user_data_contexts (contexts_of rd rc) = Some false -> verified (t ++ snapshot ra rd rc).
Proof.
  intros E. destruct rc as [r|]; [|done]. exists t, ra, rd, r. split; [done|]. intros n Hn. cbn in E.
  set (defs := match rd with Ok x => Some (definitions_of x) | Err _ => None end) in E.
  assert (Hp : mkPdp n true (defs ≫= lookup n) ∈ states_of defs r) by (apply list_elem_of_fmap; exists (n, 1); by split).
  destruct (existsb _ _) eqn:Ex in E; [done|]. cbn in E. destruct (List.filter _ _) eqn:Ef in E; [|done]. clear E.
  apply not_true_iff_false in Ex. rewrite existsb_exists in Ex.
  destruct (defs ≫= lookup n) as [a|] eqn:Ea.
  - subst defs. destruct rd as [x|]; [|done]. exists x, a. split_and!; try done. destruct (is_ims (Some a)) eqn:Ei; [done|]. exfalso.
    assert (Hf : mkPdp n true (Some a) ∈ List.filter (fun c => active c && negb (is_ims (apn c))) (states_of (Some (definitions_of x)) r)).
    { apply list_elem_of_In, filter_In. split; [by apply list_elem_of_In|]. cbn. by rewrite Ei. }
    rewrite Ef in Hf. by apply elem_of_nil in Hf.
  - exfalso. apply Ex. exists (mkPdp n true None). split; [by apply list_elem_of_In|done].
Qed.

Lemma wp_status t d c :
  wp any_state ims_safe True read_data_status
    (fun r t' d' _ => match r with
                      | Ok s => pdp_active (info d') = s.2 /\ (s.2 = Some false -> verified t')
                      | Err _ => True end) t d c.
Proof.
  apply wp_bind. eapply wp_mono; [|apply wp_snapshot]. intros [s|e] t' d' c'; [|done]. intros (ra & rd & rc & -> & Ec).
  cbn. rewrite Ec. split; [done|]. apply verified_snapshot.
Qed.

(** Switching user data off is verified, and never touches the IMS
    bearer.  Whatever the module answers: a context is deactivated only after
    the module named it with another APN than "ims", packet service is never
    detached, and when [set_data_enabled(False)] returns, the last thing it did
    was to ask for the contexts, of which none is active but the IMS bearer. *)
Theorem data_off_verified (script : list tick) (d : driver) (c : Z) :
  let y := run (set_data_enabled false) script [] d c in
  (forall t1 cmd pl r t2, y.1.1.1 = t1 ++ Sent cmd pl r :: t2 -> ims_safe t1 cmd)
  /\ (forall s, y.2 = Done (Ok s) -> pdp_active (info y.1.1.2) = Some false /\ s.2 = Some false /\ verified y.1.1.1).
Proof.
  intros y. destruct (run_wp any_state ims_safe True (set_data_enabled false)
    (fun r t d _ => match r with Ok s => pdp_active (info d) = Some false /\ s.2 = Some false /\ verified t | Err _ => True end) script [] d c) as [H1 H2].
  - by apply Forall_forall.
  - unfold set_data_enabled. apply wp_bind.
    assert (Hend : forall t d c, wp any_state ims_safe True
      (state <-- read_data_status ;; if negb false && negb (bool_decide (state.2 = Some false)) then Throw Unconfirmed else Ret state)
      (fun r t d _ => match r with Ok s => pdp_active (info d) = Some false /\ s.2 = Some false /\ verified t | Err _ => True end) t d c).
    { intros t d0 c0. apply wp_bind. eapply wp_mono; [|apply wp_status]. intros [s|e] t' d' c'; [|done]. intros [Ep Hv]. cbn.
      case_bool_decide as Hs; [|done]. cbn. rewrite Ep. split_and!; try done. by apply Hv. }
    apply wp_bind. eapply wp_mono; [|apply wp_snapshot]. intros [s|e] t' d' c'; [|done]. intros (ra & rd & rc & -> & Ec). rewrite Ec.
    apply wp_bind. eapply wp_mono; [|apply wp_deactivate_active, sourced_snapshot]. intros [es|e] t1 d1 c1 _; [|done].
    destruct (known_true s.1); [apply Hend|]. apply wp_bind, wp_query; [by apply ims_safe_plain|].
    intros r d2 c2 _ _ _. destruct r as [x|[]]; try done; [|apply Hend].
    apply wp_bind. eapply wp_mono; [|apply wp_snapshot]. intros [s'|e] t3 d3 c3; [|done]. intros (ra' & rd' & rc' & -> & Ec'). rewrite Ec'.
    apply wp_bind. eapply wp_mono; [|apply wp_deactivate_active, sourced_snapshot]. intros [es'|e] t4 d4 c4 _; [apply Hend|done].
  - apply allowed_nil.
  - fold y in H1, H2. split; [exact H1|]. intros s' E. by rewrite E in H2.
Qed.

Lemma data_off_verified_witness :
  let off := [answered ["+CGATT: 1"]; answered ["+CGDCONT: 1,IP,cmnet"; "+CGDCONT: 2,IP,ims"]; answered ["+CGACT: 1,1"; "+CGACT: 2,1"];
              answered []; answered [];
              answered ["+CGATT: 1"]; answered ["+CGDCONT: 1,IP,cmnet"; "+CGDCONT: 2,IP,ims"]; answered ["+CGACT: 1,0"; "+CGACT: 2,1"]]%string in
  let y := run (set_data_enabled false) off [] (new_driver 30000000) 0 in
  sent y.1.1.1 !! 3%nat = Some (deactivate 1) /\ y.2 = Done (Ok (Some true, Some false)) /\ verified y.1.1.1.
Proof.
  cbv zeta. split; [by vm_compute|]. split; [by vm_compute|].
  apply (proj2 (data_off_verified _ _ _) (Some true, Some false)). by vm_compute.
Defined.

(** ** Registration *)

Definition domain_answer (prefixes : list string) (r : res exn ATResponse) : option bool * option bool :=
  match r with Ok x => domain_of prefixes x | Err _ => (None, None) end.
Definition eps_of : res exn ATResponse -> option bool * option bool := domain_answer ["CEREG"; "CGREG"]%string.
Definition cs_of : res exn ATResponse -> option bool * option bool := domain_answer ["CREG"]%string.

Definition registration_read (re rc : res exn ATResponse) : list event :=
  [Sent (str "AT+CEREG?") None re; Sent (str "AT+CREG?") None rc].

(** What one read leaves behind: both domains as they were answered. *)
Lemma wp_read_registration R I spun t d c :
  (forall t, I t (str "AT+CEREG?")) -> (forall t, I t (str "AT+CREG?")) ->
  wp R I spun read_registration
    (fun r t' d' c' => c <= c' /\ match r with
       | Ok b => exists re rc, t' = t ++ registration_read re rc
                 /\ b = known_true (eps_of re).1 || known_true (cs_of rc).1
                 /\ registered (info d') = b /\ eps_registered (info d') = (eps_of re).1 /\ cs_registered (info d') = (cs_of rc).1
                 /\ roaming (info d') = roaming_of (eps_of re).2 (cs_of rc).2
       | Err e => e = Cancelled end) t d c.
Proof.
  intros He Hc. unfold read_registration, read_registration_details. apply wp_bind, wp_bind, wp_query; [done|].
  intros re d1 c1 Hre _ Hc1.
  assert (Hn : forall x, x = eps_of re -> forall d1, wp R I spun
    (cs <-- read_registration_domain_state "AT+CREG?" ["CREG"]%string ;; Ret ((x : option bool * option bool).1, cs.1, roaming_of x.2 cs.2))
    (fun r t0 d0 c0 => match r with
      | Ok a => wp R I spun (update (fun i => set_roaming a.2 (set_domains a.1.1 a.1.2 i)) ;;- get (fun d2 => registered (info d2)))
        (fun r t' d' c' => c <= c' /\ match r with
           | Ok b => exists re rc, t' = t ++ registration_read re rc
                     /\ b = known_true (eps_of re).1 || known_true (cs_of rc).1
                     /\ registered (info d') = b /\ eps_registered (info d') = (eps_of re).1 /\ cs_registered (info d') = (cs_of rc).1
                     /\ roaming (info d') = roaming_of (eps_of re).2 (cs_of rc).2
           | Err e => e = Cancelled end) t0 d0 c0
      | Err e => c <= c0 /\ e = Cancelled end)
    (t ++ [Sent (str "AT+CEREG?") None re]) d1 c1).
  { intros x -> d1'. apply wp_bind, wp_query; [done|]. intros rc d2 c2 Hrc _ Hc2.
    destruct rc as [y|[]]; try done; cbn; (split; [lia|]); try done;
      [exists re, (Ok y)|exists re, (Err (AtError e))]; unfold registration_read; by rewrite <- app_assoc. }
  destruct re as [x|[]]; try done; try (split; [lia|done]); by apply Hn.
Qed.

(** What [select_operator] sends: the selection, then questions. *)
Definition QUESTIONS : list pystr := [str "AT+CEREG?"; str "AT+CREG?"; str "AT+COPS?"].
Definition selects (numeric : option pystr) (t : list event) (cmd : pystr) : Prop :=
  (t = [] /\ cmd = select_command numeric) \/ cmd ∈ QUESTIONS.

Definition seen_registered (t : list event) : Prop :=
  exists t0 re rc, t = t0 ++ registration_read re rc /\ known_true (eps_of re).1 || known_true (cs_of rc).1 = true.

Section Settling.
Context (numeric : option pystr).
Abbreviation wps p Q := (wp any_state (selects numeric) False p Q).

Lemma asks_registration t : selects numeric t (str "AT+CEREG?") /\ selects numeric t (str "AT+CREG?").
Proof. split; right; unfold QUESTIONS; [left|right; left]. Qed.

(** Each turn of the loop brings the clock an interval nearer to the deadline. *)
Lemma wp_await_loop interval deadline : 0 < interval -> forall fuel t d c,
  (1 <= fuel)%nat -> deadline - c <= interval * (Z.of_nat fuel - 1) ->
  wps (await_loop fuel deadline interval)
    (fun r t' _ _ => match r with Ok b => b = true -> seen_registered t' | Err e => e = Cancelled end) t d c.
Proof.
  intros Hi. induction fuel as [|fuel IH]; intros t d c Hf Hc; [lia|]. cbn [await_loop]. apply wp_bind.
  eapply wp_mono; [|apply wp_read_registration; intros t'; apply asks_registration].
  intros [b|e] t' d' c' [Hc' Hr]; [|done]. destruct Hr as (re & rc & -> & Hb & _). cbv beta. destruct b.
  - intros _. by exists t, re, rc.
  - cbn [bind monotonic wp]. destruct (Z.leb_spec (deadline - c') 0) as [Hle|Hgt]; [by cbn|].
    apply wp_bind, wp_sleep. intros [[]|e] d2 c2 Hs _ Hc2; [|by destruct Hs as [Hs|[= ->]]]. cbv beta iota in Hc2.
    assert (Hf' : (1 <= fuel)%nat) by (destruct fuel; [rewrite Z.mul_0_r in Hc; lia|lia]).
    apply IH; [done|]. replace (Z.of_nat (S fuel) - 1) with ((Z.of_nat fuel - 1) + 1) in Hc by lia. rewrite Z.mul_add_distr_l in Hc.
    assert (0 <= interval * (Z.of_nat fuel - 1)) by (apply Z.mul_nonneg_nonneg; lia). lia.
Qed.

Lemma wp_await_registration timeout interval t d c : 0 < interval -> 0 <= timeout ->
  wps (await_registration timeout interval)
    (fun r t' _ _ => match r with Ok b => b = true -> seen_registered t' | Err e => e = Cancelled end) t d c.
Proof.
  intros Hi Ht. cbn [await_registration bind monotonic wp]. pose proof (Z.div_pos timeout interval Ht Hi).
  apply wp_await_loop; [done|lia|]. pose proof (Z.div_mod timeout interval ltac:(lia)). pose proof (Z.mod_pos_bound timeout interval Hi). nia.
Qed.

(** Choosing an operator ends, and its answer is honest.
    Whatever the module answers, [select_operator] sends the selection first --
    automatic, or five or six digits between quotes, so that no text of the caller
    becomes a command of its own -- and then only questions; the wait for
    registration never outlives its loop; a result that says "settled" was read
    from the module just before; and the mode kept is the one asked for. *)
Theorem select_operator_ends (script : list tick) (d : driver) (c : Z) :
  let y := run (select_operator numeric) script [] d c in
  (forall t1 cmd pl r t2, y.1.1.1 = t1 ++ Sent cmd pl r :: t2 -> selects numeric t1 cmd)
  /\ y.2 <> OutOfFuel
  /\ (forall s, y.2 = Done (Ok s) ->
       selection_mode y.1.1.2 = Some (if numeric then 1 else 0)
       /\ (forall n, numeric = Some n -> is_plmn n = true)
       /\ (s.2 = true -> exists t1 r, y.1.1.1 = t1 ++ [Sent (str "AT+COPS?") None r] /\ seen_registered t1)).
Proof.
  intros y. destruct (run_wp any_state (selects numeric) False (select_operator numeric)
    (fun r t d _ => match r with
       | Ok s => selection_mode d = Some (if numeric then 1 else 0) /\ (forall n, numeric = Some n -> is_plmn n = true)
                 /\ (s.2 = true -> exists t1 r, t = t1 ++ [Sent (str "AT+COPS?") None r] /\ seen_registered t1)
       | Err _ => True end) script [] d c) as [H1 H2].
  - by apply Forall_forall.
  - unfold select_operator. destruct (match numeric with Some n => negb (is_plmn n) | None => false end) eqn:En; [done|].
    apply wp_bind, wp_execute; [by left|]. intros r d1 c1 _ _ _. destruct r as [x|e]; [|done].
    apply wp_bind. eapply wp_mono; [|by apply wp_await_registration]. intros [b|e] t' d' c' Hb; [|done].
    apply wp_bind. unfold read_current_operator. apply wp_bind, wp_execute; [right; unfold QUESTIONS; right; right; left|].
    intros r d2 c2 _ _ _. destruct r as [x'|e]; [|done]. cbn. split; [by destruct numeric|]. split.
    + intros n E. subst numeric. by apply negb_false_iff in En.
    + intros ->. exists t', (Ok x'). by split; [|apply Hb].
  - apply allowed_nil.
  - fold y in H1, H2. split; [exact H1|]. split; [by intros E; rewrite E in H2|]. intros s E. by rewrite E in H2.
Qed.
End Settling.
End Modem.
