(* ===== verification/Inbox.v ===== *)
(** * The module's message store (agent/src/air780e_agent/modem.py)

    Reading the stored messages, reassembling them, freeing their slots and
    handing them upward: [drain_inbox] at start-up, [_fetch_index] for a slot the
    module announced, [_on_cmt], [_on_cds] and [_flush_loop]; and [send_sms].  The
    queue of announced slots is part of the driver's state (Driver.v). *)

From S2P Require Import Prelude PyText PyDict AtErrors AtClient AtText Codec Encode Concat Driver Modem.
#[local] Open Scope driver_scope.

Module Inbox.
Import ATClient AtText Driver.

(** ** Reading *)

(** TPDU octets, the service centre's address excluded; [None] for what is not
    hex or is too short for its own address. *)
Definition tpdu_octets (pdu : pystr) : option Z :=
  raw ← fromhex pdu;
  match raw with
  | [] => None
  | smsc :: _ => let n := Z.of_nat (length raw) in if n <? 1 + smsc then None else Some (n - 1 - smsc)
  end.

(** The last field of a header. *)
Definition declared_octets (header : pystr) : option Z := last (strip <$> split_on 44 header) ≫= py_int.

Record StoredIndex := mkStored { index : Z; stat : Z; pdu : pystr }.

(** [line.upper().startswith(...)] *)
Definition is_header (prefix : string) (line : pystr) : bool := starts_with (str prefix) (py_upper line).
(** [line.split(":", 1)[1]] without its quotes: what follows the first colon. *)
Definition header_of (line : pystr) : pystr := (partition_on 58 line).2.

Definition stored_of (header pdu_line : pystr) : option StoredIndex :=
  match strip <$> split_on 44 header with
  | f0 :: fs =>
      n ← py_int f0;
      s ← match fs with f1 :: _ => py_int f1 | [] => Some 0 end;
      Some (mkStored n s (strip pdu_line))
  | [] => None
  end.

(** A header with no line behind it, or that cannot be read, is passed over; the
    lengths are only compared for the log. *)
Fixpoint stored_in (lines : list pystr) : list StoredIndex :=
  match lines with
  | [] => []
  | line :: rest =>
      match rest with
      | next :: _ => if is_header "+CMGL:" line then option_list (stored_of (header_of line) next) else []
      | [] => []
      end ++ stored_in rest
  end.

Definition list_stored : prog (list StoredIndex) :=
  r <-- execute (str "AT+CMGL=4") ;; Ret (stored_in (lines r)).

(** The first header with a line behind it: the octets it declares, and the PDU. *)
Fixpoint read_in (lines : list pystr) : option (option Z * pystr) :=
  match lines with
  | line :: rest =>
      match rest with
      | next :: _ => if is_header "+CMGR:" line then Some (declared_octets (header_of line), strip next) else read_in rest
      | [] => None
      end
  | [] => None
  end.

Definition read_command (n : Z) : pystr := str "AT+CMGR=" ++ decimal n.
Definition delete_command (n : Z) : pystr := str "AT+CMGD=" ++ decimal n.

(** [exc.code in (321, 322)] *)
Definition slot_gone (e : at_error) : bool := match e with CmsError n => (n =? 321) || (n =? 322) | _ => false end.

Definition whole (declared : option Z) (p : pystr) : bool :=
  match declared, tpdu_octets p with Some n, Some m => n =? m | _, _ => true end.

(** [read_stored(index, retry=False)] and [read_stored(index)] *)
Definition ask (n : Z) : prog (option (option Z * pystr)) :=
  except_at (r <-- execute (read_command n) ;; Ret (read_in (lines r)))
    (fun e => if slot_gone e then Ret None else Throw (AtError e)).
Definition read_again (n : Z) : prog (option pystr) := r <-- ask n ;; Ret (snd <$> r).
Definition read_stored (n : Z) : prog (option pystr) :=
  r <-- ask n ;;
  match r with
  | None => Ret None
  | Some (declared, p) =>
      if whole declared p then Ret (Some p)
      else
        again <-- read_again n ;;
        Ret (Some (match again with
                   | Some p' => if bool_decide (tpdu_octets p' = declared) then p' else p
                   | None => p
                   end))
  end.

Definition delete_stored (n : Z) : prog unit :=
  except_at (execute (delete_command n) ;;- Ret tt) (fun e => if slot_gone e then Ret tt else Throw (AtError e)).

(** (used, capacity) *)
Definition storage_usage : prog (Z * Z) :=
  r <-- Modem.answer "AT+CPMS?" ;;
  match r with
  | None => Ret (0, 0)
  | Some r => match numbers (default [] (first_value (str "+CPMS:") r)) with u :: c :: _ => Ret (u, c) | _ => Ret (0, 0) end
  end.

(** ** Receiving *)

Section Receiving.
Context (delete_after_read has_on_sms has_on_delivery : bool).

(** [self._reassembler.push] *)
Definition push (sms : DecodedSms) : prog (option DecodedSms) :=
  now <-- monotonic ;;
  r <-- get reassembler ;;
  match Reassembly.push now sms r with
  | Ok (o, r') => put (set_reassembler r') ;;- Ret o
  | Err _ => Throw IndexError
  end.

Definition flush_expired : prog (list DecodedSms) :=
  now <-- monotonic ;;
  r <-- get reassembler ;;
  match Reassembly.flush_expired now r with
  | Ok (out, r') => put (set_reassembler r') ;;- Ret out
  | Err _ => Throw IndexError
  end.

Definition emit (sms : DecodedSms) : prog unit := if has_on_sms then hand (UpSms sms) else Ret tt.

Fixpoint emit_all (l : list DecodedSms) : prog unit :=
  match l with [] => Ret tt | sms :: l => emit sms ;;- emit_all l end.

Definition release (n : Z) : prog unit := if delete_after_read then delete_stored n else Ret tt.

(** [decode_pdu]: [None] for the PduError that is caught. *)
Definition decode (p : pystr) : prog (option DecodedSms) :=
  match decode_pdu p with
  | Ok sms => Ret (Some sms)
  | Err (PduError _) => Ret None
  | Err _ => Throw ValueError
  end.

Fixpoint drain_slots (slots : list StoredIndex) (collected : list DecodedSms) : prog (list DecodedSms) :=
  match slots with
  | [] => Ret collected
  | s :: slots =>
      sms <-- decode (pdu s) ;;
      complete <-- match sms with Some sms => push sms | None => Ret None end ;;
      release (index s) ;;-
      drain_slots slots (collected ++ option_list complete)
  end.

Definition drain_inbox : prog (list DecodedSms) :=
  slots <-- list_stored ;;
  collected <-- drain_slots slots [] ;;
  late <-- flush_expired ;;
  emit_all (collected ++ late) ;;-
  Ret (collected ++ late).

(** [_diag_dump_store]: its answer is only logged. *)
Definition diag_dump_store : prog unit :=
  catch (execute (str "AT+CMGL=4") ;;- Ret tt) (fun e => match e with Cancelled => Throw Cancelled | _ => Ret tt end).

Definition emit_complete (o : option DecodedSms) : prog unit := match o with Some sms => emit sms | None => Ret tt end.

Definition fetch_index (n : Z) : prog unit :=
  p <-- read_stored n ;;
  match p with
  | None => Ret tt
  | Some p =>
      diag_dump_store ;;-
      sms <-- decode p ;;
      match sms with
      | None => release n
      | Some sms => complete <-- push sms ;; release n ;;- emit_complete complete
      end
  end.

(** One turn of [_index_loop], for the slot at the head of the queue. *)
Definition index_turn : prog unit :=
  queue <-- get indexes ;;
  match queue with
  | [] => Ret tt
  | n :: _ =>
      put (fun d => set_indexes (tail (indexes d)) d) ;;-
      catch (fetch_index n) (fun e => match e with Cancelled => Throw Cancelled | _ => Ret tt end)
  end.

(** One turn of [_flush_loop]. *)
Definition flush_turn : prog unit := sleep 5000000 ;;- late <-- flush_expired ;; emit_all late.

Definition on_cmt (u : ATUrc) : prog unit :=
  match u_payload u with
  | [] => Ret tt
  | p :: _ =>
      sms <-- decode p ;;
      match sms with None => Ret tt | Some sms => complete <-- push sms ;; emit_complete complete end
  end.

Definition on_cds (u : ATUrc) : prog unit :=
  match u_payload u with
  | [] => Ret tt
  | p :: _ =>
      match decode_status_report p with
      | Ok report => if has_on_delivery then hand (UpDelivery report) else Ret tt
      | Err (PduError _) => Ret tt
      | Err _ => Throw ValueError
      end
  end.
End Receiving.

(** ** Sending *)

(** The reference the module answers, -1 when it names none. *)
Definition reference_of (r : ATResponse) : res exn Z :=
  match first_value (str "+CMGS:") r with
  | Some ((_ :: _) as value) =>
      if is_digit value then match py_int value with Some n => Ok n | None => Err ValueError end else Ok (-1)
  | _ => Ok (-1)
  end.

Definition send_command (p : EncodedPdu) : pystr := str "AT+CMGS=" ++ decimal (Z.of_nat (e_tpdu_len p)).

Fixpoint send_parts (parts : list EncodedPdu) : prog (list Z) :=
  match parts with
  | [] => Ret []
  | p :: parts =>
      r <-- execute_payload (send_command p) (e_pdu_hex p ++ [26]) ;;
      n <-- of_res (reference_of r) ;;
      ns <-- send_parts parts ;;
      Ret (n :: ns)
  end.

(** The random reference of the segments is an argument, as in Encode.v. *)
Definition send_sms (draw : Z) (number text : pystr) : prog (list Z) :=
  match encode_submit number text None draw 0xAA false true with
  | Ok parts => send_parts parts
  | Err _ => Throw ValueError
  end.

(** ** What draining the store does *)

Definition keeps_reassembler (d d' : driver) : Prop := reassembler d' = reassembler d.

Lemma undisturbed_script script : Forall (fun tk => forall d, keeps_reassembler d (k_others tk d)) script ->
  Forall (fun tk => forall d c, keeps_reassembler d (meanwhile c tk d)) script.
Proof.
  intros Hs. eapply Forall_impl; [exact Hs|]. intros tk Htk d c. apply (meanwhile_keeps reassembler); [apply dispatch_reassembler|exact Htk].
Qed.

(** A slot that was freed: the module said so, or had none. *)
Definition freed (s : StoredIndex) (e : event) : Prop :=
  exists r, e = Sent (delete_command (index s)) None r
  /\ match r with Ok _ => True | Err (AtError x) => slot_gone x = true | Err _ => False end.

(** The texts among the slots, each with the time it was pushed. *)
Fixpoint decoded (slots : list StoredIndex) (times : list Z) : option (list (Z * DecodedSms)) :=
  match slots, times with
  | [], _ => Some []
  | s :: slots, now :: times =>
      l ← decoded slots times;
      match decode_pdu (pdu s) with Ok sms => Some ((now, sms) :: l) | Err (PduError _) => Some l | Err _ => None end
  | _ :: _, [] => None
  end.

Definition handed (l : list DecodedSms) : list event := (fun sms => Handed (UpSms sms) (Ok tt)) <$> l.

Lemma wp_emit_all l : forall t d c,
  wp keeps_reassembler any_command True (emit_all true l)
    (fun r t' d' _ => reassembler d' = reassembler d /\ forall u, r = Ok u -> t' = t ++ handed l) t d c.
Proof.
  induction l as [|sms l IH]; intros t d c; [split; [done|]; intros u; by rewrite app_nil_r|].
  cbn [emit_all emit]. apply wp_bind, wp_hand. intros [[]|e] d' c' _ HR _; [|by split].
  eapply wp_mono; [|apply IH]. intros r t1 d1 c1 [HR1 H]. split; [by rewrite HR1|]. intros u Hu. by rewrite (H u Hu), <- app_assoc.
Qed.

Lemma wp_emit_ends l : forall t d c,
  wp keeps_reassembler any_command True (emit_all true l) (fun r _ _ _ => hand_result r) t d c.
Proof.
  induction l as [|sms l IH]; intros t d c; [by left|]. cbn [emit_all emit]. apply wp_bind, wp_hand.
  intros [[]|e] d' c' Hr _ _; [apply IH|exact Hr].
Qed.

Lemma wp_push R I spun now_sms Q t d c :
  (forall o r', Reassembly.push c now_sms (reassembler d) = Ok (o, r') -> Q (Ok o) t (set_reassembler r' d) c) ->
  (forall e, Reassembly.push c now_sms (reassembler d) = Err e -> Q (Err IndexError) t d c) ->
  wp R I spun (push now_sms) Q t d c.
Proof.
  intros H1 H2. unfold push. cbn [monotonic get bind wp]. unfold id.
  destruct (Reassembly.push c now_sms (reassembler d)) as [[o r']|e]; cbn; auto. by eapply H2.
Qed.

Lemma wp_flush R I spun Q t d c :
  (forall out r', Reassembly.flush_expired c (reassembler d) = Ok (out, r') -> Q (Ok out) t (set_reassembler r' d) c) ->
  (forall e, Reassembly.flush_expired c (reassembler d) = Err e -> Q (Err IndexError) t d c) ->
  wp R I spun flush_expired Q t d c.
Proof.
  intros H1 H2. unfold flush_expired. cbn [monotonic get bind wp]. unfold id.
  destruct (Reassembly.flush_expired c (reassembler d)) as [[o r']|e]; cbn; auto. by eapply H2.
Qed.

Lemma wp_delete I spun n R Q t d c :
  I t (delete_command n) ->
  (forall r d' c', at_result r -> R d d' -> c <= c' ->
    match r with
    | Ok _ => Q (Ok tt) (t ++ [Sent (delete_command n) None r]) d' c'
    | Err (AtError e) => if slot_gone e then Q (Ok tt) (t ++ [Sent (delete_command n) None r]) d' c'
                         else Q (Err (AtError e)) (t ++ [Sent (delete_command n) None r]) d' c'
    | Err e => Q (Err e) (t ++ [Sent (delete_command n) None r]) d' c'
    end) ->
  wp R I spun (delete_stored n) Q t d c.
Proof.
  intros Hi H. unfold delete_stored. apply wp_except_at, wp_bind, wp_execute; [done|]. intros r d' c' Hr HR Hc.
  specialize (H r d' c' Hr HR Hc). destruct r as [x|[]]; try done. cbn. destruct (slot_gone e); done.
Qed.

(** How the loop over the slots ends: every slot freed in order behind its push,
    or stopped at one the module refused to free. *)
Definition drained (slots : list StoredIndex) (collected : list DecodedSms) (t : list event) (d : driver) (c : Z)
    (r : res exn (list DecodedSms)) (t' : list event) (d' : driver) (c' : Z) : Prop :=
  c <= c' /\
  match r with
  | Ok out => exists times l outs evs, decoded slots times = Some l /\ Forall (fun now => c <= now <= c') times
      /\ Reassembly.push_all l (reassembler d) = Ok (outs, reassembler d')
      /\ out = collected ++ omap id outs /\ t' = t ++ evs /\ Forall2 freed slots evs
  | Err (AtError e) => exists slots1 s slots2 times l outs evs, slots = slots1 ++ s :: slots2
      /\ decoded (slots1 ++ [s]) times = Some l
      /\ Reassembly.push_all l (reassembler d) = Ok (outs, reassembler d')
      /\ t' = t ++ evs ++ [Sent (delete_command (index s)) None (Err (AtError e))] /\ Forall2 freed slots1 evs
  | Err _ => True
  end.

(** Freeing a slot and going on, behind a push that led from [d] to [d1]: [P]
    and [K] put what it pushed and what came out of it in front. *)
Lemma wp_release s slots collected o t d c d1 c1
    (P : list (Z * DecodedSms) -> option (list (Z * DecodedSms))) (K : list (option DecodedSms) -> list (option DecodedSms)) :
  (forall t d c, wp keeps_reassembler any_command True (drain_slots true slots (collected ++ option_list o))
                   (drained slots (collected ++ option_list o) t d c) t d c) ->
  c <= c1 ->
  (forall slots' times l, decoded slots' times = Some l -> decoded (s :: slots') (c :: times) = P l) ->
  (forall l outs r', Reassembly.push_all l (reassembler d1) = Ok (outs, r') ->
     exists l', P l = Some l' /\ Reassembly.push_all l' (reassembler d) = Ok (K outs, r')) ->
  (forall outs, omap id (K outs) = option_list o ++ omap id outs) ->
  wp keeps_reassembler any_command True (release true (index s) ;;- drain_slots true slots (collected ++ option_list o))
    (drained (s :: slots) collected t d c) t d1 c1.
Proof.
  intros IH Hc1 HP HK Ho. apply wp_bind, wp_delete; [done|]. intros r d2 c2 _ HR Hc2. set (x := Sent _ None r).
  assert (Hnext : freed s x -> wp keeps_reassembler any_command True (drain_slots true slots (collected ++ option_list o))
            (drained (s :: slots) collected t d c) (t ++ [x]) d2 c2).
  { intros Hfreed. eapply wp_mono; [|apply IH]. intros [out|[e| | | | |]] t' d' c' [Hc' H]; (split; [lia|]); try done.
    - destruct H as (times & l & outs & evs & Hd & Ht & Hp & -> & -> & Hf).
      rewrite HR in Hp. destruct (HK _ _ _ Hp) as (l' & El & Hp'). exists (c :: times), l', (K outs), (x :: evs).
      rewrite (HP _ _ _ Hd), El. split_and!; try done; [|by rewrite Ho, app_assoc|by rewrite <- app_assoc|by constructor].
      constructor; [lia|]. eapply Forall_impl; [exact Ht|]. cbv beta. lia.
    - destruct H as (slots1 & s' & slots2 & times & l & outs & evs & -> & Hd & Hp & -> & Hf).
      rewrite HR in Hp. destruct (HK _ _ _ Hp) as (l' & El & Hp').
      exists (s :: slots1), s', slots2, (c :: times), l', (K outs), (x :: evs). cbn [app].
      rewrite (HP _ _ _ Hd), El. split_and!; try done; [|by constructor]. by rewrite <- app_assoc. }
  assert (Hstop : forall e, r = Err (AtError e) -> drained (s :: slots) collected t d c (Err (AtError e)) (t ++ [x]) d2 c2).
  { intros e ->. split; [lia|]. destruct (HK [] [] (reassembler d1) eq_refl) as (l' & El & Hp).
    exists [], s, slots, [c], l', (K []), []. cbn [app]. rewrite (HP [] [] [] eq_refl), El, HR. by split_and!. }
  destruct r as [y|[e| | | | |]]; try (split; [lia|done]); [|destruct (slot_gone e) eqn:Eg; [|by apply Hstop]];
    apply Hnext; eexists; by split.
Qed.

Lemma wp_drain_slots slots : forall collected t d c,
  wp keeps_reassembler any_command True (drain_slots true slots collected) (drained slots collected t d c) t d c.
Proof.
  induction slots as [|s slots IH]; intros collected t d c; cbn [drain_slots].
  - split; [lia|]. exists [], [], [], []. cbn. rewrite !app_nil_r. split_and!; try done; by constructor.
  - unfold decode. destruct (decode_pdu (pdu s)) as [sms|[]] eqn:Ed; cbn [bind]; try (split; [lia|done]).
    + apply wp_bind, wp_push; [|by split]. intros o r' Hp.
      apply (wp_release s slots collected o t d c _ _ (fun l => Some ((c, sms) :: l)) (cons o)); [intros; apply IH|lia|..].
      * intros slots' times l Hl. cbn. by rewrite Hl, Ed.
      * intros l outs r2 Hl. exists ((c, sms) :: l). split; [done|]. cbn [Reassembly.push_all]. rewrite Hp. cbn. cbn in Hl. by rewrite Hl.
      * intros outs. by destruct o.
    + apply (wp_release s slots collected None t d c _ _ Some id); [intros; apply IH|lia|..|done].
      * intros slots' times l Hl. cbn. by rewrite Hl, Ed.
      * intros l outs r2 Hl. by exists l.
Qed.

(** Draining the store.  As long as no other task pushes
    meanwhile, a [drain_inbox] that returns has freed every slot it listed, in
    order; what it returns is exactly what [Reassembly] completes from the
    decodable ones pushed in that order, then the partials that had expired; and
    it has handed exactly that upward, in that order, after the last slot. *)
Theorem drain_spec (script : list tick) (d : driver) (c : Z) (t : list event) (d' : driver) (c' : Z) (out : list DecodedSms) :
  Forall (fun tk => forall d, keeps_reassembler d (k_others tk d)) script ->
  run (drain_inbox true true) script [] d c = (t, d', c', Done (Ok out)) ->
  exists rl times l outs r1 now late evs,
    decoded (stored_in (lines rl)) times = Some l
    /\ Reassembly.push_all l (reassembler d) = Ok (outs, r1)
    /\ Reassembly.flush_expired now r1 = Ok (late, reassembler d')
    /\ out = omap id outs ++ late
    /\ Forall2 freed (stored_in (lines rl)) evs
    /\ t = Sent (str "AT+CMGL=4") None (Ok rl) :: evs ++ handed out.
Proof.
  intros Hs E. assert (H : wp keeps_reassembler any_command True (drain_inbox true true)
    (fun r t d' _ => forall out, r = Ok out -> exists rl times l outs r1 now late evs,
       decoded (stored_in (lines rl)) times = Some l /\ Reassembly.push_all l (reassembler d) = Ok (outs, r1)
       /\ Reassembly.flush_expired now r1 = Ok (late, reassembler d') /\ out = omap id outs ++ late
       /\ Forall2 freed (stored_in (lines rl)) evs /\ t = Sent (str "AT+CMGL=4") None (Ok rl) :: evs ++ handed out) [] d c).
  { unfold drain_inbox, list_stored. apply wp_bind, wp_bind, wp_execute; [done|]. intros [rl|e] d1 c1 _ HR _; [|done].
    apply wp_bind. eapply wp_mono; [|apply wp_drain_slots]. intros [cs|e] t2 d2 c2 [_ H]; [|done].
    destruct H as (times & l & outs & evs & Hd & _ & Hp & -> & -> & Hf). rewrite HR in Hp.
    apply wp_bind, wp_flush; [|done]. intros late r' Hl. apply wp_bind. eapply wp_mono; [|apply wp_emit_all].
    intros [[]|e] t3 d3 c3 [HR3 H3] out' [= <-]. rewrite (H3 tt eq_refl). exists rl, times, l, outs, (reassembler d2), c2, late, evs.
    split_and!; try done. by rewrite HR3. }
  destruct (run_wp keeps_reassembler any_command True _ _ script [] d c (undisturbed_script script Hs) H
    (allowed_nil _)) as [_ H2]. rewrite E in H2. by apply H2.
Qed.

(** An interrupted drain loses messages.  When [drain_inbox] ends in
    an AT error, nothing was handed upward, although every slot before the one
    the module refused to free has been emptied; and a message those slots
    completed is no longer waiting in the reassembler either. *)
Theorem drain_failure_loses (script : list tick) (d : driver) (c : Z) (t : list event) (d' : driver) (c' : Z) (e : at_error) :
  Forall (fun tk => forall d, keeps_reassembler d (k_others tk d)) script ->
  run (drain_inbox true true) script [] d c = (t, d', c', Done (Err (AtError e))) ->
  (t = [Sent (str "AT+CMGL=4") None (Err (AtError e))] /\ reassembler d' = reassembler d)
  \/ exists rl slots1 s slots2 times l outs evs,
       stored_in (lines rl) = slots1 ++ s :: slots2
       /\ decoded (slots1 ++ [s]) times = Some l
       /\ Reassembly.push_all l (reassembler d) = Ok (outs, reassembler d')
       /\ Forall2 freed slots1 evs
       /\ t = Sent (str "AT+CMGL=4") None (Ok rl) :: evs ++ [Sent (delete_command (index s)) None (Err (AtError e))].
Proof.
  intros Hs E. set (Q := fun t d' e =>
    (t = [Sent (str "AT+CMGL=4") None (Err (AtError e))] /\ reassembler d' = reassembler d)
    \/ exists rl slots1 s slots2 times l outs evs, stored_in (lines rl) = slots1 ++ s :: slots2
       /\ decoded (slots1 ++ [s]) times = Some l /\ Reassembly.push_all l (reassembler d) = Ok (outs, reassembler d')
       /\ Forall2 freed slots1 evs
       /\ t = Sent (str "AT+CMGL=4") None (Ok rl) :: evs ++ [Sent (delete_command (index s)) None (Err (AtError e))]).
  assert (H : wp keeps_reassembler any_command True (drain_inbox true true)
    (fun r t d' _ => forall e, r = Err (AtError e) -> Q t d' e) [] d c).
  { unfold drain_inbox, list_stored. apply wp_bind, wp_bind, wp_execute; [done|]. intros r d1 c1 _ HR _. red in HR.
    destruct r as [rl|x]; [|intros e' [= ->]; by left].
    apply wp_bind. eapply wp_mono; [|apply wp_drain_slots]. intros [cs|x] t2 d2 c2 [_ H].
    - apply wp_bind, wp_flush; [|done]. intros late r' Hl. apply wp_bind. eapply wp_mono; [|apply wp_emit_ends].
      intros [[]|x] t3 d3 c3 Hx; [done|]. intros e' [= ->]. by destruct Hx as [Hx|[Hx|Hx]].
    - intros e' [= ->]. destruct H as (slots1 & s & slots2 & times & l & outs & evs & Hd & Hl & Hp & -> & Hf). rewrite HR in Hp.
      right. by exists rl, slots1, s, slots2, times, l, outs, evs. }
  destruct (run_wp keeps_reassembler any_command True _ _ script [] d c (undisturbed_script script Hs) H
    (allowed_nil _)) as [_ H2]. rewrite E in H2. by apply H2.
Qed.

(** ** What sending does *)

(** The segments that went out. *)
Definition submitted (t : list event) : list (pystr * pystr) :=
  omap (fun x => match x with Sent cmd (Some pl) _ => Some (cmd, pl) | _ => None end) t.
Definition wire_of (p : EncodedPdu) : pystr * pystr := (send_command p, e_pdu_hex p ++ [26]).

(** [t'] goes on from [t] with the first [k] of the segments. *)
Definition sent_first (parts : list EncodedPdu) (t : list event) (r : res exn (list Z)) (t' : list event) : Prop :=
  exists k, submitted t' = submitted t ++ (wire_of <$> take k parts) /\ (k <= length parts)%nat
  /\ match r with Ok ns => k = length parts /\ length ns = length parts | Err _ => (0 < k)%nat end.

Lemma wp_send_parts parts : forall t d c,
  wp any_state any_command True (send_parts parts) (fun r t' _ _ => sent_first parts t r t') t d c.
Proof.
  induction parts as [|p parts IH]; intros t d c; cbn [send_parts]; [exists 0%nat; by rewrite app_nil_r|].
  assert (Hone : forall r, submitted (t ++ [Sent (send_command p) (Some (e_pdu_hex p ++ [26])) r]) = submitted t ++ [wire_of p]).
  { intros r. unfold submitted. by rewrite omap_app. }
  assert (Hstop : forall r e, sent_first (p :: parts) t (Err e) (t ++ [Sent (send_command p) (Some (e_pdu_hex p ++ [26])) r])).
  { intros r e. exists 1%nat. rewrite Hone. cbn [take fmap list_fmap length]. split_and!; [done|lia|lia]. }
  apply wp_bind, wp_execute_payload; [done|]. intros r d' c' _ _ _. destruct r as [x|e]; [|apply Hstop].
  apply wp_bind. unfold of_res. destruct (reference_of x) as [n|e]; [|apply Hstop]. cbn [wp].
  apply wp_bind. eapply wp_mono; [|apply IH]. intros [ns|e] t' d1 c1 (k & Ek & Hk & H); exists (S k);
    rewrite Ek, Hone, <- app_assoc; cbn [take fmap list_fmap length app]; split_and!; try done; try lia; destruct H; try lia.
Qed.

(** A message is submitted segment by segment, once.  Whatever
    the module answers and whatever else runs, what [send_sms] submits is a first
    part of the segments [encode_submit] built, in order, none twice; when it
    returns, all of them went out and there is a reference for each; when the
    text cannot be encoded, nothing is sent. *)
Theorem send_sms_spec (draw : Z) (number text : pystr) (script : list tick) (d : driver) (c : Z) (t : list event) (d' : driver) (c' : Z) (r : res exn (list Z)) :
  run (send_sms draw number text) script [] d c = (t, d', c', Done r) ->
  match encode_submit number text None draw 0xAA false true with
  | Ok parts => exists k, submitted t = wire_of <$> take k parts
      /\ (forall ns, r = Ok ns -> k = length parts /\ length ns = length parts)
  | Err _ => t = [] /\ r = Err ValueError
  end.
Proof.
  intros E. unfold send_sms in E. destruct (encode_submit _ _ _ _ _ _ _) as [parts|e]; [|by injection E as <- _ _ <-].
  destruct (run_wp any_state any_command True _ _ script [] d c ltac:(by apply Forall_forall) (wp_send_parts parts [] d c) (allowed_nil _)) as [_ H].
  rewrite E in H. destruct H as (k & Hk & _ & H). exists k. split; [exact Hk|]. by intros ns ->.
Qed.

Definition sent_reference : tick := mkTick (Ok (mkResponse [] [str "+CMGS: 7"] (str "OK"))) [] id 0.

Lemma send_sms_spec_witness :
  exists k parts, submitted (run (send_sms 9 (str "10086") (str "hi")) [sent_reference] [] (new_driver 1) 0).1.1.1 = wire_of <$> take k parts
  /\ length parts = 1%nat.
Proof.
  pose proof (send_sms_spec 9 (str "10086") (str "hi") [sent_reference] (new_driver 1) 0
    (run (send_sms 9 (str "10086") (str "hi")) [sent_reference] [] (new_driver 1) 0).1.1.1
    (run (send_sms 9 (str "10086") (str "hi")) [sent_reference] [] (new_driver 1) 0).1.1.2
    (run (send_sms 9 (str "10086") (str "hi")) [sent_reference] [] (new_driver 1) 0).1.2 (Ok [7]) ltac:(by vm_compute)) as H.
  destruct (encode_submit (str "10086") (str "hi") None 9 0xAA false true) as [parts|] eqn:E; [|by vm_compute in E].
  destruct H as (k & Hk & _). exists k, parts. split; [exact Hk|]. vm_compute in E. by injection E as <-.
Defined.

(** ** Two messages, the second slot refused *)

Definition sample_pdu (text : string) : pystr :=
  default [] (res_opt (encode_deliver (str "10086") (str text) None (mkDatetime 2026 2 28 23 59 1 28800) (str "+8613800210500") None 9 false) ≫= head).
Definition sample_listing : tick :=
  mkTick (Ok (mkResponse [] [str "+CMGL: 1,1,,30"; sample_pdu "code 1111"; str "+CMGL: 2,1,,30"; sample_pdu "code 2222"] (str "OK"))) [] id 0.
Definition freed_ok : tick := mkTick (Ok (mkResponse [] [] (str "OK"))) [] id 0.
Definition failed : tick := mkTick (Err (AtError (ATTimeout []))) [] id 0.

Definition drain_run (script : list tick) : list event * driver * Z * outcome (list DecodedSms) :=
  run (drain_inbox true true) script [] (new_driver 30000000) 0.

Lemma drain_failure_loses_witness :
  (drain_run [sample_listing; freed_ok; failed]).2 = Done (Err (AtError (ATTimeout [])))
  /\ Modem.sent (drain_run [sample_listing; freed_ok; failed]).1.1.1 = str <$> ["AT+CMGL=4"; "AT+CMGD=1"; "AT+CMGD=2"]%string
  /\ exists s e, last (drain_run [sample_listing; freed_ok; failed]).1.1.1 = Some (Sent (delete_command (index s)) None (Err (AtError e))).
Proof.
  split; [by vm_compute|]. split; [by vm_compute|].
  destruct (drain_failure_loses [sample_listing; freed_ok; failed] (new_driver 30000000) 0
    (drain_run [sample_listing; freed_ok; failed]).1.1.1 (drain_run [sample_listing; freed_ok; failed]).1.1.2
    (drain_run [sample_listing; freed_ok; failed]).1.2 (ATTimeout [])) as [[E _]|(rl & slots1 & s & slots2 & times & l & outs & evs & _ & _ & _ & _ & E)].
  - by repeat constructor.
  - by vm_compute.
  - by vm_compute in E.
  - exists s, (ATTimeout []). by rewrite E, app_comm_cons, last_snoc.
Defined.

Lemma drain_spec_witness :
  d_text <$> (match (drain_run [sample_listing; freed_ok; freed_ok; freed_ok; freed_ok]).2 with Done (Ok out) => out | _ => [] end)
    = str <$> ["code 1111"; "code 2222"]%string
  /\ exists l outs r1, Reassembly.push_all l (Reassembly.new_reassembler 30000000) = Ok (outs, r1).
Proof.
  split; [by vm_compute|].
  destruct (drain_spec [sample_listing; freed_ok; freed_ok; freed_ok; freed_ok] (new_driver 30000000) 0
    (drain_run [sample_listing; freed_ok; freed_ok; freed_ok; freed_ok]).1.1.1 (drain_run [sample_listing; freed_ok; freed_ok; freed_ok; freed_ok]).1.1.2
    (drain_run [sample_listing; freed_ok; freed_ok; freed_ok; freed_ok]).1.2
    (match (drain_run [sample_listing; freed_ok; freed_ok; freed_ok; freed_ok]).2 with Done (Ok out) => out | _ => [] end))
    as (rl & times & l & outs & r1 & now & late & evs & _ & H & _).
  - by repeat constructor.
  - by vm_compute.
  - by exists l, outs, r1.
Defined.
End Inbox.
