(* ===== verification/Calls.v ===== *)
(** * Voice calls (agent/src/air780e_agent/modem.py)

    The keep-alive call ([call_keepalive], [_watch_call], [hangup]), [ping], and the
    record of incoming calls ([_on_ring], [_on_clip] of Driver.v, [_report_call]).
    Times are microseconds; a quarter of the ring window is rounded down to one. *)

From S2P Require Import Prelude PyText AtErrors AtClient AtText Driver Modem.
#[local] Open Scope driver_scope.

Module Calls.
Import ATClient AtText Driver.

(** ** The keep-alive call *)

Definition CALL_POLL_INTERVAL : Z := 1500000.
Definition CALL_STATE_ACTIVE : Z := 0.
Definition CALL_STATE_DIALING : Z := 2.
Definition CALL_STATE_ALERTING : Z := 3.

(** [_DIALABLE_RE] on a stripped text. *)
Definition dial_char (c : Z) : bool :=
  ((48 <=? c) && (c <=? 57)) || (c =? 42) || (c =? 35) || ((65 <=? c) && (c <=? 68)).
Definition is_dialable (number : pystr) : bool :=
  let digits := match number with c :: rest => if c =? 43 then rest else number | [] => [] end in
  forallb dial_char digits && (3 <=? length digits)%nat && (length digits <=? 20)%nat.

(** [_CALL_PROGRESS_OUTCOMES] *)
Definition CALL_PROGRESS_OUTCOMES : list (string * (string * bool)) :=
  [("BUSY", ("busy", true)); ("NO ANSWER", ("no_answer", true)); ("NO CARRIER", ("released", false));
   ("NO DIALTONE", ("no_dialtone", false))]%string.
Definition progress_of (final : pystr) : option (string * bool) :=
  snd <$> List.find (fun e => bool_decide (final = str e.1)) CALL_PROGRESS_OUTCOMES.

Record CallResult := mkResult {
  outcome_ : string; reached_network : bool; ring_seconds : Z; detail : pystr; states : list Z }.

Definition dial_command (number : pystr) : pystr := str "ATD" ++ number ++ str ";".

(** The states an AT+CLCC answer lists; [int] refuses the digits that are not
    decimal. *)
Fixpoint states_from (values : list pystr) : res exn (list Z) :=
  match values with
  | [] => Ok []
  | v :: values =>
      s ← match csv_fields v !! 2%nat with Some f => Modem.digit_field f | None => Ok None end;
      l ← states_from values;
      Ok (option_list s ++ l)
  end.
Definition states_in (r : ATResponse) : res exn (list Z) := states_from (all_values (str "+CLCC:") r).

Fixpoint watch_loop (fuel : nat) (started ring interval : Z) (seen : list Z) : prog (list Z) :=
  match fuel with
  | O => Spin
  | S fuel =>
      r <-- Modem.answer "AT+CLCC" ;;
      match r with
      | None => Ret seen
      | Some r =>
          listed <-- of_res (states_in r) ;;
          let seen' := seen ++ listed in
          if bool_decide (listed = []) && negb (bool_decide (seen' = [])) then Ret seen'
          else
            now <-- monotonic ;;
            if ring <=? now - started then Ret seen'
            else sleep interval ;;- watch_loop fuel started ring interval seen'
      end
  end.

Definition poll_interval (ring : Z) : Z := Z.min CALL_POLL_INTERVAL (Z.max (ring / 4) 50000).
(** One poll per interval and one at each end. *)
Definition watch_call (started ring : Z) : prog (list Z) :=
  watch_loop (Z.to_nat (Z.max 0 ring / poll_interval ring) + 2) started ring (poll_interval ring) [].

Definition hangup : prog unit := except_at (execute (str "ATH") ;;- Ret tt) (fun _ => Ret tt).

(** The outcome the states are evidence of. *)
Definition judge (seen : list Z) : string * bool * pystr :=
  if bool_decide (CALL_STATE_ACTIVE ∈ seen) then ("answered", true, [])%string
  else if bool_decide (CALL_STATE_ALERTING ∈ seen) then ("alerting", true, [])%string
  else if bool_decide (CALL_STATE_DIALING ∈ seen) then ("dialing", false, [])%string
  else ("no_progress"%string, false, str "+CLCC never reported a call").

(** How dialling ended: [None] for OK. *)
Definition dial (number : pystr) : prog (option (string * bool * pystr)) :=
  except_at (execute (dial_command number) ;;- Ret None)
    (fun e => match e with
              | ATCommandError m =>
                  match progress_of (final_of m) with
                  | Some (o, reached) => Ret (Some (o, reached, final_of m))
                  | None => Throw (AtError e)
                  end
              | e => Throw (AtError e)
              end).

Definition call_keepalive (number : pystr) (ring : Z) : prog CallResult :=
  if negb (is_dialable (strip number)) then Throw ValueError
  else
    started <-- monotonic ;;
    ended <-- dial (strip number) ;;
    r <-- match ended with
          | None => seen <-- finally (watch_call started ring) hangup ;; Ret (judge seen, seen)
          | Some (o, reached, final) =>
              Ret ((o, reached, if bool_decide (o = "released"%string) then final ++ str " (no ringing observed)" else final), [])
          end ;;
    now <-- monotonic ;;
    let '(o, reached, text, seen) := r in
    Ret (mkResult o reached (now - started) text seen).

Definition ping_command (host : pystr) : pystr := str "AT+CIPPING=" ++ Operators.quote host.
Definition ping (host : pystr) : prog bool :=
  except_at (execute (ping_command host) ;;- Ret true) (fun _ => Ret false).

(** ** What a keep-alive call does *)

(** The states the module reported, as far as they were read. *)
Definition reported (t : list event) : list Z :=
  mjoin (omap (fun x => match x with
                        | Sent cmd None (Ok r) => if bool_decide (cmd = str "AT+CLCC") then res_opt (states_in r) else None
                        | _ => None end) t).

Lemma reported_app t t' : reported (t ++ t') = reported t ++ reported t'.
Proof. unfold reported. by rewrite omap_app, join_app. Qed.

Lemma reported_clcc r : reported [Sent (str "AT+CLCC") None (Ok r)] = default [] (res_opt (states_in r)).
Proof.
  unfold reported. cbn [omap list_omap]. rewrite bool_decide_eq_true_2 by done. destruct (states_in r); cbn [res_opt default mjoin list_join]; [|done].
  by rewrite app_nil_r.
Qed.

Lemma reported_other cmd r : cmd <> str "AT+CLCC" -> reported [Sent cmd None r] = [].
Proof. intros H. unfold reported. cbn [omap list_omap]. destruct r; [|done]. by rewrite bool_decide_eq_false_2. Qed.

Definition dials (number : pystr) (t : list event) (cmd : pystr) : Prop :=
  (t = [] /\ cmd = dial_command (strip number) /\ is_dialable (strip number) = true)
  \/ cmd = str "AT+CLCC" \/ cmd = str "ATH".

Definition only_watched (evs : list event) : Prop :=
  Forall (fun x => match x with Sent cmd pl _ => cmd = str "AT+CLCC" /\ pl = None | Slept _ => True | Handed _ _ => False end) evs.

Section Keepalive.
Context (number : pystr).
Abbreviation wpc p Q := (wp any_state (dials number) False p Q).

Lemma wp_watch_loop started ring interval : 0 < interval -> forall fuel seen t d c,
  (1 <= fuel)%nat -> ring - (c - started) <= interval * (Z.of_nat fuel - 1) ->
  wpc (watch_loop fuel started ring interval seen)
    (fun r t' _ _ => exists evs, t' = t ++ evs /\ only_watched evs /\ forall l, r = Ok l -> l = seen ++ reported evs) t d c.
Proof.
  intros Hi. induction fuel as [|fuel IH]; intros seen t d c Hf Hc; [lia|]. cbn [watch_loop]. apply wp_bind, wp_query; [by right; left|].
  intros r d1 c1 _ _ Hc1. set (x := Sent (str "AT+CLCC") None r).
  assert (Hx : only_watched [x]) by by repeat constructor.
  assert (Hstop : forall res : res exn (list Z), (forall l, res = Ok l -> l = seen ++ reported [x]) ->
    exists evs, t ++ [x] = t ++ evs /\ only_watched evs /\ forall l, res = Ok l -> l = seen ++ reported evs) by (intros res H; by exists [x]).
  destruct r as [y|[e| | | | |]]; try (by apply Hstop).
  - apply wp_bind. unfold of_res. destruct (states_in y) as [listed|e] eqn:Ey; [|by apply Hstop]. cbn [wp].
    assert (Er : reported [x] = listed) by (subst x; by rewrite reported_clcc, Ey).
    destruct (_ && _); [apply Hstop; intros l [= <-]; by rewrite Er|]. cbn [bind monotonic wp].
    destruct (Z.leb_spec ring (c1 - started)) as [Hle|Hgt]; [apply Hstop; intros l [= <-]; by rewrite Er|].
    apply wp_bind, wp_sleep. intros [[]|e] d2 c2 _ _ Hc2; cbv beta iota in Hc2.
    + assert (Hf' : (1 <= fuel)%nat) by (destruct fuel; [rewrite Z.mul_0_r in Hc; lia|lia]).
      eapply wp_mono; [|apply IH; [done|]].
      * intros res t' d' c' (evs & -> & Hw & Hl). exists (x :: Slept interval :: evs). split_and!; [by rewrite <- !app_assoc|by repeat constructor|].
        intros l E. rewrite (Hl l E), <- Er. change (x :: Slept interval :: evs) with ([x] ++ [Slept interval] ++ evs).
        rewrite !reported_app. by rewrite <- app_assoc.
      * replace (Z.of_nat (S fuel) - 1) with ((Z.of_nat fuel - 1) + 1) in Hc by lia. rewrite Z.mul_add_distr_l in Hc. lia.
    + exists [x; Slept interval]. split_and!; [by rewrite <- app_assoc|by repeat constructor|done].
  - apply Hstop. intros l [= <-]. subst x. by rewrite app_nil_r.
Qed.

Lemma poll_interval_pos ring : 0 < poll_interval ring.
Proof. unfold poll_interval, CALL_POLL_INTERVAL. lia. Qed.

Lemma wp_watch_call started ring t d c : started <= c ->
  wpc (watch_call started ring)
    (fun r t' _ _ => exists evs, t' = t ++ evs /\ only_watched evs /\ forall l, r = Ok l -> l = reported evs) t d c.
Proof.
  intros Hc. pose proof (poll_interval_pos ring) as Hi. pose proof (Z.div_pos (Z.max 0 ring) _ ltac:(lia) Hi).
  apply wp_watch_loop; [done|lia|]. pose proof (Z.div_mod (Z.max 0 ring) (poll_interval ring) ltac:(lia)).
  pose proof (Z.mod_pos_bound (Z.max 0 ring) (poll_interval ring) Hi). nia.
Qed.

Lemma wp_hangup t d c : wpc hangup (fun r t' _ _ => exists h, t' = t ++ [Sent (str "ATH") None h]) t d c.
Proof. apply wp_query; [by right; right|]. intros r d' c' _ _ _. by exists r. Qed.

(** How the events of a call end. *)
Definition called (t : list event) : Prop :=
  (exists e, t = [Sent (dial_command (strip number)) None (Err e)])
  \/ exists x evs h, t = Sent (dial_command (strip number)) None (Ok x) :: evs ++ [Sent (str "ATH") None h] /\ only_watched evs.

(** What makes a keep-alive count. *)
Definition evidence (t : list event) : Prop :=
  (exists m, t = [Sent (dial_command (strip number)) None (Err (AtError (ATCommandError m)))]
             /\ (final_of m = str "BUSY" \/ final_of m = str "NO ANSWER"))
  \/ CALL_STATE_ACTIVE ∈ reported t \/ CALL_STATE_ALERTING ∈ reported t.

Lemma judge_evidence seen : (judge seen).1.2 = true <-> CALL_STATE_ACTIVE ∈ seen \/ CALL_STATE_ALERTING ∈ seen.
Proof. unfold judge. repeat case_bool_decide; cbn; naive_solver. Qed.

Lemma progress_evidence f o b : progress_of f = Some (o, b) -> b = true <-> f = str "BUSY" \/ f = str "NO ANSWER".
Proof.
  unfold progress_of, CALL_PROGRESS_OUTCOMES. cbn [List.find fst snd]. repeat case_bool_decide; cbn; intros [= _ <-]; subst; split; try done; auto.
  - intros [?|?]; discriminate.
  - intros [?|?]; discriminate.
Qed.

Lemma wp_dial t0 d c : t0 = [] -> is_dialable (strip number) = true ->
  wpc (dial (strip number)) (fun r t d c' => c <= c' /\ match r with
     | Ok None => exists x, t = [Sent (dial_command (strip number)) None (Ok x)]
     | Ok (Some (o, b, f)) => exists m, t = [Sent (dial_command (strip number)) None (Err (AtError (ATCommandError m)))] /\ progress_of (final_of m) = Some (o, b)
     | Err _ => exists e, t = [Sent (dial_command (strip number)) None (Err e)] end) t0 d c.
Proof.
  intros -> Hd. unfold dial. apply wp_except_at, wp_bind, wp_execute; [by left|]. intros r d' c' Hr _ Hc.
  destruct r as [x|[e| | | | |]]; try done; try (split; [lia|by eexists]).
  destruct e; try (cbn; split; [lia|by eexists]). destruct (progress_of (final_of message)) as [[o b]|] eqn:E; cbn; (split; [lia|]); [|by eexists].
  by exists message.
Qed.

(** A keep-alive call is always ended, and judged by evidence.
    Whatever the module answers and whenever the task is cancelled: the number is
    one dial string (nothing in it can end the command); once ATD was accepted,
    the last thing [call_keepalive] does is to hang up, also when it is cancelled
    or an answer cannot be read; the watch never outlives its loop; and
    [reached_network] holds exactly when the network engaged -- BUSY, NO ANSWER,
    or an active or alerting state that AT+CLCC reported. *)
Theorem keepalive_hangs_up (ring : Z) (script : list tick) (d : driver) (c : Z) :
  let y := run (call_keepalive number ring) script [] d c in
  (forall t1 cmd pl r t2, y.1.1.1 = t1 ++ Sent cmd pl r :: t2 -> dials number t1 cmd)
  /\ y.2 <> OutOfFuel
  /\ (forall r, y.2 = Done r -> (y.1.1.1 = [] /\ r = Err ValueError) \/ called y.1.1.1)
  /\ (forall res, y.2 = Done (Ok res) -> reached_network res = true <-> evidence y.1.1.1).
Proof.
  intros y. destruct (run_wp any_state (dials number) False (call_keepalive number ring)
    (fun r t _ _ => ((t = [] /\ r = Err ValueError) \/ called t) /\ forall res, r = Ok res -> reached_network res = true <-> evidence t)
    script [] d c) as [H1 H2].
  - by apply Forall_forall.
  - unfold call_keepalive. destruct (is_dialable (strip number)) eqn:Hd; [|by split; [left|]]. cbn [negb bind monotonic wp].
    apply wp_bind. eapply wp_mono; [|by apply wp_dial].
    intros [[[[o b] f]|]|e] t d1 c1 [Hc1 H].
    + destruct H as (m & -> & Hp). cbn. split; [right; left; by eexists|]. intros res [= <-]. cbn. rewrite (progress_evidence _ _ _ Hp). split.
      * intros Hf. left. by exists m.
      * intros [(m' & [= ->] & Hf)|[Hr|Hr]]; [done|by apply elem_of_nil in Hr..].
    + destruct H as [x ->]. apply wp_bind, wp_bind, wp_finally. eapply wp_mono; [|by apply wp_watch_call].
      intros r t' d2 c2 (evs & -> & Hw & Hl). eapply wp_mono; [|apply wp_hangup]. intros r' t3 d3 c3 [h ->].
      assert (Hcalled : called (([Sent (dial_command (strip number)) None (Ok x)] ++ evs) ++ [Sent (str "ATH") None h])).
      { right. exists x, evs, h. split; [|done]. cbn. done. }
      destruct r' as [[]|e]; [|by split; [right|]]. destruct r as [l|e]; [|by split; [right|]]. cbn [bind monotonic wp].
      destruct (judge l) as [[o b] f] eqn:Ej. cbn [wp]. split; [by right|]. intros res [= <-]. cbn [reached_network].
      pose proof (judge_evidence l) as Hj. rewrite Ej in Hj. cbn in Hj. rewrite Hj, (Hl l eq_refl).
      assert (Er : reported (([Sent (dial_command (strip number)) None (Ok x)] ++ evs) ++ [Sent (str "ATH") None h]) = reported evs).
      { rewrite !reported_app, !reported_other by done. by rewrite app_nil_r. }
      unfold evidence.
      rewrite Er. split; [by right|]. intros [(m & E & _)|Hr]; [|done]. by destruct evs.
    + destruct H as [x ->]. split; [right; left; by eexists|done].
  - apply allowed_nil.
  - fold y in H1, H2. split_and!; [exact H1|by intros E; rewrite E in H2|..]; intros r E; rewrite E in H2; [apply H2|by apply H2].
Qed.
End Keepalive.

(** A dial that times out is taken for one that never happened: no ATH is sent. *)
Example dial_timeout_not_hung_up :
  let y := run (call_keepalive (str "10086") 8000000) [Modem.refused] [] (new_driver 30000000) 0 in
  y.2 = Done (Err (AtError (ATTimeout []))) /\ Modem.sent y.1.1.1 = [str "ATD10086;"].
Proof. by vm_compute. Qed.

(** [ping] writes its host as it comes, line breaks included. *)
Example ping_splices :
  Modem.sent (run (ping (str "x" ++ [34; 13] ++ str "ATD10086;")) [Modem.refused] [] (new_driver 30000000) 0).1.1.1
    = [str "AT+CIPPING=" ++ [34] ++ str "x" ++ [34; 13] ++ str "ATD10086;" ++ [34]].
Proof. by vm_compute. Qed.

(** ** Incoming calls *)

(** [_report_call]; an exception of the callback is only logged. *)
Definition report_call (has_on_call : bool) : prog unit :=
  awake <-- catch (sleep CLIP_GRACE ;;- Ret true) (fun e => match e with Cancelled => Ret false | e => Throw e end) ;;
  if negb awake then Ret tt
  else
    call <-- get ring_call ;;
    put (fun d => set_ring None (ring_seen d) (ring_tasks d) d) ;;-
    match call with
    | Some c => if has_on_call then catch (hand (UpCall c)) (fun e => match e with Cancelled => Throw Cancelled | _ => Ret tt end) else Ret tt
    | None => Ret tt
    end.

(** The driver, the report tasks asleep by the time they started, the calls
    reported, and the calls noted with the time and the stamp of their line. *)
Record phone := mkPhone {
  y_driver : driver; y_tasks : list Z; y_reported : list IncomingCall; y_noted : list (Z * pystr) }.

(** What a line does: the tasks it starts are those it counts. *)
Definition hear (now : Z) (stamp : pystr) (d : driver) (y : phone) : phone :=
  let started := bool_decide (ring_tasks d = S (ring_tasks (y_driver y))) in
  mkPhone d (y_tasks y ++ if started then [now] else []) (y_reported y) (y_noted y ++ if started then [(now, stamp)] else []).

(** A sleeping task wakes up before the gap is over. *)
Definition punctual (now : Z) (y : phone) : Prop := Forall (fun s => now - s < RING_REPEAT_GAP) (y_tasks y).

(** Lines that arrive during the sleep are steps of their own. *)
Definition undisturbed : tick := mkTick (Ok (mkResponse [] [] [])) [] id 0.

Inductive phone_step : phone -> phone -> Prop :=
| step_ring now stamp y : 0 <= now -> ring_seen (y_driver y) <= now -> punctual now y ->
    phone_step y (hear now stamp (on_ring now stamp (y_driver y)) y)
| step_clip now stamp u y : 0 <= now -> ring_seen (y_driver y) <= now -> punctual now y ->
    phone_step y (hear now stamp (on_clip now stamp u (y_driver y)) y)
| step_report y s tasks1 tasks2 : y_tasks y = tasks1 ++ s :: tasks2 ->
    let r := run (report_call true) [undisturbed; undisturbed] [] (y_driver y) s in
    phone_step y (mkPhone r.1.1.2 (tasks1 ++ tasks2)
                   (y_reported y ++ omap (fun e => match e with Handed (UpCall x) _ => Some x | _ => None end) r.1.1.1) (y_noted y)).

(** One task sleeps while a call waits for its number, none otherwise. *)
Record phone_ok (y : phone) : Prop := {
  k_one : (y_tasks y = [] /\ ring_call (y_driver y) = None)
          \/ exists s c, y_tasks y = [s] /\ ring_call (y_driver y) = Some c /\ s <= ring_seen (y_driver y);
  k_stamps : call_ts <$> y_reported y ++ option_list (ring_call (y_driver y)) = snd <$> y_noted y;
  k_spaced : StronglySorted (fun a b => a.1 + RING_REPEAT_GAP <= b.1) (y_noted y);
  k_last : Forall (fun a => a.1 <= ring_seen (y_driver y)) (y_noted y) }.

Definition first_phone : phone := mkPhone (new_driver 30000000) [] [] [].

Lemma first_phone_ok : phone_ok first_phone.
Proof. split; try done; [by left|constructor]. Qed.

(** A line within the gap of the last one leaves the calls as they are. *)
Lemma hear_same now stamp d y : phone_ok y -> ring_tasks d = ring_tasks (y_driver y) ->
  (ring_call d = ring_call (y_driver y) \/ exists c c', ring_call (y_driver y) = Some c /\ ring_call d = Some c' /\ call_ts c' = call_ts c) ->
  ring_seen (y_driver y) <= ring_seen d -> phone_ok (hear now stamp d y).
Proof.
  intros [H1 H2 H3 H4] Ht Hc Hs. unfold hear. rewrite Ht, bool_decide_eq_false_2 by lia. rewrite !app_nil_r.
  split; cbn [y_driver y_tasks y_reported y_noted]; [| |done|].
  - destruct H1 as [[E1 E2]|(s & c & E1 & E2 & E3)].
    + left. split; [done|]. destruct Hc as [->|(? & ? & ? & _)]; [done|congruence].
    + right. destruct Hc as [->|(c0 & c' & _ & -> & _)]; [by exists s, c; split_and!; [..|lia]|by exists s, c'; split_and!; [..|lia]].
  - rewrite <- H2, !fmap_app. f_equal. destruct Hc as [->|(c & c' & -> & -> & E)]; [done|]. cbn. by rewrite E.
  - eapply Forall_impl; [exact H4|]. cbv beta. lia.
Qed.

(** A line after the gap notes a new call. *)
Lemma hear_new now stamp number d y : phone_ok y -> punctual now y -> ring_seen (y_driver y) + RING_REPEAT_GAP <= now ->
  d = set_ring (Some (mkCall number stamp)) now (S (ring_tasks (y_driver y))) (y_driver y) -> phone_ok (hear now stamp d y).
Proof.
  intros [H1 H2 H3 H4] Hp Hg ->. unfold hear. cbn [ring_tasks set_ring]. rewrite bool_decide_eq_true_2 by done.
  assert (Hn : y_tasks y = [] /\ ring_call (y_driver y) = None).
  { destruct H1 as [H1|(s & c & E1 & _ & E3)]; [done|]. unfold punctual in Hp. rewrite E1 in Hp. apply Forall_cons in Hp as [Hp _]. lia. }
  destruct Hn as [En Ec]. rewrite En, Ec in *. cbn in H2. rewrite app_nil_r in H2.
  split; cbn [y_driver y_tasks y_reported y_noted set_ring ring_call ring_seen app].
  - right. by exists now, (mkCall number stamp).
  - rewrite !fmap_app, H2. done.
  - apply StronglySorted_app_2; [|done|by repeat constructor]. intros a b Ha ->%list_elem_of_singleton.
    apply (proj1 (Forall_forall _ _) H4) in Ha. cbn. lia.
  - apply Forall_app. split; [|by repeat constructor]. eapply Forall_impl; [exact H4|]. cbv beta. unfold RING_REPEAT_GAP in Hg. lia.
Qed.

Lemma phone_step_ok y y' : phone_ok y -> phone_step y y' -> phone_ok y'.
Proof.
  intros Hok H. destruct H as [now stamp y Hn Hs Hp|now stamp u y Hn Hs Hp|y s tasks1 tasks2 Et r].
  - unfold on_ring. destruct (Z.ltb_spec (now - ring_seen (y_driver y)) RING_REPEAT_GAP) as [Hlt|Hge].
    + apply hear_same; try done. by left.
    + eapply hear_new; [done|done|lia|done].
  - unfold on_clip. destruct (ring_call (y_driver y)) as [c|] eqn:Ec.
    + apply hear_same; try done. right. destruct (clip_number _) as [|? ?]; [by exists c, c|]. by eexists c, _.
    + destruct (Z.ltb_spec (now - ring_seen (y_driver y)) RING_REPEAT_GAP) as [Hlt|Hge].
      * apply hear_same; try done. by left.
      * eapply hear_new; [done|done|lia|done].
  - destruct Hok as [H1 H2 H3 H4]. destruct H1 as [[E1 _]|(s0 & c & E1 & E2 & E3)]; [rewrite Et in E1; by destruct tasks1|].
    rewrite E1 in Et. destruct tasks1 as [|? [|? ?]]; [|done..]. injection Et as <- <-.
    assert (Er : r.1.1.2 = set_ring None (ring_seen (y_driver y)) (ring_tasks (y_driver y)) (y_driver y)
                 /\ omap (fun e => match e with Handed (UpCall x) _ => Some x | _ => None end) r.1.1.1 = [c]).
    { subst r. unfold report_call. cbn. rewrite E2. by cbn. }
    destruct Er as [-> ->]. split; cbn [y_driver y_tasks y_reported y_noted set_ring ring_call ring_seen app]; [by left| |done|done].
    rewrite app_nil_r, <- H2, E2. done.
Qed.

(** One record for one ringing call.  However often RING and +CLIP
    repeat, and whenever the reports are made -- within the gap that separates two
    calls -- the calls handed upward, with the one still waiting for its number
    behind them, are exactly the calls noted, in order; any two of those are at
    least [RING_REPEAT_GAP] apart; and at most one report is under way. *)
Theorem ringing_call_once (y : phone) : rtc phone_step first_phone y ->
  call_ts <$> y_reported y ++ option_list (ring_call (y_driver y)) = snd <$> y_noted y
  /\ StronglySorted (fun a b => a.1 + RING_REPEAT_GAP <= b.1) (y_noted y)
  /\ (length (y_tasks y) <= 1)%nat.
Proof.
  intros H. assert (Hok : phone_ok y).
  { revert H. apply (rtc_ind_r phone_ok); [apply first_phone_ok|]. intros a b _ Hs Ha. by eapply phone_step_ok. }
  destruct Hok as [H1 H2 H3 _]. split_and!; [done|done|]. destruct H1 as [[-> _]|(s & c & -> & _)]; cbn; lia.
Qed.

Definition rung : phone := hear 5000000 (str "t1") (on_ring 5000000 (str "t1") (y_driver first_phone)) first_phone.
Definition rung_twice : phone := hear 10000000 (str "t2") (on_ring 10000000 (str "t2") (y_driver rung)) rung.

Lemma ringing_call_once_witness :
  y_noted rung_twice = [(5000000, str "t1")]
  /\ call_ts <$> y_reported rung_twice ++ option_list (ring_call (y_driver rung_twice)) = snd <$> y_noted rung_twice.
Proof.
  split; [by vm_compute|]. apply (ringing_call_once rung_twice). apply (rtc_l _ _ rung).
  - apply step_ring; [lia|by vm_compute|constructor].
  - apply rtc_once, step_ring; [lia|by vm_compute|by repeat constructor].
Defined.
End Calls.
