(* ===== verification/Notify.v ===== *)
(** * What a notification says and who gets it (server/src/hub_server/notify.py)

    Templates ([render]), the scrubbing of provider errors ([scrub]), the text
    of a damaged message ([_salvaged], [notification_body], [_suppressed]), the
    rules ([rule_matches], [match_rules]) and the payload of one delivery.
    Text is a list of code points.  The interpreter's Unicode tables ([\w],
    [str.lower]), its regular expressions, [str] of a value that is not text
    and the configured time zone are arguments. *)

From S2P Require Import Prelude PyText PyDict Json.

Module Notify.

(** ** Templates *)

Definition DEFAULT_TEMPLATE : pystr :=
  [0x3010] ++ str "{card}" ++ [0x3011] ++ str "{sender}" ++ [0xA] ++ str "{message}".
Definition DEFAULT_TITLE : pystr := str "{card} " ++ [0xB7] ++ str " {sender}".
Definition DETAIL_LIMIT : nat := 300.

Abbreviation context := (list (list Z * json)) (only parsing).

(** The longest prefix of characters with [p], and what follows. *)
Fixpoint span (p : Z -> bool) (s : pystr) : pystr * pystr :=
  match s with
  | c :: s' => if p c then let '(a, b) := span p s' in (c :: a, b) else ([], s)
  | [] => ([], [])
  end.

Definition LBRACE : Z := 123.
Definition RBRACE : Z := 125.

(** *** Scanning *)

Lemma span_app p s : s = (span p s).1 ++ (span p s).2.
Proof. induction s as [|c s IH]; [done|]. cbn. destruct (p c); [|done]. destruct (span p s). cbn in *. by f_equal. Qed.

Lemma span_stop p a d rest : Forall (fun c => p c = true) a -> p d = false -> span p (a ++ d :: rest) = (a, d :: rest).
Proof. intros Ha Hd. induction Ha as [|c a Hc _ IH]; cbn; [by rewrite Hd|]. by rewrite Hc, IH. Qed.

Lemma span_length p s : (length (span p s).2 <= length s)%nat.
Proof. rewrite (span_app p s) at 2. rewrite length_app. lia. Qed.

(** *** Rendering *)

Section Rendering.
Context (is_word : Z -> bool) (repr : json -> pystr).

Definition py_str (v : json) : pystr := match v with JStr s => s | _ => repr v end.

(** PLACEHOLDER.match at the head of [s]: the name, and the text behind. *)
Definition placeholder (s : pystr) : option (pystr * pystr) :=
  match s with
  | c :: s =>
      if c =? LBRACE then
        match span is_word s with
        | ((_ :: _) as name, d :: rest) => if d =? RBRACE then Some (name, rest) else None
        | _ => None
        end
      else None
  | [] => None
  end.

Definition swap (ctx : context) (name : pystr) : pystr :=
  match default JNull (dict_get name ctx) with
  | JNull => LBRACE :: name ++ [RBRACE]
  | v => py_str v
  end.

(** [PLACEHOLDER.sub(swap, template)]; a character is left each turn, so the
    template's length is fuel enough. *)
Fixpoint sub_placeholders (fuel : nat) (ctx : context) (s : pystr) : pystr :=
  match fuel, s with
  | S fuel, c :: s' =>
      match placeholder s with
      | Some (name, rest) => swap ctx name ++ sub_placeholders fuel ctx rest
      | None => c :: sub_placeholders fuel ctx s'
      end
  | _, _ => []
  end.

Definition render (template : pystr) (ctx : context) : pystr :=
  let t := match template with [] => DEFAULT_TEMPLATE | _ => template end in
  sub_placeholders (length t) ctx t.

Lemma placeholder_length s name rest : placeholder s = Some (name, rest) -> (length rest < length s)%nat.
Proof.
  destruct s as [|c s]; [done|]. cbn. destruct (c =? LBRACE); [|done].
  pose proof (span_length is_word s) as Hl. destruct (span is_word s) as [[|n ns] [|d r]]; try done.
  destruct (d =? RBRACE); [|done]. intros [= _ ->]. cbn in *. lia.
Qed.

Lemma sub_fuel ctx s : forall n, (length s <= n)%nat -> sub_placeholders n ctx s = sub_placeholders (length s) ctx s.
Proof.
  induction s as [s IH] using (well_founded_induction (Nat.lt_wf_0_projected length)). intros n Hn.
  destruct s as [|c s]; [by destruct n|]. destruct n as [|n]; [cbn in Hn; lia|]. cbn [length sub_placeholders].
  destruct (placeholder (c :: s)) as [[name rest]|] eqn:E.
  - apply placeholder_length in E. cbn in E, Hn. f_equal.
    rewrite (IH rest) by (cbn; lia). symmetry. rewrite (IH rest); [done|cbn; lia|lia].
  - f_equal. apply IH; cbn in *; lia.
Qed.

Lemma sub_length ctx s n m : (length s <= n)%nat -> (length s <= m)%nat -> sub_placeholders n ctx s = sub_placeholders m ctx s.
Proof. intros. by rewrite (sub_fuel ctx s n), (sub_fuel ctx s m). Qed.

(** A template as its author reads it. *)
Inductive part := Lit (s : pystr) | Ref (name : pystr).

Definition part_ok (x : part) : Prop :=
  match x with
  | Lit s => LBRACE ∉ s
  | Ref name => name <> [] /\ Forall (fun c => is_word c = true) name
  end.

Definition part_text (x : part) : pystr := match x with Lit s => s | Ref name => LBRACE :: name ++ [RBRACE] end.
Definition part_value (ctx : context) (x : part) : pystr := match x with Lit s => s | Ref name => swap ctx name end.

Lemma sub_literal ctx lit s : LBRACE ∉ lit -> forall n m, (length (lit ++ s) <= n)%nat -> (length s <= m)%nat ->
  sub_placeholders n ctx (lit ++ s) = lit ++ sub_placeholders m ctx s.
Proof.
  intros Hl. induction lit as [|c lit IH]; intros n m Hn Hm; cbn [app].
  { by apply sub_length. }
  apply not_elem_of_cons in Hl as [Hc Hl]. destruct n as [|n]; [cbn in Hn; lia|]. cbn [sub_placeholders].
  assert (E : placeholder (c :: lit ++ s) = None) by (cbn; destruct (Z.eqb_spec c LBRACE); [congruence|done]).
  rewrite E. f_equal. apply IH; cbn in Hn; [done|lia|done].
Qed.

Lemma sub_ref ctx name s : is_word RBRACE = false -> name <> [] -> Forall (fun c => is_word c = true) name ->
  forall n m, (length (LBRACE :: name ++ RBRACE :: s) <= n)%nat -> (length s <= m)%nat ->
  sub_placeholders n ctx (LBRACE :: name ++ RBRACE :: s) = swap ctx name ++ sub_placeholders m ctx s.
Proof.
  intros Hb Hne Hw n m Hn Hm. destruct n as [|n]; [cbn in Hn; lia|]. cbn [sub_placeholders].
  assert (E : placeholder (LBRACE :: name ++ RBRACE :: s) = Some (name, s)).
  { cbn. rewrite (span_stop is_word name RBRACE s Hw Hb). by destruct name. }
  rewrite E. f_equal. apply sub_length; [|done]. cbn in Hn. rewrite length_app in Hn. cbn in Hn. lia.
Qed.

(** A template renders as its literal text with each
    placeholder replaced by the context's value, whatever braces or
    placeholder-like text the values hold (an SMS body is never expanded), and
    an unknown placeholder stays as written.  [is_word] is the interpreter's
    [\w], of which only that a brace is not in it matters. *)
Theorem render_spec (parts : list part) (ctx : context) :
  is_word RBRACE = false -> Forall part_ok parts -> mjoin (part_text <$> parts) <> [] ->
  render (mjoin (part_text <$> parts)) ctx = mjoin (part_value ctx <$> parts).
Proof.
  intros Hb Hp Hne. unfold render. replace (match _ with [] => DEFAULT_TEMPLATE | _ => _ end) with (mjoin (part_text <$> parts)) by by destruct (mjoin _).
  clear Hne. set (n := length _). assert (Hn : (length (mjoin (part_text <$> parts)) <= n)%nat) by (unfold n; lia). clearbody n.
  revert n Hn. induction Hp as [|x parts Hx Hp IH]; intros n Hn; [by destruct n|].
  rewrite !fmap_cons, !mjoin_cons in *. destruct x as [lit|name]; cbn [part_text part_value part_ok] in *.
  - rewrite (sub_literal ctx lit _ Hx n n); [by rewrite IH by (rewrite length_app in Hn; lia)|done|rewrite length_app in Hn; lia].
  - destruct Hx as [Hne Hw]. cbn [app] in *. rewrite <- app_assoc in *. cbn [app] in *.
    rewrite (sub_ref ctx name _ Hb Hne Hw n n); [rewrite IH; [done|]|done|];
      cbn in Hn; rewrite length_app in Hn; cbn in Hn; lia.
Qed.

End Rendering.

(** ** Errors made safe to show *)

(** URL_PATTERN.match at the head of [s]: the text behind. *)
Definition url_scheme (s : pystr) : option pystr :=
  if starts_with (str "https://") s then Some (drop 8 s)
  else if starts_with (str "http://") s then Some (drop 7 s)
  else None.

Definition url_at (s : pystr) : option pystr :=
  match url_scheme s with
  | Some (c :: rest) => if is_space c then None else Some (span (fun c => negb (is_space c)) rest).2
  | _ => None
  end.

Fixpoint sub_urls (fuel : nat) (s : pystr) : pystr :=
  match fuel, s with
  | S fuel, c :: s' =>
      match url_at s with
      | Some rest => str "<url>" ++ sub_urls fuel rest
      | None => c :: sub_urls fuel s'
      end
  | _, _ => []
  end.

Definition scrub (text : pystr) : pystr := take DETAIL_LIMIT (strip (sub_urls (length text) text)).

(** *** Scrubbing *)

(** A URL's scheme and at least one character of its address. *)
Definition url_here (s : pystr) : Prop :=
  exists p c r, (p = str "https://" \/ p = str "http://") /\ s = p ++ c :: r /\ is_space c = false.

Lemma starts_with_app p s : starts_with p s = true <-> exists r, s = p ++ r.
Proof.
  unfold starts_with. rewrite bool_decide_eq_true. split.
  - intros E. exists (drop (length p) s). rewrite <- E at 1. by rewrite take_drop.
  - intros [r ->]. by rewrite take_app_length.
Qed.

Lemma url_at_here s : is_Some (url_at s) <-> url_here s.
Proof.
  unfold url_at, url_scheme. destruct (starts_with (str "https://") s) eqn:E1; [|destruct (starts_with (str "http://") s) eqn:E2].
  - apply starts_with_app in E1 as [r ->]. rewrite (drop_app_length' (str "https://")) by done. split.
    + destruct r as [|c r]; [by intros [? ?]|]. destruct (is_space c) eqn:Ec; [by intros [? ?]|]. intros _. exists (str "https://"), c, r. by split; [left|].
    + intros (p & c & r' & Hp & E & Ec). destruct Hp as [->| ->]; [|by cbn in E].
      apply app_inv_head in E as ->. rewrite Ec. by eexists.
  - apply starts_with_app in E2 as [r ->]. rewrite (drop_app_length' (str "http://")) by done. split.
    + destruct r as [|c r]; [by intros [? ?]|]. destruct (is_space c) eqn:Ec; [by intros [? ?]|]. intros _. exists (str "http://"), c, r. by split; [right|].
    + intros (p & c & r' & Hp & E & Ec). destruct Hp as [->| ->]; [by cbn in E|].
      apply app_inv_head in E as ->. rewrite Ec. by eexists.
  - split; [by intros [? ?]|]. intros (p & c & r & Hp & -> & _). exfalso.
    destruct Hp as [->| ->]; [apply not_true_iff_false in E1; apply E1|apply not_true_iff_false in E2; apply E2]; apply starts_with_app; by eexists.
Qed.

Lemma sub_urls_prefix p : 60 ∉ p -> forall n s t, sub_urls n s = p ++ t -> (length s <= n)%nat ->
  exists n' s', s = p ++ s' /\ t = sub_urls n' s' /\ (length s' <= n')%nat.
Proof.
  induction p as [|c p IH]; intros Hp n s t E Hn.
  { exists n, s. by split_and!. }
  apply not_elem_of_cons in Hp as [Hc Hp]. destruct n as [|n]; [done|]. destruct s as [|d s]; [done|].
  cbn [sub_urls] in E. destruct (url_at (d :: s)) as [rest|]; [exfalso; apply (f_equal head) in E; cbn in E; injection E as E; by apply Hc|].
  injection E as -> E. destruct (IH Hp n s t E) as (n' & s' & -> & -> & Hn'); [cbn in Hn; lia|].
  exists n', s'. by split_and!.
Qed.

Lemma sub_urls_head n s : (length s <= n)%nat -> ~ url_here (sub_urls n s).
Proof.
  intros Hn (p & c & r & Hp & E & Ec).
  assert (H60 : 60 ∉ p) by (destruct Hp as [-> | ->]; decide_closed).
  assert (Hu : is_Some (url_at s)).
  { apply url_at_here. destruct (sub_urls_prefix p H60 n s _ E Hn) as (n' & s' & -> & E' & Hn').
    destruct s' as [|d s']; [by destruct n'|]. destruct n' as [|n']; [cbn in Hn'; lia|]. exists p, d, s'. split_and!; [done..|].
    cbn [sub_urls] in E'. destruct (url_at (d :: s')) as [rest|] eqn:Eu.
    - assert (Hh : url_here (d :: s')) by (apply url_at_here; by eexists).
      destruct Hh as (p' & c' & r' & Hp' & E'' & _). destruct Hp' as [-> | ->]; injection E'' as -> _; reflexivity.
    - by injection E' as -> _. }
  destruct Hu as [rest Hr]. destruct s as [|d s]; [vm_compute in Hr; discriminate Hr|].
  destruct n as [|n]; [cbn in Hn; lia|]. cbn [sub_urls] in E. rewrite Hr in E.
  destruct Hp as [-> | ->]; discriminate E.
Qed.

Lemma url_rest_length s rest : url_at s = Some rest -> (length rest < length s)%nat.
Proof.
  unfold url_at, url_scheme. intros H.
  assert (Hk : exists k c r, drop k s = c :: r /\ rest = (span (fun c => negb (is_space c)) r).2).
  { destruct (starts_with _ s); [exists 8%nat|destruct (starts_with _ s); [exists 7%nat|done]];
      (destruct (drop _ s) as [|c r]; [done|]); exists c, r; (destruct (is_space c); [done|]); by injection H as <-. }
  destruct Hk as (k & c & r & E & ->). pose proof (span_length (fun c => negb (is_space c)) r).
  assert (El : length (drop k s) = length (c :: r)) by by rewrite E. rewrite length_drop in El. cbn in El. lia.
Qed.

Lemma sub_urls_none : forall n s k, (length s <= n)%nat -> ~ url_here (drop k (sub_urls n s)).
Proof.
  induction n as [|n IH]; intros s k Hn.
  { destruct s; [|cbn in Hn; lia]. cbn [sub_urls]. rewrite drop_nil. intros (p & c & r & [-> | ->] & E & _); discriminate E. }
  destruct k as [|k]; [by apply sub_urls_head|]. destruct s as [|c s].
  { intros (p & d & r & [-> | ->] & E & _); discriminate E. }
  cbn [sub_urls]. destruct (url_at (c :: s)) as [rest|] eqn:Eu; [|apply IH; cbn in Hn; lia].
  apply url_rest_length in Eu. destruct (decide (4 <= k)%nat) as [Hk|Hk].
  - replace (drop (S k) (str "<url>" ++ sub_urls n rest)) with (drop (k - 4) (sub_urls n rest)); [apply IH; cbn in *; lia|].
    replace (S k) with (length (str "<url>") + (k - 4))%nat by (cbn; lia). by rewrite drop_app_add.
  - intros (p & d & r & Hp & E & _). do 4 (destruct k as [|k]; [destruct Hp as [-> | ->]; discriminate E|]). lia.
Qed.

Lemma url_here_app s t : url_here s -> url_here (s ++ t).
Proof. intros (p & c & r & Hp & -> & Hc). exists p, c, (r ++ t). split_and!; [done| |done]. by rewrite <- app_assoc. Qed.

(** Whatever a provider or a library puts into an error text, what
    is stored and shown holds no URL at any position (a Telegram URL carries
    the bot token), and at most [DETAIL_LIMIT] characters. *)
Theorem scrub_hides_urls (text : pystr) (k : nat) :
  url_at (drop k (scrub text)) = None /\ (length (scrub text) <= DETAIL_LIMIT)%nat.
Proof.
  split; [|unfold scrub; rewrite length_take; lia].
  destruct (url_at (drop k (scrub text))) as [rest|] eqn:E; [exfalso|done].
  assert (Hu : url_here (drop k (scrub text))) by (apply url_at_here; by eexists). clear E.
  unfold scrub in Hu. set (clean := sub_urls _ _) in Hu. destruct (strip_infix clean) as (a & b & Ec).
  apply (sub_urls_none (length text) text (length a + k)); [done|]. fold clean. rewrite Ec, drop_app_add.
  replace (strip clean ++ b) with (take DETAIL_LIMIT (strip clean) ++ drop DETAIL_LIMIT (strip clean) ++ b)
    by by rewrite app_assoc, take_drop.
  rewrite drop_app. by apply url_here_app.
Qed.

(** ** The text of a message *)

Definition first_truthy (l : list json) (last : json) : json := default last (List.find truthy l).

Definition DAMAGED_NOTICE : pystr :=
  [0x26A0; 0xFE0F] ++ str " " ++ [0x77ED; 0x4FE1; 0x5728; 0x6A21; 0x7EC4; 0x5185; 0x635F; 0x574F; 0xFF0C; 0x4EE5; 0x4E0B; 0x662F; 0x53EF; 0x8BFB; 0x90E8; 0x5206; 0xFF08; 0x4E0D; 0x662F; 0x5168; 0x6587; 0xFF09].
Definition CODE_LABEL : pystr := [0x53EF; 0x80FD; 0x7684; 0x9A8C; 0x8BC1; 0x7801; 0xFF1A].
Definition UNREADABLE : pystr :=
  [0x6B63; 0x6587; 0x672A; 0x80FD; 0x6062; 0x590D; 0xFF0C; 0x8BF7; 0x5230; 0x7BA1; 0x7406; 0x754C; 0x9762; 0x67E5; 0x770B; 0x539F; 0x59CB] ++ str " PDU" ++ [0x3002].

Definition is_damaged (message f : frame) : bool := truthy (jget "truncated" message) || truthy (jget "truncated" f).

(** [str.strip] of a value; on anything but text it raises. *)
Definition strip_json (v : json) : option pystr := strip <$> as_str v.

(** Lines joined by newlines. *)
Definition join_lines (ls : list pystr) : pystr :=
  match ls with [] => [] | l :: ls => l ++ mjoin ((fun x => 10 :: x) <$> ls) end.

(** The outer [None]: an exception. *)
Definition salvaged (message f : frame) : option (option pystr) :=
  if negb (is_damaged message f) then Some None
  else
    body ← strip_json (first_truthy [jget "recovered_body" message; jget "recovered_text" f] (JStr []));
    code ← strip_json (first_truthy [jget "recovered_code" message; jget "code" f] (JStr []));
    let lines := [DAMAGED_NOTICE]
      ++ (match code with [] => [] | _ => [CODE_LABEL ++ code] end)
      ++ (match body with [] => [] | _ => [body] end)
      ++ (match body, code with [], [] => [UNREADABLE] | _, _ => [] end) in
    Some (Some (join_lines lines)).

Definition notification_body (message f : frame) : option json :=
  s ← salvaged message f;
  let fields := [jget "body" message; jget "body" f] in
  Some (first_truthy (match s with Some t => JStr t :: fields | None => fields end) (JStr [])).

Definition suppressed (message f : frame) : option bool :=
  s ← salvaged message f;
  Some (match s with Some _ => false | None => truthy (jget "is_binary" message) || truthy (jget "binary" f) end).

(** ** Rules *)

Record rule := mkRule {
  r_id : Z; r_sim : option Z; r_channel : Z; r_match : pystr; r_pattern : pystr; r_template : pystr;
  r_priority : Z; r_enabled : bool }.

Record channel := mkChannel { c_id : Z; c_name : pystr; c_enabled : bool; c_title : json }.

Fixpoint contains (sub s : pystr) : bool :=
  starts_with sub s || match s with [] => false | _ :: s => contains sub s end.

(** ORDER BY priority DESC, id *)
Definition rule_le (a b : rule) : Prop := r_priority b < r_priority a \/ (r_priority a = r_priority b /\ r_id a <= r_id b).
#[export] Instance rule_le_dec a b : Decision (rule_le a b).
Proof. unfold rule_le. apply _. Defined.

Definition find_channel (id : Z) (cs : list channel) : option channel :=
  List.find (fun c => c_enabled c && (c_id c =? id)) cs.

Definition every_enabled_channel (cs : list channel) : list (Z * option Z) :=
  (fun c => (c_id c, None)) <$> filter (fun c => c_enabled c = true) cs.

Section Matching.
Context (lower : pystr -> pystr) (search : pystr -> pystr -> option bool).

(** [None] where the code raises: [lower] or [search] of a body that is not
    text. *)
Definition rule_matches (r : rule) (sim_id : option Z) (body : json) : option bool :=
  if bool_decide (is_Some (r_sim r)) && negb (bool_decide (r_sim r = sim_id)) then Some false
  else if bool_decide (r_match r = str "all") then Some true
  else if bool_decide (r_pattern r = []) then Some false
  else if bool_decide (r_match r = str "keyword") then
    (fun b => contains (lower (r_pattern r)) (lower b)) <$> as_str body
  else if bool_decide (r_match r = str "regex") then
    (fun b => default false (search (r_pattern r) b)) <$> as_str body
  else Some false.

(** [chosen], by channel id, in the order the entries are made. *)
Fixpoint match_loop (cs : list channel) (sim_id : option Z) (body : json) (chosen : list (Z * (rule * channel)))
    (rs : list rule) : option (list (Z * (rule * channel))) :=
  match rs with
  | [] => Some chosen
  | r :: rs =>
      match find_channel (r_channel r) cs, dict_get (r_channel r) chosen with
      | None, _ | _, Some _ => match_loop cs sim_id body chosen rs
      | Some c, None =>
          m ← rule_matches r sim_id body;
          match_loop cs sim_id body (if m : bool then dict_set (r_channel r) (r, c) chosen else chosen) rs
      end
  end.

Definition match_rules (rules : list rule) (cs : list channel) (sim_id : option Z) (body : json) :
    option (list (rule * channel)) :=
  dict_values <$> match_loop cs sim_id body [] (merge_sort rule_le (filter (fun r => r_enabled r = true) rules)).

(** [_message_targets], from the message's row, [None] when it is gone. *)
Definition row_id (v : json) : option Z := as_int v.

Definition message_targets (message : option frame) (f : frame) (rules : list rule) (cs : list channel) :
    option (list (Z * option Z)) :=
  match message with
  | None => Some []
  | Some m =>
      drop_ ← suppressed m f;
      if drop_ : bool then Some []
      else
        body ← notification_body m f;
        targets ← match_rules rules cs (row_id (jget "sim_id" m)) body;
        Some (map (fun t : rule * channel => (c_id t.2, Some (r_id t.1))) targets)
  end.

(** *** Matching *)

(** On an ordered list the first match is the least one. *)
Lemma find_least {A} (R : A -> A -> Prop) (p : A -> bool) (l : list A) x :
  StronglySorted R l -> (forall a, R a a) -> (forall a b, a ∈ l -> b ∈ l -> R a b -> R b a -> a = b) ->
  List.find p l = Some x <-> x ∈ l /\ p x = true /\ forall y, y ∈ l -> p y = true -> R x y.
Proof.
  intros Hs Hr Ha. induction Hs as [|a l Hs IH Hal]; cbn [List.find].
  { split; [done|by intros (?%not_elem_of_nil & _)]. }
  rewrite (List.Forall_forall (R a) l) in Hal. destruct (p a) eqn:Ep.
  - split.
    + intros [= <-]. split_and!; [left|done|]. intros y [->|Hy]%elem_of_cons _; [apply Hr|]. by apply Hal, list_elem_of_In.
    + intros (Hx & Hp & Hm). f_equal. apply Ha; [left|done| |].
      * apply elem_of_cons in Hx as [->|Hx]; [apply Hr|]. by apply Hal, list_elem_of_In.
      * apply Hm; [left|done].
  - rewrite IH by (intros; apply Ha; [by right|by right|done|done]). split.
    + intros (Hx & Hp & Hm). split_and!; [by right|done|]. intros y [->|Hy]%elem_of_cons Hy'; [congruence|by apply Hm].
    + intros (Hx & Hp & Hm). apply elem_of_cons in Hx as [->|Hx]; [congruence|]. split_and!; [done..|].
      intros y Hy. apply Hm. by right.
Qed.

Definition fires (sim_id : option Z) (b : pystr) (r : rule) : bool := default false (rule_matches r sim_id (JStr b)).

Lemma rule_matches_text sim_id b r : rule_matches r sim_id (JStr b) = Some (fires sim_id b r).
Proof. unfold fires, rule_matches. by repeat case_match. Qed.

Lemma match_loop_spec cs sim_id b rs : forall chosen, dict_wf chosen ->
  exists out, match_loop cs sim_id (JStr b) chosen rs = Some out /\ dict_wf out /\
  forall k, dict_get k out =
    match dict_get k chosen with
    | Some x => Some x
    | None => c ← find_channel k cs; r ← List.find (fun r => (r_channel r =? k) && fires sim_id b r) rs; Some (r, c)
    end.
Proof.
  induction rs as [|r rs IH]; intros chosen Hw; cbn [match_loop List.find].
  { exists chosen. split_and!; [done..|]. intros k. destruct (dict_get k chosen); [done|]. by destruct (find_channel k cs). }
  rewrite rule_matches_text.
  destruct (find_channel (r_channel r) cs) as [c|] eqn:Ec; [destruct (dict_get (r_channel r) chosen) eqn:Ed|].
  - destruct (IH chosen Hw) as (out & -> & Hw' & Hg). exists out. split_and!; [done..|]. intros k. rewrite Hg.
    destruct (dict_get k chosen) eqn:Ek; [done|]. destruct (Z.eqb_spec (r_channel r) k); [congruence|done].
  - cbn [mbind option_bind]. set (ch := if fires sim_id b r then _ else _).
    assert (Hch : dict_wf ch) by (unfold ch; destruct (fires sim_id b r); [by apply dict_set_wf|done]).
    destruct (IH ch Hch) as (out & -> & Hw' & Hg). exists out. split_and!; [done..|]. intros k. rewrite Hg. unfold ch.
    destruct (fires sim_id b r) eqn:Ef.
    + destruct (Z.eqb_spec (r_channel r) k) as [<-|Hn].
      * by rewrite dict_get_set, Ed, Ec.
      * by rewrite dict_get_set_ne.
    + by rewrite andb_false_r.
  - destruct (IH chosen Hw) as (out & -> & Hw' & Hg). exists out. split_and!; [done..|]. intros k. rewrite Hg.
    destruct (dict_get k chosen) eqn:Ek; [done|]. destruct (Z.eqb_spec (r_channel r) k) as [<-|]; [by rewrite Ec|done].
Qed.

#[export] Instance rule_le_trans : Transitive rule_le.
Proof. intros a b c. unfold rule_le. lia. Qed.
#[export] Instance rule_le_total : Total rule_le.
Proof. intros a b. unfold rule_le. lia. Qed.

Lemma find_channel_spec k cs c : find_channel k cs = Some c -> c ∈ cs /\ c_enabled c = true /\ c_id c = k.
Proof. intros [H1 H2]%List.find_some. apply andb_prop in H2 as [H2 H3%Z.eqb_eq]. split_and!; [by apply list_elem_of_In|done..]. Qed.

Lemma dict_values_elem {V} (d : list (Z * V)) v : v ∈ dict_values d <-> exists k, (k, v) ∈ d.
Proof.
  unfold dict_values. rewrite list_elem_of_fmap. split.
  - intros ([k v'] & -> & H). by exists k.
  - intros [k H]. by exists (k, v).
Qed.

(** The preferred rule of a channel, among the enabled ones in order. *)
Lemma preferred_spec rules sim_id b k r : NoDup (r_id <$> rules) ->
  List.find (fun r => (r_channel r =? k) && fires sim_id b r)
    (merge_sort rule_le (filter (fun r => r_enabled r = true) rules)) = Some r <->
  r ∈ rules /\ r_enabled r = true /\ r_channel r = k /\ fires sim_id b r = true /\
  forall r', r' ∈ rules -> r_enabled r' = true -> r_channel r' = k -> fires sim_id b r' = true -> rule_le r r'.
Proof.
  intros Hn. set (l := merge_sort _ _).
  assert (Hl : forall x, x ∈ l <-> x ∈ rules /\ r_enabled x = true).
  { intros x. unfold l. rewrite merge_sort_Permutation, list_elem_of_filter. tauto. }
  rewrite (find_least rule_le).
  - rewrite Hl. setoid_rewrite Hl. setoid_rewrite andb_true_iff. setoid_rewrite Z.eqb_eq. naive_solver.
  - apply StronglySorted_merge_sort; apply _.
  - intros x. unfold rule_le. lia.
  - intros x y [Hx _]%Hl [Hy _]%Hl H1 H2. apply (NoDup_fmap_eq r_id rules); [done..|]. unfold rule_le in *. lia.
Qed.

(** A text matches exactly one rule per channel that wants it.
    Whatever the rules are (a keyword left empty, a regular expression that
    does not compile, an unknown mode), matching returns; no channel is named
    twice; and a pair is returned exactly when the channel is enabled and the
    rule is the most preferred (highest priority, then oldest) of the enabled
    rules of that channel that match. *)
Theorem match_rules_spec (rules : list rule) (cs : list channel) (sim_id : option Z) (b : pystr) :
  NoDup (r_id <$> rules) ->
  exists l, match_rules rules cs sim_id (JStr b) = Some l
  /\ NoDup ((fun t => c_id t.2) <$> l)
  /\ forall r c, (r, c) ∈ l <->
       find_channel (r_channel r) cs = Some c /\ r ∈ rules /\ r_enabled r = true
       /\ rule_matches r sim_id (JStr b) = Some true
       /\ forall r', r' ∈ rules -> r_enabled r' = true -> r_channel r' = r_channel r ->
            rule_matches r' sim_id (JStr b) = Some true -> rule_le r r'.
Proof.
  intros Hn. unfold match_rules. set (rs := merge_sort _ _).
  destruct (match_loop_spec cs sim_id b rs [] (NoDup_nil_2)) as (out & -> & Hw & Hg).
  exists (dict_values out). split; [done|].
  assert (Hin : forall k r c, (k, (r, c)) ∈ out <-> find_channel k cs = Some c /\
            List.find (fun r => (r_channel r =? k) && fires sim_id b r) rs = Some r).
  { intros k r c. transitivity (dict_get k out = Some (r, c)); [split; [by apply dict_get_in|by apply dict_get_Some_in]|].
    rewrite Hg. cbn [dict_get]. destruct (find_channel k cs) as [c'|]; [|naive_solver].
    destruct (List.find _ rs) as [r'|]; cbn [mbind option_bind]; naive_solver. }
  split.
  - replace ((fun t : rule * channel => c_id t.2) <$> dict_values out) with (dict_keys out); [exact Hw|].
    unfold dict_keys, dict_values. rewrite <- list_fmap_compose. apply list_fmap_ext. intros i [k [r c]] Hi.
    apply list_elem_of_lookup_2 in Hi. apply Hin in Hi as [Hc _]. apply find_channel_spec in Hc as (_ & _ & <-). done.
  - intros r c. rewrite dict_values_elem. setoid_rewrite Hin. unfold rs. setoid_rewrite (preferred_spec rules sim_id b _ r Hn).
    setoid_rewrite rule_matches_text. split.
    + intros (k & Hc & Hr & He & <- & Hf & Hm). split_and!; [done..|by rewrite Hf|]. intros r' H1 H2 H3 [= H4]. by apply Hm.
    + intros (Hc & Hr & He & [= Hf] & Hm). exists (r_channel r). split_and!; [done..|]. intros r' H1 H2 H3 H4. apply Hm; [done..|by rewrite H4].
Qed.

(** Whatever the body is, no channel is chosen twice. *)
Lemma match_loop_channels cs sim_id body rs : forall chosen out,
  match_loop cs sim_id body chosen rs = Some out ->
  dict_wf chosen -> Forall (fun x : Z * (rule * channel) => c_id x.2.2 = x.1) chosen ->
  dict_wf out /\ Forall (fun x : Z * (rule * channel) => c_id x.2.2 = x.1) out.
Proof.
  induction rs as [|r rs IH]; intros chosen out H Hw Hc; cbn [match_loop] in H; [by injection H as <-|].
  destruct (find_channel (r_channel r) cs) as [c|] eqn:Ec; [destruct (dict_get (r_channel r) chosen) eqn:Ed|]; [by eapply IH| |by eapply IH].
  destruct (rule_matches r sim_id body) as [[]|]; [|by eapply IH|done].
  eapply IH; [exact H|by apply dict_set_wf|]. rewrite dict_set_new by done. apply Forall_app. split; [done|].
  apply Forall_singleton. apply find_channel_spec in Ec as (_ & _ & E). exact E.
Qed.

Lemma message_targets_channels message f rules cs ts :
  message_targets message f rules cs = Some ts -> NoDup ts.*1.
Proof.
  unfold message_targets. destruct message as [m|]; [|intros [= <-]; constructor].
  destruct (suppressed m f) as [[]|]; cbn [mbind option_bind]; [intros [= <-]; constructor| |done].
  destruct (notification_body m f) as [body|]; cbn [mbind option_bind]; [|done]. unfold match_rules.
  destruct (match_loop _ _ _ _ _) as [out|] eqn:E; [|done]. cbn. intros [= <-].
  destruct (match_loop_channels _ _ _ _ _ _ E (NoDup_nil_2)) as [Hw Hc]; [constructor|].
  unfold dict_values. rewrite map_map, <- !list_fmap_compose. erewrite list_fmap_ext; [exact Hw|].
  intros k [k' [r c]] Hk. cbn. rewrite List.Forall_forall in Hc. apply list_elem_of_lookup_2 in Hk.
  exact (Hc _ (proj1 (list_elem_of_In _ _) Hk)).
Qed.

(** *** Damaged messages *)

Definition text_or_falsy (v : json) : Prop := truthy v = false \/ is_Some (as_str v).

Lemma strip_json_text a b : text_or_falsy a -> text_or_falsy b -> is_Some (strip_json (first_truthy [a; b] (JStr []))).
Proof.
  unfold first_truthy, strip_json. cbn. intros Ha Hb. destruct (truthy a) eqn:Ea; [|destruct (truthy b) eqn:Eb]; cbn.
  - destruct Ha as [?|[s ->]]; [congruence|by eexists].
  - destruct Hb as [?|[s ->]]; [congruence|by eexists].
  - by eexists.
Qed.

Definition salvage_fields_ok (m f : frame) : Prop :=
  text_or_falsy (jget "recovered_body" m) /\ text_or_falsy (jget "recovered_text" f)
  /\ text_or_falsy (jget "recovered_code" m) /\ text_or_falsy (jget "code" f).

Lemma salvaged_notice m f : is_damaged m f = true -> salvage_fields_ok m f ->
  exists t, salvaged m f = Some (Some (DAMAGED_NOTICE ++ t)).
Proof.
  intros Hd (H1 & H2 & H3 & H4). unfold salvaged. rewrite Hd. cbn [negb].
  destruct (strip_json_text _ _ H1 H2) as [body ->], (strip_json_text _ _ H3 H4) as [code ->].
  cbn [mbind option_bind]. eexists. reflexivity.
Qed.

Lemma find_exists {A} (p : A -> bool) l x : x ∈ l -> p x = true -> is_Some (List.find p l).
Proof.
  intros Hx Hp. destruct (List.find p l) eqn:E; [by eexists|]. exfalso.
  apply (List.find_none p l) with (x := x) in E; [congruence|by apply list_elem_of_In].
Qed.

(** A message the modem damaged is never suppressed (it is marked
    binary too) and never presented as whole: the text that is matched and
    rendered begins with the notice, and every enabled channel with an enabled
    catch-all rule is owed a push, whatever else the row and the frame hold. *)
Theorem damaged_message_pushed (m f : frame) (rules : list rule) (cs : list channel) :
  is_damaged m f = true -> salvage_fields_ok m f ->
  suppressed m f = Some false
  /\ (exists t, notification_body m f = Some (JStr (DAMAGED_NOTICE ++ t)))
  /\ exists targets, message_targets (Some m) f rules cs = Some targets
  /\ forall r c, r ∈ rules -> r_enabled r = true -> r_sim r = None -> r_match r = str "all" ->
       find_channel (r_channel r) cs = Some c -> c_id c ∈ targets.*1.
Proof.
  intros Hd Hf. destruct (salvaged_notice m f Hd Hf) as [t Et].
  assert (Hs : suppressed m f = Some false) by (unfold suppressed; by rewrite Et).
  assert (Hb : notification_body m f = Some (JStr (DAMAGED_NOTICE ++ t))) by (unfold notification_body; by rewrite Et).
  split; [done|]. split; [by exists t|]. unfold message_targets. rewrite Hs. cbn [mbind option_bind]. rewrite Hb.
  cbn [mbind option_bind]. unfold match_rules. set (rs := merge_sort _ _). set (sim := row_id _).
  destruct (match_loop_spec cs sim (DAMAGED_NOTICE ++ t) rs [] (NoDup_nil_2)) as (out & -> & Hw & Hg).
  eexists. split; [reflexivity|]. intros r c Hr He Hsim Hm Hc.
  assert (Hr' : r ∈ rs) by (unfold rs; rewrite merge_sort_Permutation; by apply list_elem_of_filter).
  assert (Hfire : (r_channel r =? r_channel r) && fires sim (DAMAGED_NOTICE ++ t) r = true).
  { rewrite Z.eqb_refl. unfold fires, rule_matches. rewrite Hsim, Hm. reflexivity. }
  destruct (find_exists (fun x => (r_channel x =? r_channel r) && fires sim (DAMAGED_NOTICE ++ t) x) rs r Hr' Hfire) as [r0 E0].
  specialize (Hg (r_channel r)). rewrite Hc, E0 in Hg. cbn in Hg. apply dict_get_Some_in in Hg.
  apply list_elem_of_fmap. exists (c_id c, Some (r_id r0)). split; [done|]. apply list_elem_of_fmap.
  exists (r0, c). split; [done|]. apply dict_values_elem. by exists (r_channel r).
Qed.
End Matching.

Section Payloads.
Context (is_word : Z -> bool) (repr : json -> pystr) (local : json -> pystr).

(** ** Payloads *)

Record Payload := mkPayload { p_text : pystr; p_title : pystr; p_context : context }.

(** [iccid[-4:]] of a value that is text. *)
Definition last4 (s : pystr) : pystr := drop (length s - 4) s.
Definition ELLIPSIS : Z := 0x2026.

Definition card_name (message : frame) (iccid device : json) : option json :=
  tail ← (if truthy iccid then (fun s => JStr (ELLIPSIS :: last4 s)) <$> as_str iccid else Some (JStr []));
  Some (first_truthy [jget "sim_label" message; jget "phone_number" message; jget "device_label" message; tail] device).

(** [or utcnow ()] takes the clock's text. *)
Definition context_for (message f : frame) (now : pystr) : option context :=
  let iccid := first_truthy [jget "sim_iccid" message; jget "iccid" f] (JStr []) in
  let device := first_truthy [jget "device" message; jget "device" f] (JStr []) in
  body ← notification_body message f;
  card ← card_name message iccid device;
  Some [(str "sender", first_truthy [jget "peer" message; jget "peer" f] (JStr []));
        (str "message", body);
        (str "timestamp", JStr (local (first_truthy [jget "ts" message; jget "ts" f] (JStr now))));
        (str "card", card);
        (str "device", device);
        (str "iccid", iccid)].

(** The rule's template, or the default; the title is the channel's setting. *)
Definition render_payload (c : channel) (ctx : context) (r : option rule) : option Payload :=
  title ← as_str (first_truthy [c_title c] (JStr DEFAULT_TITLE));
  let template := match r with Some r => r_template r | None => [] end in
  Some (mkPayload (render is_word repr (match template with [] => DEFAULT_TEMPLATE | _ => template end) ctx) (render is_word repr title ctx) ctx).

(** [_payload_for]: the outer [None] is an exception, the inner one a source
    record that is gone.  [message] and [r] are the rows looked up. *)
Definition payload_for (kind title body : pystr) (f : frame) (message : option frame) (r : option rule) (c : channel)
    (now : pystr) : option (option Payload) :=
  if bool_decide (kind = str "message") then
    match message with
    | None => Some None
    | Some m => ctx ← context_for m f now; p ← render_payload c ctx r; Some (Some p)
    end
  else
    match body with
    | [] => Some None
    | _ =>
        Some (Some (mkPayload body (match title with [] => str "air780e-hub" | _ => title end)
                      [(str "sender", JStr []); (str "card", JStr []); (str "device", JStr []); (str "iccid", JStr []);
                       (str "message", JStr body); (str "timestamp", JStr (local (JStr now)))]))
    end.

End Payloads.

(** ** Witnesses *)

Definition ascii_word (c : Z) : bool :=
  ((48 <=? c) && (c <=? 57)) || ((65 <=? c) && (c <=? 90)) || (c =? 95) || ((97 <=? c) && (c <=? 122)).
Definition ascii_lower (s : pystr) : pystr := (fun c => if (65 <=? c) && (c <=? 90) then c + 32 else c) <$> s.
(** Literal patterns only; a parenthesis alone does not compile. *)
Definition literal_search (p s : pystr) : option bool := if bool_decide (p = str "(") then None else Some (contains p s).
Definition sample_repr (v : json) : pystr := str "?".

Definition sample_context : context :=
  [(str "sender", JStr (str "10086")); (str "message", JStr (str "{card} 1}")); (str "card", JNull)].

Lemma render_spec_witness :
  render ascii_word sample_repr (str "to {sender}: {message}{card}{x}") sample_context
  = str "to 10086: {card} 1}{card}{x}"
  /\ render ascii_word sample_repr
       (mjoin (part_text <$> [Lit (str "to "); Ref (str "sender"); Lit (str ": "); Ref (str "message"); Ref (str "card")])) sample_context
     = str "to 10086: {card} 1}{card}".
Proof.
  split; [vm_compute; reflexivity|]. rewrite (render_spec ascii_word sample_repr); [vm_compute; reflexivity|done| |done].
  repeat constructor; try done; decide_closed.
Defined.

Definition sample_rules : list rule :=
  [mkRule 1 None 1 (str "all") [] [] 0 true; mkRule 2 None 1 (str "keyword") (str "CODE") [] 5 true;
   mkRule 3 None 2 (str "regex") (str "(") [] 9 true; mkRule 4 (Some 8) 2 (str "all") [] [] 0 true].
Definition sample_channels : list channel := [mkChannel 1 (str "bark") true JNull; mkChannel 2 (str "mail") true JNull].

Lemma match_rules_spec_witness :
  match_rules ascii_lower literal_search sample_rules sample_channels (Some 7) (JStr (str "your code 1"))
    = Some [(mkRule 2 None 1 (str "keyword") (str "CODE") [] 5 true, mkChannel 1 (str "bark") true JNull)]
  /\ exists l, match_rules ascii_lower literal_search sample_rules sample_channels (Some 7) (JStr (str "your code 1")) = Some l
       /\ NoDup ((fun t => c_id t.2) <$> l).
Proof.
  split; [vm_compute; reflexivity|].
  destruct (match_rules_spec ascii_lower literal_search sample_rules sample_channels (Some 7) (str "your code 1")) as (l & E & Hn & _).
  - decide_closed.
  - by exists l.
Defined.

Definition sample_damaged : frame := [(str "truncated", JInt 1); (str "is_binary", JInt 1); (str "recovered_body", JStr (str "pwd 4711"))].

Lemma damaged_message_pushed_witness :
  suppressed sample_damaged [] = Some false
  /\ message_targets ascii_lower literal_search (Some sample_damaged) [] sample_rules sample_channels = Some [(1, Some 1)].
Proof.
  split; [|vm_compute; reflexivity].
  apply (damaged_message_pushed ascii_lower literal_search sample_damaged [] sample_rules sample_channels); [reflexivity|].
  repeat split; first [by left | right; by eexists].
Defined.
End Notify.
