(* ===== verification/Outbox.v ===== *)
(** * The notification queue (server/src/hub_server/db.py, notify.py)

    The [notify_outbox] and [notify_deliveries] tables with the queries that
    work on them, the expansion of intents into deliveries and the outcome of
    one attempt ([Notifier._expand_intents], [_attempt_claimed],
    [_finish_claimed]).  Rows are in id order; stored times are whole seconds;
    the clock of the process is in microseconds.  What the provider answers
    and the random part of a delay are arguments, and so are the targets of
    the intents that are not messages (those of a message are Notify.v's, the
    others Notifier.v's). *)

From S2P Require Import Prelude PyText PyDict Json Notify.

Module Outbox.

(** ** Rows *)

Inductive intent_status := IntentPending | Expanded | Skipped.
Inductive delivery_status := Pending | Ok_ | Failed | Expired.

#[export] Instance intent_status_eq_dec : EqDecision intent_status.
Proof. solve_decision. Defined.
#[export] Instance delivery_status_eq_dec : EqDecision delivery_status.
Proof. solve_decision. Defined.

Record intent := mkIntent {
  n_id : Z; n_kind : pystr; n_ref : option Z; n_event_key : option pystr; n_frame : frame;
  n_title : pystr; n_body : pystr; n_status : intent_status; n_created : Z }.

Record delivery := mkDelivery {
  d_id : Z; d_outbox : Z; d_channel : Z; d_rule : option Z; d_status : delivery_status; d_attempts : Z;
  d_next : Z; d_owner : option pystr; d_lease : option Z; d_error : option pystr; d_detail : pystr;
  d_expires : option Z }.

Record queue := mkQueue {
  outbox : list intent; outbox_seq : Z; deliveries : list delivery; deliveries_seq : Z }.

Definition empty_queue : queue := mkQueue [] 0 [] 0.

Definition set_outbox (is_ : list intent) (q : queue) : queue :=
  mkQueue is_ (outbox_seq q) (deliveries q) (deliveries_seq q).
Definition set_deliveries (ds : list delivery) (q : queue) : queue :=
  mkQueue (outbox q) (outbox_seq q) ds (deliveries_seq q).

(** ** Database operations *)

(** INSERT OR IGNORE under the unique index on event_key; a row that is ignored
    takes a number of the AUTOINCREMENT generator too. *)
Definition enqueue_notification (kind : pystr) (ref : option Z) (f : frame) (key : option pystr)
    (title body : pystr) (now : Z) (q : queue) : option Z * queue :=
  if bool_decide (is_Some key) && existsb (fun i => bool_decide (n_event_key i = key)) (outbox q)
  then (None, mkQueue (outbox q) (outbox_seq q + 1) (deliveries q) (deliveries_seq q))
  else
    let id := outbox_seq q + 1 in
    (Some id, mkQueue (outbox q ++ [mkIntent id kind ref key f title body IntentPending now]) id
                (deliveries q) (deliveries_seq q)).

Definition pending_intents (limit : nat) (q : queue) : list intent :=
  take limit (filter (fun i => n_status i = IntentPending) (outbox q)).

(** The unique index on (outbox_id, channel_id, IFNULL(rule_id, 0)). *)
Definition target (d : delivery) : Z * Z * Z := (d_outbox d, d_channel d, default 0 (d_rule d)).

Definition add_delivery (outbox_id channel : Z) (rule : option Z) (expires : option Z) (now : Z) (q : queue) :
    option Z * queue :=
  if existsb (fun d => bool_decide (target d = (outbox_id, channel, default 0 rule))) (deliveries q)
  then (None, mkQueue (outbox q) (outbox_seq q) (deliveries q) (deliveries_seq q + 1))
  else
    let id := deliveries_seq q + 1 in
    (Some id, mkQueue (outbox q) (outbox_seq q)
                (deliveries q ++ [mkDelivery id outbox_id channel rule Pending 0 now None None None [] expires]) id).

(** [title or None] under COALESCE: the empty text keeps the old one. *)
Definition coalesce (new old : pystr) : pystr := match new with [] => old | _ => new end.

Definition finished (id : Z) (st : intent_status) (title body : pystr) (i : intent) : intent :=
  if n_id i =? id
  then mkIntent (n_id i) (n_kind i) (n_ref i) (n_event_key i) (n_frame i)
         (coalesce title (n_title i)) (coalesce body (n_body i)) st (n_created i)
  else i.

Definition finish_intent (id : Z) (st : intent_status) (title body : pystr) (q : queue) : queue :=
  set_outbox (finished id st title body <$> outbox q) q.

Definition due (now : Z) (d : delivery) : bool :=
  bool_decide (d_status d = Pending) && (d_next d <=? now)
  && match d_lease d with Some l => l <=? now | None => true end.

Definition intent_of (d : delivery) (q : queue) : option intent :=
  List.find (fun i => n_id i =? d_outbox d) (outbox q).

(** ORDER BY next_attempt_at, id *)
Definition due_le (a b : delivery) : Prop := d_next a < d_next b \/ (d_next a = d_next b /\ d_id a <= d_id b).
#[export] Instance due_le_dec a b : Decision (due_le a b).
Proof. unfold due_le. apply _. Defined.

Definition with_lease (owner : option pystr) (lease : option Z) (d : delivery) : delivery :=
  mkDelivery (d_id d) (d_outbox d) (d_channel d) (d_rule d) (d_status d) (d_attempts d) (d_next d) owner lease
    (d_error d) (d_detail d) (d_expires d).

(** The rows a claim takes: due, with their intent (an inner join), the
    earliest first. *)
Definition claimable (now : Z) (q : queue) : list delivery :=
  merge_sort due_le (filter (fun d => due now d = true /\ is_Some (intent_of d q)) (deliveries q)).

Definition update_delivery (id : Z) (f : delivery -> delivery) (q : queue) : queue :=
  set_deliveries ((fun d => if d_id d =? id then f d else d) <$> deliveries q) q.

Definition claim_deliveries (owner : pystr) (lease_seconds : Z) (limit : nat) (now : Z) (q : queue) :
    list delivery * queue :=
  let rows := take limit (claimable now q) in
  let until := now + lease_seconds in
  (with_lease (Some owner) (Some until) <$> rows,
   foldl (fun q d => update_delivery (d_id d) (with_lease (Some owner) (Some until)) q) q rows).

Definition DETAIL_LIMIT : nat := 300.

Definition settle_delivery (id : Z) (st : delivery_status) (attempts : Z) (error : option pystr) (detail : pystr)
    (next : option Z) (now : Z) (q : queue) : queue :=
  update_delivery id (fun d =>
    mkDelivery (d_id d) (d_outbox d) (d_channel d) (d_rule d) st attempts (default now next) None None
      error (take DETAIL_LIMIT detail) (d_expires d)) q.

Definition gave_up (d : delivery) : bool :=
  bool_decide (d_status d = Failed) || bool_decide (d_status d = Expired).

Definition retry_delivery (id now : Z) (q : queue) : bool * queue :=
  (existsb (fun d => (d_id d =? id) && gave_up d) (deliveries q),
   update_delivery id (fun d =>
     if gave_up d
     then mkDelivery (d_id d) (d_outbox d) (d_channel d) (d_rule d) Pending (d_attempts d) now None None
            (d_error d) (d_detail d) (d_expires d)
     else d) q).

(** CASE WHEN lease_until > next_attempt_at THEN lease_until ELSE next_attempt_at *)
Definition due_at (d : delivery) : Z :=
  match d_lease d with Some l => if d_next d <? l then l else d_next d | None => d_next d end.

Definition min_list (l : list Z) : option Z :=
  match l with [] => None | x :: l => Some (foldl Z.min x l) end.

Definition next_delivery_due_at (q : queue) : option Z :=
  min_list (due_at <$> filter (fun d => d_status d = Pending) (deliveries q)).

Definition count_status (st : delivery_status) (q : queue) : Z :=
  Z.of_nat (length (filter (fun d => d_status d = st) (deliveries q))).

(** ** Expansion *)

Definition EXPAND_BATCH : nat := 50.
Definition CLAIM_BATCH : nat := 20.
Definition LEASE_SECONDS : Z := 120.

Definition expiry_seconds (kind : pystr) : Z :=
  if bool_decide (kind = str "message") then 6 * 3600
  else if bool_decide (kind = str "task_result") then 3600
  else if bool_decide (kind = str "call") then 1800
  else 3600.

(** The (channel, rule) pairs an intent owes, its title and body; [None] when
    looking them up raises. *)
Abbreviation targets_fun := (intent -> option (list (Z * option Z) * pystr * pystr)) (only parsing).

Definition add_targets (now : Z) (i : intent) (expires : option Z) (targets : list (Z * option Z)) (q : queue) : queue :=
  foldl (fun q t => (add_delivery (n_id i) t.1 t.2 expires now q).2) q targets.

Definition expand_one (targets_for : targets_fun) (now : Z) (i : intent) (q : queue) : queue :=
  match targets_for i with
  | None => finish_intent (n_id i) Skipped [] [] q
  | Some (targets, title, body) =>
      let q := add_targets now i (Some (n_created i + expiry_seconds (n_kind i))) targets q in
      finish_intent (n_id i) (match targets with [] => Skipped | _ => Expanded end) title body q
  end.

(** [_targets_for]: [message] looks the row up, [others] are the targets of the
    other kinds. *)
Definition targets_for (lower : pystr -> pystr) (search : pystr -> pystr -> option bool)
    (message : Z -> option frame) (rules : list Notify.rule) (cs : list Notify.channel) (others : targets_fun) : targets_fun :=
  fun i =>
    if bool_decide (n_kind i = str "message") then
      ts ← Notify.message_targets lower search (message (default 0 (n_ref i))) (n_frame i) rules cs;
      Some (ts, [], [])
    else others i.

Definition expand_intents (targets_for : targets_fun) (now : Z) (q : queue) : queue :=
  foldl (fun q i => expand_one targets_for now i q) q (pending_intents EXPAND_BATCH q).

(** ** One attempt *)

Inductive error_kind := ConfigError | NetworkError | HttpError | ProviderError.

#[export] Instance error_kind_eq_dec : EqDecision error_kind.
Proof. solve_decision. Defined.

(** [SendError]; [retry_after] in microseconds. *)
Record SendError := mkSendError {
  s_detail : pystr; s_kind : error_kind; s_status : option Z; s_retry_after : option Z }.

Definition error_code (e : SendError) : pystr :=
  if bool_decide (s_kind e = ConfigError) then str "channel_config"
  else if bool_decide (s_kind e = NetworkError) then str "network"
  else match s_status e with
       | Some n => str "http_" ++ decimal n
       | None => str "provider_rejected"
       end.

Definition transient (e : SendError) : bool :=
  if bool_decide (s_kind e = ConfigError) then false
  else match s_status e with
       | None => true
       | Some n => (n =? 408) || (n =? 429) || negb (n / 100 =? 4)
       end.

Definition SECOND : Z := 1000000.
Definition RETRY_AFTER_CAP_SECONDS : Z := 300.

(** [self.backoff[min(attempt, len(self.backoff) - 1)]], microseconds. *)
Definition backoff_delay (backoff : list Z) (attempt : nat) : Z :=
  nth (Nat.min attempt (length backoff - 1)) backoff 0.

(** [jitter] is [random.random()] in microseconds. *)
Definition retry_delay (backoff : list Z) (attempt : nat) (retry_after : option Z) (jitter : Z) : Z :=
  match retry_after with
  | Some s => Z.min s (RETRY_AFTER_CAP_SECONDS * SECOND) + SECOND + jitter
  | None =>
      let base := backoff_delay backoff attempt in
      if base =? 0 then 0 else base * (SECOND / 2 + jitter) / SECOND
  end.

(** [utcnow ()] and [_shift (utcnow ()) delay]. *)
Definition utcnow (clock : Z) : Z := clock / SECOND.
Definition shift (moment delay : Z) : Z := (moment * SECOND + delay) / SECOND.

Definition past (expires : option Z) (now : Z) : bool := match expires with Some e => e <=? now | None => false end.

(** A row of notify_logs and the incident it opens or resolves. *)
Record log_row := mkLog { l_message : option Z; l_channel : Z; l_rule : option Z; l_ok : bool; l_attempts : Z; l_detail : pystr }.

(** How the attempt goes: the channel was turned off, the source row is gone,
    or the provider was asked. *)
Inductive attempt_result := ChannelDisabled | SourceGone | Sent (detail : pystr) | Refused (e : SendError).

(** The channel was turned off; the source record is gone. *)
Definition CHANNEL_DISABLED_TEXT : pystr := [0x6E20; 0x9053; 0x5DF2; 0x505C; 0x7528].
Definition SOURCE_GONE_TEXT : pystr := [0x6765; 0x6E90; 0x8BB0; 0x5F55; 0x5DF2; 0x4E0D; 0x5B58; 0x5728].

Definition message_of (i : intent) : option Z :=
  if bool_decide (n_kind i = str "message")
  then match n_ref i with Some n => if n =? 0 then None else Some n | None => None end
  else None.

Definition finish_claimed (i : intent) (d : delivery) (st : delivery_status) (attempts : Z) (detail error : pystr)
    (now : Z) (q : queue) : list log_row * queue :=
  ([mkLog (message_of i) (d_channel d) (d_rule d) (bool_decide (st = Ok_)) attempts (Notify.scrub detail)],
   settle_delivery (d_id d) st attempts (Some error) detail None now q).

(** What an attempt does with its row, [d] as it was claimed: the status it is
    settled with, the attempts counted, and when the next one is. *)
Definition verdict (retries : Z) (backoff : list Z) (clock jitter : Z) (d : delivery) (r : attempt_result) :
    delivery_status * Z * option Z :=
  let n := d_attempts d + 1 in
  match r with
  | ChannelDisabled | SourceGone => (Failed, n - 1, None)
  | Sent _ => (Ok_, n, None)
  | Refused e =>
      let now := utcnow clock in
      let expired := past (d_expires d) now in
      if transient e && (n <? retries + 1) && negb expired
      then (Pending, n, Some (shift now (retry_delay backoff (Z.to_nat (n - 1)) (s_retry_after e) jitter)))
      else (if expired then Expired else Failed, n, None)
  end.

Definition attempt_claimed (retries : Z) (backoff : list Z) (clock jitter : Z) (i : intent) (d : delivery)
    (r : attempt_result) (q : queue) : list log_row * queue :=
  let '(st, n, next) := verdict retries backoff clock jitter d r in
  let now := utcnow clock in
  match r with
  | ChannelDisabled => ([], settle_delivery (d_id d) st n (Some (str "channel_disabled")) CHANNEL_DISABLED_TEXT next now q)
  | SourceGone => ([], settle_delivery (d_id d) st n (Some (str "source_gone")) SOURCE_GONE_TEXT next now q)
  | Sent detail => finish_claimed i d st n detail [] now q
  | Refused e =>
      match next with
      | Some _ => ([], settle_delivery (d_id d) st n (Some (error_code e)) (s_detail e) next now q)
      | None => finish_claimed i d st n (s_detail e) (if bool_decide (st = Expired) then str "expired" else error_code e) now q
      end
  end.

(** [POLL_SECONDS], and how long the worker sleeps without a kick. *)
Definition POLL_SECONDS : Z := 5 * SECOND.

Definition idle_time (clock : Z) (q : queue) : Z :=
  match next_delivery_due_at q with
  | None => POLL_SECONDS
  | Some t => Z.min POLL_SECONDS (Z.max 0 (t * SECOND - clock))
  end.

(** ** Histories *)

(** What happens to the queue: an event is queued, a pass expands intents or
    claims deliveries, a claimed copy [d] is attempted, an operator retries. *)
Inductive op :=
| OpEnqueue (kind : pystr) (ref : option Z) (f : frame) (key : option pystr) (title body : pystr)
| OpExpand (targets_for : targets_fun)
| OpClaim (owner : pystr) (limit : nat)
| OpAttempt (i : intent) (d : delivery) (jitter : Z) (r : attempt_result)
| OpRetry (id : Z).

Definition run_op (retries : Z) (backoff : list Z) (q : queue) (at_ : Z * op) : queue :=
  let '(clock, o) := at_ in
  let now := utcnow clock in
  match o with
  | OpEnqueue kind ref f key title body => (enqueue_notification kind ref f key title body now q).2
  | OpExpand targets_for => expand_intents targets_for now q
  | OpClaim owner limit => (claim_deliveries owner LEASE_SECONDS limit now q).2
  | OpAttempt i d jitter r => (attempt_claimed retries backoff clock jitter i d r q).2
  | OpRetry id => (retry_delivery id now q).2
  end.

Definition run_ops (retries : Z) (backoff : list Z) (q : queue) (ops : list (Z * op)) : queue :=
  foldl (run_op retries backoff) q ops.

(** ** Well-formed queues *)

(** The tables' keys: row ids, the unique indexes and the foreign key. *)
Record wf (q : queue) : Prop := {
  wf_ids : NoDup (d_id <$> deliveries q);
  wf_seq : Forall (fun d => d_id d <= deliveries_seq q) (deliveries q);
  wf_intent_seq : Forall (fun i => n_id i <= outbox_seq q) (outbox q);
  wf_targets : NoDup (target <$> deliveries q);
  wf_keys : NoDup (omap n_event_key (outbox q));
  wf_join : forall d, d ∈ deliveries q -> is_Some (intent_of d q) }.

Lemma empty_wf : wf empty_queue.
Proof. split; try (by constructor). intros d H. by apply not_elem_of_nil in H. Qed.

(** Changes of a delivery that keep its keys. *)
Definition same_keys (d d' : delivery) : Prop := d_id d' = d_id d /\ target d' = target d /\ d_outbox d' = d_outbox d.

Lemma update_wf id f q : (forall d, same_keys d (f d)) -> wf q -> wf (update_delivery id f q).
Proof.
  intros Hf [H1 H2 H3 H4 H5 H6].
  assert (Hk : forall d, same_keys d (if d_id d =? id then f d else d)) by (intros d; case_match; [apply Hf|done]).
  split; cbn [update_delivery set_deliveries deliveries deliveries_seq outbox outbox_seq]; try done.
  - rewrite <- list_fmap_compose. erewrite list_fmap_ext; [exact H1|]. intros i d _. apply Hk.
  - apply Forall_fmap. eapply Forall_impl; [exact H2|]. intros d Hd. cbn. by rewrite (proj1 (Hk d)).
  - rewrite <- list_fmap_compose. erewrite list_fmap_ext; [exact H4|]. intros i d _. apply Hk.
  - intros d (d0 & -> & Hd0)%list_elem_of_fmap. unfold intent_of. cbn [outbox].
    rewrite (proj2 (proj2 (Hk d0))). by apply H6.
Qed.

Lemma claim_wf owner l limit now q : wf q -> wf (claim_deliveries owner l limit now q).2.
Proof.
  unfold claim_deliveries. cbn [snd]. generalize (take limit (claimable now q)). intros rows. revert q.
  induction rows as [|d rows IH]; intros q Hw; [done|]. cbn [foldl]. apply IH. apply update_wf; [|done]. by intros.
Qed.

Lemma find_none_id (is_ : list intent) id : Forall (fun i => n_id i <= id) is_ ->
  List.find (fun i => n_id i =? id + 1) is_ = None.
Proof. induction 1 as [|i is_ Hi _ IH]; simpl; [done|]. destruct (Z.eqb_spec (n_id i) (id + 1)); [lia|done]. Qed.

Lemma find_app_some {A} (p : A -> bool) l l' : is_Some (List.find p l) -> is_Some (List.find p (l ++ l')).
Proof. induction l as [|x l IH]; simpl; [by intros [? ?]|]. destruct (p x); [by eexists|done]. Qed.

(** A number taken and not used. *)
Lemma gap_wf m n q : wf q -> outbox_seq q <= m -> deliveries_seq q <= n -> wf (mkQueue (outbox q) m (deliveries q) n).
Proof.
  intros [H1 H2 H3 H4 H5 H6] Hm Hn. split; cbn [deliveries deliveries_seq outbox outbox_seq]; try done.
  - eapply Forall_impl; [exact H2|]. intros d Hd. cbn in *. lia.
  - eapply Forall_impl; [exact H3|]. intros d Hd. cbn in *. lia.
Qed.

Lemma enqueue_wf kind ref f key title body now q : wf q -> wf (enqueue_notification kind ref f key title body now q).2.
Proof.
  intros Hw. unfold enqueue_notification. destruct (_ && _) eqn:E; [apply gap_wf; [done|lia..]|]. destruct Hw as [H1 H2 H3 H4 H5 H6].
  split; cbn [snd deliveries deliveries_seq outbox outbox_seq]; try done.
  - apply Forall_app. split; [eapply Forall_impl; [exact H3|]; simpl; intros; lia|apply Forall_singleton; simpl; lia].
  - rewrite omap_app. destruct key as [k|]; [|by rewrite app_nil_r]. cbn. apply NoDup_app. split_and!; [done| |apply NoDup_singleton].
    intros k' Hk ->%list_elem_of_singleton. rewrite bool_decide_eq_true_2 in E by by eexists. cbn [andb] in E.
    apply not_true_iff_false in E. apply E, existsb_exists. apply list_elem_of_omap in Hk as (i & Hi & Ei).
    exists i. split; [by apply list_elem_of_In|]. by apply bool_decide_eq_true.
  - intros d Hd. apply find_app_some. by apply H6.
Qed.

Lemma add_delivery_wf oid ch rule exp now q :
  wf q -> is_Some (List.find (fun i => n_id i =? oid) (outbox q)) -> wf (add_delivery oid ch rule exp now q).2.
Proof.
  intros Hw Ho. unfold add_delivery. destruct (existsb _ _) eqn:E; [apply gap_wf; [done|lia..]|]. destruct Hw as [H1 H2 H3 H4 H5 H6].
  split; cbn [snd deliveries deliveries_seq outbox outbox_seq]; try done.
  - rewrite fmap_app. apply NoDup_app. split_and!; [done| |apply NoDup_singleton].
    intros x (d & -> & Hd)%list_elem_of_fmap Hx. apply list_elem_of_singleton in Hx. rewrite Forall_forall in H2. specialize (H2 d Hd). simpl in Hx. lia.
  - apply Forall_app. split; [eapply Forall_impl; [exact H2|]; simpl; intros; lia|apply Forall_singleton; simpl; lia].
  - rewrite fmap_app. apply NoDup_app. split_and!; [done| |apply NoDup_singleton].
    intros x (d & -> & Hd)%list_elem_of_fmap Hx. apply list_elem_of_singleton in Hx.
    apply not_true_iff_false in E. apply E, existsb_exists. exists d. split; [by apply list_elem_of_In|].
    by apply bool_decide_eq_true.
  - intros d [Hd|Hd]%elem_of_app; [by apply H6|]. apply list_elem_of_singleton in Hd as ->. exact Ho.
Qed.

Lemma add_targets_wf now i exp ts : forall q,
  wf q -> is_Some (List.find (fun j => n_id j =? n_id i) (outbox q)) ->
  wf (add_targets now i exp ts q) /\ outbox (add_targets now i exp ts q) = outbox q.
Proof.
  induction ts as [|t ts IH]; intros q Hw Ho; [done|]. cbn [add_targets foldl].
  assert (Eo : outbox (add_delivery (n_id i) t.1 t.2 exp now q).2 = outbox q) by (unfold add_delivery; by case_match).
  destruct (IH (add_delivery (n_id i) t.1 t.2 exp now q).2) as [Hw' Eo'].
  - by apply add_delivery_wf.
  - by rewrite Eo.
  - split; [exact Hw'|]. unfold add_targets in Eo'. by rewrite Eo', Eo.
Qed.

Lemma finished_same id st title body i :
  n_id (finished id st title body i) = n_id i /\ n_event_key (finished id st title body i) = n_event_key i.
Proof. unfold finished. by case_match. Qed.

Lemma find_finished id st title body k is_ :
  is_Some (List.find (fun i => n_id i =? k) (finished id st title body <$> (is_ : list intent))) <->
  is_Some (List.find (fun i => n_id i =? k) is_).
Proof.
  induction is_ as [|i l IH]; [done|]. cbn [fmap list_fmap List.find].
  rewrite (proj1 (finished_same id st title body i)).
  destruct (n_id i =? k); [split; intros _; by eexists|exact IH].
Qed.

Lemma finished_keys id st title body is_ :
  omap n_event_key (finished id st title body <$> (is_ : list intent)) = omap n_event_key is_.
Proof.
  induction is_ as [|i l IH]; [done|]. cbn [fmap list_fmap]. cbn.
  rewrite (proj2 (finished_same id st title body i)). cbn in IH. by rewrite IH.
Qed.

Lemma finish_intent_wf id st title body q : wf q -> wf (finish_intent id st title body q).
Proof.
  intros [H1 H2 H3 H4 H5 H6]. unfold finish_intent.
  split; cbn [set_outbox deliveries deliveries_seq outbox outbox_seq]; try done.
  - apply Forall_fmap. eapply Forall_impl; [exact H3|]. intros i Hi. cbn.
    by rewrite (proj1 (finished_same id st title body i)).
  - by rewrite finished_keys.
  - intros d Hd. by apply find_finished, H6.
Qed.

Lemma find_id_in (is_ : list intent) i : i ∈ is_ -> is_Some (List.find (fun j => n_id j =? n_id i) is_).
Proof.
  induction is_ as [|j l IH]; [by intros ?%not_elem_of_nil|]. intros H. cbn [List.find].
  destruct (Z.eqb_spec (n_id j) (n_id i)); [by eexists|]. apply elem_of_cons in H as [->|H]; [done|by apply IH].
Qed.

Lemma find_id_some (is_ : list intent) k i : List.find (fun j => n_id j =? k) is_ = Some i -> n_id i = k.
Proof. intros H%List.find_some. lia. Qed.

Lemma expand_one_wf targets_for now i q :
  wf q -> is_Some (List.find (fun j => n_id j =? n_id i) (outbox q)) -> wf (expand_one targets_for now i q).
Proof.
  intros Hw Hi. unfold expand_one. destruct (targets_for i) as [[[ts title] body]|]; [|by apply finish_intent_wf].
  apply finish_intent_wf. by apply add_targets_wf.
Qed.

Lemma expand_one_finds targets_for now i q k :
  wf q -> is_Some (List.find (fun j => n_id j =? n_id i) (outbox q)) ->
  is_Some (List.find (fun j => n_id j =? k) (outbox q)) ->
  is_Some (List.find (fun j => n_id j =? k) (outbox (expand_one targets_for now i q))).
Proof.
  intros Hw Hi Hk. unfold expand_one. destruct (targets_for i) as [[[ts title] body]|]; apply find_finished; [|done].
  by rewrite (proj2 (add_targets_wf now i _ ts q Hw Hi)).
Qed.

Lemma expand_wf targets_for now q : wf q -> wf (expand_intents targets_for now q).
Proof.
  unfold expand_intents. intros Hw.
  assert (Hl : Forall (fun i => is_Some (List.find (fun j => n_id j =? n_id i) (outbox q)))
                 (pending_intents EXPAND_BATCH q)).
  { apply Forall_take. apply Forall_forall. intros i Hi. apply list_elem_of_filter in Hi as [_ Hi]. by apply find_id_in. }
  revert q Hw Hl. generalize (pending_intents EXPAND_BATCH). intros batch q Hw Hl. revert Hw Hl. generalize (batch q).
  clear batch. intros is_. revert q. induction is_ as [|i is_ IH]; intros q Hw Hl; [done|].
  cbn [foldl]. apply Forall_cons in Hl as [Hi Hl]. apply IH; [by apply expand_one_wf|].
  eapply Forall_impl; [exact Hl|]. intros j Hj. by apply expand_one_finds.
Qed.

Lemma settle_wf id st n error detail next now q : wf q -> wf (settle_delivery id st n error detail next now q).
Proof. apply update_wf. by intros. Qed.

Lemma attempt_settles retries backoff clock jitter i d r q : exists st n error detail next,
  (attempt_claimed retries backoff clock jitter i d r q).2
  = settle_delivery (d_id d) st n error detail next (utcnow clock) q.
Proof. unfold attempt_claimed. destruct (verdict _ _ _ _ _ _) as [[st n] next]. destruct r; try destruct next; cbn [finish_claimed snd]; by repeat eexists. Qed.

Lemma retry_wf id now q : wf q -> wf (retry_delivery id now q).2.
Proof. apply update_wf. intros d. by destruct (gave_up d). Qed.

Lemma run_op_wf retries backoff q at_ : wf q -> wf (run_op retries backoff q at_).
Proof.
  destruct at_ as [clock []]; cbn [run_op].
  - apply enqueue_wf.
  - apply expand_wf.
  - apply claim_wf.
  - intros Hw. destruct (attempt_settles retries backoff clock jitter i d r q) as (st & n & e & dt & nx & ->).
    by apply settle_wf.
  - apply retry_wf.
Qed.

Lemma run_ops_wf retries backoff ops : forall q, wf q -> wf (run_ops retries backoff q ops).
Proof. induction ops as [|o ops IH]; intros q Hw; [done|]. by apply IH, run_op_wf. Qed.

Lemma add_delivery_present oid ch rule exp now q :
  (oid, ch, default 0 rule) ∈ target <$> deliveries (add_delivery oid ch rule exp now q).2.
Proof.
  unfold add_delivery. destruct (existsb _ _) eqn:E; cbn [snd deliveries].
  - apply existsb_exists in E as (d & Hd%list_elem_of_In & Et). apply bool_decide_eq_true in Et. rewrite <- Et.
    by apply list_elem_of_fmap_2.
  - rewrite fmap_app. apply elem_of_app. right. by apply list_elem_of_singleton.
Qed.

Lemma add_delivery_keeps oid ch rule exp now q t :
  t ∈ target <$> deliveries q -> t ∈ target <$> deliveries (add_delivery oid ch rule exp now q).2.
Proof.
  intros H. unfold add_delivery. destruct (existsb _ _); [done|]. cbn [snd deliveries]. rewrite fmap_app. apply elem_of_app. by left.
Qed.

Lemma add_delivery_known oid ch rule exp now q :
  (oid, ch, default 0 rule) ∈ target <$> deliveries q ->
  (add_delivery oid ch rule exp now q).1 = None /\ deliveries (add_delivery oid ch rule exp now q).2 = deliveries q
  /\ outbox (add_delivery oid ch rule exp now q).2 = outbox q.
Proof.
  intros (d & Et & Hd)%list_elem_of_fmap. unfold add_delivery.
  assert (E : existsb (fun d => bool_decide (target d = (oid, ch, default 0 rule))) (deliveries q) = true); [|by rewrite E].
  apply existsb_exists. exists d. split; [by apply list_elem_of_In|]. by apply bool_decide_eq_true.
Qed.

Lemma add_targets_keeps now i exp ts : forall q t,
  t ∈ target <$> deliveries q -> t ∈ target <$> deliveries (add_targets now i exp ts q).
Proof. induction ts as [|x ts IH]; intros q t H; [done|]. cbn [add_targets foldl]. by apply IH, add_delivery_keeps. Qed.

Lemma add_targets_present now i exp ts : forall q,
  Forall (fun t => (n_id i, t.1, default 0 t.2) ∈ target <$> deliveries (add_targets now i exp ts q)) ts.
Proof.
  induction ts as [|x ts IH]; intros q; [constructor|]. cbn [add_targets foldl]. constructor; [|apply IH].
  apply (add_targets_keeps now i exp ts), add_delivery_present.
Qed.

Lemma add_targets_known now i exp ts : forall q,
  Forall (fun t => (n_id i, t.1, default 0 t.2) ∈ target <$> deliveries q) ts ->
  deliveries (add_targets now i exp ts q) = deliveries q /\ outbox (add_targets now i exp ts q) = outbox q.
Proof.
  induction ts as [|x ts IH]; intros q H; [done|]. apply Forall_cons in H as [Hx H]. cbn [add_targets foldl].
  destruct (add_delivery_known (n_id i) x.1 x.2 exp now q Hx) as (_ & Ed & Eo).
  destruct (IH (add_delivery (n_id i) x.1 x.2 exp now q).2) as [Ed' Eo']; [by rewrite Ed|].
  unfold add_targets in Ed', Eo'. by rewrite Ed', Eo', Ed, Eo.
Qed.

(** ** One push per channel *)

(** C16 (invariant): whatever the order in which events are queued, intents are
    expanded (to any targets), deliveries claimed, attempted and retried, no
    two deliveries ever have the same intent, channel and rule, no two intents
    the same event key, ids are never reused, and every delivery still joins
    its intent; and an expansion a crash repeats after its deliveries were
    written adds nothing. *)
Theorem one_push_per_target (retries : Z) (backoff : list Z) (ops : list (Z * op)) :
  let q := run_ops retries backoff empty_queue ops in
  NoDup (target <$> deliveries q) /\ NoDup (omap n_event_key (outbox q)) /\ NoDup (d_id <$> deliveries q)
  /\ (forall d, d ∈ deliveries q -> is_Some (intent_of d q))
  /\ (forall i exp exp' now now' ts,
         let q' := add_targets now i exp ts q in let q'' := add_targets now' i exp' ts q' in
         deliveries q'' = deliveries q' /\ outbox q'' = outbox q').
Proof.
  intros q. assert (Hw : wf q) by apply run_ops_wf, empty_wf. split_and!; try apply Hw.
  intros. apply add_targets_known, add_targets_present.
Qed.

(** What one intent owes once its targets are added to none. *)
Lemma add_targets_fresh now i exp ts : forall q,
  NoDup ((fun t => (t.1, default 0 t.2)) <$> (ts : list (Z * option Z))) ->
  Forall (fun t => (n_id i, t.1, default 0 t.2) ∉ target <$> deliveries q) ts ->
  exists ds, deliveries (add_targets now i exp ts q) = deliveries q ++ ds
  /\ (fun d => (d_outbox d, d_channel d, d_rule d, d_status d, d_attempts d, d_next d, d_expires d)) <$> ds
     = (fun t => (n_id i, t.1, t.2, Pending, 0, now, exp)) <$> ts.
Proof.
  induction ts as [|[ch rl] ts IH]; intros q Hn Hf.
  { exists []. by rewrite app_nil_r. }
  rewrite fmap_cons in Hn. apply NoDup_cons in Hn as [Hx Hn]. apply Forall_cons in Hf as [Hy Hf]. cbn [fst snd] in Hx, Hy.
  cbn [add_targets foldl fst snd]. set (q' := (add_delivery _ _ _ _ _ q).2).
  assert (E : exists d, deliveries q' = deliveries q ++ [d] /\
      (d_outbox d, d_channel d, d_rule d, d_status d, d_attempts d, d_next d, d_expires d) = (n_id i, ch, rl, Pending, 0, now, exp)).
  { unfold q', add_delivery. destruct (existsb _ _) eqn:Ee; [|by eexists]. exfalso. apply Hy.
    apply existsb_exists in Ee as (d & Hd%list_elem_of_In & Ed%bool_decide_eq_true). rewrite <- Ed. by apply list_elem_of_fmap_2. }
  destruct E as (d & Ed & Ek). destruct (IH q' Hn) as (ds & E1 & E2).
  - rewrite Ed, fmap_app. rewrite List.Forall_forall in Hf |- *. intros [ch' rl'] Ht [H|H]%elem_of_app; [by apply (Hf _ Ht)|].
    apply Hx. apply list_elem_of_singleton in H. injection Ek as Eo Ec Er _ _ _ _. unfold target in H. rewrite Eo, Ec, Er in H.
    injection H as <- H. apply list_elem_of_fmap. exists (ch', rl'). cbn. rewrite H. split; [done|by apply list_elem_of_In].
  - exists (d :: ds). unfold add_targets in E1. rewrite E1, Ed, <- app_assoc. split; [done|]. rewrite !fmap_cons, E2, Ek. done.
Qed.
Lemma NoDup_targets (ts : list (Z * option Z)) : NoDup ts.*1 -> NoDup ((fun t => (t.1, default 0 t.2)) <$> ts).
Proof. intros H. apply (NoDup_fmap_1 fst). by rewrite <- list_fmap_compose. Qed.

(** Expanding the intent of a message for the first time adds
    one delivery for each channel that wants the message (its most preferred
    rule) and no two for one channel: due at once, unattempted, worth sending
    for six hours after the message was queued; the intent is finished. *)
Theorem message_owed_once lower search message rules cs (others : targets_fun) (now : Z) (i : intent) (q : queue) ts :
  n_kind i = str "message" -> i ∈ outbox q -> (forall d, d ∈ deliveries q -> d_outbox d <> n_id i) ->
  Notify.message_targets lower search (message (default 0 (n_ref i))) (n_frame i) rules cs = Some ts ->
  let q' := expand_one (targets_for lower search message rules cs others) now i q in
  (exists ds, deliveries q' = deliveries q ++ ds /\ NoDup (d_channel <$> ds)
   /\ (fun d => (d_outbox d, d_channel d, d_rule d, d_status d, d_attempts d, d_next d, d_expires d)) <$> ds
      = (fun t => (n_id i, t.1, t.2, Pending, 0, now, Some (n_created i + 21600))) <$> ts)
  /\ i ∉ pending_intents (length (outbox q')) q'.
Proof.
  intros Hk Hi Hd Ht q'. assert (Hn := Notify.message_targets_channels _ _ _ _ _ _ _ Ht).
  destruct (add_targets_fresh now i (Some (n_created i + 21600)) ts q (NoDup_targets ts Hn)) as (ds & E1 & E2).
  { apply List.Forall_forall. intros [ch rl] _ (d & E & Hin)%list_elem_of_fmap. injection E as E _ _. by apply (Hd d Hin). }
  assert (Eq : q' = finish_intent (n_id i) (match ts with [] => Skipped | _ => Expanded end) [] []
                     (add_targets now i (Some (n_created i + 21600)) ts q)).
  { unfold q', expand_one, targets_for. rewrite Hk, Ht. reflexivity. }
  rewrite Eq. split.
  - exists ds. split_and!; [exact E1| |exact E2].
    assert (Ec : d_channel <$> ds = ts.*1); [|by rewrite Ec].
    apply (f_equal (fmap (fun x : Z * Z * option Z * delivery_status * Z * Z * option Z => x.1.1.1.1.1.2))) in E2.
    rewrite <- !list_fmap_compose in E2. exact E2.
  - intros H%elem_take. apply list_elem_of_filter in H as [Hp (j & E & _)%list_elem_of_fmap].
    assert (Ej : n_id j = n_id i) by (rewrite E; symmetry; apply finished_same).
    rewrite E in Hp. unfold finished in Hp. rewrite Ej, Z.eqb_refl in Hp. cbn in Hp. by destruct ts.
Qed.

(** ** Leases *)

Lemma fold_lease_elem o u rows : forall q d,
  d ∈ deliveries (foldl (fun q r => update_delivery (d_id r) (with_lease o u) q) q rows) ->
  (d ∈ deliveries q /\ d_id d ∉ d_id <$> rows)
  \/ (d_id d ∈ d_id <$> rows /\ d_lease d = u
      /\ exists d0, d0 ∈ deliveries q /\ d_id d0 = d_id d /\ d_status d0 = d_status d).
Proof.
  induction rows as [|r rows IH]; intros q d Hd.
  { left. split; [done|]. apply not_elem_of_nil. }
  cbn [foldl] in Hd. apply IH in Hd as [[Hd Hn]|(Hi & Hl & d1 & Hd & E1 & E2)];
    cbn [update_delivery set_deliveries deliveries] in Hd; apply list_elem_of_fmap in Hd as (d0 & -> & Hd0);
    destruct (Z.eqb_spec (d_id d0) (d_id r)) as [E|E].
  - right. split; [|split; [done|by exists d0]]. cbn. rewrite E. left.
  - left. split; [done|]. rewrite fmap_cons. apply not_elem_of_cons. done.
  - right. split; [by right|]. split; [done|]. by exists d0.
  - right. split; [by right|]. split; [done|]. by exists d0.
Qed.

Lemma due_pending now d : due now d = true -> d_status d = Pending.
Proof. unfold due. intros [[H%bool_decide_eq_true _]%andb_prop _]%andb_prop. exact H. Qed.

(** The row [id] exists, waits for its attempt and is leased until [until]. *)
Definition leased (id until : Z) (q : queue) : Prop :=
  id <= deliveries_seq q /\
  forall d, d ∈ deliveries q -> d_id d = id -> d_status d = Pending /\ exists l, d_lease d = Some l /\ until <= l.

Lemma claimable_elem now q d : d ∈ claimable now q <-> due now d = true /\ is_Some (intent_of d q) /\ d ∈ deliveries q.
Proof. unfold claimable. rewrite merge_sort_Permutation, list_elem_of_filter. tauto. Qed.

Lemma leased_not_due id until now q d :
  leased id until q -> now < until -> d ∈ claimable now q -> d_id d <> id.
Proof.
  intros [_ Hl] Hn (Hdue & _ & Hd)%claimable_elem E. destruct (Hl d Hd E) as (_ & l & El & Hle).
  unfold due in Hdue. rewrite El in Hdue. lia.
Qed.

Lemma leased_claimed id until owner l limit now q d' :
  leased id until q -> now < until -> d' ∈ (claim_deliveries owner l limit now q).1 -> d_id d' <> id.
Proof.
  intros Hl Hn (d & -> & Hd)%list_elem_of_fmap. cbn. eapply leased_not_due; [done..|].
  by eapply elem_take.
Qed.

Lemma fold_update_seq f rows : forall q,
  deliveries_seq (foldl (fun q r => update_delivery (d_id r) f q) q rows) = deliveries_seq q.
Proof. induction rows as [|r rows IH]; intros q; [done|]. cbn [foldl]. by rewrite IH. Qed.

(** The rows a claim took are leased. *)
Lemma claim_leases owner l limit now q d :
  wf q -> d ∈ (claim_deliveries owner l limit now q).1 ->
  leased (d_id d) (now + l) (claim_deliveries owner l limit now q).2.
Proof.
  intros Hw (d0 & -> & Hd)%list_elem_of_fmap. unfold claim_deliveries. cbn [snd].
  assert (Hc : d0 ∈ claimable now q).
  { by eapply elem_take. }
  apply claimable_elem in Hc as (Hdue & _ & Hin). split.
  - rewrite fold_update_seq. exact (proj1 (List.Forall_forall _ _) (wf_seq q Hw) d0 (proj1 (list_elem_of_In _ _) Hin)).
  - intros d Hd' Ed. cbn in Ed.
    apply fold_lease_elem in Hd' as [[_ Hn]|(_ & Hl & d1 & Hd1 & E1 & E2)].
    + exfalso. apply Hn. rewrite Ed. by apply list_elem_of_fmap_2.
    + rewrite Hl. split; [|by exists (now + l)]. rewrite <- E2.
      enough (d1 = d0) as ->; [by apply due_pending in Hdue|].
      eapply NoDup_fmap_eq; [apply wf_ids, Hw|done|done|congruence].
Qed.

(** Operations that may settle the row [id]. *)
Definition touches (id : Z) (o : op) : Prop := match o with OpAttempt _ d _ _ => d_id d = id | _ => False end.

Lemma update_leased id until id' f q :
  leased id until q ->
  (forall d, d ∈ deliveries q -> d_id d = id' ->
     d_id (f d) = d_id d /\ (d_id d = id -> d_status (f d) = d_status d /\ d_lease (f d) = d_lease d)) ->
  leased id until (update_delivery id' f q).
Proof.
  intros [Hs Hl] Hf. split; [done|]. intros d (d0 & -> & Hd0)%list_elem_of_fmap E.
  destruct (Z.eqb_spec (d_id d0) id') as [E'|]; [|by apply Hl].
  destruct (Hf d0 Hd0 E') as [Ei Hk]. rewrite Ei in E. destruct (Hk E) as [-> ->]. by apply Hl.
Qed.

Lemma outbox_leased id until q is_ : leased id until q -> leased id until (set_outbox is_ q).
Proof. done. Qed.

Lemma add_delivery_leased id until oid ch rule exp now q :
  leased id until q -> leased id until (add_delivery oid ch rule exp now q).2.
Proof.
  intros [Hs Hl]. unfold add_delivery. destruct (existsb _ _); [split; cbn [snd deliveries deliveries_seq]; [lia|done]|]. split; cbn [snd deliveries deliveries_seq]; [lia|].
  intros d [Hd|Hd]%elem_of_app; [by apply Hl|]. apply list_elem_of_singleton in Hd as ->. simpl. lia.
Qed.

Lemma add_targets_leased id until now i exp ts : forall q,
  leased id until q -> leased id until (add_targets now i exp ts q).
Proof. induction ts as [|t ts IH]; intros q Hl; [done|]. by apply IH, add_delivery_leased. Qed.

Lemma expand_leased id until targets_for now q : leased id until q -> leased id until (expand_intents targets_for now q).
Proof.
  unfold expand_intents. generalize (pending_intents EXPAND_BATCH q). intros is_. revert q.
  induction is_ as [|i is_ IH]; intros q Hl; [done|]. cbn [foldl]. apply IH. unfold expand_one.
  destruct (targets_for i) as [[[ts title] body]|]; apply outbox_leased; [|done]. by apply add_targets_leased.
Qed.

Lemma claim_leased id until owner l limit now q :
  leased id until q -> now < until -> leased id until (claim_deliveries owner l limit now q).2.
Proof.
  intros [Hs Hl] Hn. unfold claim_deliveries. cbn [snd]. split; [by rewrite fold_update_seq|].
  intros d [[Hd _]|(Hi & _)]%fold_lease_elem E; [by apply Hl|].
  exfalso. apply list_elem_of_fmap in Hi as (r & Er & Hr%elem_take). eapply leased_not_due; [done|exact Hn|exact Hr|congruence].
Qed.

Lemma run_op_leased retries backoff id until clock o q :
  leased id until q -> utcnow clock < until -> ~ touches id o -> leased id until (run_op retries backoff q (clock, o)).
Proof.
  intros Hl Hn Ht. destruct o; cbn [run_op].
  - unfold enqueue_notification. by destruct (_ && _).
  - by apply expand_leased.
  - by apply claim_leased.
  - destruct (attempt_settles retries backoff clock jitter i d r q) as (st & n & e & dt & nx & ->).
    apply update_leased; [done|]. intros d' _ E. split; [done|]. intros E'. cbn in Ht. congruence.
  - apply update_leased; [done|]. intros d Hd E. unfold gave_up.
    destruct (bool_decide (d_status d = Failed) || bool_decide (d_status d = Expired)) eqn:G; [|done]. split; [done|].
    intros E'. exfalso. destruct (proj2 Hl d Hd E') as [Ep _]. by rewrite Ep in G.
Qed.

Lemma run_ops_leased retries backoff id until ops : forall q,
  leased id until q -> Forall (fun o => utcnow o.1 < until /\ ~ touches id o.2) ops ->
  leased id until (run_ops retries backoff q ops).
Proof.
  induction ops as [|[clock o] ops IH]; intros q Hl Ho; [done|]. apply Forall_cons in Ho as [[Hn Ht] Ho].
  cbn [run_ops foldl]. apply IH; [|done]. by apply run_op_leased.
Qed.

(** A delivery one worker claimed is not handed to another before
    its lease ends, whatever else happens to the queue meanwhile (claims,
    expansions, new events, retries, attempts at other rows), unless it was
    settled. *)
Theorem lease_exclusive (retries : Z) (backoff : list Z) owner limit clock (q : queue) (d : delivery) ops owner' limit' clock' d' :
  wf q -> d ∈ (claim_deliveries owner LEASE_SECONDS limit (utcnow clock) q).1 ->
  Forall (fun o => utcnow o.1 < utcnow clock + LEASE_SECONDS /\ ~ touches (d_id d) o.2) ops ->
  utcnow clock' < utcnow clock + LEASE_SECONDS ->
  d' ∈ (claim_deliveries owner' LEASE_SECONDS limit' (utcnow clock')
          (run_ops retries backoff (claim_deliveries owner LEASE_SECONDS limit (utcnow clock) q).2 ops)).1 ->
  d_id d' <> d_id d.
Proof.
  intros Hw Hd Ho Hn Hd'. eapply leased_claimed; [|exact Hn|exact Hd'].
  apply run_ops_leased; [by apply claim_leases|done].
Qed.

(** ** Waking up *)

Lemma foldl_min x l : forall m, m = foldl Z.min x l -> (m = x \/ m ∈ l) /\ m <= x /\ Forall (Z.le m) l.
Proof.
  revert x. induction l as [|y l IH]; intros x m E; cbn in E.
  { subst. split_and!; [by left|lia|constructor]. }
  destruct (IH _ _ E) as (Hm & Hle & Hl). split_and!; [|lia|constructor; [lia|done]].
  destruct Hm as [->|Hm]; [|by right; right]. destruct (Z.min_spec x y) as [[_ ->]|[_ ->]]; [by left|right; left].
Qed.

Lemma min_list_le l t : (exists m, min_list l = Some m /\ m <= t) <-> Exists (fun x => x <= t) l.
Proof.
  destruct l as [|x l]; cbn.
  { split; [by intros (m & ? & _)|by intros ?%Exists_nil]. }
  destruct (foldl_min x l _ eq_refl) as (Hm & Hx & Hl). rewrite Exists_cons. split.
  - intros (m & [= <-] & Ht). destruct Hm as [E|Hm]; [left; lia|]. right. apply Exists_exists. eexists. by split.
  - intros H. eexists. split; [done|]. destruct H as [H|(y & Hy & Ht)%Exists_exists]; [lia|].
    enough (foldl Z.min x l <= y) by lia. exact (proj1 (List.Forall_forall _ _) Hl y (proj1 (list_elem_of_In _ _) Hy)).
Qed.

Lemma due_spec now d : due now d = true <-> d_status d = Pending /\ due_at d <= now.
Proof.
  unfold due, due_at. rewrite !andb_true_iff, bool_decide_eq_true.
  destruct (d_lease d) as [l|]; [destruct (Z.ltb_spec (d_next d) l)|]; split; intros; split_and!; try tauto; lia.
Qed.

Lemma next_due_spec now q : wf q ->
  (exists t, next_delivery_due_at q = Some t /\ t <= now) <-> claimable now q <> [].
Proof.
  intros Hw. unfold next_delivery_due_at. rewrite min_list_le, Exists_exists. split.
  - intros (t & (d & -> & (Hs & Hd)%list_elem_of_filter)%list_elem_of_fmap & Ht) E.
    apply (not_elem_of_nil d). rewrite <- E. apply claimable_elem. split_and!; [by apply due_spec| |done]. by apply Hw.
  - intros Hc. destruct (claimable now q) as [|d rows] eqn:E; [done|].
    assert (Hd : d ∈ claimable now q) by (rewrite E; left). apply claimable_elem in Hd as ((Hs & Ht)%due_spec & _ & Hd).
    exists (due_at d). split; [|done]. apply list_elem_of_fmap_2. by apply list_elem_of_filter.
Qed.

Lemma second_div t clock : t * SECOND <= clock <-> t <= clock / SECOND.
Proof. unfold SECOND. split; intros; dlia. Qed.

(** The earliest due time the queue reports is reached exactly
    when a claim would take a row; the worker does not sleep at all while a
    row is due, never longer than a poll, and no row becomes due before it
    wakes. *)
Theorem worker_sleeps_until_due (q : queue) (clock : Z) :
  wf q ->
  (forall now, (exists t, next_delivery_due_at q = Some t /\ t <= now) <-> claimable now q <> [])
  /\ (idle_time clock q = 0 <-> claimable (utcnow clock) q <> [])
  /\ 0 <= idle_time clock q <= POLL_SECONDS
  /\ (forall c, clock <= c < clock + idle_time clock q -> claimable (utcnow c) q = []).
Proof.
  intros Hw. pose proof (fun now => next_due_spec now q Hw) as Hn. split; [exact Hn|].
  unfold idle_time. split_and!.
  - rewrite <- Hn. unfold utcnow. destruct (next_delivery_due_at q) as [t|].
    + split; [intros; exists t; split; [done|]; apply second_div; unfold POLL_SECONDS, SECOND in *; lia|].
      intros (t' & [= <-] & Ht%second_div). unfold POLL_SECONDS, SECOND in *. lia.
    + split; [done|by intros (? & ? & _)].
  - destruct (next_delivery_due_at q); unfold POLL_SECONDS, SECOND; lia.
  - destruct (next_delivery_due_at q); unfold POLL_SECONDS, SECOND; lia.
  - intros c Hc. destruct (decide (claimable (utcnow c) q = [])) as [|E]; [done|exfalso].
    apply Hn in E as (t & E & Ht%second_div). rewrite E in Hc. unfold POLL_SECONDS, SECOND in *. lia.
Qed.

(** ** The attempts of one delivery *)

Definition asked (r : attempt_result) : bool := match r with Sent _ | Refused _ => true | _ => false end.

(** The rounds of one row, each from the row as the last one left it: how
    often the provider was asked, and the row at the end. *)
Fixpoint rounds (retries : Z) (backoff : list Z) (d : delivery) (l : list (Z * Z * attempt_result)) : Z * delivery :=
  match l with
  | [] => (0, d)
  | (clock, jitter, r) :: l =>
      if bool_decide (d_status d = Pending) then
        let '(st, n, next) := verdict retries backoff clock jitter d r in
        let d' := mkDelivery (d_id d) (d_outbox d) (d_channel d) (d_rule d) st n (default (utcnow clock) next)
                    None None (d_error d) (d_detail d) (d_expires d) in
        let '(k, d'') := rounds retries backoff d' l in
        ((if asked r then 1 else 0) + k, d'')
      else (0, d)
  end.

Lemma verdict_pending retries backoff clock jitter d r st n next :
  verdict retries backoff clock jitter d r = (st, n, next) -> st = Pending ->
  n = d_attempts d + 1 /\ n <= retries /\ asked r = true.
Proof.
  unfold verdict. destruct r; intros H ->; [done..|]. destruct (_ && _) eqn:E.
  - injection H as <- _. split_and!; [done| |done]. lia.
  - by destruct (past _ _).
Qed.

Lemma rounds_done retries backoff d l : d_status d <> Pending -> rounds retries backoff d l = (0, d).
Proof. intros H. destruct l as [|[[clock jitter] r] l]; [done|]. cbn [rounds]. by rewrite bool_decide_eq_false_2. Qed.

(** A delivery is over after at most as many rounds as it has
    attempts left (one at least), however the provider answers: it is no
    longer pending, and the provider was not asked more often than that. *)
Theorem attempts_bounded (retries : Z) (backoff : list Z) (l : list (Z * Z * attempt_result)) (d : delivery) :
  let left := Z.max 1 (retries + 1 - d_attempts d) in
  (rounds retries backoff d l).1 <= left
  /\ (left <= Z.of_nat (length l) -> d_status (rounds retries backoff d l).2 <> Pending).
Proof.
  revert d. induction l as [|[[clock jitter] r] l IH]; intros d left; [cbn; lia|]. cbn [rounds].
  destruct (decide (d_status d = Pending)) as [Hp|Hp]; [rewrite bool_decide_eq_true_2 by done|rewrite bool_decide_eq_false_2 by done; cbn; split; [lia|done]].
  destruct (verdict retries backoff clock jitter d r) as [[st n] next] eqn:E.
  set (d' := mkDelivery _ _ _ _ _ _ _ _ _ _ _ _). specialize (IH d').
  destruct (decide (st = Pending)) as [Es|Es].
  - destruct (verdict_pending _ _ _ _ _ _ _ _ _ E Es) as (-> & Hn & Ha). rewrite Ha. cbv zeta in IH.
    destruct (rounds retries backoff d' l) as [k d'']. cbn [fst snd length d' d_attempts] in *. split; [lia|]. intros. apply IH. lia.
  - rewrite (rounds_done retries backoff d' l) by exact Es. cbn [fst snd length]. split; [|done].
    destruct (asked r); lia.
Qed.

(** ** The provider's own window *)

(** When the provider names its window with [Retry-After], in whole
    seconds or as a date, and within the cap, the next attempt is not before
    the window's end; it is at most three seconds late. *)
Theorem retry_after_respected (backoff : list Z) (attempt : nat) (asked_at clock s jitter : Z) :
  asked_at <= clock -> 0 <= s <= RETRY_AFTER_CAP_SECONDS * SECOND -> 0 <= jitter < SECOND ->
  s mod SECOND = 0 \/ (asked_at + s) mod SECOND = 0 ->
  let next := shift (utcnow clock) (retry_delay backoff attempt (Some s) jitter) in
  asked_at + s <= next * SECOND <= clock + s + 3 * SECOND.
Proof.
  unfold shift, utcnow, retry_delay, RETRY_AFTER_CAP_SECONDS, SECOND. intros Ha Hs Hj Hm. rewrite Z.min_l by lia.
  destruct Hm; dlia.
Qed.

(** ** Witnesses *)

(** One message owed to two channels at second 1000, both claimed. *)
Definition sample_targets : targets_fun := fun _ => Some ([(1, Some 1); (2, None)], [], []).
Definition sample_clock : Z := 1000 * SECOND.
Definition sample_queue : queue :=
  run_ops 2 [SECOND; 3 * SECOND] empty_queue
    [(sample_clock, OpEnqueue (str "message") (Some 7) [] (Some (str "a:1")) [] []);
     (sample_clock, OpExpand sample_targets)].
Definition claimed_queue : queue := (claim_deliveries (str "w1") LEASE_SECONDS 1 (utcnow sample_clock) sample_queue).2.

Example sample_claim :
  (d_id <$> (claim_deliveries (str "w1") LEASE_SECONDS 1 (utcnow sample_clock) sample_queue).1) = [1]
  /\ (d_id <$> (claim_deliveries (str "w2") LEASE_SECONDS 5 1119 claimed_queue).1) = [2]
  /\ (d_id <$> (claim_deliveries (str "w2") LEASE_SECONDS 5 1120 claimed_queue).1) = [1; 2].
Proof. by vm_compute. Qed.

Lemma sample_queue_wf : wf sample_queue.
Proof. apply run_ops_wf, empty_wf. Qed.

Definition first_delivery (l : list delivery) : delivery := default (mkDelivery 0 0 0 None Pending 0 0 None None None [] None) (head l).
Definition taken_first : delivery :=
  first_delivery (claim_deliveries (str "w1") LEASE_SECONDS 1 (utcnow sample_clock) sample_queue).1.
Definition meanwhile : queue :=
  run_ops 2 [SECOND] claimed_queue [(sample_clock + SECOND, OpRetry 1); (sample_clock, OpEnqueue (str "message") (Some 8) [] (Some (str "a:2")) [] [])].
Definition taken_next : delivery :=
  first_delivery (claim_deliveries (str "w2") LEASE_SECONDS 5 (utcnow (sample_clock + 119 * SECOND)) meanwhile).1.

Lemma lease_exclusive_witness : d_id taken_next <> d_id taken_first.
Proof.
  apply (lease_exclusive 2 [SECOND] (str "w1") 1 sample_clock sample_queue taken_first
    [(sample_clock + SECOND, OpRetry 1); (sample_clock, OpEnqueue (str "message") (Some 8) [] (Some (str "a:2")) [] [])]
    (str "w2") 5 (sample_clock + 119 * SECOND) taken_next).
  - apply sample_queue_wf.
  - vm_compute. left.
  - repeat constructor; try (vm_compute; reflexivity); by intros [].
  - vm_compute. reflexivity.
  - vm_compute. left.
Defined.

Lemma worker_sleeps_until_due_witness :
  idle_time sample_clock sample_queue = 0 /\ claimable (utcnow sample_clock) sample_queue <> [].
Proof.
  destruct (worker_sleeps_until_due sample_queue sample_clock sample_queue_wf) as (_ & Hi & _).
  split; [vm_compute; reflexivity|]. apply Hi. vm_compute. reflexivity.
Defined.

Lemma retry_after_respected_witness :
  let next := shift (utcnow (1000 * SECOND + 900000)) (retry_delay [SECOND] 0 (Some (30 * SECOND)) 0) in
  next = 1031 /\ 1000 * SECOND + 900000 + 30 * SECOND <= next * SECOND.
Proof.
  split; [vm_compute; reflexivity|].
  apply (retry_after_respected [SECOND] 0 (1000 * SECOND + 900000) (1000 * SECOND + 900000) (30 * SECOND) 0);
    [done|unfold RETRY_AFTER_CAP_SECONDS, SECOND; lia|unfold SECOND; lia|by left].
Defined.

Definition sample_intent : intent :=
  mkIntent 1 (str "message") (Some 7) None [] [] [] IntentPending 1000.
Definition sample_message : Z -> option frame := fun n => if n =? 7 then Some [(str "body", JStr (str "code 1"))] else None.
Definition pending_queue : queue := mkQueue [sample_intent] 1 [] 0.

Lemma message_owed_once_witness :
  exists ds, deliveries (expand_one (targets_for Notify.ascii_lower Notify.literal_search sample_message
                           Notify.sample_rules Notify.sample_channels (fun _ => None)) 1001 sample_intent pending_queue) = ds
  /\ (d_channel <$> ds) = [1] /\ NoDup (d_channel <$> ds).
Proof.
  eexists. split; [reflexivity|]. split; [vm_compute; reflexivity|].
  destruct (message_owed_once Notify.ascii_lower Notify.literal_search sample_message Notify.sample_rules
              Notify.sample_channels (fun _ => None) 1001 sample_intent pending_queue [(1, Some 2)])
    as [(ds & E & Hn & _) _]; [reflexivity|left|by intros d Hd%not_elem_of_nil|vm_compute; reflexivity|].
  rewrite E. exact Hn.
Defined.

(** The unique index does not cover an expansion that is repeated after the
    rules were edited: the intent of the sample, expanded up to the crash by
    rule 2 and then, rule 2 turned off, by rule 1, owes channel 1 two pushes. *)
Example expansion_repeated_after_edit :
  let targets rules := default [] (Notify.message_targets Notify.ascii_lower Notify.literal_search
                                     (sample_message 7) [] rules Notify.sample_channels) in
  let before := add_targets 1001 sample_intent None (targets Notify.sample_rules) pending_queue in
  let after := add_targets 1002 sample_intent None (targets (take 1 Notify.sample_rules)) before in
  target <$> deliveries after = [(1, 1, 2); (1, 1, 1)].
Proof. vm_compute. reflexivity. Qed.
End Outbox.
