(* ===== verification/Alerts.v ===== *)
(** * Offline alerts (server/src/hub_server/alerts.py)

    The incident table of the database, and [OfflineAlerter] as a state machine:
    the event loop runs one coroutine at a time, so each step is what happens
    between two awaits -- the gateway's [note], a timer task reading the
    setting, its sleep ending, the database worker running [_record_offline]
    (also for a task cancelled meanwhile), the task going on with the answer.
    Texts of the pushes are left out; times are in microseconds. *)

From S2P Require Import Prelude PyText.

Module Incidents.

Inductive status := Active | Acknowledged | Resolved.
#[export] Instance status_eq_dec : EqDecision status.
Proof. solve_decision. Defined.

Record incident := mkIncident {
  i_id : Z; i_fingerprint : pystr; i_kind : pystr; i_severity : pystr; i_source : pystr; i_title : pystr;
  i_detail : pystr; i_status : status; i_occurrences : Z; i_first : Z; i_last : Z;
  i_acknowledged : option Z; i_resolved : option Z }.

Record table := mkTable { rows : list incident; next_id : Z }.

Definition reopened (kind severity source title detail : pystr) (now : Z) (i : incident) : incident :=
  let again := bool_decide (i_status i = Resolved) in
  mkIncident (i_id i) (i_fingerprint i) kind severity source title detail
    (if again then Active else i_status i) (i_occurrences i + 1) (if again then now else i_first i) now
    (if again then None else i_acknowledged i) None.

(** INSERT ... ON CONFLICT(fingerprint) DO UPDATE; a conflict takes a number of
    the AUTOINCREMENT generator too. *)
Definition open_incident (fingerprint kind severity source title detail : pystr) (now : Z) (t : table) : table :=
  let fp := take 256 fingerprint in
  let kind := take 64 kind in let severity := take 16 severity in let source := take 128 source in
  let title := take 256 title in let detail := take 1000 detail in
  if existsb (fun i => bool_decide (i_fingerprint i = fp)) (rows t)
  then mkTable ((fun i => if bool_decide (i_fingerprint i = fp) then reopened kind severity source title detail now i else i) <$> rows t)
         (next_id t + 1)
  else mkTable (rows t ++ [mkIncident (next_id t) fp kind severity source title detail Active 1 now now None None]) (next_id t + 1).

Definition resolves (fingerprint : pystr) (i : incident) : bool :=
  bool_decide (i_fingerprint i = take 256 fingerprint) && negb (bool_decide (i_status i = Resolved)).

Definition resolve_incident (fingerprint detail : pystr) (now : Z) (t : table) : bool * table :=
  (existsb (resolves fingerprint) (rows t),
   mkTable ((fun i => if resolves fingerprint i
      then mkIncident (i_id i) (i_fingerprint i) (i_kind i) (i_severity i) (i_source i) (i_title i)
             (match detail with [] => i_detail i | _ => take 1000 detail end) Resolved (i_occurrences i) (i_first i) now
             (i_acknowledged i) (Some now)
      else i) <$> rows t) (next_id t)).

Definition set_incident_status (id : Z) (st : status) (now : Z) (t : table) : table :=
  mkTable ((fun i => if i_id i =? id
      then mkIncident (i_id i) (i_fingerprint i) (i_kind i) (i_severity i) (i_source i) (i_title i) (i_detail i) st
             (i_occurrences i) (i_first i) (i_last i)
             (if bool_decide (st = Acknowledged) then Some now else None) (if bool_decide (st = Resolved) then Some now else None)
      else i) <$> rows t) (next_id t).

(** The unique index on the fingerprint. *)
Definition table_ok (t : table) : Prop := NoDup (i_fingerprint <$> rows t).

Lemma map_ok (f : incident -> incident) n t : (forall i, i_fingerprint (f i) = i_fingerprint i) -> table_ok t -> table_ok (mkTable (f <$> rows t) n).
Proof.
  intros Hf H. unfold table_ok. cbn [rows]. rewrite <- list_fmap_compose. erewrite list_fmap_ext; [exact H|]. intros k i _. apply Hf.
Qed.

Lemma open_ok fp kind severity source title detail now t : table_ok t -> table_ok (open_incident fp kind severity source title detail now t).
Proof.
  intros H. unfold open_incident. destruct (existsb _ _) eqn:E.
  - apply map_ok; [|done]. intros i. by case_bool_decide.
  - unfold table_ok. cbn [rows]. rewrite fmap_app. apply NoDup_app. split_and!; [done| |apply NoDup_singleton].
    intros x (i & -> & Hi)%list_elem_of_fmap Hx%list_elem_of_singleton. apply not_true_iff_false in E. apply E, existsb_exists.
    exists i. split; [by apply list_elem_of_In|]. by apply bool_decide_eq_true.
Qed.

Lemma resolve_ok fp detail now t : table_ok t -> table_ok (resolve_incident fp detail now t).2.
Proof. intros H. apply map_ok; [|done]. intros i. by destruct (resolves fp i). Qed.
End Incidents.

Module Alerts.
Import Incidents.

Abbreviation key := (list Z * list Z)%type (only parsing).

Inductive phase := Checking | Sleeping (until : Z) | Recording | Recorded (page : bool).
Record timer := mkTimer { tm_key : key; tm_phase : phase; tm_cancelled : bool }.

(** What the alerter reads and writes in the database. *)
Record tables := mkTables { enabled : bool; online : gmap key bool; incidents : table }.

(** History: what was noted, and what was decided to be sent. *)
Inductive entry := TOffline (k : key) (at_ : Z) | TOnline (k : key) (at_ : Z) | TPage (k : key) (at_ : Z) | TRecover (k : key) (at_ : Z).

Record alerter := mkAlerter {
  alerted : gset key; pending : gmap key Z; timers : gmap Z timer; next_task : Z;
  db : tables; clock : Z; trace : list entry }.

Definition set_timer (n : Z) (t : timer) (y : alerter) : alerter :=
  mkAlerter (alerted y) (pending y) (<[n := t]> (timers y)) (next_task y) (db y) (clock y) (trace y).

Definition fingerprint (k : key) : pystr := str "device-offline:" ++ k.1 ++ str ":" ++ k.2.

(** ** Notes *)

Definition note_offline (k : key) (y : alerter) : alerter :=
  let tr := trace y ++ [TOffline k (clock y)] in
  if bool_decide (is_Some (pending y !! k)) || bool_decide (k ∈ alerted y)
  then mkAlerter (alerted y) (pending y) (timers y) (next_task y) (db y) (clock y) tr
  else mkAlerter (alerted y) (<[k := next_task y]> (pending y)) (<[next_task y := mkTimer k Checking false]> (timers y))
         (next_task y + 1) (db y) (clock y) tr.

Definition cancel (n : Z) (ts : gmap Z timer) : gmap Z timer := alter (fun t => mkTimer (tm_key t) (tm_phase t) true) n ts.

(** The spawned [_recover] resolves the incident later ([run_recover]); whether
    it announces anything is decided here. *)
Definition note_online (k : key) (y : alerter) : alerter :=
  mkAlerter (alerted y ∖ {[ k ]}) (delete k (pending y))
    (match pending y !! k with Some n => cancel n (timers y) | None => timers y end)
    (next_task y) (db y) (clock y)
    (trace y ++ TOnline k (clock y) :: if bool_decide (k ∈ alerted y) then [TRecover k (clock y)] else []).

Definition note (k : key) (on : bool) : alerter -> alerter := if on then note_online k else note_offline k.

Definition run_recover (k : key) (detail : pystr) (y : alerter) : alerter :=
  mkAlerter (alerted y) (pending y) (timers y) (next_task y)
    (mkTables (enabled (db y)) (online (db y)) (resolve_incident (fingerprint k) detail (clock y) (incidents (db y))).2) (clock y) (trace y).

(** ** The timer task *)

(** [finally]: the task ends. *)
Definition ends (n : Z) (t : timer) (y : alerter) : alerter :=
  mkAlerter (alerted y) (if bool_decide (pending y !! tm_key t = Some n) then delete (tm_key t) (pending y) else pending y)
    (delete n (timers y)) (next_task y) (db y) (clock y) (trace y).

Definition checked (grace : Z) (is_enabled : bool) (n : Z) (t : timer) (y : alerter) : alerter :=
  if is_enabled then set_timer n (mkTimer (tm_key t) (Sleeping (clock y + grace)) (tm_cancelled t)) y else ends n t y.

(** [_record_offline], in the database worker. *)
Definition record_offline (title source detail : key -> pystr) (k : key) (now : Z) (d : tables) : bool * tables :=
  if negb (enabled d) || bool_decide (online d !! k = Some true) then (false, d)
  else (true, mkTables (enabled d) (online d)
                (open_incident (fingerprint k) (str "device_offline") (str "critical") (source k) (title k) (detail k) now (incidents d))).

Definition recorded (title source detail : key -> pystr) (n : Z) (t : timer) (y : alerter) : alerter :=
  let '(page, d) := record_offline title source detail (tm_key t) (clock y) (db y) in
  mkAlerter (alerted y) (pending y) (<[n := mkTimer (tm_key t) (Recorded page) (tm_cancelled t)]> (timers y)) (next_task y) d (clock y) (trace y).

(** The task goes on with the worker's answer; a page also runs [finally]. *)
Definition resumed (page : bool) (n : Z) (t : timer) (y : alerter) : alerter :=
  if page
  then ends n t (mkAlerter ({[ tm_key t ]} ∪ alerted y) (delete (tm_key t) (pending y)) (timers y) (next_task y) (db y) (clock y)
                   (trace y ++ [TPage (tm_key t) (clock y)]))
  else ends n t y.

Section Steps.
Context (grace : Z) (title source detail : key -> pystr).

Inductive step : alerter -> alerter -> Prop :=
| step_note k on y : step y (note k on y)
| step_recover k text y : step y (run_recover k text y)
| step_checked n t is_enabled y : timers y !! n = Some t -> tm_phase t = Checking -> tm_cancelled t = false ->
    step y (checked grace is_enabled n t y)
| step_wake n t until y : timers y !! n = Some t -> tm_phase t = Sleeping until -> tm_cancelled t = false -> until <= clock y ->
    step y (set_timer n (mkTimer (tm_key t) Recording false) y)
| step_recorded n t y : timers y !! n = Some t -> tm_phase t = Recording ->
    step y (recorded title source detail n t y)
| step_resumed n t page y : timers y !! n = Some t -> tm_phase t = Recorded page -> tm_cancelled t = false ->
    step y (resumed page n t y)
| step_cancelled n t y : timers y !! n = Some t -> tm_cancelled t = true -> step y (ends n t y)
| step_tables d y : (* the setting, the devices and the other incidents change *)
    step y (mkAlerter (alerted y) (pending y) (timers y) (next_task y) d (clock y) (trace y))
| step_clock c y : clock y <= c ->
    step y (mkAlerter (alerted y) (pending y) (timers y) (next_task y) (db y) c (trace y)).

Definition initial (d : tables) (now : Z) : alerter := mkAlerter ∅ ∅ ∅ 0 d now [].

(** ** Properties of a history *)

(** A page at [t] was earned: the module was noted offline [grace] before, and
    not noted online in between. *)
Definition earned (tr : list entry) (k : key) (t : Z) : Prop :=
  exists pre t0 post, tr = pre ++ TOffline k t0 :: post /\ t0 + grace <= t /\ forall t', TOnline k t' ∉ post.

Definition pages_earned (tr : list entry) : Prop :=
  forall pre k t post, tr = pre ++ TPage k t :: post -> earned pre k t.

(** Pages and recoveries of [k] take turns, a page first; the result says
    whether a page is open. *)
Fixpoint takes_turns (k : key) (opened : bool) (tr : list entry) : option bool :=
  match tr with
  | [] => Some opened
  | TPage k' _ :: tr => if decide (k' = k) then (if opened then None else takes_turns k true tr) else takes_turns k opened tr
  | TRecover k' _ :: tr => if decide (k' = k) then (if opened then takes_turns k false tr else None) else takes_turns k opened tr
  | _ :: tr => takes_turns k opened tr
  end.

(** ** The invariant *)

Definition in_time (ph : phase) (t0 now : Z) : Prop :=
  match ph with Checking => t0 <= now | Sleeping u => t0 + grace <= u | Recording | Recorded _ => t0 + grace <= now end.

(** The last note on [k] since a moment that fits the phase was "offline". *)
Definition armed (tr : list entry) (k : key) (ph : phase) (now : Z) : Prop :=
  exists pre t0 post, tr = pre ++ TOffline k t0 :: post /\ in_time ph t0 now /\ forall t', TOnline k t' ∉ post.

Record inv (y : alerter) : Prop := {
  i_pending : forall k n, pending y !! k = Some n -> exists t, timers y !! n = Some t /\ tm_key t = k /\ tm_cancelled t = false;
  i_live : forall n t, timers y !! n = Some t -> tm_cancelled t = false -> pending y !! tm_key t = Some n;
  i_alerted : forall k n, pending y !! k = Some n -> k ∉ alerted y;
  i_armed : forall n t, timers y !! n = Some t -> tm_cancelled t = false -> armed (trace y) (tm_key t) (tm_phase t) (clock y);
  i_turns : forall k, takes_turns k false (trace y) = Some (bool_decide (k ∈ alerted y));
  i_earned : pages_earned (trace y);
  i_fresh : forall n t, timers y !! n = Some t -> n < next_task y }.

Lemma takes_turns_app k tr1 tr2 : forall b, takes_turns k b (tr1 ++ tr2) = b' ← takes_turns k b tr1; takes_turns k b' tr2.
Proof.
  induction tr1 as [|e tr1 IH]; intros b; [done|]. cbn [app takes_turns].
  destruct e; try apply IH; case_decide; try apply IH; destruct b; first [done|apply IH].
Qed.

Lemma turns_other k tr e b : takes_turns k false tr = Some b -> (forall t, e <> TPage k t /\ e <> TRecover k t) ->
  takes_turns k false (tr ++ [e]) = Some b.
Proof.
  intros H He. rewrite takes_turns_app, H. cbn. destruct e as [| |k' t|k' t]; try done; case_decide as E; try done; subst; by destruct (He t).
Qed.

Lemma earned_snoc tr e : pages_earned tr -> (forall k t, e = TPage k t -> earned tr k t) -> pages_earned (tr ++ [e]).
Proof.
  intros H He pre k t post E. destruct post as [|x post] using rev_ind; [|clear IHpost].
  - apply app_inj_tail in E as [-> ->]. by apply He.
  - rewrite app_comm_cons, app_assoc in E. apply app_inj_tail in E as [E _]. by eapply H.
Qed.

Lemma armed_snoc tr e k ph now : armed tr k ph now -> (forall t, e <> TOnline k t) -> armed (tr ++ [e]) k ph now.
Proof.
  intros (pre & t0 & post & -> & Ht & Hn) He. exists pre, t0, (post ++ [e]). split_and!; [by rewrite <- app_assoc|done|].
  intros t' [H|H]%elem_of_app; [by apply (Hn t')|]. apply list_elem_of_singleton in H. by apply (He t').
Qed.

Lemma armed_clock tr k ph now now' : armed tr k ph now -> now <= now' -> armed tr k ph now'.
Proof. intros (pre & t0 & post & -> & Ht & Hn) Hle. exists pre, t0, post. split_and!; try done. destruct ph; cbn in *; lia. Qed.

(** A task ends, live or cancelled. *)
Lemma inv_ends n t y : inv y -> timers y !! n = Some t -> inv (ends n t y).
Proof.
  intros [] Ht. unfold ends.
  assert (Hp : forall k m, (if bool_decide (pending y !! tm_key t = Some n) then delete (tm_key t) (pending y) else pending y) !! k = Some m ->
            pending y !! k = Some m /\ m <> n).
  { intros k m H. assert (Hk : pending y !! k = Some m).
    { destruct (bool_decide _); [|done]. by apply lookup_delete_Some in H as [_ ?]. }
    split; [done|]. intros ->. destruct (i_pending0 k n Hk) as (t' & Ht' & <- & _). rewrite Ht in Ht'. injection Ht' as <-.
    rewrite bool_decide_eq_true_2 in H by done. by rewrite lookup_delete_eq in H. }
  split; cbn [pending timers alerted trace clock next_task]; try done.
  - intros k m [H Hm]%Hp. destruct (i_pending0 k m H) as (t' & H' & ?). exists t'. by rewrite lookup_delete_ne.
  - intros m t' [Hm H]%lookup_delete_Some Hc. specialize (i_live0 m t' H Hc). destruct (bool_decide (pending y !! tm_key t = Some n)) eqn:E; [|done].
    apply bool_decide_eq_true in E. rewrite lookup_delete_ne; [done|]. intros Hk. rewrite Hk in E. congruence.
  - intros k m [H _]%Hp. exact (i_alerted0 k m H).
  - intros m t' [_ H]%lookup_delete_Some. exact (i_armed0 m t' H).
  - intros m t' [_ H]%lookup_delete_Some. exact (i_fresh0 m t' H).
Qed.

(** A live task moves to another phase. *)
Lemma inv_phase n t ph y : inv y -> timers y !! n = Some t ->
  (tm_cancelled t = false -> armed (trace y) (tm_key t) ph (clock y)) -> inv (set_timer n (mkTimer (tm_key t) ph (tm_cancelled t)) y).
Proof.
  intros [] Ht Ha. unfold set_timer. split; cbn [pending timers alerted trace clock next_task]; try done.
  - intros k m H. destruct (i_pending0 k m H) as (t' & H' & E1 & E2). destruct (decide (m = n)) as [->|Hm].
    + rewrite Ht in H'. injection H' as <-. exists (mkTimer (tm_key t) ph (tm_cancelled t)). by rewrite lookup_insert_eq.
    + exists t'. by rewrite lookup_insert_ne.
  - intros m t' [[<- <-]|[Hm H]]%lookup_insert_Some Hc; [exact (i_live0 _ _ Ht Hc)|exact (i_live0 _ _ H Hc)].
  - intros m t' [[<- <-]|[Hm H]]%lookup_insert_Some Hc; [exact (Ha Hc)|exact (i_armed0 _ _ H Hc)].
  - intros m t' [[<- <-]|[Hm H]]%lookup_insert_Some; [exact (i_fresh0 _ _ Ht)|exact (i_fresh0 _ _ H)].
Qed.

Lemma inv_note_offline k y : inv y -> inv (note_offline k y).
Proof.
  intros Hi. unfold note_offline.
  assert (Ht : forall k', takes_turns k' false (trace y ++ [TOffline k (clock y)]) = Some (bool_decide (k' ∈ alerted y))).
  { intros k'. by apply turns_other; [apply (i_turns _ Hi)|]. }
  assert (He : pages_earned (trace y ++ [TOffline k (clock y)])) by by apply earned_snoc; [apply Hi|].
  destruct Hi. case_bool_decide as Hp; [|case_bool_decide as Ha]; cbn [orb].
  - split; cbn [pending timers alerted trace clock next_task]; try done. intros n t H Hc. apply armed_snoc; [exact (i_armed0 n t H Hc)|done].
  - split; cbn [pending timers alerted trace clock next_task]; try done. intros n t H Hc. apply armed_snoc; [exact (i_armed0 n t H Hc)|done].
  - assert (Hnew : timers y !! next_task y = None).
    { destruct (timers y !! next_task y) as [t|] eqn:E; [|done]. apply i_fresh0 in E. lia. }
    assert (Hk : pending y !! k = None) by (by apply eq_None_not_Some).
    split; cbn [pending timers alerted trace clock next_task]; try done.
    + intros k' n [[<- <-]|[Hne H]]%lookup_insert_Some.
      * exists (mkTimer k Checking false). by rewrite lookup_insert_eq.
      * destruct (i_pending0 k' n H) as (t & H' & E1 & E2). exists t. rewrite lookup_insert_ne; [done|]. intros <-. by rewrite Hnew in H'.
    + intros n t [[<- <-]|[Hne H]]%lookup_insert_Some Hc; cbn [tm_key]; [by rewrite lookup_insert_eq|].
      specialize (i_live0 n t H Hc). rewrite lookup_insert_ne; [done|]. intros E. by rewrite <- E, Hk in i_live0.
    + intros k' n [[<- _]|[Hne H]]%lookup_insert_Some; [done|exact (i_alerted0 _ _ H)].
    + intros n t [[<- <-]|[Hne H]]%lookup_insert_Some Hc; cbn [tm_key tm_phase].
      * exists (trace y), (clock y), []. split_and!; [done|cbn; lia|intros t'; apply not_elem_of_nil].
      * apply armed_snoc; [exact (i_armed0 _ _ H Hc)|done].
    + intros n t [[<- _]|[Hne H]]%lookup_insert_Some; [lia|]. apply i_fresh0 in H. lia.
Qed.

Lemma cancel_lookup n (ts : gmap Z timer) m t : cancel n ts !! m = Some t ->
  exists t0, ts !! m = Some t0 /\ tm_key t = tm_key t0 /\ (tm_cancelled t = false -> m <> n /\ t = t0).
Proof.
  unfold cancel. intros [(-> & t0 & H & ->)|[Hne H]]%lookup_alter_Some; [exists t0; by split_and!|exists t; by split_and!].
Qed.

Lemma turns_recover (k k' : key) (tr : list entry) (al : gset key) (t t' : Z) : takes_turns k' false tr = Some (bool_decide (k' ∈ al)) ->
  takes_turns k' false (tr ++ TOnline k t :: if bool_decide (k ∈ al) then [TRecover k t'] else []) = Some (bool_decide (k' ∈ al ∖ {[ k ]})).
Proof.
  intros H. rewrite takes_turns_app, H. cbn [mbind option_bind takes_turns]. destruct (decide (k = k')) as [<-|Hne].
  - rewrite (bool_decide_eq_false_2 (k ∈ al ∖ {[k]})) by set_solver. destruct (bool_decide (k ∈ al)) eqn:E; cbn [takes_turns]; [by rewrite decide_True|done].
  - replace (bool_decide (k' ∈ al ∖ {[k]})) with (bool_decide (k' ∈ al)) by (apply bool_decide_ext; set_solver).
    destruct (bool_decide (k ∈ al)); cbn [takes_turns]; [by rewrite decide_False|done].
Qed.

(** A recovery takes the task out of the timers that count. *)
Lemma note_online_timers k y n t : inv y ->
  (match pending y !! k with Some m => cancel m (timers y) | None => timers y end) !! n = Some t ->
  exists t0, timers y !! n = Some t0 /\ (tm_cancelled t = false -> t = t0 /\ tm_key t <> k).
Proof.
  intros Hi H. destruct (pending y !! k) as [m|] eqn:Ep.
  - apply cancel_lookup in H as (t0 & H & E & Hc). exists t0. split; [done|]. intros Hl. destruct (Hc Hl) as [Hm ->]. split; [done|].
    intros Ek. apply (i_live _ Hi n t0 H) in Hl. congruence.
  - exists t. split; [done|]. intros Hl. split; [done|]. intros Ek. apply (i_live _ Hi n t H) in Hl. congruence.
Qed.

Lemma inv_note_online k y : inv y -> inv (note_online k y).
Proof.
  intros Hi. unfold note_online. pose proof (fun n t => note_online_timers k y n t Hi) as Hts.
  assert (Hc : forall k' n, delete k (pending y) !! k' = Some n -> k' <> k /\ pending y !! k' = Some n).
  { intros k' n [? ?]%lookup_delete_Some. by split. }
  split; cbn [pending timers alerted trace clock next_task].
  - intros k' n [Hk H]%Hc. destruct (i_pending _ Hi k' n H) as (t & Ht & E1 & E2). exists t. split; [|done].
    destruct (pending y !! k) as [m|] eqn:Ep; [|done]. unfold cancel. rewrite lookup_alter_ne; [done|]. intros ->.
    destruct (i_pending _ Hi k n Ep) as (t' & Ht' & E' & _). congruence.
  - intros n t H Hl. destruct (Hts n t H) as (t0 & H0 & Hd). destruct (Hd Hl) as [-> Hk].
    rewrite lookup_delete_ne by done. exact (i_live _ Hi n t0 H0 Hl).
  - intros k' n [Hk H]%Hc. pose proof (i_alerted _ Hi k' n H). set_solver.
  - intros n t H Hl. destruct (Hts n t H) as (t0 & H0 & Hd). destruct (Hd Hl) as [-> Hk].
    destruct (i_armed _ Hi n t0 H0 Hl) as (pre & s & post & E & Ht & Hn). rewrite E.
    exists pre, s, (post ++ TOnline k (clock y) :: if bool_decide (k ∈ alerted y) then [TRecover k (clock y)] else []).
    split_and!; [by rewrite <- app_assoc|done|]. intros t' [H'|[H'|H']%elem_of_cons]%elem_of_app; [by apply (Hn t')|congruence|].
    destruct (bool_decide _); [by apply list_elem_of_singleton in H'|by apply elem_of_nil in H'].
  - intros k'. apply turns_recover, (i_turns _ Hi).
  - pose proof (i_earned _ Hi) as He. apply (earned_snoc _ (TOnline k (clock y))) in He; [|done].
    case_bool_decide; [|done]. by apply (earned_snoc _ (TRecover k (clock y))) in He; [rewrite <- app_assoc in He|].
  - intros n t H. destruct (Hts n t H) as (t0 & H0 & _). exact (i_fresh _ Hi n t0 H0).
Qed.

(** The tables and the clock do not matter to the invariant. *)
Lemma inv_around y d c : inv y -> clock y <= c ->
  inv (mkAlerter (alerted y) (pending y) (timers y) (next_task y) d c (trace y)).
Proof.
  intros [] Hc. split; cbn [pending timers alerted trace clock next_task]; try done.
  intros n t H Hl. by eapply armed_clock; [exact (i_armed0 n t H Hl)|].
Qed.

Lemma inv_recorded n t y : inv y -> timers y !! n = Some t -> tm_phase t = Recording -> inv (recorded title source detail n t y).
Proof.
  intros Hi Ht Hp. unfold recorded. destruct (record_offline _ _ _ _ _ _) as [page d].
  refine (inv_around _ d (clock y) (inv_phase n t (Recorded page) y Hi Ht _) _); [|cbn; lia].
  intros Hl. pose proof (i_armed _ Hi n t Ht Hl) as H. by rewrite Hp in H.
Qed.

(** The page. *)
Lemma inv_page n t y : inv y -> timers y !! n = Some t -> tm_phase t = Recorded true -> tm_cancelled t = false ->
  inv (resumed true n t y).
Proof.
  intros Hi Ht Hp Hl. pose proof (i_live _ Hi n t Ht Hl) as Hk. pose proof (i_alerted _ Hi _ _ Hk) as Hal.
  pose proof (i_armed _ Hi n t Ht Hl) as Ha. rewrite Hp in Ha. destruct Hi.
  unfold resumed, ends. cbn [pending timers alerted trace clock next_task db]. rewrite lookup_delete_eq, bool_decide_eq_false_2 by done.
  split; cbn [pending timers alerted trace clock next_task].
  - intros k m [Hne H]%lookup_delete_Some. destruct (i_pending0 k m H) as (t' & H' & E & E'). exists t'. split; [|done].
    rewrite lookup_delete_ne; [done|]. intros ->. congruence.
  - intros m t' [Hne H]%lookup_delete_Some Hl'. specialize (i_live0 m t' H Hl'). rewrite lookup_delete_ne; [done|]. congruence.
  - intros k m [Hne H]%lookup_delete_Some. pose proof (i_alerted0 k m H). set_solver.
  - intros m t' [Hne H]%lookup_delete_Some Hl'. apply armed_snoc; [exact (i_armed0 m t' H Hl')|done].
  - intros k. rewrite takes_turns_app, i_turns0. cbn [mbind option_bind takes_turns]. case_decide as E.
    + subst k. rewrite (bool_decide_eq_false_2 _ Hal). cbn [takes_turns]. f_equal. symmetry. apply bool_decide_eq_true. set_solver.
    + f_equal. apply bool_decide_ext. set_solver.
  - apply earned_snoc; [done|]. intros k s [= <- <-]. exact Ha.
  - intros m t' [_ H]%lookup_delete_Some. exact (i_fresh0 m t' H).
Qed.

Lemma step_keeps y y' : inv y -> step y y' -> inv y'.
Proof.
  intros Hi H. destruct H.
  - destruct on; [by apply inv_note_online|by apply inv_note_offline].
  - by apply inv_around.
  - unfold checked. destruct is_enabled; [|by apply inv_ends]. apply inv_phase; [done..|]. intros Hl.
    destruct (i_armed _ Hi n t H Hl) as (pre & s & post & E & Ht & Hn). rewrite H0 in Ht. cbn in Ht.
    exists pre, s, post. split_and!; [done|cbn; lia|done].
  - pose proof (inv_phase n t Recording y Hi H) as Hx. rewrite H1 in Hx. apply Hx. intros _.
    destruct (i_armed _ Hi n t H H1) as (pre & s & post & E & Ht & Hn). rewrite H0 in Ht. cbn in Ht.
    exists pre, s, post. split_and!; [done|cbn; lia|done].
  - by apply inv_recorded.
  - destruct page; [by apply inv_page|by apply inv_ends].
  - by apply inv_ends.
  - by apply inv_around.
  - by apply inv_around.
Qed.

Lemma run_keeps d now y : rtc step (initial d now) y -> inv y.
Proof.
  apply (rtc_ind_r inv); [|intros ? ? _ Hs Hi; exact (step_keeps _ _ Hi Hs)].
  split; cbn [initial pending timers alerted trace clock next_task]; try (intros *; by rewrite ?lookup_empty).
  intros [|] k t post E; discriminate.
Qed.

(** C31 (safety): in every run of the alerter -- whatever is noted and whenever
    the tasks, the database worker and the clock move -- a page for a module is
    only decided when the module was noted offline at least the grace period
    before and was not noted online again in between. *)
Theorem pages_are_earned d now y pre k t post : rtc step (initial d now) y ->
  trace y = pre ++ TPage k t :: post -> earned pre k t.
Proof. intros H%run_keeps. exact (i_earned _ H pre k t post). Qed.

(** In every run, the pages and the recovery announcements of a
    module take turns, a page first -- no second page without a recovery between,
    no all-clear for a drop that was not paged -- and the alerter's set of paged
    modules says whose turn it is. *)
Theorem pages_and_recoveries_alternate d now y k : rtc step (initial d now) y ->
  takes_turns k false (trace y) = Some (bool_decide (k ∈ alerted y)).
Proof. intros H%run_keeps. exact (i_turns _ H k). Qed.
End Steps.

(** ** A run: a drop that is paged and recovers, and a blip *)

Definition text (_ : key) : pystr := [].
Definition k1 : key := (str "host", str "dev-0").
Definition tables0 : tables := mkTables true {[ k1 := false ]} (mkTable [] 1).
Definition noted : alerter := note k1 false (initial tables0 0).
Definition asleep : alerter := checked 120 true 0 (mkTimer k1 Checking false) noted.
Definition later : alerter := mkAlerter (alerted asleep) (pending asleep) (timers asleep) (next_task asleep) (db asleep) 121 (trace asleep).
Definition awake : alerter := set_timer 0 (mkTimer k1 Recording false) later.
Definition written : alerter := recorded text text text 0 (mkTimer k1 Recording false) awake.
Definition paged : alerter := resumed true 0 (mkTimer k1 (Recorded true) false) written.
Definition back : alerter := note k1 true paged.
Definition blip : alerter := note k1 true (note k1 false back).

Lemma sample_alert : rtc (step 120 text text text) (initial tables0 0) blip.
Proof.
  eapply rtc_l; [exact (step_note _ _ _ _ k1 false _)|].
  eapply rtc_l; [by apply (step_checked _ _ _ _ 0 (mkTimer k1 Checking false) true); vm_compute|].
  eapply rtc_l; [apply (step_clock _ _ _ _ 121); by vm_compute|].
  eapply rtc_l; [by apply (step_wake _ _ _ _ 0 (mkTimer k1 (Sleeping 120) false) 120); vm_compute|].
  eapply rtc_l; [by apply (step_recorded _ _ _ _ 0 (mkTimer k1 Recording false)); vm_compute|].
  eapply rtc_l; [by apply (step_resumed _ _ _ _ 0 (mkTimer k1 (Recorded true) false) true); vm_compute|].
  eapply rtc_l; [exact (step_note _ _ _ _ k1 true _)|].
  eapply rtc_l; [exact (step_note _ _ _ _ k1 false _)|].
  apply rtc_once. exact (step_note _ _ _ _ k1 true _).
Qed.

Example sample_history : trace blip =
  [TOffline k1 0; TPage k1 121; TOnline k1 121; TRecover k1 121; TOffline k1 121; TOnline k1 121].
Proof. by vm_compute. Qed.

Lemma pages_are_earned_witness : earned 120 [TOffline k1 0] k1 121.
Proof.
  apply (pages_are_earned 120 text text text tables0 0 blip _ _ _ [TOnline k1 121; TRecover k1 121; TOffline k1 121; TOnline k1 121]).
  - exact sample_alert.
  - exact sample_history.
Defined.

Lemma pages_and_recoveries_alternate_witness : takes_turns k1 false (trace blip) = Some false.
Proof.
  assert (H : takes_turns k1 false (trace blip) = Some (bool_decide (k1 ∈ alerted blip)))
    by exact (pages_and_recoveries_alternate 120 text text text tables0 0 blip k1 sample_alert).
  rewrite H. by vm_compute.
Defined.
End Alerts.
