(* ===== verification/Fleet.v ===== *)
(** * Agents, modules and cards in the server's database (server/src/hub_server/db.py)

    The [agents], [sims], [devices] and [device_status] tables and the
    operations of [Database] on them.  A module's reported columns are a map
    from column to the value bound to it, before the column's affinity; a column
    that was never written holds the schema's default.  What a TEXT key makes of
    a value that is not text is an argument; times are arguments of the
    operations. *)

From S2P Require Import Prelude PyText PyDict Json.
From Stdlib Require Import Floats.SpecFloat.

Module Fleet.

(** ** Binding a value to a statement *)

Inductive exn := IntegrityError | ProgrammingError | OverflowError | UnicodeEncodeError | ValueError | TypeError | AttributeError.
#[export] Instance exn_eq_dec : EqDecision exn.
Proof. solve_decision. Defined.

Definition is_surrogate (c : Z) : bool := (0xD800 <=? c) && (c <=? 0xDFFF).
Definition fits_int64 (n : Z) : bool := (- 2 ^ 63 <=? n) && (n <? 2 ^ 63).

(** What sqlite3 stores for a parameter: NaN becomes NULL. *)
Definition bind (v : json) : res exn json :=
  match v with
  | JBool b => Ok (JInt (if b then 1 else 0))
  | JInt n => if fits_int64 n then Ok (JInt n) else Err OverflowError
  | JFloat S754_nan => Ok JNull
  | JStr s => if existsb is_surrogate s then Err UnicodeEncodeError else Ok (JStr s)
  | JArr _ | JObj _ => Err ProgrammingError
  | _ => Ok v
  end.

(** [int(bool(value))] *)
Definition int_bool (v : json) : json := JInt (if truthy v then 1 else 0).

(** ** Tables *)

Record agent_row := mkAgent {
  a_version : pystr; a_protocol : Z; a_connected : bool; a_stream : pystr; a_seen : Z; a_last_seq : Z }.
Record sim_row := mkSim { s_id : Z; s_iccid : pystr; s_operator : pystr; s_smsc : pystr; s_first : Z; s_last : Z }.
Record device_row := mkDevice {
  d_id : Z; d_agent : pystr; d_name : pystr; d_sim : option Z; d_cols : gmap (list Z) json; d_seen : Z }.
Record status_row := mkStatus { st_device : Z; st_ts : Z; st_cols : list json }.

Record fleet := mkFleet {
  agents : gmap (list Z) agent_row;
  sims : list sim_row; sims_seq : Z;
  devices : list device_row; devices_seq : Z;
  statuses : list status_row }.

Definition set_agents (m : gmap (list Z) agent_row) (t : fleet) : fleet :=
  mkFleet m (sims t) (sims_seq t) (devices t) (devices_seq t) (statuses t).
Definition set_sims (l : list sim_row) (n : Z) (t : fleet) : fleet :=
  mkFleet (agents t) l n (devices t) (devices_seq t) (statuses t).
Definition set_devices (l : list device_row) (n : Z) (t : fleet) : fleet :=
  mkFleet (agents t) (sims t) (sims_seq t) l n (statuses t).

(** ** Agents *)

Definition encodable (s : pystr) : bool := negb (existsb is_surrogate s).

Definition upsert_agent (id version : pystr) (protocol : Z) (connected : bool) (stream : pystr) (now : Z) (t : fleet) : res exn fleet :=
  _ ← guard_err (encodable id && encodable version && encodable stream) UnicodeEncodeError;
  _ ← guard_err (fits_int64 protocol) OverflowError;
  let last := match agents t !! id with Some r => a_last_seq r | None => 0 end in
  Ok (set_agents (<[id := mkAgent version protocol connected stream now last]> (agents t)) t).

Definition set_agent_connected (id : pystr) (connected : bool) (now : Z) (t : fleet) : fleet :=
  set_agents (alter (fun r => mkAgent (a_version r) (a_protocol r) connected (a_stream r) now (a_last_seq r)) id (agents t)) t.

Definition with_cols (m : gmap (list Z) json) (r : device_row) : device_row :=
  mkDevice (d_id r) (d_agent r) (d_name r) (d_sim r) m (d_seen r).
Definition offline_row (r : device_row) : device_row := with_cols (<[str "online" := JInt 0]> (d_cols r)) r.

Definition mark_all_agents_disconnected (t : fleet) : fleet :=
  let t := set_agents ((fun r => mkAgent (a_version r) (a_protocol r) false (a_stream r) (a_seen r) (a_last_seq r)) <$> agents t) t in
  set_devices (offline_row <$> devices t) (devices_seq t) t.

(** ** Cards

    An upsert takes a number from the AUTOINCREMENT generator even when the row
    exists. *)

Definition find_sim (iccid : pystr) (t : fleet) : option sim_row := List.find (fun s => bool_decide (s_iccid s = iccid)) (sims t).

Definition learned (new old : pystr) : pystr := match new with [] => old | _ => new end.

Definition upsert_sim (iccid operator smsc : pystr) (now : Z) (t : fleet) : option Z * fleet :=
  match iccid with
  | [] => (None, t)
  | _ =>
      match find_sim iccid t with
      | Some s =>
          (Some (s_id s),
           set_sims ((fun s => if bool_decide (s_iccid s = iccid)
                               then mkSim (s_id s) (s_iccid s) (learned operator (s_operator s)) (learned smsc (s_smsc s)) (s_first s) now
                               else s) <$> sims t) (sims_seq t + 1) t)
      | None =>
          let id := sims_seq t + 1 in
          (Some id, set_sims (sims t ++ [mkSim id iccid operator smsc now now]) id t)
      end
  end.

(** ** Modules *)

Definition STATE_FIELDS : list string :=
  ["online"; "registered"; "radio_enabled"; "eps_registered"; "cs_registered"; "ims_registered"; "data_enabled";
   "data_attached"; "pdp_active"; "roaming"; "roaming_data_allowed"; "data_blocked_by_roaming"; "rssi"; "dbm"; "bars";
   "rsrp"; "rsrq"; "voltage_mv"; "low_voltage_mv"]%string.
Definition TRISTATE_FIELDS : list string :=
  ["radio_enabled"; "eps_registered"; "cs_registered"; "ims_registered"; "data_enabled"; "data_attached"; "pdp_active";
   "roaming"; "roaming_data_allowed"; "data_blocked_by_roaming"]%string.
Definition IDENTITY_FIELDS : list string :=
  ["label"; "port"; "model"; "hardware_model"; "firmware"; "imei"; "operator"]%string.
Definition NOT_NULL_FIELDS : list string :=
  ["online"; "registered"; "data_enabled"; "roaming_data_allowed"; "data_blocked_by_roaming"; "label"; "port"; "model";
   "hardware_model"; "firmware"; "imei"; "operator"; "bars"; "storage_used"; "storage_cap"]%string.

(** The value a state field is stored as. *)
Definition state_value (field : string) (v : json) : json :=
  if bool_decide (field ∈ TRISTATE_FIELDS) then (if is_null v then JNull else int_bool v)
  else if bool_decide (field ∈ ["online"; "registered"]%string) then int_bool v
  else v.

(** [value or 0] *)
Definition or_zero (v : json) : json := if truthy v then v else JInt 0.

(** The [columns] dict, without the key columns, [last_seen_at] and [sim_id]. *)
Definition written (payload : frame) : list (string * json) :=
  omap (fun f => if jhas f payload then Some (f, state_value f (jget f payload)) else None) STATE_FIELDS
  ++ (if jhas "bars" payload then [("bars"%string, or_zero (jget "bars" payload))] else [])
  ++ (if jhas "storage_used" payload then [("storage_used"%string, or_zero (jget "storage_used" payload))] else [])
  ++ (if jhas "storage_capacity" payload then [("storage_cap"%string, or_zero (jget "storage_capacity" payload))] else [])
  ++ omap (fun f => if truthy (jget f payload) then Some (f, jget f payload) else None) IDENTITY_FIELDS.
Definition columns (payload : frame) : pydict string json :=
  foldl (fun d c => dict_set c.1 c.2 d) [] (written payload).

Definition bind_column (c : string * json) : res exn (list Z * json) :=
  v ← bind c.2;
  if is_null v && bool_decide (c.1 ∈ NOT_NULL_FIELDS) then Err IntegrityError else Ok (str c.1, v).

Fixpoint bind_all (l : list (string * json)) : res exn (list (list Z * json)) :=
  match l with
  | [] => Ok []
  | c :: l => c ← bind_column c; l ← bind_all l; Ok (c :: l)
  end.

(** [columns[k] = v] in order, over the row's columns. *)
Definition overlay (l : list (list Z * json)) (m : gmap (list Z) json) : gmap (list Z) json :=
  foldl (fun m c => <[c.1 := c.2]> m) m l.

Definition find_device (agent name : pystr) (t : fleet) : option device_row :=
  List.find (fun r => bool_decide (d_agent r = agent /\ d_name r = name)) (devices t).

Section Affinity.
(** What a TEXT column holds after a value was bound to it; the instant an
    ISO-8601 text names. *)
Context (text : json -> pystr) (fromisoformat : pystr -> option Z).

Definition bind_text (v : json) : res exn pystr :=
  v ← bind v; if is_null v then Err IntegrityError else Ok (text v).

(** [value or ""] *)
Definition text_or_empty (v : json) : res exn pystr := if truthy v then bind_text v else Ok [].

Definition card_of (payload : frame) : res exn (pystr * pystr * pystr) :=
  if truthy (jget "iccid" payload)
  then
    iccid ← bind_text (jget "iccid" payload);
    operator ← text_or_empty (jget "operator" payload);
    smsc ← text_or_empty (jget "smsc" payload);
    Ok (iccid, operator, smsc)
  else Ok ([], [], []).

(** The id, and the tables: what was written before an exception stays, unless
    the caller's transaction rolls back. *)
Definition upsert_device (agent : pystr) (payload : frame) (now : Z) (t : fleet) : res exn Z * fleet :=
  match card_of payload with
  | Err e => (Err e, t)
  | Ok (iccid, operator, smsc) =>
      let '(sim, t) := upsert_sim iccid operator smsc now t in
      match name ← bind_text (jget_or "name" (JStr []) payload); cols ← bind_all (columns payload); Ok (name, cols) with
      | Err e => (Err e, t)
      | Ok (name, cols) =>
          match find_device agent name t with
          | Some r =>
              (Ok (d_id r),
               set_devices ((fun r => if bool_decide (d_agent r = agent /\ d_name r = name)
                                      then mkDevice (d_id r) (d_agent r) (d_name r) (match sim with Some _ => sim | None => d_sim r end)
                                             (overlay cols (d_cols r)) now
                                      else r) <$> devices t) (devices_seq t + 1) t)
          | None =>
              let id := devices_seq t + 1 in
              (Ok id, set_devices (devices t ++ [mkDevice id agent name sim (overlay cols ∅) now]) id t)
          end
      end
  end.

Definition set_devices_offline (agent : pystr) (t : fleet) : fleet :=
  set_devices ((fun r => if bool_decide (d_agent r = agent) then offline_row r else r) <$> devices t) (devices_seq t) t.

Definition column_online (r : device_row) : bool :=
  match d_cols r !! str "online" with Some v => truthy v | None => false end.

Definition device_online (agent name : pystr) (t : fleet) : option bool := column_online <$> find_device agent name t.
Definition device_id (agent name : pystr) (t : fleet) : option Z := d_id <$> find_device agent name t.

Definition to_utc_iso (v : json) (now : Z) : res exn Z :=
  if negb (truthy v) then Ok now
  else match v with JStr s => Ok (default now (fromisoformat s)) | _ => Err TypeError end.

Fixpoint bind_values (l : list json) : res exn (list json) :=
  match l with
  | [] => Ok []
  | v :: l => v ← bind v; l ← bind_values l; Ok (v :: l)
  end.

Definition record_status (device : Z) (payload : frame) (now : Z) (t : fleet) : res exn fleet :=
  ts ← to_utc_iso (jget "ts" payload) now;
  vs ← bind_values (int_bool (jget "online" payload) :: int_bool (jget "registered" payload)
         :: ((fun k => jget k payload) <$>
              ["rssi"; "dbm"; "bars"; "rsrp"; "rsrq"; "storage_used"; "storage_capacity"; "voltage_mv"]%string));
  Ok (mkFleet (agents t) (sims t) (sims_seq t) (devices t) (devices_seq t) (statuses t ++ [mkStatus device ts vs])).
End Affinity.

(** ** Well-formed tables *)

Definition storable (v : json) : bool :=
  match v with
  | JNull => true
  | JInt n => fits_int64 n
  | JFloat S754_nan => false
  | JFloat _ => true
  | JStr s => encodable s
  | JBool _ | JArr _ | JObj _ => false
  end.

(** What a column of a module's row may hold. *)
Definition column_ok (f : string) (v : json) : Prop :=
  storable v = true
  /\ (f ∈ NOT_NULL_FIELDS -> v <> JNull)
  /\ (f ∈ TRISTATE_FIELDS -> v = JNull \/ v = JInt 0 \/ v = JInt 1)
  /\ (f = "online"%string \/ f = "registered"%string -> v = JInt 0 \/ v = JInt 1).

Definition row_ok (r : device_row) : Prop := forall f v, d_cols r !! str f = Some v -> column_ok f v.

(** The unique keys, the reference from a module to its card, the columns. *)
Record fleet_ok (t : fleet) : Prop := {
  ok_keys : NoDup ((fun r => (d_agent r, d_name r)) <$> devices t);
  ok_ids : NoDup (d_id <$> devices t);
  ok_ids_le : Forall (fun r => d_id r <= devices_seq t) (devices t);
  ok_iccids : NoDup (s_iccid <$> sims t);
  ok_sim_ids : NoDup (s_id <$> sims t);
  ok_sims_le : Forall (fun s => s_id s <= sims_seq t) (sims t);
  ok_cards : forall r n, r ∈ devices t -> d_sim r = Some n -> n ∈ s_id <$> sims t;
  ok_rows : Forall row_ok (devices t) }.

Definition empty_fleet : fleet := mkFleet ∅ [] 0 [] 0 [].

Lemma empty_ok : fleet_ok empty_fleet.
Proof. split; cbn; try constructor. intros r n Hr. by apply elem_of_nil in Hr. Qed.

(** *** Columns *)

Lemma bind_storable v w : bind v = Ok w -> storable w = true.
Proof.
  destruct v as [| |n|f|s| |]; cbn; intros E; repeat case_match; inv_ok; cbn; try done.
  unfold encodable. by match goal with H : existsb _ _ = false |- _ => rewrite H end.
Qed.

Lemma bind_bit v w : bind (int_bool v) = Ok w -> w = JInt 0 \/ w = JInt 1.
Proof. unfold int_bool. destruct (truthy v); cbn; intros [= <-]; auto. Qed.

Lemma columns_written payload c : c ∈ columns payload -> c ∈ written payload.
Proof.
  unfold columns. cut (forall l d, dict_wf d -> c ∈ foldl (fun d c => dict_set c.1 c.2 d) d l -> c ∈ d \/ c ∈ l).
  { intros H Hc. apply H in Hc as [Hc|Hc]; [by apply elem_of_nil in Hc|done|constructor]. }
  induction l as [|x l IH]; cbn [foldl]; intros d Hd Hc; [by left|].
  destruct (IH _ (dict_set_wf _ _ _ Hd) Hc) as [H|H]; [|right; by right]. destruct c as [k v], x as [k0 v0].
  apply dict_set_lookup_in in H as [[-> ->]|[_ H]]; [right; left|by left|done].
Qed.

Lemma state_value_ok f v w : bind (state_value f v) = Ok w -> (is_null w = false \/ f ∉ NOT_NULL_FIELDS) -> column_ok f w.
Proof.
  intros E Hn. unfold column_ok. split; [by eapply bind_storable|]. split.
  { intros Hf ->. destruct Hn as [Hn|Hn]; [done|by apply Hn]. }
  unfold state_value in E. case_bool_decide as Ht.
  - split; [|intros [-> | ->]; vm_compute in Ht; set_solver]. intros _. destruct (is_null v); [injection E as <-; by left|].
    apply bind_bit in E. naive_solver.
  - split; [done|]. intros Hf. rewrite bool_decide_eq_true_2 in E by set_solver. by apply bind_bit in E.
Qed.

Lemma plain_ok f v w : bind v = Ok w -> (is_null w = false \/ f ∉ NOT_NULL_FIELDS) ->
  f ∉ TRISTATE_FIELDS ++ ["online"; "registered"]%string -> column_ok f w.
Proof.
  intros E Hn Hf. split; [by eapply bind_storable|]. apply not_elem_of_app in Hf as [Ht Hf]. split_and!.
  - intros H ->. destruct Hn as [Hn|Hn]; [done|by apply Hn].
  - by intros H%Ht.
  - intros [-> | ->]; exfalso; apply Hf; [left|right; left].
Qed.

Lemma measure_plain : Forall (fun f => f ∉ TRISTATE_FIELDS ++ ["online"; "registered"]%string) ["bars"; "storage_used"; "storage_cap"]%string.
Proof. decide_closed. Qed.
Lemma identity_plain : Forall (fun f => f ∉ TRISTATE_FIELDS ++ ["online"; "registered"]%string) IDENTITY_FIELDS.
Proof. decide_closed. Qed.

(** Where a written column comes from. *)
Lemma written_cases payload f v : (f, v) ∈ written payload ->
  (f ∈ STATE_FIELDS /\ jhas f payload = true /\ v = state_value f (jget f payload))
  \/ (f = "bars"%string /\ jhas "bars" payload = true) \/ f ∈ ["storage_used"; "storage_cap"]%string
  \/ (f ∈ IDENTITY_FIELDS /\ truthy (jget f payload) = true).
Proof.
  unfold written. rewrite !elem_of_app. intros [H|[H|[H|[H|H]]]].
  - apply list_elem_of_omap in H as (g & Hg & H). destruct (jhas g payload) eqn:E; [|done]. injection H as <- <-. by left.
  - right; left. destruct (jhas "bars" payload); [|by apply elem_of_nil in H]. by apply list_elem_of_singleton in H as [= -> _].
  - right; right; left. destruct (jhas "storage_used" payload); [|by apply elem_of_nil in H].
    apply list_elem_of_singleton in H as [= -> _]. left.
  - right; right; left. destruct (jhas "storage_capacity" payload); [|by apply elem_of_nil in H].
    apply list_elem_of_singleton in H as [= -> _]. right; left.
  - right; right; right. apply list_elem_of_omap in H as (g & Hg & H). destruct (truthy (jget g payload)) eqn:Et; [|done]. by injection H as <- _.
Qed.

Lemma written_ok payload f v w : (f, v) ∈ written payload -> bind_column (f, v) = Ok (str f, w) -> column_ok f w.
Proof.
  intros H E. unfold bind_column in E. cbn [fst snd] in E. destruct (bind v) as [w'|] eqn:Eb; [|done]. cbn in E.
  assert (Hn : is_null w' = false \/ f ∉ NOT_NULL_FIELDS).
  { destruct (is_null w'); [|by left]. case_bool_decide; [done|by right]. }
  assert (w' = w) as ->. { destruct (_ && _); [done|]. by injection E. }
  apply written_cases in H as [(_ & _ & ->)|[[-> _]|[H|(H & _)]]].
  - by eapply state_value_ok.
  - eapply plain_ok; [exact Eb|done|]. apply (proj1 (Forall_forall _ _) measure_plain). left.
  - eapply plain_ok; [exact Eb|done|]. apply (proj1 (Forall_forall _ _) measure_plain). by right.
  - eapply plain_ok; [exact Eb|done|]. exact (proj1 (Forall_forall _ _) identity_plain f H).
Qed.

Lemma bind_all_in l l' c : bind_all l = Ok l' -> c ∈ l' -> exists x, x ∈ l /\ bind_column x = Ok c.
Proof.
  revert l'. induction l as [|x l IH]; cbn [bind_all]; intros l' E Hc; inv_ok; [by apply elem_of_nil in Hc|].
  apply elem_of_cons in Hc as [->|Hc]; [exists x; split; [left|done]|].
  destruct (IH _ ltac:(eassumption) Hc) as (y & Hy & Ey). exists y. split; [by right|done].
Qed.

Lemma bind_column_key f v k w : bind_column (f, v) = Ok (k, w) -> k = str f.
Proof. unfold bind_column. cbn [fst snd]. destruct (bind v); cbn; [|done]. destruct (_ && _); [done|]. by intros [= <- <-]. Qed.

Lemma overlay_lookup l m k v : overlay l m !! k = Some v -> (k, v) ∈ l \/ m !! k = Some v.
Proof.
  revert m. induction l as [|[k0 v0] l IH]; intros m; cbn [overlay foldl]; [by right|].
  intros [H|H]%IH; [left; by right|]. cbn [fst snd] in H. apply lookup_insert_Some in H as [[-> ->]|[_ H]]; [left; left|by right].
Qed.

Lemma overlay_other l m k : k ∉ l.*1 -> overlay l m !! k = m !! k.
Proof.
  revert m. induction l as [|[k0 v0] l IH]; intros m; cbn [overlay foldl fmap list_fmap]; [done|].
  rewrite not_elem_of_cons. intros [Hk Hl]. change (overlay l (<[k0 := v0]> m) !! k = m !! k). rewrite IH by done. by rewrite lookup_insert_ne.
Qed.

Lemma overlay_row_ok payload cols m : bind_all (columns payload) = Ok cols ->
  (forall f v, m !! str f = Some v -> column_ok f v) -> forall f v, overlay cols m !! str f = Some v -> column_ok f v.
Proof.
  intros E Hm f v [H|H]%overlay_lookup; [|by apply Hm].
  destruct (bind_all_in _ _ _ E H) as ([g w] & Hg & Eg). pose proof (bind_column_key _ _ _ _ Eg) as <-%str_inj.
  eapply written_ok; [by apply columns_written|done].
Qed.

#[local] Opaque written.

Lemma fold_keys (l : list (string * json)) : forall d k, k ∈ dict_keys d \/ k ∈ l.*1 <-> k ∈ dict_keys (foldl (fun d c => dict_set c.1 c.2 d) d l).
Proof.
  induction l as [|[k0 v0] l IH]; intros d k; cbn [foldl fmap list_fmap fst snd]; [rewrite elem_of_nil; tauto|].
  rewrite <- IH, dict_set_keys. destruct (decide (k0 ∈ dict_keys d)); rewrite ?elem_of_app, ?elem_of_cons, ?elem_of_nil;
    destruct (decide (k = k0)) as [->|]; tauto.
Qed.

Lemma columns_wf payload : dict_wf (columns payload).
Proof.
  unfold columns. generalize (written payload). intros l. assert (H : dict_wf ([] : pydict string json)) by constructor. revert H.
  generalize ([] : pydict string json). induction l as [|c l IH]; intros d Hd; [done|]. apply IH. by apply dict_set_wf.
Qed.

(** A column written with one value only. *)
Lemma columns_in payload k v : (k, v) ∈ written payload -> (forall v', (k, v') ∈ written payload -> v' = v) -> (k, v) ∈ columns payload.
Proof.
  intros H Hu. assert (Hk : k ∈ dict_keys (columns payload)).
  { apply fold_keys. right. apply list_elem_of_fmap. by exists (k, v). }
  apply list_elem_of_fmap in Hk as ([k' v'] & E & Hk). cbn in E. subst k'.
  assert (v' = v) as -> by (apply Hu; by apply columns_written). done.
Qed.

Lemma bind_all_out l l' x : bind_all l = Ok l' -> x ∈ l -> exists c, c ∈ l' /\ bind_column x = Ok c.
Proof.
  revert l'. induction l as [|y l IH]; cbn [bind_all]; intros l' E Hx; inv_ok; [by apply elem_of_nil in Hx|].
  apply elem_of_cons in Hx as [->|Hx]; [eexists; split; [left|done]|].
  destruct (IH _ ltac:(eassumption) Hx) as (c & Hc & Ec). exists c. split; [by right|done].
Qed.

Lemma bind_all_keys l l' : bind_all l = Ok l' -> l'.*1 = str <$> l.*1.
Proof.
  revert l'. induction l as [|[f v] l IH]; cbn [bind_all]; intros l' E; inv_ok; [done|].
  destruct a as [k w]. apply bind_column_key in Ha as ->. cbn. f_equal. by apply IH.
Qed.

Lemma overlay_in l m c : NoDup l.*1 -> c ∈ l -> overlay l m !! c.1 = Some c.2.
Proof.
  revert m. induction l as [|[k0 v0] l IH]; intros m; cbn [fmap list_fmap fst]; [by intros _ H%elem_of_nil|].
  intros [Hk Hn]%NoDup_cons [->|Hc]%elem_of_cons; change (overlay ((k0, v0) :: l) m) with (overlay l (<[k0 := v0]> m)); [|by apply IH].
  cbn [fst snd]. by rewrite overlay_other, lookup_insert_eq.
Qed.

(** What ends up in a row's columns. *)
Lemma overlay_columns payload cols m : bind_all (columns payload) = Ok cols ->
  (forall f, f ∉ (written payload).*1 -> overlay cols m !! str f = m !! str f)
  /\ (forall f v, (f, v) ∈ written payload -> (forall v', (f, v') ∈ written payload -> v' = v) ->
       exists w, bind v = Ok w /\ overlay cols m !! str f = Some w).
Proof.
  intros E. pose proof (bind_all_keys _ _ E) as Hk. split.
  - intros f Hf. apply overlay_other. rewrite Hk. intros (g & <-%str_inj & Hg)%list_elem_of_fmap. apply Hf.
    apply list_elem_of_fmap in Hg as (c & -> & Hc). apply list_elem_of_fmap. exists c. split; [done|]. by apply columns_written.
  - intros f v Hv Hu. pose proof (columns_in _ _ _ Hv Hu) as Hc. destruct (bind_all_out _ _ _ E Hc) as ([k w] & Hw & Eb).
    pose proof (bind_column_key _ _ _ _ Eb) as ->. exists w. split.
    + unfold bind_column in Eb. cbn [fst snd] in Eb. destruct (bind v) as [w0|]; [|done]. cbn in Eb. destruct (_ && _); [done|]. by injection Eb as ->.
    + apply (overlay_in cols m (str f, w)); [|done]. rewrite Hk. apply NoDup_fmap_2; [|apply columns_wf].
      intros a b. apply str_inj.
Qed.

#[local] Transparent written.

(** Which columns a payload writes. *)
Lemma state_written payload f : f ∈ STATE_FIELDS -> f <> "bars"%string -> jhas f payload = true ->
  (f, state_value f (jget f payload)) ∈ written payload
  /\ forall v', (f, v') ∈ written payload -> v' = state_value f (jget f payload).
Proof.
  intros Hf Hb Hh. split.
  - unfold written. apply elem_of_app. left. apply list_elem_of_omap. exists f. by rewrite Hh.
  - assert (Hs : Forall (fun f => f <> "bars"%string -> f ∉ ["bars"; "storage_used"; "storage_cap"]%string /\ f ∉ IDENTITY_FIELDS) STATE_FIELDS)
      by decide_closed.
    destruct (proj1 (Forall_forall _ _) Hs f Hf Hb) as [H1 H2]. intros v' [(_ & _ & ->)|[[-> _]|[H|(H & _)]]]%written_cases; try done.
    exfalso. apply H1. by right.
Qed.

Lemma fields_apart : Forall (fun f => f ∉ STATE_FIELDS /\ f ∉ ["bars"; "storage_used"; "storage_cap"]%string) IDENTITY_FIELDS
  /\ Forall (fun f => f ∉ STATE_FIELDS) ["storage_used"; "storage_cap"]%string.
Proof. decide_closed. Qed.

Lemma state_unwritten payload f : f ∈ STATE_FIELDS -> jhas f payload = false -> f ∉ (written payload).*1.
Proof.
  intros Hf Hh ([g v] & -> & H)%list_elem_of_fmap. cbn [fst] in *.
  apply written_cases in H as [(_ & H & _)|[[-> H]|[H|(H & _)]]]; [congruence|congruence| |].
  - exact (proj1 (Forall_forall _ _) (proj2 fields_apart) g H Hf).
  - by destruct (proj1 (Forall_forall _ _) (proj1 fields_apart) g H).
Qed.

Lemma identity_unwritten payload f : f ∈ IDENTITY_FIELDS -> truthy (jget f payload) = false -> f ∉ (written payload).*1.
Proof.
  intros Hf Hh ([g v] & -> & H)%list_elem_of_fmap. cbn [fst] in *.
  destruct (proj1 (Forall_forall _ _) (proj1 fields_apart) g Hf) as [H1 H2].
  apply written_cases in H as [(H & _)|[[-> _]|[H|(_ & H)]]]; [done|by apply H2; left|by apply H2; right|congruence].
Qed.

(** *** Rows *)

Lemma find_row {A} (P : A -> Prop) `{forall x, Decision (P x)} (l : list A) x :
  List.find (fun x => bool_decide (P x)) l = Some x -> x ∈ l /\ P x.
Proof. intros [Hx E]%find_some. split; [by apply list_elem_of_In|by apply bool_decide_eq_true in E]. Qed.

Lemma find_row_None {A} (P : A -> Prop) `{forall x, Decision (P x)} (l : list A) x :
  List.find (fun x => bool_decide (P x)) l = None -> x ∈ l -> ~ P x.
Proof. intros E Hx. apply list_elem_of_In in Hx. apply (find_none _ _ E) in Hx. by apply bool_decide_eq_false in Hx. Qed.

(** Rewriting rows in place keeps what does not look at the changed fields. *)
Lemma map_fields {A B} (g : A -> B) (f : A -> A) (l : list A) : (forall x, g (f x) = g x) -> g <$> (f <$> l) = g <$> l.
Proof. intros Hf. rewrite <- list_fmap_compose. apply list_fmap_ext. intros i x _. apply Hf. Qed.

Lemma Forall_map_fields {A} (P : A -> Prop) (f : A -> A) (l : list A) : (forall x, P x -> P (f x)) -> Forall P l -> Forall P (f <$> l).
Proof. intros Hf H. apply Forall_fmap. eapply Forall_impl; [exact H|exact Hf]. Qed.

(** The device rows of a well-formed fleet rewritten in place. *)
Lemma devices_map_ok (f : device_row -> device_row) n t : fleet_ok t -> devices_seq t <= n ->
  (forall r, d_agent (f r) = d_agent r /\ d_name (f r) = d_name r /\ d_id (f r) = d_id r) ->
  (forall r i, r ∈ devices t -> d_sim (f r) = Some i -> i ∈ s_id <$> sims t) ->
  (forall r, row_ok r -> row_ok (f r)) ->
  fleet_ok (set_devices (f <$> devices t) n t).
Proof.
  intros [] Hn Hf Hs Hr. unfold set_devices. split; cbn [devices devices_seq sims sims_seq]; try done.
  - rewrite map_fields; [done|]. intros r. by destruct (Hf r) as (-> & -> & _).
  - rewrite map_fields; [done|]. intros r. by destruct (Hf r) as (_ & _ & ->).
  - apply Forall_map_fields; [intros r; by destruct (Hf r) as (_ & _ & ->)|].
    eapply Forall_impl; [exact ok_ids_le0|]. intros r Hr'. cbn in *. lia.
  - intros r i (r0 & -> & Hr0)%list_elem_of_fmap. by apply Hs.
  - by apply Forall_map_fields.
Qed.

(** A new row for a key that has none. *)
Lemma devices_new_ok agent name sim m now t : fleet_ok t -> find_device agent name t = None ->
  (forall n, sim = Some n -> n ∈ s_id <$> sims t) -> (forall f v, m !! str f = Some v -> column_ok f v) ->
  fleet_ok (set_devices (devices t ++ [mkDevice (devices_seq t + 1) agent name sim m now]) (devices_seq t + 1) t).
Proof.
  intros [] Hn Hs Hm. unfold set_devices. split; cbn [devices devices_seq sims sims_seq]; try done.
  - rewrite fmap_app. apply NoDup_app. split_and!; [done| |apply NoDup_singleton].
    intros k (r & -> & Hr)%list_elem_of_fmap [= E1 E2]%list_elem_of_singleton. by apply (find_row_None _ _ _ Hn Hr).
  - rewrite fmap_app. apply NoDup_app. split_and!; [done| |apply NoDup_singleton].
    intros k (r & -> & Hr)%list_elem_of_fmap E%list_elem_of_singleton. rewrite Forall_forall in ok_ids_le0.
    apply ok_ids_le0 in Hr. cbn in E. lia.
  - apply Forall_app. split; [|repeat constructor; cbn; lia]. eapply Forall_impl; [exact ok_ids_le0|]. intros r Hr. cbn in *. lia.
  - intros r n [Hr|Hr%list_elem_of_singleton]%elem_of_app E; [by eapply ok_cards0|]. subst r. by apply Hs.
  - apply Forall_app. split; [done|]. constructor; [exact Hm|constructor].
Qed.

Lemma sims_mono_ok l n t : fleet_ok t -> (forall i, i ∈ s_id <$> sims t -> i ∈ s_id <$> l) ->
  NoDup (s_iccid <$> l) -> NoDup (s_id <$> l) -> Forall (fun s => s_id s <= n) l -> fleet_ok (set_sims l n t).
Proof. intros [] Hl H1 H2 H3. unfold set_sims. split; cbn [devices devices_seq sims sims_seq]; try done. intros r i Hr E. by eapply Hl, ok_cards0. Qed.

Lemma upsert_sim_ok iccid operator smsc now t : fleet_ok t ->
  let '(sim, t') := upsert_sim iccid operator smsc now t in
  fleet_ok t' /\ devices t' = devices t /\ devices_seq t' = devices_seq t /\ agents t' = agents t
  /\ (forall i, i ∈ s_id <$> sims t -> i ∈ s_id <$> sims t')
  /\ match sim with
     | Some n => iccid <> [] /\ exists s, s ∈ sims t' /\ s_id s = n /\ s_iccid s = iccid
     | None => iccid = [] /\ t' = t
     end.
Proof.
  intros Hok. unfold upsert_sim. destruct iccid as [|c iccid]; [by split_and!|]. set (i := c :: iccid).
  destruct (find_sim i t) as [s|] eqn:E.
  - apply find_row in E as [Hs Ei]. set (f := fun s => if bool_decide (s_iccid s = i) then _ else s).
    assert (Hid : s_id <$> (f <$> sims t) = s_id <$> sims t) by (apply map_fields; intros x; unfold f; by case_bool_decide).
    assert (Hic : s_iccid <$> (f <$> sims t) = s_iccid <$> sims t) by (apply map_fields; intros x; unfold f; by case_bool_decide).
    pose proof Hok as Hok'; destruct Hok'. split_and!; try done.
    + apply sims_mono_ok; [done| |by rewrite Hic|by rewrite Hid|].
      * intros n. by rewrite Hid.
      * apply Forall_map_fields; [intros x; unfold f; by case_bool_decide|].
        eapply Forall_impl; [exact ok_sims_le0|]. intros x Hx. cbn in *. lia.
    + intros n. cbn [set_sims sims]. by rewrite Hid.
    + exists (f s). split; [by apply list_elem_of_fmap_2|]. unfold f. by rewrite bool_decide_eq_true_2.
  - pose proof Hok as Hok'; destruct Hok'. split_and!; try done.
    + apply sims_mono_ok; [done| | | |].
      * intros n Hn. rewrite fmap_app. apply elem_of_app. by left.
      * rewrite fmap_app. apply NoDup_app. split_and!; [done| |apply NoDup_singleton].
        intros x (s & -> & Hs)%list_elem_of_fmap Ex%list_elem_of_singleton. by apply (find_row_None _ _ _ E Hs).
      * rewrite fmap_app. apply NoDup_app. split_and!; [done| |apply NoDup_singleton].
        intros x (s & -> & Hs)%list_elem_of_fmap Ex%list_elem_of_singleton. rewrite Forall_forall in ok_sims_le0.
        apply ok_sims_le0 in Hs. cbn in Ex. lia.
      * apply Forall_app. split; [|repeat constructor; cbn; lia]. eapply Forall_impl; [exact ok_sims_le0|]. intros s Hs. cbn in *. lia.
    + intros n Hn. cbn [set_sims sims]. rewrite fmap_app. apply elem_of_app. by left.
    + eexists. split; [apply elem_of_app; right; apply list_elem_of_singleton; reflexivity|]. by split.
Qed.

Section Laws.
Context (text : json -> pystr).

Lemma upsert_device_ok agent payload now t : fleet_ok t -> fleet_ok (upsert_device text agent payload now t).2.
Proof.
  intros Hok. unfold upsert_device. destruct (card_of text payload) as [[[iccid operator] smsc]|e]; [|done].
  pose proof (upsert_sim_ok iccid operator smsc now t Hok) as H. destruct (upsert_sim _ _ _ _ _) as [sim t'].
  destruct H as (Hok' & _ & _ & _ & _ & Hsim). destruct (name ← _; _) as [[name cols]|e] eqn:E; [|done]. inv_ok.
  assert (Hn : forall n, sim = Some n -> n ∈ s_id <$> sims t').
  { intros n ->. destruct Hsim as (_ & s & Hs & <- & _). by apply list_elem_of_fmap_2. }
  destruct (find_device agent _ t') as [r|] eqn:Er; cbn [snd].
  - apply devices_map_ok; [done|lia|intros x; by case_bool_decide| |].
    + intros x n Hx. case_bool_decide; [|by apply (ok_cards _ Hok')]. cbn [d_sim]. destruct sim; [apply Hn|by apply (ok_cards _ Hok')].
    + intros x Hx. case_bool_decide; [|done]. intros f v. cbn [d_cols]. by eapply overlay_row_ok.
  - apply devices_new_ok; try done. intros f v. eapply overlay_row_ok; [done|]. intros g w. by rewrite lookup_empty.
Qed.

Lemma offline_row_ok r : row_ok r -> row_ok (offline_row r).
Proof.
  intros Hr f v. unfold offline_row. cbn [with_cols d_cols]. intros [[E <-]|[_ H]]%lookup_insert_Some; [|by apply Hr].
  apply str_inj in E as <-. split_and!; [done|done|intros _; right; by left|by left].
Qed.

Lemma offline_ok (p : device_row -> Prop) `{forall r, Decision (p r)} t : fleet_ok t ->
  fleet_ok (set_devices ((fun r => if bool_decide (p r) then offline_row r else r) <$> devices t) (devices_seq t) t).
Proof.
  intros Hok. apply devices_map_ok; [done|lia|intros r; by case_bool_decide| |].
  - intros r n Hr. case_bool_decide; exact (ok_cards _ Hok r n Hr).
  - intros r Hr. case_bool_decide; [by apply offline_row_ok|done].
Qed.

Lemma find_row_unique {A} (P : A -> Prop) `{forall x, Decision (P x)} (l : list A) x :
  (forall y z, y ∈ l -> z ∈ l -> P y -> P z -> y = z) -> x ∈ l -> P x -> List.find (fun x => bool_decide (P x)) l = Some x.
Proof.
  intros Hu Hx Px. destruct (List.find _ l) as [y|] eqn:E.
  - apply find_row in E as [Hy Py]. f_equal. by apply Hu.
  - by apply (find_row_None _ _ _ E) in Hx.
Qed.

Lemma find_device_ok agent name t r : fleet_ok t -> r ∈ devices t -> d_agent r = agent -> d_name r = name -> find_device agent name t = Some r.
Proof.
  intros Hok Hr Ea En. apply find_row_unique; [|done..]. intros y z Hy Hz [Ey1 Ey2] [Ez1 Ez2].
  eapply NoDup_fmap_eq; [apply (ok_keys _ Hok)|done..|]. cbn. congruence.
Qed.

(** The row of the module after an upsert, and the rows of the others. *)
Lemma upsert_device_row agent payload now t id t' : fleet_ok t -> upsert_device text agent payload now t = (Ok id, t') ->
  exists iccid operator smsc name cols,
    card_of text payload = Ok (iccid, operator, smsc) /\ bind_text text (jget_or "name" (JStr []) payload) = Ok name
    /\ bind_all (columns payload) = Ok cols
    /\ exists r', find_device agent name t' = Some r' /\ d_id r' = id
    /\ d_cols r' = overlay cols (from_option d_cols ∅ (find_device agent name t))
    /\ d_sim r' = match (upsert_sim iccid operator smsc now t).1 with Some n => Some n | None => find_device agent name t ≫= d_sim end
    /\ sims t' = sims (upsert_sim iccid operator smsc now t).2
    /\ (forall r, find_device agent name t = Some r -> d_id r = id)
    /\ (forall r, ~ (d_agent r = agent /\ d_name r = name) -> r ∈ devices t' <-> r ∈ devices t).
Proof.
  intros Hok E. pose proof (upsert_device_ok agent payload now t Hok) as Hok'. rewrite E in Hok'. unfold upsert_device in E.
  destruct (card_of text payload) as [[[iccid operator] smsc]|e]; [|done].
  pose proof (upsert_sim_ok iccid operator smsc now t Hok) as Hs. destruct (upsert_sim iccid operator smsc now t) as [sim t1] eqn:Es.
  destruct Hs as (_ & Hd & _). destruct (name ← _; _) as [[name cols]|e] eqn:En; [|done]. inv_ok.
  exists iccid, operator, smsc, name, cols. rewrite Es. split_and!; try done. cbn [fst snd].
  assert (Ef : find_device agent name t1 = find_device agent name t) by (unfold find_device; by rewrite Hd).
  rewrite Ef in E. destruct (find_device agent name t) as [r|] eqn:Er; injection E as <- <-.
  - pose proof (find_row _ _ _ Er) as [Hr [<- <-]].
    eexists. split; [apply find_device_ok; [exact Hok'|apply list_elem_of_fmap; exists r; split; [reflexivity|by rewrite Hd]| |]|];
      rewrite ?bool_decide_eq_true_2 by done; try done.
    split_and!; try done; [by destruct sim|by intros ? [= ->]|]. intros x Hx. cbn [set_devices devices]. rewrite Hd. split.
    + intros (y & -> & Hy)%list_elem_of_fmap. case_bool_decide as Hc; [by destruct Hx|done].
    + intros Hy. apply list_elem_of_fmap. exists x. by rewrite bool_decide_eq_false_2.
  - eexists. split; [apply find_device_ok; [exact Hok'|cbn [set_devices devices]; apply elem_of_app; right; by apply list_elem_of_singleton|done|done]|].
    split_and!; try done; [by destruct sim|]. intros x Hx. cbn [set_devices devices]. rewrite elem_of_app, list_elem_of_singleton, Hd.
    split; [intros [?| ->]; [done|by destruct Hx]|by left].
Qed.

(** A status frame updates exactly the row of its module, which
    keeps its id.  An identity field the frame leaves blank keeps its value (the
    module does not lose its IMEI), a state field it does not name keeps its
    value, one it names -- false, null or zero included -- is stored; the card
    is the one the frame names, or unchanged when it names none. *)
Theorem upsert_device_spec (agent : pystr) (payload : frame) (now : Z) (t : fleet) (id : Z) (t' : fleet) :
  fleet_ok t -> upsert_device text agent payload now t = (Ok id, t') ->
  exists name r', bind_text text (jget_or "name" (JStr []) payload) = Ok name
  /\ find_device agent name t' = Some r' /\ d_id r' = id
  /\ (forall r, find_device agent name t = Some r -> d_id r = id)
  /\ (forall r, ~ (d_agent r = agent /\ d_name r = name) -> r ∈ devices t' <-> r ∈ devices t)
  /\ let old f := find_device agent name t ≫= fun r => d_cols r !! str f in
     (forall f, f ∈ IDENTITY_FIELDS -> truthy (jget f payload) = false -> d_cols r' !! str f = old f)
  /\ (forall f, f ∈ STATE_FIELDS -> jhas f payload = false -> d_cols r' !! str f = old f)
  /\ (forall f, f ∈ STATE_FIELDS -> f <> "bars"%string -> jhas f payload = true ->
        exists w, bind (state_value f (jget f payload)) = Ok w /\ d_cols r' !! str f = Some w)
  /\ (truthy (jget "iccid" payload) = false -> d_sim r' = find_device agent name t ≫= d_sim)
  /\ (forall iccid, truthy (jget "iccid" payload) = true -> bind_text text (jget "iccid" payload) = Ok iccid -> iccid <> [] ->
        exists s, s ∈ sims t' /\ d_sim r' = Some (s_id s) /\ s_iccid s = iccid).
Proof.
  intros Hok E. destruct (upsert_device_row _ _ _ _ _ _ Hok E) as
    (iccid & operator & smsc & name & cols & Hcard & Hname & Hcols & r' & Hf & Hid & Hc & Hsim & Hsims & Hsame & Hothers).
  exists name, r'. split_and!; try done. cbn zeta.
  destruct (overlay_columns payload cols (from_option d_cols ∅ (find_device agent name t)) Hcols) as [Hun Hwr].
  assert (Hold : forall f, from_option d_cols ∅ (find_device agent name t) !! str f = find_device agent name t ≫= fun r => d_cols r !! str f).
  { intros f. by destruct (find_device agent name t). }
  rewrite Hc. unfold card_of in Hcard. split_and!.
  - intros f Hi Ht. rewrite Hun by by apply identity_unwritten. apply Hold.
  - intros f Hi Ht. rewrite Hun by by apply state_unwritten. apply Hold.
  - intros f Hi Hb Hh. destruct (state_written _ _ Hi Hb Hh) as [H1 H2]. by apply Hwr.
  - intros Ht. rewrite Ht in Hcard. injection Hcard as <- <- <-. exact Hsim.
  - intros i Ht Hi Hne. rewrite Ht, Hi in Hcard. cbn [mbind res_bind] in Hcard.
    assert (i = iccid) as <- by (apply bind_ok in Hcard as (? & _ & Hcard); apply bind_ok in Hcard as (? & _ & Hcard); by injection Hcard).
    pose proof (upsert_sim_ok i operator smsc now t Hok) as H. rewrite Hsims.
    destruct (upsert_sim i operator smsc now t) as [[n|] t1]; destruct H as (_ & _ & _ & _ & _ & H); cbn [fst snd] in *.
    + destruct H as (_ & s & Hs & <- & Es). by exists s.
    + by destruct H as [-> _].
Qed.
End Laws.

Section History.
Context (text : json -> pystr) (fromisoformat : pystr -> option Z).

(** What the server does to the tables over time. *)
Inductive op :=
| OpAgent (id version : pystr) (protocol : Z) (connected : bool) (stream : pystr)
| OpConnected (id : pystr) (connected : bool)
| OpStartup
| OpCard (iccid operator smsc : pystr)
| OpDevice (agent : pystr) (payload : frame)
| OpOffline (agent : pystr)
| OpStatus (device : Z) (payload : frame).

Definition run_op (t : fleet) (o : Z * op) : fleet :=
  let now := o.1 in
  match o.2 with
  | OpAgent id version protocol connected stream => default t (res_opt (upsert_agent id version protocol connected stream now t))
  | OpConnected id connected => set_agent_connected id connected now t
  | OpStartup => mark_all_agents_disconnected t
  | OpCard iccid operator smsc => (upsert_sim iccid operator smsc now t).2
  | OpDevice agent payload => (upsert_device text agent payload now t).2
  | OpOffline agent => set_devices_offline agent t
  | OpStatus device payload => default t (res_opt (record_status fromisoformat device payload now t))
  end.

Lemma agents_ok m t : fleet_ok t -> fleet_ok (set_agents m t).
Proof. by intros []. Qed.

Lemma run_op_ok t o : fleet_ok t -> fleet_ok (run_op t o).
Proof.
  intros Hok. destruct o as [now []]; cbn [run_op fst snd].
  - unfold upsert_agent. destruct (_ && _); [|done]. cbn. destruct (fits_int64 protocol); [|done]. by apply agents_ok.
  - by apply agents_ok.
  - unfold mark_all_agents_disconnected. pose proof (offline_ok (fun _ => True) _ (agents_ok
      ((fun r => mkAgent (a_version r) (a_protocol r) false (a_stream r) (a_seen r) (a_last_seq r)) <$> agents t) _ Hok)) as H.
    exact H.
  - pose proof (upsert_sim_ok iccid operator smsc now t Hok) as H. destruct (upsert_sim _ _ _ _ _). by destruct H.
  - by apply upsert_device_ok.
  - by apply offline_ok.
  - unfold record_status. destruct (to_utc_iso _ _ _); [|done]. cbn [mbind res_bind]. destruct (bind_values _); [|done]. by destruct Hok.
Qed.

(** C40 (type): whatever frames the agents send and in whatever order the server
    applies them -- with values of any type in any field -- every column of a
    module's row holds a value the table can store (never a list or an object,
    0 or 1 in the flags, NULL only where the schema allows it), keys and ids are unique,
    ids stay below the generator, and every module refers to an existing card. *)
Theorem tables_well_typed (ops : list (Z * op)) : fleet_ok (foldl run_op empty_fleet ops).
Proof. cut (forall t, fleet_ok t -> fleet_ok (foldl run_op t ops)); [intros H; apply H, empty_ok|]. induction ops as [|o ops IH]; intros t Hok; [done|]. apply IH, run_op_ok, Hok. Qed.
End History.

(** ** A module seen twice *)

Definition plain_text (v : json) : pystr := match v with JStr s => s | _ => str "0" end.
Definition hello_payload : frame :=
  [ (str "name", JStr (str "m1")); (str "imei", JStr (str "8600")); (str "iccid", JStr (str "8986")); (str "online", JBool true) ].
Definition status_payload : frame :=
  [ (str "name", JStr (str "m1")); (str "imei", JStr []); (str "online", JBool false); (str "voltage_mv", JNull) ].
Definition seen_once : fleet := (upsert_device plain_text (str "home") hello_payload 100 empty_fleet).2.
Definition seen_twice : fleet := (upsert_device plain_text (str "home") status_payload 160 seen_once).2.

Example sample_columns : (fun r => (d_id r, d_sim r, d_cols r !! str "imei", d_cols r !! str "online", d_cols r !! str "voltage_mv")) <$> devices seen_twice
  = [(1, Some 1, Some (JStr (str "8600")), Some (JInt 0), Some JNull)].
Proof. by vm_compute. Qed.

Lemma upsert_device_spec_witness :
  exists name r', bind_text plain_text (jget_or "name" (JStr []) status_payload) = Ok name
  /\ find_device (str "home") name seen_twice = Some r' /\ d_id r' = 1
  /\ (find_device (str "home") name seen_once ≫= fun r => d_cols r !! str "imei") = d_cols r' !! str "imei".
Proof.
  destruct (upsert_device_spec plain_text (str "home") status_payload 160 seen_once 1 seen_twice) as (name & r' & H1 & H2 & H3 & _ & _ & H4 & _).
  - apply upsert_device_ok, empty_ok.
  - by vm_compute.
  - exists name, r'. split_and!; try assumption. symmetry. apply H4; [|by vm_compute].
    unfold IDENTITY_FIELDS. do 5 right. left.
Defined.
End Fleet.
