(* ===== verification/PduClass.v ===== *)
(** * Data or text, from the PDU alone (server/src/hub_server/db.py)

    [_pdu_is_data], the server's own look at a stored inbound frame: it walks
    the octets without decoding the user data. *)

From S2P Require Import Prelude PyText Salvage Codec.

Module PduClass.

(** The walk over the header's elements; each takes two octets at least, so the
    header's length is enough fuel. *)
Fixpoint header_is_data (fuel : nat) (header : pybytes) (cursor : nat) : bool :=
  if (length header <=? cursor)%nat then false else
  match fuel with
  | O => false
  | S fuel =>
      if (length header <? cursor + 2)%nat then true
      else
        let element_end := (cursor + 2 + Z.to_nat (at_ header (cursor + 1)))%nat in
        if (length header <? element_end)%nat then true
        else if bool_decide (at_ header cursor ∈ [0x04; 0x05]) then true
        else header_is_data fuel header element_end
  end.

Definition uses_8bit (dcs : Z) : bool :=
  if Z.land dcs 0xC0 =? 0x00 then Z.land (Z.shiftr dcs 2) 0x03 =? 1
  else if Z.land dcs 0xF0 =? 0xF0 then negb (Z.land dcs 0x04 =? 0)
  else false.

(** From TP-PID on. *)
Definition tail_is_data (first : Z) (tail : pybytes) : bool :=
  let pid := at_ tail 0 in
  let dcs := at_ tail 1 in
  let udl := at_ tail 9 in
  let body := drop 10 tail in
  if uses_8bit dcs || ((udl =? 0) && (0xC0 <=? pid)) then true
  else if Z.land first 0x40 =? 0 then false
  else
    match body with
    | [] => true
    | udhl :: _ =>
        let header_end := (Z.to_nat udhl + 1)%nat in
        if (length body <? header_end)%nat then true
        else let header := slice 1 header_end body in header_is_data (length header) header 0
    end.

Definition pdu_is_data (raw_pdu : pystr) : bool :=
  match fromhex (clean_hex raw_pdu) with
  | None => false
  | Some data =>
      let tpdu := (1 + Z.to_nat (at_ data 0))%nat in
      if bool_decide (data = []) || (length data <=? tpdu)%nat then false
      else
        let first := at_ data tpdu in
        if negb (Z.land first 0x03 =? 0) then false
        else
          let pos := (tpdu + 1)%nat in
          if (length data <? pos + 2)%nat then false
          else
            let pos := (pos + 2 + Z.to_nat ((at_ data pos + 1) / 2))%nat in
            if (length data <? pos + 10)%nat then false
            else tail_is_data first (drop pos data)
  end.
End PduClass.
