(* ===== verification/Handlers.v ===== *)
(** * Applying events on the server (server/src/hub_server/gateway.py)

    The handler of each event kind ([Gateway._apply] and the [_apply_*]
    methods) over all the tables they write, and [_queue_notification], which
    records the push inside the same transaction.  A handler is a function of
    the database that returns the new one or the exception that makes
    [Database.apply_event] roll everything back (Ingest.v).  One handler reads
    the clock once; what [str], a TEXT and an INTEGER column make of a value of
    another type, [datetime.fromisoformat] and [float] of a text are arguments. *)

From S2P Require Import Prelude PyText PyDict Json Operations Ingest Delivery TaskSync Outbox Alerts Fleet PduClass.
From Stdlib Require Import Floats.SpecFloat.

Module Handlers.
Import Fleet.

(** ** The database *)

(** A stored row: its id, its card, its time and its other columns. *)
Record stored_row := mkStored { st_id : Z; st_sim : option Z; st_at : Z; st_cols : list (list Z * json) }.

(** What a task row says of its runs; the rest of the row is TaskSync.v's. *)
Record task_runs := mkTaskRuns { tk_name : pystr; tk_last : json; tk_next : json }.

Record database := mkDb {
  fleet : Fleet.fleet;
  incidents : Incidents.table;
  operations : list Operations.operation;
  delivery : Delivery.tables;
  messages : list stored_row; messages_seq : Z;
  calls : list stored_row; calls_seq : Z;
  agent_logs : list (list json);
  task_logs : list (list json);
  tasks : gmap Z task_runs;
  notify : Outbox.queue;
  syncs : gmap (list Z) TaskSync.agent_row }.

Definition set_fleet (x : Fleet.fleet) (d : database) : database :=
  mkDb x (incidents d) (operations d) (delivery d) (messages d) (messages_seq d) (calls d) (calls_seq d) (agent_logs d)
    (task_logs d) (tasks d) (notify d) (syncs d).
Definition set_incidents (x : Incidents.table) (d : database) : database :=
  mkDb (fleet d) x (operations d) (delivery d) (messages d) (messages_seq d) (calls d) (calls_seq d) (agent_logs d)
    (task_logs d) (tasks d) (notify d) (syncs d).
Definition set_operations (x : list Operations.operation) (d : database) : database :=
  mkDb (fleet d) (incidents d) x (delivery d) (messages d) (messages_seq d) (calls d) (calls_seq d) (agent_logs d)
    (task_logs d) (tasks d) (notify d) (syncs d).
Definition set_delivery (x : Delivery.tables) (d : database) : database :=
  mkDb (fleet d) (incidents d) (operations d) x (messages d) (messages_seq d) (calls d) (calls_seq d) (agent_logs d)
    (task_logs d) (tasks d) (notify d) (syncs d).
Definition set_messages (x : list stored_row) (n : Z) (d : database) : database :=
  mkDb (fleet d) (incidents d) (operations d) (delivery d) x n (calls d) (calls_seq d) (agent_logs d)
    (task_logs d) (tasks d) (notify d) (syncs d).
Definition set_calls (x : list stored_row) (n : Z) (d : database) : database :=
  mkDb (fleet d) (incidents d) (operations d) (delivery d) (messages d) (messages_seq d) x n (agent_logs d)
    (task_logs d) (tasks d) (notify d) (syncs d).
Definition set_agent_logs (x : list (list json)) (d : database) : database :=
  mkDb (fleet d) (incidents d) (operations d) (delivery d) (messages d) (messages_seq d) (calls d) (calls_seq d) x
    (task_logs d) (tasks d) (notify d) (syncs d).
Definition set_task_logs (x : list (list json)) (d : database) : database :=
  mkDb (fleet d) (incidents d) (operations d) (delivery d) (messages d) (messages_seq d) (calls d) (calls_seq d) (agent_logs d)
    x (tasks d) (notify d) (syncs d).
Definition set_tasks (x : gmap Z task_runs) (d : database) : database :=
  mkDb (fleet d) (incidents d) (operations d) (delivery d) (messages d) (messages_seq d) (calls d) (calls_seq d) (agent_logs d)
    (task_logs d) x (notify d) (syncs d).
Definition set_notify (x : Outbox.queue) (d : database) : database :=
  mkDb (fleet d) (incidents d) (operations d) (delivery d) (messages d) (messages_seq d) (calls d) (calls_seq d) (agent_logs d)
    (task_logs d) (tasks d) x (syncs d).
Definition set_syncs (x : gmap (list Z) TaskSync.agent_row) (d : database) : database :=
  mkDb (fleet d) (incidents d) (operations d) (delivery d) (messages d) (messages_seq d) (calls d) (calls_seq d) (agent_logs d)
    (task_logs d) (tasks d) (notify d) x.

(** ** Transactions *)

(** A part of a transaction: its result and the database, or an exception. *)
Definition tx (A : Type) : Type := database -> res exn (A * database).
Definition ret {A} (a : A) : tx A := fun d => Ok (a, d).
Definition bind_tx {A B} (m : tx A) (f : A -> tx B) : tx B :=
  fun d => match m d with Ok (a, d) => f a d | Err e => Err e end.
Definition raise {A} (e : exn) : tx A := fun _ => Err e.
Definition lift {A} (r : res exn A) : tx A := fun d => match r with Ok a => Ok (a, d) | Err e => Err e end.
Definition get {A} (f : database -> A) : tx A := fun d => Ok (f d, d).
Definition modify (f : database -> database) : tx unit := fun d => Ok (tt, f d).
Definition check (b : bool) (e : exn) : tx unit := if b then ret tt else raise e.

Notation "x <- m ;; k" := (bind_tx m (fun x => k)) (at level 62, m at next level, right associativity) : hub_scope.
Notation "m ;;; k" := (bind_tx m (fun _ => k)) (at level 62, right associativity) : hub_scope.

Section Apply.
Context (repr text : json -> pystr) (integer : json -> option Z).
Context (fromisoformat : pystr -> option Z) (float_text : pystr -> option spec_float).
(** The clock, in microseconds; [utcnow] is in whole seconds. *)
Context (clock : Z).

Definition now : Z := clock / 1000000.

(** ** Fields of a frame *)

(** [str(v)] *)
Definition py_str (v : json) : pystr := match v with JStr s => s | _ => repr v end.
(** [str(v or "")] *)
Definition str_or (v : json) : pystr := if truthy v then py_str v else [].
(** [v or None] *)
Definition or_none (v : json) : json := if truthy v then v else JNull.
(** [v or w] *)
Definition or_else (v w : json) : json := if truthy v then v else w.

(** The integer part of a finite float. *)
Definition truncate (s : bool) (m : positive) (e : Z) : Z :=
  let n := if 0 <=? e then Zpos m * 2 ^ e else Zpos m / 2 ^ (- e) in if s then - n else n.

(** [int(v)] *)
Definition py_int_of (v : json) : res exn Z :=
  match v with
  | JInt n => Ok n
  | JBool b => Ok (if b then 1 else 0)
  | JStr s => match py_int s with Some n => Ok n | None => Err ValueError end
  | JFloat (S754_finite s m e) => Ok (truncate s m e)
  | JFloat (S754_zero _) => Ok 0
  | JFloat (S754_infinity _) => Err OverflowError
  | JFloat S754_nan => Err ValueError
  | JNull | JArr _ | JObj _ => Err TypeError
  end.

(** [_optional_int]: it catches TypeError and ValueError. *)
Definition optional_int (v : json) : res exn (option Z) :=
  if is_null v then Ok None
  else match py_int_of v with
       | Ok n => Ok (Some n)
       | Err (TypeError | ValueError) => Ok None
       | Err e => Err e
       end.

(** [float(n)]: the nearest double, or OverflowError. *)
Definition float_of_int (n : Z) : res exn spec_float :=
  match binary_normalize 53 1024 n 0 false with
  | S754_infinity _ => Err OverflowError
  | f => Ok f
  end.

(** [_float_or_zero]: it catches TypeError and ValueError. *)
Definition float_or_zero (v : json) : res exn spec_float :=
  match v with
  | JInt n => float_of_int n
  | JBool b => float_of_int (if b then 1 else 0)
  | JFloat f => Ok f
  | JStr s => Ok (default (S754_zero false) (float_text s))
  | JNull | JArr _ | JObj _ => Ok (S754_zero false)
  end.

(** The columns of an INSERT: name, whether NOT NULL, value. *)
Fixpoint bind_row (l : list (string * bool * json)) : res exn (list (list Z * json)) :=
  match l with
  | [] => Ok []
  | (name, not_null, v) :: l =>
      v ← bind v;
      if is_null v && not_null then Err IntegrityError
      else l ← bind_row l; Ok ((str name, v) :: l)
  end.

(** ** Incidents *)

Definition open_incident (fingerprint : pystr) (kind severity : string) (source title detail : pystr) : tx unit :=
  check (forallb encodable [take 256 fingerprint; take 128 source; take 256 title; take 1000 detail]) UnicodeEncodeError ;;;
  modify (fun d => set_incidents (Incidents.open_incident fingerprint (str kind) (str severity) source title detail now (incidents d)) d).

Definition resolve_incident (fingerprint detail : pystr) : tx unit :=
  check (encodable (take 256 fingerprint) && encodable (take 1000 detail)) UnicodeEncodeError ;;;
  modify (fun d => set_incidents (Incidents.resolve_incident fingerprint detail now (incidents d)).2 d).

(** ** Messages *)

Definition upsert_card (iccid : json) : tx (option Z) :=
  if truthy iccid then
    i <- lift (bind_text text iccid) ;;
    r <- get (fun d => Fleet.upsert_sim i [] [] now (fleet d)) ;;
    modify (set_fleet r.2) ;;;
    ret r.1
  else ret None.

Definition insert_message (iccid ts : json) (cols : list (string * bool * json)) : tx Z :=
  sim <- upsert_card iccid ;;
  at_ <- lift (to_utc_iso fromisoformat ts now) ;;
  cols <- lift (bind_row cols) ;;
  id <- get (fun d => messages_seq d + 1) ;;
  modify (fun d => set_messages (messages d ++ [mkStored id sim at_ cols]) id d) ;;;
  ret id.

Definition apply_sms_in (agent : pystr) (f : frame) : tx Z :=
  segments <- lift (py_int_of (or_else (jget "segments" f) (JInt 1))) ;;
  dcs <- lift (optional_int (jget "dcs" f)) ;;
  let raw := or_none (jget "pdu" f) in
  data <- lift (if truthy (jget "binary" f) then Ok true
                else match raw with JNull => Ok false | JStr s => Ok (PduClass.pdu_is_data s) | _ => Err AttributeError end) ;;
  insert_message (or_else (jget_or "iccid" (JStr []) f) (JStr [])) (jget "ts" f)
    [ ("agent_id", true, JStr agent); ("device", true, jget_or "device" (JStr []) f); ("direction", true, JStr (str "in"));
      ("peer", true, jget_or "peer" (JStr []) f); ("body", true, jget_or "body" (JStr []) f);
      ("status", true, JStr (str "received")); ("segments", true, JInt segments); ("seq", false, jget "seq" f);
      ("error", false, JNull); ("raw_pdu", false, raw); ("dcs", false, match dcs with Some n => JInt n | None => JNull end);
      ("is_binary", true, JInt (if data then 1 else 0)); ("truncated", true, int_bool (jget "truncated" f));
      ("recovered_body", false, or_none (jget "recovered_text" f)); ("recovered_code", false, or_none (jget "code" f)) ]%string.

Fixpoint references (l : list json) : res exn (list Z) :=
  match l with
  | [] => Ok []
  | v :: l =>
      n ← optional_int v; l ← references l;
      Ok (match n with Some n => n :: l | None => l end)
  end.

(** [frame.get("refs") or []], iterated: a text by its characters, a dict by
    its keys. *)
Definition iterate (v : json) : res exn (list json) :=
  if negb (truthy v) then Ok []
  else match v with
       | JArr l => Ok l
       | JStr s => Ok ((fun c => JStr [c]) <$> s)
       | JObj d => Ok ((fun kv => JStr kv.1) <$> d)
       | _ => Err TypeError
       end.

(** [str(value or utcnow())], then [to_utc_iso]. *)
Definition instant (v : json) : Z := if truthy v then default now (fromisoformat (py_str v)) else now.

Definition sent_fingerprint (agent : pystr) (f : frame) : pystr :=
  str "sms-send:" ++ agent ++ str ":" ++ py_str (jget_or "device" (JStr []) f).
Definition module_source (agent : pystr) (f : frame) : pystr :=
  agent ++ str "/" ++ py_str (jget_or "device" (JStr []) f).

Definition apply_sms_out (agent : pystr) (f : frame) : tx unit :=
  raws <- lift (iterate (jget "refs" f)) ;;
  refs <- lift (references raws) ;;
  let status := if truthy (jget "status" f) then py_str (jget "status" f) else str "sent" in
  let stored := if bool_decide (status = str "sent") && negb (bool_decide (refs = [])) then str "pending" else status in
  id <- insert_message (or_else (jget_or "iccid" (JStr []) f) (JStr [])) (jget "ts" f)
    [ ("agent_id", true, JStr agent); ("device", true, jget_or "device" (JStr []) f); ("direction", true, JStr (str "out"));
      ("peer", true, jget_or "peer" (JStr []) f); ("body", true, jget_or "body" (JStr []) f);
      ("status", true, JStr stored);
      ("segments", true, JInt (match refs with [] => 1 | _ => Z.of_nat (length refs) end)); ("seq", false, jget "seq" f);
      ("error", false, jget "error" f); ("raw_pdu", false, JNull); ("dcs", false, JNull); ("is_binary", true, JInt 0);
      ("truncated", true, JInt 0); ("recovered_body", false, JNull); ("recovered_code", false, JNull) ]%string ;;
  (match refs with
   | [] => ret tt
   | _ =>
       check (forallb fits_int64 refs) OverflowError ;;;
       check (encodable (str_or (jget "device" f)) && encodable (str_or (jget "peer" f))) UnicodeEncodeError ;;;
       t <- get (fun d => let t := delivery d in
                   Delivery.attach_sms_segments id agent (str_or (jget "device" f)) (str_or (jget "peer" f)) refs
                     (instant (jget "ts" f)) clock
                     (Delivery.mkTables (Delivery.segments t)
                        (<[id := Delivery.mkMessage (Z.of_nat (length refs)) (Delivery.AOther stored) Delivery.NoError]> (Delivery.messages t)))) ;;
       match t with
       | Some t => modify (set_delivery t)
       | None => raise IntegrityError
       end
   end) ;;;
  if bool_decide (status = str "failed")
  then open_incident (sent_fingerprint agent f) "sms_send_failed" "warning" (module_source agent f) [0x77ED; 0x4FE1; 0x53D1; 0x9001; 0x5931; 0x8D25]
         (if truthy (jget "error" f) then py_str (jget "error" f) else [0x8FD0; 0x8425; 0x5546; 0x6216; 0x6A21; 0x5757; 0x672A; 0x8FD4; 0x56DE; 0x6210; 0x529F; 0x72B6; 0x6001])
  else if bool_decide (status = str "sent") || bool_decide (status = str "delivered")
  then resolve_incident (sent_fingerprint agent f) [0x77ED; 0x4FE1; 0x53D1; 0x9001; 0x5DF2; 0x6062; 0x590D]
  else ret tt.

Definition apply_sms_delivery (agent : pystr) (f : frame) : tx unit :=
  reference <- lift (optional_int (jget "reference" f)) ;;
  match reference with
  | None => ret tt
  | Some reference =>
      if negb ((0 <=? reference) && (reference <=? 255)) then ret tt
      else
        code <- lift (optional_int (jget "status_code" f)) ;;
        let code := match code with Some c => if (0 <=? c) && (c <=? 255) then Some c else None | None => None end in
        seq <- lift (optional_int (jget "seq" f)) ;;
        service <- lift (if truthy (jget "service_center_ts" f)
                         then t ← to_utc_iso fromisoformat (jget "service_center_ts" f) now; Ok (Some t) else Ok None) ;;
        _ <- lift (if truthy (jget "discharge_ts" f) then to_utc_iso fromisoformat (jget "discharge_ts" f) now else Ok 0) ;;
        _ <- lift (bind (or_none (jget "pdu" f))) ;;
        check (encodable agent && encodable (str_or (jget "device" f)) && encodable (str_or (jget "peer" f))) UnicodeEncodeError ;;;
        modify (fun d => set_delivery
          (Delivery.record_sms_delivery agent (str_or (jget "device" f)) reference (str_or (jget "peer" f)) code
             (Some (if truthy (jget "status" f) then py_str (jget "status" f) else str "pending")) service clock (delivery d)).2 d)
  end.

(** ** Status of a module *)

Definition VOLTAGE_CRITICAL_MV : Z := 3300.

Definition apply_supply_voltage (agent : pystr) (f : frame) : tx unit :=
  let device := str_or (jget "device" f) in
  voltage <- lift (optional_int (jget "voltage_mv" f)) ;;
  threshold <- lift (optional_int (jget "low_voltage_mv" f)) ;;
  match voltage, threshold with
  | Some v, Some t =>
      if t =? 0 then ret tt
      else
        let fingerprint := str "supply-voltage:" ++ agent ++ str ":" ++ device in
        if is_false (jget "online" f)
        then resolve_incident fingerprint [0x6A21; 0x5757; 0x5DF2; 0x79BB; 0x7EBF; 0xFF0C; 0x4F9B; 0x7535; 0x72B6; 0x6001; 0x7531; 0x6389; 0x7EBF; 0x4E8B; 0x4EF6; 0x8DDF; 0x8E2A]
        else if t <=? v
        then resolve_incident fingerprint (([0x4F9B; 0x7535; 0x5DF2; 0x6062; 0x590D; 0x81F3] ++ str " ") ++ decimal v ++ str " mV")
        else
          let critical := v <? VOLTAGE_CRITICAL_MV in
          open_incident fingerprint "device_supply_voltage" (if critical then "critical" else "warning")%string
            (agent ++ str "/" ++ device) (if critical then [0x6A21; 0x5757; 0x4F9B; 0x7535; 0x7535; 0x538B; 0x8FC7; 0x4F4E] else [0x6A21; 0x5757; 0x4F9B; 0x7535; 0x7535; 0x538B; 0x504F; 0x4F4E])
            (([0x5F53; 0x524D] ++ str " ") ++ decimal v ++ (str " mV" ++ [0xFF0C; 0x4F4E; 0x4E8E; 0x9608; 0x503C] ++ str " ") ++ decimal t ++ str " mV"
             ++ if critical then [0xFF1B; 0x5DF2; 0x4F4E; 0x4E8E; 0x6A21; 0x5757; 0x6807; 0x79F0; 0x4E0B; 0x9650; 0xFF0C; 0x53D1; 0x9001; 0x65F6; 0x53EF; 0x80FD; 0x6389; 0x7535; 0x91CD; 0x542F; 0xFF0C; 0x8868; 0x73B0; 0x4E3A; 0x968F; 0x673A; 0x6389; 0x7F51; 0x3002; 0x8BF7; 0x68C0; 0x67E5; 0x4F9B; 0x7535; 0x4E0E; 0x7EBF; 0x6750; 0x3002]
                else ([0x3002] ++ str "USB " ++ [0x7EBF; 0x6750; 0x6216; 0x4F9B; 0x7535; 0x53EF; 0x80FD; 0x4F9B; 0x6D41; 0x4E0D; 0x8DB3; 0xFF0C; 0x5EFA; 0x8BAE; 0x66F4; 0x6362; 0x3002]))
  | _, _ => ret tt
  end.

Definition upsert_module (agent : pystr) (payload : frame) : tx Z := fun d =>
  match Fleet.upsert_device text agent payload now (fleet d) with
  | (Ok id, t) => Ok (id, set_fleet t d)
  | (Err e, _) => Err e
  end.

Definition apply_status (agent : pystr) (f : frame) : tx (option (pystr * bool)) :=
  id <- upsert_module agent (dict_set (str "name") (jget_or "device" (JStr []) f) f) ;;
  t <- get fleet ;;
  t <- lift (Fleet.record_status fromisoformat id f now t) ;;
  modify (set_fleet t) ;;;
  let change := if jhas "online" f then Some (str_or (jget "device" f), truthy (jget "online" f)) else None in
  let registration := str "network-registration:" ++ agent ++ str ":" ++ py_str (jget_or "device" (JStr []) f) in
  (if jhas "registered" f || is_false (jget "online" f) then
     if is_false (jget "online" f) then
       resolve_incident registration [0x6A21; 0x5757; 0x5DF2; 0x79BB; 0x7EBF; 0xFF0C; 0x6CE8; 0x518C; 0x72B6; 0x6001; 0x7531; 0x6389; 0x7EBF; 0x4E8B; 0x4EF6; 0x8DDF; 0x8E2A] ;;;
       resolve_incident (sent_fingerprint agent f) [0x6A21; 0x5757; 0x5DF2; 0x79BB; 0x7EBF; 0xFF0C; 0x53D1; 0x9001; 0x72B6; 0x6001; 0x7531; 0x6389; 0x7EBF; 0x4E8B; 0x4EF6; 0x8DDF; 0x8E2A]
     else if is_false (jget "radio_enabled" f) then resolve_incident registration [0x5C04; 0x9891; 0x5DF2; 0x7531; 0x7BA1; 0x7406; 0x5458; 0x5173; 0x95ED]
     else if negb (truthy (jget "registered" f)) then
       open_incident registration "network_unregistered" "warning" (module_source agent f) [0x6A21; 0x5757; 0x672A; 0x6CE8; 0x518C; 0x5230; 0x79FB; 0x52A8; 0x7F51; 0x7EDC]
         [0x6A21; 0x5757; 0x5728; 0x7EBF; 0xFF0C; 0x4F46; 0x5F53; 0x524D; 0x672A; 0x6CE8; 0x518C; 0x5230; 0x8FD0; 0x8425; 0x5546; 0x7F51; 0x7EDC]
     else resolve_incident registration [0x79FB; 0x52A8; 0x7F51; 0x7EDC; 0x6CE8; 0x518C; 0x5DF2; 0x6062; 0x590D]
   else ret tt) ;;;
  apply_supply_voltage agent f ;;;
  ret change.

(** ** Calls, logs, tasks *)

Definition apply_call_event (agent : pystr) (f : frame) : tx Z :=
  ring <- lift (float_or_zero (jget "ring_seconds" f)) ;;
  seq <- lift (optional_int (jget "seq" f)) ;;
  sim <- upsert_card (JStr (str_or (jget "iccid" f))) ;;
  cols <- lift (bind_row
    [ ("agent_id", true, JStr agent); ("device", true, JStr (str_or (jget "device" f)));
      ("direction", true, JStr (if truthy (jget "direction" f) then py_str (jget "direction" f) else str "out"));
      ("peer", true, JStr (str_or (jget "peer" f))); ("outcome", true, JStr (str_or (jget "outcome" f)));
      ("reached_network", true, int_bool (jget "reached_network" f)); ("ring_seconds", true, JFloat ring);
      ("detail", true, JStr (str_or (jget "detail" f))); ("seq", false, match seq with Some n => JInt n | None => JNull end) ]%string) ;;
  id <- get (fun d => calls_seq d + 1) ;;
  modify (fun d => set_calls (calls d ++ [mkStored id sim (instant (jget "ts" f)) cols]) id d) ;;;
  ret id.

(** The columns of a log row: [ts] is stored as it comes. *)
Definition apply_device_recovery (agent : pystr) (f : frame) : tx unit :=
  let device := str_or (jget "device" f) in
  let action := str_or (jget "action" f) in
  let outcome := str_or (jget "outcome" f) in
  if bool_decide (device = []) || bool_decide (action = []) then ret tt
  else
    let fingerprint := str "device-recovery:" ++ agent ++ str ":" ++ device in
    if bool_decide (outcome = str "succeeded") || bool_decide (outcome = str "cancelled")
    then resolve_incident fingerprint (if bool_decide (outcome = str "succeeded") then [0x6A21; 0x5757; 0x81EA; 0x52A8; 0x6062; 0x590D; 0x6210; 0x529F] else [0x81EA; 0x52A8; 0x6062; 0x590D; 0x5DF2; 0x53D6; 0x6D88])
    else if negb (bool_decide (outcome = str "started") || bool_decide (outcome = str "exhausted")) then ret tt
    else
      attempt <- lift (optional_int (jget "attempt" f)) ;;
      let name := if bool_decide (action = str "serial_reconnect") then [0x4E32; 0x53E3; 0x91CD; 0x8FDE]
                  else if bool_decide (action = str "operator_reselect") then [0x81EA; 0x52A8; 0x9009; 0x62E9; 0x8FD0; 0x8425; 0x5546]
                  else if bool_decide (action = str "radio_cycle") then [0x5C04; 0x9891; 0x91CD; 0x542F]
                  else if bool_decide (action = str "module_reset") then [0x6A21; 0x5757; 0x91CD; 0x542F]
                  else if bool_decide (action = str "registration_recovery") then [0x7F51; 0x7EDC; 0x6CE8; 0x518C; 0x6062; 0x590D]
                  else if bool_decide (action = str "registration_watch") then [0x7F51; 0x7EDC; 0x6CE8; 0x518C; 0x76D1; 0x6D4B]
                  else action in
      let reason := str_or (jget "reason" f) in
      let exhausted := bool_decide (outcome = str "exhausted") in
      open_incident fingerprint "device_recovery" (if exhausted then "critical" else "warning")%string (agent ++ str "/" ++ device)
        (if exhausted then [0x8BBE; 0x5907; 0x81EA; 0x52A8; 0x6062; 0x590D; 0x5DF2; 0x8FBE; 0x5230; 0x9650; 0x9891; 0x4E0A; 0x9650] else [0x8BBE; 0x5907; 0x6B63; 0x5728; 0x81EA; 0x52A8; 0x6062; 0x590D])
        (py_join [0xFF1B] (name :: (match attempt with Some n => [([0x7B2C] ++ str " ") ++ decimal n ++ (str " " ++ [0x6B21; 0x6062; 0x590D; 0x52A8; 0x4F5C])] | None => [] end)
                        ++ (match reason with [] => [] | _ => [reason] end))).

Definition apply_log (agent : pystr) (f : frame) : tx unit :=
  row <- lift (bind_row
    [ ("agent_id", true, JStr agent); ("device", true, or_else (jget_or "device" (JStr []) f) (JStr []));
      ("level", true, jget_or "level" (JStr (str "info")) f); ("message", true, jget_or "message" (JStr []) f);
      ("ts", true, or_else (jget "ts" f) (JInt now)) ]%string) ;;
  modify (fun d => set_agent_logs (agent_logs d ++ [row.*2]) d) ;;;
  if jis "device_recovery" (jget "event" f) then apply_device_recovery agent f else ret tt.

(** The task a bound [task_id] refers to; the column is an INTEGER. *)
Definition task_key (v : json) : option Z := match v with JNull => None | JInt n => Some n | _ => integer v end.

(** [task_logs.task_id REFERENCES tasks(id)], with foreign keys on. *)
Definition references_task (v : json) (ts : gmap Z task_runs) : bool :=
  is_null v || match task_key v with Some n => bool_decide (is_Some (ts !! n)) | None => false end.

Definition apply_task_result (agent : pystr) (f : frame) : tx (option Z) :=
  attempts <- lift (py_int_of (or_else (jget "attempts" f) (JInt 1))) ;;
  row <- lift (bind_row
    [ ("task_id", false, jget "task_id" f); ("run_id", false, jget "run_id" f); ("ts", true, or_else (jget "ts" f) (JInt now));
      ("status", true, jget_or "status" (JStr (str "unknown")) f); ("attempts", true, JInt attempts);
      ("detail", true, or_else (jget_or "detail" (JStr []) f) (JStr [])); ("error", false, jget "error" f) ]%string) ;;
  let task := default JNull (snd <$> head row) in
  ts <- get tasks ;;
  check (references_task task ts) IntegrityError ;;;
  modify (fun d => set_task_logs (task_logs d ++ [row.*2]) d) ;;;
  match task_key task with
  | None => ret None
  | Some n =>
      let name := match ts !! n with Some t => tk_name t | None => [] end in
      let fingerprint := str "keepalive-task:" ++ py_str (jget "task_id" f) in
      let status := jget "status" f in
      (if jis "failed" status
       then open_incident fingerprint "task_failed" "warning"
              (match name with [] => ([0x4EFB; 0x52A1] ++ str " ") ++ py_str (jget "task_id" f) | _ => name end)
              ((match name with [] => ([0x4FDD; 0x53F7; 0x4EFB; 0x52A1] ++ str " ") ++ py_str (jget "task_id" f) | _ => name end) ++ (str " " ++ [0x6267; 0x884C; 0x5931; 0x8D25]))
              (let e := or_else (jget "error" f) (jget "detail" f) in if truthy e then py_str e else [0x6267; 0x884C; 0x5931; 0x8D25])
       else if jis "ok" status then resolve_incident fingerprint [0x4FDD; 0x53F7; 0x4EFB; 0x52A1; 0x6267; 0x884C; 0x5DF2; 0x6062; 0x590D]
       else ret tt) ;;;
      (if negb (jis "skipped" status) then
         last <- lift (bind (or_else (jget "ts" f) (JInt now))) ;;
         next <- lift (bind (jget "next_run_at" f)) ;;
         modify (fun d => set_tasks (alter (fun t => mkTaskRuns (tk_name t) last next) n (tasks d)) d)
       else if truthy (jget "next_run_at" f) then
         next <- lift (bind (jget "next_run_at" f)) ;;
         modify (fun d => set_tasks (alter (fun t => mkTaskRuns (tk_name t) (tk_last t) next) n (tasks d)) d)
       else ret tt) ;;;
      id <- lift (py_int_of (jget "task_id" f)) ;;
      ret (Some id)
  end.

(** ** Command results and task receipts *)

(** The module's identity as the tables now have it. *)
Definition device_imei (t : Fleet.fleet) (id : Z) : option pystr :=
  r ← List.find (fun r => d_id r =? id) (devices t);
  match d_cols r !! str "imei" with Some (JStr s) => Some s | Some v => Some (text v) | None => Some [] end.
Definition device_iccid (t : Fleet.fleet) (id : Z) : option pystr :=
  r ← List.find (fun r => d_id r =? id) (devices t);
  n ← d_sim r;
  s_iccid <$> List.find (fun s => s_id s =? n) (sims t).

Definition apply_cmd_result (agent stream : pystr) (f : frame) : tx unit :=
  modify (fun d => set_operations
    (Operations.apply_operation_result (device_imei (fleet d)) (device_iccid (fleet d)) agent stream f (operations d)) d).

Definition apply_tasks_applied (agent : pystr) (f : frame) : tx unit :=
  modify (fun d => set_syncs (alter (TaskSync.apply_tasks_applied f now) agent (syncs d)) d).

(** ** Dispatch *)

(** [AppliedEvent] *)
Record applied_event := mkApplied {
  message_id : option Z; task_id : option Z; call_id : option Z; device_change : option (pystr * bool); command_result : bool }.
Definition nothing : applied_event := mkApplied None None None None false.

Definition event_key (agent stream : pystr) (seq : Z) : pystr := agent ++ 124 :: stream ++ 124 :: decimal seq.
Definition notify_key (key : pystr) (kind : string) : option pystr :=
  match key with [] => None | _ => Some (key ++ str "|" ++ str kind) end.

Definition apply_kind (agent : pystr) (kind : pystr) (f : frame) (stream : pystr) : tx applied_event :=
  if bool_decide (kind = str "sms_in") then id <- apply_sms_in agent f ;; ret (mkApplied (Some id) None None None false)
  else if bool_decide (kind = str "sms_out") then apply_sms_out agent f ;;; ret nothing
  else if bool_decide (kind = str "sms_delivery") then apply_sms_delivery agent f ;;; ret nothing
  else if bool_decide (kind = str "status") then c <- apply_status agent f ;; ret (mkApplied None None None c false)
  else if bool_decide (kind = str "call_event") then id <- apply_call_event agent f ;; ret (mkApplied None None (Some id) None false)
  else if bool_decide (kind = str "log") then apply_log agent f ;;; ret nothing
  else if bool_decide (kind = str "task_result") then id <- apply_task_result agent f ;; ret (mkApplied None id None None false)
  else if bool_decide (kind = str "cmd_result") then apply_cmd_result agent stream f ;;; ret (mkApplied None None None None true)
  else if bool_decide (kind = str "tasks_applied") then apply_tasks_applied agent f ;;; ret nothing
  else ret nothing.

(** The frame is stored as JSON text; a lone surrogate in it cannot be encoded. *)
Fixpoint encodable_json (v : json) : bool :=
  match v with
  | JStr s => encodable s
  | JArr l => (fix all (l : list json) : bool := match l with [] => true | x :: l => encodable_json x && all l end) l
  | JObj d => (fix all (d : list (list Z * json)) : bool :=
                 match d with [] => true | (k, x) :: d => encodable k && encodable_json x && all d end) d
  | _ => true
  end.

Definition enqueue (kind : string) (ref : option Z) (f : frame) (key : pystr) : tx unit :=
  match ref with
  | None => ret tt
  | Some ref =>
      check (encodable_json (JObj f)) UnicodeEncodeError ;;;
      check (fits_int64 ref) OverflowError ;;;
      modify (fun d => set_notify (Outbox.enqueue_notification (str kind) (Some ref) f (notify_key key kind) [] [] now (notify d)).2 d)
  end.

Definition queue_notification (a : applied_event) (f : frame) (key : pystr) : tx unit :=
  enqueue "message" (message_id a) f key ;;;
  enqueue "task_result" (task_id a) f key ;;;
  enqueue "call" (call_id a) f key.

Definition apply (agent kind key stream : pystr) (f : frame) : tx applied_event :=
  a <- apply_kind agent kind f stream ;;
  queue_notification a f key ;;;
  ret a.
End Apply.

(** ** What a transaction leaves as it was *)

(** [spec m Q]: whenever [m] ends normally, [Q] relates the database before,
    its result and the database after. *)
Definition spec {A} (m : tx A) (Q : database -> A -> database -> Prop) : Prop := forall d a d', m d = Ok (a, d') -> Q d a d'.

Definition inbound (r : stored_row) : Prop := dict_get (str "direction") (st_cols r) = Some (JStr (str "in")).
#[export] Instance inbound_dec r : Decision (inbound r).
Proof.
  unfold inbound. destruct (dict_get _ _) as [[| | | |s| |]|]; try (right; by intros [=]).
  destruct (decide (s = str "in")) as [->|H]; [by left|right; by intros [= ?]].
Defined.

(** Intents by their kind, reference and key. *)
Definition intent_view (q : Outbox.queue) : list (pystr * option Z * option pystr) :=
  (fun i => (Outbox.n_kind i, Outbox.n_ref i, Outbox.n_event_key i)) <$> Outbox.outbox q.

(** The rows that owe a push, the intents, the generators of row numbers, and
    the tasks there are. *)
Record same_view (d d' : database) : Prop := {
  v_messages : filter inbound (messages d') = filter inbound (messages d);
  v_calls : calls d' = calls d;
  v_intents : intent_view (notify d') = intent_view (notify d);
  v_numbers : messages_seq d <= messages_seq d' /\ calls_seq d <= calls_seq d';
  v_tasks : forall n, is_Some (tasks d' !! n) <-> is_Some (tasks d !! n) }.

#[export] Instance same_view_refl : Reflexive same_view.
Proof. by split. Qed.
#[export] Instance same_view_trans : Transitive same_view.
Proof. intros d1 d2 d3 [] []. split; try congruence; [lia|]. intros n. by rewrite v_tasks1. Qed.

Definition quiet {A} (m : tx A) : Prop := spec m (fun d _ d' => same_view d d').

Lemma quiet_bind {A B} (m : tx A) (f : A -> tx B) : quiet m -> (forall a, quiet (f a)) -> quiet (bind_tx m f).
Proof.
  intros Hm Hf d b d' E. unfold bind_tx in E. destruct (m d) as [[a d1]|] eqn:Em; [|done]. etrans; [exact (Hm _ _ _ Em)|exact (Hf _ _ _ _ E)].
Qed.
Lemma quiet_ret {A} (a : A) : quiet (ret a).
Proof. intros d b d' [= _ <-]. done. Qed.
Lemma quiet_raise {A} e : quiet (raise (A := A) e).
Proof. by intros d b d' E. Qed.
Lemma quiet_lift {A} (r : res exn A) : quiet (lift r).
Proof. intros d a d' E. unfold lift in E. destruct r; [|done]. by injection E as _ <-. Qed.
Lemma quiet_get {A} (f : database -> A) : quiet (get f).
Proof. intros d a d' [= _ <-]. done. Qed.
Lemma quiet_check b e : quiet (check b e).
Proof. destruct b; [apply quiet_ret|apply quiet_raise]. Qed.
Lemma quiet_modify f : (forall d, same_view d (f d)) -> quiet (modify f).
Proof. intros Hf d a d' [= _ <-]. apply Hf. Qed.

Create HintDb quiet.
#[export] Hint Resolve quiet_ret quiet_raise quiet_lift quiet_get quiet_check : quiet.

(** Take a transaction apart. *)
Ltac quiet_step :=
  match goal with
  | |- quiet (bind_tx _ _) => apply quiet_bind; [|intros ?]
  | |- quiet (modify _) => apply quiet_modify; intros ?; split; [done..|cbn; lia|intros ?; cbn; by rewrite ?lookup_alter_is_Some]
  | |- quiet (if ?b then _ else _) => destruct b
  | |- quiet (match ?x with _ => _ end) => destruct x
  | |- quiet (let _ := _ in _) => cbv zeta
  | _ => solve [auto with quiet]
  end.
Ltac quiet_tac := repeat quiet_step.

Section Views.
Context (repr text : json -> pystr) (integer : json -> option Z).
Context (fromisoformat : pystr -> option Z) (float_text : pystr -> option spec_float) (clock : Z).

Lemma quiet_open fp k s src t x : quiet (open_incident clock fp k s src t x).
Proof. unfold open_incident. quiet_tac. Qed.
Lemma quiet_resolve fp x : quiet (resolve_incident clock fp x).
Proof. unfold resolve_incident. quiet_tac. Qed.
Lemma quiet_card iccid : quiet (upsert_card text clock iccid).
Proof. unfold upsert_card. quiet_tac. Qed.
Hint Resolve quiet_open quiet_resolve quiet_card : quiet.

Lemma quiet_delivery agent f : quiet (apply_sms_delivery repr fromisoformat clock agent f).
Proof. unfold apply_sms_delivery. quiet_tac. Qed.
Lemma quiet_module agent f : quiet (upsert_module text clock agent f).
Proof. intros d a d' E. unfold upsert_module in E. destruct (Fleet.upsert_device _ _ _ _ _) as [[id|e] t]; [|done]. by injection E as _ <-. Qed.
Hint Resolve quiet_module : quiet.
Lemma quiet_voltage agent f : quiet (apply_supply_voltage repr clock agent f).
Proof. unfold apply_supply_voltage. quiet_tac. Qed.
Hint Resolve quiet_voltage : quiet.
Lemma quiet_status agent f : quiet (apply_status repr text fromisoformat clock agent f).
Proof. unfold apply_status. quiet_tac. Qed.
Lemma quiet_recovery agent f : quiet (apply_device_recovery repr clock agent f).
Proof. unfold apply_device_recovery. quiet_tac. Qed.
Hint Resolve quiet_recovery : quiet.
Lemma quiet_log agent f : quiet (apply_log repr clock agent f).
Proof. unfold apply_log. quiet_tac. Qed.
Lemma quiet_result agent stream f : quiet (apply_cmd_result text agent stream f).
Proof. unfold apply_cmd_result. quiet_tac. Qed.
Lemma quiet_receipt agent f : quiet (apply_tasks_applied clock agent f).
Proof. unfold apply_tasks_applied. quiet_tac. Qed.

Lemma quiet_task_result agent f : quiet (apply_task_result repr integer clock agent f).
Proof. unfold apply_task_result. quiet_tac. Qed.

(** ** The events that owe a push *)

(** Numbers above [n], up to [n']. *)
Definition between (n n' : Z) (ids : list Z) : Prop := n <= n' /\ Forall (fun id => n < id <= n') ids.

(** [m] appends the rows [ms] (those inbound) and [cs], under new numbers, and
    keeps the rest. *)
Record appends (d d' : database) (ms cs : list Z) : Prop := {
  a_messages : exists rows, filter inbound (messages d') = filter inbound (messages d) ++ rows /\ st_id <$> rows = ms;
  a_calls : exists rows, calls d' = calls d ++ rows /\ st_id <$> rows = cs;
  a_intents : intent_view (notify d') = intent_view (notify d);
  a_numbers : between (messages_seq d) (messages_seq d') ms /\ between (calls_seq d) (calls_seq d') cs;
  a_tasks : forall n, is_Some (tasks d' !! n) <-> is_Some (tasks d !! n) }.

Lemma same_appends d d' : same_view d d' -> appends d d' [] [].
Proof.
  intros [? ? ? [] ?]. split; [exists []; by rewrite app_nil_r|exists []; by rewrite app_nil_r|done| |done]. split; by split.
Qed.

Lemma bind_row_direction l cols : bind_row l = Ok cols ->
  forall v nn, List.find (fun c => String.eqb c.1.1 "direction") l = Some ("direction"%string, nn, JStr v) -> encodable v = true ->
  dict_get (str "direction") cols = Some (JStr v).
Proof.
  revert cols. induction l as [|[[name nn] w] l IH]; intros cols E v nn' Hf He; [done|]. cbn [List.find fst snd] in Hf.
  cbn [bind_row] in E. destruct (String.eqb_spec name "direction") as [->|Hn].
  - injection Hf as -> ->. unfold encodable in He. apply negb_true_iff in He. unfold bind in E. rewrite He in E. cbn in E. inv_ok. done.
  - apply bind_ok in E as (w' & _ & E). destruct (is_null w' && nn); [done|]. apply bind_ok in E as (l' & El & [= <-]).
    cbn [dict_get]. rewrite decide_False by (intros Hs; by apply str_inj in Hs). by eapply IH.
Qed.

Lemma insert_message_spec iccid ts cols : spec (insert_message text fromisoformat clock iccid ts cols)
  (fun d id d' => exists r, st_id r = id /\ bind_row cols = Ok (st_cols r)
     /\ filter inbound (messages d') = filter inbound (messages d) ++ filter inbound [r]
     /\ calls d' = calls d /\ intent_view (notify d') = intent_view (notify d)
     /\ messages_seq d < id <= messages_seq d' /\ calls_seq d <= calls_seq d'
     /\ (forall n, is_Some (tasks d' !! n) <-> is_Some (tasks d !! n))).
Proof.
  intros d id d' E. unfold insert_message, bind_tx, lift, get, modify, ret in E.
  destruct (upsert_card _ _ _ d) as [[sim d1]|] eqn:Ec; [|done]. apply quiet_card in Ec as [Hm Hc Hi [Hn Hn'] Ht].
  destruct (to_utc_iso _ _ _) as [at_|]; [|done]. destruct (bind_row cols) as [cs|] eqn:Eb; [|done]. injection E as <- <-.
  exists (mkStored (messages_seq d1 + 1) sim at_ cs). split; [reflexivity|]. split; [reflexivity|]. cbn [set_messages messages calls notify tasks]. rewrite filter_app, Hm. split_and!; try done; cbn; lia.
Qed.

Lemma sms_in_appends agent f : spec (apply_sms_in text fromisoformat clock agent f) (fun d id d' => appends d d' [id] []).
Proof.
  intros d id d' E. unfold apply_sms_in in E. unfold bind_tx, lift in E.
  destruct (py_int_of _); [|done]. destruct (optional_int _); [|done]. destruct (if truthy _ then _ else _); [|done].
  apply insert_message_spec in E as (r & <- & Eb & Hm & Hc & Hi & Hn & Hn' & Ht).
  assert (Hin : inbound r) by (by eapply bind_row_direction).
  rewrite filter_cons_True, filter_nil in Hm by done. split; [by exists [r]|exists []; by rewrite app_nil_r|done| |done].
  split; split; [lia|by apply Forall_singleton|done|constructor].
Qed.

Lemma sms_out_appends agent f : spec (apply_sms_out repr text fromisoformat clock agent f) (fun d _ d' => appends d d' [] []).
Proof.
  intros d [] d' E. unfold apply_sms_out in E. unfold bind_tx at 1 2 3, lift in E.
  destruct (iterate _) as [raws|]; [|done]. destruct (references raws) as [refs|]; [|done].
  destruct (insert_message _ _ _ _ _ _ d) as [[id d1]|] eqn:Em; [|done].
  apply insert_message_spec in Em as (r & _ & Eb & Hm & Hc & Hi & Hn & Hn' & Ht).
  assert (Hout : ~ inbound r). { unfold inbound. rewrite (bind_row_direction _ _ Eb (str "out") true); [|reflexivity|reflexivity]. intros [= E']. }
  rewrite filter_cons_False, filter_nil, app_nil_r in Hm by done. apply same_appends. etrans; [split; [exact Hm|done|done|lia|done]|].
  match type of E with ?m d1 = _ => assert (Hq : quiet m) by quiet_tac end. exact (Hq _ _ _ E).
Qed.

Lemma call_appends agent f : spec (apply_call_event repr text fromisoformat float_text clock agent f) (fun d id d' => appends d d' [] [id]).
Proof.
  intros d id d' E. unfold apply_call_event in E. unfold bind_tx, lift, get, modify, ret in E.
  destruct (float_or_zero _ _); [|done]. destruct (optional_int _); [|done].
  destruct (upsert_card _ _ _ d) as [[sim d1]|] eqn:Ec; [|done]. apply quiet_card in Ec as [Hm Hc Hi [Hn Hn'] Ht].
  destruct (bind_row _) as [cs|]; [|done]. injection E as <- <-. split; cbn [set_calls messages calls notify tasks messages_seq calls_seq].
  - exists []. by rewrite app_nil_r.
  - exists [mkStored (calls_seq d1 + 1) sim (instant repr fromisoformat clock (jget "ts" f)) cs]. by rewrite Hc.
  - done.
  - split; split; [done|constructor|lia|apply Forall_singleton; lia].
  - done.
Qed.

(** The rows an event adds are those its pushes are about. *)
Lemma kind_appends agent kind f stream : spec (apply_kind repr text integer fromisoformat float_text clock agent kind f stream)
  (fun d a d' => appends d d' (option_list (message_id a)) (option_list (call_id a))).
Proof.
  intros d a d' E. unfold apply_kind in E.
  repeat match type of E with (if ?b then _ else _) _ = _ => destruct b end;
    try (unfold bind_tx, ret in E; match type of E with match ?x with _ => _ end = _ => destruct x as [[x' d1]|] eqn:Ex; [|done] end;
         injection E as <- <-).
  - exact (sms_in_appends _ _ _ _ _ Ex).
  - exact (sms_out_appends _ _ _ _ _ Ex).
  - exact (same_appends _ _ (quiet_delivery _ _ _ _ _ Ex)).
  - exact (same_appends _ _ (quiet_status _ _ _ _ _ Ex)).
  - exact (call_appends _ _ _ _ _ Ex).
  - exact (same_appends _ _ (quiet_log _ _ _ _ _ Ex)).
  - exact (same_appends _ _ (quiet_task_result _ _ _ _ _ Ex)).
  - exact (same_appends _ _ (quiet_result _ _ _ _ _ _ Ex)).
  - exact (same_appends _ _ (quiet_receipt _ _ _ _ _ Ex)).
  - injection E as <- <-. by apply same_appends.
Qed.

(** *** The intents *)

Definition fresh_key (d : database) (k : pystr) : Prop := forall v, v ∈ intent_view (notify d) -> v.2 <> Some k.

Definition owes (kind : string) (ref : option Z) (key : pystr) : list (pystr * option Z * option pystr) :=
  option_list ((fun i => (str kind, Some i, Some (key ++ str "|" ++ str kind))) <$> ref).

(** [d'] is [d] with [intents] queued. *)
Record queues (d d' : database) (intents : list (pystr * option Z * option pystr)) : Prop := {
  q_messages : messages d' = messages d;
  q_calls : calls d' = calls d;
  q_intents : intent_view (notify d') = intent_view (notify d) ++ intents;
  q_numbers : messages_seq d' = messages_seq d /\ calls_seq d' = calls_seq d;
  q_tasks : tasks d' = tasks d }.

Lemma enqueue_spec kind ref f key d d' : enqueue clock kind ref f key d = Ok (tt, d') -> key <> [] ->
  fresh_key d (key ++ str "|" ++ str kind) -> queues d d' (owes kind ref key).
Proof.
  intros E Hk Hf. unfold enqueue in E. destruct ref as [r|]; [|injection E as <-; split; try done; by rewrite app_nil_r].
  unfold bind_tx, check, modify in E. destruct (encodable_json _); [|done]. cbn in E. destruct (fits_int64 r); [|done]. cbn in E.
  injection E as <-. split; cbn [set_notify messages calls notify tasks]; try done.
  unfold Outbox.enqueue_notification, notify_key. destruct key as [|c key]; [done|].
  rewrite (proj2 (andb_false_iff _ _)); [unfold intent_view; cbn [snd Outbox.outbox]; by rewrite fmap_app|].
  right. apply not_true_iff_false. intros (i & Hi%list_elem_of_In & Ei%bool_decide_eq_true)%existsb_exists.
  apply (Hf (Outbox.n_kind i, Outbox.n_ref i, Outbox.n_event_key i)); [|done].
  apply list_elem_of_fmap. by exists i.
Qed.

Lemma fresh_queues d d' l k : fresh_key d k -> queues d d' l -> (forall v, v ∈ l -> v.2 <> Some k) -> fresh_key d' k.
Proof. intros Hf [_ _ Hi _ _] Hl v Hv. rewrite Hi in Hv. apply elem_of_app in Hv as [Hv|Hv]; [by apply Hf|by apply Hl]. Qed.

Lemma owes_key kind ref key kind' v : str kind <> str kind' -> v ∈ owes kind ref key -> v.2 <> Some (key ++ str "|" ++ str kind').
Proof.
  intros Hne Hv. unfold owes in Hv. destruct ref as [r|]; [|by apply elem_of_nil in Hv].
  apply list_elem_of_singleton in Hv as ->. cbn [snd]. intros [= E]. apply app_inv_head in E. by injection E.
Qed.

Definition KINDS : list string := ["message"; "task_result"; "call"]%string.

Lemma queue_spec a f key d d' : queue_notification clock a f key d = Ok (tt, d') -> key <> [] ->
  (forall kind, kind ∈ KINDS -> fresh_key d (key ++ str "|" ++ str kind)) ->
  queues d d' (owes "message" (message_id a) key ++ owes "task_result" (task_id a) key ++ owes "call" (call_id a) key).
Proof.
  intros E Hk Hf. unfold queue_notification, bind_tx in E.
  destruct (enqueue clock "message" _ _ _ d) as [[[] d1]|] eqn:E1; [|done].
  destruct (enqueue clock "task_result" _ _ _ d1) as [[[] d2]|] eqn:E2; [|done].
  pose proof (enqueue_spec _ _ _ _ _ _ E1 Hk (Hf "message"%string ltac:(left))) as Q1.
  assert (F1 : forall kind, kind ∈ KINDS -> str "message" <> str kind -> fresh_key d1 (key ++ str "|" ++ str kind)).
  { intros kind Hin Hne. eapply fresh_queues; [by apply Hf|exact Q1|]. intros v. by apply owes_key. }
  pose proof (enqueue_spec _ _ _ _ _ _ E2 Hk (F1 "task_result"%string ltac:(right; left) ltac:(done))) as Q2.
  assert (F2 : fresh_key d2 (key ++ str "|" ++ str "call")).
  { eapply fresh_queues; [apply (F1 "call"%string); [right; right; left|done]|exact Q2|]. intros v. by apply owes_key. }
  pose proof (enqueue_spec _ _ _ _ _ _ E Hk F2) as Q3. destruct Q1 as [M1 C1 I1 [N1 N1'] T1], Q2 as [M2 C2 I2 [N2 N2'] T2], Q3 as [M3 C3 I3 [N3 N3'] T3].
  split; [congruence..| |split; congruence|congruence]. by rewrite I3, I2, I1, <- !app_assoc.
Qed.

(** What one fresh event does. *)
Lemma apply_spec agent kind key stream f d a d' :
  apply repr text integer fromisoformat float_text clock agent kind key stream f d = Ok (a, d') -> key <> [] ->
  (forall kind, kind ∈ KINDS -> fresh_key d (key ++ str "|" ++ str kind)) ->
  (exists rows, filter inbound (messages d') = filter inbound (messages d) ++ rows /\ st_id <$> rows = option_list (message_id a))
  /\ (exists rows, calls d' = calls d ++ rows /\ st_id <$> rows = option_list (call_id a))
  /\ intent_view (notify d') = intent_view (notify d)
       ++ owes "message" (message_id a) key ++ owes "task_result" (task_id a) key ++ owes "call" (call_id a) key
  /\ between (messages_seq d) (messages_seq d') (option_list (message_id a))
  /\ between (calls_seq d) (calls_seq d') (option_list (call_id a))
  /\ (forall n, is_Some (tasks d' !! n) <-> is_Some (tasks d !! n)).
Proof.
  intros E Hk Hf. unfold apply, bind_tx in E. destruct (apply_kind _ _ _ _ _ _ _ _ _ _ d) as [[x d1]|] eqn:E1; [|done].
  destruct (queue_notification _ _ _ _ d1) as [[[] d2]|] eqn:E2; [|done]. injection E as <- <-.
  apply kind_appends in E1 as [Hm Hc Hi [Hn Hn'] Ht]. apply queue_spec in E2 as [Qm Qc Qi [Qn Qn'] Qt]; [|done|].
  - split; [by rewrite Qm|]. split; [by rewrite Qc|]. split; [by rewrite Qi, Hi|]. rewrite Qn, Qn'. split_and!; [done..|]. intros n. by rewrite Qt.
  - intros kind' Hin v Hv. rewrite Hi in Hv. by apply Hf.
Qed.
End Views.

(** ** Every stored event owes its push, once *)

Section Owed.
Context (repr text : json -> pystr) (integer : json -> option Z).
Context (fromisoformat : pystr -> option Z) (float_text : pystr -> option spec_float).

Abbreviation server := (Ingest.database database) (only parsing).

(** An event that a ready connection sends is committed.  The stream's name
    has no bar: an agent's is the digits of a UUID. *)
Definition commits (s s' : server) : Prop := exists clock agent stream kind f x ready_after,
  124 ∉ stream /\
  let key := event_key agent stream (default 0 (as_int (jget "seq" f))) in
  let r := Ingest.ingest true ready_after agent stream
             (fun f d => apply repr text integer fromisoformat float_text clock agent kind key stream f d) f s in
  r = Ingest.Acked (default 0 (as_int (jget "seq" f))) x s' \/ r = Ingest.CommittedSilently s'.

Definition inbound_ids (s : server) : list Z := st_id <$> filter inbound (messages (Ingest.business s)).
Definition call_ids (s : server) : list Z := st_id <$> calls (Ingest.business s).
Definition intents (kind : string) (s : server) : list (option Z) :=
  (fun v => v.1.2) <$> filter (fun v => v.1.1 = str kind) (intent_view (notify (Ingest.business s))).

(** What a step put at the end of a list. *)
Definition gained {A} (l : server -> list A) (s s' : server) : list A := drop (length (l s)) (l s').

(** What the other parts of the program do to these tables: retention deletes
    messages, readers, cards and the queue's worker change columns, the API
    inserts outbound messages; a row's number is never used again
    (AUTOINCREMENT).  Calls and intents are in fact never deleted. *)
Definition elsewhere (s s' : server) : Prop :=
  Ingest.ingested s' = Ingest.ingested s
  /\ inbound_ids s' `sublist_of` inbound_ids s /\ call_ids s' `sublist_of` call_ids s
  /\ intent_view (notify (Ingest.business s')) `sublist_of` intent_view (notify (Ingest.business s))
  /\ messages_seq (Ingest.business s) <= messages_seq (Ingest.business s')
  /\ calls_seq (Ingest.business s) <= calls_seq (Ingest.business s').

(** The annals of a database that starts without such rows, with all that
    events ever put into each table: the inbound messages, the intents about
    messages, the calls, the intents about calls. *)
Inductive annals : server -> list Z -> list (option Z) -> list Z -> list (option Z) -> Prop :=
| annals_start d : inbound_ids (Ingest.mkDatabase ∅ ∅ d) = [] -> calls d = [] -> Outbox.outbox (notify d) = [] ->
    annals (Ingest.mkDatabase ∅ ∅ d) [] [] [] []
| annals_event s s' ms mi cs ci : annals s ms mi cs ci -> commits s s' ->
    annals s' (ms ++ gained inbound_ids s s') (mi ++ gained (intents "message") s s')
      (cs ++ gained call_ids s s') (ci ++ gained (intents "call") s s')
| annals_other s s' ms mi cs ci : annals s ms mi cs ci -> elsewhere s s' -> annals s' ms mi cs ci.

(** Keys of intents are keys of events already applied. *)
Definition known_key (s : server) (k : pystr) : Prop :=
  exists agent stream seq kind, (agent, stream, seq) ∈ Ingest.ingested s /\ 124 ∉ stream
  /\ kind ∈ KINDS /\ k = event_key agent stream seq ++ str "|" ++ str kind.

Definition keys_known (s : server) : Prop :=
  forall v k, v ∈ intent_view (notify (Ingest.business s)) -> v.2 = Some k -> known_key s k.

Lemma KINDS_plain kind : kind ∈ KINDS -> 124 ∉ str kind.
Proof. assert (H : Forall (fun kind => 124 ∉ str kind) KINDS) by decide_closed. exact (proj1 (Forall_forall _ _) H kind). Qed.

Lemma decimal_plain n : 124 ∉ decimal n.
Proof. intros H. pose proof (proj1 (Forall_forall _ _) (decimal_chars n) 124 H) as [?|?]; lia. Qed.

Lemma event_key_inj a st n kind a' st' n' kind' : 124 ∉ st -> 124 ∉ st' -> kind ∈ KINDS -> kind' ∈ KINDS ->
  event_key a st n ++ str "|" ++ str kind = event_key a' st' n' ++ str "|" ++ str kind' -> (a, st, n) = (a', st', n').
Proof.
  intros Hs Hs' Hk Hk' E. apply split_last_inj in E as [E _]; [|by apply KINDS_plain..]. unfold event_key in E.
  rewrite !app_comm_cons, !app_assoc in E. apply split_last_inj in E as [E En]; [|apply decimal_plain..].
  apply decimal_inj in En as ->. by apply split_last_inj in E as [-> ->].
Qed.

Lemma event_key_nonempty a st n : event_key a st n <> [].
Proof. unfold event_key. by destruct a. Qed.

(** A committed event was applied, or had been before. *)
Lemma ingest_committed ra agent stream (ap : frame -> database -> res exn (applied_event * database)) f x s s' :
  let seq := default 0 (as_int (jget "seq" f)) in
  let r := Ingest.ingest true ra agent stream ap f s in
  r = Ingest.Acked seq x s' \/ r = Ingest.CommittedSilently s' ->
  (Ingest.business s' = Ingest.business s /\ Ingest.ingested s' = Ingest.ingested s)
  \/ exists a d', (agent, stream, seq) ∉ Ingest.ingested s /\ ap f (Ingest.business s) = Ok (a, d')
     /\ Ingest.business s' = d' /\ Ingest.ingested s' = {[ (agent, stream, seq) ]} ∪ Ingest.ingested s.
Proof.
  cbn zeta. unfold Ingest.ingest. cbn [negb]. destruct (Ingest.valid_seq _); cbn [negb]; [|by intros [?|?]].
  unfold Ingest.apply_event. case_bool_decide as Hin.
  - intros [E|E]; destruct ra; inversion E; subst; by left.
  - destruct (ap f (Ingest.business s)) as [[a d']|e] eqn:Ea; cbn [mbind res_bind].
    + intros [E|E]; destruct ra; inversion E; subst; right; by exists a, d'.
    + by intros [?|?].
Qed.

Lemma known_mono s s' k : Ingest.ingested s ⊆ Ingest.ingested s' -> known_key s k -> known_key s' k.
Proof. intros Hs (a & st & n & kind & Hin & ?). exists a, st, n, kind. split; [by apply Hs|done]. Qed.

Lemma owes_filter kind kind' ref key : filter (fun v => v.1.1 = str kind') (owes kind ref key) = if decide (str kind = str kind') then owes kind ref key else [].
Proof.
  unfold owes. destruct ref as [r|]; cbn [option_list fmap option_fmap option_map]; [|by destruct (decide _)].
  destruct (decide _); [by rewrite filter_cons_True|by rewrite filter_cons_False].
Qed.

Lemma owes_refs kind ref key : (fun v => v.1.2) <$> owes kind ref key = Some <$> option_list ref.
Proof. by destruct ref. Qed.

(** A commit appends rows under new numbers, and the intents about them. *)
Lemma commit_spec s s' : keys_known s -> commits s s' -> keys_known s' /\ exists ms cs,
  inbound_ids s' = inbound_ids s ++ ms /\ intents "message" s' = intents "message" s ++ (Some <$> ms)
  /\ call_ids s' = call_ids s ++ cs /\ intents "call" s' = intents "call" s ++ (Some <$> cs)
  /\ between (messages_seq (Ingest.business s)) (messages_seq (Ingest.business s')) ms
  /\ between (calls_seq (Ingest.business s)) (calls_seq (Ingest.business s')) cs /\ (length ms <= 1)%nat /\ (length cs <= 1)%nat.
Proof.
  intros Hk (clock & agent & stream & kind & f & x & ra & Hst & H). unfold inbound_ids, call_ids, intents.
  apply ingest_committed in H as [[Eb Ei]|(a & d' & Hn & Ea & Eb & Ei)].
  { split; [intros v k; rewrite Eb; intros Hv Ev; apply (known_mono s); [by rewrite Ei|exact (Hk v k Hv Ev)]|].
    exists [], []. rewrite Eb, !app_nil_r. split_and!; try done; try (cbn; lia); split; first [done|constructor]. }
  apply apply_spec in Ea as ((rows & Em & Er) & (rows' & Em' & Er') & Ev & Nm & Nc & _); [|apply event_key_nonempty|].
  - split.
    + intros v k Hv Evk. rewrite Eb, Ev in Hv. apply elem_of_app in Hv as [Hv|Hv].
      { eapply known_mono; [|by eapply Hk]. rewrite Ei. set_solver. }
      assert (Hnew : forall kd ref, kd ∈ KINDS -> v ∈ owes kd ref (event_key agent stream (default 0 (as_int (jget "seq" f)))) -> known_key s' k).
      { intros kd ref Hkd Ho. destruct ref as [r|]; [|by apply elem_of_nil in Ho]. apply list_elem_of_singleton in Ho as ->.
        injection Evk as <-. eexists agent, stream, _, kd. rewrite Ei. split_and!; try done. set_solver. }
      rewrite !elem_of_app in Hv. destruct Hv as [Hv|[Hv|Hv]]; (eapply Hnew; [|exact Hv]); unfold KINDS; set_solver.
    + exists (option_list (message_id a)), (option_list (call_id a)). rewrite Eb, Ev, !filter_app, !owes_filter, Em, Em', !fmap_app, Er, Er'.
      rewrite (decide_True (P := str "message" = str "message")), (decide_True (P := str "call" = str "call")), !decide_False by done.
      rewrite !fmap_nil, !app_nil_r, !app_nil_l, !owes_refs. split_and!; try done; [destruct (message_id a); cbn; lia|destruct (call_id a); cbn; lia].
  - intros kd Hkd v Hv Evk. apply (Hk _ _ Hv) in Evk as (a' & st' & n' & kd' & Hin & Hst' & Hkd' & E).
    apply event_key_inj in E; [|done..]. by rewrite <- E in Hin.
Qed.

(** All ever put in, against what is there. *)
Record ledger (s : server) (ms : list Z) (mi : list (option Z)) (cs : list Z) (ci : list (option Z)) : Prop := {
  g_keys : keys_known s;
  g_messages : mi = Some <$> ms; g_calls : ci = Some <$> cs;
  g_rows : inbound_ids s `sublist_of` ms /\ call_ids s `sublist_of` cs;
  g_intents : intents "message" s `sublist_of` mi /\ intents "call" s `sublist_of` ci;
  g_numbers : NoDup ms /\ NoDup cs;
  g_bounds : Forall (fun id => id <= messages_seq (Ingest.business s)) ms /\ Forall (fun id => id <= calls_seq (Ingest.business s)) cs }.

(** New numbers stay apart from the old ones, and below the generator. *)
Lemma numbered n n' ids new : NoDup ids -> Forall (fun id => id <= n) ids -> between n n' new -> (length new <= 1)%nat ->
  NoDup (ids ++ new) /\ Forall (fun id => id <= n') (ids ++ new).
Proof.
  intros Hn Hb [Hle Hf] Hl. rewrite Forall_app. split; [|split; eapply Forall_impl; [exact Hb|cbn; lia|exact Hf|cbn; lia]].
  apply NoDup_app. split_and!; [done| |destruct new as [|? [|? ?]]; cbn in Hl; [constructor|apply NoDup_singleton|lia]].
  intros x Hx Hx'. rewrite Forall_forall in Hb, Hf. specialize (Hb x Hx). specialize (Hf x Hx'). lia.
Qed.

Lemma sublist_map_filter {A B} (g : A -> B) (P : A -> Prop) `{!forall x, Decision (P x)} (l k : list A) :
  l `sublist_of` k -> (g <$> filter P l) `sublist_of` (g <$> filter P k).
Proof.
  induction 1 as [|x l k _ IH|x l k _ IH]; [constructor|rewrite !filter_cons; case_decide|rewrite filter_cons; case_decide]; cbn; by try constructor.
Qed.

Lemma annals_ledger s ms mi cs ci : annals s ms mi cs ci -> ledger s ms mi cs ci.
Proof.
  induction 1 as [d Em Ec Eo|s s' ms mi cs ci _ [Hk -> -> [Hr Hr'] [Hi Hi'] [Hn Hn'] [Hb Hb']] Hc|s s' ms mi cs ci _ [Hk Em Ec [Hr Hr'] [Hi Hi'] Hn [Hb Hb']] (Eg & Hm & Hc & Hq & Hs & Hs')].
  - assert (Ev : intent_view (notify d) = []) by (unfold intent_view; by rewrite Eo).
    split; [intros v k; cbn [Ingest.business]; rewrite Ev; by intros ?%elem_of_nil|done|done| | |split; constructor|split; constructor].
    + rewrite Em. unfold call_ids. cbn [Ingest.business]. by rewrite Ec.
    + unfold intents. cbn [Ingest.business]. by rewrite Ev.
  - destruct (commit_spec s s' Hk Hc) as (Hk' & ms' & cs' & E1 & E2 & E3 & E4 & Bm & Bc & Lm & Lc).
    unfold gained. rewrite E1, E2, E3, E4, !drop_app_length.
    destruct (numbered _ _ _ _ Hn Hb Bm Lm) as [Nm Fm], (numbered _ _ _ _ Hn' Hb' Bc Lc) as [Nc Fc].
    split; rewrite ?E1, ?E2, ?E3, ?E4, ?fmap_app; try done; split; by apply sublist_app.
  - split; try done.
    + intros v k Hv Ev. apply (known_mono s); [by rewrite Eg|]. apply (Hk v k); [|done]. by eapply elem_of_submseteq, sublist_submseteq.
    + split; by etrans.
    + split; (etrans; [|done]); by apply sublist_map_filter.
    + split; (eapply Forall_impl; [done|cbn; lia]).
Qed.

Definition empty_db : database :=
  mkDb Fleet.empty_fleet (Incidents.mkTable [] 1) [] (Delivery.mkTables [] ∅) [] 0 [] 0 [] [] ∅ Outbox.empty_queue ∅.

(** C5 (invariant): a committed event owes its push, once.  Whatever the agents
    send and replay (streams named without a bar, as agents name them), and
    whatever the rest of the server does meanwhile -- messages deleted by
    retention, columns changed, messages sent -- as long as the rows that tell a
    replay are kept (their expiry is opt-in) and no backup is restored: the
    intents of kind "message" that events ever queued refer, in order, to
    exactly the inbound messages they ever stored, one each, and those of kind
    "call" to the calls; no message or call is stored twice under a number, and
    what the tables hold now is part of that. *)
Theorem stored_means_owed (s : server) (ms : list Z) (mi : list (option Z)) (cs : list Z) (ci : list (option Z)) :
  annals s ms mi cs ci ->
  mi = Some <$> ms /\ ci = Some <$> cs /\ NoDup ms /\ NoDup cs
  /\ inbound_ids s `sublist_of` ms /\ intents "message" s `sublist_of` mi
  /\ call_ids s `sublist_of` cs /\ intents "call" s `sublist_of` ci.
Proof. intros H. apply annals_ledger in H as [_ Hm Hc [] [] [] _]. by split_and!. Qed.

(** ** A result of a task that was deleted *)

Lemma task_result_refused clock agent f d n : jget "task_id" f = JInt n -> tasks d !! n = None ->
  exists e, apply_task_result repr integer clock agent f d = Err e.
Proof.
  intros Hf Ht. unfold apply_task_result. unfold bind_tx at 1, lift at 1. destruct (py_int_of _) as [att|e]; [|by exists e].
  unfold bind_tx at 1, lift at 1. destruct (bind_row _) as [row|e] eqn:Eb; [|by exists e].
  assert (Hh : default JNull (snd <$> head row) = JInt n).
  { rewrite Hf in Eb. cbn [bind_row bind] in Eb. destruct (fits_int64 n); [|done]. cbn [mbind res_bind is_null andb] in Eb.
    apply bind_ok in Eb as (l & _ & [= <-]). reflexivity. }
  rewrite Hh. unfold bind_tx at 1, get at 1. unfold bind_tx at 1. unfold references_task, task_key, check. cbn [is_null orb].
  rewrite Ht, bool_decide_eq_false_2 by (intros []; done). by exists IntegrityError.
Qed.

(** Other events arrive. *)
Inductive others (x : pystr * pystr * Z) : server -> server -> Prop :=
| others_event clock agent stream kind f r s s' ra :
    (agent, stream, default 0 (as_int (jget "seq" f))) <> x ->
    (let key := event_key agent stream (default 0 (as_int (jget "seq" f))) in
     let m := Ingest.ingest true ra agent stream
                (fun f d => apply repr text integer fromisoformat float_text clock agent kind key stream f d) f s in
     m = Ingest.Acked (default 0 (as_int (jget "seq" f))) r s' \/ m = Ingest.CommittedSilently s') ->
    others x s s'.

Lemma enqueue_tasks clock kind ref f key d d' : enqueue clock kind ref f key d = Ok (tt, d') -> tasks d' = tasks d.
Proof.
  unfold enqueue. destruct ref; [|by intros [= <-]]. unfold bind_tx, check, modify. destruct (encodable_json _); [|done]. cbn.
  destruct (fits_int64 _); [|done]. by intros [= <-].
Qed.

Lemma apply_tasks clock agent kind key stream f d a d' :
  apply repr text integer fromisoformat float_text clock agent kind key stream f d = Ok (a, d') ->
  forall n, is_Some (tasks d' !! n) <-> is_Some (tasks d !! n).
Proof.
  unfold apply, bind_tx, ret. destruct (apply_kind _ _ _ _ _ _ _ _ _ _ d) as [[x d1]|] eqn:E1; [|done].
  destruct (queue_notification _ _ _ _ d1) as [[[] d2]|] eqn:E2; [|done]. intros [= <- <-] n.
  apply kind_appends in E1 as [_ _ _ _ Ht]. rewrite <- Ht. unfold queue_notification, bind_tx in E2.
  destruct (enqueue _ "message" _ _ _ d1) as [[[] e1]|] eqn:F1; [|done]. destruct (enqueue _ "task_result" _ _ _ e1) as [[[] e2]|] eqn:F2; [|done].
  by rewrite (enqueue_tasks _ _ _ _ _ _ _ E2), (enqueue_tasks _ _ _ _ _ _ _ F2), (enqueue_tasks _ _ _ _ _ _ _ F1).
Qed.

Lemma others_keep x n s s' : others x s s' -> tasks (Ingest.business s) !! n = None -> x ∉ Ingest.ingested s ->
  tasks (Ingest.business s') !! n = None /\ x ∉ Ingest.ingested s'.
Proof.
  intros [clock agent stream kind f r s0 s0' ra Hx H] Ht Hn. apply ingest_committed in H as [[Eb Ei]|(a & d' & _ & Ea & Eb & Ei)].
  - by rewrite Eb, Ei.
  - rewrite Eb, Ei. split; [|set_solver]. apply eq_None_not_Some. intros Hs%(apply_tasks _ _ _ _ _ _ _ _ _ Ea). by apply eq_None_not_Some in Ht.
Qed.

(** C6 (error): when a keep-alive task was deleted while a result of it was still
    queued on its agent, the server refuses that event -- [task_logs] refers to
    [tasks] -- now and after any other events, whatever it does with them:
    [_ingest] raises, which closes the connection with nothing acknowledged, so
    the agent sends the same event again, before every later one. *)
Theorem deleted_task_blocks_stream (agent stream : pystr) (f : frame) (n : Z) (s s' : server) :
  let seq := default 0 (as_int (jget "seq" f)) in
  rtc (others (agent, stream, seq)) s s' ->
  Ingest.valid_seq (jget "seq" f) = true -> jget "task_id" f = JInt n ->
  tasks (Ingest.business s) !! n = None -> (agent, stream, seq) ∉ Ingest.ingested s ->
  forall clock ready_after, exists e,
    Ingest.ingest true ready_after agent stream
      (fun f d => apply repr text integer fromisoformat float_text clock agent (str "task_result") (event_key agent stream seq) stream f d) f s'
    = Ingest.Raised e.
Proof.
  intros seq H Hv Hf Ht Hn clock ra.
  assert (Hk : tasks (Ingest.business s') !! n = None /\ (agent, stream, seq) ∉ Ingest.ingested s').
  { induction H as [s|s s1 s' Hs _ IH]; [done|]. destruct (others_keep _ n _ _ Hs Ht Hn). by apply IH. }
  destruct Hk as [Ht' Hn']. unfold Ingest.ingest. rewrite Hv. cbn [negb]. unfold Ingest.apply_event. fold seq.
  rewrite bool_decide_eq_false_2 by done. unfold apply, apply_kind, bind_tx.
  destruct (task_result_refused clock agent f _ n Hf Ht') as [e E]. exists e.
  rewrite !bool_decide_eq_false_2, bool_decide_eq_true_2 by done. by rewrite E.
Qed.
End Owed.

(** ** Witnesses *)

Definition plain_repr (v : json) : pystr := match v with JStr s => s | _ => str "0" end.
Definition no_column (_ : json) : option Z := None.
Definition no_time (_ : pystr) : option Z := None.
Definition no_float (_ : pystr) : option spec_float := None.

Definition sample_sms (n : Z) : frame :=
  [ (str "type", JStr (str "sms_in")); (str "seq", JInt n); (str "device", JStr (str "m1")); (str "iccid", JStr (str "8986"));
    (str "peer", JStr (str "10086")); (str "body", JStr (str "code 1")); (str "segments", JInt 1); (str "dcs", JInt 0) ].
Definition sample_apply (kind : pystr) (n : Z) (f : frame) (d : database) : res exn (applied_event * database) :=
  apply plain_repr plain_repr no_column no_time no_float 1000000 (str "home") kind (event_key (str "home") (str "ab") n) (str "ab") f d.
Definition arrived (kind : pystr) (n : Z) (f : frame) (s : Ingest.database database) : Ingest.database database :=
  match Ingest.ingest true true (str "home") (str "ab") (sample_apply kind n) f s with Ingest.Acked _ _ s' => s' | _ => s end.
Definition first_server : Ingest.database database := Ingest.mkDatabase ∅ ∅ empty_db.
Definition second_server : Ingest.database database := arrived (str "sms_in") 1 (sample_sms 1) first_server.

Example sample_intents : intent_view (notify (Ingest.business second_server)) = [(str "message", Some 1, Some (str "home|ab|1|message"))].
Proof. by vm_compute. Qed.

Lemma second_step : commits plain_repr plain_repr no_column no_time no_float first_server second_server.
Proof.
  exists 1000000, (str "home"), (str "ab"), (str "sms_in"), (sample_sms 1), (Some (mkApplied (Some 1) None None None false)), true.
  split; [decide_closed|]. left. by vm_compute.
Qed.

(** The message is deleted after its push was owed. *)
Definition third_server : Ingest.database database :=
  Ingest.mkDatabase (Ingest.ingested second_server) (Ingest.last_seqs second_server)
    (set_messages [] (messages_seq (Ingest.business second_server)) (Ingest.business second_server)).

Lemma stored_means_owed_witness : intents "message" third_server `sublist_of` [Some 1] /\ inbound_ids third_server `sublist_of` [1].
Proof.
  assert (H : annals plain_repr plain_repr no_column no_time no_float third_server [1] [Some 1] [] []).
  { apply (annals_other _ _ _ _ _ second_server).
    - exact (annals_event _ _ _ _ _ first_server second_server [] [] [] [] (annals_start _ _ _ _ _ empty_db eq_refl eq_refl eq_refl) second_step).
    - split; [done|]. split; [apply sublist_nil_l|]. split; [done|]. split; [done|]. by split. }
  destruct (stored_means_owed _ _ _ _ _ _ _ _ _ _ H) as (_ & _ & _ & _ & Hm & Hi & _). by split.
Defined.

Definition sample_result : frame :=
  [ (str "type", JStr (str "task_result")); (str "seq", JInt 2); (str "task_id", JInt 7); (str "status", JStr (str "ok"));
    (str "attempts", JInt 1) ].

(** [_optional_int] and [_float_or_zero] let OverflowError through: JSON's
    Infinity, or an integer beyond the doubles, undoes the event. *)
Example optional_int_overflows : optional_int (JFloat (S754_infinity false)) = Err OverflowError.
Proof. reflexivity. Qed.
Example float_or_zero_overflows : float_or_zero no_float (JInt (10 ^ 400)) = Err OverflowError.
Proof. vm_compute. reflexivity. Qed.

Lemma deleted_task_blocks_stream_witness : exists e,
  Ingest.ingest true true (str "home") (str "ab") (sample_apply (str "task_result") 2) sample_result second_server = Ingest.Raised e.
Proof.
  apply (deleted_task_blocks_stream plain_repr plain_repr no_column no_time no_float (str "home") (str "ab") sample_result 7 first_server second_server).
  - apply rtc_once. apply (others_event _ _ _ _ _ _ 1000000 (str "home") (str "ab") (str "sms_in") (sample_sms 1)
      (Some (mkApplied (Some 1) None None None false)) first_server second_server true); [decide_closed|]. left. by vm_compute.
  - by vm_compute.
  - by vm_compute.
  - by vm_compute.
  - decide_closed.
Defined.
End Handlers.
