(* ===== verification/System.v ===== *)
(** * Event delivery, end to end

    The agent's durable queue ([Store]), one session of its link ([Link]) and
    the server's ingest ([Ingest]) as one step relation: events are emitted and
    trimmed, the connection comes and goes with whatever is in flight, the
    server applies, acknowledges, or fails and closes.  The agent's store file
    can be lost and rebuilt, which starts a new stream.

    A frame on the wire is kept as the event it serialises; the server sees
    [to_frame] of it.  The server of this repository never sends [resend_from],
    so sessions here do not rewind. *)

From S2P Require Import Prelude PyDict Json Store Commands Link Ingest Handlers.
Import Store.

Module System.

Section system.
Context {B X Exn : Type}.
Context (agent : pystr).
(** [Gateway._apply] on a stream and the business tables, and their first contents. *)
Context (apply : pystr -> frame -> B -> res Exn (X * B)) (business0 : B).

Record connection := mkConnection {
  stream : pystr;               (* as told in hello *)
  sess : Link.session;
  up : list Event;              (* frames on their way to the server *)
  down : list Z }.              (* acknowledgements on their way back *)

Record system := mkSystem {
  store : LocalStore;
  conn : option connection;
  server : Ingest.database B;
  used : gset (list Z);              (* stream labels handed out so far *)
  applied : list (pystr * Event);    (* history: fresh events, oldest first *)
  emitted : list (pystr * Event) }.  (* history: every event ever queued *)

(** Payloads do not carry a key of their own called seq. *)
Definition plain (p : frame) : Prop := dict_get (str "seq") p = None.

Definition label (y : system) : pystr := stream_id (store y).

Definition set_store (s : LocalStore) (y : system) : system :=
  mkSystem s (conn y) (server y) (used y) (applied y) (emitted y).
Definition set_conn (c : option connection) (y : system) : system :=
  mkSystem (store y) c (server y) (used y) (applied y) (emitted y).

Definition queue_event (k : pystr) (p : frame) (y : system) : system :=
  let '(e, s) := append_event k p (store y) in
  mkSystem s (conn y) (server y) (used y) (applied y) (emitted y ++ [(label y, e)]).

(** The server's turn: the oldest frame in flight meets [ingest]. *)
Definition server_receive (y : system) : option system :=
  match conn y with
  | Some (mkConnection st ses (e :: up) down) =>
      match Ingest.ingest true true agent st (apply st) (to_frame e) (server y) with
      | Ingest.Acked n fresh db =>
          Some (mkSystem (store y) (Some (mkConnection st ses up (down ++ [n]))) db (used y)
                  (applied y ++ match fresh with Some _ => [(st, e)] | None => [] end) (emitted y))
      | Ingest.Raised _ => Some (set_conn None y)
      | _ => None
      end
  | _ => None
  end.

Inductive step : system -> system -> Prop :=
| step_queue k p y : plain p -> events_seq (store y) < Ingest.MAX_SEQ -> step y (queue_event k p y)
| step_trim keep y : step y (set_store (trim_events keep (store y)).2 y)
| step_connect y : conn y = None ->
    step y (set_conn (Some (mkConnection (label y) Link.new_session [] [])) y)
| step_disconnect y : step y (set_conn None y)
| step_fetch st ses u d y : conn y = Some (mkConnection st ses u d) ->
    step y (set_conn (Some (mkConnection st (Link.sender_fetch (store y) ses) u d)) y)
| step_send st ses u d e ses' y : conn y = Some (mkConnection st ses u d) ->
    Link.sender_send ses = Some (e, ses') ->
    step y (set_conn (Some (mkConnection st ses' (u ++ [e]) d)) y)
| step_server y y' : server_receive y = Some y' -> step y y'
| step_ack st ses u n d y : conn y = Some (mkConnection st ses u (n :: d)) ->
    step y (set_conn (Some (mkConnection st ses u d))
              (set_store (Link.handle_ack [(str "type", JStr (str "ack")); (str "seq", JInt n)] (store y)) y))
| step_rebuild token y : token <> [] -> token ∉ used y ->
    step y (mkSystem (open_store token fresh_db) None (server y) ({[ token ]} ∪ used y) (applied y) (emitted y)).

Definition steps : system -> system -> Prop := rtc step.

(** A new agent and a new server. *)
Definition initial (token : pystr) : system :=
  mkSystem (open_store token fresh_db) None (Ingest.mkDatabase ∅ ∅ business0) {[ token ]} [] [].


(** ** The invariant *)

Definition ev_lt (a b : Event) : Prop := seq a < seq b.

(** The events of one stream the server has applied, in order. *)
Definition applied_on (st : pystr) (y : system) : list Event :=
  snd <$> filter (fun p => p.1 = st) (applied y).

Definition is_done (st : pystr) (n : Z) (y : system) : Prop :=
  exists e, (st, e) ∈ applied y /\ seq e = n.

(** Number [n] has been applied, or is beyond everything applied. *)
Definition done_or_next (st : pystr) (n : Z) (y : system) : Prop :=
  is_done st n y \/ forall e, (st, e) ∈ applied y -> seq e < n.

(** The business state after applying these events in order. *)
Fixpoint replay (l : list (pystr * Event)) (b : B) : res Exn B :=
  match l with
  | [] => Ok b
  | (st, e) :: l => '(_, b) ← apply st (to_frame e) b; replay l b
  end.

Definition in_flight (c : connection) : list Event := up c ++ Link.batch (sess c).

Record conn_inv (y : system) (c : connection) : Prop := {
  ci_label : stream c = label y;
  ci_sorted : StronglySorted ev_lt (in_flight c);
  ci_events : forall e, e ∈ in_flight c ->
    1 <= seq e /\ plain (payload e) /\ done_or_next (label y) (seq e) y /\ (label y, e) ∈ emitted y;
  ci_sent : 0 <= Link.sent_through (sess c) <= events_seq (store y);
  ci_up : forall e, e ∈ up c -> seq e <= Link.sent_through (sess c);
  ci_batch : forall e, e ∈ Link.batch (sess c) -> Link.sent_through (sess c) < seq e;
  ci_noskip : forall r, r ∈ events (store y) ->
    (row_seq r <= Link.sent_through (sess c) \/ exists b, b ∈ Link.batch (sess c) /\ row_seq r <= seq b) ->
    is_done (label y) (row_seq r) y \/ row_seq r ∈ seq <$> in_flight c;
  ci_acks : forall n, n ∈ down c -> n <= events_seq (store y) /\
    forall r, r ∈ events (store y) -> row_seq r <= n -> is_done (label y) (row_seq r) y }.

Record inv (y : system) : Prop := {
  i_queue : queue_ok (store y);
  i_max : events_seq (store y) <= Ingest.MAX_SEQ;
  i_rows : forall r, r ∈ events (store y) ->
    plain (payload (ev r)) /\ done_or_next (label y) (row_seq r) y /\ (label y, ev r) ∈ emitted y;
  i_used : label y ∈ used y /\ forall p, p ∈ emitted y -> p.1 ∈ used y;
  i_emitted : (forall e, (label y, e) ∈ emitted y -> seq e <= events_seq (store y)) /\
              forall st e e', (st, e) ∈ emitted y -> (st, e') ∈ emitted y -> seq e = seq e' -> e = e';
  i_ingested : forall a st n, (a, st, n) ∈ Ingest.ingested (server y) <-> a = agent /\ is_done st n y;
  i_sorted : forall st, StronglySorted ev_lt (applied_on st y);
  i_applied : forall p, p ∈ applied y -> p ∈ emitted y;
  i_replay : replay (applied y) business0 = Ok (Ingest.business (server y));
  i_kept : forall e, (label y, e) ∈ emitted y ->
    (exists r, r ∈ events (store y) /\ ev r = e) \/ (label y, e) ∈ applied y \/ kind e = str "status";
  i_conn : forall c, conn y = Some c -> conn_inv y c }.

Lemma to_frame_seq e : plain (payload e) -> jget "seq" (to_frame e) = JInt (seq e).
Proof.
  unfold plain, jget, to_frame. intros H.
  assert (Hg : forall (l : frame) f0, dict_get (str "seq") l = None ->
    dict_get (str "seq") (foldl (fun f kv => dict_set kv.1 kv.2 f) f0 l) = dict_get (str "seq") f0).
  { induction l as [|[k v] l IH]; intros f0 Hl; simpl in *; [done|]. case_decide; [done|].
    rewrite IH by done. by rewrite dict_get_set_ne. }
  rewrite Hg by done. reflexivity.
Qed.

Lemma is_done_mono st n y y' : (forall p, p ∈ applied y -> p ∈ applied y') -> is_done st n y -> is_done st n y'.
Proof. intros H (e & He & Hn). exists e. auto. Qed.

(** Steps that touch neither the server nor the emitted history. *)
Lemma inv_frame y y' :
  inv y -> Ingest.ingested (server y') = Ingest.ingested (server y) ->
  Ingest.business (server y') = Ingest.business (server y) -> applied y' = applied y -> emitted y' = emitted y -> used y' = used y ->
  label y' = label y -> queue_ok (store y') -> events_seq (store y') = events_seq (store y) ->
  (forall r, r ∈ events (store y') -> r ∈ events (store y)) ->
  (forall r, r ∈ events (store y) -> r ∈ events (store y') \/ is_done (label y) (row_seq r) y \/ kind (ev r) = str "status") ->
  (forall c, conn y' = Some c -> conn_inv y' c) -> inv y'.
Proof.
  intros [] Es Eb Ea Ee Eu El Hq En Hsub Hkept Hc. split.
  - done.
  - by rewrite En.
  - intros r Hr. unfold done_or_next, is_done in *. rewrite El, Ee, Ea. by apply i_rows0, Hsub.
  - by rewrite El, Eu, Ee.
  - by rewrite El, Ee, En.
  - unfold is_done in *. by rewrite Es, Ea.
  - unfold applied_on in *. by rewrite Ea.
  - by rewrite Ea, Ee.
  - by rewrite Ea, Eb.
  - rewrite El, Ee, Ea. intros e He. destruct (i_kept0 e He) as [(r & Hr & <-)|[H|H]]; [|by right; left|by right; right].
    destruct (Hkept r Hr) as [H|[(e' & He' & Hn)|H]]; [left; by exists r| |by right; right].
    right. left. assert (e' = ev r) as <-; [|done].
    eapply (proj2 i_emitted0); [by apply i_applied0|done|done].
  - done.
Qed.

(** A connection seen from a state with fewer queued rows. *)
Lemma conn_inv_store y y' c :
  conn_inv y c -> applied y' = applied y -> emitted y' = emitted y -> label y' = label y ->
  events_seq (store y') = events_seq (store y) ->
  (forall r, r ∈ events (store y') -> r ∈ events (store y)) -> conn_inv y' c.
Proof.
  intros [] Ea Ee El En Hsub. split; unfold done_or_next, is_done in *; rewrite ?Ea, ?Ee, ?El, ?En; try done.
  - intros r Hr. apply ci_noskip0. by apply Hsub.
  - intros n Hn. destruct (ci_acks0 n Hn) as [H1 H2]. split; [done|]. intros r Hr. apply H2. by apply Hsub.
Qed.

Lemma inv_queue k p y :
  inv y -> plain p -> events_seq (store y) < Ingest.MAX_SEQ -> inv (queue_event k p y).
Proof.
  intros [] Hp Hm. set (e := mkEvent (events_seq (store y) + 1) k p).
  assert (Hle : forall e', (label y, e') ∈ emitted y -> seq e' < seq e)
    by (intros e' He'; apply i_emitted0 in He'; unfold e; simpl; lia).
  split; unfold queue_event, label, stream_id, get in *; cbn [append_event store conn server used applied emitted kv events events_seq].
  - by apply (queue_ok_append k p).
  - lia.
  - intros r [Hr| ->%list_elem_of_singleton]%elem_of_app.
    + destruct (i_rows0 r Hr) as (H1 & H2 & H3). split_and!; [done|done|]. apply elem_of_app. by left.
    + split_and!; [done| |apply elem_of_app; right; by apply list_elem_of_singleton].
      right. intros e' He'. apply i_applied0 in He'. by apply Hle.
  - split; [apply i_used0|]. intros q [Hq| ->%list_elem_of_singleton]%elem_of_app; [by apply i_used0|exact (proj1 i_used0)].
  - split.
    + intros e' [He'|[= ->]%list_elem_of_singleton]%elem_of_app; [apply i_emitted0 in He'; lia|simpl; lia].
    + intros st e1 e2 H1 H2 Eq. apply elem_of_app in H1 as [H1|H1], H2 as [H2|H2].
      * by eapply (proj2 i_emitted0).
      * apply list_elem_of_singleton in H2 as [= -> ->]. apply Hle in H1. unfold e in H1. simpl in *. lia.
      * apply list_elem_of_singleton in H1 as [= -> ->]. apply Hle in H2. unfold e in H2. simpl in *. lia.
      * apply list_elem_of_singleton in H1 as [= -> ->], H2 as [= ->]. done.
  - done.
  - done.
  - intros q Hq. apply elem_of_app. left. by apply i_applied0.
  - done.
  - intros e' [He'|[= ->]%list_elem_of_singleton]%elem_of_app.
    + destruct (i_kept0 e' He') as [(r & Hr & <-)|[H|H]]; [left; exists r|by right; left|by right; right].
      split; [apply elem_of_app; by left|done].
    + left. exists (mkEventRow e false). split; [apply elem_of_app; right; by left|done].
  - intros c Hc. destruct (i_conn0 c Hc). split; unfold done_or_next, is_done, label, stream_id, get in *; cbn in *; try done.
    + intros e' He'. destruct (ci_events0 e' He') as (H1 & H2 & H3 & H4). split_and!; [done..|]. apply elem_of_app. by left.
    + lia.
    + intros r [Hr| ->%list_elem_of_singleton]%elem_of_app; [by apply ci_noskip0|]. unfold row_seq. simpl.
      intros [H|(b & Hb & H)]; [lia|]. destruct (ci_events0 b) as (_ & _ & _ & H4); [apply elem_of_app; by right|].
      apply Hle in H4. unfold e in H4. simpl in H4. lia.
    + intros n Hn. destruct (ci_acks0 n Hn) as [H1 H2]. split; [lia|].
      intros r [Hr| ->%list_elem_of_singleton]%elem_of_app; [by apply H2|]. unfold row_seq. simpl. lia.
Qed.

Lemma inv_trim keep y : inv y -> inv (set_store (trim_events keep (store y)).2 y).
Proof.
  intros Hi. destruct (trim_rows keep (store y) (i_queue _ Hi)) as (Hq & En & Ek & Hsub & Hkept).
  assert (El : label (set_store (trim_events keep (store y)).2 y) = label y)
    by (unfold label, stream_id, get; cbn; by rewrite Ek).
  apply (inv_frame y); try done.
  - intros r Hr. destruct (Hkept r Hr) as [H|H]; [by left|]. right. right. unfold is_status in H. by apply bool_decide_eq_true in H.
  - intros c Hc. apply (conn_inv_store y); try done. by apply (i_conn _ Hi).
Qed.

Lemma inv_ack st ses u n d y :
  inv y -> conn y = Some (mkConnection st ses u (n :: d)) ->
  inv (set_conn (Some (mkConnection st ses u d))
         (set_store (Link.handle_ack [(str "type", JStr (str "ack")); (str "seq", JInt n)] (store y)) y)).
Proof.
  intros Hi Hc. change (Link.handle_ack _ (store y)) with (ack_through n (store y)).2.
  destruct (ack_through_rows n _ (i_queue _ Hi)) as [-> _]. assert (Hci := i_conn _ Hi _ Hc).
  apply (inv_frame y); try done.
  - by apply queue_ok_filter, Hi.
  - intros r [_ Hr]%list_elem_of_filter. done.
  - intros r Hr. destruct (Z.lt_ge_cases n (row_seq r)) as [H|H]; [left; by apply list_elem_of_filter|].
    right. left. destruct (ci_acks _ _ Hci n) as [_ Ha]; [by left|]. by apply Ha.
  - intros c [= <-]. apply (conn_inv_store y); try done; [|by intros r [_ Hr]%list_elem_of_filter].
    destruct Hci. split; try done. intros m Hm. apply ci_acks0. by right.
Qed.

Lemma inv_connect y : inv y -> inv (set_conn (Some (mkConnection (label y) Link.new_session [] [])) y).
Proof.
  intros Hi. apply (inv_frame y); try done; [apply Hi|by left|]. intros c [= <-].
  destruct (i_queue _ Hi) as (_ & Hf & Hn). split; cbn; try done; try (by intros ? ?%not_elem_of_nil); [constructor|].
  intros r Hr [H|(b & Hb & _)]; [|by apply not_elem_of_nil in Hb]. rewrite Forall_forall in Hf. apply Hf in Hr. lia.
Qed.

Lemma inv_disconnect y : inv y -> inv (set_conn None y).
Proof. intros Hi. apply (inv_frame y); try done; [apply Hi|by left]. Qed.

(** Reading a batch: the first rows of the queue beyond what was sent. *)
Lemma unacked_all s : queue_ok s -> unacked_events Link.BATCH s = ev <$> take Link.BATCH (events s).
Proof.
  intros (_ & Hf & _). unfold unacked_events. rewrite (filter_id is_unacked), fmap_take; [done|].
  eapply Forall_impl; [exact Hf|]. by intros r [_ ?].
Qed.

Lemma batch_elem s n e :
  queue_ok s -> e ∈ filter (fun e => n < seq e) (unacked_events Link.BATCH s) <->
  n < seq e /\ exists r, r ∈ take Link.BATCH (events s) /\ ev r = e.
Proof.
  clear agent apply business0. intros Hq. rewrite list_elem_of_filter, unacked_all, list_elem_of_fmap by done. naive_solver.
Qed.

Lemma batch_sorted s n :
  queue_ok s -> StronglySorted ev_lt (filter (fun e => n < seq e) (unacked_events Link.BATCH s)).
Proof.
  intros Hq. rewrite unacked_all by done. apply StronglySorted_filter.
  assert (Hs : StronglySorted row_lt (take Link.BATCH (events s))).
  { destruct Hq as (Hs & _). rewrite <- (take_drop Link.BATCH (events s)) in Hs. by apply StronglySorted_app_1_l in Hs. }
  induction Hs as [|r l Hl IH Hr]; [constructor|]. rewrite fmap_cons. constructor; [done|]. apply Forall_fmap.
  eapply Forall_impl; [exact Hr|]. done.
Qed.

(** A queue row at or before one of the first rows is among them. *)
Lemma take_downward s k r r' :
  queue_ok s -> r ∈ events s -> r' ∈ take k (events s) -> row_seq r <= row_seq r' -> r ∈ take k (events s).
Proof.
  intros (Hs & _) Hr Hr' Hle. rewrite <- (take_drop k (events s)) in Hr. apply elem_of_app in Hr as [Hr|Hr]; [done|].
  assert (Hlt := StronglySorted_take_drop row_lt k _ r' r Hs Hr' Hr). unfold row_lt in Hlt. lia.
Qed.

Lemma inv_fetch st ses u d y :
  inv y -> conn y = Some (mkConnection st ses u d) ->
  inv (set_conn (Some (mkConnection st (Link.sender_fetch (store y) ses) u d)) y).
Proof.
  intros Hi Hc. apply (inv_frame y); try done; [apply Hi|by left|]. intros c [= <-].
  assert (Hci := i_conn _ Hi _ Hc). unfold Link.sender_fetch.
  destruct (Link.batch ses) as [|e0 rest] eqn:Eb; [|destruct Hci; by split].
  set (n := Link.sent_through ses). assert (Hq := i_queue _ Hi). assert (Hrows := i_rows _ Hi).
  destruct Hci. unfold in_flight in *. cbn [sess up down stream] in *. rewrite Eb, ?app_nil_r in *.
  assert (Hel := fun e => batch_elem (store y) n e Hq).
  assert (Hin : forall e, e ∈ filter (fun e => n < seq e) (unacked_events Link.BATCH (store y)) ->
    exists r, r ∈ events (store y) /\ ev r = e).
  { intros e He. apply Hel in He as (_ & r & Hr & He). exists r. split; [|done].
    apply elem_of_take in Hr as (i & Hr & _). by apply list_elem_of_lookup_2 in Hr. }
  split; unfold in_flight; cbn [sess up down stream Link.batch Link.sent_through]; try done.
  - apply StronglySorted_app_2; [|done|by apply batch_sorted].
    intros a b Ha Hb. apply ci_up0 in Ha. apply Hel in Hb as [Hb _]. unfold ev_lt. fold n in Ha. lia.
  - intros e [He|He]%elem_of_app; [by apply ci_events0|]. apply Hin in He as (r & Hr & <-).
    destruct (Hrows r Hr) as (H1 & H2 & H3). destruct Hq as (_ & Hf & _). rewrite Forall_forall in Hf.
    destruct (Hf _ Hr) as [? _]. split_and!; [unfold row_seq in *; lia|done..].
  - intros e He. by apply Hel in He as [? _].
  - intros r Hr Hle. destruct (Z.le_gt_cases (row_seq r) n) as [H|H].
    + destruct (ci_noskip0 r Hr (or_introl H)) as [?|Hf]; [by left|right]. rewrite fmap_app, elem_of_app. by left.
    + destruct Hle as [Hle|(b & Hb & Hle)]; [lia|]. right. rewrite fmap_app, elem_of_app. right.
      apply list_elem_of_fmap. exists (ev r). split; [done|]. apply Hel. split; [done|].
      exists r. split; [|done]. apply Hel in Hb as (_ & rb & Hrb & <-).
      by eapply take_downward.
Qed.

Lemma inv_send st ses u d e ses' y :
  inv y -> conn y = Some (mkConnection st ses u d) -> Link.sender_send ses = Some (e, ses') ->
  inv (set_conn (Some (mkConnection st ses' (u ++ [e]) d)) y).
Proof.
  intros Hi Hc Hs. apply (inv_frame y); try done; [apply Hi|by left|]. intros c [= <-].
  destruct (i_conn _ Hi _ Hc). unfold Link.sender_send in Hs.
  destruct (Link.batch ses) as [|e0 rest] eqn:Eb; [done|]. injection Hs as -> <-.
  unfold in_flight in *. cbn [sess up down stream] in *. rewrite Eb in *.
  assert (Hsort := ci_sorted0). apply StronglySorted_app_1_r in Hsort. apply StronglySorted_inv in Hsort as [_ Hrest].
  rewrite Forall_forall in Hrest.
  split; unfold in_flight; cbn [sess up down stream Link.batch Link.sent_through]; rewrite <- ?app_assoc; try done.
  - destruct (ci_events0 e) as (H1 & _ & _ & H4); [apply elem_of_app; right; left|].
    apply (i_emitted _ Hi) in H4. cbn. lia.
  - intros x [Hx| ->%list_elem_of_singleton]%elem_of_app; [|lia]. apply ci_up0 in Hx.
    assert (Link.sent_through ses < seq e) by (apply ci_batch0; left). lia.
  - intros r Hr Hle. apply ci_noskip0; [done|]. destruct Hle as [Hle|(b & Hb & Hle)].
    + right. exists e. split; [left|done].
    + right. exists b. split; [by right|done].
Qed.

(** The frame at the head of the wire is next in line. *)
Lemma head_spec st ses e u d y :
  inv y -> conn_inv y (mkConnection st ses (e :: u) d) ->
  st = label y /\ plain (payload e) /\ 1 <= seq e <= Ingest.MAX_SEQ /\ (label y, e) ∈ emitted y /\
  (forall x, x ∈ u ++ Link.batch ses -> seq e < seq x) /\
  (forall r, r ∈ events (store y) -> row_seq r <= seq e -> is_done (label y) (row_seq r) y \/ row_seq r = seq e).
Proof.
  intros Hi []. unfold in_flight in *. cbn in *. destruct (ci_events0 e) as (H1 & H2 & H3 & H4); [by left|].
  assert (Hmax := i_max _ Hi). assert (Hle := proj1 (i_emitted _ Hi) e H4).
  apply StronglySorted_inv in ci_sorted0 as [_ Hlt]. rewrite Forall_forall in Hlt.
  split_and!; try done; [lia|]. intros r Hr Hre.
  destruct (ci_noskip0 r Hr) as [H|H]; [left; assert (seq e <= Link.sent_through ses) by (apply ci_up0; by left); lia|by left|].
  right. apply elem_of_cons in H as [->|H]; [done|]. apply list_elem_of_fmap in H as (x & E0 & Hx).
  apply Hlt in Hx. unfold ev_lt in Hx. lia.
Qed.

(** What the server's turn does, by the outcome of [apply_event]. *)
Lemma server_receive_cases st ses e u d y y' :
  inv y -> conn y = Some (mkConnection st ses (e :: u) d) -> server_receive y = Some y' ->
  (is_done st (seq e) y /\
     y' = mkSystem (store y) (Some (mkConnection st ses u (d ++ [seq e])))
            (Ingest.mkDatabase (Ingest.ingested (server y))
               (Ingest.bump_last_seq agent (seq e) (Ingest.last_seqs (server y))) (Ingest.business (server y)))
            (used y) (applied y) (emitted y)) \/
  (~ is_done st (seq e) y /\ exists x b, apply st (to_frame e) (Ingest.business (server y)) = Ok (x, b) /\
     y' = mkSystem (store y) (Some (mkConnection st ses u (d ++ [seq e])))
            (Ingest.mkDatabase ({[ (agent, st, seq e) ]} ∪ Ingest.ingested (server y))
               (Ingest.bump_last_seq agent (seq e) (Ingest.last_seqs (server y))) b)
            (used y) (applied y ++ [(st, e)]) (emitted y)) \/
  y' = set_conn None y.
Proof.
  intros Hi Hc H. destruct (head_spec _ _ _ _ _ _ Hi (i_conn _ Hi _ Hc)) as (_ & Hp & Hb & _).
  unfold server_receive in H. rewrite Hc in H. unfold Ingest.ingest in H. rewrite to_frame_seq in H by done.
  assert (Hv : Ingest.valid_seq (JInt (seq e)) = true) by (unfold Ingest.valid_seq; simpl; lia).
  rewrite Hv in H. cbn [negb as_int default] in H. unfold Ingest.apply_event in H.
  case_bool_decide as Hin; cbn [fst snd] in H.
  - left. injection H as <-. apply (i_ingested _ Hi) in Hin as [_ Hd]. rewrite app_nil_r. done.
  - destruct (apply st (to_frame e) (Ingest.business (server y))) as [[x b]|exn] eqn:Ea; cbn [mbind res_bind] in H.
    + right. left. injection H as <-. split; [|by exists x, b]. intros Hd. apply Hin, (i_ingested _ Hi). done.
    + right. right. by injection H as <-.
Qed.

Lemma replay_snoc l st e b b1 x b2 :
  replay l b = Ok b1 -> apply st (to_frame e) b1 = Ok (x, b2) -> replay (l ++ [(st, e)]) b = Ok b2.
Proof.
  revert b. induction l as [|[st' e'] l IH]; intros b H1 H2; simpl in *.
  - injection H1 as ->. by rewrite H2.
  - apply bind_ok in H1 as ([x' b'] & E0 & H1). rewrite E0. cbn [mbind res_bind]. by apply IH.
Qed.

(** Delivering the head of the wire: the rest of the connection's invariant. *)
Lemma conn_inv_delivered st ses e u d y y' :
  inv y -> conn_inv y (mkConnection st ses (e :: u) d) ->
  store y' = store y -> emitted y' = emitted y ->
  (forall n, is_done (label y) n y' <-> is_done (label y) n y \/ n = seq e) ->
  (forall n, done_or_next (label y) n y -> seq e < n \/ is_done (label y) n y -> done_or_next (label y) n y') ->
  conn_inv y' (mkConnection st ses u (d ++ [seq e])).
Proof.
  intros Hi Hci Es Ee Hdone Hnext.
  destruct (head_spec _ _ _ _ _ _ Hi Hci) as (_ & _ & Hb & Hem & Hlt & Hhead).
  assert (El : label y' = label y) by (unfold label; by rewrite Es).
  assert (Hle := proj1 (i_emitted _ Hi) e Hem).
  destruct Hci. unfold in_flight in *. cbn [sess up down stream app] in *.
  split; unfold in_flight; cbn [sess up down stream]; rewrite ?El, ?Es, ?Ee; try done.
  - by apply StronglySorted_inv in ci_sorted0 as [? _].
  - intros x Hx. destruct (ci_events0 x) as (H1 & H2 & H3 & H4); [by right|]. split_and!; try done.
    apply Hnext; [done|]. left. by apply Hlt.
  - intros x Hx. apply ci_up0. by right.
  - intros r Hr Hle'. rewrite Hdone. destruct (ci_noskip0 r Hr Hle') as [H|H]; [by left; left|].
    rewrite fmap_cons, elem_of_cons in H. destruct H as [->|H]; [left; by right|by right].
  - intros n [Hn| ->%list_elem_of_singleton]%elem_of_app.
    + destruct (ci_acks0 n Hn) as [H1 H2]. split; [done|]. intros r Hr Hrn. apply Hdone. left. by apply H2.
    + split; [done|]. intros r Hr Hrn. apply Hdone. by apply Hhead.
Qed.

Lemma inv_server y y' : inv y -> server_receive y = Some y' -> inv y'.
Proof.
  intros Hi H. destruct (conn y) as [[st ses [|e u] d]|] eqn:Hc; try (unfold server_receive in H; by rewrite Hc in H).
  assert (Hci := i_conn _ Hi _ Hc). destruct (head_spec _ _ _ _ _ _ Hi Hci) as (-> & Hp & Hb & Hem & Hlt & Hhead).
  destruct (server_receive_cases _ _ _ _ _ _ _ Hi Hc H) as [[Hd ->]|[(Hd & x & b & Ha & ->)| ->]].
  - apply (inv_frame y); try done; [apply Hi|by left|]. intros c [= <-].
    eapply conn_inv_delivered; try done. intros n. split; [by left|]. by intros [?| ->].
  - set (y' := mkSystem _ _ _ _ _ _).
    assert (Hnew : forall e', (label y, e') ∈ applied y -> seq e' < seq e).
    { destruct (ci_events _ _ Hci e) as (_ & _ & [?|?] & _); [by left|done|done]. }
    assert (Hin : forall p, p ∈ applied y' <-> p ∈ applied y \/ p = (label y, e))
      by (intros p; unfold y'; cbn; by rewrite elem_of_app, list_elem_of_singleton).
    assert (Hdone : forall n, is_done (label y) n y' <-> is_done (label y) n y \/ n = seq e).
    { intros n. unfold is_done. setoid_rewrite Hin. split.
      - intros (e' & [He'|[= ->]] & <-); [left; eauto|by right].
      - intros [(e' & He' & <-)| ->]; eauto. }
    assert (Hnext : forall n, done_or_next (label y) n y -> seq e < n \/ is_done (label y) n y -> done_or_next (label y) n y').
    { intros n [Hn|Hn] Hor; [left; apply Hdone; by left|]. destruct Hor as [Hor|Hor]; [|left; apply Hdone; by left].
      right. intros e' He'. apply Hin in He' as [He'|[= ->]]; [by apply Hn|done]. }
    assert (Hold : forall r, r ∈ events (store y) -> done_or_next (label y) (row_seq r) y').
    { intros r Hr. destruct (i_rows _ Hi r Hr) as (_ & H2 & _).
      destruct (Z.lt_ge_cases (seq e) (row_seq r)) as [Hl|Hl]; [by apply Hnext; [|left]|].
      left. apply Hdone. by apply Hhead. }
    assert (Hci' := conn_inv_delivered _ _ _ _ _ y y' Hi Hci eq_refl eq_refl Hdone Hnext).
    assert (Hi0 := Hi). destruct Hi. split; try done.
    + intros r Hr. destruct (i_rows0 r Hr) as (H1 & _ & H3). split_and!; [done|by apply Hold|done].
    + intros a st n. cbn. rewrite elem_of_union, elem_of_singleton, i_ingested0.
      assert (Hd' : is_done st n y' <-> is_done st n y \/ (st = label y /\ n = seq e)).
      { destruct (decide (st = label y)) as [->|Hne]; [rewrite Hdone; naive_solver|].
        unfold is_done. setoid_rewrite Hin. naive_solver. }
      rewrite Hd'. naive_solver.
    + intros st. unfold applied_on, y'. cbn. rewrite filter_app. destruct (decide (st = label y)) as [->|Hne].
      * rewrite (filter_cons_True _ (label y, e)), filter_nil, fmap_app by done. apply StronglySorted_app_2; [|apply i_sorted0|repeat constructor].
        intros a c0 Hal ->%list_elem_of_singleton. apply list_elem_of_fmap in Hal as ([st' a'] & -> & Hal).
        apply list_elem_of_filter in Hal as [E1 Hal]. cbn in E1. subst st'. by apply Hnew.
      * rewrite (filter_cons_False _ (label y, e)) by (cbn; intros E1; by apply Hne). rewrite filter_nil, app_nil_r. apply i_sorted0.
    + intros p Hpin. apply Hin in Hpin as [Hpin| ->]; [by apply i_applied0|done].
    + cbn. by eapply replay_snoc.
    + intros e' He'. destruct (i_kept0 e' He') as [?|[?|?]]; [by left|right; left; apply Hin; by left|by right; right].
    + intros c [= <-]. done.
  - by apply inv_disconnect.
Qed.

Lemma inv_rebuild token y :
  token ∉ used y -> inv y ->
  inv (mkSystem (open_store token fresh_db) None (server y) ({[ token ]} ∪ used y) (applied y) (emitted y)).
Proof.
  intros Hu Hi. assert (El : stream_id (open_store token fresh_db) = token).
  { reflexivity. }
  destruct Hi. assert (Hno : forall e, (token, e) ∉ emitted y).
  { intros e He. apply i_used0 in He. done. }
  split; unfold label in *; cbn [store conn server used applied emitted]; rewrite ?El; try done.
  - apply queue_ok_fresh.
  - intros r Hr. by apply not_elem_of_nil in Hr.
  - split; [set_solver|]. intros p Hp. apply i_used0 in Hp. set_solver.
  - split; [|by apply i_emitted0]. intros e He. by apply Hno in He.
  - intros e He. by apply Hno in He.
Qed.

Lemma inv_initial token : inv (initial token).
Proof.
  split; cbn [initial store conn server used applied emitted]; try done.
  - apply queue_ok_fresh.
  - intros r Hr. by apply not_elem_of_nil in Hr.
  - split; [|by intros p ?%not_elem_of_nil]. change (label (initial token)) with token. set_solver.
  - split; [by intros e ?%not_elem_of_nil|by intros st e e' ?%not_elem_of_nil].
  - intros a st n. cbn. split; [set_solver|]. by intros [_ (e & ?%not_elem_of_nil & _)].
  - intros st. constructor.
  - by intros e ?%not_elem_of_nil.
Qed.

Lemma step_inv y y' : inv y -> step y y' -> inv y'.
Proof.
  intros Hi. destruct 1.
  - by apply inv_queue.
  - by apply inv_trim.
  - by apply inv_connect.
  - by apply inv_disconnect.
  - by apply inv_fetch.
  - by eapply inv_send.
  - by eapply inv_server.
  - by apply inv_ack.
  - by apply inv_rebuild.
Qed.

Lemma steps_inv y y' : inv y -> steps y y' -> inv y'.
Proof. intros Hi. induction 1 as [|y1 y2 y3 Hs _ IH]; [done|]. apply IH. by eapply step_inv. Qed.

(** ** Properties *)

(** C1 (safety): exactly once, in order.  Whatever is lost, replayed or rolled
    back on the way, the server's tables are what applying a list of emitted
    events, one after another, leaves; within a stream that list never goes
    back or repeats itself. *)
Theorem exactly_once_in_order token y :
  steps (initial token) y ->
  replay (applied y) business0 = Ok (Ingest.business (server y)) /\
  (forall st, StronglySorted ev_lt (applied_on st y)) /\
  (forall p, p ∈ applied y -> p ∈ emitted y).
Proof. intros H. destruct (steps_inv _ _ (inv_initial token) H). done. Qed.

(** C3 (safety): no message is lost.  Every event ever queued on the agent's
    present store is still queued, or has been applied by the server, or is a
    status sample that trimming dropped; so an acknowledgement only ever
    removes what the server has committed. *)
Theorem no_event_lost token y e :
  steps (initial token) y -> (label y, e) ∈ emitted y ->
  (exists r, r ∈ events (store y) /\ ev r = e) \/ (label y, e) ∈ applied y \/ kind e = str "status".
Proof. intros H. destruct (steps_inv _ _ (inv_initial token) H). apply i_kept0. Qed.

(** ** Progress *)

(** The queued events the server has not stored. *)
Definition owed (y : system) : list event_row :=
  filter (fun r => (agent, label y, row_seq r) ∉ Ingest.ingested (server y)) (events (store y)).

(** The server takes the head of the wire, when it has it already or its tables
    accept it. *)
Lemma server_takes st ses e u d y :
  inv y -> conn y = Some (mkConnection st ses (e :: u) d) ->
  match decide ((agent, st, seq e) ∈ Ingest.ingested (server y)) with
  | left _ => exists y', server_receive y = Some y' /\ store y' = store y /\ emitted y' = emitted y /\
      conn y' = Some (mkConnection st ses u (d ++ [seq e])) /\
      Ingest.ingested (server y') = Ingest.ingested (server y) /\ Ingest.business (server y') = Ingest.business (server y)
  | right _ => forall x b, apply st (to_frame e) (Ingest.business (server y)) = Ok (x, b) ->
      exists y', server_receive y = Some y' /\ store y' = store y /\ emitted y' = emitted y /\
      conn y' = Some (mkConnection st ses u (d ++ [seq e])) /\
      Ingest.ingested (server y') = {[ (agent, st, seq e) ]} ∪ Ingest.ingested (server y) /\ Ingest.business (server y') = b
  end.
Proof.
  intros Hi Hc. destruct (head_spec _ _ _ _ _ _ Hi (i_conn _ Hi _ Hc)) as (_ & Hp & Hb & _).
  unfold server_receive. rewrite Hc. unfold Ingest.ingest. rewrite to_frame_seq by done.
  replace (Ingest.valid_seq (JInt (seq e))) with true by (unfold Ingest.valid_seq; simpl; lia).
  cbn [negb as_int default]. unfold Ingest.apply_event. destruct (decide _) as [Hin|Hin].
  - rewrite bool_decide_eq_true_2 by done. eexists. by split_and!.
  - rewrite bool_decide_eq_false_2 by done. intros x b ->. cbn [mbind res_bind]. eexists. by split_and!.
Qed.

Lemma queue_tail s r rest : queue_ok s -> events s = r :: rest -> filter (fun r0 => row_seq r < row_seq r0) (events s) = rest.
Proof.
  intros (Hs & _) He. rewrite He in Hs |- *. apply StronglySorted_cons in Hs as [Hs _]. rewrite filter_cons_False by lia.
  apply filter_id. exact Hs.
Qed.

(** Reconnecting puts the oldest queued event on the wire. *)
Lemma resend_head y r rest :
  inv y -> events (store y) = r :: rest ->
  exists y4 ses, steps y y4 /\ conn y4 = Some (mkConnection (label y) ses [ev r] []) /\
    store y4 = store y /\ server y4 = server y /\ emitted y4 = emitted y.
Proof.
  intros Hi He. set (c1 := mkConnection (label y) Link.new_session [] []).
  set (y1 := set_conn None y). set (y2 := set_conn (Some c1) y1).
  set (ses := Link.sender_fetch (store y) Link.new_session).
  set (y3 := set_conn (Some (mkConnection (label y) ses [] [])) y2).
  assert (Hrow : 1 <= row_seq r).
  { destruct (i_queue _ Hi) as (_ & Hf & _). rewrite He in Hf. apply Forall_cons in Hf as [[? _] _]. lia. }
  assert (Hb : exists tl, Link.batch ses = ev r :: tl).
  { unfold ses, Link.sender_fetch. cbn [Link.new_session Link.batch Link.sent_through].
    rewrite unacked_all by apply Hi. rewrite He. unfold Link.BATCH. cbn [take]. rewrite fmap_cons.
    rewrite filter_cons_True by (unfold row_seq in Hrow; lia). by eexists. }
  destruct Hb as [tl Hb]. set (ses' := Link.mkSession (seq (ev r)) tl).
  exists (set_conn (Some (mkConnection (label y) ses' [ev r] [])) y3), ses'. split_and!; [|done..].
  eapply rtc_l; [apply step_disconnect|]. eapply rtc_l; [by apply (step_connect y1)|].
  eapply rtc_l; [by apply (step_fetch (label y) Link.new_session [] [] y2)|].
  apply rtc_once. apply (step_send (label y) ses [] [] (ev r) ses' y3); [done|].
  unfold Link.sender_send. by rewrite Hb.
Qed.

(** One round trip clears the oldest event. *)
Lemma drain_one y r rest b :
  inv y -> events (store y) = r :: rest -> replay ((fun r => (label y, ev r)) <$> owed y) (Ingest.business (server y)) = Ok b ->
  exists y', steps y y' /\ events (store y') = rest /\ emitted y' = emitted y /\ label y' = label y /\
             replay ((fun r => (label y', ev r)) <$> owed y') (Ingest.business (server y')) = Ok b.
Proof.
  intros Hi He Hrep. destruct (resend_head y r rest Hi He) as (y4 & ses & H14 & Ec4 & Es4 & Ev4 & Ee4).
  assert (Hi4 := steps_inv _ _ Hi H14).
  assert (Hafter : forall y5, server_receive y4 = Some y5 -> store y5 = store y4 -> emitted y5 = emitted y4 ->
    conn y5 = Some (mkConnection (label y) ses [] [seq (ev r)]) ->
    exists y', steps y y' /\ events (store y') = rest /\ emitted y' = emitted y /\ label y' = label y /\ server y' = server y5).
  { intros y5 H5 Es Ee Ec. set (y6 := set_conn (Some (mkConnection (label y) ses [] []))
      (set_store (Link.handle_ack [(str "type", JStr (str "ack")); (str "seq", JInt (seq (ev r)))] (store y5)) y5)).
    assert (H6 : steps y y6).
    { etrans; [exact H14|]. eapply rtc_l; [by apply step_server|]. apply rtc_once. by apply step_ack. }
    assert (Hq5 : queue_ok (store y5)) by (rewrite Es, Es4; apply Hi).
    assert (Est : store y6 = (ack_through (row_seq r) (store y5)).2) by done.
    destruct (ack_through_rows (row_seq r) _ Hq5) as [Ea _]. rewrite Ea, Es, Es4 in Est.
    exists y6. split_and!; [done| |by cbn; rewrite Ee, Ee4| |done].
    - rewrite Est. cbn [set_events events]. apply queue_tail; [apply Hi|done].
    - unfold label. by rewrite Est. }
  pose proof (server_takes _ _ _ _ _ _ Hi4 Ec4) as Ht. unfold owed in Hrep. rewrite Ev4 in Ht. rewrite He in Hrep.
  destruct (decide _) as [Hin|Hin].
  - rewrite filter_cons_False in Hrep by (unfold row_seq; tauto). destruct Ht as (y5 & H5 & Es & Ee & Ec & Eg & Eb).
    destruct (Hafter y5 H5 Es Ee Ec) as (y' & H' & E1 & E2 & E3 & E4). exists y'. split_and!; [done..|].
    unfold owed. by rewrite E4, E3, E1, Eg, Eb.
  - rewrite filter_cons_True in Hrep by exact Hin. rewrite fmap_cons in Hrep. cbn [replay] in Hrep.
    apply bind_ok in Hrep as ([x b1] & Ha & Hrep). destruct (Ht x b1 Ha) as (y5 & H5 & Es & Ee & Ec & Eg & Eb).
    destruct (Hafter y5 H5 Es Ee Ec) as (y' & H' & E1 & E2 & E3 & E4). exists y'. split_and!; [done..|].
    unfold owed. rewrite E4, E3, E1, Eg, Eb. rewrite <- Hrep. do 2 f_equal.
    apply filter_ext_in. intros r0 Hr0. destruct (i_queue _ Hi) as (Hs & _). rewrite He in Hs. apply StronglySorted_cons in Hs as [Hs _].
    rewrite Forall_forall in Hs. specialize (Hs r0 Hr0). unfold row_lt, row_seq in *. set_unfold. split; [tauto|]. intros Hn [[= E]|?]; [lia|done].
Qed.

(** C35 (liveness): the queue can always be emptied.  From every reachable state,
    connected or not: if the server's own handlers accept the queued events it
    has not stored yet, one after another in the order of the queue, some run
    of the system without new events leaves the agent's queue empty and exactly
    these events applied on top of what the server's tables hold now.  Nothing
    is asked of other events or other states; an event that is refused does
    block those behind it ([deleted_task_blocks_stream] of Handlers.v). *)
Theorem queue_drains token y b :
  steps (initial token) y -> replay ((fun r => (label y, ev r)) <$> owed y) (Ingest.business (server y)) = Ok b ->
  exists y', steps y y' /\ events (store y') = [] /\ Ingest.business (server y') = b /\ emitted y' = emitted y /\ label y' = label y.
Proof.
  intros H. assert (Hi := steps_inv _ _ (inv_initial token) H). clear H.
  remember (events (store y)) as l eqn:El. revert y Hi El. induction l as [|r rest IH]; intros y Hi El Hrep.
  - exists y. unfold owed in Hrep. rewrite <- El in Hrep. injection Hrep as <-. by split_and!.
  - destruct (drain_one y r rest b Hi (eq_sym El) Hrep) as (y1 & H1 & E1 & Ee & Elab & Hrep1).
    destruct (IH y1 (steps_inv _ _ Hi H1) (eq_sym E1) Hrep1) as (y2 & H2 & Hn & Eb & Ee2 & El2).
    exists y2. split_and!; [by etrans|done|done|congruence|congruence].
Qed.

End system.
Arguments system : clear implicits.


(** ** A concrete run

    The business tables are those of Handlers.v, and the server applies events
    as the gateway does; one received message goes through while its
    acknowledgement is lost, and a second one is queued behind it. *)

Definition sample_agent : pystr := str "home".

(** [Gateway._apply] of this agent's frame. *)
Definition gateway_apply (st : pystr) (f : frame) (db : Handlers.database) :=
  Handlers.apply Handlers.plain_repr Handlers.plain_repr Handlers.no_column Handlers.no_time Handlers.no_float 1000000 sample_agent
    (match jget "type" f with JStr k => k | _ => [] end) (Handlers.event_key sample_agent st (default 0 (as_int (jget "seq" f)))) st f db.

Definition sample_payload (peer : string) : frame :=
  [(str "device", JStr (str "m1")); (str "iccid", JStr (str "8986")); (str "peer", JStr (str peer)); (str "body", JStr (str "hello"));
   (str "segments", JInt 1); (str "dcs", JInt 0)].
Definition sample_0 : system Handlers.database := initial Handlers.empty_db (str "s1").
Definition sample_1 : system Handlers.database := queue_event (str "sms_in") (sample_payload "10086") sample_0.
Definition sample_2 : system Handlers.database :=
  set_conn (Some (mkConnection (str "s1") Link.new_session [] [])) sample_1.
Definition sample_3 : system Handlers.database :=
  set_conn (Some (mkConnection (str "s1") (Link.sender_fetch (store sample_2) Link.new_session) [] [])) sample_2.
Definition sample_event : Event := mkEvent 1 (str "sms_in") (sample_payload "10086").
Definition sample_4 : system Handlers.database :=
  set_conn (Some (mkConnection (str "s1") (Link.mkSession 1 []) [sample_event] [])) sample_3.
Definition sample_5 : system Handlers.database := default sample_4 (server_receive sample_agent gateway_apply sample_4).
Definition sample_6 : system Handlers.database := set_conn None sample_5.

Lemma sample_run : steps sample_agent gateway_apply sample_0 sample_6.
Proof.
  eapply rtc_l; [by apply (step_queue sample_agent gateway_apply (str "sms_in") (sample_payload "10086") sample_0)|].
  eapply rtc_l; [by apply (step_connect sample_agent gateway_apply sample_1)|].
  eapply rtc_l; [by apply (step_fetch sample_agent gateway_apply (str "s1") Link.new_session [] [] sample_2)|].
  eapply rtc_l; [by apply (step_send sample_agent gateway_apply (str "s1")
    (Link.sender_fetch (store sample_2) Link.new_session) [] [] sample_event (Link.mkSession 1 []) sample_3)|].
  eapply rtc_l; [by apply (step_server sample_agent gateway_apply sample_4 sample_5)|].
  apply rtc_once. apply (step_disconnect sample_agent gateway_apply sample_5).
Defined.

Lemma exactly_once_in_order_witness :
  length (applied sample_6) = 1%nat /\
  replay gateway_apply (applied sample_6) Handlers.empty_db = Ok (Ingest.business (server sample_6)).
Proof.
  split; [by vm_compute|].
  exact (proj1 (exactly_once_in_order sample_agent gateway_apply Handlers.empty_db (str "s1") sample_6 sample_run)).
Defined.

Lemma no_event_lost_witness :
  (exists r, r ∈ events (store sample_6) /\ ev r = sample_event) \/
  (label sample_6, sample_event) ∈ applied sample_6 \/ kind sample_event = str "status".
Proof.
  apply (no_event_lost sample_agent gateway_apply Handlers.empty_db (str "s1") sample_6 sample_event sample_run).
  by vm_compute; left.
Defined.

Definition sample_7 : system Handlers.database := queue_event (str "sms_in") (sample_payload "10010") sample_6.
Definition drained_tables : Handlers.database :=
  match replay gateway_apply [(str "s1", mkEvent 2 (str "sms_in") (sample_payload "10010"))] (Ingest.business (server sample_7)) with
  | Ok db => db
  | Err _ => Handlers.empty_db
  end.

(** Two events are queued, the first of them stored already; the queue drains
    and the tables then have both messages. *)
Lemma queue_drains_witness :
  length (events (store sample_7)) = 2%nat /\ length (owed sample_agent sample_7) = 1%nat /\ length (Handlers.messages drained_tables) = 2%nat /\
  exists y', steps sample_agent gateway_apply sample_7 y' /\ events (store y') = [] /\ Ingest.business (server y') = drained_tables.
Proof.
  split; [by vm_compute|]. split; [by vm_compute|]. split; [by vm_compute|].
  destruct (queue_drains sample_agent gateway_apply Handlers.empty_db (str "s1") sample_7 drained_tables) as (y' & H1 & H2 & H3 & _).
  - eapply rtc_r; [exact sample_run|]. by apply (step_queue sample_agent gateway_apply (str "sms_in") (sample_payload "10010") sample_6).
  - vm_compute. reflexivity.
  - exists y'. exact (conj H1 (conj H2 H3)).
Defined.

End System.
