(* ===== verification/Mailbox.v ===== *)
(** * What event delivery promises: a mailbox

    The abstract specification of the path from [LocalStore.append_event] to the
    server's business tables -- a first-in first-out mailbox that hands each
    event over once -- and the refinement: every step of the concrete system
    (System.v: queue, link, connection, acknowledgements, replays, crashes) is a
    step of the mailbox or changes nothing it shows. *)

From S2P Require Import Prelude PyDict Json Store Link Ingest Handlers System.
Import Store System.

Module Mailbox.

Section mailbox.
Context {B X Exn : Type}.
Context (agent : pystr) (apply : pystr -> frame -> B -> res Exn (X * B)) (business0 : B).

(** ** The specification *)

Record mailbox := mkMailbox {
  m_stream : pystr;                   (* the agent's present stream *)
  m_pending : list Event;             (* owed to the server, oldest first *)
  m_done : list (pystr * Event);      (* handed over, oldest first *)
  m_business : B }.

Inductive spec_step : mailbox -> mailbox -> Prop :=
| spec_submit e st p d b :
    Forall (fun x => ev_lt x e) p -> (forall x, (st, x) ∈ d -> ev_lt x e) ->
    spec_step (mkMailbox st p d b) (mkMailbox st (p ++ [e]) d b)
| spec_deliver e st p d b x b' :
    apply st (to_frame e) b = Ok (x, b') ->
    spec_step (mkMailbox st (e :: p) d b) (mkMailbox st p (d ++ [(st, e)]) b')
| spec_drop p' st p d b :
    p' `sublist_of` p -> (forall e, e ∈ p -> e ∈ p' \/ kind e = str "status") ->
    spec_step (mkMailbox st p d b) (mkMailbox st p' d b)
| spec_restart st' st p d b :
    st' <> st -> (forall x, (st', x) ∉ d) ->
    spec_step (mkMailbox st p d b) (mkMailbox st' [] d b).

Definition spec_initial (st : pystr) : mailbox := mkMailbox st [] [] business0.

(** ** The relation between the two *)

Definition flight (y : system B) : list Event := match conn y with Some c => in_flight c | None => [] end.

(** Queued or on its way, and not yet applied. *)
Definition live (y : system B) : list Z := (row_seq <$> events (store y)) ++ (seq <$> flight y).

Definition outstanding (y : system B) (e : Event) : Prop :=
  (label y, e) ∈ emitted y /\ seq e ∈ live y /\ ~ is_done (label y) (seq e) y.

Definition shows (y : system B) (m : mailbox) : Prop :=
  m_stream m = label y /\ m_done m = applied y /\ m_business m = Ingest.business (server y)
  /\ StronglySorted ev_lt (m_pending m) /\ forall e, e ∈ m_pending m <-> outstanding y e.

Abbreviation inv := (inv agent apply business0).
Abbreviation step := (step agent apply).

Lemma live_spec y n : n ∈ live y <-> (exists r, r ∈ events (store y) /\ row_seq r = n) \/ exists e, e ∈ flight y /\ seq e = n.
Proof. unfold live. rewrite elem_of_app, !list_elem_of_fmap. naive_solver. Qed.

(** What is in flight but no longer queued has been applied, or was a status
    sample. *)
Lemma flight_queued y e : inv y -> outstanding y e ->
  (exists r, r ∈ events (store y) /\ row_seq r = seq e) \/ kind e = str "status".
Proof.
  intros Hi (He & _ & Hd). destruct (i_kept _ _ _ _ Hi e He) as [(r & Hr & <-)|[H|H]]; [left; by exists r| |by right].
  exfalso. apply Hd. by exists e.
Qed.

(** Steps that neither emit nor apply anything show as a drop of some status
    samples, of none most of the time. *)
Lemma drop_shows y y' m :
  inv y -> label y' = label y -> applied y' = applied y -> emitted y' = emitted y ->
  Ingest.business (server y') = Ingest.business (server y) ->
  (forall n, n ∈ live y' -> n ∈ live y) ->
  (forall e, outstanding y e -> seq e ∈ live y' \/ kind e = str "status") ->
  shows y m -> exists m', spec_step m m' /\ shows y' m'.
Proof.
  intros Hi El Ea Ee Eb Hsub Hkept (Hst & Hdn & Hbs & Hs & Hp). destruct m as [st p d b].
  cbn [m_stream m_pending m_done m_business] in *.
  exists (mkMailbox st (filter (fun e => seq e ∈ live y') p) d b). split.
  - apply spec_drop; [apply sublist_filter|]. intros e He. destruct (Hkept e (proj1 (Hp e) He)) as [H|H]; [left|by right].
    by apply list_elem_of_filter.
  - split_and!; cbn [m_stream m_pending m_done m_business]; try congruence; [by apply StronglySorted_filter|].
    intros e. rewrite list_elem_of_filter, Hp. unfold outstanding, is_done. rewrite El, Ea, Ee. split.
    + intros (H1 & H2 & H3 & H4). by split_and!.
    + intros (H1 & H2 & H3). split_and!; try done. by apply Hsub.
Qed.

Lemma outstanding_queue k p y e :
  inv y -> plain p -> events_seq (store y) < Ingest.MAX_SEQ ->
  outstanding (queue_event k p y) e <-> outstanding y e \/ e = mkEvent (events_seq (store y) + 1) k p.
Proof.
  intros Hi Hp Hm. set (n := mkEvent _ _ _).
  assert (Hlt : forall x, (label y, x) ∈ emitted y -> seq x < seq n)
    by (intros x Hx; apply (i_emitted _ _ _ _ Hi) in Hx; cbn; lia).
  assert (Hnd : ~ is_done (label y) (seq n) y).
  { intros (x & Hx & E). apply (i_applied _ _ _ _ Hi), Hlt in Hx. lia. }
  assert (Hlive : forall z, z ∈ live (queue_event k p y) <-> z ∈ live y \/ z = seq n).
  { intros z. unfold live, flight, queue_event. cbn [append_event store conn events].
    rewrite fmap_app. change (row_seq <$> [_]) with [seq n]. rewrite !elem_of_app, list_elem_of_singleton. tauto. }
  unfold outstanding. rewrite Hlive. change (label (queue_event k p y)) with (label y).
  change (is_done (label y) (seq e) (queue_event k p y)) with (is_done (label y) (seq e) y).
  change (emitted (queue_event k p y)) with (emitted y ++ [(label y, n)]). rewrite elem_of_app, list_elem_of_singleton. split.
  - intros ([He|[= ->]] & [Hl|Hl] & Hd); [by left; split_and!| |by right|by right].
    apply Hlt in He. lia.
  - intros [(He & Hl & Hd)| ->]; split_and!; [by left|by left|done|by right|by right|done].
Qed.

Lemma queue_shows k p y m :
  inv y -> plain p -> events_seq (store y) < Ingest.MAX_SEQ -> shows y m ->
  exists m', spec_step m m' /\ shows (queue_event k p y) m'.
Proof.
  intros Hi Hp Hm (Hst & Hdn & Hbs & Hs & Ho). destruct m as [st q d b].
  cbn [m_stream m_pending m_done m_business] in *. set (n := mkEvent (events_seq (store y) + 1) k p).
  assert (Hlt : forall x, (label y, x) ∈ emitted y -> ev_lt x n)
    by (intros x Hx; apply (i_emitted _ _ _ _ Hi) in Hx; unfold ev_lt; cbn; lia).
  assert (Hq : forall x, x ∈ q -> ev_lt x n) by (intros x (Hx & _)%Ho; by apply Hlt).
  exists (mkMailbox st (q ++ [n]) d b). split.
  - apply spec_submit; [apply List.Forall_forall; intros x Hx; by apply Hq, list_elem_of_In|].
    subst st d. intros x Hx. by apply Hlt, (i_applied _ _ _ _ Hi).
  - split_and!; cbn [m_stream m_pending m_done m_business]; try done.
    + apply StronglySorted_app_2; [|done|repeat constructor]. intros x e Hx ->%list_elem_of_singleton. by apply Hq.
    + intros e. rewrite elem_of_app, list_elem_of_singleton, Ho. symmetry. by apply outstanding_queue.
Qed.

Lemma disconnect_shows y m : inv y -> shows y m -> exists m', spec_step m m' /\ shows (set_conn None y) m'.
Proof.
  intros Hi. apply drop_shows; try done.
  - intros n. rewrite !live_spec. intros [H|(e & He%not_elem_of_nil & _)]; [by left|done].
  - intros e Ho. destruct (flight_queued y e Hi Ho) as [(r & Hr & E)|H]; [left|by right].
    apply live_spec. left. by exists r.
Qed.

(** The frame at the head of the wire is the oldest thing owed. *)
Lemma head_outstanding st ses e u d y :
  inv y -> conn y = Some (mkConnection st ses (e :: u) d) -> ~ is_done (label y) (seq e) y ->
  outstanding y e /\ forall x, outstanding y x -> x = e \/ ev_lt e x.
Proof.
  intros Hi Hc Hd. destruct (head_spec _ _ _ _ _ _ _ _ _ Hi (i_conn _ _ _ _ Hi _ Hc)) as (_ & _ & _ & Hem & Hlt & Hhead).
  assert (Hfl : flight y = e :: u ++ Link.batch ses) by (unfold flight; by rewrite Hc).
  split.
  - split_and!; [done| |done]. apply live_spec. right. exists e. rewrite Hfl. split; [left|done].
  - intros x (Hx & Hl & Hdx). apply live_spec in Hl as [(r & Hr & E)|(f & Hf & E)].
    + destruct (Z.lt_ge_cases (seq e) (seq x)) as [|Hle]; [by right|left].
      destruct (Hhead r Hr) as [H|H]; [lia|rewrite E in H; done|].
      eapply (proj2 (i_emitted _ _ _ _ Hi)); [done..|lia].
    + rewrite Hfl in Hf. apply elem_of_cons in Hf as [->|Hf]; [left|right; unfold ev_lt; rewrite <- E; by apply Hlt].
      by eapply (proj2 (i_emitted _ _ _ _ Hi)).
Qed.

Lemma sorted_head (p : list Event) e : StronglySorted ev_lt p -> e ∈ p -> (forall x, x ∈ p -> x = e \/ ev_lt e x) ->
  exists q, p = e :: q.
Proof.
  intros Hs He Hm. destruct Hs as [|a p Hs Ha]; [by apply not_elem_of_nil in He|]. exists p. f_equal.
  apply elem_of_cons in He as [->|He]; [done|]. rewrite List.Forall_forall in Ha.
  specialize (Ha e (proj1 (list_elem_of_In _ _) He)). destruct (Hm a) as [->|H]; [left|done|]. unfold ev_lt in *. lia.
Qed.

Lemma server_shows y y' m :
  inv y -> server_receive agent apply y = Some y' -> shows y m -> exists m', spec_step m m' /\ shows y' m'.
Proof.
  intros Hi H Hsh. destruct (conn y) as [[st ses [|e u] d]|] eqn:Hc; try (unfold server_receive in H; by rewrite Hc in H).
  assert (Hst : st = label y) by apply (head_spec _ _ _ _ _ _ _ _ _ Hi (i_conn _ _ _ _ Hi _ Hc)). subst st.
  destruct (server_receive_cases _ _ _ _ _ _ _ _ _ _ Hi Hc H) as [[Hd ->]|[(Hd & x & b' & Ha & ->)| ->]].
  - (* a replay of what was applied *)
    revert Hsh. apply drop_shows; try done.
    + intros n. rewrite !live_spec. unfold flight. cbn [conn store]. rewrite Hc. unfold in_flight. cbn.
      intros [?|(f & Hf & E)]; [by left|right]. exists f. split; [by right|done].
    + intros f (Hf & Hl & Hdf). left. revert Hl. rewrite !live_spec. unfold flight. cbn [conn store]. rewrite Hc.
      unfold in_flight. cbn. intros [?|(g & [->|Hg]%elem_of_cons & E)]; [by left|by rewrite E in Hd|right]. by exists g.
  - destruct (head_outstanding _ _ _ _ _ _ Hi Hc Hd) as [Hoe Hmin]. destruct Hsh as (Es & Ed & Eb & Hs & Hp).
    destruct m as [st p dn b]. cbn [m_stream m_pending m_done m_business] in *. subst st dn b.
    destruct (sorted_head p e Hs) as [q ->]; [by apply Hp|intros z Hz; by apply Hmin, Hp|].
    exists (mkMailbox (label y) q (applied y ++ [(label y, e)]) b'). split; [by eapply spec_deliver|].
    apply StronglySorted_inv in Hs as [Hs Hall]. rewrite List.Forall_forall in Hall.
    split_and!; cbn [m_stream m_pending m_done m_business]; try done. intros f.
    set (y' := mkSystem _ _ _ _ _ _).
    assert (Hdone : is_done (label y) (seq f) y' <-> is_done (label y) (seq f) y \/ seq f = seq e).
    { unfold is_done, y'. cbn [applied]. setoid_rewrite elem_of_app. setoid_rewrite list_elem_of_singleton. naive_solver. }
    assert (Hlive : seq f <> seq e -> seq f ∈ live y' <-> seq f ∈ live y).
    { intros Hne. rewrite !live_spec. unfold flight, y'. cbn [conn store]. rewrite Hc. unfold in_flight. cbn. set_solver. }
    change (outstanding y' f) with ((label y, f) ∈ emitted y /\ seq f ∈ live y' /\ ~ is_done (label y) (seq f) y').
    rewrite Hdone. split.
    + intros Hf. assert (Hef : ev_lt e f) by (by apply Hall, list_elem_of_In).
      destruct (proj1 (Hp f)) as (H1 & H2 & H3); [by right|]. assert (seq f <> seq e) by (unfold ev_lt in Hef; lia).
      split_and!; [done|by apply Hlive|tauto].
    + intros (H1 & H2 & H3). assert (Hne : seq f <> seq e) by tauto.
      assert (Hf : f ∈ e :: q) by (apply Hp; split_and!; [done|by apply Hlive|tauto]).
      apply elem_of_cons in Hf as [->|Hf]; done.
  - by apply disconnect_shows.
Qed.

Lemma store_shows s c y m :
  inv y -> stream_id s = label y ->
  (forall r, r ∈ events s -> r ∈ events (store y)) ->
  (forall r, r ∈ events (store y) -> r ∈ events s \/ is_done (label y) (row_seq r) y \/ kind (ev r) = str "status") ->
  (forall n, n ∈ seq <$> match c with Some c => in_flight c | None => [] end -> n ∈ live y) ->
  (forall n, n ∈ seq <$> flight y -> n ∈ seq <$> match c with Some c => in_flight c | None => [] end) ->
  shows y m -> exists m', spec_step m m' /\ shows (set_conn c (set_store s y)) m'.
Proof.
  intros Hi El Hsub Hkept Hfl Hfl'. apply drop_shows; try done.
  - intros n [H|H]%elem_of_app; [|by apply Hfl]. apply list_elem_of_fmap in H as (r & -> & Hr). apply elem_of_app. left.
    by apply list_elem_of_fmap_2, Hsub.
  - intros e (He & Hl & Hd). apply elem_of_app in Hl as [Hl|Hl]; [|left; apply elem_of_app; right; by apply Hfl'].
    apply list_elem_of_fmap in Hl as (r & E & Hr). destruct (Hkept r Hr) as [H|[H|H]].
    + left. apply elem_of_app. left. rewrite E. by apply list_elem_of_fmap_2.
    + by rewrite <- E in H.
    + right. destruct (i_rows _ _ _ _ Hi r Hr) as (_ & _ & Hem).
      by rewrite (proj2 (i_emitted _ _ _ _ Hi) _ _ _ He Hem E).
Qed.

Lemma same_store c (y : system B) : set_conn c (set_store (store y) y) = set_conn c y.
Proof. done. Qed.

Lemma step_shows y y' m : inv y -> step y y' -> shows y m -> exists m', spec_step m m' /\ shows y' m'.
Proof.
  intros Hi Hst Hsh. destruct Hst as [k p y Hp Hm|keep y|y Hc|y|st ses u d y Hc|st ses u d e ses' y Hc Hs|y y' H|st ses u n d y Hc|token y Hne Hu].
  - by apply queue_shows.
  - destruct (trim_rows keep (store y) (i_queue _ _ _ _ Hi)) as (_ & _ & Ek & Hsub & Hkept).
    apply (store_shows _ (conn y) y m Hi); try done.
    + unfold label, stream_id, get. by rewrite <- Ek.
    + intros r Hr. destruct (Hkept r Hr) as [H|H]; [by left|right; right]. unfold is_status in H. by apply bool_decide_eq_true in H.
    + intros z Hz. apply elem_of_app. by right.
  - rewrite <- same_store. apply store_shows; try done; [by left|by intros z ?%not_elem_of_nil|].
    unfold flight. by rewrite Hc.
  - by apply disconnect_shows.
  - rewrite <- same_store. apply store_shows; try done; [by left| |]; intros z; unfold live, flight; rewrite Hc; unfold in_flight;
      cbn [up sess]; rewrite !fmap_app, !elem_of_app; unfold Link.sender_fetch; destruct (Link.batch ses) eqn:Eb; cbn [Link.batch].
    + intros [?|Hz]; [by right; left|]. left. apply list_elem_of_fmap in Hz as (e & -> & He).
      apply (batch_elem (store y) _ e (i_queue _ _ _ _ Hi)) in He as (_ & r & Hr & <-). apply (list_elem_of_fmap_2 row_seq), (elem_take r _ _ Hr).
    + rewrite Eb. tauto.
    + intros [?|?%not_elem_of_nil]; [by left|done].
    + by rewrite Eb.
  - assert (E : up (mkConnection st ses' (u ++ [e]) d) ++ Link.batch ses' = u ++ Link.batch ses).
    { unfold Link.sender_send in Hs. destruct (Link.batch ses); [done|]. injection Hs as <- <-. cbn. by rewrite <- app_assoc. }
    rewrite <- same_store. apply store_shows; try done; [by left| |]; intros z; unfold live, flight; rewrite Hc; unfold in_flight; cbn [sess] in *;
      rewrite E; [|done]. intros H. apply elem_of_app. by right.
  - by eapply server_shows.
  - change (Link.handle_ack _ (store y)) with (ack_through n (store y)).2.
    destruct (ack_through_rows n _ (i_queue _ _ _ _ Hi)) as [-> _]. assert (Hci := i_conn _ _ _ _ Hi _ Hc).
    apply store_shows; try done.
    + by intros r [_ Hr]%list_elem_of_filter.
    + intros r Hr. destruct (Z.lt_ge_cases n (row_seq r)); [left; by apply list_elem_of_filter|right; left].
      destruct (ci_acks _ _ Hci n) as [_ Ha]; [left|]. by apply Ha.
    + intros z Hz. unfold live, flight. rewrite Hc. apply elem_of_app. by right.
    + unfold flight. by rewrite Hc.
  - destruct Hsh as (Es & Ed & Eb & Hs & Ho). destruct m as [st p d b]. cbn [m_stream m_pending m_done m_business] in *. subst st d b.
    exists (mkMailbox token [] (applied y) (Ingest.business (server y))). split.
    + apply spec_restart.
      * intros ->. by apply Hu, (i_used _ _ _ _ Hi).
      * intros x Hx. apply Hu. apply (i_applied _ _ _ _ Hi) in Hx. by apply (proj2 (i_used _ _ _ _ Hi)) in Hx.
    + split_and!; cbn [m_stream m_pending m_done m_business]; try done; [constructor|].
      intros e. split; [by intros ?%not_elem_of_nil|]. intros (_ & Hl & _). by apply not_elem_of_nil in Hl.
Qed.

Lemma initial_shows token : shows (initial business0 token) (spec_initial token).
Proof.
  split_and!; try done; [constructor|]. intros e. split; [by intros ?%not_elem_of_nil|].
  intros (He & _). by apply not_elem_of_nil in He.
Qed.

(** ** Refinement *)

(** C2 (refinement): the concrete system implements the mailbox.  Whatever the
    queue, the link, the connection, the server and the crashes do, step by
    step, the mailbox can do in as many steps; at every moment the server's
    tables and the list of applied events are the mailbox's, and what the
    mailbox still owes, in order, is exactly what is queued or in flight and
    not yet applied. *)
Theorem system_refines_mailbox (token : pystr) (n : nat) (y : system B) :
  nsteps step n (initial business0 token) y ->
  exists m, nsteps spec_step n (spec_initial token) m /\ shows y m.
Proof.
  intros H.
  assert (G : forall y0 m0, inv y0 -> shows y0 m0 -> nsteps step n y0 y -> exists m, nsteps spec_step n m0 m /\ shows y m).
  { clear H. induction n as [|n IH]; intros y0 m0 Hi Hs H; inversion H as [|? ? y1 ? H1 H2]; subst.
    - exists m0. split; [constructor|done].
    - destruct (step_shows y0 y1 m0 Hi H1 Hs) as (m1 & Hm1 & Hs1).
      destruct (IH y1 m1) as (m & Hm & Hsh); [by eapply step_inv|done|done|]. exists m. split; [by econstructor|done]. }
  by apply (G (initial business0 token)); [apply inv_initial|apply initial_shows|].
Qed.
End mailbox.

(** The sample run of System.v (one message applied, its acknowledgement lost)
    as the mailbox sees it: one event handed over, nothing owed. *)
Lemma system_refines_mailbox_witness :
  exists n m, nsteps (step sample_agent gateway_apply) n sample_0 sample_6
  /\ nsteps (spec_step gateway_apply) n (spec_initial Handlers.empty_db (str "s1")) m
  /\ m_done m = [(str "s1", sample_event)] /\ length (Handlers.messages (m_business m)) = 1%nat.
Proof.
  destruct (rtc_nsteps_1 _ _ sample_run) as [n Hn]. exists n.
  destruct (system_refines_mailbox sample_agent gateway_apply Handlers.empty_db (str "s1") n sample_6 Hn) as (m & Hm & _ & Hd & Hb & _).
  exists m. split_and!; [exact Hn|exact Hm|rewrite Hd; vm_compute; reflexivity|rewrite Hb; vm_compute; reflexivity].
Defined.
End Mailbox.
