(* ===== verification/Registry.v ===== *)
(** * Agent sessions on the server (server/src/hub_server/gateway.py)

    One WebSocket session per agent: hello, the registry reservation, the
    registration and disconnect jobs of the database's single worker, ingest,
    and the commands waiting on a session.  The event loop and the worker
    interleave: a state holds the loop's objects, the FIFO queue of worker jobs
    and the database, and a step is one turn of the loop or one whole job. *)

From S2P Require Import Prelude PyText PyDict Json Operations Ingest TaskSync Alerts Fleet Handlers.
From Stdlib Require Import Floats.SpecFloat.

Module Registry.
Import Handlers.

(** ** Hello *)

Definition MAX_FRAME_CHARS : Z := 4 * 1024 * 1024.
Definition MAX_HELLO_DEVICES : nat := 256.
Definition MAX_ID_CHARS : nat := 128.
Definition CLOSE_PROTOCOL_ERROR : Z := 4002.
Definition CLOSE_AGENT_CONFLICT : Z := 4003.
Definition CLOSE_INTERNAL_ERROR : Z := 1011.
Definition CLOSE_MAINTENANCE : Z := 1013.
Definition SERVER_VERSION : pystr := str "0.1.0".
Definition PROTOCOL_VERSION : Z := 1.

Record hello := mkHello {
  h_agent : pystr; h_version : pystr; h_protocol : Z; h_stream : pystr; h_devices : list frame; h_durable : bool }.

Definition as_object (v : json) : option frame := match v with JObj d => Some d | _ => None end.

(** What a received text leads to: close with a code, an exception, a
    registration, or an event for [_ingest]. *)
Inductive reaction := Close (code : Z) | Fails (e : Fleet.exn) | Registers (h : hello) | Ingests (kind : pystr) (f : frame).

Section Hello.
Context (repr : json -> pystr).

(** The fields [_register] takes from the frame. *)
Definition read_hello (candidate : pystr) (f : frame) : res Fleet.exn hello :=
  let version := py_str repr (jget_or "version" (JStr []) f) in
  protocol ← optional_int (jget "protocol_version" f);
  let stream := take MAX_ID_CHARS (strip (str_or repr (jget "stream_id" f))) in
  devices ← iterate (jget "devices" f);
  Ok (mkHello candidate version (default 0 protocol) stream (take MAX_HELLO_DEVICES (omap as_object devices))
        (py_eq (jget "durable_commands" f) (JInt 1))).

(** The body of [serve]'s loop, [registered] whether this session is; [parsed]
    is what [json.loads] makes of the text, [None] a ValueError. *)
Definition on_text (registered : bool) (length_ : Z) (parsed : option json) (taken : pystr -> bool) (closed : bool) : reaction :=
  if MAX_FRAME_CHARS <? length_ then Close CLOSE_PROTOCOL_ERROR
  else
    match parsed ≫= as_object with
    | None => Close CLOSE_PROTOCOL_ERROR
    | Some f =>
        match jget "type" f with
        | JStr kind =>
            if bool_decide (kind = str "hello") then
              if registered then Close CLOSE_PROTOCOL_ERROR
              else
                let candidate := strip (str_or repr (jget "agent_id" f)) in
                if bool_decide (candidate = []) || (MAX_ID_CHARS <? length candidate)%nat then Close CLOSE_PROTOCOL_ERROR
                else if taken candidate then Close CLOSE_AGENT_CONFLICT
                else if closed then Close CLOSE_MAINTENANCE
                else match read_hello candidate f with Ok h => Registers h | Err e => Fails e end
            else if registered then Ingests kind f
            else Close CLOSE_PROTOCOL_ERROR
        | _ => Close CLOSE_PROTOCOL_ERROR
        end
    end.
End Hello.

(** ** Worker jobs on the database

    A statement that raises leaves what earlier statements of the job wrote. *)

Inductive exn := Database (e : Fleet.exn) | AgentUnavailable.

Abbreviation server := (Ingest.database Handlers.database) (only parsing).

Definition st (A : Type) : Type := server -> res exn A * server.
Definition st_ret {A} (a : A) : st A := fun s => (Ok a, s).
Definition st_bind {A B} (m : st A) (k : A -> st B) : st B :=
  fun s => match m s with (Ok a, s) => k a s | (Err e, s) => (Err e, s) end.
Definition st_raise {A} (e : exn) : st A := fun s => (Err e, s).
Definition st_get {A} (f : server -> A) : st A := fun s => (Ok (f s), s).

Definition with_business (d : Handlers.database) (s : server) : server :=
  Ingest.mkDatabase (Ingest.ingested s) (Ingest.last_seqs s) d.

(** One statement on the business tables. *)
Definition stmt {A} (m : tx A) : st A :=
  fun s => match m (Ingest.business s) with Ok (a, d) => (Ok a, with_business d s) | Err e => (Err (Database e), s) end.

Notation "x <~ m ;; k" := (st_bind m (fun x => k)) (at level 62, m at next level, right associativity) : hub_scope.
Notation "m ;~ k" := (st_bind m (fun _ => k)) (at level 62, right associativity) : hub_scope.

Section Jobs.
Context (repr text : json -> pystr) (integer : json -> option Z).
Context (fromisoformat : pystr -> option Z) (float_text : pystr -> option spec_float).
(** The worker's clock during the job, in microseconds. *)
Context (clock : Z).

Definition or_else_text (s other : pystr) : pystr := match s with [] => other | _ => s end.

Definition note_stream (agent stream : pystr) : st unit :=
  stmt (Handlers.check (Fleet.encodable agent) Fleet.UnicodeEncodeError) ;~
  previous <~ st_get (fun s => match Fleet.agents (fleet (Ingest.business s)) !! agent with Some r => Fleet.a_stream r | None => [] end) ;;
  if bool_decide (stream = []) || bool_decide (previous = stream) then st_ret tt
  else
    found <~ st_get (fun s => bool_decide (set_Exists (fun k => k.1 = (agent, [])) (Ingest.ingested s))) ;;
    if bool_decide (previous = []) && negb found then st_ret tt
    else stmt (Handlers.open_incident clock (str "agent-stream-reset:" ++ agent) "agent_stream_reset" "warning" agent
                 (str "Agent " ++ [0x672C; 0x5730; 0x4E8B; 0x4EF6; 0x961F; 0x5217; 0x5DF2; 0x91CD; 0x5EFA])
                 (([0x4E8B; 0x4EF6; 0x6D41; 0x6807; 0x8BC6; 0x7531] ++ str " ") ++ or_else_text previous [0xFF08; 0x672A; 0x6807; 0x8BC6; 0xFF09] ++ (str " " ++ [0x53D8; 0x4E3A] ++ str " ") ++ stream ++
                  ([0x3002; 0x5E8F; 0x53F7; 0x5DF2; 0x4ECE; 0x5934; 0x5F00; 0x59CB; 0xFF0C; 0x65E7; 0x6D41; 0x4E2D; 0x5C1A; 0x672A; 0x53D1; 0x9001; 0x7684; 0x4E8B; 0x4EF6; 0x65E0; 0x6CD5; 0x518D; 0x8865; 0x6295; 0xFF1B; 0x8BF7; 0x786E; 0x8BA4] ++ str " Agent " ++ [0x6570; 0x636E; 0x76EE; 0x5F55; 0x662F; 0x5426; 0x88AB; 0x91CD; 0x5EFA; 0x6216; 0x66FF; 0x6362; 0x3002]))).

(** The INSERT of a new agent gives its other columns their defaults. *)
Definition upsert_agent (agent version : pystr) (protocol : Z) (stream : pystr) : st unit :=
  stmt (fl <- get fleet ;;
        fl <- lift (Fleet.upsert_agent agent version protocol true stream (now clock) fl) ;;
        modify (set_fleet fl) ;;;
        modify (fun d => match syncs d !! agent with Some _ => d | None => set_syncs (<[agent := TaskSync.new_agent_row]> (syncs d)) d end)) ;~
  (fun s => (Ok tt, match Ingest.last_seqs s !! agent with
                    | Some _ => s
                    | None => Ingest.mkDatabase (Ingest.ingested s) (<[agent := 0]> (Ingest.last_seqs s)) (Ingest.business s)
                    end)).

Definition version_problems (version : pystr) (protocol : Z) : list pystr :=
  (if bool_decide (version = SERVER_VERSION) then []
   else [str "Agent " ++ or_else_text version [0x672A; 0x4E0A; 0x62A5] ++ ([0xFF0C] ++ str "Server ") ++ SERVER_VERSION]) ++
  (if protocol =? PROTOCOL_VERSION then []
   else [(str "Agent " ++ [0x534F; 0x8BAE] ++ str " ") ++ (if protocol =? 0 then [0x672A; 0x4E0A; 0x62A5] else decimal protocol) ++ ([0xFF0C] ++ str "Server " ++ [0x534F; 0x8BAE] ++ str " ") ++ decimal PROTOCOL_VERSION]).

Definition note_version (agent version : pystr) (protocol : Z) : st unit :=
  let fingerprint := str "agent-version:" ++ agent in
  match version_problems version protocol with
  | [] => stmt (Handlers.resolve_incident clock fingerprint (str "Agent " ++ [0x4E0E] ++ str " Server " ++ [0x7248; 0x672C; 0x5DF2; 0x4E00; 0x81F4]))
  | problems =>
      stmt (Handlers.open_incident clock fingerprint "agent_version_mismatch"
              (if protocol =? PROTOCOL_VERSION then "warning" else "critical") agent
              (str "Agent " ++ [0x4E0E] ++ str " Server " ++ [0x7248; 0x672C; 0x4E0D; 0x4E00; 0x81F4]) (py_join [0xFF1B] problems))
  end.

(** [upsert_device] is two statements: the card is stored even when the module
    is refused. *)
Definition upsert_module (agent : pystr) (f : frame) : st unit :=
  fun s => let '(r, fl) := Fleet.upsert_device text agent f (now clock) (fleet (Ingest.business s)) in
           let s := with_business (set_fleet fl (Ingest.business s)) s in
           match r with Ok _ => (Ok tt, s) | Err e => (Err (Database e), s) end.

Fixpoint upsert_modules (agent : pystr) (l : list frame) : st unit :=
  match l with
  | [] => st_ret tt
  | f :: l => upsert_module agent f ;~ upsert_modules agent l
  end.

Definition rebind (agent stream connection : pystr) : st unit :=
  stmt (modify (fun d => set_operations (Operations.rebind_operations agent stream connection (operations d)) d)).

Definition persist_registration (retiring : bool) (h : hello) (connection : pystr) : st unit :=
  if retiring then st_raise AgentUnavailable
  else
    note_stream (h_agent h) (h_stream h) ;~
    upsert_agent (h_agent h) (h_version h) (h_protocol h) (h_stream h) ;~
    note_version (h_agent h) (h_version h) (h_protocol h) ;~
    upsert_modules (h_agent h) (h_devices h) ;~
    rebind (h_agent h) (h_stream h) connection.

(** The modules that were online. *)
Definition persist_disconnect (retiring : bool) (agent connection : pystr) : st (list pystr) :=
  if retiring then st_ret []
  else
    stmt (modify (fun d => set_operations (Operations.disconnect_operations connection (operations d)) d)) ;~
    stmt (Handlers.check (Fleet.encodable agent) Fleet.UnicodeEncodeError) ;~
    stmt (modify (fun d => set_fleet (Fleet.set_agent_connected agent false (now clock) (fleet d)) d)) ;~
    going_down <~ st_get (fun s => Fleet.d_name <$> filter (fun r => Fleet.d_agent r = agent /\ Fleet.column_online r = true)
                                                    (Fleet.devices (fleet (Ingest.business s)))) ;;
    stmt (modify (fun d => set_fleet (Fleet.set_devices_offline agent (fleet d)) d)) ;~
    st_ret going_down.

(** [Database.apply_event] with [Gateway._apply] inside. *)
Definition persist_event (agent stream kind : pystr) (f : frame) : st (bool * option applied_event) :=
  fun s =>
    let seq := default 0 (as_int (jget "seq" f)) in
    match Ingest.apply_event agent seq
            (Handlers.apply repr text integer fromisoformat float_text clock agent kind (event_key agent stream seq) stream f) stream s with
    | Ok (fresh, x, s) => (Ok (fresh, x), s)
    | Err e => (Err (Database e), s)
    end.
End Jobs.

(** ** The event loop *)

(** Where a session's coroutine is: waiting for its registration job, having
    got its outcome, receiving, waiting for an event's job, having got its
    outcome, waiting for its disconnect job, having got the modules that went
    down, finished. *)
Inductive phase :=
| Registering | Registered (r : res exn unit)
| Serving
| Applying (kind : pystr) (f : frame) | Applied (kind : pystr) (f : frame) (r : res exn (bool * option applied_event))
| Leaving | Left (r : res exn (list pystr))
| Gone.

(** [AgentConnection]; a session is named by its generation. *)
Record session := mkSession { s_hello : hello; s_ready : bool; s_phase : phase }.

Definition set_phase (p : phase) (x : session) : session := mkSession (s_hello x) (s_ready x) p.
Definition set_ready (b : bool) (x : session) : session := mkSession (s_hello x) b (s_phase x).
Definition s_agent (x : session) : pystr := h_agent (s_hello x).
Definition s_stream (x : session) : pystr := h_stream (s_hello x).

(** What became of a [call]: the result and the session it came over. *)
Inductive outcome := Waiting | Answered (source : Z) (v : json) | Refused (source : Z) (e : json) | ResultUnknown | TimedOut.
Record waiter := mkWaiter { w_cmd : pystr; w_agent : pystr; w_source : Z; w_state : outcome }.

(** [create_operation]'s arguments. *)
Record request := mkRequest {
  rq_actor : pystr; rq_target : Operations.target; rq_frame : frame; rq_hash : pystr; rq_key : pystr;
  rq_deadline : pystr; rq_id : pystr; rq_token : pystr }.

(** Jobs in the worker's queue.  A claim names the session the dispatcher saw
    ready; a creation the session, if any, whose stream and id it copies. *)
Inductive job :=
| JRegister (n : Z) (h : hello)
| JApply (n : Z) (agent stream kind : pystr) (f : frame)
| JDisconnect (n : Z) (agent : pystr)
| JCreate (r : request) (origin : option (Z * pystr))
| JClaim (id : pystr) (n : Z)
| JSendFailed (id : pystr)
| JExpire
| JOther (f : Handlers.database -> Handlers.database).

Record gateway := mkGateway {
  connections : gmap (list Z) Z;
  sessions : gmap Z session;
  generations : Z;
  pending : gmap (list Z) Z;
  waiters : gmap Z waiter; next_waiter : Z;
  maintenance : bool; retiring : bool;
  looked : list (request * bool);
  read : option Operations.operation;
  jobs : list job;
  db : Ingest.database Handlers.database;
  notes : list (pystr * json * bool);
  acks : list (Z * Z) }.

Definition set_connections x g := mkGateway x (sessions g) (generations g) (pending g) (waiters g) (next_waiter g) (maintenance g) (retiring g) (looked g) (read g) (jobs g) (db g) (notes g) (acks g).
Definition set_sessions x g := mkGateway (connections g) x (generations g) (pending g) (waiters g) (next_waiter g) (maintenance g) (retiring g) (looked g) (read g) (jobs g) (db g) (notes g) (acks g).
Definition set_generations x g := mkGateway (connections g) (sessions g) x (pending g) (waiters g) (next_waiter g) (maintenance g) (retiring g) (looked g) (read g) (jobs g) (db g) (notes g) (acks g).
Definition set_pending x g := mkGateway (connections g) (sessions g) (generations g) x (waiters g) (next_waiter g) (maintenance g) (retiring g) (looked g) (read g) (jobs g) (db g) (notes g) (acks g).
Definition set_waiters x n g := mkGateway (connections g) (sessions g) (generations g) (pending g) x n (maintenance g) (retiring g) (looked g) (read g) (jobs g) (db g) (notes g) (acks g).
Definition set_flags m r g := mkGateway (connections g) (sessions g) (generations g) (pending g) (waiters g) (next_waiter g) m r (looked g) (read g) (jobs g) (db g) (notes g) (acks g).
Definition set_looked x g := mkGateway (connections g) (sessions g) (generations g) (pending g) (waiters g) (next_waiter g) (maintenance g) (retiring g) x (read g) (jobs g) (db g) (notes g) (acks g).
Definition set_read x g := mkGateway (connections g) (sessions g) (generations g) (pending g) (waiters g) (next_waiter g) (maintenance g) (retiring g) (looked g) x (jobs g) (db g) (notes g) (acks g).
Definition set_jobs x g := mkGateway (connections g) (sessions g) (generations g) (pending g) (waiters g) (next_waiter g) (maintenance g) (retiring g) (looked g) (read g) x (db g) (notes g) (acks g).
Definition set_db x g := mkGateway (connections g) (sessions g) (generations g) (pending g) (waiters g) (next_waiter g) (maintenance g) (retiring g) (looked g) (read g) (jobs g) x (notes g) (acks g).
Definition add_notes x g := mkGateway (connections g) (sessions g) (generations g) (pending g) (waiters g) (next_waiter g) (maintenance g) (retiring g) (looked g) (read g) (jobs g) (db g) (notes g ++ x) (acks g).
Definition add_ack x g := mkGateway (connections g) (sessions g) (generations g) (pending g) (waiters g) (next_waiter g) (maintenance g) (retiring g) (looked g) (read g) (jobs g) (db g) (notes g) (acks g ++ [x]).

Definition enqueue_job (j : job) (g : gateway) : gateway := set_jobs (jobs g ++ [j]) g.
Definition on_session (n : Z) (f : session -> session) (g : gateway) : gateway := set_sessions (alter f n (sessions g)) g.

(** [connections.get(agent)] and whether it is [ready]. *)
Definition ready_session (agent : pystr) (g : gateway) : option (Z * session) :=
  n ← connections g !! agent; x ← sessions g !! n; if s_ready x then Some (n, x) else None.

(** *** Commands waiting on a session *)

Definition waits_on (agent : pystr) (n : Z) (w : waiter) : Prop := w_agent w = agent /\ w_source w = n.
#[export] Instance waits_on_dec agent n w : Decision (waits_on agent n w).
Proof. unfold waits_on. apply _. Defined.

Definition finish (o : outcome) (w : waiter) : waiter :=
  match w_state w with Waiting => mkWaiter (w_cmd w) (w_agent w) (w_source w) o | _ => w end.

(** The entries of [_pending] the connection owes, and the others. *)
Definition owed_by (agent : pystr) (n : Z) (g : gateway) (i : Z) : Prop :=
  match waiters g !! i with Some w => waits_on agent n w | None => False end.
#[export] Instance owed_by_dec agent n g i : Decision (owed_by agent n g i).
Proof. unfold owed_by. destruct (waiters g !! i); apply _. Defined.

Definition abandon_pending (agent : pystr) (n : Z) (g : gateway) : gateway :=
  let gone := filter (fun ci => owed_by agent n g ci.2) (pending g) in
  set_pending (filter (fun ci => ~ owed_by agent n g ci.2) (pending g))
    (set_waiters (map_imap (fun i w => Some (if bool_decide (gone !! w_cmd w = Some i) then finish ResultUnknown w else w)) (waiters g))
       (next_waiter g) g).

Section Loop.
Context (repr text : json -> pystr) (integer : json -> option Z).
Context (fromisoformat : pystr -> option Z) (float_text : pystr -> option spec_float).
(** The random id of the [n]th connection. *)
Context (token : Z -> pystr).

Definition resolve_command (agent : pystr) (n : Z) (f : frame) (g : gateway) : gateway :=
  let cmd := py_str repr (jget "cmd_id" f) in
  match i ← pending g !! cmd; w ← waiters g !! i; Some (i, w) with
  | None => g
  | Some (i, w) =>
      if bool_decide (waits_on agent n w) then
        let o := if truthy (jget "ok" f) then Answered n (or_else (jget "data" f) (JObj []))
                 else Refused n (or_else (jget "error" f) (JStr (str "command failed"))) in
        set_pending (delete cmd (pending g)) (set_waiters (<[i := finish o w]> (waiters g)) (next_waiter g) g)
      else g
  end.

(** [call] to an agent without durable commands, or of [sync_tasks]. *)
Definition call (agent cmd : pystr) (g : gateway) : option gateway :=
  match ready_session agent g with
  | None => None
  | Some (n, x) =>
      if maintenance g then None
      else Some (set_pending (<[cmd := next_waiter g]> (pending g))
             (set_waiters (<[next_waiter g := mkWaiter cmd agent n Waiting]> (waiters g)) (next_waiter g + 1) g))
  end.

(** The wait ends by its timeout (or the send raises); [finally] forgets the command. *)
Definition time_out (i : Z) (g : gateway) : gateway :=
  match waiters g !! i with
  | Some w => set_pending (delete (w_cmd w) (pending g)) (set_waiters (<[i := finish TimedOut w]> (waiters g)) (next_waiter g) g)
  | None => g
  end.

(** *** A session's life *)

Definition register (h : hello) (g : gateway) : gateway :=
  let n := generations g in
  enqueue_job (JRegister n h)
    (set_connections (<[h_agent h := n]> (connections g))
      (set_sessions (<[n := mkSession h false Registering]> (sessions g)) (set_generations (n + 1) g))).

Definition unregister (n : Z) (x : session) (g : gateway) : gateway :=
  let agent := s_agent x in
  if retiring g then abandon_pending agent n (on_session n (fun x => set_ready false (set_phase Gone x)) g)
  else if negb (bool_decide (connections g !! agent = Some n)) then on_session n (set_phase Gone) g
  else enqueue_job (JDisconnect n agent) (abandon_pending agent n (on_session n (fun x => set_ready false (set_phase Leaving x)) g)).

Definition hello_notes (h : hello) : list (pystr * json * bool) :=
  omap (fun f => let name := jget_or "name" (JStr []) f in
                 if jhas "online" f && truthy name then Some (h_agent h, name, truthy (jget "online" f)) else None) (h_devices h).

(** [_register] after its job: [connection.ready] and the modules' edges. *)
Definition resume_register (n : Z) (x : session) (r : res exn unit) (g : gateway) : gateway :=
  match r with
  | Ok _ =>
      if retiring g then unregister n x g
      else add_notes (hello_notes (s_hello x)) (on_session n (fun x => set_ready true (set_phase Serving x)) g)
  | Err _ => unregister n x g
  end.

(** [_ingest] up to its job. *)
Definition begin_ingest (n : Z) (x : session) (kind : pystr) (f : frame) (g : gateway) : gateway :=
  if retiring g || negb (s_ready x) then g
  else if negb (Ingest.valid_seq (jget "seq" f)) then g
  else enqueue_job (JApply n (s_agent x) (s_stream x) kind f) (on_session n (set_phase (Applying kind f)) g).

Definition after_apply (n : Z) (x : session) (f : frame) (a : applied_event) (g : gateway) : gateway :=
  let g := if command_result a then resolve_command (s_agent x) n f g else g in
  match device_change a with
  | Some (device, on) => if bool_decide (device = []) then g else add_notes [(s_agent x, JStr device, on)] g
  | None => g
  end.

(** [_ingest] after its job: the hooks of a fresh event, and the ACK. *)
Definition resume_ingest (n : Z) (x : session) (f : frame) (r : res exn (bool * option applied_event)) (g : gateway) : gateway :=
  match r with
  | Err _ => unregister n x g
  | Ok (fresh, a) =>
      let g := on_session n (set_phase Serving) g in
      if retiring g || negb (s_ready x) then g
      else
        let g := match a with Some a => after_apply n x f a g | None => g end in
        add_ack (n, default 0 (as_int (jget "seq" f))) g
  end.

(** [_unregister] after its job. *)
Definition resume_unregister (n : Z) (x : session) (r : res exn (list pystr)) (g : gateway) : gateway :=
  let g := match r with
           | Ok names => add_notes (omap (fun name => if bool_decide (name = []) then None else Some (s_agent x, JStr name, false)) names) g
           | Err _ => g
           end in
  let g := if bool_decide (connections g !! s_agent x = Some n) then set_connections (delete (s_agent x) (connections g)) g else g in
  on_session n (set_phase Gone) g.

Definition retire_for_restore (g : gateway) : gateway :=
  let one g an := match sessions g !! an.2 with
                  | Some x => abandon_pending (s_agent x) an.2 (on_session an.2 (set_ready false) g)
                  | None => g
                  end in
  set_connections ∅ (foldl one (set_flags (maintenance g) true g) (map_to_list (connections g))).

(** *** Operations *)

Definition map_operations (f : list Operations.operation -> list Operations.operation) (g : gateway) : gateway :=
  let d := Ingest.business (db g) in set_db (with_business (set_operations (f (operations d)) d) (db g)) g.

(** [submit_operation] after its lookup found a request ([existing]) or not. *)
Definition submit (r : request) (existing : bool) (g : gateway) : option gateway :=
  if maintenance g then None
  else
    let agent := Operations.tg_agent_id (rq_target r) in
    if existing then
      Some (enqueue_job (JCreate r (n ← connections g !! agent; x ← sessions g !! n; Some (n, s_stream x))) g)
    else
      match ready_session agent g with
      | Some (n, x) => if h_durable (s_hello x) then Some (enqueue_job (JCreate r (Some (n, s_stream x))) g) else None
      | None => None
      end.

(** The dispatcher's check of an operation it read, and the claim. *)
Definition dispatch_claim (o : Operations.operation) (g : gateway) : gateway :=
  match ready_session (Operations.o_agent_id o) g with
  | Some (n, _) => if bool_decide (token n = Operations.o_connection_id o) then enqueue_job (JClaim (Operations.o_id o) n) g else g
  | None => g
  end.

(** The reads before a submission and of an operation by the dispatcher. *)
Definition lookup_request (r : request) (g : gateway) : bool :=
  existsb (Operations.same_request (rq_actor r) (Operations.tg_id (rq_target r)) (rq_key r)) (operations (Ingest.business (db g))).

(** *** The worker *)

Definition create (r : request) (origin : option (Z * pystr)) (now_text : pystr) (t : list Operations.operation) : list Operations.operation :=
  match Operations.create_operation (rq_actor r) (rq_target r) (rq_frame r) (rq_hash r) (rq_key r) (rq_deadline r)
          (match origin with Some (_, stream) => stream | None => [] end) (match origin with Some (n, _) => token n | None => [] end)
          (rq_id r) (rq_token r) now_text t with
  | Ok (_, t) => t
  | Err _ => t
  end.

Definition send_failed (id : pystr) (t : list Operations.operation) : list Operations.operation :=
  Operations.update (fun o => bool_decide (Operations.o_id o = id) && Operations.has Operations.Running o)
    (Operations.set_status Operations.Unknown (str "socket send did not complete")) t.

Definition run_job (clock : Z) (now_text : pystr) (j : job) (g : gateway) : gateway :=
  match j with
  | JRegister n h =>
      let '(r, s) := persist_registration text clock (retiring g) h (token n) (db g) in
      set_db s (on_session n (set_phase (Registered r)) g)
  | JApply n agent stream kind f =>
      let '(r, s) := persist_event repr text integer fromisoformat float_text clock agent stream kind f (db g) in
      set_db s (on_session n (set_phase (Applied kind f r)) g)
  | JDisconnect n agent =>
      let '(r, s) := persist_disconnect clock (retiring g) agent (token n) (db g) in
      set_db s (on_session n (set_phase (Left r)) g)
  | JCreate r origin => map_operations (create r origin now_text) g
  | JClaim id n => map_operations (fun t => (Operations.claim_operation id now_text t).2) g
  | JSendFailed id => map_operations (send_failed id) g
  | JExpire => map_operations (Operations.expire_operations now_text) g
  | JOther f => set_db (with_business (f (Ingest.business (db g))) (db g)) g
  end.

(** ** Runs *)

(** Active operations are as they were, or finished; the agents and every row
    are still there. *)
Record kept (d d' : Handlers.database) : Prop := {
  k_agents : Fleet.agents (fleet d') = Fleet.agents (fleet d);
  k_active : forall o, o ∈ operations d' -> Operations.active o = true -> o ∈ operations d;
  k_rows : Operations.request_of <$> operations d' = Operations.request_of <$> operations d }.

(** One turn of the event loop, or one job of the worker.  Command ids and
    operation ids are random; a drawn one is not in use. *)
Inductive step : gateway -> gateway -> Prop :=
| step_hello length_ f h g :
    on_text repr false length_ f (fun a => bool_decide (is_Some (connections g !! a))) (maintenance g || retiring g) = Registers h ->
    step g (register h g)
| step_job clock now_text j rest g : jobs g = j :: rest -> step g (run_job clock now_text j (set_jobs rest g))
| step_registered n x r g : sessions g !! n = Some x -> s_phase x = Registered r -> step g (resume_register n x r g)
| step_frame n x length_ v kind f g : sessions g !! n = Some x -> s_phase x = Serving ->
    on_text repr true length_ v (fun a => bool_decide (is_Some (connections g !! a))) (maintenance g || retiring g) = Ingests kind f ->
    step g (begin_ingest n x kind f g)
| step_applied n x kind f r g : sessions g !! n = Some x -> s_phase x = Applied kind f r -> step g (resume_ingest n x f r g)
| step_leave n x g : sessions g !! n = Some x -> s_phase x = Serving -> step g (unregister n x g)
| step_left n x r g : sessions g !! n = Some x -> s_phase x = Left r -> step g (resume_unregister n x r g)
| step_call agent cmd g g' : (forall i w, waiters g !! i = Some w -> w_cmd w <> cmd) -> call agent cmd g = Some g' -> step g g'
| step_time_out i g : step g (time_out i g)
| step_lookup r g : step g (set_looked ((r, lookup_request r g) :: looked g) g)
| step_submit r existing g g' : (r, existing) ∈ looked g -> submit r existing g = Some g' -> step g g'
| step_read o g : o ∈ operations (Ingest.business (db g)) -> step g (set_read (Some o) g)
| step_claim o g : read g = Some o -> step g (dispatch_claim o g)
| step_send_failed id g : step g (enqueue_job (JSendFailed id) g)
| step_expire g : step g (enqueue_job JExpire g)
| step_other f g : (forall d, kept d (f d)) -> step g (enqueue_job (JOther f) g)
| step_maintenance b g : step g (set_flags b (retiring g) g)
| step_retire g : step g (retire_for_restore g).

(** What the server starts from: [mark_all_agents_disconnected] and
    [recover_operations] have run. *)
Definition started (s : Ingest.database Handlers.database) : Prop :=
  (forall a r, Fleet.agents (fleet (Ingest.business s)) !! a = Some r -> Fleet.a_connected r = false /\ Fleet.encodable a = true)
  /\ (forall o, o ∈ operations (Ingest.business s) -> Operations.o_status o <> Operations.Running)
  /\ NoDup (Operations.o_id <$> operations (Ingest.business s))
  /\ (forall o n, o ∈ operations (Ingest.business s) -> Operations.active o = true -> Operations.o_connection_id o <> token n).

Definition initial (s : Ingest.database Handlers.database) : gateway :=
  mkGateway ∅ ∅ 1 ∅ ∅ 0 false false [] None [] s [] [].
End Loop.

(** ** What the applied events keep *)

#[export] Instance kept_preorder : PreOrder kept.
Proof. split; [by split|]. intros d1 d2 d3 [A1 B1 C1] [A2 B2 C2]. split; [congruence|auto|congruence]. Qed.

Lemma kept_same d d' : Fleet.agents (fleet d') = Fleet.agents (fleet d) -> operations d' = operations d -> kept d d'.
Proof. intros Ea Eo. split; [done|by rewrite Eo|by rewrite Eo]. Qed.

Lemma update_kept p f d :
  (forall o, p o = true -> Operations.request_of (f o) = Operations.request_of o /\ (Operations.active (f o) = true -> f o = o)) ->
  kept d (set_operations (Operations.update p f (operations d)) d).
Proof.
  intros H. split; [done| |].
  - intros o (o' & -> & Ho)%list_elem_of_fmap Ha. cbn in Ha |- *. destruct (p o') eqn:E; [|done]. by rewrite (proj2 (H o' E) Ha).
  - cbn. unfold Operations.update. rewrite <- list_fmap_compose. apply list_fmap_ext. intros _ o _. cbn.
    destruct (p o) eqn:E; [|done]. by rewrite (proj1 (H o E)).
Qed.

Lemma disconnect_kept c d : kept d (set_operations (Operations.disconnect_operations c (operations d)) d).
Proof. by apply update_kept. Qed.
Lemma send_failed_kept id d : kept d (set_operations (send_failed id (operations d)) d).
Proof. by apply update_kept. Qed.
Lemma expire_kept t d : kept d (set_operations (Operations.expire_operations t (operations d)) d).
Proof. apply update_kept. intros o _. split; [done|]. by destruct (Operations.has Operations.Queued o). Qed.
Lemma cancel_kept id d : kept d (set_operations (Operations.cancel_operation id (operations d)).2 d).
Proof. by apply update_kept. Qed.

Lemma result_kept di dc a stream f d : kept d (set_operations (Operations.apply_operation_result di dc a stream f (operations d)) d).
Proof.
  unfold Operations.apply_operation_result. destruct (Operations.result_status _) as [s|] eqn:Es; [|done].
  apply Operations.result_status_rank in Es. repeat (case_match; try done). apply update_kept. intros o _. split; [done|].
  intros Ha%Operations.active_spec. cbn in Ha. destruct Ha as [-> | ->]; cbn in Es; lia.
Qed.

Lemma upsert_sim_agents iccid operator smsc t fl : Fleet.agents (Fleet.upsert_sim iccid operator smsc t fl).2 = Fleet.agents fl.
Proof. unfold Fleet.upsert_sim. by repeat case_match. Qed.

Lemma upsert_device_agents text agent f t fl : Fleet.agents (Fleet.upsert_device text agent f t fl).2 = Fleet.agents fl.
Proof.
  unfold Fleet.upsert_device. destruct (Fleet.card_of _ _) as [[[iccid operator] smsc]|]; [|done].
  pose proof (upsert_sim_agents iccid operator smsc t fl) as E. destruct (Fleet.upsert_sim _ _ _ _ _) as [sim fl']. cbn in E.
  repeat case_match; done.
Qed.

Lemma record_status_agents fi dev f t fl fl' : Fleet.record_status fi dev f t fl = Ok fl' -> Fleet.agents fl' = Fleet.agents fl.
Proof.
  unfold Fleet.record_status. intros E. destruct (Fleet.to_utc_iso _ _ _) as [ts|]; cbn [mbind res_bind] in E; [|done].
  destruct (Fleet.bind_values _) as [cols|]; cbn [mbind res_bind] in E; [|done]. repeat case_match; by simplify_eq.
Qed.

Definition keeps {A} (m : tx A) : Prop := Handlers.spec m (fun d _ d' => kept d d').

Lemma keeps_bind {A B} (m : tx A) (f : A -> tx B) : keeps m -> (forall a, keeps (f a)) -> keeps (bind_tx m f).
Proof.
  intros Hm Hf d b d' E. unfold bind_tx in E. destruct (m d) as [[a d1]|] eqn:Em; [|done].
  etrans; [exact (Hm _ _ _ Em)|exact (Hf _ _ _ _ E)].
Qed.
Lemma keeps_ret {A} (a : A) : keeps (ret a).
Proof. by intros d b d' [= _ <-]. Qed.
Lemma keeps_raise {A} e : keeps (raise (A := A) e).
Proof. by intros d b d' E. Qed.
Lemma keeps_lift {A} (r : res Fleet.exn A) : keeps (lift r).
Proof. intros d a d' E. unfold lift in E. destruct r; [|done]. by injection E as _ <-. Qed.
Lemma keeps_get {A} (f : Handlers.database -> A) : keeps (get f).
Proof. by intros d a d' [= _ <-]. Qed.
Lemma keeps_check b e : keeps (Handlers.check b e).
Proof. destruct b; [apply keeps_ret|apply keeps_raise]. Qed.
Lemma keeps_modify f : (forall d, kept d (f d)) -> keeps (modify f).
Proof. intros Hf d a d' [= _ <-]. apply Hf. Qed.
Lemma keeps_fleet {B} (r : Fleet.fleet -> res Fleet.exn Fleet.fleet) (k : tx B) :
  (forall fl fl', r fl = Ok fl' -> Fleet.agents fl' = Fleet.agents fl) -> keeps k ->
  keeps (bind_tx (get fleet) (fun t => bind_tx (lift (r t)) (fun t => bind_tx (modify (set_fleet t)) (fun _ => k)))).
Proof.
  intros Hr Hk d b d' E. unfold bind_tx, get, lift, modify in E. destruct (r (fleet d)) as [fl|] eqn:Er; [|done].
  etrans; [|exact (Hk _ _ _ E)]. apply kept_same; [exact (Hr _ _ Er)|done].
Qed.

Create HintDb keeps.
#[export] Hint Resolve keeps_ret keeps_raise keeps_lift keeps_get keeps_check : keeps.

Ltac keeps_step :=
  match goal with
  | |- keeps (bind_tx _ _) => apply keeps_bind; [|intros ?]
  | |- keeps (modify _) => apply keeps_modify; intros ?; first [apply result_kept | by apply kept_same]
  | |- keeps (if ?b then _ else _) => destruct b
  | |- keeps (match ?x with _ => _ end) => destruct x
  | |- keeps (let _ := _ in _) => cbv zeta
  | _ => solve [auto with keeps]
  end.
Ltac keeps_tac := repeat keeps_step.

Section Keeps.
Context (repr text : json -> pystr) (integer : json -> option Z).
Context (fromisoformat : pystr -> option Z) (float_text : pystr -> option spec_float) (clock : Z).

Lemma keeps_open fp k s src t x : keeps (Handlers.open_incident clock fp k s src t x).
Proof. unfold Handlers.open_incident. keeps_tac. Qed.
Lemma keeps_resolve fp x : keeps (Handlers.resolve_incident clock fp x).
Proof. unfold Handlers.resolve_incident. keeps_tac. Qed.
Lemma keeps_card iccid : keeps (upsert_card text clock iccid).
Proof.
  unfold upsert_card. destruct (truthy iccid); [|keeps_tac]. apply keeps_bind; [keeps_tac|intros i].
  intros d b d' E. cbn in E. injection E as _ <-. apply kept_same; [apply upsert_sim_agents|done].
Qed.
Lemma keeps_module agent f : keeps (Handlers.upsert_module text clock agent f).
Proof.
  intros d a d' E. unfold Handlers.upsert_module in E. pose proof (upsert_device_agents text agent f (now clock) (fleet d)) as H.
  destruct (Fleet.upsert_device _ _ _ _ _) as [[id|e] t]; [|done]. injection E as _ <-. by apply kept_same.
Qed.
Hint Resolve keeps_open keeps_resolve keeps_card keeps_module : keeps.

Lemma keeps_message iccid ts cols : keeps (insert_message text fromisoformat clock iccid ts cols).
Proof. unfold insert_message. keeps_tac. Qed.
Hint Resolve keeps_message : keeps.
Lemma keeps_sms_in agent f : keeps (apply_sms_in text fromisoformat clock agent f).
Proof. unfold apply_sms_in. keeps_tac. Qed.
Lemma keeps_sms_out agent f : keeps (apply_sms_out repr text fromisoformat clock agent f).
Proof. unfold apply_sms_out. keeps_tac. Qed.
Lemma keeps_delivery agent f : keeps (apply_sms_delivery repr fromisoformat clock agent f).
Proof. unfold apply_sms_delivery. keeps_tac. Qed.
Lemma keeps_voltage agent f : keeps (apply_supply_voltage repr clock agent f).
Proof. unfold apply_supply_voltage. keeps_tac. Qed.
Hint Resolve keeps_voltage : keeps.
Lemma keeps_status agent f : keeps (apply_status repr text fromisoformat clock agent f).
Proof.
  unfold apply_status. apply keeps_bind; [keeps_tac|intros id].
  apply (keeps_fleet (Fleet.record_status fromisoformat id f (now clock))); [apply record_status_agents|keeps_tac].
Qed.
Lemma keeps_call agent f : keeps (apply_call_event repr text fromisoformat float_text clock agent f).
Proof. unfold apply_call_event. keeps_tac. Qed.
Lemma keeps_recovery agent f : keeps (apply_device_recovery repr clock agent f).
Proof. unfold apply_device_recovery. keeps_tac. Qed.
Hint Resolve keeps_recovery : keeps.
Lemma keeps_log agent f : keeps (apply_log repr clock agent f).
Proof. unfold apply_log. keeps_tac. Qed.
Lemma keeps_task agent f : keeps (apply_task_result repr integer clock agent f).
Proof. unfold apply_task_result. keeps_tac. Qed.
Lemma keeps_result agent stream f : keeps (apply_cmd_result text agent stream f).
Proof. unfold apply_cmd_result. keeps_tac. Qed.
Lemma keeps_receipt agent f : keeps (apply_tasks_applied clock agent f).
Proof. unfold apply_tasks_applied. keeps_tac. Qed.
Lemma keeps_enqueue kind ref f key : keeps (enqueue clock kind ref f key).
Proof. unfold enqueue. keeps_tac. Qed.
Hint Resolve keeps_sms_in keeps_sms_out keeps_delivery keeps_status keeps_call keeps_log keeps_task keeps_result keeps_receipt keeps_enqueue : keeps.

Lemma keeps_apply agent kind key stream f : keeps (Handlers.apply repr text integer fromisoformat float_text clock agent kind key stream f).
Proof. unfold Handlers.apply, apply_kind, queue_notification. keeps_tac. Qed.

(** The job of an event, rolled back or committed. *)
Lemma persist_event_kept agent stream kind f s :
  kept (Ingest.business s) (Ingest.business (persist_event repr text integer fromisoformat float_text clock agent stream kind f s).2).
Proof.
  unfold persist_event, Ingest.apply_event. case_bool_decide; [done|].
  destruct (Handlers.apply _ _ _ _ _ _ _ _ _ _ _ _) as [[x d]|e] eqn:E; [|done]. exact (keeps_apply _ _ _ _ _ _ _ _ E).
Qed.
End Keeps.

(** ** What the session jobs change *)

(** The agents and the operations are untouched. *)
Definition still (s s' : Ingest.database Handlers.database) : Prop :=
  Fleet.agents (fleet (Ingest.business s')) = Fleet.agents (fleet (Ingest.business s))
  /\ operations (Ingest.business s') = operations (Ingest.business s).

#[export] Instance still_preorder : PreOrder still.
Proof. split; [by split|]. intros s1 s2 s3 [] []. split; congruence. Qed.

Definition stills {A} (m : st A) : Prop := forall s, still s (m s).2.

Lemma stills_bind {A B} (m : st A) (k : A -> st B) : stills m -> (forall a, stills (k a)) -> stills (st_bind m k).
Proof.
  intros Hm Hk s. unfold st_bind. specialize (Hm s). destruct (m s) as [[a|e] s']; [|done]. etrans; [exact Hm|apply Hk].
Qed.
Lemma stills_stmt {A} (m : tx A) :
  Handlers.spec m (fun d _ d' => Fleet.agents (fleet d') = Fleet.agents (fleet d) /\ operations d' = operations d) -> stills (stmt m).
Proof. intros H s. unfold stmt. destruct (m (Ingest.business s)) as [[a d]|e] eqn:E; [exact (H _ _ _ E)|done]. Qed.
Lemma stills_ret {A} (a : A) : stills (st_ret a).
Proof. done. Qed.
Lemma stills_get {A} (f : Ingest.database Handlers.database -> A) : stills (st_get f).
Proof. done. Qed.
Lemma stills_check b e : stills (stmt (Handlers.check b e)).
Proof. apply stills_stmt. intros d a d' E. destruct b; [|done]. by injection E as _ <-. Qed.
Lemma stills_open clock fp k s src t x : stills (stmt (Handlers.open_incident clock fp k s src t x)).
Proof.
  apply stills_stmt. intros d a d' E. unfold Handlers.open_incident, bind_tx, Handlers.check in E.
  destruct (forallb _ _); [|done]. by injection E as _ <-.
Qed.
Lemma stills_resolve clock fp x : stills (stmt (Handlers.resolve_incident clock fp x)).
Proof.
  apply stills_stmt. intros d a d' E. unfold Handlers.resolve_incident, bind_tx, Handlers.check in E.
  destruct (_ && _); [|done]. by injection E as _ <-.
Qed.
Lemma stills_module text clock agent f : stills (upsert_module text clock agent f).
Proof.
  intros s. unfold upsert_module. pose proof (upsert_device_agents text agent f (now clock) (fleet (Ingest.business s))) as H.
  destruct (Fleet.upsert_device _ _ _ _ _) as [[id|e] fl]; by split.
Qed.
#[export] Hint Resolve stills_ret stills_get stills_check stills_open stills_resolve stills_module : keeps.

Lemma stills_modules text clock agent l : stills (upsert_modules text clock agent l).
Proof. induction l as [|f l IH]; [apply stills_ret|]. apply stills_bind; auto with keeps. Qed.
Lemma stills_version clock agent version protocol : stills (note_version clock agent version protocol).
Proof. unfold note_version. destruct (version_problems _ _); auto with keeps. Qed.
Lemma stills_stream clock agent stream : stills (note_stream clock agent stream).
Proof.
  unfold note_stream. apply stills_bind; [auto with keeps|intros _]. apply stills_bind; [auto with keeps|intros previous].
  destruct (_ || _); [auto with keeps|]. apply stills_bind; [auto with keeps|intros found]. destruct (_ && _); auto with keeps.
Qed.

Definition agents_of (s : Ingest.database Handlers.database) := Fleet.agents (fleet (Ingest.business s)).
Definition operations_of (s : Ingest.database Handlers.database) := operations (Ingest.business s).

(** The row of a connected agent on a stream. *)
Definition connected_on (stream : pystr) (r : Fleet.agent_row) : Prop := Fleet.a_connected r = true /\ Fleet.a_stream r = stream.

Lemma upsert_agent_effect clock agent version protocol stream s : let r := upsert_agent clock agent version protocol stream s in
  operations_of r.2 = operations_of s /\
  match r.1 with
  | Ok _ => exists row, agents_of r.2 = <[agent := row]> (agents_of s) /\ connected_on stream row /\ Fleet.encodable agent = true
  | Err _ => agents_of r.2 = agents_of s
  end.
Proof.
  cbn zeta. unfold upsert_agent, st_bind, stmt, bind_tx, get, lift, modify.
  destruct (Fleet.upsert_agent _ _ _ _ _ _ _) as [fl|e] eqn:E; [|done]. unfold Fleet.upsert_agent, guard_err in E.
  destruct (_ && _ && _) eqn:Ee in E; cbn [mbind res_bind] in E; [|done]. destruct (Fleet.fits_int64 _); cbn [mbind res_bind] in E; [|done].
  injection E as <-. rewrite !andb_true_iff in Ee. destruct Ee as [[Ee _] _].
  split; [unfold operations_of; by repeat case_match|]. cbn [fst snd]. unfold agents_of.
  repeat case_match; cbn; eexists; (split; [reflexivity|by split]).
Qed.

(** The registration job: the agent's row, if it got that far, says connected;
    a registration that succeeds has rebound the queued operations. *)
Lemma persist_registration_effect text clock h c s : let r := persist_registration text clock false h c s in
  (agents_of r.2 = agents_of s
   \/ exists row, agents_of r.2 = <[h_agent h := row]> (agents_of s) /\ connected_on (h_stream h) row /\ Fleet.encodable (h_agent h) = true)
  /\ match r.1 with
     | Ok _ => operations_of r.2 = Operations.rebind_operations (h_agent h) (h_stream h) c (operations_of s)
               /\ exists row, agents_of r.2 !! h_agent h = Some row /\ connected_on (h_stream h) row
     | Err _ => operations_of r.2 = operations_of s
     end.
Proof.
  cbn zeta. destruct (persist_registration text clock false h c s) as [r s'] eqn:E. cbn [fst snd].
  unfold persist_registration, st_bind at 1 in E.
  pose proof (stills_stream clock (h_agent h) (h_stream h) s) as [A1 O1].
  destruct (note_stream _ _ _ s) as [[[]|e] s1]; cbn [fst snd] in *; [|injection E as <- <-; by auto].
  pose proof (upsert_agent_effect clock (h_agent h) (h_version h) (h_protocol h) (h_stream h) s1) as [O2 A2]. unfold st_bind at 1 in E.
  destruct (upsert_agent _ _ _ _ _ s1) as [[[]|e] s2]; cbn [fst snd] in *; unfold agents_of, operations_of in *;
    [|injection E as <- <-; split; [left|]; congruence].
  destruct A2 as (row & A2 & Hrow). rewrite A1 in A2. rewrite O1 in O2.
  assert (Hrest : forall s3, still s2 s3 -> agents_of s3 = <[h_agent h := row]> (agents_of s) /\ operations_of s3 = operations_of s)
    by (intros s3 [A3 O3]; unfold agents_of, operations_of; split; congruence).
  unfold st_bind at 1 in E. pose proof (stills_version clock (h_agent h) (h_version h) (h_protocol h) s2) as H3.
  destruct (note_version _ _ _ _ s2) as [[[]|e] s3]; cbn [fst snd] in *;
    [|injection E as <- <-; destruct (Hrest s3 H3) as [E3 E4]; split; [right; by exists row|done]].
  unfold st_bind at 1 in E. pose proof (stills_modules text clock (h_agent h) (h_devices h) s3) as H4.
  assert (H5 := transitivity H3 H4). clear H4. destruct (upsert_modules _ _ _ _ s3) as [[[]|e] s4]; cbn [fst snd] in *;
    destruct (Hrest s4 H5) as [E3 E4]; unfold agents_of, operations_of in *; cbn in E; injection E as <- <-;
    (split; [right; by exists row|]); [|done].
  cbn. rewrite E4. split; [done|]. exists row. split; [by rewrite E3, lookup_insert_eq|apply Hrow].
Qed.

Lemma persist_disconnect_effect clock agent c s : let r := persist_disconnect clock false agent c s in
  operations_of r.2 = Operations.disconnect_operations c (operations_of s)
  /\ (agents_of r.2 = alter (fun r => Fleet.mkAgent (Fleet.a_version r) (Fleet.a_protocol r) false (Fleet.a_stream r) (now clock) (Fleet.a_last_seq r))
                        agent (agents_of s)
      \/ Fleet.encodable agent = false /\ agents_of r.2 = agents_of s).
Proof. cbn zeta. unfold persist_disconnect, st_bind, stmt, Handlers.check. destruct (Fleet.encodable agent) eqn:E; cbn; auto. Qed.

(** ** Invariants

    Over the parts of a state they constrain: the registry [C], the sessions
    [S], the worker's queue [js], the agents table [A] and the operations [t]. *)

Definition serving (p : phase) : Prop := match p with Serving | Applying _ _ | Applied _ _ _ => True | _ => False end.
(** The agents table says connected because of this session. *)
Definition up (p : phase) : Prop := match p with Registered (Ok _) => True | _ => serving p end.
(** Between the registration and the disconnect job. *)
Definition open (p : phase) : Prop := match p with Registered _ | Leaving => True | _ => serving p end.

Lemma serving_up p : serving p -> up p.
Proof. by destruct p. Qed.
Lemma up_open p : up p -> open p.
Proof. by destruct p. Qed.
Lemma open_held p : open p -> p <> Gone.
Proof. by destruct p. Qed.
#[export] Hint Resolve serving_up up_open open_held : registry.

(** The session whose coroutine a job will wake. *)
Definition owner (j : job) : option Z :=
  match j with JRegister n _ | JApply n _ _ _ _ | JDisconnect n _ => Some n | _ => None end.

Definition own_ok (S : gmap Z session) (j : job) : Prop :=
  match j with
  | JRegister n h => exists x, S !! n = Some x /\ s_phase x = Registering /\ s_hello x = h
  | JApply n agent stream kind f => exists x, S !! n = Some x /\ s_phase x = Applying kind f /\ s_agent x = agent /\ s_stream x = stream
  | JDisconnect n agent => exists x, S !! n = Some x /\ s_phase x = Leaving /\ s_agent x = agent
  | JOther f => forall d, kept d (f d)
  | _ => True
  end.

Record loop_inv (C : gmap (list Z) Z) (S : gmap Z session) (next : Z) (js : list job) : Prop := {
  l_next : forall n x, S !! n = Some x -> n < next;
  l_conn : forall a n, C !! a = Some n -> exists x, S !! n = Some x /\ s_agent x = a /\ s_phase x <> Gone;
  l_held : forall n x, S !! n = Some x -> s_phase x <> Gone -> C !! s_agent x = Some n;
  l_jobs : forall j, j ∈ js -> own_ok S j;
  l_once : NoDup (omap owner js) }.

Record rows_inv (C : gmap (list Z) Z) (S : gmap Z session) (A : gmap (list Z) Fleet.agent_row) : Prop := {
  d_down : forall a r, A !! a = Some r -> Fleet.a_connected r = true ->
    exists n x, C !! a = Some n /\ S !! n = Some x /\ open (s_phase x);
  d_up : forall n x, S !! n = Some x -> up (s_phase x) -> exists r, A !! s_agent x = Some r /\ connected_on (s_stream x) r;
  d_text : forall a r, A !! a = Some r -> Fleet.encodable a = true }.

Section Owned.
Context (token : Z -> pystr) `{!Inj eq eq token}.

Definition queued_row (t : list Operations.operation) (o : Operations.operation) : Prop := o ∈ t /\ Operations.o_status o = Operations.Queued.
Definition running_row (t : list Operations.operation) (o : Operations.operation) : Prop := o ∈ t /\ Operations.o_status o = Operations.Running.

(** A queued operation is this session's. *)
Definition belongs (n : Z) (x : session) (o : Operations.operation) : Prop :=
  Operations.o_connection_id o = token n /\ Operations.o_agent_id o = s_agent x.

Definition stored (id : pystr) (t : list Operations.operation) : Prop := id ∈ Operations.o_id <$> t.
Definition requested (r : request) (t : list Operations.operation) : bool :=
  existsb (Operations.same_request (rq_actor r) (Operations.tg_id (rq_target r)) (rq_key r)) t.

Definition job_ok (S : gmap Z session) (t : list Operations.operation) (j : job) : Prop :=
  match j with
  | JCreate r origin => requested r t = true \/
      exists n x, origin = Some (n, s_stream x) /\ S !! n = Some x /\ open (s_phase x) /\ s_agent x = Operations.tg_agent_id (rq_target r)
  | JClaim id n => exists x, S !! n = Some x /\ open (s_phase x) /\ stored id t
      /\ forall o, queued_row t o -> Operations.o_id o = id -> belongs n x o
  | _ => True
  end.

(** A job that must run before the session's disconnect. *)
Definition needs (t : list Operations.operation) (j : job) (n : Z) : Prop :=
  match j with
  | JClaim _ m => m = n
  | JCreate r (Some (m, _)) => m = n /\ requested r t = false
  | _ => False
  end.

Record ops_inv (S : gmap Z session) (js : list job) (t : list Operations.operation) (rd : option Operations.operation)
    (lk : list (request * bool)) : Prop := {
  q_ids : NoDup (Operations.o_id <$> t);
  q_known : forall o n, queued_row t o -> Operations.o_connection_id o = token n ->
    exists x, S !! n = Some x /\ s_agent x = Operations.o_agent_id o;
  q_bound : forall n x o, S !! n = Some x -> up (s_phase x) -> queued_row t o ->
    Operations.o_agent_id o = s_agent x -> Operations.o_stream_id o = s_stream x -> Operations.o_connection_id o = token n;
  q_running : forall o, running_row t o -> exists n x, S !! n = Some x /\ open (s_phase x) /\ belongs n x o;
  q_read : forall o, rd = Some o -> stored (Operations.o_id o) t
    /\ forall o' n, queued_row t o' -> Operations.o_id o' = Operations.o_id o -> Operations.o_connection_id o = token n ->
       exists x, S !! n = Some x /\ (s_phase x <> Gone -> belongs n x o');
  q_looked : forall r, (r, true) ∈ lk -> requested r t = true;
  q_jobs : forall j, j ∈ js -> job_ok S t j;
  q_order : forall l1 j l2 n a, js = l1 ++ j :: l2 -> needs t j n -> JDisconnect n a ∉ l1 }.

(** Sessions move on: none disconnects, *)
Definition moves (S S' : gmap Z session) : Prop := forall n x, S !! n = Some x -> exists x', S' !! n = Some x'
  /\ s_hello x' = s_hello x /\ (open (s_phase x) -> open (s_phase x')) /\ (s_phase x = Gone -> s_phase x' = Gone).

(** and none registers. *)
Record calm (S S' : gmap Z session) : Prop := {
  c_moves : moves S S';
  c_up : forall n x', S' !! n = Some x' -> up (s_phase x') -> exists x, S !! n = Some x /\ s_hello x' = s_hello x /\ up (s_phase x) }.

Lemma calm_refl S : calm S S.
Proof. split; intros n x H; by exists x. Qed.

Lemma moves_at S n x x' : S !! n = Some x -> s_hello x' = s_hello x -> (open (s_phase x) -> open (s_phase x')) ->
  (s_phase x = Gone -> s_phase x' = Gone) -> moves S (<[n := x']> S).
Proof.
  intros Hn Hh Ho Hg m y Hy. destruct (decide (m = n)) as [->|Hm].
  - rewrite lookup_insert_eq. exists x'. rewrite Hn in Hy. by injection Hy as <-.
  - rewrite lookup_insert_ne by done. by exists y.
Qed.

Lemma calm_at S n x x' : S !! n = Some x -> s_hello x' = s_hello x -> (open (s_phase x) -> open (s_phase x')) ->
  (up (s_phase x') -> up (s_phase x)) -> (s_phase x = Gone -> s_phase x' = Gone) -> calm S (<[n := x']> S).
Proof.
  intros Hn Hh Ho Hu Hg. split; [by eapply moves_at|]. intros m y. destruct (decide (m = n)) as [->|Hm].
  - rewrite lookup_insert_eq. intros [= <-] Hy. exists x. auto.
  - rewrite lookup_insert_ne by done. by exists y.
Qed.

Lemma calm_fresh S n x : S !! n = None -> ~ up (s_phase x) -> calm S (<[n := x]> S).
Proof.
  intros Hn Hu. split.
  - intros m y Hy. rewrite lookup_insert_ne by congruence. by exists y.
  - intros m y. destruct (decide (m = n)) as [->|Hm]; [by rewrite lookup_insert_eq; intros [= <-]|].
    rewrite lookup_insert_ne by done. by exists y.
Qed.

Lemma same_hello x x' : s_hello x' = s_hello x -> s_agent x' = s_agent x /\ s_stream x' = s_stream x.
Proof. unfold s_agent, s_stream. by intros ->. Qed.

Lemma rows_calm C C' S S' A : rows_inv C S A -> calm S S' ->
  (forall a n x, C !! a = Some n -> S' !! n = Some x -> open (s_phase x) -> C' !! a = Some n) -> rows_inv C' S' A.
Proof.
  intros HD HC Hkeep. split; [| |exact (d_text _ _ _ HD)].
  - intros a r Ha Hr. destruct (d_down _ _ _ HD a r Ha Hr) as (n & x & Hn & Hx & Ho).
    destruct (c_moves _ _ HC n x Hx) as (x' & Hx' & _ & Ho' & _). exists n, x'.
    split_and!; [exact (Hkeep _ _ _ Hn Hx' (Ho' Ho))|done|auto].
  - intros n x' Hx' Hu. destruct (c_up _ _ HC n x' Hx' Hu) as (x & Hx & [Ea Es]%same_hello & Hux).
    rewrite Ea, Es. exact (d_up _ _ _ HD n x Hx Hux).
Qed.

Lemma belongs_hello n x x' o : s_hello x' = s_hello x -> belongs n x o -> belongs n x' o.
Proof. intros [E _]%same_hello. unfold belongs. by rewrite E. Qed.

Lemma job_moves S S' t j : moves S S' -> job_ok S t j -> job_ok S' t j.
Proof.
  intros HC. destruct j; cbn [job_ok]; try done.
  - intros [H|(n & x & -> & Hx & Ho & Ha)]; [by left|right]. destruct (HC n x Hx) as (x' & Hx' & [Ea Es]%same_hello & Ho' & _).
    exists n, x'. rewrite Ea, Es. auto.
  - intros (x & Hx & Ho & Hid & H). destruct (HC n x Hx) as (x' & Hx' & Hh & Ho' & _). exists x'. split_and!; auto.
    intros o H1 H2. eapply belongs_hello; eauto.
Qed.

Lemma ops_moves S S' js t rd lk : ops_inv S js t rd lk -> moves S S' ->
  (forall n x o, S' !! n = Some x -> up (s_phase x) -> queued_row t o ->
    Operations.o_agent_id o = s_agent x -> Operations.o_stream_id o = s_stream x -> Operations.o_connection_id o = token n) ->
  ops_inv S' js t rd lk.
Proof.
  intros HO HC Hb. split; try by destruct HO.
  - intros o n Ho Hc. destruct (q_known _ _ _ _ _ HO o n Ho Hc) as (x & Hx & Ha). destruct (HC n x Hx) as (x' & Hx' & [Ea _]%same_hello & _).
    exists x'. by rewrite Ea.
  - intros o Ho. destruct (q_running _ _ _ _ _ HO o Ho) as (n & x & Hx & Hop & Hbe). destruct (HC n x Hx) as (x' & Hx' & Hh & Hop' & _).
    exists n, x'. split_and!; eauto using belongs_hello.
  - intros o Ho. destruct (q_read _ _ _ _ _ HO o Ho) as [Hid H]. split; [done|]. intros o' n H1 H2 H3.
    destruct (H o' n H1 H2 H3) as (x & Hx & Hbe). destruct (HC n x Hx) as (x' & Hx' & Hh & _ & Hg).
    exists x'. split; [done|]. intros Hne. eapply belongs_hello; [done|]. apply Hbe. auto.
  - intros j Hj. eapply job_moves; [done|]. exact (q_jobs _ _ _ _ _ HO j Hj).
Qed.

Lemma ops_calm S S' js t rd lk : ops_inv S js t rd lk -> calm S S' -> ops_inv S' js t rd lk.
Proof.
  intros HO HC. apply (ops_moves S); [done|exact (c_moves _ _ HC)|]. intros n x' o Hx' Hu.
  destruct (c_up _ _ HC n x' Hx' Hu) as (x & Hx & [Ea Es]%same_hello & Hux). rewrite Ea, Es. exact (q_bound _ _ _ _ _ HO n x o Hx Hux).
Qed.

Lemma ops_pop S j js t rd lk : ops_inv S (j :: js) t rd lk -> ops_inv S js t rd lk.
Proof.
  intros HO. split; try by destruct HO.
  - intros k Hk. apply (q_jobs _ _ _ _ _ HO). by right.
  - intros l1 k l2 n a -> Hn Hin. apply (q_order _ _ _ _ _ HO (j :: l1) k l2 n a); [done..|by right].
Qed.

Lemma ops_app S js j t rd lk : ops_inv S js t rd lk -> job_ok S t j -> (forall n a, needs t j n -> JDisconnect n a ∉ js) ->
  ops_inv S (js ++ [j]) t rd lk.
Proof.
  intros HO Hj Hneed. split; try by destruct HO.
  - intros k [Hk| ->%list_elem_of_singleton]%elem_of_app; [by apply (q_jobs _ _ _ _ _ HO)|done].
  - intros l1 k l2 n a E Hn. destruct l2 as [|y l2 _] using rev_ind.
    + apply app_inj_tail in E as [<- <-]. auto.
    + rewrite app_comm_cons, app_assoc in E. apply app_inj_tail in E as [-> _]. by apply (q_order _ _ _ _ _ HO l1 k l2 n a).
Qed.

(** *** Jobs on the operations *)

Lemma ids_of_requests (t t' : list Operations.operation) : Operations.request_of <$> t' = Operations.request_of <$> t -> Operations.o_id <$> t' = Operations.o_id <$> t.
Proof.
  intros E. pose (first (r : pystr * pystr * Z * pystr * pystr * pystr * pystr * frame * pystr * pystr * (pystr * pystr) * pystr) :=
    r.1.1.1.1.1.1.1.1.1.1.1).
  assert (H : forall l, Operations.o_id <$> l = first <$> (Operations.request_of <$> l)) by (intros l; by rewrite <- list_fmap_compose).
  by rewrite !H, E.
Qed.

Lemma same_request_of actor dev key o o' : Operations.request_of o' = Operations.request_of o ->
  Operations.same_request actor dev key o' = Operations.same_request actor dev key o.
Proof. 
  unfold Operations.request_of, Operations.same_request. intros E.
  assert (Operations.o_actor o' = Operations.o_actor o) as -> by congruence.
  assert (Operations.o_device_id o' = Operations.o_device_id o) as -> by congruence.
  by assert (Operations.o_idempotency_key o' = Operations.o_idempotency_key o) as -> by congruence.
Qed.

Lemma requested_same r (t t' : list Operations.operation) : Operations.request_of <$> t' = Operations.request_of <$> t -> requested r t' = requested r t.
Proof.
  unfold requested. revert t. induction t' as [|o' t' IH]; intros [|o t] E; try done.
  pose proof (f_equal head E) as Eo. pose proof (f_equal tail E) as Et. cbn in Eo, Et.
  cbn [existsb]. rewrite (IH t Et). f_equal. apply same_request_of. congruence.
Qed.

(** Rows may finish, and start where a session answers for them. *)
Lemma ops_advance S js (t t' : list Operations.operation) rd lk : ops_inv S js t rd lk ->
  Operations.request_of <$> t' = Operations.request_of <$> t ->
  (forall o, queued_row t' o -> queued_row t o) ->
  (forall o, running_row t' o -> running_row t o \/ exists n x, S !! n = Some x /\ open (s_phase x) /\ belongs n x o) ->
  ops_inv S js t' rd lk.
Proof.
  intros HO Hreq Hq Hr. pose proof (ids_of_requests _ _ Hreq) as Hids. split.
  - rewrite Hids. exact (q_ids _ _ _ _ _ HO).
  - intros o n Ho. apply (q_known _ _ _ _ _ HO). auto.
  - intros n x o Hx Hu Ho. apply (q_bound _ _ _ _ _ HO); auto.
  - intros o [Ho|Ho]%Hr; [exact (q_running _ _ _ _ _ HO o Ho)|done].
  - intros o Ho. unfold stored. rewrite Hids. destruct (q_read _ _ _ _ _ HO o Ho) as [Hid H]. split; [done|]. intros o' n H1. apply H. auto.
  - intros r H. rewrite (requested_same _ _ _ Hreq). exact (q_looked _ _ _ _ _ HO r H).
  - intros j Hj. pose proof (q_jobs _ _ _ _ _ HO j Hj) as H. destruct j; cbn [job_ok] in *; try done.
    + by rewrite (requested_same _ _ _ Hreq).
    + unfold stored in *. rewrite Hids. destruct H as (x & Hx & Ho & Hid & H). exists x. split_and!; auto.
  - intros l1 j l2 n a E Hn. apply (q_order _ _ _ _ _ HO l1 j l2 n a E). destruct j as [| | |r [[m ?]|]| | | |]; cbn [needs] in *; try done.
    by rewrite <- (requested_same _ _ _ Hreq).
Qed.

Lemma queued_active o : Operations.o_status o = Operations.Queued -> Operations.active o = true.
Proof. intros H. apply Operations.active_spec. auto. Qed.
Lemma running_active o : Operations.o_status o = Operations.Running -> Operations.active o = true.
Proof. intros H. apply Operations.active_spec. auto. Qed.

Lemma ops_kept S js d d' rd lk : ops_inv S js (operations d) rd lk -> kept d d' -> ops_inv S js (operations d') rd lk.
Proof.
  intros HO [_ Hact Hrows]. apply (ops_advance _ _ (operations d)); try done.
  - intros o [Ho Hs]. split; [|done]. apply Hact; auto using queued_active.
  - intros o [Ho Hs]. left. split; [|done]. apply Hact; auto using running_active.
Qed.

Lemma rows_kept C S d d' : rows_inv C S (Fleet.agents (fleet d)) -> kept d d' -> rows_inv C S (Fleet.agents (fleet d')).
Proof. intros HD [Ha _ _]. by rewrite Ha. Qed.

Lemma unique_row (t : list Operations.operation) o o' : NoDup (Operations.o_id <$> t) -> o ∈ t -> o' ∈ t -> Operations.o_id o = Operations.o_id o' -> o = o'.
Proof.
  intros Hn [i Hi]%list_elem_of_lookup [j Hj]%list_elem_of_lookup E.
  assert (i = j) as -> by (eapply NoDup_lookup; [exact Hn|by rewrite list_lookup_fmap, Hi|by rewrite list_lookup_fmap, Hj, E]). congruence.
Qed.

Lemma ops_claim S js id n now_text t rd lk : ops_inv S (JClaim id n :: js) t rd lk ->
  ops_inv S js (Operations.claim_operation id now_text t).2 rd lk.
Proof.
  intros HO. destruct (q_jobs _ _ _ _ _ HO (JClaim id n)) as (x & Hx & Hop & _ & Hb); [by left|]. apply ops_pop in HO.
  cbn [Operations.claim_operation snd]. apply (ops_advance _ _ t); [done|..].
  - unfold Operations.update. rewrite <- list_fmap_compose. apply list_fmap_ext. intros _ o _. cbn. by destruct (_ && _).
  - intros o [(o' & -> & Ho)%list_elem_of_fmap Hs]. revert Hs. cbn. destruct (_ && _) eqn:E; [done|]. intros Hs. by split.
  - intros o [(o' & -> & Ho)%list_elem_of_fmap Hs]. revert Hs. cbn. destruct (_ && _) eqn:E; intros Hs; [|left; by split].
    right. exists n, x. rewrite !andb_true_iff, bool_decide_eq_true, Operations.has_true in E. destruct E as [[Ei Eq] _].
    split_and!; [done..|]. destruct (Hb o') as [H1 H2]; [by split|done|]. by split.
Qed.

Lemma find_id_stored id t : Operations.find_id id t = None <-> ~ stored id t.
Proof.
  unfold Operations.find_id, stored. split.
  - intros E (o & -> & Ho)%list_elem_of_fmap. eapply find_none in E; [|by apply list_elem_of_In]. cbn in E. by rewrite bool_decide_eq_false in E.
  - intros H. destruct (List.find _ t) as [o|] eqn:E; [|done]. apply find_some in E as [Ho E]. cbn in E. rewrite bool_decide_eq_true in E.
    contradict H. rewrite <- E. apply list_elem_of_fmap_2. by apply list_elem_of_In.
Qed.

Lemma requested_find r t : requested r t = true ->
  is_Some (List.find (Operations.same_request (rq_actor r) (Operations.tg_id (rq_target r)) (rq_key r)) t).
Proof.
  unfold requested. intros (o & Ho & E)%existsb_exists. destruct (List.find _ t) eqn:F; [done|].
  eapply find_none in F; [|exact Ho]. congruence.
Qed.

(** A creation adds nothing, or one queued row of its target. *)
Lemma create_row_cases r origin now_text t : create token r origin now_text t = t
  \/ requested r t = false /\ ~ stored (rq_id r) t /\ exists o, create token r origin now_text t = t ++ [o]
    /\ Operations.o_id o = rq_id r /\ Operations.o_status o = Operations.Queued
    /\ Operations.o_agent_id o = Operations.tg_agent_id (rq_target r)
    /\ Operations.o_connection_id o = match origin with Some (n, _) => token n | None => [] end
    /\ Operations.o_stream_id o = match origin with Some (_, stream) => stream | None => [] end.
Proof.
  unfold create, Operations.create_operation. destruct (List.find _ t) as [o|] eqn:E; [left; by destruct (bool_decide _)|].
  destruct (_ || _); [by left|]. destruct (Operations.find_id (rq_id r) t) eqn:F; [by left|].
  right. split_and!; [|by apply find_id_stored|eexists; split; [reflexivity|done]].
  unfold requested. destruct (existsb _ t) eqn:X; [|done]. apply requested_find in X as [? X]. congruence.
Qed.

Lemma requested_app r t o : requested r t = true -> requested r (t ++ [o]) = true.
Proof. unfold requested. rewrite existsb_app. by intros ->. Qed.

Lemma ops_create C S next js r origin now_text t rd lk : loop_inv C S next js -> ops_inv S (JCreate r origin :: js) t rd lk ->
  ops_inv S js (create token r origin now_text t) rd lk.
Proof.
  intros HL HO. destruct (create_row_cases r origin now_text t) as [->|(Hnew & Hid & o & -> & Eid & Est & Eag & Eco & Esr)]; [by eapply ops_pop|].
  destruct (q_jobs _ _ _ _ _ HO (JCreate r origin)) as [?|(n & x & -> & Hx & Hop & Ha)]; [by left|congruence|]. apply ops_pop in HO.
  rewrite <- Ha in Eag.
  assert (Hrow : forall o' st, o' ∈ t ++ [o] -> Operations.o_status o' = st -> o' ∈ t \/ o' = o /\ st = Operations.Queued)
    by (intros o' st [?| ->%list_elem_of_singleton]%elem_of_app <-; auto).
  assert (Hmine : forall m y, S !! m = Some y -> s_phase y <> Gone -> s_agent y = s_agent x -> m = n).
  { intros m y Hy Hg E. apply (l_held _ _ _ _ HL) in Hy; [|done]. apply (l_held _ _ _ _ HL) in Hx; [|by apply open_held]. congruence. }
  assert (Hst : forall i, stored i t -> i <> rq_id r) by (intros i Hi ->; done).
  split.
  - rewrite fmap_app. apply NoDup_app. split_and!; [exact (q_ids _ _ _ _ _ HO)| |apply NoDup_singleton].
    intros i Hi ->%list_elem_of_singleton. by rewrite Eid in Hi.
  - intros o' m [Ho' Hs] Hc. destruct (Hrow _ _ Ho' Hs) as [?|[-> _]]; [by apply (q_known _ _ _ _ _ HO)|].
    assert (m = n) as -> by (apply (inj token); congruence). exists x. split; congruence.
  - intros m y o' Hy Hu [Ho' Hs] Ea Es. destruct (Hrow _ _ Ho' Hs) as [?|[-> _]]; [by apply (q_bound _ _ _ _ _ HO m y)|].
    rewrite (Hmine m y); [exact Eco|done|by apply open_held, up_open|congruence].
  - intros o' [Ho' Hs]. destruct (Hrow _ _ Ho' Hs) as [?|[_ ?]]; [by apply (q_running _ _ _ _ _ HO)|done].
  - intros o0 H0. destruct (q_read _ _ _ _ _ HO o0 H0) as [Hid0 H]. split.
    { unfold stored. rewrite fmap_app. apply elem_of_app. by left. }
    intros o' m [Ho' Hs] E Hc. destruct (Hrow _ _ Ho' Hs) as [?|[-> _]]; [by apply H|]. destruct (Hst _ Hid0). congruence.
  - intros r' H. apply requested_app. exact (q_looked _ _ _ _ _ HO r' H).
  - intros j Hj. pose proof (q_jobs _ _ _ _ _ HO j Hj) as H. destruct j as [| | |r' or|id m| | |]; cbn [job_ok] in *; try done.
    + destruct H as [H|H]; [left; by apply requested_app|by right].
    + destruct H as (y & Hy & Ho & Hid0 & H). exists y. split_and!; [done..| |].
      * unfold stored. rewrite fmap_app. apply elem_of_app. by left.
      * intros o' [Ho' Hs] E. destruct (Hrow _ _ Ho' Hs) as [?|[-> _]]; [by apply H|]. destruct (Hst _ Hid0). congruence.
  - intros l1 j l2 m a E Hn. apply (q_order _ _ _ _ _ HO l1 j l2 m a E). destruct j as [| | |r' [[k ?]|]| | | |]; cbn [needs] in *; try done.
    destruct Hn as [-> Hn]. split; [done|]. destruct (requested r' t) eqn:X; [|done]. apply (requested_app _ _ o) in X. congruence.
Qed.

(** *** Registration and disconnect jobs *)

Lemma rebind_requests a st c t : Operations.request_of <$> Operations.rebind_operations a st c t = Operations.request_of <$> t.
Proof.
  unfold Operations.rebind_operations, Operations.update. rewrite <- list_fmap_compose. apply list_fmap_ext. intros _ o _. cbn.
  by destruct (_ && _ && _).
Qed.

Lemma rebind_row a st c t o : o ∈ Operations.rebind_operations a st c t ->
  (o ∈ t /\ (Operations.o_status o = Operations.Queued -> Operations.o_agent_id o = a -> Operations.o_stream_id o <> st))
  \/ exists o0, queued_row t o0 /\ Operations.o_id o0 = Operations.o_id o /\ Operations.o_status o = Operations.Queued
       /\ Operations.o_agent_id o0 = a /\ Operations.o_agent_id o = a /\ Operations.o_stream_id o = st /\ Operations.o_connection_id o = c.
Proof.
  intros (o0 & -> & Ho)%list_elem_of_fmap. destruct (_ && _ && _) eqn:E.
  - rewrite !andb_true_iff, !bool_decide_eq_true, Operations.has_true in E. destruct E as [[E1 E2] E3]. right. exists o0. by split_and!.
  - left. split; [done|]. intros H1 H2 H3. rewrite !andb_false_iff, !bool_decide_eq_false in E. destruct E as [[E|E]|E]; [done| |done].
    apply not_true_iff_false in E. by rewrite Operations.has_true in E.
Qed.

Lemma rebind_row_queued a st c t o : queued_row (Operations.rebind_operations a st c t) o ->
  (queued_row t o /\ (Operations.o_agent_id o = a -> Operations.o_stream_id o <> st))
  \/ exists o0, queued_row t o0 /\ Operations.o_id o0 = Operations.o_id o /\ Operations.o_status o = Operations.Queued
       /\ Operations.o_agent_id o0 = a /\ Operations.o_agent_id o = a /\ Operations.o_stream_id o = st /\ Operations.o_connection_id o = c.
Proof. intros [[[Ho H]|H]%rebind_row Hs]; [left; split; [by split|auto]|by right]. Qed.

Lemma one_session C S next js n x m y : loop_inv C S next js -> S !! n = Some x -> S !! m = Some y ->
  s_phase x <> Gone -> s_phase y <> Gone -> s_agent y = s_agent x -> m = n.
Proof. intros HL Hx Hy Hgx Hgy E. apply (l_held _ _ _ _ HL) in Hx, Hy; [|done..]. congruence. Qed.

Lemma ops_rebind C S next js0 js n x t rd lk : loop_inv C S next js0 -> S !! n = Some x -> s_phase x = Registering ->
  ops_inv S js t rd lk ->
  ops_inv (<[n := set_phase (Registered (Ok tt)) x]> S) js (Operations.rebind_operations (s_agent x) (s_stream x) (token n) t) rd lk.
Proof.
  intros HL Hx Hph HO. set (t' := Operations.rebind_operations _ _ _ _).
  assert (Hg : s_phase x <> Gone) by by rewrite Hph.
  pose proof (rebind_requests (s_agent x) (s_stream x) (token n) t : Operations.request_of <$> t' = _) as Hreq.
  pose proof (ids_of_requests _ _ Hreq) as Hids.
  assert (Hmine : forall m y, S !! m = Some y -> s_phase y <> Gone -> s_agent y = s_agent x -> m = n)
    by (intros m y Hy Hgy E; by apply (one_session C S next js0 n x m y)).
  assert (HO' : ops_inv S js t' rd lk).
  { split.
    - rewrite Hids. exact (q_ids _ _ _ _ _ HO).
    - intros o m [[Ho _]|(o0 & _ & _ & _ & _ & Ea & _ & Ec)]%rebind_row_queued Hc. 1: by apply (q_known _ _ _ _ _ HO).
      assert (m = n) as -> by (apply (inj token); congruence). by exists x.
    - intros m y o Hy Hu [[Ho _]|(o0 & _ & _ & _ & _ & Ea & _ & Ec)]%rebind_row_queued E1 E2; [by apply (q_bound _ _ _ _ _ HO m y)|].
      rewrite (Hmine m y); [done..| |congruence]. by apply open_held, up_open.
    - intros o [[[Ho _]|(o0 & _ & _ & Hs & _)]%rebind_row Hr]; [by apply (q_running _ _ _ _ _ HO)|congruence].
    - intros o Ho. unfold stored. rewrite Hids. destruct (q_read _ _ _ _ _ HO o Ho) as [Hid H]. split; [done|].
      intros o' m [[Ho' _]|(o0 & Hq & Hi & Hs & Ea0 & Ea & _ & Ec)]%rebind_row_queued Ei Hc; [by apply H|].
      destruct (H o0 m) as (y & Hy & Hb); [done|congruence|done|]. exists y. split; [done|]. intros Hgy.
      destruct (Hb Hgy) as [_ Hay]. assert (m = n) as -> by (apply (Hmine m y); congruence).
      split; congruence.
    - intros r H. rewrite (requested_same _ _ _ Hreq). exact (q_looked _ _ _ _ _ HO r H).
    - intros j Hj. pose proof (q_jobs _ _ _ _ _ HO j Hj) as H. destruct j as [| | |r or|id m| | |]; cbn [job_ok] in *; try done.
      + by rewrite (requested_same _ _ _ Hreq).
      + unfold stored in *. rewrite Hids. destruct H as (y & Hy & Hop & Hid & H). exists y. split_and!; [done..|].
        intros o [[Ho _]|(o0 & Hq & Hi & Hs & Ea0 & Ea & _ & Ec)]%rebind_row_queued Ei; [by apply H|].
        destruct (H o0 Hq) as [_ Hay]; [congruence|]. assert (m = n) as -> by (apply (Hmine m y); [done|by apply open_held|congruence]).
        split; congruence.
    - intros l1 j l2 m a E Hn. apply (q_order _ _ _ _ _ HO l1 j l2 m a E). destruct j as [| | |r [[k ?]|]| | | |]; cbn [needs] in *; try done.
      by rewrite <- (requested_same _ _ _ Hreq). }
  apply (ops_moves S); [done| |].
  - eapply moves_at; [done..| |]; cbn; rewrite Hph; done.
  - intros m y o. destruct (decide (m = n)) as [->|Hm]; [|rewrite lookup_insert_ne by done; apply (q_bound _ _ _ _ _ HO')].
    rewrite lookup_insert_eq. intros [= <-] _ Hq Ea Es. cbn in Ea, Es.
    apply rebind_row_queued in Hq as [[Ho Hno]|(o0 & _ & _ & _ & _ & _ & _ & Ec)]; [|done]. by destruct (Hno Ea Es).
Qed.

Lemma ops_disconnect S js n a x t rd lk r : S !! n = Some x -> s_phase x = Leaving ->
  ops_inv S (JDisconnect n a :: js) t rd lk ->
  ops_inv (<[n := set_phase (Left r) x]> S) js (Operations.disconnect_operations (token n) t) rd lk.
Proof.
  intros Hx Hph HO0. pose proof (ops_pop _ _ _ _ _ _ HO0) as HO.
  assert (Hrun : forall o, running_row (Operations.disconnect_operations (token n) t) o ->
                 running_row t o /\ Operations.o_connection_id o <> token n).
  { intros o [(o0 & -> & Ho)%list_elem_of_fmap Hs]. revert Hs. cbn. destruct (_ && _) eqn:E; [done|]. intros Hs.
    split; [by split|]. intros Hc. rewrite andb_false_iff, bool_decide_eq_false in E. destruct E as [E|E]; [done|].
    apply not_true_iff_false in E. by rewrite Operations.has_true in E. }
  assert (HO' : ops_inv S js (Operations.disconnect_operations (token n) t) rd lk).
  { apply (ops_advance _ _ t); [done| | |].
    - unfold Operations.disconnect_operations, Operations.update. rewrite <- list_fmap_compose. apply list_fmap_ext. intros _ o _. cbn.
      by destruct (_ && _).
    - intros o [(o0 & -> & Ho)%list_elem_of_fmap Hs]. revert Hs. cbn. by destruct (_ && _).
    - intros o Ho. left. by apply Hrun. }
  set (x' := set_phase (Left r) x). set (S' := <[n := x']> S). set (t' := Operations.disconnect_operations _ _) in *.
  assert (Hlook : forall m y, S !! m = Some y -> m <> n -> S' !! m = Some y) by (intros m y Hy Hm; unfold S'; by rewrite lookup_insert_ne).
  assert (Hme : S' !! n = Some x') by (unfold S'; by rewrite lookup_insert_eq).
  assert (Hneed : forall j m, j ∈ js -> needs t' j m -> m <> n).
  { intros j m (l1 & l2 & ->)%list_elem_of_split Hn ->. apply (q_order _ _ _ _ _ HO0 (JDisconnect n a :: l1) j l2 n a); [done| |by left].
    destruct j as [| | |r' [[k ?]|]| | | |]; cbn [needs] in *; try done. rewrite (requested_same r' t) in Hn; [done|].
    unfold t', Operations.disconnect_operations, Operations.update. rewrite <- list_fmap_compose. apply list_fmap_ext. intros _ o _. cbn.
    by destruct (_ && _). }
  split; try by destruct HO'.
  - intros o m Ho Hc. destruct (q_known _ _ _ _ _ HO' o m Ho Hc) as (y & Hy & Ha). destruct (decide (m = n)) as [->|Hm]; [|by eauto].
    exists x'. rewrite Hx in Hy. by injection Hy as <-.
  - intros m y o. destruct (decide (m = n)) as [->|Hm]; [rewrite Hme; by intros [= <-]|]. unfold S'. rewrite lookup_insert_ne by done.
    apply (q_bound _ _ _ _ _ HO').
  - intros o Ho. destruct (q_running _ _ _ _ _ HO' o Ho) as (m & y & Hy & Hop & Hb). exists m, y. split_and!; [|done..].
    apply Hlook; [done|]. intros ->. apply (proj2 (Hrun o Ho)), Hb.
  - intros o Ho. destruct (q_read _ _ _ _ _ HO' o Ho) as [Hid H]. split; [done|]. intros o' m H1 H2 H3.
    destruct (H o' m H1 H2 H3) as (y & Hy & Hb). destruct (decide (m = n)) as [->|Hm]; [|by eauto].
    exists x'. rewrite Hx in Hy. injection Hy as <-. split; [done|]. intros _. apply Hb. by rewrite Hph.
  - intros j Hj. pose proof (q_jobs _ _ _ _ _ HO' j Hj) as H. destruct j as [| | |r' or|id m| | |]; cbn [job_ok] in *; try done.
    + destruct (requested r' t') eqn:X; [by left|]. destruct H as [?|(m & y & -> & Hy & H)]; [done|]. right. exists m, y.
      split_and!; [done| |apply H..]. apply Hlook; [done|]. apply (Hneed _ m Hj). by split.
    + destruct H as (y & Hy & H). exists y. split; [|done]. apply Hlook; [done|]. by apply (Hneed _ m Hj).
Qed.
End Owned.

(** *** The agents table *)

Lemma conn_agent C S next js a n x : loop_inv C S next js -> C !! a = Some n -> S !! n = Some x -> s_agent x = a.
Proof. intros HL Hn Hx. destruct (l_conn _ _ _ _ HL a n Hn) as (y & Hy & Ha & _). congruence. Qed.

Lemma rows_register C S next js n x r A A' : loop_inv C S next js -> S !! n = Some x -> s_phase x = Registering ->
  (A' = A \/ exists row, A' = <[s_agent x := row]> A /\ connected_on (s_stream x) row /\ Fleet.encodable (s_agent x) = true) ->
  (match r with Ok _ => exists row, A' !! s_agent x = Some row /\ connected_on (s_stream x) row | Err _ => True end) ->
  rows_inv C S A -> rows_inv C (<[n := set_phase (Registered r) x]> S) A'.
Proof.
  intros HL Hx Hph HA Hr HD. assert (Hg : s_phase x <> Gone) by by rewrite Hph.
  pose proof (l_held _ _ _ _ HL n x Hx Hg) as HC.
  assert (Hother : forall a, a <> s_agent x -> A' !! a = A !! a) by (intros a Ha; destruct HA as [->|(row & -> & _)]; [done|by rewrite lookup_insert_ne]).
  split.
  - intros a row Ha Hc. destruct (decide (a = s_agent x)) as [->|Hne].
    + exists n, (set_phase (Registered r) x). by rewrite lookup_insert_eq.
    + rewrite Hother in Ha by done. destruct (d_down _ _ _ HD a row Ha Hc) as (m & y & Hm & Hy & Hop). exists m, y. split_and!; [done| |done].
      rewrite lookup_insert_ne; [done|]. intros <-. by rewrite (conn_agent _ _ _ _ _ _ _ HL Hm Hx) in Hne.
  - intros m y. destruct (decide (m = n)) as [->|Hm].
    + rewrite lookup_insert_eq. intros [= <-] Hu. by destruct r.
    + rewrite lookup_insert_ne by done. intros Hy Hu. rewrite Hother; [by apply (d_up _ _ _ HD m)|].
      intros E. apply Hm. apply (one_session C S next js n x m y); try done. by apply open_held, up_open.
  - intros a row Ha. destruct HA as [->|(row' & -> & _ & He)]; [by apply (d_text _ _ _ HD a row)|].
    destruct (decide (a = s_agent x)) as [->|Hne]; [done|]. rewrite lookup_insert_ne in Ha by done. by apply (d_text _ _ _ HD a row).
Qed.

Lemma rows_disconnect C S next js n x r A A' (f : Fleet.agent_row -> Fleet.agent_row) : (forall row, Fleet.a_connected (f row) = false) ->
  loop_inv C S next js -> S !! n = Some x -> s_phase x = Leaving ->
  (A' = alter f (s_agent x) A \/ Fleet.encodable (s_agent x) = false /\ A' = A) ->
  rows_inv C S A -> rows_inv C (<[n := set_phase (Left r) x]> S) A'.
Proof.
  intros Hf HL Hx Hph HA HD. assert (Hg : s_phase x <> Gone) by by rewrite Hph.
  pose proof (l_held _ _ _ _ HL n x Hx Hg) as HC.
  assert (Hother : forall a, a <> s_agent x -> A' !! a = A !! a) by (intros a Ha; destruct HA as [->|[_ ->]]; [by rewrite lookup_alter_ne|done]).
  split.
  - intros a row Ha Hc. destruct (decide (a = s_agent x)) as [->|Hne].
    + destruct HA as [->|[He ->]]; [|by rewrite (d_text _ _ _ HD _ _ Ha) in He].
      rewrite lookup_alter_eq in Ha. destruct (A !! s_agent x); [|done]. injection Ha as <-. by rewrite Hf in Hc.
    + rewrite Hother in Ha by done. destruct (d_down _ _ _ HD a row Ha Hc) as (m & y & Hm & Hy & Hop). exists m, y. split_and!; [done| |done].
      rewrite lookup_insert_ne; [done|]. intros <-. by rewrite (conn_agent _ _ _ _ _ _ _ HL Hm Hx) in Hne.
  - intros m y. destruct (decide (m = n)) as [->|Hm]; [by rewrite lookup_insert_eq; intros [= <-]|].
    rewrite lookup_insert_ne by done. intros Hy Hu. rewrite Hother; [by apply (d_up _ _ _ HD m)|].
    intros E. apply Hm. apply (one_session C S next js n x m y); try done. by apply open_held, up_open.
  - intros a row Ha. destruct HA as [->|[_ ->]]; [|by apply (d_text _ _ _ HD a row)].
    destruct (A !! a) as [row'|] eqn:E; [by apply (d_text _ _ _ HD a row')|].
    destruct (decide (a = s_agent x)) as [->|Hne]; [by rewrite lookup_alter_eq, E in Ha|by rewrite lookup_alter_ne, E in Ha].
Qed.

(** *** The registry and the queue *)

Lemma own_other S n x j : owner j <> Some n -> own_ok S j -> own_ok (<[n := x]> S) j.
Proof. intros Hn. destruct j; cbn [own_ok owner] in *; try done; by rewrite lookup_insert_ne by congruence. Qed.

Lemma not_owned (js : list job) n j : n ∉ omap owner js -> j ∈ js -> owner j <> Some n.
Proof. intros H Hj E. apply H, list_elem_of_omap. by exists j. Qed.

Definition awaiting (p : phase) : Prop := match p with Registering | Applying _ _ | Leaving => True | _ => False end.

Lemma idle_not_owned C S next js n x : loop_inv C S next js -> S !! n = Some x -> ~ awaiting (s_phase x) -> n ∉ omap owner js.
Proof.
  intros HL Hx Hp (j & Hj & E)%list_elem_of_omap. pose proof (l_jobs _ _ _ _ HL j Hj) as H.
  destruct j; try done; injection E as ->; cbn [own_ok] in H; destruct H as (y & Hy & Hph & _); rewrite Hx in Hy; injection Hy as <-;
    by rewrite Hph in Hp.
Qed.

Lemma loop_move C S next js n x x' : loop_inv C S next js -> n ∉ omap owner js -> S !! n = Some x -> s_hello x' = s_hello x ->
  s_phase x <> Gone -> s_phase x' <> Gone -> loop_inv C (<[n := x']> S) next js.
Proof.
  intros HL Hn Hx [Ea _]%same_hello Hg Hg'. split.
  - intros m y. destruct (decide (m = n)) as [->|Hm]; [intros _; by apply (l_next _ _ _ _ HL n x)|]. rewrite lookup_insert_ne by done. apply (l_next _ _ _ _ HL).
  - intros a m Hm. destruct (l_conn _ _ _ _ HL a m Hm) as (y & Hy & Ha & Hgy). destruct (decide (m = n)) as [->|Hne].
    + exists x'. rewrite lookup_insert_eq. split_and!; [done| |done]. congruence.
    + exists y. by rewrite lookup_insert_ne.
  - intros m y. destruct (decide (m = n)) as [->|Hm].
    + rewrite lookup_insert_eq. intros [= <-] _. rewrite Ea. exact (l_held _ _ _ _ HL n x Hx Hg).
    + rewrite lookup_insert_ne by done. apply (l_held _ _ _ _ HL).
  - intros j Hj. apply own_other; [by apply (not_owned js)|]. exact (l_jobs _ _ _ _ HL j Hj).
  - exact (l_once _ _ _ _ HL).
Qed.

Lemma loop_app C S next js j : loop_inv C S next js -> own_ok S j -> (forall n, owner j = Some n -> n ∉ omap owner js) ->
  loop_inv C S next (js ++ [j]).
Proof.
  intros HL Hj Hn. split; try by destruct HL.
  - intros k [Hk| ->%list_elem_of_singleton]%elem_of_app; [by apply (l_jobs _ _ _ _ HL)|done].
  - rewrite omap_app. cbn. destruct (owner j) as [n|]; [|rewrite app_nil_r; exact (l_once _ _ _ _ HL)].
    apply NoDup_app. split_and!; [exact (l_once _ _ _ _ HL)| |apply NoDup_singleton].
    intros m Hm ->%list_elem_of_singleton. by apply (Hn n).
Qed.

Lemma loop_pop C S next j js : loop_inv C S next (j :: js) -> loop_inv C S next js /\ (forall n, owner j = Some n -> n ∉ omap owner js).
Proof.
  intros HL. pose proof (l_once _ _ _ _ HL) as H. cbn in H. split.
  - split; try by destruct HL.
    + intros k Hk. apply (l_jobs _ _ _ _ HL). by right.
    + destruct (owner j); [exact (NoDup_cons_1_2 _ _ H)|exact H].
  - intros n E. rewrite E in H. exact (NoDup_cons_1_1 _ _ H).
Qed.

Lemma loop_gone C S next js n x x' : loop_inv C S next js -> n ∉ omap owner js -> S !! n = Some x -> s_hello x' = s_hello x ->
  s_phase x <> Gone -> s_phase x' = Gone -> loop_inv (delete (s_agent x) C) (<[n := x']> S) next js.
Proof.
  intros HL Hn Hx Hh Hg Hg'. pose proof (l_held _ _ _ _ HL n x Hx Hg) as HCx. split.
  - intros m y. destruct (decide (m = n)) as [->|Hm]; [intros _; by apply (l_next _ _ _ _ HL n x)|]. rewrite lookup_insert_ne by done. apply (l_next _ _ _ _ HL).
  - intros a m [Hne Hm]%lookup_delete_Some. destruct (l_conn _ _ _ _ HL a m Hm) as (y & Hy & Ha & Hgy). exists y.
    rewrite lookup_insert_ne; [done|]. intros ->. congruence.
  - intros m y. destruct (decide (m = n)) as [->|Hm]; [by rewrite lookup_insert_eq; intros [= <-]|].
    rewrite lookup_insert_ne by done. intros Hy Hgy. rewrite lookup_delete_ne; [by apply (l_held _ _ _ _ HL)|].
    intros E. apply Hm. by apply (one_session C S next js n x m y).
  - intros j Hj. apply own_other; [by apply (not_owned js)|]. exact (l_jobs _ _ _ _ HL j Hj).
  - exact (l_once _ _ _ _ HL).
Qed.

Lemma loop_register C S next js h : loop_inv C S next js -> C !! h_agent h = None ->
  loop_inv (<[h_agent h := next]> C) (<[next := mkSession h false Registering]> S) (next + 1) (js ++ [JRegister next h]).
Proof.
  intros HL HC. assert (Hnew : S !! next = None).
  { destruct (S !! next) as [x|] eqn:E; [|done]. pose proof (l_next _ _ _ _ HL _ _ E). lia. }
  assert (Hnot : next ∉ omap owner js).
  { intros (j & Hj & E)%list_elem_of_omap. pose proof (l_jobs _ _ _ _ HL j Hj) as H.
    destruct j; try done; injection E as ->; cbn [own_ok] in H; destruct H as (y & Hy & _); congruence. }
  apply loop_app; [|exists (mkSession h false Registering); by rewrite lookup_insert_eq|by intros n [= <-]].
  split.
  - intros m y. destruct (decide (m = next)) as [->|Hm]; [lia|]. rewrite lookup_insert_ne by done. intros Hy.
    pose proof (l_next _ _ _ _ HL _ _ Hy). lia.
  - intros a m. destruct (decide (a = h_agent h)) as [->|Ha].
    + rewrite lookup_insert_eq. intros [= <-]. exists (mkSession h false Registering). by rewrite lookup_insert_eq.
    + rewrite lookup_insert_ne by done. intros Hm. destruct (l_conn _ _ _ _ HL a m Hm) as (y & Hy & Hya & Hgy). exists y.
      rewrite lookup_insert_ne; [done|]. intros ->. congruence.
  - intros m y. destruct (decide (m = next)) as [->|Hm].
    + rewrite lookup_insert_eq. intros [= <-] _. by rewrite lookup_insert_eq.
    + rewrite lookup_insert_ne by done. intros Hy Hgy. pose proof (l_held _ _ _ _ HL m y Hy Hgy) as E.
      rewrite lookup_insert_ne; [done|]. intros Ea. congruence.
  - intros j Hj. apply own_other; [by apply (not_owned js)|]. exact (l_jobs _ _ _ _ HL j Hj).
  - exact (l_once _ _ _ _ HL).
Qed.

(** *** The waiters *)

Definition asked (n : Z) (o : outcome) : Prop := match o with Answered m _ | Refused m _ => m = n | _ => True end.

Record wait_inv (C : gmap (list Z) Z) (S : gmap Z session) (P : gmap (list Z) Z) (W : gmap Z waiter) (next : Z) : Prop := {
  w_next : forall i w, W !! i = Some w -> i < next;
  w_cmds : forall i j w v, W !! i = Some w -> W !! j = Some v -> w_cmd w = w_cmd v -> i = j;
  w_pending : forall c i, P !! c = Some i -> exists w, W !! i = Some w /\ w_cmd w = c /\ w_state w = Waiting;
  w_waiting : forall i w, W !! i = Some w -> w_state w = Waiting -> P !! w_cmd w = Some i
    /\ exists x, S !! w_source w = Some x /\ s_ready x = true /\ s_agent x = w_agent w;
  w_from : forall i w, W !! i = Some w -> asked (w_source w) (w_state w);
  w_ready : forall n x, S !! n = Some x -> s_ready x = true -> serving (s_phase x) /\ C !! s_agent x = Some n }.

Lemma wait_move C S P W next n x x' : wait_inv C S P W next -> S !! n = Some x -> s_hello x' = s_hello x ->
  (s_ready x = true -> s_ready x' = true) -> (s_ready x' = true -> serving (s_phase x') /\ C !! s_agent x = Some n) ->
  wait_inv C (<[n := x']> S) P W next.
Proof.
  intros HW Hx [Ea _]%same_hello Hr Hs. split; try by destruct HW.
  - intros i w Hi Hw. destruct (w_waiting _ _ _ _ _ HW i w Hi Hw) as [HP (y & Hy & Hry & Hay)]. split; [done|].
    destruct (decide (w_source w = n)) as [E|Hne].
    + exists x'. rewrite E, lookup_insert_eq. rewrite E, Hx in Hy. injection Hy as <-. split_and!; [done|auto|congruence].
    + exists y. by rewrite lookup_insert_ne.
  - intros m y. destruct (decide (m = n)) as [->|Hm]; [rewrite lookup_insert_eq|rewrite lookup_insert_ne by done; apply (w_ready _ _ _ _ _ HW)].
    intros [= <-] H. rewrite Ea. auto.
Qed.

Lemma wait_registry C C' S P W next : wait_inv C S P W next ->
  (forall n x, S !! n = Some x -> s_ready x = true -> C' !! s_agent x = Some n) -> wait_inv C' S P W next.
Proof.
  intros HW HC. split; try by destruct HW. intros n x Hx Hr. split; [|auto]. by apply (w_ready _ _ _ _ _ HW n x).
Qed.

Lemma wait_finish C S P W next i w o : wait_inv C S P W next -> W !! i = Some w -> asked (w_source w) o -> o <> Waiting ->
  wait_inv C S (delete (w_cmd w) P) (<[i := finish o w]> W) next.
Proof.
  intros HW Hi Hs Hne.
  assert (Hcmd : w_cmd (finish o w) = w_cmd w) by (unfold finish; by destruct (w_state w)).
  assert (Hst : w_state (finish o w) <> Waiting) by (unfold finish; by destruct (w_state w) eqn:E; cbn; rewrite ?E).
  split.
  - intros j v. destruct (decide (j = i)) as [->|Hj]; [intros _; by apply (w_next _ _ _ _ _ HW i w)|]. rewrite lookup_insert_ne by done. apply (w_next _ _ _ _ _ HW).
  - assert (H : forall j v, <[i := finish o w]> W !! j = Some v -> exists v', W !! j = Some v' /\ w_cmd v' = w_cmd v).
    { intros j v. destruct (decide (j = i)) as [->|Hj]; [rewrite lookup_insert_eq; intros [= <-]; by exists w|].
      rewrite lookup_insert_ne by done. by exists v. }
    intros j k v u (v' & Hv & Ev)%H (u' & Hu & Eu)%H E. apply (w_cmds _ _ _ _ _ HW j k v' u'); congruence.
  - intros c j [Hc Hj]%lookup_delete_Some. destruct (w_pending _ _ _ _ _ HW c j Hj) as (v & Hv & <- & Hw). exists v.
    rewrite lookup_insert_ne; [done|]. intros <-. congruence.
  - intros j v. destruct (decide (j = i)) as [->|Hj]; [rewrite lookup_insert_eq; by intros [= <-]|]. rewrite lookup_insert_ne by done.
    intros Hv Hw. destruct (w_waiting _ _ _ _ _ HW j v Hv Hw) as [HP Hx]. split; [|done]. rewrite lookup_delete_ne; [done|].
    intros E. apply Hj. by apply (w_cmds _ _ _ _ _ HW j i v w).
  - intros j v. destruct (decide (j = i)) as [->|Hj]; [rewrite lookup_insert_eq; intros [= <-]|rewrite lookup_insert_ne by done; apply (w_from _ _ _ _ _ HW)].
    unfold finish. pose proof (w_from _ _ _ _ _ HW i w Hi) as Hf. by destruct (w_state w) eqn:E; cbn; rewrite ?E.
  - exact (w_ready _ _ _ _ _ HW).
Qed.

Lemma abandoned_pending agent n g c i : pending (abandon_pending agent n g) !! c = Some i <->
  pending g !! c = Some i /\ ~ owed_by agent n g i.
Proof. cbn. rewrite map_lookup_filter_Some. done. Qed.

#[export] Instance waiting_dec w : Decision (w_state w = Waiting).
Proof. destruct (w_state w); first [by left | by right]. Defined.

(** Exactly the commands still waiting on the session are failed. *)
Lemma abandoned_waiter agent n g C S i : wait_inv C S (pending g) (waiters g) (next_waiter g) ->
  waiters (abandon_pending agent n g) !! i =
    (fun w => if bool_decide (w_state w = Waiting /\ waits_on agent n w) then finish ResultUnknown w else w) <$> waiters g !! i.
Proof.
  intros HW. cbn. rewrite map_lookup_imap. destruct (waiters g !! i) as [w|] eqn:Hi; [|done]. cbn. f_equal.
  assert (H : filter (fun ci => owed_by agent n g ci.2) (pending g) !! w_cmd w = Some i <-> w_state w = Waiting /\ waits_on agent n w).
  { rewrite map_lookup_filter_Some. unfold owed_by. cbn. rewrite Hi. split; intros [H1 H2]; (split; [|done]).
    - destruct (w_pending _ _ _ _ _ HW _ _ H1) as (v & Hv & _ & Hw). congruence.
    - by apply (w_waiting _ _ _ _ _ HW). }
  by rewrite (bool_decide_ext _ _ H).
Qed.

Lemma wait_abandon agent n g x' C x : wait_inv C (sessions g) (pending g) (waiters g) (next_waiter g) ->
  sessions g !! n = Some x -> s_hello x' = s_hello x -> agent = s_agent x -> s_ready x' = false ->
  let g' := abandon_pending agent n g in wait_inv C (<[n := x']> (sessions g)) (pending g') (waiters g') (next_waiter g').
Proof.
  intros HW Hx [Ea _]%same_hello Hagent Hr. cbn zeta.
  assert (Hlook : forall i w', waiters (abandon_pending agent n g) !! i = Some w' -> exists w, waiters g !! i = Some w
            /\ w_cmd w' = w_cmd w /\ w_source w' = w_source w /\ w_agent w' = w_agent w /\ asked (w_source w') (w_state w')
            /\ (w_state w' = Waiting -> w_state w = Waiting /\ ~ waits_on agent n w)).
  { intros i w'. rewrite (abandoned_waiter agent n g _ _ i HW). intros (w & Hi & ->)%fmap_Some. exists w. split; [done|].
    pose proof (w_from _ _ _ _ _ HW i w Hi) as Hf. case_bool_decide as Hb.
    - unfold finish. rewrite (proj1 Hb). by split_and!.
    - split_and!; try done. intros H. split; [done|]. intros Hw. by apply Hb. }
  split; cbn [next_waiter abandon_pending set_pending set_waiters].
  - intros i w' (w & Hi & _)%Hlook. by apply (w_next _ _ _ _ _ HW i w).
  - intros i j w' v' (w & Hi & Ew & _)%Hlook (v & Hj & Ev & _)%Hlook E. apply (w_cmds _ _ _ _ _ HW i j w v); congruence.
  - intros c i [Hc Hno]%abandoned_pending. destruct (w_pending _ _ _ _ _ HW c i Hc) as (w & Hi & Ew & Hw). exists w.
    rewrite (abandoned_waiter agent n g _ _ i HW), Hi. cbn [fmap option_fmap option_map]. rewrite bool_decide_eq_false_2; [done|].
    intros [_ H]. apply Hno. unfold owed_by. by rewrite Hi.
  - intros i w' H Hw. destruct (Hlook i w' H) as (w & Hi & Ew & Es & Eg & _ & Hwait). destruct (Hwait Hw) as [Hw0 Hno].
    destruct (w_waiting _ _ _ _ _ HW i w Hi Hw0) as [HP (y & Hy & Hry & Hay)]. rewrite Ew, Es, Eg. split.
    + apply abandoned_pending. split; [done|]. unfold owed_by. by rewrite Hi.
    + exists y. rewrite lookup_insert_ne; [done|]. intros E. apply Hno. rewrite <- E, Hx in Hy. injection Hy as <-. by split; congruence.
  - intros i w' (w & _ & _ & _ & _ & Hf & _)%Hlook. done.
  - intros m y. destruct (decide (m = n)) as [->|Hm]; [rewrite lookup_insert_eq; intros [= <-]; congruence|].
    rewrite lookup_insert_ne by done. apply (w_ready _ _ _ _ _ HW).
Qed.

(** ** Every step keeps the invariants *)

Lemma on_session_eq n f g x : sessions g !! n = Some x -> on_session n f g = set_sessions (<[n := f x]> (sessions g)) g.
Proof.
  intros Hx. unfold on_session. f_equal. apply map_eq. intros m. destruct (decide (m = n)) as [->|Hm].
  - by rewrite lookup_alter_eq, lookup_insert_eq, Hx.
  - by rewrite lookup_alter_ne, lookup_insert_ne.
Qed.

Section Reachable.
Context (repr text : json -> pystr) (integer : json -> option Z).
Context (fromisoformat : pystr -> option Z) (float_text : pystr -> option spec_float).
Context (token : Z -> pystr) `{!Inj eq eq token}.

Definition waits (g : gateway) : Prop := wait_inv (connections g) (sessions g) (pending g) (waiters g) (next_waiter g).

(** While the gateway is not retired. *)
Record active_inv (g : gateway) : Prop := {
  a_loop : loop_inv (connections g) (sessions g) (generations g) (jobs g);
  a_rows : rows_inv (connections g) (sessions g) (agents_of (db g));
  a_ops : ops_inv token (sessions g) (jobs g) (operations_of (db g)) (read g) (looked g) }.

Record inv (g : gateway) : Prop := {
  i_waits : waits g;
  i_retired : retiring g = true -> connections g = ∅;
  i_active : retiring g = false -> active_inv g }.

Lemma retired_not_ready g n x : inv g -> retiring g = true -> sessions g !! n = Some x -> s_ready x = false.
Proof.
  intros HI Hret Hx. destruct (s_ready x) eqn:E; [|done]. destruct (w_ready _ _ _ _ _ (i_waits _ HI) n x Hx E) as [_ H].
  by rewrite (i_retired _ HI Hret), lookup_empty in H.
Qed.

Lemma inv_move g n x x' : inv g -> sessions g !! n = Some x -> s_hello x' = s_hello x -> ~ awaiting (s_phase x) ->
  s_phase x <> Gone -> s_phase x' <> Gone -> (open (s_phase x) -> open (s_phase x')) -> (up (s_phase x') -> up (s_phase x)) ->
  (s_ready x = true -> s_ready x' = true) ->
  (s_ready x' = true -> serving (s_phase x') /\ (s_ready x = true \/ retiring g = false)) ->
  inv (set_sessions (<[n := x']> (sessions g)) g).
Proof.
  intros HI Hx Hh Hidle Hg Hg' Ho Hu Hr Hs. split; [|exact (i_retired _ HI)|].
  - eapply wait_move; [exact (i_waits _ HI)|done..|]. intros H. destruct (Hs H) as [H1 [H2|H2]]; (split; [done|]).
    + by apply (w_ready _ _ _ _ _ (i_waits _ HI)).
    + by apply (l_held _ _ _ _ (a_loop _ (i_active _ HI H2))).
  - intros Hret. destruct (i_active _ HI Hret) as [HL HD HO]. assert (HC : calm (sessions g) (<[n := x']> (sessions g))).
    { eapply calm_at; [done..|]. intros ?; done. }
    split; cbn.
    + eapply loop_move; try done. by eapply idle_not_owned.
    + eapply rows_calm; [done..|]. auto.
    + by eapply ops_calm.
Qed.

Lemma inv_enqueue g j : inv g ->
  (retiring g = false -> own_ok (sessions g) j /\ (forall n, owner j = Some n -> n ∉ omap owner (jobs g))
     /\ job_ok token (sessions g) (operations_of (db g)) j
     /\ forall n a, needs (operations_of (db g)) j n -> JDisconnect n a ∉ jobs g) ->
  inv (enqueue_job j g).
Proof.
  intros HI H. split; [exact (i_waits _ HI)|exact (i_retired _ HI)|]. intros Hret.
  destruct (i_active _ HI Hret) as [HL HD HO], (H Hret) as (H1 & H2 & H3 & H4).
  split; cbn; [by apply loop_app|done|by apply ops_app].
Qed.

(** A job that no session owns and that needs none. *)
Lemma inv_enqueue_free g j : inv g -> owner j = None -> own_ok (sessions g) j -> (forall S t, job_ok token S t j) ->
  (forall t n, ~ needs t j n) -> inv (enqueue_job j g).
Proof. intros HI Hn Ho Hj Hd. apply inv_enqueue; [done|]. intros _. split_and!; [done|by rewrite Hn|done|]. intros n a H. by destruct (Hd _ _ H). Qed.

Lemma inv_unregister g n x : inv g -> sessions g !! n = Some x -> ~ awaiting (s_phase x) -> open (s_phase x) -> inv (unregister n x g).
Proof.
  intros HI Hx Hidle Hop. pose proof (open_held _ Hop) as Hg. unfold unregister. destruct (retiring g) eqn:Hret.
  - rewrite (on_session_eq _ _ _ x Hx). split.
    + exact (wait_abandon _ n g (set_ready false (set_phase Gone x)) _ x (i_waits _ HI) Hx eq_refl eq_refl eq_refl).
    + intros _. exact (i_retired _ HI Hret).
    + cbn. congruence.
  - destruct (i_active _ HI Hret) as [HL HD HO]. rewrite (bool_decide_eq_true_2 _ (l_held _ _ _ _ HL n x Hx Hg)). cbn [negb].
    rewrite (on_session_eq _ _ _ x Hx). set (x' := set_ready false (set_phase Leaving x)).
    pose proof (idle_not_owned _ _ _ _ _ _ HL Hx Hidle) as Hown.
    assert (HC : calm (sessions g) (<[n := x']> (sessions g))) by (eapply calm_at; done).
    split; [exact (wait_abandon _ n g x' _ x (i_waits _ HI) Hx eq_refl eq_refl eq_refl)|cbn; congruence|]. intros _. split.
    + apply loop_app; [by eapply loop_move|exists x'; cbn; by rewrite lookup_insert_eq|by intros m [= <-]].
    + apply (rows_calm _ _ _ _ _ HD HC). auto.
    + apply ops_app; [by eapply ops_calm|done|done].
Qed.

Lemma inv_same g g' : inv g -> connections g' = connections g -> sessions g' = sessions g -> generations g' = generations g ->
  pending g' = pending g -> waiters g' = waiters g -> next_waiter g' = next_waiter g -> retiring g' = retiring g ->
  looked g' = looked g -> read g' = read g -> jobs g' = jobs g -> db g' = db g -> inv g'.
Proof.
  intros [H1 H2 H3] E1 E2 E3 E4 E5 E6 E7 E8 E9 E10 E11. split.
  - unfold waits. by rewrite E1, E2, E4, E5, E6.
  - by rewrite E7, E1.
  - rewrite E7. intros Hret. destruct (H3 Hret) as [A B C]. split; by rewrite ?E1, ?E2, ?E3, ?E8, ?E9, ?E10, ?E11.
Qed.

Lemma inv_resolve g agent n f : inv g -> inv (resolve_command repr agent n f g).
Proof.
  intros HI. unfold resolve_command. destruct (pending g !! _) as [i|] eqn:Hp; cbn [mbind option_bind]; [|done].
  destruct (waiters g !! i) as [w|] eqn:Hi; cbn [mbind option_bind]; [|done]. case_bool_decide as Hb; [|done].
  destruct (w_pending _ _ _ _ _ (i_waits _ HI) _ _ Hp) as (w' & Hw' & Hc & _). rewrite Hi in Hw'. injection Hw' as <-.
  destruct HI as [HW Hr Ha]. split; [|exact Hr|intros Hret; by destruct (Ha Hret)].
  unfold waits in *. cbn [connections sessions pending waiters next_waiter set_pending set_waiters]. rewrite <- Hc.
  apply (wait_finish _ _ _ _ _ i w); [done..| |]; destruct Hb as [_ <-]; by destruct (truthy _).
Qed.

Lemma inv_after_apply g n x f a : inv g -> inv (after_apply repr n x f a g).
Proof.
  intros HI. unfold after_apply. assert (H : inv (if command_result a then resolve_command repr (s_agent x) n f g else g))
    by (destruct (command_result a); [by apply inv_resolve|done]).
  destruct (device_change a) as [[device on]|]; [|done]. case_bool_decide; [done|]. by apply (inv_same _ _ H).
Qed.

Lemma inv_time_out g i : inv g -> inv (time_out i g).
Proof.
  intros HI. unfold time_out. destruct (waiters g !! i) as [w|] eqn:Hi; [|done].
  destruct HI as [HW Hr Ha]. split; [|exact Hr|intros Hret; by destruct (Ha Hret)]. by apply (wait_finish _ _ _ _ _ i w).
Qed.

Lemma ready_session_spec agent g n x : ready_session agent g = Some (n, x) ->
  connections g !! agent = Some n /\ sessions g !! n = Some x /\ s_ready x = true.
Proof.
  unfold ready_session. destruct (connections g !! agent) as [m|] eqn:Hm; cbn [mbind option_bind]; [|done].
  destruct (sessions g !! m) as [y|] eqn:Hy; cbn [mbind option_bind]; [|done]. destruct (s_ready y) eqn:Hr; [|done]. by intros [= <- <-].
Qed.

Lemma inv_call g agent cmd g' : inv g -> (forall i w, waiters g !! i = Some w -> w_cmd w <> cmd) -> call agent cmd g = Some g' -> inv g'.
Proof.
  intros HI Hfresh E. unfold call in E. destruct (ready_session agent g) as [[n x]|] eqn:Er; [|done].
  apply ready_session_spec in Er as (HC & Hx & Hr). destruct (maintenance g); [done|]. injection E as <-.
  destruct HI as [HW Hret Ha]. split; [|exact Hret|intros Hr'; by destruct (Ha Hr')].
  assert (Hag : s_agent x = agent).
  { destruct (retiring g) eqn:Hg; [by rewrite (Hret eq_refl), lookup_empty in HC|]. by apply (conn_agent _ _ _ _ _ _ _ (a_loop _ (Ha eq_refl)) HC). }
  assert (Hnew : waiters g !! next_waiter g = None).
  { destruct (waiters g !! next_waiter g) as [w|] eqn:E; [|done]. pose proof (w_next _ _ _ _ _ HW _ _ E). lia. }
  assert (Hold : forall i w, waiters g !! i = Some w -> i <> next_waiter g) by (intros i w Hi ->; congruence).
  split; cbn.
  - intros i w. destruct (decide (i = next_waiter g)) as [->|Hi]; [lia|]. rewrite lookup_insert_ne by done. intros H.
    pose proof (w_next _ _ _ _ _ HW _ _ H). lia.
  - intros i j w v. destruct (decide (i = next_waiter g)) as [->|Hi], (decide (j = next_waiter g)) as [->|Hj];
      rewrite ?lookup_insert_eq, ?lookup_insert_ne by done; [done| | |by apply (w_cmds _ _ _ _ _ HW)].
    + intros [= <-] H2 E. cbn in E. by destruct (Hfresh j v H2).
    + intros H1 [= <-] E. cbn in E. by destruct (Hfresh i w H1).
  - intros c i. destruct (decide (c = cmd)) as [->|Hc].
    + rewrite lookup_insert_eq. intros [= <-]. exists (mkWaiter cmd agent n Waiting). by rewrite lookup_insert_eq.
    + rewrite lookup_insert_ne by done. intros H. destruct (w_pending _ _ _ _ _ HW c i H) as (w & Hi & Hw). exists w.
      by rewrite lookup_insert_ne by (by apply not_eq_sym, (Hold i w)).
  - intros i w. destruct (decide (i = next_waiter g)) as [->|Hi].
    + rewrite lookup_insert_eq. intros [= <-] _. cbn. rewrite lookup_insert_eq. split; [done|]. by exists x.
    + rewrite lookup_insert_ne by done. intros H Hw. destruct (w_waiting _ _ _ _ _ HW i w H Hw) as [HP HS]. split; [|done].
      rewrite lookup_insert_ne; [done|]. intros E. by destruct (Hfresh i w H).
  - intros i w. destruct (decide (i = next_waiter g)) as [->|Hi]; [rewrite lookup_insert_eq; by intros [= <-]|].
    rewrite lookup_insert_ne by done. apply (w_from _ _ _ _ _ HW).
  - exact (w_ready _ _ _ _ _ HW).
Qed.

Lemma inv_register g h : inv g -> connections g !! h_agent h = None -> retiring g = false -> inv (register h g).
Proof.
  intros HI HC Hret. destruct (i_active _ HI Hret) as [HL HD HO].
  assert (Hnew : sessions g !! generations g = None).
  { destruct (sessions g !! generations g) as [x|] eqn:E; [|done]. pose proof (l_next _ _ _ _ HL _ _ E). lia. }
  set (x := mkSession h false Registering).
  assert (Hcalm : calm (sessions g) (<[generations g := x]> (sessions g))) by (apply calm_fresh; [done|by intros []]).
  split; [|cbn; congruence|intros _; split]; unfold waits; cbn.
  - pose proof (i_waits _ HI) as HW. split; try by destruct HW.
    + intros i w Hi Hw. destruct (w_waiting _ _ _ _ _ HW i w Hi Hw) as [HP (y & Hy & H)]. split; [done|]. exists y.
      rewrite lookup_insert_ne; [done|]. congruence.
    + intros m y. destruct (decide (m = generations g)) as [->|Hm]; [rewrite lookup_insert_eq; by intros [= <-]|].
      rewrite lookup_insert_ne by done. intros Hy Hr. destruct (w_ready _ _ _ _ _ HW m y Hy Hr) as [H1 H2]. split; [done|].
      rewrite lookup_insert_ne; [done|]. congruence.
  - by apply loop_register.
  - apply (rows_calm _ _ _ _ _ HD Hcalm). intros a n y Hn _ _. rewrite lookup_insert_ne; [done|]. congruence.
  - apply ops_app; [by eapply ops_calm|done|done].
Qed.

Lemma inv_resume_register g n x r : inv g -> sessions g !! n = Some x -> s_phase x = Registered r -> inv (resume_register n x r g).
Proof.
  intros HI Hx Hph. assert (Hun : inv (unregister n x g)) by (apply inv_unregister; rewrite ?Hph; try done; cbn; auto).
  destruct r as [[]|e]; [|done]. cbn [resume_register]. destruct (retiring g) eqn:Hret; [done|]. rewrite (on_session_eq _ _ _ x Hx).
  assert (H : inv (set_sessions (<[n := set_ready true (set_phase Serving x)]> (sessions g)) g)); [|by apply (inv_same _ _ H)].
  apply (inv_move _ _ x); rewrite ?Hph; try done; cbn; auto.
Qed.

Lemma inv_begin_ingest g n x kind f : inv g -> sessions g !! n = Some x -> s_phase x = Serving -> inv (begin_ingest n x kind f g).
Proof.
  intros HI Hx Hph. unfold begin_ingest. destruct (retiring g) eqn:Hret; [done|]. cbn [orb]. destruct (s_ready x) eqn:Hr; [|done]. cbn [negb].
  destruct (Ingest.valid_seq _); [|done]. cbn [negb]. rewrite (on_session_eq _ _ _ x Hx).
  assert (H : inv (set_sessions (<[n := set_phase (Applying kind f) x]> (sessions g)) g))
    by (apply (inv_move _ _ x); rewrite ?Hph; try done; cbn; auto).
  apply inv_enqueue; [done|]. intros _. split_and!; [|intros m [= <-]|done|done].
  - exists (set_phase (Applying kind f) x). cbn. by rewrite lookup_insert_eq.
  - cbn. eapply idle_not_owned; [exact (a_loop _ (i_active _ HI Hret))|done|]. rewrite Hph. by intros [].
Qed.

Lemma inv_resume_ingest g n x kind f r : inv g -> sessions g !! n = Some x -> s_phase x = Applied kind f r ->
  inv (resume_ingest repr n x f r g).
Proof.
  intros HI Hx Hph. unfold resume_ingest. destruct r as [[fresh a]|e]; [|apply inv_unregister; rewrite ?Hph; try done; cbn; auto].
  rewrite (on_session_eq _ _ _ x Hx). set (g1 := set_sessions _ g).
  assert (H1 : inv g1) by (apply (inv_move _ _ x); rewrite ?Hph; try done; cbn; auto).
  destruct (_ || _); [done|].
  assert (H2 : inv (match a with Some a => after_apply repr n x f a g1 | None => g1 end)) by (destruct a; [by apply inv_after_apply|done]).
  by apply (inv_same _ _ H2).
Qed.

Lemma set_connections_same g : set_connections (connections g) g = g.
Proof. by destruct g. Qed.

Lemma inv_resume_unregister g n x r : inv g -> sessions g !! n = Some x -> s_phase x = Left r -> inv (resume_unregister n x r g).
Proof.
  intros HI Hx Hph. unfold resume_unregister.
  set (g1 := match r with Ok names => _ | Err _ => g end).
  assert (H1 : inv g1 /\ connections g1 = connections g /\ sessions g1 = sessions g /\ retiring g1 = retiring g).
  { unfold g1. destruct r; [|done]. split; [by apply (inv_same _ _ HI)|done]. }
  clearbody g1. destruct H1 as (H1 & _ & Es & _). rewrite <- Es in Hx. clear dependent g. rename g1 into g, H1 into HI.
  assert (Hnr : s_ready x = false).
  { destruct (s_ready x) eqn:E; [|done]. destruct (w_ready _ _ _ _ _ (i_waits _ HI) n x Hx E) as [Hs _]. by rewrite Hph in Hs. }
  set (x' := set_phase Gone x). assert (Hne : forall m y, sessions g !! m = Some y -> s_ready y = true -> m <> n) by (intros m y Hy Hr ->; congruence).
  assert (HW : forall C, (forall m y, sessions g !! m = Some y -> s_ready y = true -> C !! s_agent y = Some m) ->
               wait_inv C (<[n := x']> (sessions g)) (pending g) (waiters g) (next_waiter g)).
  { intros C HC. eapply wait_move; [by eapply wait_registry, HC; exact (i_waits _ HI)|done..| |]; cbn; congruence. }
  destruct (retiring g) eqn:Hret.
  - rewrite bool_decide_eq_false_2 by (rewrite (i_retired _ HI Hret), lookup_empty; done). rewrite (on_session_eq _ _ _ x Hx). split; [|intros _; exact (i_retired _ HI Hret)|cbn; congruence].
    apply HW. intros m y Hy Hr. by apply (w_ready _ _ _ _ _ (i_waits _ HI)).
  - destruct (i_active _ HI Hret) as [HL HD HO]. rewrite (bool_decide_eq_true_2 (connections g !! s_agent x = Some n));
      [|by apply (l_held _ _ _ _ HL n x Hx); rewrite Hph].
    rewrite (on_session_eq _ _ (set_connections _ g) x Hx). assert (HC : calm (sessions g) (<[n := x']> (sessions g))) by (eapply calm_at; rewrite ?Hph; done).
    split; [|cbn; congruence|intros _; split; cbn].
    + apply HW. intros m y Hy Hr. destruct (w_ready _ _ _ _ _ (i_waits _ HI) m y Hy Hr) as [Hs HCm]. cbn. rewrite lookup_delete_ne; [done|].
      intros E. apply (Hne m y Hy Hr). apply (one_session _ _ _ _ n x m y HL); try done; [by rewrite Hph|by apply open_held, up_open, serving_up].
    + eapply loop_gone; try done; [eapply idle_not_owned; [done..|]|]; rewrite Hph; [by intros []|done].
    + apply (rows_calm _ _ _ _ _ HD HC). intros a m y Hm. destruct (decide (m = n)) as [->|Hmn]; [rewrite lookup_insert_eq; by intros [= <-]|].
      rewrite lookup_insert_ne by done. intros Hy Ho. rewrite lookup_delete_ne; [done|].
      intros E. pose proof (l_held _ _ _ _ HL n x Hx). rewrite Hph, E in H. specialize (H ltac:(done)). congruence.
    + by eapply ops_calm.
Qed.

(** *** The worker's jobs *)

Lemma inv_map_operations g f : inv g -> (retiring g = false -> forall t, t = operations_of (db g) -> ops_inv token (sessions g) (jobs g) (f t) (read g) (looked g)) ->
  inv (map_operations f g).
Proof. intros [HW Hr Ha] H. split; [exact HW|exact Hr|]. intros Hret. destruct (Ha Hret) as [HL HD HO]. split; [done|done|]. by apply (H Hret). Qed.

Lemma pop_inv g j rest : inv g -> jobs g = j :: rest -> inv (set_jobs rest g).
Proof.
  intros [HW Hr Ha] Hj. split; [exact HW|exact Hr|]. intros Hret. destruct (Ha Hret) as [HL HD HO]. rewrite Hj in HL, HO.
  split; [exact (proj1 (loop_pop _ _ _ _ _ HL))|done|by eapply ops_pop].
Qed.

(** In a retired gateway a job only wakes its session. *)
Lemma wake_retired g n p s : inv g -> retiring g = true -> inv (set_db s (on_session n (set_phase p) g)).
Proof.
  intros HI Hret. split; [|intros _; exact (i_retired _ HI Hret)|cbn; congruence]. unfold waits. cbn.
  destruct (sessions g !! n) as [x|] eqn:Hx.
  - assert (E : alter (set_phase p) n (sessions g) = <[n := set_phase p x]> (sessions g)) by (pose proof (on_session_eq n (set_phase p) g x Hx) as [= H]; done).
    rewrite E. eapply wait_move; [exact (i_waits _ HI)|done..|]. cbn. rewrite (retired_not_ready g n x HI Hret Hx). done.
  - assert (alter (set_phase p) n (sessions g) = sessions g) as ->; [|exact (i_waits _ HI)].
    apply map_eq. intros m. destruct (decide (m = n)) as [->|Hm]; [by rewrite lookup_alter_eq, Hx|by rewrite lookup_alter_ne].
Qed.

(** Its owner is not ready until it leaves the awaiting phase. *)
Lemma wake_waits g n x p : inv g -> sessions g !! n = Some x -> retiring g = false -> s_phase x <> Gone ->
  (s_ready x = true -> serving p) -> wait_inv (connections g) (<[n := set_phase p x]> (sessions g)) (pending g) (waiters g) (next_waiter g).
Proof.
  intros HI Hx Hret Hg Hp. eapply wait_move; [exact (i_waits _ HI)|done..|]. cbn. intros Hr. split; [auto|].
  by apply (l_held _ _ _ _ (a_loop _ (i_active _ HI Hret))).
Qed.

Lemma not_serving_not_ready g n x : inv g -> sessions g !! n = Some x -> ~ serving (s_phase x) -> s_ready x = true -> False.
Proof. intros HI Hx Hs Hr. by destruct (w_ready _ _ _ _ _ (i_waits _ HI) n x Hx Hr). Qed.

Lemma inv_run_register g n h rest clock now_text : inv g -> jobs g = JRegister n h :: rest ->
  inv (run_job repr text integer fromisoformat float_text token clock now_text (JRegister n h) (set_jobs rest g)).
Proof.
  intros HI Hj. cbn [run_job retiring set_jobs db]. destruct (retiring g) eqn:Hret.
  { cbn. apply (wake_retired (set_jobs rest g)); [by eapply pop_inv|done]. }
  destruct (i_active _ HI Hret) as [HL HD HO]. rewrite Hj in HL, HO. pose proof (loop_pop _ _ _ _ _ HL) as [HL' Hown]. specialize (Hown n eq_refl).
  destruct (l_jobs _ _ _ _ HL (JRegister n h)) as (x & Hx & Hph & <-); [by left|].
  pose proof (persist_registration_effect text clock (s_hello x) (token n) (db g)) as [HA Hres].
  destruct (persist_registration _ _ _ _ _ _) as [r s]. cbn [fst snd] in HA, Hres.
  rewrite (on_session_eq _ _ (set_jobs rest g) x Hx). split; [|cbn; congruence|intros _; split; cbn].
  - apply (wake_waits g n x); try done; [by rewrite Hph|]. intros Hr. destruct (not_serving_not_ready g n x HI Hx); [rewrite Hph; by intros []|done].
  - eapply loop_move; try done. by rewrite Hph.
  - eapply rows_register; try done. destruct r as [[]|]; [exact (proj2 Hres)|done].
  - apply ops_pop in HO. destruct r as [[]|e].
    + destruct Hres as [-> _]. by eapply ops_rebind.
    + rewrite Hres. eapply ops_calm; [done|]. eapply calm_at; rewrite ?Hph; done.
Qed.

Lemma inv_run_apply g n agent stream kind f rest clock now_text : inv g -> jobs g = JApply n agent stream kind f :: rest ->
  inv (run_job repr text integer fromisoformat float_text token clock now_text (JApply n agent stream kind f) (set_jobs rest g)).
Proof.
  intros HI Hj. pose proof (persist_event_kept repr text integer fromisoformat float_text clock agent stream kind f (db g)) as HK.
  cbn [run_job db set_jobs]. destruct (persist_event _ _ _ _ _ _ _ _ _ _ _) as [r s]. cbn [snd] in HK. destruct (retiring g) eqn:Hret.
  { apply (wake_retired (set_jobs rest g)); [by eapply pop_inv|done]. }
  destruct (i_active _ HI Hret) as [HL HD HO]. rewrite Hj in HL, HO. pose proof (loop_pop _ _ _ _ _ HL) as [HL' Hown]. specialize (Hown n eq_refl).
  destruct (l_jobs _ _ _ _ HL (JApply n agent stream kind f)) as (x & Hx & Hph & _); [by left|].
  rewrite (on_session_eq _ _ (set_jobs rest g) x Hx).
  assert (HC : calm (sessions g) (<[n := set_phase (Applied kind f r) x]> (sessions g))) by (eapply calm_at; rewrite ?Hph; done).
  split; [|cbn; congruence|intros _; split; cbn].
  - apply (wake_waits g n x); try done. by rewrite Hph.
  - eapply loop_move; try done. by rewrite Hph.
  - eapply rows_kept; [|exact HK]. eapply rows_calm; [done..|]. auto.
  - eapply ops_kept; [|exact HK]. eapply ops_calm; [by eapply ops_pop|done].
Qed.

Lemma inv_run_disconnect g n agent rest clock now_text : inv g -> jobs g = JDisconnect n agent :: rest ->
  inv (run_job repr text integer fromisoformat float_text token clock now_text (JDisconnect n agent) (set_jobs rest g)).
Proof.
  intros HI Hj. cbn [run_job retiring set_jobs db]. destruct (retiring g) eqn:Hret.
  { cbn. apply (wake_retired (set_jobs rest g)); [by eapply pop_inv|done]. }
  destruct (i_active _ HI Hret) as [HL HD HO]. rewrite Hj in HL, HO. pose proof (loop_pop _ _ _ _ _ HL) as [HL' Hown]. specialize (Hown n eq_refl).
  destruct (l_jobs _ _ _ _ HL (JDisconnect n agent)) as (x & Hx & Hph & <-); [by left|].
  pose proof (persist_disconnect_effect clock (s_agent x) (token n) (db g)) as [HT HA].
  destruct (persist_disconnect _ _ _ _ _) as [r s]. cbn [fst snd] in HA, HT.
  rewrite (on_session_eq _ _ (set_jobs rest g) x Hx). split; [|cbn; congruence|intros _; split; cbn].
  - apply (wake_waits g n x); try done; [by rewrite Hph|]. intros Hr. destruct (not_serving_not_ready g n x HI Hx); [rewrite Hph; by intros []|done].
  - eapply loop_move; try done. by rewrite Hph.
  - eapply rows_disconnect; [|done..]. done.
  - rewrite HT. by eapply ops_disconnect.
Qed.

Lemma inv_run_job g j rest clock now_text : inv g -> jobs g = j :: rest ->
  inv (run_job repr text integer fromisoformat float_text token clock now_text j (set_jobs rest g)).
Proof.
  intros HI Hj. pose proof (pop_inv _ _ _ HI Hj) as HI'.
  destruct j as [n h|n agent stream kind f|n agent|r origin|id n|id| |f].
  - by apply inv_run_register.
  - by apply inv_run_apply.
  - by apply inv_run_disconnect.
  - apply inv_map_operations; [done|]. intros Hret t ->. destruct (i_active _ HI Hret) as [HL _ HO]. rewrite Hj in HL, HO.
    eapply ops_create; [done| |done]. exact (proj1 (loop_pop _ _ _ _ _ HL)).
  - apply inv_map_operations; [done|]. intros Hret t ->. pose proof (a_ops _ (i_active _ HI Hret)) as HO. rewrite Hj in HO. by apply (ops_claim _ _ _ id n).
  - apply inv_map_operations; [done|]. intros Hret t ->. exact (ops_kept _ _ _ _ _ _ _ (a_ops _ (i_active _ HI' Hret)) (send_failed_kept id _)).
  - apply inv_map_operations; [done|]. intros Hret t ->. exact (ops_kept _ _ _ _ _ _ _ (a_ops _ (i_active _ HI' Hret)) (expire_kept now_text _)).
  - split; [exact (i_waits _ HI')|exact (i_retired _ HI')|]. intros Hret. destruct (i_active _ HI' Hret) as [HL HD HO].
    assert (HK : forall d, kept d (f d)) by (apply (l_jobs _ _ _ _ (a_loop _ (i_active _ HI Hret)) (JOther f)); rewrite Hj; by left).
    split; [exact HL|exact (rows_kept _ _ _ _ HD (HK _))|exact (ops_kept _ _ _ _ _ _ _ HO (HK _))].
Qed.

(** *** Retirement *)

Definition retire_one (g : gateway) (an : pystr * Z) : gateway :=
  match sessions g !! an.2 with
  | Some x => abandon_pending (s_agent x) an.2 (on_session an.2 (set_ready false) g)
  | None => g
  end.

Lemma retire_fold C l g : wait_inv C (sessions g) (pending g) (waiters g) (next_waiter g) -> let g' := foldl retire_one g l in
  wait_inv C (sessions g') (pending g') (waiters g') (next_waiter g') /\ retiring g' = retiring g
  /\ forall n x, sessions g' !! n = Some x -> s_ready x = true -> sessions g !! n = Some x /\ n ∉ l.*2.
Proof.
  revert g. induction l as [|an l IH]; intros g HW; cbn [foldl]; [split_and!; [done..|]; intros n x Hx Hr; split; [done|by apply not_elem_of_nil]|].
  assert (H1 : let g1 := retire_one g an in wait_inv C (sessions g1) (pending g1) (waiters g1) (next_waiter g1) /\ retiring g1 = retiring g
               /\ forall n x, sessions g1 !! n = Some x -> s_ready x = true -> sessions g !! n = Some x /\ n <> an.2).
  { cbn zeta. unfold retire_one. destruct (sessions g !! an.2) as [x|] eqn:Hx.
    - rewrite (on_session_eq _ _ _ x Hx). split_and!; [|done|].
      + exact (wait_abandon (s_agent x) an.2 g (set_ready false x) C x HW Hx eq_refl eq_refl eq_refl).
      + cbn. intros n y. destruct (decide (n = an.2)) as [->|Hn]; [by rewrite lookup_insert_eq; intros [= <-]|by rewrite lookup_insert_ne].
    - split_and!; [done..|]. intros n y Hy _. split; [done|]. intros E. rewrite E, Hx in Hy. done. }
  destruct H1 as (HW1 & Hr1 & Hs1). destruct (IH _ HW1) as (HW2 & Hr2 & Hs2). split_and!; [done|congruence|].
  intros n x Hx Hr. destruct (Hs2 n x Hx Hr) as [Hx1 Hn]. destruct (Hs1 n x Hx1 Hr) as [Hx0 Hne]. split; [done|].
  cbn. by intros [?|?]%elem_of_cons.
Qed.

Lemma inv_retire g : inv g -> inv (retire_for_restore g).
Proof.
  intros HI. destruct (retire_fold (connections g) (map_to_list (connections g)) (set_flags (maintenance g) true g) (i_waits _ HI)) as (HW & Hr & Hs).
  unfold retire_for_restore. change (fun g an => match sessions g !! an.2 with Some x => _ | None => g end) with retire_one.
  set (g' := foldl _ _ _) in *. cbn in Hr. split; cbn; [|done|congruence].
  apply (wait_registry (connections g)); [exact HW|]. intros n x Hx Hrx. destruct (Hs n x Hx Hrx) as [_ Hn]. destruct Hn.
  apply list_elem_of_fmap. exists (s_agent x, n). split; [done|]. apply elem_of_map_to_list. exact (proj2 (w_ready _ _ _ _ _ HW n x Hx Hrx)).
Qed.

(** *** Operations *)

Lemma not_leaving_job g n a x : inv g -> retiring g = false -> sessions g !! n = Some x -> s_phase x <> Leaving -> JDisconnect n a ∉ jobs g.
Proof.
  intros HI Hret Hx Hp Hj. destruct (l_jobs _ _ _ _ (a_loop _ (i_active _ HI Hret)) _ Hj) as (y & Hy & Hph & _). congruence.
Qed.

Lemma ready_open g n x : inv g -> sessions g !! n = Some x -> s_ready x = true -> serving (s_phase x) /\ open (s_phase x) /\ s_phase x <> Leaving.
Proof.
  intros HI Hx Hr. destruct (w_ready _ _ _ _ _ (i_waits _ HI) n x Hx Hr) as [Hs _]. split_and!; [done|by apply up_open, serving_up|].
  by destruct (s_phase x).
Qed.

Lemma inv_dispatch_claim g o : inv g -> read g = Some o -> inv (dispatch_claim token o g).
Proof.
  intros HI Ho. unfold dispatch_claim. destruct (ready_session _ g) as [[n x]|] eqn:E; [|done]. apply ready_session_spec in E as (HC & Hx & Hr).
  case_bool_decide as Ht; [|done]. destruct (ready_open g n x HI Hx Hr) as (Hs & Hop & Hl). apply inv_enqueue; [done|]. intros Hret.
  destruct (q_read _ _ _ _ _ _ (a_ops _ (i_active _ HI Hret)) o Ho) as [Hid H].
  split_and!; [done|done| |intros m a <-; by apply (not_leaving_job g n a x)].
  exists x. split_and!; [done..|]. intros o' Hq Hi. destruct (H o' n Hq Hi) as (y & Hy & Hb); [done|].
  rewrite Hx in Hy. injection Hy as <-. apply Hb. by apply open_held.
Qed.

Lemma inv_submit g r existing g' : inv g -> (r, existing) ∈ looked g -> submit r existing g = Some g' -> inv g'.
Proof.
  intros HI Hlk E. unfold submit in E. destruct (maintenance g); [done|]. destruct existing.
  - injection E as <-. apply inv_enqueue; [done|]. intros Hret.
    pose proof (q_looked _ _ _ _ _ _ (a_ops _ (i_active _ HI Hret)) r Hlk) as Hreq.
    split_and!; [done|done|by left|]. intros n a Hn. cbn [needs] in Hn. destruct (_ ≫= _) as [[m stream]|]; [|done]. destruct Hn. congruence.
  - destruct (ready_session _ g) as [[n x]|] eqn:Er; [|done]. destruct (h_durable _); [|done]. injection E as <-.
    apply ready_session_spec in Er as (HC & Hx & Hr). destruct (ready_open g n x HI Hx Hr) as (Hs & Hop & Hl).
    apply inv_enqueue; [done|]. intros Hret. split_and!; [done|done| |intros m a [<- _]; by apply (not_leaving_job g n a x)].
    right. exists n, x. split_and!; [done..|]. by apply (conn_agent _ _ _ _ _ _ _ (a_loop _ (i_active _ HI Hret)) HC).
Qed.

Lemma inv_lookup g r : inv g -> inv (set_looked ((r, lookup_request r g) :: looked g) g).
Proof.
  intros [HW Hr Ha]. split; [exact HW|exact Hr|]. intros Hret. destruct (Ha Hret) as [HL HD HO]. split; [done|done|].
  split; try by destruct HO. intros r' [[= -> E]|H]%elem_of_cons; [by rewrite <- E|exact (q_looked _ _ _ _ _ _ HO r' H)].
Qed.

Lemma inv_read_row g o : inv g -> o ∈ operations (Ingest.business (db g)) -> inv (set_read (Some o) g).
Proof.
  intros [HW Hr Ha] Ho. split; [exact HW|exact Hr|]. intros Hret. destruct (Ha Hret) as [HL HD HO]. split; [done|done|].
  split; try by destruct HO. intros o' [= <-]. split; [by apply list_elem_of_fmap_2|]. intros o' n [Ho' Hs] E Hc.
  assert (o' = o) as -> by (by apply (unique_row (operations_of (db g)) o' o (q_ids _ _ _ _ _ _ HO))).
  destruct (q_known _ _ _ _ _ _ HO o n) as (x & Hx & Hag); [by split|done|]. exists x. split; [done|]. intros _. by split.
Qed.

Lemma on_text_hello length_ v taken closed h : on_text repr false length_ v taken closed = Registers h -> taken (h_agent h) = false /\ closed = false.
Proof.
  unfold on_text. intros E. repeat (case_match; try discriminate). simplify_eq.
  assert (h_agent h = strip (str_or repr (jget "agent_id" l))) as ->; [|by split].
  match goal with H : read_hello _ _ _ = Ok h |- _ => unfold read_hello in H; revert H end.
  destruct (optional_int _); cbn [mbind res_bind]; [|done]. destruct (iterate _); cbn [mbind res_bind]; [|done]. by intros [= <-].
Qed.

Lemma gateway_step_inv g g' : step repr text integer fromisoformat float_text token g g' -> inv g -> inv g'.
Proof.
  intros Hstep HI. destruct Hstep as
    [len v h g E|clock now_text j rest g Hj|n x r g Hx Hp|n x len v kind f g Hx Hp E|n x kind f r g Hx Hp|n x g Hx Hp|n x r g Hx Hp|
     agent cmd g g' Hf E|i g|r g|r ex g g' Hl E|o g Ho|o g Ho|id g|g|f g Hf|b g|g].
  - apply on_text_hello in E as [Et [_ Er]%orb_false_iff]. apply inv_register; [done| |done].
    rewrite bool_decide_eq_false in Et. by apply eq_None_not_Some.
  - by apply inv_run_job.
  - by apply inv_resume_register.
  - by apply inv_begin_ingest.
  - by eapply inv_resume_ingest.
  - apply inv_unregister; rewrite ?Hp; try done. by intros [].
  - by apply (inv_resume_unregister _ _ _ r).
  - by eapply inv_call.
  - by apply inv_time_out.
  - by apply inv_lookup.
  - by eapply inv_submit.
  - by apply inv_read_row.
  - by apply inv_dispatch_claim.
  - apply inv_enqueue_free; try done. by intros ? ? [].
  - apply inv_enqueue_free; try done. by intros ? ? [].
  - apply inv_enqueue_free; try done. by intros ? ? [].
  - by apply (inv_same _ _ HI).
  - by apply inv_retire.
Qed.

Lemma initial_inv s : started token s -> inv (initial s).
Proof.
  intros (Hd & Hr & Hids & Hq). split; [split; cbn; intros *; by rewrite ?lookup_empty|done|]. intros _. split.
  - split; cbn; intros *; rewrite ?lookup_empty; try done; [by intros ?%not_elem_of_nil|constructor].
  - split; cbn; [|intros *; by rewrite lookup_empty|intros a r Ha; by apply (Hd a r)].
    intros a r Ha Hc. destruct (Hd a r Ha) as [H _]. congruence.
  - split; cbn; try done.
    + intros o n [Ho Hs] Hc. destruct (Hq o n); auto using queued_active.
    + intros o [Ho Hs]. by destruct (Hr o Ho).
    + by intros r ?%not_elem_of_nil.
    + by intros j ?%not_elem_of_nil.
    + by intros [].
Qed.

Lemma reachable_inv s g : started token s -> rtc (step repr text integer fromisoformat float_text token) (initial s) g -> inv g.
Proof. intros Hs. apply (rtc_ind_r (fun g => inv g)); [by apply initial_inv|]. intros x y _ H. by apply gateway_step_inv. Qed.
End Reachable.

(** ** Properties *)

Section Properties.
Context (repr text : json -> pystr) (integer : json -> option Z).
Context (fromisoformat : pystr -> option Z) (float_text : pystr -> option spec_float).

Abbreviation steps token := (rtc (step repr text integer fromisoformat float_text token)) (only parsing).

(** C7 (invariant): one session per agent.  However sessions, worker jobs and
    commands interleave, at most one unfinished session holds an agent id; a
    ready session is the one the registry names and its agent's row says
    connected, on its stream; and a row says connected only while a session
    whose disconnect is not yet recorded holds the id.  So a late disconnect
    never marks a newer session's agent offline. *)
Theorem sessions_exclusive (token : Z -> pystr) s g : Inj eq eq token -> started token s -> steps token (initial s) g -> retiring g = false ->
  (forall n m x y, sessions g !! n = Some x -> sessions g !! m = Some y -> s_phase x <> Gone -> s_phase y <> Gone ->
     s_agent x = s_agent y -> n = m)
  /\ (forall n x, sessions g !! n = Some x -> s_ready x = true -> connections g !! s_agent x = Some n
      /\ exists row, agents_of (db g) !! s_agent x = Some row /\ connected_on (s_stream x) row)
  /\ (forall a row, agents_of (db g) !! a = Some row -> Fleet.a_connected row = true ->
      exists n x, connections g !! a = Some n /\ sessions g !! n = Some x /\ open (s_phase x)).
Proof.
  intros Hinj Hs Hsteps Hret. pose proof (reachable_inv _ _ _ _ _ _ s g Hs Hsteps) as HI. destruct (i_active _ _ HI Hret) as [HL HD _]. split_and!.
  - intros n m x y Hx Hy Hgx Hgy E. symmetry. by apply (one_session _ _ _ _ n x m y HL).
  - intros n x Hx Hr. destruct (w_ready _ _ _ _ _ (i_waits _ _ HI) n x Hx Hr) as [Hse HC]. split; [done|].
    apply (d_up _ _ _ HD n); [done|by apply serving_up].
  - exact (d_down _ _ _ HD).
Qed.

(** C8 (safety): no operation is left without a session that answers for it.
    An operation that says running carries the connection id of a session of
    its agent whose disconnect has not been recorded, so the disconnect will
    mark it unknown; and a queued operation of a ready session's agent and
    stream carries that session's connection id, so the dispatcher can claim
    it, across any reconnections in between. *)
Theorem operations_owned (token : Z -> pystr) s g : Inj eq eq token -> started token s -> steps token (initial s) g -> retiring g = false ->
  (forall o, o ∈ operations_of (db g) -> Operations.o_status o = Operations.Running ->
     exists n x, sessions g !! n = Some x /\ open (s_phase x) /\ s_agent x = Operations.o_agent_id o /\ Operations.o_connection_id o = token n)
  /\ (forall n x o, sessions g !! n = Some x -> s_ready x = true -> o ∈ operations_of (db g) -> Operations.o_status o = Operations.Queued ->
     Operations.o_agent_id o = s_agent x -> Operations.o_stream_id o = s_stream x -> Operations.o_connection_id o = token n).
Proof.
  intros Hinj Hs Hsteps Hret. pose proof (reachable_inv _ _ _ _ _ _ s g Hs Hsteps) as HI. destruct (i_active _ _ HI Hret) as [_ _ HO]. split.
  - intros o Ho Hst. destruct (q_running _ _ _ _ _ _ HO o) as (n & x & Hx & Hop & Hc & Ha); [by split|by exists n, x].
  - intros n x o Hx Hr Ho Hst Ha Hstr. apply (q_bound _ _ _ _ _ _ HO n x o); try done.
    apply serving_up. exact (proj1 (w_ready _ _ _ _ _ (i_waits _ _ HI) n x Hx Hr)).
Qed.

(** A command never waits on a session that cannot answer it.  A
    waiting [call] is registered under its id and its session is ready, so a
    session that ends, or a restore that retires the gateway, has failed every
    command it owed; and a result is only ever taken from the session the
    command was sent on. *)
Theorem waiters_answered (token : Z -> pystr) s g i w : Inj eq eq token -> started token s -> steps token (initial s) g -> waiters g !! i = Some w ->
  (w_state w = Waiting -> pending g !! w_cmd w = Some i /\ retiring g = false
     /\ exists x, sessions g !! w_source w = Some x /\ s_ready x = true /\ s_agent x = w_agent w)
  /\ (forall n v, w_state w = Answered n v \/ w_state w = Refused n v -> n = w_source w).
Proof.
  intros Hinj Hs Hsteps Hw. pose proof (reachable_inv _ _ _ _ _ _ s g Hs Hsteps) as HI. split.
  - intros Hst. destruct (w_waiting _ _ _ _ _ (i_waits _ _ HI) i w Hw Hst) as [HP (x & Hx & Hr & Ha)]. split_and!; [done| |by exists x].
    destruct (retiring g) eqn:Hret; [|done]. by rewrite (retired_not_ready _ g _ x HI Hret Hx) in Hr.
  - intros n v H. pose proof (w_from _ _ _ _ _ (i_waits _ _ HI) i w Hw) as Hf. destruct H as [H|H]; by rewrite H in Hf.
Qed.
End Properties.

(** ** A concrete run *)

Definition sample_hello : frame :=
  [(str "type", JStr (str "hello")); (str "agent_id", JStr (str "home")); (str "version", JStr (str "0.1.0"));
   (str "protocol_version", JInt 1); (str "stream_id", JStr (str "s1"));
   (str "devices", JArr [JObj [(str "name", JStr (str "sim0")); (str "online", JBool true)]]); (str "durable_commands", JInt 1)].

Definition sample_session : hello := mkHello (str "home") (str "0.1.0") 1 (str "s1") [[(str "name", JStr (str "sim0")); (str "online", JBool true)]] true.

Definition sample_request : request :=
  mkRequest (str "admin") (Operations.mkTarget 1 (str "home") (str "sim0") [] []) [] (str "h") (str "k") (str "2026") (str "op") (str "t").

Abbreviation run_sample := (run_job plain_repr plain_repr no_column no_time no_float decimal 1000000 (str "2025")) (only parsing).
Abbreviation sample_step := (step plain_repr plain_repr no_column no_time no_float decimal) (only parsing).

(** The next job of the queue. *)
Definition work (g : gateway) : gateway := match jobs g with [] => g | j :: rest => run_sample j (set_jobs rest g) end.

Definition after (f : session -> gateway -> gateway) (g : gateway) : gateway := match sessions g !! 1 with Some x => f x g | None => g end.

Definition ready_gateway : gateway := after (fun x => resume_register 1 x (Ok tt)) (work (register sample_session (initial first_server))).
Definition asked_gateway : gateway := default ready_gateway (call (str "home") (str "c-1") ready_gateway).
Definition submitted : gateway :=
  work (default asked_gateway (submit sample_request false (set_looked [(sample_request, false)] asked_gateway))).
Definition claimed : gateway :=
  let g := set_read (head (operations_of (db submitted))) submitted in
  work (match read g with Some o => dispatch_claim decimal o g | None => g end).
Definition dropped : gateway := after (unregister 1) claimed.
Definition recorded : gateway := work dropped.

Example sample_hello_registers :
  on_text plain_repr false 300 (Some (JObj sample_hello)) (fun _ => false) false = Registers sample_session
  /\ on_text plain_repr false 300 (Some (JObj sample_hello)) (fun _ => true) false = Close CLOSE_AGENT_CONFLICT.
Proof. by vm_compute. Qed.

(** The link drops while an operation is running: it is unknown, the command is
    failed, and the agent and its module are offline. *)
Example dropped_link :
  (Operations.o_status <$> operations_of (db claimed)) = [Operations.Running]
  /\ (Operations.o_status <$> operations_of (db recorded)) = [Operations.Unknown]
  /\ (w_state <$> waiters recorded !! 0) = Some ResultUnknown
  /\ (Fleet.a_connected <$> agents_of (db claimed) !! str "home") = Some true
  /\ (Fleet.a_connected <$> agents_of (db recorded) !! str "home") = Some false.
Proof. by vm_compute. Qed.

Lemma work_step g : jobs g <> [] -> sample_step g (work g).
Proof. unfold work. destruct (jobs g) as [|j rest] eqn:E; [done|]. intros _. by apply step_job. Qed.

Lemma after_step f g p : s_phase <$> sessions g !! 1 = Some p ->
  (forall x, sessions g !! 1 = Some x -> s_phase x = p -> sample_step g (f x g)) -> sample_step g (after f g).
Proof. unfold after. destruct (sessions g !! 1) as [x|] eqn:E; [|done]. intros [= <-] H. by apply H. Qed.

Lemma ready_run : rtc sample_step (initial first_server) ready_gateway.
Proof.
  apply (rtc_l _ _ (register sample_session (initial first_server))).
  { apply (step_hello _ _ _ _ _ _ 300 (Some (JObj sample_hello))). by vm_compute. }
  apply (rtc_l _ _ (work (register sample_session (initial first_server)))); [by apply work_step|].
  apply rtc_once, (after_step _ _ (Registered (Ok tt))); [by vm_compute|]. intros x Hx Hp. by apply step_registered.
Qed.

Lemma asked_run : rtc sample_step (initial first_server) asked_gateway.
Proof.
  eapply rtc_r; [exact ready_run|]. unfold asked_gateway. destruct (call _ _ ready_gateway) as [g|] eqn:E; [|by vm_compute in E].
  apply (step_call _ _ _ _ _ _ (str "home") (str "c-1")); [|exact E]. intros i w. replace (waiters ready_gateway) with (∅ : gmap Z waiter) by by vm_compute. by rewrite lookup_empty.
Qed.

Lemma claimed_run : rtc sample_step (initial first_server) claimed.
Proof.
  etransitivity; [exact asked_run|]. set (looking := set_looked [(sample_request, false)] asked_gateway).
  apply (rtc_l _ _ looking).
  { replace looking with (set_looked ((sample_request, lookup_request sample_request asked_gateway) :: looked asked_gateway) asked_gateway)
      by (unfold looking; f_equal; by vm_compute). apply step_lookup. }
  set (g := default asked_gateway (submit sample_request false looking)).
  assert (E : submit sample_request false looking = Some g).
  { unfold g. destruct (submit _ _ looking) eqn:E; [done|]. by vm_compute in E. }
  apply (rtc_l _ _ g); [by apply (step_submit _ _ _ _ _ _ sample_request false); [left|]|].
  apply (rtc_l _ _ submitted); [apply (work_step g); by vm_compute|].
  assert (Ho : is_Some (head (operations_of (db submitted)))) by (eexists; by vm_compute). destruct Ho as [o Ho].
  apply (rtc_l _ _ (set_read (Some o) submitted)).
  { apply step_read. unfold operations_of in Ho. destruct (operations _); [done|]. injection Ho as ->. by left. }
  assert (Hc : claimed = work (dispatch_claim decimal o (set_read (Some o) submitted))) by (unfold claimed; rewrite Ho; done).
  apply (rtc_l _ _ (dispatch_claim decimal o (set_read (Some o) submitted))); [by apply step_claim|].
  rewrite Hc. apply rtc_once, work_step. vm_compute in Ho. injection Ho as <-. by vm_compute.
Qed.

Lemma first_started : started decimal first_server.
Proof. split_and!; [intros a r; cbn; by rewrite lookup_empty|by intros o ?%not_elem_of_nil|constructor|by intros o n ?%not_elem_of_nil]. Qed.

#[export] Instance decimal_injective : Inj eq eq decimal.
Proof. exact decimal_inj. Qed.

Lemma sessions_exclusive_witness :
  rtc sample_step (initial first_server) ready_gateway /\ retiring ready_gateway = false
  /\ (s_ready <$> sessions ready_gateway !! 1) = Some true
  /\ exists x, sessions ready_gateway !! 1 = Some x
      /\ exists row, agents_of (db ready_gateway) !! s_agent x = Some row /\ connected_on (s_stream x) row.
Proof.
  split_and!; [exact ready_run|by vm_compute|by vm_compute|].
  destruct (sessions_exclusive plain_repr plain_repr no_column no_time no_float decimal first_server ready_gateway _ first_started ready_run) as (_ & H & _);
    [by vm_compute|].
  destruct (sessions ready_gateway !! 1) as [x|] eqn:E; [|by vm_compute in E]. exists x. split; [done|]. apply (H 1 x E).
  assert (Hr : s_ready <$> sessions ready_gateway !! 1 = Some true) by by vm_compute. rewrite E in Hr. by injection Hr.
Defined.

Lemma operations_owned_witness :
  rtc sample_step (initial first_server) claimed /\ (Operations.o_status <$> operations_of (db claimed)) = [Operations.Running]
  /\ Forall (fun o => Operations.o_status o = Operations.Running -> exists n x, sessions claimed !! n = Some x /\ open (s_phase x)
        /\ s_agent x = Operations.o_agent_id o /\ Operations.o_connection_id o = decimal n) (operations_of (db claimed)).
Proof.
  split_and!; [exact claimed_run|by vm_compute|].
  destruct (operations_owned plain_repr plain_repr no_column no_time no_float decimal first_server claimed _ first_started claimed_run) as [H _];
    [by vm_compute|]. apply Forall_forall. exact H.
Defined.

Lemma waiters_answered_witness :
  rtc sample_step (initial first_server) asked_gateway /\ waiters asked_gateway !! 0 = Some (mkWaiter (str "c-1") (str "home") 1 Waiting)
  /\ pending asked_gateway !! str "c-1" = Some 0.
Proof.
  assert (E : waiters asked_gateway !! 0 = Some (mkWaiter (str "c-1") (str "home") 1 Waiting)) by by vm_compute.
  split_and!; [exact asked_run|exact E|].
  exact (proj1 (proj1 (waiters_answered plain_repr plain_repr no_column no_time no_float decimal first_server asked_gateway 0 _ _ first_started asked_run E) eq_refl)).
Defined.
End Registry.
