(* ===== verification/Events.v ===== *)
(** * What the worker reports (agent/src/air780e_agent/worker.py, store.py)

    The events a module's worker queues for the server and the rows of the
    agent's own message history: arriving messages, delivery reports and calls,
    and what a command does before and after the driver's work: the segments the
    tasks of Device.v are made of.  [queued] says what an event looks like; the
    server's handlers (Handlers.v) accept every such event, and the segments queue
    no other. *)

From S2P Require Import Prelude PyText PyDict Json Codec AtErrors Driver Worker Modem Calls Fleet PduClass Outbox Alerts Delivery Ingest Handlers.
From Stdlib Require Import Floats.SpecFloat.

Module Events.
Import StatusFilter.

(** ** Texts *)

(** [n] in decimal, zero-padded to a width. *)
Definition padded (width : nat) (n : Z) : pystr := let s := decimal n in repeat 48 (width - length s) ++ s.

(** [datetime.isoformat]: no microseconds; the offset's seconds only when it
    has some. *)
Definition isoformat (t : datetime) : pystr :=
  let o := Z.abs (dt_offset t) in
  padded 4 (dt_year t) ++ str "-" ++ padded 2 (dt_month t) ++ str "-" ++ padded 2 (dt_day t) ++ str "T"
  ++ padded 2 (dt_hour t) ++ str ":" ++ padded 2 (dt_minute t) ++ str ":" ++ padded 2 (dt_second t)
  ++ (if dt_offset t <? 0 then str "-" else str "+") ++ padded 2 (o / 3600) ++ str ":" ++ padded 2 (o / 60 mod 60)
  ++ (if o mod 60 =? 0 then [] else str ":" ++ padded 2 (o mod 60)).

Definition alphabet_name (a : alphabet) : pystr :=
  match a with gsm7 => str "gsm7" | eight_bit => str "8bit" | ucs2 => str "ucs2" end.

(** ** The worker *)

Inductive exn :=
| DeviceOffline (message : pystr)
| AtFailed (message : pystr)
| DriverFailed (e : Driver.exn)
| UnicodeEncodeError.

(** A row of the local history. *)
Record message_row := mkMessage {
  m_device : pystr; m_iccid : option pystr; m_direction : pystr; m_peer : pystr; m_body : pystr; m_ts : pystr;
  m_status : pystr; m_segments : Z; m_created : pystr }.

(** [modem] is whether [_modem] is set; [out] the events handed to [emit]. *)
Record worker := mkWorker {
  name : pystr; state : DeviceState; last_error : pystr; modem : bool; history : list message_row; out : list (pystr * frame) }.

Definition set_state (s : DeviceState) (w : worker) : worker := mkWorker (name w) s (last_error w) (modem w) (history w) (out w).

Definition act (A : Type) : Type := worker -> res exn A * worker.
Definition act_ret {A} (a : A) : act A := fun w => (Ok a, w).
Definition act_bind {A B} (m : act A) (k : A -> act B) : act B :=
  fun w => match m w with (Ok a, w) => k a w | (Err e, w) => (Err e, w) end.
Definition act_raise {A} (e : exn) : act A := fun w => (Err e, w).
Definition act_get {A} (f : worker -> A) : act A := fun w => (Ok (f w), w).
Definition act_modify (f : worker -> worker) : act unit := fun w => (Ok tt, f w).

Notation "x <! m ;; k" := (act_bind m (fun x => k)) (at level 62, m at next level, right associativity) : hub_scope.
Notation "m ;! k" := (act_bind m (fun _ => k)) (at level 62, right associativity) : hub_scope.

Definition emit (kind : string) (payload : frame) : act unit :=
  act_modify (fun w => mkWorker (name w) (state w) (last_error w) (modem w) (history w) (out w ++ [(str kind, payload)])).

Section Worker.
(** The clock as the code reads it: [_now] and [store.utcnow]; the command an AT
    error was raised with; a duration as a float and to one decimal. *)
Context (now utcnow : pystr) (command : option pystr) (seconds : Z -> spec_float) (one_decimal : Z -> pystr).

Definition record_message (direction peer body ts status : pystr) (iccid : option pystr) (segments : Z) : act unit :=
  w <! act_get id ;;
  if forallb Fleet.encodable [name w; direction; peer; body; ts; status; default [] iccid]
  then act_modify (fun w => mkWorker (name w) (state w) (last_error w) (modem w)
                    (history w ++ [mkMessage (name w) iccid direction peer body ts status segments utcnow]) (out w))
  else act_raise UnicodeEncodeError.

(** [recent_messages(limit)], [limit] not negative *)
Definition recent_messages (limit : nat) (w : worker) : list message_row := take limit (rev (history w)).

(** [iccid or None] *)
Definition known_iccid (w : worker) : option pystr := match iccid (state w) with [] => None | i => Some i end.

Definition log_payload (device level message : pystr) (fields : frame) : frame :=
  [ (str "device", JStr device); (str "level", JStr level); (str "message", JStr message); (str "ts", JStr now) ] ++ fields.

(** [_log_event(..., event="device_recovery", ...)] *)
Definition recovery_fields (action outcome reason : pystr) (attempt : Z) : frame :=
  [ (str "event", JStr (str "device_recovery")); (str "action", JStr action); (str "outcome", JStr outcome);
    (str "reason", JStr reason); (str "attempt", JInt attempt) ].

Definition log_event (level : string) (message : pystr) (fields : frame) : act unit :=
  w <! act_get id ;; emit "log" (log_payload (name w) (str level) message fields).

(** ** Arriving *)

Definition sms_payload (device card : pystr) (sms : DecodedSms) : frame :=
  [ (str "device", JStr device); (str "iccid", JStr card); (str "peer", JStr (d_address sms)); (str "body", JStr (d_text sms));
    (str "ts", JStr (match d_timestamp sms with Some t => isoformat t | None => now end));
    (str "ts_source", JStr (if d_timestamp sms then str "scts" else str "local"));
    (str "segments", JInt (match d_concat sms with Some c => c_total c | None => 1 end)); (str "pdu", JStr (d_raw sms));
    (str "dcs", JInt (d_dcs sms)); (str "alphabet", JStr (alphabet_name (d_alphabet sms)));
    (str "binary", JBool (is_binary sms)); (str "truncated", JBool (d_truncated sms));
    (str "recovered_text", JStr (d_recovered_text sms)); (str "code", JStr (d_code sms)) ].

Definition on_sms (sms : DecodedSms) : act unit :=
  w <! act_get id ;;
  record_message (str "in") (d_address sms) (d_text sms) (match d_timestamp sms with Some t => isoformat t | None => now end)
    (str "received") (known_iccid w) (match d_concat sms with Some c => c_total c | None => 1 end) ;!
  emit "sms_in" (sms_payload (name w) (iccid (state w)) sms).

Definition opt_time (t : option datetime) : json := match t with Some t => JStr (isoformat t) | None => JNull end.

Definition state_name (s : Codec.delivery_state) : pystr :=
  match s with Codec.delivered => str "delivered" | Codec.pending => str "pending" | Codec.failed => str "failed" end.

Definition delivery_payload (device card : pystr) (r : StatusReport) : frame :=
  [ (str "device", JStr device); (str "iccid", JStr card); (str "reference", JInt (sr_message_reference r));
    (str "peer", JStr (sr_recipient r)); (str "status", JStr (state_name (sr_state r))); (str "status_code", JInt (sr_status r));
    (str "service_center_ts", opt_time (sr_service_center_timestamp r)); (str "discharge_ts", opt_time (sr_discharge_time r));
    (str "ts", JStr now); (str "pdu", JStr (sr_raw r)) ].

Definition on_delivery (r : StatusReport) : act unit :=
  w <! act_get id ;; emit "sms_delivery" (delivery_payload (name w) (iccid (state w)) r).

Definition call_payload (device card direction peer ts outcome : pystr) (reached : bool) (ring : spec_float) (detail : pystr) : frame :=
  [ (str "device", JStr device); (str "iccid", JStr card); (str "direction", JStr direction); (str "peer", JStr peer);
    (str "ts", JStr ts); (str "outcome", JStr outcome); (str "reached_network", JBool reached); (str "ring_seconds", JFloat ring);
    (str "detail", JStr detail) ].

Definition or_text (s other : pystr) : pystr := match s with [] => other | _ => s end.

Definition on_incoming_call (call : Driver.IncomingCall) : act unit :=
  w <! act_get id ;;
  emit "call_event" (call_payload (name w) (iccid (state w)) (str "in") (Driver.call_number call) (or_text (Driver.call_ts call) now)
                       (str "missed") true (S754_zero false) []) ;!
  log_event "info" (([0x6765; 0x7535] ++ str " ") ++ or_text (Driver.call_number call) [0x672A; 0x77E5; 0x53F7; 0x7801] ++ [0xFF08; 0x672A; 0x63A5; 0x542C; 0xFF0C; 0x4EC5; 0x8BB0; 0x5F55; 0xFF09]) [].

(** ** Commands *)

Definition require_modem : act unit :=
  w <! act_get id ;;
  if negb (modem w) || negb (online (state w))
  then act_raise (DeviceOffline (str "device " ++ name w ++ str " is offline: " ++ or_text (last_error w) (str "not connected")))
  else act_ret tt.

Definition require_radio : act unit :=
  require_modem ;!
  w <! act_get id ;;
  if bool_decide (radio_enabled (state w) = Some false)
  then act_raise (DeviceOffline (str "device " ++ name w ++ str " radio is disabled"))
  else act_ret tt.

Definition flag (b : option bool) : bool := match b with Some true => true | _ => false end.

Definition sms_diagnostic_context (s : DeviceState) : pystr :=
  let domains := (if flag (eps_registered s) then [str "EPS/LTE"] else []) ++ (if flag (cs_registered s) then [str "CS"] else []) in
  let network := match domains with
                 | [] => if registered s then str "registered (domain unavailable)" else str "not registered"
                 | _ => py_join (str "+") domains ++ str " registered"
                 end in
  let ims := match ims_registered s with
             | Some true => str "IMS registered" | Some false => str "IMS not registered" | None => str "IMS status unavailable"
             end in
  network ++ str ", " ++ ims ++ str ", firmware=" ++ or_text (firmware s) (str "unknown firmware").

Definition sms_out_payload (device card peer body ts status : pystr) (refs : list Z) (cmd_id error : json) : frame :=
  [ (str "device", JStr device); (str "iccid", JStr card); (str "peer", JStr peer); (str "body", JStr body); (str "ts", JStr ts);
    (str "status", JStr status); (str "refs", JArr (JInt <$> refs)); (str "cmd_id", cmd_id); (str "error", error) ].

(** [send_sms] behind its await of the driver, [answer]; [now] was read before. *)
Definition sms_sent (number body : pystr) (cmd_id : json) (answer : res Driver.exn (list Z)) : act (list Z) :=
  match answer with
  | Ok refs =>
      w <! act_get id ;;
      record_message (str "out") number body now (str "sent") (known_iccid w) (Z.of_nat (length refs)) ;!
      emit "sms_out" (sms_out_payload (name w) (iccid (state w)) number body now (str "sent") refs cmd_id JNull) ;!
      act_ret refs
  | Err (Driver.AtError e) =>
      w <! act_get id ;;
      let error := error_text command e ++ str "; modem status: " ++ sms_diagnostic_context (state w) in
      record_message (str "out") number body now (str "failed") (known_iccid w) 1 ;!
      emit "sms_out" (sms_out_payload (name w) (iccid (state w)) number body now (str "failed") [] cmd_id (JStr error)) ;!
      act_raise (AtFailed error)
  | Err e => act_raise (DriverFailed e)
  end.

Definition OUTCOME_LABELS : list (string * string) :=
  [ ("alerting", "far end rang"); ("answered", "answered (hung up immediately)"); ("busy", "far end busy");
    ("no_answer", "no answer"); ("dialing", "call set up"); ("released", "released before ringing");
    ("no_dialtone", "no dial tone"); ("no_progress", "never left the module") ]%string.

(** [CallResult.describe] *)
Definition describe_call (r : Calls.CallResult) : pystr :=
  let label := match List.find (fun e => bool_decide (e.1 = Calls.outcome_ r)) OUTCOME_LABELS with Some e => e.2 | None => Calls.outcome_ r end in
  str label ++ str " after " ++ one_decimal (Calls.ring_seconds r) ++ str "s"
  ++ match Calls.detail r with [] => [] | d => str "; " ++ d end.

(** [call_keepalive] behind its await, up to its reply. *)
Definition call_placed (number : pystr) (answer : res Driver.exn Calls.CallResult) : act Calls.CallResult :=
  match answer with
  | Ok r =>
      w <! act_get id ;;
      emit "call_event" (call_payload (name w) (iccid (state w)) (str "out") number now (str (Calls.outcome_ r)) (Calls.reached_network r)
                           (seconds (Calls.ring_seconds r)) (Calls.detail r)) ;!
      (if Calls.reached_network r
       then log_event "info" (([0x4FDD; 0x53F7; 0x547C; 0x53EB] ++ str " ") ++ number ++ str ": " ++ describe_call r) []
       else log_event "warning" (([0x4FDD; 0x53F7; 0x547C; 0x53EB] ++ str " ") ++ number ++ (str " " ++ [0x672A; 0x5230; 0x8FBE; 0x7F51; 0x7EDC] ++ str ": ") ++ describe_call r ++ str "; modem status: "
                                 ++ sms_diagnostic_context (state w)) []) ;!
      act_ret r
  | Err (Driver.AtError e) =>
      w <! act_get id ;;
      let error := error_text command e ++ str "; modem status: " ++ sms_diagnostic_context (state w) in
      log_event "error" (([0x4FDD; 0x53F7; 0x547C; 0x53EB] ++ str " ") ++ number ++ (str " " ++ [0x5931; 0x8D25] ++ str ": ") ++ error) [] ;!
      act_raise (AtFailed error)
  | Err e => act_raise (DriverFailed e)
  end.

(** What [ussd] and [raw_at] need, which talk to the AT client itself: a port
    that is open ([modem] stands for [_client]) and a module that is online. *)
Definition require_client : act unit :=
  w <! act_get id ;;
  if negb (modem w) || negb (online (state w)) then act_raise (DeviceOffline (str "device " ++ name w ++ str " is offline")) else act_ret tt.
(** What [ping] asks first. *)
Definition require_data : act unit :=
  w <! act_get id ;;
  if negb (data_enabled (state w)) then act_raise (DeviceOffline ([0x79FB; 0x52A8; 0x6570; 0x636E; 0x5DF2; 0x5173; 0x95ED; 0xFF0C; 0x672A; 0x53D1; 0x9001] ++ str " ping")) else act_ret tt.
Definition ussd_command (code : pystr) : pystr := str "AT+CUSD=1," ++ [34] ++ code ++ [34] ++ str ",15".
End Worker.

(** ** What the server makes of an event *)

(** [Event.to_frame] *)
Definition to_frame (kind : string) (seq : Z) (payload : frame) : frame :=
  (str "type", JStr (str kind)) :: (str "seq", JInt seq) :: payload.

(** *** Texts that can be stored *)

Lemma encodable_app s t : Fleet.encodable (s ++ t) = Fleet.encodable s && Fleet.encodable t.
Proof. unfold Fleet.encodable. rewrite existsb_app. by rewrite negb_orb. Qed.

Lemma encodable_take n s : Fleet.encodable s = true -> Fleet.encodable (take n s) = true.
Proof. rewrite <- (take_drop n s) at 1. rewrite encodable_app, andb_true_iff. tauto. Qed.

Lemma encodable_forall s : Forall (fun c => Fleet.is_surrogate c = false) s -> Fleet.encodable s = true.
Proof.
  unfold Fleet.encodable. intros H. apply negb_true_iff, not_true_iff_false. intros (c & Hc & E)%existsb_exists.
  apply list_elem_of_In in Hc. rewrite Forall_forall in H. by rewrite (H c Hc) in E.
Qed.

Lemma encodable_decimal n : Fleet.encodable (decimal n) = true.
Proof.
  apply encodable_forall. eapply Forall_impl; [apply decimal_chars|]. intros c [->|?]; unfold Fleet.is_surrogate; lia.
Qed.

Lemma encodable_padded w n : Fleet.encodable (padded w n) = true.
Proof.
  unfold padded. rewrite encodable_app, encodable_decimal, andb_true_r. apply encodable_forall.
  induction (w - length (decimal n))%nat; constructor; done.
Qed.

Lemma encodable_isoformat t : Fleet.encodable (isoformat t) = true.
Proof.
  unfold isoformat. cbv zeta. rewrite !encodable_app, !encodable_padded. destruct (dt_offset t <? 0), (_ mod 60 =? 0); rewrite ?encodable_app, ?encodable_padded; done.
Qed.

Lemma encodable_join sep l : Fleet.encodable sep = true -> Forall (fun s => Fleet.encodable s = true) l -> Fleet.encodable (py_join sep l) = true.
Proof.
  intros Hs. induction 1 as [|s l Hl HF IH]; [done|]. destruct l as [|t l]; [exact Hl|].
  change (py_join sep (s :: t :: l)) with (s ++ sep ++ py_join sep (t :: l)). by rewrite !encodable_app, Hl, Hs, IH.
Qed.

Create HintDb texts.
#[export] Hint Resolve encodable_take encodable_decimal encodable_isoformat : texts.
#[export] Hint Rewrite encodable_app encodable_decimal encodable_isoformat : texts.

(** *** Handlers that end *)

Import Handlers.

Definition ends {A} (m : tx A) (d : Handlers.database) (Q : A -> Handlers.database -> Prop) : Prop := exists a d', m d = Ok (a, d') /\ Q a d'.

Lemma ends_weaken {A} (m : tx A) d (P Q : A -> Handlers.database -> Prop) : ends m d P -> (forall a d', P a d' -> Q a d') -> ends m d Q.
Proof. intros (a & d' & E & H) HPQ. exists a, d'. auto. Qed.
Lemma ends_bind {A B} (m : tx A) (k : A -> tx B) d Q : ends m d (fun a d' => ends (k a) d' Q) -> ends (bind_tx m k) d Q.
Proof. intros (a & d' & E & b & d'' & E' & H). exists b, d''. unfold bind_tx. by rewrite E. Qed.
Lemma ends_ret {A} (a : A) d (Q : A -> Handlers.database -> Prop) : Q a d -> ends (ret a) d Q.
Proof. intros H. by exists a, d. Qed.
Lemma ends_modify f d (Q : unit -> Handlers.database -> Prop) : Q tt (f d) -> ends (modify f) d Q.
Proof. intros H. by exists tt, (f d). Qed.
Lemma ends_get {A} (f : Handlers.database -> A) d (Q : A -> Handlers.database -> Prop) : Q (f d) d -> ends (get f) d Q.
Proof. intros H. by exists (f d), d. Qed.
Lemma ends_check b e d (Q : unit -> Handlers.database -> Prop) : b = true -> Q tt d -> ends (Handlers.check b e) d Q.
Proof. intros -> H. by exists tt, d. Qed.
Lemma ends_lift {A} (r : res Fleet.exn A) d (Q : A -> Handlers.database -> Prop) : (exists a, r = Ok a) -> (forall a, r = Ok a -> Q a d) -> ends (lift r) d Q.
Proof. intros [a E] H. exists a, d. split; [by rewrite E|auto]. Qed.

(** A value a column takes. *)
Definition storable (not_null : bool) (v : json) : Prop := exists w, Fleet.bind v = Ok w /\ (is_null w && not_null = false).

Lemma storable_str b s : Fleet.encodable s = true -> storable b (JStr s).
Proof.
  intros H. exists (JStr s). unfold Fleet.encodable in H. apply negb_true_iff in H. cbn. by rewrite H.
Qed.
Lemma storable_int b n : Fleet.fits_int64 n = true -> storable b (JInt n).
Proof. intros H. exists (JInt n). cbn. by rewrite H. Qed.
Lemma storable_bool b x : storable b (JBool x).
Proof. by exists (JInt (if x then 1 else 0)). Qed.
Lemma storable_bit b (x : bool) : storable b (JInt (if x then 1 else 0)).
Proof. exists (JInt (if x then 1 else 0)). by destruct x. Qed.
Lemma storable_int_bool b x : storable b (Fleet.int_bool (JBool x)).
Proof. exists (JInt (if x then 1 else 0)). by destruct x. Qed.
Lemma storable_null : storable false JNull.
Proof. by exists JNull. Qed.
Lemma storable_float b f : f <> S754_nan -> storable b (JFloat f).
Proof. intros H. exists (JFloat f). by destruct f. Qed.

Lemma row_bound l : Forall (fun c => storable c.1.2 c.2) l -> exists r, bind_row l = Ok r.
Proof.
  induction 1 as [|[[n nn] v] l (w & Hw & Hn) HF [r IH]]; [by exists []|]. cbn [fst snd] in Hw, Hn. cbn [bind_row]. rewrite Hw. cbn [mbind res_bind].
  rewrite Hn, IH. cbn. eauto.
Qed.

#[export] Hint Resolve storable_str storable_int storable_bool storable_bit storable_int_bool storable_null storable_float : texts.

Lemma encodable_object l : encodable_json (JObj l) = forallb (fun kv => Fleet.encodable kv.1 && encodable_json kv.2) l.
Proof. cbn. induction l as [|[k v] l IH]; [done|]. cbn. by rewrite IH. Qed.

(** The values of a frame's fields. *)
Ltac fields :=
  repeat match goal with
  | |- context [jget ?k ?f] => let v := eval vm_compute in (jget k f) in change (jget k f) with v
  | |- context [jget_or ?k ?d ?f] => let v := eval vm_compute in (jget_or k d f) in change (jget_or k d f) with v
  | |- context [jhas ?k ?f] => let v := eval vm_compute in (jhas k f) in change (jhas k f) with v
  end.

Section Accepted.
Context (repr text : json -> pystr) (integer : json -> option Z).
Context (fromisoformat : pystr -> option Z) (float_text : pystr -> option spec_float) (clock : Z).
Hypothesis text_str : forall s, text (JStr s) = s.

Abbreviation applies := (Handlers.apply repr text integer fromisoformat float_text clock) (only parsing).

Lemma bind_text_str s : Fleet.encodable s = true -> Fleet.bind_text text (JStr s) = Ok s.
Proof. intros H. unfold Fleet.bind_text. destruct (storable_str true s H) as (w & E & _). cbn in E |- *. destruct (existsb _ _); [done|]. cbn. by rewrite text_str. Qed.

Lemma ends_card s d Q : Fleet.encodable s = true ->
  (forall r d', messages_seq d' = messages_seq d -> calls_seq d' = calls_seq d -> Q r d') -> ends (upsert_card text clock (JStr s)) d Q.
Proof.
  intros Hs HQ. unfold upsert_card. cbn [truthy]. destruct (bool_decide (s = [])); cbn [negb]; [apply ends_ret; by apply HQ|].
  apply ends_bind, ends_lift; [rewrite bind_text_str by done; eauto|]. intros i _. apply ends_bind, ends_get, ends_bind, ends_modify, ends_ret. by apply HQ.
Qed.

Lemma or_else_str s : or_else (JStr s) (JStr []) = JStr s.
Proof. by destruct s. Qed.

Lemma ends_message card ts cols d : Fleet.encodable card = true -> Forall (fun c => storable c.1.2 c.2) cols ->
  ends (insert_message text fromisoformat clock (JStr card) (JStr ts) cols) d (fun id d' => id = messages_seq d + 1).
Proof.
  intros Hc Hr. unfold insert_message. apply ends_bind, ends_card; [done|]. intros sim d1 Hm _.
  apply ends_bind, ends_lift. { unfold Fleet.to_utc_iso. destruct (negb _); eauto. } intros at_ _.
  apply ends_bind, ends_lift; [by apply row_bound|]. intros row _.
  apply ends_bind, ends_get, ends_bind, ends_modify, ends_ret. by rewrite Hm.
Qed.

Definition small (n : Z) : Prop := Fleet.fits_int64 n = true.

Lemma small_next n : 0 <= n < 2 ^ 62 -> small (n + 1).
Proof. intros H. unfold small, Fleet.fits_int64. change (2 ^ 63) with (2 * 2 ^ 62). set (b := 2 ^ 62) in *. lia. Qed.

Lemma optional_int_int n : optional_int (JInt n) = Ok (Some n).
Proof. done. Qed.

Lemma storable_or_none s : Fleet.encodable s = true -> storable false (or_none (JStr s)).
Proof. intros H. unfold or_none. destruct (truthy _); auto with texts. Qed.

Lemma ends_enqueue kind ref f key d Q : encodable_json (JObj f) = true -> match ref with Some n => small n | None => True end ->
  (forall d', Q tt d') -> ends (enqueue clock kind ref f key) d Q.
Proof.
  intros Hf Hn HQ. unfold enqueue. destruct ref; [|by apply ends_ret].
  apply ends_bind, ends_check; [done|]. apply ends_bind, ends_check; [done|]. by apply ends_modify.
Qed.

Lemma ends_queue a f key d : encodable_json (JObj f) = true ->
  Forall (fun r => match r with Some n => small n | None => True end) [message_id a; task_id a; call_id a] ->
  ends (queue_notification clock a f key) d (fun _ _ => True).
Proof.
  intros Hf H. inversion_clear H as [|? ? H1 H']. inversion_clear H' as [|? ? H2 H'']. inversion_clear H'' as [|? ? H3 _].
  unfold queue_notification. apply ends_bind, ends_enqueue; [done..|]. intros d1. apply ends_bind, ends_enqueue; [done..|]. intros d2.
  by apply ends_enqueue.
Qed.

(** *** Messages *)

Definition sms_frame (seq : Z) (device card peer body ts source raw alphabet recovered code : pystr) (segments dcs : Z) (binary truncated : bool) : frame :=
  to_frame "sms_in" seq
    [ (str "device", JStr device); (str "iccid", JStr card); (str "peer", JStr peer); (str "body", JStr body); (str "ts", JStr ts);
      (str "ts_source", JStr source); (str "segments", JInt segments); (str "pdu", JStr raw); (str "dcs", JInt dcs);
      (str "alphabet", JStr alphabet); (str "binary", JBool binary); (str "truncated", JBool truncated);
      (str "recovered_text", JStr recovered); (str "code", JStr code) ].

Lemma sms_frame_applies agent key stream seq device card peer body ts source raw alphabet recovered code segments dcs binary truncated d :
  forallb Fleet.encodable [agent; device; card; peer; body; ts; source; raw; alphabet; recovered; code] = true ->
  small seq -> small segments -> small dcs -> 0 <= messages_seq d < 2 ^ 62 ->
  ends (applies agent (str "sms_in") key stream
          (sms_frame seq device card peer body ts source raw alphabet recovered code segments dcs binary truncated)) d (fun _ _ => True).
Proof.
  intros Ht Hseq Hseg Hdcs Hid. cbn [forallb] in Ht. rewrite !andb_true_iff in Ht. destruct Ht as (Ha & Hd & Hc & Hp & Hb & Hts & Hsrc & Hr & Hal & Hre & Hco & _).
  unfold Handlers.apply. apply ends_bind. unfold apply_kind. rewrite bool_decide_eq_true_2 by done. apply ends_bind.
  unfold apply_sms_in, sms_frame, to_frame. fields. rewrite !or_else_str.
  apply ends_bind, ends_lift. { unfold or_else. destruct (truthy _); cbn; eauto. } intros segs Esegs.
  apply ends_bind, ends_lift; [cbn; eauto|]. intros odcs Eodcs. rewrite optional_int_int in Eodcs. injection Eodcs as <-.
  apply ends_bind, ends_lift. { cbn [truthy]. destruct binary; [eauto|]. unfold or_none. destruct (truthy _); eauto. } intros data _.
  eapply ends_weaken.
  - apply ends_message; [done|]. assert (Hs : storable true (JInt segs)).
    { unfold or_else in Esegs. destruct (truthy _); injection Esegs as <-; auto with texts. }
    repeat apply Forall_cons_2; [..|by apply Forall_nil_2]; cbn [fst snd]; auto using storable_or_none with texts.
  - intros id d' ->. apply ends_ret, ends_bind. 
    eapply ends_weaken; [apply ends_queue|intros _ d1 _; by apply ends_ret].
    + rewrite encodable_object. cbn [forallb fst snd encodable_json]. rewrite Hd, Hc, Hp, Hb, Hts, Hsrc, Hr, Hal, Hre, Hco. by vm_compute.
    + repeat constructor. cbn [message_id]. by apply small_next.
Qed.

Lemma ends_quiet (a : applied_event) f key d : ends (bind_tx (queue_notification clock nothing f key) (fun _ => ret a)) d (fun _ _ => True).
Proof. by apply ends_bind, ends_bind, ends_ret, ends_bind, ends_ret, ends_ret, ends_ret. Qed.

Lemma ends_quiet' c (a : applied_event) f key d : a = mkApplied None None None c false ->
  ends (bind_tx (queue_notification clock a f key) (fun _ => ret a)) d (fun _ _ => True).
Proof. intros ->. by apply ends_bind, ends_bind, ends_ret, ends_bind, ends_ret, ends_ret, ends_ret. Qed.

(** *** Delivery reports and calls *)

Definition report_frame (seq : Z) (device card peer state ts raw : pystr) (reference code : Z) (service discharge : option pystr) : frame :=
  to_frame "sms_delivery" seq
    [ (str "device", JStr device); (str "iccid", JStr card); (str "reference", JInt reference); (str "peer", JStr peer);
      (str "status", JStr state); (str "status_code", JInt code);
      (str "service_center_ts", match service with Some s => JStr s | None => JNull end);
      (str "discharge_ts", match discharge with Some s => JStr s | None => JNull end); (str "ts", JStr ts); (str "pdu", JStr raw) ].

Lemma utc_iso_ends o : exists r, (if truthy (match o with Some s => JStr s | None => JNull end)
    then t ← Fleet.to_utc_iso fromisoformat (match o with Some s => JStr s | None => JNull end) (now clock); Ok (Some t) else Ok None) = Ok r.
Proof. destruct o as [[|c s]|]; cbn; eauto. Qed.
Lemma utc_iso_ends' o : exists r, (if truthy (match o with Some s => JStr s | None => JNull end)
    then Fleet.to_utc_iso fromisoformat (match o with Some s => JStr s | None => JNull end) (now clock) else Ok 0) = Ok r.
Proof. destruct o as [[|c s]|]; cbn; eauto. Qed.

Lemma str_or_encodable s : Fleet.encodable s = true -> Fleet.encodable (str_or repr (JStr s)) = true.
Proof. unfold str_or, py_str. destruct (truthy _); done. Qed.

Lemma report_frame_applies agent key stream seq device card peer state ts raw reference code service discharge d :
  forallb Fleet.encodable [agent; device; card; peer; state; ts; raw] = true -> small seq -> 0 <= reference <= 255 -> 0 <= code <= 255 ->
  ends (applies agent (str "sms_delivery") key stream (report_frame seq device card peer state ts raw reference code service discharge)) d (fun _ _ => True).
Proof.
  intros Ht Hseq Href Hcode. cbn [forallb] in Ht. rewrite !andb_true_iff in Ht. destruct Ht as (Ha & Hd & Hc & Hp & Hs & Hts & Hr & _).
  unfold Handlers.apply. apply ends_bind. unfold apply_kind. do 2 rewrite bool_decide_eq_false_2 by by vm_compute. rewrite bool_decide_eq_true_2 by done.
  apply ends_bind. unfold apply_sms_delivery, report_frame, to_frame. fields.
  apply ends_bind, ends_lift; [cbn; eauto|]. intros oref Eref. injection Eref as <-.
  assert (negb ((0 <=? reference) && (reference <=? 255)) = false) as -> by lia.
  apply ends_bind, ends_lift; [cbn; eauto|]. intros ocode _. apply ends_bind, ends_lift; [cbn; eauto|]. intros oseq _.
  apply ends_bind, ends_lift; [apply utc_iso_ends|]. intros sv _. apply ends_bind, ends_lift; [apply utc_iso_ends'|]. intros dv _.
  apply ends_bind, ends_lift. { destruct (storable_or_none raw Hr) as (w & E & _). by exists w. } intros pv _.
  apply ends_bind, ends_check; [rewrite Ha, !str_or_encodable; done|]. apply ends_modify, ends_ret.
  apply ends_quiet.
Qed.

Definition call_frame (seq : Z) (device card direction peer ts outcome detail : pystr) (reached : bool) (ring : spec_float) : frame :=
  to_frame "call_event" seq (call_payload device card direction peer ts outcome reached ring detail).

Lemma call_frame_applies agent key stream seq device card direction peer ts outcome detail reached ring d :
  forallb Fleet.encodable [agent; device; card; direction; peer; ts; outcome; detail] = true -> small seq -> ring <> S754_nan ->
  0 <= calls_seq d < 2 ^ 62 ->
  ends (applies agent (str "call_event") key stream (call_frame seq device card direction peer ts outcome detail reached ring)) d (fun _ _ => True).
Proof.
  intros Ht Hseq Hring Hid. cbn [forallb] in Ht. rewrite !andb_true_iff in Ht. destruct Ht as (Ha & Hd & Hc & Hdir & Hp & Hts & Ho & Hde & _).
  unfold Handlers.apply. apply ends_bind. unfold apply_kind. do 4 rewrite bool_decide_eq_false_2 by by vm_compute. rewrite bool_decide_eq_true_2 by done.
  apply ends_bind. unfold apply_call_event, call_frame, call_payload, to_frame. fields.
  apply ends_bind, ends_lift; [cbn; eauto|]. intros r Er. injection Er as <-.
  apply ends_bind, ends_lift; [cbn; eauto|]. intros oseq Eseq. injection Eseq as <-.
  apply ends_bind, ends_card; [by apply str_or_encodable|]. intros sim d1 _ Hcalls.
  apply ends_bind, ends_lift.
  { apply row_bound. repeat apply Forall_cons_2; [..|by apply Forall_nil_2]; cbn [fst snd]; auto using str_or_encodable with texts.
    unfold py_str. destruct (truthy _); auto with texts. }
  intros row _. apply ends_bind, ends_get, ends_bind, ends_modify, ends_ret, ends_ret, ends_bind.
  eapply ends_weaken; [apply ends_queue|intros _ d2 _; by apply ends_ret].
  - rewrite encodable_object. cbn [forallb fst snd encodable_json]. rewrite Hd, Hc, Hdir, Hp, Hts, Ho, Hde. by vm_compute.
  - repeat constructor. cbn [call_id]. rewrite Hcalls. by apply small_next.
Qed.

(** *** Log lines *)

Lemma ends_open fp kind severity source title detail d (Q : unit -> Handlers.database -> Prop) :
  forallb Fleet.encodable [fp; source; title; detail] = true -> (forall d', Q tt d') ->
  ends (Handlers.open_incident clock fp kind severity source title detail) d Q.
Proof.
  intros Ht HQ. cbn [forallb] in Ht. rewrite !andb_true_iff in Ht. destruct Ht as (H1 & H2 & H3 & H4 & _).
  unfold Handlers.open_incident. apply ends_bind, ends_check; [|by apply ends_modify].
  cbn [forallb]. by rewrite !encodable_take.
Qed.
Lemma ends_resolve fp detail d (Q : unit -> Handlers.database -> Prop) :
  Fleet.encodable fp = true -> Fleet.encodable detail = true -> (forall d', Q tt d') -> ends (Handlers.resolve_incident clock fp detail) d Q.
Proof.
  intros H1 H2 HQ. unfold Handlers.resolve_incident. apply ends_bind, ends_check; [|by apply ends_modify]. by rewrite !encodable_take.
Qed.

(** Encodable compositions of encodable texts. *)
Ltac texts := autorewrite with texts; repeat match goal with H : Fleet.encodable _ = true |- _ => rewrite H; clear H end; by vm_compute.

Definition log_frame (seq : Z) (device level message ts : pystr) (fields : frame) : frame :=
  to_frame "log" seq (log_payload ts device level message fields).

Lemma recovery_applies agent device action outcome reason attempt level message ts seq d :
  forallb Fleet.encodable [agent; device; action; outcome; reason] = true ->
  ends (apply_device_recovery repr clock agent (log_frame seq device level message ts (recovery_fields action outcome reason attempt))) d (fun _ _ => True).
Proof.
  intros Ht. cbn [forallb] in Ht. rewrite !andb_true_iff in Ht. destruct Ht as (Ha & Hd & Hac & Ho & Hr & _).
  unfold apply_device_recovery, log_frame, log_payload, recovery_fields, to_frame. fields.
  assert (E : forall s, str_or repr (JStr s) = s) by by intros []. rewrite !E.
  destruct (_ || _); [by apply ends_ret|]. destruct (_ || _).
  { apply ends_resolve; [texts|destruct (bool_decide _); by vm_compute|done]. }
  destruct (negb _); [by apply ends_ret|]. apply ends_bind, ends_lift; [cbn; eauto|]. intros n En. injection En as <-.
  set (label := if bool_decide (action = str "serial_reconnect") then _ else _).
  assert (Hl : Fleet.encodable label = true) by (unfold label; repeat case_bool_decide; done || by vm_compute). clearbody label.
  apply ends_open; [|done]. cbn [forallb]. rewrite !andb_true_iff. split_and!; try done; [texts|texts|destruct (bool_decide _); by vm_compute|].
  apply encodable_join; [by vm_compute|]. apply Forall_cons_2; [done|]. apply Forall_app_2; [apply Forall_cons_2; [texts|done]|].
  destruct reason; [done|]. by apply Forall_cons_2.
Qed.

(** A log line is a plain one or a recovery's. *)
Definition log_fields (fields : frame) : Prop :=
  fields = [] \/ exists action outcome reason attempt, fields = recovery_fields action outcome reason attempt
    /\ forallb Fleet.encodable [action; outcome; reason] = true.

Lemma log_frame_applies agent key stream seq device level message ts fields d :
  forallb Fleet.encodable [agent; device; level; message; ts] = true -> log_fields fields -> small (now clock) ->
  ends (applies agent (str "log") key stream (log_frame seq device level message ts fields)) d (fun _ _ => True).
Proof.
  intros Ht Hf Hnow. cbn [forallb] in Ht. rewrite !andb_true_iff in Ht. destruct Ht as (Ha & Hd & Hl & Hm & Hts & _).
  unfold Handlers.apply. apply ends_bind. unfold apply_kind. do 5 rewrite bool_decide_eq_false_2 by by vm_compute. rewrite bool_decide_eq_true_2 by done.
  apply ends_bind. unfold apply_log.
  assert (Hdev : jget_or "device" (JStr []) (log_frame seq device level message ts fields) = JStr device) by by destruct Hf as [->|(? & ? & ? & ? & -> & _)].
  assert (Hlev : jget_or "level" (JStr (str "info")) (log_frame seq device level message ts fields) = JStr level) by by destruct Hf as [->|(? & ? & ? & ? & -> & _)].
  assert (Hmsg : jget_or "message" (JStr []) (log_frame seq device level message ts fields) = JStr message) by by destruct Hf as [->|(? & ? & ? & ? & -> & _)].
  assert (Hts' : jget "ts" (log_frame seq device level message ts fields) = JStr ts) by by destruct Hf as [->|(? & ? & ? & ? & -> & _)].
  rewrite Hdev, Hlev, Hmsg, Hts', or_else_str.
  apply ends_bind, ends_lift.
  { apply row_bound. repeat apply Forall_cons_2; [..|by apply Forall_nil_2]; cbn [fst snd]; auto with texts.
    unfold or_else. destruct (truthy _); auto with texts. }
  intros row _. apply ends_bind, ends_modify. destruct Hf as [->|(action & outcome & reason & attempt & -> & Hf)].
  - apply ends_ret, ends_ret, ends_quiet.
  - cbn [forallb] in Hf. rewrite !andb_true_iff in Hf. destruct Hf as (H1 & H2 & H3 & _).
    eapply ends_weaken; [apply recovery_applies|intros _ d1 _; apply ends_ret, ends_quiet].
    cbn [forallb]. by rewrite Ha, Hd, H1, H2, H3.
Qed.

(** *** Status *)

Definition good (c : string * json) : Prop := storable (bool_decide (c.1 ∈ Fleet.NOT_NULL_FIELDS)) c.2.

Lemma fields_written p c : c ∈ Fleet.columns p -> c ∈ Fleet.written p.
Proof.
  unfold Fleet.columns. assert (H : forall l d, c ∈ foldl (fun d c => dict_set c.1 c.2 d) d l -> c ∈ d \/ c ∈ l).
  { induction l as [|[k v] l IH]; intros d; cbn [foldl]; [by left|]. intros [Hd|Hl]%IH; [|right; by right].
    clear IH. induction d as [|[k' v'] d IH]; cbn in Hd.
    - apply list_elem_of_singleton in Hd as ->. right; by left.
    - destruct (decide (k = k')) as [->|]; apply elem_of_cons in Hd as [->|Hd].
      + right; by left. + left; by right. + left; by left. + destruct (IH Hd) as [?|?]; [left; by right|by right]. }
  intros [?%not_elem_of_nil|?]%H; done.
Qed.

Lemma columns_bound p : Forall good (Fleet.written p) -> exists cols, Fleet.bind_all (Fleet.columns p) = Ok cols.
Proof.
  intros H. assert (HF : Forall good (Fleet.columns p)).
  { apply Forall_forall. intros c Hc%fields_written. by apply (proj1 (Forall_forall _ _) H). }
  clear H. induction HF as [|[k v] l (w & Hw & Hn) HF [cols IH]]; [by exists []|]. cbn [Fleet.bind_all]. unfold Fleet.bind_column.
  cbn [fst snd] in *. rewrite Hw. cbn [mbind res_bind]. rewrite Hn. cbn [mbind res_bind]. rewrite IH. cbn. eauto.
Qed.

Lemma good_bool f b : good (f, Fleet.state_value f (JBool b)).
Proof. unfold good, Fleet.state_value. cbn [fst snd]. repeat case_bool_decide; cbn [is_null]; auto using storable_int_bool, storable_bool. Qed.
Definition fine (f : string) (v : json) : Prop :=
  (exists b, v = JBool b) \/ (exists n, v = JInt n /\ small n) \/ (v = JNull /\ bool_decide (f ∈ Fleet.NOT_NULL_FIELDS) = false).
Lemma fine_good f v : fine f v -> good (f, Fleet.state_value f v).
Proof.
  intros [[b ->]|[(n & -> & Hn)|[-> Hf]]]; [apply good_bool| |].
  - unfold good, Fleet.state_value, Fleet.int_bool. cbn [fst snd]. repeat case_bool_decide; cbn [is_null]; auto with texts; apply storable_bit.
  - unfold good. cbn [fst snd]. rewrite Hf. unfold Fleet.state_value. repeat case_bool_decide; cbn [is_null]; try apply storable_null;
      by exists (JInt 0).
Qed.
Lemma state_good p l : Forall (fun f => fine f (jget f p)) l ->
  Forall good (omap (fun f => if jhas f p then Some (f, Fleet.state_value f (jget f p)) else None) l).
Proof.
  induction 1 as [|f l Hf HF IH]; [by apply Forall_nil_2|]. change (omap ?g (f :: l)) with (match g f with Some y => y :: omap g l | None => omap g l end).
  cbv beta. destruct (jhas f p); [|exact IH]. apply Forall_cons_2; [by apply fine_good|exact IH].
Qed.
Lemma identity_good p l : Forall (fun f => jget f p = JNull \/ exists s, Fleet.encodable s = true /\ jget f p = JStr s) l ->
  Forall good (omap (fun f => if truthy (jget f p) then Some (f, jget f p) else None) l).
Proof.
  induction 1 as [|f l Hf HF IH]; [by apply Forall_nil_2|]. change (omap ?g (f :: l)) with (match g f with Some y => y :: omap g l | None => omap g l end).
  cbv beta. destruct Hf as [->|(s & Hs & ->)]; [exact IH|]. destruct (truthy _); [|exact IH]. apply Forall_cons_2; [by apply storable_str|exact IH].
Qed.
Lemma good_zero f n : small n -> good (f, Fleet.or_zero (JInt n)).
Proof. intros Hn. unfold good, Fleet.or_zero. cbn [fst snd]. destruct (truthy _); auto with texts. Qed.
Lemma good_text f s : Fleet.encodable s = true -> good (f, JStr s).
Proof. intros H. by apply storable_str. Qed.

Lemma values_bound l : Forall (storable false) l -> exists vs, Fleet.bind_values l = Ok vs.
Proof.
  induction 1 as [|v l (w & Hw & _) HF [vs IH]]; [by exists []|]. cbn [Fleet.bind_values]. rewrite Hw. cbn [mbind res_bind]. rewrite IH. cbn. eauto.
Qed.

Definition status_frame (seq : Z) (name ts port operator iccid imei model hardware firmware smsc : pystr) (threshold : Z)
    (online registered data allowed blocked : bool) (radio eps cs ims attached pdp roaming : option bool)
    (rssi dbm : option Z) (bars : Z) (rsrp rsrq : option Z) (used capacity : Z) (voltage : option Z) : frame :=
  to_frame "status" seq
    ([ (str "device", JStr name); (str "ts", JStr ts); (str "port", JStr port); (str "low_voltage_mv", JInt threshold) ] ++
     [ (str "online", JBool online); (str "registered", JBool registered);
       (str "radio_enabled", jopt_bool radio); (str "operator", JStr operator);
       (str "iccid", JStr iccid); (str "imei", JStr imei); (str "model", JStr model);
       (str "hardware_model", JStr hardware); (str "firmware", JStr firmware); (str "smsc", JStr smsc);
       (str "eps_registered", jopt_bool eps); (str "cs_registered", jopt_bool cs);
       (str "ims_registered", jopt_bool ims); (str "data_enabled", JBool data);
       (str "data_attached", jopt_bool attached); (str "pdp_active", jopt_bool pdp);
       (str "roaming", jopt_bool roaming); (str "roaming_data_allowed", JBool allowed);
       (str "data_blocked_by_roaming", JBool blocked);
       (str "rssi", jopt_int rssi); (str "dbm", jopt_int dbm);
       (str "bars", JInt bars); (str "rsrp", jopt_int rsrp);
       (str "rsrq", jopt_int rsrq); (str "storage_used", JInt used);
       (str "storage_capacity", JInt capacity); (str "voltage_mv", jopt_int voltage) ]).

Definition opt_small (o : option Z) : Prop := match o with Some n => small n | None => True end.

Section Status.
Context (seq : Z) (name ts port operator iccid imei model hardware firmware smsc : pystr) (threshold : Z).
Context (online registered data allowed blocked : bool) (radio eps cs ims attached pdp roaming : option bool).
Context (rssi dbm : option Z) (bars : Z) (rsrp rsrq : option Z) (used capacity : Z) (voltage : option Z).
Hypothesis Htexts : forallb Fleet.encodable [name; ts; port; operator; iccid; imei; model; hardware; firmware; smsc] = true.
Hypothesis Hints : Forall opt_small [Some threshold; rssi; dbm; Some bars; rsrp; rsrq; Some used; Some capacity; voltage].

Abbreviation f := (status_frame seq name ts port operator iccid imei model hardware firmware smsc threshold online registered data allowed
  blocked radio eps cs ims attached pdp roaming rssi dbm bars rsrp rsrq used capacity voltage) (only parsing).

Lemma status_texts : Fleet.encodable name = true /\ Fleet.encodable port = true /\ Fleet.encodable operator = true /\ Fleet.encodable iccid = true
  /\ Fleet.encodable imei = true /\ Fleet.encodable model = true /\ Fleet.encodable hardware = true /\ Fleet.encodable firmware = true
  /\ Fleet.encodable smsc = true.
Proof. pose proof Htexts as H. cbn [forallb] in H. rewrite !andb_true_iff in H. tauto. Qed.

Lemma status_written : Forall good (Fleet.written (dict_set (str "name") (JStr name) f)).
Proof.
  destruct status_texts as (Hn & Hp & Ho & Hi & Him & Hm & Hh & Hf & Hs).
  pose proof Hints as H. rewrite !Forall_cons in H. destruct H as (Ht & Hr & Hd & Hb & Hrp & Hrq & Hu & Hc & Hv & _). cbn [opt_small] in *.
  unfold Fleet.written. rewrite !Forall_app. split_and!.
  - apply state_good. unfold Fleet.STATE_FIELDS, status_frame, to_frame.
    repeat apply Forall_cons_2; [..|by apply Forall_nil_2]; fields;
      repeat match goal with |- context [match ?o with Some _ => _ | None => _ end] => destruct o end;
      first [by left; eexists | by right; left; eexists | by right; right].
  - unfold status_frame, to_frame. fields. apply Forall_cons_2; [by apply good_zero|by apply Forall_nil_2].
  - unfold status_frame, to_frame. fields. apply Forall_cons_2; [by apply good_zero|by apply Forall_nil_2].
  - unfold status_frame, to_frame. fields. apply Forall_cons_2; [by apply good_zero|by apply Forall_nil_2].
  - apply identity_good. unfold Fleet.IDENTITY_FIELDS, status_frame, to_frame.
    repeat apply Forall_cons_2; [..|by apply Forall_nil_2]; fields; first [by left | right; eexists; split; [|reflexivity]; assumption].
Qed.

Lemma module_ends agent d : Fleet.encodable agent = true ->
  exists id fl, Fleet.upsert_device text agent (dict_set (str "name") (JStr name) f) (now clock) (fleet d) = (Ok id, fl).
Proof.
  intros Ha. destruct status_texts as (Hn & Hp & Ho & Hi & Him & Hm & Hh & Hf & Hs). unfold Fleet.upsert_device.
  assert (Hcard : exists c, Fleet.card_of text (dict_set (str "name") (JStr name) f) = Ok c).
  { unfold Fleet.card_of, Fleet.text_or_empty, status_frame, to_frame. fields. destruct (truthy (JStr iccid)); [|eauto].
    rewrite bind_text_str by done. cbn [mbind res_bind]. destruct (truthy (JStr operator)), (truthy (JStr smsc)); rewrite ?bind_text_str by done; cbn; eauto. }
  destruct Hcard as [[[i o] s] ->]. destruct (Fleet.upsert_sim i o s (now clock) (fleet d)) as [sim fl].
  assert (Hname : Fleet.bind_text text (jget_or "name" (JStr []) (dict_set (str "name") (JStr name) f)) = Ok name).
  { unfold status_frame, to_frame. fields. by apply bind_text_str. }
  rewrite Hname. cbn [mbind res_bind]. destruct (columns_bound _ status_written) as [cols ->]. cbn [mbind res_bind].
  destruct (Fleet.find_device _ _ _); eauto.
Qed.

Lemma voltage_ends agent d : Fleet.encodable agent = true -> ends (apply_supply_voltage repr clock agent f) d (fun _ _ => True).
Proof.
  intros Ha. destruct status_texts as (Hn & _). unfold apply_supply_voltage, status_frame, to_frame. fields.
  assert (E : forall s, str_or repr (JStr s) = s) by by intros []. rewrite E.
  apply ends_bind, ends_lift. { destruct voltage; cbn; eauto. } intros v Ev.
  apply ends_bind, ends_lift; [cbn; eauto|]. intros t Et. injection Et as <-. destruct v as [v|]; [|by apply ends_ret].
  destruct (threshold =? 0); [by apply ends_ret|]. cbn [is_false]. destruct online; cbn [negb]; [|by apply ends_resolve; [texts|by vm_compute|done]].
  destruct (threshold <=? v); [apply ends_resolve; [texts|texts|done]|]. apply ends_open; [|done].
  cbn [forallb]. rewrite !andb_true_iff. split_and!; try done; [texts|texts|destruct (v <? VOLTAGE_CRITICAL_MV); by vm_compute|].
  destruct (v <? VOLTAGE_CRITICAL_MV); texts.
Qed.

Lemma status_applies agent key stream d : Fleet.encodable agent = true -> ends (applies agent (str "status") key stream f) d (fun _ _ => True).
Proof.
  intros Ha. destruct status_texts as (Hn & _). unfold Handlers.apply. apply ends_bind. unfold apply_kind.
  do 3 rewrite bool_decide_eq_false_2 by by vm_compute. rewrite bool_decide_eq_true_2 by done. apply ends_bind. unfold apply_status.
  assert (Hdev : jget_or "device" (JStr []) f = JStr name) by done. rewrite Hdev. apply ends_bind.
  destruct (module_ends agent d Ha) as (id & fl & E). exists id, (set_fleet fl d). split; [unfold Handlers.upsert_module; by rewrite E|].
  apply ends_bind, ends_get, ends_bind, ends_lift.
  { unfold Fleet.record_status. pose proof Hints as H. rewrite !Forall_cons in H. destruct H as (Ht & Hr & Hd & Hb & Hrp & Hrq & Hu & Hc & Hv & _). cbn [opt_small] in *.
    assert (Hts : jget "ts" f = JStr ts) by done. rewrite Hts. unfold Fleet.to_utc_iso.
    assert (Hvs : exists vs, Fleet.bind_values (Fleet.int_bool (jget "online" f) :: Fleet.int_bool (jget "registered" f)
         :: ((fun k => jget k f) <$> ["rssi"; "dbm"; "bars"; "rsrp"; "rsrq"; "storage_used"; "storage_capacity"; "voltage_mv"]%string)) = Ok vs).
    { apply values_bound. repeat apply Forall_cons_2; [..|by apply Forall_nil_2]; fields;
        repeat match goal with |- context [match ?o with Some _ => _ | None => _ end] => destruct o end; auto using storable_null with texts. }
    destruct Hvs as [vs ->]. destruct (negb _); cbn; eauto. }
  intros fl' _. apply ends_bind, ends_modify, ends_bind. cbv zeta. unfold sent_fingerprint, module_source. rewrite Hdev. cbn [py_str].
  eapply ends_weaken; [|intros _ d1 _; apply ends_bind; eapply ends_weaken; [by apply voltage_ends|intros _ d2 _; apply ends_ret, ends_ret; by eapply ends_quiet']].
  instantiate (1 := fun _ _ => True). cbn beta.
  assert (Hon : is_false (jget "online" f) = negb online) by done. assert (Hreg : jget "registered" f = JBool registered) by done.
  assert (Hhas : jhas "registered" f = true) by done. rewrite Hon, Hreg, Hhas. cbn [orb truthy].
  destruct (negb online).
  - apply ends_bind, ends_resolve; [texts|by vm_compute|]. intros d1. apply ends_resolve; [texts|by vm_compute|done].
  - destruct (is_false (jget "radio_enabled" f)); [apply ends_resolve; [texts|by vm_compute|done]|].
    destruct registered; cbn [negb].
    + apply ends_resolve; [texts|by vm_compute|done].
    + apply ends_open; [|done]. cbn [forallb]. rewrite !andb_true_iff. split_and!; try done; texts.
Qed.
End Status.

(** *** Sent messages *)

(** Rows of a message have the segment numbers before the next one. *)
Definition numbered (id index : Z) (rows : list Delivery.segment_row) : Prop :=
  forall r, r ∈ rows -> Delivery.sg_message r = Some id -> exists j, Delivery.sg_index r = Some j /\ j < index.

Lemma attach_one_numbered id agent device recipient submitted t index reference rows : numbered id index rows ->
  exists rows', Delivery.attach_one id agent device recipient submitted t index reference rows = Some rows' /\ numbered id (index + 1) rows'.
Proof.
  intros H. unfold Delivery.attach_one. destruct (Delivery.taken id index rows) eqn:E.
  { apply existsb_exists in E as (r & Hr & E). apply list_elem_of_In in Hr. rewrite andb_true_iff, !bool_decide_eq_true in E.
    destruct (H r Hr (proj1 E)) as (j & Hj & Hlt). destruct E as [_ E]. rewrite Hj in E. injection E as ->. lia. }
  eexists. split; [reflexivity|]. intros r Hr Hm. destruct (Delivery.newest _ rows) as [[i r0]|].
  - unfold Delivery.update_at in Hr. apply list_elem_of_lookup in Hr as [k Hk]. destruct (decide (k = i)) as [->|Hne].
    + rewrite list_lookup_alter_eq in Hk. destruct (rows !! i) as [r1|]; [|done]. injection Hk as <-. exists index. cbn. split; [done|lia].
    + rewrite list_lookup_alter_ne in Hk by done. destruct (H r (list_elem_of_lookup_2 _ _ _ Hk) Hm) as (j & Hj & Hlt). exists j. split; [done|lia].
  - apply elem_of_app in Hr as [Hr| ->%list_elem_of_singleton].
    + destruct (H r Hr Hm) as (j & Hj & Hlt). exists j. split; [done|lia].
    + exists index. cbn. split; [done|lia].
Qed.

Lemma attach_loop_some id agent device recipient submitted t refs : forall index rows, numbered id index rows ->
  is_Some (Delivery.attach_loop id agent device recipient submitted t index refs rows).
Proof.
  induction refs as [|r refs IH]; intros index rows H; [by eexists|]. cbn [Delivery.attach_loop].
  destruct (attach_one_numbered id agent device recipient submitted t index r rows H) as (rows' & -> & H'). cbn [mbind option_bind]. by apply IH.
Qed.

(** No report has been filed under the number the next message gets. *)
Definition next_message_free (d : Handlers.database) : Prop :=
  forall r, r ∈ Delivery.segments (delivery d) -> Delivery.sg_message r <> Some (messages_seq d + 1).

Definition sent_frame (seq : Z) (device card peer body ts status : pystr) (refs : list Z) (cmd_id : json) (error : option pystr) : frame :=
  to_frame "sms_out" seq (sms_out_payload device card peer body ts status refs cmd_id (match error with Some s => JStr s | None => JNull end)).

Lemma references_ints refs : references (JInt <$> refs) = Ok refs.
Proof. induction refs as [|r refs IH]; [done|]. cbn. by rewrite IH. Qed.

Lemma ends_card' s d Q : Fleet.encodable s = true ->
  (forall r d', messages_seq d' = messages_seq d -> delivery d' = delivery d -> Q r d') -> ends (upsert_card text clock (JStr s)) d Q.
Proof.
  intros Hs HQ. unfold upsert_card. cbn [truthy]. destruct (bool_decide (s = [])); cbn [negb]; [apply ends_ret; by apply HQ|].
  apply ends_bind, ends_lift; [rewrite bind_text_str by done; eauto|]. intros i _. apply ends_bind, ends_get, ends_bind, ends_modify, ends_ret. by apply HQ.
Qed.

Lemma ends_message' card ts cols d : Fleet.encodable card = true -> Forall (fun c => storable c.1.2 c.2) cols ->
  ends (insert_message text fromisoformat clock (JStr card) (JStr ts) cols) d (fun id d' => id = messages_seq d + 1 /\ delivery d' = delivery d).
Proof.
  intros Hc Hr. unfold insert_message. apply ends_bind, ends_card'; [done|]. intros sim d1 Hm Hdel.
  apply ends_bind, ends_lift. { unfold Fleet.to_utc_iso. destruct (negb _); eauto. } intros at_ _.
  apply ends_bind, ends_lift; [by apply row_bound|]. intros row _.
  apply ends_bind, ends_get, ends_bind, ends_modify, ends_ret. by rewrite Hm.
Qed.

Lemma sent_frame_applies agent key stream seq device card peer body ts status refs cmd_id error d :
  forallb Fleet.encodable [agent; device; card; peer; body; ts; status; default [] error] = true -> small seq ->
  Forall small refs -> small (Z.of_nat (length refs)) -> next_message_free d ->
  ends (applies agent (str "sms_out") key stream (sent_frame seq device card peer body ts status refs cmd_id error)) d (fun _ _ => True).
Proof.
  intros Ht Hseq Hrefs Hlen Hfree. cbn [forallb] in Ht. rewrite !andb_true_iff in Ht. destruct Ht as (Ha & Hd & Hc & Hp & Hb & Hts & Hst & Her & _).
  unfold Handlers.apply. apply ends_bind. unfold apply_kind. rewrite bool_decide_eq_false_2 by by vm_compute. rewrite bool_decide_eq_true_2 by done.
  apply ends_bind. unfold apply_sms_out.
  assert (Er : jget "refs" (sent_frame seq device card peer body ts status refs cmd_id error) = JArr (JInt <$> refs)) by done. rewrite Er.
  apply ends_bind, ends_lift. { unfold iterate. destruct (negb _); eauto. } intros raws Eraws.
  assert (raws = JInt <$> refs) as ->. { unfold iterate in Eraws. destruct refs; cbn in Eraws; by injection Eraws. }
  apply ends_bind, ends_lift; [rewrite references_ints; eauto|]. intros refs' E. rewrite references_ints in E. injection E as <-. clear Er Eraws.
  unfold sent_frame, sms_out_payload, to_frame. fields. rewrite !or_else_str. cbn [py_str].
  set (status' := if truthy (JStr status) then status else str "sent").
  assert (Hst' : Fleet.encodable status' = true) by (unfold status'; destruct (truthy _); [done|by vm_compute]). clearbody status'.
  set (stored := if _ && _ then str "pending" else status').
  assert (Hsto : Fleet.encodable stored = true) by (unfold stored; destruct (_ && _); [by vm_compute|done]). clearbody stored.
  apply ends_bind. eapply ends_weaken; [apply ends_message'; [done|]|].
  { repeat apply Forall_cons_2; [..|by apply Forall_nil_2]; cbn [fst snd]; auto with texts.
    - apply storable_int. by destruct refs.
    - destruct error as [e|]; [by apply storable_str|apply storable_null]. }
  intros id d1 [-> Hdel]. cbn beta.
  assert (Herr : Fleet.encodable (if truthy (match error with Some s => JStr s | None => JNull end)
            then py_str repr (match error with Some s => JStr s | None => JNull end) else [0x8FD0; 0x8425; 0x5546; 0x6216; 0x6A21; 0x5757; 0x672A; 0x8FD4; 0x56DE; 0x6210; 0x529F; 0x72B6; 0x6001]) = true).
  { destruct error as [[|c e]|]; cbn [truthy]; [by vm_compute|by rewrite bool_decide_eq_false_2|by vm_compute]. }
  apply ends_bind. apply (ends_weaken _ _ (fun _ _ => True)).
  - destruct refs as [|r refs]; [by apply ends_ret|].
    apply ends_bind, ends_check. { apply forallb_forall. intros x Hx%list_elem_of_In. exact (proj1 (Forall_forall _ _) Hrefs x Hx). }
    apply ends_bind, ends_check; [by rewrite !str_or_encodable|]. apply ends_bind, ends_get. unfold Delivery.attach_sms_segments. cbn [Delivery.segments Delivery.messages].
    destruct (attach_loop_some (messages_seq d + 1) agent (str_or repr (JStr device)) (str_or repr (JStr peer)) (instant repr fromisoformat clock (JStr ts)) clock (r :: refs) 1
      (Delivery.segments (delivery d1))) as [rows ->].
    { rewrite Hdel. intros x Hx E. by destruct (Hfree x Hx). }
    cbn [mbind option_bind]. by apply ends_modify.
  - intros _ d2 _. apply (ends_weaken _ _ (fun _ _ => True)); [|intros _ d3 _; apply ends_ret, ends_quiet].
    unfold sent_fingerprint, module_source. fields. cbn [py_str].
    destruct (bool_decide _); [apply ends_open; [|done]|destruct (_ || _); [apply ends_resolve; [texts|by vm_compute|done]|by apply ends_ret]].
    cbn [forallb]. rewrite Herr. clear Herr. rewrite !andb_true_iff. split_and!; try done; texts.
Qed.

(** *** Every event is accepted *)

(** What the worker queues, its texts being storable and its numbers in range:
    a lone surrogate or a number past 64 bits is refused by SQLite. *)
Inductive queued : string -> frame -> Prop :=
| q_sms t device card sms : forallb Fleet.encodable [t; device; card; d_address sms; d_text sms; d_raw sms; d_recovered_text sms; d_code sms] = true ->
    small (d_dcs sms) -> small (match d_concat sms with Some c => c_total c | None => 1 end) ->
    queued "sms_in" (sms_payload t device card sms)
| q_delivery t device card r : forallb Fleet.encodable [t; device; card; sr_recipient r; sr_raw r] = true ->
    0 <= sr_message_reference r <= 255 -> 0 <= sr_status r <= 255 -> queued "sms_delivery" (delivery_payload t device card r)
| q_call device card direction peer t outcome reached ring detail :
    forallb Fleet.encodable [device; card; direction; peer; t; outcome; detail] = true -> ring <> S754_nan ->
    queued "call_event" (call_payload device card direction peer t outcome reached ring detail)
| q_log t device level message fields : forallb Fleet.encodable [device; level; message; t] = true -> log_fields fields ->
    queued "log" (log_payload t device level message fields)
| q_sent device card peer body t status refs cmd_id error :
    forallb Fleet.encodable [device; card; peer; body; t; status; default [] error] = true ->
    Forall small refs -> small (Z.of_nat (length refs)) ->
    queued "sms_out" (sms_out_payload device card peer body t status refs cmd_id (match error with Some s => JStr s | None => JNull end))
| q_status t device port threshold s :
    forallb Fleet.encodable [device; t; port; operator s; iccid s; imei s; model s; hardware_model s; firmware s; smsc s] = true ->
    Forall opt_small [Some threshold; rssi (signal s); dbm (signal s); Some (bars (signal s)); rsrp (signal s); rsrq (signal s);
                      Some (storage_used s); Some (storage_capacity s); voltage_mv s] ->
    queued "status" (status_payload device t port threshold s).

Abbreviation server := (Ingest.database Handlers.database) (only parsing).

(** Fresh rows get a number SQLite can hold and nothing refers to yet. *)
Record roomy (d : Handlers.database) : Prop := {
  r_messages : 0 <= messages_seq d < 2 ^ 62;
  r_calls : 0 <= calls_seq d < 2 ^ 62;
  r_free : next_message_free d }.

Lemma alphabet_encodable a : Fleet.encodable (alphabet_name a) = true.
Proof. by destruct a; vm_compute. Qed.

Lemma queued_applies agent key stream kind seq payload d : queued kind payload -> Fleet.encodable agent = true -> small seq -> small (now clock) -> roomy d ->
  ends (applies agent (str kind) key stream (to_frame kind seq payload)) d (fun _ _ => True).
Proof.
  intros Hq Ha Hseq Hnow [Hm Hc Hf].
  destruct Hq as [t device card sms H Hdcs Hseg|t device card r H Hmr Hcode|device card dir peer t outcome reached ring detail H Hring|t device level message fields H Hl|
    device card peer body t status refs cmd_id error H Hrefs Hlen|t device port threshold s H Hi]; cbn [forallb] in H; rewrite !andb_true_iff in H.
  - destruct H as (H1 & H2 & H3 & H4 & H5 & H6 & H7 & H8 & _).
    assert (Hts : Fleet.encodable (match d_timestamp sms with Some t => isoformat t | None => t end) = true) by (destruct (d_timestamp sms); [apply encodable_isoformat|done]).
    assert (Hsrc : Fleet.encodable (if d_timestamp sms then str "scts" else str "local") = true) by (destruct (d_timestamp sms); by vm_compute).
    apply (sms_frame_applies agent key stream seq device card (d_address sms) (d_text sms) _ _ (d_raw sms)); try done.
    cbn [forallb]. by rewrite Ha, H2, H3, H4, H5, Hts, Hsrc, H6, alphabet_encodable, H7, H8.
  - destruct H as (H1 & H2 & H3 & H4 & H5 & _).
    assert (E : to_frame "sms_delivery" seq (delivery_payload t device card r) =
      report_frame seq device card (sr_recipient r) (state_name (sr_state r)) t (sr_raw r) (sr_message_reference r) (sr_status r)
        (isoformat <$> sr_service_center_timestamp r) (isoformat <$> sr_discharge_time r)).
    { unfold report_frame, delivery_payload. by destruct (sr_service_center_timestamp r), (sr_discharge_time r). }
    rewrite E. apply report_frame_applies; try done.
    cbn [forallb]. rewrite Ha, H2, H3, H4, H1, H5. by destruct (sr_state r); vm_compute.
  - destruct H as (H1 & H2 & H3 & H4 & H5 & H6 & H7 & _).
    apply call_frame_applies; try done. cbn [forallb]. by rewrite Ha, H1, H2, H3, H4, H5, H6, H7.
  - destruct H as (H1 & H2 & H3 & H4 & _). apply log_frame_applies; try done. cbn [forallb]. by rewrite Ha, H1, H2, H3, H4.
  - destruct H as (H1 & H2 & H3 & H4 & H5 & H6 & H7 & _). apply sent_frame_applies; try done. cbn [forallb]. by rewrite Ha, H1, H2, H3, H4, H5, H6, H7.
  - destruct H as (H1 & H2 & H3 & H4 & H5 & H6 & H7 & H8 & H9 & H10 & _).
    apply (status_applies seq device t port (operator s) (iccid s) (imei s) (model s) (hardware_model s) (firmware s) (smsc s) threshold); try done.
    cbn [forallb]. by rewrite H1, H2, H3, H4, H5, H6, H7, H8, H9, H10.
Qed.
End Accepted.

(** ** The worker queues nothing else *)

Lemma encodable_str s : Fleet.encodable (str s) = true.
Proof.
  apply encodable_forall, Forall_forall. intros c (a & -> & _)%list_elem_of_fmap. unfold Fleet.is_surrogate.
  pose proof (Ascii.nat_ascii_bounded a). lia.
Qed.
#[export] Hint Resolve encodable_str : texts.
#[export] Hint Rewrite encodable_str : texts.

Definition ok_state (s : DeviceState) : Prop :=
  forallb Fleet.encodable [operator s; iccid s; imei s; model s; hardware_model s; firmware s; smsc s] = true
  /\ Forall opt_small [rssi (signal s); dbm (signal s); Some (bars (signal s)); rsrp (signal s); rsrq (signal s);
                       Some (storage_used s); Some (storage_capacity s); voltage_mv s].

Record ok (w : worker) : Prop := {
  ok_name : Fleet.encodable (name w) = true;
  ok_st : ok_state (state w);
  ok_out : forall kind payload, (kind, payload) ∈ out w -> exists k, kind = str k /\ queued k payload }.

Definition safe {A} (m : act A) : Prop := forall w, ok w -> ok (m w).2.

Lemma safe_bind {A B} (m : act A) (k : A -> act B) : safe m -> (forall a, safe (k a)) -> safe (act_bind m k).
Proof. intros Hm Hk w Hw. unfold act_bind. specialize (Hm w Hw). destruct (m w) as [[a|e] w']; [by apply Hk|done]. Qed.
Lemma safe_get {B} (k : worker -> act B) : (forall w0, ok w0 -> safe (k w0)) -> safe (act_bind (act_get id) k).
Proof. intros Hk w Hw. by apply (Hk w). Qed.
Lemma safe_ret {A} (a : A) : safe (act_ret a).
Proof. by intros w. Qed.
Lemma safe_raise {A} e : safe (act_raise (A := A) e).
Proof. by intros w. Qed.
Lemma safe_emit kind payload : queued kind payload -> safe (emit kind payload).
Proof.
  intros Hq w [H1 H2 H3]. split; [done..|]. cbn. intros k p [H|[= -> ->]%list_elem_of_singleton]%elem_of_app; [by apply H3|by exists kind].
Qed.
Lemma record_result utcnow direction peer body ts status iccid segments w :
  record_message utcnow direction peer body ts status iccid segments w =
  if forallb Fleet.encodable [name w; direction; peer; body; ts; status; default [] iccid]
  then (Ok tt, mkWorker (name w) (state w) (last_error w) (modem w)
                 (history w ++ [mkMessage (name w) iccid direction peer body ts status segments utcnow]) (out w))
  else (Err UnicodeEncodeError, w).
Proof. unfold record_message. cbn [act_bind act_get id]. by destruct (forallb _ _). Qed.
Lemma safe_recorded {B} utcnow direction peer body ts status iccid segments (k : unit -> act B) :
  (forall a, forallb Fleet.encodable [direction; peer; body; ts; status] = true -> safe (k a)) ->
  safe (act_bind (record_message utcnow direction peer body ts status iccid segments) k).
Proof.
  intros Hk w Hw. unfold act_bind at 1. rewrite record_result.
  destruct (forallb _ (name w :: _)) eqn:E; [|exact Hw].
  apply Hk; [|destruct Hw as [H1 H2 H3]; by split]. cbn [forallb] in E |- *. rewrite !andb_true_iff in E. rewrite !andb_true_iff. tauto.
Qed.
Lemma safe_modem : safe require_modem.
Proof. apply safe_get. intros w0 _. destruct (_ || _); [apply safe_raise|apply safe_ret]. Qed.
Lemma safe_radio : safe require_radio.
Proof. apply safe_bind; [apply safe_modem|intros _]. apply safe_get. intros w0 _. case_bool_decide; [apply safe_raise|apply safe_ret]. Qed.
Lemma safe_client : safe require_client.
Proof. apply safe_get. intros w0 _. destruct (_ || _); [apply safe_raise|apply safe_ret]. Qed.
Lemma safe_data : safe require_data.
Proof. apply safe_get. intros w0 _. destruct (negb _); [apply safe_raise|apply safe_ret]. Qed.
#[export] Hint Resolve safe_ret safe_raise safe_modem safe_radio safe_client safe_data : safe.

Lemma safe_log now level message : Fleet.encodable now = true -> Fleet.encodable message = true -> safe (log_event now level message []).
Proof.
  intros Hn Hm. apply safe_get. intros w0 [H1 _ _]. apply safe_emit, q_log; [|by left]. cbn [forallb]. by rewrite H1, encodable_str, Hm, Hn.
Qed.

Lemma state_iccid w : ok w -> Fleet.encodable (iccid (state w)) = true /\ Fleet.encodable (firmware (state w)) = true.
Proof. intros [_ [H _] _]. cbn [forallb] in H. rewrite !andb_true_iff in H. tauto. Qed.

Lemma context_encodable w : ok w -> Fleet.encodable (sms_diagnostic_context (state w)) = true.
Proof.
  intros Hw. destruct (state_iccid w Hw) as [_ Hf]. unfold sms_diagnostic_context. cbv zeta. rewrite !encodable_app, !encodable_str.
  assert (Hfw : Fleet.encodable (or_text (firmware (state w)) (str "unknown firmware")) = true) by (unfold or_text; destruct (firmware (state w)); [by vm_compute|done]).
  rewrite Hfw. destruct (flag (eps_registered _)), (flag (cs_registered _)), (registered _), (ims_registered _) as [[]|]; by vm_compute.
Qed.

(** What a program of the driver may hand to the worker: texts that UTF-8 can
    encode (every text of the module is decoded with [errors="replace"]) and
    numbers of at most 64 bits. *)
Class Sound (A : Type) := sound : A -> Prop.

#[export] Instance sound_sms : Sound DecodedSms := fun s =>
  forallb Fleet.encodable [d_address s; d_text s; d_raw s; d_recovered_text s; d_code s] = true
  /\ small (d_dcs s) /\ small (match d_concat s with Some c => c_total c | None => 1 end).
#[export] Instance sound_report : Sound StatusReport := fun r =>
  forallb Fleet.encodable [sr_recipient r; sr_raw r] = true /\ 0 <= sr_message_reference r <= 255 /\ 0 <= sr_status r <= 255.
#[export] Instance sound_call : Sound Driver.IncomingCall := fun c =>
  forallb Fleet.encodable [Driver.call_number c; Driver.call_ts c] = true.
#[export] Instance sound_result : Sound Calls.CallResult := fun r => Fleet.encodable (Calls.detail r) = true.
#[export] Instance sound_references : Sound (list Z) := fun refs => Forall small refs /\ small (Z.of_nat (length refs)).
#[export] Instance sound_answer {A} `{Sound A} : Sound (res Driver.exn A) := fun r =>
  match r with Ok a => sound a | Err (Driver.AtError e) => Fleet.encodable (error_message e) = true | Err _ => True end.

Section Acts.
Context (now utcnow : pystr) (command : option pystr) (seconds : Z -> spec_float) (one_decimal : Z -> pystr).
Hypothesis now_ok : Fleet.encodable now = true.
Hypothesis command_ok : Fleet.encodable (default [] command) = true.
Hypothesis seconds_ok : forall n, seconds n <> S754_nan.
Hypothesis decimal_ok : forall n, Fleet.encodable (one_decimal n) = true.

Lemma error_ok e : Fleet.encodable (error_message e) = true -> Fleet.encodable (error_text command e) = true.
Proof.
  intros He. pose proof command_ok as H.  unfold error_text. destruct command as [[|x c]|]; [done| |done].
  cbn [default from_option id] in H. by rewrite !encodable_app, H, He.
Qed.

Lemma safe_on_sms sms : sound sms -> safe (on_sms now utcnow sms).
Proof.
  intros (H & Hd & Hs). apply safe_get. intros w0 Hw. apply safe_recorded. intros _ _. apply safe_emit, q_sms; [|done..].
  pose proof now_ok as Hn.  cbn [forallb] in *. by rewrite Hn, (ok_name _ Hw), (proj1 (state_iccid _ Hw)).
Qed.

Lemma safe_on_delivery r : sound r -> safe (on_delivery now r).
Proof.
  intros (H & H1 & H2). apply safe_get. intros w0 Hw. apply safe_emit, q_delivery; [|done..].
  pose proof now_ok as Hn.  cbn [forallb] in *. by rewrite Hn, (ok_name _ Hw), (proj1 (state_iccid _ Hw)).
Qed.

Lemma safe_on_incoming_call call : sound call -> safe (on_incoming_call now call).
Proof.
  intros H. unfold sound, sound_call in H. cbn [forallb] in H. rewrite !andb_true_iff in H. destruct H as (H2 & H3 & _).
  apply safe_get. intros w0 Hw. apply safe_bind; [|intros _].
  - apply safe_emit, q_call; [|done]. cbn [forallb]. rewrite (ok_name _ Hw), (proj1 (state_iccid _ Hw)), H2.
    unfold or_text. destruct (Driver.call_ts call); rewrite ?now_ok, ?H3; by vm_compute.
  - apply safe_log; [done|]. rewrite !encodable_app. unfold or_text. destruct (Driver.call_number call); rewrite ?H2; by vm_compute.
Qed.

Lemma safe_sms_sent number body cmd_id answer : sound answer -> safe (sms_sent now utcnow command number body cmd_id answer).
Proof.
  intros Ha. destruct answer as [refs|[e| | | | |]]; [| |apply safe_raise..].
  - destruct Ha as [Hs Hl]. apply safe_get. intros w0 Hw. apply safe_recorded. intros _ H. cbn [forallb] in H. rewrite !andb_true_iff in H.
    destruct H as (_ & H2 & H3 & H1 & _). apply safe_bind; [|intros _; apply safe_ret].
    apply safe_emit, (q_sent _ _ _ _ _ _ _ _ None); [|done..]. cbn [forallb]. rewrite (ok_name _ Hw), (proj1 (state_iccid _ Hw)), H1, H2, H3. by vm_compute.
  - apply error_ok in Ha. apply safe_get. intros w0 Hw. apply safe_recorded. intros _ H. cbn [forallb] in H. rewrite !andb_true_iff in H.
    destruct H as (_ & H2 & H3 & H1 & _). apply safe_bind; [|intros _; apply safe_raise].
    apply safe_emit, (q_sent _ _ _ _ _ _ _ _ (Some _)); [|constructor|done]. cbn [forallb default from_option id].
    rewrite (ok_name _ Hw), (proj1 (state_iccid _ Hw)), H1, H2, H3, !encodable_app, Ha, encodable_str, (context_encodable _ Hw). by vm_compute.
Qed.

Lemma safe_call_placed number answer : Fleet.encodable number = true -> sound answer -> safe (call_placed now command seconds one_decimal number answer).
Proof.
  intros H2 Ha. pose proof now_ok as H1.
  destruct answer as [r|[e| | | | |]]; [| |apply safe_raise..].
  - assert (Hde : Fleet.encodable (describe_call one_decimal r) = true).
    { unfold describe_call. cbv zeta. rewrite !encodable_app, !encodable_str, decimal_ok. destruct (Calls.detail r) eqn:E; [done|].
      rewrite <- E, encodable_app, encodable_str. unfold sound, sound_answer, sound_result in Ha. by rewrite Ha. }
    apply safe_get. intros w0 Hw. apply safe_bind; [|intros _; apply safe_bind; [|intros _; apply safe_ret]].
    + apply safe_emit, q_call; [|apply seconds_ok]. cbn [forallb]. by rewrite (ok_name _ Hw), (proj1 (state_iccid _ Hw)), !encodable_str, H1, H2, Ha.
    + destruct (Calls.reached_network r); apply safe_log; try done; rewrite !encodable_app, Hde, H2, ?encodable_str, ?(context_encodable _ Hw); by vm_compute.
  - apply error_ok in Ha. apply safe_get. intros w0 Hw. apply safe_bind; [|intros _; apply safe_raise]. apply safe_log; [done|].
    rewrite !encodable_app, Ha, (context_encodable _ Hw), H2, encodable_str. by vm_compute.
Qed.
End Acts.
End Events.
