(* ===== verification/Heard.v ===== *)
(** * What the driver hands on is what it heard (agent/src/air780e_agent/modem.py, pdu/)

    The results of the driver's programs (Driver.v) and what they hand upward
    (messages, delivery reports, calls) are made of the lines of the module.
    [heard] is what is assumed of those lines: they are decoded text, so they hold
    no lone surrogate, and the answers that are read as numbers hold no number of
    more than eighteen digits.  [honest] is the rule that carries this through a
    program: whatever the other tasks do to the shared state meanwhile, as long as
    they keep it [sane], the result and what is handed on are [sound]: texts that
    UTF-8 can encode and numbers of 64 bits, which is what the events of Events.v
    need.  Every program the worker calls is shown honest. *)

From S2P Require Import Prelude PyText PyDict Json AtErrors AtClient AtText Gsm7 Salvage Codec Encode Concat Driver Worker Modem Inbox Calls Fleet Events.

Module Heard.
Import ATClient Driver Events.

(** ** Texts *)

(** A text without surrogates: what [Fleet.encodable] decides. *)
Definition plain : pystr -> Prop := Forall (fun c => Fleet.is_surrogate c = false).

Lemma plain_encodable s : plain s <-> Fleet.encodable s = true.
Proof.
  split; [apply encodable_forall|]. unfold Fleet.encodable. rewrite negb_true_iff. intros H. apply List.Forall_forall. intros c Hc.
  apply not_true_iff_false. intros E. apply not_true_iff_false in H. apply H, existsb_exists. by exists c.
Qed.

Lemma plain_sub s l : (forall c, c ∈ s -> c ∈ l) -> plain l -> plain s.
Proof. intros Hs Hl. unfold plain in *. rewrite Forall_forall in Hl |- *. auto. Qed.

Lemma plain_app s t : plain (s ++ t) <-> plain s /\ plain t.
Proof. apply Forall_app. Qed.

Lemma plain_str s : plain (str s).
Proof. apply plain_encodable, encodable_str. Qed.

Lemma plain_low s : Forall (fun c => c < 0xD800) s -> plain s.
Proof. intros H. eapply Forall_impl; [exact H|]. intros c Hc. unfold Fleet.is_surrogate. cbv beta in Hc. lia. Qed.

Lemma decimal_char c : is_decimal c = true -> Fleet.is_surrogate c = false.
Proof.
  intros H. apply bool_decide_eq_true in H as [d H]. unfold decimal_value in H.
  destruct (List.find _ ND_ZEROS) as [z|] eqn:E; [|done]. apply List.find_some in E as [Hz Hc]. clear H d.
  assert (Hb : Forall (fun z => z + 10 <= 0xD800 \/ 0xDFFF < z) ND_ZEROS) by decide_closed.
  rewrite List.Forall_forall in Hb. specialize (Hb z Hz). cbv beta in Hb. unfold Fleet.is_surrogate. lia.
Qed.

(** A piece of a text. *)
Definition piece (s l : pystr) : Prop := exists a b, l = a ++ s ++ b.

Lemma piece_refl l : piece l l.
Proof. exists [], []. by rewrite app_nil_r. Qed.
Lemma piece_trans s t l : piece s t -> piece t l -> piece s l.
Proof. intros (a & b & ->) (a' & b' & ->). exists (a' ++ a), (b ++ b'). by rewrite <- !app_assoc. Qed.
Lemma piece_plain s l : piece s l -> plain l -> plain s.
Proof. intros (a & b & ->). rewrite !plain_app. tauto. Qed.
Lemma piece_strip s : piece (strip s) s.
Proof. destruct (strip_infix s) as (a & b & E). by exists a, b. Qed.
Lemma piece_drop n s : piece (drop n s) s.
Proof. exists (take n s), []. by rewrite app_nil_r, take_drop. Qed.
Lemma piece_lstrip p s : piece (lstrip_by p s) s.
Proof. destruct (lstrip_suffix p s) as [a E]. exists a, []. by rewrite app_nil_r. Qed.

Lemma split_pieces sep s w : w ∈ split_on sep s -> piece w s.
Proof.
  revert w. assert (H : forall s, (forall w, w ∈ split_on sep s -> piece w s) /\ (exists rest, s = default [] (head_of (split_on sep s)) ++ rest)).
  { clear s. induction s as [|c s [IH1 (rest & IH2)]]; cbn [split_on].
    - split; [|by exists []]. intros w ->%list_elem_of_singleton. by exists [], [].
    - destruct (c =? sep).
      + split; [|by exists (c :: s)]. intros w [->|Hw]%elem_of_cons; [by exists [], (c :: s)|].
        destruct (IH1 w Hw) as (a & b & E). exists (c :: a), b. by rewrite E.
      + destruct (split_on sep s) as [|w0 ws].
        * split; [|by exists s]. intros w ->%list_elem_of_singleton. by exists [], s.
        * cbn in IH2. split; [|exists rest; by rewrite IH2 at 1]. intros w [->|Hw]%elem_of_cons; [exists [], rest; by rewrite IH2 at 1|].
          destruct (IH1 w) as (a & b & E); [by right|]. exists (c :: a), b. by rewrite E. }
  apply H.
Qed.

Lemma partition_piece sep s : piece (partition_on sep s).2 s.
Proof.
  induction s as [|c s IH]; [by exists [], []|]. cbn [partition_on]. destruct (c =? sep); [by exists [c], []; rewrite app_nil_r|].
  destruct (partition_on sep s) as [x y]. destruct IH as (a & b & E). exists (c :: a), b. cbn in *. by rewrite E.
Qed.

(** ** Numbers *)

(** No run of more than [limit] digits; [k] digits stand before. *)
Definition MODEST : nat := 18.
Fixpoint modest_from (k : nat) (s : pystr) : bool :=
  match s with
  | [] => true
  | c :: s => if is_decimal c then (k <? MODEST)%nat && modest_from (S k) s else modest_from 0 s
  end.
Definition modest (s : pystr) : bool := modest_from 0 s.

Lemma modest_le s : forall k k', (k <= k')%nat -> modest_from k' s = true -> modest_from k s = true.
Proof.
  induction s as [|c s IH]; intros k k' Hk; [done|]. cbn [modest_from]. destruct (is_decimal c); [|done]. rewrite !andb_true_iff. intros [H1 H2].
  split; [|by apply (IH _ (S k')); [lia|]]. apply Nat.ltb_lt in H1. apply Nat.ltb_lt. lia.
Qed.

Lemma modest_app a b k : modest_from k (a ++ b) = true -> modest_from k a = true /\ modest b = true.
Proof.
  revert k. induction a as [|c a IH]; intros k; [intros H; split; [done|]; by apply (modest_le b 0 k); [lia|]|].
  cbn [app modest_from]. destruct (is_decimal c); [|apply IH]. rewrite !andb_true_iff. intros [H1 [H2 H3]%IH]. by split.
Qed.

Lemma modest_piece s l : piece s l -> modest l = true -> modest s = true.
Proof. intros (a & b & ->) H. apply (modest_app a _ 0) in H as [_ H]. by apply (modest_app s b 0) in H as [H _]. Qed.

Lemma modest_digits s k : forallb is_decimal s = true -> modest_from k s = true -> s <> [] -> (k + length s <= MODEST)%nat.
Proof.
  revert k. induction s as [|c s IH]; [done|]. intros k [Hc Hs]%andb_true_iff Hm _. cbn [modest_from] in Hm. rewrite Hc in Hm.
  apply andb_true_iff in Hm as [H1%Nat.ltb_lt H2]. destruct s as [|c' s]; [cbn; lia|]. specialize (IH (S k) Hs H2 ltac:(done)). cbn [length] in *. lia.
Qed.

Lemma int_digits_bound s : forall acc fresh_ n, 0 <= acc -> int_digits acc fresh_ s = Some n -> 0 <= n < (acc + 1) * 10 ^ Z.of_nat (length s).
Proof.
  induction s as [|c s IH]; intros acc fr n Ha.
  - cbn. destruct fr; [done|]. intros [= <-]. lia.
  - cbn [int_digits length]. rewrite Nat2Z.inj_succ, Z.pow_succ_r by lia. pose proof (Z.pow_pos_nonneg 10 (Z.of_nat (length s)) ltac:(lia) ltac:(lia)).
    set (w := 10 ^ _) in *. clearbody w.
    destruct (_ && _); [intros H1; apply IH in H1; nia|]. destruct (decimal_value c) as [d|] eqn:Ed; [|done]. apply decimal_value_range in Ed.
    intros H1. apply IH in H1; nia.
Qed.

(** A number of at most eighteen digits. *)
Definition short (n : Z) : Prop := Z.abs n < 10 ^ 18.

Lemma short_small n : short n -> small n.
Proof. unfold short, small, Fleet.fits_int64. change (10 ^ 18) with 1000000000000000000. change (2 ^ 63) with 9223372036854775808. lia. Qed.

Lemma digits_short s n : (length s <= MODEST)%nat -> int_digits 0 true s = Some n -> short n.
Proof.
  intros Hl H%int_digits_bound; [|done]. pose proof (Z.pow_le_mono_r 10 (Z.of_nat (length s)) 18 ltac:(lia) ltac:(unfold MODEST in Hl; lia)).
  unfold short. lia.
Qed.

(** ** Frames *)

(** Every character of the alphabet's tables, and the nought for what they do
    not hold. *)
Lemma basic_plain v : Fleet.is_surrogate (basic_at v) = false.
Proof.
  unfold basic_at, at_. destruct (nth_in_or_default (Z.to_nat v) BASIC_TABLE 0) as [H| ->]; [|done].
  assert (Hb : Forall (fun c => Fleet.is_surrogate c = false) BASIC_TABLE) by decide_closed. rewrite List.Forall_forall in Hb. by apply Hb.
Qed.

Lemma escaped_plain v : Fleet.is_surrogate (escaped v) = false.
Proof.
  unfold escaped. destruct (EXT_TABLE !! v) as [c|] eqn:E; cbn [default]; [|destruct (v <? 128); [apply basic_plain|done]].
  assert (H : map_Forall (fun _ c => Fleet.is_surrogate c = false) EXT_TABLE) by decide_closed. by apply (H v).
Qed.

Lemma decode_plain l : plain (decode l).
Proof.
  unfold decode. generalize false. induction l as [|v l IH]; intros b; cbn [decode_from]; [destruct b; by repeat constructor|].
  destruct b; [constructor; [apply escaped_plain|apply IH]|]. destruct (v =? ESC); [apply IH|]. destruct (v <? 128); [|apply IH].
  constructor; [apply basic_plain|apply IH].
Qed.

Lemma utf16_plain e : forall bs, plain (utf16_decode e bs).
Proof.
  intros bs. remember (length bs) as n eqn:Hn. revert bs Hn. induction (lt_wf n) as [n _ IH]. intros bs ->.
  destruct bs as [|a [|b rest]]; [constructor|by repeat constructor|]. cbn [utf16_decode].
  assert (Hr : plain (utf16_decode e rest)) by (eapply IH; [|done]; cbn; lia).
  destruct (is_surrogate (unit_of e a b)) eqn:Es; [|constructor; [exact Es|exact Hr]].
  cbn [negb]. destruct (is_low_surrogate _) eqn:El; [by constructor|]. destruct rest as [|c [|d rest']]; [by repeat constructor..|].
  destruct (is_low_surrogate (unit_of e c d)) eqn:El'; [|by constructor].
  constructor; [|eapply IH; [|done]; cbn; lia].
  unfold is_surrogate, is_low_surrogate in *. unfold Fleet.is_surrogate. lia.
Qed.

Lemma hex_plain c n : hex_value c = Some n -> Fleet.is_surrogate c = false /\ 0 <= n < 16.
Proof. unfold hex_value, Fleet.is_surrogate. repeat case_match; try done; intros [= <-]; lia. Qed.

Lemma fromhex_spec s : forall bs, fromhex s = Some bs -> plain s /\ is_bytes bs.
Proof.
  remember (length s) as n eqn:Hn. revert s Hn. induction (lt_wf n) as [n _ IH]. intros s -> bs.
  destruct s as [|c s]; [intros [= <-]; split; constructor|]. cbn [fromhex]. destruct (ascii_space c) eqn:Ec.
  - intros H. destruct (IH (length s) ltac:(cbn; lia) s eq_refl bs H) as [H1 H2]. split; [|done]. constructor; [|done].
    unfold ascii_space, Fleet.is_surrogate in *. lia.
  - destruct s as [|d s]; [done|]. intros H. apply bind_Some in H as (hi & Hhi & H). apply bind_Some in H as (lo & Hlo & H).
    apply bind_Some in H as (tl & Htl & [= <-]). apply hex_plain in Hhi as [H1 H2], Hlo as [H3 H4].
    destruct (IH (length s) ltac:(cbn; lia) s eq_refl tl Htl) as [H5 H6]. split; [by repeat constructor|]. constructor; [|done].
    unfold is_byte. lia.
Qed.

Lemma upper_plain s : plain s -> plain (upper_ascii <$> s).
Proof.
  intros H. apply Forall_fmap. eapply Forall_impl; [exact H|]. intros c Hc. cbv beta in Hc. unfold compose, upper_ascii. destruct (_ && _) eqn:E; [|exact Hc]. unfold Fleet.is_surrogate. lia.
Qed.

Lemma hex_char_plain n : n < 256 -> Fleet.is_surrogate (hex_char n) = false.
Proof. intros H. unfold hex_char, Fleet.is_surrogate. destruct (n <? 10) eqn:E; lia. Qed.

Lemma digits_plain bs n : is_bytes bs -> plain (decode_digits bs n).
Proof.
  intros H. unfold decode_digits. apply (plain_sub _ (mjoin ((fun o => [hex_char (Z.land o 0x0F); hex_char (Z.shiftr o 4)]) <$> bs))).
  - intros c [Hc _]%list_elem_of_In%filter_In. apply list_elem_of_In in Hc. by eapply elem_take.
  - induction H as [|b bs Hb _ IH]; [constructor|]. cbn. constructor; [|constructor; [|exact IH]]; apply hex_char_plain.
    + change 15 with (Z.ones 4). rewrite Z.land_ones by lia. pose proof (Z.mod_pos_bound b (2 ^ 4) ltac:(lia)). lia.
    + apply shiftr4_nibble in Hb. lia.
Qed.

(** *** The reader *)

Definition reads_bytes (r : Reader) : Prop := is_bytes (rd_data r).

Lemma is_bytes_drop n bs : is_bytes bs -> is_bytes (drop n bs).
Proof. apply Forall_drop. Qed.
Lemma is_bytes_slice a b bs : is_bytes bs -> is_bytes (slice a b bs).
Proof. intros H. apply Forall_take, Forall_drop, H. Qed.

Lemma octets_taken n r bs r' : reads_bytes r -> take_ n r = Ok (bs, r') -> is_bytes bs /\ reads_bytes r'.
Proof. unfold take_. intros H. destruct (_ <? _)%nat; [done|]. intros [= <- <-]. split; [by apply is_bytes_slice|exact H]. Qed.

Lemma octet_taken r b r' : reads_bytes r -> byte r = Ok (b, r') -> is_byte b /\ reads_bytes r'.
Proof.
  unfold byte. intros H E. apply bind_ok in E as ([bs r1] & E1 & [= <- <-]). apply octets_taken in E1 as [H1 H2]; [|done].
  split; [by apply at_byte|done].
Qed.

Lemma with_plus_plain toa s : plain s -> plain (with_plus toa s).
Proof. unfold with_plus. destruct (_ =? _); [by constructor|done]. Qed.

Lemma address_reads r a toa r' : reads_bytes r -> decode_address r = Ok ((a, toa), r') -> plain a /\ reads_bytes r'.
Proof.
  unfold decode_address. intros H E. apply bind_ok in E as ([len r1] & E1 & E). apply octet_taken in E1 as [_ H1]; [|done].
  destruct (len =? 0); [injection E as <- _ <-; split; [constructor|done]|]. apply bind_ok in E as ([t r2] & E2 & E). apply octet_taken in E2 as [_ H2]; [|done].
  apply bind_ok in E as ([octets r3] & E3 & E). apply octets_taken in E3 as [H3 H4]; [|done].
  destruct (is_alphanumeric t); injection E as <- _ <-; (split; [|done]); [apply decode_plain|by apply with_plus_plain, digits_plain].
Qed.

Lemma smsc_reads r o r' : reads_bytes r -> decode_smsc r = Ok (o, r') -> reads_bytes r'.
Proof.
  unfold decode_smsc. intros H E. apply bind_ok in E as ([len r1] & E1 & E). apply octet_taken in E1 as [_ H1]; [|done].
  destruct (len =? 0); [by injection E as _ <-|]. apply bind_ok in E as ([sca r2] & E2 & E). apply octets_taken in E2 as [_ H2]; [|done]. by injection E as _ <-.
Qed.

Definition part_ok (c : option Concat) : Prop := forall x, c = Some x -> small (c_total x).

Lemma byte_small b : is_byte b -> small b.
Proof. unfold is_byte, small, Fleet.fits_int64. change (2 ^ 63) with 9223372036854775808. lia. Qed.

Lemma udh_loop_ok udh fuel : is_bytes udh -> forall pos c ports, part_ok c -> part_ok (parse_udh_loop fuel udh pos c ports).1.1.
Proof.
  intros Hb. induction fuel as [|fuel IH]; intros pos c ports Hc; cbn [parse_udh_loop]; [by destruct (_ <=? _)%nat|].
  destruct (_ <=? _)%nat; [done|]. destruct (_ <? _)%nat; [done|]. destruct (_ <? _)%nat; [done|].
  set (payload := slice _ _ _). assert (Hp : forall i, small (at_ payload i)) by (intros i; by apply byte_small, at_byte, is_bytes_slice).
  assert (Hd : forall a b d, small b -> part_ok (Some (default (mkConcat a b d) c))) by (intros a b d Hs x [= <-]; destruct c as [y|]; [by apply Hc|done]).
  destruct (_ && _); [apply IH, Hd, Hp|]. destruct (_ && _); [apply IH, Hd, Hp|]. destruct (_ && _); [by apply IH|]. destruct (_ && _); by apply IH.
Qed.

Lemma user_data_ok body udl dcs udh ud : is_bytes body -> decode_user_data body udl dcs udh = Ok ud -> plain (ud_text ud) /\ part_ok (ud_concat ud).
Proof.
  unfold decode_user_data. intros Hb E. apply bind_ok in E as ([[[n c] ports] m] & Eh & [= <-]). cbn [ud_text ud_concat]. split.
  - destruct (alphabet_from_dcs dcs).
    + apply decode_plain.
    + apply plain_low. assert (H : is_bytes (if (Z.to_nat udl <=? length body)%nat then slice n (Z.to_nat udl) body else drop n body)).
      { destruct (_ <=? _)%nat; [by apply is_bytes_slice|by apply is_bytes_drop]. }
      eapply Forall_impl; [exact H|]. intros b. unfold is_byte. lia.
    + unfold decode_ucs2. destruct (bool_decide _); [apply utf16_plain|]. destruct (bool_decide _); apply utf16_plain.
  - unfold user_data_header in Eh. destruct udh; [|by injection Eh as _ <- _ _]. destruct body as [|x body]; [done|].
    pose proof (udh_loop_ok (slice 1 (Z.to_nat x + 1) (x :: body)) (length (slice 1 (Z.to_nat x + 1) (x :: body))) (is_bytes_slice _ _ _ Hb) 0 None None) as H.
    unfold parse_udh in Eh. destruct (parse_udh_loop _ _ _ _ _) as [[c' p'] inv]. injection Eh as _ <- _ _. by apply H.
Qed.

(** *** What a frame decodes to *)

Lemma rstrip_plain p s : plain s -> plain (rstrip_by p s).
Proof.
  intros H. eapply plain_sub; [|exact H]. intros c Hc. unfold rstrip_by in Hc. apply list_elem_of_In, in_rev, list_elem_of_In in Hc.
  destruct (lstrip_suffix p (rev s)) as [a E]. apply list_elem_of_In, in_rev. rewrite E. apply in_or_app. right. by apply list_elem_of_In.
Qed.

Lemma recover_plain body : plain (sv_text (recover body)) /\ plain (sv_code (recover body)).
Proof.
  destruct (recover_sound body) as [[-> ->]|(_ & Ht & _ & _ & _ & ->)]; [split; constructor|]. split.
  - unfold phase_text in Ht. destruct (_ =? _)%nat; [done|]. injection Ht as <-. apply rstrip_plain, decode_plain.
  - destruct (extract_code_sound (sv_text (recover body))) as [->|(m & ctx & <- & [_ _ Hr _ _] & _)]; [constructor|].
    apply List.Forall_forall. intros c Hc. rewrite forallb_forall in Hr. by apply decimal_char, Hr.
Qed.

Lemma clean_raw s bs : fromhex (clean_hex s) = Some bs -> is_bytes bs /\ plain (upper_ascii <$> clean_hex s).
Proof. intros [H1 H2]%fromhex_spec. split; [done|by apply upper_plain]. Qed.

(** A message the decoder accepts. *)
Lemma decoded_sound p sms : decode_pdu p = Ok sms -> sound sms.
Proof.
  unfold decode_pdu. intros E. apply bind_ok in E as (data & Ed & E). destruct (fromhex (clean_hex p)) as [bs|] eqn:Eh; [|done]. injection Ed as <-.
  destruct (clean_raw _ _ Eh) as [Hbs Hraw]. assert (H0 : reads_bytes (mkReader bs 0)) by done.
  apply bind_ok in E as ([smsc r] & E1 & E). apply smsc_reads in E1; [|done]. apply bind_ok in E as ([first r1] & E2 & E).
  apply octet_taken in E2 as [_ H2]; [|done]. apply bind_ok in E as ([[[[[[[[k srr] addr] toa] start] pid] dcs] ts] r2] & E3 & E).
  assert (H3 : plain addr /\ is_byte dcs /\ reads_bytes r2).
  { destruct (_ =? MTI_DELIVER).
    - apply bind_ok in E3 as ([[a t] q1] & A & E3). apply address_reads in A as [Ha Hq1]; [|done].
      apply bind_ok in E3 as ([b1 q2] & B & E3). apply octet_taken in B as [_ Hq2]; [|done].
      apply bind_ok in E3 as ([b2 q3] & B & E3). apply octet_taken in B as [Hb2 Hq3]; [|done].
      apply bind_ok in E3 as ([b3 q4] & B & E3). apply octets_taken in B as [_ Hq4]; [|done]. injection E3 as <- <- <- <- <- <- <- <- <-. done.
    - destruct (_ =? MTI_SUBMIT); [|done]. apply bind_ok in E3 as ([b0 q0] & B & E3). apply octet_taken in B as [_ Hq0]; [|done].
      apply bind_ok in E3 as ([[a t] q1] & A & E3). apply address_reads in A as [Ha Hq1]; [|done].
      apply bind_ok in E3 as ([b1 q2] & B & E3). apply octet_taken in B as [_ Hq2]; [|done].
      apply bind_ok in E3 as ([b2 q3] & B & E3). apply octet_taken in B as [Hb2 Hq3]; [|done].
      apply bind_ok in E3 as (q4 & B & E3). injection E3 as <- <- <- <- <- <- <- <- <-. split_and!; try done.
      destruct (_ =? 2); [|destruct (_ || _); [|by injection B as <-]].
      + apply bind_ok in B as ([b3 q5] & B & [= <-]). by apply octet_taken in B as [_ ?].
      + apply bind_ok in B as ([b3 q5] & B & [= <-]). by apply octets_taken in B as [_ ?]. }
  destruct H3 as (Ha & Hd & H3). apply bind_ok in E as ([udl r3] & E4 & E). apply octet_taken in E4 as [_ H4]; [|done].
  apply bind_ok in E as (ud & E5 & [= <-]). apply user_data_ok in E5 as [Ht Hc]; [|by apply is_bytes_drop].
  set (t := _ && _ && _). assert (Hs : plain (sv_text (if t then recover (drop start bs) else no_salvage)) /\ plain (sv_code (if t then recover (drop start bs) else no_salvage))).
  { destruct t; [apply recover_plain|split; constructor]. }
  unfold sound, sound_sms. cbn [d_address d_text d_raw d_recovered_text d_code d_dcs d_concat forallb]. split_and!.
  - rewrite !andb_true_iff, <- !plain_encodable. destruct Hs. by split_and!.
  - by apply byte_small.
  - destruct (ud_concat ud) as [x|] eqn:Ex; [by apply Hc|by vm_compute].
Qed.

Lemma report_sound p r : decode_status_report p = Ok r -> sound r.
Proof.
  unfold decode_status_report. intros E. apply bind_ok in E as (data & Ed & E). destruct (fromhex (clean_hex p)) as [bs|] eqn:Eh; [|done]. injection Ed as <-.
  destruct (clean_raw _ _ Eh) as [Hbs Hraw]. assert (H0 : reads_bytes (mkReader bs 0)) by done.
  apply bind_ok in E as ([smsc q0] & A & E). apply smsc_reads in A; [|done].
  apply bind_ok in E as ([first q1] & B & E). apply octet_taken in B as [_ H1]; [|done]. destruct (negb _); [done|].
  apply bind_ok in E as ([mr q2] & B & E). apply octet_taken in B as [Hm H2]; [|done].
  apply bind_ok in E as ([[a t] q3] & A' & E). apply address_reads in A' as [Ha H3]; [|done].
  apply bind_ok in E as ([b3 q4] & B & E). apply octets_taken in B as [_ H4]; [|done].
  apply bind_ok in E as ([b4 q5] & B & E). apply octets_taken in B as [_ H5]; [|done].
  apply bind_ok in E as ([status q6] & B & [= <-]). apply octet_taken in B as [Hs _]; [|done].
  unfold sound, sound_report, is_byte in *. cbn [sr_recipient sr_raw sr_message_reference sr_status forallb].
  rewrite !andb_true_iff, <- !plain_encodable. split_and!; try done; lia.
Qed.

(** *** Reassembly *)

Definition parts_sound (parts : pydict Z DecodedSms) : Prop := forall i sms, (i, sms) ∈ parts -> sound sms.
Definition sane_reassembler (r : Reassembly.Reassembler) : Prop :=
  forall k p, (k, p) ∈ Reassembly.pending_ r -> parts_sound (Reassembly.p_parts p).

Lemma merge_sound l sms : Forall sound l -> Reassembly.merge_ordered l = Ok sms -> sound sms.
Proof.
  intros Hl. destruct l as [|head l]; [done|]. cbn [Reassembly.merge_ordered]. intros [= <-].
  assert (Hj : forall f : DecodedSms -> pystr, (forall s : DecodedSms, sound s -> plain (f s)) -> Forall plain (f <$> head :: l)).
  { intros f Hf. apply Forall_fmap. eapply Forall_impl; [exact Hl|]. exact Hf. }
  assert (Hs : forall s : DecodedSms, sound s -> plain (d_address s) /\ plain (d_text s) /\ plain (d_raw s) /\ plain (d_recovered_text s) /\ plain (d_code s)).
  { intros s (H & _). cbn [forallb] in H. rewrite !andb_true_iff, <- !plain_encodable in H. tauto. }
  assert (Hm : forall ss, Forall plain ss -> plain (mjoin ss)) by (intros ss H; induction H as [|s ss H1 _ IH]; [constructor|by apply plain_app]).
  pose proof (Forall_inv Hl) as H0. pose proof H0 as (_ & Hd & Hc). unfold sound, sound_sms.
  cbn [d_address d_text d_raw d_recovered_text d_code d_dcs d_concat forallb]. split_and!; [|exact Hd|exact Hc].
  rewrite !andb_true_iff, <- !plain_encodable. split_and!; try done.
  - by apply Hs.
  - change (plain (mjoin (d_text <$> head :: l))). apply Hm, (Hj d_text). intros s H. by apply Hs.
  - change (plain (py_join [32] (d_raw <$> head :: l))). apply plain_encodable, encodable_join; [by vm_compute|]. eapply Forall_impl; [apply (Hj d_raw); intros s H; by apply Hs|]. intros s. apply plain_encodable.
  - change (plain (mjoin (d_recovered_text <$> head :: l))). apply Hm, (Hj d_recovered_text). intros s H. by apply Hs.
  - assert (Hcodes : Forall plain (filter (fun c => c <> []) (d_code <$> head :: l))) by (apply Forall_filter, (Hj d_code); intros s H; by apply Hs).
    change (plain (default [] (head_of (filter (fun c => c <> []) (d_code <$> head :: l))))). destruct (filter _ _) as [|c cs]; [constructor|]. exact (Forall_inv Hcodes).
Qed.

Lemma partial_sound p sms : parts_sound (Reassembly.p_parts p) -> Reassembly.merge p = Ok sms -> sound sms.
Proof.
  intros Hp. apply merge_sound. unfold Reassembly.ordered. apply List.Forall_forall. intros s Hs%list_elem_of_In.
  apply list_elem_of_omap in Hs as (i & _ & Hi). apply dict_get_Some_in in Hi. by eapply Hp.
Qed.

Lemma dict_set_in {K V} `{EqDecision K} (k : K) (v : V) k' v' d : (k', v') ∈ dict_set k v d -> v' = v \/ (k', v') ∈ d.
Proof.
  rewrite dict_set_perm. intros [[= -> ->]|H]%elem_of_cons; [by left|right]. eapply sublist_subseteq; [apply dict_del_sublist|exact H].
Qed.

Lemma push_sane now sms r o r' : sound sms -> sane_reassembler r -> Reassembly.push now sms r = Ok (o, r') ->
  sane_reassembler r' /\ forall m, o = Some m -> sound m.
Proof.
  intros Hs Hr. unfold Reassembly.push. destruct (Reassembly.key_of sms) as [[k c]|]; [|by intros [= <- <-]; split; [|intros m [= <-]]].
  set (p := match dict_get k _ with Some p => _ | None => _ end). set (p' := Reassembly.mkPartial (Reassembly.p_total p) _ _ _).
  assert (Hp : parts_sound (Reassembly.p_parts p)).
  { subst p. destruct (dict_get k _) as [q|] eqn:E; [|by intros i s H%not_elem_of_nil]. destruct (_ =? _); [|by intros i s H%not_elem_of_nil].
    apply dict_get_Some_in in E. by eapply Hr. }
  assert (Hp' : parts_sound (Reassembly.p_parts p')).
  { intros i s [->|H]%dict_set_in; [done|by eapply Hp]. }
  destruct (Reassembly.complete p').
  - intros E. apply bind_ok in E as (m & Em & [= <- <-]). split.
    + intros k' q Hq. apply (Hr k'). eapply sublist_subseteq; [apply dict_del_sublist|exact Hq].
    + intros m' [= <-]. by eapply partial_sound.
  - intros [= <- <-]. split; [|done]. intros k' q [->|Hq]%dict_set_in; [done|by eapply Hr].
Qed.

Lemma flush_sane now r out r' : sane_reassembler r -> Reassembly.flush_expired now r = Ok (out, r') ->
  sane_reassembler r' /\ Forall sound out.
Proof.
  unfold Reassembly.flush_expired. intros Hr E. apply bind_ok in E as ([out' d] & E & [= <- <-]).
  assert (H : forall keys pend, (forall k p, (k, p) ∈ pend -> parts_sound (Reassembly.p_parts p)) -> forall out d,
    Reassembly.pop_merge keys pend = Ok (out, d) -> (forall k p, (k, p) ∈ d -> parts_sound (Reassembly.p_parts p)) /\ Forall sound out).
  { clear. induction keys as [|k keys IH]; intros pend Hp out d; cbn [Reassembly.pop_merge]; [by intros [= <- <-]|].
    destruct (dict_get k pend) as [p|] eqn:Ek; [|done]. intros E. apply bind_ok in E as (m & Em & E). apply bind_ok in E as ([out' d'] & E & [= <- <-]).
    apply dict_get_Some_in in Ek. destruct (IH (dict_del k pend)) with (out := out') (d := d') as [H1 H2]; [|done|].
    - intros k' q Hq. apply (Hp k'). eapply sublist_subseteq; [apply dict_del_sublist|exact Hq].
    - split; [done|]. constructor; [|done]. eapply partial_sound; [|exact Em]. by eapply Hp. }
  eapply H; [|exact E]. exact Hr.
Qed.

(** ** What is assumed of the module's lines *)

(** The commands whose answers are read as numbers that reach an event. *)
Definition measured (cmd : pystr) : bool :=
  bool_decide (cmd ∈ [str "AT+CSQ"; str "AT+CESQ"; str "AT+CPMS?"]) || starts_with (str "AT+CMGS=") cmd.

Definition heard_lines (cmd : pystr) (x : ATResponse) : Prop :=
  Forall (fun l => plain l /\ (measured cmd = true -> modest l = true)) (lines x).

(** How a command ends: an error is made of the line that said so, of the
    command, or of what the transport reported. *)
Definition heard (cmd : pystr) (r : res Driver.exn ATResponse) : Prop :=
  match r with
  | Ok x => heard_lines cmd x
  | Err (AtError e) => plain (error_message e)
  | Err _ => True
  end.

Definition heard_event (e : event) : Prop := match e with Sent cmd _ r => heard cmd r | _ => True end.

(** ** What the tasks share *)

Record sane (d : driver) : Prop := {
  sane_parts : sane_reassembler (reassembler d);
  sane_call : forall c, ring_call d = Some c -> sound c }.

Lemma sane_same d d' : reassembler d' = reassembler d -> ring_call d' = ring_call d -> sane d -> sane d'.
Proof. intros E1 E2 [H1 H2]. split; [by rewrite E1|by rewrite E2]. Qed.

Lemma take_while_forall (p : Z -> bool) s : Forall (fun c => p c = true) (take_while p s).
Proof. induction s as [|c s IH]; cbn; [constructor|]. destruct (p c) eqn:E; by constructor. Qed.

Lemma clip_plain params : plain (clip_number params).
Proof.
  apply plain_low. eapply Forall_impl; [apply take_while_forall|]. intros c. cbv beta. unfold number_char. lia.
Qed.

Lemma sound_call_spec c : sound c <-> plain (call_number c) /\ plain (call_ts c).
Proof. unfold sound, sound_call. cbn [forallb]. rewrite !andb_true_iff, <- !plain_encodable. tauto. Qed.

(** The handlers of the unsolicited lines keep it. *)
Lemma dispatch_sane now stamp prefix u d : plain stamp -> sane d -> sane (dispatch now stamp prefix u d).
Proof.
  intros Hst Hd. unfold dispatch.
  destruct (bool_decide _). { unfold on_cmti. destruct (after_comma _); [by apply (sane_same d)|done]. }
  destruct (bool_decide _). { unfold on_registration. repeat case_match; by apply (sane_same d). }
  destruct (bool_decide _).
  { unfold on_ring. destruct (_ <? _); [by apply (sane_same d)|]. split; [apply Hd|]. intros c [= <-]. apply sound_call_spec. by split; [constructor|]. }
  destruct (bool_decide _); [|done]. unfold on_clip. pose proof (clip_plain (u_params u)) as Hc.
  destruct (ring_call d) as [c|] eqn:Ec.
  - split; [apply Hd|]. intros c' [= <-]. apply (sane_call _ Hd) in Ec as Hs. destruct (clip_number _) eqn:En; [done|].
    apply sound_call_spec in Hs as [_ Hs]. by apply sound_call_spec.
  - destruct (_ <? _); [done|]. split; [apply Hd|]. intros c' [= <-]. by apply sound_call_spec.
Qed.

(** A tick of the script: the lines' time stamps are texts, and the other
    tasks keep the shared state sane, as every program below does. *)
Definition fair (tk : tick) : Prop := Forall (fun u => plain u.1.1) (k_urcs tk) /\ forall d, sane d -> sane (k_others tk d).

Lemma meanwhile_sane c tk d : fair tk -> sane d -> sane (meanwhile c tk d).
Proof.
  intros [Hu Ho] Hd. unfold meanwhile. apply Ho. clear Ho. revert d Hd. induction Hu as [|u us H _ IH]; intros d Hd; [done|]. cbn. by apply IH, dispatch_sane.
Qed.

(** ** The rule *)

Definition sound_exn (e : Driver.exn) : Prop := match e with AtError e => plain (error_message e) | _ => True end.
Definition handed_ok (u : upward) : Prop := match u with UpSms s => sound s | UpDelivery r => sound r | UpCall c => sound c end.
Definition handed_event (e : event) : Prop := match e with Handed u _ => handed_ok u | _ => True end.

(** Whatever the module says, within [heard], and whatever sane state the
    other tasks leave: the shared state stays sane, what is handed on is sound, and
    the result is a [P] or a sound exception. *)
Fixpoint honest {A} (P : A -> Prop) (p : prog A) : Prop :=
  match p with
  | Ret a => P a
  | Throw e => sound_exn e
  | At cmd pl k => forall r, heard cmd r -> honest P (k r)
  | Sleep t k => forall r, sleep_result r -> honest P (k r)
  | Now k => forall c, honest P (k c)
  | Use f k => forall d, sane d -> sane (f d) /\ honest P (k (f d))
  | Hand u k => handed_ok u /\ forall r, hand_result r -> honest P (k r)
  | Spin => True
  end.

(** What a result promises. *)
Definition promises {A} (P : A -> Prop) (r : res Driver.exn A) : Prop := match r with Ok a => P a | Err e => sound_exn e end.

(** A run puts its events behind those before it. *)
Lemma run_events {A} (p : prog A) : forall script t d c,
  run p script t d c = (t ++ (run p script [] d c).1.1.1, (run p script [] d c).1.1.2, (run p script [] d c).1.2, (run p script [] d c).2).
Proof.
  induction p as [a|e|cmd pl k IH|s k IH|k IH|f k IH|u k IH|]; intros script t d c; cbn [run].
  1, 2, 8: by rewrite app_nil_r.
  1, 2, 5: destruct script as [|tk script]; [by rewrite app_nil_r|]; rewrite IH, (IH _ script ([] ++ _)); cbn [fst snd app]; by rewrite <- app_assoc.
  all: apply IH.
Qed.

(** [honest] holds of every run whose lines are as assumed. *)
Lemma honest_run {A} (P : A -> Prop) (p : prog A) : forall script d c, honest P p -> Forall fair script -> sane d ->
  Forall heard_event (run p script [] d c).1.1.1 ->
  Forall handed_event (run p script [] d c).1.1.1 /\ sane (run p script [] d c).1.1.2
  /\ match (run p script [] d c).2 with Done r => promises P r | _ => True end.
Proof.
  induction p as [a|e|cmd pl k IH|s k IH|k IH|f k IH|u k IH|]; intros script d c Hp Hs Hd; cbn [run honest] in *; [done|done| | | | | |done].
  1, 2, 5: destruct script as [|tk script]; [done|]; apply Forall_cons in Hs as [Hf Hs]; rewrite run_events; cbn [fst snd app]; intros [He Hes]%Forall_cons.
  - destruct (IH _ script (meanwhile c tk d) (later c tk) (Hp _ He) Hs (meanwhile_sane _ _ _ Hf Hd) Hes) as (H1 & H2). split; [by constructor|exact H2].
  - set (r := as_sleep _) in *. assert (Hr : sleep_result r) by (subst r; unfold as_sleep; destruct (k_answer tk); [by left|by right]).
    destruct (IH _ script (meanwhile c tk d) _ (Hp _ Hr) Hs (meanwhile_sane _ _ _ Hf Hd) Hes) as (H1 & H2). split; [by constructor|exact H2].
  - set (r := as_unit _) in *. assert (Hr : hand_result r) by (subst r; unfold as_unit; destruct (k_answer tk) as [|[]]; [by left|..]; right; auto).
    destruct Hp as [Hu Hp]. destruct (IH _ script (meanwhile c tk d) _ (Hp _ Hr) Hs (meanwhile_sane _ _ _ Hf Hd) Hes) as (H1 & H2). split; [by constructor|exact H2].
  - by apply IH.
  - destruct (Hp d Hd) as [Hd' Hk]. by apply IH.
Qed.

(** *** Its parts *)

Lemma honest_mono {A} (P Q : A -> Prop) (p : prog A) : (forall a, P a -> Q a) -> honest P p -> honest Q p.
Proof.
  intros HPQ. induction p as [a|e|cmd pl k IH|s k IH|k IH|f k IH|u k IH|]; cbn [honest]; auto.
  - intros H d Hd. destruct (H d Hd). auto.
  - intros [Hu H]. auto.
Qed.

Lemma honest_bind {A B} (P : B -> Prop) (p : prog A) (f : A -> prog B) : honest (fun a => honest P (f a)) p -> honest P (bind p f).
Proof.
  induction p as [a|e|cmd pl k IH|s k IH|k IH|g k IH|u k IH|]; cbn [honest bind]; auto.
  - intros H d Hd. destruct (H d Hd). auto.
  - intros [Hu H]. auto.
Qed.

Lemma honest_catch {A} (P : A -> Prop) (p : prog A) (h : Driver.exn -> prog A) :
  honest P p -> (forall e, sound_exn e -> honest P (h e)) -> honest P (catch p h).
Proof.
  intros Hp Hh. induction p as [a|e|cmd pl k IH|s k IH|k IH|g k IH|u k IH|]; cbn [honest catch] in *; auto.
  - intros d Hd. destruct (Hp d Hd). auto.
  - destruct Hp as [Hu Hp]. auto.
Qed.

Lemma honest_except_at {A} (P : A -> Prop) (p : prog A) (h : at_error -> prog A) :
  honest P p -> (forall e, plain (error_message e) -> honest P (h e)) -> honest P (except_at p h).
Proof. intros Hp Hh. apply honest_catch; [done|]. intros [] He; try exact I. by apply Hh. Qed.

Lemma honest_finally {A} (P : A -> Prop) (p : prog A) (q : prog unit) : honest P p -> honest (fun _ => True) q -> honest P (finally p q).
Proof.
  intros Hp Hq. apply honest_bind. apply honest_catch.
  - eapply honest_mono; [|exact Hp]. intros a Ha. apply honest_bind. eapply honest_mono; [|exact Hq]. by intros _ _.
  - intros e He. apply honest_bind. eapply honest_mono; [|exact Hq]. by intros _ _.
Qed.

Lemma honest_execute (P : ATResponse -> Prop) cmd : (forall x, heard_lines cmd x -> P x) -> honest P (execute cmd).
Proof. intros H. cbn. intros [x|[]] Hr; cbn; auto. Qed.
Lemma honest_payload (P : ATResponse -> Prop) cmd pl : (forall x, heard_lines cmd x -> P x) -> honest P (execute_payload cmd pl).
Proof. intros H. cbn. intros [x|[]] Hr; cbn; auto. Qed.
Lemma honest_sleep (P : unit -> Prop) t : P tt -> honest P (sleep t).
Proof. intros H. cbn. intros [[]|e] Hr; cbn; [done|]. by destruct Hr as [|[= ->]]. Qed.
Lemma honest_hand (P : unit -> Prop) u : handed_ok u -> P tt -> honest P (hand u).
Proof. intros Hu H. cbn. split; [done|]. intros [[]|e] Hr; cbn; [done|]. by destruct Hr as [|[[= ->]|[= ->]]]. Qed.
Lemma honest_now (P : Z -> Prop) : (forall c, P c) -> honest P monotonic.
Proof. intros H c. apply H. Qed.
Lemma honest_get {A} (P : A -> Prop) (f : driver -> A) : (forall d, sane d -> P (f d)) -> honest P (get f).
Proof. intros H d Hd. split; [done|by apply H]. Qed.
Lemma honest_put (P : unit -> Prop) f : (forall d, sane d -> sane (f d)) -> P tt -> honest P (put f).
Proof. intros Hf H d Hd. split; [by apply Hf|done]. Qed.
(** What is not the reassembler nor the call that rings. *)
Lemma honest_info (P : unit -> Prop) f : P tt -> honest P (Modem.update f).
Proof. intros H. apply honest_put; [|done]. intros d. by apply sane_same. Qed.

(** ** The programs *)

(** Answers no event is made of. *)
Definition any {A} : Sound A := fun _ => True.
#[export] Instance sound_flag : Sound bool := any.
#[export] Instance sound_known : Sound (option bool) := any.
#[export] Instance sound_domains : Sound (option bool * option bool) := any.
#[export] Instance sound_radio : Sound (bool * bool) := any.
#[export] Instance sound_unit : Sound unit := any.
#[export] Instance sound_response : Sound ATResponse := any.
#[export] Instance sound_scan : Sound (list Operators.visible_operator) := any.
#[export] Instance sound_sections : Sound (list (string * res at_error (list pystr))) := any.
(** Answers that reach the status or are handed on. *)
#[export] Instance sound_info : Sound ModemInfo := fun i =>
  forallb Fleet.encodable [operator i; iccid i; imei i; model i; hardware_model i; firmware i; smsc i] = true.
#[export] Instance sound_operator : Sound (Operators.current_operator * bool) := fun x => Fleet.encodable (Operators.co_operator x.1) = true.
#[export] Instance sound_signal : Sound StatusFilter.Signal := fun s =>
  Forall opt_small [StatusFilter.rssi s; StatusFilter.dbm s; Some (StatusFilter.bars s); StatusFilter.rsrp s; StatusFilter.rsrq s].
#[export] Instance sound_reading : Sound (option Z) := opt_small.
#[export] Instance sound_storage : Sound (Z * Z) := fun x => small x.1 /\ small x.2.
#[export] Instance sound_messages : Sound (list DecodedSms) := Forall sound.

(** What one program promises its caller. *)
Class Honest {A} `{Sound A} (p : prog A) : Prop := honest_sound : honest sound p.

(** One node at a time, the lemma by its head. *)
Ltac honest_step :=
  lazymatch goal with
  | |- honest _ (bind _ _) => apply honest_bind
  | |- honest _ (except_at _ _) => apply honest_except_at; [|intros ? ?]
  | |- honest _ (finally _ _) => apply honest_finally
  | |- honest _ (execute _) => apply honest_execute; intros ? ?
  | |- honest _ (execute_payload _ _) => apply honest_payload; intros ? ?
  | |- honest _ (sleep _) => apply honest_sleep
  | |- honest _ (hand _) => apply honest_hand
  | |- honest _ monotonic => apply honest_now; intros ?
  | |- honest _ (get _) => apply honest_get; intros ? ?
  | |- honest _ (Modem.update _) => apply honest_info
  | |- honest _ (put _) => apply honest_put; [intros ?; by apply sane_same|]
  | |- honest _ (of_res ?r) => destruct r eqn:?; cbn [of_res]
  | |- honest _ (Ret _) => cbn [honest]
  | |- honest _ (Throw _) => cbn [honest]; try exact I
  | |- honest _ Spin => exact I
  | |- honest _ (if ?b then _ else _) => destruct b
  | |- honest _ (match ?x with _ => _ end) => destruct x
  end.
Ltac honest := repeat honest_step; auto.

Lemma honest_radio (P : option bool -> Prop) : (forall a, P a) -> honest P Modem.read_radio_enabled.
Proof. intros HP. unfold Modem.read_radio_enabled. honest. Qed.
Lemma honest_domain (P : option bool * option bool -> Prop) c ps : (forall a, P a) -> honest P (Modem.read_registration_domain_state c ps).
Proof. intros HP. unfold Modem.read_registration_domain_state. honest. Qed.
Lemma honest_details (P : option bool * option bool * option bool -> Prop) : (forall a, P a) -> honest P Modem.read_registration_details.
Proof. intros HP. unfold Modem.read_registration_details. honest_step. apply honest_domain. intros eps. honest_step. apply honest_domain. intros cs. apply HP. Qed.
Lemma honest_registration (P : bool -> Prop) : (forall a, P a) -> honest P Modem.read_registration.
Proof. intros HP. unfold Modem.read_registration. honest_step. apply honest_details. intros r. honest. Qed.
Lemma honest_ims (P : option bool -> Prop) : (forall a, P a) -> honest P Modem.read_ims_registration.
Proof. intros HP. unfold Modem.read_ims_registration, Modem.read_registration_domain. honest_step. apply honest_domain. intros s. apply HP. Qed.
Lemma honest_snapshot (P : option bool * option (list Modem.PdpContextState) -> Prop) : (forall a, P a) -> honest P Modem.read_data_snapshot.
Proof. intros HP. unfold Modem.read_data_snapshot, Modem.read_pdp_context_states. honest. Qed.
Lemma honest_status (P : option bool * option bool -> Prop) : (forall a, P a) -> honest P Modem.read_data_status.
Proof. intros HP. unfold Modem.read_data_status. honest_step. apply honest_snapshot. intros s. honest. Qed.
Lemma honest_deactivate (P : list at_error -> Prop) l : (forall a, P a) -> honest P (Modem.deactivate_active l).
Proof.
  intros HP. unfold Modem.deactivate_active. destruct (Modem.user_data_contexts l) as [[|x l']|]; try apply HP.
  revert P HP. generalize (x :: l'). clear. intros l. induction l as [|c l IH]; intros P HP; cbn [Modem.deactivate_user_data_contexts]; [apply HP|].
  honest_step. assert (H : forall e : option at_error, honest P (match e with Some e => bind (Modem.deactivate_user_data_contexts l) (fun es => Ret (e :: es))
    | None => bind (sleep 1000000) (fun _ => Modem.deactivate_user_data_contexts l) end)).
  { intros [e|]; honest_step; [apply IH; intros es; apply HP|]. honest_step. by apply IH. }
  apply honest_except_at; [do 2 honest_step; exact (H None)|intros e _; exact (H (Some e))].
Qed.

#[export] Instance execute_honest cmd : Honest (execute cmd).
Proof. by apply honest_execute. Qed.
#[export] Instance radio_honest : Honest Modem.read_radio_enabled.
Proof. by apply honest_radio. Qed.
#[export] Instance registration_honest : Honest Modem.read_registration.
Proof. by apply honest_registration. Qed.
#[export] Instance ims_honest : Honest Modem.read_ims_registration.
Proof. by apply honest_ims. Qed.
#[export] Instance status_honest : Honest Modem.read_data_status.
Proof. by apply honest_status. Qed.
#[export] Instance data_honest b : Honest (Modem.set_data_enabled b).
Proof.
  unfold Honest, Modem.set_data_enabled. honest_step. apply (honest_mono (fun _ => True)).
  - intros _ _. honest_step. apply honest_status. intros s. honest; exact I.
  - destruct b; [honest|]. honest_step. apply honest_snapshot. intros s. honest_step. apply honest_deactivate. intros es.
    honest_step; [exact I|]. honest_step. assert (H : forall e : option at_error, honest (fun _ => True) (match e with Some _ => Ret tt | None =>
      bind Modem.read_data_snapshot (fun s => bind (Modem.deactivate_active s.2) (fun _ => Ret tt)) end)).
    { intros [e|]; [exact I|]. honest_step. apply honest_snapshot. intros s'. honest_step. by apply honest_deactivate. }
    apply honest_except_at; [do 2 honest_step; exact (H None)|intros e _; exact (H (Some e))].
Qed.

(** *** What is read from a line *)

Lemma value_of prefix cmd x v : heard_lines cmd x -> v ∈ all_values prefix x -> plain v /\ (measured cmd = true -> modest v = true).
Proof.
  intros Hx (l & -> & [_ Hl]%list_elem_of_filter)%list_elem_of_fmap. unfold heard_lines in Hx. rewrite Forall_forall in Hx. destruct (Hx l Hl) as [H1 H2].
  assert (Hp : piece (strip (drop (length prefix) l)) l) by (eapply piece_trans; [apply piece_strip|apply piece_drop]).
  split; [by eapply piece_plain|]. intros Hm. eapply modest_piece; [exact Hp|by apply H2].
Qed.

Lemma first_of prefix cmd x v : heard_lines cmd x -> first_value prefix x = Some v -> plain v /\ (measured cmd = true -> modest v = true).
Proof. intros Hx H. apply (value_of prefix cmd x); [done|]. unfold first_value in H. destruct (all_values prefix x); [done|]. injection H as ->. left. Qed.

Lemma first_default prefix cmd x : heard_lines cmd x -> plain (default [] (first_value prefix x)) /\ (measured cmd = true -> modest (default [] (first_value prefix x)) = true).
Proof. intros Hx. destruct (first_value prefix x) eqn:E; [by eapply first_of|]. by split; [constructor|]. Qed.

Lemma csv_run_chars s : forall st cur (fs : list pystr) (f : pystr) (c : Z), AtText.csv_run st cur s = Some fs -> f ∈ fs -> c ∈ f -> c ∈ cur \/ c ∈ s.
Proof.
  assert (Hcons : forall (cur : pystr) (o : option (list pystr)) (fs : list pystr) (f : pystr), cons cur <$> o = Some fs -> f ∈ fs -> f = cur \/ exists fs', o = Some fs' /\ f ∈ fs').
  { intros cur [fs'|] fs f; [|done]. intros [= <-] [->|H]%elem_of_cons; [by left|right; by exists fs']. }
  assert (Hnil : forall c : Z, c ∈ ([] : pystr) -> False) by (intros c H; by apply elem_of_nil in H).
  induction s as [|x s IH]; intros st cur fs f c; cbn [AtText.csv_run].
  - destruct st; intros [= <-]; try (intros H; by apply elem_of_nil in H); intros ->%list_elem_of_singleton; auto.
  - assert (Hgo : forall st' cur', (forall c, c ∈ cur' -> c ∈ cur \/ c = x) -> AtText.csv_run st' cur' s = Some fs -> f ∈ fs -> c ∈ f -> c ∈ cur \/ c ∈ x :: s).
    { intros st' cur' Hc E Hf Hin. destruct (IH _ _ _ _ _ E Hf Hin) as [[H|H]%Hc|H]; [by left|right; subst; left|right; by right]. }
    assert (Hput : forall st' cur', cur' = cur \/ cur' = [] -> (cons cur' <$> AtText.csv_run st' [] s) = Some fs -> f ∈ fs -> c ∈ f -> c ∈ cur \/ c ∈ x :: s).
    { intros st' cur' Hc E Hf Hin. destruct (Hcons _ _ _ _ E Hf) as [->|(fs' & E' & Hf')].
      - destruct Hc as [->| ->]; [by left|by apply Hnil in Hin].
      - destruct (IH _ _ _ _ _ E' Hf' Hin) as [H|H]; [by apply Hnil in H|right; by right]. }
    assert (Hsnoc : forall c, c ∈ cur ++ [x] -> c ∈ cur \/ c = x) by (intros c' [H|H%list_elem_of_singleton]%elem_of_app; auto).
    assert (Hempty : forall c, c ∈ ([] : pystr) -> c ∈ cur \/ c = x) by (intros c' H; by apply Hnil in H).
    assert (Hkeep : forall c, c ∈ cur -> c ∈ cur \/ c = x) by auto.
    assert (Hone : forall c, c ∈ [x] -> c ∈ cur \/ c = x) by (intros c' H%list_elem_of_singleton; auto).
    destruct st; repeat match goal with |- context [if ?b then _ else _] => destruct b end; try done; eauto.
Qed.

Lemma field_plain value f : plain value -> f ∈ AtText.csv_fields value -> plain f.
Proof.
  intros Hv Hf. unfold AtText.csv_fields in Hf. destruct (AtText.csv_run _ _ _) as [fs|] eqn:E; [|by apply elem_of_nil in Hf].
  destruct (existsb _ _); [by apply elem_of_nil in Hf|]. apply list_elem_of_fmap in Hf as (g & -> & Hg). eapply piece_plain; [apply piece_strip|].
  eapply plain_sub; [|exact Hv]. intros c Hc. destruct (csv_run_chars _ _ _ _ _ _ E Hg Hc) as [H|H]; [by apply elem_of_nil in H|done].
Qed.

Lemma operator_plain value : plain value -> plain (Operators.co_operator (Operators.parse_current_operator value)).
Proof.
  intros Hv. unfold Operators.parse_current_operator. set (v := if starts_with _ _ then _ else value).
  assert (Hp : plain v) by (subst v; destruct (starts_with _ _); [eapply piece_plain; [apply partition_piece|done]|done]).
  assert (Hf : forall f, f ∈ AtText.csv_fields v -> plain f) by (intros f; by apply field_plain).
  destruct (AtText.csv_fields v) as [|f0 [|f1 [|f2 fs]]]; cbn; try by repeat case_match; constructor.
  destruct (py_int f0); [|constructor]. destruct (py_int f1); [|constructor]. apply Hf. right. right. left.
Qed.

Lemma take_while_sub (p : Z -> bool) s c : c ∈ take_while p s -> c ∈ s.
Proof. induction s as [|x s IH]; cbn; [done|]. destruct (p x); [|by intros H%elem_of_nil]. intros [->|H]%elem_of_cons; [left|right; auto]. Qed.

Lemma quoted_plain s q : plain s -> AtText.quoted s = Some q -> plain q.
Proof.
  intros Hs. assert (H : forall q, AtText.quoted s = Some q -> forall c, c ∈ q -> c ∈ s).
  { clear. induction s as [|x s IH]; intros q; [done|]. cbn [AtText.quoted]. assert (Hr : forall q, AtText.quoted s = Some q -> forall c, c ∈ q -> c ∈ x :: s) by (intros q' E c Hc; right; by eapply IH).
    destruct (x =? 34); [|apply Hr]. pose proof (take_while_sub (fun c => negb (c =? 34)) s) as Hw. destruct (take_while _ s) as [|y ys]; [apply Hr|].
    destruct (drop _ s) as [|[|z|z] t]; try apply Hr. repeat (destruct z as [z|z|]; try apply Hr). intros [= <-] c Hc. right. by apply Hw. }
  intros E. eapply plain_sub; [by apply H|done].
Qed.

Lemma cut_plain pat : forall s skip, plain s -> plain (AtText.cut_out pat skip s).
Proof.
  induction s as [|c s IH]; intros skip Hs; [constructor|]. apply Forall_cons in Hs as [Hc Hs]. cbn [AtText.cut_out].
  destruct skip; [|by apply IH]. destruct (starts_with _ _); [by apply IH|]. constructor; [done|by apply IH].
Qed.

(** A number of decimal digits. *)
Lemma int_digits_decimal s : forall acc fr n, 95 ∉ s -> int_digits acc fr s = Some n -> forallb is_decimal s = true.
Proof.
  induction s as [|c s IH]; intros acc fr n Hu; [done|]. cbn [int_digits forallb]. apply not_elem_of_cons in Hu as [Hc Hu].
  destruct (Z.eqb_spec c 95) as [->|_]; [done|]. cbn [andb]. destruct (decimal_value c) as [d|] eqn:E; [|done]. intros H.
  apply andb_true_iff. split; [|by eapply IH]. unfold is_decimal. rewrite E. by apply bool_decide_eq_true.
Qed.

Lemma piece_short s l n : piece s l -> modest l = true -> 95 ∉ s -> int_digits 0 true s = Some n -> short n.
Proof.
  intros Hp Hl Hu Hn. assert (Hd := int_digits_decimal _ _ _ _ Hu Hn). destruct s as [|c s]; [done|].
  pose proof (modest_digits (c :: s) 0 Hd (modest_piece _ _ Hp Hl) ltac:(done)) as Hlen. exact (digits_short _ _ Hlen Hn).
Qed.

Lemma py_int_short s n : modest s = true -> 95 ∉ s -> py_int s = Some n -> short n.
Proof.
  intros Hm Hu. unfold py_int. pose proof (piece_strip s) as Hp. assert (Hus : 95 ∉ strip s).
  { destruct Hp as (a & b & E). intros H. apply Hu. rewrite E. apply elem_of_app. right. apply elem_of_app. by left. }
  assert (Hd : int_digits 0 true (strip s) = Some n -> short n) by (intros H; by eapply piece_short).
  destruct (strip s) as [|c t] eqn:E; [exact Hd|].
  assert (Ht : piece t s) by (eapply piece_trans; [|exact Hp]; exists [c], []; by rewrite app_nil_r).
  apply not_elem_of_cons in Hus as [_ Hut].
  assert (Hplus : int_digits 0 true t = Some n -> short n) by (intros H; by eapply piece_short).
  assert (Hminus : Z.opp <$> int_digits 0 true t = Some n -> short n).
  { intros H. apply fmap_Some in H as (m & Hm' & ->). unfold short. rewrite Z.abs_opp. by eapply piece_short. }
  destruct c as [|c|c]; try exact Hd. repeat (destruct c as [c|c|]; try exact Hd; try exact Hplus; try exact Hminus).
Qed.

Lemma is_digit_plain s : AtText.is_digit s = true -> 95 ∉ s.
Proof.
  unfold AtText.is_digit. intros [_ H]%andb_true_iff Hin. rewrite forallb_forall in H. apply list_elem_of_In, H in Hin. revert Hin. by vm_compute.
Qed.

Definition opt_short (o : option Z) : Prop := match o with Some n => short n | None => True end.
Lemma opt_short_small o : opt_short o -> opt_small o.
Proof. destruct o; [apply short_small|done]. Qed.

Lemma digit_field_short p o : modest p = true -> Modem.digit_field p = Ok o -> opt_short o.
Proof.
  unfold Modem.digit_field. intros Hm. destruct (AtText.is_digit p) eqn:Ed; [|by intros [= <-]]. destruct (py_int p) as [n|] eqn:En; [|done].
  intros [= <-]. apply (py_int_short p); [done|by apply is_digit_plain|done].
Qed.

Lemma runs_pieces s : forall cur d, forallb is_decimal cur = true -> d ∈ AtText.digit_runs cur s -> piece d (cur ++ s) /\ forallb is_decimal d = true.
Proof.
  induction s as [|c s IH]; intros cur d Hc; cbn [AtText.digit_runs].
  - destruct cur as [|x cur]; [by intros H%elem_of_nil|]. intros ->%list_elem_of_singleton. split; [exists [], []; by rewrite !app_nil_r|done].
  - assert (Hsub : forall cur', piece d s -> piece d (cur' ++ c :: s)) by (intros cur' (a & b & ->); exists (cur' ++ c :: a), b; by rewrite <- app_assoc).
    destruct (is_decimal c) eqn:Ec.
    + intros H. destruct (IH (cur ++ [c]) d) as [H1 H2]; [by rewrite forallb_app, Hc; cbn; rewrite Ec|done|]. rewrite <- app_assoc in H1. by split.
    + assert (Hrest : d ∈ AtText.digit_runs [] s -> piece d (cur ++ c :: s) /\ forallb is_decimal d = true).
      { intros H. destruct (IH [] d eq_refl H) as [H1 H2]. split; [by apply Hsub|done]. }
      destruct cur as [|x cur]; [exact Hrest|]. intros [->|H]%elem_of_cons; [|by apply Hrest]. split; [by exists [], (c :: s)|done].
Qed.

Lemma numbers_small s : modest s = true -> Forall small (AtText.numbers s).
Proof.
  intros Hm. apply Forall_fmap, List.Forall_forall. intros d Hd%list_elem_of_In. unfold compose, AtText.int_of_digits.
  destruct (runs_pieces s [] d eq_refl Hd) as [Hp Hdec]. destruct (int_digits 0 true d) as [n|] eqn:E; [|by vm_compute].
  assert (Hu : 95 ∉ d) by (intros H; rewrite forallb_forall in Hdec; apply list_elem_of_In, Hdec in H; revert H; by vm_compute).
  by eapply short_small, piece_short.
Qed.

(** *** Measurements *)

Lemma part_modest value n : modest value = true -> modest (default [] (Modem.parts_of value !! n)) = true.
Proof.
  intros Hv. destruct (Modem.parts_of value !! n) as [p|] eqn:E; [|done]. apply list_elem_of_lookup_2, list_elem_of_fmap in E as (w & -> & Hw).
  eapply modest_piece; [eapply piece_trans; [apply piece_strip|by eapply split_pieces]|done].
Qed.

(** What a field that cannot be read raises. *)
Lemma digit_field_raises p e : Modem.digit_field p = Err e -> sound_exn e.
Proof. unfold Modem.digit_field. destruct (AtText.is_digit p); [|done]. destruct (py_int p); [done|]. by intros [= <-]. Qed.

Lemma csq_raises x e : Modem.csq_of x = Err e -> sound_exn e.
Proof.
  unfold Modem.csq_of. destruct (first_value _ x) as [[|c v]|]; [done| |done]. intros [E|(r & _ & E)]%bind_err; [by apply digit_field_raises in E|].
  apply bind_err in E as [E|(b & _ & E)]; [|done]. destruct (Modem.parts_of (c :: v) !! 1%nat); [by apply digit_field_raises in E|done].
Qed.

Lemma cesq_raises x e : Modem.cesq_of x = Err e -> sound_exn e.
Proof.
  unfold Modem.cesq_of. destruct (first_value _ x) as [[|c v]|]; [done| |done]. destruct (_ <? _)%nat; [done|].
  intros [E|(r & _ & E)]%bind_err; [by apply digit_field_raises in E|]. apply bind_err in E as [E|(b & _ & E)]; [by apply digit_field_raises in E|done].
Qed.

Lemma csq_short x o : heard_lines (str "AT+CSQ") x -> Modem.csq_of x = Ok o -> opt_short o.1.
Proof.
  intros Hx E. unfold Modem.csq_of in E. destruct (first_value _ x) as [value|] eqn:Ev; [|by injection E as <-].
  apply (first_of _ _ _ _ Hx) in Ev as [_ Hv]. specialize (Hv eq_refl). destruct value as [|c value]; [by injection E as <-|].
  apply bind_ok in E as (r & Er & E). apply bind_ok in E as (b & _ & [= <-]). eapply digit_field_short; [|exact Er]. by apply part_modest.
Qed.

Lemma cesq_short x o : heard_lines (str "AT+CESQ") x -> Modem.cesq_of x = Ok o -> opt_short o.1 /\ opt_short o.2.
Proof.
  intros Hx E. unfold Modem.cesq_of in E. destruct (first_value _ x) as [value|] eqn:Ev; [|by injection E as <-].
  apply (first_of _ _ _ _ Hx) in Ev as [_ Hv]. specialize (Hv eq_refl). destruct value as [|c value]; [by injection E as <-|].
  destruct (_ <? _)%nat; [by injection E as <-|]. apply bind_ok in E as (q & Eq & E). apply bind_ok in E as (p & Ep & [= <-]).
  assert (Hq : opt_short q) by (eapply digit_field_short; [|exact Eq]; by apply part_modest).
  assert (Hp : opt_short p) by (eapply digit_field_short; [|exact Ep]; by apply part_modest).
  assert (Hk : forall o, opt_short o -> opt_short (match o with Some 255 => None | n => n end)).
  { intros [n|] Ho; [|exact I]. destruct (decide (n = 255)) as [->|Hn]; [exact I|]. by repeat case_match. }
  split; by apply Hk.
Qed.

Lemma signal_sound rssi ber rsrp rsrq : opt_short rssi -> opt_short rsrp -> opt_short rsrq -> sound (StatusFilter.mkSignal rssi ber rsrp rsrq).
Proof.
  intros H1 H2 H3. unfold sound, sound_signal. repeat apply Forall_cons_2; try (by apply opt_short_small); try by apply Forall_nil_2.
  - unfold StatusFilter.dbm. cbn [StatusFilter.rssi]. destruct rssi as [r|]; [|exact I]. cbn [mbind option_bind]. destruct (Z.leb_spec 99 r); [exact I|].
    cbn in H1. unfold short in H1. unfold opt_small, small, Fleet.fits_int64. change (10 ^ 18) with 1000000000000000000 in H1. change (2 ^ 63) with 9223372036854775808. lia.
  - unfold StatusFilter.bars. destruct (StatusFilter.dbm _); [|by vm_compute]. repeat case_match; by vm_compute.
Qed.

#[export] Instance signal_honest : Honest Modem.read_signal.
Proof.
  unfold Honest, Modem.read_signal, Modem.answer. honest_step.
  assert (Hnone : forall x, opt_short x -> sound (StatusFilter.mkSignal x None None None)) by (intros x Hx; by apply signal_sound).
  apply honest_except_at; [|intros e _; cbn; by apply Hnone]. honest_step. apply honest_execute. intros x Hx. cbn [honest].
  destruct (Modem.csq_of x) as [csq|e] eqn:Ec; [|exact (csq_raises _ _ Ec)].
  honest_step. cbn [of_res honest]. honest_step. apply (csq_short _ _ Hx) in Ec. apply honest_except_at; [|intros e _; cbn; by apply signal_sound].
  honest_step. apply honest_execute. intros y Hy. cbn [honest].
  destruct (Modem.cesq_of y) as [cesq|e] eqn:Ee; honest_step; cbn [of_res honest]; [|exact (cesq_raises _ _ Ee)].
  apply (cesq_short _ _ Hy) in Ee as [E1 E2]. by apply signal_sound.
Qed.

#[export] Instance voltage_honest : Honest Modem.read_voltage.
Proof.
  unfold Honest, Modem.read_voltage. apply honest_except_at; [|by intros e _]. honest_step. apply honest_execute. intros x _. cbn [honest].
  unfold sound, sound_reading, Modem.voltage_of. destruct (first_value _ x) as [v|]; [|exact I]. cbn [mbind option_bind].
  destruct (match AtText.numbers v with [] => _ | _ => _ end) as [n|]; [|exact I]. cbn [mbind option_bind]. destruct (_ && _) eqn:E; [|exact I].
  unfold Modem.VOLTAGE_PLAUSIBLE_MV in E. cbn in E. unfold opt_small, small, Fleet.fits_int64. change (2 ^ 63) with 9223372036854775808. lia.
Qed.

#[export] Instance storage_honest : Honest Inbox.storage_usage.
Proof.
  unfold Honest, Inbox.storage_usage, Modem.answer. honest_step. apply honest_except_at; [|intros e _; by vm_compute].
  honest_step. apply honest_execute. intros x Hx. cbn [honest]. destruct (first_default (str "+CPMS:") _ _ Hx) as [_ Hm]. specialize (Hm eq_refl).
  apply numbers_small in Hm. destruct (AtText.numbers _) as [|u [|c ns]]; [by vm_compute..|]. rewrite !Forall_cons in Hm. split; apply Hm.
Qed.

(** *** Setup, radio, operators *)

Lemma honest_quiet (P : option pystr -> Prop) cmd : (forall o, plain (default [] o) -> P o) -> honest P (Modem.quiet cmd).
Proof.
  intros HP. unfold Modem.quiet. apply honest_except_at; [|intros e _; apply HP; constructor]. honest_step. apply honest_execute. intros x Hx. cbn [honest].
  apply HP. unfold heard_lines in Hx. destruct (lines x) as [|l ls]; [constructor|]. exact (proj1 (Forall_inv Hx)).
Qed.

Lemma honest_optional (P : unit -> Prop) cmd : P tt -> honest P (Modem.optional cmd).
Proof. intros HP. unfold Modem.optional. honest. Qed.

Lemma iccid_plain o : plain (default [] o) -> plain (Modem.iccid_of o).
Proof.
  intros Ho. unfold Modem.iccid_of. destruct o as [[|c v]|]; [constructor| |constructor]. eapply piece_plain; [apply piece_strip|]. by apply cut_plain.
Qed.

Lemma honest_read_info : honest sound Modem.read_info.
Proof.
  unfold Modem.read_info. do 8 (honest_step; apply honest_quiet; intros ? ?). honest_step.
  match goal with |- honest _ (match ?o with Some _ => _ | None => _ end) => set (cops := o) in * end.
  apply (honest_mono plain).
  - intros op Hop. honest_step. apply honest_radio. intros radio. honest_step. apply (honest_mono (fun _ => True)).
    + intros [[[eps cs] roaming] [attached pdp]] _. honest_step. apply honest_ims. intros ims. cbn [honest].
      unfold sound, sound_info. cbn [operator iccid imei model hardware_model firmware smsc forallb]. rewrite !andb_true_iff, <- !plain_encodable.
      split_and!; try done; [by apply iccid_plain|].
      destruct (_ ≫= AtText.quoted) as [q|] eqn:Eq; [|constructor]. apply bind_Some in Eq as (l & -> & Eq). cbn [default] in *. by apply (quoted_plain l).
    + destruct (bool_decide _); [exact I|]. honest_step. apply honest_details. intros net. honest_step. apply honest_status. intros data. exact I.
  - destruct cops as [[|c v]|] eqn:Ec; [constructor| |constructor]. honest_step. apply honest_put; [intros d; by apply sane_same|]. cbn [honest].
    by apply operator_plain.
Qed.

#[export] Instance initialize_honest storage : Honest (Modem.initialize storage).
Proof.
  unfold Honest, Modem.initialize. do 4 (honest_step; honest_step). honest_step. apply honest_optional. honest_step. honest_step.
  do 4 (honest_step; apply honest_optional). honest_step. eapply honest_mono; [|exact honest_read_info]. intros i Hi. honest.
Qed.

#[export] Instance set_radio_honest b : Honest (Modem.set_radio_enabled b).
Proof.
  unfold Honest, Modem.set_radio_enabled. do 4 honest_step. honest_step. apply (honest_mono (fun _ => True)); [intros _ _; honest; exact I|].
  destruct b; [|honest; exact I]. honest_step. apply honest_registration. intros b. do 3 honest_step. apply honest_ims. intros ims. by honest_step.
Qed.

Lemma honest_allowed (P : bool -> Prop) : (forall b, P b) -> honest P Modem.automatic_recovery_allowed.
Proof.
  intros HP. unfold Modem.automatic_recovery_allowed. honest_step. apply honest_radio. intros radio. honest.
Qed.
Lemma honest_keep (P : bool -> Prop) : (forall b, P b) -> honest P Modem.read_and_keep.
Proof. intros HP. unfold Modem.read_and_keep. honest_step. apply honest_registration. intros b. honest. Qed.

#[export] Instance reselect_honest : Honest Modem.reselect_operator.
Proof.
  unfold Honest, Modem.reselect_operator. honest_step. apply honest_allowed. intros ok. honest_step; [exact I|]. honest_step. honest; by apply honest_keep.
Qed.
#[export] Instance cycle_honest : Honest Modem.cycle_radio.
Proof.
  unfold Honest, Modem.cycle_radio. honest_step. apply honest_allowed. intros ok. honest_step; [exact I|]. honest_step.
  apply (honest_mono (fun _ => True)); [|honest; exact I]. intros cycled _. honest_step. honest; by apply honest_keep.
Qed.
#[export] Instance reset_honest : Honest Modem.reset.
Proof. unfold Honest, Modem.reset. honest; exact I. Qed.

Lemma honest_await (P : bool -> Prop) timeout interval : (forall b, P b) -> honest P (Modem.await_registration timeout interval).
Proof.
  intros HP. unfold Modem.await_registration. honest_step. honest_step. generalize (Z.to_nat (timeout / interval) + 2)%nat as fuel.
  induction fuel as [|fuel IH]; [exact I|]. cbn [Modem.await_loop]. honest_step. apply honest_registration. intros b. honest_step; [apply HP|].
  do 2 honest_step. cbv zeta. honest_step; [apply HP|]. do 2 honest_step. exact IH.
Qed.

#[export] Instance select_honest numeric : Honest (Modem.select_operator numeric).
Proof.
  unfold Honest, Modem.select_operator. honest_step; [exact I|]. do 2 honest_step. honest_step. apply honest_await. intros settled.
  honest_step. unfold Modem.read_current_operator. do 2 honest_step. match goal with H : heard_lines (str "AT+COPS?") ?x |- _ => rename H into Hx; rename x into r end.
  do 2 honest_step. do 3 honest_step. unfold sound, sound_operator. cbn [fst]. apply plain_encodable, operator_plain.
  by destruct (first_default (str "+COPS:") _ _ Hx).
Qed.
#[export] Instance scan_honest : Honest Modem.scan_operators.
Proof. unfold Honest, Modem.scan_operators. honest; exact I. Qed.
#[export] Instance diagnostics_honest : Honest Modem.read_network_diagnostics.
Proof.
  unfold Honest, Modem.read_network_diagnostics. assert (H : forall l (P : _ -> Prop), (forall x, P x) -> honest P (Modem.read_sections l)).
  { induction l as [|[key c] l IH]; intros P HP; cbn [Modem.read_sections]; [apply HP|]. honest_step. apply (honest_mono (fun _ => True)).
    - intros x _. honest_step. apply IH. intros xs. apply HP.
    - honest; exact I. }
  by apply H.
Qed.

(** *** Calls *)

#[export] Instance ping_honest host : Honest (Calls.ping host).
Proof. unfold Honest, Calls.ping. honest; exact I. Qed.

Lemma states_raise x e : Calls.states_in x = Err e -> sound_exn e.
Proof.
  unfold Calls.states_in. generalize (all_values (str "+CLCC:") x). intros l. induction l as [|v l IH]; cbn [Calls.states_from]; [done|].
  intros [E|(s & _ & E)]%bind_err; [destruct (AtText.csv_fields v !! 2%nat); [by apply digit_field_raises in E|done]|].
  by apply bind_err in E as [E|(? & _ & E)]; [apply IH|].
Qed.

Lemma honest_watch (P : list Z -> Prop) started ring : (forall l, P l) -> honest P (Calls.watch_call started ring).
Proof.
  intros HP. unfold Calls.watch_call. generalize (Calls.poll_interval ring) as interval.
  intros interval. generalize (Z.to_nat (Z.max 0 ring / interval) + 2)%nat as fuel, (@nil Z) as seen. induction fuel as [|fuel IH]; intros seen; [exact I|]. cbn [Calls.watch_loop]. unfold Modem.answer. honest_step.
  apply honest_except_at; [|intros e _; apply HP]. honest_step. apply honest_execute. intros x _. cbn [honest]. honest_step.
  destruct (Calls.states_in x) as [listed|e] eqn:E; cbn [of_res honest]; [|by eapply states_raise]. cbv zeta. honest_step; [apply HP|].
  do 2 honest_step. honest_step; [apply HP|]. do 2 honest_step. apply IH.
Qed.

Lemma progress_plain f p : Calls.progress_of f = Some p -> plain f.
Proof.
  unfold Calls.progress_of, Calls.CALL_PROGRESS_OUTCOMES. cbn [List.find fst snd]. repeat (case_bool_decide as E; [intros _; rewrite E; apply plain_str|clear E]). done.
Qed.

#[export] Instance keepalive_honest number ring : Honest (Calls.call_keepalive number ring).
Proof.
  unfold Honest, Calls.call_keepalive. honest_step; [exact I|]. do 3 honest_step. apply (honest_mono (fun o => match o with Some x => plain x.2 | None => True end)).
  - intros ended He. honest_step. apply (honest_mono (fun r => plain r.1.2)).
    + intros [[[o b] text] seen] Ht. do 2 honest_step. cbn [honest]. unfold sound, sound_result. cbn [Calls.detail]. by apply plain_encodable.
    + destruct ended as [[[o b] final]|].
      * cbn [honest fst snd]. destruct (bool_decide _); [|exact He]. apply plain_app. split; [exact He|apply plain_str].
      * honest_step. apply honest_finally; [|unfold Calls.hangup; honest; exact I]. apply honest_watch. intros seen. cbn [honest fst snd].
        unfold Calls.judge. repeat case_bool_decide; cbn [snd]; first [apply plain_str | constructor].
  - unfold Calls.dial. apply honest_except_at; [honest; exact I|]. intros e He. destruct e as [n|n|m|m|m|m]; try exact He.
    destruct (Calls.progress_of (final_of m)) as [[o b]|] eqn:E; [|exact He]. cbn [honest snd]. by eapply progress_plain.
Qed.

(** *** The message store *)

Lemma honest_decode (P : option DecodedSms -> Prop) p : (forall o, (forall sms : DecodedSms, o = Some sms -> sound sms) -> P o) -> honest P (Inbox.decode p).
Proof.
  intros HP. unfold Inbox.decode. destruct (decode_pdu p) as [sms|[f| |]] eqn:E; try exact I; cbn [honest]; apply HP; [|done].
  intros sms' [= <-]. by eapply decoded_sound.
Qed.

Lemma honest_push (P : option DecodedSms -> Prop) sms : sound sms -> (forall o, (forall m : DecodedSms, o = Some m -> sound m) -> P o) -> honest P (Inbox.push sms).
Proof.
  intros Hs HP. unfold Inbox.push. do 2 honest_step. honest_step. honest_step. destruct (Reassembly.push _ sms (reassembler d)) as [[o r']|e] eqn:E; [|exact I].
  apply push_sane in E as [Hr Ho]; [|done|by apply sane_parts]. honest_step. apply honest_put; [|by apply HP].
  intros d' [_ Hc]. split; [exact Hr|exact Hc].
Qed.

Lemma honest_flush (P : list DecodedSms -> Prop) : (forall l, Forall sound l -> P l) -> honest P Inbox.flush_expired.
Proof.
  intros HP. unfold Inbox.flush_expired. do 2 honest_step. honest_step. honest_step. destruct (Reassembly.flush_expired _ (reassembler d)) as [[o r']|e] eqn:E; [|exact I].
  apply flush_sane in E as [Hr Ho]; [|by apply sane_parts]. honest_step. apply honest_put; [|by apply HP].
  intros d' [_ Hc]. split; [exact Hr|exact Hc].
Qed.

Lemma honest_emit (P : unit -> Prop) b sms : sound sms -> P tt -> honest P (Inbox.emit b sms).
Proof. intros Hs HP. unfold Inbox.emit. destruct b; [by apply honest_hand|exact HP]. Qed.
Lemma honest_emit_all (P : unit -> Prop) b l : Forall sound l -> P tt -> honest P (Inbox.emit_all b l).
Proof. intros Hl HP. induction Hl as [|sms l Hs _ IH]; cbn [Inbox.emit_all]; [exact HP|]. honest_step. by apply honest_emit. Qed.
Lemma honest_release (P : unit -> Prop) b n : P tt -> honest P (Inbox.release b n).
Proof. intros HP. unfold Inbox.release, Inbox.delete_stored. destruct b; [|exact HP]. honest. Qed.

#[export] Instance drain_honest b b' : Honest (Inbox.drain_inbox b b').
Proof.
  unfold Honest, Inbox.drain_inbox, Inbox.list_stored. honest_step. do 2 honest_step. cbn [honest]. honest_step.
  assert (Hslots : forall slots collected (P : list DecodedSms -> Prop), Forall sound collected -> (forall l, Forall sound l -> P l) -> honest P (Inbox.drain_slots b slots collected)).
  { induction slots as [|s slots IH]; intros collected P Hc HP; cbn [Inbox.drain_slots]; [by apply HP|].
    honest_step. apply honest_decode. intros o Ho. honest_step. apply (honest_mono (fun o => forall m : DecodedSms, o = Some m -> sound m)).
    - intros o' Ho'. honest_step. apply honest_release. apply IH; [|done]. apply Forall_app_2; [done|]. destruct o' as [m|]; [|constructor].
      constructor; [by apply Ho'|constructor].
    - destruct o as [sms|]; [|done]. apply honest_push; [by apply Ho|done]. }
  apply Hslots; [constructor|]. intros collected Hc. honest_step. apply honest_flush. intros late Hl. honest_step.
  assert (Forall sound (collected ++ late)) by by apply Forall_app_2. by apply honest_emit_all.
Qed.

Lemma submit_count addr g srr vp ref total : forall segments index parts, submit_loop addr g srr vp ref total index segments = Ok parts ->
  length parts = length segments /\ (segments <> [] -> 1 < total -> is_byte total).
Proof.
  induction segments as [|s segments IH]; intros index parts; cbn [submit_loop]; [intros [= <-]; split; [done|by intros []]|].
  intros E. apply bind_ok in E as (tpdu & Et & E). apply bind_ok in E as (tl & E & [= <-]). apply IH in E as [Hl _]. split; [cbn; by rewrite Hl|].
  intros _ Ht. unfold submit_tpdu in Et. apply bind_ok in Et as (udh & Eu & _). unfold udh_for in Eu. rewrite (proj2 (Z.ltb_lt 1 total) Ht) in Eu.
  unfold build_udh, to_bytes in Eu. destruct (forallb byte_ok _) eqn:Eb; [|done]. cbn [forallb] in Eb. rewrite !andb_true_iff in Eb. apply byte_ok_spec. tauto.
Qed.

Lemma encoded_few number text draw a b c d parts : encode_submit number text a draw b c d = Ok parts -> small (Z.of_nat (length parts)).
Proof.
  unfold encode_submit. cbv zeta. intros E. apply bind_ok in E as (addr & _ & E). apply bind_ok in E as (segments & _ & E).
  apply submit_count in E as [-> Hb]. destruct segments as [|s [|s' l]]; [by vm_compute..|]. apply byte_small, Hb; [done|]. cbn [length]. lia.
Qed.

Lemma measured_send p : measured (Inbox.send_command p) = true.
Proof. unfold measured, Inbox.send_command, starts_with. apply orb_true_iff. right. apply bool_decide_eq_true. by rewrite take_app_length. Qed.

Lemma reference_small cmd x n : measured cmd = true -> heard_lines cmd x -> Inbox.reference_of x = Ok n -> small n.
Proof.
  intros Hm Hx. unfold Inbox.reference_of. destruct (first_value _ x) as [[|c v]|] eqn:Ev; [by intros [= <-]| |by intros [= <-]].
  apply (first_of _ _ _ _ Hx) in Ev as [_ Hv]. destruct (AtText.is_digit _) eqn:Ed; [|by intros [= <-]].
  destruct (py_int _) as [m|] eqn:En; [|done]. intros [= <-]. eapply short_small, py_int_short; [by apply Hv|by apply is_digit_plain|exact En].
Qed.

#[export] Instance send_honest draw number text : Honest (Inbox.send_sms draw number text).
Proof.
  unfold Honest, Inbox.send_sms. destruct (encode_submit _ _ _ _ _ _ _) as [parts|e] eqn:E; [|exact I]. apply encoded_few in E.
  eapply (honest_mono (fun ns => Forall small ns /\ length ns = length parts)); [intros ns [H1 H2]; split; [exact H1|by rewrite H2]|]. clear E.
  induction parts as [|p parts IH]; cbn [Inbox.send_parts]; [by split|]. honest_step. apply honest_payload. intros x Hx. honest_step.
  destruct (Inbox.reference_of x) as [n|e] eqn:En; cbn [of_res honest].
  - apply (reference_small _ _ _ (measured_send p) Hx) in En. honest_step. eapply honest_mono; [|exact IH]. intros ns [H1 H2]. cbn [honest]. split; [by constructor|cbn; by rewrite H2].
  - unfold Inbox.reference_of in En. by repeat (case_match; simplify_eq/=).
Qed.

(** *** The tasks that hand on *)

Lemma honest_complete (P : unit -> Prop) b o : (forall m : DecodedSms, o = Some m -> sound m) -> P tt -> honest P (Inbox.emit_complete b o).
Proof. intros Ho HP. unfold Inbox.emit_complete. destruct o as [m|]; [|exact HP]. apply honest_emit; [by apply Ho|exact HP]. Qed.

Lemma honest_ask (P : option (option Z * pystr) -> Prop) n : (forall a, P a) -> honest P (Inbox.ask n).
Proof. intros HP. unfold Inbox.ask. honest. Qed.

Lemma honest_stored (P : option pystr -> Prop) n : (forall a, P a) -> honest P (Inbox.read_stored n).
Proof.
  intros HP. unfold Inbox.read_stored, Inbox.read_again. honest_step. apply honest_ask. intros [[declared p]|]; [|apply HP]. honest_step; [apply HP|].
  do 2 honest_step. apply honest_ask. intros r. apply HP.
Qed.

Lemma honest_dump (P : unit -> Prop) : P tt -> honest P Inbox.diag_dump_store.
Proof. intros HP. unfold Inbox.diag_dump_store. apply honest_catch; [honest|]. intros [] He; try exact HP; exact I. Qed.

(** A frame on its way through the decoder and the reassembler. *)
Lemma honest_frame (P : unit -> Prop) (p : pystr) (none : prog unit) (some : option DecodedSms -> prog unit) :
  honest P none -> (forall o, (forall m : DecodedSms, o = Some m -> sound m) -> honest P (some o)) ->
  honest P (bind (Inbox.decode p) (fun o => match o with None => none | Some sms => bind (Inbox.push sms) some end)).
Proof.
  intros Hn Hs. honest_step. apply honest_decode. intros [sms|] Ho; [|exact Hn]. honest_step. apply honest_push; [by apply Ho|exact Hs].
Qed.

Lemma honest_index b b' : honest (fun _ => True) (Inbox.index_turn b b').
Proof.
  unfold Inbox.index_turn. do 2 honest_step. honest_step; [exact I|]. do 2 honest_step. apply honest_catch; [|by intros [] He].
  unfold Inbox.fetch_index. honest_step. apply honest_stored. intros [p|]; [|exact I]. honest_step. apply honest_dump.
  apply honest_frame; [by apply honest_release|]. intros o Ho. honest_step. apply honest_release. by apply honest_complete.
Qed.

Lemma honest_flushing b : honest (fun _ => True) (Inbox.flush_turn b).
Proof. unfold Inbox.flush_turn. do 2 honest_step. honest_step. apply honest_flush. intros l Hl. by apply honest_emit_all. Qed.

Lemma honest_cmt b u : honest (fun _ => True) (Inbox.on_cmt b u).
Proof.
  unfold Inbox.on_cmt. destruct (u_payload u) as [|p ps]; [exact I|]. apply honest_frame; [exact I|]. intros o Ho. by apply honest_complete.
Qed.

Lemma honest_cds b u : honest (fun _ => True) (Inbox.on_cds b u).
Proof.
  unfold Inbox.on_cds. destruct (u_payload u) as [|p ps]; [exact I|]. destruct (decode_status_report p) as [r|[f| |]] eqn:E; try exact I.
  destruct b; [|exact I]. apply honest_hand; [by eapply report_sound|exact I].
Qed.

Lemma honest_report b : honest (fun _ => True) (Calls.report_call b).
Proof.
  unfold Calls.report_call. honest_step. apply (honest_mono (fun _ => True)).
  - intros awake _. honest_step; [exact I|]. honest_step. honest_step. match goal with H : sane ?d |- _ => pose proof (sane_call _ H) as Hc; generalize dependent (ring_call d) end.
    intros call Hc. honest_step. apply honest_put; [intros d' [H1 _]; by split|]. destruct call as [c|]; [|exact I]. destruct b; [|exact I].
    apply honest_catch; [apply honest_hand; [by apply Hc|exact I]|by intros [] He].
  - apply honest_catch; [honest; exact I|]. by intros [] He.
Qed.

(** ** What the worker sees *)

(** A result some run of the program ends with, and what some run of a task
    of the driver hands on. *)
Definition possible {B} (p : prog B) (r : res Driver.exn B) : Prop :=
  exists script d c, Forall fair script /\ sane d /\ Forall heard_event (run p script [] d c).1.1.1 /\ (run p script [] d c).2 = Done r.

Inductive receiver : prog unit -> Prop :=
| r_index delete on_sms : receiver (Inbox.index_turn delete on_sms)
| r_flush on_sms : receiver (Inbox.flush_turn on_sms)
| r_drain delete on_sms : receiver (bind (Inbox.drain_inbox delete on_sms) (fun _ => Ret tt))
| r_cmt on_sms u : receiver (Inbox.on_cmt on_sms u)
| r_cds on_delivery u : receiver (Inbox.on_cds on_delivery u)
| r_call on_call : receiver (Calls.report_call on_call).

Definition handed_on (u : upward) : Prop :=
  exists p script d c r, receiver p /\ Forall fair script /\ sane d /\ Forall heard_event (run p script [] d c).1.1.1
    /\ Handed u r ∈ (run p script [] d c).1.1.1.

Lemma possible_sound {B} `{Sound B} (p : prog B) `{!Honest p} (r : res Driver.exn B) : possible p r -> sound r.
Proof.
  intros (script & d & c & Hf & Hd & Hh & E). destruct (honest_run sound p script d c (honest_sound (p := p)) Hf Hd Hh) as (_ & _ & Hr). rewrite E in Hr.
  destruct r as [b|[e| | | | |]]; try exact I; [exact Hr|]. by apply plain_encodable.
Qed.

Lemma handed_on_sound u : handed_on u -> handed_ok u.
Proof.
  intros (p & script & d & c & r & Hp & Hf & Hd & Hh & Hin). assert (H : honest (fun _ => True) p).
  { destruct Hp; [apply honest_index|apply honest_flushing| |apply honest_cmt|apply honest_cds|apply honest_report].
    apply honest_bind. eapply honest_mono; [|apply (honest_sound (p := Inbox.drain_inbox _ _))]. done. }
  destruct (honest_run _ p script d c H Hf Hd Hh) as (Ho & _). rewrite Forall_forall in Ho. exact (Ho _ Hin).
Qed.

(** The shared state at the start. *)
Lemma new_sane timeout : sane (new_driver timeout).
Proof. split; [|done]. intros k p H. by apply elem_of_nil in H. Qed.
End Heard.
