(* ===== verification/Device.v ===== *)
(** * The worker of one module (agent/src/air780e_agent/worker.py)

    [_connect], [_serve], the status sample and the operator's commands, as tasks
    that share the worker's state.  A task is a sequence of segments of the
    worker's own code; between them it awaits a program of the driver (Modem.v,
    Inbox.v, Calls.v), a clock or the port.  The parts are those of Worker.v (the
    recovery state machine, the packet-data policy, the status filter) and
    Events.v (what is queued for the server).  Every interleaving of the tasks is
    a run of the step relation at the end of the file. *)

From S2P Require Import Prelude PyText Json PyDict AtErrors AtText Codec Driver Modem Inbox Calls Worker Fleet Ingest Handlers Events Heard.
From Stdlib Require Import Floats.SpecFloat.

Module Device.
Import Events.
Import (hints) Heard.

(** ** State *)

(** [_port], [_stopped], the two stored policies, the recovery fields and the
    memory of the last status; [worker] is what Events.v works on. *)
Record device := mkDevice {
  worker : Events.worker; port : pystr; stopped : bool; policies : DataPolicy.policies;
  recovery : Recovery.recovery; filter : StatusFilter.filter_state }.

Definition set_worker (w : Events.worker) (d : device) : device := mkDevice w (port d) (stopped d) (policies d) (recovery d) (filter d).
Definition set_port (p : pystr) (d : device) : device := mkDevice (worker d) p (stopped d) (policies d) (recovery d) (filter d).
Definition set_stopped (d : device) : device := mkDevice (worker d) (port d) true (policies d) (recovery d) (filter d).
Definition set_policies (p : DataPolicy.policies) (d : device) : device := mkDevice (worker d) (port d) (stopped d) p (recovery d) (filter d).
Definition set_recovery (r : Recovery.recovery) (d : device) : device := mkDevice (worker d) (port d) (stopped d) (policies d) r (filter d).
Definition set_filter (f : StatusFilter.filter_state) (d : device) : device := mkDevice (worker d) (port d) (stopped d) (policies d) (recovery d) f.

Abbreviation DeviceState := StatusFilter.DeviceState (only parsing).
Definition st (d : device) : DeviceState := state (worker d).
Definition on_state (f : DeviceState -> DeviceState) (d : device) : device := set_worker (set_state (f (st d)) (worker d)) d.

(** *** Fields of [DeviceState] that are set together *)

Section Setters.
Import StatusFilter.

Definition set_data (x : DataPolicy.data_state) (s : DeviceState) : DeviceState :=
  mkState (DataPolicy.online x) (DataPolicy.registered x) (radio_enabled s) (operator s) (iccid s) (imei s) (model s) (hardware_model s)
    (firmware s) (smsc s) (eps_registered s) (cs_registered s) (ims_registered s) (DataPolicy.data_enabled x)
    (DataPolicy.data_attached x) (DataPolicy.pdp_active x) (DataPolicy.roaming x) (DataPolicy.roaming_data_allowed x)
    (DataPolicy.data_blocked_by_roaming x) (signal s) (storage_used s) (storage_capacity s) (voltage_mv s).
Definition data_of (s : DeviceState) : DataPolicy.data_state :=
  DataPolicy.mkData (data_enabled s) (data_attached s) (pdp_active s) (roaming s) (roaming_data_allowed s) (data_blocked_by_roaming s)
    (registered s) (online s).
Definition on_data (f : DataPolicy.data_state -> DataPolicy.data_state) (s : DeviceState) : DeviceState := set_data (f (data_of s)) s.

Definition set_network (reg : bool) (eps cs : option bool) (s : DeviceState) : DeviceState :=
  mkState (online s) reg (radio_enabled s) (operator s) (iccid s) (imei s) (model s) (hardware_model s) (firmware s) (smsc s)
    eps cs (ims_registered s) (data_enabled s) (data_attached s) (pdp_active s) (roaming s) (roaming_data_allowed s)
    (data_blocked_by_roaming s) (signal s) (storage_used s) (storage_capacity s) (voltage_mv s).
Definition set_roaming (r : option bool) (s : DeviceState) : DeviceState :=
  mkState (online s) (registered s) (radio_enabled s) (operator s) (iccid s) (imei s) (model s) (hardware_model s) (firmware s) (smsc s)
    (eps_registered s) (cs_registered s) (ims_registered s) (data_enabled s) (data_attached s) (pdp_active s) r (roaming_data_allowed s)
    (data_blocked_by_roaming s) (signal s) (storage_used s) (storage_capacity s) (voltage_mv s).
Definition set_ims (v : option bool) (s : DeviceState) : DeviceState :=
  mkState (online s) (registered s) (radio_enabled s) (operator s) (iccid s) (imei s) (model s) (hardware_model s) (firmware s) (smsc s)
    (eps_registered s) (cs_registered s) v (data_enabled s) (data_attached s) (pdp_active s) (roaming s) (roaming_data_allowed s)
    (data_blocked_by_roaming s) (signal s) (storage_used s) (storage_capacity s) (voltage_mv s).
Definition set_radio (v : option bool) (s : DeviceState) : DeviceState :=
  mkState (online s) (registered s) v (operator s) (iccid s) (imei s) (model s) (hardware_model s) (firmware s) (smsc s)
    (eps_registered s) (cs_registered s) (ims_registered s) (data_enabled s) (data_attached s) (pdp_active s) (roaming s)
    (roaming_data_allowed s) (data_blocked_by_roaming s) (signal s) (storage_used s) (storage_capacity s) (voltage_mv s).
Definition set_operator (o : pystr) (s : DeviceState) : DeviceState :=
  mkState (online s) (registered s) (radio_enabled s) o (iccid s) (imei s) (model s) (hardware_model s) (firmware s) (smsc s)
    (eps_registered s) (cs_registered s) (ims_registered s) (data_enabled s) (data_attached s) (pdp_active s) (roaming s)
    (roaming_data_allowed s) (data_blocked_by_roaming s) (signal s) (storage_used s) (storage_capacity s) (voltage_mv s).
Definition set_readings (sig : Signal) (v : option Z) (used_capacity : Z * Z) (s : DeviceState) : DeviceState :=
  mkState (online s) (registered s) (radio_enabled s) (operator s) (iccid s) (imei s) (model s) (hardware_model s) (firmware s) (smsc s)
    (eps_registered s) (cs_registered s) (ims_registered s) (data_enabled s) (data_attached s) (pdp_active s) (roaming s)
    (roaming_data_allowed s) (data_blocked_by_roaming s) sig used_capacity.1 used_capacity.2 v.
Definition set_signal (x : Signal) (s : DeviceState) : DeviceState := set_readings x (voltage_mv s) (storage_used s, storage_capacity s) s.
Definition set_voltage (v : option Z) (s : DeviceState) : DeviceState := set_readings (signal s) v (storage_used s, storage_capacity s) s.
Definition set_storage (x : Z * Z) (s : DeviceState) : DeviceState := set_readings (signal s) (voltage_mv s) x s.

(** What [_connect] copies from the driver's [info]. *)
Definition of_info (i : Driver.ModemInfo) (s : DeviceState) : DeviceState :=
  mkState true (Driver.registered i) (Driver.radio_enabled i) (Driver.operator i) (Driver.iccid i) (Driver.imei i) (Driver.model i)
    (Driver.hardware_model i) (Driver.firmware i) (Driver.smsc i) (Driver.eps_registered i) (Driver.cs_registered i)
    (Driver.ims_registered i) (data_enabled s) (Driver.data_attached i) (Driver.pdp_active i) (Driver.roaming i) (roaming_data_allowed s)
    (data_blocked_by_roaming s) (signal s) (storage_used s) (storage_capacity s) (voltage_mv s).

Definition no_signal : Signal := mkSignal None None None None.
Definition no_state : DeviceState :=
  mkState false false None [] [] [] [] [] [] [] None None None false None None None false false no_signal 0 0 None.
End Setters.

(** ** Tasks *)

(** What a segment reads of the clocks: [_now], [store.utcnow], [_clock] and the
    event loop's. *)
Record clock := mkClock { stamp : pystr; utc : pystr; wall : Z; loop : Z }.

Inductive exn :=
| Worker (e : Events.exn)
| DeviceRecoveryReconnect (reason : pystr)
| PortLost (e : at_error)            (* what [wait_lost] returned *)
| PortFailed (reason : pystr).       (* [registry.acquire] or [client.open] *)

(** [Act] is a segment that neither awaits nor reads a clock; [Drive] one that
    reads and writes the driver's fields; [Lost] asks whether the port has died,
    and why; [Open] ends with the port that was opened. *)
Inductive task (A : Type) : Type :=
| Done (r : res exn A)
| Await {B : Type} (p : Driver.prog B) (k : res Driver.exn B -> task A)
| Act {B : Type} (m : device -> res exn B * device) (k : res exn B -> task A)
| Drive (f : Driver.driver -> Driver.driver) (k : Driver.driver -> task A)
| Clock (k : clock -> task A)
| Lost (k : option at_error -> task A)
| Open (k : res exn pystr -> task A)
| Stuck.                             (* the fuel of a loop ran out *)
Arguments Done {A} r.
Arguments Await {A B} p k.
Arguments Act {A B} m k.
Arguments Drive {A} f k.
Arguments Clock {A} k.
Arguments Lost {A} k.
Arguments Open {A} k.
Arguments Stuck {A}.

(** [try: t; except Exception as e: h(e)], and the value handed on. *)
Fixpoint handle {A C} (t : task A) (h : res exn A -> task C) : task C :=
  match t with
  | Done r => h r
  | Await p k => Await p (fun r => handle (k r) h)
  | Act m k => Act m (fun r => handle (k r) h)
  | Drive f k => Drive f (fun d => handle (k d) h)
  | Clock k => Clock (fun c => handle (k c) h)
  | Lost k => Lost (fun o => handle (k o) h)
  | Open k => Open (fun r => handle (k r) h)
  | Stuck => Stuck
  end.

Definition pass {A B} (k : A -> task B) (r : res exn A) : task B := match r with Ok a => k a | Err e => Done (Err e) end.
Definition bind {A B} (t : task A) (k : A -> task B) : task B := handle t (pass k).
Definition ret {A} (a : A) : task A := Done (Ok a).
Definition raise {A} (e : exn) : task A := Done (Err e).

Notation "x <~ m ;; k" := (bind m (fun x => k)) (at level 63, m at next level, right associativity) : hub_scope.
Notation "m ;~ k" := (bind m (fun _ => k)) (at level 63, right associativity) : hub_scope.

(** An exception of the driver that nobody on the way catches. *)
Definition from_driver {B} (r : res Driver.exn B) : task B :=
  match r with Ok b => ret b | Err e => raise (Worker (DriverFailed e)) end.
Definition await {B} (p : Driver.prog B) : task B := Await p from_driver.
(** The result itself, for a caller that looks at it. *)
Definition ended {B} (p : Driver.prog B) : task (res Driver.exn B) := Await p ret.

Definition modify (f : device -> device) : task unit := Act (fun d => (Ok tt, f d)) Done.
Definition look {B} (f : device -> B) : task B := Act (fun d => (Ok (f d), d)) Done.
Definition clocks : task clock := Clock ret.
Definition modem_info : task Driver.ModemInfo := Drive id (fun d => ret (Driver.info d)).
Definition selection_mode : task (option Z) := Drive id (fun d => ret (Driver.selection_mode d)).

(** A segment of Events.v. *)
Definition perform {B} (m : Events.act B) : task B :=
  Act (fun d => let '(r, w) := m (worker d) in (match r with Ok b => Ok b | Err e => Err (Worker e) end, set_worker w d)) Done.

(** ** Logging a recovery *)

Section Names.
Import Recovery.

Definition action_name (a : action) : pystr :=
  str match a with
      | OperatorReselect => "operator_reselect" | RadioCycle => "radio_cycle" | ModuleReset => "module_reset"
      | SerialReconnect => "serial_reconnect" | RegistrationRecovery => "registration_recovery"
      | RegistrationWatch => "registration_watch"
      end.

Definition outcome_name (o : outcome) : pystr :=
  str match o with
      | Started => "started" | Succeeded => "succeeded" | Cancelled => "cancelled" | Failed => "failed" | Exhausted => "exhausted"
      end.

(** The [_log_event] of [_start_recovery], [_finish_recovery] and
    [_report_recovery_limit]. *)
Definition log_recovery (now reason : pystr) (e : event) : Events.act unit :=
  let a := action_name (e_action e) in
  let o := outcome_name (e_outcome e) in
  let fields := recovery_fields a o reason (e_attempt e) in
  match e_outcome e with
  | Started => log_event now "warning" (str "automatic recovery started: " ++ a) fields
  | Exhausted => log_event now "error" (str "automatic registration recovery reached its 24-hour limit") fields
  | out => log_event now (if closes out then "info" else "warning") (str "automatic recovery " ++ o ++ str ": " ++ a ++ str "; " ++ reason) fields
  end.
End Names.

(** A method of Worker.v that answers with log events, all for one reason. *)
Definition recovering {B} (f : Z -> device -> list Recovery.event * Recovery.recovery * B)
    (reason : Z -> device -> Recovery.event -> pystr) : task B :=
  Clock (fun c =>
    Act (fun d =>
           let '(es, r, b) := f (wall c) d in
           (Ok b, set_worker (foldl (fun w e => (log_recovery (stamp c) (reason (wall c) d e) e w).2) (worker d) es) (set_recovery r d)))
      Done).

Definition watch_ends (f : Recovery.recovery -> list Recovery.event * Recovery.recovery) (reason : string) : task unit :=
  recovering (fun _ d => (f (recovery d), tt)) (fun _ _ _ => str reason).
Definition registration_restored : string -> task unit := watch_ends Recovery.registration_restored.
Definition cancel_registration_recovery : string -> task unit := watch_ends Recovery.cancel_registration_recovery.
(** [self._unregistered_since = self._clock()] *)
Definition unregistered_now : task unit :=
  Clock (fun c => modify (fun d => set_recovery (Recovery.set_unregistered (Some (wall c)) (recovery d)) d)).

(** ** The worker *)

Section Worker.
(** The configuration: the port of a pinned module, the alarm threshold, the
    message store, whether messages are deleted, the recovery limits; [seconds_text]
    is a duration in whole seconds, [error_str] what [str] makes of an exception
    of the driver that is no AT error (or of a UnicodeEncodeError), [command] the command an AT error was raised with. *)
Context (pinned : option pystr) (low_voltage_mv : Z) (storage : pystr) (delete_after_read : bool) (cfg : Recovery.config).
Context (seconds_text : Z -> pystr) (error_str : option Driver.exn -> pystr) (command : option pystr).
Context (seconds : Z -> spec_float) (one_decimal : Z -> pystr).

Definition log (level : string) (message : pystr) : task unit := Clock (fun c => perform (log_event (stamp c) level message [])).

(** *** Status *)

Definition emit_status (force : bool) : task unit :=
  Clock (fun c => modify (fun d =>
    let threshold := StatusFilter.low_voltage_threshold low_voltage_mv in
    let w := worker d in
    let payload := StatusFilter.status_payload (name w) (stamp c) (or_text (port d) (default [] pinned)) threshold (state w) in
    let '(sent, f) := StatusFilter.emit_status force threshold (loop c) payload (filter d) in
    let d := set_filter f d in
    match sent with Some p => set_worker (emit "status" p w).2 d | None => d end)).

Definition go_offline (reason : pystr) : task unit :=
  was_online <~ Act (fun d =>
    let s := on_data DataPolicy.go_offline (st d) in
    let w := worker d in
    (Ok (StatusFilter.online (st d)), set_worker (mkWorker (name w) s reason (modem w) (history w) (out w)) d)) Done ;;
  if was_online : bool then emit_status true else ret tt.

(** *** Packet data *)

(** What [_enforce_data_policy] decides from the state it has just read: the
    command for the modem, if any. *)
Definition decide_data (ps : DataPolicy.policies) (force : bool) (s : DataPolicy.data_state) : option bool * DataPolicy.data_state :=
  let desired := DataPolicy.desired_data_enabled ps in
  let blocked := desired && negb (bool_decide (DataPolicy.roaming s = Some false)) && negb (DataPolicy.roaming_data_allowed s) in
  let effective := desired && negb blocked in
  let s := DataPolicy.mkData effective (DataPolicy.data_attached s) (DataPolicy.pdp_active s) (DataPolicy.roaming s)
             (DataPolicy.roaming_data_allowed s) blocked (DataPolicy.registered s) (DataPolicy.online s) in
  let data_is_on := bool_decide (DataPolicy.pdp_active s = Some true) in
  let needs_attach := DataPolicy.registered s && bool_decide (DataPolicy.data_attached s = Some false) in
  (if negb effective && (data_is_on || needs_attach || (force && bool_decide (DataPolicy.pdp_active s = None))) then Some false
   else if desired && negb blocked && needs_attach then Some true else None, s).

Definition allow_data (s : DataPolicy.data_state) : DataPolicy.data_state :=
  DataPolicy.mkData true (DataPolicy.data_attached s) (DataPolicy.pdp_active s) (DataPolicy.roaming s) (DataPolicy.roaming_data_allowed s)
    (DataPolicy.data_blocked_by_roaming s) (DataPolicy.registered s) (DataPolicy.online s).
Definition set_allowed (b : bool) (s : DataPolicy.data_state) : DataPolicy.data_state :=
  DataPolicy.mkData (DataPolicy.data_enabled s) (DataPolicy.data_attached s) (DataPolicy.pdp_active s) (DataPolicy.roaming s) b
    (DataPolicy.data_blocked_by_roaming s) (DataPolicy.registered s) (DataPolicy.online s).

(** The decision between the two readings is the policy of Worker.v. *)
Lemma decide_data_spec ps m force s :
  DataPolicy.enforce_data_policy ps m force s =
  let '(todo, x) := decide_data ps force (DataPolicy.with_status (DataPolicy.reports m) (set_allowed (DataPolicy.desired_roaming_data_allowed ps) s)) in
  match todo with
  | Some false => (Some (DataPolicy.SetDataEnabled false), DataPolicy.with_status (DataPolicy.turned_off m) x)
  | Some true => (Some (DataPolicy.SetDataEnabled true), allow_data (DataPolicy.with_status (DataPolicy.turned_on m) x))
  | None => (None, x)
  end.
Proof.
  unfold DataPolicy.enforce_data_policy, decide_data, allow_data, set_allowed, DataPolicy.with_status. cbn.
  destruct (_ && (_ || _)) eqn:E1; [done|]. destruct (_ && _ && (_ && _)) eqn:E2; [|done]. by destruct (DataPolicy.desired_roaming_data_allowed ps).
Qed.

Definition on_data_state (f : DataPolicy.data_state -> DataPolicy.data_state) : task unit := modify (on_state (on_data f)).

Definition enforce_data_policy (force : bool) : task unit :=
  modify (fun d => on_state (on_data (set_allowed (DataPolicy.desired_roaming_data_allowed (policies d)))) d) ;~
  x <~ await Modem.read_data_status ;;
  on_data_state (DataPolicy.with_status x) ;~
  todo <~ Act (fun d => let '(o, x) := decide_data (policies d) force (data_of (st d)) in (Ok o, on_state (set_data x) d)) Done ;;
  match todo with
  | Some false =>
      x <~ await (Modem.set_data_enabled false) ;;
      on_data_state (DataPolicy.with_status x) ;~
      log "info" ([0x79FB; 0x52A8; 0x6570; 0x636E; 0x5DF2; 0x5173; 0x95ED; 0xFF08] ++ str "PDP " ++ [0x5DF2; 0x505C; 0x7528; 0xFF0C; 0x4FDD; 0x7559; 0x7F51; 0x7EDC; 0x9644; 0x7740; 0xFF09])
  | Some true =>
      x <~ await (Modem.set_data_enabled true) ;;
      on_data_state (fun s => allow_data (DataPolicy.with_status x s)) ;~
      log "info" ([0x5DF2; 0x5141; 0x8BB8; 0x79FB; 0x52A8; 0x6570; 0x636E; 0xFF08; 0x4E0D; 0x4E3B; 0x52A8; 0x6FC0; 0x6D3B] ++ str " PDP" ++ [0xFF09])
  | None => ret tt
  end.

(** *** Recovery *)

Definition off (s : DeviceState) : bool := bool_decide (StatusFilter.radio_enabled s = Some false).

(** [false]: not healthy yet, but not given up either. *)
Definition check_health : task bool :=
  here <~ look (fun d => modem (worker d)) ;;
  if negb here then ret false else
  r <~ ended (Driver.execute (str "AT")) ;;
  match r with
  | Ok _ => recovering (fun _ d => ((Recovery.check_health cfg true (recovery d)).1, tt)) (fun _ _ _ => []) ;~ ret true
  | Err (Driver.AtError e) =>
      let reason := fun d => str "AT health check failed " ++ decimal (Recovery.health_failures (recovery d) + 1)
                             ++ str " consecutive times: " ++ error_text command e in
      why <~ look reason ;;
      b <~ recovering (fun _ d => Recovery.check_health cfg false (recovery d)) (fun _ d _ => reason d) ;;
      match b with Some b => ret b | None => raise (DeviceRecoveryReconnect why) end
  | Err e => raise (Worker (DriverFailed e))
  end.

(** The reason of an event of [Recovery.recover_begin]. *)
Definition begin_reason (manual : bool) (now : Z) (d : device) (e : Recovery.event) : pystr :=
  match Recovery.e_outcome e with
  | Recovery.Exhausted =>
      let ts := Recovery.drop_expired now (Recovery.attempts (Recovery.now_ (recovery d))) in
      decimal (Z.of_nat (length ts)) ++ str " actions in the last 24 hours; waiting for the rolling window"
  | Recovery.Started =>
      str "module remained unregistered for " ++ seconds_text (now - default now (Recovery.unregistered_since (recovery d))) ++ str "s"
  | _ =>
      str (if off (st d) then "radio was deliberately disabled"
           else if manual then "manual operator selection is active"
           else if StatusFilter.registered (st d) then "network registration restored"
           else "automatic registration recovery is disabled by configuration")
  end.

Definition maybe_recover_registration : task unit :=
  mode <~ selection_mode ;;
  let manual := bool_decide (mode = Some 1) in
  x <~ recovering (fun now d =>
         let '(es, r, o) := Recovery.recover_begin cfg now (StatusFilter.radio_enabled (st d)) manual (StatusFilter.registered (st d)) (recovery d) in
         (es, r, (o, now)))
       (begin_reason manual) ;;
  match x with
  | (None, _) => ret tt
  | (Some (Recovery.ModuleReset, n), now) =>
      r <~ ended Modem.reset ;;
      match r with
      | Ok _ | Err (Driver.AtError _) =>
          recovering (fun _ d => ((Recovery.recover_end now Recovery.ModuleReset n Recovery.Raised (recovery d)).1, tt)) (fun _ _ _ => []) ;~
          raise (DeviceRecoveryReconnect
                   (str "module reset requested for registration recovery"
                    ++ match r with Err (Driver.AtError e) => str "; reset acknowledgement failed: " ++ error_text command e | _ => [] end))
      | Err e => raise (Worker (DriverFailed e))
      end
  | (Some (a, n), now) =>
      b <~ await (match a with Recovery.OperatorReselect => Modem.reselect_operator | _ => Modem.cycle_radio end) ;;
      (if b : bool then modify (on_state (on_data (fun s => DataPolicy.mkData (DataPolicy.data_enabled s) (DataPolicy.data_attached s)
         (DataPolicy.pdp_active s) (DataPolicy.roaming s) (DataPolicy.roaming_data_allowed s) (DataPolicy.data_blocked_by_roaming s) true
         (DataPolicy.online s)))) else ret tt) ;~
      recovering (fun _ d => ((Recovery.recover_end now a n (Recovery.Recovered b) (recovery d)).1, tt))
        (fun _ _ _ => str (if b then "mobile network registration recovered" else "module is still unregistered after the recovery action"))
  end.

(** [_settle_recovery_after_connect] *)
Definition settle_reason (d : device) (e : Recovery.event) : pystr :=
  str (match Recovery.e_action e with
       | Recovery.SerialReconnect => "AT connection reopened successfully"
       | _ => if off (st d) then "radio is deliberately disabled"
              else if StatusFilter.registered (st d) then "module registered after reconnect"
              else "module reopened but remains unregistered"
       end).

Definition settle_recovery_after_connect : task unit :=
  recovering (fun _ d => (Recovery.settle_inflight (off (st d)) (StatusFilter.registered (st d)) (recovery d), tt)) (fun _ => settle_reason) ;~
  s <~ look st ;;
  if StatusFilter.registered s then registration_restored "network registration restored after reconnect"
  else if off s then cancel_registration_recovery "radio is deliberately disabled"
  else unregistered_now.

(** *** A status sample *)

Definition drain_inbox : task (list DecodedSms) := await (Inbox.drain_inbox delete_after_read true).

(** [used >= capacity * 0.8]; the product of the floats is exact enough to decide
    it while the capacity is below 2^50. *)
Definition nearly_full (used capacity : Z) : bool := negb (capacity =? 0) && (8 * capacity <=? 10 * used).

(** [modem.info]'s domains after a registration query; none when RF is off. *)
Definition take_domains : task unit :=
  i <~ modem_info ;;
  modify (on_state (fun s => set_network (StatusFilter.registered s) (if off s then Some false else Driver.eps_registered i)
                               (if off s then Some false else Driver.cs_registered i) s)).
Definition take_registered (b : bool) : task unit :=
  modify (on_state (fun s => set_network b (StatusFilter.eps_registered s) (StatusFilter.cs_registered s) s)).
Definition take_roaming : task unit := i <~ modem_info ;; modify (on_state (set_roaming (Driver.roaming i))).
(** The answer goes into [modem.info] as well. *)
Definition take_ims : task unit :=
  v <~ await Modem.read_ims_registration ;;
  modify (on_state (set_ims v)) ;~
  Drive (fun d => Driver.set_info (Driver.set_ims v (Driver.info d)) d) (fun _ => ret tt).

Definition sample_status (force : bool) : task unit :=
  here <~ look (fun d => modem (worker d)) ;;
  if negb here then ret tt else
  healthy <~ check_health ;;
  if negb healthy then ret tt else
  radio <~ await Modem.read_radio_enabled ;;
  modify (on_state (fun s => match radio with Some _ => set_radio radio s | None => s end)) ;~
  s <~ look st ;;
  b <~ (if off s then ret false else await Modem.read_registration) ;;
  take_registered b ;~ take_domains ;~ take_roaming ;~ take_ims ;~
  enforce_data_policy false ;~
  maybe_recover_registration ;~
  x <~ await Modem.read_signal ;; modify (on_state (set_signal x)) ;~
  v <~ await Modem.read_voltage ;; modify (on_state (set_voltage v)) ;~
  u <~ await Inbox.storage_usage ;; modify (on_state (set_storage u)) ;~
  (if nearly_full u.1 u.2
   then log "warning" (str "storage " ++ decimal u.1 ++ str "/" ++ decimal u.2 ++ str ", draining") ;~ drain_inbox ;~ ret tt
   else ret tt) ;~
  emit_status force.

(** *** Supervision *)

Definition set_client (b : bool) (d : device) : device :=
  let w := worker d in set_worker (mkWorker (name w) (state w) (last_error w) b (history w) (out w)) d.
Definition clear_error (d : device) : device :=
  let w := worker d in set_worker (mkWorker (name w) (state w) [] (modem w) (history w) (out w)) d.

Definition connect : task unit :=
  (match pinned with
   | Some p => modify (set_port p)
   | None => p <~ Open Done ;; modify (set_port p)
   end) ;~
  Open Done ;~
  i <~ await (Modem.initialize storage) ;;
  modify (fun d =>
    let ps := policies d in
    let d := on_state (fun s => on_data (fun x => DataPolicy.mkData (DataPolicy.desired_data_enabled ps) (DataPolicy.data_attached x)
               (DataPolicy.pdp_active x) (DataPolicy.roaming x) (DataPolicy.desired_roaming_data_allowed ps)
               (DataPolicy.data_blocked_by_roaming x) (DataPolicy.registered x) (DataPolicy.online x)) (of_info i s)) (clear_error (set_client true d)) in
    let r := recovery d in
    set_recovery (Recovery.mkRecovery (Recovery.now_ r) (Recovery.unregistered_since r) 0 (Recovery.store r)) d) ;~
  settle_recovery_after_connect ;~
  enforce_data_policy true ;~
  (if bool_decide (Driver.smsc i = []) then log "warning" (str "no SMSC configured; sending will fail") else ret tt) ;~
  drain_inbox ;~
  sample_status true.

(** [_serve]: the wait ends when the port dies or the interval is over. *)
Definition alive : task unit := Lost (fun o => match o with Some e => raise (PortLost e) | None => ret tt end).
Fixpoint serve (fuel : nat) : task unit :=
  match fuel with
  | O => Stuck
  | S fuel =>
      over <~ look stopped ;;
      if over : bool then ret tt else alive ;~ alive ;~ sample_status false ;~ serve fuel
  end.

Definition teardown : task unit :=
  modify (set_client false) ;~
  match pinned with Some _ => ret tt | None => modify (set_port []) end.

(** [str(exc)] *)
Definition exn_text (e : exn) : pystr :=
  match e with
  | Worker (DeviceOffline m) | Worker (AtFailed m) | DeviceRecoveryReconnect m | PortFailed m => m
  | Worker (DriverFailed (Driver.AtError e)) | PortLost e => error_text command e
  | Worker (DriverFailed e) => error_str (Some e)
  | Worker UnicodeEncodeError => error_str None
  end.

Definition cancelled (e : exn) : bool := match e with Worker (DriverFailed Driver.Cancelled) => true | _ => false end.

(** [run]: [rounds] connections, each with at most [samples] polls; the pause
    between two of them is not visible here. *)
Fixpoint run (rounds samples : nat) : task unit :=
  match rounds with
  | O => Stuck
  | S rounds =>
      over <~ look stopped ;;
      if over : bool then ret tt else
      handle (connect ;~ serve samples) (fun r =>
        match r with
        | Err e => if cancelled e then teardown ;~ raise e
                   else go_offline (exn_text e) ;~ teardown ;~ (over <~ look stopped ;; if over : bool then ret tt else run rounds samples)
        | Ok _ => teardown ;~ (over <~ look stopped ;; if over : bool then ret tt else run rounds samples)
        end)
  end.

Definition stop : task unit := modify set_stopped ;~ teardown.

(** *** The operator's commands *)

Definition set_radio_enabled (enabled : bool) : task unit :=
  perform require_modem ;~
  x <~ await (Modem.set_radio_enabled enabled) ;;
  i <~ modem_info ;;
  modify (on_state (fun s => set_ims (Driver.ims_registered i) (set_network x.2 (Driver.eps_registered i) (Driver.cs_registered i)
                                                                (set_radio (Some x.1) s)))) ;~
  (if negb x.1
   then modify (on_state (fun s => on_data (fun y => DataPolicy.mkData (DataPolicy.data_enabled y) (Some false) (Some false) (DataPolicy.roaming y)
          (DataPolicy.roaming_data_allowed y) false (DataPolicy.registered y) (DataPolicy.online y)) (set_signal no_signal s))) ;~
        cancel_registration_recovery "radio was deliberately disabled"
   else if x.2 : bool then registration_restored "network registration restored"
   else unregistered_now) ;~
  emit_status true.

(** The registration code is looked at again before roaming is judged. *)
Definition reread_registration : task unit :=
  s <~ look st ;;
  if off s then ret tt else
  b <~ await Modem.read_registration ;;
  i <~ modem_info ;;
  modify (on_state (fun s => set_roaming (Driver.roaming i) (set_network b (Driver.eps_registered i) (Driver.cs_registered i) s))).

Definition set_data_enabled (enabled : bool) : task unit :=
  perform require_modem ;~
  modify (fun d => set_policies (DataPolicy.mkPolicies (Some (DataPolicy.policy_text enabled)) (DataPolicy.roaming_policy (policies d))) d) ;~
  reread_registration ;~
  enforce_data_policy true ;~
  emit_status true.

Definition set_roaming_data_allowed (allowed : bool) : task unit :=
  perform require_modem ;~
  modify (fun d => set_policies (DataPolicy.mkPolicies (DataPolicy.data_policy (policies d)) (Some (DataPolicy.policy_text allowed))) d) ;~
  reread_registration ;~
  enforce_data_policy (negb allowed) ;~
  emit_status true.

Definition select_operator (numeric : option pystr) : task Operators.current_operator :=
  perform require_radio ;~
  x <~ await (Modem.select_operator numeric) ;;
  modify (on_state (set_operator (Operators.co_operator x.1))) ;~
  b <~ await Modem.read_registration ;;
  i <~ modem_info ;;
  modify (on_state (set_network b (Driver.eps_registered i) (Driver.cs_registered i))) ;~
  take_ims ;~
  s <~ look st ;;
  mode <~ selection_mode ;;
  (if StatusFilter.registered s then registration_restored "network registration restored"
   else if bool_decide (mode = Some 1) then cancel_registration_recovery "manual operator selection is active"
   else unregistered_now) ;~
  emit_status true ;~
  ret x.1.

Definition scan_operators : task (list Operators.visible_operator) := perform require_radio ;~ await Modem.scan_operators.
Definition network_diagnostics : task (list (string * res at_error (list pystr))) := perform require_modem ;~ await Modem.read_network_diagnostics.
Definition refresh : task unit := sample_status true.

(** [ussd] and [raw_at]: the lines of the answer. *)
Definition raw_at (line : pystr) : task (list pystr) :=
  perform require_client ;~ r <~ await (Driver.execute line) ;; ret (AtClient.ATClient.lines r).
Definition ussd (code : pystr) : task pystr := ls <~ raw_at (ussd_command code) ;; ret (py_join [10] ls).

Definition ping (host : pystr) : task bool := perform require_data ;~ perform require_radio ;~ await (Calls.ping host).

(** [draw] is the random reference of a long message, [ring] how long to ring. *)
Definition send_sms (draw : Z) (number body : pystr) (cmd_id : json) : task (list Z) :=
  perform require_radio ;~
  before <~ clocks ;;
  r <~ ended (Inbox.send_sms draw number body) ;;
  after <~ clocks ;;
  perform (sms_sent (stamp before) (utc after) command number body cmd_id r).

Definition call_keepalive (number : pystr) (ring : Z) : task Calls.CallResult :=
  perform require_radio ;~
  r <~ ended (Calls.call_keepalive number ring) ;;
  after <~ clocks ;;
  perform (call_placed (stamp after) command seconds one_decimal number r).

(** The driver's callbacks. *)
Definition on_sms (sms : DecodedSms) : task unit := Clock (fun c => perform (Events.on_sms (stamp c) (utc c) sms)).
Definition on_delivery (r : StatusReport) : task unit := Clock (fun c => perform (Events.on_delivery (stamp c) r)).
Definition on_incoming_call (call : Driver.IncomingCall) : task unit := Clock (fun c => perform (Events.on_incoming_call (stamp c) call)).

(** ** Every interleaving *)

Definition clock_ok (c : clock) : Prop := Fleet.encodable (stamp c) = true.

(** One node of a task.  The driver is shared with its own tasks, so a segment
    finds it in any state; a program ends as some run of it does on lines that are
    as [Heard.heard] says. *)
Inductive next {A} : device -> task A -> device -> task A -> Prop :=
| next_await B (p : Driver.prog B) k r d : Heard.possible p r -> next d (Await p k) d (k r)
| next_act B (m : device -> res exn B * device) k d : next d (Act m k) (m d).2 (k (m d).1)
| next_drive f k x d : next d (Drive f k) d (k x)
| next_clock k c d : clock_ok c -> next d (Clock k) d (k c)
| next_lost k o d : next d (Lost k) d (k o)
| next_open k r d : match r with Ok p => Fleet.encodable p = true | Err _ => True end -> next d (Open k) d (k r).

Definition void {A} (t : task A) : task unit := t ;~ ret tt.

(** What may start at any time: [run], [stop], the driver's callbacks with what
    one of its tasks hands on, and the operator's commands. *)
Inductive entry : task unit -> Prop :=
| e_run rounds samples : entry (run rounds samples)
| e_stop : entry stop
| e_sms sms : Heard.handed_on (Driver.UpSms sms) -> entry (on_sms sms)
| e_delivery r : Heard.handed_on (Driver.UpDelivery r) -> entry (on_delivery r)
| e_call call : Heard.handed_on (Driver.UpCall call) -> entry (on_incoming_call call)
| e_radio b : entry (set_radio_enabled b)
| e_data b : entry (set_data_enabled b)
| e_roaming b : entry (set_roaming_data_allowed b)
| e_select numeric : entry (void (select_operator numeric))
| e_scan : entry (void scan_operators)
| e_diagnostics : entry (void network_diagnostics)
| e_refresh : entry refresh
| e_raw line : entry (void (raw_at line))
| e_ussd code : entry (void (ussd code))
| e_ping host : entry (void (ping host))
| e_send draw number body cmd_id : entry (void (send_sms draw number body cmd_id))
| e_keepalive number ring : entry (void (call_keepalive number ring)).

Definition system : Type := device * list (task unit).

(** A task that is started, and a node of one that runs. *)
Inductive step : system -> system -> Prop :=
| step_start d ts t : entry t -> step (d, ts) (d, ts ++ [t])
| step_next d ts i t d' t' : ts !! i = Some t -> next d t d' t' -> step (d, ts) (d', <[i := t']> ts).

(** [__init__] *)
Definition new_device (device_name : pystr) (ps : DataPolicy.policies) (now : Z) (saved : option Recovery.saved) : device :=
  mkDevice
    (mkWorker device_name
       (on_data (fun x => DataPolicy.mkData (DataPolicy.desired_data_enabled ps) None None None (DataPolicy.desired_roaming_data_allowed ps) false false false)
          no_state) [] false [] [])
    (default [] pinned) false ps (Recovery.load now saved) (StatusFilter.mkFilter None 0).
End Worker.

(** ** What the tasks queue *)

(** The worker of Events.v is in order, and the port has a text. *)
Definition good (d : device) : Prop := ok (worker d) /\ Fleet.encodable (port d) = true.

Fixpoint secure {A} (P : A -> Prop) (t : task A) : Prop :=
  match t with
  | Done r => match r with Ok a => P a | Err _ => True end
  | Await p k => forall r, Heard.possible p r -> secure P (k r)
  | Act m k => forall d, good d -> good (m d).2 /\ secure P (k (m d).1)
  | Drive f k => forall x, secure P (k x)
  | Clock k => forall c, clock_ok c -> secure P (k c)
  | Lost k => forall o, secure P (k o)
  | Open k => forall r, match r with Ok p => Fleet.encodable p = true | Err _ => True end -> secure P (k r)
  | Stuck => True
  end.

Lemma secure_handle {A C} (P : C -> Prop) (t : task A) (h : res exn A -> task C) :
  secure (fun a => secure P (h (Ok a))) t -> (forall e, secure P (h (Err e))) -> secure P (handle t h).
Proof.
  intros Ht He. induction t as [r|B p k IH|B m k IH|f k IH|k IH|k IH|k IH|]; cbn [secure handle] in *; auto.
  - by destruct r.
  - intros d Hd. destruct (Ht d Hd) as [Hg Hk]. auto.
Qed.

Lemma secure_bind {A B} (P : B -> Prop) (t : task A) (k : A -> task B) : secure (fun a => secure P (k a)) t -> secure P (bind t k).
Proof. intros H. by apply secure_handle. Qed.

Lemma secure_mono {A} (P Q : A -> Prop) (t : task A) : (forall a, P a -> Q a) -> secure P t -> secure Q t.
Proof.
  intros HPQ. induction t as [r|B p k IH|B m k IH|f k IH|k IH|k IH|k IH|]; cbn [secure]; auto.
  - destruct r; auto.
  - intros H d Hd. destruct (H d Hd). auto.
Qed.

Lemma secure_await {B} `{Sound B} (P : B -> Prop) (p : Driver.prog B) `{!Heard.Honest p} : (forall b, sound b -> P b) -> secure P (await p).
Proof. intros HP. cbn [secure await]. intros r Hr. apply (Heard.possible_sound p) in Hr. destruct r as [b|e]; [by apply HP|exact I]. Qed.
Lemma secure_ended {B} `{Sound B} (P : res Driver.exn B -> Prop) (p : Driver.prog B) `{!Heard.Honest p} :
  (forall r, Heard.possible p r -> sound r -> P r) -> secure P (ended p).
Proof. intros HP. cbn [secure ended]. intros r Hp. apply HP; [done|by apply (Heard.possible_sound p)]. Qed.
Lemma secure_modify (P : unit -> Prop) f : (forall d, good d -> good (f d)) -> P tt -> secure P (modify f).
Proof. intros Hf HP. cbn [secure modify]. intros d Hd. split; [by apply Hf|done]. Qed.
Lemma secure_look {B} (P : B -> Prop) f : (forall d, good d -> P (f d)) -> secure P (look f).
Proof. intros Hf. cbn [secure look]. intros d Hd. split; [done|by apply Hf]. Qed.
Lemma secure_info (P : Driver.ModemInfo -> Prop) : (forall i, P i) -> secure P modem_info.
Proof. intros HP. cbn. intros x. by apply HP. Qed.
Lemma secure_perform {B} (P : B -> Prop) (m : Events.act B) : safe m -> (forall b, P b) -> secure P (perform m).
Proof.
  intros Hm HP. cbn [secure perform]. intros d [Hw Hp]. specialize (Hm (worker d) Hw). destruct (m (worker d)) as [[b|e] w]; cbn in *; by split.
Qed.

Lemma good_state f d : (forall s, ok_state s -> ok_state (f s)) -> good d -> good (on_state f d).
Proof. intros Hf [[Hn Hs Ho] Hp]. split; [|done]. split; [done|by apply Hf|done]. Qed.
Lemma secure_state (P : unit -> Prop) f : (forall s, ok_state s -> ok_state (f s)) -> P tt -> secure P (modify (on_state f)).
Proof. intros Hf HP. apply secure_modify; [|done]. intros d. by apply good_state. Qed.

Lemma safe_recovery now reason e : Fleet.encodable now = true -> Fleet.encodable reason = true -> safe (log_recovery now reason e).
Proof.
  intros Hn Hr w Hw.
  assert (Hf : forall o n, log_fields (recovery_fields (action_name (Recovery.e_action e)) (outcome_name o) reason n)).
  { intros o n. right. eexists _, _, _, _. split; [reflexivity|]. cbn [forallb]. unfold action_name, outcome_name. by rewrite !encodable_str, Hr. }
  assert (Hl : forall level message o n, Fleet.encodable message = true ->
    ok (log_event now level message (recovery_fields (action_name (Recovery.e_action e)) (outcome_name o) reason n) w).2).
  { intros level message o n Hm. apply safe_get; [|done]. intros w0 [H1 _ _]. apply safe_emit, q_log; [|apply Hf]. cbn [forallb]. by rewrite H1, encodable_str, Hm, Hn. }
  unfold log_recovery. destruct (Recovery.e_outcome e); apply Hl; rewrite ?encodable_app, ?encodable_str, ?Hr; unfold action_name, outcome_name; by rewrite ?encodable_str.
Qed.

Lemma secure_recovering {B} (P : B -> Prop) (f : Z -> device -> list Recovery.event * Recovery.recovery * B) reason :
  (forall now d e, good d -> e ∈ (f now d).1.1 -> Fleet.encodable (reason now d e) = true) -> (forall b, P b) -> secure P (recovering f reason).
Proof.
  intros Hr HP. cbn [secure recovering]. intros c Hc d Hd. specialize (Hr (wall c) d). destruct (f (wall c) d) as [[es r] b]. cbn [fst snd] in *.
  split; [|done]. assert (Hes : forall e, e ∈ es -> Fleet.encodable (reason (wall c) d e) = true) by (intros e; by apply Hr). clear Hr.
  destruct Hd as [Hw Hp]. split; [|done]. cbn [worker set_worker]. generalize dependent (worker d). induction es as [|e es IH]; intros w Hw; [done|].
  cbn [foldl]. apply IH; [intros e' He'; apply Hes; by right|]. apply safe_recovery; [done| |done]. apply Hes. by left.
Qed.

Lemma secure_watch (P : unit -> Prop) f reason : P tt -> secure P (watch_ends f reason).
Proof. intros HP. apply secure_recovering; [|by intros []]. intros. apply encodable_str. Qed.
Lemma secure_unregistered (P : unit -> Prop) : P tt -> secure P unregistered_now.
Proof. intros HP. cbn [secure unregistered_now]. intros c _. by apply secure_modify. Qed.

Section Security.
Context (pinned : option pystr) (low_voltage_mv : Z) (storage : pystr) (delete_after_read : bool) (cfg : Recovery.config).
Context (seconds_text : Z -> pystr) (error_str : option Driver.exn -> pystr) (command : option pystr).
Context (seconds : Z -> spec_float) (one_decimal : Z -> pystr).
Hypothesis pinned_ok : Fleet.encodable (default [] pinned) = true.
Hypothesis threshold_ok : small (StatusFilter.low_voltage_threshold low_voltage_mv).
Hypothesis command_ok : Fleet.encodable (default [] command) = true.
Hypothesis duration_ok : forall n, Fleet.encodable (seconds_text n) = true.
Hypothesis seconds_ok : forall n, seconds n <> S754_nan.
Hypothesis decimal_ok : forall n, Fleet.encodable (one_decimal n) = true.

Lemma secure_log (P : unit -> Prop) level message : Fleet.encodable message = true -> P tt -> secure P (log level message).
Proof. intros Hm HP. cbn [secure log]. intros c Hc. apply secure_perform; [by apply safe_log|by intros []]. Qed.

Lemma secure_emit (P : unit -> Prop) force : P tt -> secure P (emit_status pinned low_voltage_mv force).
Proof.
  intros HP. cbn [secure emit_status]. intros c Hc. apply secure_modify; [|done]. intros d [Hw Hp]. cbv zeta.
  destruct (StatusFilter.emit_status _ _ _ _ _) as [sent f] eqn:E. destruct sent as [p|]; [|done].
  assert (p = StatusFilter.status_payload (name (worker d)) (stamp c) (or_text (port d) (default [] pinned))
                (StatusFilter.low_voltage_threshold low_voltage_mv) (state (worker d))) as ->.
  { unfold StatusFilter.emit_status in E. destruct (_ && _); by simplify_eq. }
  split; [|done]. cbn [worker set_worker set_filter]. apply safe_emit; [|done]. destruct Hw as [Hn [Ht Hi] _]. apply q_status.
  - cbn [forallb] in *. rewrite Hn, Hc. assert (Fleet.encodable (or_text (port d) (default [] pinned)) = true) as -> by (unfold or_text; by destruct (port d)).
    exact Ht.
  - by apply Forall_cons_2.
Qed.

(** One node at a time, the lemma by its head. *)
Ltac secure_step :=
  lazymatch goal with
  | |- secure _ (bind _ _) => apply secure_bind
  | |- secure _ (handle _ _) => apply secure_handle
  | |- secure _ (await _) => refine (secure_await _ _ _); intros ? ?
  | |- secure _ (ended _) => refine (secure_ended _ _ _); intros ? ? ?
  | |- secure _ (modify (on_state _)) => apply secure_state; [by intros ? []|]
  | |- secure _ (modify _) => apply secure_modify; [by intros ? [[] ?]|]
  | |- secure _ (look _) => apply secure_look; intros ? ?
  | |- secure _ modem_info => apply secure_info; intros ?
  | |- secure _ (recovering _ _) => apply secure_recovering; [|intros ?]
  | |- secure _ (watch_ends _ _) => apply secure_watch
  | |- secure _ (registration_restored _) => apply secure_watch
  | |- secure _ (cancel_registration_recovery _) => apply secure_watch
  | |- secure _ unregistered_now => apply secure_unregistered
  | |- secure _ (emit_status _ _ _) => apply secure_emit
  | |- secure _ (log _ _) => apply secure_log
  | |- secure _ (perform _) => apply secure_perform; [auto with safe|intros ?]
  | |- secure _ (ret _) => cbn [secure ret]
  | |- secure _ (raise _) => exact I
  | |- secure _ Stuck => exact I
  | |- secure _ (if ?b then _ else _) => destruct b
  | |- secure _ (match ?x with _ => _ end) => destruct x
  end.
Ltac finish := intros; rewrite ?encodable_str; repeat match goal with b : unit |- _ => destruct b end; first [done | reflexivity | by vm_compute].
Ltac secure := repeat secure_step; try finish.

Lemma secure_mode (P : option Z -> Prop) : (forall m, P m) -> secure P selection_mode.
Proof. intros HP. cbn. auto. Qed.
Lemma secure_alive (P : unit -> Prop) : P tt -> secure P alive.
Proof. intros HP. by intros []. Qed.

Lemma secure_offline (P : unit -> Prop) reason : P tt -> secure P (go_offline pinned low_voltage_mv reason).
Proof. intros HP. unfold go_offline. apply secure_bind. intros d [[Hn Hs Ho] Hp]. split; [split; [by split|done]|]. cbn [secure fst]. by secure. Qed.

Lemma secure_enforce (P : unit -> Prop) force : P tt -> secure P (enforce_data_policy force).
Proof.
  intros HP. unfold enforce_data_policy, on_data_state. apply secure_bind, secure_modify; [intros d; by apply good_state|].
  do 2 secure_step. apply secure_bind. secure_step. apply secure_bind. cbn [secure]. intros d Hd. destruct (decide_data _ _ _) as [o x]. split; [by apply good_state|].
  cbn [secure fst]. secure.
Qed.

Lemma reason_ok d e n : good d -> e = Driver.AtError n -> Fleet.encodable (error_message n) = true -> Fleet.encodable (error_text command n) = true.
Proof. intros _ _. by apply error_ok. Qed.

Lemma secure_health (P : bool -> Prop) : (forall b, P b) -> secure P (check_health cfg command).
Proof.
  intros HP. unfold check_health. do 2 secure_step. secure_step; [exact (HP false)|]. do 2 secure_step. destruct r as [x|[e| | | | |]]; [| |exact I..].
  - secure.
  - assert (He : Fleet.encodable (error_text command e) = true) by by apply error_ok.
    cbv zeta. do 2 secure_step. secure_step. secure_step; [|destruct b; [exact (HP b)|exact I]].
    intros. by rewrite !encodable_app, encodable_decimal, !encodable_str, He.
Qed.

Lemma secure_recover (P : unit -> Prop) : P tt -> secure P (maybe_recover_registration cfg seconds_text command).
Proof.
  intros HP. unfold maybe_recover_registration. apply secure_bind, secure_mode. intros mode. cbv zeta. secure_step. secure_step.
  - intros now d e _ _. unfold begin_reason. cbv zeta. destruct (Recovery.e_outcome e); rewrite ?encodable_app, ?encodable_decimal, ?duration_ok, ?encodable_str; done.
  - destruct b as [[[a n]|] now]; [|done]. destruct a.
    3: { do 2 secure_step. destruct r as [x|[e| | | | |]]; secure. }
    all: do 2 secure_step; secure_step; destruct b; secure.
Qed.

Lemma secure_settle (P : unit -> Prop) : P tt -> secure P settle_recovery_after_connect.
Proof. intros HP. unfold settle_recovery_after_connect. secure. intros. apply encodable_str. Qed.

Lemma secure_ims (P : unit -> Prop) : P tt -> secure P take_ims.
Proof. intros HP. unfold take_ims. do 2 secure_step. do 2 secure_step. cbn. auto. Qed.

Lemma secure_sample (P : unit -> Prop) force : P tt ->
  secure P (sample_status pinned low_voltage_mv delete_after_read cfg seconds_text command force).
Proof.
  intros HP. unfold sample_status, take_registered, take_domains, take_roaming, drain_inbox. secure_step. secure_step. secure_step; [exact HP|].
  secure_step. apply secure_health. intros healthy. secure_step; [exact HP|]. do 2 secure_step. secure_step. apply secure_state; [intros; by destruct b|].
  do 2 secure_step. secure_step. apply (secure_mono (fun _ => True)); [intros reg _|by secure].
  do 2 secure_step. do 3 secure_step. do 2 secure_step. secure_step. do 2 secure_step. secure_step. apply secure_ims. secure_step. apply secure_enforce.
  secure_step. apply secure_recover.
  do 2 secure_step. secure_step. apply secure_state.
  { intros s [Ht Hi]. split; [exact Ht|]. rewrite !Forall_cons in Hi |- *. unfold sound, Heard.sound_signal in *. rewrite !Forall_cons in *. cbn in *. tauto. }
  do 2 secure_step. secure_step. apply secure_state.
  { intros s [Ht Hi]. split; [exact Ht|]. rewrite !Forall_cons in Hi |- *. unfold sound, Heard.sound_reading in *. cbn in *. tauto. }
  do 2 secure_step. secure_step. apply secure_state.
  { intros s [Ht Hi]. split; [exact Ht|]. rewrite !Forall_cons in Hi |- *. unfold sound, Heard.sound_storage in *. cbn in *. tauto. }
  secure. rewrite !encodable_app, !encodable_decimal. finish.
Qed.

Lemma secure_teardown (P : unit -> Prop) : P tt -> secure P (teardown pinned).
Proof. intros HP. unfold teardown. do 2 secure_step. destruct pinned; [exact HP|]. apply secure_modify; [|done]. by intros d [Hw _]. Qed.

Lemma secure_connect (P : unit -> Prop) : P tt -> secure P (connect pinned low_voltage_mv storage delete_after_read cfg seconds_text command).
Proof.
  intros HP. unfold connect. secure_step. apply (secure_mono (fun _ => True)).
  - intros _ _. secure_step. intros r Hr. cbn [secure]. destruct r as [p|]; [|done]. do 2 secure_step. secure_step. apply secure_modify.
    { intros d [[Hn [Ht Hi] Ho] Hp]. split; [|exact Hp]. split; [exact Hn| |exact Ho]. split; [assumption|exact Hi]. }
    secure_step. apply secure_settle. secure_step. apply secure_enforce. secure_step.
    assert (Hrest : secure P (drain_inbox delete_after_read ;~ sample_status pinned low_voltage_mv delete_after_read cfg seconds_text command true)).
    { unfold drain_inbox. do 2 secure_step. by apply secure_sample. }
    destruct (bool_decide _); [apply secure_log; [apply encodable_str|exact Hrest]|exact Hrest].
  - destruct pinned as [p|] eqn:E.
    + apply secure_modify; [|done]. intros d [Hw _]. split; [exact Hw|]. exact pinned_ok.
    + secure_step. intros r Hr. destruct r as [p|]; [|done]. apply secure_modify; [|done]. by intros d [Hw _].
Qed.

Lemma secure_serve (P : unit -> Prop) fuel : P tt -> secure P (serve pinned low_voltage_mv delete_after_read cfg seconds_text command fuel).
Proof.
  intros HP. induction fuel as [|fuel IH]; [exact I|]. cbn [serve]. do 2 secure_step. secure_step; [exact HP|].
  secure_step. apply secure_alive. secure_step. apply secure_alive. secure_step. by apply secure_sample.
Qed.

Lemma secure_run (P : unit -> Prop) rounds samples : P tt ->
  secure P (run pinned low_voltage_mv storage delete_after_read cfg seconds_text error_str command rounds samples).
Proof.
  intros HP. induction rounds as [|rounds IH]; [exact I|]. cbn [run]. do 2 secure_step. secure_step; [exact HP|].
  assert (Hafter : secure P (teardown pinned ;~ over <~ look stopped ;; if over : bool then ret tt else
            run pinned low_voltage_mv storage delete_after_read cfg seconds_text error_str command rounds samples)).
  { secure_step. apply secure_teardown. do 2 secure_step. by destruct (stopped _). }
  apply secure_handle.
  - secure_step. apply secure_connect, secure_serve. exact Hafter.
  - intros e. destruct (cancelled e); secure_step; [apply secure_teardown; exact I|]. apply secure_offline. exact Hafter.
Qed.

(** *** The commands *)

Lemma secure_reread (P : unit -> Prop) : P tt -> secure P reread_registration.
Proof. intros HP. unfold reread_registration. do 2 secure_step. secure_step; [exact HP|]. do 3 secure_step. secure_step. by secure_step. Qed.

Lemma secure_radio (P : unit -> Prop) enabled : P tt -> secure P (set_radio_enabled pinned low_voltage_mv enabled).
Proof.
  intros HP. unfold set_radio_enabled. do 4 secure_step. do 2 secure_step. do 2 secure_step.
  secure_step. destruct (negb _).
  - secure_step. apply secure_state.
    { intros s [Ht Hi]. split; [exact Ht|]. rewrite !Forall_cons in Hi. destruct Hi as (_ & _ & _ & _ & _ & Hu & Hc & Hv & _).
      do 2 (apply Forall_cons_2; [exact I|]). apply Forall_cons_2; [reflexivity|]. do 2 (apply Forall_cons_2; [exact I|]).
      apply Forall_cons_2; [exact Hu|]. apply Forall_cons_2; [exact Hc|]. apply Forall_cons_2; [exact Hv|]. apply Forall_nil_2. }
    secure_step. by apply secure_emit.
  - destruct b0.2; secure_step; by apply secure_emit.
Qed.

Lemma secure_data_enabled (P : unit -> Prop) b : P tt -> secure P (set_data_enabled pinned low_voltage_mv b).
Proof.
  intros HP. unfold set_data_enabled. do 4 secure_step. secure_step. apply secure_reread. secure_step. apply secure_enforce. by apply secure_emit.
Qed.
Lemma secure_roaming_allowed (P : unit -> Prop) b : P tt -> secure P (set_roaming_data_allowed pinned low_voltage_mv b).
Proof.
  intros HP. unfold set_roaming_data_allowed. do 4 secure_step. secure_step. apply secure_reread. secure_step. apply secure_enforce. by apply secure_emit.
Qed.

Lemma secure_select (P : Operators.current_operator -> Prop) numeric : (forall x, P x) -> secure P (select_operator pinned low_voltage_mv numeric).
Proof.
  intros HP. unfold select_operator. do 4 secure_step. secure_step. apply secure_state.
  { intros s [Ht Hi]. split; [|exact Hi]. unfold sound, Heard.sound_operator in *. cbn [forallb] in *. rewrite andb_true_iff in Ht.
    match goal with H : Fleet.encodable _ = true |- _ => cbn; rewrite H end. exact (proj2 Ht). }
  do 2 secure_step. do 2 secure_step. do 2 secure_step. secure_step. apply secure_ims. do 2 secure_step. secure_step. apply secure_mode. intros mode.
  secure_step. destruct (StatusFilter.registered _); [|destruct (bool_decide _)]; secure_step; secure_step; apply secure_emit, HP.
Qed.

Lemma space_encodable s : Fleet.encodable (strip s) = true -> Fleet.encodable s = true.
Proof.
  assert (Hl : forall l, Fleet.encodable (lstrip_by is_space l) = true -> Fleet.encodable l = true).
  { induction l as [|c l IH]; [done|]. cbn [lstrip_by]. destruct (is_space c) eqn:E; [|done]. intros H%IH.
    change (c :: l) with ([c] ++ l). rewrite encodable_app, H, andb_true_r. apply encodable_forall, Forall_singleton.
    unfold is_space in E. apply bool_decide_eq_true in E. revert E. apply (Forall_forall (fun c => Fleet.is_surrogate c = false)).
    apply (bool_decide_eq_true_1 _). by vm_compute. }
  assert (Hrev : forall l, Fleet.encodable (rev l) = Fleet.encodable l).
  { induction l as [|c l IH]; [done|]. cbn [rev]. rewrite encodable_app, IH. change (c :: l) with ([c] ++ l). by rewrite encodable_app, andb_comm. }
  unfold strip, rstrip_by. rewrite Hrev. intros H%Hl. rewrite Hrev in H. by apply Hl.
Qed.

Lemma dialable_encodable s : Calls.is_dialable s = true -> Fleet.encodable s = true.
Proof.
  intros H. unfold Calls.is_dialable in H. cbv zeta in H. rewrite !andb_true_iff in H. destruct H as [[H _] _].
  assert (Hd : forall l, forallb Calls.dial_char l = true -> Fleet.encodable l = true).
  { intros l Hl. apply encodable_forall, Forall_forall. intros c Hc. rewrite forallb_forall in Hl. apply list_elem_of_In, Hl in Hc. clear Hl.
    unfold Calls.dial_char in Hc. unfold Fleet.is_surrogate. lia. }
  destruct s as [|c s]; [done|]. destruct (c =? 43) eqn:E; cbv iota in H; [|by apply Hd]. change (c :: s) with ([c] ++ s). rewrite encodable_app, (Hd s H).
  by apply Z.eqb_eq in E as ->.
Qed.

(** A number that was dialled. *)
Lemma possible_call number ring r : Heard.possible (Calls.call_keepalive number ring) r -> r = Err Driver.ValueError \/ Fleet.encodable number = true.
Proof.
  intros (script & d & c & _ & _ & _ & H). unfold Calls.call_keepalive in H. destruct (Calls.is_dialable (strip number)) eqn:E.
  - right. by apply space_encodable, dialable_encodable.
  - left. cbn in H. by injection H.
Qed.

Lemma secure_send (P : list Z -> Prop) draw number body cmd_id : (forall x, P x) -> secure P (send_sms command draw number body cmd_id).
Proof.
  intros HP. unfold send_sms. do 2 secure_step. secure_step. intros c Hc. cbn [secure ret]. do 2 secure_step. secure_step. intros c' Hc'. cbn [secure ret].
  apply secure_perform; [|done]. by apply safe_sms_sent.
Qed.

Lemma secure_keepalive (P : Calls.CallResult -> Prop) number ring : (forall x, P x) -> secure P (call_keepalive command seconds one_decimal number ring).
Proof.
  intros HP. unfold call_keepalive. do 2 secure_step. do 2 secure_step. secure_step. intros c Hc. cbn [secure ret].
  apply secure_perform; [|done]. destruct (possible_call number ring r) as [->|Hn]; [done|apply safe_raise|]. by apply safe_call_placed.
Qed.

Lemma secure_void {A} (t : task A) : secure (fun _ => True) t -> secure (fun _ => True) (void t).
Proof. intros H. unfold void. secure_step. eapply secure_mono; [|exact H]. done. Qed.

Lemma secure_entry t : entry pinned low_voltage_mv storage delete_after_read cfg seconds_text error_str command seconds one_decimal t -> secure (fun _ => True) t.
Proof.
  intros []; try apply secure_void.
  - by apply secure_run. - unfold stop. do 2 secure_step. by apply secure_teardown.
  - intros c Hc. apply secure_perform; [|done]. by apply safe_on_sms, (Heard.handed_on_sound (Driver.UpSms sms)).
  - intros c Hc. apply secure_perform; [|done]. by apply safe_on_delivery, (Heard.handed_on_sound (Driver.UpDelivery r)).
  - intros c Hc. apply secure_perform; [|done]. by apply safe_on_incoming_call, (Heard.handed_on_sound (Driver.UpCall call)).
  - by apply secure_radio. - by apply secure_data_enabled. - by apply secure_roaming_allowed.
  - by apply secure_select. - unfold scan_operators. by do 3 secure_step. - unfold network_diagnostics. by do 3 secure_step.
  - by apply secure_sample. - unfold raw_at. by do 5 secure_step. - unfold ussd, raw_at. secure_step. by do 5 secure_step.
  - unfold ping. by do 5 secure_step. - by apply secure_send. - by apply secure_keepalive.
Qed.

(** *** Every run *)

Abbreviation steps := (rtc (step pinned low_voltage_mv storage delete_after_read cfg seconds_text error_str command seconds one_decimal)) (only parsing).

Lemma next_secure {A} d (t : task A) d' t' : next d t d' t' -> good d -> secure (fun _ => True) t -> good d' /\ secure (fun _ => True) t'.
Proof.
  intros []; cbn [secure]; auto.
Qed.

Lemma steps_secure x y : steps x y -> good x.1 -> Forall (secure (fun _ => True)) x.2 -> good y.1 /\ Forall (secure (fun _ => True)) y.2.
Proof.
  induction 1 as [x|x y z Hs _ IH]; [done|]. intros Hg Ht. apply IH; destruct Hs as [d ts t He|d ts i t d' t' Hi Hn]; cbn [fst snd] in *.
  - done.
  - eapply (next_secure _ _ _ _ Hn); [done|]. by eapply Forall_lookup_1.
  - apply Forall_app_2; [done|]. apply Forall_cons_2; [by apply secure_entry|done].
  - apply Forall_insert; [done|]. eapply (next_secure _ _ _ _ Hn); [done|]. by eapply Forall_lookup_1.
Qed.

Lemma new_good device_name ps now saved : Fleet.encodable device_name = true -> good (new_device pinned device_name ps now saved).
Proof.
  intros Hn. split; [|exact pinned_ok]. split; [exact Hn| |].
  - split; [reflexivity|]. do 2 (apply Forall_cons_2; [exact I|]). apply Forall_cons_2; [reflexivity|]. do 2 (apply Forall_cons_2; [exact I|]).
    do 2 (apply Forall_cons_2; [reflexivity|]). apply Forall_cons_2; [exact I|]. apply Forall_nil_2.
  - intros kind payload H. by apply not_elem_of_nil in H.
Qed.

Section Server.
Context (repr text : json -> pystr) (integer : json -> option Z).
Context (fromisoformat : pystr -> option Z) (float_text : pystr -> option spec_float) (server_clock : Z).
Hypothesis text_str : forall s, text (JStr s) = s.
Hypothesis clock_small : small (Handlers.now server_clock).

(** C9 (safety): the server takes every event a module's worker queues.
    However the tasks of a worker interleave at their awaits (its connections and
    polls, the driver's callbacks, the operator's commands), and whatever the
    module answers and announces, each event the worker has queued is stored and
    acknowledged when it is sent under any sequence number, on any stream, to any
    server that can number another row: none is refused, so none blocks those
    behind it.  Of the module's lines it is assumed ([Heard.heard]) that they are
    decoded text, without lone surrogates, as the errors of a command, the time
    stamps, the port and the configured names are, and that the answers read as numbers (AT+CSQ, AT+CESQ, AT+CPMS?
    and the reference of a sent message) hold no number of more than eighteen
    digits, which [long_number_refused] shows to be needed. *)
Theorem worker_events_acknowledged device_name ps now saved d ts kind payload :
  Fleet.encodable device_name = true ->
  steps (new_device pinned device_name ps now saved, []) (d, ts) -> (kind, payload) ∈ out (worker d) ->
  exists k, kind = str k /\ forall agent stream seq (db : Ingest.database Handlers.database),
    Fleet.encodable agent = true -> 1 <= seq <= 2 ^ 62 -> roomy (Ingest.business db) ->
    exists x db', Ingest.ingest true true agent stream
        (Handlers.apply repr text integer fromisoformat float_text server_clock agent kind (Handlers.event_key agent stream seq) stream)
        (to_frame k seq payload) db = Ingest.Acked seq x db'.
Proof.
  intros Hn Hs Hin. destruct (steps_secure _ _ Hs) as [[[_ _ Hout] _] _]; [by apply new_good|by apply Forall_nil_2|].
  destruct (Hout kind payload Hin) as (k & -> & Hq). exists k. split; [done|]. intros agent stream seq db Ha Hseq Hr.
  assert (Hv : Ingest.valid_seq (JInt seq) = true) by (unfold Ingest.valid_seq, Ingest.MAX_SEQ; cbn; lia).
  assert (Hsmall : small seq).
  { unfold small, Fleet.fits_int64. change (2 ^ 63) with (2 * 2 ^ 62). set (b := 2 ^ 62) in *. assert (0 < b) by done. lia. }
  destruct (queued_applies repr text integer fromisoformat float_text server_clock text_str agent
    (Handlers.event_key agent stream seq) stream k seq payload (Ingest.business db) Hq Ha Hsmall clock_small Hr) as (a & b & E & _).
  unfold Ingest.ingest. cbn [negb]. assert (jget "seq" (to_frame k seq payload) = JInt seq) as -> by done. rewrite Hv. cbn [negb as_int default from_option id].
  unfold Ingest.apply_event. case_bool_decide; [by eexists _, _|]. rewrite E. cbn [mbind res_bind]. by eexists _, _.
Qed.
End Server.
End Security.

(** ** A message on its way *)

Definition sample_pdu : pystr := str "0891683108100005F00405810180F60000521010800000230BE337B90CA2E164B9D80C".
Definition sample_message : DecodedSms := {|
  d_kind := deliver; d_address := str "10086"; d_text := str "code 482913"; d_smsc := Some (str "+8613800100500");
  d_timestamp := Some (mkDatetime 2025 1 1 8 0 0 28800); d_dcs := 0; d_alphabet := gsm7; d_concat := None; d_raw := sample_pdu; d_ports := None;
  d_udh_malformed := false; d_status_report_requested := false; d_pid := 0; d_truncated := false; d_recovered_text := []; d_code := [] |}.

(** The line that brings it, and the tick in which the callback ends. *)
Definition sample_cmt : AtClient.ATClient.ATUrc := AtClient.ATClient.mkUrc (str "+CMT") (str ",35") [sample_pdu].
Definition quiet_tick : Driver.tick := Driver.mkTick (Ok (AtClient.ATClient.mkResponse [] [] [])) [] id 0.

Lemma sample_handed : Heard.handed_on (Driver.UpSms sample_message).
Proof.
  exists (Inbox.on_cmt true sample_cmt), [quiet_tick], (Driver.new_driver 30000000), 0, (Ok tt).
  assert (E : (Driver.run (Inbox.on_cmt true sample_cmt) [quiet_tick] [] (Driver.new_driver 30000000) 0).1.1.1
    = [Driver.Handed (Driver.UpSms sample_message) (Ok tt)]) by by vm_compute.
  rewrite E. split_and!; [apply Heard.r_cmt| |apply Heard.new_sane|by repeat constructor|left].
  apply Forall_singleton. by split; [constructor|].
Qed.

Definition sample_port : option pystr := Some (str "/dev/ttyACM0").
Definition sample_clock : clock := mkClock (str "2025-01-01T08:00:00+08:00") (str "2025-01-01T00:00:00Z") 0 0.
Definition no_policies : DataPolicy.policies := DataPolicy.mkPolicies None None.
Definition sample_device : device := new_device sample_port (str "m1") no_policies 0 None.
Definition told_device : device :=
  set_worker (Events.on_sms (stamp sample_clock) (utc sample_clock) sample_message (worker sample_device)).2 sample_device.

Abbreviation sample_step := (step sample_port 0 (str "ME") true Recovery.sample_config (fun _ => []) (fun _ => []) None (fun _ => S754_zero false) (fun _ => []))
  (only parsing).

Definition telling : task unit := perform (Events.on_sms (stamp sample_clock) (utc sample_clock) sample_message).

Lemma told_run : rtc sample_step (sample_device, []) (told_device, [ret tt]).
Proof.
  apply (rtc_l _ _ (sample_device, [on_sms sample_message])); [exact (step_start _ _ _ _ _ _ _ _ _ _ sample_device [] _ (e_sms _ _ _ _ _ _ _ _ _ _ _ sample_handed))|].
  apply (rtc_l _ _ (sample_device, [telling])).
  { apply (step_next _ _ _ _ _ _ _ _ _ _ sample_device [on_sms sample_message] 0 _ sample_device telling eq_refl), (next_clock (fun c => perform (Events.on_sms (stamp c) (utc c) sample_message)) sample_clock).
    by vm_compute. }
  apply rtc_once, (step_next _ _ _ _ _ _ _ _ _ _ sample_device [telling] 0 _ told_device (ret tt) eq_refl). apply next_act.
Qed.

(** The message is in the queue and, sent as event 7, acknowledged. *)
Lemma worker_events_acknowledged_witness :
  exists payload x db', out (worker told_device) = [(str "sms_in", payload)] /\
    Ingest.ingest true true (str "home") (str "ab")
      (Handlers.apply Handlers.plain_repr Handlers.plain_repr Handlers.no_column Handlers.no_time Handlers.no_float 1000000 (str "home") (str "sms_in") (Handlers.event_key (str "home") (str "ab") 7) (str "ab"))
      (to_frame "sms_in" 7 payload) Handlers.first_server = Ingest.Acked 7 x db'.
Proof.
  exists (sms_payload (stamp sample_clock) (str "m1") [] sample_message).
  assert (E : out (worker told_device) = [(str "sms_in", sms_payload (stamp sample_clock) (str "m1") [] sample_message)]) by by vm_compute.
  destruct (worker_events_acknowledged sample_port 0 (str "ME") true Recovery.sample_config (fun _ => []) (fun _ => []) None (fun _ => S754_zero false) (fun _ => [])
    ltac:(by vm_compute) ltac:(by vm_compute) ltac:(by vm_compute) ltac:(done) ltac:(done) ltac:(done)
    Handlers.plain_repr Handlers.plain_repr Handlers.no_column Handlers.no_time Handlers.no_float 1000000 ltac:(done) ltac:(by vm_compute)
    (str "m1") no_policies 0 None told_device [ret tt] (str "sms_in") (sms_payload (stamp sample_clock) (str "m1") [] sample_message))
    as (k & Hk & H); [by vm_compute|exact told_run|rewrite E; by left|].
  apply str_inj in Hk as <-. destruct (H (str "home") (str "ab") 7 Handlers.first_server) as (x & db' & Hi).
  - by vm_compute.
  - lia.
  - split; [by vm_compute; split|by vm_compute; split|]. intros r Hr. by apply not_elem_of_nil in Hr.
  - exists x, db'. split; [exact E|exact Hi].
Defined.

(** A number the database cannot hold: the driver reports it as it came, and
    the server refuses the status that carries it. *)
Definition full_store : Driver.tick :=
  Driver.mkTick (Ok (AtClient.ATClient.mkResponse (str "AT+CPMS?") [str "+CPMS: SM,99999999999999999999,50"] (str "OK"))) [] id 0.
Definition full_status : frame :=
  StatusFilter.status_payload (str "m1") (stamp sample_clock) (str "/dev/ttyACM0") 0 (set_storage (99999999999999999999, 50) no_state).

Example long_number_refused :
  (Driver.run Inbox.storage_usage [full_store] [] (Driver.new_driver 30000000) 0).2 = Driver.Done (Ok (99999999999999999999, 50))
  /\ Heard.modest (str "+CPMS: SM,99999999999999999999,50") = false
  /\ Ingest.ingest true true (str "home") (str "ab")
       (Handlers.apply Handlers.plain_repr Handlers.plain_repr Handlers.no_column Handlers.no_time Handlers.no_float 1000000 (str "home") (str "status")
          (Handlers.event_key (str "home") (str "ab") 7) (str "ab"))
       (to_frame "status" 7 full_status) Handlers.first_server = Ingest.Raised Fleet.OverflowError.
Proof. split_and!; by vm_compute. Qed.
End Device.
