(* ===== verification/Base64.v ===== *)
(** * Text as bytes and bytes as text

    What the history cursors (History.v) use of Python: [str.encode] and
    [bytes.decode] with UTF-8, [base64.urlsafe_b64encode] and
    [base64.urlsafe_b64decode].  The decoder is [binascii.a2b_base64] outside its
    strict mode, which skips every character that is not of the alphabet. *)

From S2P Require Import Prelude PyText.

Module Base64.

(** ** UTF-8 *)

Definition is_surrogate (c : Z) : bool := (0xD800 <=? c) && (c <=? 0xDFFF).

Definition utf8_char (c : Z) : pybytes :=
  if c <? 0x80 then [c]
  else if c <? 0x800 then [0xC0 + c / 64; 0x80 + c mod 64]
  else if c <? 0x10000 then [0xE0 + c / 4096; 0x80 + c / 64 mod 64; 0x80 + c mod 64]
  else [0xF0 + c / 262144; 0x80 + c / 4096 mod 64; 0x80 + c / 64 mod 64; 0x80 + c mod 64].

(** [s.encode()]; [None] is its UnicodeEncodeError. *)
Definition utf8_encode (s : pystr) : option pybytes :=
  if existsb is_surrogate s then None else Some (mjoin (utf8_char <$> s)).

(** The six bits of a continuation byte. *)
Definition tail_bits (b : Z) : option Z := if (0x80 <=? b) && (b <? 0xC0) then Some (b - 0x80) else None.

(** The first character and what follows it: no overlong form, no surrogate,
    nothing past U+10FFFF. *)
Definition utf8_first (bs : pybytes) : option (Z * pybytes) :=
  match bs with
  | [] => None
  | b :: bs =>
      if b <? 0x80 then Some (b, bs)
      else if b <? 0xC2 then None
      else if b <? 0xE0 then
        match bs with
        | b1 :: bs => x ← tail_bits b1; Some ((b - 0xC0) * 64 + x, bs)
        | _ => None
        end
      else if b <? 0xF0 then
        match bs with
        | b1 :: b2 :: bs =>
            x ← tail_bits b1; y ← tail_bits b2;
            let c := (b - 0xE0) * 4096 + x * 64 + y in
            if (c <? 0x800) || is_surrogate c then None else Some (c, bs)
        | _ => None
        end
      else if b <? 0xF5 then
        match bs with
        | b1 :: b2 :: b3 :: bs =>
            x ← tail_bits b1; y ← tail_bits b2; z ← tail_bits b3;
            let c := (b - 0xF0) * 262144 + x * 4096 + y * 64 + z in
            if (c <? 0x10000) || (0x10FFFF <? c) then None else Some (c, bs)
        | _ => None
        end
      else None
  end.

(** [bs.decode()]; every round uses a byte up. *)
Fixpoint utf8_loop (fuel : nat) (bs : pybytes) : option pystr :=
  match bs, fuel with
  | [], _ => Some []
  | _, O => None
  | _, S fuel => '(c, bs) ← utf8_first bs; (c ::.) <$> utf8_loop fuel bs
  end.
Definition utf8_decode (bs : pybytes) : option pystr := utf8_loop (length bs) bs.

Definition is_char (c : Z) : Prop := 0 <= c < 0x110000 /\ is_surrogate c = false.

Lemma tail_bits_add x : 0 <= x < 64 -> tail_bits (0x80 + x) = Some x.
Proof. intros H. unfold tail_bits. destruct ((_ <=? _) && _) eqn:E; [f_equal; lia|lia]. Qed.

Lemma div_4096 c : c / 4096 = c / 64 / 64.
Proof. by rewrite Z.div_div. Qed.
Lemma div_262144 c : c / 262144 = c / 64 / 64 / 64.
Proof. by rewrite !Z.div_div. Qed.

Lemma utf8_first_char c bs : is_char c -> utf8_first (utf8_char c ++ bs) = Some (c, bs).
Proof.
  intros [Hc Hs]. unfold utf8_char. destruct (Z.ltb_spec c 0x80); [|destruct (Z.ltb_spec c 0x800); [|destruct (Z.ltb_spec c 0x10000)]];
    cbn [app utf8_first].
  - destruct (Z.ltb_spec c 0x80); [done|lia].
  - assert (2 <= c / 64 < 32) by lia. rewrite tail_bits_add by lia. cbn [mbind option_bind].
    destruct (Z.ltb_spec (0xC0 + c / 64) 0x80); [lia|]. destruct (Z.ltb_spec (0xC0 + c / 64) 0xC2); [lia|].
    destruct (Z.ltb_spec (0xC0 + c / 64) 0xE0); [|lia]. repeat f_equal. lia.
  - rewrite div_4096. assert (0 <= c / 64 / 64 < 16) by lia. rewrite !tail_bits_add by lia. cbn [mbind option_bind].
    destruct (Z.ltb_spec (0xE0 + c / 64 / 64) 0x80); [lia|]. destruct (Z.ltb_spec (0xE0 + c / 64 / 64) 0xC2); [lia|].
    destruct (Z.ltb_spec (0xE0 + c / 64 / 64) 0xE0); [lia|]. destruct (Z.ltb_spec (0xE0 + c / 64 / 64) 0xF0); [|lia].
    assert (E : (0xE0 + c / 64 / 64 - 0xE0) * 4096 + c / 64 mod 64 * 64 + c mod 64 = c) by lia. rewrite E, Hs.
    destruct (Z.ltb_spec c 0x800); [lia|done].
  - rewrite div_262144, div_4096. assert (0 <= c / 64 / 64 / 64 < 5) by lia. rewrite !tail_bits_add by lia. cbn [mbind option_bind].
    destruct (Z.ltb_spec (0xF0 + c / 64 / 64 / 64) 0x80); [lia|]. destruct (Z.ltb_spec (0xF0 + c / 64 / 64 / 64) 0xC2); [lia|].
    destruct (Z.ltb_spec (0xF0 + c / 64 / 64 / 64) 0xE0); [lia|]. destruct (Z.ltb_spec (0xF0 + c / 64 / 64 / 64) 0xF0); [lia|].
    destruct (Z.ltb_spec (0xF0 + c / 64 / 64 / 64) 0xF5); [|lia].
    assert (E : (0xF0 + c / 64 / 64 / 64 - 0xF0) * 262144 + c / 64 / 64 mod 64 * 4096 + c / 64 mod 64 * 64 + c mod 64 = c) by lia. rewrite E.
    destruct (Z.ltb_spec c 0x10000); [lia|]. by destruct (Z.ltb_spec 0x10FFFF c); [lia|].
Qed.

Lemma utf8_char_length c : (1 <= length (utf8_char c))%nat.
Proof. unfold utf8_char. repeat case_match; cbn; lia. Qed.

Lemma utf8_loop_encode s : Forall is_char s -> forall fuel, (length (mjoin (utf8_char <$> s)) <= fuel)%nat ->
  utf8_loop fuel (mjoin (utf8_char <$> s)) = Some s.
Proof.
  induction 1 as [|c s Hc _ IH]; intros fuel Hf; [by destruct fuel|]. change (mjoin (utf8_char <$> c :: s)) with (utf8_char c ++ mjoin (utf8_char <$> s)) in *.
  rewrite length_app in Hf. pose proof (utf8_char_length c). destruct fuel as [|fuel]; [lia|].
  assert (E : utf8_loop (S fuel) (utf8_char c ++ mjoin (utf8_char <$> s))
    = ('(c, bs) ← utf8_first (utf8_char c ++ mjoin (utf8_char <$> s)); (c ::.) <$> utf8_loop fuel bs)).
  { destruct (utf8_char c); [cbn in *; lia|done]. }
  rewrite E, utf8_first_char by done. cbn [mbind option_bind]. rewrite IH by lia. done.
Qed.

(** [s.encode().decode()] *)
Lemma utf8_roundtrip s : Forall is_char s -> utf8_encode s = Some (mjoin (utf8_char <$> s)) /\ utf8_decode (mjoin (utf8_char <$> s)) = Some s.
Proof.
  intros H. split.
  - unfold utf8_encode. assert (existsb is_surrogate s = false) as ->; [|done].
    apply not_true_iff_false. intros (c & Hc & E)%existsb_exists. apply list_elem_of_In in Hc. rewrite Forall_forall in H. destruct (H c Hc). congruence.
  - by apply utf8_loop_encode.
Qed.

(** ** Base 64 *)

(** The URL-safe alphabet. *)
Definition digit_char (v : Z) : Z :=
  if v <? 26 then 65 + v else if v <? 52 then 71 + v else if v <? 62 then v - 4 else if v =? 62 then 45 else 95.

Fixpoint b64_digits (bs : pybytes) : pystr :=
  match bs with
  | [] => []
  | [a] => [digit_char (a / 4); digit_char (a mod 4 * 16)]
  | [a; b] => [digit_char (a / 4); digit_char (a mod 4 * 16 + b / 16); digit_char (b mod 16 * 4)]
  | a :: b :: c :: bs =>
      digit_char (a / 4) :: digit_char (a mod 4 * 16 + b / 16) :: digit_char (b mod 16 * 4 + c / 64) :: digit_char (c mod 64) :: b64_digits bs
  end.

(** ["=" * (-n % 4)] *)
Definition padding (n : nat) : pystr := repeat 61 (Z.to_nat (- Z.of_nat n mod 4)).

(** [base64.urlsafe_b64encode] *)
Definition urlsafe_b64encode (bs : pybytes) : pystr := b64_digits bs ++ padding (length (b64_digits bs)).

(** Both alphabets: the URL-safe one is translated to the other first. *)
Definition digit_value (c : Z) : option Z :=
  if (65 <=? c) && (c <=? 90) then Some (c - 65)
  else if (97 <=? c) && (c <=? 122) then Some (c - 71)
  else if (48 <=? c) && (c <=? 57) then Some (c + 4)
  else if (c =? 45) || (c =? 43) then Some 62
  else if (c =? 95) || (c =? 47) then Some 63
  else None.

(** [quad] is the place in a group of four, [left] the bits kept of the last
    digit, [pads] the padding seen since. *)
Fixpoint a2b (quad left pads : Z) (s : pystr) : option pybytes :=
  match s with
  | [] => if quad =? 0 then Some [] else None
  | c :: s =>
      if c =? 61 then
        if 2 <=? quad then (if 4 <=? quad + (pads + 1) then Some [] else a2b quad left (pads + 1) s)
        else a2b quad left pads s
      else
        match digit_value c with
        | None => a2b quad left pads s
        | Some v =>
            if quad =? 0 then a2b 1 v 0 s
            else if quad =? 1 then (left * 4 + v / 16 ::.) <$> a2b 2 (v mod 16) 0 s
            else if quad =? 2 then (left * 16 + v / 4 ::.) <$> a2b 3 (v mod 4) 0 s
            else (left * 64 + v ::.) <$> a2b 0 0 0 s
        end
  end.

(** [base64.urlsafe_b64decode]; [None] is binascii.Error. *)
Definition urlsafe_b64decode (s : pystr) : option pybytes := a2b 0 0 0 s.

Lemma digit_roundtrip v : 0 <= v < 64 -> digit_value (digit_char v) = Some v /\ digit_char v <> 61 /\ 0 <= digit_char v < 128.
Proof.
  intros H. assert (HF : Forall (fun v => digit_value (digit_char v) = Some v /\ digit_char v <> 61 /\ 0 <= digit_char v < 128) (seqZ 0 64)).
  { apply (bool_decide_eq_true_1 _). by vm_compute. }
  rewrite Forall_forall in HF. by apply HF, elem_of_seqZ.
Qed.

Lemma a2b_digit quad left pads v s : 0 <= v < 64 ->
  a2b quad left pads (digit_char v :: s) =
    if quad =? 0 then a2b 1 v 0 s
    else if quad =? 1 then (left * 4 + v / 16 ::.) <$> a2b 2 (v mod 16) 0 s
    else if quad =? 2 then (left * 16 + v / 4 ::.) <$> a2b 3 (v mod 4) 0 s
    else (left * 64 + v ::.) <$> a2b 0 0 0 s.
Proof.
  intros H. destruct (digit_roundtrip v H) as (E & Hne & _). cbn [a2b]. destruct (Z.eqb_spec (digit_char v) 61); [done|]. by rewrite E.
Qed.

(** Three bytes at a time. *)
Lemma triples_ind (P : pybytes -> Prop) :
  P [] -> (forall a, P [a]) -> (forall a b, P [a; b]) -> (forall a b c bs, P bs -> P (a :: b :: c :: bs)) -> forall bs, P bs.
Proof.
  intros H0 H1 H2 H3 bs. assert (H : forall n bs, (length bs <= n)%nat -> P bs).
  { induction n as [|n IH]; intros [|a [|b [|c l]]] Hl; cbn in Hl; try lia; auto. apply H3, IH. lia. }
  by apply (H (length bs)).
Qed.

Lemma padding_length n : length (padding n) = Z.to_nat (- Z.of_nat n mod 4).
Proof. apply repeat_length. Qed.
Lemma padding_add n : padding (4 + n) = padding n.
Proof. unfold padding. do 2 f_equal. lia. Qed.

Lemma a2b_two left : a2b 2 left 0 (padding 2) = Some [].
Proof. done. Qed.
Lemma a2b_one left : a2b 3 left 0 (padding 3) = Some [].
Proof. done. Qed.

(** [urlsafe_b64decode(urlsafe_b64encode(bs))] *)
Lemma b64_roundtrip bs : is_bytes bs -> urlsafe_b64decode (urlsafe_b64encode bs) = Some bs.
Proof.
  unfold urlsafe_b64decode, urlsafe_b64encode, is_bytes, is_byte. induction bs as [|a|a b|a b c bs IH] using triples_ind; intros H; [done| | |];
    rewrite ?Forall_cons in H; cbn [b64_digits length app].
  - destruct H as [Ha _]. rewrite a2b_digit by lia. cbn [Z.eqb]. rewrite a2b_digit by lia. cbn [Z.eqb].
    rewrite a2b_two. by replace (a / 4 * 4 + a mod 4 * 16 / 16) with a by lia.
  - destruct H as (Ha & Hb & _). rewrite a2b_digit by lia. cbn [Z.eqb]. rewrite a2b_digit by lia. cbn [Z.eqb Pos.eqb]. rewrite a2b_digit by lia. cbn [Z.eqb Pos.eqb].
    rewrite a2b_one. by replace (a / 4 * 4 + (a mod 4 * 16 + b / 16) / 16) with a by lia;
      replace ((a mod 4 * 16 + b / 16) mod 16 * 16 + b mod 16 * 4 / 4) with b by lia.
  - destruct H as (Ha & Hb & Hc & HF). do 4 (rewrite a2b_digit by lia; cbn [Z.eqb Pos.eqb]).
    change (S (S (S (S (length (b64_digits bs)))))) with (4 + length (b64_digits bs))%nat. rewrite padding_add, IH by done.
    by replace (a / 4 * 4 + (a mod 4 * 16 + b / 16) / 16) with a by lia;
      replace ((a mod 4 * 16 + b / 16) mod 16 * 16 + (b mod 16 * 4 + c / 64) / 4) with b by lia;
      replace ((b mod 16 * 4 + c / 64) mod 4 * 64 + c mod 64) with c by lia.
Qed.

Lemma b64_chars bs : is_bytes bs -> Forall (fun c => c <> 61 /\ 0 <= c < 128) (b64_digits bs).
Proof.
  unfold is_bytes, is_byte. assert (Hd : forall v, 0 <= v < 64 -> digit_char v <> 61 /\ 0 <= digit_char v < 128) by (intros v Hv; by apply digit_roundtrip).
  induction bs as [|a|a b|a b c bs IH] using triples_ind; intros H; rewrite ?Forall_cons in H; cbn [b64_digits];
    repeat apply Forall_cons_2; try apply Forall_nil_2; try (apply Hd; lia). apply IH. tauto.
Qed.

(** Four digits for three bytes, the last group cut short. *)
Lemma b64_length bs : Z.of_nat (length (b64_digits bs)) = (4 * Z.of_nat (length bs) + 2) / 3.
Proof. induction bs as [|a|a b|a b c bs IH] using triples_ind; cbn [b64_digits length]; [done..|].
  rewrite !Nat2Z.inj_succ, IH. replace (4 * Z.succ (Z.succ (Z.succ (Z.of_nat (length bs)))) + 2) with (4 * Z.of_nat (length bs) + 2 + 4 * 3) by lia.
  rewrite Z.div_add by done. lia.
Qed.

(** Junk between the digits is skipped. *)
Example junk_is_skipped : urlsafe_b64decode (str "MT Ex!") = urlsafe_b64decode (str "MTEx").
Proof. by vm_compute. Qed.
End Base64.
