(* ===== verification/History.v ===== *)
(** * Reading the message history (server/src/hub_server/db.py, api.py)

    What a read of the messages table is about ([MessageScope]), the order it
    answers in, the cursors a transcript is paged with, the threads of the
    conversation list, and how messages become read.  A table is the list of its
    rows; SQLite compares texts by their bytes, which is by code points. *)

From stdpp Require Import pretty.
From S2P Require Import Prelude PyText AtErrors AtText Base64.

Module History.

(** ** Rows *)

Record message := mkMessage {
  id : Z; sim_id : option Z; direction : pystr; peer : pystr; body : pystr; ts : pystr; status : pystr;
  is_binary : bool; truncated : bool; recovered_body : option pystr; recovered_code : option pystr; read_at : option pystr }.

#[export] Instance message_eq_dec : EqDecision message.
Proof. solve_decision. Defined.

(** ** The scope of a read *)

Inductive sim_filter := Card (n : Z) | All | Unassigned.

Record MessageScope := mkScope {
  s_sim : sim_filter; s_direction : option pystr; s_peer : option pystr; s_search : option pystr; s_content : option pystr }.

Definition everything : MessageScope := mkScope All None None None None.

(** A filter is given when it is a text that is not empty. *)
Definition given (o : option pystr) : option pystr := match o with Some [] => None | _ => o end.

(** SQLite's LIKE: [%] and [_] are wildcards, ASCII letters have no case.  A
    search is not escaped, so its own wildcards count. *)
Fixpoint like (p s : pystr) : bool :=
  match p with
  | [] => bool_decide (s = [])
  | c :: p =>
      if c =? 37 then (fix any s := like p s || match s with [] => false | _ :: s => any s end) s
      else match s with
           | [] => false
           | x :: s => ((c =? 95) || (lower_ascii c =? lower_ascii x)) && like p s
           end
  end.

Definition contains (search : pystr) (s : pystr) : bool := like (37 :: search ++ [37]) s.

(** [where]; a comparison with NULL is not true. *)
Definition in_scope (s : MessageScope) (m : message) : bool :=
  (match s_sim s with Card n => bool_decide (sim_id m = Some n) | All => true | Unassigned => bool_decide (sim_id m = None) end)
  && (match given (s_direction s) with Some d => bool_decide (direction m = d) | None => true end)
  && (match given (s_peer s) with Some p => bool_decide (peer m = p) | None => true end)
  && (match given (s_search s) with
      | Some x => contains x (body m) || contains x (peer m)
                  || from_option (contains x) false (recovered_body m) || from_option (contains x) false (recovered_code m)
      | None => true end)
  && (if bool_decide (s_content s = Some (str "text")) then negb (is_binary m)
      else if bool_decide (s_content s = Some (str "data")) then is_binary m else true).

(** ** The order *)

Abbreviation position := (pystr * Z)%type (only parsing).
Definition pos (m : message) : position := (ts m, id m).

Definition text_lt (a b : pystr) : bool := negb (text_le b a).
(** [p] comes before [q] in [ORDER BY ts DESC, id DESC]. *)
Definition newer (p q : position) : bool := text_lt q.1 p.1 || (bool_decide (p.1 = q.1) && (q.2 <? p.2)).

Definition listed (a b : message) : Prop := newer (pos b) (pos a) = false.
#[export] Instance listed_dec : RelDecision listed.
Proof. intros a b. unfold listed. apply _. Defined.

Definition ordered (t : list message) : list message := merge_sort listed t.

(** ** Unread messages *)

Definition unread (m : message) : bool := bool_decide (direction m = str "in") && bool_decide (read_at m = None).

Definition set_read (now : pystr) (m : message) : message :=
  mkMessage (id m) (sim_id m) (direction m) (peer m) (body m) (ts m) (status m) (is_binary m) (truncated m)
    (recovered_body m) (recovered_code m) (Some now).

(** The rows [mark_read] updates, and what it leaves. *)
Definition marks (s : MessageScope) (through : option Z) (m : message) : bool :=
  in_scope s m && unread m && from_option (fun n => id m <=? n) true through.
Definition mark_read (s : MessageScope) (through : option Z) (now : pystr) (t : list message) : Z * list message :=
  (Z.of_nat (length (filter (fun m => marks s through m = true) t)),
   (fun m => if marks s through m then set_read now m else m) <$> t).

Definition unread_total (t : list message) : Z := Z.of_nat (length (filter (fun m => unread m = true) t)).

(** The scope of [ReadBody]: no card is the thread of the messages without one. *)
Definition thread (sim : option Z) (p : pystr) (content : option pystr) : MessageScope :=
  mkScope (match sim with Some n => Card n | None => Unassigned end) None (Some p) None content.

(** ** Threads *)

Abbreviation key := (option Z * pystr)%type (only parsing).
Definition key_of (m : message) : key := (sim_id m, peer m).

(** The filter of [conversations]: any other content is none. *)
Definition of_content (content : option pystr) (m : message) : bool :=
  if bool_decide (content = Some (str "text")) then negb (is_binary m)
  else if bool_decide (content = Some (str "data")) then is_binary m else true.

Record conversation := mkConversation { c_key : key; c_latest : message; c_last_ts : pystr; c_count : Z; c_unread : Z }.

(** The order of the summary: [ORDER BY last_ts DESC]. *)
Definition livelier (a b : conversation) : Prop := text_lt (c_last_ts a) (c_last_ts b) = false.
#[export] Instance livelier_dec : RelDecision livelier.
Proof. intros a b. unfold livelier. apply _. Defined.

Definition max_text (l : list pystr) : pystr := foldr (fun a b => if text_le a b then b else a) [] l.

Definition conversation_of (content : option pystr) (t : list message) (k : key) : option conversation :=
  let rows := filter (fun m => of_content content m = true /\ key_of m = k) t in
  (fun latest => mkConversation k latest (max_text (ts <$> rows)) (Z.of_nat (length rows))
                   (Z.of_nat (length (filter (fun m => unread m = true) rows)))) <$> head (ordered rows).

(** [groups]: the threads in the order SQLite's GROUP BY meets them; it is free to
    choose among threads that were last active at the same second. *)
Definition conversations (groups : list message -> list key) (limit : nat) (content : option pystr) (t : list message) : list conversation :=
  take limit (merge_sort livelier (omap (conversation_of content t) (groups (filter (fun m => of_content content m = true) t)))).

(** ** Cursors *)

Inductive error := BadCursor (why : string) | ValueError | OverflowError | UnicodeEncodeError.

(** [payload.split("|", n)] *)
Fixpoint split_bars (n : nat) (s : pystr) : list pystr :=
  match n with
  | O => [s]
  | S n => if contains_char 124 s then let '(a, b) := partition_on 124 s in a :: split_bars n b else [s]
  end.

(** The order is strict and total on positions. *)
Lemma text_le_antisym a b : text_le a b = true -> text_le b a = true -> a = b.
Proof.
  revert b. induction a as [|x a IH]; intros [|y b]; cbn; try done. rewrite !orb_true_iff, !andb_true_iff. intros H1 H2.
  assert (x = y) as -> by lia. f_equal. apply IH; lia || tauto.
Qed.

Lemma newer_spec p q : newer p q = true <-> text_le p.1 q.1 = false \/ (p.1 = q.1 /\ q.2 < p.2).
Proof.
  unfold newer, text_lt. rewrite orb_true_iff, andb_true_iff, negb_true_iff, bool_decide_eq_true, Z.ltb_lt. done.
Qed.

Lemma newer_irrefl p : newer p p = false.
Proof. apply not_true_iff_false. rewrite newer_spec, text_le_refl. intros [?|[_ ?]]; [done|lia]. Qed.

Lemma newer_trans p q r : newer p q = true -> newer q r = true -> newer p r = true.
Proof.
  rewrite !newer_spec. intros [H1|[E1 H1]] [H2|[E2 H2]].
  - left. apply not_true_iff_false. intros H. destruct (text_le_total p.1 q.1) as [E|E]; [congruence|].
    destruct (text_le_total q.1 r.1) as [E'|E']; [congruence|]. pose proof (text_le_trans _ _ _ E' E) as Hrp.
    assert (p.1 = r.1) as Epr by by apply text_le_antisym. rewrite Epr in *. congruence.
  - left. by rewrite <- E2. - left. by rewrite E1. - right. split; [congruence|lia].
Qed.

Lemma newer_total p q : p <> q -> newer q p = false -> newer p q = true.
Proof.
  intros Hne Hn. apply newer_spec. apply not_true_iff_false in Hn. rewrite newer_spec in Hn. destruct p as [a n], q as [b k]. cbn in *.
  destruct (text_le a b) eqn:E; [|by left]. destruct (text_le b a) eqn:E'; [|tauto]. assert (a = b) as -> by by apply text_le_antisym.
  right. split; [done|]. assert (n <> k) by congruence. destruct (Z_lt_le_dec n k); [tauto|lia].
Qed.

#[export] Instance listed_total : Total listed.
Proof.
  intros a b. unfold listed. destruct (newer (pos b) (pos a)) eqn:E; [right|by left]. apply not_true_iff_false. intros E'.
  pose proof (newer_trans _ _ _ E E') as H. by rewrite newer_irrefl in H.
Qed.
#[export] Instance listed_trans : Transitive listed.
Proof.
  intros a b c Hab Hbc. unfold listed in *. apply not_true_iff_false. intros H. destruct (decide (pos a = pos b)) as [E|E]; [congruence|].
  pose proof (newer_total _ _ E Hab) as H1. pose proof (newer_trans _ _ _ H H1). congruence.
Qed.

Abbreviation strictly := (StronglySorted (fun a b => newer (pos a) (pos b) = true)) (only parsing).

Lemma ordered_strictly t : NoDup (id <$> t) -> strictly (ordered t).
Proof.
  intros Hn. assert (Hs : StronglySorted listed (ordered t)) by apply (StronglySorted_merge_sort listed).
  assert (Hn' : NoDup (id <$> ordered t)) by (unfold ordered; by rewrite merge_sort_Permutation).
  induction Hs as [|a l Hs IH HF]; [constructor|]. rewrite fmap_cons, NoDup_cons in Hn'. destruct Hn' as [Ha Hl]. constructor; [by apply IH|].
  rewrite Forall_forall in HF |- *. intros b Hb. apply newer_total; [|by apply HF]. intros E. apply Ha, list_elem_of_fmap. exists b. split; [|done].
  by injection E.
Qed.

Lemma strictly_app a b : strictly a -> strictly b -> (forall x y, x ∈ a -> y ∈ b -> newer (pos x) (pos y) = true) -> strictly (a ++ b).
Proof.
  intros Ha Hb H. induction Ha as [|x a Ha IH HF]; [exact Hb|]. cbn. constructor.
  - apply IH. intros u v Hu. apply H. by right.
  - apply Forall_app_2; [exact HF|]. apply Forall_forall. intros y Hy. apply H; [by left|done].
Qed.
Lemma strictly_split a b x y : strictly (a ++ b) -> x ∈ a -> y ∈ b -> newer (pos x) (pos y) = true.
Proof.
  induction a as [|z a IH]; intros Hs Hx Hy; [by apply not_elem_of_nil in Hx|]. apply StronglySorted_inv in Hs as [Hs HF].
  apply elem_of_cons in Hx as [->|Hx]; [|by apply IH]. rewrite Forall_forall in HF. apply HF, elem_of_app. by right.
Qed.
Lemma strictly_take n l : strictly l -> strictly (take n l).
Proof.
  intros H. revert n. induction H as [|x l Hs IH HF]; intros [|n]; cbn; try constructor; [by apply IH|]. by apply Forall_take.
Qed.

(** Row numbers print as at most nineteen digits. *)
Lemma go_length x : forall s k, (x < 10 ^ N.of_nat k)%N -> (length (str (pretty_N_go x s)) <= k + length (str s))%nat.
Proof.
  induction (N.lt_wf_0 x) as [x _ IH]; intros s k Hx. destruct (decide (x = 0)%N) as [->|Hn]; [rewrite pretty_N_go_0; lia|].
  rewrite pretty_N_go_step by lia. destruct k as [|k]; [change (10 ^ N.of_nat 0)%N with 1%N in Hx; lia|].
  rewrite Nat2N.inj_succ, N.pow_succ_r' in Hx. eapply Nat.le_trans; [apply (IH (x `div` 10)%N) with (k := k); [apply N.div_lt; lia|apply N.Div0.div_lt_upper_bound; lia]|].
  unfold str. cbn [String.list_ascii_of_string fmap list_fmap length]. lia.
Qed.

Lemma pretty_char_code d : (d < 10)%N -> str (String.String (pretty_N_char d) "") = [48 + Z.of_N d].
Proof.
  intros H. assert (Hd : d ∈ [0; 1; 2; 3; 4; 5; 6; 7; 8; 9]%N) by (rewrite !elem_of_cons; lia).
  assert (HF : Forall (fun d => str (String.String (pretty_N_char d) "") = [48 + Z.of_N d]) [0; 1; 2; 3; 4; 5; 6; 7; 8; 9]%N) by repeat constructor.
  exact (proj1 (Forall_forall _ _) HF d Hd).
Qed.

Lemma go_digits x : forall s, Forall (fun c => 48 <= c <= 57) (str s) -> Forall (fun c => 48 <= c <= 57) (str (pretty_N_go x s)).
Proof.
  induction (N.lt_wf_0 x) as [x _ IH]; intros s Hs. destruct (decide (x = 0)%N) as [->|Hx]; [by rewrite pretty_N_go_0|].
  rewrite pretty_N_go_step by lia. apply IH; [apply N.div_lt; lia|].
  pose proof (pretty_char_code (x mod 10)%N ltac:(by apply N.mod_lt)) as Ec. unfold str in Ec |- *. cbn [String.list_ascii_of_string fmap list_fmap] in Ec |- *.
  injection Ec as Ec. pose proof (N.mod_lt x 10). apply Forall_cons_2; [lia|exact Hs].
Qed.

Lemma decimal_digits n : 1 <= n < 2 ^ 63 -> Forall (fun c => 48 <= c <= 57) (decimal n) /\ (1 <= length (decimal n) <= 19)%nat.
Proof.
  intros H. destruct n as [|p|p]; [lia| |lia]. unfold decimal. change (pretty (Zpos p)) with (pretty_N_go (Npos p) "").
  split; [by apply go_digits|]. split.
  - destruct (str (pretty_N_go (N.pos p) "")) eqn:E; [|cbn; lia]. pose proof (py_int_decimal (Zpos p)) as Hp. unfold decimal in Hp.
    change (pretty (Zpos p)) with (pretty_N_go (Npos p) "") in Hp. rewrite E in Hp. by vm_compute in Hp.
  - eapply Nat.le_trans; [apply (go_length _ "" 19)|cbn; lia]. change (10 ^ N.of_nat 19)%N with 10000000000000000000%N. change (2 ^ 63) with 9223372036854775808 in H. lia.
Qed.

Section Scope.
(** [fingerprint]: BLAKE2s, four bytes in hexadecimal, of the scope as JSON;
    [is_iso]: what [datetime.fromisoformat] accepts. *)
Context (fingerprint : MessageScope -> pystr) (is_iso : pystr -> bool).

Definition cursor (s : MessageScope) (m : message) : res error pystr :=
  match Base64.utf8_encode (str "1|" ++ fingerprint s ++ [124] ++ decimal (id m) ++ [124] ++ ts m) with
  | None => Err UnicodeEncodeError
  | Some bytes => Ok (rstrip_by (fun c => c =? 61) (Base64.urlsafe_b64encode bytes))
  end.

Definition parse_cursor (s : MessageScope) (text : pystr) : res error position :=
  if bool_decide (text = []) || (160 <? Z.of_nat (length text)) then Err (BadCursor "cursor length") else
  let padded := text ++ Base64.padding (length text) in
  if negb (forallb (fun c => c <? 128) padded) then Err (BadCursor "cursor encoding") else
  match bytes ← Base64.urlsafe_b64decode padded; Base64.utf8_decode bytes with
  | None => Err (BadCursor "cursor encoding")
  | Some payload =>
      match split_bars 3 payload with
      | [version; print; raw_id; ts] =>
          if negb (bool_decide (version = str "1")) then Err (BadCursor "cursor version")
          else if negb (bool_decide (print = fingerprint s)) then Err (BadCursor "cursor filter")
          else if negb (AtText.is_digit raw_id) || (19 <? Z.of_nat (length raw_id)) then Err (BadCursor "cursor id")
          else if 40 <? Z.of_nat (length ts) then Err (BadCursor "cursor timestamp")
          else if negb (is_iso ts) then Err (BadCursor "cursor timestamp")
          else match py_int raw_id with Some n => Ok (ts, n) | None => Err ValueError end
      | _ => Err (BadCursor "cursor fields")
      end
  end.

(** ** Reads *)

(** [messages]; a row id past 64 bits is no parameter SQLite takes. *)
Definition messages (s : MessageScope) (limit : option nat) (offset : nat) (before : option pystr) (t : list message) : res error (list message) :=
  bound ← match before with
          | None => Ok None
          | Some text => p ← parse_cursor s text; if p.2 <? 2 ^ 63 then Ok (Some p) else Err OverflowError
          end;
  let rows := ordered (filter (fun m => in_scope s m && from_option (fun p => newer p (pos m)) true bound = true) t) in
  Ok (match limit with Some n => take n (drop offset rows) | None => rows end).

Definition count_messages (s : MessageScope) (t : list message) : Z := Z.of_nat (length (filter (fun m => in_scope s m = true) t)).

(** [list_messages] of the API, without the total. *)
Inductive reply :=
| Page (items : list message) (has_more : bool) (next_cursor : option pystr)
| Unprocessable                     (* 422 *)
| Failed (e : error).               (* an exception nobody catches *)

Definition list_messages (s : MessageScope) (limit offset : nat) (before : option pystr) (t : list message) : reply :=
  if bool_decide (is_Some before) && negb (offset =? 0)%nat then Unprocessable else
  match messages s (Some (S limit)) offset before t with
  | Err (BadCursor _) => Unprocessable
  | Err e => Failed e
  | Ok rows =>
      let has_more := (limit <? length rows)%nat in
      let items := take limit rows in
      match last items with
      | Some m => if has_more then match cursor s m with Ok c => Page items true (Some c) | Err e => Failed e end
                  else Page items false None
      | None => Page items has_more None
      end
  end.

(** ** Cursors come back *)

(** What the code relies on of the digest ([hexdigest] of four bytes) and of the
    timestamps [to_utc_iso] stores. *)
Hypothesis digest_hex : forall s, length (fingerprint s) = 8%nat /\ Forall (fun c => 48 <= c <= 57 \/ 97 <= c <= 102) (fingerprint s).

Record dated (m : message) : Prop := {
  d_id : 1 <= id m < 2 ^ 63;
  d_short : (length (ts m) <= 40)%nat;
  d_ascii : Forall (fun c => 0 <= c < 128) (ts m);
  d_iso : is_iso (ts m) = true }.

Lemma split_bar a b n : 124 ∉ a -> split_bars (S n) (a ++ 124 :: b) = a :: split_bars n b.
Proof.
  intros Ha. cbn [split_bars]. unfold contains_char. rewrite bool_decide_eq_true_2 by (apply elem_of_app; right; by left).
  assert (partition_on 124 (a ++ 124 :: b) = (a, b)) as ->; [|done].
  induction a as [|c a IH]; [done|]. rewrite elem_of_cons in Ha. cbn. destruct (Z.eqb_spec c 124); [subst; tauto|]. rewrite IH by tauto. done.
Qed.

(** The payload of a cursor is ASCII. *)
Definition payload (s : MessageScope) (m : message) : pystr := str "1|" ++ fingerprint s ++ [124] ++ decimal (id m) ++ [124] ++ ts m.

Lemma digest_plain s : 124 ∉ fingerprint s /\ Forall (fun c => 0 <= c < 128) (fingerprint s).
Proof.
  destruct (digest_hex s) as [_ H]. split; [|eapply Forall_impl; [exact H|]; intros c; cbv beta; lia].
  intros Hin. rewrite Forall_forall in H. specialize (H _ Hin). cbv beta in H. lia.
Qed.

Lemma payload_ascii s m : dated m -> Forall (fun c => 0 <= c < 128) (payload s m) /\ (length (payload s m) <= 71)%nat.
Proof.
  intros [Hid Hs Ha _]. destruct (decimal_digits _ Hid) as [Hd Hl]. destruct (digest_plain s) as [_ Hf]. destruct (digest_hex s) as [H8 _]. unfold payload. split.
  - repeat (apply Forall_app_2); try done; [by repeat constructor|by repeat constructor| |by repeat constructor].
    eapply Forall_impl; [exact Hd|]. intros c; cbv beta; lia.
  - rewrite !length_app. cbn [length]. change (length (str "1|")) with 2%nat. lia.
Qed.

Lemma ascii_bytes l : Forall (fun c => 0 <= c < 128) l -> mjoin (Base64.utf8_char <$> l) = l /\ Forall Base64.is_char l /\ is_bytes l.
Proof.
  intros H. split_and!.
  - induction H as [|c l Hc _ IH]; [done|]. change (mjoin (Base64.utf8_char <$> c :: l)) with (Base64.utf8_char c ++ mjoin (Base64.utf8_char <$> l)).
    rewrite IH. unfold Base64.utf8_char. by destruct (Z.ltb_spec c 0x80); [|lia].
  - eapply Forall_impl; [exact H|]. intros c Hc. cbv beta in Hc. split; [lia|]. unfold Base64.is_surrogate. lia.
  - eapply Forall_impl; [exact H|]. intros c Hc. cbv beta in Hc. unfold is_byte. lia.
Qed.

(** Stripping the padding of a text without other equal signs. *)
Lemma strip_padding l n : Forall (fun c => c <> 61) l -> rstrip_by (fun c => c =? 61) (l ++ repeat 61 n) = l.
Proof.
  intros H. unfold rstrip_by. rewrite rev_app_distr. assert (rev (repeat 61 n) = repeat 61 n) as ->.
  { induction n as [|n IH]; [done|]. cbn [repeat rev]. rewrite IH. symmetry. apply repeat_cons. }
  assert (lstrip_by (fun c => c =? 61) (repeat 61 n ++ rev l) = rev l) as ->.
  { induction n as [|n IH]; [|exact IH]. apply lstrip_none. apply Forall_rev. eapply Forall_impl; [exact H|]. intros c Hc. by apply Z.eqb_neq. }
  apply rev_involutive.
Qed.

(** A cursor is never refused for its form, and names its row. *)
Lemma cursor_text s m : dated m -> exists text, cursor s m = Ok text /\ text <> [] /\ Z.of_nat (length text) <= 160
  /\ forallb (fun c => c <? 128) (text ++ Base64.padding (length text)) = true
  /\ (bytes ← Base64.urlsafe_b64decode (text ++ Base64.padding (length text)); Base64.utf8_decode bytes) = Some (payload s m).
Proof.
  intros Hm. destruct (payload_ascii s m Hm) as [Ha Hl]. destruct (ascii_bytes _ Ha) as (Hj & Hc & Hb). destruct (Base64.utf8_roundtrip _ Hc) as [He Hd].
  rewrite Hj in He, Hd. unfold cursor. change (str "1|" ++ _) with (payload s m). rewrite He. pose proof (Base64.b64_chars _ Hb) as Hch.
  unfold Base64.urlsafe_b64encode. exists (Base64.b64_digits (payload s m)). pose proof (Base64.b64_length (payload s m)) as Hlen.
  split_and!.
  - f_equal. apply strip_padding. eapply Forall_impl; [exact Hch|]. by intros c [].
  - intros E. rewrite E in Hlen. unfold payload in Hlen. rewrite length_app in Hlen. change (length (str "1|")) with 2%nat in Hlen. cbn [length] in Hlen. lia.
  - lia.
  - rewrite forallb_app, andb_true_iff. split; apply forallb_forall; intros c Hin; apply list_elem_of_In in Hin.
    + rewrite Forall_forall in Hch. specialize (Hch c Hin). cbv beta in Hch. lia.
    + unfold Base64.padding in Hin. apply list_elem_of_In, repeat_spec in Hin as ->. done.
  - pose proof (Base64.b64_roundtrip _ Hb) as Hr. unfold Base64.urlsafe_b64encode in Hr. rewrite Hr. exact Hd.
Qed.

(** A cursor pages from the row it was made for.  The cursor of
    a stored row, handed to the scope it came from, gives back exactly that row's
    timestamp and number; handed to a scope with another digest it is refused, as
    a wrong filter and not as damaged text. *)
Theorem cursor_roundtrip s s' m : dated m ->
  exists text, cursor s m = Ok text /\
    parse_cursor s' text = if bool_decide (fingerprint s = fingerprint s') then Ok (pos m) else Err (BadCursor "cursor filter").
Proof.
  intros Hm. destruct (cursor_text s m Hm) as (text & Ec & Hne & Hlen & Hascii & Hdec). exists text. split; [done|]. unfold parse_cursor.
  rewrite bool_decide_eq_false_2 by done. destruct (Z.ltb_spec 160 (Z.of_nat (length text))); [lia|]. cbn [orb]. rewrite Hascii. cbn [negb]. rewrite Hdec.
  destruct (decimal_digits _ (d_id m Hm)) as [Hd Hl]. unfold payload.
  change (str "1|" ++ fingerprint s ++ [124] ++ decimal (id m) ++ [124] ++ ts m) with (str "1" ++ 124 :: (fingerprint s ++ 124 :: (decimal (id m) ++ 124 :: ts m))).
  rewrite split_bar by (change (str "1") with [49]; rewrite elem_of_cons, elem_of_nil; by intros [|]).
  rewrite split_bar by apply digest_plain.
  rewrite split_bar by (intros Hin; rewrite Forall_forall in Hd; specialize (Hd _ Hin); cbv beta in Hd; lia).
  cbn [split_bars]. rewrite bool_decide_eq_true_2 by done. cbn [negb]. destruct (decide (fingerprint s = fingerprint s')) as [E|E].
  - rewrite !bool_decide_eq_true_2 by done. cbn [negb].
    assert (AtText.is_digit (decimal (id m)) = true) as ->.
    { unfold AtText.is_digit. rewrite bool_decide_eq_false_2 by (intros E'; rewrite E' in Hl; cbn in Hl; lia). apply forallb_forall. intros c Hc.
      apply list_elem_of_In in Hc. rewrite Forall_forall in Hd. specialize (Hd c Hc). cbv beta in Hd. apply orb_true_iff. left. unfold is_decimal.
      apply bool_decide_eq_true. exists (c - 48). replace c with (48 + (c - 48)) at 1 by lia. apply decimal_value_ascii. lia. }
    destruct (Z.ltb_spec 19 (Z.of_nat (length (decimal (id m))))); [lia|]. cbn [negb orb]. pose proof (d_short m Hm).
    destruct (Z.ltb_spec 40 (Z.of_nat (length (ts m)))); [lia|]. rewrite (d_iso m Hm), py_int_decimal. done.
  - by rewrite !(bool_decide_eq_false_2 (fingerprint s = fingerprint s')).
Qed.

(** ** A transcript is paged without gaps or repeats *)

(** One request after the other, each for what lies behind the page before it;
    [tables] is the table at each of them.  The second part says whether the last
    page came. *)
Fixpoint walk (s : MessageScope) (limit : nat) (before : option pystr) (tables : list (list message)) : option (list message * bool) :=
  match tables with
  | [] => Some ([], false)
  | t :: tables =>
      match list_messages s limit 0 before t with
      | Page items _ None => Some (items, true)
      | Page items _ (Some c) => '(rest, over) ← walk s limit (Some c) tables; Some (items ++ rest, over)
      | _ => None
      end
  end.

(** The rows behind a position, if one is given. *)
Definition behind (bound : option position) (m : message) : bool := from_option (fun p => newer p (pos m)) true bound.
Definition rows_behind (s : MessageScope) (bound : option position) (t : list message) : list message :=
  ordered (filter (fun m => in_scope s m && behind bound m = true) t).

Definition names (s : MessageScope) (before : option pystr) (bound : option position) : Prop :=
  match before, bound with
  | None, None => True
  | Some text, Some p => parse_cursor s text = Ok p /\ p.2 < 2 ^ 63
  | _, _ => False
  end.

Record table_ok (t : list message) : Prop := { t_ids : NoDup (id <$> t); t_rows : Forall dated t }.

Lemma rows_behind_elem s bound t m : m ∈ rows_behind s bound t <-> m ∈ t /\ in_scope s m = true /\ behind bound m = true.
Proof. unfold rows_behind, ordered. rewrite merge_sort_Permutation, list_elem_of_filter, andb_true_iff. tauto. Qed.

Lemma rows_behind_strictly s bound t : table_ok t -> strictly (rows_behind s bound t).
Proof.
  intros [Hn _]. apply ordered_strictly. eapply sublist_NoDup; [exact Hn|]. by apply fmap_sublist, sublist_filter.
Qed.

Lemma messages_rows s limit before bound t : names s before bound ->
  messages s (Some limit) 0 before t = Ok (take limit (rows_behind s bound t)).
Proof.
  intros H. unfold messages. destruct before as [text|], bound as [p|]; try done. destruct H as [-> Hp]. cbn [mbind res_bind].
  apply Z.ltb_lt in Hp as ->. done.
Qed.

(** One page: the next rows, and a cursor for the last of them when others
    follow. *)
Lemma list_messages_page s limit before bound t : (0 < limit)%nat -> table_ok t -> names s before bound ->
  let rows := rows_behind s bound t in
  exists next, list_messages s limit 0 before t = Page (take limit rows) (limit <? length rows)%nat next
    /\ match next with
       | None => (length rows <= limit)%nat
       | Some c => (limit < length rows)%nat /\ exists m, last (take limit rows) = Some m /\ names s (Some c) (Some (pos m))
       end.
Proof.
  intros Hl Ht Hb rows. unfold list_messages. rewrite (messages_rows s (S limit) before bound t Hb). fold rows.
  assert (bool_decide (is_Some before) && negb (0 =? 0)%nat = false) as -> by apply andb_false_r.
  rewrite length_take, take_take, (Nat.min_l limit (S limit)) by lia.
  assert ((limit <? S limit `min` length rows)%nat = (limit <? length rows)%nat) as ->.
  { destruct (Nat.ltb_spec limit (length rows)); [apply Nat.ltb_lt|apply Nat.ltb_ge]; lia. }
  destruct (last (take limit rows)) as [m|] eqn:Em.
  - destruct (Nat.ltb_spec limit (length rows)); [|exists None; split; [done|lia]].
    assert (Hm : dated m).
    { apply last_Some_elem_of, elem_take, rows_behind_elem in Em as [Hin _]. exact (proj1 (Forall_forall _ _) (t_rows t Ht) m Hin). }
    destruct (cursor_roundtrip s s m Hm) as (c & Ec & Hp). rewrite bool_decide_eq_true_2 in Hp by done. rewrite Ec. exists (Some c). split; [done|].
    split; [done|]. exists m. split; [done|]. split; [exact Hp|]. exact (proj2 (d_id m Hm)).
  - exists None. apply last_None in Em. destruct rows as [|r rows]; [|destruct limit; [lia|done]]. split; [|cbn; lia]. by destruct limit.
Qed.

Definition pages_ok (s : MessageScope) (bound : option position) (tables : list (list message)) (items : list message) (over : bool) (limit : nat) : Prop :=
  strictly items
  /\ Forall (fun m => in_scope s m = true /\ behind bound m = true /\ exists t, t ∈ tables /\ m ∈ t) items
  /\ if over then forall m, behind bound m = true ->
        (forall t, t ∈ tables -> exists m', m' ∈ t /\ in_scope s m' = true /\ pos m' = pos m) -> pos m ∈ pos <$> items
     else length items = (limit * length tables)%nat.

Lemma behind_pos bound m m' : pos m' = pos m -> behind bound m' = behind bound m.
Proof. intros E. unfold behind. by rewrite E. Qed.

Lemma walk_pages s limit tables : (0 < limit)%nat -> Forall table_ok tables -> forall before bound, names s before bound ->
  exists items over, walk s limit before tables = Some (items, over) /\ pages_ok s bound tables items over limit.
Proof.
  intros Hl. induction 1 as [|t tables Ht _ IH]; intros before bound Hb.
  { exists [], false. split; [done|]. split_and!; [constructor|constructor|cbn; lia]. }
  cbn [walk]. destruct (list_messages_page s limit before bound t Hl Ht Hb) as (next & -> & Hnext).
  set (rows := rows_behind s bound t) in *. pose proof (rows_behind_strictly s bound t Ht) as Hs. fold rows in Hs.
  assert (Hrows : forall m, m ∈ rows -> in_scope s m = true /\ behind bound m = true /\ m ∈ t) by (intros m Hm%rows_behind_elem; tauto).
  destruct next as [c|].
  - destruct Hnext as (Hlen & m & Em & Hc). destruct (IH (Some c) (Some (pos m)) Hc) as (rest & over & -> & Hrs & Hrf & Hro).
    cbn [mbind option_bind]. exists (take limit rows ++ rest), over. split; [done|].
    assert (Hmin : m ∈ take limit rows) by by apply last_Some_elem_of.
    assert (Hto : forall a, a ∈ take limit rows -> a = m \/ newer (pos a) (pos m) = true).
    { intros a Ha. apply last_Some in Em as [l' El]. rewrite El in Ha. apply elem_of_app in Ha as [Ha| ->%list_elem_of_singleton]; [|by left].
      right. apply (strictly_split l' [m]); [rewrite <- El; by apply strictly_take|done|by left]. }
    assert (Hbm : forall x, behind (Some (pos m)) x = true -> behind bound x = true).
    { intros x Hx. destruct bound as [p|]; [|done]. cbn in *. eapply newer_trans; [|exact Hx]. by apply (Hrows m), (elem_take _ limit). }
    split_and!.
    + apply strictly_app; [by apply strictly_take|done|]. intros x y Hx Hy. rewrite Forall_forall in Hrf. destruct (Hrf y Hy) as (_ & Hby & _). cbn in Hby.
      destruct (Hto x Hx) as [->|Hxm]; [done|]. by eapply newer_trans.
    + apply Forall_app_2.
      * apply Forall_forall. intros x Hx%elem_take. destruct (Hrows x Hx) as (H1 & H2 & H3). split_and!; try done. exists t. split; [by left|done].
      * eapply Forall_impl; [exact Hrf|]. intros x (H1 & H2 & u & Hu & Hxu). split_and!; [done|by apply Hbm|]. exists u. split; [by right|done].
    + destruct over.
      * intros x Hx Hall. rewrite fmap_app, elem_of_app. destruct (Hall t ltac:(by left)) as (x' & Hx't & Hx's & Ep).
        assert (Hx'r : x' ∈ rows) by (apply rows_behind_elem; rewrite (behind_pos bound x x' Ep); tauto).
        rewrite <- (take_drop limit rows) in Hx'r. apply elem_of_app in Hx'r as [Hx'r|Hx'r].
        -- left. apply list_elem_of_fmap. by exists x'.
        -- right. apply Hro; [|intros u Hu; apply Hall; by right]. rewrite <- (behind_pos _ x x' Ep). cbn.
           apply (strictly_split (take limit rows) (drop limit rows)); [by rewrite take_drop|done|done].
      * rewrite length_app, Hro, length_take. cbn [length]. lia.
  - exists (take limit rows), true. rewrite take_ge by lia. split; [done|]. split_and!; [done| |].
    + apply Forall_forall. intros x Hx. destruct (Hrows x Hx) as (H1 & H2 & H3). split_and!; try done. exists t. split; [by left|done].
    + intros x Hx Hall. destruct (Hall t ltac:(by left)) as (x' & Hx't & Hx's & Ep). rewrite <- Ep. apply list_elem_of_fmap_2.
      apply rows_behind_elem. rewrite (behind_pos bound x x' Ep). tauto.
Qed.

(** C37 (functional): a transcript is paged without a gap and without a repeat.
    However messages are stored between the requests, each request succeeds and
    the rows shown are in the scope, strictly older from one to the next, so none
    is shown twice; once the last page has come, every message of the scope that
    was there throughout has been shown; until then every page is full, so a
    history that has stopped pages_ok is read to its end. *)
Theorem transcript_paging s limit tables : (0 < limit)%nat -> Forall table_ok tables ->
  exists items over, walk s limit None tables = Some (items, over)
  /\ strictly items
  /\ Forall (fun m => in_scope s m = true /\ exists t, t ∈ tables /\ m ∈ t) items
  /\ (over = true -> forall m, (forall t, t ∈ tables -> exists m', m' ∈ t /\ in_scope s m' = true /\ pos m' = pos m) -> pos m ∈ pos <$> items)
  /\ (over = false -> length items = (limit * length tables)%nat).
Proof.
  intros Hl Ht. destruct (walk_pages s limit tables Hl Ht None None I) as (items & over & Hw & Hs & Hf & Ho). exists items, over. split_and!; try done.
  - eapply Forall_impl; [exact Hf|]. intros m (H1 & _ & H2). done.
  - intros -> m Hm. by apply Ho.
  - by intros ->.
Qed.
End Scope.

(** ** Threads and what is unread in them *)

Lemma thread_scope sim p content m : p <> [] -> in_scope (thread sim p content) m = of_content content m && bool_decide (key_of m = (sim, p)).
Proof.
  intros Hp. unfold in_scope, thread, of_content, key_of. cbn [s_sim s_direction s_peer s_search s_content].
  assert (given (Some p) = Some p) as -> by by destruct p. cbn [given]. rewrite !andb_true_r.
  assert (Ek : bool_decide ((sim_id m, peer m) = (sim, p)) = bool_decide (sim_id m = sim) && bool_decide (peer m = p)).
  { rewrite <- bool_decide_and. apply bool_decide_ext. split; [by intros [= -> ->]|by intros [-> ->]]. }
  rewrite Ek. set (cn := if bool_decide (content = Some (str "text")) then _ else _). clearbody cn.
  destruct sim; cbn; repeat case_bool_decide; destruct cn; done || congruence.
Qed.

Definition count (P : message -> bool) (t : list message) : Z := Z.of_nat (length (filter (fun m => P m = true) t)).

Lemma count_cons P m t : count P (m :: t) = (if P m then 1 else 0) + count P t.
Proof. unfold count. rewrite filter_cons. destruct (P m); [rewrite decide_True by done|rewrite decide_False by done]; cbn [length]; lia. Qed.
Lemma count_ext P Q t : (forall m, m ∈ t -> P m = Q m) -> count P t = count Q t.
Proof.
  induction t as [|m t IH]; intros H; [done|]. rewrite !count_cons, IH by (intros; apply H; by right). by rewrite (H m) by by left.
Qed.

Lemma count_split P Q t : (forall m, Q m = true -> P m = true) -> count (fun m => P m && negb (Q m)) t = count P t - count Q t.
Proof.
  intros H. induction t as [|m t IH]; [done|]. rewrite !count_cons, IH. specialize (H m). destruct (Q m); [rewrite H by done; cbn; lia|].
  rewrite andb_true_r. lia.
Qed.

(** Reading leaves who wrote what, and to which thread, alone. *)
Lemma set_read_keeps now m : key_of (set_read now m) = key_of m /\ pos (set_read now m) = pos m /\ unread (set_read now m) = false.
Proof. split_and!; [done..|]. unfold unread. cbn. by rewrite andb_false_r. Qed.

Lemma count_after P s through now t : (forall m, P (set_read now m) = P m) ->
  count (fun m => P m && unread m) (mark_read s through now t).2 = count (fun m => P m && unread m && negb (marks s through m)) t.
Proof.
  intros HP. unfold mark_read. cbn [snd]. induction t as [|m t IH]; [done|]. rewrite fmap_cons, !count_cons, IH. f_equal.
  destruct (marks s through m) eqn:E; [|by rewrite andb_true_r]. rewrite HP. destruct (set_read_keeps now m) as (_ & _ & ->). by rewrite !andb_false_r.
Qed.

(** The unread messages of a thread, as the conversation list counts them. *)
Definition unread_in (content : option pystr) (k : key) (t : list message) : Z :=
  count (fun m => of_content content m && bool_decide (key_of m = k) && unread m) t.

(** Marking a thread read marks what was seen, and nothing
    else.  With the newest number the client had rendered, the answer is how many
    messages became read; of that thread, under that filter, exactly the later
    arrivals stay unread; every other thread keeps its unread messages, the same
    number of another card or of no card included; the global count falls by the
    answer; and asking again marks nothing. *)
Theorem mark_read_thread sim p content through now t : p <> [] ->
  let s := thread sim p content in
  let '(n, t') := mark_read s through now t in
  unread_in content (sim, p) t' = count (fun m => of_content content m && bool_decide (key_of m = (sim, p)) && unread m
                                                  && from_option (fun w => w <? id m) false through) t
  /\ (forall k, k <> (sim, p) -> unread_in content k t' = unread_in content k t)
  /\ unread_total t' = unread_total t - n
  /\ (mark_read s through now t').1 = 0.
Proof.
  intros Hp s. set (Q := fun k m => of_content content m && bool_decide (key_of m = k)).
  assert (Hk : forall k m, Q k (set_read now m) = Q k m) by done.
  assert (Hm : forall m, marks s through m = Q (sim, p) m && unread m && from_option (fun w => id m <=? w) true through).
  { intros m. unfold marks, s. by rewrite thread_scope. }
  destruct (mark_read s through now t) as [n t'] eqn:E. assert (E' : t' = (mark_read s through now t).2) by by rewrite E.
  assert (En : n = count (marks s through) t) by (by injection E). split_and!.
  - rewrite E'. unfold unread_in. change (count (fun m => Q (sim, p) m && unread m) (mark_read s through now t).2 = count (fun m => Q (sim, p) m && unread m && from_option (fun w => w <? id m) false through) t).
    rewrite count_after by done. apply count_ext. intros m _. rewrite Hm. destruct (Q (sim, p) m), (unread m); try done. cbn. destruct through as [w|]; cbn; [|done].
    rewrite Z.leb_antisym. by destruct (w <? id m).
  - intros k Hne. rewrite E'. unfold unread_in. change (count (fun m => Q k m && unread m) (mark_read s through now t).2 = count (fun m => Q k m && unread m) t).
    rewrite count_after by done. apply count_ext. intros m _. rewrite Hm. destruct (Q k m) eqn:Ek; [|done].
    assert (Q (sim, p) m = false) as ->.
    { unfold Q in *. apply andb_true_iff in Ek as [_ Ek]. apply bool_decide_eq_true in Ek. rewrite Ek, bool_decide_eq_false_2 by done. apply andb_false_r. }
    cbn. by rewrite andb_true_r.
  - rewrite E', En. change (unread_total ?x) with (count (fun m => true && unread m) x). rewrite (count_after (fun _ => true)) by done.
    apply count_split. intros m Hms. unfold marks in Hms. rewrite !andb_true_iff in Hms. cbn. tauto.
  - rewrite E'. change (count (marks s through) ((fun m => if marks s through m then set_read now m else m) <$> t) = 0).
    rewrite (count_ext _ (fun _ => false)).
    + clear. induction t as [|m t IH]; [done|]. by rewrite fmap_cons, count_cons, IH.
    + intros m (m0 & -> & _)%list_elem_of_fmap. destruct (marks s through m0) eqn:E0; [|done]. unfold marks. destruct (set_read_keeps now m0) as (_ & _ & ->).
      by rewrite andb_false_r.
Qed.

(** ** The conversation list *)

(** What GROUP BY gives: every thread once. *)
Definition groups_ok (groups : list message -> list key) : Prop :=
  forall t, NoDup (groups t) /\ forall k, k ∈ groups t <-> exists m, m ∈ t /\ key_of m = k.

Definition zsum (l : list Z) : Z := foldr Z.add 0 l.
Lemma zsum_cons a l : zsum (a :: l) = a + zsum l.
Proof. done. Qed.
Lemma zsum_perm l l' : l ≡ₚ l' -> zsum l = zsum l'.
Proof. unfold zsum. induction 1; cbn; lia. Qed.

Lemma conversation_some content t k : (exists m, m ∈ t /\ of_content content m = true /\ key_of m = k) ->
  exists c, conversation_of content t k = Some c.
Proof.
  intros (m & Hm & Hc & Hk). unfold conversation_of. set (rows := filter _ t).
  assert (Hr : m ∈ ordered rows) by (unfold ordered; rewrite merge_sort_Permutation; by apply list_elem_of_filter).
  destruct (ordered rows) as [|r l]; [by apply not_elem_of_nil in Hr|]. cbn. eauto.
Qed.

Lemma max_text_spec l : (forall a, a ∈ l -> text_le a (max_text l) = true) /\ (l <> [] -> max_text l ∈ l).
Proof.
  induction l as [|a l [IH1 IH2]]; [split; [intros a H; by apply not_elem_of_nil in H|done]|]. cbn [max_text foldr]. fold (max_text l). split.
  - intros b [->|Hb]%elem_of_cons.
    + destruct (text_le a (max_text l)) eqn:E; [done|]. apply text_le_refl.
    + destruct (text_le a (max_text l)) eqn:E; [by apply IH1|]. destruct (text_le_total a (max_text l)) as [E'|E']; [congruence|].
      eapply text_le_trans; [by apply IH1|done].
  - intros _. destruct (text_le a (max_text l)) eqn:E; [|by left]. destruct l as [|x l]; [cbn in *; destruct a; [by left|done]|]. right. by apply IH2.
Qed.

(** The newest message of a thread, and its counts. *)
Lemma conversation_spec content t k c : NoDup (id <$> t) -> conversation_of content t k = Some c ->
  let rows := filter (fun m => of_content content m = true /\ key_of m = k) t in
  c_key c = k /\ c_count c = Z.of_nat (length rows) /\ c_unread c = unread_in content k t
  /\ c_latest c ∈ rows /\ c_last_ts c = ts (c_latest c)
  /\ forall m, m ∈ rows -> m <> c_latest c -> newer (pos (c_latest c)) (pos m) = true.
Proof.
  intros Hn E rows. unfold conversation_of in E. fold rows in E. pose proof (ordered_strictly rows) as Hs.
  assert (Hr : NoDup (id <$> rows)) by (eapply sublist_NoDup; [exact Hn|]; by apply fmap_sublist, sublist_filter). specialize (Hs Hr).
  assert (Hp : ordered rows ≡ₚ rows) by apply merge_sort_Permutation.
  destruct (ordered rows) as [|m0 l] eqn:Eo; [done|]. cbn in E. injection E as <-. cbn [c_key c_count c_unread c_latest c_last_ts].
  apply StronglySorted_inv in Hs as [_ HF]. rewrite Forall_forall in HF. assert (Hm0 : m0 ∈ rows) by (rewrite <- Hp; by left).
  assert (Hall : forall m, m ∈ rows -> m <> m0 -> newer (pos m0) (pos m) = true).
  { intros m Hm Hne. rewrite <- Hp in Hm. apply elem_of_cons in Hm as [->|Hm]; [done|]. by apply HF. }
  split_and!; try done.
  - unfold unread_in, count, rows. rewrite list_filter_filter. do 2 f_equal. apply list_filter_iff. intros m.
    rewrite !andb_true_iff, bool_decide_eq_true. tauto.
  - destruct (max_text_spec (ts <$> rows)) as [H1 H2]. apply text_le_antisym.
    + assert (Hne0 : ts <$> rows <> []) by (intros E0%fmap_nil_inv; rewrite E0 in Hm0; by apply not_elem_of_nil in Hm0).
      apply H2, list_elem_of_fmap in Hne0 as (m & Em & Hm).
      rewrite Em. destruct (decide (m = m0)) as [->|Hne]; [apply text_le_refl|]. pose proof (Hall m Hm Hne) as H. apply newer_spec in H. cbn in H.
      destruct H as [H|[-> _]]; [|apply text_le_refl]. destruct (text_le_total (ts m) (ts m0)); [done|congruence].
    + apply H1. by apply list_elem_of_fmap_2.
Qed.

(** Each message is counted in one thread. *)
Lemma count_threads P ks t : NoDup ks -> (forall m, m ∈ t -> P m = true -> key_of m ∈ ks) ->
  zsum ((fun k => count (fun m => P m && bool_decide (key_of m = k)) t) <$> ks) = count P t.
Proof.
  intros Hn. induction t as [|m t IH]; intros Hk.
  - clear. induction ks as [|k ks IH]; [done|]. exact IH.
  - rewrite count_cons, <- IH by (intros; apply Hk; [by right|done]). specialize (Hk m ltac:(by left)). clear IH.
    assert (H1 : forall ks, NoDup ks -> zsum ((fun k => count (fun m => P m && bool_decide (key_of m = k)) (m :: t)) <$> ks) =
      (if P m && bool_decide (key_of m ∈ ks) then 1 else 0) + zsum ((fun k => count (fun m => P m && bool_decide (key_of m = k)) t) <$> ks)).
    { clear. induction 1 as [|k ks Hk _ IH]; [by rewrite andb_false_r|]. rewrite !fmap_cons, !zsum_cons, IH, count_cons.
      destruct (P m); cbn [andb]; [|lia]. destruct (decide (key_of m = k)) as [->|Hne].
      - rewrite (bool_decide_eq_true_2 (k = k)), (bool_decide_eq_false_2 (k ∈ ks)), (bool_decide_eq_true_2 (k ∈ k :: ks)) by (done || by left). lia.
      - rewrite (bool_decide_eq_false_2 (key_of m = k)) by done. rewrite (bool_decide_ext (key_of m ∈ k :: ks) (key_of m ∈ ks)); [lia|].
        rewrite elem_of_cons. tauto. }
    rewrite H1 by done. destruct (P m); [|done]. rewrite bool_decide_eq_true_2 by auto. done.
Qed.

Lemma omap_some {A B} (f : A -> option B) l : (forall a, a ∈ l -> is_Some (f a)) -> length (omap f l) = length l
  /\ (forall g : B -> Z, forall h : A -> Z, (forall a b, a ∈ l -> f a = Some b -> g b = h a) -> g <$> omap f l = h <$> l).
Proof.
  induction l as [|a l IH]; intros H; [done|]. destruct (H a ltac:(by left)) as [b E]. destruct IH as [IH1 IH2]; [intros; apply H; by right|].
  change (omap f (a :: l)) with (match f a with Some y => y :: omap f l | None => omap f l end). rewrite E. split; [cbn; by rewrite IH1|].
  intros g h Hgh. cbn. rewrite (Hgh a b) by (done || by left). f_equal. apply IH2. intros a' b' Ha'. apply Hgh. by right.
Qed.

(** The conversation list is the messages, grouped.  When the
    limit leaves room for every thread, there is one entry for each card and
    correspondent, the most recently active first; the newest message shown for a
    thread is newer than every other of it; and the counts add up: the entries'
    message counts to the messages of that content, their unread counts to the
    unread ones, which without a filter is the badge's total. *)
Theorem conversations_partition groups limit content t : groups_ok groups -> NoDup (id <$> t) ->
  let shown := filter (fun m => of_content content m = true) t in
  let cs := conversations groups limit content t in
  (length (groups shown) <= limit)%nat ->
  c_key <$> cs ≡ₚ groups shown
  /\ StronglySorted livelier cs
  /\ Forall (fun c => c_latest c ∈ shown /\ key_of (c_latest c) = c_key c /\ c_last_ts c = ts (c_latest c)
                      /\ forall m, m ∈ shown -> key_of m = c_key c -> m <> c_latest c -> newer (pos (c_latest c)) (pos m) = true) cs
  /\ zsum (c_count <$> cs) = Z.of_nat (length shown)
  /\ zsum (c_unread <$> cs) = Z.of_nat (length (filter (fun m => unread m = true) shown))
  /\ (content = None -> zsum (c_unread <$> cs) = unread_total t).
Proof.
  intros Hg Hn shown cs Hl. set (ks := groups shown) in *. set (found := omap (conversation_of content t) ks).
  destruct (Hg shown) as [Hnd Hks]. fold ks in Hnd, Hks.
  assert (Hsome : forall k, k ∈ ks -> is_Some (conversation_of content t k)).
  { intros k (m & Hm & Hk)%Hks. apply list_elem_of_filter in Hm as [Hc Hm]. destruct (conversation_some content t k) as [c E]; [by exists m|by exists c]. }
  destruct (omap_some (conversation_of content t) ks Hsome) as [Hlen Hmap]. fold found in Hlen, Hmap.
  assert (Hcs : cs ≡ₚ found).
  { unfold cs, conversations. fold shown ks found. rewrite take_ge; [apply merge_sort_Permutation|]. rewrite merge_sort_Permutation. lia. }
  assert (Hfound : forall c, c ∈ cs -> exists k, k ∈ ks /\ conversation_of content t k = Some c) by (intros c; rewrite Hcs; apply list_elem_of_omap).
  assert (Hcount : forall P, zsum ((fun k => count (fun m => (of_content content m && P m) && bool_decide (key_of m = k)) t) <$> ks) = count (fun m => of_content content m && P m) t).
  { intros P. apply count_threads; [done|]. intros m Hm Hp. apply andb_true_iff in Hp as [Hp _]. apply Hks. exists m. split; [by apply list_elem_of_filter|done]. }
  assert (Hu : zsum (c_unread <$> cs) = count (fun m => of_content content m && unread m) t).
  { rewrite <- Hcount. apply zsum_perm. rewrite Hcs. rewrite (Hmap c_unread (fun k => count (fun m => (of_content content m && unread m) && bool_decide (key_of m = k)) t)); [done|].
    intros k c _ E. destruct (conversation_spec content t k c Hn E) as (_ & _ & -> & _). apply count_ext. intros m _. destruct (of_content content m); [apply andb_comm|done]. }
  split_and!.
  - rewrite Hcs. clear -Hsome Hn. unfold found. clearbody ks. induction ks as [|k ks IH]; [done|].
    change (omap ?f (k :: ks)) with (match f k with Some y => y :: omap f ks | None => omap f ks end).
    destruct (Hsome k ltac:(by left)) as [c E]. rewrite E. rewrite fmap_cons. destruct (conversation_spec content t k c Hn E) as (-> & _). constructor. apply IH.
    intros k' Hk'. apply Hsome. by right.
  - unfold cs, conversations. fold shown ks found. rewrite take_ge by (rewrite merge_sort_Permutation; lia).
    assert (Transitive livelier). { intros a b c Hab Hbc. unfold livelier, text_lt in *. rewrite negb_false_iff in *. by eapply text_le_trans. }
    assert (Total livelier). { intros a b. unfold livelier, text_lt. rewrite !negb_false_iff. apply text_le_total. }
    apply (StronglySorted_merge_sort livelier).
  - apply Forall_forall. intros c (k & Hk & E)%Hfound. destruct (conversation_spec content t k c Hn E) as (-> & _ & _ & Hin & Hts & Hmax).
    apply list_elem_of_filter in Hin as [[Hc Hkk] Hin]. split_and!; [by apply list_elem_of_filter|done|done|].
    intros m [Hmc Hm]%list_elem_of_filter Hmk Hne. apply Hmax; [by apply list_elem_of_filter|done].
  - trans (count (fun m => of_content content m && true) t).
    + rewrite <- Hcount. apply zsum_perm. rewrite Hcs. rewrite (Hmap c_count (fun k => count (fun m => (of_content content m && true) && bool_decide (key_of m = k)) t)); [done|].
      intros k c _ E. destruct (conversation_spec content t k c Hn E) as (_ & -> & _). unfold count. do 2 f_equal. apply list_filter_iff. intros m.
      by rewrite andb_true_r, andb_true_iff, bool_decide_eq_true.
    + unfold count, shown. do 2 f_equal. apply list_filter_iff. intros m. by rewrite andb_true_r.
  - rewrite Hu. unfold count, shown. rewrite list_filter_filter. do 2 f_equal. apply list_filter_iff. intros m. rewrite andb_true_iff. tauto.
  - intros ->. rewrite Hu. done.
Qed.

(** ** A short history *)

Definition sample_print (s : MessageScope) : pystr := match s_peer s with None => str "0a1b2c3d" | Some _ => str "4e5f6071" end.
Definition any_iso (_ : pystr) : bool := true.
Definition sample (n : Z) (from at_ text : string) : message :=
  mkMessage n (Some 1) (str "in") (str from) (str text) (str at_) (str "received") false false None None None.
(** The second was stored last but sent first. *)
Definition early : list message := [sample 1 "10086" "2025-01-01T08:00:00+00:00" "a"; sample 2 "10010" "2025-01-01T07:00:00+00:00" "b"].
Definition late : list message := early ++ [sample 3 "10086" "2025-01-01T09:00:00+00:00" "c"; sample 4 "10086" "2025-01-01T07:30:00+00:00" "d"].

Lemma sample_digest s : length (sample_print s) = 8%nat /\ Forall (fun c => 48 <= c <= 57 \/ 97 <= c <= 102) (sample_print s).
Proof. unfold sample_print. destruct (s_peer s); (split; [done|]); apply (bool_decide_eq_true_1 _); by vm_compute. Qed.

Lemma sample_dated n from at_ text : 1 <= n < 2 ^ 63 -> (length (str at_) <= 40)%nat -> forallb (fun c => (0 <=? c) && (c <? 128)) (str at_) = true ->
  dated any_iso (sample n from at_ text).
Proof.
  intros Hn Hl Ha. split; [done|done| |done]. apply Forall_forall. intros c Hc. rewrite forallb_forall in Ha.
  specialize (Ha c (proj1 (list_elem_of_In _ _) Hc)). cbn in Ha. lia.
Qed.

Lemma cursor_roundtrip_witness : exists text,
  cursor sample_print everything (sample 7 "10086" "2025-01-01T08:00:00+00:00" "a") = Ok text
  /\ parse_cursor sample_print any_iso everything text = Ok (str "2025-01-01T08:00:00+00:00", 7).
Proof.
  destruct (cursor_roundtrip sample_print any_iso sample_digest everything everything (sample 7 "10086" "2025-01-01T08:00:00+00:00" "a")) as (text & Ec & Hp).
  - apply sample_dated; [lia|cbn; lia|by vm_compute].
  - exists text. split; [exact Ec|]. rewrite Hp. by vm_compute.
Defined.

Lemma samples_ok : Forall (table_ok any_iso) [early; late].
Proof.
  assert (H : forall n from at_ text, (1 <=? n) && (n <? 2 ^ 63) = true -> (length (str at_) <=? 40)%nat = true ->
    forallb (fun c => (0 <=? c) && (c <? 128)) (str at_) = true -> dated any_iso (sample n from at_ text)).
  { intros n from at_ text H1 H2 H3. apply sample_dated; [lia|by apply Nat.leb_le|done]. }
  repeat constructor; try (by apply H); apply (bool_decide_eq_true_1 _); by vm_compute.
Qed.

(** Two arrive between the pages: the newer is not shown, the older is. *)
Lemma transcript_paging_witness : exists items over, walk sample_print any_iso everything 1 None [early; late] = Some (items, over)
  /\ over = false /\ id <$> items = [1; 4] /\ length items = 2%nat.
Proof.
  destruct (transcript_paging sample_print any_iso sample_digest everything 1 [early; late] ltac:(lia) samples_ok) as (items & over & Hw & _ & _ & _ & Hlen).
  exists items, over. split; [exact Hw|]. assert (E : walk sample_print any_iso everything 1 None [early; late] = Some ([nth 0 late (sample 0 "" "" ""); nth 3 late (sample 0 "" "" "")], false)) by by vm_compute.
  rewrite E in Hw. injection Hw as <- <-. split; [done|]. split; [by vm_compute|by apply Hlen].
Defined.

Lemma mark_read_thread_witness : let '(n, t') := mark_read (thread (Some 1) (str "10086") None) (Some 3) (str "now") late in
  n = 2 /\ unread_in None (Some 1, str "10086") t' = 1 /\ unread_total t' = 2.
Proof.
  pose proof (mark_read_thread (Some 1) (str "10086") None (Some 3) (str "now") late ltac:(done)) as H. cbv zeta in H.
  destruct (mark_read (thread (Some 1) (str "10086") None) (Some 3) (str "now") late) as [n t'] eqn:E. destruct H as (H1 & _ & H3 & _).
  assert (n = 2) as -> by by (vm_compute in E; injection E). split; [done|]. split; [rewrite H1; by vm_compute|rewrite H3; by vm_compute].
Defined.

(** The keys in order of first appearance. *)
Definition first_met (t : list message) : list key := remove_dups (key_of <$> t).
Lemma first_met_ok : groups_ok first_met.
Proof.
  intros t. split; [apply NoDup_remove_dups|]. intros k. unfold first_met. rewrite elem_of_remove_dups, list_elem_of_fmap. split.
  - intros (m & -> & Hm). by exists m. - intros (m & Hm & <-). by exists m.
Qed.

Lemma conversations_partition_witness :
  (fun c => ((c_key c).2, id (c_latest c), c_count c, c_unread c)) <$> conversations first_met 5 None late = [(str "10086", 3, 3, 3); (str "10010", 2, 1, 1)]
  /\ zsum (c_unread <$> conversations first_met 5 None late) = unread_total late.
Proof.
  destruct (conversations_partition first_met 5 None late first_met_ok) as (_ & _ & _ & _ & _ & H).
  - apply (bool_decide_eq_true_1 _). by vm_compute.
  - by apply Nat.leb_le; vm_compute.
  - split; [by vm_compute|exact (H eq_refl)].
Defined.

(** *** What the strict parser lets through *)

Definition forged (payload : pystr) : pystr := Base64.b64_digits (default [] (Base64.utf8_encode payload)).

(** A superscript two is a digit to [str.isdigit], not to [int]; nineteen nines
    fit no 64-bit column: neither request is answered 422. *)
Example superscript_row : list_messages sample_print any_iso everything 1 0
  (Some (forged (str "1|0a1b2c3d|" ++ [0xB2] ++ str "|2025-01-01"))) late = Failed ValueError.
Proof. by vm_compute. Qed.
Example huge_row : list_messages sample_print any_iso everything 1 0
  (Some (forged (str "1|0a1b2c3d|9999999999999999999|2025-01-01"))) late = Failed OverflowError.
Proof. by vm_compute. Qed.

(** Characters outside the alphabet are dropped, not refused. *)
Example junk_in_cursor : parse_cursor sample_print any_iso everything (str "!!  " ++ forged (str "1|0a1b2c3d|7|2025-01-01"))
  = Ok (str "2025-01-01", 7).
Proof. by vm_compute. Qed.
End History.
