(* ===== verification/Channels.v ===== *)
(** * Notification channels as the API keeps them (server/src/hub_server/api.py)

    What a client may see of a channel ([_channel_public]), how an edited form
    is merged with the credentials the form never carried
    ([_channel_config_for_update]), the routes on channels and rules, and the
    preview of rules.  The column [config] is what [json.loads] reads from it
    ([None]: it raises), since every access goes through it.  The interpreter's
    [str.lower] is an argument. *)

From S2P Require Import Prelude PyText PyDict Json Notify.

Module Channels.

(** ** Credentials *)

Definition SENSITIVE : list pystr :=
  str <$> ["token"; "bot_token"; "access_token"; "api_key"; "password"; "secret";
           "webhook"; "authorization"; "headers"; "url"]%string.
Definition SENSITIVE_ENDINGS : list pystr := str <$> ["_token"; "_password"; "_secret"; "_api_key"]%string.

Definition ends_with (e s : pystr) : bool := bool_decide (drop (length s - length e) s = e).

(** [s.replace("-", "_")] *)
Definition underscores (s : pystr) : pystr := (fun c => if c =? 45 then 95 else c) <$> s.

Section Secrets.
Context (lower : pystr -> pystr).

(** [str(key).strip().lower().replace("-", "_")] *)
Definition normalized (key : pystr) : pystr := underscores (lower (strip key)).

Definition is_sensitive_channel_key (key : pystr) : bool :=
  bool_decide (normalized key ∈ SENSITIVE) || existsb (fun e => ends_with e (normalized key)) SENSITIVE_ENDINGS.

Definition text_order (a b : pystr) : Prop := text_le a b = true.
#[export] Instance text_order_dec a b : Decision (text_order a b).
Proof. unfold text_order. apply _. Defined.

(** A channel's row. *)
Record channel_row := mkRow {
  h_id : Z; h_name : pystr; h_type : pystr; h_config : option json; h_enabled : bool; h_created : Z }.

Definition id_order (a b : channel_row) : Prop := h_id a <= h_id b.
#[export] Instance id_order_dec a b : Decision (id_order a b).
Proof. unfold id_order. apply _. Defined.

(** The column read as an object, [{}] for anything else. *)
Definition object_of (v : option json) : pydict (list Z) json :=
  match v with Some (JObj d) => d | _ => [] end.

(** What a GET shows of a row: [secret_fields] has the names alone. *)
Record public_row := mkPublic {
  p_id : Z; p_name : pystr; p_type : pystr; p_config : pydict (list Z) json; p_enabled : bool; p_created : Z;
  p_secret_fields : list pystr }.

Definition channel_public (row : channel_row) : public_row :=
  let config := object_of (h_config row) in
  let secret (kv : list Z * json) := is_sensitive_channel_key kv.1 in
  mkPublic (h_id row) (h_name row) (h_type row) (filter (fun kv => secret kv = false) config) (h_enabled row) (h_created row)
    (merge_sort text_order (filter (fun kv => secret kv = true) config).*1).

(** A value a client echoes back for a credential it was not shown. *)
Definition is_mask (v : json) : bool :=
  match v with
  | JStr s => negb (bool_decide (strip s = [])) && forallb (fun c => bool_decide (c ∈ [42; 0x2022])) (strip s)
  | _ => false
  end.

(** [for key, value in list(merged.items()): if ...: merged.pop(key)] *)
Definition pop_where (p : list Z * json -> bool) (d : pydict (list Z) json) : pydict (list Z) json :=
  foldl (fun merged kv => if p kv then dict_del kv.1 merged else merged) d d.

Definition clears (clear_secrets : list pystr) (key : pystr) : bool :=
  bool_decide (key ∈ clear_secrets) || bool_decide (normalized key ∈ normalized <$> clear_secrets).

(** One turn of the loop over the stored settings. *)
Definition restore (provided sensitive_names clear_secrets : list pystr) (merged : pydict (list Z) json) (kv : list Z * json) :
    pydict (list Z) json :=
  let '(key, value) := kv in
  if negb (bool_decide (normalized key ∈ sensitive_names)) then merged
  else if clears clear_secrets key then dict_del key merged
  else if negb (bool_decide (key ∈ provided)) then dict_set key value merged
  else merged.

Definition channel_config_for_update (existing : option json) (incoming : pydict (list Z) json) (clear_secrets : list pystr) :
    pydict (list Z) json :=
  let old := object_of existing in
  let merged := pop_where (fun kv => is_sensitive_channel_key kv.1 && is_mask kv.2) incoming in
  let provided := dict_keys merged in
  let sensitive_names := (normalized <$> filter (fun key => is_sensitive_channel_key key = true) (dict_keys old))
                         ++ (normalized <$> clear_secrets) in
  let merged := foldl (restore provided sensitive_names clear_secrets) merged old in
  pop_where (fun kv => is_sensitive_channel_key kv.1 && is_null kv.2) merged.

(** ** The routes *)

Inductive http_error := NotFound | InternalError.

Record tables := mkTables {
  channels : list channel_row; channels_seq : Z; rules : list Notify.rule; rules_seq : Z; sims : list Z }.

Record channel_body := mkBody {
  b_name : pystr; b_type : pystr; b_config : pydict (list Z) json; b_enabled : bool; b_clear_secrets : list pystr }.

Definition set_channels (l : list channel_row) (n : Z) (t : tables) : tables := mkTables l n (rules t) (rules_seq t) (sims t).
Definition set_rules (l : list Notify.rule) (n : Z) (t : tables) : tables := mkTables (channels t) (channels_seq t) l n (sims t).

Definition find_row (id : Z) (t : tables) : option channel_row := List.find (fun r => h_id r =? id) (channels t).

Definition list_channels (t : tables) : list public_row :=
  channel_public <$> merge_sort id_order (channels t).

Definition create_channel (body : channel_body) (now : Z) (t : tables) : res http_error public_row * tables :=
  let id := channels_seq t + 1 in
  let row := mkRow id (b_name body) (b_type body) (Some (JObj (b_config body))) (b_enabled body) now in
  (Ok (channel_public row), set_channels (channels t ++ [row]) id t).

Definition updated (body : channel_body) (row : channel_row) : channel_row :=
  mkRow (h_id row) (b_name body) (b_type body)
    (Some (JObj (channel_config_for_update (h_config row) (b_config body) (b_clear_secrets body)))) (b_enabled body) (h_created row).

Definition update_channel (id : Z) (body : channel_body) (t : tables) : res http_error public_row * tables :=
  match find_row id t with
  | None => (Err NotFound, t)
  | Some row =>
      let new := updated body row in
      (Ok (channel_public new), set_channels ((fun r => if h_id r =? id then new else r) <$> channels t) (channels_seq t) t)
  end.

(** DELETE; the rules of the channel go with it (ON DELETE CASCADE). *)
Definition delete_channel (id : Z) (t : tables) : tables :=
  mkTables (filter (fun r => h_id r <> id) (channels t)) (channels_seq t)
    (filter (fun r => Notify.r_channel r <> id) (rules t)) (rules_seq t) (sims t).

(** A rule's foreign keys; SQLite refuses the statement otherwise. *)
Definition references (r : Notify.rule) (t : tables) : bool :=
  existsb (fun c => h_id c =? Notify.r_channel r) (channels t)
  && match Notify.r_sim r with Some s => bool_decide (s ∈ sims t) | None => true end.

Definition with_id (id : Z) (r : Notify.rule) : Notify.rule :=
  Notify.mkRule id (Notify.r_sim r) (Notify.r_channel r) (Notify.r_match r) (Notify.r_pattern r) (Notify.r_template r)
    (Notify.r_priority r) (Notify.r_enabled r).

Definition create_rule (body : Notify.rule) (t : tables) : res http_error Notify.rule * tables :=
  if references body t then
    let r := with_id (rules_seq t + 1) body in (Ok r, set_rules (rules t ++ [r]) (rules_seq t + 1) t)
  else (Err InternalError, t).

(** The UPDATE checks the foreign keys when it has a row to write. *)
Definition update_rule (id : Z) (body : Notify.rule) (t : tables) : res http_error Notify.rule * tables :=
  if negb (existsb (fun r => Notify.r_id r =? id) (rules t)) then (Err NotFound, t)
  else if references body t then
    let r := with_id id body in
    (Ok r, set_rules ((fun r' => if Notify.r_id r' =? id then r else r') <$> rules t) (rules_seq t) t)
  else (Err InternalError, t).

Definition delete_rule (id : Z) (t : tables) : tables :=
  set_rules (filter (fun r => Notify.r_id r <> id) (rules t)) (rules_seq t) t.

(** The rules as they are preferred, each with its channel's name and type. *)
Definition list_rules (t : tables) : list (Notify.rule * option (pystr * pystr)) :=
  (fun r => (r, (fun c => (h_name c, h_type c)) <$> find_row (Notify.r_channel r) t)) <$> merge_sort Notify.rule_le (rules t).

(** *** Merging *)

(** A loop over a dictionary in which each turn touches the entry of its own
    key alone. *)
Lemma fold_lookup (f : pydict (list Z) json -> list Z * json -> pydict (list Z) json) k :
  (forall m kv, dict_wf m -> dict_wf (f m kv)) -> (forall m kv, dict_wf m -> kv.1 <> k -> dict_get k (f m kv) = dict_get k m) ->
  (forall m m' v, dict_wf m -> dict_wf m' -> dict_get k m = dict_get k m' -> dict_get k (f m (k, v)) = dict_get k (f m' (k, v))) ->
  forall l m, dict_wf l -> dict_wf m ->
  dict_wf (foldl f m l)
  /\ dict_get k (foldl f m l) = match dict_get k l with Some v => dict_get k (f m (k, v)) | None => dict_get k m end.
Proof.
  intros Hw Hne He l. induction l as [|[k' v'] l IH]; intros m Hl Hm; [done|].
  cbn [foldl dict_get]. unfold dict_wf in Hl. cbn in Hl. apply NoDup_cons in Hl as [Hn Hl].
  destruct (IH (f m (k', v')) Hl (Hw _ _ Hm)) as [Hwf ->]. split; [done|]. case_decide as Hk.
  - subst k'. apply dict_get_None in Hn. by rewrite Hn.
  - destruct (dict_get k l) as [v|]; [|by apply Hne; cbn; congruence].
    apply He; [by apply Hw|done|]. by apply Hne; cbn; congruence.
Qed.

Definition nonnull (o : option json) : option json := match o with Some JNull => None | _ => o end.

Lemma pop_where_lookup p d k : dict_wf d ->
  dict_wf (pop_where p d)
  /\ dict_get k (pop_where p d) = match dict_get k d with Some v => if p (k, v) then None else Some v | None => None end.
Proof.
  intros Hd. unfold pop_where. set (f := fun m kv => _).
  assert (F : dict_wf (foldl f d d) /\ dict_get k (foldl f d d) = match dict_get k d with Some v => dict_get k (f d (k, v)) | None => dict_get k d end).
  { apply fold_lookup; [| | |done..]; subst f; cbn.
    - intros m kv Hm. destruct (p kv); [by apply dict_del_wf|done].
    - intros m kv Hm Hne. destruct (p kv); [|done]. by apply dict_get_del_ne.
    - intros m m' v Hm Hm' E. destruct (p (k, v)); [|done]. by rewrite !dict_get_del. }
  destruct F as [Hw ->]. split; [exact Hw|]. subst f. cbn.
  destruct (dict_get k d) as [v|] eqn:E; [|done]. destruct (p (k, v)); [by apply dict_get_del|done].
Qed.

Lemma restore_wf provided names clear m kv : dict_wf m -> dict_wf (restore provided names clear m kv).
Proof. destruct kv. unfold restore. repeat case_match; auto using dict_del_wf, dict_set_wf. Qed.

Lemma restore_ne provided names clear k m kv : dict_wf m -> kv.1 <> k -> dict_get k (restore provided names clear m kv) = dict_get k m.
Proof. destruct kv. cbn. intros _ Hk. unfold restore. repeat case_match; auto using dict_get_del_ne, dict_get_set_ne. Qed.

Lemma restore_same provided names clear k m m' v : dict_wf m -> dict_wf m' -> dict_get k m = dict_get k m' ->
  dict_get k (restore provided names clear m (k, v)) = dict_get k (restore provided names clear m' (k, v)).
Proof. intros Hm Hm' E. unfold restore. repeat case_match; rewrite ?dict_get_del, ?dict_get_set by done; done. Qed.

Lemma sensitive_normalized k k' : normalized k = normalized k' -> is_sensitive_channel_key k = is_sensitive_channel_key k'.
Proof. intros E. unfold is_sensitive_channel_key. by rewrite E. Qed.

Lemma clears_normalized clear k : clears clear k = bool_decide (normalized k ∈ normalized <$> clear).
Proof.
  unfold clears. destruct (bool_decide (k ∈ clear)) eqn:E; [|done]. symmetry. apply bool_decide_eq_true in E. apply bool_decide_eq_true.
  by apply list_elem_of_fmap_2.
Qed.

(** The turn of the loop that meets [k]. *)
Lemma restore_lookup (old : pydict (list Z) json) clear (merged : pydict (list Z) json) k v : dict_get k old = Some v -> dict_wf merged ->
  dict_get k (restore (dict_keys merged)
    ((normalized <$> filter (fun key => is_sensitive_channel_key key = true) (dict_keys old)) ++ (normalized <$> clear)) clear merged (k, v))
  = if clears clear k then None
    else if is_sensitive_channel_key k then Some (default v (dict_get k merged)) else dict_get k merged.
Proof.
  intros Hk Hm. apply dict_get_Some_in, (list_elem_of_fmap_2 fst) in Hk. cbn in Hk. unfold restore. rewrite clears_normalized.
  destruct (is_sensitive_channel_key k) eqn:Es.
  - rewrite bool_decide_eq_true_2 by (apply elem_of_app; left; apply list_elem_of_fmap_2, list_elem_of_filter; by split). cbn [negb].
    destruct (bool_decide (normalized k ∈ normalized <$> clear)); [by apply dict_get_del|].
    destruct (dict_get k merged) as [w|] eqn:E.
    + rewrite bool_decide_eq_true_2 by (by apply dict_get_Some_in, (list_elem_of_fmap_2 fst) in E). exact E.
    + apply dict_get_None in E. rewrite bool_decide_eq_false_2 by done. apply dict_get_set.
  - destruct (bool_decide (normalized k ∈ normalized <$> clear)) eqn:Ec.
    + rewrite bool_decide_eq_true_2 by (apply elem_of_app; right; by apply bool_decide_eq_true in Ec). by apply dict_get_del.
    + rewrite bool_decide_eq_false_2; [done|]. apply bool_decide_eq_false in Ec. intros [(k' & E & Hf)%list_elem_of_fmap|Hc]%elem_of_app; [|done].
      apply list_elem_of_filter in Hf as [Hf _]. apply sensitive_normalized in E. congruence.
Qed.

(** What an update stores under each key. *)
Lemma update_lookup existing incoming clear k : dict_wf (object_of existing) -> dict_wf incoming ->
  dict_wf (channel_config_for_update existing incoming clear)
  /\ dict_get k (channel_config_for_update existing incoming clear) =
    let old := dict_get k (object_of existing) in
    let shown := dict_get k incoming in
    if is_sensitive_channel_key k then
      if bool_decide (is_Some old) && clears clear k then None
      else nonnull (match shown with Some v => if is_mask v then old else shown | None => old end)
    else if bool_decide (is_Some old) && clears clear k then None else shown.
Proof.
  intros Ho Hi. unfold channel_config_for_update.
  set (old := object_of existing) in *. set (merged := pop_where _ incoming).
  destruct (pop_where_lookup (fun kv => is_sensitive_channel_key kv.1 && is_mask kv.2) incoming k Hi) as [Hm Em]. fold merged in Hm, Em.
  set (names := _ ++ _). set (provided := dict_keys merged).
  destruct (fold_lookup (restore provided names clear) k (restore_wf _ _ _) (restore_ne _ _ _ k) (restore_same _ _ _ k) old merged Ho Hm) as [Hw Ew].
  destruct (pop_where_lookup (fun kv => is_sensitive_channel_key kv.1 && is_null kv.2) _ k Hw) as [Hr Er].
  split; [exact Hr|]. rewrite Er, Ew. clear Er Ew Hr Hw. cbn [fst snd] in *.
  destruct (dict_get k old) as [v|] eqn:Eo.
  - subst names provided. rewrite (restore_lookup old clear merged k v) by done. rewrite bool_decide_eq_true_2 by eauto. cbn [andb].
    rewrite Em. unfold nonnull. destruct (is_sensitive_channel_key k); cbn [orb andb].
    + destruct (clears clear k); [done|]. destruct (dict_get k incoming) as [w|]; [destruct (is_mask w)|]; try (by destruct v); by destruct w.
    + destruct (clears clear k); [done|]. by destruct (dict_get k incoming).
  - rewrite bool_decide_eq_false_2 by (by intros [? ?]). cbn [andb]. rewrite Em.
    unfold nonnull. destruct (is_sensitive_channel_key k), (dict_get k incoming) as [w|]; cbn [andb]; try done.
    destruct (is_mask w); [done|by destruct w].
Qed.

(** ** What a client can learn *)

(** The requests that list, create, edit and delete channels and rules, and
    their answers. *)
Inductive request :=
| List | Create (body : channel_body) (now : Z) | Update (id : Z) (body : channel_body) | Delete (id : Z)
| ListRules | CreateRule (body : Notify.rule) | UpdateRule (id : Z) (body : Notify.rule) | DeleteRule (id : Z).
Inductive answer :=
| Rows (l : list public_row) | Row (r : res http_error public_row)
| RuleRows (l : list (Notify.rule * option (pystr * pystr))) | RuleRow (r : res http_error Notify.rule) | Done.

Definition serve (t : tables) (q : request) : answer * tables :=
  match q with
  | List => (Rows (list_channels t), t)
  | Create body now => let '(r, t) := create_channel body now t in (Row r, t)
  | Update id body => let '(r, t) := update_channel id body t in (Row r, t)
  | Delete id => (Done, delete_channel id t)
  | ListRules => (RuleRows (list_rules t), t)
  | CreateRule body => let '(r, t) := create_rule body t in (RuleRow r, t)
  | UpdateRule id body => let '(r, t) := update_rule id body t in (RuleRow r, t)
  | DeleteRule id => (Done, delete_rule id t)
  end.

Fixpoint session (t : tables) (qs : list request) : list answer :=
  match qs with [] => [] | q :: qs => let '(a, t) := serve t q in a :: session t qs end.

(** Two settings that differ in the value of a credential at most. *)
Definition alike (x y : list Z * json) : Prop :=
  x.1 = y.1 /\ if is_sensitive_channel_key x.1 then is_null x.2 = is_null y.2 else x.2 = y.2.

Definition rows_alike (r s : channel_row) : Prop :=
  h_id r = h_id s /\ h_name r = h_name s /\ h_type r = h_type s /\ h_enabled r = h_enabled s /\ h_created r = h_created s
  /\ Forall2 alike (object_of (h_config r)) (object_of (h_config s)).

Definition tables_alike (t u : tables) : Prop :=
  Forall2 rows_alike (channels t) (channels u) /\ channels_seq t = channels_seq u /\ rules t = rules u
  /\ rules_seq t = rules_seq u /\ sims t = sims u.

#[local] Instance alike_refl : Reflexive alike.
Proof. intros [k v]. split; [done|]. cbn. by destruct (is_sensitive_channel_key k). Qed.

#[local] Instance rows_alike_refl : Reflexive rows_alike.
Proof. intros r. by split_and!. Qed.

Lemma alike_keys d e : Forall2 alike d e -> dict_keys d = dict_keys e.
Proof. unfold dict_keys. induction 1 as [|[k v] [k' v'] d e [E _] _ IH]; [done|]. rewrite !fmap_cons, IH. by f_equal. Qed.

Lemma alike_del k d e : Forall2 alike d e -> Forall2 alike (dict_del k d) (dict_del k e).
Proof.
  induction 1 as [|[k1 v1] [k2 v2] d e Ha Hd IH]; [done|]. cbn. destruct Ha as [E Ha]. cbn in E. subst k2.
  case_decide; [done|]. by constructor.
Qed.

Lemma alike_set k v w d e : Forall2 alike d e -> alike (k, v) (k, w) -> Forall2 alike (dict_set k v d) (dict_set k w e).
Proof.
  intros Hd Hv. induction Hd as [|[k1 v1] [k2 v2] d e Ha Hd IH]; [constructor; [done|constructor]|]. cbn. destruct Ha as [E Ha]. cbn in E. subst k2.
  case_decide as Hk; [subst|]; by constructor.
Qed.

(** Loops over settings that are alike. *)
Lemma alike_fold (f g : pydict (list Z) json -> list Z * json -> pydict (list Z) json) :
  (forall d e x y, Forall2 alike d e -> alike x y -> Forall2 alike (f d x) (g e y)) ->
  forall l m d e, Forall2 alike l m -> Forall2 alike d e -> Forall2 alike (foldl f d l) (foldl g e m).
Proof. intros Hf l m d e Hl. revert d e. induction Hl as [|x y l m Hx Hl IH]; intros d e Hd; [done|]. cbn. by apply IH, Hf. Qed.

Lemma alike_update existing existing' incoming clear : Forall2 alike (object_of existing) (object_of existing') ->
  Forall2 alike (channel_config_for_update existing incoming clear) (channel_config_for_update existing' incoming clear).
Proof.
  intros Ho. unfold channel_config_for_update. rewrite (alike_keys _ _ Ho).
  assert (Hl : Forall2 alike
    (foldl (restore (dict_keys (pop_where (fun kv => is_sensitive_channel_key kv.1 && is_mask kv.2) incoming))
       ((normalized <$> filter (fun key => is_sensitive_channel_key key = true) (dict_keys (object_of existing'))) ++ (normalized <$> clear)) clear)
       (pop_where (fun kv => is_sensitive_channel_key kv.1 && is_mask kv.2) incoming) (object_of existing))
    (foldl (restore (dict_keys (pop_where (fun kv => is_sensitive_channel_key kv.1 && is_mask kv.2) incoming))
       ((normalized <$> filter (fun key => is_sensitive_channel_key key = true) (dict_keys (object_of existing'))) ++ (normalized <$> clear)) clear)
       (pop_where (fun kv => is_sensitive_channel_key kv.1 && is_mask kv.2) incoming) (object_of existing'))).
  { apply alike_fold; [|done|reflexivity]. intros d e [k v] [k' w] Hd Ha. assert (k = k') as <- by apply Ha. unfold restore.
    repeat case_match; auto using alike_del, alike_set. }
  unfold pop_where at 1 3. apply alike_fold; [|done..]. intros d e [k v] [k' w] Hd [E Ha]. cbn in *. subst k'.
  destruct (is_sensitive_channel_key k); cbn; [|done]. rewrite Ha. destruct (is_null w); [by apply alike_del|done].
Qed.

Lemma alike_public r s : rows_alike r s -> channel_public r = channel_public s.
Proof.
  intros (E1 & E2 & E3 & E4 & E5 & Hc). unfold channel_public. rewrite E1, E2, E3, E4, E5. f_equal.
  - induction Hc as [|[k v] [k' v'] d e [E Ha] _ IH]; [done|]. cbn in E. subst k'. cbn in Ha. rewrite !filter_cons. cbn.
    destruct (is_sensitive_channel_key k) eqn:Es; [by repeat case_decide|]. subst v'. repeat case_decide; try done. by f_equal.
  - f_equal. induction Hc as [|[k v] [k' v'] d e [E Ha] _ IH]; [done|]. cbn in E. subst k'. rewrite !filter_cons. cbn.
    repeat case_decide; try done. cbn. by f_equal.
Qed.

Lemma alike_find t u id : tables_alike t u -> option_Forall2 rows_alike (find_row id t) (find_row id u).
Proof.
  intros (Hc & _). unfold find_row. induction Hc as [|r s l m Hr _ IH]; [constructor|]. cbn. assert (E : h_id r = h_id s) by apply Hr. rewrite E.
  destruct (h_id s =? id); [by constructor|done].
Qed.

(** Sorting by what two lists agree on keeps them in step. *)
Section Sorting.
Context {A : Type} (R : A -> A -> Prop) `{forall x y, Decision (R x y)} (P : A -> A -> Prop).
Context (agree : forall x x' y y', P x x' -> P y y' -> R x y <-> R x' y').

Lemma merge_step l l' m m' : Forall2 P l l' -> Forall2 P m m' -> Forall2 P (list_merge R l m) (list_merge R l' m').
Proof.
  intros Hl. revert m m'. induction Hl as [|x x' l l' Hx Hl IHl].
  { intros m m' Hm. by rewrite !list_merge_nil_l. }
  intros m m' Hm. induction Hm as [|y y' m m' Hy Hm IHm].
  { rewrite !list_merge_nil_r. by constructor. }
  rewrite !list_merge_cons. pose proof (agree x x' y y' Hx Hy). do 2 case_decide; [constructor; [done|apply IHl; by constructor]|naive_solver..|by constructor].
Qed.

Lemma stack_step st st' l l' : Forall2 (option_Forall2 (Forall2 P)) st st' -> Forall2 P l l' ->
  Forall2 (option_Forall2 (Forall2 P)) (merge_list_to_stack R st l) (merge_list_to_stack R st' l').
Proof.
  intros Hst. revert l l'. induction Hst as [|o o' st st' Ho Hst IH]; intros l l' Hl; [by repeat constructor|].
  destruct Ho as [k k' Hk|]; cbn.
  - constructor; [constructor|]. by apply IH, merge_step.
  - constructor; [by constructor|done].
Qed.

Lemma unstack_step st st' : Forall2 (option_Forall2 (Forall2 P)) st st' -> Forall2 P (merge_stack R st) (merge_stack R st').
Proof. induction 1 as [|o o' st st' Ho Hst IH]; [done|]. destruct Ho as [k k' Hk|]; cbn; [by apply merge_step|done]. Qed.

Lemma merge_sort_step l l' : Forall2 P l l' -> Forall2 P (merge_sort R l) (merge_sort R l').
Proof.
  unfold merge_sort. intros Hl. assert (Hs : Forall2 (option_Forall2 (Forall2 P)) [] []) by constructor. revert Hs.
  generalize (@nil (option (list A))) at 1 3 as st. generalize (@nil (option (list A))) as st'.
  induction Hl as [|x x' l l' Hx Hl IH]; intros st' st Hs; cbn; [by apply unstack_step|]. apply IH, stack_step; by repeat constructor.
Qed.
End Sorting.

Lemma alike_sorted l m : Forall2 rows_alike l m -> Forall2 rows_alike (merge_sort id_order l) (merge_sort id_order m).
Proof. apply merge_sort_step. unfold id_order. by intros r r' s s' (-> & _) (-> & _). Qed.

Lemma alike_map f g l m : (forall r s, rows_alike r s -> rows_alike (f r) (g s)) -> Forall2 rows_alike l m -> Forall2 rows_alike (f <$> l) (g <$> m).
Proof. intros Hf. induction 1; constructor; auto. Qed.

Lemma alike_updated body r s : rows_alike r s -> rows_alike (updated body r) (updated body s).
Proof. intros (E1 & E2 & E3 & E4 & E5 & Hc). split_and!; try done. by apply alike_update. Qed.

Lemma alike_references r t u : tables_alike t u -> references r t = references r u.
Proof.
  intros (Hc & _ & _ & _ & Hs). unfold references. rewrite Hs. f_equal.
  induction Hc as [|x y l m (E & _) _ IH]; [done|]. cbn. by rewrite E, IH.
Qed.

Lemma alike_rules t u l n : tables_alike t u -> tables_alike (set_rules l n t) (set_rules l n u).
Proof. intros (Hc & Hs & _ & _ & Hi). by split_and!. Qed.

Lemma serve_alike t u q : tables_alike t u -> exists a t' u', serve t q = (a, t') /\ serve u q = (a, u') /\ tables_alike t' u'.
Proof.
  intros Ht. pose proof Ht as (Hc & Hs & Hr & Hrs & Hsims). destruct q as [|body now|id body|id| |body|id body|id]; cbn [serve].
  - eexists _, _, _. split_and!; [reflexivity| |exact Ht]. do 2 f_equal. unfold list_channels. apply alike_sorted in Hc.
    induction Hc as [|r s l m Hr' _ IH]; [done|]. by rewrite !fmap_cons, (alike_public r s), IH.
  - unfold create_channel. rewrite Hs. eexists _, _, _. split_and!; [reflexivity..|]. split; [|done]. cbn. apply Forall2_app; [done|]. constructor; [reflexivity|constructor].
  - unfold update_channel. destruct (alike_find t u id Ht) as [r s Hrs'|]; [|by eexists _, _, _].
    eexists _, _, _. split_and!; [reflexivity| |].
    + do 3 f_equal. symmetry. by apply alike_public, alike_updated.
    + split; [|done]. cbn. apply alike_map; [|done]. intros r' s' Hr'. destruct Hr' as (E & Hr'). rewrite E.
      destruct (h_id s' =? id); [by apply alike_updated|by split].
  - eexists _, _, _. split_and!; [reflexivity..|]. split_and!; cbn; try done; [|by rewrite Hr].
    clear -Hc. induction Hc as [|r s l m Hr _ IH]; [done|]. rewrite !filter_cons. destruct Hr as (E & Hr). rewrite E.
    case_decide; [|done]. constructor; [by split|done].
  - eexists _, _, _. split_and!; [reflexivity| |exact Ht]. do 2 f_equal. unfold list_rules. rewrite Hr. apply list_fmap_ext. intros _ r _. f_equal.
    destruct (alike_find t u (Notify.r_channel r) Ht) as [x y (_ & E1 & E2 & _)|]; [cbn; by rewrite E1, E2|done].
  - unfold create_rule. rewrite (alike_references body t u Ht), Hr, Hrs. destruct (references body u); [|by eexists _, _, _].
    eexists _, _, _. split_and!; [reflexivity..|]. by apply alike_rules.
  - unfold update_rule. rewrite Hr, Hrs, (alike_references body t u Ht). destruct (negb _); [by eexists _, _, _|].
    destruct (references body u); [|by eexists _, _, _]. eexists _, _, _. split_and!; [reflexivity..|]. by apply alike_rules.
  - unfold delete_rule. rewrite Hr, Hrs. eexists _, _, _. split_and!; [reflexivity..|]. by apply alike_rules.
Qed.

(** C17 (safety): the routes that show and edit channels and rules never tell a
    credential.  Take two servers whose channels differ in nothing but the
    values of credentials (a token, a webhook, a URL, headers, a password --
    the names of these settings, and whether one is null, are no secret);
    whatever sequence of requests a client makes -- channels and rules listed,
    created, edited with echoed masks or explicit clears, deleted -- every
    answer is the same on both.  (A backup is the database, credentials
    included, and the test of a channel repeats what its provider said: these
    two routes are not of this kind.) *)
Theorem credentials_hidden (t u : tables) (qs : list request) : tables_alike t u -> session t qs = session u qs.
Proof.
  revert t u. induction qs as [|q qs IH]; intros t u Ht; [done|]. cbn [session].
  destruct (serve_alike t u q Ht) as (a & t' & u' & -> & -> & Ht'). by rewrite (IH t' u').
Qed.

(** ** Editing *)

Lemma shown_lookup row k :
  dict_get k (p_config (channel_public row)) = if is_sensitive_channel_key k then None else dict_get k (object_of (h_config row)).
Proof.
  cbn. induction (object_of (h_config row)) as [|[k' v] d IH]; [by destruct (is_sensitive_channel_key k)|].
  rewrite filter_cons. case_decide as Hs; cbn [fst] in Hs; cbn [dict_get]; case_decide as Hk; try exact IH; subst.
  - by rewrite Hs.
  - rewrite IH. by destruct (is_sensitive_channel_key k').
Qed.

(** What a client sends back after showing a row: its settings as they were
    shown, and any credential left out or masked. *)
Definition unedited (row : channel_row) (incoming : pydict (list Z) json) : Prop :=
  dict_wf incoming
  /\ (forall k, is_sensitive_channel_key k = false -> dict_get k incoming = dict_get k (p_config (channel_public row)))
  /\ (forall k v, is_sensitive_channel_key k = true -> dict_get k incoming = Some v -> is_mask v = true).

(** C18 (roundtrip): a form saved as it was shown loses no credential.  The GET
    shows no credential; when the same settings come back in a PUT that clears
    nothing -- the credentials left out, or masked as older clients do -- the
    route answers, and the row it stores has every setting it had, credentials
    included, under the same id. *)
Theorem saved_as_shown (t : tables) (row : channel_row) (body : channel_body) :
  find_row (h_id row) t = Some row -> dict_wf (object_of (h_config row)) ->
  (forall k, is_sensitive_channel_key k = true -> dict_get k (object_of (h_config row)) <> Some JNull) ->
  unedited row (b_config body) -> b_clear_secrets body = [] ->
  exists p t' row', update_channel (h_id row) body t = (Ok p, t') /\ find_row (h_id row) t' = Some row' /\ p = channel_public row'
    /\ forall k, dict_get k (object_of (h_config row')) = dict_get k (object_of (h_config row)).
Proof.
  intros Hf Hw Hn (Hi & Hshown & Hmask) Hc. unfold update_channel. rewrite Hf.
  eexists _, _, (updated body row). split_and!; [reflexivity| |done|].
  - unfold find_row in *. cbn. induction (channels t) as [|r l IH]; [done|]. cbn in *.
    destruct (h_id r =? h_id row) eqn:E; cbn; [by rewrite Z.eqb_refl|]. rewrite E. by apply IH.
  - intros k. cbn [h_config updated object_of]. rewrite Hc.
    destruct (update_lookup (h_config row) (b_config body) [] k Hw Hi) as [_ ->]. cbn zeta.
    replace (clears [] k) with false by (unfold clears; cbn; by rewrite !bool_decide_eq_false_2 by apply not_elem_of_nil).
    rewrite andb_false_r. destruct (is_sensitive_channel_key k) eqn:Es.
    + specialize (Hn k Es). specialize (Hmask k). destruct (dict_get k (b_config body)) as [v|]; [rewrite (Hmask v) by done|];
        (destruct (dict_get k (object_of _)) as [[]|]; done).
    + by rewrite Hshown, shown_lookup, Es.
Qed.

End Secrets.

(** ** The preview of rules *)

Section Preview.
Context (is_word : Z -> bool) (repr local : json -> pystr) (lower : pystr -> pystr) (search : pystr -> pystr -> option bool).

(** The row as the notifier reads it. *)
Definition notified (row : channel_row) : Notify.channel :=
  Notify.mkChannel (h_id row) (h_name row) (h_enabled row) (jget "title" (object_of (h_config row))).

(** The card's row, as far as a preview shows it. *)
Record sim_row := mkSim { m_iccid : json; m_label : json; m_phone : json }.

Definition preview_message (peer body now : pystr) (sim : option sim_row) : frame :=
  let field f := match sim with Some s => f s | None => JStr [] end in
  [(str "peer", JStr peer); (str "body", JStr body); (str "ts", JStr now);
   (str "sim_iccid", field m_iccid); (str "sim_label", field m_label); (str "phone_number", field m_phone);
   (str "device", JStr [])].

(** The entries: rule, channel, payload.  [None]: a 500. *)
Definition preview_rules (sim_id : option Z) (peer body now : pystr) (sim : option sim_row) (t : tables) :
    option (list (Notify.rule * Notify.channel * Notify.Payload)) :=
  context ← Notify.context_for local (preview_message peer body now sim) [] now;
  matched ← Notify.match_rules lower search (rules t) (notified <$> channels t) sim_id (JStr body);
  mapM (fun rc : Notify.rule * Notify.channel => payload ← Notify.render_payload is_word repr rc.2 context (Some rc.1); Some (rc, payload)) matched.

(** The placeholders of a template, in order. *)
Fixpoint names (fuel : nat) (s : pystr) : list pystr :=
  match fuel, s with
  | S fuel, _ :: s' => match Notify.placeholder is_word s with Some (n, rest) => n :: names fuel rest | None => names fuel s' end
  | _, _ => []
  end.

Definition filled (template : pystr) : pystr := match template with [] => Notify.DEFAULT_TEMPLATE | _ => template end.

(** The template asks for neither the module nor the time. *)
Definition spares (template : pystr) : Prop :=
  str "device" ∉ names (length (filled template)) (filled template) /\ str "timestamp" ∉ names (length (filled template)) (filled template).

Lemma sub_agree (ctx ctx' : Notify.context) fuel : forall s, (forall n, n ∈ names fuel s -> dict_get n ctx = dict_get n ctx') ->
  Notify.sub_placeholders is_word repr fuel ctx s = Notify.sub_placeholders is_word repr fuel ctx' s.
Proof.
  induction fuel as [|fuel IH]; intros s H; [done|]. destruct s as [|c s]; [done|]. cbn [Notify.sub_placeholders names] in *.
  destruct (Notify.placeholder is_word (c :: s)) as [[n rest]|].
  - rewrite (IH rest) by (intros m Hm; apply H; by right). f_equal. unfold Notify.swap. by rewrite (H n) by left.
  - f_equal. by apply IH.
Qed.

(** The contexts agree but for the module and the time. *)
Definition alike_contexts (ctx ctx' : Notify.context) : Prop :=
  forall n, n <> str "device" -> n <> str "timestamp" -> dict_get n ctx = dict_get n ctx'.

Lemma render_agree ctx ctx' template : alike_contexts ctx ctx' -> spares template ->
  Notify.render is_word repr template ctx = Notify.render is_word repr template ctx'.
Proof.
  intros Hc [Hd Ht]. unfold Notify.render. apply sub_agree. intros n Hn. apply Hc; intros ->; [by apply Hd|by apply Ht].
Qed.

(** The message has the preview's sender, and its card the number, the label
    and the telephone number of the preview's card, one of the latter two being
    known. *)
Definition as_previewed (peer : pystr) (sim : option sim_row) (m f : frame) : Prop :=
  let field g := match sim with Some s => g s | None => JStr [] end in
  Notify.first_truthy [jget "peer" m; jget "peer" f] (JStr []) = JStr peer
  /\ Notify.first_truthy [jget "sim_iccid" m; jget "iccid" f] (JStr []) = Notify.first_truthy [field m_iccid; JNull] (JStr [])
  /\ jget "sim_label" m = field m_label /\ jget "phone_number" m = field m_phone
  /\ truthy (field m_label) || truthy (field m_phone) = true.

Lemma preview_body peer body now sim : Notify.notification_body (preview_message peer body now sim) [] = Some (JStr body).
Proof.
  unfold Notify.notification_body, Notify.salvaged. change (Notify.is_damaged (preview_message peer body now sim) []) with false.
  cbn [negb mbind option_bind]. change (jget "body" (preview_message peer body now sim)) with (JStr body). by destruct body.
Qed.

Lemma card_known message iccid device v : truthy (jget "sim_label" message) || truthy (jget "phone_number" message) = true ->
  Notify.card_name message iccid device = Some v -> v = Notify.first_truthy [jget "sim_label" message; jget "phone_number" message] JNull.
Proof.
  unfold Notify.card_name. intros Hk H. apply bind_Some in H as (tail & _ & [= <-]). unfold Notify.first_truthy. cbn [List.find].
  destruct (truthy (jget "sim_label" message)); [done|]. cbn [orb] in Hk. by rewrite Hk.
Qed.

Lemma card_some message iccid device device' (message' : frame) v : Notify.card_name message' iccid device' = Some v -> is_Some (Notify.card_name message iccid device).
Proof. unfold Notify.card_name. intros H. apply bind_Some in H as (tail & -> & _). by eexists. Qed.

Lemma contexts_alike peer body now now' sim m f ctx :
  Notify.context_for local (preview_message peer body now sim) [] now = Some ctx -> Notify.notification_body m f = Some (JStr body) ->
  as_previewed peer sim m f -> exists ctx', Notify.context_for local m f now' = Some ctx' /\ alike_contexts ctx ctx'.
Proof.
  intros Hp Hb (E1 & E2 & E3 & E4 & Hk). unfold Notify.context_for in *. rewrite preview_body in Hp. rewrite Hb.
  cbn [mbind option_bind] in *. set (pm := preview_message peer body now sim) in *.
  apply bind_Some in Hp as (card & Hcard & [= <-]).
  change (Notify.first_truthy [jget "sim_iccid" pm; jget "iccid" []] (JStr []))
    with (Notify.first_truthy [match sim with Some s => m_iccid s | None => JStr [] end; JNull] (JStr [])) in Hcard.
  rewrite E2. destruct (card_some m _ (Notify.first_truthy [jget "device" m; jget "device" f] (JStr [])) _ _ _ Hcard) as [card' Hcard'].
  rewrite Hcard'. cbn [mbind option_bind]. eexists. split; [done|].
  apply card_known in Hcard; [|exact Hk]. apply card_known in Hcard'; [|by rewrite E3, E4].
  rewrite E3, E4 in Hcard'. change (jget "sim_label" pm) with (match sim with Some s => m_label s | None => JStr [] end) in Hcard.
  change (jget "phone_number" pm) with (match sim with Some s => m_phone s | None => JStr [] end) in Hcard. rewrite <- Hcard in Hcard'. subst card'.
  intros n Hd Ht. cbn [dict_get]. rewrite E1.
  change (Notify.first_truthy [jget "iccid" pm; JNull] (JStr [])) with (JStr []).
  assert (E0 : Notify.first_truthy [jget "peer" pm; jget "peer" []] (JStr []) = JStr peer) by by destruct peer. rewrite E0.
  change (Notify.first_truthy [jget "sim_iccid" pm; jget "iccid" []] (JStr []))
    with (Notify.first_truthy [match sim with Some s => m_iccid s | None => JStr [] end; JNull] (JStr [])).
  rewrite !(decide_False _ _ Ht), !(decide_False _ _ Hd). done.
Qed.

Lemma shown_targets (l : list (Notify.rule * Notify.channel)) (ctx : Notify.context) (shown : list (Notify.rule * Notify.channel * Notify.Payload)) :
  mapM (fun rc : Notify.rule * Notify.channel => payload ← Notify.render_payload is_word repr rc.2 ctx (Some rc.1); Some (rc, payload)) l = Some shown ->
  map (fun t : Notify.rule * Notify.channel => (Notify.c_id t.2, Some (Notify.r_id t.1))) l = (fun e => (Notify.c_id e.1.2, Some (Notify.r_id e.1.1))) <$> shown.
Proof.
  revert shown. induction l as [|[r c] l IH]; intros shown Hp; [by injection Hp as <-|].
  cbn in Hp. destruct (Notify.render_payload _ _ _ _ _) as [p|]; [|done]. cbn in Hp. destruct (mapM _ l) as [rest|] eqn:El; [|done].
  cbn in Hp. injection Hp as <-. exact (f_equal (cons (Notify.c_id c, Some (Notify.r_id r))) (IH rest eq_refl)).
Qed.

(** C39 (equivalence): the preview shows what would happen.  Whenever the
    preview of a text answers, a received message on that card whose text, as
    notifications read it, is that text (a damaged message's is its notice and
    what was salvaged), and which is not held back as a data message, is pushed
    to exactly the channels the preview lists, each by the rule it lists,
    whatever else the row and the frame it came with hold.  And when the
    message has the sender of the preview and a card with the same number,
    label and telephone number, one of the two known, each push has the text
    and the title shown, unless its template asks for the module or the time,
    which a preview cannot know; for a card with neither the preview may name
    another one (see [preview_names_another_card]). *)
Theorem preview_is_what_happens (t : tables) (sim_id : option Z) (peer body now now' : pystr) (sim : option sim_row) (m f : frame)
    (shown : list (Notify.rule * Notify.channel * Notify.Payload)) :
  preview_rules sim_id peer body now sim t = Some shown ->
  Notify.row_id (jget "sim_id" m) = sim_id -> Notify.suppressed m f = Some false -> Notify.notification_body m f = Some (JStr body) ->
  Notify.message_targets lower search (Some m) f (rules t) (notified <$> channels t)
    = Some ((fun e => (Notify.c_id e.1.2, Some (Notify.r_id e.1.1))) <$> shown)
  /\ (as_previewed peer sim m f -> forall e title text, e ∈ shown ->
      exists p, Notify.payload_for is_word repr local (str "message") title text f (Some m) (Some e.1.1) e.1.2 now' = Some (Some p)
        /\ (spares (Notify.r_template e.1.1) -> Notify.p_text p = Notify.p_text e.2)
        /\ (forall head, as_str (Notify.first_truthy [Notify.c_title e.1.2] (JStr Notify.DEFAULT_TITLE)) = Some head ->
              spares head -> Notify.p_title p = Notify.p_title e.2)).
Proof.
  unfold preview_rules. intros Hp Hs Hsup Hb.
  destruct (Notify.context_for local (preview_message peer body now sim) [] now) as [ctx|] eqn:Ec; [|done]. cbn [mbind option_bind] in Hp.
  destruct (Notify.match_rules lower search (rules t) (notified <$> channels t) sim_id (JStr body)) as [l|] eqn:Em; [|done].
  cbn [mbind option_bind] in Hp. split.
  - unfold Notify.message_targets. rewrite Hsup, Hb, Hs. cbn [mbind option_bind]. rewrite Em. cbn [mbind option_bind]. f_equal. by apply shown_targets with ctx.
  - intros Has e title text He. destruct (contexts_alike _ _ _ now' _ _ _ _ Ec Hb Has) as (ctx' & Ec' & Hal).
    unfold Notify.payload_for. rewrite bool_decide_eq_true_2 by done. rewrite Ec'. cbn [mbind option_bind].
    apply mapM_Some in Hp. apply list_elem_of_lookup_1 in He as [n He]. destruct (Forall2_lookup_r _ _ _ _ _ Hp He) as ([r c] & _ & Hrc). cbn [fst snd] in Hrc.
    destruct (Notify.render_payload is_word repr c ctx (Some r)) as [p|] eqn:Ep; [|done]. injection Hrc as <-. cbn [fst snd].
    unfold Notify.render_payload in *. destruct (as_str _) as [head|] eqn:Eh; [|done]. cbn [mbind option_bind] in *. injection Ep as <-.
    eexists. split; [reflexivity|]. cbn [Notify.p_text Notify.p_title]. split.
    + intros Hsp. symmetry. apply render_agree; [done|]. unfold spares, filled in *. by destruct (Notify.r_template r).
    + intros head' [= <-] Hsp. symmetry. by apply render_agree.
Qed.

End Preview.

(** ** Witnesses *)

Definition lower_ := Notify.ascii_lower.

Definition telegram (token : string) : channel_row :=
  mkRow 1 (str "phone") (str "telegram") (Some (JObj [(str "Bot-Token", JStr (str token)); (str "chat_id", JInt 42)])) true 0.
Definition one_channel (token : string) : tables := mkTables [telegram token] 1 [Notify.mkRule 1 None 1 (str "all") [] [] 0 true] 1 [7].

(** A client lists, saves what it saw under another name, asks for the list,
    clears the token and asks again. *)
Definition browsing : list request :=
  [List; Update 1 (mkBody (str "mine") (str "telegram") [(str "chat_id", JInt 42); (str "Bot-Token", JStr (str "****"))] true []);
   List; Update 1 (mkBody (str "mine") (str "telegram") [(str "chat_id", JInt 42)] true [str "bot_token"]); List].

Lemma credentials_hidden_witness :
  session lower_ (one_channel "secret-1") browsing = session lower_ (one_channel "secret-2") browsing
  /\ p_secret_fields <$> (list_channels lower_ (one_channel "secret-1")) = [[str "Bot-Token"]].
Proof.
  split; [|vm_compute; reflexivity]. apply (credentials_hidden lower_ (one_channel "secret-1") (one_channel "secret-2") browsing).
  split; [|split_and!; reflexivity]. constructor; [|constructor]. split_and!; try reflexivity.
  constructor; [split; [reflexivity|vm_compute; reflexivity]|]. constructor; [split; [reflexivity|vm_compute; reflexivity]|constructor].
Defined.

Definition resaved : channel_body := mkBody (str "phone") (str "telegram") [(str "chat_id", JInt 42); (str "Bot-Token", JStr (str " *** "))] true [].

Lemma saved_as_shown_witness :
  object_of (h_config (updated lower_ resaved (telegram "secret"))) = [(str "chat_id", JInt 42); (str "Bot-Token", JStr (str "secret"))]
  /\ exists p t' row', update_channel lower_ 1 resaved (one_channel "secret") = (Ok p, t') /\ find_row 1 t' = Some row' /\ p = channel_public lower_ row'
    /\ forall k, dict_get k (object_of (h_config row')) = dict_get k (object_of (h_config (telegram "secret"))).
Proof.
  split; [vm_compute; reflexivity|]. apply (saved_as_shown lower_ (one_channel "secret") (telegram "secret") resaved).
  - vm_compute; reflexivity.
  - apply (bool_decide_eq_true_1 _). by vm_compute.
  - intros k _. cbn [object_of h_config telegram dict_get]. by repeat case_decide.
  - split_and!.
    + apply (bool_decide_eq_true_1 _). by vm_compute.
    + intros k Hk. rewrite shown_lookup, Hk. cbn [object_of h_config telegram dict_get b_config resaved].
      repeat case_decide; try done; subst; by vm_compute in Hk.
    + intros k v Hk. cbn [dict_get b_config resaved]. repeat case_decide; intros [= <-]; subst; [by vm_compute in Hk|by vm_compute].
  - reflexivity.
Defined.

Definition stored_text : frame :=
  [(str "peer", JStr (str "10086")); (str "body", JStr (str "hi")); (str "ts", JStr (str "then")); (str "sim_id", JInt 7);
   (str "sim_label", JStr (str "Travel")); (str "sim_iccid", JStr (str "8986001234")); (str "phone_number", JNull);
   (str "device", JStr (str "m1")); (str "device_label", JStr (str "Desk"))].
Definition sms_frame : frame := [(str "peer", JStr (str "10086")); (str "body", JStr (str "hi")); (str "device", JStr (str "m1"))].
Definition travel_card : sim_row := mkSim (JStr (str "8986001234")) (JStr (str "Travel")) JNull.

Definition sample_preview (sim : option sim_row) := preview_rules Notify.ascii_word Notify.sample_repr (fun _ => str "12:00") lower_ Notify.literal_search (Some 7)
  (str "10086") (str "hi") (str "now") sim (one_channel "x").
Definition sample_push (m : frame) (r : Notify.rule) (c : Notify.channel) :=
  Notify.payload_for Notify.ascii_word Notify.sample_repr (fun _ => str "12:00") (str "message") [] [] sms_frame (Some m) (Some r) c (str "later").

(** The channels and the text. *)
Lemma preview_is_what_happens_witness :
  exists e, sample_preview (Some travel_card) = Some [e]
    /\ Notify.message_targets lower_ Notify.literal_search (Some stored_text) sms_frame (rules (one_channel "x")) (notified <$> channels (one_channel "x"))
        = Some [(Notify.c_id e.1.2, Some (Notify.r_id e.1.1))]
    /\ exists p, sample_push stored_text e.1.1 e.1.2 = Some (Some p) /\ Notify.p_text p = Notify.p_text e.2.
Proof.
  eexists. split; [vm_compute; reflexivity|].
  destruct (preview_is_what_happens Notify.ascii_word Notify.sample_repr (fun _ => str "12:00") lower_ Notify.literal_search
    (one_channel "x") (Some 7) (str "10086") (str "hi") (str "now") (str "later") (Some travel_card) stored_text sms_frame
    [(Notify.mkRule 1 None 1 (str "all") [] [] 0 true, notified (telegram "x"),
      Notify.mkPayload (([0x3010] ++ str "Travel" ++ [0x3011] ++ str "10086") ++ [10] ++ str "hi") (str "Travel " ++ [0xB7] ++ str " 10086")
        (default [] (Notify.context_for (fun _ => str "12:00") (preview_message (str "10086") (str "hi") (str "now") (Some travel_card)) [] (str "now"))))])
    as [H1 H2]; [vm_compute; reflexivity..|]. split; [exact H1|].
  destruct (H2 ltac:(unfold as_previewed; split_and!; vm_compute; reflexivity) _ [] [] ltac:(left)) as (p & Hp & Ht & _).
  exists p. split; [exact Hp|]. apply Ht. split; apply (bool_decide_eq_true_1 _); vm_compute; reflexivity.
Defined.

(** A card with neither a label nor a number: the push names the module's
    label, the preview the end of the ICCID. *)
Example preview_names_another_card :
  option_map (map (fun e => Notify.p_text e.2)) (sample_preview (Some (mkSim (JStr (str "8986001234")) (JStr []) JNull)))
    = Some [([0x3010; 0x2026] ++ str "1234" ++ [0x3011] ++ str "10086") ++ [10] ++ str "hi"]
  /\ option_map (option_map Notify.p_text) (sample_push
       [(str "peer", JStr (str "10086")); (str "body", JStr (str "hi")); (str "ts", JStr (str "then")); (str "sim_id", JInt 7);
        (str "sim_label", JStr []); (str "sim_iccid", JStr (str "8986001234")); (str "phone_number", JNull);
        (str "device", JStr (str "m1")); (str "device_label", JStr (str "Desk"))]
       (Notify.mkRule 1 None 1 (str "all") [] [] 0 true) (notified (telegram "x")))
     = Some (Some (([0x3010] ++ str "Desk" ++ [0x3011] ++ str "10086") ++ [10] ++ str "hi")).
Proof. split; vm_compute; reflexivity. Qed.

End Channels.
