(* ===== verification/Senders.v ===== *)
(** * The providers of notifications (server/src/hub_server/notify.py)

    [channel_config], the eight senders and [send_via_channel].  A sender makes
    at most one request, so it is either a failure before any request or the
    request with what becomes of its reply.  What the network answers is the
    reply; the HMAC signatures, the clock, the text of an exception and the
    parsing of numbers and dates of headers are arguments. *)

From S2P Require Import Prelude PyText PyDict Json Notify Outbox.

Module Senders.

Import Notify(context, Payload, p_text, p_title, p_context).
Import Outbox(SendError, mkSendError, s_detail, s_kind, s_status, s_retry_after, error_kind, ConfigError, NetworkError, HttpError, ProviderError).

(** ** Requests and replies *)

(** [httpx.Response]: the body as text and as JSON ([None]: it does not parse),
    and the header [Retry-After]. *)
Record response := mkResponse { status_code : Z; text : pystr; body : option json; retry_after : option pystr }.

(** [p_params] are merged into the URL's query.  [Mail] is one session with
    the relay. *)
Inductive request :=
| Post (url : pystr) (p_params : list (list Z * pystr)) (headers : option (list (list Z * pystr))) (content : json)
| Get (url : pystr) (p_params : context)
| Mail (host : pystr) (port : Z) (security username password : pystr) (subject sender to_ content : pystr).

(** An exception of httpx or smtplib comes with [type(exc).__name__: exc];
    [refused] says whether [_send_smtp_blocking] catches it (SMTPException,
    OSError). *)
Inductive reply := Answered (r : response) | Delivered | Raised (refused : bool) (message : pystr).

(** How a sender fails: a [SendError] of its own, or another exception. *)
Inductive failure := Fails (e : SendError) | Throws (message : pystr).

Definition provider_error (detail : pystr) : failure := Fails (mkSendError detail ProviderError None None).
Definition config_error (detail : pystr) : failure := Fails (mkSendError detail ConfigError None None).

Abbreviation config := (list (list Z * json)) (only parsing).

Section Sending.
Context (is_word : Z -> bool) (repr : json -> pystr) (lower : pystr -> pystr).
(** [float(header)] and the moment of an HTTP date, in microseconds; NaN
    counts as 0 for [max(0.0, nan)], an infinity as anything above the cap. *)
Context (float_micros http_date : pystr -> option Z).
(** [repr] of a string. *)
Context (quoted : pystr -> pystr).
(** base64 of an HMAC-SHA256: key, message. *)
Context (hmac : pystr -> pystr -> pystr).
(** The text of the exceptions of [int(port)] and of an email header. *)
Context (bad_port : json -> pystr) (bad_header : pystr).
(** [time.time()], in microseconds. *)
Context (clock : Z).

Definition py_str (v : json) : pystr := match v with JStr s => s | _ => repr v end.

(** [str(config.get(key) or "")] *)
Definition setting (key : string) (c : config) : pystr := let v := jget key c in if truthy v then py_str v else [].

Definition channel_config (stored : option json) : config := match stored with Some (JObj d) => d | _ => [] end.

Definition require (c : config) (key : string) : res failure pystr :=
  match strip (setting key c) with
  | [] => Err (config_error (str "channel is missing the '" ++ str key ++ str "' setting"))
  | v => Ok v
  end.

(** ** What the provider said *)

Definition json_body (r : response) : config := match body r with Some (JObj d) => d | _ => [] end.

Definition provider_message (r : response) : pystr :=
  let texts := omap (fun key => as_str (jget key (json_body r))) ["msg"; "errmsg"; "description"; "message"; "StatusMessage"; "error"]%string in
  default (text r) (List.find (fun t => negb (bool_decide (t = []))) texts).

Definition retry_after_seconds (r : response) : option Z :=
  match retry_after r with
  | None | Some [] => None
  | Some header =>
      match float_micros (strip header) with
      | Some n => Some (Z.max 0 n)
      | None => (fun at_ => Z.max 0 (at_ - clock)) <$> http_date header
      end
  end.

Definition raise_for_status (r : response) : res failure unit :=
  if status_code r / 100 =? 2 then Ok tt
  else Err (Fails (mkSendError (Notify.scrub (str "HTTP " ++ decimal (status_code r) ++ str ": " ++ provider_message r))
                     HttpError (Some (status_code r)) (retry_after_seconds r))).

Definition raise_for_code (r : response) (code : json) (ok : Z) : res failure unit :=
  if py_eq code (JInt ok) then Ok tt
  else Err (provider_error (Notify.scrub (str "code " ++ py_str code ++ str ": " ++ provider_message r))).

Definition ok_text (r : response) : pystr := str "HTTP " ++ decimal (status_code r).

(** What a sender does: nothing sent, or a request and the end it comes to. *)
Definition sending : Type := res failure (request * (reply -> res failure pystr)).

(** After an HTTP request: its exceptions pass through. *)
Definition answered (k : response -> res failure unit) (a : reply) : res failure pystr :=
  match a with
  | Answered r => _ ← raise_for_status r; _ ← k r; Ok (ok_text r)
  | Raised _ message => Err (Throws message)
  | Delivered => Ok []
  end.

(** ** The senders *)

Definition send_bark (c : config) (p : Payload) : sending :=
  url ← require c "url";
  Ok (Post url [] None (JObj [(str "title", JStr (p_title p)); (str "body", JStr (p_text p))]),
      answered (fun r => raise_for_code r (jget_or "code" (JInt 200) (json_body r)) 200)).

Definition send_telegram (c : config) (p : Payload) : sending :=
  token ← require c "token";
  chat ← require c "chat_id";
  Ok (Post (str "https://api.telegram.org/bot" ++ token ++ str "/sendMessage") [] None
        (JObj [(str "chat_id", JStr chat); (str "text", JStr (p_text p)); (str "disable_web_page_preview", JBool true)]),
      answered (fun r => if is_true (jget "ok" (json_body r)) then Ok tt else Err (provider_error (Notify.scrub (provider_message r))))).

Definition plain (content : pystr) : json := JObj [(str "tag", JStr (str "plain_text")); (str "content", JStr content)].

Definition feishu_card (p : Payload) : json :=
  let context := p_context p in
  let message := jget_or "message" (JStr []) context in
  let default_text := Notify.render is_word repr Notify.DEFAULT_TEMPLATE context in
  let content := if bool_decide (p_text p = default_text) && truthy message then message else JStr (p_text p) in
  let field (labelled : pystr * string) :=
    match strip (setting labelled.2 context) with
    | [] => None
    | v => Some (JObj [(str "is_short", JBool true); (str "text", plain (labelled.1 ++ [10] ++ v))])
    end in
  let fields := omap field [([0x5361; 0x7247], "card"%string); ([0x53D1; 0x4EF6; 0x4EBA], "sender"%string)] in
  let timestamp := strip (setting "timestamp" context) in
  JObj [(str "config", JObj [(str "wide_screen_mode", JBool true); (str "enable_forward", JBool false)]);
        (str "header", JObj [(str "template", JStr (str "blue"));
                             (str "title", plain (match p_title p with [] => str "air780e-hub" | t => t end))]);
        (str "elements", JArr (
          (match fields with [] => [] | _ => [JObj [(str "tag", JStr (str "div")); (str "fields", JArr fields)]; JObj [(str "tag", JStr (str "hr"))]] end)
          ++ [JObj [(str "tag", JStr (str "div"));
                    (str "text", JObj [(str "tag", JStr (str "plain_text")); (str "content", if truthy content then content else JStr (str " "))])]]
          ++ (match timestamp with
              | [] => []
              | _ => [JObj [(str "tag", JStr (str "hr"))]; JObj [(str "tag", JStr (str "note")); (str "elements", JArr [plain timestamp])]]
              end)))].

Definition send_feishu (c : config) (p : Payload) : sending :=
  let signed := match strip (setting "secret" c) with
                | [] => []
                | secret => let stamp := decimal (clock / 1000000) in
                            [(str "timestamp", JStr stamp); (str "sign", JStr (hmac (stamp ++ [10] ++ secret) []))]
                end in
  url ← require c "webhook";
  Ok (Post url [] None (JObj ([(str "msg_type", JStr (str "interactive")); (str "card", feishu_card p)] ++ signed)),
      answered (fun r => raise_for_code r (jget_or "code" (jget_or "StatusCode" (JInt 0) (json_body r)) (json_body r)) 0)).

Definition text_message (p : Payload) : json :=
  JObj [(str "msgtype", JStr (str "text")); (str "text", JObj [(str "content", JStr (p_text p))])].

Definition send_wecom (c : config) (p : Payload) : sending :=
  url ← require c "webhook";
  Ok (Post url [] None (text_message p), answered (fun r => raise_for_code r (jget_or "errcode" (JInt 0) (json_body r)) 0)).

Definition send_dingtalk (c : config) (p : Payload) : sending :=
  url ← require c "webhook";
  let params := match strip (setting "secret" c) with
                | [] => []
                | secret => let stamp := decimal (clock / 1000) in
                            [(str "timestamp", stamp); (str "sign", hmac secret (stamp ++ [10] ++ secret))]
                end in
  Ok (Post url params None (text_message p), answered (fun r => raise_for_code r (jget_or "errcode" (JInt 0) (json_body r)) 0)).

Definition send_post (c : config) (p : Payload) : sending :=
  let headers := match jget "headers" c with
                 | JObj d => Some ((fun kv : list Z * json => (kv.1, py_str kv.2)) <$> d)
                 | _ => None
                 end in
  url ← require c "url";
  Ok (Post url [] headers (JObj (dict_set (str "text") (JStr (p_text p)) (dict_set (str "title") (JStr (p_title p)) (p_context p)))),
      answered (fun _ => Ok tt)).

Definition send_get (c : config) (p : Payload) : sending :=
  url ← require c "url";
  Ok (Get url (dict_set (str "text") (JStr (p_text p)) (p_context p)), answered (fun _ => Ok tt)).

(** *** Mail *)

(** [str.splitlines] cuts here; a carriage return and a line feed are one. *)
Definition is_line_break (c : Z) : bool := bool_decide (c ∈ [10; 11; 12; 13; 28; 29; 30; 0x85; 0x2028; 0x2029]).

(** [len(value.splitlines()) > 1], which the email package refuses in a header. *)
Fixpoint many_lines (s : pystr) : bool :=
  match s with
  | [] => false
  | c :: s => if is_line_break c then negb (bool_decide (s = [])) && negb ((c =? 13) && bool_decide (s = [10])) else many_lines s
  end.

(** [sep.join(l)] *)
Definition join (sep : pystr) (l : list pystr) : pystr := match l with [] => [] | x :: l => x ++ mjoin ((fun y => sep ++ y) <$> l) end.

(** [int(v)] *)
Definition port_of (v : json) : option Z :=
  match v with
  | JInt n => Some n
  | JBool b => Some (if b then 1 else 0)
  | JStr s => py_int s
  | JFloat (SpecFloat.S754_finite s m e) =>
      let n := if 0 <=? e then Zpos m * 2 ^ e else Zpos m / 2 ^ (- e) in Some (if s then - n else n)
  | _ => None
  end.

Definition send_smtp (c : config) (p : Payload) : sending :=
  host ← require c "host";
  to_ ← require c "to";
  let recipients := filter (fun part : list Z => part <> []) (strip <$> split_on 44 to_) in
  match recipients with
  | [] => Err (provider_error (str "channel is missing the 'to' setting"))
  | _ =>
      let security := lower (match setting "security" c with [] => str "ssl" | s => s end) in
      let raw_port := jget "port" c in
      let implied := if bool_decide (security = str "ssl") then 465 else 587 in
      port ← (if truthy raw_port then match port_of raw_port with Some n => Ok n | None => Err (Throws (bad_port raw_port)) end else Ok implied);
      let username := setting "username" c in
      let password := setting "password" c in
      let sender := match setting "from" c with
                    | [] => match username with [] => str "air780e-hub@" ++ host | _ => username end
                    | s => s
                    end in
      let line := join (str ", ") recipients in
      if existsb many_lines [p_title p; sender; line] then Err (Throws bad_header)
      else Ok (Mail host port security username password (p_title p) sender line (p_text p),
               fun a => match a with
                        | Delivered => Ok (str "sent to " ++ decimal (Z.of_nat (length recipients)) ++ str " recipient(s)")
                        | Raised true message => Err (provider_error (Notify.scrub message))
                        | Raised false message => Err (Throws message)
                        | Answered _ => Ok []
                        end)
  end.

(** [SENDERS] *)
Definition senders (type : pystr) : option (config -> Payload -> sending) :=
  dict_get type [(str "bark", send_bark); (str "telegram", send_telegram); (str "feishu", send_feishu); (str "wecom", send_wecom);
                 (str "dingtalk", send_dingtalk); (str "post", send_post); (str "get", send_get); (str "smtp", send_smtp)].

Definition send_via_channel (type : pystr) (stored : option json) (p : Payload) : sending :=
  match senders type with
  | None => Err (provider_error (str "unknown channel type " ++ quoted type))
  | Some sender => sender (channel_config stored) p
  end.

(** ** One attempt *)

(** What [_attempt_claimed] makes of a failure. *)
Definition error_of (f : failure) : SendError :=
  match f with Fails e => e | Throws message => mkSendError (Notify.scrub message) NetworkError None None end.

(** The channel's row if it is enabled, the payload if its source is there,
    the world's reply to a request. *)
Definition attempt (channel : option (pystr * option json)) (payload : option Payload) (ask : request -> reply) : Outbox.attempt_result :=
  match channel, payload with
  | None, _ => Outbox.ChannelDisabled
  | _, None => Outbox.SourceGone
  | Some (type, stored), Some p =>
      match send_via_channel type stored p with
      | Err f => Outbox.Refused (error_of f)
      | Ok (q, k) => match k (ask q) with Ok detail => Outbox.Sent detail | Err f => Outbox.Refused (error_of f) end
      end
  end.

(** [_attempt]: ask again while it fails, [retries] times at most; the answer
    has the status, the attempts and the detail, and goes to the log scrubbed.
    [ask n] is the world at attempt [n]. *)
Fixpoint attempts_from (left_ n : nat) (type : pystr) (stored : option json) (p : Payload) (ask : nat -> request -> reply) :
    bool * nat * pystr :=
  match attempt (Some (type, stored)) (Some p) (ask n) with
  | Outbox.Refused e => match left_ with O => (false, S n, s_detail e) | S left_ => attempts_from left_ (S n) type stored p ask end
  | Outbox.Sent detail => (true, S n, detail)
  | _ => (false, S n, [])
  end.

Definition attempt_direct (id : Z) (type : pystr) (stored : option json) (p : Payload) (message rule : option Z) (retries : nat)
    (ask : nat -> request -> reply) : (bool * nat * pystr) * Outbox.log_row :=
  let '(ok, n, detail) := attempts_from retries 0 type stored p ask in
  ((ok, n, detail), Outbox.mkLog message id rule ok (Z.of_nat n) (Notify.scrub detail)).

(** The test button: one attempt with a sample. *)
Definition SAMPLE_CONTEXT : context :=
  [(str "sender", JStr (str "10086")); (str "message", JStr ([0x8FD9; 0x662F; 0x4E00; 0x6761; 0x6765; 0x81EA] ++ str " air780e-hub " ++ [0x7684; 0x6D4B; 0x8BD5; 0x6D88; 0x606F; 0x3002])); (str "card", JStr [0x6D4B; 0x8BD5; 0x5361]);
   (str "device", JStr (str "test")); (str "iccid", JStr [])].

Definition test_channel (id : Z) (type : pystr) (stored : option json) (local_now : pystr) (ask : request -> reply) :
    (bool * nat * pystr) * Outbox.log_row :=
  let context := dict_set (str "timestamp") (JStr local_now) SAMPLE_CONTEXT in
  let p := Notify.mkPayload (Notify.render is_word repr Notify.DEFAULT_TEMPLATE context) (Notify.render is_word repr Notify.DEFAULT_TITLE context) context in
  attempt_direct id type stored p None None 0 (fun _ => ask).

(** ** What a provider takes *)

(** Only mail is delivered by a relay, and only HTTP requests are answered. *)
Definition proper (q : request) (a : reply) : Prop :=
  match q, a with
  | Mail _ _ _ _ _ _ _ _ _, Answered _ | Post _ _ _ _, Delivered | Get _ _, Delivered => False
  | _, _ => True
  end.

(** The provider's own code for success, where it has one: absent, or the
    value its API documents. *)
Definition code_ok (key : string) (ok : Z) (r : response) : Prop :=
  dict_get (str key) (json_body r) = None \/ exists v, dict_get (str key) (json_body r) = Some v /\ py_eq v (JInt ok) = true.

Definition accepts (type : pystr) (r : response) : Prop :=
  (type = str "bark" -> code_ok "code" 200 r)
  /\ (type = str "telegram" -> dict_get (str "ok") (json_body r) = Some (JBool true))
  /\ (type = str "feishu" -> code_ok "code" 0 r /\ (dict_get (str "code") (json_body r) = None -> code_ok "StatusCode" 0 r))
  /\ (type = str "wecom" \/ type = str "dingtalk" -> code_ok "errcode" 0 r).

Definition took (type : pystr) (a : reply) : Prop :=
  match a with
  | Answered r => 200 <= status_code r < 300 /\ accepts type r
  | Delivered => type = str "smtp"
  | Raised _ _ => False
  end.

(** *** Reading a sender backwards *)

Lemma status_ok r : raise_for_status r = Ok tt -> 200 <= status_code r < 300.
Proof. unfold raise_for_status. destruct (Z.eqb_spec (status_code r / 100) 2); [intros _; lia|done]. Qed.

Lemma code_passed key v0 ok r : raise_for_code r (jget_or key v0 (json_body r)) ok = Ok tt -> code_ok key ok r.
Proof.
  unfold raise_for_code, jget_or, code_ok. destruct (dict_get (str key) (json_body r)) as [v|]; [|by left].
  intros H. right. exists v. split; [done|]. unfold default, from_option, id in H. by destruct (py_eq v (JInt ok)).
Qed.

Lemma answered_ok k a d : answered k a = Ok d -> a <> Delivered ->
  exists r, a = Answered r /\ 200 <= status_code r < 300 /\ k r = Ok tt.
Proof.
  destruct a as [r| |]; cbn; [|done..]. intros H _. apply bind_ok in H as ([] & Hs & H). apply bind_ok in H as ([] & Hk & _).
  exists r. by split_and!; [|apply status_ok..|].
Qed.

(** The senders by the name of their channel. *)
Lemma senders_cases type sender : senders type = Some sender ->
  (type, sender) ∈ [(str "bark", send_bark); (str "telegram", send_telegram); (str "feishu", send_feishu); (str "wecom", send_wecom);
                    (str "dingtalk", send_dingtalk); (str "post", send_post); (str "get", send_get); (str "smtp", send_smtp)].
Proof. apply dict_get_Some_in. Qed.

Ltac cases_of Hs :=
  apply senders_cases in Hs; rewrite !elem_of_cons, elem_of_nil in Hs;
  repeat match type of Hs with _ \/ _ => destruct Hs as [Hs|Hs] end; [injection Hs as -> ->..|done].

(** One sender's success. *)
Lemma sender_took type sender c p q k a d : senders type = Some sender -> sender c p = Ok (q, k) -> proper q a -> k a = Ok d -> took type a.
Proof.
  intros Hs Hq Hp Hk. cases_of Hs.
  8: { unfold send_smtp in Hq. inv_ok. case_match; [done|]. inv_ok. case_match; [done|]. injection Hq as <- <-. cbn in Hk. by destruct a as [r| |[]]. }
  all: unfold send_bark, send_telegram, send_feishu, send_wecom, send_dingtalk, send_post, send_get in Hq;
    repeat (apply bind_ok in Hq as (? & _ & Hq)); injection Hq as <- <-;
    apply answered_ok in Hk as (r & -> & Hr & Hk); [|by intros ->]; split; [exact Hr|]; split_and!;
    try (intros E; by apply str_inj in E); try (by intros [E|E]; apply str_inj in E); intros _.
  - by apply code_passed in Hk.
  - unfold jget in Hk. destruct (dict_get (str "ok") (json_body r)) as [[| [] | | | | |]|]; unfold default, from_option, id in Hk; cbn [is_true] in Hk; done.
  - split; [by apply code_passed in Hk|]. intros E. unfold jget_or at 1 in Hk. rewrite E in Hk. by apply code_passed in Hk.
  - by apply code_passed in Hk.
  - by apply code_passed in Hk.
Qed.

Lemma status_passes r : 200 <= status_code r < 300 -> raise_for_status r = Ok tt.
Proof. intros H. unfold raise_for_status. by replace (status_code r / 100) with 2 by lia. Qed.

Lemma code_passes key v0 ok r : code_ok key ok r -> (dict_get (str key) (json_body r) = None -> py_eq v0 (JInt ok) = true) ->
  raise_for_code r (jget_or key v0 (json_body r)) ok = Ok tt.
Proof.
  unfold raise_for_code, jget_or. intros [E|(v & E & Hv)] H0; rewrite E; cbn [default from_option id]; [by rewrite H0|by rewrite Hv].
Qed.

Lemma answered_passes k r : 200 <= status_code r < 300 -> k r = Ok tt -> answered k (Answered r) = Ok (ok_text r).
Proof. intros Hs Hk. cbn [answered]. rewrite (status_passes r Hs). cbn [mbind res_bind]. by rewrite Hk. Qed.

(** What the provider took is a success. *)
Lemma took_sender type sender c p q k a : senders type = Some sender -> sender c p = Ok (q, k) -> proper q a -> took type a ->
  exists d, k a = Ok d.
Proof.
  intros Hs Hq Hp Ht. cases_of Hs.
  8: { unfold send_smtp in Hq. inv_ok. case_match; [done|]. inv_ok. case_match; [done|]. injection Hq as <- <-. destruct a as [r| |]; [done|by eexists|done]. }
  all: unfold send_bark, send_telegram, send_feishu, send_wecom, send_dingtalk, send_post, send_get in Hq;
    repeat (apply bind_ok in Hq as (? & _ & Hq)); injection Hq as <- <-;
    (destruct a as [r| |]; [|done|done]); destruct Ht as [Hr (Hb & Ht & Hf & Hw)]; exists (ok_text r); apply answered_passes; try done.
  - by apply code_passes; [apply Hb|].
  - unfold jget. by rewrite (Ht eq_refl).
  - destruct (Hf eq_refl) as [H1 H2]. apply code_passes; [done|]. intros E. specialize (H2 E). unfold jget_or.
    destruct H2 as [E'|(v & E' & Hv)]; rewrite E'; [done|exact Hv].
  - apply code_passes; [apply Hw; by left|done].
  - apply code_passes; [apply Hw; by right|done].
Qed.

(** C19 (safety): a push counts as delivered exactly when nothing says that its
    provider did not take it.  Whatever the network answers, a claimed delivery
    is settled as sent if and only if its channel is there and enabled, its
    payload could be made, a request went out, and the reply is HTTP 2xx whose
    body does not say otherwise: Telegram's must say ok; where the body of
    Bark, Feishu, WeCom or DingTalk has the provider's code, it must be the one
    for success (200; 0 under either of Feishu's names; 0) -- a body without
    it, one that is no JSON object too, counts as taken, as for the plain POST
    and GET -- and mail counts when the relay accepted it. *)
Theorem delivered_means_taken (retries : Z) (backoff : list Z) (jitter : Z) (d : Outbox.delivery)
    (channel : option (pystr * option json)) (payload : option Payload) (ask : request -> reply) :
  (forall q, proper q (ask q)) ->
  (Outbox.verdict retries backoff clock jitter d (attempt channel payload ask)).1.1 = Outbox.Ok_ <->
  exists type stored p q k, channel = Some (type, stored) /\ payload = Some p /\ send_via_channel type stored p = Ok (q, k) /\ took type (ask q).
Proof.
  intros Hp. split.
  - intros Hv. unfold attempt in Hv. destruct channel as [[type stored]|]; [|done]. destruct payload as [p|]; [|done].
    destruct (send_via_channel type stored p) as [[q k]|f] eqn:Es; [|cbn in Hv; by repeat case_match].
    destruct (k (ask q)) as [detail|f] eqn:Ek; [|cbn in Hv; by repeat case_match].
    exists type, stored, p, q, k. split_and!; try done. unfold send_via_channel in Es.
    destruct (senders type) as [sender|] eqn:Et; [|done]. by apply (sender_took type sender (channel_config stored) p q k (ask q) detail).
  - intros (type & stored & p & q & k & -> & -> & Es & Ht). unfold attempt. rewrite Es. unfold send_via_channel in Es.
    destruct (senders type) as [sender|] eqn:Et; [|done].
    by destruct (took_sender type sender (channel_config stored) p q k (ask q) Et Es (Hp q) Ht) as [detail ->].
Qed.

(** ** Failures *)

(** The types a channel may have. *)
Definition TYPES : list pystr := str <$> ["bark"; "telegram"; "feishu"; "wecom"; "dingtalk"; "post"; "get"; "smtp"]%string.

Lemma known_sender type : type ∈ TYPES -> exists sender, senders type = Some sender.
Proof.
  intros H. destruct (senders type) as [sender|] eqn:E; [by exists sender|]. apply dict_get_None in E. destruct E. exact H.
Qed.

(** The settings a channel cannot do without. *)
Definition required (type : pystr) : list string :=
  default [] (dict_get type
    [(str "bark", ["url"]); (str "telegram", ["token"; "chat_id"]); (str "feishu", ["webhook"]); (str "wecom", ["webhook"]);
     (str "dingtalk", ["webhook"]); (str "post", ["url"]); (str "get", ["url"]); (str "smtp", ["host"; "to"])]%string).

Definition blank (c : config) (key : string) : bool := bool_decide (strip (setting key c) = []).

Lemma require_ok c key v : require c key = Ok v -> blank c key = false.
Proof. unfold require, blank. destruct (strip (setting key c)); [done|]. intros _. by apply bool_decide_eq_false_2. Qed.

Lemma require_err c key f : require c key = Err f -> blank c key = true /\ Outbox.transient (error_of f) = false.
Proof. unfold require, blank. destruct (strip (setting key c)); [|done]. intros [= <-]. split; [by apply bool_decide_eq_true_2|reflexivity]. Qed.

Lemma sender_outcome type sender c p : senders type = Some sender ->
  match sender c p with
  | Ok _ => existsb (blank c) (required type) = false
  | Err f => (existsb (blank c) (required type) = true /\ Outbox.transient (error_of f) = false)
             \/ (type = str "smtp" /\ existsb (blank c) (required type) = false /\ Outbox.transient (error_of f) = true)
  end.
Proof.
  intros Hs. destruct (sender c p) as [[q k]|f] eqn:E; cases_of Hs.
  all: match goal with |- context [required ?t] => let r := eval vm_compute in (required t) in change (required t) with r end; cbn [existsb].
  all: unfold send_bark, send_telegram, send_feishu, send_wecom, send_dingtalk, send_post, send_get, send_smtp in E.
  all: repeat match goal with
    | H : require ?c0 ?key ≫= _ = _ |- _ =>
        let R := fresh "R" in destruct (require c0 key) eqn:R; [apply require_ok in R; rewrite R|apply require_err in R as [R ?]; rewrite R];
        cbn [mbind res_bind] in H
    end.
  all: cbn [orb]; try done.
  all: try (injection E as <-); try (left; by rewrite ?orb_true_r).
  right. split_and!; try done. repeat case_match; simplify_eq; try done; cbn [mbind res_bind] in *; simplify_eq; done.
Qed.

(** A channel that lacks a setting is refused without a request and
    never asked again.  For every known type: if a setting the type cannot do
    without is missing or blank, nothing is sent and the failure is permanent;
    otherwise a request goes out -- except for mail, whose recipient list,
    port and headers are checked afterwards and whose failures there count as
    worth repeating. *)
Theorem missing_setting_not_retried (type : pystr) (stored : option json) (p : Payload) : type ∈ TYPES ->
  match send_via_channel type stored p with
  | Ok _ => existsb (blank (channel_config stored)) (required type) = false
  | Err f => (existsb (blank (channel_config stored)) (required type) = true /\ Outbox.transient (error_of f) = false)
             \/ (type = str "smtp" /\ existsb (blank (channel_config stored)) (required type) = false /\ Outbox.transient (error_of f) = true)
  end.
Proof. intros [sender Hs]%known_sender. unfold send_via_channel. rewrite Hs. by apply sender_outcome. Qed.

(** *** What a failure shows *)

Definition scrubbed (f : failure) : Prop := exists x, s_detail (error_of f) = Notify.scrub x.

Lemma require_scrubbed c key f : key ∈ ["url"; "token"; "chat_id"; "webhook"; "host"; "to"]%string -> require c key = Err f -> scrubbed f.
Proof.
  unfold require. destruct (strip (setting key c)); [|done]. intros Hk [= <-].
  exists (str "channel is missing the '" ++ str key ++ str "' setting"). cbn [error_of s_detail config_error].
  rewrite !elem_of_cons, elem_of_nil in Hk. destruct_or! Hk; try done; subst key; by vm_compute.
Qed.

Lemma answered_scrubbed k a f : (forall r f, k r = Err f -> scrubbed f) -> answered k a = Err f -> scrubbed f.
Proof.
  intros Hk. destruct a as [r| |]; cbn; [|done|intros [= <-]; by eexists].
  intros H. apply bind_err in H as [H|([] & _ & H)].
  - unfold raise_for_status in H. case_match; [done|]. injection H as <-. by eexists.
  - apply bind_err in H as [H|([] & _ & H)]; [by apply Hk in H|done].
Qed.

Lemma code_scrubbed r v ok f : raise_for_code r v ok = Err f -> scrubbed f.
Proof. unfold raise_for_code. case_match; [done|]. intros [= <-]. by eexists. Qed.

Lemma sender_scrubbed type sender c p : senders type = Some sender ->
  match sender c p with Err f => scrubbed f | Ok (q, k) => forall a f, k a = Err f -> scrubbed f end.
Proof.
  intros Hs. destruct (sender c p) as [[q k]|f] eqn:E; cases_of Hs.
  all: unfold send_bark, send_telegram, send_feishu, send_wecom, send_dingtalk, send_post, send_get, send_smtp in E.
  all: repeat match goal with
    | H : require ?c0 ?key ≫= _ = _ |- _ =>
        let R := fresh "R" in destruct (require c0 key) eqn:R; [clear R|apply require_scrubbed in R; [|set_solver]]; cbn [mbind res_bind] in H
    end.
  all: try done; try (by injection E as <-).
  1-5: injection E as <- <-; intros rp f; apply answered_scrubbed; intros r f'; try apply code_scrubbed.
  1: case_match; [done|]; intros [= <-]; by eexists.
  1-2: injection E as <- <-; intros rp f; by apply answered_scrubbed.
  - case_match; [done|]. apply bind_ok in E as (port & _ & E). case_match; [done|]. injection E as <- <-.
    intros [r| |[]] f Ha; try done; injection Ha as <-; by eexists.
  - case_match; [injection E as <-; exists (str "channel is missing the 'to' setting"); by vm_compute|].
    apply bind_err in E as [E|(port & _ & E)]; repeat case_match; try done; injection E as <-; by eexists.
Qed.

(** What a failed push leaves behind -- in the queue, in the log, in the
    incident -- holds no URL at any position, and at most 300 characters,
    whatever the provider or a library said: a webhook or a bot token is in a
    URL. *)
Theorem failures_show_no_url (type : pystr) (stored : option json) (p : Payload) (ask : request -> reply) (e : SendError) (n : nat) :
  type ∈ TYPES -> attempt (Some (type, stored)) (Some p) ask = Outbox.Refused e ->
  Notify.url_at (drop n (s_detail e)) = None /\ (length (s_detail e) <= 300)%nat.
Proof.
  intros [sender Hs]%known_sender Ha. assert (Hx : exists x, s_detail e = Notify.scrub x); [|destruct Hx as [x ->]; apply Notify.scrub_hides_urls].
  unfold attempt, send_via_channel in Ha. rewrite Hs in Ha. pose proof (sender_scrubbed type sender (channel_config stored) p Hs) as H.
  destruct (sender (channel_config stored) p) as [[q k]|f]; [|by injection Ha as <-].
  destruct (k (ask q)) as [detail|f] eqn:Ek; [done|]. injection Ha as <-. by apply H in Ek.
Qed.

End Sending.

(** ** Witnesses *)

Definition seconds_text (s : pystr) : option Z := (fun n => n * 1000000) <$> py_int s.
Definition sample_send := send_via_channel Notify.ascii_word Notify.sample_repr Notify.ascii_lower seconds_text (fun _ => None)
  (fun s => s) (fun k m => k ++ m) (fun _ => str "ValueError: invalid literal for int()") (str "ValueError: Header values may not contain linefeed")
  1700000000000000.
Definition sample_attempt := attempt Notify.ascii_word Notify.sample_repr Notify.ascii_lower seconds_text (fun _ => None)
  (fun s => s) (fun k m => k ++ m) (fun _ => str "ValueError: invalid literal for int()") (str "ValueError: Header values may not contain linefeed")
  1700000000000000.

Definition code_push : Payload := Notify.mkPayload (str "code 4711") (str "card") [(str "message", JStr (str "code 4711"))].
Definition bot : option json := Some (JObj [(str "token", JStr (str "T:1")); (str "chat_id", JInt 42)]).
Definition telegram_says (ok : bool) : response :=
  mkResponse 200 (str "{}") (Some (JObj [(str "ok", JBool ok); (str "description", JStr (str "see https://api.telegram.org/botT:1/x"))])) None.
Definition claimed : Outbox.delivery := Outbox.mkDelivery 1 1 1 None Outbox.Pending 0 0 None None None [] None.

Lemma delivered_means_taken_witness :
  sample_attempt (Some (str "telegram", bot)) (Some code_push) (fun _ => Answered (telegram_says true)) = Outbox.Sent (str "HTTP 200")
  /\ exists type stored p q k, Some (str "telegram", bot) = Some (type, stored) /\ Some code_push = Some p
       /\ sample_send type stored p = Ok (q, k) /\ took type (Answered (telegram_says true)).
Proof.
  split; [vm_compute; reflexivity|].
  destruct (delivered_means_taken Notify.ascii_word Notify.sample_repr Notify.ascii_lower seconds_text (fun _ => None)
    (fun s => s) (fun k m => k ++ m) (fun _ => str "ValueError: invalid literal for int()") (str "ValueError: Header values may not contain linefeed")
    1700000000000000 3 [] 0 claimed (Some (str "telegram", bot)) (Some code_push)
    (fun q => match q with Mail _ _ _ _ _ _ _ _ _ => Raised true [] | _ => Answered (telegram_says true) end)) as [H _].
  - by intros [].
  - destruct H as (type & stored & p & q & k & E1 & E2 & E3 & E4); [vm_compute; reflexivity|]. exists type, stored, p, q, k. split_and!; try done. by destruct q.
Defined.

(** The refusal, with the token's URL taken out. *)
Example refusal_is_scrubbed :
  sample_attempt (Some (str "telegram", bot)) (Some code_push) (fun _ => Answered (telegram_says false))
  = Outbox.Refused (mkSendError (str "see <url>") ProviderError None None).
Proof. vm_compute. reflexivity. Qed.

Lemma missing_setting_not_retried_witness :
  sample_send (str "telegram") (Some (JObj [(str "token", JStr (str " "))])) code_push
    = Err (Fails (mkSendError (str "channel is missing the 'token' setting") ConfigError None None))
  /\ match sample_send (str "telegram") (Some (JObj [(str "token", JStr (str " "))])) code_push with Ok _ => True | Err f => Outbox.transient (error_of f) = false end.
Proof.
  split; [vm_compute; reflexivity|].
  assert (Hk : str "telegram" ∈ TYPES) by (apply (bool_decide_eq_true_1 _); by vm_compute).
  pose proof (missing_setting_not_retried Notify.ascii_word Notify.sample_repr Notify.ascii_lower seconds_text (fun _ => None)
    (fun s => s) (fun k m => k ++ m) (fun _ => str "ValueError: invalid literal for int()") (str "ValueError: Header values may not contain linefeed")
    1700000000000000 (str "telegram") (Some (JObj [(str "token", JStr (str " "))])) code_push Hk) as H.
  unfold sample_send. destruct (send_via_channel _ _ _ _ _ _ _ _ _ _ _ _ _) as [q|f]; [exact I|].
  destruct H as [[_ H]|[E _]]; [exact H|]. by apply str_inj in E.
Defined.

(** ** Channels that can never work and are asked again *)

Definition mail (to_ : string) (port : json) : option json :=
  Some (JObj [(str "host", JStr (str "relay")); (str "to", JStr (str to_)); (str "port", port)]).

(** No recipient at all: the message of a missing setting, the class of a
    provider's refusal. *)
Example no_recipient_is_retried :
  exists f, sample_send (str "smtp") (mail ", ," JNull) code_push = Err f
    /\ s_detail (error_of f) = str "channel is missing the 'to' setting" /\ Outbox.transient (error_of f) = true.
Proof. eexists. split; [vm_compute; reflexivity|]. by split. Qed.

Example bad_port_is_retried :
  exists f, sample_send (str "smtp") (mail "a@b" (JStr (str "ssl"))) code_push = Err f /\ Outbox.transient (error_of f) = true.
Proof. eexists. split; [vm_compute; reflexivity|]. by vm_compute. Qed.

Example unknown_type_is_retried :
  exists f, sample_send (str "pager") None code_push = Err f /\ Outbox.transient (error_of f) = true.
Proof. eexists. split; [vm_compute; reflexivity|]. by vm_compute. Qed.

(** A sender's name may hold a line feed (it has a place in the GSM alphabet),
    the default title shows it, and no mail can carry that title. *)
Example title_with_line_feed_is_never_mailed :
  sample_send (str "smtp") (mail "a@b" JNull) (Notify.mkPayload (str "hi") (str "card " ++ [10] ++ str "x") [])
  = Err (Throws (str "ValueError: Header values may not contain linefeed")).
Proof. vm_compute. reflexivity. Qed.

End Senders.
