(* ===== verification/Auth.v ===== *)
(** * Signing in (server/src/hub_server/auth.py, and its routes in api.py)

    The administrator's password, the sessions of the web interface and the
    bearer token of the agents.  A route runs in a worker thread and each of its
    database calls is atomic, so a route is a [thread]: its next call, and what
    it does with the result; threads interleave call by call.  The hashes
    (scrypt, SHA-256), the Unicode classes of characters, the random tokens and
    salts and the ISO texts of moments are arguments. *)

From S2P Require Import Prelude PyText PyDict Json.

Module Auth.

(** ** Passwords *)

Definition MIN_PASSWORD_LENGTH : nat := 8.
Definition MAX_PASSWORD_LENGTH : nat := 128.

(** [bytes.hex]: lower case. *)
Definition low_digit (c : Z) : Z := if (65 <=? c) && (c <=? 70) then c + 32 else c.
Definition hex_lower (bs : pybytes) : pystr := low_digit <$> hexlify bs.

Section Routes.
Context (islower isupper isdigit isalnum : Z -> bool).
Context (scrypt : pystr -> pybytes -> pybytes) (sha256 : pystr -> pystr).
Context (iso : Z -> pystr) (session_ttl : Z).

(** [PasswordPolicy.check]; the message of the exception is left out. *)
Definition check (password : pystr) : bool :=
  negb (length password <? MIN_PASSWORD_LENGTH)%nat
  && negb (MAX_PASSWORD_LENGTH <? length password)%nat
  && (2 <=? Z.of_nat (length (filter (fun b : bool => b = true)
       [existsb islower password; existsb isupper password; existsb isdigit password; existsb (fun c => negb (isalnum c)) password]))).

(** ** Tables *)

(** A session's expiry in seconds, as its ISO text keeps it. *)
Record session := mkSession { token_hash : pystr; created_at : Z; expires_at : Z; s_label : pystr }.

(** The setting [auth.password] as [get_setting] reads it ([None]: no row). *)
Record tables := mkTables { password : option json; sessions : list session }.

Definition set_password_row (v : option json) (t : tables) : tables := mkTables v (sessions t).
Definition set_sessions (l : list session) (t : tables) : tables := mkTables (password t) l.

Definition stored_password (pw : pystr) (salt : pybytes) (now : Z) : json :=
  JObj [(str "salt", JStr (hex_lower salt)); (str "hash", JStr (hex_lower (scrypt pw salt))); (str "at", JStr (iso now))].

(** [bytes.fromhex(stored[key])]: it raises on a value that is not text
    ([None]), and its KeyError and ValueError are caught ([Some None]). *)
Definition hex_field (key : string) (d : frame) : option (option pybytes) :=
  match dict_get (str key) d with
  | None => Some None
  | Some (JStr s) => Some (fromhex s)
  | Some _ => None
  end.

(** [verify_password]; [None] is an exception. *)
Definition verify_password (stored : option json) (pw : pystr) : option bool :=
  match stored with
  | Some (JObj d) =>
      salt ← hex_field "salt" d;
      match salt with
      | None => Some false
      | Some salt =>
          expected ← hex_field "hash" d;
          Some (match expected with Some h => bool_decide (scrypt pw salt = h) | None => false end)
      end
  | _ => Some false
  end.

Definition revoke_session (token : pystr) (t : tables) : tables :=
  set_sessions (filter (fun s => token_hash s <> sha256 token) (sessions t)) t.
Definition revoke_all_sessions (t : tables) : tables := set_sessions [] t.

Definition find_session (token : pystr) (t : tables) : option session :=
  List.find (fun s => bool_decide (token_hash s = sha256 token)) (sessions t).

Definition purge_expired_sessions (now : Z) (t : tables) : tables :=
  set_sessions (filter (fun s => now <= expires_at s) (sessions t)) t.

(** ** Threads *)

(** HTTP answers; [SignedIn] carries the cookie, [Allowed] is a guarded route
    that may go on. *)
Inductive answer := SignedIn (token : pystr) | Fine | Allowed | Status_ (configured authenticated : bool) | Refused (code : Z).

(** What a run leaves in the record. *)
Inductive entry :=
| Matched (stored : option json) (pw : pystr)
| Claimed (stored : json)
| Changed (stored : json)
| Cleared
| Issued (token : pystr) (expires : Z)
| Revoked (token : pystr)
| RevokedAll.

(** The next call on the tables at the clock (seconds), or the answer. *)
Inductive thread :=
| Finished (a : answer)
| Call (k : Z -> tables -> thread * tables * list entry).

(** [create_session]; the hash is the table's primary key. *)
Definition create_session (token : pystr) (k : answer) : thread :=
  Call (fun now t =>
    if existsb (fun s => bool_decide (token_hash s = sha256 token)) (sessions t) then (Finished (Refused 500), t, [])
    else let s := mkSession (sha256 token) now (now + session_ttl) [] in
         (Finished k, set_sessions (sessions t ++ [s]) t, [Issued token (now + session_ttl)])).

Definition revoke_all (k : thread) : thread := Call (fun _ t => (k, revoke_all_sessions t, [RevokedAll])).
Definition revoke_one (token : pystr) (k : thread) : thread := Call (fun _ t => (k, revoke_session token t, [Revoked token])).

(** [validate_session]: an expired session goes. *)
Definition validate_session (token : pystr) (k : bool -> thread) : thread :=
  match token with
  | [] => k false
  | _ => Call (fun now t =>
      match find_session token t with
      | None => (k false, t, [])
      | Some s => if expires_at s <=? now then (revoke_one token (k false), t, []) else (k true, t, [])
      end)
  end.

Definition is_configured (k : bool -> thread) : thread := Call (fun _ t => (k (bool_decide (is_Some (password t))), t, [])).

(** [verify_password] reads the setting, then hashes. *)
Definition verify (pw : pystr) (k : bool -> thread) : thread :=
  Call (fun _ t =>
    match verify_password (password t) pw with
    | None => (Finished (Refused 500), t, [])
    | Some true => (k true, t, [Matched (password t) pw])
    | Some false => (k false, t, [])
    end).

(** [claim_password]: the row is inserted only when there is none. *)
Definition claim_password (pw : pystr) (salt : pybytes) (token : pystr) : thread :=
  if negb (check pw) then Finished (Refused 400)
  else Call (fun now t =>
    match password t with
    | Some _ => (Finished (Refused 409), t, [])
    | None =>
        let v := stored_password pw salt now in
        (revoke_all (create_session token (SignedIn token)), set_password_row (Some v) t, [Claimed v])
    end).

(** [set_password] *)
Definition set_password (pw : pystr) (salt : pybytes) : thread :=
  if negb (check pw) then Finished (Refused 400)
  else Call (fun now t =>
    let v := stored_password pw salt now in
    (revoke_all (Finished Fine), set_password_row (Some v) t, [Changed v])).

(** ** The routes *)

(** [token] and [salt] are the random values drawn. *)
Inductive request :=
| AuthStatus (cookie : pystr)
| Setup (pw : pystr) (salt : pybytes) (token : pystr)
| Login (pw : pystr) (token : pystr)
| Logout (cookie : pystr)
| ChangePassword (cookie current new : pystr) (salt : pybytes)
| Guarded (cookie : pystr)
| ClearPassword
| PurgeExpired.

Definition require_session (cookie : pystr) (k : thread) : thread :=
  validate_session cookie (fun ok => if ok : bool then k else Finished (Refused 401)).

Definition auth_setup (pw : pystr) (salt : pybytes) (token : pystr) : thread :=
  is_configured (fun c => if c : bool then Finished (Refused 409) else claim_password pw salt token).

Definition auth_login (pw token : pystr) : thread :=
  is_configured (fun c => if negb c then Finished (Refused 409)
    else verify pw (fun ok => if ok : bool then create_session token (SignedIn token) else Finished (Refused 401))).

Definition change_password (current new : pystr) (salt : pybytes) : thread :=
  verify current (fun ok => if ok : bool then set_password new salt else Finished (Refused 400)).

Definition route (q : request) : thread :=
  match q with
  | AuthStatus cookie => is_configured (fun c => validate_session cookie (fun a => Finished (Status_ c a)))
  | Setup pw salt token => auth_setup pw salt token
  | Login pw token => auth_login pw token
  | Logout [] => Finished Fine
  | Logout cookie => revoke_one cookie (Finished Fine)
  | ChangePassword cookie current new salt => require_session cookie (change_password current new salt)
  | Guarded cookie => require_session cookie (Finished Allowed)
  | ClearPassword => Call (fun _ t => (revoke_all (Finished Fine), set_password_row None t, [Cleared]))
  | PurgeExpired => Call (fun now t => (Finished Fine, purge_expired_sessions now t, []))
  end.

(** ** Runs *)

(** The record says which thread left each entry. *)
Record server := mkServer { clock : Z; db : tables; threads : gmap Z thread; record_ : list (Z * entry) }.

Definition by_thread (i : Z) (l : list entry) : list (Z * entry) := (fun e => (i, e)) <$> l.

Inductive step : server -> server -> Prop :=
| step_time y n : clock y <= n -> step y (mkServer n (db y) (threads y) (record_ y))
| step_request y i q : threads y !! i = None -> step y (mkServer (clock y) (db y) (<[i := route q]> (threads y)) (record_ y))
| step_call y i k th t l : threads y !! i = Some (Call k) -> k (clock y) (db y) = (th, t, l) ->
    step y (mkServer (clock y) t (<[i := th]> (threads y)) (record_ y ++ by_thread i l)).

Definition initial (t : tables) (now : Z) : server := mkServer now t ∅ [].

(** ** The stored password *)

Lemma fromhex_hex_lower bs : is_bytes bs -> fromhex (hex_lower bs) = Some bs.
Proof.
  induction 1 as [|b bs Hb _ IH]; [done|]. unfold hex_lower in *.
  change (hexlify (b :: bs)) with (hex_char (Z.shiftr b 4) :: hex_char (Z.land b 15) :: hexlify bs). rewrite !fmap_cons.
  set (low := fun c => if (65 <=? c) && (c <=? 70) then c + 32 else c) in *.
  assert (Hd : forall n, 0 <= n < 16 -> hex_value (low_digit (hex_char n)) = Some n /\ ascii_space (low_digit (hex_char n)) = false).
  { intros n Hn. assert (Hin : n ∈ seqZ 0 16) by (apply elem_of_seqZ; lia). revert n Hin Hn.
    apply (Forall_forall (fun n => 0 <= n < 16 -> _)). apply (bool_decide_eq_true_1 _). by vm_compute. }
  destruct (Hd (Z.shiftr b 4)) as [H1 H2]; [by apply shiftr4_nibble|].
  destruct (Hd (Z.land b 15)) as [H3 H4]; [rewrite land_0f_mod; unfold is_byte in Hb; dlia|].
  cbn [fromhex]. rewrite H2, H1, H3, IH. cbn [mbind option_bind]. by rewrite nibbles.
Qed.

(** A password verifies against what was stored for it, and another one only
    if scrypt maps both to the same digest. *)
Lemma password_verifies pw pw' salt now : is_bytes salt -> is_bytes (scrypt pw salt) ->
  verify_password (Some (stored_password pw salt now)) pw' = Some (bool_decide (scrypt pw' salt = scrypt pw salt)).
Proof.
  intros Hs Hh. unfold verify_password, stored_password, hex_field. cbn [dict_get].
  rewrite (decide_True (P := str "salt" = str "salt")) by done.
  rewrite (decide_False (P := str "hash" = str "salt")) by (intros E; by apply str_inj in E).
  rewrite (decide_True (P := str "hash" = str "hash")) by done. rewrite fromhex_hex_lower by done. cbn [mbind option_bind]. by rewrite fromhex_hex_lower.
Qed.

(** ** Who is signed in *)

Section Record.
(** The tables at the start. *)
Context (t0 : tables).

(** The setting after the calls of the record. *)
Definition setting_after (l : list (Z * entry)) : option json :=
  foldl (fun v e => match e.2 with Claimed w | Changed w => Some w | Cleared => None | _ => v end) (password t0) l.

(** Thread [i] proved the password that was in force when it read it, or set
    the first one when there was none. *)
Definition proved (i : Z) (l : list (Z * entry)) : Prop :=
  exists before e after, l = before ++ (i, e) :: after /\ match e with
    | Matched stored pw => stored = setting_after before /\ verify_password stored pw = Some true
    | Claimed _ => setting_after before = None
    | _ => False
    end.

(** Neither the token nor all sessions were revoked. *)
Definition unrevoked (l : list (Z * entry)) (hash : pystr) : Prop :=
  RevokedAll ∉ l.*2 /\ forall token', Revoked token' ∈ l.*2 -> sha256 token' <> hash.

(** A token with this hash was issued with this expiry, by a thread that had
    proved the password, and was not revoked since. *)
Definition issued_to_owner (l : list (Z * entry)) (hash : pystr) (expires : Z) : Prop :=
  exists l1 i token l2, l = l1 ++ (i, Issued token expires) :: l2 /\ sha256 token = hash /\ proved i l1 /\ unrevoked l2 hash.

(** The session was there at the start. *)
Definition left_over (l : list (Z * entry)) (hash : pystr) (expires : Z) : Prop :=
  (exists s, s ∈ sessions t0 /\ token_hash s = hash /\ expires_at s = expires) /\ unrevoked l hash.

Definition earned (l : list (Z * entry)) (s : session) : Prop :=
  issued_to_owner l (token_hash s) (expires_at s) \/ left_over l (token_hash s) (expires_at s).

Definition is_claim (e : entry) : bool := match e with Claimed _ => true | _ => false end.
Definition claims (l : list entry) : nat := length (filter (fun e => is_claim e = true) l).

Record inv (l : list (Z * entry)) (t : tables) : Prop := {
  inv_setting : password t = setting_after l;
  inv_earned : Forall (earned l) (sessions t);
  inv_claims : Cleared ∉ l.*2 -> (claims l.*2 <= if password t0 then 0 else 1)%nat
                 /\ (password t = None -> claims l.*2 = 0%nat /\ password t0 = None) }.

(** What thread [i] may be in a run with record [l]. *)
Inductive good (i : Z) : list (Z * entry) -> thread -> Prop :=
| good_finished l a : good i l (Finished a)
| good_call l k :
    (forall l' now t th t' new, inv (l ++ l') t -> k now t = (th, t', new) -> inv ((l ++ l') ++ by_thread i new) t') ->
    (forall l' now t th t' new, inv (l ++ l') t -> k now t = (th, t', new) -> good i ((l ++ l') ++ by_thread i new) th) ->
    good i l (Call k).

Lemma good_more i l l' th : good i l th -> good i (l ++ l') th.
Proof.
  destruct 1 as [l a|l k Hi Hg]; constructor; intros l'' now t th t' new; rewrite <- (app_assoc l l' l''); [apply Hi|apply Hg].
Qed.

Lemma proved_more i l l' : proved i l -> proved i (l ++ l').
Proof. intros (b & e & a & -> & H). exists b, e, (a ++ l'). by rewrite <- app_assoc. Qed.

Lemma by_thread_entries i l : (by_thread i l).*2 = l.
Proof. unfold by_thread. rewrite <- list_fmap_compose. by apply list_fmap_id. Qed.

Lemma setting_after_app l e : setting_after (l ++ [e]) = match e.2 with Claimed w | Changed w => Some w | Cleared => None | _ => setting_after l end.
Proof. unfold setting_after. by rewrite foldl_app. Qed.

Lemma unrevoked_app l l' h : unrevoked l h -> unrevoked l' h -> unrevoked (l ++ l') h.
Proof. unfold unrevoked. rewrite fmap_app. set_solver. Qed.

Lemma earned_more l l' s : earned l s -> unrevoked l' (token_hash s) -> earned (l ++ l') s.
Proof.
  intros [(l1 & i & token & l2 & -> & Ht & Hp & Hu)|[Hs Hu]] Hu'; [left|right].
  - exists l1, i, token, (l2 ++ l'). split_and!; [by rewrite <- app_assoc|done|done|by apply unrevoked_app].
  - split; [done|by apply unrevoked_app].
Qed.

(** Entries that revoke nothing. *)
Definition harmless (e : entry) : Prop := match e with Revoked _ | RevokedAll => False | _ => True end.

Lemma earned_harmless l i e s : harmless e -> earned l s -> earned (l ++ by_thread i [e]) s.
Proof.
  intros He H. apply earned_more; [done|]. unfold unrevoked. rewrite by_thread_entries.
  split; intros; set_unfold; naive_solver.
Qed.

Lemma claims_app l l' : claims (l ++ l') = (claims l + claims l')%nat.
Proof. unfold claims. by rewrite filter_app, length_app. Qed.

(** Entries that write no setting. *)
Definition writes_nothing (e : entry) : bool := match e with Claimed _ | Changed _ | Cleared => false | _ => true end.

(** The invariant after a call that leaves the password alone. *)
Lemma inv_unwritten i l t t' e : inv l t -> password t' = password t -> writes_nothing e = true ->
  Forall (earned (l ++ by_thread i [e])) (sessions t') -> inv (l ++ by_thread i [e]) t'.
Proof.
  intros [H1 H2 H3] Ep He Hs. constructor; [|done|].
  - cbn. rewrite setting_after_app, Ep, H1. by destruct e.
  - rewrite fmap_app, by_thread_entries, claims_app, Ep. replace (claims [e]) with 0%nat by by destruct e.
    rewrite Nat.add_0_r. intros Hn. apply H3. set_solver.
Qed.

Lemma inv_still i l t : inv l t -> inv (l ++ by_thread i []) t.
Proof. cbn. by rewrite app_nil_r. Qed.

(** Two ways to give a thread's next call. *)
Lemma good_pure i l (k : Z -> tables -> thread * tables * list entry) :
  (forall l' now t, inv (l ++ l') t -> exists th t' new, k now t = (th, t', new)
     /\ inv ((l ++ l') ++ by_thread i new) t' /\ good i ((l ++ l') ++ by_thread i new) th) -> good i l (Call k).
Proof.
  intros H. constructor; intros l' now t th t' new Hi E; destruct (H l' now t Hi) as (th0 & t1 & new0 & E0 & H1 & H2);
    rewrite E in E0; injection E0 as <- <- <-; done.
Qed.

Lemma good_read i l (k : Z -> tables -> thread) : (forall l' now t, inv (l ++ l') t -> good i (l ++ l') (k now t)) ->
  good i l (Call (fun now t => (k now t, t, []))).
Proof. intros H. apply good_pure. intros l' now t Hi. eexists _, _, []. split_and!; [done|by apply inv_still|]. cbn. rewrite app_nil_r. by apply H. Qed.

Lemma good_after i l l' new th : good i l th -> good i ((l ++ l') ++ new) th.
Proof. intros H. by apply good_more, good_more. Qed.

Lemma good_revoke_all i l th : good i l th -> good i l (revoke_all th).
Proof.
  intros Hg. apply good_pure. intros l' now t Hi. eexists _, _, [_]. split_and!; [reflexivity| |by apply good_after].
  apply (inv_unwritten _ _ t); [done..|constructor].
Qed.

Lemma good_revoke_one i l token th : good i l th -> good i l (revoke_one token th).
Proof.
  intros Hg. apply good_pure. intros l' now t Hi. eexists _, _, [_]. split_and!; [reflexivity| |by apply good_after].
  apply (inv_unwritten _ _ t); [done..|]. destruct Hi as [_ Hs _]. rewrite Forall_forall in Hs |- *.
  intros s [Hne Hin]%list_elem_of_filter. apply earned_more; [by apply Hs|]. split; rewrite by_thread_entries; [set_solver|].
  intros token' H%list_elem_of_singleton. congruence.
Qed.

Lemma good_create i l token a : proved i l -> good i l (create_session token a).
Proof.
  intros Hp. apply good_pure. intros l' now t Hi. case_match.
  { eexists _, _, []. split_and!; [reflexivity|by apply inv_still|constructor]. }
  eexists _, _, [_]. split_and!; [reflexivity| |constructor]. apply (inv_unwritten _ _ t); [done..|]. cbn [sessions set_sessions]. apply Forall_app. split.
  - destruct Hi as [_ Hs _]. eapply Forall_impl; [exact Hs|]. intros s. by apply earned_harmless.
  - constructor; [|constructor]. left. exists (l ++ l'), i, token, []. split_and!; [done|done|by apply proved_more|]. split; set_solver.
Qed.

Lemma good_validate i l token (k : bool -> thread) : good i l (k true) -> good i l (k false) -> good i l (validate_session token k).
Proof.
  intros Ht Hf. destruct token as [|c token]; [done|]. unfold validate_session. apply good_pure. intros l' now t Hi.
  destruct (find_session _ t) as [s|]; [destruct (expires_at s <=? now)|]; eexists _, _, []; (split_and!; [reflexivity|by apply inv_still|]);
    apply good_after; [by apply good_revoke_one|done|done].
Qed.

Lemma good_configured i l (k : bool -> thread) : good i l (k true) -> good i l (k false) -> good i l (is_configured k).
Proof. intros Ht Hf. apply good_read. intros l' now t _. apply good_more. by case_bool_decide. Qed.

Lemma good_verify i l pw (k : bool -> thread) : (forall l', proved i (l ++ l') -> good i (l ++ l') (k true)) -> good i l (k false) -> good i l (verify pw k).
Proof.
  intros Ht Hf. apply good_pure. intros l' now t Hi. destruct (verify_password (password t) pw) as [[]|] eqn:E.
  - eexists _, _, [_]. split_and!; [reflexivity| |].
    + apply (inv_unwritten _ _ t); [done..|]. eapply Forall_impl; [apply Hi|]. intros s. by apply earned_harmless.
    + rewrite <- app_assoc. apply Ht. exists (l ++ l'), (Matched (password t) pw), []. rewrite <- app_assoc.
      split_and!; [done|apply Hi|done].
  - eexists _, _, []. split_and!; [reflexivity|by apply inv_still|]. by apply good_after.
  - eexists _, _, []. split_and!; [reflexivity|by apply inv_still|constructor].
Qed.

(** The setting is written. *)
Lemma inv_written i l t v e : inv l t -> (e = Claimed v /\ password t = None \/ e = Changed v) ->
  inv (l ++ by_thread i [e]) (set_password_row (Some v) t).
Proof.
  intros [H1 H2 H3] He. assert (Hh : harmless e) by by destruct He as [[-> _]| ->].
  constructor; cbn [password sessions set_password_row].
  - cbn. rewrite setting_after_app. by destruct He as [[-> _]| ->].
  - eapply Forall_impl; [exact H2|]. intros s. by apply earned_harmless.
  - rewrite fmap_app, by_thread_entries. intros Hn. destruct H3 as [Hle H0]; [set_solver|]. rewrite claims_app. split; [|done].
    destruct He as [[-> En]| ->].
    + change (claims [Claimed v]) with 1%nat. destruct (H0 En) as [-> ->]. lia.
    + change (claims [Changed v]) with 0%nat. lia.
Qed.

Lemma good_claim i l pw salt token : good i l (claim_password pw salt token).
Proof.
  unfold claim_password. case_match; [constructor|]. apply good_pure. intros l' now t Hi. destruct (password t) as [v|] eqn:E.
  - eexists _, _, []. split_and!; [reflexivity|by apply inv_still|constructor].
  - eexists _, _, [_]. split_and!; [reflexivity|apply inv_written; [done|by left]|].
    apply good_revoke_all, good_create. exists (l ++ l'), (Claimed (stored_password pw salt now)), [].
    split; [done|]. by rewrite <- (inv_setting _ _ Hi).
Qed.

Lemma good_set i l pw salt : good i l (set_password pw salt).
Proof.
  unfold set_password. case_match; [constructor|]. apply good_pure. intros l' now t Hi.
  eexists _, _, [_]. split_and!; [reflexivity|apply inv_written; [done|by right]|]. apply good_revoke_all. constructor.
Qed.

Lemma good_route i l q : good i l (route q).
Proof.
  destruct q as [cookie|pw salt token|pw token|cookie|cookie current new salt|cookie| |]; cbn [route].
  - apply good_configured; apply good_validate; constructor.
  - apply good_configured; [constructor|apply good_claim].
  - apply good_configured; cbn [negb]; [|constructor]. apply good_verify; [|constructor]. intros l' Hp. by apply good_create.
  - destruct cookie; [constructor|]. apply good_revoke_one. constructor.
  - apply good_validate; [|constructor]. apply good_verify; [|constructor]. intros l' _. apply good_set.
  - apply good_validate; constructor.
  - apply good_pure. intros l' now t [H1 H2 H3]. eexists _, _, [_]. split_and!; [reflexivity| |apply good_revoke_all; constructor]. constructor.
    + cbn. by rewrite setting_after_app.
    + eapply Forall_impl; [exact H2|]. intros s. by apply earned_harmless.
    + rewrite fmap_app, by_thread_entries. set_solver.
  - apply good_pure. intros l' now t Hi. eexists _, _, []. split_and!; [reflexivity| |constructor]. apply inv_still.
    destruct Hi as [H1 Hs H3]. constructor; [done| |done]. rewrite Forall_forall in Hs |- *. intros s [_ Hin]%list_elem_of_filter. by apply Hs.
Qed.

(** ** Reachable servers *)

Record server_ok (y : server) : Prop := {
  ok_tables : inv (record_ y) (db y);
  ok_threads : forall i th, threads y !! i = Some th -> good i (record_ y) th }.

Lemma initial_ok now : server_ok (initial t0 now).
Proof.
  constructor; cbn; [|by intros i th; rewrite lookup_empty]. constructor; [done| |].
  - apply Forall_forall. intros s Hs. right. split; [by exists s|]. split; set_solver.
  - intros _. split; [apply Nat.le_0_l|done].
Qed.

Lemma server_step_ok y y' : server_ok y -> step y y' -> server_ok y'.
Proof.
  intros Hy Hs. revert Hy. destruct Hs as [y0 n Hn|y0 i q Hq|y0 i k th t l Hk E]; intros [Hi Ht]; constructor; cbn; try done.
  - intros j th. destruct (decide (i = j)) as [->|Hne]; [|by rewrite lookup_insert_ne by done; apply Ht].
    rewrite lookup_insert_eq. intros [= <-]. apply good_route.
  - apply Ht in Hk. inversion Hk as [|? ? H1 H2]; subst. rewrite <- (app_nil_r (record_ y0)) in Hi |- * at 1. by apply (H1 _ _ _ _ _ _ Hi E).
  - intros j th'. destruct (decide (i = j)) as [->|Hne].
    + rewrite lookup_insert_eq. intros [= <-]. apply Ht in Hk. inversion Hk as [|? ? H1 H2]; subst.
      rewrite <- (app_nil_r (record_ y0)) in Hi |- * at 1. by apply (H2 _ _ _ _ _ _ Hi E).
    + rewrite lookup_insert_ne by done. intros Hj. by apply good_more, (Ht j).
Qed.

Lemma server_runs_ok y y' : server_ok y -> rtc step y y' -> server_ok y'.
Proof. intros H. induction 1 as [|y y1 y2 Hs _ IH]; [done|]. by apply IH, (server_step_ok y). Qed.

End Record.

(** A request with this cookie passes the guard now. *)
Definition admits (y : server) (cookie : pystr) : Prop :=
  cookie <> [] /\ exists s, find_session cookie (db y) = Some s /\ clock y < expires_at s.

(** C20 (safety): a session is earned, and stays inside its bounds.  However the
    routes' database calls interleave, a cookie passes the guard only if (up to
    a collision of SHA-256) it is a token that one request of this run was
    issued, or the token of a session the run started with.  The request that
    was issued it had itself, before, either verified its password against the
    very setting that was in force at the moment of that verification (replayed
    from the record of what was claimed, changed and cleared before it), or
    claimed the first password when there was none.  Either way the session has
    not expired, it was not signed out since, and no sign-out of everyone (the
    one that follows a password change, a claim or a reset) came after.  The
    password may have changed between the verification and the issue: see
    [old_password_outlives_change]. *)
Theorem session_is_earned (t0 : tables) (now0 : Z) (y : server) (cookie : pystr) :
  rtc step (initial t0 now0) y -> admits y cookie ->
  exists expires, clock y < expires /\
    (issued_to_owner t0 (record_ y) (sha256 cookie) expires \/ left_over t0 (record_ y) (sha256 cookie) expires).
Proof.
  intros Hr (_ & s & Hf & Hc). destruct (server_runs_ok t0 _ _ (initial_ok t0 now0) Hr) as [[_ He _] _].
  unfold find_session in Hf. apply List.find_some in Hf as [Hin Hh]. apply bool_decide_eq_true in Hh.
  rewrite List.Forall_forall in He. specialize (He s Hin). unfold earned in He. rewrite Hh in He. by exists (expires_at s).
Qed.

(** The first-run slot is claimed once.  However many setups race,
    and whatever else runs, as long as nobody resets the password at most one
    setup ever writes it, and none when there was a password to begin with. *)
Theorem setup_claims_once (t0 : tables) (now0 : Z) (y : server) :
  rtc step (initial t0 now0) y -> Cleared ∉ (record_ y).*2 ->
  (claims (record_ y).*2 <= if password t0 then 0 else 1)%nat.
Proof.
  intros Hr Hn. destruct (server_runs_ok t0 _ _ (initial_ok t0 now0) Hr) as [[_ _ Hc] _]. by apply Hc.
Qed.

End Routes.
(** ** The token of the agents (gateway.py: authenticate; api.py: rotate_agent_token) *)

Section AgentToken.
Context (lower : pystr -> pystr) (repr : json -> pystr) (sha256 : pystr -> pystr).
Context (iso : Z -> pystr) (fromisoformat : pystr -> option Z).

(** The token in force, and the two settings about the one before. *)
Record agent_tokens := mkTokens { agent_token : pystr; previous_hash : option json; previous_expires : option json }.

Definition is_ascii (s : pystr) : bool := forallb (fun c => c <? 128) s.

(** [hmac.compare_digest] of two strings: it refuses text that is not ASCII. *)
Definition compare_digest (a b : pystr) : option bool := if is_ascii a && is_ascii b then Some (bool_decide (a = b)) else None.

Definition verify_agent_token (presented expected : pystr) : option bool :=
  match presented, expected with [], _ | _, [] => Some false | _, _ => compare_digest presented expected end.

Definition verify_agent_token_hash (presented expected_hash : pystr) : option bool :=
  match presented, expected_hash with [], _ | _, [] => Some false | _, _ => compare_digest (sha256 presented) expected_hash end.

(** [header[7:].strip()] behind a bearer scheme, the empty token otherwise. *)
Definition bearer (header : option pystr) : pystr :=
  match header with
  | Some h => if negb (bool_decide (h = [])) && starts_with (str "bearer ") (lower h) then strip (drop 7 h) else []
  | None => []
  end.

(** [str(get_setting(key, "") or "")] *)
Definition setting_text (v : option json) : pystr :=
  match v with Some (JStr s) => s | Some v => if truthy v then repr v else [] | None => [] end.

(** The time in seconds; [None] is an exception. *)
Definition authenticate (header : option pystr) (now : Z) (t : agent_tokens) : option bool :=
  let token := bearer header in
  ok ← verify_agent_token token (agent_token t);
  if ok : bool then Some true
  else
    let expected_hash := setting_text (previous_hash t) in
    let expires_at := setting_text (previous_expires t) in
    match expected_hash, expires_at with
    | [], _ | _, [] => Some false
    | _, _ =>
        match fromisoformat expires_at with
        | None => Some false
        | Some expires => if expires <=? now then Some false else verify_agent_token_hash token expected_hash
        end
    end.

(** [new_token] is what [secrets.token_urlsafe] draws; a token set by the
    environment cannot be replaced. *)
Definition rotate_agent_token (from_env : bool) (new_token : pystr) (grace_minutes now : Z) (t : agent_tokens) : option agent_tokens :=
  if from_env then None
  else if grace_minutes =? 0 then Some (mkTokens new_token (Some (JStr [])) (Some (JStr [])))
  else Some (mkTokens new_token (Some (JStr (sha256 (agent_token t)))) (Some (JStr (iso (now + 60 * grace_minutes))))).

(** A token the routes and the files can carry. *)
Definition plain_token (token : pystr) : Prop := token <> [] /\ is_ascii token = true.

(** Rotating the agents' token neither locks an agent out nor
    leaves the old token behind.  From the rotation on, the new token is
    accepted always, the old one exactly until the grace the operator asked
    for is over (never, for a grace of zero), and no other token is. *)
Theorem rotation_keeps_agents (t t' : agent_tokens) (new_token token : pystr) (grace_minutes now later : Z) (header : option pystr) :
  (forall n, fromisoformat (iso n) = Some n) -> (forall n, iso n <> []) -> (forall s, plain_token (sha256 s)) ->
  (sha256 token = sha256 (agent_token t) -> token = agent_token t) ->
  plain_token new_token -> plain_token (agent_token t) -> plain_token token -> 0 <= grace_minutes ->
  rotate_agent_token false new_token grace_minutes now t = Some t' -> bearer header = token -> now <= later ->
  authenticate header later t' =
    Some (bool_decide (token = new_token) || (bool_decide (token = agent_token t) && (later <? now + 60 * grace_minutes))).
Proof.
  intros Hiso Hine Hsha Hinj [Hn0 Hna] [Ho0 Hoa] [Ht0 Hta] Hg Hr Hb Hl.
  unfold rotate_agent_token in Hr. unfold authenticate. rewrite Hb. unfold verify_agent_token, compare_digest.
  destruct token as [|c token]; [done|]. destruct (Z.eqb_spec grace_minutes 0) as [->|Hne]; injection Hr as <-; cbn [agent_token previous_hash previous_expires].
  - destruct new_token as [|d new]; [done|]. rewrite Hta, Hna. cbn [andb mbind option_bind]. destruct (bool_decide (c :: token = d :: new)); [done|].
    cbn [setting_text orb]. f_equal. symmetry. apply andb_false_iff. right. lia.
  - destruct new_token as [|d new]; [done|]. rewrite Hta, Hna. cbn [andb mbind option_bind]. destruct (bool_decide (c :: token = d :: new)); [done|].
    cbn [setting_text orb]. destruct (Hsha (agent_token t)) as [Hh0 Hha]. destruct (Hsha (c :: token)) as [_ Hhc].
    pose proof (Hine (now + 60 * grace_minutes)) as Hx. destruct (sha256 (agent_token t)) as [|x h] eqn:Eh; [done|].
    destruct (iso (now + 60 * grace_minutes)) as [|y i] eqn:Ei; [done|]. rewrite <- Ei, Hiso, <- Eh.
    destruct (Z.leb_spec (now + 60 * grace_minutes) later) as [Hle|Hlt].
    + f_equal. symmetry. apply andb_false_iff. right. lia.
    + unfold verify_agent_token_hash, compare_digest. rewrite Eh. rewrite Hhc, Hha. cbn [andb]. rewrite <- Eh. f_equal.
      replace (later <? now + 60 * grace_minutes) with true by lia. rewrite andb_true_r. apply bool_decide_ext. split; [|by intros ->]. intros E. apply Hinj. congruence.
Qed.

End AgentToken.

(** ** Witnesses *)

Definition islower_ (c : Z) : bool := (97 <=? c) && (c <=? 122).
Definition isupper_ (c : Z) : bool := (65 <=? c) && (c <=? 90).
Definition isdigit_ (c : Z) : bool := (48 <=? c) && (c <=? 57).
Definition isalnum_ (c : Z) : bool := islower_ c || isupper_ c || isdigit_ c.
(** Stand-ins for the hashes. *)
Definition scrypt_ (pw : pystr) (salt : pybytes) : pybytes := (fun c => c mod 256) <$> pw ++ salt.
Definition sha256_ (s : pystr) : pystr := str "h" ++ ((fun c => c mod 128) <$> s).
Definition iso_ (n : Z) : pystr := decimal n.

Definition route_ := route islower_ isupper_ isdigit_ isalnum_ scrypt_ sha256_ iso_ 3600.
Definition step_ := step islower_ isupper_ isdigit_ isalnum_ scrypt_ sha256_ iso_ 3600.

(** One call of thread [i]; a new request. *)
Definition call (i : Z) (y : server) : server :=
  match threads y !! i with
  | Some (Call k) => match k (clock y) (db y) with (th, t, l) => mkServer (clock y) t (<[i := th]> (threads y)) (record_ y ++ by_thread i l) end
  | _ => y
  end.
Definition ask (i : Z) (q : request) (y : server) : server := mkServer (clock y) (db y) (<[i := route_ q]> (threads y)) (record_ y).

Lemma call_step i y : (exists k, threads y !! i = Some (Call k)) -> step_ y (call i y).
Proof.
  intros [k E]. unfold call. rewrite E. destruct (k (clock y) (db y)) as [[th t] l] eqn:Ek. by apply (step_call _ _ _ _ _ _ _ _ y i k th t l).
Qed.

Lemma ask_step i q y : threads y !! i = None -> step_ y (ask i q y).
Proof. apply step_request. Qed.

Definition is_call (th : option thread) : bool := match th with Some (Call _) => true | _ => false end.

(** A run: each element is a thread to advance, with its request if it is new. *)
Fixpoint play (l : list (Z * option request)) (y : server) : option server :=
  match l with
  | [] => Some y
  | (i, Some q) :: l => if threads y !! i then None else play l (ask i q y)
  | (i, None) :: l => if is_call (threads y !! i) then play l (call i y) else None
  end.

Lemma play_steps l : forall y y', play l y = Some y' -> rtc step_ y y'.
Proof.
  induction l as [|[i [q|]] l IH]; intros y y' H; cbn in H; [by injection H as <-| |].
  - destruct (threads y !! i) eqn:E; [done|]. eapply rtc_l; [by apply (ask_step i q)|by apply IH].
  - destruct (threads y !! i) as [[|k]|] eqn:E; try done. cbn [is_call] in H. eapply rtc_l; [apply call_step; eauto|by apply IH].
Qed.

Definition first_password : pystr := str "correct horse".
Definition new_password : pystr := str "battery staple".
Definition fresh : tables := mkTables None [].

(** Two setups race; both read that there is no password. *)
Definition race : list (Z * option request) :=
  [(1, Some (Setup first_password [1] (str "t1"))); (2, Some (Setup new_password [2] (str "t2"))); (1, None); (2, None);
   (1, None); (2, None); (1, None); (1, None)].

Definition raced : server := default (initial fresh 100) (play race (initial fresh 100)).

Lemma raced_run : rtc step_ (initial fresh 100) raced.
Proof.
  destruct (play race (initial fresh 100)) as [y|] eqn:E; [|by vm_compute in E]. apply play_steps in E as Hr.
  replace raced with y; [done|]. unfold raced. by rewrite E.
Qed.

Lemma setup_claims_once_witness : claims (record_ raced).*2 = 1%nat /\ (claims (record_ raced).*2 <= if password fresh then 0 else 1)%nat.
Proof.
  split; [vm_compute; reflexivity|].
  apply (setup_claims_once islower_ isupper_ isdigit_ isalnum_ scrypt_ sha256_ iso_ 3600 fresh 100 raced); [exact raced_run|].
  replace (record_ raced).*2 with [Claimed (stored_password scrypt_ iso_ first_password [1] 100); RevokedAll; Issued (str "t1") 3700] by by vm_compute.
  set_solver.
Defined.

(** A sign-in with the password the tables start with, while an old session
    is still good. *)
Definition signed_in_before : tables :=
  mkTables (Some (stored_password scrypt_ iso_ first_password [1] 50)) [mkSession (sha256_ (str "t0")) 50 3650 []].
Definition signing_in : list (Z * option request) := [(1, Some (Login first_password (str "t1"))); (1, None); (1, None); (1, None)].
Definition signed_in : server := default (initial signed_in_before 100) (play signing_in (initial signed_in_before 100)).

Lemma signed_in_run : rtc step_ (initial signed_in_before 100) signed_in.
Proof.
  destruct (play signing_in (initial signed_in_before 100)) as [y|] eqn:E; [|by vm_compute in E]. apply play_steps in E as Hr.
  replace signed_in with y; [done|]. unfold signed_in. by rewrite E.
Qed.

Lemma session_is_earned_witness :
  (exists l1 token l2, record_ signed_in = l1 ++ (1, Issued token 3700) :: l2 /\ sha256_ token = sha256_ (str "t1"))
  /\ exists expires, 100 < expires /\ left_over sha256_ signed_in_before (record_ signed_in) (sha256_ (str "t0")) expires.
Proof.
  assert (Er : record_ signed_in = [(1, Matched (password signed_in_before) first_password); (1, Issued (str "t1") 3700)]) by (vm_compute; reflexivity).
  assert (Ec : clock signed_in = 100) by (vm_compute; reflexivity). split.
  - destruct (session_is_earned islower_ isupper_ isdigit_ isalnum_ scrypt_ sha256_ iso_ 3600 signed_in_before 100 signed_in (str "t1") signed_in_run)
      as (expires & He & [(l1 & i & token & l2 & E & Et & _)|[(s & Hs & Hh & _) _]]).
    + split; [by vm_compute|]. eexists. split; [vm_compute; reflexivity|]. by vm_compute.
    + rewrite Er in E |- *. exists [(1, Matched (password signed_in_before) first_password)], (str "t1"), []. by split.
    + apply list_elem_of_singleton in Hs as ->. by vm_compute in Hh.
  - destruct (session_is_earned islower_ isupper_ isdigit_ isalnum_ scrypt_ sha256_ iso_ 3600 signed_in_before 100 signed_in (str "t0") signed_in_run)
      as (expires & He & [(l1 & i & token & l2 & E & Et & _)|Hl]).
    + split; [by vm_compute|]. eexists. split; [vm_compute; reflexivity|]. by vm_compute.
    + exfalso. assert (H : (i, Issued token expires) ∈ record_ signed_in) by (rewrite E; apply elem_of_app; right; left). rewrite Er in H.
      apply elem_of_cons in H as [H|H%list_elem_of_singleton]; [done|]. injection H as _ H _. assert (Hx : sha256_ (str "t1") <> sha256_ (str "t0")) by (apply (bool_decide_eq_true_1 _); vm_compute; reflexivity). by rewrite H in Et.
    + exists expires. rewrite Ec in He. by split.
Defined.

Definition old_tokens : agent_tokens := mkTokens (str "old") None None.

Definition lower_ (s : pystr) : pystr := (fun c => if isupper_ c then c + 32 else c) <$> s.

Lemma sha256_plain s : plain_token (sha256_ s).
Proof.
  split; [done|]. unfold is_ascii, sha256_. rewrite forallb_app. cbn [andb forallb str]. apply andb_true_iff. split; [reflexivity|].
  apply List.forallb_forall. intros c (x & <- & _)%List.in_map_iff. pose proof (Z.mod_pos_bound x 128). lia.
Qed.

Lemma decimal_some n : decimal n <> [].
Proof. intros E. pose proof (py_int_decimal n) as H. by rewrite E in H. Qed.

Definition rotated : agent_tokens := mkTokens (str "new") (Some (JStr (str "hold"))) (Some (JStr (iso_ 3600))).

Lemma rotation_keeps_agents_witness :
  rotate_agent_token sha256_ iso_ false (str "new") 50 600 old_tokens = Some rotated
  /\ authenticate lower_ (fun _ => []) sha256_ py_int (Some (str "Bearer old")) 3599 rotated = Some true
  /\ authenticate lower_ (fun _ => []) sha256_ py_int (Some (str "Bearer old")) 3600 rotated = Some false.
Proof.
  assert (H : forall later, 600 <= later -> authenticate lower_ (fun _ => []) sha256_ py_int (Some (str "Bearer old")) later rotated
    = Some (bool_decide (str "old" = str "new") || (bool_decide (str "old" = agent_token old_tokens) && (later <? 600 + 60 * 50)))).
  { intros later Hl.
    apply (rotation_keeps_agents lower_ (fun _ => []) sha256_ iso_ py_int old_tokens rotated (str "new") (str "old") 50 600 later).
    - apply py_int_decimal.
    - apply decimal_some.
    - apply sha256_plain.
    - done.
    - by split; [|vm_compute].
    - by split; [|vm_compute].
    - by split; [|vm_compute].
    - lia.
    - vm_compute. reflexivity.
    - vm_compute. reflexivity.
    - exact Hl. }
  split; [vm_compute; reflexivity|]. split; (rewrite H by lia); vm_compute; reflexivity.
Defined.

(** ** What a password change misses

    A sign-in reads the stored password, and only then spends its time in
    scrypt; a change that completes meanwhile signs everyone out before the
    session of the old password is inserted. *)
Definition overtaken : list (Z * option request) :=
  [(1, Some (Setup first_password [1] (str "t1"))); (1, None); (1, None); (1, None); (1, None);
   (2, Some (Login first_password (str "t2"))); (2, None); (2, None);
   (3, Some (ChangePassword (str "t1") first_password new_password [2])); (3, None); (3, None); (3, None); (3, None);
   (2, None); (4, Some (Guarded (str "t2"))); (4, None)].

Definition after_overtaken : server := default (initial fresh 100) (play overtaken (initial fresh 100)).

Definition answer_of (i : Z) (y : server) : option answer := match threads y !! i with Some (Finished a) => Some a | _ => None end.

Example old_password_outlives_change :
  answer_of 3 after_overtaken = Some Fine /\ answer_of 2 after_overtaken = Some (SignedIn (str "t2")) /\ answer_of 4 after_overtaken = Some Allowed
  /\ password (db after_overtaken) = Some (stored_password scrypt_ iso_ new_password [2] 100)
  /\ verify_password scrypt_ (password (db after_overtaken)) first_password = Some false.
Proof. split_and!; vm_compute; reflexivity. Qed.

(** A bearer token outside ASCII is not a wrong token but an exception. *)
Example foreign_token_raises :
  authenticate lower_ (fun _ => []) sha256_ py_int (Some (str "Bearer " ++ [0xE9])) 600 old_tokens = None.
Proof. vm_compute. reflexivity. Qed.

End Auth.
