(* ===== verification/Reminders.v ===== *)
(** * Reminders about cards (server/src/hub_server/db.py, patch_sim in api.py)

    Balance, package and keep-alive dates are maintained by the operator
    ([patch_sim]); [reconcile_sim_incidents] turns them into incidents, at
    startup, after every edit and with each housekeeping pass.  [Decimal] of a
    text is exact ([decimal_of]; exponents beyond its range, which no form
    accepts, aside); dates are proleptic ordinals, and [date.fromisoformat] and
    [date.isoformat] are arguments. *)

From S2P Require Import Prelude PyText AtErrors Notify Alerts History.

Module Reminders.

(** ** Decimal *)

(** A finite number is [coef * 10 ^ exp]. *)
Inductive dec := Num (coef exp : Z) | Infinite | NaN.

Definition number (ds : pystr) : Z := foldl (fun n c => n * 10 + default 0 (decimal_value c)) 0 ds.

Definition signed (s : pystr) : bool * pystr :=
  match s with 45 :: r => (true, r) | 43 :: r => (false, r) | _ => (false, s) end.

(** The exponent's part, to the end of the text. *)
Definition exponent (s : pystr) : option Z :=
  match s with
  | [] => Some 0
  | c :: r =>
      if bool_decide (c = 101 \/ c = 69) then
        let '(neg, r) := signed r in
        match Notify.span is_decimal r with
        | ((_ :: _) as ds, []) => Some (if neg then - number ds else number ds)
        | _ => None
        end
      else None
  end.

Definition special (s : pystr) : option dec :=
  let l := lower_ascii <$> s in
  if bool_decide (l = str "inf" \/ l = str "infinity") then Some Infinite
  else let r := if starts_with (str "snan") l then Some (drop 4 l) else if starts_with (str "nan") l then Some (drop 3 l) else None in
       match r with Some ds => if forallb is_decimal ds then Some NaN else None | None => None end.

(** [Decimal(text)]; [None] is InvalidOperation. *)
Definition decimal_of (text : pystr) : option dec :=
  let '(neg, s) := signed (filter (fun c => c <> 95) (strip text)) in
  let '(ip, r) := Notify.span is_decimal s in
  let '(fp, r) := match r with 46 :: r => Notify.span is_decimal r | _ => ([], r) end in
  match ip ++ fp with
  | [] => special s
  | ds => e ← exponent r; Some (Num (if neg then - number ds else number ds) (e - Z.of_nat (length fp)))
  end.

(** [a <= b] and [a < 0] of finite numbers. *)
Definition dec_le (a b : Z * Z) : bool :=
  let m := Z.min a.2 b.2 in a.1 * 10 ^ (a.2 - m) <=? b.1 * 10 ^ (b.2 - m).

(** ** Reconciling *)

Record sim_row := mkSim {
  s_id : Z; s_iccid : pystr; s_label : pystr; s_phone : pystr; s_billing : pystr; s_plan : pystr;
  s_balance : option pystr; s_threshold : option pystr; s_currency : pystr; s_balance_updated : option Z;
  s_expires : option pystr; s_activity : option pystr; s_note : pystr }.

(** The one call a reconciliation makes on an incident. *)
Inductive incident_call :=
| Open (kind severity source title detail : pystr)
| Resolve (detail : pystr).

Definition perform (fingerprint : pystr) (c : incident_call) (now : Z) (t : Incidents.table) : Incidents.table :=
  match c with
  | Open kind severity source title detail => Incidents.open_incident fingerprint kind severity source title detail now t
  | Resolve detail => (Incidents.resolve_incident fingerprint detail now t).2
  end.

Section Dates.
(** [date.fromisoformat], [None] its ValueError, and [date.isoformat]. *)
Context (fromisoformat : pystr -> option Z) (isoformat : Z -> pystr).

(** Both finite and the threshold not negative, as the code requires. *)
Definition amounts (balance threshold : pystr) : option ((Z * Z) * (Z * Z)) :=
  match decimal_of balance, decimal_of threshold with
  | Some (Num n e), Some (Num n' e') => if n' <? 0 then None else Some ((n, e), (n', e'))
  | _, _ => None
  end.

Definition reconcile_sim_balance (sim : sim_row) (source : pystr) : incident_call :=
  match s_balance sim, s_threshold sim with
  | None, _ => Resolve (str "SIM " ++ [0x4F59; 0x989D; 0x5DF2; 0x6E05; 0x7A7A; 0xFF0C; 0x4F4E; 0x4F59; 0x989D; 0x63D0; 0x9192; 0x5DF2; 0x5173; 0x95ED])
  | _, None => Resolve (str "SIM " ++ [0x4F4E; 0x4F59; 0x989D; 0x9608; 0x503C; 0x5DF2; 0x6E05; 0x7A7A; 0xFF0C; 0x63D0; 0x9192; 0x5DF2; 0x5173; 0x95ED])
  | Some balance_value, Some threshold_value =>
      match amounts balance_value threshold_value with
      | None => Resolve (str "SIM " ++ [0x4F59; 0x989D; 0x6216; 0x4F4E; 0x4F59; 0x989D; 0x9608; 0x503C; 0x683C; 0x5F0F; 0x65E0; 0x6548; 0xFF0C; 0x63D0; 0x9192; 0x5DF2; 0x5173; 0x95ED])
      | Some (balance, threshold) =>
          let current := strip (s_currency sim ++ str " " ++ balance_value) in
          let threshold_display := strip (s_currency sim ++ str " " ++ threshold_value) in
          if negb (dec_le balance threshold) then Resolve ((str "SIM " ++ [0x4F59; 0x989D; 0x5DF2; 0x6062; 0x590D; 0x81F3] ++ str " ") ++ current)
          else
            let '(severity, title) :=
              if balance.1 <? 0 then (str "critical", source ++ (str " " ++ [0x4F59; 0x989D; 0x4E3A; 0x8D1F]))
              else if balance.1 =? 0 then (str "critical", source ++ (str " " ++ [0x4F59; 0x989D; 0x5DF2; 0x7528; 0x5C3D]))
              else (str "warning", source ++ (str " " ++ [0x4F59; 0x989D; 0x4E0D; 0x8DB3])) in
            Open (str "sim_low_balance") severity source title
              (([0x5F53; 0x524D; 0x4F59; 0x989D] ++ str " ") ++ current ++ ([0xFF0C; 0x4F4E; 0x4F59; 0x989D; 0x9608; 0x503C] ++ str " ") ++ threshold_display ++ [0x3002] ++ [0x8BF7; 0x53CA; 0x65F6; 0x5145; 0x503C; 0x5E76; 0x66F4; 0x65B0; 0x4F59; 0x989D; 0x3002])
      end
  end.

Definition reconcile_sim_deadline (source : pystr) (value : option pystr) (today : Z) (kind subject date_label context action : pystr) :
    incident_call :=
  match value with
  | None | Some [] => Resolve (str "SIM " ++ date_label ++ [0x5DF2; 0x6E05; 0x7A7A; 0xFF0C; 0x63D0; 0x9192; 0x5DF2; 0x5173; 0x95ED])
  | Some text =>
      match fromisoformat text with
      | None => Resolve (str "SIM " ++ date_label ++ [0x683C; 0x5F0F; 0x65E0; 0x6548; 0xFF0C; 0x63D0; 0x9192; 0x5DF2; 0x5173; 0x95ED])
      | Some deadline =>
          let days := deadline - today in
          if 30 <? days then Resolve (str "SIM " ++ date_label ++ ([0x5DF2; 0x66F4; 0x65B0; 0x81F3] ++ str " ") ++ text)
          else
            let '(severity, title, timing) :=
              if days <? 0 then (str "critical", source ++ str " " ++ subject ++ [0x5DF2; 0x8FC7; 0x671F], ([0x5DF2; 0x8FC7; 0x671F] ++ str " ") ++ decimal (- days) ++ (str " " ++ [0x5929]))
              else if days =? 0 then (str "critical", source ++ str " " ++ subject ++ [0x4ECA; 0x5929; 0x5230; 0x671F], [0x4ECA; 0x5929; 0x5230; 0x671F])
              else (if days <=? 7 then str "critical" else str "warning", source ++ str " " ++ subject ++ [0x5373; 0x5C06; 0x5230; 0x671F],
                    ([0x8FD8; 0x6709] ++ str " ") ++ decimal days ++ (str " " ++ [0x5929; 0x5230; 0x671F])) in
            Open kind severity source title (context ++ date_label ++ str " " ++ text ++ [0xFF0C] ++ timing ++ [0x3002] ++ action)
      end
  end.

(** The three calls for one card, by fingerprint. *)
Definition display (sim : sim_row) : pystr :=
  match s_label sim, s_phone sim with
  | [], [] => ([0x5C3E; 0x53F7] ++ str " ") ++ drop (length (s_iccid sim) - 4) (s_iccid sim)
  | [], p => p
  | l, _ => l
  end.

Definition balance_print (sim : sim_row) : pystr := str "sim-balance:" ++ decimal (s_id sim).
Definition expiry_print (sim : sim_row) : pystr := str "sim-expiry:" ++ decimal (s_id sim).
Definition activity_print (sim : sim_row) : pystr := str "sim-activity:" ++ decimal (s_id sim).

Definition calls_for (today : Z) (sim : sim_row) : list (pystr * incident_call) :=
  let source := str "SIM " ++ display sim in
  let plan := match s_plan sim with [] => [0x672A; 0x547D; 0x540D; 0x5957; 0x9910] | p => p end in
  [(balance_print sim, reconcile_sim_balance sim source);
   (expiry_print sim, reconcile_sim_deadline source (s_expires sim) today (str "sim_expiring") [0x5957; 0x9910] [0x5957; 0x9910; 0x5230; 0x671F; 0x65E5] (plan ++ [0xFF1B])
      [0x8BF7; 0x53CA; 0x65F6; 0x7EED; 0x8D39; 0x5E76; 0x66F4; 0x65B0; 0x5957; 0x9910; 0x5230; 0x671F; 0x65E5; 0x3002]);
   (activity_print sim, reconcile_sim_deadline source (s_activity sim) today (str "sim_activity_due") [0x4FDD; 0x53F7; 0x671F; 0x9650] [0x4FDD; 0x53F7; 0x622A; 0x6B62; 0x65E5] []
      [0x8BF7; 0x6309; 0x8FD0; 0x8425; 0x5546; 0x89C4; 0x5219; 0x4EA7; 0x751F; 0x6709; 0x6548; 0x6D3B; 0x52A8; 0xFF0C; 0x5E76; 0x66F4; 0x65B0; 0x4FDD; 0x53F7; 0x622A; 0x6B62; 0x65E5; 0x3002])].

Definition perform_all (now : Z) (cs : list (pystr * incident_call)) (t : Incidents.table) : Incidents.table :=
  foldl (fun t fc => perform fc.1 fc.2 now t) t cs.

Definition reconcile_sim_incidents (today now : Z) (sims : list sim_row) (t : Incidents.table) : Incidents.table :=
  perform_all now (mjoin (calls_for today <$> sims)) t.

(** ** Editing a card *)

(** [SimPatch] with [exclude_unset]: a field that was sent, perhaps as null. *)
Record patch := mkPatch {
  p_label : option (option pystr); p_phone : option (option pystr); p_billing : option (option pystr); p_plan : option (option pystr);
  p_balance : option (option pystr); p_threshold : option (option pystr); p_currency : option (option pystr);
  p_expires : option (option Z); p_activity : option (option Z); p_note : option (option pystr) }.

(** ^-?\d+(?:\.\d{1,6})?$ without or with the sign. *)
Definition amount_pattern (sign : bool) (s : pystr) : bool :=
  let s := match s with 45 :: r => if sign then r else s | _ => s end in
  let '(ip, r) := Notify.span is_decimal s in
  negb (bool_decide (ip = []))
  && match r with
     | [] => true
     | 46 :: r => let '(fp, rest) := Notify.span is_decimal r in
                  (1 <=? length fp)%nat && (length fp <=? 6)%nat && bool_decide (rest = [])
     | _ => false
     end.

Definition is_letter (c : Z) : bool := ((65 <=? c) && (c <=? 90)) || ((97 <=? c) && (c <=? 122)).
Definition currency_pattern (s : pystr) : bool := bool_decide (s = []) || ((length s =? 3)%nat && forallb is_letter s).

Definition given {A} (f : A -> bool) (v : option (option A)) : bool := match v with Some (Some x) => f x | _ => true end.

Definition valid_patch (p : patch) : bool :=
  given (fun s => bool_decide (s ∈ str <$> ["unknown"; "payg"; "prepaid"; "postpaid"]%string)) (p_billing p)
  && given (fun s => (length s <=? 128)%nat) (p_plan p)
  && given (fun s => (length s <=? 32)%nat && amount_pattern true s) (p_balance p)
  && given (fun s => (length s <=? 32)%nat && amount_pattern false s) (p_threshold p)
  && given currency_pattern (p_currency p).

Definition is_empty (p : patch) : bool :=
  match p with mkPatch None None None None None None None None None None => true | _ => false end.

(** A column that a null empties; a column that a null clears. *)
Definition text_column (v : option (option pystr)) (old : pystr) : pystr := match v with Some (Some s) => s | Some None => [] | None => old end.
Definition null_column {A} (v : option (option A)) (old : option A) : option A := match v with Some x => x | None => old end.

Definition patched (p : patch) (now : Z) (r : sim_row) : sim_row :=
  let iso v := match v with Some (Some d) => Some (Some (isoformat d)) | Some None => Some None | None => None end in
  mkSim (s_id r) (s_iccid r) (text_column (p_label p) (s_label r)) (text_column (p_phone p) (s_phone r))
    (match p_billing p with Some (Some s) => s | Some None => str "unknown" | None => s_billing r end)
    (text_column (p_plan p) (s_plan r)) (null_column (p_balance p) (s_balance r)) (null_column (p_threshold p) (s_threshold r))
    (match p_currency p with Some _ => upper_ascii <$> text_column (p_currency p) [] | None => s_currency r end)
    (match p_balance p with
     | None => s_balance_updated r
     | Some None => None
     | Some (Some b) => if bool_decide (s_balance r = Some b) then s_balance_updated r else Some now
     end)
    (null_column (iso (p_expires p)) (s_expires r)) (null_column (iso (p_activity p)) (s_activity r)) (text_column (p_note p) (s_note r)).

Inductive http := Done (r : sim_row) | NotFound | BadRequest | Unprocessable.

(** The cards' table and the incidents. *)
Definition patch_sim (id : Z) (p : patch) (today now : Z) (sims : list sim_row) (t : Incidents.table) : http * list sim_row * Incidents.table :=
  if negb (valid_patch p) then (Unprocessable, sims, t)
  else match List.find (fun r => s_id r =? id) sims with
       | None => (NotFound, sims, t)
       | Some r =>
           if is_empty p then (BadRequest, sims, t)
           else let new := patched p now r in
                let sims := (fun r => if s_id r =? id then new else r) <$> sims in
                (Done new, sims, reconcile_sim_incidents today now sims t)
       end.

End Dates.

(** ** One incident per fingerprint *)

Import Incidents.

Definition found (fp : pystr) (t : table) : option incident := List.find (fun i => bool_decide (i_fingerprint i = fp)) (rows t).

(** An incident that has not been resolved. *)
Definition standing (fp : pystr) (t : table) : Prop := exists i, found fp t = Some i /\ i_status i <> Resolved.

Lemma find_map_other (g : incident -> incident) fp l :
  (forall i, i_fingerprint (g i) = i_fingerprint i) -> (forall i, i_fingerprint i = fp -> g i = i) ->
  List.find (fun i => bool_decide (i_fingerprint i = fp)) (g <$> l) = List.find (fun i => bool_decide (i_fingerprint i = fp)) l.
Proof.
  intros Hf Hg. induction l as [|i l IH]; [done|]. rewrite fmap_cons. cbn [List.find]. rewrite Hf. case_bool_decide as E; [by rewrite Hg|done].
Qed.

Lemma find_map_same (g : incident -> incident) fp l : (forall i, i_fingerprint (g i) = i_fingerprint i) ->
  List.find (fun i => bool_decide (i_fingerprint i = fp)) (g <$> l) = g <$> List.find (fun i => bool_decide (i_fingerprint i = fp)) l.
Proof.
  intros Hf. induction l as [|i l IH]; [done|]. rewrite fmap_cons. cbn [List.find]. rewrite Hf. by case_bool_decide.
Qed.

Lemma find_app {A} (p : A -> bool) l m : List.find p (l ++ m) = match List.find p l with Some x => Some x | None => List.find p m end.
Proof. induction l as [|x l IH]; [done|]. cbn. by destruct (p x). Qed.

Lemma find_none_existsb {A} (p : A -> bool) l : existsb p l = false -> List.find p l = None.
Proof. induction l as [|x l IH]; [done|]. cbn. destruct (p x); [done|exact IH]. Qed.

Lemma perform_other fp f c now t : fp <> take 256 f -> found fp (perform f c now t) = found fp t.
Proof.
  intros Hne. destruct c as [kind severity source title detail|detail]; unfold found; cbn [perform].
  - unfold open_incident. destruct (existsb _ _); cbn [rows].
    + apply find_map_other; intros i; case_bool_decide as E; [done..|congruence|done].
    + rewrite find_app. destruct (List.find _ (rows t)); [done|]. cbn. by rewrite bool_decide_eq_false_2 by done.
  - cbn. apply find_map_other; intros i; unfold resolves; [by case_bool_decide; [destruct (bool_decide _)|]|].
    intros E. by rewrite bool_decide_eq_false_2 by congruence.
Qed.

(** What a call leaves under its fingerprint. *)
Definition effect (f : pystr) (c : incident_call) (t : table) : Prop :=
  match c with
  | Open kind severity _ _ _ =>
      exists i, found (take 256 f) t = Some i /\ i_status i <> Resolved /\ i_severity i = take 16 severity /\ i_kind i = take 64 kind
  | Resolve _ => forall i, found (take 256 f) t = Some i -> i_status i = Resolved
  end.

Lemma perform_effect f c now t : effect f c (perform f c now t).
Proof.
  destruct c as [kind severity source title detail|detail]; unfold effect, found; cbn [perform].
  - unfold open_incident. destruct (existsb _ _) eqn:E; cbn [rows].
    + rewrite find_map_same by (intros i; by case_bool_decide). apply existsb_exists in E as (j & Hj & Ej).
      destruct (List.find _ (rows t)) as [i|] eqn:Ei; [|pose proof (List.find_none _ _ Ei _ Hj); congruence].
      apply List.find_some in Ei as [_ Ei]. cbn. rewrite Ei. eexists. split; [reflexivity|]. cbn.
      split_and!; [|done..]. by destruct (bool_decide_reflect (i_status i = Resolved)).
    + rewrite find_app, (find_none_existsb _ _ E). cbn. rewrite bool_decide_eq_true_2 by done. eexists. by split_and!.
  - cbn. rewrite find_map_same by (intros i; by destruct (resolves f i)). intros i Hi.
    apply fmap_Some in Hi as (j & Hj & ->). apply List.find_some in Hj as [_ Hj]. unfold resolves. rewrite Hj. cbn [andb].
    by destruct (bool_decide_reflect (i_status j = Resolved)).
Qed.

Lemma effect_found f c t t' : found (take 256 f) t' = found (take 256 f) t -> effect f c t -> effect f c t'.
Proof. intros E. unfold effect. by rewrite E. Qed.

Lemma perform_all_other fp now cs t : fp ∉ take 256 <$> cs.*1 -> found fp (perform_all now cs t) = found fp t.
Proof.
  unfold perform_all. revert t. induction cs as [|[f c] cs IH]; intros t Hn; [done|]. rewrite !fmap_cons, not_elem_of_cons in Hn.
  cbn [foldl]. destruct Hn as [Hf Hn]. rewrite IH by done. by apply perform_other.
Qed.

Lemma perform_all_effect now cs t f c : NoDup (take 256 <$> cs.*1) -> (f, c) ∈ cs -> effect f c (perform_all now cs t).
Proof.
  revert t. induction cs as [|[f' c'] cs IH]; intros t Hn Hin; [by apply not_elem_of_nil in Hin|].
  rewrite !fmap_cons, NoDup_cons in Hn. destruct Hn as [Hf Hn]. change (perform_all now ((f', c') :: cs) t) with (perform_all now cs (perform f' c' now t)).
  apply elem_of_cons in Hin as [[= -> ->]|Hin]; [|by apply IH].
  eapply effect_found; [by apply perform_all_other|]. apply perform_effect.
Qed.

Lemma standing_open f kind severity source title detail t : effect f (Open kind severity source title detail) t -> standing (take 256 f) t.
Proof. intros (i & Hi & Hs & _). by exists i. Qed.

Lemma standing_resolve f detail t : effect f (Resolve detail) t -> ~ standing (take 256 f) t.
Proof. intros H (i & Hi & Hs). by apply Hs, H. Qed.

(** ** The fingerprints *)

(** Row numbers of SQLite. *)
Definition row_numbers (sims : list sim_row) : Prop := NoDup (s_id <$> sims) /\ Forall (fun s => 1 <= s_id s < 2 ^ 63) sims.

Lemma print_short (prefix : string) n : (String.length prefix <= 100)%nat -> 1 <= n < 2 ^ 63 -> take 256 (str prefix ++ decimal n) = str prefix ++ decimal n.
Proof.
  intros Hp Hn. apply take_ge. destruct (History.decimal_digits n Hn) as [_ Hl]. rewrite length_app. unfold str. rewrite length_fmap.
  assert (length (String.list_ascii_of_string prefix) = String.length prefix) as -> by (clear; induction prefix; cbn; auto). lia.
Qed.

Lemma own_print sim : 1 <= s_id sim < 2 ^ 63 ->
  take 256 (balance_print sim) = balance_print sim /\ take 256 (expiry_print sim) = expiry_print sim /\ take 256 (activity_print sim) = activity_print sim.
Proof. intros H. unfold balance_print, expiry_print, activity_print. by rewrite !print_short by (done || cbn; lia). Qed.

(** The three prints of a card. *)
Definition prints (sim : sim_row) : list pystr := [balance_print sim; expiry_print sim; activity_print sim].

Lemma prints_disjoint a b fp : fp ∈ prints a -> fp ∈ prints b -> s_id a = s_id b.
Proof.
  unfold prints, balance_print, expiry_print, activity_print. rewrite !elem_of_cons, elem_of_nil. intros Ha Hb.
  destruct_or! Ha; try done; subst fp; destruct_or! Hb; try done.
  all: try (apply app_inv_head in Hb; by apply decimal_inj).
  all: exfalso; apply (f_equal (fun l => l !! 4%nat)) in Hb; cbn in Hb; congruence.
Qed.

Lemma prints_nodup sim : NoDup (prints sim).
Proof.
  unfold prints, balance_print, expiry_print, activity_print. repeat (apply NoDup_cons; split); [..|apply NoDup_nil_2].
  all: rewrite ?elem_of_cons, ?elem_of_nil; intros H; destruct_or? H; try done;
    apply (f_equal (fun l => l !! 4%nat)) in H; cbn in H; congruence.
Qed.

Section Policy.
Context (fromisoformat : pystr -> option Z).

Lemma calls_prints today sim : (calls_for fromisoformat today sim).*1 = prints sim.
Proof. reflexivity. Qed.

Lemma all_prints today sims : (mjoin (calls_for fromisoformat today <$> sims)).*1 = mjoin (prints <$> sims).
Proof. induction sims as [|sim sims IH]; [done|]. rewrite !fmap_cons, !mjoin_cons, fmap_app, IH. done. Qed.

Lemma prints_take sims : Forall (fun s => 1 <= s_id s < 2 ^ 63) sims -> take 256 <$> mjoin (prints <$> sims) = mjoin (prints <$> sims).
Proof.
  induction 1 as [|sim sims Hs _ IH]; [done|]. rewrite !fmap_cons, !mjoin_cons, fmap_app, IH. f_equal.
  destruct (own_print sim Hs) as (E1 & E2 & E3). unfold prints. by rewrite !fmap_cons, E1, E2, E3.
Qed.

Lemma prints_distinct sims : row_numbers sims -> NoDup (mjoin (prints <$> sims)).
Proof.
  intros [Hn _]. induction sims as [|sim sims IH]; [apply NoDup_nil_2|]. rewrite !fmap_cons, !mjoin_cons in *.
  apply NoDup_cons in Hn as [Hx Hn]. apply NoDup_app. split_and!; [apply prints_nodup| |by apply IH].
  intros fp Hfp Hin. apply Hx. apply list_elem_of_join in Hin as (l & Hl & (s & -> & Hs)%list_elem_of_fmap).
  rewrite (prints_disjoint sim s fp Hfp Hl). by apply list_elem_of_fmap_2.
Qed.

Lemma reconcile_effect today now sims t sim f c : row_numbers sims -> sim ∈ sims -> (f, c) ∈ calls_for fromisoformat today sim ->
  effect f c (reconcile_sim_incidents fromisoformat today now sims t).
Proof.
  intros Hr Hs Hc. apply perform_all_effect.
  - rewrite all_prints, prints_take by apply Hr. by apply prints_distinct.
  - apply list_elem_of_join. exists (calls_for fromisoformat today sim). split; [done|]. by apply list_elem_of_fmap_2.
Qed.

(** ** The policy *)

(** The balance is a number at most the threshold, itself one and not negative. *)
Definition low (sim : sim_row) : Prop :=
  exists b th n e n' e', s_balance sim = Some b /\ s_threshold sim = Some th /\ decimal_of b = Some (Num n e) /\ decimal_of th = Some (Num n' e')
    /\ 0 <= n' /\ dec_le (n, e) (n', e') = true.

(** A date of the card is known, [days] ahead. *)
Definition ahead (today : Z) (value : option pystr) (days : Z) : Prop :=
  exists text d, value = Some text /\ text <> [] /\ fromisoformat text = Some d /\ days = d - today.

Lemma amounts_spec b th x y : amounts b th = Some (x, y) <->
  decimal_of b = Some (Num x.1 x.2) /\ decimal_of th = Some (Num y.1 y.2) /\ 0 <= y.1.
Proof.
  unfold amounts. split.
  - intros H. destruct (decimal_of b) as [[n e| |]|]; try done. destruct (decimal_of th) as [[n' e'| |]|]; try done.
    destruct (Z.ltb_spec n' 0); [done|]. by injection H as <- <-.
  - intros (-> & -> & Hy). replace (y.1 <? 0) with false by lia. by destruct x, y.
Qed.

Lemma balance_call sim source :
  match reconcile_sim_balance sim source with Open _ _ _ _ _ => low sim | Resolve _ => ~ low sim end.
Proof.
  unfold reconcile_sim_balance. destruct (s_balance sim) as [b|] eqn:Eb; [|intros (? & ? & ? & ? & ? & ? & E & _); congruence].
  destruct (s_threshold sim) as [th|] eqn:Et; [|intros (? & ? & ? & ? & ? & ? & _ & E & _); congruence].
  destruct (amounts b th) as [[x y]|] eqn:Ea.
  - pose proof Ea as (E1 & E2 & Hy)%amounts_spec. destruct (dec_le x y) eqn:El; cbn [negb].
    + assert (low sim); [|by repeat case_match].
      exists b, th, x.1, x.2, y.1, y.2. split_and!; try done; by destruct x, y.
    + intros (b' & th' & n & e & n' & e' & Hb & Ht & H1 & H2 & _ & Hl). simplify_eq. destruct x, y. cbn in *. simplify_eq. congruence.
  - intros (b' & th' & n & e & n' & e' & Hb & Ht & H1 & H2 & Hn & Hl). simplify_eq.
    rewrite (proj2 (amounts_spec b th (n, e) (n', e'))) in Ea by done. done.
Qed.

Lemma deadline_call source value today kind subject label context action :
  match reconcile_sim_deadline fromisoformat source value today kind subject label context action with
  | Open kind' severity _ _ _ =>
      kind' = kind /\ exists days, ahead today value days /\ days <= 30 /\ severity = if days <=? 7 then str "critical" else str "warning"
  | Resolve _ => forall days, ahead today value days -> 30 < days
  end.
Proof.
  unfold reconcile_sim_deadline. destruct value as [[|c text]|].
  - by intros days (text & d & [= <-] & H & _).
  - destruct (fromisoformat (c :: text)) as [d|] eqn:E.
    + assert (Ha : ahead today (Some (c :: text)) (d - today)) by by exists (c :: text), d.
      destruct (Z.ltb_spec 30 (d - today)).
      * intros days (text' & d' & [= <-] & _ & E' & ->). simplify_eq. lia.
      * destruct (Z.ltb_spec (d - today) 0); [|destruct (Z.eqb_spec (d - today) 0)]; (split; [done|]; exists (d - today); split_and!; [done|lia|]).
        -- by replace (d - today <=? 7) with true by lia.
        -- by replace (d - today <=? 7) with true by lia.
        -- done.
    + intros days (text' & d' & [= <-] & _ & E' & _). congruence.
  - by intros days (text & d & E & _).
Qed.

(** A call's effect, read with what the policy says of it. *)
Lemma effect_standing f c (P : Prop) t : take 256 f = f -> effect f c t ->
  match c with Open _ _ _ _ _ => P | Resolve _ => ~ P end -> standing f t <-> P.
Proof.
  intros Ef He HP. rewrite <- Ef. destruct c as [kind severity source title detail|detail].
  - split; [done|]. intros _. by eapply standing_open.
  - split; [|done]. intros H. by apply standing_resolve in He.
Qed.

Lemma date_standing f today value source kind subject label context action t : take 256 f = f ->
  effect f (reconcile_sim_deadline fromisoformat source value today kind subject label context action) t ->
  standing f t <-> exists days, ahead today value days /\ days <= 30.
Proof.
  intros Ef He. eapply effect_standing; [done|exact He|]. pose proof (deadline_call source value today kind subject label context action) as H.
  destruct (reconcile_sim_deadline _ _ _ _ _ _ _ _ _) as [kind' severity s t' d|].
  - destruct H as (_ & days & Ha & Hd & _). by exists days.
  - intros (days & Ha & Hd). specialize (H days Ha). lia.
Qed.

Lemma date_severity f today value source kind subject label context action t i days : take 256 f = f ->
  effect f (reconcile_sim_deadline fromisoformat source value today kind subject label context action) t ->
  found f t = Some i -> i_status i <> Resolved -> ahead today value days ->
  i_severity i = if days <=? 7 then str "critical" else str "warning".
Proof.
  intros Ef He Hf Hs (text & d & Ev & Hne & Ed & ->). pose proof (deadline_call source value today kind subject label context action) as H.
  destruct (reconcile_sim_deadline _ _ _ _ _ _ _ _ _) as [kind' severity s t' dt|].
  - destruct H as (_ & days & (text' & d' & Ev' & _ & Ed' & ->) & _ & ->). simplify_eq.
    destruct He as (j & Hj & _ & Hsev & _). rewrite Ef in Hj. simplify_eq. rewrite Hsev. by case_match.
  - rewrite <- Ef in Hf. cbn in He. by apply He in Hf.
Qed.

Lemma balance_severity sim source t i b n e : effect (balance_print sim) (reconcile_sim_balance sim source) t -> take 256 (balance_print sim) = balance_print sim ->
  found (balance_print sim) t = Some i -> i_status i <> Resolved -> s_balance sim = Some b -> decimal_of b = Some (Num n e) ->
  i_severity i = if n <=? 0 then str "critical" else str "warning".
Proof.
  intros He Ef Hf Hs Eb En. unfold reconcile_sim_balance in He. rewrite Eb in He.
  assert (Hres : forall detail, effect (balance_print sim) (Resolve detail) t -> i_severity i = if n <=? 0 then str "critical" else str "warning").
  { intros detail H. unfold effect in H. rewrite Ef in H. by apply H in Hf. }
  destruct (s_threshold sim) as [th|]; [|by eapply Hres]. destruct (amounts b th) as [[x y]|] eqn:Ea; [|by eapply Hres].
  apply amounts_spec in Ea as (E1 & _). rewrite En in E1. injection E1 as -> ->.
  destruct (negb (dec_le x y)); [by eapply Hres|]. unfold effect in He. rewrite Ef in He.
  destruct (Z.ltb_spec x.1 0) as [H0|H0]; [|destruct (Z.eqb_spec x.1 0) as [H1|H1]]; cbn beta iota in He; destruct He as (j & Hj & _ & Hsev & _); simplify_eq; rewrite Hsev.
  - by replace (x.1 <=? 0) with true by lia.
  - by rewrite H1.
  - by replace (x.1 <=? 0) with false by lia.
Qed.

(** The reminder of a date: it stands from thirty days ahead on, critical from
    seven. *)
Definition reminded (f : pystr) (today : Z) (value : option pystr) (t : table) : Prop :=
  (standing f t <-> exists days, ahead today value days /\ days <= 30)
  /\ (forall i days, found f t = Some i -> i_status i <> Resolved -> ahead today value days ->
        i_severity i = if days <=? 7 then str "critical" else str "warning").

(** The reminder of a balance, critical from zero down. *)
Definition balance_reminded (sim : sim_row) (t : table) : Prop :=
  (standing (balance_print sim) t <-> low sim)
  /\ (forall i b n e, found (balance_print sim) t = Some i -> i_status i <> Resolved -> s_balance sim = Some b -> decimal_of b = Some (Num n e) ->
        i_severity i = if n <=? 0 then str "critical" else str "warning").

Lemma reconciled today now sims t sim : row_numbers sims -> sim ∈ sims ->
  let t' := reconcile_sim_incidents fromisoformat today now sims t in
  balance_reminded sim t' /\ reminded (expiry_print sim) today (s_expires sim) t' /\ reminded (activity_print sim) today (s_activity sim) t'.
Proof.
  intros Hr Hs t'. assert (Hid : 1 <= s_id sim < 2 ^ 63) by (destruct Hr as [_ Hf]; rewrite Forall_forall in Hf; by apply Hf).
  destruct (own_print sim Hid) as (E1 & E2 & E3).
  pose proof (fun f c => reconcile_effect today now sims t sim f c Hr Hs) as He. fold t' in He. unfold calls_for in He.
  split_and!; split.
  - eapply effect_standing; [done|apply He; left|]. apply balance_call.
  - intros i b n e. eapply balance_severity; [apply He; left|done].
  - eapply date_standing; [done|apply He; right; left].
  - intros i days. eapply date_severity; [done|apply He; right; left].
  - eapply date_standing; [done|apply He; right; right; left].
  - intros i days. eapply date_severity; [done|apply He; right; right; left].
Qed.

(** C21 (functional): the reminders are what the cards say.  Whatever incidents
    there were -- open, acknowledged, resolved by hand -- after a reconciliation
    a card has a low-balance incident standing exactly when its balance and its
    threshold are finite numbers, the threshold is not negative and the balance
    is not above it (a negative threshold counts as bad data and reminds of
    nothing; the form refuses one), critical when the balance is zero or less;
    and it has one for its package and one for its keep-alive period exactly
    when that date is known and at most thirty days ahead (or past), each
    critical from seven days on and a warning before; incidents that are not
    about cards are left as they were. *)
Theorem reminders_follow_cards (today now : Z) (sims : list sim_row) (t : table) (sim : sim_row) :
  row_numbers sims -> sim ∈ sims ->
  let t' := reconcile_sim_incidents fromisoformat today now sims t in
  balance_reminded sim t'
  /\ reminded (expiry_print sim) today (s_expires sim) t'
  /\ reminded (activity_print sim) today (s_activity sim) t'
  /\ (forall fp, fp ∉ mjoin (prints <$> sims) -> found fp t' = found fp t).
Proof.
  intros Hr Hs t'. destruct (reconciled today now sims t sim Hr Hs) as (H1 & H2 & H3). split_and!; [done..|].
  intros fp Hfp. apply perform_all_other. by rewrite all_prints, prints_take by apply Hr.
Qed.

(** ** What the form accepts *)

Lemma is_decimal_plain c : is_decimal c = true -> is_space c = false /\ c <> 95 /\ c <> 46 /\ c <> 45 /\ c <> 43.
Proof.
  unfold is_decimal. rewrite bool_decide_eq_true. intros [d Hd]. unfold decimal_value in Hd. destruct (List.find _ ND_ZEROS) as [z|] eqn:E; [|done].
  apply List.find_some in E as [Hin Hz]. clear Hd d. assert (Hb : 0 <= c - z < 10) by lia.
  assert (HF : Forall (fun z => Forall (fun k => is_space (z + k) = false /\ z + k <> 95 /\ z + k <> 46 /\ z + k <> 45 /\ z + k <> 43) (seqZ 0 10)) ND_ZEROS)
    by (apply (bool_decide_eq_true_1 _); by vm_compute).
  rewrite Forall_forall in HF. apply list_elem_of_In in Hin. specialize (HF z Hin). rewrite Forall_forall in HF.
  specialize (HF (c - z)). replace (z + (c - z)) with c in HF by lia. apply HF, elem_of_seqZ. exact Hb.
Qed.

Lemma span_all p s : forallb p s = true -> Notify.span p s = (s, []).
Proof. induction s as [|c s IH]; [done|]. cbn. intros [Hc Hs]%andb_true_iff. by rewrite Hc, IH. Qed.

Lemma span_forall p s : forallb p (Notify.span p s).1 = true.
Proof. induction s as [|c s IH]; [done|]. cbn. destruct (p c) eqn:E; [|done]. destruct (Notify.span p s). cbn in *. by rewrite E. Qed.

Lemma number_nonneg ds : 0 <= number ds.
Proof.
  unfold number. assert (H : forall n, 0 <= n -> 0 <= foldl (fun n c => n * 10 + default 0 (decimal_value c)) n ds); [|by apply H].
  induction ds as [|c ds IH]; intros n Hn; [done|]. cbn [foldl]. apply IH. destruct (decimal_value c) as [d|] eqn:E; unfold default, from_option, id; [|lia].
  apply decimal_value_range in E. lia.
Qed.

Lemma plain_filter s : Forall (fun c => is_space c = false /\ c <> 95) s -> filter (fun c => c <> 95) (strip s) = s.
Proof.
  intros H. unfold strip. rewrite strip_by_none by (eapply Forall_impl; [exact H|]; by intros c [? _]).
  apply filter_id. eapply Forall_impl; [exact H|]. by intros c [_ ?].
Qed.

(** Digits, or digits, a point and digits. *)
Definition plain_number (u ip fp : pystr) : Prop :=
  ip <> [] /\ forallb is_decimal ip = true /\ forallb is_decimal fp = true /\ (length fp <= 6)%nat
  /\ u = ip ++ (match fp with [] => [] | _ => 46 :: fp end).

Lemma pattern_unsigned u : amount_pattern false u = true -> exists ip fp, plain_number u ip fp.
Proof.
  unfold amount_pattern. replace (match u with 45 :: _ => u | _ => u end) with u by by repeat case_match.
  pose proof (Notify.span_app is_decimal u) as Eu. pose proof (span_forall is_decimal u) as Hip.
  destruct (Notify.span is_decimal u) as [ip r]. cbn [fst snd] in *. intros [Hne Hr]%andb_true_iff.
  apply negb_true_iff, bool_decide_eq_false in Hne. destruct r as [|c r]; [exists ip, []; split_and!; [done|done|done|cbn; lia|exact Eu]|].
  destruct (decide (c = 46)) as [->|]; [|by repeat case_match].
  pose proof (Notify.span_app is_decimal r) as Er. pose proof (span_forall is_decimal r) as Hfp.
  destruct (Notify.span is_decimal r) as [fp rest]. cbn [fst snd] in *. apply andb_true_iff in Hr as [Hr ->%bool_decide_eq_true]. rewrite app_nil_r in Er. subst r.
  apply andb_true_iff in Hr as [H1 H6%Nat.leb_le]. exists ip, fp. destruct fp as [|d fp]; [done|]. by split_and!.
Qed.

Lemma pattern_signed s : amount_pattern true s = true -> exists neg u, s = (if neg : bool then [45] else []) ++ u /\ amount_pattern false u = true.
Proof.
  intros H. destruct s as [|c s]; [done|]. destruct (decide (c = 45)) as [->|Hc].
  - exists true, s. split; [done|]. unfold amount_pattern in *. by replace (match s with 45 :: _ => s | _ => s end) with s by by repeat case_match.
  - exists false, (c :: s). split; [done|]. unfold amount_pattern in *.
    replace (match c :: s with 45 :: _ => c :: s | _ => c :: s end) with (c :: s) by by repeat case_match.
    replace (match c :: s with 45 :: r => r | _ => c :: s end) with (c :: s) in H; [exact H|]. by repeat case_match.
Qed.

Lemma plain_chars u ip fp : plain_number u ip fp -> Forall (fun c => is_space c = false /\ c <> 95) u.
Proof.
  intros (_ & Hi & Hf & _ & ->). assert (Hd : forall l, forallb is_decimal l = true -> Forall (fun c => is_space c = false /\ c <> 95) l).
  { intros l Hl. apply List.Forall_forall. intros c Hc. eapply List.forallb_forall in Hl; [|exact Hc]. apply is_decimal_plain in Hl. tauto. }
  apply Forall_app. split; [by apply Hd|]. destruct fp as [|c fp]; [constructor|]. constructor; [by vm_compute|]. by apply Hd.
Qed.

Lemma plain_decimal u ip fp (neg : bool) : plain_number u ip fp ->
  decimal_of ((if neg then [45] else []) ++ u) = Some (Num (if neg then - number (ip ++ fp) else number (ip ++ fp)) (- Z.of_nat (length fp))).
Proof.
  intros Hp. unfold decimal_of. rewrite plain_filter.
  2: { apply Forall_app. split; [|by eapply plain_chars]. destruct neg; [|constructor]. by repeat constructor. }
  destruct Hp as (Hne & Hi & Hf & _ & ->). destruct ip as [|c ip]; [done|]. pose proof Hi as [Hc _]%andb_true_iff. apply is_decimal_plain in Hc as (_ & _ & _ & H45 & H43).
  assert (Es : signed ((if neg then [45] else []) ++ (c :: ip) ++ match fp with [] => [] | _ => 46 :: fp end)
    = (neg, (c :: ip) ++ match fp with [] => [] | _ => 46 :: fp end)) by (destruct neg; [done|]; cbn; by repeat case_match).
  rewrite Es. destruct fp as [|d fp].
  - rewrite app_nil_r, span_all by done. cbn [app]. rewrite app_nil_r. reflexivity.
  - rewrite Notify.span_stop; [|by apply List.Forall_forall; intros x Hx; eapply List.forallb_forall in Hi|by vm_compute].
    rewrite span_all by done. reflexivity.
Qed.

(** A text the form accepts is a number with at most six decimals; without a
    sign it is not negative. *)
Lemma amount_decimal sign s : amount_pattern sign s = true ->
  exists n e, decimal_of s = Some (Num n e) /\ -6 <= e <= 0 /\ (sign = false -> 0 <= n).
Proof.
  intros H. assert (Hs : exists neg u, s = (if neg : bool then [45] else []) ++ u /\ amount_pattern false u = true /\ (sign = false -> neg = false)).
  { destruct sign; [|by exists false, s]. apply pattern_signed in H as (neg & u & -> & Hu). by exists neg, u. }
  destruct Hs as (neg & u & -> & Hu & Hn). apply pattern_unsigned in Hu as (ip & fp & Hp). rewrite (plain_decimal u ip fp neg Hp).
  eexists _, _. split; [reflexivity|]. destruct Hp as (_ & _ & _ & Hl & _). split; [lia|]. intros Hf. rewrite (Hn Hf). apply number_nonneg.
Qed.

Context (isoformat : Z -> pystr).

Lemma patched_id p now r : s_id (patched isoformat p now r) = s_id r.
Proof. reflexivity. Qed.

Lemma patched_rows p now r sims : row_numbers sims -> r ∈ sims ->
  let sims' := (fun r' => if s_id r' =? s_id r then patched isoformat p now r else r') <$> sims in
  row_numbers sims' /\ patched isoformat p now r ∈ sims'.
Proof.
  intros [Hn Hf] Hr sims'. assert (Eid : s_id <$> sims' = s_id <$> sims).
  { unfold sims'. rewrite <- list_fmap_compose. apply list_fmap_ext. intros _ x _. cbn. by destruct (Z.eqb_spec (s_id x) (s_id r)). }
  split; [split|].
  - by rewrite Eid.
  - apply List.Forall_forall. intros x Hx. apply list_elem_of_In in Hx. assert (Hi : s_id x ∈ s_id <$> sims) by (rewrite <- Eid; by apply list_elem_of_fmap_2).
    apply list_elem_of_fmap in Hi as (y & -> & Hy). rewrite Forall_forall in Hf. by apply Hf.
  - apply list_elem_of_fmap. exists r. by rewrite Z.eqb_refl.
Qed.

(** What the form accepts is what the reminders compare.  When
    a PATCH is answered, a balance and a threshold it carried are numbers --
    never a "format" the reconciliation would drop in silence -- and the
    low-balance incident of that card stands exactly when the one is at most
    the other; an expiry it carried is the date the package incident is judged
    by. *)
Theorem patched_amounts_compared (id today now : Z) (p : patch) (sims sims' : list sim_row) (t t' : table) (r : sim_row) (b th : pystr) (d : Z) :
  (forall n, fromisoformat (isoformat n) = Some n) -> (forall n, isoformat n <> []) -> row_numbers sims ->
  patch_sim fromisoformat isoformat id p today now sims t = (Done r, sims', t') ->
  p_balance p = Some (Some b) -> p_threshold p = Some (Some th) -> p_expires p = Some (Some d) ->
  exists n e n' e', decimal_of b = Some (Num n e) /\ decimal_of th = Some (Num n' e') /\ 0 <= n'
    /\ (standing (balance_print r) t' <-> dec_le (n, e) (n', e') = true)
    /\ (standing (expiry_print r) t' <-> d - today <= 30).
Proof.
  intros Hiso Hine Hr Hp Hb Ht Hd. unfold patch_sim in Hp. destruct (valid_patch p) eqn:Hv; [|done]. cbn [negb] in Hp.
  destruct (List.find _ sims) as [r0|] eqn:Ef; [|done]. destruct (is_empty p); [done|]. injection Hp as <- <- <-.
  apply List.find_some in Ef as [Hin Eid]. apply Z.eqb_eq in Eid. subst id. apply list_elem_of_In in Hin.
  destruct (patched_rows p now r0 sims Hr Hin) as [Hr' Hin'].
  unfold valid_patch in Hv. rewrite Hb, Ht in Hv. cbn [given] in Hv. rewrite !andb_true_iff in Hv. destruct Hv as ((((_ & _) & [_ Hvb]) & [_ Hvt]) & _).
  apply amount_decimal in Hvb as (n & e & En & _). apply amount_decimal in Hvt as (n' & e' & En' & _ & Hn').
  exists n, e, n', e'. split_and!; [done|done|by apply Hn'|..].
  - rewrite (proj1 (proj1 (reconciled today now _ t _ Hr' Hin'))). unfold low. cbn [s_balance s_threshold patched]. rewrite Hb, Ht. cbn [null_column].
    split; [|intros Hle; exists b, th, n, e, n', e'; split_and!; try done; by apply Hn'].
    intros (b0 & th0 & m & f & m' & f' & [= <-] & [= <-] & E1 & E2 & _ & Hle). by simplify_eq.
  - rewrite (proj1 (proj1 (proj2 (reconciled today now _ t _ Hr' Hin')))). cbn [s_expires patched]. rewrite Hd. cbn [null_column].
    split; [|intros Hle; exists (d - today); split; [|done]; exists (isoformat d), d; by split_and!].
    intros (days & (text & d' & [= <-] & _ & E & ->) & Hle). rewrite Hiso in E. by injection E as <-.
Qed.

End Policy.

(** ** Witnesses *)

(** Ordinals as their own texts. *)
Definition dated (n : Z) : pystr := decimal n.
Definition card : sim_row :=
  mkSim 3 (str "8986011234") [] [] (str "prepaid") [] (Some (str "4.99")) (Some (str "5")) (str "CNY") None (Some (dated 739000)) (Some (dated 739010)) [].
Definition other_incident : incident :=
  mkIncident 1 (str "device-offline:a:b") (str "offline") (str "warning") [] [] [] Active 1 0 0 None None.

Lemma card_rows : row_numbers [card].
Proof. split; [apply NoDup_singleton|by repeat constructor]. Qed.

Definition reminders_of_card : table := reconcile_sim_incidents py_int 738994 100 [card] (mkTable [other_incident] 2).

Lemma reminders_follow_cards_witness :
  ((fun i => (i_fingerprint i, i_severity i)) <$> rows reminders_of_card)
    = [(str "device-offline:a:b", str "warning"); (balance_print card, str "warning"); (expiry_print card, str "critical"); (activity_print card, str "warning")]
  /\ (standing (balance_print card) reminders_of_card <-> low card)
  /\ (standing (activity_print card) reminders_of_card <-> exists days, ahead py_int 738994 (s_activity card) days /\ days <= 30).
Proof.
  split; [vm_compute; reflexivity|].
  destruct (reminders_follow_cards py_int 738994 100 [card] (mkTable [other_incident] 2) card card_rows) as ((H1 & _) & _ & (H2 & _) & _); [left|].
  split; [exact H1|exact H2].
Defined.

Definition top_up : patch :=
  mkPatch None None None None (Some (Some (str "-0.5"))) (Some (Some (str "10.00"))) None (Some (Some 739100)) None None.

Lemma decimal_text n : dated n <> [].
Proof. intros E. pose proof (py_int_decimal n) as H. unfold dated in E. by rewrite E in H. Qed.

Lemma patched_amounts_compared_witness :
  exists r sims' t', patch_sim py_int dated 3 top_up 738994 100 [card] (mkTable [] 1) = (Done r, sims', t')
    /\ (standing (balance_print r) t' <-> dec_le (-5, -1) (1000, -2) = true) /\ (standing (expiry_print r) t' <-> 739100 - 738994 <= 30).
Proof.
  eexists _, _, _. split; [vm_compute; reflexivity|].
  destruct (patched_amounts_compared py_int dated 3 738994 100 top_up [card] _ (mkTable [] 1) _ _ (str "-0.5") (str "10.00") 739100
    py_int_decimal decimal_text card_rows eq_refl eq_refl eq_refl eq_refl) as (n & e & n' & e' & E1 & E2 & _ & H1 & H2).
  vm_compute in E1, E2. injection E1 as <- <-. injection E2 as <- <-. exact (conj H1 H2).
Defined.

End Reminders.
