(* ===== verification/Retention.v ===== *)
(** * Retention (server/src/hub_server/db.py, [purge] to [purge_batches])

    The hourly and the manual purge: a generator that deletes one bounded batch
    of rows at each [next] and commits it, so that other database jobs run in
    between.  A row here has the columns a purge reads: its rowid, the text of
    the time column its table is purged by ([ts], [created_at], [resolved_at]
    or [at], [None] for NULL), the message it belongs to, and whether an
    incident is resolved.  Which of the matching rows a [LIMIT] takes is up to
    SQLite ([plan]); [horizon] is [(now - timedelta(days)).isoformat()], [None]
    an OverflowError. *)

From S2P Require Import Prelude PyText PyDict.

Module Retention.

(** ** Tables *)

Inductive name := Messages | Segments | Status | AgentLogs | TaskLogs | NotifyLogs | AuditEvents | Incidents | Ingested.
#[export] Instance name_eq_dec : EqDecision name.
Proof. solve_decision. Defined.

Definition names : list name := [Messages; Segments; Status; AgentLogs; TaskLogs; NotifyLogs; AuditEvents; Incidents; Ingested].

Record row := mkRow { r_id : Z; r_at : option pystr; r_message : option Z; r_resolved : bool }.
#[export] Instance row_eq_dec : EqDecision row.
Proof. solve_decision. Defined.

Definition tables : Type := name -> list row.

Definition set_table (T : name) (l : list row) (t : tables) : tables := fun T' => if bool_decide (T' = T) then l else t T'.

(** The tables whose rows refer to a message, ON DELETE CASCADE. *)
Definition child (T : name) : bool := match T with Segments | NotifyLogs => true | _ => false end.

Definition belongs (ids : list Z) (r : row) : bool := match r_message r with Some m => bool_decide (m ∈ ids) | None => false end.

Definition cascade (ids : list Z) (t : tables) : tables :=
  fun T => if child T then filter (fun r => belongs ids r = false) (t T) else t T.

(** ** What a pass deletes *)

(** The predicates of the statements, with their cutoff. *)
Inductive test := Before (cutoff : pystr) | UnownedBefore (cutoff : pystr) | ResolvedBefore (cutoff : pystr) | Under (id : Z).

(** [column < ?], which NULL fails. *)
Definition before (cutoff : pystr) (r : row) : bool := match r_at r with Some at_ => negb (text_le cutoff at_) | None => false end.

Definition matches (p : test) (r : row) : bool :=
  match p with
  | Before c => before c r
  | UnownedBefore c => bool_decide (r_message r = None) && before c r
  | ResolvedBefore c => r_resolved r && before c r
  | Under id => r_id r <? id
  end.

(** [s_key] is the entry of [removed] that counts the rows. *)
Record spec := mkSpec { s_key : option pystr; s_table : name; s_test : test }.

Record retention := mkRetention {
  message_days : Z; status_days : Z; log_days : Z; audit_days : Z; incident_days : Z; audit_max_rows : Z; ingested_days : Z;
  batch_size : Z }.

Definition newest (a b : row) : Prop := r_id b <= r_id a.
#[export] Instance newest_dec a b : Decision (newest a b).
Proof. unfold newest. apply _. Defined.

Definition counts : Type := pydict pystr Z.

Definition zeros : counts :=
  (fun k => (str k, 0)) <$> ["messages"; "status"; "ingested"; "agent_logs"; "task_logs"; "notify_logs"; "audit_events"; "incidents"]%string.

Definition horizons (r : retention) : list (option pystr * name * Z * (pystr -> test)) :=
  [(Some (str "messages"), Messages, message_days r, Before);
   (None, Segments, message_days r, UnownedBefore);
   (Some (str "status"), Status, status_days r, Before);
   (Some (str "agent_logs"), AgentLogs, log_days r, Before);
   (Some (str "task_logs"), TaskLogs, log_days r, Before);
   (Some (str "notify_logs"), NotifyLogs, log_days r, Before);
   (Some (str "audit_events"), AuditEvents, audit_days r, Before);
   (Some (str "incidents"), Incidents, incident_days r, ResolvedBefore);
   (Some (str "ingested"), Ingested, ingested_days r, Before)].

Section Purge.
Context (plan : list row -> list row) (horizon : Z -> option pystr).

(** SELECT id ... ORDER BY id DESC LIMIT 1 OFFSET audit_max_rows - 1 *)
Definition audit_cap (r : retention) (t : tables) : list spec :=
  if 0 <? audit_max_rows r then
    match merge_sort newest (t AuditEvents) !! Z.to_nat (audit_max_rows r - 1) with
    | Some row => [mkSpec (Some (str "audit_events")) AuditEvents (Under (r_id row))]
    | None => []
    end
  else [].

Definition dated (r : retention) : option (list spec) :=
  mapM (fun '(key, table, days, predicate) => cutoff ← horizon days; Some (mkSpec key table (predicate cutoff)))
    (filter (fun h => 0 < h.1.2) (horizons r)).

Definition specs (r : retention) (t : tables) : option (list spec) := l ← dated r; Some (l ++ audit_cap r t).

(** One DELETE of at most [batch] rows; rowids are unique, so it deletes the
    rows the subselect took. *)
Definition delete_batch (s : spec) (batch : nat) (t : tables) : Z * tables :=
  let hit := take batch (plan (filter (fun r => matches (s_test s) r = true) (t (s_table s)))) in
  let ids := r_id <$> hit in
  let t' := set_table (s_table s) (filter (fun r => r_id r ∉ ids) (t (s_table s))) t in
  (Z.of_nat (length hit), if bool_decide (s_table s = Messages) then cascade ids t' else t').

Definition counted (s : spec) (n : Z) (removed : counts) : counts :=
  match s_key s with Some k => dict_set k (default 0 (dict_get k removed) + n) removed | None => removed end.

(** The generator between two [next]s. *)
Inductive generator := Fresh | Deleting (todo : list spec) (removed : counts) | Ended.
Inductive next_result := Yield (removed : counts) (g : generator) (t : tables) | StopIteration | Raised.

Definition advance (r : retention) (todo : list spec) (removed : counts) (t : tables) : next_result :=
  match todo with
  | [] => Yield removed Ended t
  | s :: rest =>
      let '(count, t) := delete_batch s (Z.to_nat (batch_size r)) t in
      let removed := counted s count removed in
      Yield removed (Deleting (if count <? batch_size r then rest else todo) removed) t
  end.

Definition next (r : retention) (g : generator) (t : tables) : next_result :=
  match g with
  | Fresh =>
      if batch_size r <? 1 then Raised
      else match specs r t with None => Raised | Some todo => advance r todo zeros t end
  | Deleting todo removed => advance r todo removed t
  | Ended => StopIteration
  end.

(** [purge_async]: what the other jobs do before the [n]th batch is [world n].
    [None]: still running after [fuel] batches. *)
Fixpoint purge_async (fuel n : nat) (world : nat -> tables -> tables) (r : retention) (g : generator) (removed : counts) (t : tables) :
    option (res unit counts) * tables :=
  match fuel with
  | O => (None, t)
  | S fuel =>
      let t := world n t in
      match next r g t with
      | Yield removed g t => purge_async fuel (S n) world r g removed t
      | StopIteration => (Some (Ok removed), t)
      | Raised => (Some (Err tt), t)
      end
  end.

(** [purge]: nothing runs in between. *)
Definition purge (fuel : nat) (r : retention) (t : tables) : option (res unit counts) * tables :=
  purge_async fuel 0 (fun _ t => t) r Fresh [] t.

End Purge.

(** ** One batch *)

Section Filters.
Context {A : Type}.
Implicit Types (f g : A -> bool) (l : list A).

Lemma filter_every f l : (forall x, x ∈ l -> f x = true) -> filter (fun x => f x = true) l = l.
Proof.
  induction l as [|x l IH]; intros H; [done|]. rewrite filter_cons_True by (apply H; left). f_equal. apply IH. intros y Hy. apply H. by right.
Qed.

Lemma filter_narrow f g l m : (forall x, x ∈ m -> g x = true) ->
  filter (fun x => g x = true) (filter (fun x => f x = true) l ++ m) = filter (fun x => f x && g x = true) l ++ m.
Proof.
  intros H. rewrite filter_app, (filter_every g m H). f_equal. rewrite list_filter_filter.
  apply list_filter_iff. intros x. rewrite andb_true_iff. tauto.
Qed.

Lemma filter_agree f g l : (forall x, x ∈ l -> f x = g x) -> filter (fun x => f x = true) l = filter (fun x => g x = true) l.
Proof.
  induction l as [|x l IH]; intros H; [done|]. rewrite !filter_cons, (H x) by left. rewrite IH; [done|]. intros y Hy. apply H. by right.
Qed.

Lemma filter_longer f g l : (forall x, f x = true -> g x = true) ->
  (length (filter (fun x => f x = true) l) <= length (filter (fun x => g x = true) l))%nat.
Proof.
  intros H. induction l as [|x l IH]; [done|]. rewrite !filter_cons. specialize (H x).
  destruct (f x), (g x); repeat case_decide; cbn; try lia; naive_solver.
Qed.

(** What a narrower filter leaves out. *)
Lemma filter_without f g l : length (filter (fun x => f x = true) l)
  = (length (filter (fun x => f x && g x = true) l) + length (filter (fun x => f x && negb (g x) = true) l))%nat.
Proof.
  induction l as [|x l IH]; [done|]. rewrite !filter_cons. destruct (f x), (g x); cbn; repeat case_decide; cbn; try done; lia.
Qed.
End Filters.

(** The rows of a table that a batch of [s] leaves. *)
Definition spared (s : spec) (ids : list Z) (T : name) (r : row) : bool :=
  negb (bool_decide (T = s_table s) && bool_decide (r_id r ∈ ids))
  && negb (bool_decide (s_table s = Messages) && child T && belongs ids r).

Section Batch.
Context (plan : list row -> list row) (plan_perm : forall l, plan l ≡ₚ l).

Definition hit (s : spec) (batch : nat) (t : tables) : list row :=
  take batch (plan (filter (fun r => matches (s_test s) r = true) (t (s_table s)))).

Lemma batch_filter s batch t T :
  (delete_batch plan s batch t).2 T = filter (fun r => spared s (r_id <$> hit s batch t) T r = true) (t T).
Proof.
  unfold delete_batch, cascade, set_table, spared. fold (hit s batch t). set (ids := r_id <$> hit s batch t). cbn.
  destruct (decide (s_table s = Messages)) as [EM|EM].
  - rewrite bool_decide_eq_true_2 by done. rewrite EM. destruct (decide (T = Messages)) as [->|NT]; cbn.
    + apply list_filter_iff. intros r. destruct (decide (r_id r ∈ ids)); rewrite ?bool_decide_eq_true_2, ?bool_decide_eq_false_2 by done; cbn; naive_solver.
    + rewrite bool_decide_eq_false_2 by done. cbn. destruct (child T).
      * apply list_filter_iff. intros r. cbn. destruct (belongs ids r); naive_solver.
      * symmetry. by apply filter_every.
  - rewrite bool_decide_eq_false_2 by done. cbn. destruct (decide (T = s_table s)) as [->|NT].
    + rewrite bool_decide_eq_true_2 by done. apply list_filter_iff. intros r.
      destruct (decide (r_id r ∈ ids)); rewrite ?bool_decide_eq_true_2, ?bool_decide_eq_false_2 by done; cbn; naive_solver.
    + rewrite bool_decide_eq_false_2 by done. symmetry. apply filter_every. intros r _. by rewrite andb_false_l.
Qed.

Lemma hit_in s batch t r : r ∈ hit s batch t -> r ∈ t (s_table s) /\ matches (s_test s) r = true.
Proof. unfold hit. intros H%elem_of_take. destruct H as (i & H & _). apply list_elem_of_lookup_2 in H. rewrite plan_perm in H. by apply list_elem_of_filter in H as [? ?]. Qed.

Lemma hit_ids s batch t r : NoDup (r_id <$> t (s_table s)) -> r ∈ t (s_table s) -> r_id r ∈ r_id <$> hit s batch t -> r ∈ hit s batch t.
Proof.
  intros Hn Hr Hi. apply list_elem_of_fmap in Hi as (h & E & Hh). destruct (hit_in _ _ _ _ Hh) as [Hin _].
  enough (h = r) as <- by done. by apply (NoDup_fmap_eq r_id (t (s_table s))).
Qed.
End Batch.

(** ** A whole pass *)

Definition expired (l : list spec) (T : name) (r : row) : bool :=
  existsb (fun s => bool_decide (s_table s = T) && matches (s_test s) r) l.

(** The row's message goes. *)
Definition orphaned (l : list spec) (t : tables) (T : name) (r : row) : bool :=
  child T && belongs (r_id <$> filter (fun m => expired l Messages m = true) (t Messages)) r.

Definition keep (l : list spec) (t : tables) (T : name) (r : row) : bool := negb (expired l T r) && negb (orphaned l t T r).

Definition key_of (T : name) : option pystr :=
  str <$> match T with
  | Messages => Some "messages" | Segments => None | Status => Some "status" | AgentLogs => Some "agent_logs"
  | TaskLogs => Some "task_logs" | NotifyLogs => Some "notify_logs" | AuditEvents => Some "audit_events"
  | Incidents => Some "incidents" | Ingested => Some "ingested"
  end%string.

Lemma key_inj T T' k : key_of T = Some k -> key_of T' = Some k -> T = T'.
Proof. destruct T, T'; intros E E'; try done; rewrite <- E' in E; vm_compute in E; discriminate E. Qed.

Lemma expired_in l s r : s ∈ l -> matches (s_test s) r = true -> expired l (s_table s) r = true.
Proof. intros Hs Hm. apply existsb_exists. exists s. rewrite <- list_elem_of_In, Hm, bool_decide_eq_true_2 by done. done. Qed.

Lemma expired_out l T r : expired l T r = true -> exists s, s ∈ l /\ s_table s = T /\ matches (s_test s) r = true.
Proof. intros (s & Hs & [E%bool_decide_eq_true Hm]%andb_true_iff)%existsb_exists. rewrite <- list_elem_of_In in Hs. by exists s. Qed.

Definition size (f : name -> row -> bool) (t : tables) : nat := sum_list_with (fun T => length (filter (fun r => f T r = true) (t T))) names.

Section Pass.
Context (plan : list row -> list row) (plan_perm : forall l, plan l ≡ₚ l).
Context (l : list spec) (t0 : tables) (l_keys : forall s, s ∈ l -> s_key s = key_of (s_table s)).

(** The row went by its own date, not with its message. *)
Definition own_gone (alive : name -> row -> bool) (T : name) (r : row) : bool := negb (alive T r) && negb (orphaned l t0 T r).

(** Where a pass stands: [alive] are the rows of [t0] still there, [arr] the
    rows that came since. *)
Record pass (todo : list spec) (removed : counts) (arr : tables) (alive : name -> row -> bool) (t : tables) : Prop := {
  pass_rows T : t T = filter (fun r => alive T r = true) (t0 T) ++ arr T;
  pass_keep T r : r ∈ t0 T -> keep l t0 T r = true -> alive T r = true;
  pass_todo s : s ∈ todo -> s ∈ l;
  pass_due s r : s ∈ l -> r ∈ t0 (s_table s) -> alive (s_table s) r = true -> matches (s_test s) r = true -> s ∈ todo;
  pass_child T r q : child T = true -> r ∈ t0 T -> alive T r = true -> r_message r = Some (r_id q) -> q ∈ t0 Messages ->
    alive Messages q = true;
  pass_order : Forall (fun s => s_table s <> Messages) (tail todo);
  pass_count T k : key_of T = Some k -> default 0 (dict_get k removed) = Z.of_nat (length (filter (fun r => own_gone alive T r = true) (t0 T))) }.

(** The arrivals stay inside their horizons, and rowids are unique. *)
Definition arrived_ok (arr : tables) : Prop :=
  forall T, NoDup (r_id <$> t0 T ++ arr T) /\ forall r, r ∈ arr T -> keep l t0 T r = true.

Lemma pass_alive removed arr alive t T r : pass [] removed arr alive t -> r ∈ t0 T -> alive T r = keep l t0 T r.
Proof.
  intros Hp Hr. apply eq_true_iff_eq. split; [|by eapply pass_keep]. intros Ha. unfold keep, orphaned.
  apply andb_true_iff. split; apply negb_true_iff, not_true_iff_false.
  - intros (s & Hs & <- & Hm)%expired_out. by apply (elem_of_nil s), (pass_due _ _ _ _ _ Hp s r).
  - intros [Hc Hb]%andb_true_iff. unfold belongs in Hb. destruct (r_message r) as [m|] eqn:Em; [|done].
    apply bool_decide_eq_true, list_elem_of_fmap in Hb as (q & -> & [He Hq]%list_elem_of_filter).
    apply expired_out in He as (s & Hs & Es & Hm). pose proof (pass_child _ _ _ _ _ Hp _ _ _ Hc Hr Ha Em Hq) as Hal.
    rewrite <- Es in Hq, Hal. by apply (elem_of_nil s), (pass_due _ _ _ _ _ Hp s q).
Qed.

Lemma pass_done removed arr alive t T : pass [] removed arr alive t -> t T = filter (fun r => keep l t0 T r = true) (t0 T) ++ arr T.
Proof. intros Hp. rewrite (pass_rows _ _ _ _ _ Hp T). f_equal. apply filter_agree. intros r Hr. by eapply pass_alive. Qed.

(** A batch in a pass. *)
Section Step.
Context (s : spec) (rest : list spec) (removed : counts) (arr : tables) (alive : name -> row -> bool) (t : tables) (batch : nat).
Context (Hp : pass (s :: rest) removed arr alive t) (Ha : arrived_ok arr).

Lemma hit_old r : r ∈ hit plan s batch t -> r ∈ t0 (s_table s) /\ alive (s_table s) r = true /\ expired l (s_table s) r = true.
Proof.
  intros [Hin Hm]%(hit_in plan plan_perm). assert (Hs : s ∈ l) by (apply (pass_todo _ _ _ _ _ Hp); left).
  pose proof (expired_in l s r Hs Hm) as He. rewrite (pass_rows _ _ _ _ _ Hp) in Hin. apply elem_of_app in Hin as [[? ?]%list_elem_of_filter|Hin]; [done|].
  destruct (Ha (s_table s)) as [_ Hk]. specialize (Hk r Hin). unfold keep in Hk. by rewrite He in Hk.
Qed.

Lemma ids_expired T r : T = s_table s -> r ∈ t0 T ++ arr T -> r_id r ∈ r_id <$> hit plan s batch t -> r ∈ hit plan s batch t.
Proof.
  intros -> Hr (h & E & Hh)%list_elem_of_fmap. destruct (hit_old h Hh) as (Hin & _). enough (h = r) as <- by done.
  apply (NoDup_fmap_eq r_id (t0 (s_table s) ++ arr (s_table s))); [apply Ha| |done|done]. apply elem_of_app. by left.
Qed.

Lemma kept_spared T r : r ∈ t0 T ++ arr T -> keep l t0 T r = true -> spared s (r_id <$> hit plan s batch t) T r = true.
Proof.
  intros Hr [He Ho]%andb_true_iff. apply negb_true_iff in He, Ho. unfold spared. apply andb_true_iff.
  split; apply negb_true_iff, not_true_iff_false.
  - intros [E%bool_decide_eq_true Hi%bool_decide_eq_true]%andb_true_iff. pose proof (ids_expired T r E Hr Hi) as Hh.
    destruct (hit_old r Hh) as (_ & _ & Hx). rewrite <- E in Hx. congruence.
  - intros [[EM%bool_decide_eq_true Hc]%andb_true_iff Hb]%andb_true_iff. unfold orphaned in Ho. rewrite Hc in Ho. cbn in Ho.
    apply not_true_iff_false in Ho. apply Ho. unfold belongs in *. destruct (r_message r) as [m|]; [|done].
    apply bool_decide_eq_true. apply bool_decide_eq_true, list_elem_of_fmap in Hb as (h & -> & Hh). apply list_elem_of_fmap.
    exists h. split; [done|]. destruct (hit_old h Hh) as (Hin & _ & Hx). rewrite EM in Hin, Hx. by apply list_elem_of_filter.
Qed.

Definition alive_after (T : name) (r : row) : bool := alive T r && spared s (r_id <$> hit plan s batch t) T r.

Lemma spared_other T r : child T = false -> T <> s_table s -> spared s (r_id <$> hit plan s batch t) T r = true.
Proof. intros Hc HT. unfold spared. rewrite Hc, (bool_decide_eq_false_2 (T = _)) by done. by rewrite andb_false_r. Qed.

Lemma spared_own r : spared s (r_id <$> hit plan s batch t) (s_table s) r = negb (bool_decide (r_id r ∈ r_id <$> hit plan s batch t)).
Proof.
  unfold spared. rewrite (bool_decide_eq_true_2 (s_table s = s_table s)) by done. cbn. destruct (decide (s_table s = Messages)) as [E|E].
  - rewrite E. cbn. by rewrite andb_true_r.
  - rewrite (bool_decide_eq_false_2 (_ = Messages)) by done. cbn. by rewrite andb_true_r.
Qed.

Lemma rows_nodup : NoDup (t0 (s_table s) ++ arr (s_table s)).
Proof. destruct (Ha (s_table s)) as [H _]. by apply NoDup_fmap_1 in H. Qed.

Lemma hit_nodup : NoDup (hit plan s batch t).
Proof.
  unfold hit. eapply sublist_NoDup; [|apply sublist_take]. rewrite plan_perm. apply NoDup_filter. rewrite (pass_rows _ _ _ _ _ Hp).
  eapply sublist_NoDup; [apply rows_nodup|]. apply sublist_app; [apply sublist_filter|done].
Qed.

Lemma hit_count :
  length (filter (fun r => alive (s_table s) r = true) (t0 (s_table s)))
  = (length (filter (fun r => alive_after (s_table s) r = true) (t0 (s_table s))) + length (hit plan s batch t))%nat.
Proof.
  rewrite (filter_without (alive (s_table s)) (spared s (r_id <$> hit plan s batch t) (s_table s))). f_equal.
  apply Permutation_length, NoDup_Permutation; [|apply hit_nodup|].
  - apply NoDup_filter. pose proof rows_nodup as H. by apply NoDup_app in H as [? _].
  - intros r. rewrite list_elem_of_filter, spared_own, negb_involutive, andb_true_iff, bool_decide_eq_true. split.
    + intros [[_ Hi] Hr]. apply (ids_expired (s_table s)); [done|apply elem_of_app; by left|done].
    + intros Hh. destruct (hit_old r Hh) as (? & ? & _). split; [|done]. split; [done|]. apply list_elem_of_fmap. by exists r.
Qed.

(** Messages are purged first: a row that goes by its own date later has its
    message still. *)
Lemma hit_owned r : r ∈ hit plan s batch t -> orphaned l t0 (s_table s) r = false.
Proof.
  intros Hh. destruct (hit_old r Hh) as (Hr & Hal & _). apply not_true_iff_false. unfold orphaned. intros [Hc Hb]%andb_true_iff.
  unfold belongs in Hb. destruct (r_message r) as [m|] eqn:Em; [|done].
  apply bool_decide_eq_true, list_elem_of_fmap in Hb as (q & -> & [He Hq]%list_elem_of_filter).
  pose proof (pass_child _ _ _ _ _ Hp _ _ _ Hc Hr Hal Em Hq) as Hq'. apply expired_out in He as (s' & Hs & Es & Hm).
  rewrite <- Es in Hq, Hq'. pose proof (pass_due _ _ _ _ _ Hp s' q Hs Hq Hq' Hm) as Hd. apply elem_of_cons in Hd as [->|Hd].
  - by rewrite Es in Hc.
  - pose proof (pass_order _ _ _ _ _ Hp) as Ho. cbn [tail] in Ho. rewrite Forall_forall in Ho. by apply (Ho s').
Qed.

Lemma own_count :
  length (filter (fun r => own_gone alive_after (s_table s) r = true) (t0 (s_table s)))
  = (length (filter (fun r => own_gone alive (s_table s) r = true) (t0 (s_table s))) + length (hit plan s batch t))%nat.
Proof.
  rewrite (filter_without (own_gone alive_after (s_table s)) (fun r => negb (alive (s_table s) r))). f_equal.
  - f_equal. apply filter_agree. intros r _. unfold own_gone, alive_after. by destruct (alive (s_table s) r), (orphaned l t0 (s_table s) r), (spared _ _ _ r).
  - apply Permutation_length, NoDup_Permutation; [|apply hit_nodup|].
    + apply NoDup_filter. pose proof rows_nodup as H. by apply NoDup_app in H as [? _].
    + intros r. rewrite list_elem_of_filter. unfold own_gone, alive_after. rewrite spared_own, negb_involutive. split.
      * intros [H Hr]. destruct (alive (s_table s) r); [|by rewrite andb_false_r in H]. destruct (orphaned l t0 (s_table s) r); [by rewrite andb_false_r in H|].
        rewrite !andb_true_r in H. cbn in H. rewrite negb_involutive in H. apply bool_decide_eq_true in H.
        apply (ids_expired (s_table s)); [done|apply elem_of_app; by left|done].
      * intros Hh. destruct (hit_old r Hh) as (? & -> & _). rewrite hit_owned by done. rewrite bool_decide_eq_true_2; [done|].
        apply list_elem_of_fmap. by exists r.
Qed.

Lemma other_count T : T <> s_table s ->
  filter (fun r => own_gone alive_after T r = true) (t0 T) = filter (fun r => own_gone alive T r = true) (t0 T).
Proof.
  intros HT. apply filter_agree. intros r Hr. unfold own_gone, alive_after. destruct (spared s (r_id <$> hit plan s batch t) T r) eqn:Es.
  - by rewrite andb_true_r.
  - enough (orphaned l t0 T r = true) as -> by by rewrite !andb_false_r.
    unfold spared in Es. rewrite (bool_decide_eq_false_2 (T = _)) in Es by done. cbn [andb negb] in Es. apply negb_false_iff in Es.
    apply andb_true_iff in Es as [[EM%bool_decide_eq_true Hc]%andb_true_iff Hb]. unfold orphaned. rewrite Hc. cbn [andb]. unfold belongs in *.
    destruct (r_message r) as [m|]; [|done]. apply bool_decide_eq_true. apply bool_decide_eq_true, list_elem_of_fmap in Hb as (h & -> & Hh).
    apply list_elem_of_fmap. exists h. split; [done|]. destruct (hit_old h Hh) as (Hin & _ & Hx). rewrite EM in Hin, Hx. by apply list_elem_of_filter.
Qed.

Lemma short_batch : (length (hit plan s batch t) < batch)%nat -> forall r, r ∈ t (s_table s) -> matches (s_test s) r = true -> r ∈ hit plan s batch t.
Proof.
  unfold hit. rewrite length_take. intros H r Hr Hm. rewrite take_ge by lia. rewrite plan_perm. by apply list_elem_of_filter.
Qed.

Lemma batch_pass (short : bool) : (short = true -> (length (hit plan s batch t) < batch)%nat) ->
  pass (if short then rest else s :: rest) (counted s (Z.of_nat (length (hit plan s batch t))) removed) arr alive_after (delete_batch plan s batch t).2.
Proof.
  intros Hshort. pose proof (pass_todo _ _ _ _ _ Hp) as Hl. constructor.
  - intros T. rewrite batch_filter, (pass_rows _ _ _ _ _ Hp). apply filter_narrow. intros r Hr.
    apply kept_spared; [apply elem_of_app; by right|]. by apply (Ha T).
  - intros T r Hr Hk. unfold alive_after. rewrite (pass_keep _ _ _ _ _ Hp T r Hr Hk). apply kept_spared; [apply elem_of_app; by left|done].
  - intros s' Hs. apply Hl. destruct short; [by right|done].
  - intros s' r Hs Hr [Hal Hsp]%andb_true_iff Hm. pose proof (pass_due _ _ _ _ _ Hp s' r Hs Hr Hal Hm) as Hd.
    destruct short; [|done]. apply elem_of_cons in Hd as [->|]; [|done]. exfalso.
    rewrite spared_own in Hsp. apply negb_true_iff, bool_decide_eq_false in Hsp. apply Hsp. apply list_elem_of_fmap. exists r. split; [done|].
    apply short_batch; [by apply Hshort| |done]. rewrite (pass_rows _ _ _ _ _ Hp). apply elem_of_app. left. by apply list_elem_of_filter.
  - intros T r q Hc Hr [Hal Hsp]%andb_true_iff Em Hq. unfold alive_after. rewrite (pass_child _ _ _ _ _ Hp T r q Hc Hr Hal Em Hq). cbn.
    destruct (spared s _ Messages q) eqn:Eq; [done|]. exfalso. unfold spared in Hsp, Eq. apply andb_true_iff in Hsp as [_ Hsp].
    cbn in Eq. rewrite andb_false_r in Eq. cbn in Eq. rewrite andb_true_r in Eq. apply negb_false_iff, andb_true_iff in Eq as [E%bool_decide_eq_true Hi%bool_decide_eq_true].
    rewrite <- E in Hsp. rewrite bool_decide_eq_true_2, Hc in Hsp by done. cbn in Hsp. unfold belongs in Hsp. rewrite Em in Hsp.
    by rewrite bool_decide_eq_true_2 in Hsp.
  - pose proof (pass_order _ _ _ _ _ Hp) as Ho. destruct short; [|done]. cbn [tail] in Ho. destruct rest; [done|]. by apply Forall_cons in Ho as [_ Ho].
  - intros T k Ek. pose proof (pass_count _ _ _ _ _ Hp T k Ek) as Hn. unfold counted. rewrite (l_keys s) by (apply Hl; left).
    destruct (decide (T = s_table s)) as [->|NT].
    + rewrite Ek, dict_get_set. cbn. rewrite Hn, own_count. lia.
    + rewrite other_count by done. destruct (key_of (s_table s)) as [k'|] eqn:E'; [|done].
      rewrite dict_get_set_ne; [done|]. intros ->. apply NT. by apply (key_inj _ _ k').
Qed.

Lemma size_after : (size alive_after t0 + length (hit plan s batch t) <= size alive t0)%nat.
Proof.
  unfold size. assert (Hle : forall T, (length (filter (fun r => alive_after T r = true) (t0 T)) <= length (filter (fun r => alive T r = true) (t0 T)))%nat).
  { intros T. rewrite (filter_without (alive T) (spared s (r_id <$> hit plan s batch t) T)). unfold alive_after. lia. }
  pose proof hit_count as Hc. assert (Hin : s_table s ∈ names) by (destruct (s_table s); set_solver).
  revert Hin. generalize names as Ts. induction Ts as [|T Ts IH]; intros Hin; [by apply elem_of_nil in Hin|]. cbn.
  assert (Hs : forall Ts, (sum_list_with (fun T => length (filter (fun r => alive_after T r = true) (t0 T))) Ts
    <= sum_list_with (fun T => length (filter (fun r => alive T r = true) (t0 T))) Ts)%nat).
  { intros Ts'. induction Ts' as [|T' Ts' IH']; cbn; [lia|]. specialize (Hle T'). lia. }
  apply elem_of_cons in Hin as [<-|Hin]; [specialize (Hs Ts)|specialize (IH Hin); specialize (Hle T)]; lia.
Qed.
End Step.

Lemma pass_more todo removed arr alive t new t' : pass todo removed arr alive t -> (forall T, t' T = t T ++ new T) ->
  pass todo removed (fun T => arr T ++ new T) alive t'.
Proof. intros [H1 H2 H3 H4 H5 H6 H7] E. constructor; [|done..]. intros T. by rewrite E, H1, <- app_assoc. Qed.

Lemma pass_same todo removed arr arr' alive t : (forall T, arr T = arr' T) -> pass todo removed arr alive t -> pass todo removed arr' alive t.
Proof. intros E [H1 H2 H3 H4 H5 H6 H7]. constructor; [|done..]. intros T. by rewrite H1, E. Qed.

Lemma advance_pass r todo removed arr alive t : 1 <= batch_size r -> pass todo removed arr alive t -> arrived_ok arr -> todo <> [] ->
  exists todo' removed' alive' t', advance plan r todo removed t = Yield removed' (Deleting todo' removed') t'
    /\ pass todo' removed' arr alive' t' /\ (length todo' + size alive' t0 < length todo + size alive t0)%nat.
Proof.
  intros Hb Hp Ha Ht. destruct todo as [|s rest]; [done|]. set (batch := Z.to_nat (batch_size r)).
  set (n := Z.of_nat (length (hit plan s batch t))). pose proof (size_after _ _ _ _ _ _ batch Hp Ha) as Hs.
  assert (E : advance plan r (s :: rest) removed t = Yield (counted s n removed)
    (Deleting (if n <? batch_size r then rest else s :: rest) (counted s n removed)) (delete_batch plan s batch t).2).
  { unfold advance. fold batch. destruct (delete_batch plan s batch t) as [c t'] eqn:Ed. assert (c = n) as -> by (by apply (f_equal fst) in Ed). done. }
  exists (if n <? batch_size r then rest else s :: rest), (counted s n removed), (alive_after s alive t batch), (delete_batch plan s batch t).2.
  split_and!; [done| |].
  - apply batch_pass; [done|done|]. intros Hn%Z.ltb_lt. lia.
  - destruct (Z.ltb_spec n (batch_size r)) as [Hn|Hn]; unfold n in Hn; cbn [length]; lia.
Qed.
End Pass.

(** What the other jobs have inserted by the [k]th batch after the first. *)
Definition arrived (arrivals : nat -> tables) (k : nat) : tables := fun T => mjoin ((fun n => arrivals n T) <$> seq 1 k).

Lemma arrived_S arrivals k T : arrived arrivals (S k) T = arrived arrivals k T ++ arrivals (S k) T.
Proof. unfold arrived. rewrite seq_S, fmap_app, join_app. cbn. by rewrite app_nil_r. Qed.

Definition rows (t : tables) : nat := sum_list_with (fun T => length (t T)) names.

Section Runs.
Context (plan : list row -> list row) (plan_perm : forall l, plan l ≡ₚ l) (horizon : Z -> option pystr).
Context (r : retention) (batch_positive : 1 <= batch_size r).

Lemma mapM_in {A B} (f : A -> option B) k l y : mapM f k = Some l -> y ∈ l -> exists x, x ∈ k /\ f x = Some y.
Proof.
  intros H Hy. apply mapM_Some_1 in H. apply list_elem_of_lookup in Hy as [i Hi].
  destruct (Forall2_lookup_r _ _ _ _ _ H Hi) as (x & Hx & E). exists x. split; [by eapply list_elem_of_lookup_2|done].
Qed.

Lemma specs_keys t l s : specs horizon r t = Some l -> s ∈ l -> s_key s = key_of (s_table s).
Proof.
  unfold specs. intros (d & Hd & [= <-])%bind_Some [Hs|Hs]%elem_of_app.
  - apply (mapM_in _ _ _ _ Hd) in Hs as ([[[key table] days] pred] & Hin & Hc). apply bind_Some in Hc as (c & _ & [= <-]).
    apply list_elem_of_filter in Hin as [_ Hin]. unfold horizons in Hin. cbn. repeat (apply elem_of_cons in Hin as [[= -> -> _ _]|Hin]; [done|]). by apply elem_of_nil in Hin.
  - unfold audit_cap in Hs. case_match; [|by apply elem_of_nil in Hs]. case_match; [|by apply elem_of_nil in Hs].
    by apply list_elem_of_singleton in Hs as ->.
Qed.

(** The statement about messages is the first one. *)
Lemma specs_order t l : specs horizon r t = Some l -> Forall (fun s => s_table s <> Messages) (tail l).
Proof.
  unfold specs. intros (d & Hd & [= <-])%bind_Some.
  assert (Hc : Forall (fun s => s_table s <> Messages) (audit_cap r t)) by (unfold audit_cap; repeat case_match; repeat constructor; done).
  enough (Ht : Forall (fun s => s_table s <> Messages) (tail d)).
  { destruct d as [|s d]; [by destruct (audit_cap r t) as [|? k]; [|inversion Hc]|]. cbn in *. by apply Forall_app. }
  unfold dated, horizons in Hd. rewrite filter_cons in Hd. set (others := filter _ (_ :: _)) in Hd.
  assert (Ho : forall k, mapM (fun '(key, table, days, predicate) => cutoff ← horizon days; Some (mkSpec key table (predicate cutoff))) others = Some k ->
    Forall (fun s => s_table s <> Messages) k).
  { intros k Hk. apply Forall_forall. intros s Hs. apply (mapM_in _ _ _ _ Hk) in Hs as ([[[key table] days] pred] & Hin & Hcut).
    apply bind_Some in Hcut as (c & _ & [= <-]). apply list_elem_of_filter in Hin as [_ Hin]. cbn.
    repeat (apply elem_of_cons in Hin as [[= _ -> _ _]|Hin]; [done|]). by apply elem_of_nil in Hin. }
  case_decide.
  - cbn [mapM] in Hd. apply bind_Some in Hd as (s & _ & (k & Hk & [= <-])%bind_Some). by apply Ho.
  - specialize (Ho d Hd). destruct d; [done|]. by apply Forall_cons in Ho as [_ Ho].
Qed.

Lemma pass_start t l : specs horizon r t = Some l -> pass l t l zeros (fun _ => []) (fun _ _ => true) t.
Proof.
  intros Hs. constructor; try done.
  - intros T. rewrite app_nil_r. symmetry. by apply filter_every.
  - by apply (specs_order t).
  - intros T k Ek. rewrite (filter_agree _ (fun _ => false)) by done.
    assert (filter (fun _ : row => false = true) (t T) = []) as -> by (generalize (t T); intros rs; induction rs as [|x rs IH]; [done|by rewrite filter_cons]).
    destruct T; try done; injection Ek as <-; vm_compute; done.
Qed.

Section Arrivals.
Context (world : nat -> tables -> tables) (arrivals : nat -> tables) (t0 : tables) (l : list spec).
Context (specs0 : specs horizon r t0 = Some l).
Context (world_inserts : forall n t T, world (S n) t T = t T ++ arrivals (S n) T).
Context (arrivals_ok : forall k, arrived_ok l t0 (arrived arrivals k)).

Lemma world_pass k todo removed alive t : pass l t0 todo removed (arrived arrivals k) alive t ->
  pass l t0 todo removed (arrived arrivals (S k)) alive (world (S k) t).
Proof.
  intros Hp. eapply pass_same; [|apply (pass_more _ _ _ _ _ _ _ (arrivals (S k)) _ Hp)]; [|intros T; apply world_inserts].
  intros T. cbn. symmetry. apply arrived_S.
Qed.

Lemma run_ends fuel : forall k todo removed latest alive t, pass l t0 todo removed (arrived arrivals k) alive t ->
  (length todo + size alive t0 + 2 <= fuel)%nat ->
  exists removed' t' k' alive', purge_async plan horizon fuel (S k) world r (Deleting todo removed) latest t = (Some (Ok removed'), t')
    /\ pass l t0 [] removed' (arrived arrivals k') alive' t'.
Proof.
  induction fuel as [|fuel IH]; intros k todo removed latest alive t Hp Hf; [lia|].
  pose proof (world_pass _ _ _ _ _ Hp) as Hw. cbn [purge_async next]. destruct todo as [|s rest] eqn:Et; [|rewrite <- Et in *].
  - cbn [advance]. destruct fuel as [|fuel]; [cbn in Hf; lia|]. cbn [purge_async next].
    exists removed, (world (S (S k)) (world (S k) t)), (S (S k)), alive. split; [done|]. by apply world_pass.
  - destruct (advance_pass plan plan_perm l t0 (fun s => specs_keys t0 l s specs0) r todo removed _ alive _ batch_positive Hw (arrivals_ok _))
      as (todo' & removed' & alive' & t' & E & Hp' & Hm); [by rewrite Et|]. rewrite E. apply (IH (S k) _ _ _ _ _ Hp'). lia.
Qed.
End Arrivals.

Lemma size_all t : size (fun _ _ => true) t = rows t.
Proof.
  unfold size, rows. generalize names as Ts. induction Ts as [|T Ts IH]; [done|]. cbn. rewrite IH. by rewrite filter_every.
Qed.

Lemma pass_ends (world : nat -> tables -> tables) (arrivals : nat -> tables) (t : tables) (l : list spec) (fuel : nat) :
  let t0 := world 0%nat t in
  specs horizon r t0 = Some l ->
  (forall n t T, world (S n) t T = t T ++ arrivals (S n) T) ->
  (forall k, arrived_ok l t0 (arrived arrivals k)) ->
  (length l + rows t0 + 3 <= fuel)%nat ->
  exists removed t' k alive, purge_async plan horizon fuel 0 world r Fresh [] t = (Some (Ok removed), t')
    /\ pass l t0 [] removed (arrived arrivals k) alive t'.
Proof.
  intros t0 Hl Hw Ha Hf. pose proof (pass_start t0 l Hl) as Hp. rewrite <- size_all in Hf.
  destruct fuel as [|fuel]; [lia|]. cbn [purge_async next]. fold t0. destruct (Z.ltb_spec (batch_size r) 1); [lia|]. rewrite Hl.
  destruct l as [|s rest] eqn:El; [|rewrite <- El in *].
  - cbn [advance]. destruct fuel as [|fuel]; [cbn in Hf; lia|]. cbn [purge_async next].
    exists zeros, (world 1%nat t0), 1%nat, (fun _ _ => true). split; [done|]. by apply (world_pass world arrivals t0 _ Hw 0%nat).
  - destruct (advance_pass plan plan_perm l t0 (fun s => specs_keys t0 l s Hl) r l zeros _ _ _ batch_positive Hp (Ha 0%nat))
      as (todo' & removed' & alive' & t' & E & Hp' & Hm); [by rewrite El|]. rewrite E.
    apply (run_ends world arrivals t0 l Hl Hw Ha fuel 0%nat todo' removed' removed' alive' t' Hp'). lia.
Qed.

(** C22 (termination): a purge ends and leaves exactly what its horizons say.
    However the other jobs insert rows between its batches, as long as those
    rows are inside the horizons, the pass ends within a batch per statement
    and per row, and every table then has the rows of the start that no cutoff
    reaches and whose message stays, in their order, and all that came in
    meanwhile.  The count reported for a table is the rows that went by their
    own date; the rows of notify_logs that went because their message did, the
    only ones of a counted table, are in no count. *)
Theorem purge_ends (world : nat -> tables -> tables) (arrivals : nat -> tables) (t : tables) (l : list spec) (fuel : nat) :
  let t0 := world 0%nat t in
  specs horizon r t0 = Some l ->
  (forall n t T, world (S n) t T = t T ++ arrivals (S n) T) ->
  (forall k, arrived_ok l t0 (arrived arrivals k)) ->
  (length l + rows t0 + 3 <= fuel)%nat ->
  exists removed t' k,
    purge_async plan horizon fuel 0 world r Fresh [] t = (Some (Ok removed), t')
    /\ (forall T, t' T = filter (fun row => keep l t0 T row = true) (t0 T) ++ arrived arrivals k T)
    /\ (forall T key, key_of T = Some key ->
         let gone := filter (fun row => keep l t0 T row = false) (t0 T) in
         default 0 (dict_get key removed) = Z.of_nat (length (filter (fun row => orphaned l t0 T row = false) gone))
         /\ (T <> NotifyLogs -> default 0 (dict_get key removed) = Z.of_nat (length gone))).
Proof.
  intros t0 Hl Hw Ha Hf. destruct (pass_ends world arrivals t l fuel Hl Hw Ha Hf) as (removed & t' & k & alive & E & Hd).
  exists removed, t', k. split_and!; [done| |].
  - intros T. by apply (pass_done l t0 removed (arrived arrivals k) alive).
  - intros T key Ek gone. rewrite (pass_count _ _ _ _ _ _ _ Hd T key Ek).
    assert (Hg : filter (fun x => own_gone l t0 alive T x = true) (t0 T) = filter (fun row => orphaned l t0 T row = false) gone).
    { unfold gone. rewrite list_filter_filter. apply filter_ext_in. intros x Hx. unfold own_gone.
      rewrite (pass_alive _ _ _ _ _ _ _ _ Hd Hx). change (world 0%nat t) with t0. clear. destruct (keep l t0 T x), (orphaned l t0 T x); cbn; intuition congruence. }
    change (world 0%nat t) with t0. rewrite Hg. split; [done|]. intros HN. do 2 f_equal.
    rewrite (filter_ext_in _ (fun _ => true = true)); [by apply filter_every|]. intros x _. unfold orphaned.
    replace (child T) with false; [done|]. by destruct T.
Qed.

(** [row] is in its table, and no cutoff reaches its message. *)
Definition inside (l : list spec) (T : name) (row : Retention.row) (t : tables) : Prop :=
  (forall T', NoDup (r_id <$> t T')) /\ row ∈ t T
  /\ (child T = true -> forall q, q ∈ t Messages -> r_message row = Some (r_id q) -> expired l Messages q = false).

Lemma delete_safe l T row s batch t : s ∈ l -> expired l T row = false -> inside l T row t ->
  inside l T row (delete_batch plan s batch t).2.
Proof.
  intros Hs He (Hn & Hr & Hm). split_and!.
  - intros T'. rewrite batch_filter. eapply sublist_NoDup; [apply (Hn T')|]. apply fmap_sublist, sublist_filter.
  - rewrite batch_filter. apply list_elem_of_filter. split; [|done]. unfold spared. apply andb_true_iff. split; apply negb_true_iff, not_true_iff_false.
    + intros [->%bool_decide_eq_true Hi%bool_decide_eq_true]%andb_true_iff. apply (hit_ids plan plan_perm) in Hi; [|apply Hn|done].
      apply (hit_in plan plan_perm) in Hi as [_ Hx]. apply (expired_in l s row Hs) in Hx. congruence.
    + intros [[EM%bool_decide_eq_true Hc]%andb_true_iff Hb]%andb_true_iff. unfold belongs in Hb. destruct (r_message row) as [m|] eqn:Em; [|done].
      apply bool_decide_eq_true, list_elem_of_fmap in Hb as (q & -> & [Hq Hx]%(hit_in plan plan_perm)).
      apply (expired_in l s q Hs) in Hx. rewrite EM in Hq, Hx. rewrite (Hm Hc q Hq eq_refl) in Hx. done.
  - intros Hc q Hq. rewrite batch_filter in Hq. apply list_elem_of_filter in Hq as [_ Hq]. by apply Hm.
Qed.

(** *** The cap on audit rows *)

#[local] Instance newest_trans : Transitive newest.
Proof. intros a b c. unfold newest. lia. Qed.
#[local] Instance newest_total : Total newest.
Proof. intros a b. unfold newest. lia. Qed.

Lemma cap_spec top i l : NoDup (r_id <$> l) -> merge_sort newest l !! i = Some top ->
  length (filter (fun x => (r_id top <=? r_id x) = true) l) = S i /\ length (filter (fun x => (r_id top <? r_id x) = true) l) = i.
Proof.
  intros Hn Hi. pose proof (merge_sort_Permutation newest l) as HP. pose proof (StronglySorted_merge_sort newest l) as HS.
  rewrite <- HP in Hn |- *. set (L := merge_sort newest l) in *. pose proof (lookup_lt_Some _ _ _ Hi) as Hlt.
  rewrite <- (take_drop_middle L i top Hi) in Hn, HS |- *. rewrite fmap_app, fmap_cons in Hn. apply NoDup_app in Hn as (_ & Hd & [Hc _]%NoDup_cons).
  assert (Htop : forall x, x ∈ take i L -> r_id top < r_id x).
  { intros x Hx. apply (StronglySorted_app_1_elem_of _ _ _ x top) in HS; [|done|left]. unfold newest in HS.
    assert (r_id x <> r_id top); [|lia]. intros E. apply (Hd (r_id x)); [apply list_elem_of_fmap; by exists x|]. rewrite E. left. }
  assert (Hlow : forall x, x ∈ drop (S i) L -> r_id x < r_id top).
  { intros x Hx. apply StronglySorted_app_1_r in HS. apply StronglySorted_cons in HS as [HS _]. rewrite Forall_forall in HS.
    specialize (HS x Hx). unfold newest in HS. assert (r_id x <> r_id top); [|lia]. intros E. apply Hc. rewrite <- E. apply list_elem_of_fmap. by exists x. }
  assert (Hnone : forall f : row -> bool, (forall x, x ∈ drop (S i) L -> f x = false) -> filter (fun x => f x = true) (drop (S i) L) = []).
  { intros f Hf. rewrite (filter_agree f (fun _ => false)) by done. generalize (drop (S i) L) as m. intros m. induction m as [|x m IH]; [done|]. by rewrite filter_cons. }
  rewrite !filter_app, !filter_cons, !(filter_every _ (take i L)), !Hnone.
  - rewrite Z.leb_refl, Z.ltb_irrefl, decide_True, decide_False, !length_app, !length_take by done. cbn. lia.
  - intros x Hx. apply Z.ltb_ge. specialize (Hlow x Hx). lia.
  - intros x Hx. apply Z.leb_gt. by apply Hlow.
  - intros x Hx. apply Z.ltb_lt. by apply Htop.
  - intros x Hx. apply Z.leb_le. specialize (Htop x Hx). lia.
Qed.

Definition newer_rows (t : tables) (row : Retention.row) : nat := length (filter (fun x => (r_id row <? r_id x) = true) (t AuditEvents)).

Lemma keep_audit t l : specs horizon r t = Some l -> NoDup (r_id <$> t AuditEvents) -> 0 < audit_max_rows r ->
  (length (filter (fun row => keep l t AuditEvents row = true) (t AuditEvents)) <= Z.to_nat (audit_max_rows r))%nat
  /\ (audit_days r <= 0 -> forall row, row ∈ t AuditEvents -> keep l t AuditEvents row = true
       <-> (newer_rows t row < Z.to_nat (audit_max_rows r))%nat).
Proof.
  intros Hl Hn Hm. unfold specs in Hl. apply bind_Some in Hl as (d & Hd & [= <-]).
  assert (Hcap : forall row, keep (d ++ audit_cap r t) t AuditEvents row = negb (expired d AuditEvents row) && negb (expired (audit_cap r t) AuditEvents row)).
  { intros row. unfold keep, orphaned, expired. cbn. by rewrite andb_true_r, existsb_app, negb_orb. }
  assert (Hold : audit_days r <= 0 -> forall row, expired d AuditEvents row = false).
  { intros Ha row. apply not_true_iff_false. intros (s & Hs & Es & _)%expired_out. apply (mapM_in _ _ _ _ Hd) in Hs as ([[[key table] days] pred] & Hin & Hc).
    apply bind_Some in Hc as (c & _ & [= <-]). apply list_elem_of_filter in Hin as [Hpos Hin]. unfold horizons in Hin. cbn in Hpos, Es.
    repeat (apply elem_of_cons in Hin as [[= -> -> -> ->]|Hin]; [first [discriminate Es|lia]|]). by apply elem_of_nil in Hin. }
  assert (EC := eq_refl (audit_cap r t)). unfold audit_cap in EC at 2. rewrite (proj2 (Z.ltb_lt _ _) Hm) in EC.
  destruct (merge_sort newest (t AuditEvents) !! Z.to_nat (audit_max_rows r - 1)) as [top|] eqn:Et; rewrite EC in *.
  - destruct (cap_spec top _ _ Hn Et) as [Hge Hgt].
    assert (Hx : forall row, expired [mkSpec (Some (str "audit_events")) AuditEvents (Under (r_id top))] AuditEvents row = negb (r_id top <=? r_id row)).
    { intros row. cbn. rewrite orb_false_r, Z.ltb_antisym. by rewrite bool_decide_eq_true_2. }
    split.
    + rewrite (filter_agree _ (fun row => negb (expired d AuditEvents row) && (r_id top <=? r_id row))) by (intros row _; by rewrite Hcap, Hx, negb_involutive).
      etrans; [apply (filter_longer _ (fun row => r_id top <=? r_id row)); intros row [_ H]%andb_true_iff; done|]. rewrite Hge. lia.
    + intros Ha row _. rewrite Hcap, Hx, negb_involutive, (Hold Ha). cbn. split; intros H.
      * apply Z.leb_le in H. unfold newer_rows. eapply Nat.le_lt_trans; [apply (filter_longer _ (fun x => r_id top <? r_id x)); intros x Hlt; lia|]. lia.
      * apply Z.leb_le, Z.nlt_ge. intros Hlt. unfold newer_rows in H.
        pose proof (filter_longer (fun x => r_id top <=? r_id x) (fun x => r_id row <? r_id x) (t AuditEvents) ltac:(intros x; lia)). lia.
  - apply lookup_ge_None in Et. rewrite merge_sort_Permutation in Et.
    assert (Hshort : forall f : Retention.row -> bool, (length (filter (fun x => f x = true) (t AuditEvents)) < Z.to_nat (audit_max_rows r))%nat).
    { intros f. pose proof (sublist_length _ _ (sublist_filter (fun x => f x = true) (t AuditEvents))). lia. }
    split; [apply Nat.lt_le_incl, Hshort|]. intros Ha row _. rewrite Hcap, (Hold Ha). split; [intros _; apply Hshort|done].
Qed.

(** The audit log stays under its cap.  A purge that no insert
    interrupts ends with at most [audit_max_rows] audit rows, and when no age
    limit is set it keeps exactly the rows that fewer than that many are newer
    than: the newest ones. *)
Theorem audit_capped (t : tables) (l : list spec) (fuel : nat) :
  specs horizon r t = Some l -> (forall T, NoDup (r_id <$> t T)) -> 0 < audit_max_rows r -> (length l + rows t + 3 <= fuel)%nat ->
  exists removed t', purge plan horizon fuel r t = (Some (Ok removed), t')
    /\ (length (t' AuditEvents) <= Z.to_nat (audit_max_rows r))%nat
    /\ (audit_days r <= 0 -> forall row, row ∈ t AuditEvents -> row ∈ t' AuditEvents <-> (newer_rows t row < Z.to_nat (audit_max_rows r))%nat).
Proof.
  intros Hl Hn Hm Hf. assert (Hnone : forall k T, arrived (fun _ _ => []) k T = []).
  { intros k T. unfold arrived. by induction (seq 1 k). }
  destruct (pass_ends (fun _ t => t) (fun _ _ => []) t l fuel Hl) as (removed & t' & k & alive & E & Hd); [intros; by rewrite app_nil_r| |done|].
  { intros k T. rewrite Hnone, app_nil_r. split; [done|]. intros row Hr. by apply elem_of_nil in Hr. }
  exists removed, t'. pose proof (pass_done _ _ _ _ _ _ AuditEvents Hd) as Et. rewrite Hnone, app_nil_r in Et.
  destruct (keep_audit t l Hl (Hn AuditEvents) Hm) as [Hmax Hexact]. rewrite Et. split_and!; [done|done|].
  intros Ha row Hr. rewrite <- (Hexact Ha row Hr), list_elem_of_filter. tauto.
Qed.

(** *** Rows inside their horizon *)

(** C23 (safety): a purge deletes nothing that is inside its horizons.  Whatever
    the other jobs do between its batches - insert, update, delete - a row that
    no cutoff of the pass reaches, and whose message none reaches, is there
    after every batch for as long as those jobs keep it so. *)
Theorem recent_rows_survive (world : nat -> tables -> tables) (t : tables) (l : list spec) (T : name) (row : Retention.row) (fuel : nat) :
  let safe := inside l T row in
  specs horizon r (world 0%nat t) = Some l -> expired l T row = false ->
  safe (world 0%nat t) -> (forall n t, safe t -> safe (world (S n) t)) ->
  row ∈ (purge_async plan horizon (S fuel) 0 world r Fresh [] t).2 T.
Proof.
  intros safe Hl He H0 Hw.
  assert (Hadv : forall todo removed t, (forall s, s ∈ todo -> s ∈ l) -> safe t ->
    match advance plan r todo removed t with
    | Yield _ g t' => safe t' /\ (g = Ended \/ exists todo' removed', g = Deleting todo' removed' /\ forall s, s ∈ todo' -> s ∈ l)
    | _ => False end).
  { intros [|s rest] removed u Hs Hu; [by split; [|left]|]. cbn [advance].
    destruct (delete_batch plan s (Z.to_nat (batch_size r)) u) as [c u'] eqn:Ed. split.
    - pose proof (delete_safe l T row s (Z.to_nat (batch_size r)) u (Hs s ltac:(left)) He Hu) as Hd. by rewrite Ed in Hd.
    - right. eexists _, _. split; [done|]. intros s' Hs'. apply Hs. case_match; [by right|done]. }
  assert (Hrun : forall fuel k g removed u, match g with Fresh => False | Deleting todo _ => forall s, s ∈ todo -> s ∈ l | Ended => True end ->
    safe u -> row ∈ (purge_async plan horizon fuel (S k) world r g removed u).2 T).
  { clear fuel. intros fuel. induction fuel as [|fuel IH]; intros k g removed u Hg Hu; [apply Hu|]. cbn [purge_async].
    pose proof (Hw k u Hu) as Hu'. destruct g as [|todo removed'|]; [done| |apply Hu']. cbn [next].
    specialize (Hadv todo removed' _ Hg Hu'). destruct (advance _ _ _ _ _) as [removed'' g' u''| |]; [|done..].
    destruct Hadv as [Hu'' [->|(todo' & x & -> & Ht)]]; by apply IH. }
  cbn [purge_async next]. destruct (Z.ltb_spec (batch_size r) 1); [lia|]. rewrite Hl. specialize (Hadv l zeros _ (fun s H => H) H0).
  destruct (advance _ _ _ _ _) as [removed'' g' u''| |]; [|done..]. destruct Hadv as [Hu'' [->|(todo' & x & -> & Ht)]]; by apply Hrun.
Qed.
End Runs.

(** ** Witnesses *)

Definition day (s : string) (id : Z) : row := mkRow id (Some (str s)) None false.
Definition of_message (m : Z) (r : row) : row := mkRow (r_id r) (r_at r) (Some m) (r_resolved r).

Definition shelf : tables := fun T =>
  match T with
  | Messages => [day "2024-01-02" 1; day "2024-03-01" 2]
  | NotifyLogs => [of_message 1 (day "2024-03-02" 1); of_message 2 (day "2024-03-02" 2); day "2024-01-05" 3]
  | AuditEvents => [day "2024-03-01" 1; day "2024-03-02" 2; day "2024-03-03" 3]
  | Incidents => [mkRow 1 (Some (str "2024-01-02")) None true; mkRow 2 None None false]
  | _ => []
  end.

Definition february (_ : Z) : option pystr := Some (str "2024-02-01T00:00:00.5+00:00").
Definition monthly : retention := mkRetention 30 30 30 0 30 2 0 1.
Definition latecomer (n : nat) : tables := fun T => if (n =? 1)%nat && bool_decide (T = Messages) then [day "2024-03-05" 3] else [].
Definition meanwhile (n : nat) (t : tables) : tables := match n with O => t | S _ => fun T => t T ++ latecomer n T end.
Definition monthly_specs : list spec := default [] (specs february monthly shelf).

Lemma latecomers k T : arrived latecomer k T = match k, T with S _, Messages => [day "2024-03-05" 3] | _, _ => [] end.
Proof.
  destruct k as [|k]; [done|]. unfold arrived. cbn [seq]. change (latecomer 1 T ++ mjoin ((fun n => latecomer n T) <$> seq 2 k) = match T with Messages => [day "2024-03-05" 3] | _ => [] end).
  assert (E : mjoin ((fun n => latecomer n T) <$> seq 2 k) = []).
  { assert (H : Forall (fun n => 2 <= n)%nat (seq 2 k)) by (apply Forall_forall; intros n [? _]%elem_of_seq; done).
    induction H as [|n ns Hn _ IH]; [done|]. change (latecomer n T ++ mjoin ((fun n => latecomer n T) <$> ns) = []). rewrite IH, app_nil_r. unfold latecomer.
    destruct (Nat.eqb_spec n 1); [lia|done]. }
  rewrite E, app_nil_r. by destruct T.
Qed.

Lemma latecomers_ok k : arrived_ok monthly_specs shelf (arrived latecomer k).
Proof.
  intros T. rewrite latecomers. split.
  - apply (bool_decide_eq_true_1 _). destruct k, T; by vm_compute.
  - intros r Hr. destruct k, T; try by apply elem_of_nil in Hr. apply list_elem_of_singleton in Hr as ->. by vm_compute.
Qed.

Definition purged_rows (T : name) : list row := filter (fun row => keep monthly_specs shelf T row = false) (shelf T).

(** Two rows of notify_logs go, one of them with its message. *)
Lemma purge_ends_witness :
  length (purged_rows NotifyLogs) = 2%nat /\
  exists removed t' k,
    purge_async id february 40 0 meanwhile monthly Fresh [] shelf = (Some (Ok removed), t')
    /\ (forall T, t' T = filter (fun row => keep monthly_specs shelf T row = true) (shelf T) ++ arrived latecomer k T)
    /\ default 0 (dict_get (str "messages") removed) = 1 /\ default 0 (dict_get (str "notify_logs") removed) = 1.
Proof.
  split; [vm_compute; reflexivity|].
  destruct (purge_ends id (fun l => reflexivity l) february monthly ltac:(done) meanwhile latecomer shelf monthly_specs 40) as (removed & t' & k & E & Hk & Hc).
  - by vm_compute.
  - done.
  - apply latecomers_ok.
  - apply (bool_decide_eq_true_1 _). by vm_compute.
  - exists removed, t', k. split; [exact E|]. split; [exact Hk|]. split.
    + etransitivity; [exact (proj1 (Hc Messages (str "messages") eq_refl))|]. vm_compute. reflexivity.
    + etransitivity; [exact (proj1 (Hc NotifyLogs (str "notify_logs") eq_refl))|]. vm_compute. reflexivity.
Defined.

Lemma audit_capped_witness :
  exists removed t', purge id february 40 monthly shelf = (Some (Ok removed), t')
    /\ (length (t' AuditEvents) <= 2)%nat
    /\ (0 <= 0 -> forall row, row ∈ shelf AuditEvents -> row ∈ t' AuditEvents <-> (newer_rows shelf row < 2)%nat).
Proof.
  apply (audit_capped id (fun l => reflexivity l) february monthly ltac:(done) shelf monthly_specs 40).
  - by vm_compute.
  - intros T. apply (bool_decide_eq_true_1 _). destruct T; by vm_compute.
  - done.
  - apply (bool_decide_eq_true_1 _). by vm_compute.
Defined.

(** Somebody deletes messages of their own while the pass runs. *)
Definition deleting (n : nat) (t : tables) : tables := match n with O => t | S _ => set_table Messages (tail (t Messages)) t end.

Lemma tail_sublist {A} (l : list A) : tail l `sublist_of` l.
Proof. destruct l; [done|]. by apply sublist_cons. Qed.

Lemma recent_rows_survive_witness :
  of_message 2 (day "2024-03-02" 2) ∈ (purge_async id february 9 0 deleting monthly Fresh [] shelf).2 NotifyLogs.
Proof.
  apply (recent_rows_survive id (fun l => reflexivity l) february monthly ltac:(done) deleting shelf monthly_specs NotifyLogs _ 8).
  - by vm_compute.
  - by vm_compute.
  - split_and!.
    + intros T. apply (bool_decide_eq_true_1 _). destruct T; by vm_compute.
    + apply (bool_decide_eq_true_1 _). by vm_compute.
    + intros _ q Hq E. cbn in Hq. repeat (apply elem_of_cons in Hq as [->|Hq]; [first [discriminate E|by vm_compute]|]). by apply elem_of_nil in Hq.
  - intros n t (Hn & Hr & Hm). cbn [deleting]. unfold set_table. split_and!.
    + intros T. case_bool_decide; [subst T|done]. eapply sublist_NoDup; [apply (Hn Messages)|]. apply fmap_sublist, tail_sublist.
    + done.
    + intros Hc q Hq. apply (Hm Hc). cbn in Hq. eapply sublist_subseteq; [apply tail_sublist|done].
Defined.

(** The pass above, run: the log of a message that goes, goes with it and is
    not counted; an incident that is not resolved stays. *)
Example monthly_run :
  let '(result, t) := purge id february 40 monthly shelf in
  result = Some (Ok [(str "messages", 1); (str "status", 0); (str "ingested", 0); (str "agent_logs", 0); (str "task_logs", 0);
                     (str "notify_logs", 1); (str "audit_events", 1); (str "incidents", 1)])
  /\ (r_id <$> t Messages) = [2] /\ (r_id <$> t NotifyLogs) = [2] /\ (r_id <$> t AuditEvents) = [2; 3] /\ (r_id <$> t Incidents) = [2].
Proof. vm_compute. done. Qed.

End Retention.
