(* ===== verification/Restoring.v ===== *)
(** * Restoring a backup (server/src/hub_server/restore.py, and its calls in db.py and state.py)

    The upload with its limits ([receive]); the switch of the live database as a
    state machine whose steps are the awaits of [RestoreController._switch], with
    the requests that run beside it and the middleware that admits them
    ([step]); what [reset_restored_runtime] leaves of a restored database.

    A database is a record of the tables the restore touches, the schema version
    and the rest.  Integrity, foreign keys and the shape of the tables are what
    the PRAGMAs say ([sound]), a migration is an argument ([migrate]; its steps
    are SQL), and each call of the file system or of SQLite may fail. *)

From S2P Require Import Prelude PyText PyDict Json Outbox Operations Fleet TaskSync Auth.

Module Restoring.

(** ** A database *)

Definition SCHEMA_VERSION : Z := 19.

(** A row of audit_events; its number is given by the table. *)
Record audit_event := mkAudit { u_ts : pystr; u_action : pystr; u_target : pystr; u_status : pystr; u_detail : pystr; u_client_ip : pystr }.

Section Restore.
Context {rest_of_it : Type}.

Record content := mkContent {
  c_version : Z;
  c_sessions : list Auth.session;
  c_settings : pydict pystr json;
  c_operations : list Operations.operation;
  c_fleet : Fleet.fleet;
  c_syncs : gmap (list Z) TaskSync.agent_row;
  c_deliveries : list Outbox.delivery;
  c_audit : list audit_event;
  c_rest : rest_of_it }.

Definition with_sessions (l : list Auth.session) (c : content) : content :=
  mkContent (c_version c) l (c_settings c) (c_operations c) (c_fleet c) (c_syncs c) (c_deliveries c) (c_audit c) (c_rest c).
Definition with_operations (l : list Operations.operation) (c : content) : content :=
  mkContent (c_version c) (c_sessions c) (c_settings c) l (c_fleet c) (c_syncs c) (c_deliveries c) (c_audit c) (c_rest c).
Definition with_fleet (f : Fleet.fleet) (c : content) : content :=
  mkContent (c_version c) (c_sessions c) (c_settings c) (c_operations c) f (c_syncs c) (c_deliveries c) (c_audit c) (c_rest c).

(** [record_audit] *)
Definition record_audit (now action target status detail client_ip : pystr) (c : content) : content :=
  mkContent (c_version c) (c_sessions c) (c_settings c) (c_operations c) (c_fleet c) (c_syncs c) (c_deliveries c)
    (c_audit c ++ [mkAudit now (take 128 action) (take 256 target) (take 32 status) (take 1000 detail) (take 64 client_ip)]) (c_rest c).

(** The three statements before the snapshot. *)
Definition cancel_queued (c : content) : content :=
  with_operations (Operations.update (Operations.has Operations.Queued)
    (Operations.set_status Operations.Cancelled (str "cancelled before database restore")) (c_operations c)) c.
Definition mark_disconnected (c : content) : content := with_fleet (Fleet.mark_all_agents_disconnected (c_fleet c)) c.
Definition recover (c : content) : content := with_operations (Operations.recover_operations (c_operations c)) c.

Definition PREVIOUS_TOKEN : list pystr := str <$> ["previous_agent_token_hash"; "previous_agent_token_expires_at"]%string.

Definition unleased (d : Outbox.delivery) : Outbox.delivery :=
  Outbox.mkDelivery (Outbox.d_id d) (Outbox.d_outbox d) (Outbox.d_channel d) (Outbox.d_rule d) (Outbox.d_status d) (Outbox.d_attempts d)
    (Outbox.d_next d) None None (Outbox.d_error d) (Outbox.d_detail d) (Outbox.d_expires d).

(** [reset_restored_runtime], one transaction. *)
Definition reset_restored_runtime (c : content) : content :=
  mkContent (c_version c) []
    (filter (fun kv => kv.1 ∉ PREVIOUS_TOKEN) (c_settings c))
    (Operations.reset_operations (c_operations c))
    (Fleet.mark_all_agents_disconnected (c_fleet c))
    ((fun _ => TaskSync.new_agent_row) <$> c_syncs c)
    (unleased <$> c_deliveries c) (c_audit c) (c_rest c).

Context (sound : content -> bool) (has_tables : content -> bool) (migrate : content -> option content).

(** [validate_backup] and [verify_restored]. *)
Definition validate_backup (c : content) : bool := has_tables c && (c_version c <=? SCHEMA_VERSION).
Definition verify_restored (c : content) : bool := sound c && (c_version c =? SCHEMA_VERSION).

(** ** The upload *)

(** The disk at a check: what is free, and the live files. *)
Record disk := mkDisk { d_free : Z; d_live : Z }.

Definition _space (min_free : Z) (d : disk) (size written : Z) : bool :=
  negb (d_free d <? Z.max 0 (3 * size - written) + 2 * d_live d + min_free).

(** What comes next from the request: a chunk (with the disk when it is
    checked), the end, the timeout, or a broken connection or write. *)
Inductive arrival := Chunk (n : Z) (d : disk) | End_ | Timeout | Broken.

(** An HTTP status, or an exception that [restore] turns into a 500. *)
Inductive refusal := Http (code : Z) | Crash.

Definition declared (max : Z) (raw_length : option pystr) : res refusal (option Z) :=
  match raw_length with
  | None => Ok None
  | Some t =>
      match py_int t with
      | None => Err (Http 400)
      | Some n => if n <? 0 then Err (Http 400) else if max <? n then Err (Http 413) else Ok (Some n)
      end
  end.

(** The loop over the stream; the bytes written are kept whatever happens. *)
Fixpoint receive_loop (max min_free : Z) (stream : list arrival) (received : Z) : res refusal unit * Z :=
  match stream with
  | Chunk n d :: stream =>
      let size := received + n in
      if max <? size then (Err (Http 413), received)
      else if _space min_free d size received then receive_loop max min_free stream size
      else (Err (Http 507), received)
  | End_ :: _ => (Ok tt, received)
  | Timeout :: _ => (Err (Http 408), received)
  | Broken :: _ | [] => (Err Crash, received)
  end.

Definition receive (max min_free : Z) (raw_length : option pystr) (d : disk) (stream : list arrival) : res refusal Z * Z :=
  match declared max raw_length with
  | Err e => (Err e, 0)
  | Ok length_ =>
      if negb (_space min_free d (default 0 length_) 0) then (Err (Http 507), 0)
      else
        let '(r, received) := receive_loop max min_free stream 0 in
        match r with
        | Err e => (Err e, received)
        | Ok _ =>
            if received =? 0 then (Err (Http 400), received)
            else match length_ with
                 | Some n => if n =? received then (Ok received, received) else (Err (Http 400), received)
                 | None => (Ok received, received)
                 end
        end
  end.

(** ** The controller and the services *)

Inductive phase_ := IdlePhase | UploadingPhase | ValidatingPhase | PreparingPhase | DrainingPhase | SnapshotPhase | SwitchingPhase
  | VerifyingPhase | CompletePhase | FailedPhase.
Inductive outcome_ := Restored | Unchanged | RolledBack | ManualRecovery.

(** [snapshot] is the copy that [self.snapshot] names. *)
Record controller := mkController { active : bool; phase : phase_; outcome : option outcome_; snapshot : option content }.

(** What may write to the database of its own accord: the gateway until it is
    retired, the background tasks, the alerter's timers, the notifier. *)
Record services := mkServices { retired : bool; background : bool; alerter : bool; notifier : bool }.
Definition running : services := mkServices false true true true.
Definition quiet (v : services) : bool := retired v && negb (background v) && negb (alerter v) && negb (notifier v).

(** The awaits of [restore] and [_switch], each with what the code holds there:
    the prepared candidate, the snapshot, [paused]. *)
Inductive point :=
| NoRestore
| Receiving
| Validating (u : content)
| Preparing (u : content)
| StopBackground (c : content)
| Disconnect (c : content)
| AwaitIdle (c : content)
| CloseAlerter (c : content)
| PauseNotifier (c : content)
| CancelQueued (c : content)
| MarkDisconnected (c : content)
| Recover (c : content)
| CheckSpace (c : content)
| MakeSnapshotFile (c : content)
| Backup (c : content)
| SyncSnapshot (c s : content)
| Replace (c s : content)
| ResetRuntime (s : content)
| Verify (s : content)
| RollBack (s : content)
| VerifyRollBack (s : content)
| RetainSnapshots
| Rebuild (paused : bool).

(** The process: the live database, the restore in progress, the API requests
    and sockets inside the application, and [strays], the requests that the
    middleware does not track (a second restore, a poll of the status), whose
    session check may read the database and drop expired sessions, and whose
    end [AuditMiddleware] records when it was a restore.  [upload]
    and [drained] are for the statements alone: the file received, and the
    database when everything else had stopped. *)
Record hub := mkHub {
  live : content; control : controller; at_ : point; serv : services; requests : gset Z; sockets : gset Z; strays : nat;
  upload : option content; drained : option content }.

Definition set_live (c : content) (h : hub) : hub :=
  mkHub c (control h) (at_ h) (serv h) (requests h) (sockets h) (strays h) (upload h) (drained h).
Definition set_control (k : controller) (h : hub) : hub :=
  mkHub (live h) k (at_ h) (serv h) (requests h) (sockets h) (strays h) (upload h) (drained h).
Definition goto (p : point) (h : hub) : hub :=
  mkHub (live h) (control h) p (serv h) (requests h) (sockets h) (strays h) (upload h) (drained h).
Definition set_serv (v : services) (h : hub) : hub :=
  mkHub (live h) (control h) (at_ h) v (requests h) (sockets h) (strays h) (upload h) (drained h).
Definition set_requests (r s : gset Z) (n : nat) (h : hub) : hub :=
  mkHub (live h) (control h) (at_ h) (serv h) r s n (upload h) (drained h).
Definition set_upload (u : option content) (h : hub) : hub :=
  mkHub (live h) (control h) (at_ h) (serv h) (requests h) (sockets h) (strays h) u (drained h).
Definition set_drained (d : option content) (h : hub) : hub :=
  mkHub (live h) (control h) (at_ h) (serv h) (requests h) (sockets h) (strays h) (upload h) d.

Definition set_phase (p : phase_) (h : hub) : hub :=
  set_control (mkController (active (control h)) p (outcome (control h)) (snapshot (control h))) h.
Definition set_outcome (o : outcome_) (h : hub) : hub :=
  set_control (mkController (active (control h)) (phase (control h)) (Some o) (snapshot (control h))) h.
Definition set_active (b : bool) (h : hub) : hub :=
  set_control (mkController b (phase (control h)) (outcome (control h)) (snapshot (control h))) h.
Definition set_snapshot (s : content) (h : hub) : hub :=
  set_control (mkController (active (control h)) (phase (control h)) (outcome (control h)) (Some s)) h.

(** ** The switch *)

(** [restore] starts: the lock is free. *)
Definition begin_restore (h : hub) : hub :=
  set_drained None (set_upload None (goto Receiving
    (set_control (mkController (active (control h)) UploadingPhase None None) h))).

(** The [except BaseException] of [restore], and the lock's release. *)
Definition fail (h : hub) : hub :=
  let o := outcome (control h) in
  let h := set_phase (match o with Some Restored => CompletePhase | _ => FailedPhase end) h in
  goto NoRestore (match o with None => set_outcome Unchanged h | Some _ => h end).

(** The [finally] of [_switch]: nothing when recovery is left to the operator. *)
Definition leave (paused : bool) (h : hub) : hub :=
  match outcome (control h) with Some ManualRecovery => fail h | _ => goto (Rebuild paused) h end.

(** How an awaited call ends; a copy that fails may leave anything behind, and
    so may a rebuild of the services. *)
Inductive event := Done | Received (u : content) | Raised | RaisedLeaving (c : content) | RaisedRebuilding (v : services).

(** From the await [at_ h] to the next one. *)
Definition advance (e : event) (h : hub) : option hub :=
  match at_ h, e with
  | NoRestore, _ => None
  | Receiving, Received u => Some (goto (Validating u) (set_upload (Some u) (set_phase ValidatingPhase h)))
  | Receiving, Raised => Some (fail h)
  | Validating u, Done => Some (if validate_backup u then goto (Preparing u) (set_phase PreparingPhase h) else fail h)
  | Preparing u, Done =>
      match migrate u with
      | Some c =>
          if verify_restored c then
            let h := set_phase DrainingPhase (set_active true h) in
            Some (goto (StopBackground c) (set_serv (mkServices true (background (serv h)) (alerter (serv h)) (notifier (serv h))) h))
          else Some (fail h)
      | None => Some (fail h)
      end
  | (Validating _ | Preparing _), Raised => Some (fail h)
  | StopBackground c, Done =>
      Some (goto (Disconnect c) (set_serv (mkServices (retired (serv h)) false (alerter (serv h)) (notifier (serv h)))
              (set_requests (requests h) ∅ (strays h) h)))
  | Disconnect c, Done => Some (goto (AwaitIdle c) h)
  | AwaitIdle c, Done => if bool_decide (requests h = ∅) then Some (goto (CloseAlerter c) h) else None
  | CloseAlerter c, Done => Some (goto (PauseNotifier c) (set_serv (mkServices (retired (serv h)) (background (serv h)) false (notifier (serv h))) h))
  | PauseNotifier c, Done =>
      let h := set_serv (mkServices (retired (serv h)) (background (serv h)) (alerter (serv h)) false) h in
      Some (goto (CancelQueued c) (set_drained (Some (live h)) (set_phase SnapshotPhase h)))
  | (StopBackground _ | Disconnect _ | AwaitIdle _ | CloseAlerter _ | PauseNotifier _), Raised => Some (leave false h)
  | CancelQueued c, Done => Some (goto (MarkDisconnected c) (set_live (cancel_queued (live h)) h))
  | MarkDisconnected c, Done => Some (goto (Recover c) (set_live (mark_disconnected (live h)) h))
  | Recover c, Done => Some (goto (CheckSpace c) (set_live (recover (live h)) h))
  | CheckSpace c, Done => Some (goto (MakeSnapshotFile c) h)
  | MakeSnapshotFile c, Done => Some (goto (Backup c) h)
  | Backup c, Done => Some (goto (SyncSnapshot c (live h)) h)
  | SyncSnapshot c s, Done => Some (goto (Replace c s) (set_phase SwitchingPhase (set_snapshot s h)))
  | (CancelQueued _ | MarkDisconnected _ | Recover _ | CheckSpace _ | MakeSnapshotFile _ | Backup _ | SyncSnapshot _ _), Raised =>
      Some (leave true h)
  | Replace c s, Done => if c_version c =? SCHEMA_VERSION then Some (goto (ResetRuntime s) (set_live c h)) else None
  | Replace c s, RaisedLeaving x => Some (goto (RollBack s) (set_live x h))
  | ResetRuntime s, Done => Some (goto (Verify s) (set_phase VerifyingPhase (set_live (reset_restored_runtime (live h)) h)))
  | ResetRuntime s, Raised => Some (goto (RollBack s) h)
  | Verify s, Done =>
      Some (if verify_restored (live h) then goto RetainSnapshots (set_phase CompletePhase (set_outcome Restored h)) else goto (RollBack s) h)
  | Verify s, Raised => Some (goto (RollBack s) h)
  | RollBack s, Done => if c_version s =? SCHEMA_VERSION then Some (goto (VerifyRollBack s) (set_live s h)) else None
  | RollBack s, RaisedLeaving x => Some (leave true (set_outcome ManualRecovery (set_live x h)))
  | VerifyRollBack s, Done =>
      Some (leave true (set_outcome (if verify_restored (live h) then RolledBack else ManualRecovery) h))
  | VerifyRollBack s, Raised => Some (leave true (set_outcome ManualRecovery h))
  | RetainSnapshots, (Done | Raised) => Some (leave true h)
  | Rebuild paused, Done =>
      let h := set_active false (set_serv running h) in
      Some (match outcome (control h) with Some Restored => goto NoRestore h | _ => fail h end)
  | Rebuild paused, RaisedRebuilding v => Some (fail (set_outcome ManualRecovery (set_serv v h)))
  | _, _ => None
  end.

(** ** Beside the switch *)

(** The database without the two tables that an untracked request touches. *)
Definition core (c : content) : content :=
  mkContent (c_version c) [] (c_settings c) (c_operations c) (c_fleet c) (c_syncs c) (c_deliveries c) [] (c_rest c).

Inductive own : hub -> hub -> Prop :=
| own_begin h : at_ h = NoRestore -> (0 < strays h)%nat ->
    own h (begin_restore (set_requests (requests h) (sockets h) (Nat.pred (strays h)) h))
| own_advance h e h' : advance e h = Some h' -> own h h'.

Inductive beside : hub -> hub -> Prop :=
(** [RestoreMiddleware]: a request or socket gets in only outside maintenance,
    and leaves when its task ends. *)
| beside_request h i : active (control h) = false -> beside h (set_requests ({[i]} ∪ requests h) (sockets h) (strays h) h)
| beside_answered h i : beside h (set_requests (requests h ∖ {[i]}) (sockets h) (strays h) h)
| beside_socket h i : active (control h) = false -> beside h (set_requests (requests h) ({[i]} ∪ sockets h) (strays h) h)
| beside_closed h i : beside h (set_requests (requests h) (sockets h ∖ {[i]}) (strays h) h)
(** A second restore or a status poll passes untracked; a refused one goes. *)
| beside_stray h : active (control h) = false -> beside h (set_requests (requests h) (sockets h) (S (strays h)) h)
| beside_refused h : beside h (set_requests (requests h) (sockets h) (Nat.pred (strays h)) h)
| beside_check h l : (0 < strays h)%nat -> l `sublist_of` c_sessions (live h) -> beside h (set_live (with_sessions l (live h)) h)
(** [AuditMiddleware._record] after a second restore was answered (it was past
    the check of the outcome), or after the one that just let go; not when
    that one left the recovery to the operator. *)
| beside_audit h now action status detail client_ip :
    (0 < strays h)%nat \/ at_ h = NoRestore /\ outcome (control h) <> Some ManualRecovery ->
    beside h (set_live (record_audit now action [] status detail client_ip (live h)) h)
(** Anything a request or a running service writes. *)
| beside_work h c : requests h <> ∅ \/ quiet (serv h) = false -> beside h (set_live c h).

Inductive step (h h' : hub) : Prop := step_own (H : own h h') | step_beside (H : beside h h').

Definition initial (c : content) : hub := mkHub c (mkController false IdlePhase None None) NoRestore running ∅ ∅ 0 None None.

(** ** Where a switch stands *)

(** What untracked requests make of [a]: expired sessions may go, rows of
    audit_events may come, and nothing else changes. *)
Definition drifts (a b : content) : Prop :=
  core a = core b /\ c_sessions b `sublist_of` c_sessions a /\ c_audit a `prefix_of` c_audit b.

#[local] Instance drifts_preorder : PreOrder drifts.
Proof.
  split; [by intros a|]. intros a b c (H1 & H2 & H3) (H4 & H5 & H6). split_and!; [congruence|by etrans|by etrans].
Qed.

Lemma drifts_check l c : l `sublist_of` c_sessions c -> drifts c (with_sessions l c).
Proof. by intros H. Qed.
Lemma drifts_audit now action target status detail client_ip c : drifts c (record_audit now action target status detail client_ip c).
Proof. split_and!; [done|done|]. by eexists. Qed.
Lemma drifts_cancel a b : drifts a b -> drifts (cancel_queued a) (cancel_queued b).
Proof. unfold drifts, core, cancel_queued, with_operations. cbn. intros ([=] & ? & ?). split_and!; [congruence|done|done]. Qed.
Lemma drifts_mark a b : drifts a b -> drifts (mark_disconnected a) (mark_disconnected b).
Proof. unfold drifts, core, mark_disconnected, with_fleet. cbn. intros ([=] & ? & ?). split_and!; [congruence|done|done]. Qed.
Lemma drifts_recover a b : drifts a b -> drifts (recover a) (recover b).
Proof. unfold drifts, core, recover, with_operations. cbn. intros ([=] & ? & ?). split_and!; [congruence|done|done]. Qed.
Lemma drifts_reset a b : drifts a b -> drifts (reset_restored_runtime a) (reset_restored_runtime b).
Proof. unfold drifts, core, reset_restored_runtime. cbn. intros ([=] & ? & ?). split_and!; [congruence|done|done]. Qed.

Definition prepared (o : content) : content := recover (mark_disconnected (cancel_queued o)).
Definition part_prepared (o x : content) : Prop :=
  drifts o x \/ drifts (cancel_queued o) x \/ drifts (mark_disconnected (cancel_queued o)) x \/ drifts (prepared o) x.

(** The candidate comes from the file that was received. *)
Definition candidate (u : option content) (c : content) : Prop :=
  exists f, u = Some f /\ validate_backup f = true /\ migrate f = Some c /\ verify_restored c = true.

(** [y] is the database as it was checked last. *)
Definition restored (u : option content) (x : content) : Prop :=
  exists c y, candidate u c /\ drifts (reset_restored_runtime c) y /\ verify_restored y = true /\ drifts y x.
Definition rolled_back (o x : content) : Prop := exists y, drifts (prepared o) y /\ verify_restored y = true /\ drifts y x.

(** The points from which on the switch is alone. *)
Definition late (p : point) : bool :=
  match p with
  | NoRestore | Receiving | Validating _ | Preparing _ | StopBackground _ | Disconnect _ | AwaitIdle _ | CloseAlerter _ | PauseNotifier _
  | Rebuild false => false
  | _ => true
  end.

(** What the database is at a late point, given what it was at the start. *)
Definition facts (u : option content) (o x : content) (k : controller) (p : point) : Prop :=
  match p with
  | CancelQueued c => candidate u c /\ outcome k = None /\ drifts o x
  | MarkDisconnected c => candidate u c /\ outcome k = None /\ drifts (cancel_queued o) x
  | Recover c => candidate u c /\ outcome k = None /\ drifts (mark_disconnected (cancel_queued o)) x
  | CheckSpace c | MakeSnapshotFile c | Backup c => candidate u c /\ outcome k = None /\ drifts (prepared o) x
  | SyncSnapshot c s => candidate u c /\ outcome k = None /\ drifts (prepared o) s /\ drifts s x
  | Replace c s => candidate u c /\ outcome k = None /\ drifts (prepared o) s /\ drifts s x
  | ResetRuntime s => outcome k = None /\ drifts (prepared o) s /\ exists c, candidate u c /\ drifts c x
  | Verify s => outcome k = None /\ drifts (prepared o) s /\ exists c, candidate u c /\ drifts (reset_restored_runtime c) x
  | RollBack s => outcome k = None /\ drifts (prepared o) s
  | VerifyRollBack s => outcome k = None /\ drifts (prepared o) s /\ drifts s x
  | RetainSnapshots => outcome k = Some Restored /\ restored u x
  | Rebuild true =>
      match outcome k with
      | None => part_prepared o x
      | Some Restored => restored u x
      | Some RolledBack => rolled_back o x
      | _ => False
      end
  | _ => False
  end.

(** What holds at an early point. *)
Definition early_facts (h : hub) : Prop :=
  let v := serv h in
  match at_ h with
  | NoRestore => True
  | Receiving => True
  | Validating f => upload h = Some f
  | Preparing f => upload h = Some f /\ validate_backup f = true
  | StopBackground c => candidate (upload h) c /\ active (control h) = true /\ retired v = true
  | Disconnect c | AwaitIdle c => candidate (upload h) c /\ active (control h) = true /\ retired v = true /\ background v = false
  | CloseAlerter c => candidate (upload h) c /\ active (control h) = true /\ retired v = true /\ background v = false /\ requests h = ∅
  | PauseNotifier c =>
      candidate (upload h) c /\ active (control h) = true /\ retired v = true /\ background v = false /\ alerter v = false /\ requests h = ∅
  | Rebuild _ => active (control h) = true
  | _ => False
  end.

Definition alone (h : hub) : Prop := active (control h) = true /\ requests h = ∅ /\ quiet (serv h) = true.

Definition inv (h : hub) : Prop :=
  if late (at_ h) then alone h /\ exists o, drained h = Some o /\ facts (upload h) o (live h) (control h) (at_ h)
  else early_facts h /\ (at_ h <> NoRestore -> drained h = None /\ outcome (control h) = None).

(** Untracked requests change nothing that a point speaks of. *)
Lemma facts_drift u o x x' k p : drifts x x' -> facts u o x k p -> facts u o x' k p.
Proof.
  intros Hd. destruct p; cbn; try done; try (intros H; destruct_and!; split_and!; first [done|assumption|etrans; [eassumption|exact Hd]]).
  - intros (H1 & H2 & c' & H3 & H4). split_and!; [done..|]. exists c'. split; [done|etrans; [eassumption|exact Hd]].
  - intros (H1 & H2 & c' & H3 & H4). split_and!; [done..|]. exists c'. split; [done|etrans; [eassumption|exact Hd]].
  - intros (H1 & c' & y & H2 & H3 & H4 & H5). split; [done|]. exists c', y. split_and!; [done..|etrans; [eassumption|exact Hd]].
  - destruct paused; [|done]. destruct (outcome k) as [[]|]; try done.
    + intros (c' & y & H2 & H3 & H4 & H5). exists c', y. split_and!; [done..|etrans; [eassumption|exact Hd]].
    + intros (y & H2 & H3 & H4). exists y. split_and!; [done..|etrans; [eassumption|exact Hd]].
    + intros [H|[H|[H|H]]]; [left|right; left|do 2 right; left|do 3 right]; (etrans; [eassumption|exact Hd]).
Qed.

Lemma inv_started c : inv (initial c).
Proof. by split. Qed.

Lemma inv_beside h h' : inv h -> beside h h' -> inv h'.
Proof.
  unfold inv. intros Hi Hb. assert (at_ h' = at_ h) as E by by destruct Hb. rewrite E. destruct (late (at_ h)) eqn:El.
  - destruct Hi as [(Ha & Hr & Hq) (o & Hd & Hf)]. destruct Hb as [h i Hx|h i|h i Hx|h i|h Hx|h|h l Hs Hl|h ? ? ? ? ? Hs|h c Hw]; try congruence.
    + split; [|by exists o]. split_and!; [done| |done]. cbn. set_solver.
    + split; [|by exists o]. by split_and!.
    + split; [|by exists o]. by split_and!.
    + split; [by split_and!|]. exists o. split; [done|]. by eapply facts_drift; [apply drifts_check|].
    + split; [by split_and!|]. exists o. split; [done|]. by eapply facts_drift; [apply drifts_audit|].
    + destruct Hw; congruence.
  - destruct Hi as [Hf Hn]. split.
    + destruct Hb as [h i Hx|h i|h i Hx|h i|h Hx|h|h l Hs Hl|h ? ? ? ? ? Hs|h c Hw]; unfold early_facts in *; cbn in *; destruct (at_ h); try done; destruct_and?; split_and?; try done; try congruence; set_solver.
    + destruct Hb; cbn in *; exact Hn.
Qed.

(** *** The switch's own steps *)

Lemma leave_none paused h : outcome (control h) = None -> leave paused h = goto (Rebuild paused) h.
Proof. unfold leave. by intros ->. Qed.

Lemma fail_point h : at_ (fail h) = NoRestore.
Proof. unfold fail. by destruct (outcome (control h)). Qed.

Lemma inv_rest h : at_ h = NoRestore -> inv h.
Proof. unfold inv, early_facts. intros ->. by split. Qed.

Lemma inv_early h e h' : late (at_ h) = false -> inv h -> advance e h = Some h' -> inv h'.
Proof.
  unfold inv at 1. intros El. rewrite El. intros [Hf Hn] Ha.
  assert (HN : at_ h <> NoRestore) by (intros E; unfold advance in Ha; rewrite E in Ha; done). destruct (Hn HN) as [Hd Ho].
  unfold advance, early_facts in *. destruct (at_ h) eqn:Ep; try done; destruct e; try done;
    repeat case_match; try discriminate Ha; injection Ha as <-; try (apply inv_rest; first [apply fail_point|done]); try (rewrite leave_none by done).
  all: unfold inv, alone, early_facts, quiet; cbn; destruct_and?; split_and?; try done; try (by apply bool_decide_eq_true); try (eexists; split; [done|]; by cbn).
  - by eapply bool_decide_eq_true_1.
  - by repeat match goal with H : _ (serv h) = _ |- _ => rewrite H; clear H end.
Qed.

Lemma inv_leave h o : alone h -> drained h = Some o -> facts (upload h) o (live h) (control h) (Rebuild true) -> inv (leave true h).
Proof.
  intros Ha Hd Hf. unfold leave. cbn in Hf. destruct (outcome (control h)) as [[]|] eqn:E; try done; unfold inv; cbn; rewrite E;
    (split; [exact Ha|by exists o]).
Qed.

Lemma inv_goto h o p : late p = true -> alone h -> drained h = Some o -> facts (upload h) o (live h) (control h) p -> inv (goto p h).
Proof. intros Hl Ha Hd Hf. unfold inv. cbn. rewrite Hl. split; [exact Ha|by exists o]. Qed.

Lemma inv_late h e h' : late (at_ h) = true -> inv h -> advance e h = Some h' -> inv h'.
Proof.
  unfold inv at 1. intros El. rewrite El. intros [(Hact & Hr & Hq) (o & Hd & Hf)] Ha.
  unfold advance in Ha. destruct (at_ h) eqn:Ep; try done; cbn [facts] in Hf; destruct e; try done;
    repeat case_match; try discriminate Ha; injection Ha as <-; try (apply inv_rest; first [apply fail_point|done]).
  all: assert (Hal : alone h) by done; destruct_and?.
  all: first [eapply (inv_leave _ o); [done|done|] | eapply (inv_goto _ o); [done|done|done|]].
  all: cbn; try match goal with H : outcome (control ?k) = _ |- context [outcome (control ?k)] => rewrite H; cbn end; unfold part_prepared.
  all: try (split_and?; try done; auto using drifts_cancel, drifts_mark, drifts_recover; fail).
  - split_and!; [done|done|]. by apply drifts_recover.
  - do 3 right. by etrans.
  - split_and!; [done|done|]. by exists c.
  - split_and!; [done|done|]. match goal with H : exists c, _ |- _ => destruct H as (c & Hc & Hs) end. exists c. split; [done|]. by apply drifts_reset.
  - split; [done|]. match goal with H : exists c, _ |- _ => destruct H as (c & Hc & Hs) end. by exists c, (live h).
  - exists (live h). split_and!; [etrans; eassumption|done|done].
Qed.

Lemma inv_step h h' : inv h -> step h h' -> inv h'.
Proof.
  intros Hi [Ho|Hb]; [|by eapply inv_beside]. destruct Ho as [g Hp Hs|g e g' He].
  - unfold inv, early_facts. cbn. by split.
  - destruct (late (at_ g)) eqn:El; [by eapply inv_late|by eapply inv_early].
Qed.

Lemma inv_reachable c h : rtc step (initial c) h -> inv h.
Proof. intros H. pose proof (inv_started c) as Hi. induction H; [done|]. eauto using inv_step. Qed.

(** ** What a restore leaves *)

(** In service again. *)
Definition open_again (h : hub) : Prop := active (control h) = false /\ serv h = running.

(** What is true of the live database when the outcome is shown. *)
Definition outcome_true (before h : hub) : Prop :=
  match outcome (control h) with
  | Some Restored => restored (upload h) (live h) /\ open_again h
  | Some RolledBack => exists o, drained h = Some o /\ rolled_back o (live h) /\ open_again h
  | Some Unchanged => match drained h with
                      | Some o => part_prepared o (live h) /\ open_again h
                      | None => live h = live before
                      end
  | Some ManualRecovery => active (control h) = true
  | None => False
  end.

Lemma fail_outcome h : outcome (control (fail h)) = Some (default Unchanged (outcome (control h)))
  /\ active (control (fail h)) = active (control h) /\ live (fail h) = live h /\ serv (fail h) = serv h
  /\ upload (fail h) = upload h /\ drained (fail h) = drained h.
Proof. unfold fail. destruct (outcome (control h)) as [o|] eqn:E; cbn; rewrite ?E; done. Qed.

Lemma leave_rest paused h : at_ (leave paused h) = NoRestore -> outcome (control h) = Some ManualRecovery.
Proof. unfold leave. by destruct (outcome (control h)) as [[]|]. Qed.

Lemma leave_true paused before h : at_ (leave paused h) = NoRestore -> active (control h) = true -> outcome_true before (leave paused h).
Proof.
  intros Hn Ha. pose proof (leave_rest _ _ Hn) as Ho. unfold leave. rewrite Ho. unfold outcome_true.
  destruct (fail_outcome h) as (-> & -> & _). by rewrite Ho.
Qed.

Lemma fail_early before h : outcome (control h) = None -> drained h = None -> live h = live before -> outcome_true before (fail h).
Proof.
  intros Ho Hd Hl. unfold outcome_true. destruct (fail_outcome h) as (-> & _ & -> & _ & _ & ->). rewrite Ho, Hd. done.
Qed.

Definition rebuilt (h : hub) : hub := set_active false (set_serv running h).

Lemma rebuilt_late before h o : drained h = Some o -> facts (upload h) o (live h) (control h) (Rebuild true) ->
  outcome_true before (match outcome (control h) with Some Restored => goto NoRestore (rebuilt h) | _ => fail (rebuilt h) end).
Proof.
  intros Hd Hf. cbn in Hf. destruct (fail_outcome (rebuilt h)) as (Eo & Ea & El & Es & Eu & Ed).
  change (outcome (control (rebuilt h))) with (outcome (control h)) in Eo. unfold outcome_true, open_again.
  destruct (outcome (control h)) as [[]|] eqn:E; try done.
  - cbn. rewrite E. done.
  - rewrite Eo, Ea, El, Es, Ed. by exists o.
  - rewrite Eo, Ea, El, Es, Ed. cbn. by rewrite Hd.
Qed.

(** C24 (safety): a restore ends in one of four ways, and says which.  Whatever
    call fails and whatever requests run beside it, when [restore] lets go of
    its lock the outcome is true of the live database: [restored], it is the
    received file, migrated, checked before and after, and reset; [rolled_back],
    it is what it was when everything had stopped, its commands closed, and
    checked; [unchanged], no copy was made over it; and then the server is in
    service again.  Otherwise recovery is manual, and the API stays closed.
    "Is" allows for what requests outside the maintenance gate (a second
    restore, a poll of the status) do meanwhile, before the copy or after it:
    they may drop expired sessions and append rows to audit_events, and touch
    nothing else ([drifts]). *)
Theorem restore_outcomes (c : content) (h h' : hub) :
  rtc step (initial c) h -> own h h' -> at_ h <> NoRestore -> at_ h' = NoRestore -> outcome_true h h'.
Proof.
  intros Hr Ho Hp Hp'. pose proof (inv_reachable c h Hr) as Hi. destruct Ho as [h Hn _|h e h' Ha]; [done|].
  unfold inv in Hi. destruct (late (at_ h)) eqn:El.
  - destruct Hi as [(Hact & _ & _) (o & Hd & Hf)]. unfold advance in Ha. destruct (at_ h) as [| | | | | | | | | | | | | | | | | | | | | |paused] eqn:Ep; try done.
    all: destruct e; try done; try (repeat case_match; try discriminate Ha; injection Ha as <-; first [discriminate Hp'|by apply leave_true]).
    + injection Ha as <-. destruct paused; [|done]. by apply (rebuilt_late h h o).
    + injection Ha as <-. unfold outcome_true. by destruct (fail_outcome (set_outcome ManualRecovery (set_serv v h))) as (-> & -> & _).
  - destruct Hi as [Hf Hn]. destruct (Hn Hp) as [Hd Ho]. unfold advance in Ha. destruct (at_ h) as [| | | | | | | | | | | | | | | | | | | | | |paused] eqn:Ep; try done.
    all: destruct e; try done; try (repeat case_match; try discriminate Ha; injection Ha as <-; first [discriminate Hp'|by apply fail_early|by rewrite leave_none in Hp']).
    + injection Ha as <-. cbn. rewrite Ho. by apply fail_early.
    + injection Ha as <-. unfold outcome_true. unfold early_facts in Hf. rewrite Ep in Hf.
      by destruct (fail_outcome (set_outcome ManualRecovery (set_serv v h))) as (-> & -> & _).
Qed.

(** While a restore may write to the live database nothing else
    does.  Its own steps leave the database alone until every admitted request
    has been answered and every service is stopped; from then until it lets go,
    maintenance is on, no request is inside the application, and whatever
    happens beside it drops expired sessions and adds rows of audit_events at
    most. *)
Theorem switch_is_alone (c : content) (h h' : hub) :
  rtc step (initial c) h -> step h h' -> at_ h <> NoRestore ->
  match drained h with
  | None => own h h' -> live h' = live h
  | Some _ => alone h /\ (beside h h' -> drifts (live h) (live h'))
  end.
Proof.
  intros Hr Hs Hp. pose proof (inv_reachable c h Hr) as Hi. unfold inv in Hi. destruct (late (at_ h)) eqn:El.
  - destruct Hi as [Hal (o & -> & _)]. split; [done|]. destruct Hal as (Ha & Hre & Hq). intros Hb.
    destruct Hb as [h i Hx|h i|h i Hx|h i|h Hx|h|h l Hst Hl|h ? ? ? ? ? Hst|h x Hw]; try done; [apply drifts_audit|]. destruct Hw; congruence.
  - destruct Hi as [_ Hn]. destruct (Hn Hp) as [-> Ho]. intros Hown. destruct Hown as [h Hn' _|h e h' Ha]; [done|].
    unfold advance in Ha. destruct (at_ h) as [| | | | | | | | | | | | | | | | | | | | | |[]]; try done;
      destruct e; try done; repeat case_match; try discriminate Ha; injection Ha as <-; try done;
      first [by rewrite leave_none|by destruct (fail_outcome h) as (_ & _ & -> & _)|idtac].
    all: match goal with |- live (fail ?x) = _ => by destruct (fail_outcome x) as (_ & _ & -> & _) end.
Qed.

Definition frozen (x : content) (h : hub) : Prop :=
  live h = x /\ at_ h = NoRestore /\ alone h /\ strays h = 0%nat /\ outcome (control h) = Some ManualRecovery.

Lemma frozen_step x h h' : frozen x h -> step h h' -> frozen x h'.
Proof.
  intros (Hl & Hn & (Ha & Hr & Hq) & Hs & Ho) [Hst|Hst].
  - destruct Hst as [h Hx Hpos|h e h' Hadv]; [lia|]. unfold advance in Hadv. by rewrite Hn in Hadv.
  - destruct Hst as [h i Hx|h i|h i Hx|h i|h Hx|h|h l Hpos Hl'|h ? ? ? ? ? Hpos|h u Hw]; try congruence; try lia.
    all: try (unfold frozen, alone; cbn; split_and!; try done; try set_solver; by rewrite Hs).
    + destruct Hpos as [?|[_ ?]]; [lia|done].
    + destruct Hw; congruence.
Qed.

Lemma frozen_steps x h h' : rtc step h h' -> frozen x h -> frozen x h'.
Proof. induction 1; eauto using frozen_step. Qed.

(** When neither the switch nor the way back worked, the database
    is frozen for the operator: no request gets in, no restore begins and
    nothing writes to it, unless a second restore or a poll was already past
    the middleware. *)
Theorem manual_recovery_freezes (c : content) (h h' h'' : hub) (s : content) :
  rtc step (initial c) h -> at_ h = RollBack s \/ at_ h = VerifyRollBack s -> own h h' -> at_ h' = NoRestore -> strays h' = 0%nat ->
  rtc step h' h'' ->
  live h'' = live h' /\ at_ h'' = NoRestore /\ active (control h'') = true /\ requests h'' = ∅ /\ outcome (control h'') = Some ManualRecovery.
Proof.
  intros Hr Hat Hown Hn' Hst Hs. pose proof (inv_reachable c h Hr) as Hi.
  assert (El : late (at_ h) = true) by (destruct Hat as [-> | ->]; done). unfold inv in Hi. rewrite El in Hi.
  destruct Hi as [(Ha & Hre & Hq) _].
  assert (Hf : active (control h') = true /\ requests h' = ∅ /\ quiet (serv h') = true /\ outcome (control h') = Some ManualRecovery).
  { destruct Hown as [h Hn _|h e h' Hadv]; [destruct Hat; congruence|]. unfold advance in Hadv.
    destruct Hat as [E | E]; rewrite E in Hadv; destruct e; try done; repeat case_match; try discriminate Hadv; injection Hadv as <-; try discriminate Hn';
      apply leave_rest in Hn'; done. }
  destruct (frozen_steps (live h') h' h'' Hs) as (Hl & Hn & (Hx & Hy & _) & _ & Hz); [|done].
  destruct Hf as (? & ? & ? & ?). by split_and!.
Qed.

(** *** The runtime state of a restored database *)

Lemma dict_get_filter (p : list Z -> bool) k (d : pydict pystr json) :
  dict_get k (filter (fun kv => p kv.1 = true) d) = if p k then dict_get k d else None.
Proof.
  induction d as [|[k' v] d IH]; [by destruct (p k)|]. rewrite filter_cons. cbn [fst dict_get]. case_decide as Hp; cbn [dict_get].
  - case_decide as Hk; [|exact IH]. by rewrite Hk, Hp.
  - case_decide as Hk; [|exact IH]. rewrite IH, Hk. by destruct (p k').
Qed.

(** A restored database starts cold.  Nobody is signed in, no
    agent is connected and no module online, no command is queued or running
    (those that were are closed, every other is as it was), no delivery is
    leased and none lost, every agent's tasks are to be sent again, the token
    before the last rotation is not accepted, and every other setting stays. *)
Theorem restored_starts_cold (lower : pystr -> pystr) (repr : json -> pystr) (sha256 : pystr -> pystr) (fromisoformat : pystr -> option Z)
    (c : content) (token : pystr) (header : option pystr) (now : Z) :
  let d := reset_restored_runtime c in
  let setting key := dict_get (str key) (c_settings d) in
  c_sessions d = []
  /\ Auth.authenticate lower repr sha256 fromisoformat header now
       (Auth.mkTokens token (setting "previous_agent_token_hash") (setting "previous_agent_token_expires_at"))
     = Auth.verify_agent_token (Auth.bearer lower header) token
  /\ (forall k, k ∉ PREVIOUS_TOKEN -> dict_get k (c_settings d) = dict_get k (c_settings c))
  /\ Forall2 (fun o o' => Operations.o_id o' = Operations.o_id o /\ Operations.active o' = false /\ (Operations.active o = false -> o' = o))
       (c_operations c) (c_operations d)
  /\ (forall id r, Fleet.agents (c_fleet d) !! id = Some r -> Fleet.a_connected r = false)
  /\ (forall m, m ∈ Fleet.devices (c_fleet d) -> Fleet.d_cols m !! str "online" = Some (JInt 0))
  /\ Forall2 (fun x x' => Outbox.target x' = Outbox.target x /\ Outbox.d_status x' = Outbox.d_status x /\ Outbox.d_lease x' = None)
       (c_deliveries c) (c_deliveries d)
  /\ (forall id r, c_syncs d !! id = Some r -> TaskSync.ar_status r = TaskSync.SyncPending /\ TaskSync.ar_applied r = []).
Proof.
  intros d setting.
  assert (Hs : forall k, dict_get k (c_settings d) = if negb (bool_decide (k ∈ PREVIOUS_TOKEN)) then dict_get k (c_settings c) else None).
  { intros k. pose proof (dict_get_filter (fun x => negb (bool_decide (x ∈ PREVIOUS_TOKEN))) k (c_settings c)) as E. cbv beta in E. rewrite <- E. cbn. f_equal. apply list_filter_iff.
    intros [k' v]. cbn. by rewrite negb_true_iff, bool_decide_eq_false. }
  split_and!.
  - done.
  - unfold setting, Auth.authenticate. rewrite !Hs. rewrite !bool_decide_eq_true_2 by (apply (bool_decide_eq_true_1 _); by vm_compute). cbn.
    destruct (Auth.verify_agent_token _ _) as [[]|]; done.
  - intros k Hk. rewrite Hs. by rewrite bool_decide_eq_false_2.
  - cbn. unfold Operations.reset_operations, Operations.update. apply Forall2_fmap_r, Forall_Forall2_diag, Forall_true. intros o. cbn.
    destruct (Operations.active o) eqn:Ea; [|by split_and!]. split_and!; [done| |done]. by destruct (Operations.has Operations.Queued o).
  - cbn. intros id r Hr. rewrite lookup_fmap in Hr. apply fmap_Some in Hr as (r0 & _ & ->). done.
  - cbn. intros m (m0 & -> & _)%list_elem_of_fmap. cbn. by rewrite lookup_insert_eq.
  - cbn. apply Forall2_fmap_r, Forall_Forall2_diag, Forall_true. intros x. done.
  - cbn. intros id r Hr. rewrite lookup_fmap in Hr. apply fmap_Some in Hr as (r0 & _ & ->). done.
Qed.

(** *** The upload *)

Definition chunk_bytes (a : arrival) : Z := match a with Chunk n _ => n | _ => 0 end.

(** Room for the chunk, beside two copies of the live files and the reserve. *)
Definition fits (min_free : Z) (a : arrival) : Prop :=
  match a with Chunk n d => n + 2 * d_live d + min_free <= d_free d | _ => False end.

Definition total_bytes (l : list arrival) : Z := foldr (fun a n => chunk_bytes a + n) 0 l.

Lemma receive_loop_spec max min_free stream : forall received r n, Forall (fun a => 0 <= chunk_bytes a) stream -> 0 <= received <= max ->
  receive_loop max min_free stream received = (r, n) ->
  n <= max /\ exists pre post, stream = pre ++ post /\ n = received + total_bytes pre /\ Forall (fits min_free) pre.
Proof.
  assert (Hstop : forall received s, 0 <= received <= max -> received <= max /\ exists pre post, s = pre ++ post /\ received = received + total_bytes pre /\ Forall (fits min_free) pre).
  { intros received s H. split; [lia|]. exists [], s. split_and!; [done|cbn; lia|constructor]. }
  induction stream as [|a stream IH]; intros received r n Hc Hr; cbn [receive_loop].
  - intros [= _ <-]. by apply Hstop.
  - inversion Hc as [|? ? Ha Hc']; subst. destruct a as [k d| | |]; try (intros [= _ <-]; by apply Hstop).
    destruct (Z.ltb_spec max (received + k)); [intros [= _ <-]; by apply Hstop|].
    destruct (_space min_free d (received + k) received) eqn:Ed; [|intros [= _ <-]; by apply Hstop]. cbn in Ha.
    intros Hl. destruct (IH (received + k) r n Hc' ltac:(lia) Hl) as (Hn & pre & post & -> & -> & Hf). split; [done|].
    exists (Chunk k d :: pre), post. split_and!; [done|change (total_bytes (Chunk k d :: pre)) with (k + total_bytes pre); lia|]. constructor; [|done]. unfold _space in Ed. cbn. lia.
Qed.

(** An upload stays inside its limits.  Whatever the request sends,
    no more than the configured maximum is ever written, each chunk only while
    the disk has room for it beside two copies of the live files and the
    reserve, and an accepted file is not empty, is what the chunks add up to and
    is as long as the request declared. *)
Theorem upload_bounded (max min_free : Z) (raw_length : option pystr) (d : disk) (stream : list arrival) (r : res refusal Z) (n : Z) :
  0 <= max -> Forall (fun a => 0 <= chunk_bytes a) stream -> receive max min_free raw_length d stream = (r, n) ->
  n <= max
  /\ (exists pre post, stream = pre ++ post /\ n = total_bytes pre /\ Forall (fits min_free) pre)
  /\ (forall m, r = Ok m -> m = n /\ n <> 0 /\ (forall t, raw_length = Some t -> py_int t = Some n)).
Proof.
  intros Hm Hc. unfold receive.
  assert (H0 : exists pre post, stream = pre ++ post /\ 0 = total_bytes pre /\ Forall (fits min_free) pre).
  { exists [], stream. split_and!; [done|done|constructor]. }
  destruct (declared max raw_length) as [length_|e] eqn:Ed; [|intros [= <- <-]; split_and!; [done|done|done]].
  destruct (_space min_free d (default 0 length_) 0); [|intros [= <- <-]; split_and!; [done|done|done]]. cbn [negb].
  destruct (receive_loop max min_free stream 0) as [r0 n0] eqn:El.
  destruct (receive_loop_spec max min_free stream 0 r0 n0 Hc ltac:(lia) El) as (Hn & pre & post & E & En & Hf).
  assert (Hpre : exists pre post, stream = pre ++ post /\ n0 = total_bytes pre /\ Forall (fits min_free) pre) by (exists pre, post; split_and!; [done|lia|done]).
  destruct r0 as [u|e]; [|intros [= <- <-]; split_and!; done].
  destruct (Z.eqb_spec n0 0); [intros [= <- <-]; split_and!; done|].
  destruct length_ as [m|]; [destruct (Z.eqb_spec m n0) as [->|]|]; intros [= <- <-]; (split_and!; [done|done|]); intros k [= <-].
  - split_and!; [done|done|]. intros t ->. unfold declared in Ed. destruct (py_int t) as [i|]; [|done]. repeat case_match; congruence.
  - split_and!; [done|done|]. intros t ->. unfold declared in Ed. destruct (py_int t); repeat case_match; done.
Qed.
End Restore.

(** ** Witnesses: the rest of a database is a number *)

Definition empty_fleet : Fleet.fleet := Fleet.mkFleet ∅ [] 0 [] 0 [].
Definition numbered (version n : Z) : @content Z := mkContent version [Auth.mkSession (str "h") 0 9 []] [] [] empty_fleet ∅ [] [] n.
Definition bump (c : @content Z) : option (@content Z) :=
  Some (mkContent SCHEMA_VERSION (c_sessions c) (c_settings c) (c_operations c) (c_fleet c) (c_syncs c) (c_deliveries c) (c_audit c) (c_rest c)).
Definition odd_sound (c : @content Z) : bool := Z.odd (c_rest c).
Definition all_tables (_ : @content Z) : bool := true.

Definition go := advance odd_sound all_tables bump.
Definition moves := step odd_sound all_tables bump.

Fixpoint drive (es : list event) (h : hub) : option hub :=
  match es with [] => Some h | e :: es => h' ← go e h; drive es h' end.

Lemma drive_moves es : forall h h', drive es h = Some h' -> rtc moves h h'.
Proof.
  induction es as [|e es IH]; intros h h' H; [by injection H as ->|]. cbn in H. apply bind_Some in H as (g & Hg & H).
  eapply rtc_l; [apply step_own; by apply (own_advance _ _ _ h e)|by apply IH].
Qed.

(** A request to restore arrives and gets the lock. *)
Definition knocking : hub := set_requests ∅ ∅ 1 (initial (numbered 19 1)).
Definition begun : hub := begin_restore (set_requests ∅ ∅ 0 knocking).

Lemma begun_reached : rtc moves (initial (numbered 19 1)) begun.
Proof.
  eapply rtc_l; [apply step_beside; by apply (beside_stray (initial (numbered 19 1)))|].
  eapply rtc_l; [|done]. apply step_own. exact (own_begin _ _ _ knocking eq_refl ltac:(cbn; lia)).
Qed.

(** The file received is number [n]; an odd one passes the checks. *)
Definition to_snapshot (n : Z) : list event := [Received (numbered 18 n); Done; Done] ++ repeat Done 5.
Definition replacing (n : Z) : hub := default begun (drive (to_snapshot n ++ repeat Done 7) begun).
Definition switched : hub := default begun (drive (to_snapshot 3 ++ repeat Done 11) begun).
Definition switched_back_on : hub := default begun (go Done switched).

Lemma restore_outcomes_witness :
  outcome (control switched_back_on) = Some Restored /\ c_rest (live switched_back_on) = 3
  /\ outcome_true odd_sound all_tables bump switched switched_back_on.
Proof.
  split; [by vm_compute|]. split; [by vm_compute|].
  apply (restore_outcomes odd_sound all_tables bump (numbered 19 1)).
  - etrans; [apply begun_reached|]. apply (drive_moves (to_snapshot 3 ++ repeat Done 11)). by vm_compute.
  - apply (own_advance _ _ _ switched Done). by vm_compute.
  - by vm_compute.
  - by vm_compute.
Defined.

Lemma switch_is_alone_witness :
  alone (replacing 3) /\ (forall h', beside (replacing 3) h' -> drifts (live (replacing 3)) (live h')).
Proof.
  assert (Hr : rtc moves (initial (numbered 19 1)) (replacing 3)).
  { etrans; [apply begun_reached|]. apply (drive_moves (to_snapshot 3 ++ repeat Done 7)). by vm_compute. }
  assert (Hd : exists o, drained (replacing 3) = Some o) by (eexists; by vm_compute). destruct Hd as [o Hd].
  assert (Hp : at_ (replacing 3) <> NoRestore) by by vm_compute.
  pose proof (fun h' (H : beside (replacing 3) h') =>
    switch_is_alone odd_sound all_tables bump (numbered 19 1) (replacing 3) h' Hr (step_beside _ _ _ _ _ H) Hp) as H.
  rewrite Hd in H. split.
  - apply (H (set_requests (requests (replacing 3)) (sockets (replacing 3)) (Nat.pred (strays (replacing 3))) (replacing 3))). apply beside_refused.
  - intros h' Hb. by apply (H h' Hb).
Defined.

(** An even number fails the check after the copy, and so does the way back. *)
Definition lost : hub := default begun (drive [RaisedLeaving (numbered 19 5); RaisedLeaving (numbered 19 6)] (replacing 3)).
Definition losing : hub := default begun (drive [RaisedLeaving (numbered 19 5)] (replacing 3)).

Lemma manual_recovery_freezes_witness :
  c_rest (live lost) = 6 /\
  (live lost = live lost /\ at_ lost = NoRestore /\ active (control lost) = true /\ requests lost = ∅ /\ outcome (control lost) = Some ManualRecovery).
Proof.
  split; [by vm_compute|].
  assert (Hs : exists s, at_ losing = RollBack s) by (eexists; by vm_compute). destruct Hs as [s Hs].
  apply (manual_recovery_freezes odd_sound all_tables bump (numbered 19 1) losing lost lost s).
  - etrans; [apply begun_reached|]. apply (drive_moves (to_snapshot 3 ++ repeat Done 7 ++ [RaisedLeaving (numbered 19 5)])). by vm_compute.
  - by left.
  - apply (own_advance _ _ _ losing (RaisedLeaving (numbered 19 6))). by vm_compute.
  - by vm_compute.
  - by vm_compute.
  - done.
Defined.

(** The refusal for want of space says that the online database was not
    modified, and the outcome is [unchanged]; the queued commands are cancelled
    by then. *)
Definition queued_command : Operations.operation :=
  Operations.mkOperation (str "op-1") [] 1 [] [] [] [] [] Operations.Queued [] [] [] [] [] [] JNull JNull [].
Definition with_command (h : @hub Z) : hub := set_live (with_operations [queued_command] (live h)) h.
Definition no_space : hub :=
  default begun (drive (to_snapshot 3 ++ repeat Done 3 ++ [Raised; Done]) (with_command begun)).

Example unchanged_but_cancelled :
  outcome (control no_space) = Some Unchanged /\ at_ no_space = NoRestore
  /\ (Operations.o_status <$> c_operations (live no_space)) = [Operations.Cancelled].
Proof. by vm_compute. Qed.

Definition roomy : disk := mkDisk 1000 100.

Lemma upload_bounded_witness :
  receive 50 10 (Some (str " 30")) roomy [Chunk 10 roomy; Chunk 20 roomy; End_] = (Ok 30, 30)
  /\ (30 <= 50
      /\ (exists pre post, [Chunk 10 roomy; Chunk 20 roomy; End_] = pre ++ post /\ 30 = total_bytes pre /\ Forall (fits 10) pre)
      /\ (forall m, Ok 30 = @Ok refusal Z m -> m = 30 /\ 30 <> 0 /\ (forall t, Some (str " 30") = Some t -> py_int t = Some 30))).
Proof.
  split; [by vm_compute|].
  apply (upload_bounded 50 10 (Some (str " 30")) roomy [Chunk 10 roomy; Chunk 20 roomy; End_] (Ok 30) 30).
  - done.
  - by repeat constructor.
  - by vm_compute.
Defined.

End Restoring.
