(* ===== verification/Discovery.v ===== *)
(** * Finding the modules (agent, discovery.py, with the devices of config.py and the adoption of app.py)

    A port is asked who it is ([probe_port]), handed to the worker whose device
    block names that module ([acquire]) and taken back ([release]); the modules
    nobody has a block for are listed ([survey]) and adopted ([_autodetect_once]).
    The registry's lock lets one search run at a time, so a search is one
    function of what the glob and the probes return; only [release] needs no
    lock, which is why a survey asks anew at each port what is held. *)

From S2P Require Import Prelude PyText PyDict Json Store App.
Import Store(fresh_db).

Module Discovery.

Record DeviceConfig := mkDevice {
  name : pystr; port : pystr; imei : pystr; iccid : pystr; storage : pystr; label : pystr; baudrate : Z; delete_after_read : bool;
  low_voltage_mv : Z }.

Record ProbeResult := mkProbe { p_port : pystr; p_model : pystr; p_imei : pystr; p_iccid : pystr }.

Definition is_pinned (d : DeviceConfig) : bool := negb (bool_decide (port d = [])).

(** [s.replace(pattern, "")]; the fuel is the length of [s]. *)
Fixpoint remove_all (fuel : nat) (pattern s : pystr) : pystr :=
  match fuel, s with
  | S fuel, c :: r => if starts_with pattern s then remove_all fuel pattern (drop (length pattern) s) else c :: remove_all fuel pattern r
  | _, _ => []
  end.

(** [ask]: the lines of an answer, [None] an ATError. *)
Definition probe_port (p : pystr) (opens : bool) (ask : string -> option (list pystr)) : option ProbeResult :=
  let first command := match ask command with Some (l :: _) => l | _ => [] end in
  if opens then
    match first "ATI" with
    | [] => None
    | model =>
        let id := first "AT+ICCID" in
        Some (mkProbe p model (strip (first "AT+CGSN")) (strip (remove_all (length id) (str "+ICCID:") id)))
    end
  else None.

Section Discovery.
Context (lower : pystr -> pystr).

Definition folded (s : pystr) : pystr := lower (strip s).

Definition keyed (module_imei module_iccid : pystr) : option pystr :=
  match folded module_imei with
  | [] => match folded module_iccid with [] => None | i => Some (str "iccid:" ++ i) end
  | i => Some (str "imei:" ++ i)
  end.

(** [_identity_key], [_probe_identity]; [_device_identity]. *)
Definition _identity_key (r : ProbeResult) : option pystr := keyed (p_imei r) (p_iccid r).
Definition _device_identity (d : DeviceConfig) : option pystr := keyed (imei d) (iccid d).

Definition differs (wanted found : pystr) : bool := negb (bool_decide (folded wanted = [])) && negb (bool_decide (folded wanted = folded found)).

Definition _matches (config : DeviceConfig) (found : ProbeResult) : bool :=
  if differs (imei config) (p_imei found) then false
  else if differs (iccid config) (p_iccid found) then false
  else negb (bool_decide (folded (imei config) = [])) || negb (bool_decide (folded (iccid config) = [])).

(** ** The registry *)

Record PortRegistry := mkRegistry { claimed : pydict pystr pystr; sole_device : bool }.

(** The three texts of [NoSuchDevice]. *)
Inductive NoSuchDevice := NoPort | RefusesToGuess | NotFound.

Definition text_order (a b : pystr) : Prop := text_le a b = true.
#[export] Instance text_order_dec a b : Decision (text_order a b).
Proof. unfold text_order. apply _. Defined.

Definition sorted (l : list pystr) : list pystr := merge_sort text_order l.

Definition held (g : PortRegistry) (p : pystr) : bool := match dict_get p (claimed g) with Some _ => true | None => false end.

Definition identified (config : DeviceConfig) : bool := negb (bool_decide (imei config = [])) || negb (bool_decide (iccid config = [])).

Fixpoint acquire_loop (probe : pystr -> option ProbeResult) (config : DeviceConfig) (g : PortRegistry) (candidates : list pystr) :
    res NoSuchDevice pystr * PortRegistry :=
  match candidates with
  | [] => (Err NotFound, g)
  | p :: candidates =>
      match probe p with
      | None => acquire_loop probe config g candidates
      | Some found =>
          if identified config && negb (_matches config found) then acquire_loop probe config g candidates
          else if negb (identified config) && negb (sole_device g) then (Err RefusesToGuess, g)
          else (Ok p, mkRegistry (dict_set p (name config) (claimed g)) (sole_device g))
      end
  end.

Definition acquire (glob : list pystr) (probe : pystr -> option ProbeResult) (config : DeviceConfig) (g : PortRegistry) :
    res NoSuchDevice pystr * PortRegistry :=
  match filter (fun p => held g p = false) (sorted glob) with
  | [] => (Err NoPort, g)
  | candidates => acquire_loop probe config g candidates
  end.

Definition release (p : pystr) (g : PortRegistry) : PortRegistry := mkRegistry (dict_del p (claimed g)) (sole_device g).

(** [held_then]: what the registry holds when the loop comes to the port. *)
Fixpoint survey_loop (held_then : pystr -> bool) (pinned : list pystr) (probe : pystr -> option ProbeResult) (reserved : list DeviceConfig)
    (seen : list pystr) (ports : list pystr) : list ProbeResult :=
  match ports with
  | [] => []
  | p :: ports =>
      let again := survey_loop held_then pinned probe reserved in
      if held_then p || bool_decide (p ∈ pinned) then again seen ports
      else match probe p with
           | None => again seen ports
           | Some result =>
               if existsb (fun config => _matches config result) reserved then again seen ports
               else match _identity_key result with
                    | None => result :: again seen ports
                    | Some i => if bool_decide (i ∈ seen) then again seen ports else result :: again (i :: seen) ports
                    end
           end
  end.

Definition survey (glob : list pystr) (realpath : pystr -> pystr) (held_then : pystr -> bool) (probe : pystr -> option ProbeResult)
    (reserved : list DeviceConfig) : list ProbeResult :=
  survey_loop held_then ((fun d => realpath (port d)) <$> filter (fun d => is_pinned d = true) reserved) probe reserved [] (sorted glob).

(** ** Adoption *)

(** [names] are the keys of [self.workers], [emitted] the log events. *)
Record app := mkApp { configured : list DeviceConfig; adopted : list DeviceConfig; names : list pystr; store : Store.LocalStore; emitted : list frame }.

Definition adopted_device (n : pystr) (found : ProbeResult) : DeviceConfig :=
  mkDevice n [] (p_imei found) [] (str "SM") (p_model found) 115200 true 0.

Definition adoption_log (n : pystr) (found : ProbeResult) : frame :=
  [(str "level", JStr (str "info")); (str "device", JStr n); (str "event", JStr (str "device_adopted"));
   (str "imei", JStr (p_imei found)); (str "iccid", JStr (p_iccid found))].

Definition _adopt (found : ProbeResult) (a : app) : app :=
  match _identity_key found with
  | None => a
  | Some i =>
      if existsb (fun d => bool_decide (_device_identity d = Some i)) (configured a ++ adopted a) then a
      else
        let '(n, s) := App.name_for (p_imei found) (p_iccid found) (names a) (store a) in
        mkApp (configured a) (adopted a ++ [adopted_device n found]) (names a ++ [n]) s (emitted a ++ [adoption_log n found])
  end.

Fixpoint adopt_all (seen : list pystr) (l : list ProbeResult) (a : app) : app :=
  match l with
  | [] => a
  | found :: l =>
      match _identity_key found with
      | None => adopt_all seen l a
      | Some i => if bool_decide (i ∈ seen) then adopt_all seen l a else adopt_all (i :: seen) l (_adopt found a)
      end
  end.

Definition unnamed (d : DeviceConfig) : bool := bool_decide (port d = []) && bool_decide (imei d = []) && bool_decide (iccid d = []).

Definition _autodetect_once (glob : list pystr) (realpath : pystr -> pystr) (held_then : pystr -> bool)
    (probe : pystr -> option ProbeResult) (a : app) : app :=
  if existsb unnamed (configured a) then a
  else adopt_all [] (survey glob realpath held_then probe (configured a ++ adopted a)) a.

End Discovery.

(** ** The devices of a configuration *)

Section Config.
(** [str] and [int] of a TOML value. *)
Context (py_str : json -> pystr) (int_of : json -> option Z).

Inductive config_error := NoDevices | NeedsName | DuplicateName (n : pystr) | NeedsIdentity (n : pystr) | Crash.

Definition text_field (key : string) (default_ : pystr) (entry : frame) : pystr :=
  match dict_get (str key) entry with Some (JStr s) => s | Some v => py_str v | None => default_ end.
Definition int_field (key : string) (default_ : Z) (entry : frame) : res config_error Z :=
  match dict_get (str key) entry with Some v => of_option Crash (int_of v) | None => Ok default_ end.

Fixpoint parse_devices (many : bool) (seen : list pystr) (entries : list frame) : res config_error (list DeviceConfig) :=
  match entries with
  | [] => Ok []
  | entry :: entries =>
      _ ← guard_err (bool_decide (is_Some (dict_get (str "name") entry))) NeedsName;
      let n := text_field "name" [] entry in
      _ ← guard_err (negb (bool_decide (n ∈ seen))) (DuplicateName n);
      let p := strip (text_field "port" [] entry) in
      let i := strip (text_field "imei" [] entry) in
      let c := strip (text_field "iccid" [] entry) in
      _ ← guard_err (negb (bool_decide (p = []) && bool_decide (i = []) && bool_decide (c = []) && many)) (NeedsIdentity n);
      baud ← int_field "baudrate" 115200 entry;
      low ← int_field "low_voltage_mv" 0 entry;
      let delete := match dict_get (str "delete_after_read") entry with Some v => truthy v | None => true end in
      rest ← parse_devices many (n :: seen) entries;
      Ok (mkDevice n p i c (text_field "storage" (str "SM") entry) (text_field "label" [] entry) baud delete low :: rest)
  end.

(** The part of [AgentConfig.parse] on devices. *)
Definition parse (autodetect : bool) (entries : list frame) : res config_error (list DeviceConfig) :=
  _ ← guard_err (negb (bool_decide (entries = []) && negb autodetect)) NoDevices;
  parse_devices (1 <? length entries)%nat [] entries.

End Config.

(** ** Claims *)

Section Claims.
Context (lower : pystr -> pystr).

(** A port whose module this block may have. *)
Definition acceptable (probe : pystr -> option ProbeResult) (config : DeviceConfig) (p : pystr) : bool :=
  match probe p with Some found => negb (identified config) || _matches lower config found | None => false end.

Lemma acquire_loop_spec probe config g l : identified config || sole_device g = true ->
  match acquire_loop lower probe config g l with
  | (Ok p, g') => exists pre post, l = pre ++ p :: post /\ Forall (fun q => acceptable probe config q = false) pre
                  /\ acceptable probe config p = true /\ g' = mkRegistry (dict_set p (name config) (claimed g)) (sole_device g)
  | (Err e, g') => e = NotFound /\ g' = g /\ Forall (fun q => acceptable probe config q = false) l
  end.
Proof.
  intros Hs. induction l as [|p l IH]; cbn [acquire_loop]; [done|].
  assert (Hskip : acceptable probe config p = false -> match acquire_loop lower probe config g l with
    | (Ok p', g') => exists pre post, p :: l = pre ++ p' :: post /\ Forall (fun q => acceptable probe config q = false) pre
                    /\ acceptable probe config p' = true /\ g' = mkRegistry (dict_set p' (name config) (claimed g)) (sole_device g)
    | (Err e, g') => e = NotFound /\ g' = g /\ Forall (fun q => acceptable probe config q = false) (p :: l)
    end).
  { intros Ha. destruct (acquire_loop lower probe config g l) as [[q|e] g']; [|naive_solver].
    destruct IH as (pre & post & -> & ? & ? & ?). exists (p :: pre), post. split_and!; [done|by constructor|done|done]. }
  unfold acceptable at 1 in Hskip. destruct (probe p) as [found|] eqn:Ep; [|by apply Hskip].
  destruct (identified config) eqn:Ei; cbn [negb andb orb] in *.
  - destruct (_matches lower config found) eqn:Em; cbn [negb]; [|by apply Hskip].
    exists [], l. split_and!; [done|constructor| |done]. unfold acceptable. by rewrite Ep, Em, orb_true_r.
  - rewrite Hs. cbn [negb]. exists [], l. split_and!; [done|constructor| |done]. unfold acceptable. by rewrite Ep, Ei.
Qed.

Lemma acquire_held glob probe config g p g' : acquire lower glob probe config g = (Ok p, g') ->
  held g p = false /\ claimed g' = dict_set p (name config) (claimed g).
Proof.
  unfold acquire. assert (Hl : forall l, acquire_loop lower probe config g l = (Ok p, g') -> p ∈ l /\ claimed g' = dict_set p (name config) (claimed g)).
  { intros l. induction l as [|q l IH]; cbn [acquire_loop]; [done|]. repeat case_match; try (intros H'; destruct (IH H'); split; [by right|done]); try done.
    intros [= <- <-]. split; [left|done]. }
  destruct (filter _ _) as [|q l] eqn:El; [done|]. rewrite <- El. intros [Hp ?]%Hl. by apply list_elem_of_filter in Hp as [? _].
Qed.

Definition agrees (wanted found : pystr) : Prop := folded lower wanted = [] \/ folded lower wanted = folded lower found.

(** The port's module is the one of this block: every identifier the block has
    is the module's, and it has one - or, without any, it is whatever answers. *)
Definition may_have (probe : pystr -> option ProbeResult) (config : DeviceConfig) (p : pystr) : Prop :=
  exists found, probe p = Some found
    /\ (identified config = true -> agrees (imei config) (p_imei found) /\ agrees (iccid config) (p_iccid found)
        /\ (folded lower (imei config) <> [] \/ folded lower (iccid config) <> [])).

Lemma matches_spec config found : _matches lower config found = true
  <-> agrees (imei config) (p_imei found) /\ agrees (iccid config) (p_iccid found)
      /\ (folded lower (imei config) <> [] \/ folded lower (iccid config) <> []).
Proof. unfold _matches, differs, agrees. repeat case_bool_decide; cbn; naive_solver. Qed.

Lemma acceptable_spec probe config p : acceptable probe config p = true <-> may_have probe config p.
Proof.
  unfold acceptable, may_have. destruct (probe p) as [found|]; [|split; [done|by intros (? & ? & _)]].
  rewrite orb_true_iff, negb_true_iff, matches_spec. split.
  - intros H. exists found. split; [done|]. destruct H; [congruence|done].
  - intros (f & [= <-] & H). destruct (identified config); [right|left]; auto.
Qed.

Lemma refused_spec probe config l : Forall (fun q => acceptable probe config q = false) l -> Forall (fun q => ~ may_have probe config q) l.
Proof. intros H. eapply Forall_impl; [exact H|]. cbn. intros q Hq. rewrite <- acceptable_spec. congruence. Qed.

(** A search claims the module that was asked for, or nothing.
    A worker with an identity, or the only one, gets the first port in order
    that nobody holds and whose module answers with that identity; when there
    is none it gets NoSuchDevice and the claims are as before. *)
Theorem acquire_spec (glob : list pystr) (probe : pystr -> option ProbeResult) (config : DeviceConfig) (g : PortRegistry) :
  identified config || sole_device g = true ->
  let free := filter (fun p => held g p = false) (sorted glob) in
  match acquire lower glob probe config g with
  | (Ok p, g') => exists pre post, free = pre ++ p :: post /\ Forall (fun q => ~ may_have probe config q) pre
                  /\ may_have probe config p
                  /\ (forall q, dict_get q (claimed g') = if bool_decide (q = p) then Some (name config) else dict_get q (claimed g))
  | (Err e, g') => g' = g /\ Forall (fun q => ~ may_have probe config q) free
  end.
Proof.
  intros Hs free. unfold acquire. fold free. destruct free as [|q l] eqn:Ef; [by split; [|constructor]|]. rewrite <- Ef.
  pose proof (acquire_loop_spec probe config g free Hs) as H. destruct (acquire_loop lower probe config g free) as [[p|e] g'];
    [|destruct H as (_ & ? & H); split; [done|by apply refused_spec]].
  destruct H as (pre & post & E & Hpre & Ha & ->). exists pre, post. split_and!; [done|by apply refused_spec|by apply acceptable_spec|]. intros k. cbn. case_bool_decide as Hk.
  - subst k. apply dict_get_set.
  - by apply dict_get_set_ne.
Qed.

(** ** Workers and ports *)

(** The registry and the port each worker has taken ([_port], while it is
    connecting or connected). *)
Record desk := mkDesk { registry : PortRegistry; hands : gmap (list Z) pystr }.

(** [block n] is the device block of the worker named [n], configured or
    adopted. *)
Context (block : list Z -> option DeviceConfig).

Definition pinned_worker (n : list Z) : bool := match block n with Some config => is_pinned config | None => false end.

(** [_connect] takes a port (or fails), [_teardown] gives it back; a pinned
    worker goes to its own port and never asks the registry. *)
Inductive moves : desk -> desk -> Prop :=
| moves_connect d n config glob probe p g : block n = Some config -> name config = n -> is_pinned config = false ->
    hands d !! n = None -> acquire lower glob probe config (registry d) = (Ok p, g) ->
    moves d (mkDesk g (<[n := p]> (hands d)))
| moves_fail d n config glob probe e g : block n = Some config -> is_pinned config = false ->
    acquire lower glob probe config (registry d) = (Err e, g) -> moves d (mkDesk g (hands d))
| moves_pinned d n config : block n = Some config -> is_pinned config = true ->
    moves d (mkDesk (registry d) (<[n := port config]> (hands d)))
| moves_teardown d n p : hands d !! n = Some p ->
    moves d (mkDesk (if pinned_worker n then registry d else release p (registry d)) (delete n (hands d))).

Definition opened (sole : bool) : desk := mkDesk (mkRegistry [] sole) ∅.

Definition searching (n : list Z) : Prop := pinned_worker n = false.

(** The registry names the searching worker that has the port. *)
Definition desk_ok (d : desk) : Prop :=
  dict_wf (claimed (registry d))
  /\ forall n p, searching n /\ hands d !! n = Some p <-> dict_get p (claimed (registry d)) = Some n.

Lemma acquire_err glob probe config g e g' : acquire lower glob probe config g = (Err e, g') -> g' = g.
Proof.
  unfold acquire. assert (Hl : forall l, acquire_loop lower probe config g l = (Err e, g') -> g' = g).
  { intros l. induction l as [|q l IH]; cbn [acquire_loop]; [by intros [= _ ->]|]. repeat case_match; try done. by intros [= _ ->]. }
  destruct (filter _ _) as [|q l]; [by intros [= _ ->]|apply Hl].
Qed.

Lemma moves_ok d d' : moves d d' -> desk_ok d -> desk_ok d'.
Proof.
  intros Hm [Hw Hi]. destruct Hm as [d n0 config glob probe p g Hb Hname Hpin Hn Ha|d n0 config glob probe e g _ _ Ha|d n0 config Hb Hpin|d n p Hp].
  - destruct (acquire_held _ _ _ _ _ _ Ha) as [Hfree E]. rewrite Hname in E. assert (Hs : searching n0) by (unfold searching, pinned_worker; by rewrite Hb).
    unfold desk_ok. cbn. rewrite E. split; [by apply dict_set_wf|]. intros n q.
    unfold held in Hfree. destruct (dict_get p (claimed (registry d))) eqn:Ep; [done|].
    destruct (decide (q = p)) as [->|Hqp].
    + rewrite dict_get_set. destruct (decide (n = n0)) as [->|Hnn].
      * rewrite lookup_insert_eq. done.
      * rewrite lookup_insert_ne by done. rewrite Hi, Ep. split; [done|congruence].
    + rewrite dict_get_set_ne by done. rewrite <- Hi. destruct (decide (n = n0)) as [->|Hnn].
      * rewrite lookup_insert_eq, Hn. split; [intros [_ ?]; congruence|by intros [_ ?]].
      * by rewrite lookup_insert_ne.
  - by rewrite (acquire_err _ _ _ _ _ _ Ha).
  - unfold desk_ok. cbn. split; [done|]. intros n q. rewrite <- Hi.
    destruct (decide (n = n0)) as [->|Hnn]; [|by rewrite lookup_insert_ne].
    assert (~ searching n0) by (unfold searching, pinned_worker; rewrite Hb; congruence). tauto.
  - unfold desk_ok. cbn. destruct (pinned_worker n) eqn:Epin.
    + split; [done|]. intros m q. rewrite <- Hi. destruct (decide (m = n)) as [->|Hmn]; [|by rewrite lookup_delete_ne].
      unfold searching. rewrite Epin. split; by intros [? _].
    + cbn. split; [by apply dict_del_wf|]. intros m q. destruct (decide (q = p)) as [->|Hqp].
      * rewrite dict_get_del by done. split; [|done]. intros [Hs Hm]. exfalso. apply lookup_delete_Some in Hm as [Hne Hm].
        assert (Hx : dict_get p (claimed (registry d)) = Some m) by by apply Hi.
        assert (Hy : dict_get p (claimed (registry d)) = Some n) by by apply Hi. congruence.
      * rewrite dict_get_del_ne by done. rewrite <- Hi. rewrite lookup_delete_Some. split; [tauto|]. intros [Hs Hm]. split_and!; [done| |done].
        intros ->. congruence.
Qed.

Lemma desk_reachable sole d : rtc moves (opened sole) d -> desk_ok d.
Proof.
  intros H. assert (H0 : desk_ok (opened sole)) by (split; [constructor|intros n p; cbn; rewrite lookup_empty; split; [by intros [_ ?]|done]]).
  induction H; eauto using moves_ok.
Qed.

(** *** Surveys *)

Lemma survey_in held_then pinned probe reserved ports : forall seen r, r ∈ survey_loop lower held_then pinned probe reserved seen ports ->
  (exists p, p ∈ ports /\ held_then p = false /\ p ∉ pinned /\ probe p = Some r)
  /\ Forall (fun c => _matches lower c r = false) reserved /\ forall i, _identity_key lower r = Some i -> i ∉ seen.
Proof.
  induction ports as [|p ports IH]; intros seen r; cbn [survey_loop]; [by intros ?%elem_of_nil|].
  assert (Hskip : forall seen', (forall i, i ∈ seen -> i ∈ seen') -> r ∈ survey_loop lower held_then pinned probe reserved seen' ports ->
    (exists q, q ∈ p :: ports /\ held_then q = false /\ q ∉ pinned /\ probe q = Some r)
    /\ Forall (fun c => _matches lower c r = false) reserved /\ forall i, _identity_key lower r = Some i -> i ∉ seen).
  { intros seen' Hss Hr. destruct (IH _ _ Hr) as ((q & ? & ?) & ? & Hi). split_and!; [exists q; split; [by right|done]|done|].
    intros i E Hin. apply (Hi i E). auto. }
  destruct (held_then p) eqn:Eh; [by apply Hskip|]. case_bool_decide as Hpin; [by apply Hskip|]. cbn [orb].
  destruct (probe p) as [found|] eqn:Ep; [|by apply Hskip]. destruct (existsb _ reserved) eqn:Er; [by apply Hskip|].
  assert (Hres : Forall (fun c => _matches lower c found = false) reserved).
  { apply Forall_forall. intros c Hc. apply not_true_iff_false. intros Hm. apply not_true_iff_false in Er. apply Er.
    apply existsb_exists. exists c. by rewrite <- list_elem_of_In. }
  assert (Hhere : (exists q, q ∈ p :: ports /\ held_then q = false /\ q ∉ pinned /\ probe q = Some found)) by (exists p; split; [left|done]).
  destruct (_identity_key lower found) as [i|] eqn:Ei.
  - case_bool_decide as Hseen; [by apply Hskip|]. intros [->|Hr]%elem_of_cons; [|apply (Hskip (i :: seen)); [by right|done]].
    split_and!; [done|done|]. rewrite Ei. by intros j [= <-].
  - intros [->|Hr]%elem_of_cons; [|by apply (Hskip seen)]. split_and!; [done|done|]. by rewrite Ei.
Qed.

Lemma survey_identities held_then pinned probe reserved ports : forall seen,
  NoDup (omap (_identity_key lower) (survey_loop lower held_then pinned probe reserved seen ports)).
Proof.
  induction ports as [|p ports IH]; intros seen; cbn [survey_loop]; [constructor|].
  repeat case_match; try apply IH; cbn; [|rewrite H2; apply IH]. rewrite H2. constructor; [|apply IH].
  intros (r & Hr & Ei)%list_elem_of_omap. apply survey_in in Hr as (_ & _ & Hs). apply (Hs _ Ei). left.
Qed.

(** Every module in reach that nobody has a block for is reported once. *)
Lemma survey_complete held_then pinned probe reserved ports : forall seen p r i, p ∈ ports -> held_then p = false -> p ∉ pinned ->
  probe p = Some r -> Forall (fun c => _matches lower c r = false) reserved -> _identity_key lower r = Some i -> i ∉ seen ->
  i ∈ omap (_identity_key lower) (survey_loop lower held_then pinned probe reserved seen ports).
Proof.
  induction ports as [|q ports IH]; intros seen p r i Hp Hh Hpin Hpr Hres Hi Hs; [by apply elem_of_nil in Hp|]. cbn [survey_loop].
  apply elem_of_cons in Hp as [<-|Hp].
  - rewrite Hh, bool_decide_eq_false_2, Hpr by done. cbn [orb].
    assert (existsb (fun c => _matches lower c r) reserved = false) as ->.
    { apply not_true_iff_false. intros (c & Hc & Hm)%existsb_exists. rewrite <- list_elem_of_In in Hc. rewrite Forall_forall in Hres. by rewrite Hres in Hm. }
    rewrite Hi, bool_decide_eq_false_2 by done. cbn. rewrite Hi. left.
  - assert (Hgo : forall seen', i ∉ seen' -> i ∈ omap (_identity_key lower) (survey_loop lower held_then pinned probe reserved seen' ports)) by (intros; by eapply IH).
    repeat case_match; try by apply Hgo.
    + cbn. rewrite H2. destruct (decide (i = l)) as [->|Hne]; [left|]. right. apply Hgo. set_solver.
    + cbn. rewrite H2. by apply Hgo.
Qed.

(** C27 (safety): no two workers that search hold the same port.  However the
    workers' searches, failures and teardowns follow one another, those of
    pinned workers in between, the registry names for each port the one
    searching worker that has it and no other; so two workers without a port in
    their blocks never have the same one, a search never ends on a port that
    such a worker has, and a survey reports no module on the strength of such a
    port, nor of a port a block names.  A pinned worker goes to its port without
    asking: nothing keeps another pinned worker, or a search, from the same
    port (see [pinned_ports_are_shared]). *)
Theorem ports_are_exclusive (sole : bool) (d : desk) :
  rtc moves (opened sole) d ->
  (forall m n p, searching m -> searching n -> hands d !! m = Some p -> hands d !! n = Some p -> m = n)
  /\ (forall n p, searching n /\ hands d !! n = Some p <-> dict_get p (claimed (registry d)) = Some n)
  /\ (forall glob probe config p g, acquire lower glob probe config (registry d) = (Ok p, g) ->
       forall n, searching n -> hands d !! n <> Some p)
  /\ (forall glob realpath probe reserved r, r ∈ survey lower glob realpath (held (registry d)) probe reserved ->
       exists p, probe p = Some r /\ (forall n, searching n -> hands d !! n <> Some p)
         /\ (forall c, c ∈ reserved -> is_pinned c = true -> p <> realpath (port c))).
Proof.
  intros Hr. destruct (desk_reachable sole d Hr) as [_ Hd].
  assert (Hfree : forall p n, held (registry d) p = false -> searching n -> hands d !! n <> Some p).
  { intros p n Hh Hs Hn. unfold held in Hh. by rewrite (proj1 (Hd n p) (conj Hs Hn)) in Hh. }
  split_and!.
  - intros m n p Hm Hn Em En. assert (Hx := proj1 (Hd m p) (conj Hm Em)). assert (Hy := proj1 (Hd n p) (conj Hn En)). congruence.
  - exact Hd.
  - intros glob probe config p g [Hh _]%acquire_held n. by apply Hfree.
  - intros glob realpath probe reserved r ((p & _ & Hh & Hpin & Hp) & _)%survey_in. exists p. split_and!; [done|intros n; by apply Hfree|].
    intros c Hc Hcp ->. apply Hpin. apply list_elem_of_fmap. exists c. split; [done|]. by apply list_elem_of_filter.
Qed.

#[local] Instance text_order_total : Total text_order.
Proof. intros a b. apply text_le_total. Qed.

(** A survey reports strangers, each once.  What it reports
    answered on a port of the glob that nobody held and no block names, and no
    device block - configured or adopted - would accept it; and every such
    module that tells its identity is reported exactly once, on whichever of
    its ports. *)
Theorem survey_reports_strangers (glob : list pystr) (realpath : pystr -> pystr) (held_then : pystr -> bool)
    (probe : pystr -> option ProbeResult) (reserved : list DeviceConfig) :
  let found := survey lower glob realpath held_then probe reserved in
  let open_port p := p ∈ glob /\ held_then p = false /\ forall d, d ∈ reserved -> is_pinned d = true -> p <> realpath (port d) in
  (forall r, r ∈ found -> (exists p, open_port p /\ probe p = Some r) /\ forall c, c ∈ reserved -> _matches lower c r = false)
  /\ NoDup (omap (_identity_key lower) found)
  /\ (forall p r i, open_port p -> probe p = Some r -> (forall c, c ∈ reserved -> _matches lower c r = false) ->
      _identity_key lower r = Some i -> i ∈ omap (_identity_key lower) found).
Proof.
  intros found open_port. assert (Hsort : forall p, p ∈ sorted glob <-> p ∈ glob) by (intros p; unfold sorted; by rewrite merge_sort_Permutation).
  assert (Hpin : forall p, p ∉ (fun d => realpath (port d)) <$> filter (fun d => is_pinned d = true) reserved
    <-> forall d, d ∈ reserved -> is_pinned d = true -> p <> realpath (port d)).
  { intros p. rewrite list_elem_of_fmap. split.
    - intros H d Hd Hp ->. apply H. exists d. split; [done|]. by apply list_elem_of_filter.
    - intros H (d & -> & [Hp Hd]%list_elem_of_filter). by apply (H d). }
  split_and!; [|apply survey_identities|].
  - intros r ((p & Hp & Hh & Hn & Hr) & Hres & _)%survey_in. split; [|by rewrite Forall_forall in Hres].
    exists p. split; [|done]. split_and!; [by apply Hsort|done|by apply Hpin].
  - intros p r i (Hg & Hh & Hp) Hpr Hres Hi. apply (survey_complete _ _ _ _ _ [] p r i); [by apply Hsort|done|by apply Hpin|done|by apply Forall_forall|done|].
    apply not_elem_of_nil.
Qed.

(** ** Adoptions *)

(** [str.lower] of the empty string. *)
Context (lower_nil : lower [] = []).

Record adopted_ok (a : app) : Prop := {
  ok_names : NoDup (names a);
  ok_new : forall d i, d ∈ adopted a -> _device_identity lower d = Some i -> i ∉ omap (_device_identity lower) (configured a);
  ok_distinct : NoDup (omap (_device_identity lower) (adopted a)) }.

Lemma adopt_ok found a : adopted_ok a -> adopted_ok (_adopt lower found a).
Proof.
  intros [Hn Hnew Hd]. unfold _adopt. destruct (_identity_key lower found) as [i|] eqn:Ei; [|done].
  destruct (existsb _ _) eqn:Ex; [done|]. apply not_true_iff_false in Ex.
  assert (Hout : forall d, d ∈ configured a ++ adopted a -> _device_identity lower d <> Some i).
  { intros d Hin E. apply Ex. apply existsb_exists. exists d. rewrite <- list_elem_of_In. split; [done|]. by apply bool_decide_eq_true. }
  pose proof (App.adopted_name_stable (p_imei found) (p_iccid found) (names a) (store a)) as Hname.
  destruct (App.name_for _ _ _ _) as [n s]. destruct Hname as (Hfresh & _).
  assert (Hid : forall j, _device_identity lower (adopted_device n found) = Some j -> j = i).
  { intros j Hj. unfold _device_identity, _identity_key, keyed in *. cbn [imei iccid adopted_device] in Hj.
    destruct (folded lower (p_imei found)) as [|c r]; [|rewrite Ei in Hj; by injection Hj].
    unfold folded in Hj. change (strip []) with (@nil Z) in Hj. by rewrite lower_nil in Hj. }
  assert (Hone : forall j, j ∈ omap (_device_identity lower) [adopted_device n found] -> j = i).
  { intros j (d & ->%list_elem_of_singleton & Hj)%list_elem_of_omap. by apply Hid. }
  split; cbn [names adopted configured].
  - apply NoDup_app. split_and!; [done| |apply NoDup_singleton]. intros m Hm ->%list_elem_of_singleton. done.
  - intros d j Hd' Hj. apply elem_of_app in Hd' as [Hd'| ->%list_elem_of_singleton]; [by eapply Hnew|]. rewrite (Hid j Hj).
    intros (c & Hc & Ec)%list_elem_of_omap. apply (Hout c); [apply elem_of_app; by left|done].
  - rewrite omap_app. apply NoDup_app. split_and!; [done| |].
    + intros j (c & Hc & Ec)%list_elem_of_omap Hj%Hone. subst j. apply (Hout c); [apply elem_of_app; by right|done].
    + cbn. destruct (_device_identity lower (adopted_device n found)); [apply NoDup_singleton|constructor].
Qed.

Lemma adopt_all_ok l : forall seen a, adopted_ok a -> adopted_ok (adopt_all lower seen l a).
Proof.
  induction l as [|found l IH]; intros seen a Ha; cbn [adopt_all]; [done|]. repeat case_match; auto using adopt_ok.
Qed.

(** A pass over what some glob, probes and claims show; anything else the agent
    does leaves these lists alone. *)
Inductive pass : app -> app -> Prop :=
| pass_once glob realpath held_then probe a : pass a (_autodetect_once lower glob realpath held_then probe a).

Lemma adopt_configured found a : configured (_adopt lower found a) = configured a.
Proof. unfold _adopt. repeat case_match; done. Qed.

Lemma adopt_all_configured l : forall seen a, configured (adopt_all lower seen l a) = configured a.
Proof.
  induction l as [|found l IH]; intros seen a; cbn [adopt_all]; [done|]. repeat case_match; rewrite IH; auto using adopt_configured.
Qed.

Lemma passes_ok a a' : rtc pass a a' -> adopted_ok a -> adopted_ok a' /\ configured a' = configured a.
Proof.
  induction 1 as [|a b c Hp _ IH]; [done|]. intros Ha.
  assert (Hb : adopted_ok b /\ configured b = configured a).
  { destruct Hp as [glob realpath held_then probe a]. unfold _autodetect_once. case_match; [done|].
    split; [by apply adopt_all_ok|apply adopt_all_configured]. }
  destruct Hb as [Hb E]. destruct (IH Hb) as [Hc Ec]. split; [done|congruence].
Qed.

(** A module with an IMEI gets one worker.  However many times
    the agent looks round and whatever the ports answer, no two adopted devices
    have the same identity, none has the identity of a configured device, and
    no two workers share a name. *)
Theorem adopted_once (devices : list DeviceConfig) (s : Store.LocalStore) (a : app) :
  NoDup (name <$> devices) -> rtc pass (mkApp devices [] (name <$> devices) s []) a ->
  NoDup (omap (_device_identity lower) (adopted a))
  /\ (forall d i, d ∈ adopted a -> _device_identity lower d = Some i -> i ∉ omap (_device_identity lower) devices)
  /\ NoDup (names a).
Proof.
  intros Hn Hr. assert (H0 : adopted_ok (mkApp devices [] (name <$> devices) s [])) by (split; cbn; [done|by intros d i ?%elem_of_nil|constructor]).
  destruct (passes_ok _ _ Hr H0) as [[H1 H2 H3] Hc]. rewrite Hc in H2. by split_and!.
Qed.
End Claims.

(** ** Configurations *)

Section Parsed.
Context (py_str : json -> pystr) (int_of : json -> option Z).

Lemma parse_devices_ok many entries : forall seen ds, parse_devices py_str int_of many seen entries = Ok ds ->
  length ds = length entries /\ NoDup (name <$> ds) /\ (forall d, d ∈ ds -> name d ∉ seen)
  /\ (many = true -> forall d, d ∈ ds -> is_pinned d = true \/ identified d = true).
Proof.
  induction entries as [|entry entries IH]; intros seen ds; cbn [parse_devices].
  - intros [= <-]. split_and!; [done|constructor|by intros d ?%elem_of_nil|by intros _ d ?%elem_of_nil].
  - intros H. inv_ok. match goal with H : parse_devices _ _ _ _ _ = Ok _ |- _ => destruct (IH _ _ H) as (Hl & Hn & Hs & Hm) end.
    match goal with H : negb (bool_decide (_ ∈ seen)) = true |- _ => apply negb_true_iff, bool_decide_eq_false in H; rename H into Hnew end.
    match goal with H : negb (_ && many) = true |- _ => rename H into Hid end.
    split_and!.
    + cbn. by rewrite Hl.
    + cbn. constructor; [|done]. intros (d & E & Hd)%list_elem_of_fmap. apply (Hs d Hd). rewrite <- E. left.
    + intros d [->|Hd]%elem_of_cons; [done|]. intros Hin. apply (Hs d Hd). by right.
    + intros Ht d [->|Hd]%elem_of_cons; [|by apply Hm]. unfold is_pinned, identified. cbn. rewrite Ht, andb_true_r in Hid.
      apply negb_true_iff in Hid. destruct (bool_decide (strip (text_field py_str "port" [] entry) = [])); [|by left]. right.
      cbn in Hid. destruct (bool_decide (strip (text_field py_str "imei" [] entry) = [])), (bool_decide (strip (text_field py_str "iccid" [] entry) = [])); done.
Qed.

(** The registry never has to refuse a configured device.  A
    configuration that parses names its devices apart, and each of them is
    pinned to a port, has an identity, or is the only one - so that a search on
    its behalf ends with a port or with no such module, never with the refusal
    to guess. *)
Theorem configured_never_refused (lower : pystr -> pystr) (autodetect : bool) (entries : list frame) (devices : list DeviceConfig)
    (d : DeviceConfig) (glob : list pystr) (probe : pystr -> option ProbeResult) (claims : pydict pystr pystr) :
  parse py_str int_of autodetect entries = Ok devices -> d ∈ devices ->
  NoDup (name <$> devices)
  /\ (is_pinned d = true
      \/ (acquire lower glob probe d (mkRegistry claims (length devices =? 1)%nat)).1 <> Err RefusesToGuess).
Proof.
  unfold parse. intros H Hd. inv_ok. match goal with H : parse_devices _ _ _ _ _ = Ok _ |- _ => destruct (parse_devices_ok _ _ _ _ H) as (Hl & Hn & _ & Hm) end.
  split; [done|]. destruct (is_pinned d) eqn:Ep; [by left|]. right.
  assert (Hs : identified d || (length devices =? 1)%nat = true).
  { destruct (Nat.eqb_spec (length devices) 1) as [|Hne]; [apply orb_true_r|]. rewrite orb_false_r.
    destruct (Hm ltac:(apply Nat.ltb_lt; destruct devices as [|? []]; cbn in *; [by apply elem_of_nil in Hd|lia|lia]) d Hd) as [H'|H']; congruence. }
  set (g := mkRegistry claims (length devices =? 1)%nat). unfold acquire. destruct (filter _ _) as [|q l]; [done|].
  pose proof (acquire_loop_spec lower probe d g (q :: l) Hs) as Ha. destruct (acquire_loop lower probe d g (q :: l)) as [[p|e] g']; [done|].
  destruct Ha as [-> _]. done.
Qed.
End Parsed.

(** ** Witnesses *)

Definition low (s : pystr) : pystr := (fun c => if (65 <=? c) && (c <=? 90) then c + 32 else c) <$> s.
Definition block_of (n i : string) : DeviceConfig := mkDevice (str n) [] (str i) [] (str "SM") [] 115200 true 0.
Definition acm (n : Z) : pystr := str "/dev/ttyACM" ++ decimal n.

(** Two modules: the first on ACM0, the second on ACM1 and ACM2. *)
Definition two_modules (p : pystr) : option ProbeResult :=
  if bool_decide (p = acm 0) then Some (mkProbe p (str "Air780E") (str "860001") [])
  else if bool_decide (p = acm 1 \/ p = acm 2) then Some (mkProbe p (str "Air780E") (str "860002") [])
  else None.

Definition second_claimed : PortRegistry := (acquire low [acm 2; acm 1; acm 0; acm 3] two_modules (block_of "m2" "860002") (mkRegistry [] false)).2.

Lemma acquire_spec_witness :
  acquire low [acm 2; acm 1; acm 0; acm 3] two_modules (block_of "m2" "860002") (mkRegistry [] false) = (Ok (acm 1), second_claimed)
  /\ exists pre post, filter (fun p => held (mkRegistry [] false) p = false) (sorted [acm 2; acm 1; acm 0; acm 3]) = pre ++ acm 1 :: post
     /\ Forall (fun q => ~ may_have low two_modules (block_of "m2" "860002") q) pre
     /\ may_have low two_modules (block_of "m2" "860002") (acm 1)
     /\ (forall q, dict_get q (claimed second_claimed) = if bool_decide (q = acm 1) then Some (str "m2") else None).
Proof.
  split; [by vm_compute|].
  exact (acquire_spec low [acm 2; acm 1; acm 0; acm 3] two_modules (block_of "m2" "860002") (mkRegistry [] false) eq_refl).
Defined.

Definition two_blocks (n : list Z) : option DeviceConfig :=
  if bool_decide (n = str "m2") then Some (block_of "m2" "860002") else if bool_decide (n = str "m1") then Some (block_of "m1" "860001") else None.
Definition one_busy : desk := mkDesk second_claimed {[str "m2" := acm 1]}.

Lemma ports_are_exclusive_witness :
  searching two_blocks (str "m2") /\ hands one_busy !! str "m2" = Some (acm 1)
  /\ (forall m n p, searching two_blocks m -> searching two_blocks n -> hands one_busy !! m = Some p -> hands one_busy !! n = Some p -> m = n)
  /\ (forall n p, searching two_blocks n /\ hands one_busy !! n = Some p <-> dict_get p (claimed (registry one_busy)) = Some n).
Proof.
  split; [by vm_compute|]. split; [by vm_compute|].
  destruct (ports_are_exclusive low two_blocks false one_busy) as (H1 & H2 & _); [|by split].
  eapply rtc_l; [|done].
  exact (moves_connect low two_blocks (opened false) (str "m2") (block_of "m2" "860002") [acm 2; acm 1; acm 0; acm 3] two_modules (acm 1) second_claimed
    eq_refl eq_refl eq_refl eq_refl eq_refl).
Defined.

(** Two blocks that name one port are accepted, and so is a block that searches
    beside one that names its port: both pairs of workers end up with the same
    port in hand. *)
Definition pinned_block (n : string) : DeviceConfig := mkDevice (str n) (acm 1) [] [] (str "SM") [] 115200 true 0.
Definition shared_entries : list frame :=
  [[(str "name", JStr (str "a")); (str "port", JStr (acm 1))]; [(str "name", JStr (str "b")); (str "port", JStr (acm 1))];
   [(str "name", JStr (str "m2")); (str "imei", JStr (str "860002"))]].
Definition three_blocks (n : list Z) : option DeviceConfig :=
  List.find (fun d => bool_decide (name d = n)) [pinned_block "a"; pinned_block "b"; block_of "m2" "860002"].

Example pinned_ports_are_shared :
  match parse (fun _ => []) (fun _ => None) false shared_entries with
  | Ok ds => map (fun d => (name d, port d)) ds = [(str "a", acm 1); (str "b", acm 1); (str "m2", [])]
  | Err _ => False
  end
  /\ exists d, rtc (moves low three_blocks) (opened false) d
     /\ hands d !! str "a" = Some (acm 1) /\ hands d !! str "b" = Some (acm 1) /\ hands d !! str "m2" = Some (acm 1).
Proof.
  split; [by vm_compute|]. eexists. split.
  - eapply rtc_l; [by apply (moves_pinned low three_blocks (opened false) (str "a") (pinned_block "a"))|].
    eapply rtc_l; [by apply (moves_pinned low three_blocks _ (str "b") (pinned_block "b"))|].
    eapply rtc_l; [|apply rtc_refl].
    by apply (moves_connect low three_blocks _ (str "m2") (block_of "m2" "860002") [acm 2; acm 1; acm 0; acm 3] two_modules (acm 1) second_claimed).
  - split_and!; by vm_compute.
Qed.

Definition nothing_held (_ : pystr) : bool := false.
Definition start : app := mkApp [block_of "m1" "860001"] [] [str "m1"] fresh_db [].
Definition looked : app := _autodetect_once low [acm 0; acm 1; acm 2] id nothing_held two_modules start.

Lemma adopted_once_witness :
  (name <$> adopted looked) = [str "auto-860002"]
  /\ (NoDup (omap (_device_identity low) (adopted looked))
      /\ (forall d i, d ∈ adopted looked -> _device_identity low d = Some i -> i ∉ omap (_device_identity low) [block_of "m1" "860001"])
      /\ NoDup (names looked)).
Proof.
  split; [by vm_compute|].
  apply (adopted_once low eq_refl [block_of "m1" "860001"] fresh_db looked).
  - apply NoDup_singleton.
  - eapply rtc_l; [|done]. apply (pass_once low [acm 0; acm 1; acm 2] id nothing_held two_modules start).
Defined.

Definition no_text (_ : json) : pystr := [].
Definition ints (v : json) : option Z := match v with JInt n => Some n | _ => None end.
Definition one_entry : list frame := [[(str "name", JStr (str "m1"))]].
Definition only : DeviceConfig := block_of "m1" "".

Lemma configured_never_refused_witness :
  parse no_text ints true one_entry = Ok [only]
  /\ NoDup (name <$> [only])
  /\ (is_pinned only = true \/ (acquire low [acm 0] two_modules only (mkRegistry [] (length [only] =? 1)%nat)).1 <> Err RefusesToGuess).
Proof.
  split; [by vm_compute|].
  apply (configured_never_refused no_text ints low true one_entry [only] only [acm 0] two_modules []); [by vm_compute|left].
Defined.

(** A module whose firmware gives no IMEI is adopted without the ICCID that
    identified it: the new device has no identity, so every pass adopts the
    module once more, under another name... *)
Definition nameless (p : pystr) : option ProbeResult :=
  if bool_decide (p = acm 0) then Some (mkProbe p (str "Air780E") [] (str "89860001")) else None.
Definition pass_again (a : app) : app := _autodetect_once low [acm 0] id nothing_held nameless a.

Example iccid_only_adopted_again :
  (name <$> adopted (pass_again (pass_again (pass_again start)))) = [str "auto-860001"; str "auto-860001-2"; str "auto-860001-3"]
  /\ omap (_device_identity low) (adopted (pass_again start)) = [].
Proof. by vm_compute. Qed.

(** ... and, beside a single configured device, the nameless worker may take
    any module that answers, the configured one included. *)
Example nameless_worker_guesses :
  let nameless_worker := adopted_device (str "auto-860001") (mkProbe (acm 0) [] [] (str "89860001")) in
  (acquire low [acm 0; acm 1] two_modules nameless_worker (mkRegistry [] true)).1 = Ok (acm 0)
  /\ _matches low (block_of "m1" "860001") (mkProbe (acm 0) (str "Air780E") (str "860001") []) = true.
Proof. by vm_compute. Qed.

End Discovery.
