(* ===== verification/Targets.v ===== *)
(** * Addressing a module (server/src/hub_server/api.py, gateway.py)

    The routes of the API that name a module: commands to it by its row id or by
    its name, a text or an AT command in a body, keep-alive tasks, and the
    operations an administrator submits; and the frames they put on the wire,
    which App.v reads at the other end.  What the request models of pydantic
    accept is a [valid_] predicate here.  The tables are a state that one database
    worker changes, a route's calls at a time; the answers of the gateway
    (Registry.v, Operations.v) come in as values, and the push that follows every
    write of a task is TaskSync.v's. *)

From S2P Require Import Prelude PyText PyDict Json Store App TaskSync Fleet Operations.

Module Targets.

(** ** Refusals: an [HTTPException], or an exception that is answered with a 500 *)

Inductive http := HTTP (status : Z) (detail : json) | Crash (e : Fleet.exn).

Definition no_such_device : http := HTTP 404 (JStr (str "no such device")).
Definition device_required : http := HTTP 422 (JStr (str "device or device_id is required")).
Definition no_such_task : http := HTTP 404 (JStr (str "no such task")).

(** ** The modules *)

(** A row of [devices] joined with its card; a NULL identity is the empty text. *)
Record module_row := mkModule { m_row : TaskSync.device_row; m_imei : pystr; m_iccid : pystr }.

Definition m_id (m : module_row) : Z := TaskSync.dv_id (m_row m).
Definition m_agent (m : module_row) : pystr := TaskSync.dv_agent (m_row m).
Definition m_name (m : module_row) : pystr := TaskSync.dv_name (m_row m).

(** The target of a row, with as much of its identity as the query selects. *)
Definition target_of (imei iccid : bool) (m : module_row) : Operations.target :=
  Operations.mkTarget (m_id m) (m_agent m) (m_name m) (if imei then m_imei m else []) (if iccid then m_iccid m else []).

(** A parameter of a statement: SQLite's integers have 64 bits. *)
Definition bound (n : Z) : res http unit := guard_err (Fleet.fits_int64 n) (Crash Fleet.OverflowError).

Definition device_by_id (id : Z) (t : list module_row) : res http Operations.target :=
  _ ← bound id;
  of_option no_such_device (target_of true true <$> List.find (fun m => m_id m =? id) t).

Definition agent_le (a b : module_row) : Prop := text_le (m_agent a) (m_agent b) = true.
#[export] Instance agent_le_total : Total agent_le.
Proof. intros a b. apply text_le_total. Qed.
#[export] Instance agent_le_dec a b : Decision (agent_le a b).
Proof. unfold agent_le. apply _. Defined.

Definition devices_named (name : pystr) (t : list module_row) : list module_row :=
  merge_sort agent_le (filter (fun m => m_name m = name) t).

Definition ambiguous_device (name : pystr) (rows : list module_row) : http :=
  HTTP 409 (JObj
    [ (str "error", JStr (str "ambiguous_device_name"));
      (str "message", JStr (decimal (Z.of_nat (length rows)) ++ (str " " ++ [0x53F0] ++ str " Agent " ++ [0x90FD; 0x6709; 0x540D; 0x4E3A] ++ str " ") ++ name
         ++ (str " " ++ [0x7684; 0x6A21; 0x7EC4; 0xFF0C; 0x65E0; 0x6CD5; 0x5224; 0x65AD; 0x6307; 0x5411; 0x54EA; 0x4E00; 0x4E2A; 0xFF1B; 0x8BF7; 0x6539; 0x7528; 0x6A21; 0x7EC4] ++ str " ID " ++ [0x5BFB; 0x5740; 0x3002])));
      (str "candidates", JArr ((fun m => JObj [(str "device_id", JInt (m_id m)); (str "agent_id", JStr (m_agent m))]) <$> rows)) ]).

Definition device_by_name (name : pystr) (t : list module_row) : res http Operations.target :=
  match devices_named name t with
  | [] => Err no_such_device
  | [m] => Ok (target_of false false m)
  | rows => Err (ambiguous_device name rows)
  end.

(** A [DeviceRef]: the name is empty when the body leaves it out. *)
Definition body_device (device : pystr) (device_id : option Z) (t : list module_row) : res http Operations.target :=
  match device_id with
  | Some id => device_by_id id t
  | None => if bool_decide (device = []) then Err device_required else device_by_name device t
  end.

(** ** Commands to a module *)

Inductive request :=
| Refresh
| SetRadio (enabled : bool)
| SetData (enabled : bool)
| SetRoamingData (allowed : bool)
| ScanOperators
| SelectOperator (numeric : option pystr)
| NetworkDiagnostics
| Ussd (body : pydict pystr pystr).

(** [OperatorSelectionBody]'s pattern: five or six ASCII digits. *)
Definition numeric_pattern (s : pystr) : bool :=
  forallb App.ascii_digit s && ((length s =? 5)%nat || (length s =? 6)%nat).
Definition valid_request (r : request) : bool :=
  match r with SelectOperator (Some s) => numeric_pattern s | _ => true end.

Definition ussd_code (body : pydict pystr pystr) : res http pystr :=
  let code := strip (default [] (dict_get (str "code") body)) in
  if bool_decide (code = []) then Err (HTTP 400 (JStr (str "code is required"))) else Ok code.

Definition command (type : string) (fields : frame) : frame := (str "type", JStr (str type)) :: fields.

Definition frame_of (r : request) : res http frame :=
  match r with
  | Refresh => Ok (command "query" [(str "what", JStr (str "status"))])
  | SetRadio b => Ok (command "set_radio" [(str "enabled", JBool b)])
  | SetData b => Ok (command "set_data" [(str "enabled", JBool b)])
  | SetRoamingData b => Ok (command "set_roaming_data" [(str "allowed", JBool b)])
  | ScanOperators => Ok (command "scan_operators" [])
  | SelectOperator n => Ok (command "select_operator" [(str "numeric", jopt_str n)])
  | NetworkDiagnostics => Ok (command "network_diagnostics" [])
  | Ussd body => code ← ussd_code body; Ok (command "ussd" [(str "code", JStr code)])
  end.

Definition timeout_of (r : request) : Z :=
  match r with
  | Refresh | SetRadio _ => 30
  | SetData _ | SetRoamingData _ | Ussd _ => 60
  | ScanOperators | SelectOperator _ => 210
  | NetworkDiagnostics => 165
  end.

(** What [_device_call] hands to [_call]: the agent, the frame, the timeout. *)
Definition outgoing : Type := pystr * frame * Z.
Definition device_call (tg : Operations.target) (f : frame) (timeout : Z) : outgoing :=
  (Operations.tg_agent_id tg, dict_set (str "device") (JStr (Operations.tg_name tg)) f, timeout).

(** The routes come in pairs, /devices/by-id/{device_id}/... and /devices/{name}/... *)
Inductive address := ById (id : Z) | ByName (name : pystr).
Definition resolve (a : address) (t : list module_row) : res http Operations.target :=
  match a with ById id => device_by_id id t | ByName name => device_by_name name t end.

Definition device_route (a : address) (r : request) (t : list module_row) : res http outgoing :=
  tg ← resolve a t; f ← frame_of r; Ok (device_call tg f (timeout_of r)).

Record sms_body := mkSms { sb_device : pystr; sb_device_id : option Z; sb_number : pystr; sb_body : pystr }.
Definition within (low high : nat) (s : pystr) : bool := (low <=? length s)%nat && (length s <=? high)%nat.
Definition valid_sms (b : sms_body) : bool := within 1 32 (sb_number b) && within 1 2000 (sb_body b).

Definition sms_frame (number body : pystr) : frame :=
  command "send_sms" [(str "number", JStr number); (str "body", JStr body)].
Definition send_message (b : sms_body) (t : list module_row) : res http outgoing :=
  tg ← body_device (sb_device b) (sb_device_id b) t; Ok (device_call tg (sms_frame (sb_number b) (sb_body b)) 30).

Record at_body := mkAt { ab_device : pystr; ab_device_id : option Z; ab_command : pystr }.
Definition valid_at (b : at_body) : bool := within 2 200 (ab_command b).
Definition raw_at (b : at_body) (t : list module_row) : res http outgoing :=
  tg ← body_device (ab_device b) (ab_device_id b) t; Ok (device_call tg (command "raw_at" [(str "command", JStr (ab_command b))]) 30).

(** *** On the wire *)

(** [call] to an agent without durable commands. *)
Definition plain_frame (cmd_id : pystr) (f : frame) : frame := dict_set (str "cmd_id") (JStr cmd_id) f.

(** [call] to one with them: the row the operation is about, [None] when
    there is none ([AgentUnavailable]). *)
Definition call_target (agent : pystr) (f : frame) (task_device : json) (t : list module_row) : option Operations.target :=
  let device := if jis "run_task" (jget "type" f) then task_device else jget "device" f in
  name ← as_str device;
  target_of false false <$> List.find (fun m => bool_decide (m_agent m = agent) && bool_decide (m_name m = name)) t.

(** What the dispatcher sends of a claimed operation. *)
Definition dispatched (o : Operations.operation) : frame :=
  foldl (fun d kv => dict_set kv.1 kv.2 d) (Operations.o_frame o)
    [ (str "device", JStr (Operations.o_device o)); (str "cmd_id", JStr (Operations.o_id o));
      (str "result_token", JStr (Operations.o_result_token o)); (str "deadline", JStr (Operations.o_deadline o));
      (str "run_id", JStr (Operations.o_id o)); (str "expected_imei", JStr (Operations.o_expected_imei o));
      (str "expected_iccid", JStr (Operations.o_expected_iccid o)) ].

(** One look of [wait_operation] at the row; [None] is another round. *)
Definition command_failed : Type := pystr * option pystr.   (* the error, the operation *)
Definition status_text (st : Operations.status) : pystr :=
  match st with
  | Operations.Queued => str "queued" | Operations.Running => str "running" | Operations.Succeeded => str "succeeded"
  | Operations.Failed => str "failed" | Operations.Unknown => str "unknown" | Operations.Cancelled => str "cancelled"
  end.
Definition wait_operation (o : Operations.operation) : option (res command_failed frame) :=
  let id := Operations.o_id o in
  match Operations.o_status o with
  | Operations.Queued | Operations.Running => None
  | Operations.Succeeded =>
      let result := match Operations.o_result o with JObj d => d | _ => [] end in
      Some (Ok (dict_set (str "status_url") (JStr (str "/api/operations/" ++ id)) (dict_set (str "operation_id") (JStr id) result)))
  | st =>
      let error := match Operations.o_error o with JStr (c :: s) => c :: s | _ => str "command failed" end in
      Some (Err (status_text st ++ str ": " ++ error, Some id))
  end.

(** [_call]'s answers. *)
Inductive call_exn := AgentUnavailable (message : pystr) | CommandFailed (e : command_failed).
Definition call_http (r : res call_exn frame) : res http frame :=
  match r with
  | Ok d => Ok d
  | Err (AgentUnavailable m) => Err (HTTP 503 (JStr m))
  | Err (CommandFailed (e, _)) => Err (HTTP 502 (JStr e))
  end.

(** ** Keep-alive tasks *)

Record task_body := mkTaskBody {
  tb_name : pystr; tb_sim_id : option Z; tb_device : pystr; tb_device_id : option Z; tb_agent_id : pystr;
  tb_enabled : bool; tb_action : pystr; tb_target_number : pystr; tb_content : pystr;
  tb_schedule_type : pystr; tb_schedule_expr : pystr; tb_jitter_seconds : Z;
  tb_random_suffix : bool; tb_retry_max : Z; tb_notify_on_result : bool }.

Definition valid_task (b : task_body) : bool :=
  bool_decide (tb_action b ∈ str <$> ["send_sms"; "ping"; "raw_at"; "voice_call"]%string)
  && bool_decide (tb_schedule_type b ∈ str <$> ["interval"; "cron"]%string)
  && (0 <=? tb_jitter_seconds b) && (tb_jitter_seconds b <=? 86400) && (0 <=? tb_retry_max b) && (tb_retry_max b <=? 10).

(** A row of [tasks], what its runs write back aside. *)
Record task_row := mkTaskRow { tr_task : TaskSync.server_task; tr_sim : option Z; tr_created : Z }.
Record task_table := mkTasks { tt_rows : list task_row; tt_seq : Z }.
Definition tr_id (r : task_row) : Z := TaskSync.st_id (tr_task r).

(** The columns of [_task_fields], as the row with the id they are written to. *)
Definition task_fields (b : task_body) (t : list module_row) : res http (Z -> TaskSync.server_task) :=
  '(device_id, agent, name) ←
     (match tb_device_id b with
      | Some id => tg ← device_by_id id t; Ok (Some (Operations.tg_id tg), Operations.tg_agent_id tg, Operations.tg_name tg)
      | None =>
          if bool_decide (tb_device b = []) then Err device_required
          else match devices_named (tb_device b) t with
               | [] => Ok (None, tb_agent_id b, tb_device b)
               | [m] => Ok (Some (m_id m), m_agent m, m_name m)
               | rows => Err (ambiguous_device (tb_device b) rows)
               end
      end);
  Ok (fun id => TaskSync.mkServerTask id agent device_id
        (Store.mkTaskSpec name (tb_name b) (tb_enabled b) (tb_action b) (tb_target_number b) (tb_content b) (tb_schedule_type b)
           (tb_schedule_expr b) (tb_jitter_seconds b) (tb_random_suffix b) (tb_retry_max b) (tb_notify_on_result b))).

(** [tasks.sim_id REFERENCES sims(id)], when a row is written with it. *)
Definition card_reference (sim : option Z) (sims : list Z) : res http unit :=
  match sim with
  | None => Ok tt
  | Some n => guard_err (bool_decide (n ∈ sims)) (Crash Fleet.IntegrityError)
  end.
Definition bound_card (sim : option Z) : res http unit := match sim with Some n => bound n | None => Ok tt end.

Definition create_task (b : task_body) (now : Z) (t : list module_row) (sims : list Z) (tt : task_table) : res http (task_row * task_table) :=
  fields ← task_fields b t;
  _ ← bound_card (tb_sim_id b);
  _ ← card_reference (tb_sim_id b) sims;
  let id := tt_seq tt + 1 in
  let row := mkTaskRow (fields id) (tb_sim_id b) now in
  Ok (row, mkTasks (tt_rows tt ++ [row]) id).

Definition find_task (id : Z) (tt : task_table) : option task_row := List.find (fun r => tr_id r =? id) (tt_rows tt).

Definition update_task (id : Z) (b : task_body) (t : list module_row) (sims : list Z) (tt : task_table) : res http (task_row * task_table) :=
  fields ← task_fields b t;
  _ ← bound_card (tb_sim_id b);
  _ ← bound id;
  match find_task id tt with
  | None => Err no_such_task
  | Some old =>
      _ ← card_reference (tb_sim_id b) sims;
      let row := mkTaskRow (fields id) (tb_sim_id b) (tr_created old) in
      Ok (row, mkTasks ((fun r => if tr_id r =? id then mkTaskRow (fields id) (tb_sim_id b) (tr_created r) else r) <$> tt_rows tt) (tt_seq tt))
  end.

Definition delete_task (id : Z) (tt : task_table) : res http task_table :=
  _ ← bound id; Ok (mkTasks (filter (fun r => tr_id r <> id) (tt_rows tt)) (tt_seq tt)).

(** [if not agent_id]: the next way of finding the agent. *)
Definition or_agent (agent : pystr) (next : res http pystr) : res http pystr := match agent with [] => next | _ => Ok agent end.

Definition task_agent (id : Z) (t : list module_row) (tt : task_table) : res http pystr :=
  _ ← bound id;
  row ← of_option no_such_task (find_task id tt);
  let task := tr_task row in
  agent ← or_agent (TaskSync.st_agent task)
            (match TaskSync.st_device_id task with
             | Some d => if d =? 0 then Ok [] else tg ← device_by_id d t; Ok (Operations.tg_agent_id tg)
             | None => Ok []
             end);
  agent ← or_agent agent (tg ← device_by_name (Store.t_device (TaskSync.st_spec task)) t; Ok (Operations.tg_agent_id tg));
  or_agent agent (Err (HTTP 503 (JStr (str "task device has no agent")))).

(** [/tasks/{task_id}/run]; [revision] is what [push_tasks] returned. *)
Definition with_revision (revision : option pystr) (f : frame) : frame :=
  match revision with Some r => dict_set (str "revision") (JStr r) f | None => f end.
Definition run_task (id : Z) (revision : option pystr) (t : list module_row) (tt : task_table) : res http outgoing :=
  agent ← task_agent id t tt;
  Ok (agent, with_revision revision (command "run_task" [(str "task_id", JInt id)]), 30).

(** ** Operations *)

Inductive command_type := OpScan | OpDiagnostics | OpSendSms | OpRunTask.
#[export] Instance command_type_eq_dec : EqDecision command_type.
Proof. solve_decision. Defined.
Definition type_text (c : command_type) : string :=
  match c with OpScan => "scan_operators" | OpDiagnostics => "network_diagnostics" | OpSendSms => "send_sms" | OpRunTask => "run_task" end.

Record operation_body := mkOperationBody {
  ob_type : command_type; ob_device_id : option Z; ob_task_id : option Z;
  ob_number : option pystr; ob_body : option pystr; ob_key : pystr }.

Definition optionally {A} (p : A -> bool) (o : option A) : bool := match o with Some a => p a | None => true end.
Definition key_char (c : Z) : bool :=
  ((97 <=? c) && (c <=? 122)) || ((65 <=? c) && (c <=? 90)) || App.ascii_digit c || bool_decide (c ∈ str "_.:-").

Definition given {A} (o : option A) : bool := bool_decide (is_Some o).

Definition validate_command (b : operation_body) : bool :=
  let kind c := bool_decide (ob_type b = c) in
  (if kind OpRunTask then given (ob_task_id b) && negb (given (ob_device_id b))
   else given (ob_device_id b) && negb (given (ob_task_id b)))
  && (if kind OpSendSms then given (ob_number b) && given (ob_body b)
      else negb (given (ob_number b)) && negb (given (ob_body b))).

Definition valid_operation (b : operation_body) : bool :=
  optionally (Z.ltb 0) (ob_device_id b) && optionally (Z.ltb 0) (ob_task_id b)
  && optionally (fun n => within 1 32 n && forallb App.dialable n) (ob_number b)
  && optionally (within 1 2000) (ob_body b)
  && within 8 128 (ob_key b) && forallb key_char (ob_key b)
  && validate_command b.

(** A statement with NULL for the id selects nothing. *)
Definition operation_target (b : operation_body) (t : list module_row) (tt : task_table) : res http (Operations.target * frame) :=
  match ob_type b with
  | OpRunTask =>
      id ← of_option no_such_task (ob_task_id b);
      agent ← task_agent id t tt;
      row ← of_option no_such_task (find_task id tt);
      tg ← of_option (HTTP 404 (JStr (str "task device does not exist")))
             (target_of true false <$> List.find (fun m => bool_decide (m_agent m = agent)
                && bool_decide (m_name m = Store.t_device (TaskSync.st_spec (tr_task row)))) t);
      Ok (tg, command "run_task" [(str "task_id", JInt id)])
  | c =>
      id ← of_option no_such_device (ob_device_id b);
      tg ← device_by_id id t;
      Ok (tg, match c with
              | OpSendSms => sms_frame (default [] (ob_number b)) (default [] (ob_body b))
              | _ => command (type_text c) []
              end)
  end.

Definition operation_timeout (c : command_type) : Z :=
  match c with OpScan => 210 | OpDiagnostics => 165 | OpSendSms => 180 | OpRunTask => 210 end.

(** The frame [create_operation] submits. *)
Definition submitted (b : operation_body) (revision : option pystr) (f : frame) : frame :=
  if bool_decide (ob_type b = OpRunTask) then with_revision revision f else f.

Definition operation_view (o : Operations.operation) : frame :=
  let id := JStr (Operations.o_id o) in
  [ (str "id", id); (str "device_id", JInt (Operations.o_device_id o)); (str "agent_id", JStr (Operations.o_agent_id o));
    (str "device", JStr (Operations.o_device o)); (str "command_type", jget "type" (Operations.o_frame o));
    (str "status", JStr (status_text (Operations.o_status o))); (str "deadline", JStr (Operations.o_deadline o));
    (str "result", Operations.o_result o); (str "error", Operations.o_error o);
    (str "created_at", JStr (Operations.o_created_at o));
    (str "operation_id", id); (str "status_url", JStr (str "/api/operations/" ++ Operations.o_id o));
    (str "run_id", if jis "run_task" (jget "type" (Operations.o_frame o)) then id else JNull) ].

(** [submit_operation]'s answers, and the route's. *)
Inductive submit_exn := Unavailable (message : pystr) | Stored (e : Operations.op_exn).
Definition create_operation (r : res submit_exn Operations.operation) : res http frame :=
  match r with
  | Ok o => Ok (operation_view o)
  | Err (Unavailable m) => Err (HTTP 503 (JStr m))
  | Err (Stored Operations.OperationConflict) => Err (HTTP 409 (JStr (str "idempotency key already used with another request")))
  | Err (Stored Operations.OperationQueueFull) => Err (HTTP 429 (JStr (str "command queue is full")))
  | Err (Stored Operations.IntegrityError) => Err (Crash Fleet.IntegrityError)
  end.

Definition get_operation (id : pystr) (ops : list Operations.operation) : res http frame :=
  of_option (HTTP 404 (JStr (str "no such operation"))) (operation_view <$> Operations.find_id id ops).

Definition cancel_operation (id : pystr) (ops : list Operations.operation) : res http frame * list Operations.operation :=
  match get_operation id ops with
  | Err e => (Err e, ops)
  | Ok _ =>
      let '(cancelled, ops) := Operations.cancel_operation id ops in
      (if cancelled then get_operation id ops
       else Err (HTTP 409 (JStr (str "only an undispatched operation can be cancelled"))), ops)
  end.

(** ** Which module is meant *)

(** Row ids and (agent, name) pairs are unique. *)
Record modules_ok (t : list module_row) : Prop := {
  mo_ids : NoDup (m_id <$> t);
  mo_keys : NoDup ((fun m => (m_agent m, m_name m)) <$> t) }.

Definition addresses (a : address) (m : module_row) (t : list module_row) : Prop :=
  match a with
  | ById id => m_id m = id
  | ByName name => m_name m = name /\ forall m', m' ∈ t -> m_name m' = name -> m' = m
  end.

Lemma find_elem {A} (p : A -> bool) l x : List.find p l = Some x -> x ∈ l /\ p x = true.
Proof. intros H. apply List.find_some in H as [Hx Hp]. split; [by apply list_elem_of_In|done]. Qed.

(** The row [find] gives is any other with the same key. *)
Lemma find_unique {A K} `{EqDecision K} (key : A -> K) (p : A -> bool) l x :
  NoDup (key <$> l) -> x ∈ l -> (forall y, p y = true <-> key y = key x) -> List.find p l = Some x.
Proof.
  intros Hn Hx Hp. induction l as [|y l IH]; [by apply elem_of_nil in Hx|]. cbn in *. apply NoDup_cons in Hn as [Hy Hn].
  apply elem_of_cons in Hx as [->|Hx]; [by rewrite (proj2 (Hp y) eq_refl)|].
  destruct (p y) eqn:E; [|by apply IH]. apply Hp in E. exfalso. apply Hy. rewrite E. by apply list_elem_of_fmap_2.
Qed.

Lemma device_by_id_ok id t tg : device_by_id id t = Ok tg ->
  Fleet.fits_int64 id = true /\ exists m, m ∈ t /\ m_id m = id /\ tg = target_of true true m.
Proof.
  unfold device_by_id, bound, guard_err. destruct (Fleet.fits_int64 id); [|done]. cbn.
  destruct (List.find _ t) as [m|] eqn:E; [|done]. intros [= <-]. apply find_elem in E as [Hm E]. split; [done|].
  exists m. split_and!; [done| |done]. by apply Z.eqb_eq in E.
Qed.

Lemma devices_named_perm name t : devices_named name t ≡ₚ filter (fun m => m_name m = name) t.
Proof. apply merge_sort_Permutation. Qed.

Lemma devices_named_one name t m : devices_named name t = [m] ->
  m ∈ t /\ m_name m = name /\ forall m', m' ∈ t -> m_name m' = name -> m' = m.
Proof.
  intros E. assert (H := devices_named_perm name t). rewrite E in H.
  assert (Hm : m ∈ filter (fun m => m_name m = name) t) by (rewrite <- H; apply list_elem_of_singleton; done).
  apply list_elem_of_filter in Hm as [Hn Hm]. split_and!; [done|done|]. intros m' Hm' Hn'.
  apply list_elem_of_singleton. rewrite H. by apply list_elem_of_filter.
Qed.

Lemma device_by_name_ok name t tg : device_by_name name t = Ok tg ->
  exists m, devices_named name t = [m] /\ tg = target_of false false m.
Proof. unfold device_by_name. destruct (devices_named name t) as [|m [|]]; try done. intros [= <-]. by exists m. Qed.

Lemma address_resolves a t tg : resolve a t = Ok tg ->
  exists m i, m ∈ t /\ addresses a m t /\ tg = target_of i i m.
Proof.
  destruct a as [id|name]; cbn.
  - intros (_ & m & ? & ? & ->)%device_by_id_ok. by exists m, true.
  - intros (m & E & ->)%device_by_name_ok. apply devices_named_one in E as (? & ? & ?). by exists m, false.
Qed.

Lemma body_device_resolves device device_id t tg : body_device device device_id t = Ok tg ->
  resolve (match device_id with Some id => ById id | None => ByName device end) t = Ok tg.
Proof. destruct device_id; [done|]. cbn. by case_bool_decide. Qed.

Lemma call_target_finds m f td t : modules_ok t -> m ∈ t -> jget "type" f <> JStr (str "run_task") ->
  jget "device" f = JStr (m_name m) -> call_target (m_agent m) f td t = Some (target_of false false m).
Proof.
  intros [_ Hk] Hm Ht Hd. unfold call_target. assert (E : jis "run_task" (jget "type" f) = false).
  { unfold jis. destruct (jget "type" f); try done. apply bool_decide_eq_false. congruence. }
  rewrite E, Hd. cbn [as_str mbind option_bind].
  rewrite (find_unique (fun m => (m_agent m, m_name m)) _ t m Hk Hm); [done|]. intros y.
  rewrite andb_true_iff, !bool_decide_eq_true. split; [by intros [-> ->]|by intros [= -> ->]].
Qed.

(** ** What the agent makes of a frame *)

(** [w] is the frame [f] to module [name] on the wire: as it is, or stored with
    an operation (as JSON, which keeps the bindings) and dispatched. *)
Definition sent (name : pystr) (f w : frame) : Prop :=
  (exists c, w = plain_frame c f)
  \/ exists o, (forall k, dict_get k (Operations.o_frame o) = dict_get k f) /\ Operations.o_device o = name /\ w = dispatched o.

(** A post to one of the routes above. *)
Inductive posted := Route (a : address) (r : request) | Send (b : sms_body) | At (b : at_body).

Definition route (p : posted) (t : list module_row) : res http outgoing :=
  match p with Route a r => device_route a r t | Send b => send_message b t | At b => raw_at b t end.
Definition valid (p : posted) : bool :=
  match p with Route _ r => valid_request r | Send b => valid_sms b | At b => valid_at b end.
Definition body_address (device : pystr) (device_id : option Z) : address :=
  match device_id with Some id => ById id | None => ByName device end.
Definition address_of (p : posted) : address :=
  match p with Route a _ => a | Send b => body_address (sb_device b) (sb_device_id b) | At b => body_address (ab_device b) (ab_device_id b) end.

Definition action_of (dev : pystr) (r : request) : App.action :=
  match r with
  | Refresh => App.Refresh dev false
  | SetRadio b => App.SetRadio dev b
  | SetData b => App.SetData dev b
  | SetRoamingData b => App.SetRoamingData dev b
  | ScanOperators => App.ScanOperators dev
  | SelectOperator n => App.SelectOperator dev n
  | NetworkDiagnostics => App.NetworkDiagnostics dev
  | Ussd body => App.Ussd dev (strip (default [] (dict_get (str "code") body)))
  end.

(** What it comes to on a module that is there: the API's checks of a text's
    number and of an AT command are weaker than the agent's. *)
Definition verdict (dev : pystr) (p : posted) : res App.failure App.action :=
  match p with
  | Route _ r => Ok (action_of dev r)
  | Send b =>
      if bool_decide (strip (sb_number b) = []) || negb (forallb App.dialable (strip (sb_number b)))
      then Err (App.BadValue (str "send_sms needs a valid number")) else Ok (App.SendSms dev (strip (sb_number b)) (sb_body b))
  | At b =>
      if bool_decide (strip (ab_command b) = []) then Err (App.BadValue (str "raw_at needs a command"))
      else Ok (App.RawAt dev (strip (ab_command b)))
  end.

Lemma plain_get k c f : k <> str "cmd_id" -> dict_get k (plain_frame c f) = dict_get k f.
Proof. apply dict_get_set_ne. Qed.

Definition DISPATCH_KEYS : list pystr :=
  str <$> ["device"; "cmd_id"; "result_token"; "deadline"; "run_id"; "expected_imei"; "expected_iccid"]%string.

Lemma dict_update_get {V} k (l : list (pystr * V)) : k ∉ l.*1 -> forall d,
  dict_get k (foldl (fun d kv => dict_set kv.1 kv.2 d) d l) = dict_get k d.
Proof.
  induction l as [|[k' v] l IH]; cbn; intros Hk d; [done|]. apply not_elem_of_cons in Hk as [Hk Hl].
  rewrite IH by done. by apply dict_get_set_ne.
Qed.

Lemma dispatched_get k o : k ∉ DISPATCH_KEYS -> dict_get k (dispatched o) = dict_get k (Operations.o_frame o).
Proof. intros Hk. by apply dict_update_get. Qed.

Lemma dispatched_field k o v : k ∈ DISPATCH_KEYS ->
  (k, v) ∈ [ (str "device", JStr (Operations.o_device o)); (str "cmd_id", JStr (Operations.o_id o));
      (str "result_token", JStr (Operations.o_result_token o)); (str "deadline", JStr (Operations.o_deadline o));
      (str "run_id", JStr (Operations.o_id o)); (str "expected_imei", JStr (Operations.o_expected_imei o));
      (str "expected_iccid", JStr (Operations.o_expected_iccid o)) ] ->
  dict_get k (dispatched o) = Some v.
Proof.
  intros _ Hv. unfold dispatched. set (l := [_; _; _; _; _; _; _]) in *.
  assert (Hn : NoDup l.*1) by (apply (bool_decide_eq_true_1 (NoDup DISPATCH_KEYS)); by vm_compute).
  clearbody l. generalize (Operations.o_frame o). induction l as [|[k' v'] l IH]; [by apply elem_of_nil in Hv|]. intros d.
  apply NoDup_cons in Hn as [Hk Hn]. cbn [foldl fst snd]. apply elem_of_cons in Hv as [[= -> ->]|Hv]; [|by apply IH].
  by rewrite dict_update_get, dict_get_set.
Qed.

Lemma sent_get name f w k : sent name f w -> k ∉ DISPATCH_KEYS -> dict_get k w = dict_get k f.
Proof.
  intros [[c ->]|(o & Hf & _ & ->)] Hk.
  - apply plain_get. intros ->. apply Hk. apply (bool_decide_eq_true_1 _). by vm_compute.
  - by rewrite dispatched_get, Hf.
Qed.

Lemma sent_device name f w : sent name f w -> jget "device" f = JStr name -> jget "device" w = JStr name.
Proof.
  unfold jget. intros [[c ->]|(o & Hf & <- & ->)] Hd.
  - by rewrite plain_get by (by vm_compute).
  - rewrite (dispatched_field (str "device") o (JStr (Operations.o_device o))); [done|left|left].
Qed.

(** What a handler reads of a frame, beyond the dispatcher's fields. *)
Definition reads (w : frame) (type : string) (name : pystr) (fields : frame) : Prop :=
  jget "type" w = JStr (str type) /\ jget "device" w = JStr name
  /\ forall k, k ∉ DISPATCH_KEYS -> k <> str "type" -> dict_get k w = dict_get k fields.

Lemma type_not_dispatched : str "type" ∉ DISPATCH_KEYS.
Proof. apply (bool_decide_eq_true_1 _). by vm_compute. Qed.

Lemma command_get k type fields : k <> str "type" -> dict_get k (command type fields) = dict_get k fields.
Proof. intros Ht. unfold command. cbn [dict_get]. by rewrite decide_False by done. Qed.

Lemma sent_fields name type fields w : sent name (dict_set (str "device") (JStr name) (command type fields)) w ->
  reads w type name fields.
Proof.
  intros Hs. split; [|split].
  - unfold jget. by rewrite (sent_get _ _ _ _ Hs type_not_dispatched).
  - apply (sent_device _ _ _ Hs). unfold jget. by rewrite dict_get_set.
  - intros k Hk Ht. rewrite (sent_get _ _ _ _ Hs Hk), dict_get_set_ne; [by apply command_get|]. intros ->. apply Hk. left.
Qed.

(** The frame of a submission, as stored; [dispatched] is what goes out. *)
Definition carries (f : frame) (name : pystr) (o : Operations.operation) : Prop :=
  (forall k, dict_get k (Operations.o_frame o) = dict_get k f) /\ Operations.o_device o = name /\ Operations.o_result_token o <> [].

Lemma carried_fields type fields name o : carries (command type fields) name o -> reads (dispatched o) type name fields.
Proof.
  intros (Hf & Hd & _). split; [|split].
  - unfold jget. by rewrite (dispatched_get _ _ type_not_dispatched), Hf.
  - unfold jget. rewrite (dispatched_field (str "device") o (JStr (Operations.o_device o))); [by rewrite Hd|left|left].
  - intros k Hk Ht. rewrite (dispatched_get _ _ Hk), Hf. by apply command_get.
Qed.

Section Reader.
Context (repr : json -> pystr) (task_revision : json -> pystr) (columns : frame -> Store.TaskSpec).
Context (max_queued : Z) (workers : pydict (list Z) App.worker).

Definition handled (w : frame) (s : Store.LocalStore) : option (res App.failure App.action * Store.LocalStore) :=
  k ← as_str (jget "type" w); h ← App.handler repr task_revision columns max_queued workers k; Some (h w s).

(** The answer where the module's worker is missing comes first. *)
Definition reached (name : pystr) (r : res App.failure App.action) : res App.failure App.action :=
  match dict_get name workers with
  | Some _ => r
  | None => Err (App.DeviceOffline (str "no such device: " ++ repr (JStr name)))
  end.

Lemma worker_named name w : jget "device" w = JStr name -> App.worker_of repr workers w =
  match dict_get name workers with
  | Some x => Ok (name, x)
  | None => Err (App.DeviceOffline (str "no such device: " ++ repr (JStr name)))
  end.
Proof.
  unfold App.worker_of. intros ->. replace (App.or_empty (JStr name)) with (JStr name) by (by destruct name).
  cbn [App.hashable negb as_str mbind option_bind]. by destruct (dict_get name workers).
Qed.

Lemma device_read name call w : jget "device" w = JStr name ->
  App.cmd_device repr workers call w = reached name (Ok (call name)).
Proof. intros Hd. unfold App.cmd_device, reached. rewrite (worker_named _ _ Hd). by destruct (dict_get name workers). Qed.

Lemma flag_read name field error call w b : jget "device" w = JStr name -> dict_get (str field) w = Some (JBool b) ->
  App.cmd_flag repr workers field error call w = reached name (Ok (call name b)).
Proof.
  intros Hd Hf. unfold App.cmd_flag, reached, jget at 1. rewrite (worker_named _ _ Hd), Hf. by destruct (dict_get name workers).
Qed.

Lemma text_read name field error call w v : jget "device" w = JStr name -> dict_get (str field) w = Some (JStr v) ->
  App.cmd_text repr workers field error call w
  = reached name (if bool_decide (strip v = []) then Err (App.BadValue (str error)) else Ok (call name (strip v))).
Proof.
  intros Hd Hf. unfold App.cmd_text, reached, jget_or. rewrite (worker_named _ _ Hd), Hf. by destruct (dict_get name workers).
Qed.

Lemma query_read name w : jget "device" w = JStr name -> dict_get (str "what") w = Some (JStr (str "status")) ->
  App.cmd_query repr workers w = reached name (Ok (App.Refresh name false)).
Proof.
  intros Hd Hf. unfold App.cmd_query, reached, jget_or. rewrite (worker_named _ _ Hd), Hf. by destruct (dict_get name workers).
Qed.

Lemma operator_read name w n : jget "device" w = JStr name -> dict_get (str "numeric") w = Some (jopt_str n) ->
  valid_request (SelectOperator n) = true ->
  App.cmd_select_operator repr workers w = reached name (Ok (App.SelectOperator name n)).
Proof.
  intros Hd Hf Hv. unfold App.cmd_select_operator, reached, jget at 1. rewrite (worker_named _ _ Hd), Hf.
  destruct n as [n|]; cbn [default jopt_str]; [|by destruct (dict_get name workers)].
  unfold valid_request, numeric_pattern in Hv. unfold id. cbv beta iota. rewrite Hv. by destruct (dict_get name workers).
Qed.

Lemma sms_read name w number body : jget "device" w = JStr name -> dict_get (str "number") w = Some (JStr number) ->
  dict_get (str "body") w = Some (JStr body) -> within 1 32 number = true -> within 1 2000 body = true ->
  App.cmd_send_sms repr workers w = reached name
    (if bool_decide (strip number = []) || negb (forallb App.dialable (strip number))
     then Err (App.BadValue (str "send_sms needs a valid number")) else Ok (App.SendSms name (strip number) body)).
Proof.
  intros Hd Hn Hb Hln Hlb. unfold App.cmd_send_sms, reached, jget_or. rewrite (worker_named _ _ Hd), Hn, Hb.
  destruct (dict_get name workers); [|done]. cbn [mbind res_bind default App.py_str id].
  unfold within in *. assert (Hl := strip_length number). assert (E : (32 <? Z.of_nat (length (strip number))) = false) by lia.
  rewrite E, orb_false_r. destruct (_ || _); [done|]. rewrite bool_decide_eq_false_2 by (intros ->; cbn in Hlb; lia).
  assert (E' : (2000 <? Z.of_nat (length body)) = false) by lia. by rewrite E'.
Qed.

Lemma handled_by type h w s : jget "type" w = JStr (str type) ->
  App.handler repr task_revision columns max_queued workers (str type) = Some h -> handled w s = Some (h w s).
Proof. intros Ht Hh. unfold handled. rewrite Ht. cbn [as_str mbind option_bind]. by rewrite Hh. Qed.

(** A field the dispatcher does not write is the frame's. *)
Ltac field H k := rewrite (H (str k)); [reflexivity|by apply (bool_decide_eq_true_1 (str k ∉ DISPATCH_KEYS)); vm_compute|by vm_compute].

Lemma command_read name r w s f : frame_of r = Ok f -> valid_request r = true ->
  sent name (dict_set (str "device") (JStr name) f) w -> handled w s = Some (reached name (Ok (action_of name r)), s).
Proof.
  intros Hf Hv Hs. destruct r as [|b|b|b| |n| |body]; cbn [frame_of] in Hf.
  8: { apply bind_ok in Hf as (code & Hcode & [= <-]). unfold ussd_code in Hcode. case_bool_decide as Hne; [done|]. injection Hcode as <-.
       apply sent_fields in Hs as (Ht & Hd & Hk). rewrite (handled_by _ _ _ s Ht eq_refl). do 2 f_equal.
       rewrite (text_read name _ _ _ _ (strip (default [] (dict_get (str "code") body))) Hd) by (field Hk "code").
       by rewrite strip_idem, bool_decide_eq_false_2. }
  all: injection Hf as <-; apply sent_fields in Hs as (Ht & Hd & Hk); rewrite (handled_by _ _ _ s Ht eq_refl); do 2 f_equal.
  - apply query_read; [done|field Hk "what"].
  - apply flag_read; [done|field Hk "enabled"].
  - apply flag_read; [done|field Hk "enabled"].
  - apply flag_read; [done|field Hk "allowed"].
  - by apply device_read.
  - apply operator_read; [done|field Hk "numeric"|done].
  - by apply device_read.
Qed.

Lemma posted_sms_read name b w s : valid_sms b = true ->
  sent name (dict_set (str "device") (JStr name) (sms_frame (sb_number b) (sb_body b))) w ->
  handled w s = Some (reached name (verdict name (Send b)), s).
Proof.
  intros [Hn Hb]%andb_prop Hs. apply sent_fields in Hs as (Ht & Hd & Hk).
  rewrite (handled_by _ _ _ s Ht eq_refl). do 2 f_equal. apply sms_read; [done|field Hk "number"|field Hk "body"|done|done].
Qed.

Lemma posted_at_read name b w s :
  sent name (dict_set (str "device") (JStr name) (command "raw_at" [(str "command", JStr (ab_command b))])) w ->
  handled w s = Some (reached name (verdict name (At b)), s).
Proof.
  intros Hs. apply sent_fields in Hs as (Ht & Hd & Hk).
  rewrite (handled_by _ _ _ s Ht eq_refl). do 2 f_equal. apply text_read; [done|field Hk "command"].
Qed.

(** C11 (functional): whatever is posted to a route that commands a module, if
    the route calls the gateway at all then with the agent and the name of one
    row of the table: the row with the id, or the only row of the name in the
    whole fleet; an agent with durable commands gets an operation about that
    same row.  And the agent's handler of that frame, however it was sent,
    asks for exactly the action posted, on the worker of that name (a number
    that cannot be dialled and an empty AT command are what it refuses). *)
Theorem routes_reach_their_module (p : posted) (t : list module_row) (agent : pystr) (f : frame) (timeout : Z) :
  modules_ok t -> valid p = true -> route p t = Ok (agent, f, timeout) ->
  exists m, m ∈ t /\ addresses (address_of p) m t /\ agent = m_agent m
    /\ (forall task_device, call_target agent f task_device t = Some (target_of false false m))
    /\ forall w s, sent (m_name m) f w -> handled w s = Some (reached (m_name m) (verdict (m_name m) p), s).
Proof.
  intros Ht Hv Hr.
  assert (exists tg f0 type, resolve (address_of p) t = Ok tg /\ agent = Operations.tg_agent_id tg
     /\ f = dict_set (str "device") (JStr (Operations.tg_name tg)) f0 /\ jget "type" f0 = JStr type /\ type <> str "run_task"
     /\ forall w s, sent (Operations.tg_name tg) f w -> handled w s = Some (reached (Operations.tg_name tg) (verdict (Operations.tg_name tg) p), s))
    as (tg & f0 & type & Htg & -> & -> & Hty & Hne & Hread).
  { destruct p as [a r|b|b]; cbn [route] in Hr; unfold device_route, send_message, raw_at in Hr; apply bind_ok in Hr as (tg & Htg & Hr).
    - apply bind_ok in Hr as (f0 & Hf0 & [= <- <- <-]). exists tg, f0, (default [] (as_str (jget "type" f0))). split_and!; try done.
      + destruct r; cbn in Hf0; inv_ok; try (injection Hf0 as <-); reflexivity.
      + destruct r; cbn in Hf0; inv_ok; try (injection Hf0 as <-); by vm_compute.
      + intros w s. by apply command_read.
    - injection Hr as <- <- <-. exists tg, (sms_frame (sb_number b) (sb_body b)), (str "send_sms"). split_and!; [by apply body_device_resolves|reflexivity|reflexivity|reflexivity|by vm_compute|].
      intros w s. by apply posted_sms_read.
    - injection Hr as <- <- <-. exists tg, (command "raw_at" [(str "command", JStr (ab_command b))]), (str "raw_at"). split_and!; [by apply body_device_resolves|reflexivity|reflexivity|reflexivity|by vm_compute|].
      intros w s. by apply posted_at_read. }
  destruct (address_resolves _ _ _ Htg) as (m & i & Hm & Ha & ->). exists m. split_and!; try done. intros td. apply call_target_finds; try done.
  - unfold jget. rewrite dict_get_set_ne by (by vm_compute). change (jget "type" f0 <> JStr (str "run_task")). rewrite Hty. congruence.
  - unfold jget. by rewrite dict_get_set.
Qed.

(** *** Operations *)

Definition snapshot (agent : pystr) (t : list module_row) (tt : task_table) : list json :=
  TaskSync.tasks_for agent (tr_task <$> tt_rows tt) (m_row <$> t).

(** What a submitted operation other than a task's run asks for. *)
Definition operation_action (dev : pystr) (b : operation_body) : App.action :=
  match ob_type b with
  | OpSendSms => App.SendSms dev (default [] (ob_number b)) (default [] (ob_body b))
  | OpDiagnostics => App.NetworkDiagnostics dev
  | _ => App.ScanOperators dev
  end.

Lemma or_agent_ok x next a : or_agent x next = Ok a -> x = a \/ x = [] /\ next = Ok a.
Proof. destruct x; cbn; [by right|]. intros [= <-]. by left. Qed.

Lemma find_module_row (p : TaskSync.device_row -> bool) (t : list module_row) : List.find p (m_row <$> t) = m_row <$> List.find (fun m => p (m_row m)) t.
Proof. induction t as [|m t IH]; [done|]. cbn. destruct (p (m_row m)); [done|exact IH]. Qed.

Lemma named_rows name (t : list module_row) : filter (fun d => TaskSync.dv_name d = name) (m_row <$> t) = m_row <$> filter (fun m => m_name m = name) t.
Proof.
  induction t as [|m t IH]; [done|]. rewrite fmap_cons, !filter_cons, IH. unfold m_name at 1.
  by repeat case_decide.
Qed.

(** A run is sent where the task's definition is: [_task_agent] and
    [tasks_for] find the same agent. *)
Lemma task_agent_owner id t tt agent : task_agent id t tt = Ok agent ->
  exists row, find_task id tt = Some row /\ TaskSync.owner (m_row <$> t) (tr_task row) = agent /\ agent <> [] /\ Fleet.fits_int64 id = true.
Proof.
  unfold task_agent, bound, guard_err. destruct (Fleet.fits_int64 id) eqn:Hb; [|done]. cbn [mbind res_bind].
  destruct (find_task id tt) as [row|]; [|done]. cbn [of_option mbind res_bind]. intros H. exists row. split; [done|].
  apply bind_ok in H as (a1 & H1 & H). apply bind_ok in H as (a2 & H2 & H3).
  assert (a2 = agent /\ agent <> []) as [-> Hne] by (destruct a2; [done|injection H3 as <-; done]). split_and!; [|done|done].
  unfold TaskSync.owner. set (task := tr_task row) in *.
  set (by_id := match TaskSync.st_agent task with [] => _ | _ => _ end).
  assert (E1 : by_id = a1).
  { unfold by_id. destruct (TaskSync.st_agent task) as [|c l]; cbn [or_agent] in H1; [|by injection H1].
    destruct (TaskSync.st_device_id task) as [d|]; [|by injection H1]. destruct (d =? 0); [by injection H1|].
    rewrite find_module_row. unfold device_by_id, bound, guard_err in H1. destruct (Fleet.fits_int64 d); [|done]. cbn [mbind res_bind] in H1.
    change (fun m => TaskSync.dv_id (m_row m) =? d) with (fun m => m_id m =? d). by destruct (List.find _ t); [injection H1|]. }
  rewrite E1. destruct a1 as [|c l]; [|by injection H2]. cbn [or_agent] in H2. unfold device_by_name in H2.
  unfold TaskSync.agent_for_device. rewrite named_rows.
  assert (Hp := devices_named_perm (Store.t_device (TaskSync.st_spec task)) t).
  destruct (devices_named _ t) as [|m [|]]; cbn in H2; [done| |done]. injection H2 as H2.
  apply Permutation_singleton_l in Hp. rewrite <- Hp. exact H2.
Qed.

Lemma snapshot_spec agent t tt row : NoDup (tr_id <$> tt_rows tt) -> row ∈ tt_rows tt ->
  TaskSync.owner (m_row <$> t) (tr_task row) = agent -> (forall x, columns (TaskSync.task_dict x) = TaskSync.st_spec x) ->
  TaskSync.specs_of columns (snapshot agent t tt) !! tr_id row = Some (TaskSync.st_spec (tr_task row)).
Proof.
  intros Hn Hr Ho Hc. unfold TaskSync.specs_of, snapshot, TaskSync.tasks_for.
  set (l := TaskSync.owned agent _ _). replace (_ <$> (App.incoming_of columns <$> _)) with ((fun x => (TaskSync.st_id x, TaskSync.st_spec x)) <$> l).
  2: { rewrite <- !list_fmap_compose. apply list_fmap_ext. intros k x _. unfold compose. cbn. by rewrite Hc. }
  apply elem_of_list_to_map_1.
  - rewrite <- list_fmap_compose. change (fst ∘ _) with TaskSync.st_id. eapply sublist_NoDup; [|apply fmap_filter_sublist].
    by rewrite <- list_fmap_compose.
  - apply (list_elem_of_fmap_2 (fun x => (TaskSync.st_id x, TaskSync.st_spec x)) l (tr_task row)). apply list_elem_of_filter. split; [done|]. by apply list_elem_of_fmap_2.
Qed.

Lemma dialable_strip number : forallb App.dialable number = true -> strip number = number.
Proof.
  intros Hdial. apply strip_by_none, Forall_forall. intros c Hc.
  rewrite forallb_forall in Hdial. assert (H := Hdial c (proj1 (list_elem_of_In _ _) Hc)). unfold App.dialable in H.
  apply bool_decide_eq_true in H. apply bool_decide_eq_false. intros Hsp. revert H.
  apply (proj1 (Forall_forall (fun c => c ∉ str "+0123456789*#") SPACES)); [|exact Hsp].
  apply (bool_decide_eq_true_1 _). by vm_compute.
Qed.

Lemma sms_carried name number body o s : within 1 32 number && forallb App.dialable number = true -> within 1 2000 body = true ->
  carries (sms_frame number body) name o ->
  handled (dispatched o) s = Some (reached name (Ok (App.SendSms name number body)), s).
Proof.
  intros [Hn Hdial]%andb_prop Hb Hc. apply carried_fields in Hc as (Ht & Hd & Hk).
  rewrite (handled_by _ _ _ s Ht eq_refl). do 2 f_equal.
  rewrite (sms_read name _ number body Hd) by (first [field Hk "number" | field Hk "body" | done]).
  rewrite (dialable_strip _ Hdial), Hdial. rewrite bool_decide_eq_false_2; [done|]. by intros ->.
Qed.

Lemma run_carried name id revision row o s : carries (with_revision revision (command "run_task" [(str "task_id", JInt id)])) name o ->
  Fleet.fits_int64 id = true -> Store.get Store.TASK_REVISION_KEY s = revision -> is_Some revision ->
  Store.tasks s !! id = Some row -> Store.t_device (Store.t_spec row) = name ->
  handled (dispatched o) s = Some (Ok (App.RunManual id (JStr (Operations.o_id o))), s).
Proof.
  intros Hc Hid Hrev [r ->] Hrow Hdev. assert (Htok := proj2 (proj2 Hc)).
  change (with_revision _ _) with (command "run_task" [(str "task_id", JInt id); (str "revision", JStr r)]) in Hc.
  assert (Hrun : dict_get (str "run_id") (dispatched o) = Some (JStr (Operations.o_id o))) by (apply dispatched_field; do 4 right; left).
  assert (Hcmd : dict_get (str "cmd_id") (dispatched o) = Some (JStr (Operations.o_id o))) by (apply dispatched_field; right; left).
  assert (Htk : dict_get (str "result_token") (dispatched o) = Some (JStr (Operations.o_result_token o))) by (apply dispatched_field; do 2 right; left).
  apply carried_fields in Hc as (Ht & Hd & Hk). rewrite (handled_by _ _ _ s Ht eq_refl). do 2 f_equal. unfold App.cmd_run_task.
  assert (Hti : jget "task_id" (dispatched o) = JInt id) by (unfold jget; field Hk "task_id").
  assert (Hre : dict_get (str "revision") (dispatched o) = Some (JStr r)) by (field Hk "revision").
  rewrite Hti, Hd, Hrev, Hrun. unfold jhas, jget. rewrite Hre, Hcmd, Htk, Hrun. unfold Store.task. rewrite Hrow, Hdev.
  unfold App.sqlite_int. unfold Fleet.fits_int64 in Hid. rewrite Hid. unfold Datatypes.id. cbn [default py_eq jopt_str truthy negb].
  rewrite (bool_decide_eq_false_2 (_ = [])) by done. repeat rewrite bool_decide_eq_true_2 by (done || by eexists). done.
Qed.

(** C12 (safety): a submission that the API takes is one the agent understands.
    Its target is a row of the table.  A scan, a diagnosis and a text reach the
    worker of that module as asked: the agent never refuses the number or the
    body that the API has let through.  A task's run goes to the agent that
    owns the task's definition, and once that agent has applied the snapshot
    pushed before the submission, its handler starts that very task under the
    operation's id. *)
Theorem submitted_operations_understood (b : operation_body) (t : list module_row) (tt : task_table) (tg : Operations.target)
    (f : frame) (revision : option pystr) (o : Operations.operation) (s : Store.LocalStore) :
  (forall x, columns (TaskSync.task_dict x) = TaskSync.st_spec x) -> NoDup (tr_id <$> tt_rows tt) ->
  valid_operation b = true -> operation_target b t tt = Ok (tg, f) -> carries (submitted b revision f) (Operations.tg_name tg) o ->
  exists m, m ∈ t /\ Operations.tg_id tg = m_id m /\ Operations.tg_agent_id tg = m_agent m /\ Operations.tg_name tg = m_name m /\
  if decide (ob_type b = OpRunTask)
  then exists row, row ∈ tt_rows tt /\ ob_task_id b = Some (tr_id row) /\ TaskSync.owner (m_row <$> t) (tr_task row) = m_agent m
       /\ (revision = Some (task_revision (JArr (snapshot (m_agent m) t tt))) ->
           Store.get Store.TASK_REVISION_KEY s = revision -> TaskSync.specs s = TaskSync.specs_of columns (snapshot (m_agent m) t tt) ->
           handled (dispatched o) s = Some (Ok (App.RunManual (tr_id row) (JStr (Operations.o_id o))), s))
  else handled (dispatched o) s = Some (reached (m_name m) (Ok (operation_action (m_name m) b)), s).
Proof.
  intros Hcol Hn Hv Ht Hc. unfold valid_operation in Hv. apply andb_prop in Hv as [Hv Hcmd].
  apply andb_prop in Hv as [Hv _]. apply andb_prop in Hv as [Hv _]. apply andb_prop in Hv as [Hv Hbody]. apply andb_prop in Hv as [Hv Hnumber].
  unfold operation_target in Ht. case_decide as Hty.
  - rewrite Hty in Ht. apply bind_ok in Ht as (id & Hid & Ht). apply bind_ok in Ht as (agent & Ha & Ht).
    apply bind_ok in Ht as (row & Hrow & Ht). apply bind_ok in Ht as (tg' & Htg & [= -> <-]).
    destruct (ob_task_id b) as [id'|] eqn:Eid; [injection Hid as ->|done].
    destruct (task_agent_owner _ _ _ _ Ha) as (row' & Hf & Ho & _ & Hfit). rewrite Hf in Hrow. injection Hrow as ->.
    apply find_elem in Hf as [Hrow Ei%Z.eqb_eq]. destruct (List.find _ t) as [m|] eqn:Em; [|done]. injection Htg as <-.
    apply find_elem in Em as [Hm [Eg%bool_decide_eq_true En%bool_decide_eq_true]%andb_prop]. exists m. split_and!; try done.
    exists row. split_and!; [done|by rewrite Ei|by rewrite Ho|]. intros Hrev Hkey Hsp. rewrite Ei.
    assert (Hlk : Store.t_spec <$> Store.tasks s !! tr_id row = Some (TaskSync.st_spec (tr_task row))).
    { rewrite <- lookup_fmap. change (TaskSync.specs s !! tr_id row = Some (TaskSync.st_spec (tr_task row))). rewrite Hsp. apply snapshot_spec; [done|done|by rewrite Ho|done]. }
    rewrite Ei in Hlk. destruct (Store.tasks s !! id) as [st|] eqn:Es; [|done]. injection Hlk as Hlk.
    unfold submitted in Hc. rewrite bool_decide_eq_true_2 in Hc by done.
    eapply run_carried; [exact Hc|done|done|by rewrite Hrev; eexists|done|]. by rewrite Hlk.
  - assert (exists id, device_by_id id t = Ok tg /\ f = match ob_type b with
         | OpSendSms => sms_frame (default [] (ob_number b)) (default [] (ob_body b)) | c => command (type_text c) [] end) as (id & Hd & Hf).
    { destruct (ob_type b); try done; apply bind_ok in Ht as (id & _ & Ht); apply bind_ok in Ht as (tg' & Hd & [= -> <-]); by exists id. }
    apply device_by_id_ok in Hd as (_ & m & Hm & _ & ->). exists m. split_and!; try done.
    unfold submitted in Hc. rewrite bool_decide_eq_false_2 in Hc by done. rewrite Hf in Hc. clear Hf. unfold operation_action.
    unfold validate_command, given in Hcmd. apply andb_prop in Hcmd as [_ Hcmd]. destruct (ob_type b) eqn:E; [| | |done].
    + apply carried_fields in Hc as (Hk & Hd & _). rewrite (handled_by _ _ _ s Hk eq_refl). do 2 f_equal. by apply device_read.
    + apply carried_fields in Hc as (Hk & Hd & _). rewrite (handled_by _ _ _ s Hk eq_refl). do 2 f_equal. by apply device_read.
    + destruct (ob_number b) as [n|], (ob_body b) as [x|]; try (by vm_compute in Hcmd). by apply sms_carried.
Qed.

End Reader.

(** ** A name that several modules bear *)

(** When two modules share a name, nothing that addresses a module
    by that name alone gets through: every command, text and AT command, and
    every task written under the name, is refused with a 409 that lists all the
    modules so named, in the order of their agents. *)
Theorem shared_name_refused (name : pystr) (t : list module_row) (m1 m2 : module_row) :
  name <> [] -> m1 ∈ t -> m2 ∈ t -> m1 <> m2 -> m_name m1 = name -> m_name m2 = name ->
  exists rows, rows ≡ₚ filter (fun m => m_name m = name) t /\ Sorted agent_le rows
    /\ (forall p, address_of p = ByName name -> route p t = Err (ambiguous_device name rows))
    /\ forall b, tb_device_id b = None -> tb_device b = name ->
         (forall now sims tt, create_task b now t sims tt = Err (ambiguous_device name rows))
         /\ forall id sims tt, update_task id b t sims tt = Err (ambiguous_device name rows).
Proof.
  intros Hne H1 H2 Hd E1 E2. exists (devices_named name t).
  assert (exists a b l, devices_named name t = a :: b :: l) as (a0 & b0 & l & E).
  { destruct (devices_named name t) as [|m [|m' l]] eqn:E; [| |by repeat eexists]; exfalso.
    - apply (not_elem_of_nil m1). rewrite <- E, devices_named_perm. by apply list_elem_of_filter.
    - apply devices_named_one in E as (_ & _ & Hu). apply Hd. by rewrite (Hu m1 H1 E1), (Hu m2 H2 E2). }
  assert (Hby : device_by_name name t = Err (ambiguous_device name (devices_named name t))) by (unfold device_by_name; by rewrite E).
  assert (Hf : forall b, tb_device_id b = None -> tb_device b = name -> task_fields b t = Err (ambiguous_device name (devices_named name t))).
  { intros b Hid Hnm. unfold task_fields. rewrite Hid, Hnm, bool_decide_eq_false_2 by done. by rewrite E. }
  clear E a0 b0 l. set (rows := devices_named name t) in *.
  split_and!; [apply devices_named_perm|apply (Sorted_merge_sort agent_le)| |].
  - assert (Hbody : forall dev did, body_address dev did = ByName name -> body_device dev did t = Err (ambiguous_device name rows)).
    { intros dev [did|] E; [done|]. injection E as ->. cbn. by rewrite bool_decide_eq_false_2. }
    intros [a r|b|b] E; cbn in E |- *.
    + subst a. unfold device_route. cbn [resolve]. by rewrite Hby.
    + unfold send_message. by rewrite (Hbody _ _ E).
    + unfold raw_at. by rewrite (Hbody _ _ E).
  - intros b Hid Hnm. split; [intros now sims tt; unfold create_task|intros id sims tt; unfold update_task]; by rewrite (Hf b Hid Hnm).
Qed.

(** ** Tasks and their modules over time *)

Record hub := mkHub { h_modules : list module_row; h_cards : list Z; h_tasks : task_table }.

Inductive step : hub -> hub -> Prop :=
| step_register m t cards tt :                       (* [upsert_device] of a new key; Registry refuses an empty agent id *)
    m_id m ∉ m_id <$> t -> (m_agent m, m_name m) ∉ (fun x => (m_agent x, m_name x)) <$> t -> m_agent m <> [] ->
    step (mkHub t cards tt) (mkHub (t ++ [m]) cards tt)
| step_report t t' cards tt :                        (* a module reports another identity *)
    m_row <$> t' = m_row <$> t -> step (mkHub t cards tt) (mkHub t' cards tt)
| step_card t cards cards' tt : step (mkHub t cards tt) (mkHub t cards' tt)
| step_create b now t cards tt row tt' :
    valid_task b = true -> create_task b now t cards tt = Ok (row, tt') -> step (mkHub t cards tt) (mkHub t cards tt')
| step_update id b t cards tt row tt' :
    valid_task b = true -> update_task id b t cards tt = Ok (row, tt') -> step (mkHub t cards tt) (mkHub t cards tt')
| step_delete id t cards tt tt' :
    delete_task id tt = Ok tt' -> step (mkHub t cards tt) (mkHub t cards tt').

Definition initial : hub := mkHub [] [] (mkTasks [] 0).

(** The task's row repeats the module it points at. *)
Definition pinned (t : list module_row) (x : TaskSync.server_task) : Prop :=
  forall d, TaskSync.st_device_id x = Some d ->
    exists m, m ∈ t /\ m_id m = d /\ TaskSync.st_agent x = m_agent m /\ Store.t_device (TaskSync.st_spec x) = m_name m.

Record hub_ok (h : hub) : Prop := {
  ho_modules : modules_ok (h_modules h);
  ho_agents : Forall (fun m => m_agent m <> []) (h_modules h);
  ho_tasks : NoDup (tr_id <$> tt_rows (h_tasks h));
  ho_seq : Forall (fun r => tr_id r <= tt_seq (h_tasks h)) (tt_rows (h_tasks h));
  ho_pinned : Forall (fun r => pinned (h_modules h) (tr_task r)) (tt_rows (h_tasks h)) }.

Lemma task_fields_pinned b t fields id : task_fields b t = Ok fields ->
  pinned t (fields id) /\ TaskSync.st_id (fields id) = id.
Proof.
  unfold task_fields. intros H. apply bind_ok in H as ([[did agent] name] & Hw & [= <-]). split; [|done].
  intros d Hd. cbn in Hd. subst did. cbn. destruct (tb_device_id b) as [n|].
  - apply bind_ok in Hw as (tg & (_ & m & Hm & _ & ->)%device_by_id_ok & [= <- <- <-]). by exists m.
  - case_bool_decide; [done|]. destruct (devices_named (tb_device b) t) as [|m [|]] eqn:E; try done.
    injection Hw as <- <- <-. exists m. apply devices_named_one in E as (? & ? & _). done.
Qed.

Lemma pinned_mono t t' x : (forall m, m ∈ m_row <$> t -> m ∈ m_row <$> t') -> pinned t x -> pinned t' x.
Proof.
  intros Ht Hp d Hd. destruct (Hp d Hd) as (m & Hm & <- & Ha & Hn).
  destruct (proj1 (list_elem_of_fmap _ _ _) (Ht (m_row m) (list_elem_of_fmap_2 _ _ _ Hm))) as (m' & E & Hm').
  exists m'. unfold m_id, m_agent, m_name in *. rewrite <- E. done.
Qed.

Lemma rows_fmap {A} (g : TaskSync.device_row -> A) (t t' : list module_row) : m_row <$> t' = m_row <$> t ->
  (fun m => g (m_row m)) <$> t' = (fun m => g (m_row m)) <$> t.
Proof. intros E. rewrite !(list_fmap_compose m_row g _ : (fun m => g (m_row m)) <$> _ = _). by rewrite E. Qed.

Lemma create_task_ok b now t cards tt row tt' : create_task b now t cards tt = Ok (row, tt') ->
  tt' = mkTasks (tt_rows tt ++ [row]) (tt_seq tt + 1) /\ pinned t (tr_task row) /\ tr_id row = tt_seq tt + 1.
Proof.
  unfold create_task. intros H. apply bind_ok in H as (fields & Hf & H). apply bind_ok in H as (_ & _ & H).
  apply bind_ok in H as (_ & _ & [= <- <-]). split; [done|]. exact (task_fields_pinned _ _ _ _ Hf).
Qed.

Lemma update_task_ok id b t cards tt row tt' : update_task id b t cards tt = Ok (row, tt') ->
  tr_id <$> tt_rows tt' = tr_id <$> tt_rows tt /\ tt_seq tt' = tt_seq tt
  /\ forall r, r ∈ tt_rows tt' -> r ∈ tt_rows tt \/ pinned t (tr_task r).
Proof.
  unfold update_task. intros H. apply bind_ok in H as (fields & Hf & H). apply bind_ok in H as (_ & _ & H).
  apply bind_ok in H as (_ & _ & H). destruct (find_task id tt) as [old|]; [|done]. apply bind_ok in H as (_ & _ & [= <- <-]).
  destruct (task_fields_pinned _ _ _ id Hf) as [Hp Hid]. cbn. split_and!; [|done|].
  - rewrite <- list_fmap_compose. apply list_fmap_ext. intros k r _. unfold compose. destruct (Z.eqb_spec (tr_id r) id) as [E|]; [|done]. unfold tr_id in *. cbn. congruence.
  - intros r (r0 & -> & Hr)%list_elem_of_fmap. destruct (tr_id r0 =? id); [by right|by left].
Qed.

Lemma hub_step_ok h h' : hub_ok h -> step h h' -> hub_ok h'.
Proof.
  intros [Hm Ha Ht Hs Hp] Hst. destruct Hst as [m t cards tt Hid Hk Hne|t t' cards tt E| |b now t cards tt row tt' _ E|id b t cards tt row tt' _ E|id t cards tt tt' E]; cbn in *.
  - split; cbn; try done.
    + destruct Hm as [Hi Hk']. split; rewrite fmap_app; apply NoDup_app; (split; [done|split; [|apply NoDup_singleton]]);
        by intros x Hx ->%list_elem_of_singleton.
    + apply Forall_app. split; [done|by constructor].
    + eapply Forall_impl; [exact Hp|]. intros r. apply pinned_mono. intros x Hx. rewrite fmap_app. apply elem_of_app. by left.
  - split; cbn; try done.
    + destruct Hm as [Hi Hk]. split.
      * by rewrite (rows_fmap TaskSync.dv_id _ _ E : m_id <$> t' = m_id <$> t).
      * by rewrite (rows_fmap (fun d => (TaskSync.dv_agent d, TaskSync.dv_name d)) _ _ E : (fun m => (m_agent m, m_name m)) <$> t' = (fun m => (m_agent m, m_name m)) <$> t).
    + rewrite <- (Forall_fmap m_agent (fun a => a <> [])) in *. by rewrite (rows_fmap TaskSync.dv_agent _ _ E : m_agent <$> t' = m_agent <$> t).
    + eapply Forall_impl; [exact Hp|]. intros r. apply pinned_mono. intros x. by rewrite E.
  - by split.
  - apply create_task_ok in E as (-> & Hpin & Hid). split; cbn; try done.
    + rewrite fmap_app. apply NoDup_app. split; [done|]. split; [|apply NoDup_singleton]. cbn. intros x Hx ->%list_elem_of_singleton.
      apply list_elem_of_fmap in Hx as (r & Hr & Hin). rewrite Forall_forall in Hs. apply Hs in Hin. lia.
    + apply Forall_app. split; [|constructor; [lia|constructor]]. eapply Forall_impl; [exact Hs|]. intros r ?. cbn in *. lia.
    + apply Forall_app. split; [done|by constructor].
  - apply update_task_ok in E as (Hr & Hq & Hrows). split; cbn; try done.
    + by rewrite Hr.
    + apply (Forall_fmap tr_id (fun n => n <= tt_seq tt')). apply (Forall_fmap tr_id (fun n => n <= tt_seq tt)) in Hs. by rewrite Hr, Hq.
    + apply Forall_forall. intros r Hin. destruct (Hrows r Hin) as [H|H]; [|done]. by rewrite Forall_forall in Hp; apply Hp.
  - unfold delete_task in E. apply bind_ok in E as (_ & _ & [= <-]). split; cbn; try done.
    + eapply sublist_NoDup; [exact Ht|]. by apply fmap_sublist, sublist_filter.
    + eapply Forall_sublist; [apply sublist_filter|exact Hs].
    + eapply Forall_sublist; [apply sublist_filter|exact Hp].
Qed.

Lemma hub_steps_ok h h' : rtc step h h' -> hub_ok h -> hub_ok h'.
Proof. induction 1 as [|x y z Hs _ IH]; [done|]. intros Hx. by apply IH, (hub_step_ok x). Qed.

Lemma hub_initial_ok : hub_ok initial.
Proof. split; cbn; try constructor; constructor. Qed.

(** C13 (invariant): a task that points at a module never drifts.  However
    modules register (names repeat across agents), report other identities, and
    tasks are written, changed and removed: the agent and the name in the task's
    row are the module's own, it belongs to that module's agent and to no other,
    and running it by hand asks that agent. *)
Theorem tasks_stay_on_their_module (h : hub) (r : task_row) (d : Z) :
  rtc step initial h -> r ∈ tt_rows (h_tasks h) -> TaskSync.st_device_id (tr_task r) = Some d ->
  exists m, m ∈ h_modules h /\ m_id m = d
    /\ TaskSync.st_agent (tr_task r) = m_agent m /\ Store.t_device (TaskSync.st_spec (tr_task r)) = m_name m
    /\ (forall agent, tr_task r ∈ TaskSync.owned agent (tr_task <$> tt_rows (h_tasks h)) (m_row <$> h_modules h) <-> agent = m_agent m)
    /\ (Fleet.fits_int64 (tr_id r) = true -> task_agent (tr_id r) (h_modules h) (h_tasks h) = Ok (m_agent m)).
Proof.
  intros Hr Hin Hd. destruct (hub_steps_ok _ _ Hr hub_initial_ok) as [Hm Ha Ht _ Hp]. rewrite Forall_forall in Ha. rewrite Forall_forall in Hp.
  destruct (Hp r Hin d Hd) as (m & Hmt & Hid & Hag & Hnm). exists m. specialize (Ha m Hmt).
  assert (Ho : TaskSync.owner (m_row <$> h_modules h) (tr_task r) = m_agent m).
  { unfold TaskSync.owner. rewrite Hag. by destruct (m_agent m). }
  split_and!; try done.
  - intros agent. unfold TaskSync.owned. rewrite list_elem_of_filter, Ho. split; [by intros [<- _]|].
    intros ->. split; [done|]. by apply list_elem_of_fmap_2.
  - intros Hfit. unfold task_agent, find_task, bound, guard_err. rewrite Hfit. cbn [mbind res_bind].
    rewrite (find_unique tr_id _ _ r Ht Hin) by (intros y; by rewrite Z.eqb_eq).
    cbn [of_option mbind res_bind]. rewrite Hag. by destruct (m_agent m).
Qed.

(** ** Witnesses *)

Definition at_home : module_row := mkModule (TaskSync.mkDevice 1 (str "home") (str "m1")) (str "860001") (str "8986").
Definition at_office : module_row := mkModule (TaskSync.mkDevice 2 (str "office") (str "m1")) (str "860002") [].
Definition one_module : list module_row := [at_home].
Definition two_modules : list module_row := [at_office; at_home].

Definition sample_repr (v : json) : pystr := [].
Definition sample_workers : pydict (list Z) App.worker := [(str "m1", App.mkWorker (str "860001") (str "8986"))].
Definition sample_post : posted := Send (mkSms (str "m1") None (str " 10086 ") (str "101")).
Definition sample_handled := handled sample_repr TaskSync.sample_revision TaskSync.sample_columns 100 sample_workers.

Lemma routes_reach_their_module_witness :
  route sample_post one_module = Ok (str "home", dict_set (str "device") (JStr (str "m1")) (sms_frame (str " 10086 ") (str "101")), 30)
  /\ exists m, m ∈ one_module /\ forall w s, sent (m_name m) (dict_set (str "device") (JStr (str "m1")) (sms_frame (str " 10086 ") (str "101"))) w ->
       sample_handled w s = Some (reached sample_repr sample_workers (m_name m) (verdict (m_name m) sample_post), s).
Proof.
  assert (Hr : route sample_post one_module = Ok (str "home", dict_set (str "device") (JStr (str "m1")) (sms_frame (str " 10086 ") (str "101")), 30))
    by (vm_compute; reflexivity).
  split; [exact Hr|].
  destruct (routes_reach_their_module sample_repr TaskSync.sample_revision TaskSync.sample_columns 100 sample_workers sample_post one_module _ _ _
    ltac:(split; apply NoDup_singleton) eq_refl Hr) as (m & Hm & _ & _ & _ & H).
  exists m. split; [exact Hm|exact H].
Defined.

Lemma shared_name_refused_witness :
  exists rows, rows ≡ₚ filter (fun m => m_name m = str "m1") two_modules
    /\ route sample_post two_modules = Err (ambiguous_device (str "m1") rows).
Proof.
  destruct (shared_name_refused (str "m1") two_modules at_office at_home) as (rows & Hp & _ & H & _).
  - discriminate.
  - left.
  - right. left.
  - discriminate.
  - reflexivity.
  - reflexivity.
  - exists rows. split; [exact Hp|]. exact (H sample_post eq_refl).
Defined.

Definition alive : task_body :=
  mkTaskBody (str "alive") None (str "m1") None [] true (str "send_sms") (str "10086") (str "1") (str "interval") (str "25") 1800 true 3 true.
Definition alive_row : task_row := mkTaskRow
  (TaskSync.mkServerTask 1 (str "home") (Some 1)
     (Store.mkTaskSpec (str "m1") (str "alive") true (str "send_sms") (str "10086") (str "1") (str "interval") (str "25") 1800 true 3 true)) None 5.
Definition one_task : task_table := mkTasks [alive_row] 1.

(** The task is written while its module is the only [m1]; another one comes later. *)
Lemma tasks_stay_on_their_module_witness :
  rtc step initial (mkHub [at_home; at_office] [] one_task)
  /\ exists m, m ∈ [at_home; at_office] /\ m_agent m = str "home" /\ task_agent 1 [at_home; at_office] one_task = Ok (m_agent m).
Proof.
  assert (H : rtc step initial (mkHub [at_home; at_office] [] one_task)).
  { eapply rtc_l; [apply (step_register at_home [] []); [apply not_elem_of_nil|apply not_elem_of_nil|discriminate]|].
    eapply rtc_l; [apply (step_create alive 5 _ _ _ alive_row one_task); vm_compute; reflexivity|].
    apply rtc_once. apply (step_register at_office [at_home] []); [| |discriminate]; apply (bool_decide_eq_true_1 _); vm_compute; reflexivity. }
  split; [exact H|].
  destruct (tasks_stay_on_their_module _ alive_row 1 H) as (m & Hm & _ & Ha & _ & _ & Ht); [left|reflexivity|].
  exists m. split; [exact Hm|]. split; [symmetry; exact Ha|]. apply Ht. vm_compute. reflexivity.
Defined.

Definition sample_operation (f : frame) : Operations.operation :=
  Operations.mkOperation (str "op-1") (str "admin") 1 (str "home") (str "m1") [] (str "key-0001") f Operations.Running
    (str "2026-01-01") (str "s1") (str "c1") (str "token") (str "860001") [] JNull JNull (str "2026-01-01").
Definition sample_run : operation_body := mkOperationBody OpRunTask None (Some 1) None None (str "key-0001").
Definition pushed_revision : pystr := TaskSync.sample_revision (JArr (snapshot (str "home") two_modules one_task)).
(** The agent's store after it has applied the push. *)
Definition applied : Store.LocalStore :=
  (App.cmd_sync_tasks TaskSync.sample_revision TaskSync.sample_columns 100
     (TaskSync.sync_frame (snapshot (str "home") two_modules one_task) pushed_revision TaskSync.sample_id) Store.fresh_db).2.
Definition sample_run_operation : Operations.operation :=
  sample_operation (submitted sample_run (Some pushed_revision) (command "run_task" [(str "task_id", JInt 1)])).

Lemma columns_of_dict x : TaskSync.sample_columns (TaskSync.task_dict x) = TaskSync.st_spec x.
Proof. by destruct x as [? ? ? []]. Defined.

Lemma submitted_operations_understood_witness :
  sample_handled (dispatched sample_run_operation) applied = Some (Ok (App.RunManual 1 (JStr (str "op-1"))), applied).
Proof.
  destruct (submitted_operations_understood sample_repr TaskSync.sample_revision TaskSync.sample_columns 100 sample_workers
    sample_run two_modules one_task (Operations.mkTarget 1 (str "home") (str "m1") (str "860001") [])
    (command "run_task" [(str "task_id", JInt 1)]) (Some pushed_revision) sample_run_operation applied columns_of_dict)
    as (m & Hm & _ & Hag & _ & H).
  - apply NoDup_singleton.
  - vm_compute. reflexivity.
  - vm_compute. reflexivity.
  - split; [reflexivity|]. split; [reflexivity|discriminate].
  - destruct (decide (ob_type sample_run = OpRunTask)) as [_|Hne]; [|destruct (Hne eq_refl)].
    destruct H as (row & Hrow & _ & _ & H). apply list_elem_of_singleton in Hrow as ->.
    cbn in Hag. rewrite <- Hag in H. apply H; vm_compute; reflexivity.
Defined.

(** ** An agent named in vain

    A task's body names the module [m1] of agent [office], which has not
    connected yet; [_task_fields] takes the only module of that name, on [home]. *)
Definition for_office : task_body :=
  mkTaskBody (str "alive") None (str "m1") None (str "office") true (str "send_sms") (str "10086") (str "1") (str "interval") (str "25") 1800 true 3 true.

Example named_agent_ignored : (fun x => TaskSync.st_agent (tr_task x.1)) <$> create_task for_office 5 one_module [] (mkTasks [] 0) = Ok (str "home").
Proof. vm_compute. reflexivity. Qed.

(** And with both there, the agent does not settle which is meant. *)
Example named_agent_still_ambiguous : create_task for_office 5 two_modules [] (mkTasks [] 0) = Err (ambiguous_device (str "m1") [at_home; at_office]).
Proof. vm_compute. reflexivity. Qed.

End Targets.
