(* ===== verification/Migrate.v ===== *)
(** * Opening a database (server/src/hub_server/db.py)

    [Database._prepare_schema]: the snapshot before a migration, the schema of
    this version, and the ordered migrations of an older file, each one
    transaction.  The shape of the file is what PRAGMA table_info and sqlite_master
    say of it: the tables with their columns' declarations and their table
    constraints (indexes are left out).  Of the rows those are kept which a
    migration reads or writes.  The process may die between any two statements
    outside a transaction, and be started again. *)

From S2P Require Import Prelude PyText PyDict Store TaskSync Targets Alerts PduClass.

Module Migrate.

(** ** The shape *)

(** Columns as name and declaration, and the constraints of the table. *)
Record table := mkTable { t_columns : pydict string string; t_rest : list string }.
Abbreviation schema := (list (string * table)) (only parsing).

(** *** What this version creates; the constraints of a column are in its text. *)

(** Agents and what they have sent, cards, modules. *)
Definition IDENTITY_TABLES : schema :=
  [ ("agents", mkTable
       [ ("id", "TEXT PRIMARY KEY"); ("version", "TEXT NOT NULL DEFAULT ''");
         ("protocol_version", "INTEGER NOT NULL DEFAULT 0"); ("last_seen_at", "TEXT");
         ("connected", "INTEGER NOT NULL DEFAULT 0"); ("last_seq", "INTEGER NOT NULL DEFAULT 0");
         ("stream_id", "TEXT NOT NULL DEFAULT ''"); ("tasks_revision", "TEXT NOT NULL DEFAULT ''");
         ("tasks_applied_revision", "TEXT NOT NULL DEFAULT ''"); ("tasks_sync_id", "TEXT NOT NULL DEFAULT ''");
         ("tasks_sync_status", "TEXT NOT NULL DEFAULT 'pending'"); ("tasks_sync_error", "TEXT NOT NULL DEFAULT ''");
         ("tasks_sync_sent_at", "TEXT"); ("tasks_synced_at", "TEXT") ] []);
    ("ingested", mkTable
       [ ("agent_id", "TEXT NOT NULL"); ("stream_id", "TEXT NOT NULL DEFAULT ''"); ("seq", "INTEGER NOT NULL");
         ("kind", "TEXT NOT NULL"); ("at", "TEXT NOT NULL") ] ["PRIMARY KEY (agent_id, stream_id, seq)"]);
    ("sims", mkTable
       [ ("id", "INTEGER PRIMARY KEY AUTOINCREMENT"); ("iccid", "TEXT UNIQUE NOT NULL"); ("label", "TEXT NOT NULL DEFAULT ''");
         ("phone_number", "TEXT NOT NULL DEFAULT ''"); ("billing_type", "TEXT NOT NULL DEFAULT 'unknown'");
         ("plan_name", "TEXT NOT NULL DEFAULT ''"); ("balance", "TEXT"); ("low_balance_threshold", "TEXT");
         ("currency", "TEXT NOT NULL DEFAULT ''"); ("balance_updated_at", "TEXT"); ("expires_at", "TEXT");
         ("activity_due_at", "TEXT"); ("operator", "TEXT NOT NULL DEFAULT ''"); ("smsc", "TEXT NOT NULL DEFAULT ''");
         ("note", "TEXT NOT NULL DEFAULT ''"); ("first_seen_at", "TEXT NOT NULL"); ("last_seen_at", "TEXT NOT NULL") ] []);
    ("devices", mkTable
       [ ("id", "INTEGER PRIMARY KEY AUTOINCREMENT"); ("agent_id", "TEXT NOT NULL"); ("name", "TEXT NOT NULL");
         ("label", "TEXT NOT NULL DEFAULT ''"); ("port", "TEXT NOT NULL DEFAULT ''");
         ("sim_id", "INTEGER REFERENCES sims(id) ON DELETE SET NULL"); ("online", "INTEGER NOT NULL DEFAULT 0");
         ("registered", "INTEGER NOT NULL DEFAULT 0"); ("radio_enabled", "INTEGER"); ("eps_registered", "INTEGER");
         ("cs_registered", "INTEGER"); ("ims_registered", "INTEGER"); ("data_enabled", "INTEGER NOT NULL DEFAULT 0");
         ("data_attached", "INTEGER"); ("pdp_active", "INTEGER"); ("roaming", "INTEGER");
         ("roaming_data_allowed", "INTEGER NOT NULL DEFAULT 0"); ("data_blocked_by_roaming", "INTEGER NOT NULL DEFAULT 0");
         ("model", "TEXT NOT NULL DEFAULT ''"); ("hardware_model", "TEXT NOT NULL DEFAULT ''");
         ("firmware", "TEXT NOT NULL DEFAULT ''"); ("imei", "TEXT NOT NULL DEFAULT ''");
         ("operator", "TEXT NOT NULL DEFAULT ''"); ("rssi", "INTEGER"); ("dbm", "INTEGER");
         ("bars", "INTEGER NOT NULL DEFAULT 0"); ("rsrp", "INTEGER"); ("rsrq", "INTEGER");
         ("storage_used", "INTEGER NOT NULL DEFAULT 0"); ("storage_cap", "INTEGER NOT NULL DEFAULT 0");
         ("voltage_mv", "INTEGER"); ("low_voltage_mv", "INTEGER"); ("last_seen_at", "TEXT") ] ["UNIQUE (agent_id, name)"]) ]%string.
(** Messages, calls, delivery reports, samples. *)
Definition MESSAGE_TABLES : schema :=
  [ ("messages", mkTable
       [ ("id", "INTEGER PRIMARY KEY AUTOINCREMENT"); ("agent_id", "TEXT NOT NULL"); ("device", "TEXT NOT NULL");
         ("sim_id", "INTEGER REFERENCES sims(id) ON DELETE SET NULL"); ("direction", "TEXT NOT NULL");
         ("peer", "TEXT NOT NULL"); ("body", "TEXT NOT NULL"); ("ts", "TEXT NOT NULL");
         ("status", "TEXT NOT NULL DEFAULT 'received'"); ("segments", "INTEGER NOT NULL DEFAULT 1"); ("seq", "INTEGER");
         ("error", "TEXT"); ("read_at", "TEXT"); ("raw_pdu", "TEXT"); ("dcs", "INTEGER");
         ("is_binary", "INTEGER NOT NULL DEFAULT 0"); ("truncated", "INTEGER NOT NULL DEFAULT 0"); ("recovered_body", "TEXT");
         ("recovered_code", "TEXT"); ("created_at", "TEXT NOT NULL") ] []);
    ("calls", mkTable
       [ ("id", "INTEGER PRIMARY KEY AUTOINCREMENT"); ("agent_id", "TEXT NOT NULL"); ("device", "TEXT NOT NULL");
         ("sim_id", "INTEGER REFERENCES sims(id) ON DELETE SET NULL"); ("direction", "TEXT NOT NULL");
         ("peer", "TEXT NOT NULL DEFAULT ''"); ("ts", "TEXT NOT NULL"); ("outcome", "TEXT NOT NULL DEFAULT ''");
         ("reached_network", "INTEGER NOT NULL DEFAULT 0"); ("ring_seconds", "REAL NOT NULL DEFAULT 0");
         ("detail", "TEXT NOT NULL DEFAULT ''"); ("seq", "INTEGER"); ("created_at", "TEXT NOT NULL") ] []);
    ("sms_delivery_segments", mkTable
       [ ("id", "INTEGER PRIMARY KEY AUTOINCREMENT"); ("message_id", "INTEGER REFERENCES messages(id) ON DELETE CASCADE");
         ("agent_id", "TEXT NOT NULL"); ("device", "TEXT NOT NULL"); ("segment_index", "INTEGER");
         ("modem_reference", "INTEGER NOT NULL"); ("recipient", "TEXT NOT NULL DEFAULT ''");
         ("recipient_key", "TEXT NOT NULL DEFAULT ''"); ("submitted_at", "TEXT");
         ("status", "TEXT NOT NULL DEFAULT 'pending'"); ("status_code", "INTEGER"); ("service_center_ts", "TEXT");
         ("discharge_ts", "TEXT"); ("reported_at", "TEXT"); ("raw_pdu", "TEXT"); ("event_seq", "INTEGER");
         ("created_at", "TEXT NOT NULL") ] []);
    ("device_status", mkTable
       [ ("id", "INTEGER PRIMARY KEY AUTOINCREMENT");
         ("device_id", "INTEGER NOT NULL REFERENCES devices(id) ON DELETE CASCADE"); ("ts", "TEXT NOT NULL");
         ("online", "INTEGER NOT NULL DEFAULT 0"); ("registered", "INTEGER NOT NULL DEFAULT 0"); ("rssi", "INTEGER");
         ("dbm", "INTEGER"); ("bars", "INTEGER"); ("rsrp", "INTEGER"); ("rsrq", "INTEGER"); ("storage_used", "INTEGER");
         ("storage_cap", "INTEGER"); ("voltage_mv", "INTEGER") ] []) ]%string.
(** Channels, rules, and the queue of notifications. *)
Definition NOTIFY_TABLES : schema :=
  [ ("channels", mkTable
       [ ("id", "INTEGER PRIMARY KEY AUTOINCREMENT"); ("name", "TEXT NOT NULL"); ("type", "TEXT NOT NULL");
         ("config", "TEXT NOT NULL DEFAULT '{}'"); ("enabled", "INTEGER NOT NULL DEFAULT 1"); ("created_at", "TEXT NOT NULL") ] []);
    ("rules", mkTable
       [ ("id", "INTEGER PRIMARY KEY AUTOINCREMENT"); ("name", "TEXT NOT NULL DEFAULT ''");
         ("sim_id", "INTEGER REFERENCES sims(id) ON DELETE CASCADE");
         ("channel_id", "INTEGER NOT NULL REFERENCES channels(id) ON DELETE CASCADE");
         ("match", "TEXT NOT NULL DEFAULT 'all'"); ("pattern", "TEXT NOT NULL DEFAULT ''");
         ("template", "TEXT NOT NULL DEFAULT ''"); ("priority", "INTEGER NOT NULL DEFAULT 0");
         ("enabled", "INTEGER NOT NULL DEFAULT 1") ] []);
    ("notify_logs", mkTable
       [ ("id", "INTEGER PRIMARY KEY AUTOINCREMENT"); ("message_id", "INTEGER REFERENCES messages(id) ON DELETE CASCADE");
         ("channel_id", "INTEGER REFERENCES channels(id) ON DELETE SET NULL");
         ("rule_id", "INTEGER REFERENCES rules(id) ON DELETE SET NULL"); ("status", "TEXT NOT NULL");
         ("attempts", "INTEGER NOT NULL DEFAULT 1"); ("detail", "TEXT NOT NULL DEFAULT ''"); ("ts", "TEXT NOT NULL") ] []);
    ("notify_outbox", mkTable
       [ ("id", "INTEGER PRIMARY KEY AUTOINCREMENT"); ("kind", "TEXT NOT NULL"); ("ref_id", "INTEGER"); ("event_key", "TEXT");
         ("frame", "TEXT NOT NULL DEFAULT '{}'"); ("title", "TEXT NOT NULL DEFAULT ''"); ("body", "TEXT NOT NULL DEFAULT ''");
         ("status", "TEXT NOT NULL DEFAULT 'pending'"); ("created_at", "TEXT NOT NULL"); ("expanded_at", "TEXT") ] []);
    ("notify_deliveries", mkTable
       [ ("id", "INTEGER PRIMARY KEY AUTOINCREMENT");
         ("outbox_id", "INTEGER NOT NULL REFERENCES notify_outbox(id) ON DELETE CASCADE");
         ("channel_id", "INTEGER NOT NULL REFERENCES channels(id) ON DELETE CASCADE");
         ("rule_id", "INTEGER REFERENCES rules(id) ON DELETE CASCADE"); ("status", "TEXT NOT NULL DEFAULT 'pending'");
         ("attempts", "INTEGER NOT NULL DEFAULT 0"); ("next_attempt_at", "TEXT NOT NULL"); ("lease_owner", "TEXT");
         ("lease_until", "TEXT"); ("error_code", "TEXT"); ("safe_detail", "TEXT NOT NULL DEFAULT ''"); ("expires_at", "TEXT");
         ("created_at", "TEXT NOT NULL"); ("updated_at", "TEXT NOT NULL") ] []) ]%string.
(** Keep-alive tasks and the logs of agents. *)
Definition TASK_TABLES : schema :=
  [ ("tasks", mkTable
       [ ("id", "INTEGER PRIMARY KEY AUTOINCREMENT"); ("name", "TEXT NOT NULL DEFAULT ''");
         ("sim_id", "INTEGER REFERENCES sims(id) ON DELETE CASCADE"); ("device", "TEXT NOT NULL DEFAULT ''");
         ("agent_id", "TEXT NOT NULL DEFAULT ''"); ("device_id", "INTEGER REFERENCES devices(id) ON DELETE SET NULL");
         ("enabled", "INTEGER NOT NULL DEFAULT 1"); ("action", "TEXT NOT NULL DEFAULT 'send_sms'");
         ("target_number", "TEXT NOT NULL DEFAULT '10086'"); ("content", "TEXT NOT NULL DEFAULT '1'");
         ("schedule_type", "TEXT NOT NULL DEFAULT 'interval'"); ("schedule_expr", "TEXT NOT NULL DEFAULT '25'");
         ("jitter_seconds", "INTEGER NOT NULL DEFAULT 1800"); ("random_suffix", "INTEGER NOT NULL DEFAULT 1");
         ("retry_max", "INTEGER NOT NULL DEFAULT 3"); ("notify_on_result", "INTEGER NOT NULL DEFAULT 1");
         ("last_run_at", "TEXT"); ("next_run_at", "TEXT"); ("created_at", "TEXT NOT NULL") ] []);
    ("task_logs", mkTable
       [ ("id", "INTEGER PRIMARY KEY AUTOINCREMENT"); ("task_id", "INTEGER REFERENCES tasks(id) ON DELETE CASCADE");
         ("run_id", "TEXT"); ("ts", "TEXT NOT NULL"); ("status", "TEXT NOT NULL"); ("attempts", "INTEGER NOT NULL DEFAULT 1");
         ("detail", "TEXT NOT NULL DEFAULT ''"); ("error", "TEXT") ] []);
    ("agent_logs", mkTable
       [ ("id", "INTEGER PRIMARY KEY AUTOINCREMENT"); ("agent_id", "TEXT NOT NULL"); ("device", "TEXT NOT NULL DEFAULT ''");
         ("level", "TEXT NOT NULL DEFAULT 'info'"); ("message", "TEXT NOT NULL"); ("ts", "TEXT NOT NULL") ] []) ]%string.
(** Sign-in, settings, the audit trail, incidents. *)
Definition ADMIN_TABLES : schema :=
  [ ("sessions", mkTable
       [ ("token_hash", "TEXT PRIMARY KEY"); ("created_at", "TEXT NOT NULL"); ("expires_at", "TEXT NOT NULL");
         ("label", "TEXT NOT NULL DEFAULT ''") ] []);
    ("settings", mkTable
       [ ("key", "TEXT PRIMARY KEY"); ("value", "TEXT NOT NULL") ] []);
    ("audit_events", mkTable
       [ ("id", "INTEGER PRIMARY KEY AUTOINCREMENT"); ("ts", "TEXT NOT NULL"); ("action", "TEXT NOT NULL");
         ("target", "TEXT NOT NULL DEFAULT ''"); ("status", "TEXT NOT NULL DEFAULT 'ok'");
         ("detail", "TEXT NOT NULL DEFAULT ''"); ("client_ip", "TEXT NOT NULL DEFAULT ''") ] []);
    ("incidents", mkTable
       [ ("id", "INTEGER PRIMARY KEY AUTOINCREMENT"); ("fingerprint", "TEXT UNIQUE NOT NULL"); ("kind", "TEXT NOT NULL");
         ("severity", "TEXT NOT NULL DEFAULT 'warning'"); ("source", "TEXT NOT NULL DEFAULT ''"); ("title", "TEXT NOT NULL");
         ("detail", "TEXT NOT NULL DEFAULT ''"); ("status", "TEXT NOT NULL DEFAULT 'active'");
         ("occurrences", "INTEGER NOT NULL DEFAULT 1"); ("first_seen_at", "TEXT NOT NULL"); ("last_seen_at", "TEXT NOT NULL");
         ("acknowledged_at", "TEXT"); ("resolved_at", "TEXT") ] []) ]%string.
(** Submitted commands. *)
Definition OPERATION_TABLES : schema :=
  [ ("command_operations", mkTable
       [ ("id", "TEXT PRIMARY KEY"); ("actor", "TEXT NOT NULL"); ("device_id", "INTEGER NOT NULL");
         ("agent_id", "TEXT NOT NULL"); ("device", "TEXT NOT NULL"); ("command_type", "TEXT NOT NULL");
         ("request_hash", "TEXT NOT NULL"); ("idempotency_key", "TEXT NOT NULL"); ("frame", "TEXT NOT NULL");
         ("status", "TEXT NOT NULL DEFAULT 'queued' CHECK(status IN ('queued','running','succeeded','failed','unknown','cancelled'))");
         ("deadline", "TEXT NOT NULL"); ("stream_id", "TEXT NOT NULL"); ("connection_id", "TEXT NOT NULL");
         ("result_token", "TEXT NOT NULL"); ("expected_imei", "TEXT NOT NULL DEFAULT ''");
         ("expected_iccid", "TEXT NOT NULL DEFAULT ''"); ("result", "TEXT"); ("error", "TEXT");
         ("created_at", "TEXT NOT NULL"); ("updated_at", "TEXT NOT NULL") ] ["UNIQUE(actor, device_id, idempotency_key)"]) ]%string.
Definition SCHEMA : schema :=
  IDENTITY_TABLES ++ MESSAGE_TABLES ++ NOTIFY_TABLES ++ TASK_TABLES ++ ADMIN_TABLES ++ OPERATION_TABLES.

Definition SCHEMA_VERSION : Z := 19.

Definition schema_table (T : string) : table := default (mkTable [] []) (dict_get T SCHEMA).

(** ** The file *)

Record message := mkMessage { mg_id : Z; mg_incoming : bool; mg_binary : bool; mg_pdu : option pystr }.

(** A column that is not there yet reads as the default it is going to have. *)
Record database := mkDb {
  version : Z; tables : schema;
  messages : list message; ingested : list (pystr * pystr * Z);     (* agent, stream, seq *)
  tasks : list TaskSync.server_task; devices : list TaskSync.device_row; incidents : Incidents.table }.

Definition set_version (v : Z) (d : database) : database := mkDb v (tables d) (messages d) (ingested d) (tasks d) (devices d) (incidents d).
Definition set_tables (x : schema) (d : database) : database := mkDb (version d) x (messages d) (ingested d) (tasks d) (devices d) (incidents d).
Definition set_messages (x : list message) (d : database) : database := mkDb (version d) (tables d) x (ingested d) (tasks d) (devices d) (incidents d).
Definition set_ingested (x : list (pystr * pystr * Z)) (d : database) : database := mkDb (version d) (tables d) (messages d) x (tasks d) (devices d) (incidents d).
Definition set_tasks (x : list TaskSync.server_task) (d : database) : database := mkDb (version d) (tables d) (messages d) (ingested d) x (devices d) (incidents d).
Definition set_incidents (x : Incidents.table) (d : database) : database := mkDb (version d) (tables d) (messages d) (ingested d) (tasks d) (devices d) x.

(** PRAGMA table_info: no columns where there is no table. *)
Definition table_info (T : string) (d : database) : list string := dict_keys (default [] (t_columns <$> dict_get T (tables d))).
Definition has_table (T : string) (d : database) : bool := bool_decide (is_Some (dict_get T (tables d))).

(** CREATE TABLE IF NOT EXISTS *)
Definition create_table (T : string) (t : table) (d : database) : database :=
  if has_table T d then d else set_tables (tables d ++ [(T, t)]) d.

(** ** Migrations: [None] is an exception of a statement *)

(** ALTER TABLE ... ADD COLUMN *)
Definition add_column (T c decl : string) (d : database) : option database :=
  t ← dict_get T (tables d);
  if bool_decide (c ∈ dict_keys (t_columns t)) then None
  else Some (set_tables (dict_set T (mkTable (t_columns t ++ [(c, decl)]) (t_rest t)) (tables d)) d).

Fixpoint add_missing (T : string) (present : list string) (columns : pydict string string) (d : database) : option database :=
  match columns with
  | [] => Some d
  | (c, decl) :: columns =>
      if bool_decide (c ∈ present) then add_missing T present columns d
      else d ← add_column T c decl d; add_missing T present columns d
  end.
Definition add_columns_if_missing (T : string) (columns : pydict string string) (d : database) : option database :=
  add_missing T (table_info T d) columns d.

Definition reconcile_to_baseline (d : database) : option database :=
  let messages := table_info "messages" d in
  let devices := table_info "devices" d in
  d ← (if bool_decide ("read_at"%string ∈ messages) then Some d else add_column "messages" "read_at" "TEXT" d);
  if bool_decide ("radio_enabled"%string ∈ devices) then Some d else add_column "devices" "radio_enabled" "INTEGER" d.

Definition migration_message_diagnostics : database -> option database :=
  add_columns_if_missing "messages"
    [ ("raw_pdu", "TEXT"); ("dcs", "INTEGER"); ("is_binary", "INTEGER NOT NULL DEFAULT 0") ]%string.

Definition migration_agent_protocol_version : database -> option database :=
  add_columns_if_missing "agents"
    [ ("protocol_version", "INTEGER NOT NULL DEFAULT 0") ]%string.

(** CREATE TABLE texts of migrations repeat the schema's. *)
Definition migration_sms_delivery_segments (d : database) : option database :=
  Some (create_table "sms_delivery_segments" (schema_table "sms_delivery_segments") d).

(** Pages of 500 inbound messages that are text so far. *)
Definition id_le (a b : message) : Prop := mg_id a <= mg_id b.
#[export] Instance id_le_dec a b : Decision (id_le a b).
Proof. unfold id_le. apply _. Defined.
Definition selected (last_id : Z) (m : message) : bool :=
  (last_id <? mg_id m) && mg_incoming m && negb (mg_binary m) && bool_decide (is_Some (mg_pdu m)).
Definition page (last_id : Z) (rows : list message) : list message :=
  take 500 (merge_sort id_le (filter (fun m => selected last_id m = true) rows)).
Definition malformed (m : message) : bool := match mg_pdu m with Some p => PduClass.pdu_is_data p | None => false end.
Definition mark (ids : list Z) (rows : list message) : list message :=
  (fun m => if bool_decide (mg_id m ∈ ids) then mkMessage (mg_id m) (mg_incoming m) true (mg_pdu m) else m) <$> rows.

Fixpoint classify_loop (fuel : nat) (last_id : Z) (rows : list message) : option (list message) :=
  match fuel with
  | O => None
  | S fuel =>
      match page last_id rows with
      | [] => Some rows
      | p => classify_loop fuel (default last_id (mg_id <$> last p)) (mark (mg_id <$> filter (fun m => malformed m = true) p) rows)
      end
  end.
Definition migration_data_messages (d : database) : option database :=
  if has_table "messages" d
  then rows ← classify_loop (S (length (messages d))) 0 (messages d); Some (set_messages rows d)
  else None.

Definition migration_sim_lifecycle : database -> option database :=
  add_columns_if_missing "sims"
    [ ("billing_type", "TEXT NOT NULL DEFAULT 'unknown'"); ("plan_name", "TEXT NOT NULL DEFAULT ''");
      ("balance", "TEXT"); ("low_balance_threshold", "TEXT"); ("currency", "TEXT NOT NULL DEFAULT ''");
      ("balance_updated_at", "TEXT"); ("expires_at", "TEXT"); ("activity_due_at", "TEXT") ]%string.

(** CREATE INDEX: on columns the table has always had. *)
Definition migration_message_conversation_index (d : database) : option database := if has_table "messages" d then Some d else None.

Definition migration_modem_diagnostics : database -> option database :=
  add_columns_if_missing "devices"
    [ ("eps_registered", "INTEGER"); ("cs_registered", "INTEGER"); ("ims_registered", "INTEGER");
      ("hardware_model", "TEXT NOT NULL DEFAULT ''"); ("firmware", "TEXT NOT NULL DEFAULT ''") ]%string.

Definition migration_supply_voltage (d : database) : option database :=
  d ← add_columns_if_missing "devices"
    [ ("voltage_mv", "INTEGER"); ("low_voltage_mv", "INTEGER") ]%string d;
  add_columns_if_missing "device_status"
    [ ("voltage_mv", "INTEGER") ]%string d.

Definition migration_salvaged_messages : database -> option database :=
  add_columns_if_missing "messages"
    [ ("truncated", "INTEGER NOT NULL DEFAULT 0"); ("recovered_body", "TEXT"); ("recovered_code", "TEXT") ]%string.

Definition migration_calls (d : database) : option database := Some (create_table "calls" (schema_table "calls") d).

Definition migration_data_controls : database -> option database :=
  add_columns_if_missing "devices"
    [ ("data_attached", "INTEGER"); ("pdp_active", "INTEGER"); ("roaming", "INTEGER");
      ("roaming_data_allowed", "INTEGER NOT NULL DEFAULT 0");
      ("data_blocked_by_roaming", "INTEGER NOT NULL DEFAULT 0") ]%string.

Definition migration_data_policy : database -> option database :=
  add_columns_if_missing "devices"
    [ ("data_enabled", "INTEGER NOT NULL DEFAULT 0") ]%string.

(** The rebuild that gives [ingested] its new key. *)
Definition ingested_v14 : table :=
  mkTable [ ("agent_id", "TEXT NOT NULL"); ("stream_id", "TEXT NOT NULL DEFAULT ''"); ("seq", "INTEGER NOT NULL");
            ("kind", "TEXT NOT NULL"); ("at", "TEXT NOT NULL") ]%string ["PRIMARY KEY (agent_id, stream_id, seq)"]%string.
Definition migration_event_stream_epoch (d : database) : option database :=
  d ← add_columns_if_missing "agents" [("stream_id", "TEXT NOT NULL DEFAULT ''")]%string d;
  if bool_decide ("stream_id"%string ∈ table_info "ingested" d) then Some d
  else if has_table "ingested_v14" d || negb (has_table "ingested" d) then None
  else Some (set_ingested ((fun r => (r.1.1, [], r.2)) <$> ingested d)
               (set_tables (dict_del "ingested"%string (tables d) ++ [("ingested"%string, ingested_v14)]) d)).

(** The modules a task's device name may mean. *)
Definition matches (device agent : pystr) (modules : list TaskSync.device_row) : list TaskSync.device_row :=
  filter (fun m => TaskSync.dv_name m = device /\ (agent = [] \/ TaskSync.dv_agent m = agent)) modules.

Definition update_task (id : Z) (f : TaskSync.server_task -> TaskSync.server_task) (l : list TaskSync.server_task) : list TaskSync.server_task :=
  (fun t => if TaskSync.st_id t =? id then f t else t) <$> l.
Definition point_at (m : TaskSync.device_row) (t : TaskSync.server_task) : TaskSync.server_task :=
  TaskSync.mkServerTask (TaskSync.st_id t) (TaskSync.dv_agent m) (Some (TaskSync.dv_id m)) (TaskSync.st_spec t).
Definition pause (t : TaskSync.server_task) : TaskSync.server_task :=
  let v := TaskSync.st_spec t in
  TaskSync.mkServerTask (TaskSync.st_id t) (TaskSync.st_agent t) (TaskSync.st_device_id t)
    (Store.mkTaskSpec (Store.t_device v) (Store.t_name v) false (Store.t_action v) (Store.t_target_number v) (Store.t_content v)
       (Store.t_schedule_type v) (Store.t_schedule_expr v) (Store.t_jitter_seconds v) (Store.t_random_suffix v)
       (Store.t_retry_max v) (Store.t_notify_on_result v)).

Definition device_of (t : TaskSync.server_task) : pystr := Store.t_device (TaskSync.st_spec t).

(** The loop over the rows fetched first; the names of the paused tasks. *)
Definition pin_one (modules : list TaskSync.device_row) (acc : list TaskSync.server_task * list pystr) (row : TaskSync.server_task) :
    list TaskSync.server_task * list pystr :=
  let id := TaskSync.st_id row in
  match matches (device_of row) (TaskSync.st_agent row) modules with
  | [] => acc
  | [m] => (update_task id (point_at m) acc.1, acc.2)
  | _ => (update_task id pause acc.1, acc.2 ++ [str "#" ++ decimal id ++ str " " ++ device_of row])
  end.

Section Opening.
Context (now : Z).

Definition report_ambiguous (ambiguous : list pystr) (t : Incidents.table) : Incidents.table :=
  match ambiguous with
  | [] => t
  | first :: rest =>
      Incidents.open_incident (str "task-device-ambiguous") (str "task_device_ambiguous") (str "warning") (str "migration")
        [0x4FDD; 0x53F7; 0x4EFB; 0x52A1; 0x7684; 0x76EE; 0x6807; 0x6A21; 0x5757; 0x65E0; 0x6CD5; 0x552F; 0x4E00; 0x786E; 0x5B9A]
        (([0x4EE5; 0x4E0B; 0x4EFB; 0x52A1; 0x7684; 0x8BBE; 0x5907; 0x540D; 0x5728; 0x591A; 0x4E2A] ++ str " Agent " ++ [0x4E0A; 0x90FD; 0x5B58; 0x5728; 0xFF0C; 0x5DF2; 0x6682; 0x505C; 0x4EE5; 0x907F; 0x514D; 0x53D1; 0x5230; 0x9519; 0x8BEF; 0x7684; 0x5361; 0xFF0C; 0x8BF7; 0x5728; 0x4EFB; 0x52A1; 0x9875; 0x91CD; 0x65B0; 0x6307; 0x5B9A; 0x6A21; 0x5757; 0x540E; 0x542F; 0x7528; 0xFF1A])
           ++ foldl (fun text x => text ++ [0x3001] ++ x) first rest) now t
  end.

Definition migration_task_device_id (d : database) : option database :=
  d ← add_columns_if_missing "tasks" [("device_id", "INTEGER REFERENCES devices(id) ON DELETE SET NULL")]%string d;
  let rows := filter (fun t => device_of t <> []) (tasks d) in
  let '(l, ambiguous) := foldl (pin_one (devices d)) (tasks d, []) rows in
  let d := set_tasks l d in
  if negb (has_table "devices" d) || negb (has_table "incidents" d) then None
  else
    Some (set_incidents (report_ambiguous ambiguous (incidents d)) d).

Definition migration_notify_outbox (d : database) : option database :=
  Some (create_table "notify_deliveries" (schema_table "notify_deliveries") (create_table "notify_outbox" (schema_table "notify_outbox") d)).

Definition migration_task_sync : database -> option database :=
  add_columns_if_missing "agents"
    [ ("tasks_revision", "TEXT NOT NULL DEFAULT ''"); ("tasks_applied_revision", "TEXT NOT NULL DEFAULT ''");
      ("tasks_sync_id", "TEXT NOT NULL DEFAULT ''"); ("tasks_sync_status", "TEXT NOT NULL DEFAULT 'pending'");
      ("tasks_sync_error", "TEXT NOT NULL DEFAULT ''"); ("tasks_sync_sent_at", "TEXT"); ("tasks_synced_at", "TEXT") ]%string.

Definition migration_operations (d : database) : option database :=
  Some (create_table "command_operations" (schema_table "command_operations") d).

Definition migration_task_run_id : database -> option database :=
  add_columns_if_missing "task_logs"
    [ ("run_id", "TEXT") ]%string.

Record migration := mkMigration { target : Z; apply : database -> option database }.

Definition MIGRATIONS : list migration :=
  [ mkMigration 2 migration_message_diagnostics; mkMigration 3 migration_agent_protocol_version;
    mkMigration 4 migration_sms_delivery_segments; mkMigration 5 migration_data_messages;
    mkMigration 6 migration_sim_lifecycle; mkMigration 7 migration_message_conversation_index;
    mkMigration 8 migration_modem_diagnostics; mkMigration 9 migration_supply_voltage;
    mkMigration 10 migration_salvaged_messages; mkMigration 11 migration_calls;
    mkMigration 12 migration_data_controls; mkMigration 13 migration_data_policy;
    mkMigration 14 migration_event_stream_epoch; mkMigration 15 migration_task_device_id;
    mkMigration 16 migration_notify_outbox; mkMigration 17 migration_task_sync;
    mkMigration 18 migration_operations; mkMigration 19 migration_task_run_id ].

(** The steps [_migrate] runs from a version: a file made just now is stamped. *)
Definition steps (pre_existing : bool) (v : Z) : list migration :=
  if v =? SCHEMA_VERSION then []
  else if negb pre_existing then [mkMigration SCHEMA_VERSION Some]
  else
    let reconcile := if v =? 0 then [mkMigration 1 reconcile_to_baseline] else [] in
    let v := if v =? 0 then 1 else v in
    reconcile ++ filter (fun m => v < target m) MIGRATIONS.

(** A step's transaction: what it does and the version, or nothing. *)
Definition run_step (m : migration) (d : database) : option database := set_version (target m) <$> apply m d.

(** ** Starts, and deaths *)

(** The file beside its snapshots, one for each version they were taken at. *)
Record disk := mkDisk { file : database; snapshots : gmap Z database }.

Inductive phase :=
| Down                                               (* no process, or one that has given up with an exception *)
| Opened (pre_existing : bool)
| Creating (pre_existing : bool) (todo : schema)     (* in [executescript(SCHEMA)] *)
| Stepping (todo : list migration)
| Up.

Definition has_schema (d : database) : bool := has_table "devices" d.

Inductive step : phase * disk -> phase * disk -> Prop :=
| step_open k : step (Down, k) (Opened (has_schema (file k)), k)
| step_too_new pre k : SCHEMA_VERSION < version (file k) -> step (Opened pre, k) (Down, k)
| step_snapshot k : version (file k) < SCHEMA_VERSION ->
    step (Opened true, k) (Creating true SCHEMA, mkDisk (file k) (<[version (file k) := file k]> (snapshots k)))
| step_snapshot_fails k partial : version (file k) < SCHEMA_VERSION ->
    step (Opened true, k) (Down, mkDisk (file k) (<[version (file k) := partial]> (snapshots k)))
| step_no_snapshot pre k : version (file k) <= SCHEMA_VERSION -> pre = false \/ version (file k) = SCHEMA_VERSION ->
    step (Opened pre, k) (Creating pre SCHEMA, k)
| step_create pre T t todo k :
    step (Creating pre ((T, t) :: todo), k) (Creating pre todo, mkDisk (create_table T t (file k)) (snapshots k))
| step_created pre k : step (Creating pre [], k) (Stepping (steps pre (version (file k))), k)
| step_migrate m todo k d : run_step m (file k) = Some d ->
    step (Stepping (m :: todo), k) (Stepping todo, mkDisk d (snapshots k))
| step_up k : step (Stepping [], k) (Up, k)
| step_die p k : step (p, k) (Down, k).               (* killed, or an exception; a transaction underway is rolled back *)

End Opening.

(** ** What a migration owes, and what it does to the rows *)

(** The columns that came with each version. *)
Definition ADDS : list (Z * string * string) :=
  [ (1, "messages", "read_at"); (1, "devices", "radio_enabled"); (2, "messages", "raw_pdu"); (2, "messages", "dcs");
     (2, "messages", "is_binary"); (3, "agents", "protocol_version"); (6, "sims", "billing_type"); (6, "sims", "plan_name");
     (6, "sims", "balance"); (6, "sims", "low_balance_threshold"); (6, "sims", "currency"); (6, "sims", "balance_updated_at");
     (6, "sims", "expires_at"); (6, "sims", "activity_due_at"); (8, "devices", "eps_registered");
     (8, "devices", "cs_registered"); (8, "devices", "ims_registered"); (8, "devices", "hardware_model");
     (8, "devices", "firmware"); (9, "devices", "voltage_mv"); (9, "devices", "low_voltage_mv");
     (9, "device_status", "voltage_mv"); (10, "messages", "truncated"); (10, "messages", "recovered_body");
     (10, "messages", "recovered_code"); (12, "devices", "data_attached"); (12, "devices", "pdp_active");
     (12, "devices", "roaming"); (12, "devices", "roaming_data_allowed"); (12, "devices", "data_blocked_by_roaming");
     (13, "devices", "data_enabled"); (14, "agents", "stream_id"); (14, "ingested", "stream_id"); (15, "tasks", "device_id");
     (17, "agents", "tasks_revision"); (17, "agents", "tasks_applied_revision"); (17, "agents", "tasks_sync_id");
     (17, "agents", "tasks_sync_status"); (17, "agents", "tasks_sync_error"); (17, "agents", "tasks_sync_sent_at");
     (17, "agents", "tasks_synced_at"); (19, "task_logs", "run_id") ]%string.

(** A table of a file at version [v]: columns may be missing that came later. *)
Definition later (v : Z) (T c : string) : Prop := exists n, v < n /\ (n, T, c) ∈ ADDS.

Record fits (miss : string -> string -> Prop) (T : string) (t : table) : Prop := {
  f_known : is_Some (dict_get T SCHEMA);
  f_wf : dict_wf (t_columns t);
  f_decl : forall c decl, dict_get c (t_columns t) = Some decl -> dict_get c (t_columns (schema_table T)) = Some decl;
  f_miss : forall c, c ∈ dict_keys (t_columns (schema_table T)) -> c ∈ dict_keys (t_columns t) \/ miss T c;
  f_rest : t_rest t = t_rest (schema_table T) \/ T = "ingested"%string /\ "stream_id"%string ∉ dict_keys (t_columns t) }.

Definition shape (miss : string -> string -> Prop) (d : database) : Prop :=
  dict_wf (tables d) /\ forall T t, dict_get T (tables d) = Some t -> fits miss T t.

Definition complete (d : database) : Prop := forall T, is_Some (dict_get T SCHEMA) -> is_Some (dict_get T (tables d)).

Definition content (d : database) := (messages d, ingested d, tasks d, devices d, incidents d).

(** Row numbers come from AUTOINCREMENT; without the column there is one stream. *)
Record rows_ok (d : database) : Prop := {
  r_messages : NoDup (mg_id <$> messages d);
  r_positive : Forall (fun m => 0 < mg_id m) (messages d);
  r_tasks : NoDup (TaskSync.st_id <$> tasks d);
  r_streams : has_table "ingested" d = true -> "stream_id"%string ∉ table_info "ingested" d -> Forall (fun r => r.1.2 = []) (ingested d) }.

(** *** Tables *)

Lemma get_of_key {V} (T : string) (d : pydict string V) : T ∈ dict_keys d -> is_Some (dict_get T d).
Proof. intros H. destruct (dict_get T d) eqn:E; [by eexists|]. by apply dict_get_None in E. Qed.

Lemma key_of_get {V} (T : string) (d : pydict string V) : is_Some (dict_get T d) -> T ∈ dict_keys d.
Proof. intros [x H]. apply dict_get_Some_in in H. by apply (list_elem_of_fmap_2 fst) in H. Qed.

Lemma get_app_l {V} (T : string) (a b : pydict string V) : is_Some (dict_get T a) -> dict_get T (a ++ b) = dict_get T a.
Proof. induction a as [|[k v] a IH]; [by intros []|]. cbn. by case_decide. Qed.

Lemma keys_app {V} (a b : pydict string V) : dict_keys (a ++ b) = dict_keys a ++ dict_keys b.
Proof. apply fmap_app. Qed.

Lemma fits_weaken (miss miss' : string -> string -> Prop) T t :
  (forall c, c ∈ dict_keys (t_columns (schema_table T)) -> miss T c -> miss' T c) -> fits miss T t -> fits miss' T t.
Proof. intros Hm [H1 H2 H3 H4 H5]. split; try done. intros c Hc. destruct (H4 c Hc) as [H|H]; [by left|right; auto]. Qed.

(** What [add_columns_if_missing] leaves. *)
Definition extended (t : table) (columns : pydict string string) : table :=
  mkTable (t_columns t ++ filter (fun c => c.1 ∉ dict_keys (t_columns t)) columns) (t_rest t).

Lemma add_missing_spec T present columns : dict_wf columns -> forall d t,
  dict_get T (tables d) = Some t -> (forall c, c ∈ dict_keys columns -> c ∈ present <-> c ∈ dict_keys (t_columns t)) ->
  exists d', add_missing T present columns d = Some d' /\ content d' = content d /\ version d' = version d
    /\ dict_get T (tables d') = Some (extended t columns) /\ (forall T', T' <> T -> dict_get T' (tables d') = dict_get T' (tables d))
    /\ (dict_wf (tables d) -> dict_wf (tables d')).
Proof.
  induction columns as [|[c decl] columns IH]; intros Hwf d t Ht Hp.
  { exists d. split_and!; try done. rewrite Ht. unfold extended. cbn. rewrite app_nil_r. by destruct t. }
  apply NoDup_cons in Hwf as [Hc Hwf]. cbn [add_missing].
  assert (Hcp : c ∈ present <-> c ∈ dict_keys (t_columns t)) by (apply Hp; left).
  case_bool_decide as Hin.
  - destruct (IH Hwf d t Ht) as (d' & E & H1 & H2 & H3 & H4 & H5); [intros c' Hc'; apply Hp; by right|].
    exists d'. split_and!; try done. rewrite H3. unfold extended. rewrite (filter_cons_False _ (c, decl)); [done|]. cbn. tauto.
  - unfold add_column. rewrite Ht. cbn [mbind option_bind]. rewrite bool_decide_eq_false_2 by tauto. cbn [mbind option_bind].
    set (d1 := set_tables _ d). set (t1 := mkTable (t_columns t ++ [(c, decl)]) (t_rest t)) in *.
    assert (Ht1 : dict_get T (tables d1) = Some t1) by (unfold d1; cbn; by rewrite dict_get_set).
    destruct (IH Hwf d1 t1 Ht1) as (d' & E & H1 & H2 & H3 & H4 & H5).
    { intros c' Hc'. rewrite (Hp c') by (by right). unfold t1. cbn [t_columns]. rewrite keys_app, elem_of_app. cbn.
      rewrite list_elem_of_singleton. split; [by left|]. intros [H| ->]; [done|]. by destruct Hc. }
    exists d'. split_and!; try done.
    + rewrite H3. unfold extended, t1. cbn [t_columns t_rest]. rewrite (filter_cons_True _ (c, decl)) by (cbn; tauto). rewrite <- app_assoc. cbn [app].
      do 4 f_equal. apply filter_ext_in. intros [c' x] Hc'. cbn. rewrite keys_app, elem_of_app. cbn. rewrite list_elem_of_singleton.
      split; [tauto|]. intros H [H'| ->]; [done|]. apply Hc. by apply (list_elem_of_fmap_2 fst) in Hc'.
    + intros T' HT'. rewrite H4 by done. unfold d1. cbn. by apply dict_get_set_ne.
    + intros Hw. apply H5. unfold d1. cbn. by apply dict_set_wf.
Qed.

(** *** The pages of messages *)

(** The reference: every inbound text whose stored frame is data. *)
Definition classified (m : message) : message :=
  if mg_incoming m && negb (mg_binary m) && malformed m then mkMessage (mg_id m) (mg_incoming m) true (mg_pdu m) else m.

Definition half (last_id : Z) (rows : list message) : list message :=
  (fun m => if mg_id m <=? last_id then classified m else m) <$> rows.

Lemma classified_id m : mg_id (classified m) = mg_id m.
Proof. unfold classified. by case_match. Qed.

Lemma half_ids l rows : mg_id <$> half l rows = mg_id <$> rows.
Proof. unfold half. rewrite <- list_fmap_compose. apply list_fmap_ext. intros k m _. cbn. case_match; [apply classified_id|done]. Qed.

#[export] Instance id_le_total : Total id_le.
Proof. intros a b. unfold id_le. lia. Qed.
#[export] Instance id_le_trans : Transitive id_le.
Proof. intros a b c. unfold id_le. lia. Qed.

Lemma unique_key {A} (key : A -> Z) (l : list A) a b : NoDup (key <$> l) -> a ∈ l -> b ∈ l -> key a = key b -> a = b.
Proof.
  induction l as [|x l IH]; intros Hn Ha Hb E; [by apply elem_of_nil in Ha|]. apply NoDup_cons in Hn as [Hx Hn].
  apply elem_of_cons in Ha as [->|Ha], Hb as [->|Hb]; try done.
  - exfalso. apply Hx. rewrite E. by apply list_elem_of_fmap_2.
  - exfalso. apply Hx. rewrite <- E. by apply list_elem_of_fmap_2.
  - by apply IH.
Qed.

(** A page is the selected rows up to its last number. *)
Lemma page_spec l rows p x : NoDup (mg_id <$> rows) -> page l rows = p ++ [x] ->
  l < mg_id x /\ x ∈ rows /\ forall m, m ∈ rows -> m ∈ p ++ [x] <-> selected l m = true /\ mg_id m <= mg_id x.
Proof.
  intros Hn Hp. unfold page in Hp. set (S := merge_sort id_le _) in Hp.
  assert (HS : S ≡ₚ filter (fun m => selected l m = true) rows) by apply merge_sort_Permutation.
  assert (Hsort : StronglySorted id_le S) by (apply Sorted_StronglySorted; [apply _|apply Sorted_merge_sort, _]).
  assert (HSn : NoDup (mg_id <$> S)) by (rewrite HS; eapply sublist_NoDup; [exact Hn|apply fmap_filter_sublist]).
  rewrite <- (take_drop 500 S), Hp in Hsort, HSn, HS.
  assert (He : forall m, m ∈ p ++ [x] \/ m ∈ drop 500 S <-> selected l m = true /\ m ∈ rows).
  { intros m. rewrite <- (list_elem_of_filter (fun m => selected l m = true)), <- HS. symmetry. apply elem_of_app. }
  assert (Hx : x ∈ p ++ [x]) by (apply elem_of_app; right; left).
  assert (Hin : forall m, m ∈ p ++ [x] -> mg_id m <= mg_id x).
  { intros m [Hm| ->%list_elem_of_singleton]%elem_of_app; [|done]. apply StronglySorted_app in Hsort as (_ & Hs & _).
    apply StronglySorted_app in Hs as (Hs & _ & _). apply (Hs m x); [done|left]. }
  split_and!; [|by apply He; left|].
  - destruct (proj1 (He x) (or_introl Hx)) as [H _]. unfold selected in H. lia.
  - intros m Hm. split; [intros Hmp; split; [by apply He; left|by apply Hin]|]. intros [Hsel Hle].
    destruct (proj2 (He m) (conj Hsel Hm)) as [H|H]; [done|]. exfalso.
    assert (Hge : id_le x m) by (apply StronglySorted_app in Hsort as (Hs & _ & _); by apply Hs).
    rewrite fmap_app in HSn. apply NoDup_app in HSn as (_ & Hd & _). apply (Hd (mg_id x)); [by apply list_elem_of_fmap_2|].
    replace (mg_id x) with (mg_id m) by (unfold id_le in Hge; lia). by apply list_elem_of_fmap_2.
Qed.

Lemma half_elem l rows m : m ∈ half l rows <-> exists m0, m0 ∈ rows /\ m = if mg_id m0 <=? l then classified m0 else m0.
Proof. unfold half. rewrite list_elem_of_fmap. naive_solver. Qed.

(** One page more. *)
Lemma mark_half l rows p x : NoDup (mg_id <$> rows) -> page l (half l rows) = p ++ [x] ->
  mark (mg_id <$> filter (fun m => malformed m = true) (p ++ [x])) (half l rows) = half (mg_id x) rows.
Proof.
  intros Hn Hp. destruct (page_spec l (half l rows) p x) as (Hl & _ & Hin); [by rewrite half_ids|done|].
  set (q := p ++ [x]) in *. set (ids := mg_id <$> _).
  assert (Hids : forall m, m ∈ half l rows -> mg_id m ∈ ids <-> m ∈ q /\ malformed m = true).
  { intros m Hm. unfold ids. rewrite list_elem_of_fmap. split.
    - intros (m' & E & [Hb Hm']%list_elem_of_filter). cbn in Hb. assert (m' ∈ half l rows).
      { unfold page in Hp. assert (Hs : m' ∈ take 500 (merge_sort id_le (filter (fun m => selected l m = true) (half l rows)))) by (rewrite Hp; done).
        eapply (sublist_subseteq _ _ (sublist_take _ 500)) in Hs. rewrite merge_sort_Permutation in Hs. by apply list_elem_of_filter in Hs as [_ Hs]. }
      rewrite (unique_key mg_id (half l rows) m m'); [done| |done|done|done]. by rewrite half_ids.
    - intros [Hq Hb]. exists m. split; [done|]. by apply list_elem_of_filter. }
  unfold mark. unfold half at 1. unfold half. rewrite <- list_fmap_compose. apply list_fmap_ext. intros k m0 Hm0%list_elem_of_lookup_2.
  unfold compose. set (m := if mg_id m0 <=? l then classified m0 else m0).
  assert (Hm : m ∈ half l rows) by (apply half_elem; by exists m0).
  assert (Eid : mg_id m = mg_id m0) by (unfold m; case_match; [apply classified_id|done]).
  specialize (Hids m Hm). specialize (Hin m Hm). unfold selected in Hin.
  destruct (Z.leb_spec (mg_id m0) l) as [Hle|Hgt]; subst m.
  - rewrite bool_decide_eq_false_2 by (rewrite Hids, Hin; lia). by destruct (Z.leb_spec (mg_id m0) (mg_id x)); [|lia].
  - destruct (Z.leb_spec (mg_id m0) (mg_id x)) as [Hx|Hx]; [|rewrite bool_decide_eq_false_2; [done|rewrite Hids, Hin; lia]].
    unfold classified. unfold malformed in *. destruct (mg_pdu m0) as [pdu|] eqn:Epdu; [|rewrite andb_false_r, bool_decide_eq_false_2; [done|rewrite Hids; naive_solver]].
    destruct (bool_decide_reflect (mg_id m0 ∈ ids)) as [Hd|Hd].
    + apply Hids in Hd as [Hq Hb]. apply Hin in Hq as [Hsel _]. rewrite Hb. by replace (mg_incoming m0 && negb (mg_binary m0) && true) with true by lia.
    + destruct (mg_incoming m0 && negb (mg_binary m0) && PduClass.pdu_is_data pdu) eqn:Ec; [|done]. exfalso. apply Hd, Hids. split; [|lia].
      apply Hin. split; [|lia]. rewrite bool_decide_eq_true_2 by (by eexists). lia.
Qed.

Lemma classify_loop_spec (rows : list message) : NoDup (mg_id <$> rows) -> forall (fuel : nat) (l : Z),
  (length (filter (fun m => (l < mg_id m)%Z) rows) < fuel)%nat -> classify_loop fuel l (half l rows) = Some (classified <$> rows).
Proof.
  intros Hn. induction fuel as [|fuel IH]; intros l Hlt; [lia|]. cbn [classify_loop].
  destruct (page l (half l rows)) as [|y p'] eqn:Ep.
  - f_equal. unfold half. apply list_fmap_ext. intros k m Hm%list_elem_of_lookup_2. destruct (Z.leb_spec (mg_id m) l) as [|Hgt]; [done|].
    unfold page in Ep. assert (Hnone : filter (fun m => selected l m = true) (half l rows) = []).
    { apply Permutation_nil_r. rewrite <- (merge_sort_Permutation id_le). destruct (merge_sort id_le _); [done|by cbn in Ep]. }
    assert (Hh : m ∈ half l rows) by (apply half_elem; exists m; split; [done|by destruct (Z.leb_spec (mg_id m) l); [lia|]]).
    assert (Hs : selected l m = false).
    { destruct (selected l m) eqn:E; [|done]. exfalso. apply (not_elem_of_nil m). rewrite <- Hnone. by apply list_elem_of_filter. }
    unfold classified. unfold selected in Hs. unfold malformed. destruct (mg_pdu m); [|by rewrite andb_false_r].
    rewrite bool_decide_eq_true_2 in Hs by (by eexists). by replace (mg_incoming m && negb (mg_binary m)) with false by lia.
  - destruct (exists_last (l := y :: p') ltac:(done)) as (p & x & E). rewrite E in *. rewrite last_snoc. cbn [fmap option_fmap option_map default].
    rewrite (mark_half l rows p x Hn Ep). destruct (page_spec l (half l rows) p x) as (Hl & Hx & _); [by rewrite half_ids|done|].
    apply half_elem in Hx as (x0 & Hx0 & Ex). assert (Eid : mg_id x0 = mg_id x) by (rewrite Ex; case_match; [by rewrite classified_id|done]).
    apply IH. assert (Hf : filter (fun m => mg_id x < mg_id m) rows = filter (fun m => mg_id x < mg_id m) (filter (fun m => l < mg_id m) rows)).
    { rewrite list_filter_filter. apply filter_ext_in. intros m _. lia. }
    rewrite Hf. eapply Nat.lt_le_trans; [apply (length_filter_lt _ _ x0); [by apply list_elem_of_filter; split; [lia|]|lia]|lia].
Qed.

Lemma migration_data_messages_spec d : has_table "messages" d = true -> rows_ok d ->
  migration_data_messages d = Some (set_messages (classified <$> messages d) d).
Proof.
  intros Ht [Hn Hp _ _]. unfold migration_data_messages. rewrite Ht.
  assert (E : half 0 (messages d) = messages d).
  { unfold half. rewrite Forall_forall in Hp. rewrite <- (list_fmap_id (messages d)) at 2. apply list_fmap_ext. intros k m Hm%list_elem_of_lookup_2.
    apply Hp in Hm. by destruct (Z.leb_spec (mg_id m) 0); [lia|]. }
  rewrite <- E at 2. rewrite classify_loop_spec; [done|done|]. apply Nat.lt_succ_r, length_filter.
Qed.

(** *** The tasks' modules *)

(** The reference: where a task that names a module goes. *)
Definition settled (modules : list TaskSync.device_row) (t : TaskSync.server_task) : TaskSync.server_task :=
  if bool_decide (device_of t = []) then t
  else match matches (device_of t) (TaskSync.st_agent t) modules with
       | [] => t
       | [m] => point_at m t
       | _ => pause t
       end.

Definition paused (modules : list TaskSync.device_row) (l : list TaskSync.server_task) : list TaskSync.server_task :=
  filter (fun t => device_of t <> [] /\ (1 < length (matches (device_of t) (TaskSync.st_agent t) modules))%nat) l.

Definition task_label (t : TaskSync.server_task) : pystr := str "#" ++ decimal (TaskSync.st_id t) ++ str " " ++ device_of t.

Lemma settled_id modules t : TaskSync.st_id (settled modules t) = TaskSync.st_id t.
Proof. unfold settled. case_bool_decide; [done|]. by destruct (matches _ _ _) as [|m [|]]. Qed.

(** [rows] are rows of [l] still to do; those with an id in [dn] are done. *)
Lemma pin_fold modules (l rows : list TaskSync.server_task) : NoDup (TaskSync.st_id <$> l) -> NoDup (TaskSync.st_id <$> rows) ->
  (forall t, t ∈ rows -> t ∈ l /\ device_of t <> []) -> forall dn names, (forall t, t ∈ rows -> TaskSync.st_id t ∉ dn) ->
  foldl (pin_one modules) ((fun t => if bool_decide (TaskSync.st_id t ∈ dn) then settled modules t else t) <$> l, names) rows
  = ((fun t => if bool_decide (TaskSync.st_id t ∈ dn ++ (TaskSync.st_id <$> rows)) then settled modules t else t) <$> l,
     names ++ (task_label <$> paused modules rows)).
Proof.
  intros Hl. induction rows as [|r rows IH]; intros Hn Hin dn names Hdn; cbn [foldl fmap list_fmap].
  { unfold paused. cbn. by rewrite !app_nil_r. }
  apply NoDup_cons in Hn as [Hr Hn]. destruct (Hin r ltac:(left)) as [Hrl Hdev].
  set (acc := (fun t => if bool_decide (TaskSync.st_id t ∈ dn) then settled modules t else t) <$> l).
  assert (Hstep : pin_one modules (acc, names) r
     = ((fun t => if bool_decide (TaskSync.st_id t ∈ dn ++ [TaskSync.st_id r]) then settled modules t else t) <$> l,
        names ++ (task_label <$> paused modules [r]))).
  { assert (Hu : forall f, settled modules r = f r -> update_task (TaskSync.st_id r) f acc
        = (fun t => if bool_decide (TaskSync.st_id t ∈ dn ++ [TaskSync.st_id r]) then settled modules t else t) <$> l).
    { intros f Hf. unfold update_task, acc. rewrite <- list_fmap_compose. apply list_fmap_ext. intros k t Ht%list_elem_of_lookup_2. unfold compose.
      assert (Hrd : TaskSync.st_id r ∉ dn) by (apply Hdn; left).
      destruct (decide (TaskSync.st_id t = TaskSync.st_id r)) as [E|Hne].
      - assert (t = r) as -> by (by apply (unique_key TaskSync.st_id l)). rewrite (bool_decide_eq_false_2 (_ ∈ dn)) by done. rewrite Z.eqb_refl.
        rewrite bool_decide_eq_true_2; [by rewrite Hf|]. apply elem_of_app. right. left.
      - assert (E : forall b : bool, TaskSync.st_id (if b then settled modules t else t) = TaskSync.st_id t) by (intros []; [apply settled_id|done]).
        rewrite E. destruct (Z.eqb_spec (TaskSync.st_id t) (TaskSync.st_id r)); [done|]. erewrite bool_decide_ext; [reflexivity|].
        rewrite elem_of_app, list_elem_of_singleton. naive_solver. }
    assert (Hs : settled modules r = match matches (device_of r) (TaskSync.st_agent r) modules with [] => r | [m] => point_at m r | _ => pause r end).
    { unfold settled. by rewrite bool_decide_eq_false_2. }
    unfold pin_one, paused. cbn [fst snd]. rewrite filter_cons, filter_nil. destruct (matches _ _ _) as [|m [|m' ms]] eqn:Em; cbn [length].
    - rewrite decide_False by lia. cbn. rewrite app_nil_r, <- (Hu (fun t => t) Hs). f_equal. unfold update_task.
      rewrite <- (list_fmap_id acc) at 1. apply list_fmap_ext. intros k t _. by case_match.
    - rewrite decide_False by lia. cbn. by rewrite app_nil_r, <- (Hu (point_at m) Hs).
    - rewrite decide_True by (split; [done|lia]). by rewrite <- (Hu pause Hs). }
  rewrite Hstep, IH.
  - rewrite <- !app_assoc. f_equal. f_equal. unfold paused. change (r :: rows) with ([r] ++ rows). by rewrite filter_app, fmap_app.
  - done.
  - intros t Ht. apply Hin. by right.
  - intros t Ht Hd. apply elem_of_app in Hd as [Hd|Hd%list_elem_of_singleton]; [by apply (Hdn t); [right|]|].
    apply Hr. rewrite <- Hd. by apply list_elem_of_fmap_2.
Qed.

Lemma pin_all modules l : NoDup (TaskSync.st_id <$> l) ->
  foldl (pin_one modules) (l, []) (filter (fun t => device_of t <> []) l) = (settled modules <$> l, task_label <$> paused modules l).
Proof.
  intros Hn. set (rows := filter _ l). assert (Hr : NoDup (TaskSync.st_id <$> rows)) by (eapply sublist_NoDup; [exact Hn|apply fmap_filter_sublist]).
  pose proof (pin_fold modules l rows Hn Hr) as H. specialize (H ltac:(intros t [Hd Ht]%list_elem_of_filter; done) [] [] ltac:(intros t _; apply not_elem_of_nil)).
  assert (E0 : (fun t => if bool_decide (TaskSync.st_id t ∈ []) then settled modules t else t) <$> l = l).
  { rewrite <- (list_fmap_id l) at 2. by apply list_fmap_ext. }
  rewrite E0 in H.
  rewrite H. cbn [app]. f_equal.
  - apply list_fmap_ext. intros k t Ht%list_elem_of_lookup_2. destruct (decide (device_of t = [])) as [E|E].
    + rewrite bool_decide_eq_false_2; [unfold settled; by rewrite bool_decide_eq_true_2|].
      intros (t' & Et & [Hd Ht']%list_elem_of_filter)%list_elem_of_fmap. apply Hd. by rewrite <- (unique_key TaskSync.st_id l t t').
    + rewrite bool_decide_eq_true_2; [done|]. apply list_elem_of_fmap_2. by apply list_elem_of_filter.
  - f_equal. unfold paused, rows. rewrite list_filter_filter. apply filter_ext_in. intros t _. tauto.
Qed.

(** *** Each step *)

Section Steps.
Context (now : Z).

(** The rows the migrations above [v] leave. *)
Definition outcome (v : Z) (d : database) :=
  (if v <? 5 then classified <$> messages d else messages d, ingested d,
   if v <? 15 then settled (devices d) <$> tasks d else tasks d, devices d,
   if v <? 15 then report_ambiguous now (task_label <$> paused (devices d) (tasks d)) (incidents d) else incidents d).

Lemma outcome_content v d d' : content d' = content d -> outcome v d' = outcome v d.
Proof. unfold content, outcome. by intros [= -> -> -> -> ->]. Qed.

Fixpoint add_list (l : list (string * pydict string string)) (d : database) : option database :=
  match l with
  | [] => Some d
  | (T, columns) :: l => d ← add_columns_if_missing T columns d; add_list l d
  end.

(** The columns of [l] are the schema's, and are the ones version [n] brought. *)
Definition adds_ok (l : list (string * pydict string string)) : bool :=
  forallb (fun x => bool_decide (is_Some (dict_get x.1 SCHEMA)) && bool_decide (NoDup (dict_keys x.2)) && negb (bool_decide (x.1 = "ingested"%string))
    && forallb (fun c => bool_decide (dict_get c.1 (t_columns (schema_table x.1)) = Some c.2)) x.2) l.
Definition covers (n : Z) (l : list (string * pydict string string)) : bool :=
  forallb (fun a => negb (a.1.1 =? n) || existsb (fun x => bool_decide (x.1 = a.1.2) && bool_decide (a.2 ∈ dict_keys x.2)) l) ADDS.

Definition missing_after (miss : string -> string -> Prop) (l : list (string * pydict string string)) (T c : string) : Prop :=
  miss T c /\ forall columns, (T, columns) ∈ l -> c ∉ dict_keys columns.

Lemma later_covered n l T c : covers n l = true -> missing_after (later (n - 1)) l T c -> later n T c.
Proof.
  unfold covers. rewrite forallb_forall. intros Hc [(k & Hk & Ha) Hl]. exists k. split; [|done].
  destruct (decide (k = n)) as [->|]; [|lia]. exfalso. specialize (Hc _ (proj1 (list_elem_of_In _ _) Ha)). cbn in Hc.
  rewrite Z.eqb_refl in Hc. cbn in Hc. apply existsb_exists in Hc as ([T' cs] & Hx & Hb). cbn in Hb.
  apply andb_prop in Hb as [->%bool_decide_eq_true Hin%bool_decide_eq_true].
  apply (Hl cs); [by apply list_elem_of_In|done].
Qed.

Lemma extended_fits miss T columns t : dict_wf columns -> (forall c decl, (c, decl) ∈ columns -> dict_get c (t_columns (schema_table T)) = Some decl) ->
  T <> "ingested"%string -> fits miss T t -> fits (fun T' c => miss T' c /\ ~ (T' = T /\ c ∈ dict_keys columns)) T (extended t columns).
Proof.
  intros Hwf Hdecl Hne [H1 H2 H3 H4 H5]. set (new := filter (fun c : string * string => c.1 ∉ dict_keys (t_columns t)) columns).
  assert (Hnew : forall c, c ∈ dict_keys new <-> c ∈ dict_keys columns /\ c ∉ dict_keys (t_columns t)).
  { intros c. split.
    - intros Hc. apply list_elem_of_fmap in Hc as ([c' x] & -> & Hf). apply list_elem_of_filter in Hf as [Hn Hx].
      split; [|done]. by apply (list_elem_of_fmap_2 fst) in Hx.
    - intros [Hc Hn]. apply list_elem_of_fmap in Hc as ([c' x] & -> & Hx). apply (list_elem_of_fmap_2 fst new (c', x)).
      by apply list_elem_of_filter. }
  split; [done| | | |].
  - unfold extended, dict_wf. cbn [t_columns]. rewrite keys_app. apply NoDup_app. split; [exact H2|]. split.
    + intros c Hc [_ Hc']%Hnew. done.
    + eapply sublist_NoDup; [exact Hwf|]. apply fmap_filter_sublist.
  - intros c decl Hg. cbn [extended t_columns] in Hg. destruct (decide (c ∈ dict_keys (t_columns t))) as [Hc|Hc].
    + apply H3. rewrite <- Hg. symmetry. apply get_app_l. by apply get_of_key.
    + rewrite dict_get_app in Hg by done. apply dict_get_Some_in in Hg as [_ Hg]%list_elem_of_filter. by apply Hdecl.
  - intros c Hc. cbn [extended t_columns]. fold new. rewrite keys_app, elem_of_app, Hnew. destruct (H4 c Hc) as [H|H]; [by left; left|].
    destruct (decide (c ∈ dict_keys columns)), (decide (c ∈ dict_keys (t_columns t))); tauto.
  - cbn [extended t_rest]. destruct H5 as [H|[H _]]; [by left|done].
Qed.

Lemma add_list_spec l : adds_ok l = true -> forall miss d, complete d -> shape miss d ->
  exists d', add_list l d = Some d' /\ content d' = content d /\ version d' = version d /\ complete d'
    /\ (forall T, is_Some (dict_get T (tables d')) <-> is_Some (dict_get T (tables d)))
    /\ dict_get "ingested"%string (tables d') = dict_get "ingested"%string (tables d) /\ shape (missing_after miss l) d'.
Proof.
  induction l as [|[T columns] l IH]; intros Hok miss d Hc [Hw Hs].
  { exists d. split_and!; try done. split; [done|]. intros T t Ht. eapply fits_weaken; [|by apply Hs]. intros c _ Hm. split; [done|].
    intros cs Hcs. by apply elem_of_nil in Hcs. }
  cbn [adds_ok forallb] in Hok. apply andb_prop in Hok as [Hx Hok]. apply andb_prop in Hx as [Hx Hdecl]. apply andb_prop in Hx as [Hx Hne].
  apply andb_prop in Hx as [Hk%bool_decide_eq_true Hn%bool_decide_eq_true]. cbn in Hk, Hn, Hne, Hdecl. rewrite negb_true_iff, bool_decide_eq_false in Hne.
  destruct (Hc T Hk) as [t Ht].
  destruct (add_missing_spec T (table_info T d) columns Hn d t Ht) as (d1 & E & H1 & H2 & H3 & H4 & H5).
  { intros c _. unfold table_info. by rewrite Ht. }
  assert (Hsome : forall T', is_Some (dict_get T' (tables d1)) <-> is_Some (dict_get T' (tables d))).
  { intros T'. destruct (decide (T' = T)) as [->|HT]; [|by rewrite H4]. rewrite H3, Ht. split; intros _; by eexists. }
  destruct (IH Hok (fun T' c => miss T' c /\ ~ (T' = T /\ c ∈ dict_keys columns)) d1) as (d' & E' & G1 & G2 & G3 & G4 & G5 & G6).
  - intros T' HT'. apply Hsome. by apply Hc.
  - split; [by apply H5|]. intros T' t' Ht'. destruct (decide (T' = T)) as [->|HT].
    + rewrite H3 in Ht'. injection Ht' as <-. apply extended_fits; [done| |done|by apply Hs].
      intros c decl Hcd. rewrite forallb_forall in Hdecl. specialize (Hdecl _ (proj1 (list_elem_of_In _ _) Hcd)). by apply bool_decide_eq_true in Hdecl.
    + rewrite H4 in Ht' by done. eapply fits_weaken; [|by apply Hs]. intros c _ Hm. split; [done|]. by intros [-> _].
  - exists d'. cbn [add_list]. unfold add_columns_if_missing at 1. rewrite E. cbn [mbind option_bind]. split_and!; [exact E'|congruence|congruence|done| |by rewrite G5, H4|].
    + intros T'. by rewrite G4.
    + destruct G6 as [Gw Gs]. split; [done|]. intros T' t' Ht'. eapply fits_weaken; [|by apply Gs].
      intros c _ [[Hm Hnot] Hl]. split; [done|]. intros cs [[= -> ->]|Hcs]%elem_of_cons; [tauto|by apply Hl].
Qed.

Record ready (v : Z) (d : database) : Prop := {
  rd_complete : complete d;
  rd_shape : shape (later v) d;
  rd_rows : rows_ok d }.

Definition sound (m : migration) : Prop := forall d, ready (target m - 1) d ->
  exists d', apply m d = Some d' /\ version d' = version d /\ ready (target m) d' /\ outcome (target m) d' = outcome (target m - 1) d.

Lemma rows_ok_same d d' : content d' = content d -> dict_get "ingested"%string (tables d') = dict_get "ingested"%string (tables d) ->
  rows_ok d -> rows_ok d'.
Proof.
  unfold content. intros [= E1 E2 E3 _ _] Ei [H1 H2 H3 H4]. split; rewrite ?E1, ?E2, ?E3; try done.
  unfold has_table, table_info in *. by rewrite Ei.
Qed.

Lemma outcome_step n d : n <> 5 -> n <> 15 -> outcome n d = outcome (n - 1) d.
Proof.
  intros H5 H15. unfold outcome. replace (n - 1 <? 5) with (n <? 5) by lia. by replace (n - 1 <? 15) with (n <? 15) by lia.
Qed.

(** A step that adds columns, or nothing. *)
Lemma adds_sound n f l : adds_ok l = true -> covers n l = true -> n <> 5 -> n <> 15 -> (forall d, complete d -> f d = add_list l d) ->
  sound (mkMigration n f).
Proof.
  intros Hok Hcov H5 H15 Hf d [Hc Hs Hr]. cbn [target apply] in *.
  destruct (add_list_spec l Hok _ d Hc Hs) as (d' & E & H1 & H2 & H3 & _ & Hi & [Hw Hs']).
  exists d'. split_and!; [by rewrite Hf|done| |].
  - split; [done| |by eapply rows_ok_same]. split; [done|]. intros T t Ht. eapply fits_weaken; [|by apply Hs'].
    intros c _. by apply later_covered.
  - rewrite (outcome_content _ d) by done. by apply outcome_step.
Qed.

Lemma create_complete T d : complete d -> is_Some (dict_get T SCHEMA) -> create_table T (schema_table T) d = d.
Proof. intros Hc HT. unfold create_table, has_table. by rewrite bool_decide_eq_true_2 by (by apply Hc). Qed.

Lemma known T : bool_decide (is_Some (dict_get T SCHEMA)) = true -> is_Some (dict_get T SCHEMA).
Proof. apply bool_decide_eq_true. Qed.

Lemma has_known T d : complete d -> bool_decide (is_Some (dict_get T SCHEMA)) = true -> has_table T d = true.
Proof. intros Hc HT. apply bool_decide_eq_true. by apply Hc, known. Qed.

Lemma reconcile_adds d : complete d ->
  reconcile_to_baseline d = add_list [("messages", [("read_at", "TEXT")]); ("devices", [("radio_enabled", "INTEGER")])]%string d.
Proof.
  intros Hc. unfold reconcile_to_baseline. cbn [add_list]. unfold add_columns_if_missing. cbn [add_missing].
  assert (E : forall r : option database, (d ← r; Some d) = r) by (by intros []). rewrite E.
  destruct (bool_decide ("read_at"%string ∈ _)) eqn:E1; cbn [mbind option_bind]; [by rewrite !E|].
  destruct (add_column "messages" "read_at" "TEXT" d) as [d1|] eqn:Ea; cbn [mbind option_bind]; [|done].
  assert (Ed : table_info "devices" d1 = table_info "devices" d).
  { unfold add_column in Ea. apply bind_Some in Ea as (t & _ & Ea). case_bool_decide; [done|]. injection Ea as <-.
    unfold table_info. cbn [set_tables tables]. by rewrite dict_get_set_ne. }
  by rewrite Ed, !E.
Qed.

(** By the columns it adds, when that is all the step does. *)
Ltac adds l := apply (adds_sound _ _ l%string); [vm_compute; reflexivity|vm_compute; reflexivity|lia|lia|].
Ltac adds_one := intros d Hc; cbn [add_list]; match goal with |- ?f d = _ => unfold f end; by destruct (add_columns_if_missing _ _ d).

Lemma sound_1 : sound (mkMigration 1 reconcile_to_baseline).
Proof. adds [("messages", [("read_at", "TEXT")]); ("devices", [("radio_enabled", "INTEGER")])]. exact reconcile_adds. Qed.
Lemma sound_2 : sound (mkMigration 2 migration_message_diagnostics).
Proof. adds [("messages", [("raw_pdu", "TEXT"); ("dcs", "INTEGER"); ("is_binary", "INTEGER NOT NULL DEFAULT 0")])]. adds_one. Qed.
Lemma sound_3 : sound (mkMigration 3 migration_agent_protocol_version).
Proof. adds [("agents", [("protocol_version", "INTEGER NOT NULL DEFAULT 0")])]. adds_one. Qed.
Lemma sound_4 : sound (mkMigration 4 migration_sms_delivery_segments).
Proof. adds (@nil (string * pydict string string)). intros d Hc. unfold migration_sms_delivery_segments. cbn [add_list]. f_equal. by apply create_complete, known; [|vm_compute]. Qed.
Lemma sound_6 : sound (mkMigration 6 migration_sim_lifecycle).
Proof. adds [("sims", [("billing_type", "TEXT NOT NULL DEFAULT 'unknown'"); ("plan_name", "TEXT NOT NULL DEFAULT ''"); ("balance", "TEXT"); ("low_balance_threshold", "TEXT"); ("currency", "TEXT NOT NULL DEFAULT ''"); ("balance_updated_at", "TEXT"); ("expires_at", "TEXT"); ("activity_due_at", "TEXT")])]. adds_one. Qed.
Lemma sound_7 : sound (mkMigration 7 migration_message_conversation_index).
Proof. adds (@nil (string * pydict string string)). intros d Hc. unfold migration_message_conversation_index. by rewrite has_known by (done || by vm_compute). Qed.
Lemma sound_8 : sound (mkMigration 8 migration_modem_diagnostics).
Proof. adds [("devices", [("eps_registered", "INTEGER"); ("cs_registered", "INTEGER"); ("ims_registered", "INTEGER"); ("hardware_model", "TEXT NOT NULL DEFAULT ''"); ("firmware", "TEXT NOT NULL DEFAULT ''")])]. adds_one. Qed.
Lemma sound_9 : sound (mkMigration 9 migration_supply_voltage).
Proof. adds [("devices", [("voltage_mv", "INTEGER"); ("low_voltage_mv", "INTEGER")]);
    ("device_status", [("voltage_mv", "INTEGER")])].
  intros d Hc. cbn [add_list]. unfold migration_supply_voltage. destruct (add_columns_if_missing _ _ d) as [d1|]; [|done].
  cbn [mbind option_bind]. by destruct (add_columns_if_missing _ _ d1). Qed.
Lemma sound_10 : sound (mkMigration 10 migration_salvaged_messages).
Proof. adds [("messages", [("truncated", "INTEGER NOT NULL DEFAULT 0"); ("recovered_body", "TEXT"); ("recovered_code", "TEXT")])]. adds_one. Qed.
Lemma sound_11 : sound (mkMigration 11 migration_calls).
Proof. adds (@nil (string * pydict string string)). intros d Hc. unfold migration_calls. cbn [add_list]. f_equal. by apply create_complete, known; [|vm_compute]. Qed.
Lemma sound_12 : sound (mkMigration 12 migration_data_controls).
Proof. adds [("devices", [("data_attached", "INTEGER"); ("pdp_active", "INTEGER"); ("roaming", "INTEGER"); ("roaming_data_allowed", "INTEGER NOT NULL DEFAULT 0"); ("data_blocked_by_roaming", "INTEGER NOT NULL DEFAULT 0")])]. adds_one. Qed.
Lemma sound_13 : sound (mkMigration 13 migration_data_policy).
Proof. adds [("devices", [("data_enabled", "INTEGER NOT NULL DEFAULT 0")])]. adds_one. Qed.
Lemma sound_16 : sound (mkMigration 16 migration_notify_outbox).
Proof. adds (@nil (string * pydict string string)). intros d Hc. unfold migration_notify_outbox. cbn [add_list]. f_equal.
  rewrite (create_complete "notify_outbox") by (done || by apply known; vm_compute). by apply create_complete, known; [|vm_compute]. Qed.
Lemma sound_17 : sound (mkMigration 17 migration_task_sync).
Proof. adds [("agents", [("tasks_revision", "TEXT NOT NULL DEFAULT ''"); ("tasks_applied_revision", "TEXT NOT NULL DEFAULT ''"); ("tasks_sync_id", "TEXT NOT NULL DEFAULT ''"); ("tasks_sync_status", "TEXT NOT NULL DEFAULT 'pending'"); ("tasks_sync_error", "TEXT NOT NULL DEFAULT ''"); ("tasks_sync_sent_at", "TEXT"); ("tasks_synced_at", "TEXT")])]. adds_one. Qed.
Lemma sound_18 : sound (mkMigration 18 migration_operations).
Proof. adds (@nil (string * pydict string string)). intros d Hc. unfold migration_operations. cbn [add_list]. f_equal. by apply create_complete, known; [|vm_compute]. Qed.
Lemma sound_19 : sound (mkMigration 19 migration_task_run_id).
Proof. adds [("task_logs", [("run_id", "TEXT")])]. adds_one. Qed.

Lemma shape_later n miss d : (forall T c, c ∈ dict_keys (t_columns (schema_table T)) -> miss T c -> later n T c) -> shape miss d -> shape (later n) d.
Proof. intros Hm [Hw Hs]. split; [done|]. intros T t Ht. eapply fits_weaken; [|by apply Hs]. apply Hm. Qed.

Lemma nothing_added n d : covers n [] = true -> shape (later (n - 1)) d -> shape (later n) d.
Proof. intros Hc. apply shape_later. intros T c _ Hl. apply (later_covered n []); [done|]. split; [done|]. intros cs Hcs. by apply elem_of_nil in Hcs. Qed.

Lemma sound_5 : sound (mkMigration 5 migration_data_messages).
Proof.
  intros d [Hc Hs Hr]. cbn [target apply] in *. exists (set_messages (classified <$> messages d) d).
  split_and!; [apply migration_data_messages_spec; [by apply has_known; [|vm_compute]|done]|done| |].
  - assert (Hid : mg_id <$> (classified <$> messages d) = mg_id <$> messages d).
    { rewrite <- list_fmap_compose. apply list_fmap_ext. intros k m _. apply classified_id. }
    destruct Hr as [H1 H2 H3 H4]. split; [exact Hc|by apply (nothing_added 5 d); [vm_compute|]|]. split; cbn [set_messages messages tasks ingested]; try done.
    + by rewrite Hid.
    + apply Forall_fmap. eapply Forall_impl; [exact H2|]. intros m Hm. cbn. by rewrite classified_id.
  - reflexivity.
Qed.

Lemma later_14 T c : later 13 T c -> (T = "agents"%string -> c <> "stream_id"%string) -> (T = "ingested"%string -> c <> "stream_id"%string) -> later 14 T c.
Proof.
  intros Hl H1 H2. apply (later_covered 14 [("agents", [("stream_id", "")]); ("ingested", [("stream_id", "")])]%string); [by vm_compute|]. split; [done|].
  intros cs Hcs Hin. apply elem_of_cons in Hcs as [[= -> ->]|Hcs]; [|apply list_elem_of_singleton in Hcs as [= -> ->]];
    apply list_elem_of_singleton in Hin; [by apply H1|by apply H2].
Qed.

Lemma rebuilt_rows d : has_table "ingested" d = true -> "stream_id"%string ∉ table_info "ingested" d -> rows_ok d ->
  (fun r : pystr * pystr * Z => (r.1.1, @nil Z, r.2)) <$> ingested d = ingested d.
Proof.
  intros Ht Hi [_ _ _ H]. specialize (H Ht Hi). rewrite <- (list_fmap_id (ingested d)) at 2. apply list_fmap_ext.
  intros k [[a s] q] Hk%list_elem_of_lookup_2. rewrite Forall_forall in H. apply H in Hk. cbn in *. by subst s.
Qed.

Lemma sound_14 : sound (mkMigration 14 migration_event_stream_epoch).
Proof.
  intros d [Hc Hs Hr]. cbn [target apply] in *. set (l := [("agents", [("stream_id", "TEXT NOT NULL DEFAULT ''")])]%string).
  destruct (add_list_spec l ltac:(by vm_compute) _ d Hc Hs) as (d1 & E & H1 & H2 & H3 & H4 & Hi & Hs1).
  unfold migration_event_stream_epoch. cbn [add_list l] in E. destruct (add_columns_if_missing _ _ d) as [d1'|]; [|done]. injection E as ->. cbn [mbind option_bind].
  assert (Hr1 : rows_ok d1) by (by eapply rows_ok_same).
  assert (Hm : forall T t, dict_get T (tables d1) = Some t -> T <> "ingested"%string -> fits (later 14) T t).
  { intros T t Ht Hne. eapply fits_weaken; [|by apply Hs1]. intros c _ [Hl Hn]. apply later_14; [done| |done]. intros -> ->.
    apply (Hn [("stream_id", "TEXT NOT NULL DEFAULT ''")]%string); [left|left]. }
  assert (Hti : has_table "ingested" d1 = true) by (by apply has_known; [|vm_compute]).
  case_bool_decide as Hst.
  - exists d1. split_and!; [done|done| |].
    + split; [done| |done]. destruct Hs1 as [Hw Hf]. split; [done|]. intros T t Ht. destruct (decide (T = "ingested"%string)) as [->|Hne]; [|by apply Hm].
      unfold table_info in Hst. rewrite Ht in Hst. cbn in Hst. destruct (Hf _ _ Ht) as [F1 F2 F3 F4 F5]. split; try done.
      intros c Hcs. destruct (decide (c = "stream_id"%string)) as [->|Hcne]; [by left|]. destruct (F4 c Hcs) as [|[Hl _]]; [by left|right].
      by apply later_14.
    + rewrite (outcome_content _ d) by done. by apply outcome_step.
  - assert (Hv : has_table "ingested_v14" d1 = false).
    { apply bool_decide_eq_false. intros [t Ht]. apply (proj2 Hs1) in Ht as [[x Hx] _ _ _ _]. by vm_compute in Hx. }
    rewrite Hv, Hti. cbn [orb negb]. rewrite rebuilt_rows by done. eexists. split; [reflexivity|]. split; [done|]. split.
    + assert (Hget : forall T, dict_get T (dict_del "ingested"%string (tables d1) ++ [("ingested"%string, ingested_v14)])
         = if decide (T = "ingested"%string) then Some ingested_v14 else dict_get T (tables d1)).
      { intros T. case_decide as HT.
        - subst T. rewrite dict_get_app; [done|]. apply dict_get_None. apply dict_get_del. apply Hs1.
        - destruct (decide (T ∈ dict_keys (dict_del "ingested"%string (tables d1)))) as [Hk|Hk].
          + rewrite get_app_l by (by apply get_of_key). by apply dict_get_del_ne.
          + rewrite dict_get_app by done. cbn. rewrite decide_False by done. symmetry. rewrite <- (dict_get_del_ne T "ingested"%string) by done. by apply dict_get_None. }
      split.
      * intros T HT. cbn [set_ingested set_tables tables]. rewrite Hget. case_decide; [by eexists|]. by apply H3.
      * split; cbn [set_ingested set_tables tables].
        -- unfold dict_wf. rewrite keys_app. apply NoDup_app. split; [by apply dict_del_wf, Hs1|]. split; [|apply NoDup_singleton].
           intros T HT ->%list_elem_of_singleton. apply get_of_key in HT as [t Ht]. by rewrite dict_get_del in Ht by apply Hs1.
        -- intros T t. rewrite Hget. case_decide as HT; [|intros Ht; by apply Hm]. intros [= <-]. subst T.
           split; [by eexists|by apply (bool_decide_eq_true_1 (NoDup _)); vm_compute|done|by left|by left].
      * destruct Hr1 as [R1 R2 R3 R4]. split; cbn [set_ingested set_tables messages tasks ingested]; try done.
        intros _ Hno. exfalso. apply Hno. unfold table_info. cbn [set_ingested set_tables tables]. rewrite Hget, decide_True by done.
        apply (bool_decide_eq_true_1 _). by vm_compute.
    + transitivity (outcome 14 d1); [by destruct d1|]. rewrite (outcome_content _ d) by done. by apply outcome_step.
Qed.

Lemma sound_15 : sound (mkMigration 15 (migration_task_device_id now)).
Proof.
  intros d [Hc Hs Hr]. cbn [target apply] in *. set (l := [("tasks", [("device_id", "INTEGER REFERENCES devices(id) ON DELETE SET NULL")])]%string).
  destruct (add_list_spec l ltac:(by vm_compute) _ d Hc Hs) as (d1 & E & H1 & H2 & H3 & _ & Hi & Hs1).
  unfold migration_task_device_id. cbn [add_list l] in E. destruct (add_columns_if_missing _ _ d) as [d1'|]; [|done]. injection E as ->. cbn [mbind option_bind].
  assert (Hr1 : rows_ok d1) by (by eapply rows_ok_same). rewrite pin_all by apply Hr1.
  rewrite !has_known by (done || by vm_compute). cbn [orb negb].
  eexists. split; [reflexivity|]. split; [done|]. split.
  - split; [done| |].
    + apply (shape_later 15 (missing_after (later 14) l)); [|exact Hs1]. intros T c _. by apply (later_covered 15 l); vm_compute.
    + destruct Hr1 as [R1 R2 R3 R4]. split; cbn [set_incidents set_tasks messages tasks ingested]; try done.
      rewrite <- list_fmap_compose. erewrite list_fmap_ext; [exact R3|]. intros k t _. apply settled_id.
  - transitivity (outcome 14 d1); [by destruct d1|]. by apply outcome_content.
Qed.

Lemma steps_sound m : m ∈ mkMigration 1 reconcile_to_baseline :: MIGRATIONS now -> sound m.
Proof.
  revert m. apply Forall_forall.
  constructor; [exact sound_1|]. constructor; [exact sound_2|]. constructor; [exact sound_3|]. constructor; [exact sound_4|].
  constructor; [exact sound_5|]. constructor; [exact sound_6|]. constructor; [exact sound_7|]. constructor; [exact sound_8|].
  constructor; [exact sound_9|]. constructor; [exact sound_10|]. constructor; [exact sound_11|]. constructor; [exact sound_12|].
  constructor; [exact sound_13|]. constructor; [exact sound_14|]. constructor; [exact sound_15|]. constructor; [exact sound_16|].
  constructor; [exact sound_17|]. constructor; [exact sound_18|]. constructor; [exact sound_19|].
  constructor.
Qed.

(** *** Starts *)

(** What was made from the schema alone. *)
Definition blank (d : database) : Prop :=
  (forall T t, dict_get T (tables d) = Some t -> is_Some (dict_get T SCHEMA) /\ t = schema_table T)
  /\ messages d = [] /\ ingested d = [] /\ tasks d = [].

(** A file some version of the server has left, or a new one. *)
Record honest (d : database) : Prop := {
  h_version : 0 <= version d <= SCHEMA_VERSION;
  h_shape : shape (later (version d)) d;
  h_rows : rows_ok d;
  h_blank : has_schema d = false -> blank d }.

Definition same_data (d s : database) : Prop :=
  version s = version d /\ content s = content d /\ forall T t, dict_get T (tables d) = Some t -> dict_get T (tables s) = Some t.

Lemma schema_self T t : dict_get T SCHEMA = Some t -> t = schema_table T.
Proof. unfold schema_table. by intros ->. Qed.

Lemma schema_fits miss T : is_Some (dict_get T SCHEMA) -> fits miss T (schema_table T).
Proof.
  intros [t Ht]. split; [by eexists| |done|by left|by left]. rewrite <- (schema_self _ _ Ht).
  assert (H : Forall (fun x => dict_wf (t_columns x.2)) SCHEMA) by (apply (bool_decide_eq_true_1 (Forall (fun x => NoDup (dict_keys (t_columns x.2))) SCHEMA)); by vm_compute).
  rewrite Forall_forall in H. by apply (H (T, t)), dict_get_Some_in.
Qed.

Lemma steps_next v : 0 <= v < SCHEMA_VERSION -> exists m, steps now true v = m :: steps now true (v + 1)
  /\ target m = v + 1 /\ m ∈ mkMigration 1 reconcile_to_baseline :: MIGRATIONS now.
Proof.
  intros Hv. unfold SCHEMA_VERSION in Hv.
  assert (H : v ∈ seqZ 0 19) by (apply elem_of_seqZ; lia). clear Hv. revert v H. apply Forall_forall.
  change (seqZ 0 19) with [0;1;2;3;4;5;6;7;8;9;10;11;12;13;14;15;16;17;18].
  repeat (apply Forall_cons; split); [..|by apply Forall_nil]; (eexists; split; [reflexivity|split; [reflexivity|]]);
    repeat (first [by left|right]).
Qed.

Lemma create_spec T d : honest d -> is_Some (dict_get T SCHEMA) -> let d' := create_table T (schema_table T) d in
  honest d' /\ same_data d d' /\ is_Some (dict_get T (tables d')) /\ (blank d -> blank d').
Proof.
  intros [Hv [Hw Hs] Hr Hb] HT. cbn. unfold create_table. destruct (has_table T d) eqn:Et.
  { split_and!; try done. by apply bool_decide_eq_true in Et. }
  unfold has_table in Et. apply bool_decide_eq_false in Et. assert (En : dict_get T (tables d) = None) by (destruct (dict_get T (tables d)); [by destruct Et|done]).
  set (d' := set_tables _ d).
  assert (Hget : forall T', dict_get T' (tables d') = if decide (T' = T) then Some (schema_table T) else dict_get T' (tables d)).
  { intros T'. unfold d'. cbn [set_tables tables]. destruct (decide (T' = T)) as [->|HT'].
    - rewrite dict_get_app; [cbn; by rewrite decide_True|]. by apply dict_get_None.
    - destruct (dict_get T' (tables d)) as [t|] eqn:E; [rewrite get_app_l; [done|by eexists]|].
      rewrite dict_get_app by (by apply dict_get_None). cbn. by rewrite decide_False. }
  assert (Hblank : blank d -> blank d').
  { intros (B & B1 & B2 & B3). split_and!; [|done|done|done]. intros T' t. rewrite Hget. case_decide as HT'; [intros [= <-]; by subst|apply B]. }
  split_and!; [|split_and!; [done|done|]| |done].
  - split; [done| | |].
    + split.
      * unfold d', dict_wf. cbn [set_tables tables]. rewrite keys_app. apply NoDup_app. split; [done|]. split; [|apply NoDup_singleton].
        intros x Hx ->%list_elem_of_singleton. by apply dict_get_None in En.
      * intros T' t. rewrite Hget. case_decide as HT'; [intros [= <-]; subst; by apply schema_fits|apply Hs].
    + destruct Hr as [R1 R2 R3 R4]. split; try done. unfold has_table, table_info. rewrite Hget. case_decide as HT'; [|exact R4].
      subst T. intros _ Hno. exfalso. apply Hno. apply (bool_decide_eq_true_1 _). by vm_compute.
    + intros Hd. apply Hblank, Hb. unfold has_schema, has_table in *. apply bool_decide_eq_false in Hd. apply bool_decide_eq_false. intros Hd'. apply Hd.
      rewrite Hget. case_decide; [by eexists|done].
  - intros T' t Ht. rewrite Hget. case_decide as HT'; [subst; by rewrite Ht in En|done].
  - rewrite Hget. rewrite decide_True by done. by eexists.
Qed.

Lemma blank_outcome v w d : blank d -> outcome v d = outcome w d.
Proof. intros (_ & Hm & _ & Ht). unfold outcome. rewrite Hm, Ht. by repeat case_match. Qed.

Section Run.
Context (d0 : database).
#[local] Opaque SCHEMA.

Definition kept (k : disk) : Prop := exists s, snapshots k !! version d0 = Some s /\ same_data d0 s.

(** As long as nothing has been migrated the file is as it was. *)
Definition safe (k : disk) : Prop :=
  version (file k) = version d0 /\ same_data d0 (file k) \/ version d0 < version (file k) /\ (has_schema d0 = true -> kept k).

(** Before the first step of a file that has data there is its snapshot. *)
Definition armed (k : disk) : Prop :=
  version (file k) = version d0 -> has_schema d0 = true -> version d0 < SCHEMA_VERSION -> kept k.

Definition phase_ok (p : phase) (k : disk) : Prop :=
  match p with
  | Down => True
  | Opened pre => pre = has_schema (file k)
  | Creating pre todo =>
      armed k /\ Forall (fun x => is_Some (dict_get x.1 SCHEMA) /\ x.2 = schema_table x.1) todo
      /\ (forall T, is_Some (dict_get T SCHEMA) -> is_Some (dict_get T (tables (file k))) \/ T ∈ dict_keys todo)
      /\ (if pre then has_schema (file k) = true else blank (file k))
  | Stepping todo =>
      armed k /\ complete (file k)
      /\ (todo = steps now true (version (file k)) \/ todo = [mkMigration SCHEMA_VERSION Some] /\ blank (file k))
  | Up => complete (file k) /\ version (file k) = SCHEMA_VERSION
  end.

Record inv (p : phase) (k : disk) : Prop := {
  in_honest : honest (file k);
  in_outcome : outcome (version (file k)) (file k) = outcome (version d0) d0;
  in_safe : safe k;
  in_phase : phase_ok p k }.

Lemma same_trans a b c : same_data a b -> same_data b c -> same_data a c.
Proof. intros (H1 & H2 & H3) (G1 & G2 & G3). split_and!; [congruence|congruence|]. intros T t Ht. by apply G3, H3. Qed.

Lemma safe_create T k : honest (file k) -> is_Some (dict_get T SCHEMA) -> safe k ->
  safe (mkDisk (create_table T (schema_table T) (file k)) (snapshots k)).
Proof.
  intros Hh HT [[Hv Hs]|[Hv Hs]]; destruct (create_spec T (file k) Hh HT) as (_ & Hc & _); pose proof Hc as (Ev & _); unfold safe; cbn [file snapshots]; rewrite Ev.
  - left. split; [done|]. by eapply same_trans.
  - by right.
Qed.

Lemma migrated m k d : honest (file k) -> complete (file k) -> armed k -> safe k -> version (file k) < SCHEMA_VERSION ->
  outcome (version (file k)) (file k) = outcome (version d0) d0 ->
  version d = target m -> version (file k) < target m <= SCHEMA_VERSION ->
  ready (target m) d -> outcome (target m) d = outcome (version (file k)) (file k) ->
  honest d /\ outcome (version d) d = outcome (version d0) d0 /\ safe (mkDisk d (snapshots k)) /\ armed (mkDisk d (snapshots k)) /\ complete d.
Proof.
  intros Hh Hc Ha Hs Hlt Ho Hv Hm [R1 R2 R3] Hout. pose proof (h_version _ Hh). split_and!.
  - rewrite <- Hv in *. split; [lia|done|done|]. intros Hno. unfold has_schema in Hno. by rewrite has_known in Hno by (done || by vm_compute).
  - rewrite Hv, Hout. exact Ho.
  - right. cbn [file]. destruct Hs as [[E Hs]|[E Hs]]; (split; [lia|]); intros Hd; [|by apply Hs]. apply Ha; [done|done|lia].
  - intros E Hd _. cbn [file] in E. destruct Hs as [[E' _]|[E' _]]; lia.
  - done.
Qed.

Lemma schema_todo : Forall (fun x : string * table => is_Some (dict_get x.1 SCHEMA) /\ x.2 = schema_table x.1) SCHEMA.
Proof.
  apply Forall_forall. intros [T t] Hx. cbn. assert (Hg : dict_get T SCHEMA = Some t).
  { apply dict_get_in; [|done]. apply (bool_decide_eq_true_1 (NoDup _)). by vm_compute. }
  split; [by eexists|by apply schema_self].
Qed.

Lemma creating_ok pre k : armed k -> pre = has_schema (file k) -> honest (file k) -> phase_ok (Creating pre SCHEMA) k.
Proof.
  intros Ha -> Hh. cbn [phase_ok]. split_and!; [done|apply schema_todo|intros T HT; right; by apply key_of_get|].
  destruct (has_schema (file k)) eqn:E; [done|by apply h_blank].
Qed.

Lemma same_schema d s : same_data d s -> has_schema d = true -> has_schema s = true.
Proof. intros (_ & _ & H) Hd. apply bool_decide_eq_true in Hd as [t Ht]. apply bool_decide_eq_true. exists t. by apply H. Qed.

Lemma start_step_inv p k p' k' : inv p k -> step now (p, k) (p', k') -> inv p' k'.
Proof.
  intros [Hh Ho Hs Hp] Hst. pose proof (h_version _ Hh) as Hv. inversion Hst; subst; clear Hst; cbn [phase_ok] in Hp.
  - by split.
  - split; try done. all: lia.
  - assert (Ha : armed (mkDisk (file k) (<[version (file k) := file k]> (snapshots k)))).
    { intros E Hd Hlt. cbn [file] in E. exists (file k). cbn [snapshots]. rewrite E, lookup_insert_eq. split; [done|].
      destruct Hs as [[_ Hs]|[E' _]]; [done|lia]. }
    split; [done|done| |by apply creating_ok].
    destruct Hs as [Hs|[E Hs]]; [by left|right; split; [done|]]. intros Hd. destruct (Hs Hd) as (s & Hk & Hsd).
    exists s. cbn [snapshots]. by rewrite lookup_insert_ne by lia.
  - split; [done|done| |done]. destruct Hs as [Hs|[E Hs]]; [by left|right; split; [done|]]. intros Hd. destruct (Hs Hd) as (s & Hk & Hsd).
    exists s. cbn [snapshots]. by rewrite lookup_insert_ne by lia.
  - split; try done. apply creating_ok; [|done|done]. intros E Hd Hlt. exfalso. destruct Hs as [[_ Hsd]|[E' _]]; [|lia].
    apply same_schema in Hsd; [|done]. match goal with H : _ \/ _ |- _ => destruct H as [H|H] end; [congruence|lia].
  - destruct Hp as (Ha & Hf & Hall & Hpre). apply Forall_cons in Hf as [[HT HtT] Hf]. cbn in HT, HtT. subst t.
    destruct (create_spec T (file k) Hh HT) as (Hh' & Hsd & Hin & Hbl). pose proof Hsd as (Ev & Ec & Eg). split; cbn [file].
    + done.
    + rewrite Ev, <- Ho. by apply outcome_content.
    + by apply safe_create.
    + cbn [phase_ok file]. split_and!; [|done| |].
      * intros E Hd Hlt. cbn [file] in E. rewrite Ev in E. by apply Ha.
      * intros T' HT'. destruct (Hall T' HT') as [[t Ht]|Hk]; [left; exists t; by apply Eg|]. apply elem_of_cons in Hk as [->|Hk]; [by left|by right].
      * destruct pre; [|by apply Hbl]. by eapply same_schema.
  - destruct Hp as (Ha & _ & Hall & Hpre). assert (Hc : complete (file k')).
    { intros T HT. destruct (Hall T HT) as [|Hk]; [done|by apply elem_of_nil in Hk]. }
    split; try done. cbn [phase_ok]. split_and!; [done|done|]. destruct pre; [by left|]. unfold steps.
    destruct (Z.eqb_spec (version (file k')) SCHEMA_VERSION) as [E|E]; [by left|by right].
  - destruct Hp as (Ha & Hc & [Htodo|[Htodo Hbl]]).
    + destruct (decide (version (file k) = SCHEMA_VERSION)) as [E|E].
      { rewrite E in Htodo. done. }
      destruct (steps_next (version (file k))) as (m' & Es & Et & Hm'); [lia|]. rewrite Es in Htodo. injection Htodo as -> ->.
      match goal with H : run_step _ _ = Some _ |- _ => rename H into Hrun end. unfold run_step in Hrun.
      apply steps_sound in Hm'. destruct (Hm' (file k)) as (d1 & Ea & Ev1 & [R1 R2 R3] & Hout).
      { rewrite Et. replace (version (file k) + 1 - 1) with (version (file k)) by lia. by split; [|apply Hh|apply Hh]. }
      rewrite Ea in Hrun. injection Hrun as <-. rewrite Et in Hout at 2. replace (version (file k) + 1 - 1) with (version (file k)) in Hout by lia.
      destruct (migrated m' k (set_version (target m') d1)) as (M1 & M2 & M3 & M4 & M5); try done; [lia|lia|split; [done|done|by destruct R3; split]|].
      split; [done|done|done|]. cbn [phase_ok file]. split_and!; [done|done|left]. by rewrite <- Et.
    + injection Htodo as -> ->. match goal with H : run_step _ _ = Some _ |- _ => injection H as <- end.
      destruct (decide (version (file k) = SCHEMA_VERSION)) as [E|E].
      { assert (Ef : set_version SCHEMA_VERSION (file k) = file k) by (rewrite <- E; by destruct (file k)). rewrite Ef.
        replace (mkDisk (file k) (snapshots k)) with k by (by destruct k). split; try done. cbn [phase_ok]. split_and!; [done|done|left; by rewrite E]. }
      destruct (migrated (mkMigration SCHEMA_VERSION Some) k (set_version SCHEMA_VERSION (file k))) as (M1 & M2 & M3 & M4 & M5); try done; cbn [target]; [lia|lia| | |].
      * split; [done| |by destruct Hh as [_ _ [] _]; split]. split; [by destruct Hh as [_ [] _ _]|]. intros T t Ht. destruct Hbl as (B & _). destruct (B T t Ht) as [HT ->]. by apply schema_fits.
      * rewrite (blank_outcome _ (version (file k))); [done|exact Hbl].
      * split; [done|done|done|]. cbn [phase_ok file]. split_and!; [done|done|by left].
  - destruct Hp as (Ha & Hc & [Htodo|[Htodo _]]); [|done]. split; try done. cbn [phase_ok]. split; [done|].
    destruct (decide (version (file k') = SCHEMA_VERSION)) as [E|E]; [done|]. destruct (steps_next (version (file k'))) as (m & Es & _); [lia|]. by rewrite Es in Htodo.
  - by split.
Qed.

Lemma start_steps_inv x y : rtc (step now) x y -> inv x.1 x.2 -> inv y.1 y.2.
Proof. induction 1 as [|[p k] [p' k'] z Hs _ IH]; [done|]. intros Hi. apply IH. by eapply start_step_inv. Qed.

Lemma start_inv snaps : honest d0 -> inv Down (mkDisk d0 snaps).
Proof. intros Hh. split; [done|done|left; by split; [|split_and!]|done]. Qed.

End Run.

(** ** Theorems *)

Lemma reached d0 snaps p k : honest d0 -> rtc (step now) (Down, mkDisk d0 snaps) (p, k) -> inv d0 p k.
Proof. intros Hh Hr. exact (start_steps_inv d0 _ _ Hr (start_inv d0 snaps Hh)). Qed.

(** C25 (equivalence): interrupted starts come to the same as one that is not.
    Whatever file a version of the server has left -- tables missing, columns
    missing that came later, or a file just made -- and however often the
    process dies or gives up on the way, in the middle of the schema's script, of
    a snapshot or of a migration: when a start gets through, the version is this
    one's, the tables are the schema's with its columns, declarations and keys,
    and the rows are those of the old file after each migration above its
    version was applied once: messages that are data are marked, as one pass
    over all of them would (the code goes through them in pages), tasks point
    at the only module they can mean or are paused and reported. *)
Theorem interrupted_starts_converge (d : database) (snaps : gmap Z database) (k : disk) :
  honest d -> rtc (step now) (Down, mkDisk d snaps) (Up, k) ->
  version (file k) = SCHEMA_VERSION
  /\ (forall T, is_Some (dict_get T (tables (file k))) <-> is_Some (dict_get T SCHEMA))
  /\ (forall T t, dict_get T (tables (file k)) = Some t ->
        t_columns t ≡ₚ t_columns (schema_table T) /\ t_rest t = t_rest (schema_table T))
  /\ content (file k) = outcome (version d) d.
Proof.
  intros Hh Hr. destruct (reached _ _ _ _ Hh Hr) as [[Hv [Hw Hs] _ _] Ho _ [Hc Hup]]. rewrite Hup in *.
  assert (Hno : forall T c, ~ later SCHEMA_VERSION T c).
  { intros T c (n & Hn & Ha). assert (Hall : Forall (fun a => a.1.1 <= SCHEMA_VERSION) ADDS) by (apply (bool_decide_eq_true_1 _); by vm_compute).
    rewrite Forall_forall in Hall. apply Hall in Ha. cbn in Ha. lia. }
  split; [done|]. split; [|split].
  - intros T. split; [intros [t Ht]; by apply (Hs T t)|apply Hc].
  - intros T t Ht. destruct (Hs T t Ht) as [F1 F2 F3 F4 F5].
    assert (Hkeys : forall c, c ∈ dict_keys (t_columns (schema_table T)) -> c ∈ dict_keys (t_columns t)).
    { intros c Hck. destruct (F4 c Hck) as [H|H]; [done|by apply Hno in H]. }
    destruct (schema_fits (later 0) T F1) as [_ Swf _ _ _]. split.
    + apply NoDup_Permutation; [by apply (NoDup_fmap_1 fst)|by apply (NoDup_fmap_1 fst)|]. intros [c decl]. split; intros Hx.
      * apply dict_get_Some_in, F3. by apply dict_get_in.
      * assert (Hck : c ∈ dict_keys (t_columns (schema_table T))) by (by apply (list_elem_of_fmap_2 fst) in Hx).
        apply Hkeys, get_of_key in Hck as [decl' Hg]. pose proof (F3 _ _ Hg) as Hg'.
        rewrite (dict_get_in c decl) in Hg' by done. injection Hg' as ->. by apply dict_get_Some_in.
    + destruct F5 as [H|[-> H]]; [done|]. destruct H. apply Hkeys. apply (bool_decide_eq_true_1 _). by vm_compute.
  - rewrite <- Ho. by destruct (file k).
Qed.

(** C26 (safety): there is always a way back.  At every moment of any sequence of
    starts and deaths either no migration has been committed and the file still
    holds all it held, table for table and row for row, or the snapshot taken
    at its version does (if it had tables at all). *)
Theorem always_a_way_back (d : database) (snaps : gmap Z database) (p : phase) (k : disk) :
  honest d -> has_schema d = true -> rtc (step now) (Down, mkDisk d snaps) (p, k) ->
  (version (file k) = version d /\ same_data d (file k))
  \/ (version d < version (file k) /\ exists s, snapshots k !! version d = Some s /\ same_data d s).
Proof.
  intros Hh Hd Hr. destruct (reached _ _ _ _ Hh Hr) as [_ _ [H|[H Hk]] _]; [by left|right]. split; [done|by apply Hk].
Qed.

Lemma migrate_through d0 k : forall n, (Z.of_nat n = SCHEMA_VERSION - version (file k)) -> inv d0 (Stepping (steps now true (version (file k)))) k ->
  exists k', rtc (step now) (Stepping (steps now true (version (file k))), k) (Up, k').
Proof.
  intros n. revert k. induction n as [|n IH]; intros k Hn Hi.
  - exists k. replace (version (file k)) with SCHEMA_VERSION by lia. apply rtc_once, step_up.
  - pose proof (h_version _ (in_honest _ _ _ Hi)) as Hv. destruct (steps_next (version (file k))) as (m & Es & Et & Hm); [lia|].
    destruct (in_phase _ _ _ Hi) as (_ & Hc & _). apply steps_sound in Hm. destruct (Hm (file k)) as (d1 & Ea & _ & _ & _).
    { rewrite Et. replace (version (file k) + 1 - 1) with (version (file k)) by lia. destruct (in_honest _ _ _ Hi). by split. }
    set (k1 := mkDisk (set_version (target m) d1) (snapshots k)).
    assert (Hst : step now (Stepping (steps now true (version (file k))), k) (Stepping (steps now true (version (file k) + 1)), k1)).
    { rewrite Es. apply step_migrate. unfold run_step. by rewrite Ea. }
    assert (E1 : version (file k1) = version (file k) + 1) by done. rewrite <- E1 in Hst.
    destruct (IH k1) as [k' Hk']; [lia|by eapply start_step_inv|]. exists k'. by eapply rtc_l.
Qed.

Lemma create_through pre d0 : forall todo k, exists k', rtc (step now) (Creating pre todo, k) (Stepping (steps now pre (version (file k'))), k')
  /\ (inv d0 (Creating pre todo) k -> inv d0 (Stepping (steps now pre (version (file k')))) k').
Proof.
  induction todo as [|[T t] todo IH]; intros k.
  - exists k. assert (Hs : step now (Creating pre [], k) (Stepping (steps now pre (version (file k))), k)) by constructor.
    split; [by apply rtc_once|]. intros Hi. by eapply start_step_inv.
  - destruct (IH (mkDisk (create_table T t (file k)) (snapshots k))) as (k' & Hr & Hi). exists k'.
    assert (Hs : step now (Creating pre ((T, t) :: todo), k) (Creating pre todo, mkDisk (create_table T t (file k)) (snapshots k))) by constructor.
    split; [by eapply rtc_l|]. intros H. by eapply Hi, start_step_inv.
Qed.

(** No state that starts and deaths lead to is a dead end.  The
    migrations themselves never raise on such a file: from wherever the last
    attempt stopped, a start that is left alone gets through. *)
Theorem a_start_gets_through (d : database) (snaps : gmap Z database) (p : phase) (k : disk) :
  honest d -> rtc (step now) (Down, mkDisk d snaps) (p, k) -> exists k', rtc (step now) (p, k) (Up, k').
Proof.
  intros Hh Hr. pose proof (reached _ _ _ _ Hh Hr) as Hi.
  assert (Hdown : step now (p, k) (Down, k)) by constructor. assert (Hopen : step now (Down, k) (Opened (has_schema (file k)), k)) by constructor.
  pose proof (start_step_inv _ _ _ _ _ Hi Hdown) as Hi1. pose proof (start_step_inv _ _ _ _ _ Hi1 Hopen) as Hi2. pose proof (h_version _ (in_honest _ _ _ Hi)) as Hv.
  assert (exists pre k1, step now (Opened (has_schema (file k)), k) (Creating pre SCHEMA, k1)) as (pre & k1 & Hc).
  { destruct (has_schema (file k)); [destruct (decide (version (file k) < SCHEMA_VERSION))|].
    - eexists _, _. by apply step_snapshot.
    - eexists _, _. apply step_no_snapshot; [lia|right; lia].
    - eexists _, _. apply step_no_snapshot; [lia|by left]. }
  destruct (create_through pre d SCHEMA k1) as (k2 & Hr2 & Hi3). pose proof (Hi3 (start_step_inv _ _ _ _ _ Hi2 Hc)) as Hi4.
  assert (exists k', rtc (step now) (Stepping (steps now pre (version (file k2))), k2) (Up, k')) as [k' Hk'].
  { destruct pre.
    - apply (migrate_through d k2 (Z.to_nat (SCHEMA_VERSION - version (file k2)))); [|done]. pose proof (h_version _ (in_honest _ _ _ Hi4)). lia.
    - unfold steps. destruct (_ =? _); [exists k2; by apply rtc_once, step_up|]. eexists. cbn [negb].
      eapply rtc_l; [by apply step_migrate|]. apply rtc_once, step_up. }
  exists k'. eapply rtc_l; [exact Hdown|]. eapply rtc_l; [exact Hopen|]. eapply rtc_l; [exact Hc|]. by etrans.
Qed.

(** A file of a newer server is left as it is. *)
Theorem newer_file_untouched (d : database) (snaps : gmap Z database) (p : phase) (k : disk) :
  SCHEMA_VERSION < version d -> rtc (step now) (Down, mkDisk d snaps) (p, k) -> k = mkDisk d snaps /\ p <> Up.
Proof.
  intros Hv Hr. cut ((p = Down \/ exists pre, p = Opened pre) /\ k = mkDisk d snaps); [intros [[->|[pre ->]] ->]; done|].
  refine (rtc_ind_r (fun x : phase * disk => (x.1 = Down \/ exists pre, x.1 = Opened pre) /\ x.2 = mkDisk d snaps) _ _ _ _ Hr); [by split; [left|]|].
  intros [p1 k1] [p2 k2] _ Hst [Hp E]. cbn in Hp, E |- *. subst k1.
  inversion Hst; subst; cbn [file] in *; try lia; try (by destruct Hp as [|[? ?]]); (split; [|done]); eauto.
Qed.

(** A task of an older file is never bound by guessing.  After the
    migrations of a file below version 15, a task that names a module runs on
    the agent of the only module its name (and agent, if it had one) can mean;
    when there are several it is paused, whatever its switch said; when there is
    none, or no name, it is as it was. *)
Theorem migrated_tasks_never_guess (d : database) (snaps : gmap Z database) (k : disk) (t : TaskSync.server_task) :
  honest d -> version d < 15 -> Forall (fun m => TaskSync.dv_agent m <> []) (devices d) ->
  rtc (step now) (Down, mkDisk d snaps) (Up, k) -> t ∈ tasks d ->
  exists t', t' ∈ tasks (file k) /\ TaskSync.st_id t' = TaskSync.st_id t /\ device_of t' = device_of t /\
    match matches (device_of t) (TaskSync.st_agent t) (devices d) with
    | [m] => device_of t <> [] -> TaskSync.st_device_id t' = Some (TaskSync.dv_id m) /\ TaskSync.owner (devices (file k)) t' = TaskSync.dv_agent m
    | [] => t' = t
    | _ => device_of t <> [] -> Store.t_enabled (TaskSync.st_spec t') = false
    end.
Proof.
  intros Hh Hv Ha Hr Ht. destruct (reached _ _ _ _ Hh Hr) as [_ Ho _ [_ Hup]]. rewrite Hup in Ho. unfold outcome in Ho.
  injection Ho as _ _ Et Ed _. assert (E15 : version d <? 15 = true) by lia. rewrite E15 in Et. cbn in Et.
  exists (settled (devices d) t). rewrite Et, Ed. split; [by apply list_elem_of_fmap_2|]. split; [apply settled_id|].
  rewrite Forall_forall in Ha. assert (Hm : forall m, m ∈ matches (device_of t) (TaskSync.st_agent t) (devices d) -> TaskSync.dv_agent m <> []).
  { intros m [_ H]%list_elem_of_filter. by apply Ha. }
  unfold settled. case_bool_decide as Hd.
  - split; [done|]. by destruct (matches _ _ _) as [|m [|]].
  - destruct (matches _ _ _) as [|m [|m' ms]]; (split; [done|]); [done| |done]. intros _. split; [done|].
    assert (Hne := Hm m ltac:(left)). unfold TaskSync.owner, point_at. cbn. by destruct (TaskSync.dv_agent m).
Qed.

End Steps.

(** ** Witnesses *)

Definition laterb (v : Z) (T c : string) : bool := existsb (fun a => (v <? a.1.1) && bool_decide (a.1.2 = T) && bool_decide (a.2 = c)) ADDS.
Definition fitsb (v : Z) (x : string * table) : bool :=
  bool_decide (is_Some (dict_get x.1 SCHEMA)) && bool_decide (NoDup (dict_keys (t_columns x.2)))
  && forallb (fun c => bool_decide (dict_get c.1 (t_columns (schema_table x.1)) = Some c.2)) (t_columns x.2)
  && forallb (fun c => bool_decide (c ∈ dict_keys (t_columns x.2)) || laterb v x.1 c) (dict_keys (t_columns (schema_table x.1)))
  && (bool_decide (t_rest x.2 = t_rest (schema_table x.1))
      || bool_decide (x.1 = "ingested"%string /\ "stream_id"%string ∉ dict_keys (t_columns x.2))).

Lemma fitsb_ok v T t : fitsb v (T, t) = true -> fits (later v) T t.
Proof.
  unfold fitsb. cbn [fst snd]. intros H. apply andb_prop in H as [H H5]. apply andb_prop in H as [H H4]. apply andb_prop in H as [H H3].
  apply andb_prop in H as [H1%bool_decide_eq_true H2%bool_decide_eq_true]. rewrite forallb_forall in H3. rewrite forallb_forall in H4. split; try done.
  - intros c decl Hg. apply dict_get_Some_in in Hg. specialize (H3 _ (proj1 (list_elem_of_In _ _) Hg)). by apply bool_decide_eq_true in H3.
  - intros c Hc. specialize (H4 _ (proj1 (list_elem_of_In _ _) Hc)). apply orb_prop in H4 as [H4%bool_decide_eq_true|H4]; [by left|right].
    apply existsb_exists in H4 as ([[n T'] c'] & Ha & H4). cbn in H4. apply andb_prop in H4 as [H4 ->%bool_decide_eq_true].
    apply andb_prop in H4 as [H4 ->%bool_decide_eq_true]. exists n. split; [lia|]. by apply list_elem_of_In.
  - apply orb_prop in H5 as [H5|H5]; apply bool_decide_eq_true in H5; [by left|by right].
Qed.

(** A file of version 4: the columns the schema had then, no table of calls or
    of notifications yet, two hosts that both call a module [m1]. *)
Definition table_at (v : Z) (T : string) : string * table :=
  (T, mkTable (filter (fun c => laterb v T c.1 = false) (t_columns (schema_table T)))
        (if bool_decide (T = "ingested"%string) then ["PRIMARY KEY (agent_id, seq)"%string] else t_rest (schema_table T))).
Definition old_tables : schema :=
  table_at 4 <$> ["agents"; "ingested"; "sims"; "devices"; "messages"; "sms_delivery_segments"; "device_status"; "tasks"; "incidents"]%string.
Definition old_task (id : Z) (name : string) : TaskSync.server_task :=
  TaskSync.mkServerTask id [] None
    (Store.mkTaskSpec (str name) (str "alive") true (str "send_sms") (str "10086") (str "1") (str "interval") (str "25") 0 true 3 true).
Definition old_file : database :=
  mkDb 4 old_tables [mkMessage 1 true false (Some (str "0004048121430000")); mkMessage 2 false false None]
    [(str "home", [], 7)] [old_task 1 "m1"; old_task 2 "m2"]
    [TaskSync.mkDevice 1 (str "home") (str "m1"); TaskSync.mkDevice 2 (str "office") (str "m1"); TaskSync.mkDevice 3 (str "office") (str "m2")]
    (Incidents.mkTable [] 1).

Lemma old_honest : honest old_file.
Proof.
  split.
  - by vm_compute.
  - split; [by apply (bool_decide_eq_true_1 (NoDup _)); vm_compute|]. intros T t Ht. apply fitsb_ok.
    assert (H : forallb (fitsb 4) old_tables = true) by (vm_compute; reflexivity). rewrite forallb_forall in H.
    apply H, list_elem_of_In, dict_get_Some_in, Ht.
  - split.
    + by apply (bool_decide_eq_true_1 _); vm_compute.
    + by repeat constructor.
    + by apply (bool_decide_eq_true_1 _); vm_compute.
    + intros _ _. by repeat constructor.
  - intros H. by vm_compute in H.
Qed.

Lemma old_gets_through : exists k, rtc (step 100) (Down, mkDisk old_file ∅) (Up, k).
Proof. apply (a_start_gets_through 100 old_file ∅); [exact old_honest|apply rtc_refl]. Qed.

Lemma interrupted_starts_converge_witness :
  exists k, version (file k) = 19 /\ content (file k) = outcome 100 4 old_file
    /\ TaskSync.st_agent <$> tasks (file k) = [[]; str "office"] /\ Store.t_enabled ∘ TaskSync.st_spec <$> tasks (file k) = [false; true].
Proof.
  destruct old_gets_through as [k Hk]. exists k.
  destruct (interrupted_starts_converge 100 old_file ∅ k old_honest Hk) as (Hv & _ & _ & Hc).
  split; [exact Hv|]. split; [exact Hc|]. unfold content in Hc. injection Hc as _ _ Ht _ _. rewrite Ht. split; vm_compute; reflexivity.
Defined.

Lemma always_a_way_back_witness :
  exists k, rtc (step 100) (Down, mkDisk old_file ∅) (Up, k) /\ exists s, snapshots k !! 4 = Some s /\ same_data old_file s.
Proof.
  destruct old_gets_through as [k Hk]. exists k. split; [exact Hk|].
  destruct (always_a_way_back 100 old_file ∅ Up k old_honest eq_refl Hk) as [[H _]|[_ H]]; [exfalso|exact H].
  destruct (reached 100 _ _ _ _ old_honest Hk) as [_ _ _ [_ Hup]]. rewrite Hup in H. discriminate H.
Defined.

End Migrate.
