(* ===== verification/Notifier.v ===== *)
(** * The notifier at work (server/src/hub_server/notify.py, class Notifier)

    The two limits on concurrent sends ([_sends], [_gate]); who hears of a task
    or a call and in what words ([_task_targets], [_call_targets] and their
    summaries); one attempt from the rows it reads to the incident it opens or
    resolves ([_attempt_claimed], [_record]); the passes over the queue
    ([pump], [drain]) and the worker's loop with [kick], [pause] and [aclose],
    as steps between two awaits.  The queue itself is Outbox.v's, the text of a
    message Notify.v's, the providers Senders.v's. *)

From S2P Require Import Prelude PyText PyDict Json Notify Outbox Alerts Channels Senders Handlers.

(** ** The limits on sends

    [async with self._sends, self._gate(channel)]: a delivery takes one of the
    worker's slots first and then waits, slot in hand, for its channel's gate.
    asyncio's semaphores serve their waiters in order. *)
Module Gates.

Definition MAX_CONCURRENT_SENDS : nat := 8.
Definition MAX_PER_CHANNEL : nat := 2.

Inductive stage := Waiting | AtGate | InAir | Over.
#[export] Instance stage_eq_dec : EqDecision stage.
Proof. solve_decision. Defined.

(** The deliveries of a pass, in the order they were claimed: the channel of
    each and how far it is. *)
Record send := mkSend { g_channel : Z; g_stage : stage }.

Definition with_stage (st : stage) (t : send) : send := mkSend (g_channel t) st.

Definition held (t : send) : bool := match g_stage t with AtGate | InAir => true | _ => false end.
Definition flying (c : Z) (t : send) : bool := match g_stage t with InAir => g_channel t =? c | _ => false end.

Definition count (p : send -> bool) (l : list send) : nat := length (filter (fun t => p t = true) l).

(** Nobody before [n] waits for the same: the semaphore's queue. *)
Definition first_in_line (p : send -> bool) (n : nat) (l : list send) : bool := negb (existsb p (take n l)).

Definition waiting (t : send) : bool := match g_stage t with Waiting => true | _ => false end.
Definition at_gate (c : Z) (t : send) : bool := match g_stage t with AtGate => g_channel t =? c | _ => false end.

(** Which delivery moves, and where to. *)
Inductive move := TakeSlot (n : nat) | PassGate (n : nat) | EndSend (n : nat).

Definition advance (m : move) (l : list send) : option (list send) :=
  match m with
  | TakeSlot n =>
      t ← l !! n;
      if waiting t && first_in_line waiting n l && (count held l <? MAX_CONCURRENT_SENDS)%nat
      then Some (<[n := with_stage AtGate t]> l) else None
  | PassGate n =>
      t ← l !! n;
      if at_gate (g_channel t) t && first_in_line (at_gate (g_channel t)) n l
         && (count (flying (g_channel t)) l <? MAX_PER_CHANNEL)%nat
      then Some (<[n := with_stage InAir t]> l) else None
  | EndSend n =>
      t ← l !! n;
      if bool_decide (g_stage t = InAir) then Some (<[n := with_stage Over t]> l) else None
  end.

Definition start (channels : list Z) : list send := (fun c => mkSend c Waiting) <$> channels.

Inductive reached (channels : list Z) : list move -> list send -> Prop :=
| reached_start : reached channels [] (start channels)
| reached_move ms l m l' : reached channels ms l -> advance m l = Some l' -> reached channels (ms ++ [m]) l'.

Definition all_over (l : list send) : Prop := Forall (fun t => g_stage t = Over) l.

#[export] Instance all_over_dec l : Decision (all_over l).
Proof. unfold all_over. apply _. Defined.

(** *** Counting *)

Lemma stages_count_cons p t l : count p (t :: l) = ((if p t then 1 else 0) + count p l)%nat.
Proof. unfold count. rewrite filter_cons. case_decide as H; [by rewrite H|]. apply not_true_iff_false in H. by rewrite H. Qed.

Lemma count_insert p n t t' l : l !! n = Some t ->
  (count p (<[n := t']> l) + (if p t then 1 else 0) = count p l + (if p t' then 1 else 0))%nat.
Proof.
  revert n. induction l as [|x l IH]; intros [|n] H; [done..| |].
  - injection H as ->. change (<[0%nat := t']> (t :: l)) with (t' :: l). rewrite !stages_count_cons. lia.
  - change (<[S n := t']> (x :: l)) with (x :: <[n := t']> l). rewrite !stages_count_cons. specialize (IH n H). lia.
Qed.

Lemma count_zero p l : count p l = 0%nat <-> forall t, t ∈ l -> p t = false.
Proof.
  unfold count. rewrite length_zero_iff_nil. split.
  - intros E t Ht. apply not_true_iff_false. intros Hp. assert (H : t ∈ filter (fun t => p t = true) l) by by apply list_elem_of_filter.
    rewrite E in H. by apply not_elem_of_nil in H.
  - intros H. destruct (filter _ l) as [|t k] eqn:E; [done|]. assert (Ht : t ∈ filter (fun t => p t = true) l) by (rewrite E; left).
    apply list_elem_of_filter in Ht as [Hp Ht]. rewrite H in Hp; done.
Qed.

Lemma count_le p q l : (forall t, p t = true -> q t = true) -> (count p l <= count q l)%nat.
Proof.
  intros H. induction l as [|t l IH]; [done|]. rewrite !stages_count_cons. specialize (H t).
  destruct (p t); [rewrite H by done; lia|]. destruct (q t); lia.
Qed.

(** The first element with [p], and that none is before it. *)
Lemma first_such (p : send -> bool) l t : t ∈ l -> p t = true ->
  exists n u, l !! n = Some u /\ p u = true /\ first_in_line p n l = true.
Proof.
  intros Ht Hp. induction l as [|x l IH]; [by apply not_elem_of_nil in Ht|]. destruct (p x) eqn:Ex.
  - exists 0%nat, x. by split_and!.
  - apply elem_of_cons in Ht as [->|Ht]; [congruence|]. destruct (IH Ht) as (n & u & Hn & Hu & Hf).
    exists (S n), u. split_and!; [done..|]. unfold first_in_line in *. cbn. by rewrite Ex.
Qed.

(** *** What the limits give *)

Definition rank (t : send) : nat := match g_stage t with Waiting => 0 | AtGate => 1 | InAir => 2 | Over => 3 end.

Lemma rank_insert n t t' l : l !! n = Some t -> (sum_list_with rank (<[n := t']> l) + rank t = sum_list_with rank l + rank t')%nat.
Proof.
  revert n. induction l as [|x l IH]; intros [|n] H; [done..| |].
  - injection H as ->. change (<[0%nat := t']> (t :: l)) with (t' :: l). cbn. lia.
  - change (<[S n := t']> (x :: l)) with (x :: <[n := t']> l). specialize (IH n H). cbn. lia.
Qed.

(** A move takes one delivery one stage further. *)
Lemma advance_inv m l l' : advance m l = Some l' -> exists n t st, l !! n = Some t /\ l' = <[n := with_stage st t]> l
  /\ match m with
     | TakeSlot k => k = n /\ g_stage t = Waiting /\ st = AtGate /\ first_in_line waiting n l = true /\ (count held l < MAX_CONCURRENT_SENDS)%nat
     | PassGate k => k = n /\ g_stage t = AtGate /\ st = InAir /\ (count (flying (g_channel t)) l < MAX_PER_CHANNEL)%nat
     | EndSend k => k = n /\ g_stage t = InAir /\ st = Over
     end.
Proof.
  destruct m as [n|n|n]; cbn [advance]; destruct (l !! n) as [t|] eqn:Et; cbn [mbind option_bind]; try done; case_match eqn:E; try done; intros [= <-];
    exists n, t; eexists; (split; [exact Et|split; [reflexivity|]]).
  - rewrite !andb_true_iff, Nat.ltb_lt in E. destruct E as [[E1 E2] E3]. unfold waiting in E1. by destruct (g_stage t).
  - rewrite !andb_true_iff, Nat.ltb_lt in E. destruct E as [[E1 E2] E3]. unfold at_gate in E1. by destruct (g_stage t).
  - apply bool_decide_eq_true in E. by split_and!.
Qed.

Record bounded (channels : list Z) (ms : list move) (l : list send) : Prop := {
  b_channels : g_channel <$> l = channels;
  b_slots : (count held l <= MAX_CONCURRENT_SENDS)%nat;
  b_gates : forall c, (count (flying c) l <= MAX_PER_CHANNEL)%nat;
  b_rank : sum_list_with rank l = length ms }.

Lemma rank_bound l : (sum_list_with rank l <= 3 * length l)%nat.
Proof. induction l as [|t l IH]; cbn; [done|]. unfold rank at 1. destruct (g_stage t); lia. Qed.

Lemma start_bounded channels : bounded channels [] (start channels).
Proof.
  assert (Hc : forall p, (forall c, p (mkSend c Waiting) = false) -> count p (start channels) = 0%nat).
  { intros p Hp. apply count_zero. intros t (c & -> & _)%list_elem_of_fmap. apply Hp. }
  split.
  - unfold start. rewrite <- list_fmap_compose. by apply list_fmap_id.
  - rewrite Hc by done. lia.
  - intros c. rewrite Hc by done. lia.
  - unfold start. induction channels as [|c cs IH]; [done|]. cbn. exact (IH (fun p Hp => proj2 (count_zero p (start cs)) ltac:(intros t (c' & -> & _)%list_elem_of_fmap; apply Hp))).
Qed.

Lemma advance_bounded channels ms l m l' : bounded channels ms l -> advance m l = Some l' -> bounded channels (ms ++ [m]) l'.
Proof.
  intros [Hc Hs Hg Hr] H. apply advance_inv in H as (n & t & st & Ht & -> & Hm).
  pose proof (rank_insert n t (with_stage st t) l Ht) as R. pose proof (fun p => count_insert p n t (with_stage st t) l Ht) as C.
  assert (Hst : exists k, m = k /\ match k with TakeSlot _ => g_stage t = Waiting /\ st = AtGate /\ (count held l < MAX_CONCURRENT_SENDS)%nat
      | PassGate _ => g_stage t = AtGate /\ st = InAir /\ (count (flying (g_channel t)) l < MAX_PER_CHANNEL)%nat
      | EndSend _ => g_stage t = InAir /\ st = Over end) by (exists m; destruct m; tauto).
  clear Hm. destruct Hst as (k & -> & Hst). split.
  - rewrite list_fmap_insert. cbn. rewrite list_insert_id; [done|]. by rewrite list_lookup_fmap, Ht.
  - specialize (C held). unfold held in C at 2 4. cbn in C.
    destruct k; [destruct Hst as (Es & -> & Hl)|destruct Hst as (Es & -> & _)|destruct Hst as (Es & ->)]; rewrite Es in C; lia.
  - intros c. specialize (C (flying c)). specialize (Hg c). unfold flying in C at 2 4. cbn in C.
    destruct k; [destruct Hst as (Es & -> & _)|destruct Hst as (Es & -> & Hl)|destruct Hst as (Es & ->)]; rewrite Es in C; cbn in C; try lia;
      destruct (Z.eqb_spec (g_channel t) c) as [<-|]; lia.
  - rewrite length_app. unfold rank in R at 2 4. cbn in R |- *.
    destruct k; [destruct Hst as (Es & -> & _)|destruct Hst as (Es & -> & _)|destruct Hst as (Es & ->)]; rewrite Es in R; lia.
Qed.

Lemma reached_bounded channels ms l : reached channels ms l -> bounded channels ms l.
Proof. induction 1; [apply start_bounded|by eapply advance_bounded]. Qed.

(** The two limits hold whatever the providers do: never more than
    [MAX_CONCURRENT_SENDS] deliveries hold a slot and never more than
    [MAX_PER_CHANNEL] of a channel are in the air; and the waiting never locks
    up: until every delivery is over, one of them can move, so a pass whose
    sends all end is over after three moves of each. *)
Theorem sends_bounded (channels : list Z) (ms : list move) (l : list send) : reached channels ms l ->
  (count held l <= MAX_CONCURRENT_SENDS)%nat /\ (forall c, (count (flying c) l <= MAX_PER_CHANNEL)%nat)
  /\ (length ms <= 3 * length channels)%nat
  /\ (all_over l \/ exists m l', advance m l = Some l').
Proof.
  intros H. destruct (reached_bounded _ _ _ H) as [Hc Hs Hg Hr]. split_and!; [done..| |].
  { rewrite <- Hr, <- Hc, length_fmap. apply rank_bound. }
  destruct (decide (Exists (fun t => g_stage t = InAir) l)) as [Hx|Hx].
  { apply Exists_exists in Hx as (t & [n Hn]%list_elem_of_lookup & Ht). right. exists (EndSend n). cbn. rewrite Hn. cbn.
    rewrite bool_decide_eq_true_2 by done. by eexists. }
  assert (Ha : forall t, t ∈ l -> g_stage t <> InAir) by (intros t Ht E; apply Hx, Exists_exists; by exists t). clear Hx.
  assert (Hf : forall c, count (flying c) l = 0%nat).
  { intros c. apply count_zero. intros t Ht. apply Ha in Ht. unfold flying. by destruct (g_stage t). }
  destruct (decide (Exists (fun t => g_stage t = AtGate) l)) as [Hx|Hx].
  { apply Exists_exists in Hx as (t & Ht & Es). destruct (first_such (at_gate (g_channel t)) l t Ht) as (n & u & Hn & Hu & Hi).
    { unfold at_gate. rewrite Es. apply Z.eqb_refl. }
    assert (Ec : g_channel u = g_channel t) by (unfold at_gate in Hu; destruct (g_stage u); try done; by apply Z.eqb_eq).
    right. exists (PassGate n). unfold advance. rewrite Hn. cbn [mbind option_bind]. rewrite Ec, Hu, Hi, Hf. by eexists. }
  destruct (decide (Exists (fun t => g_stage t = Waiting) l)) as [Hw|Hw].
  { apply Exists_exists in Hw as (t & Ht & Es). destruct (first_such waiting l t Ht) as (n & u & Hn & Hu & Hi); [unfold waiting; by rewrite Es|].
    right. exists (TakeSlot n). unfold advance. rewrite Hn. cbn [mbind option_bind]. rewrite Hu, Hi.
    replace (count held l) with 0%nat; [by eexists|]. symmetry. apply count_zero. intros v Hv. unfold held.
    specialize (Ha v Hv). destruct (g_stage v) eqn:Ev; try done. exfalso. apply Hx, Exists_exists. by exists v. }
  left. apply List.Forall_forall. intros t Ht%list_elem_of_In. specialize (Ha t Ht). destruct (g_stage t) eqn:Es; try done; exfalso.
  - apply Hw, Exists_exists. by exists t.
  - apply Hx, Exists_exists. by exists t.
Qed.

(** *** What they do not *)

Definition ends (m : move) : bool := match m with EndSend _ => true | _ => false end.

(** Until a send ends, the slots go to the deliveries in order. *)
Definition in_order (l : list send) : Prop :=
  exists a b, l = a ++ b /\ Forall (fun t => held t = true) a /\ Forall (fun t => waiting t = true) b /\ (length a <= MAX_CONCURRENT_SENDS)%nat.

Lemma stages_count_all p l : Forall (fun t => p t = true) l -> count p l = length l.
Proof. induction 1 as [|t l Ht _ IH]; [done|]. rewrite stages_count_cons, Ht, IH. done. Qed.

Lemma in_order_count a b : Forall (fun t => held t = true) a -> Forall (fun t => waiting t = true) b -> count held (a ++ b) = length a.
Proof.
  intros Ha Hb. induction Ha as [|t a Ht _ IH]; cbn [app].
  - apply count_zero. intros t Ht. rewrite List.Forall_forall in Hb. apply list_elem_of_In, Hb in Ht.
    unfold waiting in Ht. unfold held. by destruct (g_stage t).
  - rewrite stages_count_cons, Ht, IH. done.
Qed.

Lemma advance_in_order m l l' : ends m = false -> in_order l -> advance m l = Some l' -> in_order l'.
Proof.
  intros Hm (a & b & -> & Ha & Hb & Hl) H. apply advance_inv in H as (n & t & st & Ht & -> & Hk).
  assert (Hb' : forall x, x ∈ b -> waiting x = true) by (intros x Hx; rewrite List.Forall_forall in Hb; by apply Hb, list_elem_of_In).
  destruct m as [k|k|k]; [|destruct Hk as (-> & Es & -> & _)|done].
  - destruct Hk as (-> & Es & -> & Hf & Hc). rewrite in_order_count in Hc by done.
    destruct (decide (n < length a)%nat) as [Hn|Hn].
    { rewrite lookup_app_l in Ht by done. rewrite Forall_lookup in Ha. specialize (Ha n t Ht). unfold held in Ha. by rewrite Es in Ha. }
    assert (En : n = length a).
    { destruct (decide (n = length a)) as [|Hne]; [done|exfalso]. destruct b as [|x b].
      { apply lookup_lt_Some in Ht. rewrite app_nil_r in Ht. lia. }
      unfold first_in_line in Hf. apply negb_true_iff, not_true_iff_false in Hf. apply Hf, existsb_exists. exists x.
      split; [|apply Hb'; left]. apply list_elem_of_In, list_elem_of_lookup. exists (length a).
      rewrite lookup_take_lt by lia. by rewrite lookup_app_r, Nat.sub_diag by lia. }
    subst n. rewrite lookup_app_r, Nat.sub_diag in Ht by lia. destruct b as [|x b]; [done|]. injection Ht as ->.
    exists (a ++ [with_stage AtGate t]), b. split_and!.
    + rewrite insert_app_r_alt, Nat.sub_diag by lia. by rewrite <- app_assoc.
    + apply Forall_app. split; [done|]. by apply Forall_singleton.
    + apply Forall_cons in Hb. apply Hb.
    + rewrite length_app. cbn. lia.
  - destruct (decide (n < length a)%nat) as [Hn|Hn].
    + exists (<[n := with_stage InAir t]> a), b. split_and!; [by rewrite insert_app_l| |done|by rewrite length_insert].
      by apply Forall_insert.
    + rewrite lookup_app_r in Ht by lia. apply list_elem_of_lookup_2, Hb' in Ht. unfold waiting in Ht. by rewrite Es in Ht.
Qed.

(** C30 (error): the two limits do not do what they are there for: "one hanging
    provider cannot consume the whole budget and starve the channels that are
    answering".  The slot is taken before the gate, so deliveries that wait for
    a gate hold slots.  When the first [MAX_CONCURRENT_SENDS] deliveries of a
    pass are for one channel, then as long as none of its sends has ended, no
    delivery for any other channel is in the air, whatever moves are made. *)
Theorem hanging_channel_starves (c : Z) (channels : list Z) (ms : list move) (l : list send) :
  take MAX_CONCURRENT_SENDS channels = replicate MAX_CONCURRENT_SENDS c ->
  reached channels ms l -> existsb ends ms = false ->
  forall t, t ∈ l -> g_stage t = InAir -> g_channel t = c.
Proof.
  intros Hc H He. assert (Hi : in_order l).
  { induction H as [|ms l m l' H IH Hm].
    - exists [], (start channels). split_and!; [done..| |cbn; lia]. apply List.Forall_forall. intros t Ht%list_elem_of_In.
      by apply list_elem_of_fmap in Ht as (x & -> & _).
    - rewrite existsb_app, orb_false_iff in He. destruct He as [He1 He2]. cbn in He2. rewrite orb_false_r in He2.
      apply (advance_in_order m l); [done|by apply IH|done]. }
  apply reached_bounded in H as [Eg _ _ _]. destruct Hi as (a & b & -> & Ha & Hb & Hl).
  intros t [Ht|Ht]%elem_of_app Es.
  - apply list_elem_of_lookup in Ht as [n Hn]. pose proof (lookup_lt_Some _ _ _ Hn) as Hlt.
    assert (Hx : take MAX_CONCURRENT_SENDS channels !! n = Some (g_channel t)).
    { rewrite lookup_take_lt by lia. rewrite <- Eg, list_lookup_fmap, lookup_app_l by done. by rewrite Hn. }
    rewrite Hc in Hx. apply lookup_replicate in Hx as [-> _]. done.
  - rewrite List.Forall_forall in Hb. apply list_elem_of_In, Hb in Ht. unfold waiting in Ht. by rewrite Es in Ht.
Qed.

(** A schedule, run. *)
Definition run_moves (channels : list Z) (ms : list move) : option (list send) :=
  foldl (fun l m => l ≫= advance m) (Some (start channels)) ms.

Lemma run_reached channels ms : forall l, run_moves channels ms = Some l -> reached channels ms l.
Proof.
  unfold run_moves. induction ms as [|m ms IH] using rev_ind; intros l H.
  - injection H as <-. constructor.
  - rewrite foldl_app in H. cbn in H. destruct (foldl _ _ ms) as [l0|] eqn:E; [|done]. econstructor; [by apply IH|done].
Qed.

(** Eight deliveries for a provider that hangs, then one for another. *)
Definition crowd : list Z := replicate 8 1 ++ [2].
Definition crowding : list move := [TakeSlot 0; PassGate 0; TakeSlot 1; PassGate 1; TakeSlot 2; TakeSlot 3; TakeSlot 4; TakeSlot 5; TakeSlot 6; TakeSlot 7].
Definition crowded : list send := default [] (run_moves crowd crowding).

Lemma hanging_channel_starves_witness : (forall t, t ∈ crowded -> g_stage t = InAir -> g_channel t = 1) /\ advance (TakeSlot 8) crowded = None.
Proof.
  split; [|by vm_compute]. apply (hanging_channel_starves 1 crowd crowding); [by vm_compute| |by vm_compute].
  apply run_reached. by vm_compute.
Defined.

End Gates.

Module Notifier.
Import Outbox.

(** ** Tasks and calls: who hears, and in what words *)

Definition TASK_STATUS_LABEL : pydict (list Z) (list Z) :=
  [(str "ok", [0x6267; 0x884C; 0x6210; 0x529F]); (str "failed", [0x6267; 0x884C; 0x5931; 0x8D25]); (str "skipped", [0x5DF2; 0x8DF3; 0x8FC7])].
Definition CALL_OUTCOME_LABEL : pydict (list Z) (list Z) :=
  [(str "missed", [0x672A; 0x63A5]); (str "answered", [0x5DF2; 0x63A5; 0x901A]); (str "rejected", [0x5DF2; 0x62D2; 0x63A5]); (str "no_answer", [0x65E0; 0x4EBA; 0x63A5; 0x542C]);
   (str "busy", [0x5360; 0x7EBF]); (str "failed", [0x547C; 0x53EB; 0x5931; 0x8D25])].

(** [round(x)] of a finite double: the even one of two nearest integers. *)
Definition round_even (s : bool) (m : positive) (e : Z) : Z :=
  let n :=
    if 0 <=? e then Zpos m * 2 ^ e
    else
      let d := 2 ^ (- e) in let q := Zpos m / d in let r := Zpos m mod d in
      if 2 * r <? d then q else if d <? 2 * r then q + 1 else if Z.even q then q else q + 1 in
  if s then - n else n.

(** An infinity raises OverflowError, a NaN ValueError. *)
Definition py_round (f : SpecFloat.spec_float) : option Z :=
  match f with
  | SpecFloat.S754_zero _ => Some 0
  | SpecFloat.S754_finite s m e => Some (round_even s m e)
  | _ => None
  end.

(** The rows the notifier reads: a message's row has the columns of its card
    and its module joined to it. *)
Record world := mkWorld {
  channels : list Channels.channel_row; rules : list Notify.rule;
  message_row : Z -> option frame; task_row : Z -> option frame; call_row : Z -> option frame }.

Definition notified (w : world) : list Notify.channel := Channels.notified <$> channels w.

Section Audience.
Context (repr : json -> pystr) (local : json -> pystr) (float_text : pystr -> option SpecFloat.spec_float).

Definition py_str (v : json) : pystr := match v with JStr s => s | _ => repr v end.
Definition or_text (v : json) (s : pystr) : pystr := if truthy v then py_str v else s.

(** [None] where the code raises. *)
Definition call_summary (call f : frame) : option pystr :=
  let peer := Notify.first_truthy [jget "peer" call; jget "peer" f] (JStr [0x672A; 0x77E5; 0x53F7; 0x7801]) in
  let outcome := or_text (Notify.first_truthy [jget "outcome" call; jget "outcome" f] (JStr [])) [] in
  let label := default (match outcome with [] => [0x6765; 0x7535] | _ => outcome end) (dict_get outcome CALL_OUTCOME_LABEL) in
  let where_ := Notify.first_truthy [jget "sim_label" call; jget "device" call] (jget "device" f) in
  ring ← res_opt (Handlers.float_or_zero float_text (if jhas "ring_seconds" call then jget "ring_seconds" call else jget "ring_seconds" f));
  rang ← (if truthy (JFloat ring) then (fun n => [([0x54CD; 0x94C3] ++ str ":") ++ decimal n ++ (str " " ++ [0x79D2])]) <$> py_round ring else Some []);
  Some (Notify.join_lines (([0x3010; 0x6765; 0x7535; 0x3011] ++ py_str peer ++ str " " ++ label) :: (if truthy where_ then [([0x5361] ++ str ":") ++ py_str where_] else []) ++ rang)).

Definition task_summary (task_id : Z) (task f : frame) : option pystr :=
  let status := or_text (jget "status" f) (str "unknown") in
  let name := or_text (jget "name" task) (([0x4EFB; 0x52A1] ++ str " ") ++ decimal task_id) in
  let where_ := Notify.first_truthy [jget "sim_label" task; jget "device" task] (jget "device" f) in
  let detail := Notify.first_truthy [jget "error" f] (jget "detail" f) in
  attempts ← res_opt (Handlers.py_int_of (Notify.first_truthy [jget "attempts" f] (JInt 1)));
  Some (Notify.join_lines (([0x3010; 0x4FDD; 0x53F7; 0x3011] ++ name ++ str " " ++ default status (dict_get status TASK_STATUS_LABEL))
    :: (if truthy where_ then [([0x5361] ++ str ":") ++ py_str where_] else [])
    ++ (if truthy detail then [py_str detail] else [])
    ++ (if 1 <? attempts then [([0x5C1D; 0x8BD5] ++ str " ") ++ decimal attempts ++ (str " " ++ [0x6B21])] else [])
    ++ (if truthy (jget "next_run_at" f) then [([0x4E0B; 0x6B21] ++ str ":") ++ local (JStr (py_str (jget "next_run_at" f)))] else []))).

(** [self.db.one(...) or {}]; a NULL id finds nothing. *)
Definition row_or_empty (row : Z -> option frame) (ref : option Z) : frame := default [] (ref ≫= row).

Definition task_targets (w : world) (ref : option Z) (f : frame) : option (list (Z * option Z) * pystr * pystr) :=
  let task := row_or_empty (task_row w) ref in
  if truthy (jget_or "notify_on_result" (jget_or "notify" (JBool true) f) task)
  then body ← task_summary (default 0 ref) task f; Some (Notify.every_enabled_channel (notified w), [0x4FDD; 0x53F7; 0x4EFB; 0x52A1], body)
  else Some ([], [], []).

Definition call_targets (w : world) (ref : option Z) (f : frame) : option (list (Z * option Z) * pystr * pystr) :=
  if bool_decide (or_text (jget "direction" f) [] = str "in")
  then body ← call_summary (row_or_empty (call_row w) ref) f; Some (Notify.every_enabled_channel (notified w), [0x6765; 0x7535], body)
  else Some ([], [], []).

(** [_targets_for]; an unknown kind owes nobody anything. *)
Definition targets_for (lower : pystr -> pystr) (search : pystr -> pystr -> option bool) (w : world) : targets_fun :=
  Outbox.targets_for lower search (message_row w) (rules w) (notified w) (fun i =>
    if bool_decide (n_kind i = str "task_result") then task_targets w (n_ref i) (n_frame i)
    else if bool_decide (n_kind i = str "call") then call_targets w (n_ref i) (n_frame i)
    else Some ([], [], [])).
End Audience.

(** ** The record of an outcome *)

(** What the notifier writes: the queue, notify_logs, the incidents. *)
Record hub := mkHub { queue_ : queue; logs : list log_row; incidents : Incidents.table }.

Definition set_queue (q : queue) (h : hub) : hub := mkHub q (logs h) (incidents h).

Definition channel_fingerprint (channel : Z) : pystr := str "notify-channel:" ++ decimal channel.

(** [_record], for a row of notify_logs with its scrubbed detail. *)
Definition record_incident (w : world) (now : Z) (r : log_row) (t : Incidents.table) : Incidents.table :=
  let c := l_channel r in
  if l_ok r then (Incidents.resolve_incident (channel_fingerprint c) [0x901A; 0x77E5; 0x6295; 0x9012; 0x5DF2; 0x6062; 0x590D] now t).2
  else
    let name := match List.find (fun row => Channels.h_id row =? c) (channels w) with Some row => Channels.h_name row | None => [] end in
    let label := match name with [] => ([0x6E20; 0x9053] ++ str " ") ++ decimal c | _ => name end in
    let detail := match l_detail r with [] => ([0x5C1D; 0x8BD5] ++ str " ") ++ decimal (l_attempts r) ++ (str " " ++ [0x6B21; 0x540E; 0x5931; 0x8D25]) | d => d end in
    Incidents.open_incident (channel_fingerprint c) (str "notification_failed") (str "warning") label (label ++ (str " " ++ [0x6295; 0x9012; 0x5931; 0x8D25])) detail now t.

Definition record (w : world) (now : Z) (h : hub) (r : log_row) : hub :=
  mkHub (queue_ h) (logs h ++ [r]) (record_incident w now r (incidents h)).

(** ** One attempt, and a pass *)

Section Passes.
Context (is_word : Z -> bool) (repr local : json -> pystr) (lower : pystr -> pystr) (search : pystr -> pystr -> option bool).
Context (float_text : pystr -> option SpecFloat.spec_float).
(** What the senders need: see Senders.v. *)
Context (float_micros http_date : pystr -> option Z) (quoted : pystr -> pystr) (hmac : pystr -> pystr -> pystr).
Context (bad_port : json -> pystr) (bad_header : pystr).
(** The settings of the notifier, and how a moment is written. *)
Context (retries : Z) (backoff : list Z) (owner : pystr) (written : Z -> pystr).

Definition live_channel (w : world) (id : Z) : option Channels.channel_row :=
  List.find (fun row => Channels.h_enabled row && (Channels.h_id row =? id)) (channels w).

(** How the attempt of a claimed row goes.  The channel and the source are two
    queries, [w1] and [w2] the tables they see; [None] where rendering raises. *)
Definition outcome (w1 w2 : world) (clock : Z) (i : intent) (d : delivery) (ask : Senders.request -> Senders.reply) : option attempt_result :=
  match live_channel w1 (d_channel d) with
  | None => Some ChannelDisabled
  | Some row =>
      let rule := match d_rule d with
                  | Some n => if n =? 0 then None else List.find (fun r => Notify.r_id r =? n) (rules w2)
                  | None => None end in
      payload ← Notify.payload_for is_word repr local (n_kind i) (n_title i) (n_body i) (n_frame i) (n_ref i ≫= message_row w2)
                  rule (Channels.notified row) (written clock);
      Some (Senders.attempt is_word repr lower float_micros http_date quoted hmac bad_port bad_header clock
              (Some (Channels.h_type row, Channels.h_config row)) payload ask)
  end.

(** What is settled and recorded then, with [w] the tables [_record] sees. *)
Definition settle (w : world) (clock jitter : Z) (i : intent) (d : delivery) (r : attempt_result) (h : hub) : list log_row * hub :=
  let '(rows, q) := attempt_claimed retries backoff clock jitter i d r (queue_ h) in
  (rows, foldl (record w (utcnow clock)) (set_queue q h) rows).

(** An exception outside the sender leaves the row to its lease. *)
Definition deliver_claimed (w1 w2 w3 : world) (clock jitter : Z) (i : intent) (d : delivery) (ask : Senders.request -> Senders.reply)
    (h : hub) : list log_row * hub :=
  match outcome w1 w2 clock i d ask with Some r => settle w3 clock jitter i d r h | None => ([], h) end.

(** The rows a claim returns carry their intent. *)
Definition with_intents (q : queue) (rows : list delivery) : list (intent * delivery) :=
  omap (fun d => (fun i => (i, d)) <$> intent_of d q) rows.

Definition expand (w : world) (clock : Z) (h : hub) : hub :=
  set_queue (expand_intents (targets_for repr local float_text lower search w) (utcnow clock) (queue_ h)) h.

Definition claim (clock : Z) (h : hub) : list (intent * delivery) * hub :=
  let '(rows, q) := claim_deliveries owner LEASE_SECONDS CLAIM_BATCH (utcnow clock) (queue_ h) in
  (with_intents (queue_ h) rows, set_queue q h).

(** [pump] when nothing else happens meanwhile and the sends end in the order
    they were claimed: the number of deliveries attempted. *)
Definition pump (w : world) (clock jitter : Z) (ask : Senders.request -> Senders.reply) (h : hub) : nat * hub :=
  let '(rows, h) := claim clock (expand w clock h) in
  (length rows, foldl (fun h id => (deliver_claimed w w w clock jitter id.1 id.2 ask h).2) h rows).

(** [drain]: [max(4, retries + 2)] passes at most, until one attempts nothing. *)
Fixpoint drain_loop (n : nat) (w : world) (clock jitter : Z) (ask : Senders.request -> Senders.reply) (h : hub) : hub :=
  match n with
  | O => h
  | S n => let '(k, h) := pump w clock jitter ask h in if (k =? 0)%nat then h else drain_loop n w clock jitter ask h
  end.

Definition drain (w : world) (clock jitter : Z) (ask : Senders.request -> Senders.reply) (h : hub) : hub :=
  drain_loop (Z.to_nat (Z.max 4 (retries + 2))) w clock jitter ask h.

(** *** Pushes that are not queued *)

(** [_attempt]: what the caller gets and the row that is recorded. *)
Definition attempt_directly (row : Channels.channel_row) (p : Notify.Payload) (message rule : option Z) (clock : Z)
    (ask : nat -> Senders.request -> Senders.reply) : (bool * nat * pystr) * log_row :=
  Senders.attempt_direct is_word repr lower float_micros http_date quoted hmac bad_port bad_header clock
    (Channels.h_id row) (Channels.h_type row) (Channels.h_config row) p message rule (Z.to_nat retries) ask.

Definition push (row : Channels.channel_row) (context : list (list Z * json)) (rule : option Notify.rule) (message : option Z) (clock : Z)
    (ask : nat -> Senders.request -> Senders.reply) : option ((bool * nat * pystr) * log_row) :=
  payload ← Notify.render_payload is_word repr (Channels.notified row) context rule;
  Some (attempt_directly row payload message (Notify.r_id <$> rule) clock ask).

(** [deliver]; [ask c] is the world for channel [c]. *)
Definition deliver (w : world) (message_id : Z) (f : frame) (clock : Z) (ask : Z -> nat -> Senders.request -> Senders.reply) :
    option (list ((bool * nat * pystr) * log_row)) :=
  let message := default [] (message_row w message_id) in
  quiet ← Notify.suppressed message f;
  if quiet : bool then Some []
  else
    body ← Notify.notification_body message f;
    targets ← Notify.match_rules lower search (rules w) (notified w) (Notify.row_id (jget "sim_id" message)) body;
    context ← Notify.context_for local message f (written clock);
    mapM (fun t : Notify.rule * Notify.channel =>
      row ← live_channel w (Notify.c_id t.2);
      push row context (Some t.1) (Some message_id) clock (ask (Notify.c_id t.2))) targets.

(** [notify_text]: a plain text, to the channels named or to all. *)
Definition notify_text (w : world) (text title : pystr) (only : option (list Z)) (clock : Z)
    (ask : Z -> nat -> Senders.request -> Senders.reply) : list ((bool * nat * pystr) * log_row) :=
  let wanted row := Channels.h_enabled row && match only with Some ids => bool_decide (Channels.h_id row ∈ ids) | None => true end in
  let context := [(str "sender", JStr []); (str "card", JStr []); (str "device", JStr []); (str "iccid", JStr []);
                  (str "message", JStr text); (str "timestamp", JStr (local (JStr (written clock))))] in
  map (fun row : Channels.channel_row => attempt_directly row (Notify.mkPayload text title context) None None clock (ask (Channels.h_id row)))
    (filter (fun row => wanted row = true) (channels w)).

(** The alerter's name for a module, from the module's row joined to its card. *)
Definition device_label (row : frame) (device : pystr) : option pystr :=
  let iccid := Notify.first_truthy [jget "iccid" row] (JStr []) in
  tail ← (if truthy iccid then (fun s => JStr (Notify.ELLIPSIS :: Notify.last4 s)) <$> as_str iccid else Some (JStr []));
  let name := Notify.first_truthy [jget "sim_label" row; jget "phone_number" row; jget "device_label" row] tail in
  Some (if truthy name then py_str repr name ++ str "(" ++ device ++ str ")" else device).

(** [_deliver] of the alerter: a page, or its recovery. *)
Definition alert_text (recovered : bool) (label : pystr) (clock : Z) : pystr * pystr :=
  let tag := if recovered then [0x6062; 0x590D] else [0x6389; 0x7EBF] in
  let phrase := if recovered then [0x5DF2; 0x6062; 0x590D; 0x5728; 0x7EBF] else [0x5DF2; 0x79BB; 0x7EBF] in
  let time_label := if recovered then [0x6062; 0x590D; 0x65F6; 0x95F4] else [0x6389; 0x7EBF; 0x65F6; 0x95F4] in
  ([0x3010] ++ tag ++ [0x3011] ++ label ++ str " " ++ phrase ++ [10] ++ time_label ++ str ":" ++ local (JStr (written clock)),
   if recovered then [0x6A21; 0x5757; 0x6062; 0x590D] else [0x6A21; 0x5757; 0x6389; 0x7EBF]).

Definition deliver_alert (w : world) (row : option frame) (device : pystr) (recovered : bool) (clock : Z)
    (ask : Z -> nat -> Senders.request -> Senders.reply) : option (list ((bool * nat * pystr) * log_row)) :=
  label ← device_label (default [] row) device;
  let '(text, title) := alert_text recovered label clock in
  Some (notify_text w text title None clock ask).

(** ** The worker's loop *)

(** History: an outcome recorded for a channel, or an incident opened or
    closed by somebody else (another component, the operator). *)
Inductive entry := Outcome (channel : Z) (ok : bool) | Elsewhere (fingerprint : pystr) (opened : bool).

Inductive phase :=
| Expanding | Claiming | Sending (rows : list (intent * delivery)) (stages : list Gates.send) | Looking | Sleeping (until : Z).

Record notifier := mkNotifier {
  hub_ : hub; closing : bool; wake : bool; worker : option phase; clock_ : Z; trace : list entry }.

Definition goto (ph : option phase) (y : notifier) : notifier := mkNotifier (hub_ y) (closing y) (wake y) ph (clock_ y) (trace y).
Definition with_hub (h : hub) (y : notifier) : notifier := mkNotifier h (closing y) (wake y) (worker y) (clock_ y) (trace y).

Definition outcomes (rows : list log_row) : list entry := (fun r => Outcome (l_channel r) (l_ok r)) <$> rows.
Definition logged (rows : list log_row) (h : hub) (y : notifier) : notifier :=
  mkNotifier h (closing y) (wake y) (worker y) (clock_ y) (trace y ++ outcomes rows).
Definition with_incidents (t : Incidents.table) (told : list entry) (y : notifier) : notifier :=
  mkNotifier (mkHub (queue_ (hub_ y)) (logs (hub_ y)) t) (closing y) (wake y) (worker y) (clock_ y) (trace y ++ told).

(** After a pass, one that raised too. *)
Definition pass_over (y : notifier) : notifier :=
  if closing y then goto None y else mkNotifier (hub_ y) false false (Some Looking) (clock_ y) (trace y).

Definition opened_by (st : Incidents.status) : bool := match st with Incidents.Resolved => false | _ => true end.

Inductive step : notifier -> notifier -> Prop :=
| step_start y : worker y = None -> step y (mkNotifier (hub_ y) false (wake y) (Some Expanding) (clock_ y) (trace y))
| step_expand w y : worker y = Some Expanding -> step y (goto (Some Claiming) (with_hub (expand w (clock_ y) (hub_ y)) y))
| step_expand_raises w k y : worker y = Some Expanding -> (* after [k] intents *)
    step y (pass_over (with_hub (set_queue (foldl (fun q i => expand_one (targets_for repr local float_text lower search w) (utcnow (clock_ y)) i q)
              (queue_ (hub_ y)) (take k (pending_intents EXPAND_BATCH (queue_ (hub_ y))))) (hub_ y)) y))
| step_claim rows h y : worker y = Some Claiming -> claim (clock_ y) (hub_ y) = (rows, h) ->
    step y (match rows with
            | [] => pass_over (with_hub h y)
            | _ => goto (Some (Sending rows (Gates.start (d_channel <$> rows.*2)))) (with_hub h y) end)
| step_claim_raises y : worker y = Some Claiming -> step y (pass_over y)
| step_gate rows l m l' y : worker y = Some (Sending rows l) -> Gates.advance m l = Some l' -> Gates.ends m = false ->
    step y (goto (Some (Sending rows l')) y)
| step_sent rows l n l' i d w1 w2 w3 jitter ask told h y : worker y = Some (Sending rows l) ->
    Gates.advance (Gates.EndSend n) l = Some l' -> rows !! n = Some (i, d) ->
    deliver_claimed w1 w2 w3 (clock_ y) jitter i d ask (hub_ y) = (told, h) ->
    step y (goto (Some (Sending rows l')) (logged told h y))
| step_gathered rows l y : worker y = Some (Sending rows l) -> Gates.all_over l -> step y (pass_over y)
| step_look y : worker y = Some Looking -> step y (goto (Some (Sleeping (clock_ y + idle_time (clock_ y) (queue_ (hub_ y))))) y)
| step_look_raises y : worker y = Some Looking -> step y (goto None y)
| step_wake until y : worker y = Some (Sleeping until) -> wake y = true \/ until <= clock_ y ->
    step y (goto (if closing y then None else Some Expanding) y)
| step_close y : (* pause and aclose *)
    step y (mkNotifier (hub_ y) true true (worker y) (clock_ y) (trace y))
| step_cancel y : closing y = true -> (* aclose, and pause when its time is up *)
    step y (goto None y)
| step_enqueue kind ref f key title body y :
    step y (with_hub (set_queue (enqueue_notification kind ref f key title body (utcnow (clock_ y)) (queue_ (hub_ y))).2 (hub_ y)) y)
| step_retry id y : step y (with_hub (set_queue (retry_delivery id (utcnow (clock_ y)) (queue_ (hub_ y))).2 (hub_ y)) y)
| step_kick y : step y (mkNotifier (hub_ y) (closing y) true (worker y) (clock_ y) (trace y))
| step_direct w r y : (* the test of a channel, a notice that is not queued *)
    step y (logged [r] (record w (utcnow (clock_ y)) (hub_ y) r) y)
| step_open fp kind severity source title detail y :
    step y (with_incidents (Incidents.open_incident fp kind severity source title detail (utcnow (clock_ y)) (incidents (hub_ y)))
              [Elsewhere (take 256 fp) true] y)
| step_resolve fp detail y :
    step y (with_incidents (Incidents.resolve_incident fp detail (utcnow (clock_ y)) (incidents (hub_ y))).2 [Elsewhere (take 256 fp) false] y)
| step_status id st y : (* the operator *)
    step y (with_incidents (Incidents.set_incident_status id st (utcnow (clock_ y)) (incidents (hub_ y)))
              ((fun i => Elsewhere (Incidents.i_fingerprint i) (opened_by st)) <$>
                 filter (fun i => Incidents.i_id i = id) (Incidents.rows (incidents (hub_ y)))) y)
| step_clock c y : clock_ y <= c -> step y (mkNotifier (hub_ y) (closing y) (wake y) (worker y) c (trace y)).

Definition idle (h : hub) (clock : Z) : notifier := mkNotifier h false false None clock [].

(** *** Incidents and outcomes *)

Definition is_open (fp : pystr) (t : Incidents.table) : bool :=
  existsb (fun i => bool_decide (Incidents.i_fingerprint i = fp) && opened_by (Incidents.i_status i)) (Incidents.rows t).

(** The fingerprint as it is stored. *)
Definition stored_fingerprint (channel : Z) : pystr := take 256 (channel_fingerprint channel).

Definition about (e : entry) : pystr * bool :=
  match e with Outcome c ok => (stored_fingerprint c, negb ok) | Elsewhere fp b => (fp, b) end.

(** What the last entry about [fp] says, [b] if there is none. *)
Definition last_word (fp : pystr) (b : bool) (l : list entry) : bool :=
  foldl (fun b e => if bool_decide ((about e).1 = fp) then (about e).2 else b) b l.

Lemma last_word_app fp b l l' : last_word fp b (l ++ l') = last_word fp (last_word fp b l) l'.
Proof. apply foldl_app. Qed.

Lemma last_word_cons fp b e l : last_word fp b (e :: l) = last_word fp (if bool_decide ((about e).1 = fp) then (about e).2 else b) l.
Proof. done. Qed.

Lemma last_word_silent fp b l : Forall (fun e => (about e).1 <> fp) l -> last_word fp b l = b.
Proof.
  intros H. revert b. induction H as [|e l He _ IH]; intros b; [done|]. cbn. rewrite bool_decide_eq_false_2 by done. apply IH.
Qed.

(** Rows that keep their fingerprint and, at [fp], take the status [st]. *)
Lemma is_open_map (f : Incidents.incident -> Incidents.incident) n fp t : (forall i, Incidents.i_fingerprint (f i) = Incidents.i_fingerprint i) ->
  is_open fp (Incidents.mkTable (f <$> Incidents.rows t) n)
  = existsb (fun i => bool_decide (Incidents.i_fingerprint i = fp) && opened_by (Incidents.i_status (f i))) (Incidents.rows t).
Proof.
  intros Hf. unfold is_open. cbn [Incidents.rows]. induction (Incidents.rows t) as [|i l IH]; [done|].
  rewrite fmap_cons. cbn [existsb]. by rewrite Hf, IH.
Qed.

Lemma existsb_same {A} (p q : A -> bool) l : (forall x, x ∈ l -> p x = q x) -> existsb p l = existsb q l.
Proof.
  intros H. induction l as [|x l IH]; [done|]. cbn. rewrite (H x) by left. f_equal. apply IH. intros y Hy. apply H. by right.
Qed.

Lemma open_opens fp0 kind severity source title detail now fp t :
  is_open fp (Incidents.open_incident fp0 kind severity source title detail now t) = (if bool_decide (take 256 fp0 = fp) then true else is_open fp t).
Proof.
  unfold Incidents.open_incident. set (fp1 := take 256 fp0). destruct (existsb _ _) eqn:E.
  - rewrite is_open_map by (intros i; by case_bool_decide). case_bool_decide as Hfp.
    + apply existsb_exists in E as (i & Hi & Ei). apply existsb_exists. exists i. split; [done|]. rewrite Ei. apply bool_decide_eq_true in Ei.
      rewrite bool_decide_eq_true_2 by congruence. cbn. unfold Incidents.reopened. cbn. by destruct (Incidents.i_status i).
    + apply existsb_same. intros i _. destruct (decide (Incidents.i_fingerprint i = fp)) as [Ei|Ei].
      * rewrite (bool_decide_eq_false_2 (Incidents.i_fingerprint i = fp1)) by congruence. done.
      * by rewrite !bool_decide_eq_false_2 by done.
  - unfold is_open. cbn [Incidents.rows]. rewrite existsb_app. cbn. rewrite orb_false_r, andb_true_r. case_bool_decide; [by rewrite orb_true_r|by rewrite orb_false_r].
Qed.

Lemma resolve_closes fp0 detail now fp t :
  is_open fp (Incidents.resolve_incident fp0 detail now t).2 = (if bool_decide (take 256 fp0 = fp) then false else is_open fp t).
Proof.
  unfold Incidents.resolve_incident. cbn [snd]. rewrite is_open_map by (intros i; by destruct (Incidents.resolves fp0 i)).
  case_bool_decide as Hfp.
  - apply not_true_iff_false. intros (i & _ & H)%existsb_exists. apply andb_prop in H as [H1%bool_decide_eq_true H2].
    unfold Incidents.resolves in H2. rewrite (bool_decide_eq_true_2 (_ = take 256 fp0)) in H2 by congruence. cbn [andb] in H2.
    case_bool_decide as E; cbn in H2; [by rewrite E in H2|done].
  - apply existsb_same. intros i _. case_bool_decide as Ei; [|done]. cbn [andb]. unfold Incidents.resolves.
    by rewrite (bool_decide_eq_false_2 (_ = take 256 fp0)) by congruence.
Qed.

Lemma status_opens id st now fp t : Incidents.table_ok t ->
  is_open fp (Incidents.set_incident_status id st now t)
  = last_word fp (is_open fp t) ((fun i => Elsewhere (Incidents.i_fingerprint i) (opened_by st)) <$> filter (fun i => Incidents.i_id i = id) (Incidents.rows t)).
Proof.
  unfold Incidents.table_ok, Incidents.set_incident_status. intros Hn. rewrite is_open_map by (intros i; by case_match). unfold is_open.
  induction (Incidents.rows t) as [|i l IH]; [done|]. rewrite fmap_cons in Hn. apply NoDup_cons in Hn as [Hi Hn].
  rewrite filter_cons. cbn [existsb]. rewrite (IH Hn). clear IH. set (told := (fun i => Elsewhere _ _) <$> filter _ l).
  destruct (decide (Incidents.i_fingerprint i = fp)) as [Ei|Ei].
  - rewrite bool_decide_eq_true_2 by done. cbn [andb].
    assert (Hs : forall b, last_word fp b told = b).
    { intros b. apply last_word_silent, List.Forall_forall. intros e He%list_elem_of_In.
      apply list_elem_of_fmap in He as (j & -> & [_ Hj]%list_elem_of_filter). cbn. intros Ej. apply Hi. rewrite Ei, <- Ej. by apply list_elem_of_fmap_2. }
    assert (Hr : existsb (fun j => bool_decide (Incidents.i_fingerprint j = fp) && opened_by (Incidents.i_status j)) l = false).
    { apply not_true_iff_false. intros (j & Hj%list_elem_of_In & Hp)%existsb_exists. apply andb_prop in Hp as [Ej%bool_decide_eq_true _].
      apply Hi. rewrite Ei, <- Ej. by apply list_elem_of_fmap_2. }
    rewrite Hs, Hr, !orb_false_r. case_decide as E.
    + rewrite E, Z.eqb_refl, fmap_cons, last_word_cons, (bool_decide_eq_true_2 ((about _).1 = fp)) by done. by rewrite Hs.
    + rewrite (proj2 (Z.eqb_neq _ _) E), Hs. done.
  - rewrite (bool_decide_eq_false_2 (Incidents.i_fingerprint i = fp)) by done. cbn [andb orb]. case_decide; [|done].
    by rewrite fmap_cons, last_word_cons, (bool_decide_eq_false_2 ((about _).1 = fp)).
Qed.

Lemma record_says w now fp r t :
  is_open fp (record_incident w now r t) = last_word fp (is_open fp t) (outcomes [r]).
Proof.
  change (last_word fp (is_open fp t) (outcomes [r]))
    with (if bool_decide (stored_fingerprint (l_channel r) = fp) then negb (l_ok r) else is_open fp t).
  unfold record_incident, stored_fingerprint. destruct (l_ok r); [apply resolve_closes|apply open_opens].
Qed.

Definition is_outcome (e : entry) : bool := match e with Outcome _ _ => true | Elsewhere _ _ => false end.

Lemma outcomes_filter rows : filter (fun e => is_outcome e = true) (outcomes rows) = outcomes rows.
Proof.
  unfold outcomes. induction rows as [|r rows IH]; [done|]. rewrite fmap_cons, filter_cons, decide_True by done. by rewrite IH.
Qed.

(** What a step leaves of the incidents, the log and the history: [told] is
    what it adds. *)
Record adds (h h' : hub) (told : list entry) : Prop := {
  a_ok : Incidents.table_ok (incidents h) -> Incidents.table_ok (incidents h');
  a_open : Incidents.table_ok (incidents h) -> forall fp, is_open fp (incidents h') = last_word fp (is_open fp (incidents h)) told;
  a_logs : exists rows, logs h' = logs h ++ rows /\ outcomes rows = filter (fun e => is_outcome e = true) told }.

Lemma adds_nothing h q : adds h (set_queue q h) [].
Proof. split; [done|done|]. exists []. by rewrite app_nil_r. Qed.

Lemma adds_trans h h' h'' l l' : adds h h' l -> adds h' h'' l' -> adds h h'' (l ++ l').
Proof.
  intros [O1 P1 (r1 & L1 & E1)] [O2 P2 (r2 & L2 & E2)]. split.
  - intros H. by apply O2, O1.
  - intros H fp. rewrite last_word_app, <- P1 by done. by apply P2, O1.
  - exists (r1 ++ r2). rewrite L2, L1, app_assoc. split; [done|]. unfold outcomes in *. by rewrite fmap_app, filter_app, E1, E2.
Qed.

Lemma adds_record w now h r : adds h (record w now h r) (outcomes [r]).
Proof.
  split.
  - intros H. unfold record. cbn [incidents]. unfold record_incident. destruct (l_ok r); [by apply Incidents.resolve_ok|by apply Incidents.open_ok].
  - intros _ fp. apply record_says.
  - exists [r]. by rewrite outcomes_filter.
Qed.

Lemma adds_records w now rows : forall h, adds h (foldl (record w now) h rows) (outcomes rows).
Proof.
  induction rows as [|r rows IH]; intros h; [destruct h; apply adds_nothing|]. cbn [foldl].
  change (outcomes (r :: rows)) with (outcomes [r] ++ outcomes rows). eapply adds_trans; [apply adds_record|apply IH].
Qed.

Lemma adds_delivery w1 w2 w3 clock jitter i d ask h told h' :
  deliver_claimed w1 w2 w3 clock jitter i d ask h = (told, h') -> adds h h' (outcomes told).
Proof.
  unfold deliver_claimed. destruct (outcome w1 w2 clock i d ask) as [r|]; [|intros [= <- <-]; destruct h; apply adds_nothing].
  unfold settle. destruct (attempt_claimed _ _ _ _ _ _ _ _) as [rows q]. intros [= <- <-].
  change (outcomes rows) with ([] ++ outcomes rows). eapply adds_trans; [apply adds_nothing|apply adds_records].
Qed.

Definition steps_adds (y y' : notifier) : Prop := exists told, trace y' = trace y ++ told /\ adds (hub_ y) (hub_ y') told.

Lemma quiet_adds y y' q : trace y' = trace y -> hub_ y' = set_queue q (hub_ y) -> steps_adds y y'.
Proof. intros Et Eh. exists []. rewrite Et, Eh, app_nil_r. split; [done|apply adds_nothing]. Qed.

Lemma hub_same y y' : trace y' = trace y -> hub_ y' = hub_ y -> steps_adds y y'.
Proof. intros Et Eh. apply (quiet_adds y y' (queue_ (hub_ y))); [done|]. rewrite Eh. by destruct (hub_ y). Qed.

Lemma pass_over_same y : trace (pass_over y) = trace y /\ hub_ (pass_over y) = hub_ y.
Proof. unfold pass_over. by destruct (closing y). Qed.

Lemma incident_adds t told y : (Incidents.table_ok (incidents (hub_ y)) -> Incidents.table_ok t) ->
  (Incidents.table_ok (incidents (hub_ y)) -> forall fp, is_open fp t = last_word fp (is_open fp (incidents (hub_ y))) told) ->
  Forall (fun e => is_outcome e = false) told -> steps_adds y (with_incidents t told y).
Proof.
  intros Ho Hp Hn. exists told. split; [done|]. split; [done|done|]. exists []. split; [by rewrite app_nil_r|]. symmetry.
  clear Ho Hp. induction Hn as [|e l He _ IH]; [done|]. rewrite filter_cons, decide_False by congruence. exact IH.
Qed.

Lemma step_steps y y' : step y y' -> steps_adds y y'.
Proof.
  intros H. inversion H; subst.
  all: try by apply hub_same.
  all: try by eapply quiet_adds.
  - destruct (pass_over_same (with_hub (set_queue (foldl (fun q i => expand_one (targets_for repr local float_text lower search w) (utcnow (clock_ y)) i q)
              (queue_ (hub_ y)) (take k (pending_intents EXPAND_BATCH (queue_ (hub_ y))))) (hub_ y)) y)) as [Et Eh].
    eapply quiet_adds; [exact Et|exact Eh].
  - unfold claim in H1. destruct (claim_deliveries _ _ _ _ _) as [ds q]. injection H1 as <- <-.
    destruct (with_intents _ ds); [|by eapply quiet_adds].
    destruct (pass_over_same (with_hub (set_queue q (hub_ y)) y)) as [Et Eh]. eapply quiet_adds; [exact Et|exact Eh].
  - apply hub_same; apply pass_over_same.
  - exists (outcomes told). split; [done|]. by eapply adds_delivery.
  - apply hub_same; apply pass_over_same.
  - exists (outcomes [r]). split; [done|]. apply adds_record.
  - apply incident_adds; [by apply Incidents.open_ok| |by repeat constructor]. intros _ fp'. apply open_opens.
  - apply incident_adds; [by apply Incidents.resolve_ok| |by repeat constructor]. intros _ fp'. apply resolve_closes.
  - apply incident_adds; [|intros Ht fp'; by apply status_opens|].
    + intros Ht. apply Incidents.map_ok; [|done]. intros i. by case_match.
    + apply List.Forall_forall. intros e He%list_elem_of_In. by apply list_elem_of_fmap in He as (i & -> & _).
Qed.

Lemma steps_steps y y' : rtc step y y' -> steps_adds y y'.
Proof.
  induction 1 as [y|y y1 y2 H _ (l2 & E2 & A2)]; [by apply hub_same|]. destruct (step_steps _ _ H) as (l1 & E1 & A1).
  exists (l1 ++ l2). split; [by rewrite E2, E1, app_assoc|]. by eapply adds_trans.
Qed.

Lemma stored_fingerprint_inj c c' : Z.abs c < 2 ^ 63 -> Z.abs c' < 2 ^ 63 -> stored_fingerprint c = stored_fingerprint c' -> c = c'.
Proof.
  intros H H' E. assert (Hs : forall n, Z.abs n < 2 ^ 63 -> stored_fingerprint n = str "notify-channel:" ++ decimal n).
  { intros n Hn. unfold stored_fingerprint, channel_fingerprint. apply take_ge. rewrite length_app. apply decimal_length in Hn.
    change (length (str "notify-channel:")) with 15%nat. lia. }
  rewrite !Hs in E by done. apply app_inv_head in E. by apply decimal_inj.
Qed.

(** C28 (invariant): an open incident of a channel means that its last push
    failed.  In whatever way the worker's steps, tests of channels, notices,
    other components' incidents and the operator interleave: a channel has at
    most one incident; it is open after a recorded failure and closed after a
    recorded success until the next outcome of that channel, unless somebody
    else spoke of it since; a channel without an outcome keeps what it had; and
    the log of pushes lists exactly these outcomes, in order.  Ids of channels
    within 64 bits have different incidents. *)
Theorem incidents_follow_outcomes (y0 y : notifier) :
  rtc step y0 y -> Incidents.table_ok (incidents (hub_ y0)) -> trace y0 = [] ->
  NoDup (Incidents.i_fingerprint <$> Incidents.rows (incidents (hub_ y)))
  /\ (forall c ok pre post, trace y = pre ++ Outcome c ok :: post ->
        Forall (fun e => (about e).1 <> stored_fingerprint c) post -> is_open (stored_fingerprint c) (incidents (hub_ y)) = negb ok)
  /\ (forall c, Forall (fun e => (about e).1 <> stored_fingerprint c) (trace y) ->
        is_open (stored_fingerprint c) (incidents (hub_ y)) = is_open (stored_fingerprint c) (incidents (hub_ y0)))
  /\ (exists rows, logs (hub_ y) = logs (hub_ y0) ++ rows /\ outcomes rows = filter (fun e => is_outcome e = true) (trace y))
  /\ (forall c c', Z.abs c < 2 ^ 63 -> Z.abs c' < 2 ^ 63 -> stored_fingerprint c = stored_fingerprint c' -> c = c').
Proof.
  intros H Hok Ht. destruct (steps_steps _ _ H) as (told & Et & [Ho Hp Hl]). rewrite Ht in Et. cbn in Et. rewrite Et. split_and!.
  - by apply Ho.
  - intros c ok pre post -> Hs. rewrite Hp by done. rewrite last_word_app, last_word_cons, last_word_silent by done.
    by rewrite bool_decide_eq_true_2.
  - intros c Hs. rewrite Hp by done. by apply last_word_silent.
  - exact Hl.
  - exact stored_fingerprint_inj.
Qed.

(** *** The worker goes on *)

Record alive (y : notifier) : Prop := {
  l_sleeps : forall u, worker y = Some (Sleeping u) -> u <= clock_ y + POLL_SECONDS;
  l_gates : forall rows l, worker y = Some (Sending rows l) -> exists ms, Gates.reached (d_channel <$> rows.*2) ms l }.

Lemma idle_bounded clock q : idle_time clock q <= POLL_SECONDS.
Proof. unfold idle_time. destruct (next_delivery_due_at q); lia. Qed.

Lemma alive_goto ph y : (forall u, ph <> Some (Sleeping u)) -> (forall rows l, ph <> Some (Sending rows l)) -> alive (goto ph y).
Proof. intros H1 H2. split; cbn; intros; [by destruct (H1 u)|by destruct (H2 rows l)]. Qed.

Lemma alive_pass_over y : alive (pass_over y).
Proof. unfold pass_over. destruct (closing y); by split. Qed.

(** Whatever leaves the worker's phase and turns no clock back. *)
Lemma alive_same y y' : alive y -> worker y' = worker y -> clock_ y <= clock_ y' -> alive y'.
Proof.
  intros [Hs Hg] Ew Hc. split.
  - intros u E. rewrite Ew in E. specialize (Hs u E). lia.
  - intros rows l E. rewrite Ew in E. by apply (Hg rows l).
Qed.

Lemma step_alive y y' : alive y -> step y y' -> alive y'.
Proof.
  intros Ha H. pose proof Ha as [Hs Hg]. inversion H; subst.
  all: try by apply (alive_same y).
  all: try by apply alive_pass_over.
  all: try by apply alive_goto.
  - by split.
  - destruct rows; [by apply alive_pass_over|]. split; cbn; [done|]. intros rows' l [= <- <-]. exists []. constructor.
  - split; cbn; [done|]. intros rows' l'' [= <- <-]. destruct (Hg _ _ H0) as [ms Hr]. eexists. by econstructor.
  - split; cbn; [done|]. intros rows' l'' [= <- <-]. destruct (Hg _ _ H0) as [ms Hr]. eexists. by econstructor.
  - split; cbn; [|done]. intros u [= <-]. pose proof (idle_bounded (clock_ y) (queue_ (hub_ y))). lia.
  - apply alive_goto; by destruct (closing y).
Qed.

Definition nowhere : world := mkWorld [] [] (fun _ => None) (fun _ => None) (fun _ => None).
Definition nobody : Senders.request -> Senders.reply := fun _ => Senders.Raised true [].

(** How many moves of its own the worker has ahead of it before it sleeps, at
    most: three for each delivery it can claim, and one for each other phase. *)
Definition ahead (y : notifier) : nat :=
  match worker y with
  | Some Expanding => 3 * CLAIM_BATCH + 4
  | Some Claiming => 3 * CLAIM_BATCH + 3
  | Some (Sending _ l) => 3 * length l - sum_list_with Gates.rank l + 2
  | Some Looking => 1
  | Some (Sleeping _) | None => 0
  end.

(** The pass is one move further: the worker still runs, unless it ended
    because the notifier is being closed. *)
Definition further (y y' : notifier) : Prop :=
  (ahead y' < ahead y)%nat /\ (closing y = false -> is_Some (worker y')).

Lemma pass_over_further ph y : worker y = Some ph -> (1 < ahead y)%nat -> further y (pass_over y).
Proof. intros E Hp. unfold further, pass_over. destruct (closing y); unfold ahead at 1; cbn; split; [lia|done|lia|by eexists]. Qed.

Lemma pass_over_other ph y y' : worker y = Some ph -> (1 < ahead y)%nat -> worker y' = worker y -> closing y' = closing y ->
  further y (pass_over y').
Proof. intros E Hp Ew Ec. unfold further. rewrite <- Ec. unfold ahead in *. rewrite <- Ew in *. by apply (pass_over_further ph). Qed.

Lemma pass_over_clock y : closing (pass_over y) = closing y /\ clock_ (pass_over y) = clock_ y.
Proof. unfold pass_over. by destruct (closing y) eqn:E; cbn; rewrite ?E. Qed.

Lemma claim_limited clock h rows h' : claim clock h = (rows, h') -> (length rows <= CLAIM_BATCH)%nat.
Proof.
  unfold claim, claim_deliveries. intros [= <- _]. unfold with_intents.
  set (ds := with_lease _ _ <$> _). assert (Hd : (length ds <= CLAIM_BATCH)%nat) by (unfold ds; rewrite length_fmap, length_take; lia).
  revert Hd. generalize CLAIM_BATCH. induction ds as [|d ds IH]; intros n Hn; cbn in *; [done|]. destruct (intent_of d (queue_ h)); cbn.
  - destruct n as [|n]; [lia|]. specialize (IH n). lia.
  - apply IH. lia.
Qed.

Lemma start_rank channels : sum_list_with Gates.rank (Gates.start channels) = 0%nat /\ length (Gates.start channels) = length channels.
Proof. unfold Gates.start. split; [|by rewrite length_fmap]. induction channels as [|c l IH]; [done|]. rewrite fmap_cons. exact IH. Qed.

(** A move of one of the deliveries uses up one of its three. *)
Lemma gate_further channels ms l m l' : Gates.reached channels ms l -> Gates.advance m l = Some l' ->
  (3 * length l' - sum_list_with Gates.rank l' < 3 * length l - sum_list_with Gates.rank l)%nat.
Proof.
  intros Hr Hm. pose proof (Gates.reached_bounded _ _ _ Hr) as [C1 _ _ R1].
  pose proof (Gates.reached_bounded _ _ _ (Gates.reached_move _ _ _ _ _ Hr Hm)) as [C2 _ _ R2]. rewrite length_app in R2. cbn in R2.
  pose proof (Gates.rank_bound l'). apply (f_equal length) in C1, C2. rewrite !length_fmap in C1, C2. lia.
Qed.

(** What a step does to a worker that runs. *)
Definition carries_on (ph : phase) (y y' : notifier) : Prop :=
  worker y' = worker y \/ further y y'
  \/ (worker y' = None /\ closing y = true)
  \/ (ph = Looking /\ y' = goto None y)
  \/ exists until, ph = Sleeping until /\ (wake y = true \/ until <= clock_ y) /\ worker y' = Some Expanding.

Lemma step_carries_on ph y y' : alive y -> worker y = Some ph -> step y y' -> carries_on ph y y'.
Proof.
  intros Ha E H. unfold carries_on.
  inversion H; subst; try (by left); match goal with W : worker y = _ |- _ => rewrite E in W; try done; try (injection W as ->) | _ => idtac end.
  - right; left. split; [unfold ahead; rewrite E; cbn; lia|by eexists].
  - right; left. apply (pass_over_other Expanding); [done| |done..]. unfold ahead. rewrite E. lia.
  - right; left. destruct rows as [|[i d] rows].
    + apply (pass_over_other Claiming); [done| |done..]. unfold ahead. rewrite E. lia.
    + split; [|by eexists]. unfold ahead. rewrite E. cbn [worker goto].
      destruct (start_rank (d_channel <$> ((i, d) :: rows).*2)) as [-> ->]. rewrite !length_fmap. apply claim_limited in H1. lia.
  - right; left. apply (pass_over_further Claiming); [done|]. unfold ahead. rewrite E. lia.
  - right; left. destruct (l_gates _ Ha _ _ E) as [ms Hr]. split; [|by eexists]. unfold ahead. rewrite E. cbn [worker goto].
    pose proof (gate_further _ _ _ _ _ Hr H1). lia.
  - right; left. destruct (l_gates _ Ha _ _ E) as [ms Hr]. split; [|by eexists]. unfold ahead. rewrite E. cbn [worker goto].
    pose proof (gate_further _ _ _ _ _ Hr H1). lia.
  - right; left. apply (pass_over_further (Sending rows l)); [done|]. unfold ahead. rewrite E. lia.
  - right; left. split; [unfold ahead; rewrite E; cbn; lia|by eexists].
  - do 3 right. by left.
  - destruct (closing y) eqn:Ec; [by right; right; left|]. do 4 right. by eexists.
  - right; right; left. done.
Qed.

(** One of the deliveries of a pass moves. *)
Lemma sending_moves rows l y : alive y -> worker y = Some (Sending rows l) -> ~ Gates.all_over l ->
  exists y', step y y' /\ further y y' /\ closing y' = closing y /\ clock_ y' = clock_ y.
Proof.
  intros Ha E Ho. destruct (l_gates _ Ha _ _ E) as [ms Hr]. destruct (Gates.sends_bounded _ _ _ Hr) as (_ & _ & _ & [?|(m & l' & Hm)]); [done|].
  assert (Hf : forall h told, further y (goto (Some (Sending rows l')) (logged told h y)) /\ further y (goto (Some (Sending rows l')) y)).
  { intros h told. unfold further, ahead. rewrite E. cbn [worker goto]. pose proof (gate_further _ _ _ _ _ Hr Hm). split; (split; [lia|by eexists]). }
  destruct (Gates.ends m) eqn:Ee.
  - destruct m as [n|n|n]; try done. pose proof Hm as Hm'. apply Gates.advance_inv in Hm' as (k & t & st & Hk & _ & -> & _).
    assert (Hl : (k < length rows)%nat).
    { apply lookup_lt_Some in Hk. pose proof (Gates.b_channels _ _ _ (Gates.reached_bounded _ _ _ Hr)) as Hc.
      apply (f_equal length) in Hc. rewrite !length_fmap in Hc. lia. }
    destruct (lookup_lt_is_Some_2 _ _ Hl) as [[i d] Hi].
    destruct (deliver_claimed nowhere nowhere nowhere (clock_ y) 0 i d nobody (hub_ y)) as [told h] eqn:Ed.
    eexists. split; [by eapply step_sent|]. split; [apply (Hf h told)|done].
  - eexists. split; [by eapply step_gate|]. split; [apply (Hf (hub_ y) [])|done].
Qed.

(** Nothing keeps a worker that is not asleep from its next move. *)
Lemma moves_on ph y : alive y -> worker y = Some ph -> (forall u, ph <> Sleeping u) ->
  exists y', step y y' /\ further y y' /\ closing y' = closing y /\ clock_ y' = clock_ y.
Proof.
  intros Ha E Hs. destruct ph as [| |rows l| |u].
  - eexists. split; [by apply (step_expand nowhere)|]. split; [|done]. split; [unfold ahead; rewrite E; cbn; lia|by eexists].
  - eexists. split; [by apply step_claim_raises|]. split; [|by destruct (pass_over_clock y)].
    apply (pass_over_further Claiming); [done|]. unfold ahead. rewrite E. lia.
  - destruct (Gates.all_over_dec l) as [Ho|Ho]; [|by eapply sending_moves].
    eexists. split; [by eapply step_gathered|]. split; [|by destruct (pass_over_clock y)].
    apply (pass_over_further (Sending rows l)); [done|]. unfold ahead. rewrite E. lia.
  - eexists. split; [by apply step_look|]. split; [|done]. split; [unfold ahead; rewrite E; cbn; lia|by eexists].
  - by destruct (Hs u).
Qed.

Lemma steps_alive y y' : rtc step y y' -> alive y -> alive y'.
Proof. induction 1 as [|y0 y1 y2 H1 _ IH]; [done|]. intros H0. apply IH. by eapply step_alive. Qed.

Lemma comes_to_sleep n : forall y, (ahead y < n)%nat -> alive y -> closing y = false -> is_Some (worker y) ->
  exists y1 u, rtc step y y1 /\ worker y1 = Some (Sleeping u) /\ closing y1 = false /\ clock_ y1 = clock_ y.
Proof.
  induction n as [|n IH]; [lia|]. intros y Hn Ha Hc [ph E].
  assert (Hp : (exists u, ph = Sleeping u) \/ forall u, ph <> Sleeping u) by (destruct ph; try (right; congruence); left; by eexists).
  destruct Hp as [[u ->]|Hp]; [by exists y, u|]. destruct (moves_on _ _ Ha E Hp) as (y1 & H1 & [Hl Hw] & Hc1 & Ht1).
  destruct (IH y1) as (y2 & u & H2 & W2 & C2 & T2); [lia|by eapply step_alive|congruence|by apply Hw|].
  exists y2, u. split; [by eapply rtc_l|]. by rewrite T2.
Qed.

(** The sleep ends by itself. *)
Lemma sleep_ends u y : alive y -> worker y = Some (Sleeping u) -> closing y = false ->
  exists y', rtc step y y' /\ worker y' = Some Expanding /\ clock_ y' = Z.max u (clock_ y).
Proof.
  intros Ha E Hc. set (y1 := mkNotifier (hub_ y) (closing y) (wake y) (worker y) (Z.max u (clock_ y)) (trace y)).
  assert (S1 : step y y1) by (apply step_clock; lia).
  assert (S2 : step y1 (goto (if closing y1 then None else Some Expanding) y1)) by (apply (step_wake u y1); [done|right; cbn; lia]).
  eexists. split; [eapply rtc_l; [exact S1|]; apply rtc_once; exact S2|]. cbn. by rewrite Hc.
Qed.

(** C29 (liveness): nothing but closing it and a look at the queue that fails
    ends the worker, and it comes back to the queue every [POLL_SECONDS].  In
    every state it reaches, whatever the rest of the server and the providers
    do: a step leaves a worker that runs in its phase, or takes it a move of its
    own further, of which a pass has at most [3 * CLAIM_BATCH + 4], whether the
    pass raises or not, or ends its sleep when it is kicked or its time is
    over; it ends the worker only while the notifier is being closed, or when
    the look for the next due row raises, which [_run] does not catch.  A sleep
    is at most [POLL_SECONDS] long.  And a worker that is not being closed can
    always finish the pass and sleep, and begin another pass [POLL_SECONDS]
    later at the latest, without a kick and with providers that never answer. *)
Theorem worker_stays_awake (h : hub) (c : Z) (y : notifier) (ph : phase) :
  rtc step (idle h c) y -> worker y = Some ph ->
  (forall y', step y y' -> carries_on ph y y')
  /\ (forall u, ph = Sleeping u -> u <= clock_ y + POLL_SECONDS)
  /\ (closing y = false -> exists y1 y2 u, rtc step y y1 /\ worker y1 = Some (Sleeping u) /\ rtc step y1 y2 /\ worker y2 = Some Expanding
        /\ clock_ y2 <= clock_ y + POLL_SECONDS).
Proof.
  intros H E. assert (Ha : alive y) by (eapply steps_alive; [exact H|by split]). split_and!.
  - intros y'. by apply step_carries_on.
  - intros u ->. by apply (l_sleeps _ Ha).
  - intros Hc. destruct (comes_to_sleep _ y (Nat.lt_succ_diag_r _) Ha Hc) as (y1 & u & H1 & W1 & C1 & T1); [by eexists|].
    assert (Ha1 := steps_alive _ _ H1 Ha). destruct (sleep_ends _ _ Ha1 W1 C1) as (y2 & H2 & W2 & T2).
    exists y1, y2, u. split_and!; [done..|]. pose proof (l_sleeps _ Ha1 _ W1). assert (0 <= POLL_SECONDS) by by vm_compute. lia.
Qed.

End Passes.
(** ** Witnesses *)

Definition sample_step : notifier -> notifier -> Prop :=
  step Notify.ascii_word Notify.sample_repr (fun _ => []) Notify.ascii_lower Notify.literal_search (fun _ => None) Senders.seconds_text (fun _ => None)
    (fun s => s) (fun k m => k ++ m) (fun _ => str "ValueError") (str "ValueError") 2 [1000000; 3000000] (str "1:a") (fun _ => []).

Definition quiet_hub (q : queue) : hub := mkHub q [] (Incidents.mkTable [] 1).
Definition bark_row : Channels.channel_row := Channels.mkRow 1 (str "phone") (str "bark") None true 0.
Definition one_channel : world := mkWorld [bark_row] [] (fun _ => None) (fun _ => None) (fun _ => None).
Definition refused_row : log_row := mkLog None 1 None false 3 (str "HTTP 500").
Definition after_refusal : notifier :=
  logged [refused_row] (record one_channel 1000 (quiet_hub empty_queue) refused_row) (idle (quiet_hub empty_queue) 1000000000).

Lemma incidents_follow_outcomes_witness : is_open (stored_fingerprint 1) (incidents (hub_ after_refusal)) = true.
Proof.
  assert (H : rtc sample_step (idle (quiet_hub empty_queue) 1000000000) after_refusal).
  { apply rtc_once. exact (step_direct _ _ _ _ _ _ _ _ _ _ _ _ _ _ _ _ one_channel refused_row _). }
  destruct (incidents_follow_outcomes _ _ _ _ _ _ _ _ _ _ _ _ _ _ _ _ _ _ H) as (_ & Hc & _); [constructor|done|].
  exact (Hc 1 false [] [] eq_refl (Forall_nil_2 _)).
Defined.

(** A worker that is about to claim. *)
Definition expanded : notifier := mkNotifier (quiet_hub empty_queue) false false (Some Claiming) 0 [].

Lemma expanded_reached : rtc sample_step (idle (quiet_hub empty_queue) 0) expanded.
Proof.
  eapply rtc_l; [by apply step_start|]. eapply rtc_l; [by apply (step_expand _ _ _ _ _ _ _ _ _ _ _ _ _ _ _ _ one_channel)|].
  refine (eq_rect _ (fun z => rtc sample_step _ z) (rtc_refl _ _) expanded _). vm_compute. reflexivity.
Qed.

Lemma worker_stays_awake_witness :
  (forall y', sample_step expanded y' -> carries_on Claiming expanded y')
  /\ exists y1 y2 u, rtc sample_step expanded y1 /\ worker y1 = Some (Sleeping u) /\ rtc sample_step y1 y2 /\ worker y2 = Some Expanding /\ clock_ y2 <= 5000000.
Proof.
  destruct (worker_stays_awake _ _ _ _ _ _ _ _ _ _ _ _ _ _ _ _ _ _ _ _ expanded_reached (eq_refl (Some Claiming))) as (H & _ & Hg).
  split; [exact H|exact (Hg eq_refl)].
Defined.

(** ** What the model showed *)

(** A duration beyond every bound, which JSON can spell and the gateway stores,
    makes [round] raise: the intent is skipped and the call announced to nobody. *)
Definition sample_summary : frame -> frame -> option pystr := call_summary Notify.sample_repr (fun _ => None).

Example endless_ring_is_silent :
  sample_summary [(str "peer", JStr (str "10086")); (str "ring_seconds", JFloat (SpecFloat.S754_infinity false))] [] = None
  /\ sample_summary [(str "peer", JStr (str "10086")); (str "ring_seconds", JFloat (SpecFloat.S754_finite false 5 (-1)))] []
     = Some (([0x3010; 0x6765; 0x7535; 0x3011] ++ str "10086 " ++ [0x6765; 0x7535]) ++ [10] ++ ([0x54CD; 0x94C3] ++ str ":2 " ++ [0x79D2])).
Proof. split; by vm_compute. Qed.

Definition sample_drain := drain Notify.ascii_word Notify.sample_repr (fun _ => []) Notify.ascii_lower Notify.literal_search (fun _ => None) Senders.seconds_text (fun _ => None)
    (fun s => s) (fun k m => k ++ m) (fun _ => str "ValueError") (str "ValueError") 2 [1000000; 3000000] (str "1:a") (fun _ => []).

(** [drain] is to "settle everything owed right now", but a pass that expands
    [EXPAND_BATCH] intents nobody is owed for claims nothing and ends it: the
    incoming call behind fifty outbound ones is still pending. *)
Definition call_intent (n : Z) (direction : string) : intent :=
  mkIntent n (str "call") None None [(str "direction", JStr (str direction))] [] [] IntentPending 1000.
Definition fifty_and_one : queue := mkQueue (((fun n => call_intent n "out") <$> seqZ 1 50) ++ [call_intent 51 "in"]) 51 [] 0.

Example drain_leaves_an_intent :
  n_id <$> pending_intents EXPAND_BATCH (queue_ (sample_drain one_channel 1000000000 0 nobody (quiet_hub fifty_and_one))) = [51].
Proof. by vm_compute. Qed.

(** [aclose] is to "let pushes already on the wire finish", but it cancels the
    worker and with it the sends: a delivery whose send was under way is not
    settled, nor is it by the drain that follows, and it will be sent again
    when its lease is over. *)
Definition one_push : queue := mkQueue [call_intent 1 "in"] 1 [] 0.

Example aclose_cuts_the_wire : exists y,
  rtc sample_step (idle (quiet_hub one_push) 1000000000) y /\ worker y = None /\ closing y = true
  /\ (fun d => (d_status d, d_attempts d, d_lease d)) <$> deliveries (queue_ (sample_drain one_channel 1000000000 0 nobody (hub_ y))) = [(Pending, 0, Some 1120)].
Proof.
  eexists. split.
  { eapply rtc_l; [by apply step_start|]. eapply rtc_l; [by apply (step_expand _ _ _ _ _ _ _ _ _ _ _ _ _ _ _ _ one_channel)|].
    eapply rtc_l; [by eapply step_claim; [|vm_compute; reflexivity]|]. cbn.
    eapply rtc_l; [by eapply (step_gate _ _ _ _ _ _ _ _ _ _ _ _ _ _ _ _ _ _ (Gates.TakeSlot 0)); [reflexivity|vm_compute; reflexivity|reflexivity]|].
    eapply rtc_l; [by eapply (step_gate _ _ _ _ _ _ _ _ _ _ _ _ _ _ _ _ _ _ (Gates.PassGate 0)); [reflexivity|vm_compute; reflexivity|reflexivity]|].
    eapply rtc_l; [by apply step_close|]. eapply rtc_l; [by apply step_cancel|]. apply rtc_refl. }
  split_and!; by vm_compute.
Qed.

End Notifier.
